(* ===== verification/_CoqProject ===== *)
-Q . S2P
Prelude.v
Platform.v
Framing.v
RadioFraming.v
Crypto.v
Packet.v
Channel.v
Identity.v
Announce.v
Ifac.v
Transport.v
Link.v
Node.v
StorageRecord.v
Request.v
PathStore.v
Resource.v
ResourceTransfer.v
Sha256.v
Lxmf.v
Stamp.v
Files.v
Tickets.v
RatchetStore.v
Utf8.v
Fields.v
FieldsParse.v
FieldsMerge.v
FieldsTicket.v
AttachmentName.v
Paper.v
Delivery.v
AnnounceData.v
Contacts.v
Handles.v
PacketNode.v
