(* ===== verification/Prelude.v ===== *)
(** * Reticulum Native: a verification library

    Reticulum Native ([src/], public headers in [include/reticulum/]) is a C
    implementation of the Reticulum network: nodes announce cryptographic
    identities, a transport node learns paths from the announces and forwards
    packets along them, two ends set up encrypted links, and channels, requests
    and messages run over the links. This library models the core of that stack,
    from the framing of a byte stream up to the decision of a transport node about
    a received packet, and proves the properties that make it correct.

    ** Parts, files and correspondence

    Every operation keeps the name of its C function; a record keeps the name of
    its C struct. Files, in dependency order:

    - [Prelude] (this file): machine integers, doubles, checked memory, big-endian
      fields, the hint database [rns] and the lemmas the components share.
    - [Platform]: [platform/status.c], [platform/buffer.c]; the allocator is the
      class [Allocator].
    - [Framing]: [interfaces/framing.c], modules [Hdlc] and [Kiss], over sections
      for callbacks, byte loops and simulations that both decoders instantiate.
    - [RadioFraming]: [interfaces/radio_framing.c], splitting and reassembly of
      packets over LoRa frames.
    - [Crypto]: the provider table of [include/reticulum/crypto.h] as the class
      [Crypto], which every later component is proved against, and
      [crypto/crypto.c], whose operations discharge the class from the documented
      behaviour of the library they call (class [OpenSSL]): which public key belongs to
      a private one is a relation, and the call that derives it may fail for any key.
      [toy_openssl] shows that both classes have instances, [toy_library false] that
      derivation can fail.
    - [Packet]: [packet/packet.c], the wire format and the packet hash.
    - [Channel]: [link/channel.c], the reliable ordered channel.
    - [Identity]: [identity/identity.c], [transport/proof.c] (module
      [DeliveryProof]) and [destination/destination.c] (module [Destination]).
    - [Announce]: [announce/announce.c].
    - [Ifac]: [transport/ifac.c], the interface access codes.
    - [Transport]: [transport/transport.c], the path, packet-hash, reverse and link
      tables of a transport node.
    - [Link]: [link/link.c], the handshake and the link's state machine.
    - [Node]: [transport/node.c], the decision about a received packet, composed of
      [Packet], [Announce], [Link] and [Transport].
    - [StorageRecord]: [platform/storage_record.c], the checksummed record and the
      two-slot journal.
    - [Request]: [link/request.c], the MessagePack walker and the codecs.
    - [PathStore]: [transport/path_store.c], the snapshot of the path table.
    - [Resource]: [link/resource.c], the advertisement, the receiver, the assembly
      and the sender of segmented transfers; the compression library is the class
      [Bzip2], with [toy_bzip2] as an instance.
    - [ResourceTransfer]: both ends of [Resource] over a link: the relation
      [transfer_step] of everything that can happen to a receiver, and the exchange
      of requests and answers.
    - [Sha256], [Lxmf], [Stamp]: [lxmf/lxmf.c], the streaming hash, the codec of
      signed messages over [Identity] and the grammar of [Request], and the stamps
      with the incremental job.
    - [Files]: a file that is replaced as a whole, with what each system call can
      report; [Tickets] ([lxmf/tickets.c]) and [RatchetStore]
      ([identity/ratchet_store.c]) are the two stores over it.
    - [Utf8], [Fields]: [lxmf/fields.c], the validation of text, the bounded reader
      of MessagePack, the standard fields of a message and merging into them, the
      merging of the ticket field, names for attachments. [FieldsParse] has the
      properties of the reader, [FieldsMerge] those of the writers and of a merge,
      [FieldsTicket] relates the reader to the one of [Lxmf], and [AttachmentName] is
      about the names.
    - [Paper]: [lxmf/paper.c], messages encrypted for printing and their URI.
    - [Delivery]: [lxmf/delivery.c], a message in one packet.
    - [AnnounceData], [Contacts]: [lxmf/router.c], what an announce says of a delivery
      destination, and the book of contacts.
    - [Handles]: [platform/interface.c], [platform/storage.c], the handles of what a
      platform provides, with the calls made to an interface.
    - [PacketNode]: [lxmf/packet_node.c], the endpoint of small boards, over [Delivery],
      [Announce], [AnnounceData] and [Handles]. What it calls outside is a log of events,
      and every answer may depend on all of it.

    ** Conventions of the models

    A C object of bytes is the list of its bytes and every access is checked:
    [None] of the outermost [option] is undefined behaviour, so a theorem that an
    operation returns [Some _] is a proof of memory safety. The tables of a transport
    are lists behind an [option], and a write at a slot outside one ([put]) leaves
    [None], which the invariant excludes. A pointer argument that
    may be null is an [option] or a [slice]. Pointers to whole structures that the
    code dereferences throughout ([rns_transport *], [rns_node *], ...) are taken
    as non-null, and the null test in front of them is not modelled. Fallible
    operations return the [rns_status] of the code; operations that change a
    structure return it as they leave it, on the error paths too. Unsigned integers
    are [Z] with the wrap-around written out ([wrap]); sizes that the code bounds
    are [nat]. [double] is the standard library's executable binary64 arithmetic.
    Callbacks (clock, transmit, frame delivery) act on an abstract context that is
    threaded through the calls in the order of the code. The success of [malloc] and
    the random choices of key generation are arguments.

    ** What the theorems show

    - Codecs ([Packet], [Announce], [Request], [StorageRecord], [Framing],
      [RadioFraming], [Ifac], [Identity]): round trips for every admissible input,
      characterisations of what a decoder accepts, memory safety on any bytes. The
      two stream decoders refine abstract machines that only split and unescape;
      the MessagePack walker recognises exactly a grammar given as a predicate; the
      checksum loop equals polynomial reduction, so that a record hides no change whose
      bits span at most 32 inside one of its parts.
    - State machines ([Channel], [Transport], [Link], [Node], [RadioFraming],
      [Resource], [StorageRecord]'s journal): invariants of every reachable state, by induction
      on the operations, with every operation returning; ordered exactly-once
      delivery, replay rejection, rejection of duplicates under any traffic that does
      not fill the packet-hash table, authenticated activation of links,
      exact rollback of failed forwards, crash safety of the journal.
    - Composition: [link_handshake] runs both ends of a handshake against each
      other through a forwarded packet; [rns_node_ingress_safe] and
      [node_run_safe] compose the codecs, links and tables under the node;
      [rns_path_store_decode_safe] restores a table that the transport's invariant
      holds of; [path_store_roundtrip] saves and restores one, or says which paths make
      the code refuse what it saved; [resource_transfer]
      takes a segment from the source of one end to the output of the other under
      any schedule, and [resource_exchange_completes] shows that the exchange of
      requests and answers ends with every part.
    - Messages ([Sha256], [Lxmf], [Stamp]): the streaming hash equals the hash of the
      joined message; a packed message is unpacked and verified, and what is
      accepted is signed; the ticket field is found; the job and the generator find
      the first stamp the validator accepts, and the cost and value of a stamp are
      given as numbers.
    - Fields ([Utf8] to [AttachmentName]): text is accepted exactly when it is UTF-8; what
      is parsed is well formed; a merge refines an abstract update of the fields and
      leaves every other entry as it was, byte for byte; a merged ticket is found by
      the other parser, because the two readers end an object at the same byte; the name
      derived for an attachment is given by a decomposition of its text.
    - Paper messages and packets ([Paper], [Delivery]): what is packed, printed as a URI, read
      back and unpacked is the message, verified; so is what is packed into a packet.
    - Contacts ([AnnounceData], [Contacts]): announced data is parsed safely and reads back
      the same, the two validators of text agree, and the book of contacts refines a
      bounded map.
    - The packet node ([PacketNode], [Handles]): any use of it is defined; what it delivers
      is signed by the owner of its source address, and not delivered again before 32 other
      messages; an interface handle keeps to the protocol of the provider.
    - Stores on disk ([Tickets], [RatchetStore]): after any sequence of operations, with
      any system call failing anywhere, memory and file agree and a failed operation
      has changed neither (a rotation can be complete and its public key underivable,
      which is reported as an error); issued tickets are honoured until they expire and messages
      to a ratchet are decrypted while it is retained.
    - Findings: [kiss_port_12_data_misread], [rns_ifac_unprotect_empty],
      [path_store_own_snapshot_rejected], [seconds_to_ms_boundary_undefined],
      [lxmf_unpack_fixstr_title], [fields_merge_unreadable] and [safe_name_hidden]
      prove behaviour the code does not intend; [node_forward_rollback] states what
      completing a failed forward really restores.

    ** Bounds and fuel

    Loops over arrays recurse on the list. Loops with another measure take fuel and
    are proved to need no more: [grow_loop] 64 doublings (the capacity is a [size_t]),
    [hkdf_loop] 255 rounds (the code's own limit on the output), [drain_loop] one
    round more than the receive slots; running out of fuel there is [None], which
    the safety theorems exclude. [skip_object] has 33 levels ([MAX_LEVELS], the
    code's depth limit), and [skip_children] one unit more than the bytes left: every
    child consumes one, so the fuel ends where the code fails on an empty cursor.
    [parse_fields] (11) and [prepare_attempts] (8) have the bounds of the code's own
    loops; [exchange] is given two rounds per part, which is proved enough.
    [sha_update_loop] has one unit per byte, [ticket_entries] one more than the bytes
    left, [utf8_loop] one per byte and [bit_count] the 32 bits of its argument; [skip]
    has the 33 levels of the code. [receive] of the packet node has two levels: a packet
    that was kept is received again from an announce, and is not an announce itself. The search of [generate_loop] is unbounded in the code: its theorem holds
    for any fuel and says what the first [fuel] attempts have found.

    ** Assumptions

    The laws of the class [OpenSSL]: output sizes, one public key for a private one,
    agreement of the two sides of a key exchange and verification of a made signature
    for such pairs, decryption of an encrypted block, determinism of the hashes; and of the class [Bzip2]: output within its
    capacity, decompression of a compressed buffer. Nothing is assumed about secrecy, forgery or
    collisions; where a property needs two hashes to differ it says so.

    ** Not modelled

    The runtime loop, the interface drivers, the platform layer and the
    configuration parser are mostly system calls around the modelled parts.
    The node registry and the rest of the message layer ([lxmf/] without [lxmf.c],
    [fields.c], [tickets.c], [paper.c], [delivery.c], [router.c] and [packet_node.c], [nomad/]) build on the modelled parts. The close functions of the stores only clear and release
    memory. Applications, terminal interface and firmware are glue. The installation of a second provider ([crypto/provider.c]) is not
    modelled beyond the class. *)

From Stdlib Require Import ZArith SpecFloat Lia.
From stdpp Require Export base list numbers option.

#[global] Open Scope Z_scope.
#[global] Open Scope list_scope.

Declare Scope rns_scope.
Delimit Scope rns_scope with rns.
#[global] Open Scope rns_scope.

Create HintDb rns discriminated.

(** ** Machine integers

    A [w]-bit unsigned integer is a [Z]; the wrap-around of C's unsigned
    arithmetic is the explicit reduction [wrap w]. *)
Definition wrap (w x : Z) : Z := x mod 2 ^ w.

Abbreviation wrap8 := (wrap 8).
Abbreviation wrap16 := (wrap 16).
Abbreviation wrap32 := (wrap 32).
Abbreviation wrap64 := (wrap 64).

Definition SIZE_MAX : Z := 2 ^ 64 - 1.
Definition UINT64_MAX : Z := 2 ^ 64 - 1.

(** Replace the limits by their numerals, which [lia] needs under division. *)
Ltac limits :=
  repeat change (SIZE_MAX / 2) with 9223372036854775807 in *;
  repeat change SIZE_MAX with 18446744073709551615 in *;
  repeat change UINT64_MAX with 18446744073709551615 in *.

(** The conversion to a signed [w]-bit integer, two's complement. *)
Definition swrap (w x : Z) : Z := (x + 2 ^ (w - 1)) mod 2 ^ w - 2 ^ (w - 1).

Definition in_width (w x : Z) : Prop := 0 <= x < 2 ^ w.
Abbreviation is_byte := (in_width 8).
Abbreviation bytes_ok := (Forall is_byte).

#[global] Instance in_width_dec w x : Decision (in_width w x).
Proof. unfold in_width. apply _. Defined.

Lemma wrap_small w x : in_width w x -> wrap w x = x.
Proof. unfold wrap, in_width. intros. by apply Z.mod_small. Qed.

Lemma wrap_in_width w x : 0 <= w -> in_width w (wrap w x).
Proof. intros. unfold wrap, in_width. apply Z.mod_pos_bound. lia. Qed.

Lemma wrap_incr w x : 0 <= w -> wrap w (wrap w x + 1) = wrap w (x + 1).
Proof. intros. unfold wrap. by rewrite Zplus_mod_idemp_l. Qed.

#[export] Hint Resolve wrap_in_width : rns.

(** ** Doubles

    A C [double] is an IEEE 754 binary64 datum: [spec_float] of the standard
    library, with its executable rounding addition and multiplication at
    precision 53 and maximal exponent 1024. *)
Abbreviation double := spec_float.

Definition dadd : double -> double -> double := SFadd 53 1024.
Definition dsub : double -> double -> double := SFsub 53 1024.
Definition dmul : double -> double -> double := SFmul 53 1024.
Definition ddiv : double -> double -> double := SFdiv 53 1024.
Definition d_of_Z (z : Z) : double := binary_normalize 53 1024 z 0 false.
Definition dzero : double := S754_zero false.

Definition isfinite (x : double) : bool :=
  match x with S754_zero _ | S754_finite _ _ _ => true | _ => false end.

(** [(uint64_t)x]: undefined for values whose integer part does not fit. *)
Definition d_to_u64 (x : double) : option Z :=
  match x with
  | S754_zero _ => Some 0
  | S754_finite false m e =>
      let v := if 0 <=? e then Z.shiftl (Z.pos m) e else Z.shiftr (Z.pos m) (- e) in
      if v <? 2 ^ 64 then Some v else None
  | S754_finite true m e => if Z.shiftr (Z.pos m) (- e) =? 0 then Some 0 else None
  | _ => None
  end.

Definition isnan (x : double) : bool :=
  match x with S754_nan => true | _ => false end.

Notation "x <.? y" := (SFltb x y) (at level 70, no associativity) : rns_scope.
Notation "x >=.? y" := (SFleb y x) (at level 70, no associativity) : rns_scope.
Notation "x <=.? y" := (SFleb x y) (at level 70, no associativity) : rns_scope.

(** The order of the non-NaN doubles is read off a triple of integers
    compared lexicographically. *)
Definition dkey (x : double) : Z * (Z * Z) :=
  match x with
  | S754_nan => (0, (0, 0))
  | S754_infinity true => (-2, (0, 0))
  | S754_finite true m e => (-1, (- e, Z.neg m))
  | S754_zero _ => (0, (0, 0))
  | S754_finite false m e => (1, (e, Z.pos m))
  | S754_infinity false => (2, (0, 0))
  end.

Definition klt (a b : Z * (Z * Z)) : Prop :=
  a.1 < b.1 \/ (a.1 = b.1 /\ (a.2.1 < b.2.1 \/ (a.2.1 = b.2.1 /\ a.2.2 < b.2.2))).

Lemma SFltb_key x y :
  (x <.? y) = true <-> isnan x = false /\ isnan y = false /\ klt (dkey x) (dkey y).
Proof.
  unfold SFltb, klt.
  destruct x as [sx|sx| |sx mx ex], y as [sy|sy| |sy my ey];
    try destruct sx; try destruct sy; simpl;
    rewrite ?Pos.compare_cont_spec; simpl;
    try (destruct (Z.compare_spec ex ey)); try (destruct (Pos.compare_spec mx my));
    simpl; try (split; intros; [discriminate | lia]); try (split; lia).
  all: try (split; [intros; discriminate|]; intros (?&?&?); lia).
Qed.

Lemma SFleb_key x y :
  (x <=.? y) = true <-> isnan x = false /\ isnan y = false /\ ~ klt (dkey y) (dkey x).
Proof.
  unfold SFleb, klt.
  destruct x as [sx|sx| |sx mx ex], y as [sy|sy| |sy my ey];
    try destruct sx; try destruct sy; simpl;
    rewrite ?Pos.compare_cont_spec; simpl;
    try (destruct (Z.compare_spec ex ey)); try (destruct (Pos.compare_spec mx my));
    simpl; try (split; intros; [discriminate | lia]); try (split; lia).
  all: try (split; [intros; discriminate|]; intros (?&?&?); lia).
Qed.

Lemma dlt_irrefl x : (x <.? x) = false.
Proof.
  apply not_true_is_false. rewrite SFltb_key. unfold klt. intros (_&_&?). lia.
Qed.

Lemma dlt_trans x y z : (x <.? y) = true -> (y <.? z) = true -> (x <.? z) = true.
Proof. rewrite !SFltb_key. unfold klt. intros (?&?&?) (?&?&?). repeat split; auto; lia. Qed.

Lemma dle_lt_trans x y z : (x <=.? y) = true -> (y <.? z) = true -> (x <.? z) = true.
Proof.
  rewrite !SFltb_key, SFleb_key. unfold klt. intros (?&?&?) (?&?&?). repeat split; auto; lia.
Qed.

Lemma dle_trans x y z : (x <=.? y) = true -> (y <=.? z) = true -> (x <=.? z) = true.
Proof. rewrite !SFleb_key. unfold klt. intros (?&?&?) (?&?&?). repeat split; auto; lia. Qed.

Lemma dle_refl x : isnan x = false -> (x <=.? x) = true.
Proof. rewrite SFleb_key. unfold klt. intros. repeat split; auto; lia. Qed.

Lemma dlt_le x y : (x <.? y) = true -> (x <=.? y) = true.
Proof. rewrite SFltb_key, SFleb_key. unfold klt. intros (?&?&?). repeat split; auto; lia. Qed.

(** On numbers, the complement of [<] is [>=]. *)
Lemma dlt_false x y :
  isnan x = false -> isnan y = false -> (x <.? y) = false -> (y <=.? x) = true.
Proof.
  intros Hx Hy Hlt. apply SFleb_key. repeat split; auto. intros Hk.
  apply (eq_true_false_abs _ (proj2 (SFltb_key x y) (conj Hx (conj Hy Hk))) Hlt).
Qed.

(** [x < y] and [x >= y] exclude one another, NaN included. *)
Lemma dlt_not_ge x y : (x <.? y) = true -> (x >=.? y) = false.
Proof.
  rewrite SFltb_key. intros (?&?&?). apply not_true_is_false. rewrite SFleb_key. tauto.
Qed.

Lemma isfinite_isnan x : isfinite x = true -> isnan x = false.
Proof. by destruct x. Qed.

Lemma dlt_finite x y z : (x <.? y) = true -> (y <.? z) = true -> isfinite y = true.
Proof.
  rewrite !SFltb_key. intros (_ & Hy & H1) (_ & _ & H2). destruct y as [sy|sy| |sy my ey]; try done.
  destruct sy; unfold klt in *; simpl in *.
  - destruct x as [sx|sx| |sx mx ex]; try destruct sx; simpl in *; lia.
  - destruct z as [sx|sx| |sx mx ex]; try destruct sx; simpl in *; lia.
Qed.

Lemma dlt_asym x y : (x <.? y) = true -> (y <.? x) = false.
Proof. intros H. apply not_true_is_false. intros H'. pose proof (dlt_trans _ _ _ H H') as Hc. by rewrite dlt_irrefl in Hc. Qed.

#[export] Hint Resolve dle_refl dlt_le isfinite_isnan : rns.

(** ** Memory

    A C object of bytes is the list of its bytes. Every access is bounds
    checked and an access outside the object has no result: [None] is
    undefined behaviour, and a theorem that a routine returns [Some _] is a
    proof of its memory safety. *)
Definition load (m : list Z) (i : nat) : option Z := m !! i.

Definition store (m : list Z) (i : nat) (b : Z) : option (list Z) :=
  if decide (i < length m)%nat then Some (<[i := b]> m) else None.

(** [memcpy(m + off, src, length src)] *)
Definition memcpy (m : list Z) (off : nat) (src : list Z) : option (list Z) :=
  if decide (off + length src <= length m)%nat
  then Some (take off m ++ src ++ drop (off + length src) m) else None.

Lemma memcpy_nil m off m' : memcpy m off [] = Some m' -> m' = m.
Proof. unfold memcpy. case_decide; [|done]. cbn [length app]. rewrite Nat.add_0_r, take_drop. by intros [= ->]. Qed.

(** The [n] bytes at [m + off]. *)
Definition memread (m : list Z) (off n : nat) : option (list Z) :=
  if decide (off + n <= length m)%nat then Some (take n (drop off m)) else None.

(** [memset(m + off, b, n)] *)
Definition memset (m : list Z) (off : nat) (b : Z) (n : nat) : option (list Z) :=
  memcpy m off (replicate n b).

(** [memcmp(a, b, n) == 0] on two [n]-byte arrays. *)
Definition memeq (a b : list Z) : bool := bool_decide (a = b).

Lemma memeq_true a b : memeq a b = true <-> a = b.
Proof. unfold memeq. by rewrite bool_decide_eq_true. Qed.

Lemma memeq_refl a : memeq a a = true.
Proof. by apply memeq_true. Qed.

Lemma memeq_false a b : memeq a b = false <-> a <> b.
Proof. unfold memeq. by rewrite bool_decide_eq_false. Qed.

(** A (pointer, length) argument pair: a null pointer with a claimed length,
    or a pointer to exactly the given bytes. *)
Inductive slice : Type :=
| SNull (n : nat)
| SBytes (l : list Z).

Definition slice_length (s : slice) : nat :=
  match s with SNull n => n | SBytes l => length l end.

Definition slice_is_null (s : slice) : bool :=
  match s with SNull _ => true | SBytes _ => false end.

(** The bytes read through a slice that passed its null check. *)
Definition slice_bytes (s : slice) : list Z :=
  match s with SNull _ => [] | SBytes l => l end.

(** [ptr == NULL && length != 0] *)
Definition slice_bad (s : slice) : bool :=
  slice_is_null s && negb (slice_length s =? 0)%nat.

Lemma slice_bad_length s : slice_bad s = false -> slice_length s = length (slice_bytes s).
Proof. destruct s; unfold slice_bad; simpl; [|done]. destruct (Nat.eqb_spec n 0); naive_solver. Qed.

(** *** Writing a buffer front to back *)

(** [m] is an object of [n] bytes whose first bytes are [w]. *)
Definition wrote (n : nat) (m w : list Z) : Prop :=
  length m = n /\ take (length w) m = w /\ (length w <= n)%nat.

Lemma wrote_nil n m : length m = n -> wrote n m [].
Proof. intros. split_and!; simpl; auto. lia. Qed.

Lemma wrote_memcpy n m w src :
  wrote n m w -> (length w + length src <= n)%nat ->
  exists m', memcpy m (length w) src = Some m' /\ wrote n m' (w ++ src).
Proof.
  intros (Hl & Ht & Hle) Hs. unfold memcpy.
  rewrite decide_True by lia. eexists. split; [done|].
  unfold wrote. rewrite !length_app, length_take, length_drop, Ht. split_and!; [lia| |lia].
  rewrite app_assoc, <-(length_app w src). by rewrite take_app_length.
Qed.

Lemma wrote_store n m w b :
  wrote n m w -> (length w < n)%nat ->
  exists m', store m (length w) b = Some m' /\ wrote n m' (w ++ [b]).
Proof.
  intros (Hl & Ht & Hle) Hs. unfold store. rewrite decide_True by lia.
  eexists. split; [done|]. unfold wrote.
  rewrite length_app, length_insert. split_and!; [done| |simpl; lia].
  rewrite Nat.add_comm. change (1 + length w)%nat with (S (length w)).
  rewrite (take_S_r _ _ b) by (apply list_lookup_insert_eq; lia).
  by rewrite take_insert_ge, Ht by lia.
Qed.

Lemma wrote_store2 n m w b c :
  wrote n m w -> (length w + 2 <= n)%nat ->
  exists m1 m2, store m (length w) b = Some m1 /\ store m1 (length w + 1) c = Some m2 /\
    wrote n m2 (w ++ [b; c]).
Proof.
  intros Hw Hn. destruct (wrote_store n m w b Hw) as (m1 & Hm1 & Hw1); [lia|].
  destruct (wrote_store n m1 _ c Hw1) as (m2 & Hm2 & Hw2); [rewrite length_app; simpl; lia|].
  rewrite length_app in Hm2. rewrite <-app_assoc in Hw2. eauto.
Qed.

Lemma wrote_read n m w : wrote n m w -> memread m 0 (length w) = Some w.
Proof.
  intros (Hl & Ht & Hle). unfold memread. rewrite decide_True by lia.
  by rewrite drop_0, Ht.
Qed.

(** Such an object is [w] followed by the rest. *)
Lemma wrote_split n m w : wrote n m w -> exists rest, m = w ++ rest /\ n = length (w ++ rest).
Proof.
  intros (Hl & Ht & Hle). exists (drop (length w) m). pose proof (take_drop (length w) m) as E.
  rewrite Ht in E. by rewrite E.
Qed.

Lemma wrote_app w rest : wrote (length (w ++ rest)) (w ++ rest) w.
Proof. split_and!; [done|by rewrite take_app_length|rewrite length_app; lia]. Qed.

Lemma wrote_full n m w : wrote n m w -> length w = n -> m = w.
Proof. intros (Hl & Ht & Hle) Hw. rewrite <-Ht. by rewrite take_ge by lia. Qed.

#[export] Hint Resolve wrote_nil : rns.

(** ** Big-endian fields *)
Fixpoint be_decode_from (acc : Z) (l : list Z) : Z :=
  match l with
  | [] => acc
  | b :: l => be_decode_from (acc * 256 + b) l
  end.

Definition be_decode (l : list Z) : Z := be_decode_from 0 l.

Fixpoint be_encode (n : nat) (x : Z) : list Z :=
  match n with
  | O => []
  | S k => be_encode k (x / 256) ++ [x mod 256]
  end.

Lemma length_be_encode n x : length (be_encode n x) = n.
Proof. revert x. induction n; intros x; simpl; [done|]. rewrite length_app, IHn. simpl. lia. Qed.

Lemma be_encode_bytes n x : bytes_ok (be_encode n x).
Proof.
  revert x. induction n; intros x; simpl; [constructor|].
  apply Forall_app. split; [apply IHn|]. constructor; [|constructor].
  apply Z.mod_pos_bound. lia.
Qed.

Lemma be_decode_from_app acc a b :
  be_decode_from acc (a ++ b) = be_decode_from (be_decode_from acc a) b.
Proof. revert acc. induction a; intros acc; simpl; auto. Qed.

Lemma be_decode_encode n x :
  0 <= x < 256 ^ Z.of_nat n -> be_decode (be_encode n x) = x.
Proof.
  unfold be_decode. revert x. induction n; intros x Hx; simpl; [simpl in Hx; lia|].
  rewrite be_decode_from_app, IHn; simpl.
  - pose proof (Z.div_mod x 256). lia.
  - rewrite Nat2Z.inj_succ, Z.pow_succ_r in Hx by lia.
    split; [apply Z.div_pos; lia|]. apply Z.div_lt_upper_bound; lia.
Qed.

Lemma be_decode_from_bounds acc l :
  bytes_ok l -> 0 <= acc ->
  0 <= be_decode_from acc l < (acc + 1) * 256 ^ Z.of_nat (length l).
Proof.
  intros Hl. revert acc. induction Hl as [|b l Hb Hl IH]; intros acc Hacc; simpl; [lia|].
  unfold in_width in Hb. specialize (IH (acc * 256 + b) ltac:(lia)).
  rewrite Nat2Z.inj_succ, Z.pow_succ_r by lia. nia.
Qed.

Lemma be_decode_bounds l :
  bytes_ok l -> 0 <= be_decode l < 256 ^ Z.of_nat (length l).
Proof. intros Hl. pose proof (be_decode_from_bounds 0 l Hl). unfold be_decode. lia. Qed.

Lemma be_encode_decode l : bytes_ok l -> be_encode (length l) (be_decode l) = l.
Proof.
  unfold be_decode. induction l as [|b l IH] using rev_ind; intros Hl; [done|].
  apply Forall_app in Hl as [Hl Hb]. apply Forall_cons_1 in Hb as [Hb _].
  unfold in_width in Hb.
  rewrite length_app, be_decode_from_app. simpl.
  rewrite Nat.add_comm. simpl. f_equal.
  - rewrite Z.div_add_l by lia. rewrite (Z.div_small b) by lia. rewrite Z.add_0_r. auto.
  - f_equal. pose proof (Z.mod_small b 256 ltac:(lia)) as Hm.
    by rewrite Z.add_comm, Z.mod_add by lia.
Qed.

(** [(a << n) | b] on disjoint bits is [a * 2^n + b]. *)
Lemma lor_shiftl_add a b n : 0 <= n -> in_width n b -> Z.lor (Z.shiftl a n) b = a * 2 ^ n + b.
Proof.
  intros Hn Hb. rewrite <-Z.shiftl_mul_pow2 by done.
  rewrite Z.add_nocarry_lxor, Z.lxor_lor; [done|..].
  all: apply Z.bits_inj'; intros i Hi; rewrite Z.land_spec, Z.shiftl_spec, Z.bits_0 by done.
  all: destruct (Z.lt_ge_cases i n); [by rewrite Z.testbit_neg_r by lia|].
  all: rewrite <-(Z.mod_small b (2 ^ n)), Z.mod_pow2_bits_high, andb_false_r by (unfold in_width in Hb; lia); done.
Qed.

(** The loop [value = (value << 8) | byte] on a [uint64_t]. *)
Definition shift_bytes (l : list Z) : Z := foldl (λ v b, wrap64 (Z.lor (Z.shiftl v 8) b)) 0 l.

Lemma shift_bytes_be l : bytes_ok l -> (length l <= 8)%nat -> shift_bytes l = be_decode l.
Proof.
  induction l as [|b l IH] using rev_ind; [done|]. intros Hb Hl. apply Forall_app in Hb as [Hb Hx].
  apply Forall_cons_1 in Hx as [Hx _]. rewrite length_app in Hl. simpl in Hl.
  unfold shift_bytes in *. rewrite foldl_app. simpl. rewrite IH by (done || lia).
  rewrite lor_shiftl_add by (done || lia). unfold be_decode. rewrite be_decode_from_app. simpl.
  apply wrap_small. pose proof (be_decode_bounds l Hb) as Hd. unfold be_decode, in_width in *.
  assert (256 ^ Z.of_nat (length l) <= 256 ^ 7) by (apply Z.pow_le_mono_r; lia).
  change (256 ^ 7) with (2 ^ 56) in *. lia.
Qed.

Lemma split_at (b : list Z) (n : nat) : (n <= length b)%nat -> exists x y, b = x ++ y /\ length x = n.
Proof. intros. exists (take n b), (drop n b). rewrite take_drop, length_take. split; [done|lia]. Qed.

(** Reading a piece of a concatenation. *)
Lemma memread_in m i n : (i + n <= length m)%nat -> memread m i n = Some (take n (drop i m)).
Proof. intros. unfold memread. by rewrite decide_True. Qed.

Lemma memread_at m a b c i n :
  m = a ++ b ++ c -> i = length a -> n = length b -> memread m i n = Some b.
Proof.
  intros -> -> ->. unfold memread. rewrite decide_True by (rewrite !length_app; lia).
  by rewrite drop_app_length, take_app_length.
Qed.

Lemma load_at m a b c i : m = a ++ b :: c -> i = length a -> load m i = Some b.
Proof. intros -> ->. unfold load. by rewrite list_lookup_middle. Qed.

Lemma bind_Some_eq {A B} (o : option A) (f : A -> option B) x : o = Some x -> o ≫= f = f x.
Proof. by intros ->. Qed.

(** *** Writing field after field *)

Lemma memcpy_at m a b c src i :
  m = a ++ b ++ c -> i = length a -> length src = length b -> memcpy m i src = Some (a ++ src ++ c).
Proof.
  intros -> -> Hl. unfold memcpy. rewrite decide_True by (rewrite !length_app; lia).
  by rewrite take_app_length, Hl, (app_assoc a b c), <-length_app, drop_app_length.
Qed.

(** Consecutive writes at a cursor. *)
Fixpoint put_all (output : list Z) (cursor : nat) (fields : list (list Z)) : option (list Z * nat) :=
  match fields with
  | [] => Some (output, cursor)
  | f :: rest => output ← memcpy output cursor f; put_all output (cursor + length f) rest
  end.

Lemma put_all_wrote n fields o w :
  wrote n o w -> (length w + length (concat fields) <= n)%nat ->
  exists o', put_all o (length w) fields = Some (o', length w + length (concat fields))%nat /\ wrote n o' (w ++ concat fields).
Proof.
  revert o w. induction fields as [|f fields IH]; intros o w Hw Hl; cbn [put_all concat] in *.
  { exists o. cbn. by rewrite Nat.add_0_r, app_nil_r. }
  rewrite length_app in Hl. destruct (wrote_memcpy n o w f Hw) as (o1 & -> & Hw1); [lia|]. cbn [mbind option_bind].
  destruct (IH o1 _ Hw1) as (o' & Hp & Hw'); [rewrite length_app; lia|]. exists o'. rewrite length_app in Hp. rewrite Hp, length_app.
  split; [do 2 f_equal; lia|by rewrite app_assoc].
Qed.

(** ** Deciding a property of small integers by evaluation *)
Lemma forall_below (n : Z) (f : Z -> bool) :
  forallb f (seqZ 0 n) = true -> forall x, 0 <= x < n -> f x = true.
Proof.
  rewrite forallb_forall. intros Hf x Hx. apply Hf, list_elem_of_In, elem_of_seqZ. lia.
Qed.

Lemma forall_below2 (n k : Z) (f : Z -> Z -> bool) :
  forallb (λ x, forallb (f x) (seqZ 0 k)) (seqZ 0 n) = true ->
  forall x y, 0 <= x < n -> 0 <= y < k -> f x y = true.
Proof.
  intros Hf x y Hx Hy. apply (forall_below k); [|done].
  by apply (forall_below n (λ x, forallb (f x) (seqZ 0 k))).
Qed.
