(* ===== verification/Platform.v ===== *)
(** * Platform layer: status codes and the growable byte buffer

    [Status] models [include/reticulum/status.h] and [src/platform/status.c];
    [Buffer] models [src/platform/buffer.c]. The allocator is an interface
    (class [Allocator]) because [realloc] may fail at any call and leaves the
    bytes past the old contents unspecified. *)

From Stdlib Require Import ZArith Lia String.
From S2P Require Import Prelude.

(** ** Status codes *)
Inductive rns_status : Type :=
| RNS_OK
| RNS_ERROR_INVALID_ARGUMENT
| RNS_ERROR_NO_MEMORY
| RNS_ERROR_IO
| RNS_ERROR_TIMEOUT
| RNS_ERROR_CRYPTO
| RNS_ERROR_PROTOCOL
| RNS_ERROR_NOT_FOUND
| RNS_ERROR_INVALID_STATE
| RNS_ERROR_UNSUPPORTED
| RNS_ERROR_OVERFLOW
| RNS_ERROR_QUARANTINED.

#[global] Instance rns_status_eq_dec : EqDecision rns_status.
Proof. solve_decision. Defined.

(** [status == RNS_OK] *)
Definition is_ok (s : rns_status) : bool :=
  match s with RNS_OK => true | _ => false end.

Lemma is_ok_true s : is_ok s = true <-> s = RNS_OK.
Proof. by destruct s. Qed.

Module Status.

(** The enumerator's integer value. *)
Definition to_Z (s : rns_status) : Z :=
  match s with
  | RNS_OK => 0 | RNS_ERROR_INVALID_ARGUMENT => 1 | RNS_ERROR_NO_MEMORY => 2
  | RNS_ERROR_IO => 3 | RNS_ERROR_TIMEOUT => 4 | RNS_ERROR_CRYPTO => 5
  | RNS_ERROR_PROTOCOL => 6 | RNS_ERROR_NOT_FOUND => 7
  | RNS_ERROR_INVALID_STATE => 8 | RNS_ERROR_UNSUPPORTED => 9
  | RNS_ERROR_OVERFLOW => 10 | RNS_ERROR_QUARANTINED => 11
  end.

(** [rns_status_string] on any integer the enum may hold. *)
Definition rns_status_string (v : Z) : string :=
  match v with
  | 0 => "success" | 1 => "invalid argument" | 2 => "out of memory"
  | 3 => "I/O error" | 4 => "timeout" | 5 => "cryptographic error"
  | 6 => "protocol error" | 7 => "not found" | 8 => "invalid state"
  | 9 => "unsupported" | 10 => "overflow" | 11 => "quarantined record"
  | _ => "unknown error"
  end%string.

(** Distinct status codes have distinct texts, and none of them reads as the
    fallback text. *)
Lemma rns_status_string_inj s t :
  rns_status_string (to_Z s) = rns_status_string (to_Z t) -> s = t.
Proof. destruct s, t; vm_compute; intros; congruence. Qed.

End Status.

(** ** The allocator interface *)

(** [realloc m n] is the object [realloc] returns for an object [m] ([[]] for
    the null pointer) and a new size [n]; [None] is the null result. The law
    is the C standard's: on success the object has the requested size and
    keeps the old bytes. *)
Class Allocator : Type := {
  realloc : list Z -> nat -> option (list Z);
  realloc_spec m n m' :
    realloc m n = Some m' -> (length m <= n)%nat -> length m' = n /\ take (length m) m' = m
}.

(** A concrete allocator: zero-filled memory, up to a limit. *)
Definition limited_realloc (limit : nat) (m : list Z) (n : nat) : option (list Z) :=
  if decide (n <= limit)%nat then Some (take n m ++ replicate (n - length m) 0) else None.

#[global, refine] Instance limited_allocator (limit : nat) : Allocator | 100 :=
  {| realloc := limited_realloc limit |}.
Proof.
  intros m n m'. unfold limited_realloc. case_decide; [|done]. intros [= <-] Hn.
  rewrite (take_ge m n) by lia. rewrite length_app, length_replicate. split; [lia|].
  by rewrite take_app_length.
Defined.

Module Buffer.

(** The allocated object ([[]] for a null [data]), the bytes in use and the
    recorded capacity. *)
Record rns_buffer_t : Type := {
  data : list Z;
  len : Z;
  capacity : Z
}.

(** The object has the recorded capacity, holds [len] used bytes and fits the
    address space. *)
Definition wf (b : rns_buffer_t) : Prop :=
  Z.of_nat (length b.(data)) = b.(capacity) /\
  0 <= b.(len) <= b.(capacity) /\ b.(capacity) <= SIZE_MAX.

(** The used bytes. *)
Definition contents (b : rns_buffer_t) : list Z := take (Z.to_nat b.(len)) b.(data).

Definition rns_buffer_init : rns_buffer_t := {| data := []; len := 0; capacity := 0 |}.

(** [free] and re-initialisation: the old object is gone. *)
Definition rns_buffer_clear (_ : rns_buffer_t) : rns_buffer_t := rns_buffer_init.

(** The doubling loop of [rns_buffer_append]; [None] is a loop that did not
    finish within the fuel. *)
Fixpoint grow_loop (fuel : nat) (capacity required : Z) : option Z :=
  if capacity <? required then
    if SIZE_MAX / 2 <? capacity then Some required
    else match fuel with
         | O => None
         | S fuel => grow_loop fuel (capacity * 2) required
         end
  else Some capacity.

Section Operations.
Context `{Allocator}.

Definition rns_buffer_reserve (b : rns_buffer_t) (n : Z) : rns_status * rns_buffer_t :=
  if n <=? b.(capacity) then (RNS_OK, b)
  else match realloc b.(data) (Z.to_nat n) with
       | None => (RNS_ERROR_NO_MEMORY, b)
       | Some m => (RNS_OK, {| b with data := m; capacity := n |})
       end.

Definition rns_buffer_resize (b : rns_buffer_t) (n : Z) : option (rns_status * rns_buffer_t) :=
  let '(status, b) := rns_buffer_reserve b n in
  if negb (is_ok status) then Some (status, b)
  else
    m ← (if b.(len) <? n
         then memset b.(data) (Z.to_nat b.(len)) 0 (Z.to_nat (n - b.(len)))
         else Some b.(data));
    Some (RNS_OK, {| b with data := m; len := n |}).

(** The growth step of [rns_buffer_append]: double from the current capacity
    (from 64 for an empty buffer) until the request fits. *)
Definition append_reserve (b : rns_buffer_t) (required : Z) : option (rns_status * rns_buffer_t) :=
  if b.(capacity) <? required then
    c ← grow_loop 64 (if b.(capacity) =? 0 then 64 else b.(capacity)) required;
    Some (rns_buffer_reserve b c)
  else Some (RNS_OK, b).

(** [src] with [length] equal to the bytes it holds, or null with the claimed
    length. *)
Definition rns_buffer_append (b : rns_buffer_t) (src : slice) : option (rns_status * rns_buffer_t) :=
  let n := Z.of_nat (slice_length src) in
  if slice_bad src then Some (RNS_ERROR_INVALID_ARGUMENT, b)
  else if SIZE_MAX - b.(len) <? n then Some (RNS_ERROR_OVERFLOW, b)
  else
    let required := b.(len) + n in
    r ← append_reserve b required;
    let '(status, b) := r in
    if negb (is_ok status) then Some (status, b)
    else
      m ← (if negb (n =? 0) then memcpy b.(data) (Z.to_nat b.(len)) (slice_bytes src)
           else Some b.(data));
      Some (RNS_OK, {| b with data := m; len := required |}).

(** *** The doubling loop terminates and covers the request *)

Lemma grow_loop_spec fuel c required :
  0 < c -> required <= SIZE_MAX -> SIZE_MAX < c * 2 ^ Z.of_nat (S fuel) ->
  exists c', grow_loop fuel c required = Some c' /\ required <= c' /\
    (c' = c \/ c' <= SIZE_MAX).
Proof.
  revert c. induction fuel as [|fuel IH]; intros c Hc Hr Hf; cbn [grow_loop];
    (destruct (Z.ltb_spec c required); [|exists c; auto]);
    (destruct (Z.ltb_spec (SIZE_MAX / 2) c);
      [exists required; split_and!; auto; lia|]).
  - change (2 ^ Z.of_nat 1) with 2 in Hf. limits. lia.
  - destruct (IH (c * 2)) as (c' & ? & ? & ?); [lia|lia| |].
    + rewrite Nat2Z.inj_succ, Z.pow_succ_r in Hf by lia. lia.
    + exists c'. split_and!; auto. right. limits. lia.
Qed.

Lemma grow_loop_covers c required :
  0 < c -> required <= SIZE_MAX -> c < required ->
  exists c', grow_loop 64 c required = Some c' /\ required <= c' <= SIZE_MAX.
Proof.
  intros Hc Hr Hlt. destruct (grow_loop_spec 64 c required) as (c' & ? & ? & ?);
    [lia|lia| |].
  - change (2 ^ Z.of_nat 65) with (2 * 2 ^ 64). limits. lia.
  - exists c'. split; auto. lia.
Qed.

(** *** Invariant and functional behaviour *)

Lemma rns_buffer_init_wf : wf rns_buffer_init.
Proof. unfold wf, SIZE_MAX. simpl. lia. Qed.

Lemma rns_buffer_reserve_wf b n status b' :
  wf b -> n <= SIZE_MAX -> rns_buffer_reserve b n = (status, b') ->
  wf b' /\ contents b' = contents b /\ b'.(len) = b.(len) /\
  (status = RNS_OK -> n <= b'.(capacity)).
Proof.
  intros (Hl & Hb & Hs) Hn. unfold rns_buffer_reserve.
  destruct (Z.leb_spec n b.(capacity)); [by intros [= <- <-]|].
  destruct (realloc _ _) as [m|] eqn:Hm; intros [= <- <-];
    [|split_and!; [by unfold wf|done|done|discriminate]].
  apply realloc_spec in Hm as [Hm1 Hm2]; [|lia].
  split_and!; [unfold wf; simpl; lia| |done|simpl; lia].
  unfold contents. simpl. etransitivity; [|apply (f_equal (take _)), Hm2].
  by rewrite take_take, Nat.min_l by lia.
Qed.

Lemma append_reserve_spec b required :
  wf b -> 0 <= required <= SIZE_MAX ->
  exists status b', append_reserve b required = Some (status, b') /\
    wf b' /\ contents b' = contents b /\ b'.(len) = b.(len) /\
    (status = RNS_OK -> required <= b'.(capacity)).
Proof.
  intros Hwf Hr. unfold append_reserve.
  destruct (Z.ltb_spec b.(capacity) required); [|by eexists _, _].
  pose proof Hwf as (?&?&?).
  assert (exists c, grow_loop 64 (if b.(capacity) =? 0 then 64 else b.(capacity)) required
    = Some c /\ required <= c <= SIZE_MAX) as (c & -> & Hc).
  { destruct (Z.eqb_spec b.(capacity) 0) as [E|E]; [|apply grow_loop_covers; lia].
    destruct (Z.lt_ge_cases 64 required); [apply grow_loop_covers; lia|].
    exists 64. cbn [grow_loop]. destruct (Z.ltb_spec 64 required); [lia|].
    limits. split; [done|lia]. }
  simpl. destruct (rns_buffer_reserve b c) as [st b1] eqn:Hres.
  eapply rns_buffer_reserve_wf in Hres as (?&?&?&Hcap); [|done|lia].
  eexists _, _. split_and!; eauto. intros E. specialize (Hcap E). lia.
Qed.

Lemma length_contents b : wf b -> length (contents b) = Z.to_nat b.(len).
Proof. intros (?&?&?). unfold contents. rewrite length_take. lia. Qed.

Lemma contents_wrote b : wf b -> wrote (length b.(data)) b.(data) (contents b).
Proof.
  intros Hwf. pose proof (length_contents b Hwf) as Hl. destruct Hwf as (?&?&?).
  unfold wrote. rewrite Hl. split_and!; [done|done|lia].
Qed.

(** Writing [src] behind the used bytes of an object with room for it. *)
Lemma memcpy_contents b src :
  wf b -> b.(len) + Z.of_nat (length src) <= b.(capacity) ->
  exists m, memcpy b.(data) (Z.to_nat b.(len)) src = Some m /\
    let b' := {| b with data := m; len := b.(len) + Z.of_nat (length src) |} in
    wf b' /\ contents b' = contents b ++ src.
Proof.
  intros Hwf Hcap. pose proof (length_contents b Hwf) as Hlc.
  destruct (wrote_memcpy _ _ _ src (contents_wrote b Hwf)) as (m & Hm & Hl & Ht & Hle).
  { destruct Hwf as (?&?&?). lia. }
  rewrite <-Hlc. exists m. split; [done|]. destruct Hwf as (?&?&?).
  split; [unfold wf; simpl; lia|]. unfold contents at 1. cbn [len data].
  rewrite <-Ht. rewrite length_app. f_equal. lia.
Qed.

Lemma append_nil b : {| b with len := b.(len) + 0 |} = b.
Proof. destruct b; simpl. by rewrite Z.add_0_r. Qed.

(** [rns_buffer_append] never writes outside its object, keeps the buffer
    well-formed and, when it reports success, appends exactly the given bytes;
    on any error the buffer keeps its contents. *)
Theorem rns_buffer_append_spec b src :
  wf b ->
  exists status b', rns_buffer_append b src = Some (status, b') /\ wf b' /\
    contents b' = if is_ok status then contents b ++ slice_bytes src else contents b.
Proof.
  intros Hwf. unfold rns_buffer_append.
  destruct (slice_bad src) eqn:Hbad; [by eexists _, _|].
  apply slice_bad_length in Hbad. rewrite Hbad.
  destruct (Z.ltb_spec (SIZE_MAX - b.(len)) (Z.of_nat (length (slice_bytes src))));
    [by eexists _, _|].
  destruct (append_reserve_spec b (b.(len) + Z.of_nat (length (slice_bytes src))))
    as (status & b1 & -> & Hwf1 & Hc & Hlen & Hcap); [done|destruct Hwf; lia|].
  simpl. destruct (is_ok status) eqn:Hok; simpl;
    [|eexists _, _; split_and!; [done..|]; by rewrite Hok].
  apply is_ok_true in Hok. specialize (Hcap Hok).
  destruct (memcpy_contents b1 (slice_bytes src)) as (m & Hm & Hwf' & Hc'); [done|lia|].
  rewrite <-Hlen, <-Hc in *. destruct (Z.eqb_spec (Z.of_nat (length (slice_bytes src))) 0) as [E|E];
    simpl; [|rewrite Hm; by eexists _, _].
  eexists _, _. split; [done|]. rewrite E.
  assert (slice_bytes src = []) as -> by (apply length_zero_iff_nil; lia).
  simpl. rewrite app_nil_r. pose proof (append_nil b1) as Hn. simpl in Hn. by rewrite Hn.
Qed.

(** [rns_buffer_resize] never writes outside its object; on success the
    contents are the old ones cut to the new length and padded with zeros. *)
Theorem rns_buffer_resize_spec b n :
  wf b -> 0 <= n <= SIZE_MAX ->
  exists status b', rns_buffer_resize b n = Some (status, b') /\ wf b' /\
    contents b' = if is_ok status
      then take (Z.to_nat n) (contents b) ++ replicate (Z.to_nat n - length (contents b)) 0
      else contents b.
Proof.
  intros Hwf Hn. unfold rns_buffer_resize.
  destruct (rns_buffer_reserve b n) as [status b1] eqn:Hr.
  eapply rns_buffer_reserve_wf in Hr as (Hwf1 & Hc & Hlen & Hcap); [|done|lia].
  destruct (is_ok status) eqn:Hok; simpl; [|eexists _, _; split_and!; [done..|]; by rewrite Hok].
  apply is_ok_true in Hok. specialize (Hcap Hok). rewrite <-Hc.
  pose proof (length_contents b1 Hwf1) as Hl.
  destruct (Z.ltb_spec b1.(len) n).
  - destruct (memcpy_contents b1 (replicate (Z.to_nat (n - b1.(len))) 0)) as (m & Hm & Hwf' & Hc').
    { done. } { rewrite length_replicate. lia. }
    rewrite length_replicate in *. unfold memset. rewrite Hm.
    rewrite Z2Nat.id in * by lia. replace (b1.(len) + (n - b1.(len))) with n in * by lia.
    eexists _, _. split_and!; [done|done|]. simpl. rewrite Hc', (take_ge (contents b1)) by lia.
    f_equal. f_equal. destruct Hwf1. lia.
  - eexists _, _. split; [done|]. destruct Hwf1 as (?&?&?).
    split; [unfold wf; simpl; lia|]. unfold contents. simpl.
    rewrite take_take, length_take, Nat.min_l by lia.
    replace (Z.to_nat n - _)%nat with 0%nat by lia. simpl. by rewrite app_nil_r.
Qed.

End Operations.

(** ** A concrete buffer *)
#[local] Instance sample_allocator : Allocator := limited_allocator 1000.

Definition sample_buffer : rns_buffer_t := {| data := [1; 2; 0; 0]; len := 2; capacity := 4 |}.

Lemma sample_buffer_wf : wf sample_buffer.
Proof. by vm_compute; intuition congruence. Qed.

Lemma rns_buffer_append_spec_witness :
  exists status b', rns_buffer_append sample_buffer (SBytes [3; 4; 5]) = Some (status, b') /\ wf b' /\
    contents b' = if is_ok status then [1; 2; 3; 4; 5] else [1; 2].
Proof. exact (rns_buffer_append_spec sample_buffer (SBytes [3; 4; 5]) sample_buffer_wf). Defined.

Lemma rns_buffer_resize_spec_witness :
  exists status b', rns_buffer_resize sample_buffer 6 = Some (status, b') /\ wf b' /\
    contents b' = if is_ok status then [1; 2; 0; 0; 0; 0] else [1; 2].
Proof.
  apply (rns_buffer_resize_spec sample_buffer 6 sample_buffer_wf). vm_compute. intuition congruence.
Defined.

End Buffer.
