(* ===== verification/Framing.v ===== *)
(** * Serial framing: HDLC and KISS

    [Hdlc] and [Kiss] model [src/interfaces/framing.c]: the byte-stuffing
    encoders, and the streaming decoders with their resynchronisation, oversize
    and malformed-escape handling. Each decoder is refined against an abstract
    machine whose state is just the raw bytes seen since the last delimiter. *)

From Stdlib Require Import ZArith Lia.
From S2P Require Import Prelude Platform.

(** ** Callbacks

    A frame callback updates its own context and reports a status; a decoder
    stops at the first status other than [RNS_OK]. *)
Section Deliver.
Context {A S : Type}.
Variable callback : A -> S -> rns_status * S.

Fixpoint deliver (frames : list A) (s : S) : rns_status * S :=
  match frames with
  | [] => (RNS_OK, s)
  | f :: rest =>
      let '(st, s') := callback f s in
      if is_ok st then deliver rest s' else (st, s')
  end.

Lemma deliver_app a b s :
  deliver (a ++ b) s =
    let '(st, s') := deliver a s in if is_ok st then deliver b s' else (st, s').
Proof.
  revert s. induction a as [|f a IH]; intros s; simpl; [done|].
  destruct (callback f s) as [st s']. destruct (is_ok st) eqn:E; [apply IH|]. by rewrite E.
Qed.

Lemma deliver_one f s : deliver [f] s = callback f s.
Proof. simpl. destruct (callback f s) as [st s']. by destruct st. Qed.
End Deliver.

(** The context that records every frame and always succeeds. *)
Definition collect {A : Type} (f : A) (acc : list A) : rns_status * list A := (RNS_OK, acc ++ [f]).

Lemma deliver_collect {A} (frames acc : list A) :
  deliver collect frames acc = (RNS_OK, acc ++ frames).
Proof.
  revert acc. induction frames as [|f frames IH]; intros acc; simpl; [by rewrite app_nil_r|].
  by rewrite IH, <-app_assoc.
Qed.

(** ** Byte-driven decoders

    [loop] is the [for] loop of a streaming decoder over its input, [run] the
    run of an abstract machine that emits frames; a step simulation extends to
    whole inputs. *)
Section ByteLoop.
Context {D S : Type}.
Variable step_byte : D -> Z -> S -> option (rns_status * D * S).

Fixpoint loop (d : D) (input : list Z) (s : S) : option (rns_status * D * S) :=
  match input with
  | [] => Some (RNS_OK, d, s)
  | b :: rest =>
      r ← step_byte d b s;
      let '(status, d, s) := r in
      if is_ok status then loop d rest s else Some (status, d, s)
  end.
End ByteLoop.

Section Machine.
Context {A F : Type}.
Variable step : A -> Z -> A * list F.

Fixpoint run (a : A) (input : list Z) : A * list F :=
  match input with
  | [] => (a, [])
  | b :: rest =>
      let '(a, fs) := step a b in
      let '(a, fs') := run a rest in (a, fs ++ fs')
  end.

Lemma run_app a x y :
  run a (x ++ y) =
    let '(a1, f1) := run a x in let '(a2, f2) := run a1 y in (a2, f1 ++ f2).
Proof.
  revert a. induction x as [|b x IH]; intros a; simpl.
  - by destruct (run a y).
  - destruct (step a b) as [a1 f1]. rewrite IH.
    destruct (run a1 x) as [a2 f2]. destruct (run a2 y) as [a3 f3].
    by rewrite app_assoc.
Qed.
End Machine.

Section Simulation.
Context {D S A F : Type}.
Variable step_byte : D -> Z -> S -> option (rns_status * D * S).
Variable step : A -> Z -> A * list F.
Variable callback : F -> S -> rns_status * S.
Variable rel : D -> A -> Prop.

(** One byte: the decoder delivers what the machine emits, and the relation is
    restored even when a callback fails. *)
Definition simulates : Prop :=
  forall d a b s, rel d a ->
  exists d', step_byte d b s =
      (let '(st, s') := deliver callback (step a b).2 s in Some (st, d', s')) /\
    rel d' (step a b).1.

Hypothesis Hsim : simulates.

(** A run of the loop delivers exactly the frames of the abstract run, up to
    the first failing callback. *)
Lemma loop_sim d a input s :
  rel d a ->
  exists d' s' st, loop step_byte d input s = Some (st, d', s') /\
    (st, s') = deliver callback (run step a input).2 s /\
    (st = RNS_OK -> rel d' (run step a input).1).
Proof.
  revert d a s. induction input as [|b input IH]; intros d a s Hrel; simpl.
  { by eexists _, _, _. }
  destruct (Hsim d a b s Hrel) as (d1 & -> & Hrel1).
  destruct (step a b) as [a1 f1]. simpl in Hrel1 |- *.
  pose proof (deliver_app callback f1 (run step a1 input).2 s) as Happ.
  destruct (deliver callback f1 s) as [st s1]. simpl.
  destruct (run step a1 input) as [a2 f2] eqn:Hrun. simpl in *. rewrite Happ.
  destruct (is_ok st) eqn:Hok.
  - destruct (IH d1 a1 s1 Hrel1) as (d' & s' & st' & ? & ? & ?). rewrite Hrun in *.
    by eexists _, _, _.
  - eexists _, _, _. split_and!; [done|done|]. intros ->. done.
Qed.

(** Whatever the callbacks answer, the decoder ends in a related state. *)
Lemma loop_rel d a input s st d' s' :
  rel d a -> loop step_byte d input s = Some (st, d', s') -> exists a', rel d' a'.
Proof.
  revert d a s. induction input as [|b input IH]; intros d a s Hrel; simpl.
  { intros [= <- <- <-]. eauto. }
  destruct (Hsim d a b s Hrel) as (d1 & -> & Hrel1).
  destruct (deliver callback (step a b).2 s) as [st1 s1]. simpl.
  destruct (is_ok st1); [by eapply IH|]. intros [= <- <- <-]. eauto.
Qed.
End Simulation.

(** ** Byte-stuffing encoders

    The encoding loop over a per-byte encoder, and its specification: when the
    per-byte encoder writes the image of a byte exactly when it fits, the loop
    writes the concatenated images exactly when they fit. *)
Section EncodeLoop.
Variable enc : Z -> list Z -> nat -> nat -> option (rns_status * list Z * nat).

Fixpoint encode_loop (frame : list Z) (output : list Z) (output_capacity position : nat)
  : option (rns_status * list Z * nat) :=
  match frame with
  | [] => Some (RNS_OK, output, position)
  | b :: rest =>
      r ← enc b output output_capacity position;
      let '(status, output, position) := r in
      if is_ok status then encode_loop rest output output_capacity position
      else Some (status, output, position)
  end.

Variable image : Z -> list Z.

Definition encodes_byte : Prop :=
  forall n out w b cap,
  wrote n out w -> (cap <= n)%nat -> (length w <= cap)%nat -> Z.of_nat cap <= SIZE_MAX ->
  if decide (length w + length (image b) <= cap)%nat then
    exists out', enc b out cap (length w) = Some (RNS_OK, out', length (w ++ image b)) /\
      wrote n out' (w ++ image b)
  else enc b out cap (length w) = Some (RNS_ERROR_OVERFLOW, out, length w).

Hypothesis Henc : encodes_byte.

Lemma encode_loop_spec n frame out w cap :
  wrote n out w -> (cap <= n)%nat -> (length w <= cap)%nat -> Z.of_nat cap <= SIZE_MAX ->
  if decide (length w + length (frame ≫= image) <= cap)%nat then
    exists out', encode_loop frame out cap (length w)
        = Some (RNS_OK, out', length (w ++ (frame ≫= image))) /\
      wrote n out' (w ++ (frame ≫= image))
  else exists out' pos, encode_loop frame out cap (length w)
        = Some (RNS_ERROR_OVERFLOW, out', pos) /\ length out' = n.
Proof.
  intros Hw Hn Hcap Hmax. revert out w Hw Hcap.
  induction frame as [|b frame IH]; intros out w Hw Hcap.
  { simpl. rewrite decide_True, app_nil_r by lia. eauto. }
  pose proof (Henc n out w b cap Hw Hn Hcap Hmax) as Hb.
  rewrite bind_cons, length_app. cbn [encode_loop]. case_decide as Hfit.
  - destruct Hb as (o1 & -> & Hw1). cbn [mbind option_bind is_ok].
    specialize (IH o1 (w ++ image b) Hw1). rewrite <-app_assoc in IH. rewrite length_app in IH.
    rewrite Nat.add_assoc. specialize (IH ltac:(lia)). rewrite length_app. done.
  - rewrite Hb. simpl. rewrite decide_False by lia. destruct Hw as [? _]. eauto.
Qed.
End EncodeLoop.

Module Hdlc.

Definition RNS_HDLC_FLAG : Z := 0x7e.
Definition RNS_HDLC_ESCAPE : Z := 0x7d.

Record rns_hdlc_decoder_t : Type := {
  d_buffer : option (list Z);
  d_capacity : nat;
  d_length : nat;
  d_malformed_frames : Z;
  d_oversized_frames : Z;
  d_synchronized : bool;
  d_escaped : bool;
  d_discarding : bool
}.

Definition rns_hdlc_decoder_init (storage : option (list Z)) (storage_capacity : nat)
  : rns_hdlc_decoder_t :=
  {| d_buffer := storage; d_capacity := storage_capacity; d_length := 0;
     d_malformed_frames := 0; d_oversized_frames := 0;
     d_synchronized := false; d_escaped := false; d_discarding := false |}.

Definition rns_hdlc_decoder_reset (d : rns_hdlc_decoder_t) : rns_hdlc_decoder_t :=
  {| d with d_length := 0%nat; d_synchronized := false; d_escaped := false;
            d_discarding := false |}.

Section Decoder.
Context {S : Type}.
Variable callback : list Z -> S -> rns_status * S.

(** The delimiter: deliver the pending frame, if any, and start a new one. *)
Definition hdlc_flag (d : rns_hdlc_decoder_t) (s : S)
  : option (rns_status * rns_hdlc_decoder_t * S) :=
  let d := if d.(d_escaped)
           then {| d with d_malformed_frames := wrap64 (d.(d_malformed_frames) + 1);
                          d_discarding := true |}
           else d in
  r ← (if d.(d_synchronized) && negb d.(d_discarding) && negb (d.(d_length) =? 0)%nat
       then m ← d.(d_buffer); f ← memread m 0 d.(d_length); Some (callback f s)
       else Some (RNS_OK, s));
  let '(status, s) := r in
  Some (status,
        {| d with d_length := 0%nat; d_synchronized := true; d_escaped := false;
                  d_discarding := false |}, s).

(** One iteration of the loop of [rns_hdlc_decoder_feed]. *)
Definition hdlc_feed_byte (d : rns_hdlc_decoder_t) (byte : Z) (s : S)
  : option (rns_status * rns_hdlc_decoder_t * S) :=
  if byte =? RNS_HDLC_FLAG then hdlc_flag d s
  else if negb d.(d_synchronized) || d.(d_discarding) then Some (RNS_OK, d, s)
  else if negb d.(d_escaped) && (byte =? RNS_HDLC_ESCAPE)
  then Some (RNS_OK, {| d with d_escaped := true |}, s)
  else
    let byte := if d.(d_escaped) then Z.lxor byte 0x20 else byte in
    let d := if d.(d_escaped) then {| d with d_escaped := false |} else d in
    if (d.(d_length) =? d.(d_capacity))%nat
    then Some (RNS_OK,
               {| d with d_oversized_frames := wrap64 (d.(d_oversized_frames) + 1);
                         d_discarding := true; d_length := 0%nat; d_escaped := false |}, s)
    else
      m ← d.(d_buffer);
      m ← store m d.(d_length) byte;
      Some (RNS_OK, {| d with d_buffer := Some m; d_length := (d.(d_length) + 1)%nat |}, s).

Definition rns_hdlc_decoder_feed (d : rns_hdlc_decoder_t) (input : slice) (s : S)
  : option (rns_status * rns_hdlc_decoder_t * S) :=
  if negb (bool_decide (is_Some d.(d_buffer))) || (d.(d_capacity) =? 0)%nat || slice_bad input
  then Some (RNS_ERROR_INVALID_ARGUMENT, d, s)
  else loop hdlc_feed_byte d (slice_bytes input) s.
End Decoder.

(** *** The encoder *)

Definition append_escaped (byte escape_byte escaped_first escaped_second : Z)
    (output : list Z) (output_capacity position : nat) : option (rns_status * list Z * nat) :=
  if (byte =? escaped_first) || (byte =? escaped_second) then
    if (output_capacity <? position)%nat || (output_capacity - position <? 2)%nat
    then Some (RNS_ERROR_OVERFLOW, output, position)
    else
      output ← store output position escape_byte;
      output ← store output (position + 1)
        (if byte =? escaped_first then wrap8 (Z.lxor escaped_first 0x20)
         else wrap8 (Z.lxor escaped_second 0x20));
      Some (RNS_OK, output, (position + 2)%nat)
  else
    if (output_capacity <=? position)%nat then Some (RNS_ERROR_OVERFLOW, output, position)
    else
      output ← store output position byte;
      Some (RNS_OK, output, (position + 1)%nat).

(** The loop body of [rns_hdlc_encode]. *)
Definition hdlc_encode_byte (b : Z) :=
  append_escaped b RNS_HDLC_ESCAPE RNS_HDLC_FLAG RNS_HDLC_ESCAPE.

(** The result is the status, the output object and, through
    [output_length], the length of the encoding. *)
Definition rns_hdlc_encode (frame : slice) (output : option (list Z)) (output_capacity : nat)
    (output_length : option nat) : option (rns_status * option (list Z) * option nat) :=
  match output, output_length with
  | Some out, Some _ =>
      if slice_bad frame then Some (RNS_ERROR_INVALID_ARGUMENT, output, output_length)
      else if (output_capacity <? 2)%nat then Some (RNS_ERROR_OVERFLOW, Some out, Some 0%nat)
      else
        out ← store out 0 RNS_HDLC_FLAG;
        r ← encode_loop hdlc_encode_byte (slice_bytes frame) out output_capacity 1;
        let '(status, out, position) := r in
        if negb (is_ok status) then Some (status, Some out, Some 0%nat)
        else if (output_capacity <=? position)%nat
        then Some (RNS_ERROR_OVERFLOW, Some out, Some 0%nat)
        else
          out ← store out position RNS_HDLC_FLAG;
          Some (RNS_OK, Some out, Some (position + 1)%nat)
  | _, _ => Some (RNS_ERROR_INVALID_ARGUMENT, output, output_length)
  end.

(** *** Specification

    The wire image of a frame, and its inverse on a delimiter-free segment:
    the unescaped bytes with the pending-escape flag. *)
Definition image (b : Z) : list Z :=
  if (b =? RNS_HDLC_FLAG) || (b =? RNS_HDLC_ESCAPE)
  then [RNS_HDLC_ESCAPE; Z.lxor b 0x20] else [b].

Definition escape (frame : list Z) : list Z := frame ≫= image.

Definition wire (frame : list Z) : list Z :=
  RNS_HDLC_FLAG :: escape frame ++ [RNS_HDLC_FLAG].

Definition unescape_step (st : list Z * bool) (b : Z) : list Z * bool :=
  let '(f, esc) := st in
  if esc then (f ++ [Z.lxor b 0x20], false)
  else if b =? RNS_HDLC_ESCAPE then (f, true) else (f ++ [b], false).

Definition unescape (seg : list Z) : list Z * bool := foldl unescape_step ([], false) seg.

(** The frame a complete segment carries, if any: not empty, no dangling
    escape, within the capacity. *)
Definition frame_of (cap : nat) (seg : list Z) : option (list Z) :=
  let '(f, esc) := unescape seg in
  if esc || (length f =? 0)%nat || (cap <? length f)%nat then None else Some f.

(** The abstract decoder: [None] before the first delimiter, then the raw
    bytes since the last one. *)
Definition abs_state : Type := option (list Z).

Definition pending (cap : nat) (a : abs_state) : list (list Z) :=
  match a with None => [] | Some seg => option_list (frame_of cap seg) end.

Definition abs_step (cap : nat) (a : abs_state) (b : Z) : abs_state * list (list Z) :=
  if b =? RNS_HDLC_FLAG then (Some [], pending cap a)
  else ((λ seg, seg ++ [b]) <$> a, []).

Abbreviation abs_run cap := (run (abs_step cap)).

(** The relation between a decoder and the abstract state. *)
Definition rel (cap : nat) (d : rns_hdlc_decoder_t) (a : abs_state) : Prop :=
  (0 < cap)%nat /\ d.(d_capacity) = cap /\
  exists m, d.(d_buffer) = Some m /\ (cap <= length m)%nat /\
  match a with
  | None => d.(d_synchronized) = false
  | Some seg =>
      d.(d_synchronized) = true /\
      let '(f, esc) := unescape seg in
      if (cap <? length f)%nat then d.(d_discarding) = true
      else d.(d_discarding) = false /\ d.(d_escaped) = esc /\
           d.(d_length) = length f /\ wrote (length m) m f
  end.

Lemma unescape_snoc seg b : unescape (seg ++ [b]) = unescape_step (unescape seg) b.
Proof. unfold unescape. by rewrite foldl_app. Qed.

Section Refinement.
Context {S : Type}.
Variable callback : list Z -> S -> rns_status * S.

Lemma hdlc_flag_sim cap d a s :
  rel cap d a ->
  exists d', hdlc_flag callback d s =
      (let '(st, s') := deliver callback (pending cap a) s in Some (st, d', s')) /\
    rel cap d' (Some []).
Proof.
  intros (Hcap & Hc & m & Hm & Hlen & Ha). unfold hdlc_flag.
  eexists {| d with d_length := 0%nat; d_synchronized := true; d_escaped := false;
                    d_discarding := false;
                    d_malformed_frames := if d.(d_escaped) then _ else d.(d_malformed_frames) |}.
  split.
  2:{ split_and!; [done|done|]. exists m. split_and!; [done|done|done|].
      simpl. split_and!; auto with rns. }
  destruct a as [seg|].
  - destruct Ha as [Hs Hseg]. simpl. unfold frame_of. destruct (unescape seg) as [f esc].
    destruct (Nat.ltb_spec cap (length f)).
    + rewrite !orb_true_r. simpl. destruct (d_escaped d); simpl; by rewrite Hs, ?Hseg.
    + destruct Hseg as (Hd & He & Hl & Hw). rewrite He, !orb_false_r.
      destruct esc; simpl; [by rewrite Hs|]. rewrite Hs, Hd, Hl. simpl.
      destruct (Nat.eqb_spec (length f) 0); simpl; [done|].
      rewrite Hm. simpl. rewrite (wrote_read _ _ _ Hw). simpl.
      destruct (callback f s) as [st s']. by destruct st.
  - simpl. destruct (d_escaped d); simpl; by rewrite Ha.
Qed.

Lemma hdlc_feed_byte_sim cap : simulates (hdlc_feed_byte callback) (abs_step cap) callback (rel cap).
Proof.
  intros d a b s Hrel. unfold hdlc_feed_byte, abs_step.
  destruct (Z.eqb_spec b RNS_HDLC_FLAG) as [->|Hb]; [by apply hdlc_flag_sim|].
  destruct Hrel as (Hcap & Hc & m & Hm & Hlen & Ha). simpl.
  destruct a as [seg|]; simpl.
  2:{ rewrite Ha. simpl. exists d. split; [done|]. split_and!; eauto. }
  destruct Ha as [Hs Hseg]. rewrite Hs. simpl.
  unfold rel. rewrite unescape_snoc. destruct (unescape seg) as [f esc]. simpl in Hseg |- *.
  destruct (Nat.ltb_spec cap (length f)) as [Hover|Hin].
  { rewrite Hseg. exists d. split; [done|]. split_and!; [done|done|]. exists m.
    split_and!; [done..|]. destruct esc; [|destruct (b =? RNS_HDLC_ESCAPE)];
      rewrite ?length_app; simpl; (destruct (Nat.ltb_spec cap (length f + 1)) || idtac);
      auto; try lia; destruct (Nat.ltb_spec cap (length f)); auto; lia. }
  destruct Hseg as (Hd & He & Hl & Hw). rewrite Hd, He. simpl.
  destruct esc; simpl; [|destruct (Z.eqb_spec b RNS_HDLC_ESCAPE)].
  2:{ eexists. split; [done|]. simpl. split_and!; [done..|]. exists m.
      rewrite (proj2 (Nat.ltb_ge _ _)) by lia. split_and!; auto. }
  all: rewrite Hl, Hc, length_app; simpl; destruct (Nat.eqb_spec (length f) cap) as [E|E].
  1,3: eexists; (split; [done|]); simpl; (split_and!; [done..|]); exists m;
      rewrite (proj2 (Nat.ltb_lt _ _)) by lia; split_and!; auto.
  all: rewrite Hm; simpl;
    (edestruct (wrote_store (length m) m f) as (m' & Hm' & Hw'); [done|lia|]);
    rewrite Hm'; simpl; eexists; (split; [done|]); simpl; (split_and!; [done..|]);
    exists m'; pose proof Hw' as (Hlm & _); rewrite Hlm;
    rewrite (proj2 (Nat.ltb_ge _ _)) by lia; split_and!; auto; lia.
Qed.

End Refinement.

(** *** Encoding *)

Lemma hdlc_escape_cons b frame : escape (b :: frame) = image b ++ escape frame.
Proof. done. Qed.

Lemma hdlc_image_cases b :
  (b = RNS_HDLC_FLAG /\ image b = [RNS_HDLC_ESCAPE; 0x5e]) \/
  (b = RNS_HDLC_ESCAPE /\ image b = [RNS_HDLC_ESCAPE; 0x5d]) \/
  (b <> RNS_HDLC_FLAG /\ b <> RNS_HDLC_ESCAPE /\ image b = [b]).
Proof.
  unfold image. destruct (Z.eqb_spec b RNS_HDLC_FLAG) as [->|]; [by left|].
  destruct (Z.eqb_spec b RNS_HDLC_ESCAPE) as [->|]; [by right; left|by right; right].
Qed.

Lemma hdlc_unescape_escape_from frame f :
  foldl unescape_step (f, false) (escape frame) = (f ++ frame, false).
Proof.
  revert f. induction frame as [|b frame IH]; intros f; [by rewrite app_nil_r|].
  rewrite hdlc_escape_cons, foldl_app.
  destruct (hdlc_image_cases b) as [[-> ->]|[[-> ->]|(Hb1 & Hb2 & ->)]]; simpl;
    rewrite ?(proj2 (Z.eqb_neq b RNS_HDLC_ESCAPE)) by done; by rewrite IH, <-app_assoc.
Qed.

Lemma hdlc_unescape_escape frame : unescape (escape frame) = (frame, false).
Proof. apply hdlc_unescape_escape_from. Qed.

Lemma escape_no_flag frame : Forall (λ b, b <> RNS_HDLC_FLAG) (escape frame).
Proof.
  induction frame as [|b frame IH]; [constructor|]. rewrite hdlc_escape_cons.
  apply Forall_app. split; [|done].
  destruct (hdlc_image_cases b) as [[-> ->]|[[-> ->]|(Hb1 & Hb2 & ->)]]; by repeat constructor.
Qed.

(** One byte is written in full when its image fits, and not at all otherwise. *)
Lemma hdlc_encodes_byte : encodes_byte hdlc_encode_byte image.
Proof.
  intros n out w b cap Hw Hn Hcap _. unfold hdlc_encode_byte, append_escaped. rewrite length_app.
  destruct (hdlc_image_cases b) as [[-> ->]|[[-> ->]|(Hb1 & Hb2 & ->)]]; cbn [length].
  3:{ rewrite !(proj2 (Z.eqb_neq b _)) by done. cbn [orb]. case_decide;
        [rewrite (proj2 (Nat.leb_gt _ _)) by lia|by rewrite (proj2 (Nat.leb_le _ _)) by lia].
      destruct (wrote_store _ _ _ b Hw) as (o1 & -> & Hw1); [lia|]. eauto. }
  all: change (wrap8 (Z.lxor RNS_HDLC_FLAG 0x20)) with 0x5e;
    change (wrap8 (Z.lxor RNS_HDLC_ESCAPE 0x20)) with 0x5d; rewrite ?Z.eqb_refl;
    change (RNS_HDLC_ESCAPE =? RNS_HDLC_FLAG) with false; cbn [orb];
    rewrite (proj2 (Nat.ltb_ge cap _)) by lia; cbn [orb]; case_decide;
    [rewrite (proj2 (Nat.ltb_ge _ _)) by lia|by rewrite (proj2 (Nat.ltb_lt _ _)) by lia];
    match goal with |- context [wrote _ _ (_ ++ [?x; ?y])] =>
      destruct (wrote_store2 n out w x y Hw) as (o1 & o2 & -> & Ho2 & Hw2); [lia|] end;
    cbn [mbind option_bind]; rewrite Ho2; eauto.
Qed.

(** The HDLC encoder never writes outside its output and succeeds exactly
    when the wire image of the frame fits the capacity; it then leaves that
    image at the front of the output and reports its length. *)
Theorem rns_hdlc_encode_spec frame out cap len0 :
  (cap <= length out)%nat -> Z.of_nat cap <= SIZE_MAX ->
  exists st out' n, rns_hdlc_encode (SBytes frame) (Some out) cap (Some len0)
      = Some (st, Some out', Some n) /\ length out' = length out /\
    if decide (length (wire frame) <= cap)%nat
    then st = RNS_OK /\ n = length (wire frame) /\ memread out' 0 n = Some (wire frame)
    else st = RNS_ERROR_OVERFLOW /\ n = 0%nat.
Proof.
  intros Hcap Hmax. unfold rns_hdlc_encode. change (slice_bad (SBytes frame)) with false.
  cbv iota. cbn [slice_bytes].
  assert (length (wire frame) = 2 + length (escape frame))%nat as Hwl.
  { unfold wire. simpl. rewrite length_app. simpl. lia. }
  rewrite Hwl. destruct (Nat.ltb_spec cap 2).
  { eexists _, _, _. split_and!; [done|done|]. by rewrite decide_False by lia. }
  destruct (wrote_store _ _ _ RNS_HDLC_FLAG (wrote_nil _ out eq_refl)) as (o1 & Ho1 & Hw1); [simpl; lia|].
  simpl in Ho1, Hw1. rewrite Ho1. cbn [mbind option_bind].
  pose proof (encode_loop_spec _ _ hdlc_encodes_byte (length out) frame o1 [RNS_HDLC_FLAG] cap
    Hw1 Hcap ltac:(simpl; lia) Hmax) as Hl.
  change (frame ≫= image) with (escape frame) in Hl.
  case_decide as Hd; simpl in Hd, Hl.
  - destruct Hl as (o2 & -> & Hw2). cbn. destruct (Nat.leb_spec cap (S (length (escape frame)))).
    { eexists _, _, _. split_and!; [done|by destruct Hw2|]. by rewrite decide_False by lia. }
    destruct (wrote_store _ _ _ RNS_HDLC_FLAG Hw2) as (o3 & Ho3 & Hw3); [simpl; lia|].
    simpl in Ho3. rewrite Ho3. cbn. eexists _, _, _. split_and!; [done|by destruct Hw3|].
    rewrite decide_True by lia. split_and!; [done|lia|].
    apply wrote_read in Hw3. etransitivity; [|apply Hw3]. f_equal.
    rewrite !length_app. simpl. lia.
  - destruct Hl as (o2 & pos & -> & Ho2). cbn. eexists _, _, _.
    split_and!; [done|done|]. by rewrite decide_False by lia.
Qed.

(** *** Streams of encoded frames *)

Definition deliverable (cap : nat) (f : list Z) : Prop := (0 < length f <= cap)%nat.

Lemma hdlc_abs_run_body cap seg body :
  Forall (λ b, b <> RNS_HDLC_FLAG) body ->
  abs_run cap (Some seg) body = (Some (seg ++ body), []).
Proof.
  intros Hb. revert seg. induction Hb as [|b body Hb _ IH]; intros seg; simpl; [by rewrite app_nil_r|].
  unfold abs_step. rewrite (proj2 (Z.eqb_neq _ _)) by done. simpl.
  by rewrite IH, <-app_assoc.
Qed.

Lemma frame_of_escape cap f : deliverable cap f -> frame_of cap (escape f) = Some f.
Proof.
  intros [H1 H2]. unfold frame_of. rewrite hdlc_unescape_escape.
  by rewrite (proj2 (Nat.eqb_neq _ _)), (proj2 (Nat.ltb_ge _ _)) by lia.
Qed.

Lemma hdlc_abs_run_wire cap a f :
  deliverable cap f -> abs_run cap a (wire f) = (Some [], pending cap a ++ [f]).
Proof.
  intros Hf. unfold wire. cbn [run]. unfold abs_step at 1.
  rewrite Z.eqb_refl, run_app, hdlc_abs_run_body by apply escape_no_flag.
  cbn [run]. unfold abs_step. rewrite Z.eqb_refl. cbn [app pending].
  by rewrite frame_of_escape.
Qed.

Lemma abs_run_wires cap a frames :
  Forall (deliverable cap) frames ->
  exists g, (abs_run cap a (concat (map wire frames))).2 = g ++ frames /\
    (pending cap a = [] -> g = []).
Proof.
  destruct 1 as [|f frames Hf Hfs]; [by exists []|].
  exists (pending cap a). split; [|done]. cbn [map concat].
  rewrite run_app, hdlc_abs_run_wire by done.
  assert ((abs_run cap (Some []) (concat (map wire frames))).2 = frames) as Hrest.
  { clear Hf f. induction Hfs as [|f frames Hf _ IH]; [done|]. cbn [map concat].
    rewrite run_app, hdlc_abs_run_wire by done.
    destruct (abs_run cap (Some []) (concat (map wire frames))). simpl in *. by subst. }
  destruct (abs_run cap (Some []) (concat (map wire frames))). simpl in *. subst.
  by rewrite <-app_assoc.
Qed.

Lemma hdlc_init_rel cap m : (0 < cap <= length m)%nat -> rel cap (rns_hdlc_decoder_init (Some m) cap) None.
Proof. intros. split_and!; [lia|done|]. exists m. split_and!; [done|lia|done]. Qed.

Lemma hdlc_reset_rel cap d a : rel cap d a -> rel cap (rns_hdlc_decoder_reset d) None.
Proof. intros (?&?&m&?&?&?). split_and!; [done..|]. exists m. by split_and!. Qed.

Section FeedTheorems.
Context {S : Type}.
Variable callback : list Z -> S -> rns_status * S.

Lemma hdlc_feed_refines cap d a input s :
  rel cap d a -> slice_bad input = false ->
  exists d' s' st, rns_hdlc_decoder_feed callback d input s = Some (st, d', s') /\
    (st, s') = deliver callback (abs_run cap a (slice_bytes input)).2 s /\
    (st = RNS_OK -> rel cap d' (abs_run cap a (slice_bytes input)).1).
Proof.
  intros Hrel Hin. unfold rns_hdlc_decoder_feed.
  pose proof Hrel as (Hcap & Hc & m & Hm & _).
  rewrite Hm, Hc, Hin, bool_decide_eq_true_2, (proj2 (Nat.eqb_neq _ _)) by (eauto || lia).
  by apply (loop_sim _ _ _ _ (hdlc_feed_byte_sim callback cap)).
Qed.

(** C31: feeding any bytes to an HDLC decoder is memory safe and calls the
    callback on exactly the frames of the abstract machine, in order, stopping
    at the first callback that fails; the relation is kept, so the next call
    continues where this one stopped. *)
Theorem rns_hdlc_decoder_feed_refines cap d a input s :
  rel cap d a -> slice_bad input = false ->
  exists d' s' st, rns_hdlc_decoder_feed callback d input s = Some (st, d', s') /\
    (st, s') = deliver callback (abs_run cap a (slice_bytes input)).2 s /\
    (st = RNS_OK -> rel cap d' (abs_run cap a (slice_bytes input)).1).
Proof. apply hdlc_feed_refines. Qed.

End FeedTheorems.

(** After any line noise, every frame that is then sent in its wire image is
    delivered, unchanged and in order; only what the noise itself completed may
    be delivered before them. *)
Theorem hdlc_resynchronises cap d a noise frames :
  rel cap d a -> Forall (deliverable cap) frames ->
  exists d' garbage,
    rns_hdlc_decoder_feed collect d (SBytes (noise ++ concat (map wire frames))) []
      = Some (RNS_OK, d', garbage ++ frames).
Proof.
  intros Hrel Hf.
  destruct (hdlc_feed_refines collect cap d a
    (SBytes (noise ++ concat (map wire frames))) [] Hrel eq_refl) as (d' & s' & st & -> & Hd & _).
  rewrite deliver_collect in Hd. simpl in Hd. rewrite run_app in Hd.
  destruct (abs_run cap a noise) as [a1 g1].
  destruct (abs_run_wires cap a1 frames Hf) as (g2 & Hg & _).
  destruct (abs_run cap a1 (concat (map wire frames))) as [a2 g3]. simpl in *. simplify_eq.
  exists d', (g1 ++ g2). by rewrite app_assoc.
Qed.

(** A fresh decoder that is fed what the encoder produced for a sequence of
    non-empty frames within its capacity delivers exactly these frames, whatever
    the split of the stream into two reads. *)
Theorem hdlc_roundtrip cap m frames x y :
  (0 < cap <= length m)%nat -> Forall (deliverable cap) frames ->
  concat (map wire frames) = x ++ y ->
  exists d1 d2 f1 f2,
    rns_hdlc_decoder_feed collect (rns_hdlc_decoder_init (Some m) cap) (SBytes x) []
      = Some (RNS_OK, d1, f1) /\
    rns_hdlc_decoder_feed collect d1 (SBytes y) [] = Some (RNS_OK, d2, f2) /\
    f1 ++ f2 = frames.
Proof.
  intros Hm Hf Hxy. pose proof (hdlc_init_rel cap m Hm) as Hrel.
  destruct (hdlc_feed_refines collect cap _ None (SBytes x) [] Hrel eq_refl)
    as (d1 & f1 & st1 & E1 & Hd1 & Hrel1).
  rewrite deliver_collect in Hd1. simpl in Hd1. injection Hd1 as -> ->.
  destruct (hdlc_feed_refines collect cap d1 _ (SBytes y) [] (Hrel1 eq_refl) eq_refl)
    as (d2 & f2 & st2 & E2 & Hd2 & _).
  rewrite deliver_collect in Hd2. simpl in *. injection Hd2 as -> ->.
  exists d1, d2. eexists _, _. split_and!; [done..|].
  destruct (abs_run_wires cap None frames Hf) as (g & Hg & Hnil). rewrite Hxy, run_app in Hg.
  destruct (abs_run cap None x) as [a1 g1]. simpl. destruct (abs_run cap a1 y). simpl in *.
  by rewrite Hg, Hnil.
Qed.

(** *** A concrete decoder *)
Definition sample_decoder : rns_hdlc_decoder_t := rns_hdlc_decoder_init (Some (replicate 8 0)) 8.

Lemma sample_decoder_rel : rel 8 sample_decoder None.
Proof. apply hdlc_init_rel. simpl. lia. Qed.

Lemma rns_hdlc_encode_spec_witness :
  exists st out' n, rns_hdlc_encode (SBytes [1; 0x7e]) (Some (replicate 8 0)) 8 (Some 0%nat)
      = Some (st, Some out', Some n) /\ st = RNS_OK /\ n = 5%nat.
Proof.
  destruct (rns_hdlc_encode_spec [1; 0x7e] (replicate 8 0) 8 0) as (st & out' & n & H & _ & Hd);
    [apply le_n|by vm_compute|]. exists st, out', n. rewrite decide_True in Hd by (by vm_compute; lia).
  exact (conj H (conj (proj1 Hd) (proj1 (proj2 Hd)))).
Defined.

Lemma rns_hdlc_decoder_feed_refines_witness :
  exists d' s' st, rns_hdlc_decoder_feed collect sample_decoder (SBytes [9; 0x7e; 1; 2; 0x7e]) [] = Some (st, d', s') /\
    (st, s') = deliver collect [[1; 2]] [].
Proof.
  destruct (rns_hdlc_decoder_feed_refines collect 8 sample_decoder None (SBytes [9; 0x7e; 1; 2; 0x7e]) []
    sample_decoder_rel eq_refl) as (d' & s' & st & H & Hd & _). exists d', s', st. exact (conj H Hd).
Defined.

Lemma hdlc_resynchronises_witness :
  exists d' garbage, rns_hdlc_decoder_feed collect sample_decoder
      (SBytes ([7; 0x7d; 0x7e; 3] ++ concat (map wire [[1; 2]; [0x7e]]))) [] = Some (RNS_OK, d', garbage ++ [[1; 2]; [0x7e]]).
Proof.
  apply (hdlc_resynchronises 8 sample_decoder None); [apply sample_decoder_rel|].
  repeat apply Forall_cons_2; [vm_compute; lia..|apply Forall_nil_2].
Defined.

Lemma hdlc_roundtrip_witness :
  exists d1 d2 f1 f2, rns_hdlc_decoder_feed collect sample_decoder (SBytes [0x7e; 1]) [] = Some (RNS_OK, d1, f1) /\
    rns_hdlc_decoder_feed collect d1 (SBytes [0x7d; 0x5e; 0x7e]) [] = Some (RNS_OK, d2, f2) /\ f1 ++ f2 = [[1; 0x7e]].
Proof.
  apply (hdlc_roundtrip 8 (replicate 8 0) [[1; 0x7e]]); [simpl; lia| |reflexivity].
  apply Forall_cons_2; [vm_compute; lia|apply Forall_nil_2].
Defined.

End Hdlc.

Module Kiss.

Definition RNS_KISS_FEND : Z := 0xc0.
Definition RNS_KISS_FESC : Z := 0xdb.
Definition RNS_KISS_TFEND : Z := 0xdc.
Definition RNS_KISS_TFESC : Z := 0xdd.
Definition RNS_KISS_DATA_COMMAND : Z := 0x00.

Record rns_kiss_decoder_t : Type := {
  d_buffer : option (list Z);
  d_capacity : nat;
  d_length : nat;
  d_malformed_frames : Z;
  d_oversized_frames : Z;
  d_command : Z;
  d_port : Z;
  d_synchronized : bool;
  d_have_command : bool;
  d_escaped : bool;
  d_discarding : bool
}.

Definition rns_kiss_decoder_init (storage : option (list Z)) (storage_capacity : nat)
  : rns_kiss_decoder_t :=
  {| d_buffer := storage; d_capacity := storage_capacity; d_length := 0;
     d_malformed_frames := 0; d_oversized_frames := 0; d_command := 0; d_port := 0;
     d_synchronized := false; d_have_command := false; d_escaped := false;
     d_discarding := false |}.

Definition rns_kiss_decoder_reset (d : rns_kiss_decoder_t) : rns_kiss_decoder_t :=
  {| d with d_length := 0%nat; d_synchronized := false; d_have_command := false;
            d_escaped := false; d_discarding := false |}.

(** What a command callback receives: port, command and payload. *)
Record kiss_frame : Type := { kf_port : Z; kf_command : Z; kf_payload : list Z }.

Section Decoder.
Context {S : Type}.
Variable callback : kiss_frame -> S -> rns_status * S.

Definition kiss_fend (d : rns_kiss_decoder_t) (s : S)
  : option (rns_status * rns_kiss_decoder_t * S) :=
  let d := if d.(d_escaped)
           then {| d with d_malformed_frames := wrap64 (d.(d_malformed_frames) + 1);
                          d_discarding := true |}
           else d in
  r ← (if d.(d_synchronized) && d.(d_have_command) && negb d.(d_discarding)
       then m ← d.(d_buffer);
            f ← memread m 0 d.(d_length);
            Some (callback {| kf_port := d.(d_port); kf_command := d.(d_command);
                              kf_payload := f |} s)
       else Some (RNS_OK, s));
  let '(status, s) := r in
  Some (status,
        {| d with d_length := 0%nat; d_synchronized := true; d_have_command := false;
                  d_escaped := false; d_discarding := false |}, s).

(** Appending one decoded payload byte, or giving up an oversized frame. *)
Definition feed_payload (d : rns_kiss_decoder_t) (byte : Z) (s : S)
  : option (rns_status * rns_kiss_decoder_t * S) :=
  if (d.(d_length) =? d.(d_capacity))%nat
  then Some (RNS_OK,
             {| d with d_oversized_frames := wrap64 (d.(d_oversized_frames) + 1);
                       d_discarding := true; d_length := 0%nat; d_escaped := false |}, s)
  else
    m ← d.(d_buffer);
    m ← store m d.(d_length) byte;
    Some (RNS_OK, {| d with d_buffer := Some m; d_length := (d.(d_length) + 1)%nat |}, s).

(** One iteration of the loop of [rns_kiss_decoder_feed_commands]. *)
Definition kiss_feed_byte (d : rns_kiss_decoder_t) (byte : Z) (s : S)
  : option (rns_status * rns_kiss_decoder_t * S) :=
  if byte =? RNS_KISS_FEND then kiss_fend d s
  else if negb d.(d_synchronized) || d.(d_discarding) then Some (RNS_OK, d, s)
  else if negb d.(d_have_command)
  then Some (RNS_OK, {| d with d_port := Z.shiftr byte 4; d_command := Z.land byte 0x0f;
                               d_have_command := true |}, s)
  else if d.(d_escaped) then
    if byte =? RNS_KISS_TFEND
    then feed_payload {| d with d_escaped := false |} RNS_KISS_FEND s
    else if byte =? RNS_KISS_TFESC
    then feed_payload {| d with d_escaped := false |} RNS_KISS_FESC s
    else Some (RNS_OK,
               {| d with d_malformed_frames := wrap64 (d.(d_malformed_frames) + 1);
                         d_discarding := true; d_escaped := false; d_length := 0%nat |}, s)
  else if byte =? RNS_KISS_FESC then Some (RNS_OK, {| d with d_escaped := true |}, s)
  else feed_payload d byte s.

Definition rns_kiss_decoder_feed_commands (d : rns_kiss_decoder_t) (input : slice) (s : S)
  : option (rns_status * rns_kiss_decoder_t * S) :=
  if negb (bool_decide (is_Some d.(d_buffer))) || (d.(d_capacity) =? 0)%nat || slice_bad input
  then Some (RNS_ERROR_INVALID_ARGUMENT, d, s)
  else loop kiss_feed_byte d (slice_bytes input) s.
End Decoder.

(** The adapter that lets only data frames through. *)
Definition kiss_data_only {S} (callback : list Z -> S -> rns_status * S)
    (f : kiss_frame) (s : S) : rns_status * S :=
  if negb (f.(kf_command) =? RNS_KISS_DATA_COMMAND) then (RNS_OK, s)
  else callback f.(kf_payload) s.

Definition rns_kiss_decoder_feed {S} (callback : list Z -> S -> rns_status * S)
    (d : rns_kiss_decoder_t) (input : slice) (s : S) :=
  rns_kiss_decoder_feed_commands (kiss_data_only callback) d input s.

(** *** The encoder *)

(** The loop body of [rns_kiss_encode_command]; the subtraction is in
    [size_t]. *)
Definition kiss_encode_byte (b : Z) (output : list Z) (output_capacity position : nat)
  : option (rns_status * list Z * nat) :=
  if (b =? RNS_KISS_FEND) || (b =? RNS_KISS_FESC) then
    if wrap64 (Z.of_nat output_capacity - Z.of_nat position) <? 2
    then Some (RNS_ERROR_OVERFLOW, output, position)
    else
      output ← store output position RNS_KISS_FESC;
      output ← store output (position + 1)
        (if b =? RNS_KISS_FEND then RNS_KISS_TFEND else RNS_KISS_TFESC);
      Some (RNS_OK, output, (position + 2)%nat)
  else
    if (output_capacity <=? position)%nat then Some (RNS_ERROR_OVERFLOW, output, position)
    else
      output ← store output position b;
      Some (RNS_OK, output, (position + 1)%nat).

Definition rns_kiss_encode_command (port command : Z) (payload : slice)
    (output : option (list Z)) (output_capacity : nat) (output_length : option nat)
  : option (rns_status * option (list Z) * option nat) :=
  match output, output_length with
  | Some out, Some _ =>
      if (15 <? port) || (15 <? command) || slice_bad payload
      then Some (RNS_ERROR_INVALID_ARGUMENT, output, output_length)
      else if (output_capacity <? 3)%nat then Some (RNS_ERROR_OVERFLOW, Some out, Some 0%nat)
      else
        out ← store out 0 RNS_KISS_FEND;
        out ← store out 1 (wrap8 (Z.lor (Z.shiftl port 4) command));
        r ← encode_loop kiss_encode_byte (slice_bytes payload) out output_capacity 2;
        let '(status, out, position) := r in
        if negb (is_ok status) then Some (status, Some out, Some 0%nat)
        else if (output_capacity <=? position)%nat
        then Some (RNS_ERROR_OVERFLOW, Some out, Some 0%nat)
        else
          out ← store out position RNS_KISS_FEND;
          Some (RNS_OK, Some out, Some (position + 1)%nat)
  | _, _ => Some (RNS_ERROR_INVALID_ARGUMENT, output, output_length)
  end.

Definition rns_kiss_encode (port : Z) (frame : slice) (output : option (list Z))
    (output_capacity : nat) (output_length : option nat) :=
  rns_kiss_encode_command port RNS_KISS_DATA_COMMAND frame output output_capacity output_length.

(** *** Specification *)

(** The payload decoded so far with the pending-escape flag; [None] after an
    invalid escape. *)
Definition unescape_step (st : option (list Z * bool)) (b : Z) : option (list Z * bool) :=
  p ← st;
  let '(f, esc) := p in
  if esc : bool then
    if b =? RNS_KISS_TFEND then Some (f ++ [RNS_KISS_FEND], false)
    else if b =? RNS_KISS_TFESC then Some (f ++ [RNS_KISS_FESC], false)
    else None
  else if b =? RNS_KISS_FESC then Some (f, true) else Some (f ++ [b], false).

Definition unescape (seg : list Z) : option (list Z * bool) :=
  foldl unescape_step (Some ([], false)) seg.

(** The frame a complete segment carries: a command byte and a payload without
    malformed or dangling escapes, within the capacity. *)
Definition frame_of (cap : nat) (seg : list Z) : option kiss_frame :=
  match seg with
  | [] => None
  | c :: body =>
      match unescape body with
      | Some (f, false) =>
          if (cap <? length f)%nat then None
          else Some {| kf_port := Z.shiftr c 4; kf_command := Z.land c 0x0f; kf_payload := f |}
      | _ => None
      end
  end.

Definition abs_state : Type := option (list Z).

Definition pending (cap : nat) (a : abs_state) : list kiss_frame :=
  match a with None => [] | Some seg => option_list (frame_of cap seg) end.

Definition abs_step (cap : nat) (a : abs_state) (b : Z) : abs_state * list kiss_frame :=
  if b =? RNS_KISS_FEND then (Some [], pending cap a)
  else ((λ seg, seg ++ [b]) <$> a, []).

Abbreviation abs_run cap := (run (abs_step cap)).

Definition image (b : Z) : list Z :=
  if b =? RNS_KISS_FEND then [RNS_KISS_FESC; RNS_KISS_TFEND]
  else if b =? RNS_KISS_FESC then [RNS_KISS_FESC; RNS_KISS_TFESC] else [b].

Definition escape (payload : list Z) : list Z := payload ≫= image.

Definition wire (f : kiss_frame) : list Z :=
  RNS_KISS_FEND :: Z.lor (Z.shiftl f.(kf_port) 4) f.(kf_command) ::
  escape f.(kf_payload) ++ [RNS_KISS_FEND].

Definition rel (cap : nat) (d : rns_kiss_decoder_t) (a : abs_state) : Prop :=
  (0 < cap)%nat /\ d.(d_capacity) = cap /\
  exists m, d.(d_buffer) = Some m /\ (cap <= length m)%nat /\
  match a with
  | None => d.(d_synchronized) = false
  | Some [] =>
      d.(d_synchronized) = true /\ d.(d_have_command) = false /\
      d.(d_discarding) = false /\ d.(d_escaped) = false /\ d.(d_length) = 0%nat
  | Some (c :: body) =>
      d.(d_synchronized) = true /\
      match unescape body with
      | Some (f, esc) =>
          if (cap <? length f)%nat then d.(d_discarding) = true
          else d.(d_have_command) = true /\ d.(d_port) = Z.shiftr c 4 /\
               d.(d_command) = Z.land c 0x0f /\ d.(d_discarding) = false /\
               d.(d_escaped) = esc /\ d.(d_length) = length f /\ wrote (length m) m f
      | None => d.(d_discarding) = true
      end
  end.

Lemma kiss_unescape_snoc body b : unescape (body ++ [b]) = unescape_step (unescape body) b.
Proof. unfold unescape. by rewrite foldl_app. Qed.

Section Refinement.
Context {S : Type}.
Variable callback : kiss_frame -> S -> rns_status * S.

Lemma kiss_fend_sim cap d a s :
  rel cap d a ->
  exists d', kiss_fend callback d s =
      (let '(st, s') := deliver callback (pending cap a) s in Some (st, d', s')) /\
    rel cap d' (Some []).
Proof.
  intros (Hcap & Hc & m & Hm & Hlen & Ha). unfold kiss_fend.
  eexists {| d with d_length := 0%nat; d_synchronized := true; d_have_command := false;
                    d_escaped := false; d_discarding := false;
                    d_malformed_frames := if d.(d_escaped) then _ else d.(d_malformed_frames) |}.
  split; [|split_and!; [done|done|]; exists m; by split_and!].
  destruct a as [[|c body]|]; simpl.
  - destruct Ha as (Hs & Hh & Hd & He & Hl). by rewrite He, Hs, Hh.
  - destruct Ha as [Hs Hb]. destruct (unescape body) as [[f esc]|] eqn:Hu.
    2:{ destruct (d_escaped d); simpl; rewrite Hs, ?Hb, ?andb_false_r; simpl;
        by rewrite ?andb_false_r. }
    destruct (Nat.ltb_spec cap (length f)).
    { destruct esc; destruct (d_escaped d); simpl; rewrite Hs, ?Hb; simpl;
        by rewrite ?andb_false_r. }
    destruct Hb as (Hh & Hp & Hco & Hd & He & Hl & Hw). rewrite He.
    destruct esc; simpl; rewrite Hs, Hh; simpl; [done|]. rewrite Hd, Hm, Hl. simpl.
    rewrite (wrote_read _ _ _ Hw). simpl. rewrite Hp, Hco.
    destruct (callback _ s) as [st s']. by destruct st.
  - destruct (d_escaped d); simpl; by rewrite Ha.
Qed.

(** Appending a decoded byte keeps the relation. *)
Lemma feed_payload_sim cap d c body f b (s : S) m :
  (0 < cap)%nat -> d.(d_capacity) = cap -> d.(d_buffer) = Some m -> (cap <= length m)%nat ->
  d.(d_synchronized) = true -> d.(d_have_command) = true -> d.(d_port) = Z.shiftr c 4 ->
  d.(d_command) = Z.land c 0x0f -> d.(d_discarding) = false -> d.(d_escaped) = false ->
  d.(d_length) = length f -> (length f <= cap)%nat -> wrote (length m) m f ->
  unescape body = Some (f ++ [b], false) ->
  exists d', feed_payload d b s = Some (RNS_OK, d', s) /\ rel cap d' (Some (c :: body)).
Proof.
  intros Hcap Hc Hm Hlen Hs Hh Hp Hco Hd He Hl Hf Hw Hu. unfold feed_payload, rel.
  rewrite Hu, length_app, Hl, Hc. cbn [length].
  destruct (Nat.eqb_spec (length f) cap).
  - eexists. split; [done|]. split_and!; [done|done|]. exists m.
    rewrite (proj2 (Nat.ltb_lt _ _)) by lia. by split_and!.
  - destruct (wrote_store (length m) m f b Hw) as (m' & Hm' & Hw'); [lia|].
    rewrite Hm. cbn [mbind option_bind]. rewrite Hm'. cbn [mbind option_bind].
    eexists. split; [done|].
    split_and!; [done|done|]. exists m'. pose proof Hw' as (Hlm & _). rewrite Hlm.
    rewrite (proj2 (Nat.ltb_ge _ _)) by lia. by split_and!.
Qed.

Lemma kiss_feed_byte_sim cap : simulates (kiss_feed_byte callback) (abs_step cap) callback (rel cap).
Proof.
  intros d a b s Hrel. unfold kiss_feed_byte, abs_step.
  destruct (Z.eqb_spec b RNS_KISS_FEND) as [->|Hb]; [by apply kiss_fend_sim|].
  destruct Hrel as (Hcap & Hc & m & Hm & Hlen & Ha). cbn [fst snd deliver].
  destruct a as [[|c body]|]; cbn [fmap option_fmap option_map app].
  3:{ rewrite Ha. simpl. exists d. split; [done|]. split_and!; eauto. }
  { destruct Ha as (Hs & Hh & Hd & He & Hl). rewrite Hs, Hd, Hh. simpl. eexists. split; [done|].
    split_and!; [done..|]. exists m. simpl. split_and!; auto with rns. }
  destruct Ha as [Hs Hu]. rewrite Hs. simpl.
  assert (forall d', d'.(d_capacity) = cap -> d'.(d_buffer) = Some m -> d'.(d_synchronized) = true ->
    d'.(d_discarding) = true ->
    (match unescape_step (unescape body) b with
     | Some (f, _) => (cap < length f)%nat | None => True end) ->
    rel cap d' (Some (c :: body ++ [b]))) as Hdisc.
  { intros d' ???? Hover. split_and!; [done..|]. exists m. rewrite kiss_unescape_snoc.
    split_and!; [done..|]. destruct (unescape_step _ _) as [[f e]|]; [|done].
    by rewrite (proj2 (Nat.ltb_lt _ _)). }
  destruct (unescape body) as [[f esc]|] eqn:Hub.
  2:{ rewrite Hu. exists d. split; [done|]. by apply Hdisc. }
  destruct (Nat.ltb_spec cap (length f)) as [Hover|Hin].
  { rewrite Hu. exists d. split; [done|]. apply Hdisc; auto. simpl.
    repeat case_match; simplify_eq; rewrite ?length_app; lia. }
  destruct Hu as (Hh & Hp & Hco & Hd & He & Hl & Hw). rewrite Hd, Hh, He. simpl.
  pose proof (kiss_unescape_snoc body b) as Hsn. rewrite Hub in Hsn. simpl in Hsn, Hdisc.
  destruct esc.
  - destruct (Z.eqb_spec b RNS_KISS_TFEND); [|destruct (Z.eqb_spec b RNS_KISS_TFESC)].
    1,2: eapply feed_payload_sim; eauto.
    eexists. split; [done|]. by apply Hdisc.
  - destruct (Z.eqb_spec b RNS_KISS_FESC); [|eapply feed_payload_sim; eauto].
    eexists. split; [done|]. split_and!; [done..|]. exists m. simpl. rewrite Hsn.
    rewrite (proj2 (Nat.ltb_ge _ _)) by lia. by split_and!.
Qed.

Lemma kiss_feed_refines cap d a input s :
  rel cap d a -> slice_bad input = false ->
  exists d' s' st, rns_kiss_decoder_feed_commands callback d input s = Some (st, d', s') /\
    (st, s') = deliver callback (abs_run cap a (slice_bytes input)).2 s /\
    (st = RNS_OK -> rel cap d' (abs_run cap a (slice_bytes input)).1).
Proof.
  intros Hrel Hin. unfold rns_kiss_decoder_feed_commands.
  pose proof Hrel as (Hcap & Hc & m & Hm & _).
  rewrite Hm, Hc, Hin, bool_decide_eq_true_2, (proj2 (Nat.eqb_neq _ _)) by (eauto || lia).
  by apply (loop_sim _ _ _ _ (kiss_feed_byte_sim cap)).
Qed.

(** Feeding any bytes to a KISS decoder is memory safe and calls the
    command callback on exactly the frames of the abstract machine, in order,
    up to the first failing callback. *)
Theorem rns_kiss_decoder_feed_commands_refines cap d a input s :
  rel cap d a -> slice_bad input = false ->
  exists d' s' st, rns_kiss_decoder_feed_commands callback d input s = Some (st, d', s') /\
    (st, s') = deliver callback (abs_run cap a (slice_bytes input)).2 s /\
    (st = RNS_OK -> rel cap d' (abs_run cap a (slice_bytes input)).1).
Proof. apply kiss_feed_refines. Qed.
End Refinement.

(** *** Encoding *)

Lemma kiss_escape_cons b payload : escape (b :: payload) = image b ++ escape payload.
Proof. done. Qed.

Lemma kiss_image_cases b :
  (b = RNS_KISS_FEND /\ image b = [RNS_KISS_FESC; RNS_KISS_TFEND]) \/
  (b = RNS_KISS_FESC /\ image b = [RNS_KISS_FESC; RNS_KISS_TFESC]) \/
  (b <> RNS_KISS_FEND /\ b <> RNS_KISS_FESC /\ image b = [b]).
Proof.
  unfold image. destruct (Z.eqb_spec b RNS_KISS_FEND); [by left|].
  destruct (Z.eqb_spec b RNS_KISS_FESC); [by right; left|by right; right].
Qed.

Lemma kiss_unescape_escape_from payload f :
  foldl unescape_step (Some (f, false)) (escape payload) = Some (f ++ payload, false).
Proof.
  revert f. induction payload as [|b payload IH]; intros f; [by rewrite app_nil_r|].
  rewrite kiss_escape_cons, foldl_app.
  destruct (kiss_image_cases b) as [[-> ->]|[[-> ->]|(Hb1 & Hb2 & ->)]]; simpl;
    rewrite ?(proj2 (Z.eqb_neq b RNS_KISS_FESC)) by done; by rewrite IH, <-app_assoc.
Qed.

Lemma kiss_unescape_escape payload : unescape (escape payload) = Some (payload, false).
Proof. apply kiss_unescape_escape_from. Qed.

Lemma escape_no_fend payload : Forall (λ b, b <> RNS_KISS_FEND) (escape payload).
Proof.
  induction payload as [|b payload IH]; [constructor|]. rewrite kiss_escape_cons.
  apply Forall_app. split; [|done].
  destruct (kiss_image_cases b) as [[-> ->]|[[-> ->]|(Hb1 & Hb2 & ->)]]; by repeat constructor.
Qed.

Lemma kiss_encodes_byte : encodes_byte kiss_encode_byte image.
Proof.
  intros n out w b cap Hw Hn Hcap Hmax. unfold kiss_encode_byte. rewrite length_app.
  assert (wrap64 (Z.of_nat cap - Z.of_nat (length w)) = Z.of_nat cap - Z.of_nat (length w)) as ->.
  { apply wrap_small. unfold in_width. limits. lia. }
  destruct (kiss_image_cases b) as [[-> ->]|[[-> ->]|(Hb1 & Hb2 & ->)]]; cbn [length].
  3:{ rewrite !(proj2 (Z.eqb_neq b _)) by done. cbn [orb]. case_decide;
        [rewrite (proj2 (Nat.leb_gt _ _)) by lia|by rewrite (proj2 (Nat.leb_le _ _)) by lia].
      destruct (wrote_store _ _ _ b Hw) as (o1 & -> & Hw1); [lia|]. eauto. }
  all: rewrite ?Z.eqb_refl; change (RNS_KISS_FESC =? RNS_KISS_FEND) with false; cbn [orb]; case_decide;
    [rewrite (proj2 (Z.ltb_ge _ _)) by lia|by rewrite (proj2 (Z.ltb_lt _ _)) by lia];
    match goal with |- context [wrote _ _ (_ ++ [?x; ?y])] =>
      destruct (wrote_store2 n out w x y Hw) as (o1 & o2 & -> & Ho2 & Hw2); [lia|] end;
    cbn [mbind option_bind]; rewrite Ho2; eauto.
Qed.

(** Ports and commands are nibbles. *)
Definition nibbles (f : kiss_frame) : Prop :=
  0 <= f.(kf_port) < 16 /\ 0 <= f.(kf_command) < 16.

Definition command_byte (f : kiss_frame) : Z :=
  Z.lor (Z.shiftl f.(kf_port) 4) f.(kf_command).

Lemma command_byte_fields f :
  nibbles f ->
  is_byte (command_byte f) /\ Z.shiftr (command_byte f) 4 = f.(kf_port) /\
  Z.land (command_byte f) 0x0f = f.(kf_command).
Proof.
  intros [Hp Hc]. unfold command_byte.
  pose proof (forall_below2 16 16 (λ p c, let b := Z.lor (Z.shiftl p 4) c in
    (0 <=? b) && (b <? 256) && (Z.shiftr b 4 =? p) && (Z.land b 15 =? c))
    ltac:(vm_compute; reflexivity) _ _ Hp Hc) as H. cbv zeta in H.
  unfold in_width. rewrite !andb_true_iff in H. lia.
Qed.

Lemma kiss_length_wire f : length (wire f) = (3 + length (escape f.(kf_payload)))%nat.
Proof. unfold wire. simpl. rewrite length_app. simpl. lia. Qed.

(** The KISS command encoder never writes outside its output and, for a
    port and a command within a nibble, succeeds exactly when the wire image
    fits the capacity; it then leaves that image at the front of the output. *)
Theorem rns_kiss_encode_command_spec f out cap len0 :
  nibbles f -> (cap <= length out)%nat -> Z.of_nat cap <= SIZE_MAX ->
  exists st out' n,
    rns_kiss_encode_command f.(kf_port) f.(kf_command) (SBytes f.(kf_payload)) (Some out) cap (Some len0)
      = Some (st, Some out', Some n) /\ length out' = length out /\
    if decide (length (wire f) <= cap)%nat
    then st = RNS_OK /\ n = length (wire f) /\ memread out' 0 n = Some (wire f)
    else st = RNS_ERROR_OVERFLOW /\ n = 0%nat.
Proof.
  intros Hnib Hcap Hmax. unfold rns_kiss_encode_command.
  destruct (command_byte_fields f Hnib) as (Hbyte & _). destruct Hnib as [Hp Hc].
  rewrite !(proj2 (Z.ltb_ge 15 _)) by lia. change (slice_bad (SBytes f.(kf_payload))) with false.
  cbn [orb slice_bytes]. rewrite kiss_length_wire. destruct (Nat.ltb_spec cap 3).
  { eexists _, _, _. split_and!; [done|done|]. by rewrite decide_False by lia. }
  fold (command_byte f). rewrite (wrap_small _ _ Hbyte).
  destruct (wrote_store2 _ _ _ RNS_KISS_FEND (command_byte f) (wrote_nil _ out eq_refl))
    as (o1 & o2 & Ho1 & Ho2 & Hw); [simpl; lia|].
  simpl in Ho1, Ho2, Hw. rewrite Ho1. cbn [mbind option_bind]. rewrite Ho2. cbn [mbind option_bind].
  pose proof (encode_loop_spec _ _ kiss_encodes_byte (length out) f.(kf_payload) o2
    [RNS_KISS_FEND; command_byte f] cap Hw Hcap ltac:(simpl; lia) Hmax) as Hl.
  change (f.(kf_payload) ≫= image) with (escape f.(kf_payload)) in Hl.
  case_decide as Hd; simpl in Hd, Hl.
  - destruct Hl as (o3 & -> & Hw3). cbn.
    destruct (Nat.leb_spec cap (S (S (length (escape f.(kf_payload)))))).
    { eexists _, _, _. split_and!; [done|by destruct Hw3|]. by rewrite decide_False by lia. }
    destruct (wrote_store _ _ _ RNS_KISS_FEND Hw3) as (o4 & Ho4 & Hw4); [simpl; lia|].
    simpl in Ho4. rewrite Ho4. cbn. eexists _, _, _. split_and!; [done|by destruct Hw4|].
    rewrite decide_True by lia. split_and!; [done|lia|].
    apply wrote_read in Hw4. etransitivity; [|apply Hw4]. f_equal.
    rewrite !length_app. simpl. lia.
  - destruct Hl as (o3 & pos & -> & Ho3). cbn. eexists _, _, _.
    split_and!; [done|done|]. by rewrite decide_False by lia.
Qed.

(** A frame the decoder can recover: nibble header fields, a payload within
    the capacity, and a header byte that is not the delimiter itself. *)
Definition deliverable (cap : nat) (f : kiss_frame) : Prop :=
  nibbles f /\ (length f.(kf_payload) <= cap)%nat /\ command_byte f <> RNS_KISS_FEND.

Lemma kiss_abs_run_body cap seg body :
  Forall (λ b, b <> RNS_KISS_FEND) body ->
  abs_run cap (Some seg) body = (Some (seg ++ body), []).
Proof.
  intros Hb. revert seg. induction Hb as [|b body Hb _ IH]; intros seg; simpl; [by rewrite app_nil_r|].
  unfold abs_step. rewrite (proj2 (Z.eqb_neq _ _)) by done. simpl.
  by rewrite IH, <-app_assoc.
Qed.

Lemma frame_of_wire cap f :
  deliverable cap f -> frame_of cap (command_byte f :: escape f.(kf_payload)) = Some f.
Proof.
  intros (Hn & Hl & _). destruct (command_byte_fields f Hn) as (_ & Hp & Hc).
  unfold frame_of. rewrite kiss_unescape_escape, (proj2 (Nat.ltb_ge _ _)) by done.
  rewrite Hp, Hc. by destruct f.
Qed.

Lemma kiss_abs_run_wire cap a f :
  deliverable cap f -> abs_run cap a (wire f) = (Some [], pending cap a ++ [f]).
Proof.
  intros Hf. change (wire f) with
    (RNS_KISS_FEND :: (command_byte f :: escape (kf_payload f)) ++ [RNS_KISS_FEND]).
  cbn [run]. unfold abs_step at 1. rewrite Z.eqb_refl, run_app, kiss_abs_run_body.
  2:{ constructor; [by destruct Hf as (_ & _ & ?)|apply escape_no_fend]. }
  cbn [run app]. unfold abs_step. rewrite Z.eqb_refl. cbn [app pending].
  by rewrite frame_of_wire.
Qed.

Lemma kiss_init_rel cap m : (0 < cap <= length m)%nat -> rel cap (rns_kiss_decoder_init (Some m) cap) None.
Proof. intros. split_and!; [lia|done|]. exists m. split_and!; [done|lia|done]. Qed.

Lemma kiss_reset_rel cap d a : rel cap d a -> rel cap (rns_kiss_decoder_reset d) None.
Proof. intros (?&?&m&?&?&?). split_and!; [done..|]. exists m. by split_and!. Qed.

(** Whatever state a KISS decoder is in, the wire image of a frame makes it
    deliver that frame (after at most the frame that was pending) and leaves it
    idle, ready for the next one. *)
Theorem kiss_wire_delivered cap d a f :
  rel cap d a -> deliverable cap f ->
  exists d', rns_kiss_decoder_feed_commands collect d (SBytes (wire f)) []
      = Some (RNS_OK, d', pending cap a ++ [f]) /\ rel cap d' (Some []).
Proof.
  intros Hrel Hf.
  destruct (kiss_feed_refines collect cap d a (SBytes (wire f)) [] Hrel eq_refl)
    as (d' & s' & st & -> & Hd & Hr).
  rewrite deliver_collect in Hd. cbn [slice_bytes] in *. rewrite kiss_abs_run_wire in * by done.
  simplify_eq/=. eauto.
Qed.

(** Port 12 with the data command has the delimiter as its header byte: the
    encoder accepts it, and the decoder then delivers a different frame, with
    the first payload byte read as the header. *)
Theorem kiss_port_12_data_misread :
  let out := [0xc0; 0xc0; 0x20; 1; 2; 0xc0; 0; 0] in
  rns_kiss_encode 12 (SBytes [0x20; 1; 2]) (Some (replicate 8 0)) 8 (Some 0%nat)
    = Some (RNS_OK, Some out, Some 6%nat) /\
  (λ r, (r.1.1, r.2)) <$> rns_kiss_decoder_feed_commands collect
      (rns_kiss_decoder_init (Some (replicate 16 0)) 16) (SBytes (take 6 out)) [] =
    Some (RNS_OK, [{| kf_port := 2; kf_command := 0; kf_payload := [1; 2] |}]).
Proof. split; vm_compute; reflexivity. Qed.

(** *** A concrete decoder *)
Definition sample_kiss_decoder : rns_kiss_decoder_t := rns_kiss_decoder_init (Some (replicate 8 0)) 8.
Definition sample_kiss_frame : kiss_frame := {| kf_port := 1; kf_command := 0; kf_payload := [5; 0xc0] |}.

Lemma sample_kiss_decoder_rel : rel 8 sample_kiss_decoder None.
Proof. apply kiss_init_rel. simpl. lia. Qed.

Lemma rns_kiss_decoder_feed_commands_refines_witness :
  exists d' s' st, rns_kiss_decoder_feed_commands collect sample_kiss_decoder (SBytes [9; 0xc0; 0x10; 7; 0xc0]) []
      = Some (st, d', s') /\
    (st, s') = deliver collect [{| kf_port := 1; kf_command := 0; kf_payload := [7] |}] [].
Proof.
  destruct (rns_kiss_decoder_feed_commands_refines collect 8 sample_kiss_decoder None (SBytes [9; 0xc0; 0x10; 7; 0xc0]) []
    sample_kiss_decoder_rel eq_refl) as (d' & s' & st & H & Hd & _). exists d', s', st. exact (conj H Hd).
Defined.

Lemma rns_kiss_encode_command_spec_witness :
  exists st out' n, rns_kiss_encode_command 1 0 (SBytes [5; 0xc0]) (Some (replicate 8 0)) 8 (Some 0%nat)
      = Some (st, Some out', Some n) /\ st = RNS_OK /\ n = 6%nat.
Proof.
  destruct (rns_kiss_encode_command_spec sample_kiss_frame (replicate 8 0) 8 0) as (st & out' & n & H & _ & Hd);
    [by vm_compute; intuition congruence|apply le_n|by vm_compute|]. exists st, out', n.
  rewrite decide_True in Hd by (by vm_compute; lia). exact (conj H (conj (proj1 Hd) (proj1 (proj2 Hd)))).
Defined.

Lemma kiss_wire_delivered_witness :
  exists d', rns_kiss_decoder_feed_commands collect sample_kiss_decoder (SBytes (wire sample_kiss_frame)) []
      = Some (RNS_OK, d', [sample_kiss_frame]) /\ rel 8 d' (Some []).
Proof.
  apply (kiss_wire_delivered 8 sample_kiss_decoder None sample_kiss_frame); [apply sample_kiss_decoder_rel|].
  by vm_compute; intuition (congruence || lia).
Defined.

End Kiss.
