(* ===== verification/RadioFraming.v ===== *)
(** * RNode split framing over LoRa

    Models [src/interfaces/radio_framing.c]: a packet of at most 500 bytes
    travels as one or two PHY frames of at most 255 bytes, and the reassembler
    joins them, guarding against reordered, duplicated, stale and replayed
    fragments. Times are the caller's millisecond clock, a 64-bit unsigned
    integer. *)

From Stdlib Require Import ZArith Lia.
From S2P Require Import Prelude Platform Framing.

Module Radio.

Definition RNS_RADIO_PHY_MTU : nat := 255.
Definition RNS_RADIO_FRAME_HEADER_SIZE : nat := 1.
Definition RNS_RADIO_FRAME_PAYLOAD_MTU : nat := 254.
Definition RNS_RADIO_PACKET_MTU : nat := 500.
Definition RNS_RADIO_SEQUENCE_MASK : Z := 0xf0.
Definition RNS_RADIO_SPLIT_FLAG : Z := 0x01.
Definition RNS_RADIO_RESERVED_MASK : Z := 0x0e.

Record rns_radio_encoded_packet_t : Type := {
  frames : list (list Z);
  lengths : list nat;
  count : nat
}.

(** [memset(&result, 0, sizeof(result))] *)
Definition encoded_zero : rns_radio_encoded_packet_t :=
  {| frames := [replicate 255 0; replicate 255 0]; lengths := [0%nat; 0%nat]; count := 0 |}.

(** Frame [i]: the header byte, then the payload. *)
Definition put_frame (r : rns_radio_encoded_packet_t) (i : nat) (header : Z) (payload : list Z)
  : option rns_radio_encoded_packet_t :=
  f ← r.(frames) !! i;
  f ← store f 0 header;
  f ← memcpy f RNS_RADIO_FRAME_HEADER_SIZE payload;
  Some {| r with frames := <[i := f]> r.(frames) |}.

Definition rns_radio_frame_encode (packet : slice) (sequence : Z)
    (encoded : rns_radio_encoded_packet_t) : option (rns_status * rns_radio_encoded_packet_t) :=
  if slice_is_null packet || (slice_length packet =? 0)%nat ||
     (RNS_RADIO_PACKET_MTU <? slice_length packet)%nat || (16 <=? sequence)
  then Some (RNS_ERROR_INVALID_ARGUMENT, encoded)
  else
    let bytes := slice_bytes packet in
    let packet_length := slice_length packet in
    let header := wrap8 (Z.shiftl sequence 4) in
    if (packet_length <=? RNS_RADIO_FRAME_PAYLOAD_MTU)%nat then
      r ← put_frame encoded_zero 0 header bytes;
      Some (RNS_OK,
            {| r with lengths := [(packet_length + RNS_RADIO_FRAME_HEADER_SIZE)%nat; 0%nat];
                      count := 1%nat |})
    else
      let header := Z.lor header RNS_RADIO_SPLIT_FLAG in
      first ← memread bytes 0 RNS_RADIO_FRAME_PAYLOAD_MTU;
      r ← put_frame encoded_zero 0 header first;
      let second_length := (packet_length - RNS_RADIO_FRAME_PAYLOAD_MTU)%nat in
      second ← memread bytes RNS_RADIO_FRAME_PAYLOAD_MTU second_length;
      r ← put_frame r 1 header second;
      Some (RNS_OK,
            {| r with lengths := [RNS_RADIO_PHY_MTU;
                                  (second_length + RNS_RADIO_FRAME_HEADER_SIZE)%nat];
                      count := 2%nat |}).

(** The PHY frames an encoding stands for: frame [i] cut to its length, for
    the first [count]. *)
Definition phy_frames (e : rns_radio_encoded_packet_t) : list (list Z) :=
  take e.(count) (zip_with take e.(lengths) e.(frames)).

Record rns_radio_reassembler_t : Type := {
  r_buffer : option (list Z);
  r_capacity : nat;
  r_length : nat;
  r_fragment_timeout_ms : Z;
  r_sequence_reuse_guard_ms : Z;
  r_pending_since_ms : Z;
  r_sequence_blocked_until_ms : list Z;
  r_sequence_blocked : list bool;
  r_completed_packets : Z;
  r_malformed_frames : Z;
  r_oversized_packets : Z;
  r_timed_out_packets : Z;
  r_duplicate_fragments : Z;
  r_out_of_order_fragments : Z;
  r_sequence_collisions : Z;
  r_discarded_packets : Z;
  r_sequence : Z;
  r_pending : bool
}.

Definition deadline_after (now_ms interval_ms : Z) : Z :=
  if UINT64_MAX - now_ms <? interval_ms then UINT64_MAX else now_ms + interval_ms.

Definition clear_pending (r : rns_radio_reassembler_t) : rns_radio_reassembler_t :=
  {| r with r_length := 0%nat; r_pending_since_ms := 0; r_sequence := 0; r_pending := false |}.

Definition block_sequence (r : rns_radio_reassembler_t) (sequence now_ms : Z)
  : rns_radio_reassembler_t :=
  {| r with
     r_sequence_blocked := <[Z.to_nat sequence := true]> r.(r_sequence_blocked);
     r_sequence_blocked_until_ms :=
       <[Z.to_nat sequence := deadline_after now_ms r.(r_sequence_reuse_guard_ms)]>
         r.(r_sequence_blocked_until_ms) |}.

(** The test clears an entry whose guard has run out. *)
Definition sequence_is_blocked (r : rns_radio_reassembler_t) (sequence now_ms : Z)
  : bool * rns_radio_reassembler_t :=
  let i := Z.to_nat sequence in
  if negb (r.(r_sequence_blocked) !!! i) then (false, r)
  else if r.(r_sequence_blocked_until_ms) !!! i <=? now_ms
  then (false, {| r with r_sequence_blocked := <[i := false]> r.(r_sequence_blocked);
                         r_sequence_blocked_until_ms :=
                           <[i := 0]> r.(r_sequence_blocked_until_ms) |})
  else (true, r).

Definition rns_radio_reassembler_init (r : rns_radio_reassembler_t) (storage : option (list Z))
    (storage_capacity : nat) (fragment_timeout_ms sequence_reuse_guard_ms : Z)
  : rns_status * rns_radio_reassembler_t :=
  if negb (bool_decide (is_Some storage)) || (storage_capacity =? 0)%nat ||
     (RNS_RADIO_PACKET_MTU <? storage_capacity)%nat || (fragment_timeout_ms =? 0) ||
     (sequence_reuse_guard_ms =? 0)
  then (RNS_ERROR_INVALID_ARGUMENT, r)
  else (RNS_OK,
        {| r_buffer := storage; r_capacity := storage_capacity; r_length := 0;
           r_fragment_timeout_ms := fragment_timeout_ms;
           r_sequence_reuse_guard_ms := sequence_reuse_guard_ms; r_pending_since_ms := 0;
           r_sequence_blocked_until_ms := replicate 16 0;
           r_sequence_blocked := replicate 16 false;
           r_completed_packets := 0; r_malformed_frames := 0; r_oversized_packets := 0;
           r_timed_out_packets := 0; r_duplicate_fragments := 0;
           r_out_of_order_fragments := 0; r_sequence_collisions := 0;
           r_discarded_packets := 0; r_sequence := 0; r_pending := false |}).

Definition rns_radio_reassembler_reset (r : rns_radio_reassembler_t) : rns_radio_reassembler_t :=
  let r := clear_pending r in
  {| r with r_sequence_blocked := replicate 16 false;
            r_sequence_blocked_until_ms := replicate 16 0 |}.

Definition rns_radio_reassembler_expire (r : rns_radio_reassembler_t) (now_ms : Z)
  : bool * rns_radio_reassembler_t :=
  if negb r.(r_pending) || (now_ms <? r.(r_pending_since_ms)) ||
     (now_ms - r.(r_pending_since_ms) <? r.(r_fragment_timeout_ms))
  then (false, r)
  else
    let sequence := r.(r_sequence) in
    let r := block_sequence (clear_pending r) sequence now_ms in
    (true, {| r with r_timed_out_packets := wrap64 (r.(r_timed_out_packets) + 1) |}).

Definition buffer_first (r : rns_radio_reassembler_t) (payload : list Z) (sequence now_ms : Z)
  : option (rns_status * rns_radio_reassembler_t) :=
  if (r.(r_capacity) <? RNS_RADIO_FRAME_PAYLOAD_MTU)%nat
  then Some (RNS_ERROR_OVERFLOW,
             {| r with r_oversized_packets := wrap64 (r.(r_oversized_packets) + 1) |})
  else
    src ← memread payload 0 RNS_RADIO_FRAME_PAYLOAD_MTU;
    m ← r.(r_buffer);
    m ← memcpy m 0 src;
    Some (RNS_OK, {| r with r_buffer := Some m; r_length := RNS_RADIO_FRAME_PAYLOAD_MTU;
                            r_pending_since_ms := now_ms; r_sequence := sequence;
                            r_pending := true |}).

Definition discard_pending (r : rns_radio_reassembler_t) (now_ms : Z) : rns_radio_reassembler_t :=
  let sequence := r.(r_sequence) in
  let r := block_sequence (clear_pending r) sequence now_ms in
  {| r with r_discarded_packets := wrap64 (r.(r_discarded_packets) + 1) |}.

Section Feed.
Context {S : Type}.
Variable callback : list Z -> S -> rns_status * S.

(** A frame that carries a whole packet. *)
Definition feed_single (r : rns_radio_reassembler_t) (payload : list Z) (now_ms : Z) (s : S)
  : rns_status * rns_radio_reassembler_t * S :=
  let r := if r.(r_pending) then discard_pending r now_ms else r in
  if (r.(r_capacity) <? length payload)%nat
  then (RNS_ERROR_OVERFLOW,
        {| r with r_oversized_packets := wrap64 (r.(r_oversized_packets) + 1) |}, s)
  else
    let '(status, s) := callback payload s in
    (status,
     if is_ok status
     then {| r with r_completed_packets := wrap64 (r.(r_completed_packets) + 1) |} else r, s).

(** The first fragment of a split packet. *)
Definition feed_first (r : rns_radio_reassembler_t) (payload : list Z) (sequence now_ms : Z)
  : option (rns_status * rns_radio_reassembler_t) :=
  let '(blocked, r) := sequence_is_blocked r sequence now_ms in
  if blocked
  then Some (RNS_ERROR_INVALID_STATE,
             {| r with r_sequence_collisions := wrap64 (r.(r_sequence_collisions) + 1) |})
  else if r.(r_pending) then
    if r.(r_sequence) =? sequence then
      m ← r.(r_buffer);
      held ← memread m 0 RNS_RADIO_FRAME_PAYLOAD_MTU;
      new ← memread payload 0 RNS_RADIO_FRAME_PAYLOAD_MTU;
      if memeq held new
      then Some (RNS_OK,
                 {| r with r_duplicate_fragments := wrap64 (r.(r_duplicate_fragments) + 1) |})
      else
        let r := block_sequence (clear_pending r) sequence now_ms in
        Some (RNS_ERROR_PROTOCOL,
              {| r with r_sequence_collisions := wrap64 (r.(r_sequence_collisions) + 1) |})
    else buffer_first (discard_pending r now_ms) payload sequence now_ms
  else buffer_first r payload sequence now_ms.

(** The second fragment of a split packet. *)
Definition feed_second (r : rns_radio_reassembler_t) (payload : list Z) (sequence now_ms : Z) (s : S)
  : option (rns_status * rns_radio_reassembler_t * S) :=
  if (RNS_RADIO_PACKET_MTU - RNS_RADIO_FRAME_PAYLOAD_MTU <? length payload)%nat
  then Some (RNS_ERROR_PROTOCOL,
             {| r with r_malformed_frames := wrap64 (r.(r_malformed_frames) + 1) |}, s)
  else if negb r.(r_pending) || negb (r.(r_sequence) =? sequence)
  then Some (RNS_ERROR_PROTOCOL,
             {| r with r_out_of_order_fragments := wrap64 (r.(r_out_of_order_fragments) + 1) |}, s)
  else if wrap64 (Z.of_nat r.(r_capacity) - Z.of_nat r.(r_length)) <? Z.of_nat (length payload)
  then
    let pending_sequence := r.(r_sequence) in
    let r := block_sequence (clear_pending r) pending_sequence now_ms in
    Some (RNS_ERROR_OVERFLOW,
          {| r with r_oversized_packets := wrap64 (r.(r_oversized_packets) + 1) |}, s)
  else
    m ← r.(r_buffer);
    m ← memcpy m r.(r_length) payload;
    let payload_length := (r.(r_length) + length payload)%nat in
    let r := block_sequence (clear_pending {| r with r_buffer := Some m |}) sequence now_ms in
    packet ← memread m 0 payload_length;
    let '(status, s) := callback packet s in
    Some (status,
          if is_ok status
          then {| r with r_completed_packets := wrap64 (r.(r_completed_packets) + 1) |} else r, s).

Definition rns_radio_reassembler_feed (r : rns_radio_reassembler_t) (frame : slice) (now_ms : Z) (s : S)
  : option (rns_status * rns_radio_reassembler_t * S) :=
  if negb (bool_decide (is_Some r.(r_buffer))) || (r.(r_capacity) =? 0)%nat || slice_is_null frame
  then Some (RNS_ERROR_INVALID_ARGUMENT, r, s)
  else if (slice_length frame <=? RNS_RADIO_FRAME_HEADER_SIZE)%nat ||
          (RNS_RADIO_PHY_MTU <? slice_length frame)%nat
  then Some (RNS_ERROR_PROTOCOL,
             {| r with r_malformed_frames := wrap64 (r.(r_malformed_frames) + 1) |}, s)
  else
    header ← load (slice_bytes frame) 0;
    if negb (Z.land header RNS_RADIO_RESERVED_MASK =? 0)
    then Some (RNS_ERROR_PROTOCOL,
               {| r with r_malformed_frames := wrap64 (r.(r_malformed_frames) + 1) |}, s)
    else
      let r := (rns_radio_reassembler_expire r now_ms).2 in
      let sequence := Z.shiftr (Z.land header RNS_RADIO_SEQUENCE_MASK) 4 in
      let split := negb (Z.land header RNS_RADIO_SPLIT_FLAG =? 0) in
      let payload := drop RNS_RADIO_FRAME_HEADER_SIZE (slice_bytes frame) in
      if negb split then Some (feed_single r payload now_ms s)
      else if (slice_length frame =? RNS_RADIO_PHY_MTU)%nat then
        p ← feed_first r payload sequence now_ms;
        Some (p.1, p.2, s)
      else feed_second r payload sequence now_ms s.
End Feed.

(** ** Invariant *)

Definition blocked (r : rns_radio_reassembler_t) (q : Z) : bool :=
  r.(r_sequence_blocked) !!! Z.to_nat q.
Definition blocked_until (r : rns_radio_reassembler_t) (q : Z) : Z :=
  r.(r_sequence_blocked_until_ms) !!! Z.to_nat q.

(** The storage covers the capacity, the two guard tables have their sixteen
    entries, and a pending packet holds a full first fragment under a sequence
    number that is not blocked. *)
Record wf (r : rns_radio_reassembler_t) : Prop := {
  wf_buffer : exists m, r.(r_buffer) = Some m /\ (r.(r_capacity) <= length m)%nat;
  wf_capacity : (0 < r.(r_capacity) <= RNS_RADIO_PACKET_MTU)%nat;
  wf_blocked : length r.(r_sequence_blocked) = 16%nat;
  wf_until : length r.(r_sequence_blocked_until_ms) = 16%nat;
  wf_pending : r.(r_pending) = true ->
    0 <= r.(r_sequence) < 16 /\ blocked r r.(r_sequence) = false /\
    r.(r_length) = RNS_RADIO_FRAME_PAYLOAD_MTU /\
    (RNS_RADIO_FRAME_PAYLOAD_MTU <= r.(r_capacity))%nat
}.

(** The first fragment held for a pending packet, with its sequence number. *)
Definition held (r : rns_radio_reassembler_t) : option (Z * list Z) :=
  if r.(r_pending) then
    m ← r.(r_buffer); f ← memread m 0 RNS_RADIO_FRAME_PAYLOAD_MTU; Some (r.(r_sequence), f)
  else None.

Lemma block_clear_wf r q now : wf r -> wf (block_sequence (clear_pending r) q now).
Proof. intros []. split; simpl; rewrite ?length_insert; auto. done. Qed.

Lemma wf_ext r r' :
  wf r -> r'.(r_buffer) = r.(r_buffer) -> r'.(r_capacity) = r.(r_capacity) ->
  r'.(r_sequence_blocked) = r.(r_sequence_blocked) ->
  r'.(r_sequence_blocked_until_ms) = r.(r_sequence_blocked_until_ms) ->
  r'.(r_pending) = r.(r_pending) -> r'.(r_sequence) = r.(r_sequence) ->
  r'.(r_length) = r.(r_length) -> wf r'.
Proof.
  intros [] Hb Hc H1 H2 Hp Hs Hl. split; unfold blocked; rewrite ?Hb, ?Hc, ?H1, ?H2, ?Hp, ?Hs, ?Hl; auto.
Qed.

(** Changing only counters keeps the invariant. *)
Ltac wf_counter := match goal with
  | H : wf ?r |- wf _ => apply (wf_ext r); [exact H|simpl; congruence..] end.

Lemma block_clear_held r q now : held (block_sequence (clear_pending r) q now) = None.
Proof. done. Qed.

Lemma radio_expire_wf r now : wf r -> wf (rns_radio_reassembler_expire r now).2.
Proof.
  intros Hwf. unfold rns_radio_reassembler_expire. case_match; simpl; [done|].
  pose proof (block_clear_wf r r.(r_sequence) now Hwf). by wf_counter.
Qed.

Lemma discard_wf r now : wf r -> wf (discard_pending r now).
Proof.
  intros Hwf. unfold discard_pending.
  pose proof (block_clear_wf r r.(r_sequence) now Hwf). by wf_counter.
Qed.

Lemma sequence_is_blocked_wf r q now b r' :
  wf r -> 0 <= q < 16 -> sequence_is_blocked r q now = (b, r') ->
  wf r' /\ held r' = held r /\ r'.(r_pending) = r.(r_pending) /\
  r'.(r_sequence) = r.(r_sequence) /\ r'.(r_buffer) = r.(r_buffer) /\
  r'.(r_capacity) = r.(r_capacity) /\ r'.(r_fragment_timeout_ms) = r.(r_fragment_timeout_ms) /\
  (b = false -> blocked r' q = false).
Proof.
  intros Hwf Hq. unfold sequence_is_blocked.
  destruct (r.(r_sequence_blocked) !!! Z.to_nat q) eqn:Hb; simpl;
    [|intros [= <- <-]; by split_and!].
  destruct (Z.leb_spec (r.(r_sequence_blocked_until_ms) !!! Z.to_nat q) now);
    intros [= <- <-]; [|by split_and!].
  destruct Hwf as [? ? Hl1 Hl2 Hp]. split_and!; try done.
  - split; simpl; rewrite ?length_insert; auto. intros Hpend. specialize (Hp Hpend) as (?&Hbs&?&?).
    split_and!; auto; try lia. unfold blocked in *. simpl.
    destruct (decide (Z.to_nat q = Z.to_nat r.(r_sequence))) as [E|E].
    + rewrite E. by rewrite list_lookup_total_insert_eq by lia.
    + by rewrite list_lookup_total_insert_ne by done.
  - intros _. unfold blocked. simpl. by rewrite list_lookup_total_insert_eq by lia.
Qed.

Lemma buffer_first_spec r payload q now :
  wf r -> 0 <= q < 16 -> blocked r q = false -> length payload = RNS_RADIO_FRAME_PAYLOAD_MTU ->
  exists st r', buffer_first r payload q now = Some (st, r') /\
    (if decide (RNS_RADIO_FRAME_PAYLOAD_MTU <= r.(r_capacity))%nat
     then st = RNS_OK /\ held r' = Some (q, payload) /\ r'.(r_pending_since_ms) = now
     else st = RNS_ERROR_OVERFLOW /\ held r' = held r) /\
    (r.(r_pending) = false -> wf r') /\ r'.(r_capacity) = r.(r_capacity) /\
    r'.(r_sequence_blocked) = r.(r_sequence_blocked) /\
    r'.(r_sequence_blocked_until_ms) = r.(r_sequence_blocked_until_ms) /\
    r'.(r_fragment_timeout_ms) = r.(r_fragment_timeout_ms).
Proof.
  intros Hwf Hq Hb Hp. unfold buffer_first. case_decide as Hc.
  2:{ rewrite (proj2 (Nat.ltb_lt _ _)) by lia. eexists _, _. split_and!; try done.
      intros. by wf_counter. }
  rewrite (proj2 (Nat.ltb_ge _ _)) by lia.
  assert (memread payload 0 RNS_RADIO_FRAME_PAYLOAD_MTU = Some payload) as ->.
  { unfold memread. rewrite decide_True, drop_0, take_ge by lia. done. }
  destruct (wf_buffer r Hwf) as (m & Hm & Hlen). rewrite Hm. cbn [mbind option_bind].
  destruct (wrote_memcpy _ m [] payload (wrote_nil _ m eq_refl)) as (m' & Hm' & Hw); [simpl; lia|].
  simpl in Hm', Hw. rewrite Hm'. cbn [mbind option_bind]. eexists _, _. split; [done|].
  pose proof (wrote_read _ _ _ Hw) as Hread. rewrite Hp in Hread.
  split_and!; try done.
  - unfold held. cbn [r_pending r_buffer]. cbn [mbind option_bind]. by rewrite Hread.
  - intros _. destruct Hw as [Hl _]. destruct Hwf. split; simpl; auto.
    exists m'. split; [done|]. lia.
Qed.

(** ** What a frame delivers *)

Definition sequence_of (header : Z) : Z := Z.shiftr (Z.land header RNS_RADIO_SEQUENCE_MASK) 4.
Definition is_split (header : Z) : bool := negb (Z.land header RNS_RADIO_SPLIT_FLAG =? 0).

(** Well-formed on air: between 2 and 255 bytes with the reserved bits clear. *)
Definition frame_ok (frame : list Z) : bool :=
  match frame with
  | [] => false
  | header :: payload =>
      (1 <=? length payload)%nat && (length frame <=? RNS_RADIO_PHY_MTU)%nat &&
      (Z.land header RNS_RADIO_RESERVED_MASK =? 0)
  end.

(** The packet a frame completes: an unsplit frame its payload, a second
    fragment the concatenation of the held first fragment and its payload. *)
Definition delivered (r : rns_radio_reassembler_t) (frame : list Z) : option (list Z) :=
  match frame with
  | [] => None
  | header :: payload =>
      if negb (is_split header)
      then if (length payload <=? r.(r_capacity))%nat then Some payload else None
      else if (length frame =? RNS_RADIO_PHY_MTU)%nat then None
      else
        '(q, first) ← held r;
        if (q =? sequence_of header) &&
           (length payload <=? RNS_RADIO_PACKET_MTU - RNS_RADIO_FRAME_PAYLOAD_MTU)%nat &&
           (RNS_RADIO_FRAME_PAYLOAD_MTU + length payload <=? r.(r_capacity))%nat
        then Some (first ++ payload) else None
  end.

Lemma land_byte h mask : 0 <= mask < 256 -> Z.land h mask = Z.land (h mod 256) mask.
Proof.
  intros Hm. assert (Z.land (Z.ones 8) mask = mask) as Hones.
  { rewrite Z.land_comm, Z.land_ones by lia. apply Z.mod_small. lia. }
  change (h mod 256) with (h mod 2 ^ 8). rewrite <-Z.land_ones by lia.
  by rewrite <-Z.land_assoc, Hones.
Qed.

Lemma sequence_of_range h : 0 <= sequence_of h < 16.
Proof.
  unfold sequence_of, RNS_RADIO_SEQUENCE_MASK. rewrite land_byte by lia.
  pose proof (Z.mod_pos_bound h 256 ltac:(lia)) as Hb.
  pose proof (forall_below 256 (λ x, let y := Z.shiftr (Z.land x 0xf0) 4 in (0 <=? y) && (y <? 16))
    ltac:(vm_compute; reflexivity) _ Hb) as H. cbv zeta in H.
  rewrite andb_true_iff in H. lia.
Qed.

(** Joining a second fragment behind the first one. *)
Lemma join_fragments m payload :
  (RNS_RADIO_FRAME_PAYLOAD_MTU + length payload <= length m)%nat ->
  exists m', memcpy m RNS_RADIO_FRAME_PAYLOAD_MTU payload = Some m' /\ length m' = length m /\
    memread m' 0 (RNS_RADIO_FRAME_PAYLOAD_MTU + length payload) =
      Some (take RNS_RADIO_FRAME_PAYLOAD_MTU m ++ payload).
Proof.
  intros Hlen. assert (length (take RNS_RADIO_FRAME_PAYLOAD_MTU m) = RNS_RADIO_FRAME_PAYLOAD_MTU) as Htl.
  { rewrite length_take. lia. }
  assert (wrote (length m) m (take RNS_RADIO_FRAME_PAYLOAD_MTU m)) as Hw.
  { unfold wrote. rewrite Htl. split_and!; [done..|lia]. }
  destruct (wrote_memcpy _ _ _ payload Hw) as (m' & Hm' & Hw'); [lia|].
  rewrite Htl in Hm'. exists m'. split_and!; [done|by destruct Hw'|].
  pose proof (wrote_read _ _ _ Hw') as Hrd. by rewrite length_app, Htl in Hrd.
Qed.

Section FeedSpec.
Context {S : Type}.
Variable callback : list Z -> S -> rns_status * S.

(** The outcome of a feed step: the callback ran exactly once, on the given
    packet, or not at all. *)
Definition outcome (p : option (list Z)) (s : S) (st : rns_status) (s' : S) : Prop :=
  match p with Some p => (st, s') = callback p s | None => s' = s end.

Lemma feed_single_spec r header payload now s :
  wf r -> is_split header = false ->
  exists st r' s', feed_single callback r payload now s = (st, r', s') /\ wf r' /\
    outcome (delivered r (header :: payload)) s st s'.
Proof.
  intros Hwf Hns. unfold feed_single, delivered, outcome. rewrite Hns. cbn [negb].
  set (r1 := if r_pending r then _ else r).
  assert (wf r1) as Hwf1 by (subst r1; case_match; [by apply discard_wf|done]).
  assert (r.(r_capacity) = r1.(r_capacity)) as -> by (subst r1; by case_match).
  clearbody r1. destruct (Nat.leb_spec (length payload) r1.(r_capacity)) as [Hle|Hlt].
  - rewrite (proj2 (Nat.ltb_ge _ _)) by lia. destruct (callback payload s) as [st s'].
    eexists _, _, _. split_and!; [done| |done]. destruct (is_ok st); [by wf_counter|done].
  - rewrite (proj2 (Nat.ltb_lt _ _)) by lia. eexists _, _, _. split_and!; [done| |done].
    by wf_counter.
Qed.

Lemma feed_first_wf r payload q now :
  wf r -> 0 <= q < 16 -> length payload = RNS_RADIO_FRAME_PAYLOAD_MTU ->
  exists st r', feed_first r payload q now = Some (st, r') /\ wf r'.
Proof.
  intros Hwf Hq Hp. unfold feed_first.
  destruct (sequence_is_blocked r q now) as [b r1] eqn:Hb.
  apply sequence_is_blocked_wf in Hb as (Hwf1 & Hh & Hpd & Hs & Hbuf & _ & _ & Hnb); [|done..].
  destruct b; [eexists _, _; split; [done|]; by wf_counter|]. specialize (Hnb eq_refl).
  destruct (r_pending r1) eqn:Hpend.
  - destruct (wf_pending r1 Hwf1 Hpend) as (?&?&?&?).
    destruct (Z.eqb_spec (r_sequence r1) q) as [E|E].
    + destruct (wf_buffer r1 Hwf1) as (m & Hm & Hlen). rewrite Hm. cbn [mbind option_bind].
      unfold memread. rewrite !decide_True by lia. cbn [mbind option_bind]. case_match.
      * eexists _, _. split; [done|]. by wf_counter.
      * eexists _, _. split; [done|]. pose proof (block_clear_wf r1 q now Hwf1). by wf_counter.
    + pose proof (discard_wf r1 now Hwf1) as Hwf2.
      destruct (buffer_first_spec (discard_pending r1 now) payload q now)
        as (st & r2 & -> & _ & Hw & _); [done|done| |done|].
      * unfold blocked. simpl. rewrite list_lookup_total_insert_ne by lia. done.
      * eexists _, _. split; [done|]. by apply Hw.
  - destruct (buffer_first_spec r1 payload q now) as (st & r2 & -> & _ & Hw & _); [done..|].
    eexists _, _. split; [done|]. by apply Hw.
Qed.

Lemma feed_second_spec r header payload now s :
  wf r -> is_split header = true -> (length (header :: payload) < RNS_RADIO_PHY_MTU)%nat ->
  exists st r' s', feed_second callback r payload (sequence_of header) now s = Some (st, r', s') /\
    wf r' /\ outcome (delivered r (header :: payload)) s st s' /\
    (is_Some (delivered r (header :: payload)) ->
     blocked r' (sequence_of header) = true /\
     blocked_until r' (sequence_of header) = deadline_after now r.(r_sequence_reuse_guard_ms) /\
     held r' = None).
Proof.
  intros Hwf Hsp Hlen. unfold feed_second, delivered, outcome. rewrite Hsp. cbn [negb].
  pose proof (sequence_of_range header) as Hq. set (q := sequence_of header) in *.
  rewrite (proj2 (Nat.eqb_neq (length _) _)) by lia.
  destruct (Nat.ltb_spec (RNS_RADIO_PACKET_MTU - RNS_RADIO_FRAME_PAYLOAD_MTU) (length payload)).
  { rewrite (proj2 (Nat.leb_gt _ _)) by lia. eexists _, _, _. split; [done|]. split; [by wf_counter|].
    destruct (held r) as [[q' f]|]; simpl; rewrite ?andb_false_r; simpl;
      (split; [done|by intros []]). }
  rewrite (proj2 (Nat.leb_le (length payload) _)) by lia.
  unfold held. destruct (r_pending r) eqn:Hp; cbn [negb orb].
  2:{ eexists _, _, _. split; [done|]. split; [by wf_counter|]. split; [done|by intros []]. }
  destruct (wf_pending r Hwf Hp) as (Hs & Hb & Hl & Hc).
  destruct (wf_buffer r Hwf) as (m & Hm & Hlm). rewrite Hm. cbn [mbind option_bind].
  assert (memread m 0 RNS_RADIO_FRAME_PAYLOAD_MTU = Some (take RNS_RADIO_FRAME_PAYLOAD_MTU m)) as ->.
  { unfold memread. by rewrite decide_True, drop_0 by lia. }
  cbn [mbind option_bind]. destruct (Z.eqb_spec (r_sequence r) q) as [E|E]; cbn [negb andb].
  2:{ eexists _, _, _. split; [done|]. split; [by wf_counter|]. split; [done|by intros []]. }
  rewrite Hl.
  assert (wrap64 (Z.of_nat (r_capacity r) - Z.of_nat RNS_RADIO_FRAME_PAYLOAD_MTU)
    = Z.of_nat (r_capacity r) - Z.of_nat RNS_RADIO_FRAME_PAYLOAD_MTU) as ->.
  { apply wrap_small. unfold in_width. pose proof (wf_capacity r Hwf).
    unfold RNS_RADIO_PACKET_MTU in *. lia. }
  destruct (Nat.leb_spec (RNS_RADIO_FRAME_PAYLOAD_MTU + length payload) (r_capacity r)).
  2:{ rewrite (proj2 (Z.ltb_lt _ _)) by lia. eexists _, _, _. split; [done|].
      split; [pose proof (block_clear_wf r (r_sequence r) now Hwf); by wf_counter|].
      split; [done|by intros []]. }
  rewrite (proj2 (Z.ltb_ge _ _)) by lia.
  destruct (join_fragments m payload) as (m' & Hm' & Hlm' & Hrd); [lia|].
  rewrite Hm'. cbn [mbind option_bind]. rewrite Hrd.
  cbn [mbind option_bind]. destruct (callback (take RNS_RADIO_FRAME_PAYLOAD_MTU m ++ payload) s) as [st s'].
  eexists _, _, _. split; [done|].
  assert (wf (block_sequence (clear_pending {| r with r_buffer := Some m' |}) q now)) as Hwf'.
  { apply block_clear_wf. destruct Hwf. split; simpl; auto.
    exists m'. split; [done|lia]. }
  split; [destruct (is_ok st); [by wf_counter|done]|]. split; [done|]. intros _.
  unfold blocked, blocked_until, held.
  destruct (is_ok st); simpl;
    rewrite !list_lookup_total_insert_eq by (rewrite ?(wf_blocked r Hwf), ?(wf_until r Hwf); lia);
    by split_and!.
Qed.

Lemma radio_feed_spec r frame now s :
  wf r ->
  exists st r' s', rns_radio_reassembler_feed callback r (SBytes frame) now s = Some (st, r', s') /\
    wf r' /\
    outcome (if frame_ok frame
             then delivered (rns_radio_reassembler_expire r now).2 frame else None) s st s'.
Proof.
  intros Hwf. unfold rns_radio_reassembler_feed.
  destruct (wf_buffer r Hwf) as (m & Hm & _). pose proof (wf_capacity r Hwf) as Hc.
  rewrite bool_decide_eq_true_2, (proj2 (Nat.eqb_neq _ _)) by (rewrite ?Hm; eauto; lia).
  cbn [negb orb slice_is_null slice_length slice_bytes].
  destruct frame as [|header payload]; [eexists _, _, _; split_and!; [done|by wf_counter|done]|].
  cbn [frame_ok]. destruct (Nat.leb_spec (length (header :: payload)) RNS_RADIO_FRAME_HEADER_SIZE) as [Hl|Hl].
  { cbn [length] in Hl. rewrite (proj2 (Nat.leb_gt 1 _)) by (unfold RNS_RADIO_FRAME_HEADER_SIZE in Hl; lia).
    eexists _, _, _. split_and!; [done|by wf_counter|done]. }
  rewrite (proj2 (Nat.leb_le 1 _)) by (cbn [length] in Hl; unfold RNS_RADIO_FRAME_HEADER_SIZE in Hl; lia).
  destruct (Nat.ltb_spec RNS_RADIO_PHY_MTU (length (header :: payload))) as [Hu|Hu].
  { rewrite (proj2 (Nat.leb_gt _ RNS_RADIO_PHY_MTU)) by lia.
    eexists _, _, _. split_and!; [done|by wf_counter|done]. }
  rewrite (proj2 (Nat.leb_le _ RNS_RADIO_PHY_MTU)) by lia. cbn [load lookup list_lookup mbind option_bind orb andb].
  destruct (Z.land header RNS_RADIO_RESERVED_MASK =? 0); cbn [negb andb].
  2:{ eexists _, _, _. split_and!; [done|by wf_counter|done]. }
  change (drop RNS_RADIO_FRAME_HEADER_SIZE (header :: payload)) with payload.
  pose proof (radio_expire_wf r now Hwf) as Hwf1. set (r1 := (rns_radio_reassembler_expire r now).2) in *.
  clearbody r1. fold (is_split header) (sequence_of header).
  destruct (is_split header) eqn:Hsp; cbn [negb].
  2:{ destruct (feed_single_spec r1 header payload now s Hwf1 Hsp) as (st & r' & s' & -> & ? & ?).
      by eexists _, _, _. }
  destruct (Nat.eqb_spec (length (header :: payload)) RNS_RADIO_PHY_MTU) as [E|E].
  - destruct (feed_first_wf r1 payload (sequence_of header) now) as (st & r' & -> & ?);
      [done|apply sequence_of_range|cbn [length] in E; unfold RNS_RADIO_PHY_MTU in E;
       unfold RNS_RADIO_FRAME_PAYLOAD_MTU; lia|].
    eexists _, _, _. split_and!; [done|done|]. unfold delivered. rewrite Hsp, E, Nat.eqb_refl. done.
  - destruct (feed_second_spec r1 header payload now s Hwf1 Hsp) as (st & r' & s' & -> & ? & ? & _); [lia|].
    by eexists _, _, _.
Qed.

(** Feeding any frame to a well-formed reassembler is memory safe, keeps it
    well-formed, and runs the callback at most once: on the payload of an
    unsplit frame, or on the held first fragment followed by a matching second
    one. A malformed frame and a first fragment deliver nothing. *)
Theorem rns_radio_reassembler_feed_spec r frame now s :
  wf r ->
  exists st r' s', rns_radio_reassembler_feed callback r (SBytes frame) now s = Some (st, r', s') /\
    wf r' /\
    outcome (if frame_ok frame
             then delivered (rns_radio_reassembler_expire r now).2 frame else None) s st s'.
Proof. apply radio_feed_spec. Qed.
End FeedSpec.

(** ** The encoder *)

(** The frames of a packet on air. *)
Definition radio_wire (packet : list Z) (q : Z) : list (list Z) :=
  let header := Z.shiftl q 4 in
  if (length packet <=? RNS_RADIO_FRAME_PAYLOAD_MTU)%nat then [header :: packet]
  else [Z.lor header 1 :: take RNS_RADIO_FRAME_PAYLOAD_MTU packet;
        Z.lor header 1 :: drop RNS_RADIO_FRAME_PAYLOAD_MTU packet].

Lemma put_frame_spec r i f header payload :
  r.(frames) !! i = Some f -> length f = RNS_RADIO_PHY_MTU ->
  (length payload <= RNS_RADIO_FRAME_PAYLOAD_MTU)%nat ->
  exists f', put_frame r i header payload = Some {| r with frames := <[i := f']> r.(frames) |} /\
    length f' = RNS_RADIO_PHY_MTU /\ take (length payload + 1) f' = header :: payload.
Proof.
  unfold RNS_RADIO_PHY_MTU, RNS_RADIO_FRAME_PAYLOAD_MTU.
  intros Hf Hl Hp. unfold put_frame. rewrite Hf. cbn [mbind option_bind].
  destruct (wrote_store _ f [] header (wrote_nil _ f eq_refl)) as (f1 & Hf1 & Hw1); [simpl; lia|].
  simpl in Hf1, Hw1. rewrite Hf1. cbn [mbind option_bind].
  destruct (wrote_memcpy _ _ _ payload Hw1) as (f2 & Hf2 & Hl2 & Ht & _); [simpl; lia|].
  simpl in Hf2. unfold RNS_RADIO_FRAME_HEADER_SIZE. rewrite Hf2. cbn [mbind option_bind].
  exists f2. split_and!; [done|lia|]. simpl in Ht. rewrite Nat.add_comm. exact Ht.
Qed.

Lemma header_of q : 0 <= q < 16 ->
  wrap8 (Z.shiftl q 4) = Z.shiftl q 4 /\
  (forall h, h = Z.shiftl q 4 \/ h = Z.lor (Z.shiftl q 4) 1 ->
    sequence_of h = q /\ Z.land h RNS_RADIO_RESERVED_MASK = 0) /\
  is_split (Z.shiftl q 4) = false /\ is_split (Z.lor (Z.shiftl q 4) 1) = true.
Proof.
  intros Hq. pose proof (forall_below 16 (λ q, let h := Z.shiftl q 4 in let h' := Z.lor h 1 in
    (wrap8 h =? h) && (sequence_of h =? q) && (sequence_of h' =? q) &&
    (Z.land h 0x0e =? 0) && (Z.land h' 0x0e =? 0) && negb (is_split h) && is_split h')
    ltac:(vm_compute; reflexivity) _ Hq) as H. cbv zeta in H.
  rewrite !andb_true_iff, !Z.eqb_eq, negb_true_iff in H. destruct H as ((((((?&?)&?)&?)&?)&?)&?).
  split_and!; try done. intros h [->| ->]; done.
Qed.

Lemma radio_encode_spec packet q e0 :
  0 <= q ->
  if decide ((1 <= length packet <= 500)%nat /\ q < 16)
  then exists e, rns_radio_frame_encode (SBytes packet) q e0 = Some (RNS_OK, e) /\
         phy_frames e = radio_wire packet q
  else rns_radio_frame_encode (SBytes packet) q e0 = Some (RNS_ERROR_INVALID_ARGUMENT, e0).
Proof.
  intros Hq0. unfold rns_radio_frame_encode. cbn [slice_is_null slice_length slice_bytes orb].
  unfold RNS_RADIO_PACKET_MTU. case_decide as Hd.
  2:{ destruct (Nat.eqb_spec (length packet) 0); [done|].
      destruct (Nat.ltb_spec 500 (length packet)); [done|].
      destruct (Z.leb_spec 16 q); [done|]. destruct Hd. lia. }
  rewrite (proj2 (Nat.eqb_neq _ _)), (proj2 (Nat.ltb_ge _ _)), (proj2 (Z.leb_gt _ _)) by lia.
  destruct (header_of q) as (Hh & _); [lia|]. rewrite Hh. cbn [orb]. unfold radio_wire, phy_frames.
  destruct (Nat.leb_spec (length packet) RNS_RADIO_FRAME_PAYLOAD_MTU).
  - destruct (put_frame_spec encoded_zero 0 _ (Z.shiftl q 4) packet eq_refl eq_refl)
      as (f & -> & Hl & Ht); [done|]. cbn [mbind option_bind]. eexists. split; [done|].
    cbn [count lengths frames]. change RNS_RADIO_FRAME_HEADER_SIZE with 1%nat.
    change (<[0%nat := f]> (frames encoded_zero)) with [f; replicate 255 0].
    cbn [zip_with]. by rewrite Ht.
  - unfold memread, RNS_RADIO_SPLIT_FLAG. rewrite !decide_True by lia. cbn [mbind option_bind].
    rewrite drop_0, (take_ge (drop _ _)) by (rewrite length_drop; lia).
    destruct (put_frame_spec encoded_zero 0 _ (Z.lor (Z.shiftl q 4) 1)
      (take RNS_RADIO_FRAME_PAYLOAD_MTU packet) eq_refl eq_refl) as (f & -> & Hl & Ht).
    { rewrite length_take. lia. } cbn [mbind option_bind].
    set (e1 := {| encoded_zero with frames := <[0%nat := f]> (frames encoded_zero) |}).
    destruct (put_frame_spec e1 1 (replicate 255 0) (Z.lor (Z.shiftl q 4) 1)
      (drop RNS_RADIO_FRAME_PAYLOAD_MTU packet) eq_refl eq_refl) as (g & Hg & Hlg & Htg).
    { rewrite length_drop. unfold RNS_RADIO_FRAME_PAYLOAD_MTU. lia. }
    rewrite Hg. cbn [mbind option_bind].
    eexists. split; [done|]. cbn [count lengths frames].
    change (<[1%nat := g]> (frames e1)) with [f; g]. cbn [zip_with].
    rewrite length_take, Nat.min_l in Ht by lia. rewrite length_drop in Htg.
    change RNS_RADIO_PHY_MTU with (RNS_RADIO_FRAME_PAYLOAD_MTU + 1)%nat.
    change RNS_RADIO_FRAME_HEADER_SIZE with 1%nat. by rewrite Ht, Htg.
Qed.

(** The radio encoder accepts exactly packets of 1 to 500 bytes with a
    4-bit sequence, and then produces the one or two frames of the packet. *)
Theorem rns_radio_frame_encode_spec packet q e0 :
  0 <= q ->
  if decide ((1 <= length packet <= 500)%nat /\ q < 16)
  then exists e, rns_radio_frame_encode (SBytes packet) q e0 = Some (RNS_OK, e) /\
         phy_frames e = radio_wire packet q
  else rns_radio_frame_encode (SBytes packet) q e0 = Some (RNS_ERROR_INVALID_ARGUMENT, e0).
Proof. apply radio_encode_spec. Qed.

(** ** A packet travels unchanged *)

(** Sequence [q] may start a split packet at time [now]. *)
Definition startable (r : rns_radio_reassembler_t) (q now : Z) : Prop :=
  blocked r q = false \/ blocked_until r q <= now.

Lemma feed_first_idle r payload q now :
  wf r -> r.(r_pending) = false -> 0 <= q < 16 -> startable r q now ->
  length payload = RNS_RADIO_FRAME_PAYLOAD_MTU ->
  (RNS_RADIO_FRAME_PAYLOAD_MTU <= r.(r_capacity))%nat ->
  exists r', feed_first r payload q now = Some (RNS_OK, r') /\ wf r' /\
    held r' = Some (q, payload) /\ r'.(r_pending_since_ms) = now /\
    r'.(r_capacity) = r.(r_capacity) /\
    r'.(r_fragment_timeout_ms) = r.(r_fragment_timeout_ms).
Proof.
  intros Hwf Hp Hq Hst Hl Hcap. unfold feed_first.
  destruct (sequence_is_blocked r q now) as [b r1] eqn:Hb.
  assert (b = false) as ->.
  { unfold sequence_is_blocked, startable, blocked, blocked_until in *.
    destruct (r_sequence_blocked r !!! Z.to_nat q); simpl in Hb; [|by injection Hb].
    destruct Hst as [|Hu]; [done|]. rewrite (proj2 (Z.leb_le _ _)) in Hb by done. by injection Hb. }
  apply sequence_is_blocked_wf in Hb as (Hwf1 & Hh & Hpd & Hs & Hbuf & Hc & Ht & Hnb); [|done..].
  rewrite Hpd, Hp.
  destruct (buffer_first_spec r1 payload q now) as (st & r2 & -> & Hbf & Hw & Hc2 & _ & _ & Ht2);
    [by auto..|].
  rewrite decide_True in Hbf by lia. destruct Hbf as (-> & ? & ?).
  eexists. split_and!; [done|apply Hw; congruence|done|done|congruence|congruence].
Qed.

Lemma expire_fresh r now :
  r.(r_pending) = false \/
  (r.(r_pending_since_ms) <= now /\ now - r.(r_pending_since_ms) < r.(r_fragment_timeout_ms)) ->
  (rns_radio_reassembler_expire r now).2 = r.
Proof.
  intros H. unfold rns_radio_reassembler_expire. destruct H as [->|[? ?]]; [done|].
  rewrite (proj2 (Z.ltb_lt (now - _) _)) by done. by rewrite orb_true_r.
Qed.

Lemma feed_first_dispatch {S} (callback : list Z -> S -> rns_status * S) r h payload now s :
  wf r -> Z.land h RNS_RADIO_RESERVED_MASK = 0 -> is_split h = true ->
  length payload = RNS_RADIO_FRAME_PAYLOAD_MTU ->
  rns_radio_reassembler_feed callback r (SBytes (h :: payload)) now s =
    p ← feed_first (rns_radio_reassembler_expire r now).2 payload (sequence_of h) now;
    Some (p.1, p.2, s).
Proof.
  intros Hwf Hres Hsp Hl. unfold rns_radio_reassembler_feed.
  destruct (wf_buffer r Hwf) as (m & Hm & _). pose proof (wf_capacity r Hwf).
  rewrite bool_decide_eq_true_2, (proj2 (Nat.eqb_neq _ _)) by (rewrite ?Hm; eauto; lia).
  cbn [negb orb slice_is_null slice_length slice_bytes length]. rewrite Hl.
  change (Datatypes.S RNS_RADIO_FRAME_PAYLOAD_MTU) with RNS_RADIO_PHY_MTU.
  change ((RNS_RADIO_PHY_MTU <=? RNS_RADIO_FRAME_HEADER_SIZE)%nat ||
    (RNS_RADIO_PHY_MTU <? RNS_RADIO_PHY_MTU)%nat) with false.
  cbn [load lookup list_lookup mbind option_bind]. rewrite Hres.
  fold (is_split h) (sequence_of h). rewrite Hsp, Nat.eqb_refl. done.
Qed.

(** Feeding a list of timed frames, whatever the statuses. *)
Fixpoint feed_all (r : rns_radio_reassembler_t) (events : list (list Z * Z)) (acc : list (list Z))
  : option (rns_radio_reassembler_t * list (list Z)) :=
  match events with
  | [] => Some (r, acc)
  | (frame, now) :: rest =>
      x ← rns_radio_reassembler_feed collect r (SBytes frame) now acc;
      let '(_, r, acc) := x in feed_all r rest acc
  end.

Lemma feed_step {S} (callback : list Z -> S -> rns_status * S) r frame now s p :
  wf r -> frame_ok frame = true -> delivered (rns_radio_reassembler_expire r now).2 frame = Some p ->
  exists r', rns_radio_reassembler_feed callback r (SBytes frame) now s
    = Some ((callback p s).1, r', (callback p s).2) /\ wf r'.
Proof.
  intros Hwf Hok Hd.
  destruct (radio_feed_spec callback r frame now s Hwf) as (st & r' & s' & -> & ? & Ho).
  rewrite Hok, Hd in Ho. simpl in Ho. exists r'. by rewrite <-Ho.
Qed.


(** ** The replay guard *)

(** [r'] blocks sequence [q] exactly as [r] does. *)
Definition same_block (q : Z) (r r' : rns_radio_reassembler_t) : Prop :=
  blocked r' q = blocked r q /\ blocked_until r' q = blocked_until r q.

#[local] Instance same_block_refl q : Reflexive (same_block q).
Proof. by split. Qed.

#[local] Instance same_block_trans q : Transitive (same_block q).
Proof. intros x y z [] []. split; congruence. Qed.

(** Extend a [same_block] hypothesis by a step that leaves the guard tables. *)
Ltac same_ext := match goal with
  | H : same_block _ ?a ?b |- same_block _ ?a _ => transitivity b; [exact H|by split] end.

(** [q] is blocked beyond time [now]. *)
Definition guarded (r : rns_radio_reassembler_t) (q now : Z) : Prop :=
  blocked r q = true /\ now < blocked_until r q.

Lemma guarded_same q now r r' : guarded r q now -> same_block q r r' -> guarded r' q now.
Proof. intros [Hb Hu] [Eb Eu]. split; [by rewrite Eb|by rewrite Eu]. Qed.

Lemma block_other q p now r :
  0 <= q -> 0 <= p -> p <> q -> same_block q r (block_sequence (clear_pending r) p now).
Proof.
  intros. unfold same_block, blocked, blocked_until. simpl.
  by rewrite !list_lookup_total_insert_ne by lia.
Qed.

(** A pending packet never has a guarded sequence number. *)
Lemma pending_other r q now : wf r -> guarded r q now -> r.(r_pending) = true -> r.(r_sequence) <> q.
Proof. intros Hwf [Hb _] Hp E. destruct (wf_pending r Hwf Hp) as (_ & ? & _). congruence. Qed.

Lemma expire_same q now r :
  0 <= q -> wf r -> guarded r q now -> same_block q r (rns_radio_reassembler_expire r now).2.
Proof.
  intros Hq Hwf Hg. unfold rns_radio_reassembler_expire.
  destruct (r_pending r) eqn:Hp; [|done]. cbn [negb orb]. case_match; [done|].
  pose proof (pending_other r q now Hwf Hg Hp) as Hne.
  destruct (wf_pending r Hwf Hp) as ((? & ?) & _). by apply (block_other q (r_sequence r) now r).
Qed.

Lemma discard_same q now r :
  0 <= q -> wf r -> guarded r q now -> r.(r_pending) = true -> same_block q r (discard_pending r now).
Proof.
  intros Hq Hwf Hg Hp. pose proof (pending_other r q now Hwf Hg Hp) as Hne.
  destruct (wf_pending r Hwf Hp) as ((? & ?) & _). by apply (block_other q (r_sequence r) now r).
Qed.

Lemma buffer_first_same q r payload p now st r' :
  buffer_first r payload p now = Some (st, r') -> same_block q r r'.
Proof.
  unfold buffer_first. case_match; [by intros [= <- <-]|].
  destruct (memread _ _ _); [|done]. destruct (r_buffer r); [|done]. cbn [mbind option_bind].
  destruct (memcpy _ _ _); [|done]. by intros [= <- <-].
Qed.

Lemma sequence_is_blocked_same q r p now b r' :
  0 <= q -> 0 <= p -> guarded r q now -> sequence_is_blocked r p now = (b, r') ->
  same_block q r r' /\ (p = q -> b = true).
Proof.
  intros Hq Hp [Hb Hu]. unfold sequence_is_blocked, same_block, blocked, blocked_until in *.
  destruct (decide (p = q)) as [->|Hne].
  - rewrite Hb, (proj2 (Z.leb_gt _ _)) by done. by intros [= <- <-].
  - case_match; [by intros [= <- <-]|]. case_match; intros [= <- <-]; [|done].
    simpl. by rewrite !list_lookup_total_insert_ne by lia.
Qed.

Lemma feed_first_same q r payload p now st r' :
  0 <= q -> 0 <= p -> wf r -> guarded r q now -> p < 16 ->
  feed_first r payload p now = Some (st, r') -> same_block q r r'.
Proof.
  intros Hq Hp Hwf Hg Hp16. unfold feed_first.
  destruct (sequence_is_blocked r p now) as [b r1] eqn:Hb.
  pose proof (sequence_is_blocked_wf r p now b r1 Hwf ltac:(lia) Hb) as (Hwf1 & _).
  apply sequence_is_blocked_same with (q := q) in Hb as [Hs Hpq]; [|done..].
  destruct b; [intros [= <- <-]; same_ext|].
  destruct (decide (p = q)) as [->|Hne]; [by discriminate Hpq|].
  pose proof (guarded_same _ _ _ _ Hg Hs) as Hg1.
  destruct (r_pending r1) eqn:Hpend.
  2:{ intros Hbf%(buffer_first_same q). by etransitivity. }
  destruct (Z.eqb_spec (r_sequence r1) p) as [E|E].
  - intros (m & _ & (f1 & _ & (f2 & _ & Hf)%bind_Some)%bind_Some)%bind_Some.
    case_match; injection Hf as <- <-; [same_ext|].
    etransitivity; [done|]. by apply (block_other q p now r1).
  - intros Hbf%(buffer_first_same q). etransitivity; [done|]. etransitivity; [|done].
    by apply discard_same.
Qed.

Section Guard.
Context {S : Type}.
Variable callback : list Z -> S -> rns_status * S.

Lemma feed_second_same q r payload p now s st r' s' :
  0 <= q -> 0 <= p -> wf r -> guarded r q now ->
  feed_second callback r payload p now s = Some (st, r', s') -> same_block q r r'.
Proof.
  intros Hq Hp Hwf Hg. unfold feed_second. case_match; [by intros [= <- <- <-]|].
  destruct (r_pending r) eqn:Hpend; cbn [negb orb]; [|by intros [= <- <- <-]].
  pose proof (pending_other r q now Hwf Hg Hpend) as Hne.
  destruct (wf_pending r Hwf Hpend) as ((? & ?) & _).
  destruct (Z.eqb_spec (r_sequence r) p) as [E|E]; cbn [negb]; [|by intros [= <- <- <-]].
  case_match; [intros [= <- <- <-]; by apply (block_other q (r_sequence r) now r)|].
  destruct (r_buffer r); [|done]. cbn [mbind option_bind].
  destruct (memcpy _ _ _) as [m|]; [|done]. cbn [mbind option_bind].
  destruct (memread _ _ _); [|done]. cbn [mbind option_bind].
  destruct (callback _ _) as [st1 s1]. intros [= <- <- <-].
  destruct (is_ok st1); apply (block_other q p now {| r with r_buffer := Some m |}); congruence || lia.
Qed.

Lemma feed_same q r frame now s st r' s' :
  0 <= q -> wf r -> guarded r q now ->
  rns_radio_reassembler_feed callback r (SBytes frame) now s = Some (st, r', s') ->
  same_block q r r'.
Proof.
  intros Hq Hwf Hg. unfold rns_radio_reassembler_feed.
  case_match; [by intros [= <- <- <-]|]. case_match; [by intros [= <- <- <-]|].
  destruct (load _ 0) as [h|]; [|done]. cbn [mbind option_bind].
  case_match; [by intros [= <- <- <-]|].
  pose proof (expire_same q now r Hq Hwf Hg) as He. pose proof (radio_expire_wf r now Hwf) as Hwf1.
  pose proof (guarded_same _ _ _ _ Hg He) as Hg1.
  set (r1 := (rns_radio_reassembler_expire r now).2) in *. clearbody r1.
  fold (sequence_of h). pose proof (sequence_of_range h) as Hr.
  case_match; [|case_match].
  - unfold feed_single. set (r2 := if r_pending r1 then _ else r1).
    assert (same_block q r r2) as Hs2.
    { etransitivity; [done|]. subst r2. destruct (r_pending r1) eqn:?; [by apply discard_same|done]. }
    case_match; [intros [= <- <- <-]; same_ext|].
    destruct (callback _ _) as [st1 s1]. intros [= <- <- <-].
    destruct (is_ok st1); [same_ext|done].
  - destruct (feed_first _ _ _ _) as [[st1 r2]|] eqn:Hf; [|done]. cbn [mbind option_bind].
    intros [= <- <- <-]. apply (feed_first_same q) in Hf; [|lia..|done|done|lia]. by etransitivity.
  - intros Hf. apply (feed_second_same q) in Hf; [|lia..|done|done]. by etransitivity.
Qed.

(** While a sequence number is guarded, no split frame of it delivers. *)
Lemma feed_guarded q r h payload now s st r' s' :
  wf r -> guarded r q now -> is_split h = true -> sequence_of h = q ->
  rns_radio_reassembler_feed callback r (SBytes (h :: payload)) now s = Some (st, r', s') ->
  s' = s.
Proof.
  intros Hwf Hg Hsp Hq Hf.
  destruct (radio_feed_spec callback r (h :: payload) now s Hwf)
    as (st1 & r1 & s1 & Hf1 & _ & Ho).
  rewrite Hf in Hf1. injection Hf1 as <- <- <-.
  destruct (frame_ok (h :: payload)); [|done].
  pose proof (sequence_of_range h) as Hr.
  pose proof (expire_same q now r ltac:(lia) Hwf Hg) as He. pose proof (radio_expire_wf r now Hwf) as Hwf1.
  pose proof (guarded_same _ _ _ _ Hg He) as Hg1.
  set (r2 := (rns_radio_reassembler_expire r now).2) in *.
  unfold delivered in Ho. rewrite Hsp in Ho. cbn [negb] in Ho. case_match; [done|].
  destruct (held r2) as [[p f]|] eqn:Hh; [|done]. cbn [mbind option_bind] in Ho.
  unfold held in Hh. destruct (r_pending r2) eqn:Hp; [|done].
  pose proof (pending_other r2 q now Hwf1 Hg1 Hp) as Hne.
  destruct (r_buffer r2); [|done]. cbn [mbind option_bind] in Hh.
  destruct (memread _ _ _); [|done]. simplify_eq/=.
  by rewrite (proj2 (Z.eqb_neq _ _)) in Ho by congruence.
Qed.
End Guard.

Lemma feed_all_guarded q r events acc :
  0 <= q -> wf r -> Forall (λ e, guarded r q e.2) events ->
  exists r' acc', feed_all r events acc = Some (r', acc') /\ wf r' /\ same_block q r r'.
Proof.
  intros Hq. revert r acc. induction events as [|[frame now] events IH]; intros r acc Hwf Hev.
  { by eexists _, _. }
  apply Forall_cons_1 in Hev as [Hg Hev].
  destruct (radio_feed_spec collect r frame now acc Hwf) as (st & r1 & s1 & Hf & Hwf1 & _).
  pose proof (feed_same collect q r frame now acc st r1 s1 Hq Hwf Hg Hf) as Hs.
  destruct (IH r1 s1 Hwf1) as (r2 & s2 & Hf2 & Hwf2 & Hs2).
  { eapply Forall_impl; [|exact Hev]. intros e He. exact (guarded_same _ _ _ _ He Hs). }
  exists r2, s2. cbn [feed_all]. rewrite Hf. cbn [mbind option_bind]. split_and!; [done|done|].
  by etransitivity.
Qed.

Lemma feed_all_app r a b acc :
  feed_all r (a ++ b) acc = (x ← feed_all r a acc; feed_all x.1 b x.2).
Proof.
  revert r acc. induction a as [|[frame now] a IH]; intros r acc; [done|]. cbn [feed_all app].
  destruct (rns_radio_reassembler_feed _ _ _ _ _) as [[[st r1] s1]|]; [|done]. apply IH.
Qed.

(** Replay protection. When sequence number [q] is guarded until time [u],
    then whatever frames arrive before [u], a split frame with sequence number
    [q] that arrives before [u] delivers nothing. *)
Theorem radio_replay_guard r q u before h payload now acc :
  wf r -> (0 <= q < 16) -> blocked r q = true -> blocked_until r q = u ->
  Forall (λ e, e.2 < u) before -> now < u -> is_split h = true -> sequence_of h = q ->
  exists r1 r2 acc1, feed_all r before acc = Some (r1, acc1) /\
    feed_all r (before ++ [(h :: payload, now)]) acc = Some (r2, acc1).
Proof.
  intros Hwf Hq Hb Hu Hev Hnow Hsp Hseq.
  destruct (feed_all_guarded q r before acc) as (r1 & acc1 & Hf1 & Hwf1 & Hs1); [lia|done| |].
  { eapply Forall_impl; [|exact Hev]. intros e He. split; [done|]. rewrite Hu. exact He. }
  assert (guarded r1 q now) as Hg1 by (eapply guarded_same; [|exact Hs1]; split; [done|lia]).
  destruct (radio_feed_spec collect r1 (h :: payload) now acc1 Hwf1)
    as (st & r2 & s2 & Hf2 & _).
  pose proof (feed_guarded collect q r1 h payload now acc1 st r2 s2 Hwf1 Hg1 Hsp Hseq Hf2) as ->.
  exists r1, r2, acc1. split; [done|]. rewrite feed_all_app, Hf1. cbn [mbind option_bind fst snd feed_all].
  by rewrite Hf2.
Qed.

(** ** A concrete reassembler *)
Definition sample_radio : rns_radio_reassembler_t :=
  {| r_buffer := Some (replicate 500 0); r_capacity := 500; r_length := 0; r_fragment_timeout_ms := 1000;
     r_sequence_reuse_guard_ms := 5000; r_pending_since_ms := 0; r_sequence_blocked_until_ms := replicate 16 0;
     r_sequence_blocked := replicate 16 false; r_completed_packets := 0; r_malformed_frames := 0;
     r_oversized_packets := 0; r_timed_out_packets := 0; r_duplicate_fragments := 0; r_out_of_order_fragments := 0;
     r_sequence_collisions := 0; r_discarded_packets := 0; r_sequence := 0; r_pending := false |}.

Lemma sample_radio_wf : wf sample_radio.
Proof. constructor; [eexists; split; [reflexivity|apply le_n]|split; [simpl; lia|apply le_n]|done|done|done]. Qed.

(** The same after sequence 3 was used at time 100. *)
Definition sample_guarded : rns_radio_reassembler_t := block_sequence sample_radio 3 100.

Lemma sample_guarded_wf : wf sample_guarded.
Proof. constructor; [eexists; split; [reflexivity|apply le_n]|split; [simpl; lia|apply le_n]|done|done|done]. Qed.

Lemma rns_radio_reassembler_feed_spec_witness :
  exists st r' s', rns_radio_reassembler_feed collect sample_radio (SBytes [0x10; 7; 8]) 50 [] = Some (st, r', s') /\
    wf r' /\ outcome collect (Some [7; 8]) [] st s'.
Proof. exact (rns_radio_reassembler_feed_spec collect sample_radio [0x10; 7; 8] 50 [] sample_radio_wf). Defined.

Lemma rns_radio_frame_encode_spec_witness :
  exists e, rns_radio_frame_encode (SBytes (replicate 300 9)) 3 encoded_zero = Some (RNS_OK, e) /\
    phy_frames e = radio_wire (replicate 300 9) 3.
Proof.
  pose proof (rns_radio_frame_encode_spec (replicate 300 9) 3 encoded_zero) as H.
  rewrite decide_True in H by (rewrite length_replicate; lia). apply H. lia.
Defined.


Lemma radio_replay_guard_witness :
  exists r1 r2 acc1, feed_all sample_guarded [([0x20; 1], 200)] [] = Some (r1, acc1) /\
    feed_all sample_guarded [([0x20; 1], 200); ([0x31; 5; 6], 300)] [] = Some (r2, acc1).
Proof.
  apply (radio_replay_guard sample_guarded 3 5100 [([0x20; 1], 200)] 0x31 [5; 6] 300 [] sample_guarded_wf);
    [lia|done|done| |lia|done|done]. apply Forall_cons_2; [simpl; lia|apply Forall_nil_2].
Defined.

End Radio.
