(* ===== verification/Crypto.v ===== *)
(** * Cryptography: the provider interface and the OpenSSL provider

    [rns_crypto_provider_t] ([include/reticulum/crypto.h]) is a table of
    operations; the functions of [src/crypto/provider.c] call the installed
    table. The class [Crypto] is that table together with what its clients rely
    on, and the models of identities, announces, links and interface access codes
    are proved against it.

    [src/crypto/crypto.c] implements the table with OpenSSL. The class [OpenSSL]
    holds the library calls it makes, with their documented behaviour; the
    module [Provider] models the code around them (HKDF, the encrypt-then-MAC
    token), and [openssl_provider] proves that it satisfies the interface.

    An operation returns its output, or [None] where the C function returns 0
    (the output is then unspecified). A caller's output capacity is an argument
    where the C code checks it. Random choices are an explicit seed. No law
    speaks of secrecy or collision resistance. *)

From Stdlib Require Import ZArith Lia.
From S2P Require Import Prelude.

(** ** The interface *)

Definition RNS_TOKEN_OVERHEAD : nat := 48.

(** The size of a token for a plaintext of [n] bytes: the initialisation
    vector, the padded ciphertext and the MAC. *)
Definition token_size (n : nat) : nat := (16 + (n / 16 + 1) * 16 + 32)%nat.

Class Crypto : Type := {
  rns_sha256 : list Z -> option (list Z);
  rns_hmac_sha256 : list Z -> list Z -> option (list Z);
  (** input, salt, context, output length *)
  rns_hkdf_sha256 : list Z -> list Z -> list Z -> nat -> option (list Z);
  (** seed, length *)
  rns_random_bytes : list Z -> nat -> option (list Z);
  (** seed; the private and the public key *)
  rns_x25519_generate : list Z -> option (list Z * list Z);
  rns_x25519_public_from_private : list Z -> option (list Z);
  rns_x25519_exchange : list Z -> list Z -> option (list Z);
  rns_ed25519_generate : list Z -> option (list Z * list Z);
  rns_ed25519_public_from_private : list Z -> option (list Z);
  rns_ed25519_sign : list Z -> list Z -> option (list Z);
  rns_ed25519_verify : list Z -> list Z -> list Z -> bool;
  rns_constant_time_equal : list Z -> list Z -> bool;
  (** key, seed, plaintext, capacity *)
  rns_token_encrypt : list Z -> list Z -> list Z -> nat -> option (list Z);
  (** key, token, capacity *)
  rns_token_decrypt : list Z -> list Z -> nat -> option (list Z);
  (** The public key of a private key, by the definitions of X25519 and Ed25519: which
      computation of it succeeds is another matter. *)
  x25519_pair : list Z -> list Z -> Prop;
  ed25519_pair : list Z -> list Z -> Prop;

  sha256_length m d : rns_sha256 m = Some d -> length d = 32%nat;
  sha256_bytes m d : rns_sha256 m = Some d -> bytes_ok d;
  hkdf_length i s c n k : rns_hkdf_sha256 i s c n = Some k -> length k = n;
  hkdf_bytes i s c n k : rns_hkdf_sha256 i s c n = Some k -> bytes_ok k;
  random_length r n b : rns_random_bytes r n = Some b -> length b = n;
  random_bytes r n b : rns_random_bytes r n = Some b -> bytes_ok b;
  x_generate_spec r k p : rns_x25519_generate r = Some (k, p) ->
    length k = 32%nat /\ x25519_pair k p;
  x_public_pair k p : rns_x25519_public_from_private k = Some p -> x25519_pair k p;
  x_pair_length k p : x25519_pair k p -> length p = 32%nat;
  x_pair_unique k p q : x25519_pair k p -> x25519_pair k q -> p = q;
  exchange_length k p s : rns_x25519_exchange k p = Some s -> length s = 32%nat;
  ed_generate_spec r k p : rns_ed25519_generate r = Some (k, p) ->
    length k = 32%nat /\ ed25519_pair k p;
  ed_public_pair k p : rns_ed25519_public_from_private k = Some p -> ed25519_pair k p;
  ed_pair_length k p : ed25519_pair k p -> length p = 32%nat;
  ed_pair_unique k p q : ed25519_pair k p -> ed25519_pair k q -> p = q;
  sign_length k m s : rns_ed25519_sign k m = Some s -> length s = 64%nat;
  sign_bytes k m s : rns_ed25519_sign k m = Some s -> bytes_ok s;
  (** A signature verifies under the signer's public key. *)
  sign_verify k p m s :
    ed25519_pair k p -> rns_ed25519_sign k m = Some s -> rns_ed25519_verify p m s = true;
  (** Diffie-Hellman agreement. *)
  exchange_comm a b pa pb :
    x25519_pair a pa -> x25519_pair b pb -> rns_x25519_exchange a pb = rns_x25519_exchange b pa;
  constant_time_equal_spec a b : length a = length b -> rns_constant_time_equal a b = memeq a b;
  (** A token fills the announced size, within the capacity. *)
  token_encrypt_size k r p cap t :
    rns_token_encrypt k r p cap = Some t -> length t = token_size (length p) /\ (length t <= cap)%nat;
  (** A token decrypts, under the key it was made with, to its plaintext. *)
  token_roundtrip k r p cap t cap' :
    rns_token_encrypt k r p cap = Some t -> (length t <= cap' + RNS_TOKEN_OVERHEAD)%nat ->
    rns_token_decrypt k t cap' = Some p;
  (** A decrypted token fits the capacity and is shorter than the token. *)
  token_decrypt_size k t cap p :
    rns_token_decrypt k t cap = Some p ->
    (length p <= cap)%nat /\ (RNS_TOKEN_OVERHEAD + length p <= length t)%nat;
  token_decrypt_bytes k t cap p : rns_token_decrypt k t cap = Some p -> bytes_ok t -> bytes_ok p
}.

(** ** The library calls of [crypto.c] *)

Definition INT_MAX : Z := 2 ^ 31 - 1.

Class OpenSSL : Type := {
  SHA256 : list Z -> option (list Z);
  HMAC_sha256 : list Z -> list Z -> option (list Z);
  RAND_bytes : list Z -> nat -> option (list Z);
  (** [generate_raw]'s key generation, by key type *)
  EVP_keygen : bool -> list Z -> option (list Z * list Z);
  (** the raw public key of a raw private key, by key type *)
  EVP_raw_public : bool -> list Z -> option (list Z);
  EVP_derive : list Z -> list Z -> option (list Z);
  EVP_DigestSign : list Z -> list Z -> option (list Z);
  EVP_DigestVerify : list Z -> list Z -> list Z -> bool;
  (** key, initialisation vector, input; the outputs of the update and of the
      final call *)
  EVP_aes_256_cbc_encrypt : list Z -> list Z -> list Z -> option (list Z * list Z);
  EVP_aes_256_cbc_decrypt : list Z -> list Z -> list Z -> option (list Z * list Z);
  (** the public key of a private key, by key type *)
  EVP_pair : bool -> list Z -> list Z -> Prop;

  SHA256_spec m d : SHA256 m = Some d -> length d = 32%nat /\ bytes_ok d;
  HMAC_bytes k m d : HMAC_sha256 k m = Some d -> bytes_ok d;
  RAND_length r n b : RAND_bytes r n = Some b -> length b = n;
  RAND_bytes_ok r n b : RAND_bytes r n = Some b -> bytes_ok b;
  keygen_pair ty r k p : EVP_keygen ty r = Some (k, p) -> EVP_pair ty k p;
  raw_public_pair ty k p : EVP_raw_public ty k = Some p -> EVP_pair ty k p;
  pair_unique ty k p q : EVP_pair ty k p -> EVP_pair ty k q -> p = q;
  derive_comm a b pa pb : EVP_pair true a pa -> EVP_pair true b pb -> EVP_derive a pb = EVP_derive b pa;
  sign_bytes_ok k m s : EVP_DigestSign k m = Some s -> bytes_ok s;
  sign_verifies k p m s :
    EVP_pair false k p -> EVP_DigestSign k m = Some s -> EVP_DigestVerify p m s = true;
  (** PKCS#7 padding to the next multiple of the block size. *)
  aes_encrypt_length k iv m a b :
    EVP_aes_256_cbc_encrypt k iv m = Some (a, b) ->
    (length a + length b = (length m / 16 + 1) * 16)%nat;
  aes_roundtrip k iv m a b :
    EVP_aes_256_cbc_encrypt k iv m = Some (a, b) ->
    exists c d, EVP_aes_256_cbc_decrypt k iv (a ++ b) = Some (c, d) /\ c ++ d = m;
  aes_decrypt_length k iv m a b :
    EVP_aes_256_cbc_decrypt k iv m = Some (a, b) -> (length a + length b <= length m)%nat;
  aes_decrypt_bytes k iv m a b : EVP_aes_256_cbc_decrypt k iv m = Some (a, b) -> bytes_ok m -> bytes_ok (a ++ b)
}.

Module Provider.
Section WithOpenSSL.
Context `{OpenSSL}.

(** A result of the expected length. *)
Definition sized (n : nat) (r : option (list Z)) : option (list Z) :=
  d ← r; if (length d =? n)%nat then Some d else None.

Definition openssl_sha256 (data : list Z) : option (list Z) := SHA256 data.

Definition openssl_hmac_sha256 (key data : list Z) : option (list Z) :=
  if INT_MAX <? Z.of_nat (length key) then None else sized 32 (HMAC_sha256 key data).

(** The message of one HKDF round. *)
Definition hkdf_message (previous : option (list Z)) (context : list Z) (counter : Z) : list Z :=
  (match previous with Some block => block | None => [] end) ++ context ++ [wrap8 counter].

(** [while (produced < out_length)]: at most 255 rounds, as [out_length] is at
    most [255 * 32]. *)
Fixpoint hkdf_loop (fuel : nat) (prk context : list Z) (out_length : nat)
    (previous : option (list Z)) (counter : Z) (out : list Z) : option (list Z) :=
  if (length out <? out_length)%nat then
    match fuel with
    | O => None
    | S fuel =>
        block ← openssl_hmac_sha256 prk (hkdf_message previous context counter);
        let n := if (out_length - length out <? 32)%nat then (out_length - length out)%nat else 32%nat in
        hkdf_loop fuel prk context out_length (Some block) (counter + 1) (out ++ take n block)
    end
  else Some out.

Definition openssl_hkdf_sha256 (input salt context : list Z) (out_length : nat) : option (list Z) :=
  if (out_length =? 0)%nat || (255 * 32 <? Z.of_nat out_length) || (length input =? 0)%nat ||
     (255 <? length context)%nat then None
  else
    let salt := if (length salt =? 0)%nat then replicate 32 0 else salt in
    prk ← openssl_hmac_sha256 salt input;
    hkdf_loop 255 prk context out_length None 1 [].

Definition openssl_random_bytes (seed : list Z) (n : nat) : option (list Z) :=
  if INT_MAX <? Z.of_nat n then None else RAND_bytes seed n.

Definition raw_public_from_private (ty : bool) (private_key : list Z) : option (list Z) :=
  sized 32 (EVP_raw_public ty private_key).

Definition generate_raw (ty : bool) (seed : list Z) : option (list Z * list Z) :=
  r ← EVP_keygen ty seed;
  let '(k, p) := r in
  if (length k =? 32)%nat && (length p =? 32)%nat then Some (k, p) else None.

Definition openssl_x25519_generate : list Z -> option (list Z * list Z) := generate_raw true.
Definition openssl_x25519_public_from_private : list Z -> option (list Z) := raw_public_from_private true.
Definition openssl_ed25519_generate : list Z -> option (list Z * list Z) := generate_raw false.
Definition openssl_ed25519_public_from_private : list Z -> option (list Z) := raw_public_from_private false.

Definition openssl_x25519_exchange (private_key peer_public : list Z) : option (list Z) :=
  sized 32 (EVP_derive private_key peer_public).

Definition openssl_ed25519_sign (private_key message : list Z) : option (list Z) :=
  sized 64 (EVP_DigestSign private_key message).

Definition openssl_ed25519_verify (public_key message signature : list Z) : bool :=
  EVP_DigestVerify public_key message signature.

Definition openssl_constant_time_equal (left right : list Z) : bool :=
  if (length left =? 0)%nat then true else memeq left right.

Definition openssl_token_encrypt (key seed plaintext : list Z) (out_capacity : nat) : option (list Z) :=
  if INT_MAX <? Z.of_nat (length plaintext) then None
  else
    let needed := token_size (length plaintext) in
    if (out_capacity <? needed)%nat || (INT_MAX <? Z.of_nat needed) then None
    else
      iv ← openssl_random_bytes seed 16;
      r ← EVP_aes_256_cbc_encrypt (take 32 (drop 32 key)) iv plaintext;
      let '(n, final_n) := r in
      let body := iv ++ n ++ final_n in
      mac ← openssl_hmac_sha256 (take 32 key) body;
      Some (body ++ mac).

Definition openssl_token_decrypt (key token : list Z) (out_capacity : nat) : option (list Z) :=
  if (length token <? 64)%nat || negb ((length token - 48) mod 16 =? 0)%nat then None
  else
    let cipher_length := (length token - 48)%nat in
    if (INT_MAX <? Z.of_nat cipher_length) || (out_capacity <? cipher_length)%nat then None
    else
      mac ← openssl_hmac_sha256 (take 32 key) (take (length token - 32) token);
      if negb (openssl_constant_time_equal mac (take 32 (drop (length token - 32) token))) then None
      else
        r ← EVP_aes_256_cbc_decrypt (take 32 (drop 32 key)) (take 16 token) (take cipher_length (drop 16 token));
        let '(n, final_n) := r in Some (n ++ final_n).

(** *** HKDF *)

Lemma sized_Some n r d : sized n r = Some d -> r = Some d /\ length d = n.
Proof. unfold sized. intros (x & Hx & Hd)%bind_Some. case_match eqn:E; [|done]. simplify_eq. by apply Nat.eqb_eq in E. Qed.

Lemma hmac_spec k m d : openssl_hmac_sha256 k m = Some d -> length d = 32%nat /\ bytes_ok d.
Proof.
  unfold openssl_hmac_sha256. case_match; [done|]. intros [Hd ?]%sized_Some. eauto using HMAC_bytes.
Qed.

(** The message of a round fits [scratch]. *)
Lemma hkdf_message_fits previous context counter :
  (length context <= 255)%nat -> (forall b, previous = Some b -> length b = 32%nat) ->
  (length (hkdf_message previous context counter) <= 32 + 255 + 1)%nat.
Proof.
  intros Hc Hp. unfold hkdf_message. rewrite !length_app. destruct previous as [b|]; simpl; [rewrite (Hp b eq_refl)|]; lia.
Qed.

Lemma hkdf_loop_spec fuel prk context n previous counter out k :
  (length out <= n)%nat -> bytes_ok out ->
  hkdf_loop fuel prk context n previous counter out = Some k -> length k = n /\ bytes_ok k.
Proof.
  revert previous counter out. induction fuel as [|fuel IH]; intros previous counter out Hl Hb; simpl;
    destruct (Nat.ltb_spec (length out) n) as [Hlt|Hge]; try (intros [= <-]; split; [lia|done]); [done|].
  intros (block & Hm & Hk)%bind_Some. apply hmac_spec in Hm as [Hm Hmb].
  apply IH in Hk; [done|..].
  - rewrite length_app, length_take. case_match eqn:E; [apply Nat.ltb_lt in E|apply Nat.ltb_ge in E]; lia.
  - apply Forall_app_2; [done|]. by apply Forall_take.
Qed.

(** With HMAC available, the loop produces its output. *)
Lemma hkdf_loop_total fuel prk context n previous counter out :
  (forall m, is_Some (openssl_hmac_sha256 prk m)) -> (n - length out <= fuel * 32)%nat ->
  is_Some (hkdf_loop fuel prk context n previous counter out).
Proof.
  intros Hm. revert previous counter out. induction fuel as [|fuel IH]; intros previous counter out Hn; simpl;
    (destruct (Nat.ltb_spec (length out) n); [|by eexists]); [lia|].
  destruct (Hm (hkdf_message previous context counter)) as [block Hb]. rewrite Hb. simpl.
  apply IH. rewrite length_app, length_take. apply hmac_spec in Hb as [-> _].
  case_match eqn:E; [apply Nat.ltb_lt in E|apply Nat.ltb_ge in E]; lia.
Qed.

Lemma hkdf_spec i s c n k : openssl_hkdf_sha256 i s c n = Some k -> length k = n /\ bytes_ok k.
Proof.
  unfold openssl_hkdf_sha256. case_match; [done|]. intros (prk & _ & Hk)%bind_Some.
  apply hkdf_loop_spec in Hk; [done|simpl; lia|apply Forall_nil_2].
Qed.

(** The keys the provider works with have 32 bytes. *)
Definition sized_pair (ty : bool) (k p : list Z) : Prop := EVP_pair ty k p /\ length p = 32%nat.

Lemma generate_raw_spec ty r k p :
  generate_raw ty r = Some (k, p) -> length k = 32%nat /\ sized_pair ty k p.
Proof.
  unfold generate_raw, sized_pair. intros ([k' p'] & Hk & Hr)%bind_Some.
  destruct (Nat.eqb_spec (length k') 32); [|done]. destruct (Nat.eqb_spec (length p') 32) as [Hp|]; [|done].
  injection Hr as <- <-. split; [done|]. split; [by eapply keygen_pair|done].
Qed.

Lemma raw_public_spec ty k p : raw_public_from_private ty k = Some p -> sized_pair ty k p.
Proof. intros [Hp Hl]%sized_Some. split; [by apply raw_public_pair|done]. Qed.

(** *** Tokens *)

Lemma random_spec r n b : openssl_random_bytes r n = Some b -> length b = n.
Proof. unfold openssl_random_bytes. case_match; [done|]. apply RAND_length. Qed.

Lemma random_spec_bytes r n b : openssl_random_bytes r n = Some b -> bytes_ok b.
Proof. unfold openssl_random_bytes. case_match; [done|]. apply RAND_bytes_ok. Qed.

(** The parts of a token. *)
Lemma token_encrypt_parts key seed plaintext cap t :
  openssl_token_encrypt key seed plaintext cap = Some t ->
  exists iv a b mac, t = (iv ++ a ++ b) ++ mac /\ length iv = 16%nat /\ length mac = 32%nat /\
    EVP_aes_256_cbc_encrypt (take 32 (drop 32 key)) iv plaintext = Some (a, b) /\
    openssl_hmac_sha256 (take 32 key) (iv ++ a ++ b) = Some mac /\
    length t = token_size (length plaintext) /\ (length t <= cap)%nat /\ Z.of_nat (length t) <= INT_MAX.
Proof.
  unfold openssl_token_encrypt. case_match; [done|]. case_match eqn:Hsz; [done|].
  intros (iv & Hiv & H1)%bind_Some. apply bind_Some in H1 as ([a b] & Henc & H1).
  apply bind_Some in H1 as (mac & Hmac & [= <-]).
  pose proof (random_spec _ _ _ Hiv) as Hl. pose proof (hmac_spec _ _ _ Hmac) as [Hml _].
  pose proof (aes_encrypt_length _ _ _ _ _ Henc) as Hab.
  apply orb_false_iff in Hsz as [Hc%Nat.ltb_ge Hi%Z.ltb_ge].
  assert (length ((iv ++ a ++ b) ++ mac) = token_size (length plaintext)) as Ht.
  { rewrite !length_app. unfold token_size. lia. }
  exists iv, a, b, mac. split_and!; try done; lia.
Qed.

Lemma token_roundtrip_spec key seed p cap t cap' :
  openssl_token_encrypt key seed p cap = Some t -> (length t <= cap' + RNS_TOKEN_OVERHEAD)%nat ->
  openssl_token_decrypt key t cap' = Some p.
Proof.
  intros (iv & a & b & mac & -> & Hiv & Hmac & Henc & Hhmac & Hlen & _ & Hmax)%token_encrypt_parts Hcap.
  pose proof (aes_encrypt_length _ _ _ _ _ Henc) as Hab.
  assert (length ((iv ++ a ++ b) ++ mac) = 48 + (length p / 16 + 1) * 16)%nat as Hl by (rewrite !length_app; lia).
  unfold openssl_token_decrypt, RNS_TOKEN_OVERHEAD in *. rewrite Hl in *.
  replace (48 + (length p / 16 + 1) * 16 - 48)%nat with ((length p / 16 + 1) * 16)%nat by lia.
  rewrite (proj2 (Nat.ltb_ge _ _)), Nat.Div0.mod_mul by lia. cbn [orb negb Nat.eqb].
  rewrite (proj2 (Z.ltb_ge _ _)), (proj2 (Nat.ltb_ge _ _)) by lia. cbn [orb].
  replace (48 + (length p / 16 + 1) * 16 - 32)%nat with (length (iv ++ a ++ b)) by (rewrite !length_app; lia).
  rewrite take_app_length, drop_app_length, Hhmac. cbn [mbind option_bind].
  rewrite take_ge by lia. unfold openssl_constant_time_equal. rewrite Hmac, memeq_refl. cbn [Nat.eqb negb].
  rewrite <-!app_assoc. rewrite (take_app_length' iv), (drop_app_length' iv) by done.
  rewrite !app_assoc, (take_app_length' (a ++ b)) by (rewrite length_app; lia).
  destruct (aes_roundtrip _ _ _ _ _ Henc) as (c & d & -> & Hcd). cbn [mbind option_bind]. by rewrite Hcd.
Qed.

Lemma token_decrypt_spec key t cap p :
  openssl_token_decrypt key t cap = Some p ->
  (length p <= cap)%nat /\ (RNS_TOKEN_OVERHEAD + length p <= length t)%nat.
Proof.
  unfold openssl_token_decrypt, RNS_TOKEN_OVERHEAD. case_match eqn:Hl; [done|]. case_match eqn:Hc; [done|].
  intros (mac & _ & H1)%bind_Some. case_match; [done|].
  apply bind_Some in H1 as ([a b] & Hd & [= <-]). apply aes_decrypt_length in Hd.
  apply orb_false_iff in Hl as [Hl%Nat.ltb_ge _]. apply orb_false_iff in Hc as [_ Hc%Nat.ltb_ge].
  rewrite length_take, length_drop in Hd. rewrite length_app. lia.
Qed.

Lemma decrypt_bytes_spec key t cap p : openssl_token_decrypt key t cap = Some p -> bytes_ok t -> bytes_ok p.
Proof.
  unfold openssl_token_decrypt. case_match; [done|]. case_match; [done|]. intros (mac & _ & E)%bind_Some Hb. case_match; [done|].
  apply bind_Some in E as ([a b] & Hd & [= <-]). apply (aes_decrypt_bytes _ _ _ _ _ Hd). by apply Forall_take, Forall_drop.
Qed.

End WithOpenSSL.
End Provider.

(** ** The OpenSSL provider satisfies the interface *)

#[global, refine] Instance openssl_provider `{OpenSSL} : Crypto | 100 := {|
  rns_sha256 := Provider.openssl_sha256;
  rns_hmac_sha256 := Provider.openssl_hmac_sha256;
  rns_hkdf_sha256 := Provider.openssl_hkdf_sha256;
  rns_random_bytes := Provider.openssl_random_bytes;
  rns_x25519_generate := Provider.openssl_x25519_generate;
  rns_x25519_public_from_private := Provider.openssl_x25519_public_from_private;
  rns_x25519_exchange := Provider.openssl_x25519_exchange;
  rns_ed25519_generate := Provider.openssl_ed25519_generate;
  rns_ed25519_public_from_private := Provider.openssl_ed25519_public_from_private;
  rns_ed25519_sign := Provider.openssl_ed25519_sign;
  rns_ed25519_verify := Provider.openssl_ed25519_verify;
  rns_constant_time_equal := Provider.openssl_constant_time_equal;
  rns_token_encrypt := Provider.openssl_token_encrypt;
  rns_token_decrypt := Provider.openssl_token_decrypt;
  x25519_pair := Provider.sized_pair true;
  ed25519_pair := Provider.sized_pair false
|}.
Proof.
  1,2: intros m d Hd; apply SHA256_spec in Hd; tauto.
  1,2: intros i s c n k Hk; apply Provider.hkdf_spec in Hk; tauto.
  - exact Provider.random_spec.
  - exact Provider.random_spec_bytes.
  - apply Provider.generate_raw_spec.
  - apply Provider.raw_public_spec.
  - by intros k p [_ Hp].
  - intros k p q [Hp _] [Hq _]. by eapply pair_unique.
  - intros k p s [_ Hs]%Provider.sized_Some. exact Hs.
  - apply Provider.generate_raw_spec.
  - apply Provider.raw_public_spec.
  - by intros k p [_ Hp].
  - intros k p q [Hp _] [Hq _]. by eapply pair_unique.
  - intros k m s [_ Hs]%Provider.sized_Some. exact Hs.
  - intros k m s [Hs _]%Provider.sized_Some. by apply sign_bytes_ok in Hs.
  - intros k p m s [Hp _] [Hs _]%Provider.sized_Some. by eapply sign_verifies.
  - intros a b pa pb [Ha _] [Hb _].
    unfold Provider.openssl_x25519_exchange. by rewrite (derive_comm a b pa pb).
  - intros a b Hl. unfold Provider.openssl_constant_time_equal. case_match eqn:E; [|done].
    apply Nat.eqb_eq in E. rewrite E in Hl. apply length_zero_iff_nil in E as ->.
    destruct b; [by rewrite memeq_refl|done].
  - intros k r p cap t Ht. apply Provider.token_encrypt_parts in Ht.
    destruct Ht as (iv & a & b & mac & _ & _ & _ & _ & _ & ? & ? & _). done.
  - exact Provider.token_roundtrip_spec.
  - exact Provider.token_decrypt_spec.
  - exact Provider.decrypt_bytes_spec.
Defined.

(** ** A library that satisfies the laws

    Not a cryptographic one: fixed-width folding in place of hashing, and a
    cipher that only pads. It makes the hypotheses of the theorems concrete.
    [derives]: whether public keys can be derived. *)
Definition fold_to (n : nat) (m : list Z) : list Z :=
  (λ i, wrap8 (foldr Z.add (Z.of_nat i) m)) <$> seq 0 n.

Lemma length_fold_to n m : length (fold_to n m) = n.
Proof. unfold fold_to. by rewrite length_fmap, length_seq. Qed.

Lemma fold_to_bytes n m : bytes_ok (fold_to n m).
Proof.
  unfold fold_to. apply Forall_fmap, Forall_true. intros i. simpl. by apply wrap_in_width.
Qed.

Lemma fold_to_comm n a b : fold_to n (a ++ b) = fold_to n (b ++ a).
Proof.
  assert (forall l z, foldr Z.add z l = foldr Z.add 0 l + z) as Hf.
  { intros l z. induction l; simpl; lia. }
  unfold fold_to. apply list_fmap_ext. intros _ i _. f_equal. rewrite !foldr_app.
  rewrite (Hf a (foldr _ _ b)), (Hf b (foldr _ _ a)), (Hf a (Z.of_nat i)), (Hf b (Z.of_nat i)). lia.
Qed.

Definition pad_length (m : list Z) : nat := (16 - length m mod 16)%nat.

Lemma pad_length_spec m : (length m + pad_length m = (length m / 16 + 1) * 16)%nat /\ (1 <= pad_length m <= 16)%nat.
Proof.
  unfold pad_length. pose proof (Nat.div_mod_eq (length m) 16). pose proof (Nat.mod_upper_bound (length m) 16). lia.
Qed.

(** The padding: each added byte is the number of added bytes. *)
Definition toy_pad (m : list Z) : list Z := replicate (pad_length m) (Z.of_nat (pad_length m)).

Definition toy_unpad (m : list Z) : list Z :=
  take (length m - Z.to_nat (default 0%Z (list.last m)))%nat m.

Lemma toy_unpad_pad m : toy_unpad (m ++ toy_pad m) = m.
Proof.
  pose proof (pad_length_spec m) as [_ Hp]. unfold toy_unpad, toy_pad.
  assert (list.last (m ++ replicate (pad_length m) (Z.of_nat (pad_length m))) = Some (Z.of_nat (pad_length m))) as ->.
  { destruct (pad_length m) as [|k] eqn:E; [lia|]. rewrite <-(Nat.add_1_r k) at 1.
    rewrite replicate_add, app_assoc. apply last_snoc. }
  simpl. rewrite Nat2Z.id, length_app, length_replicate. rewrite take_app_length' by lia. done.
Qed.

#[refine] Local Instance toy_library (derives : bool) : OpenSSL | 200 := {|
  SHA256 m := Some (fold_to 32 m);
  HMAC_sha256 k m := Some (fold_to 32 (k ++ m));
  RAND_bytes r n := Some (fold_to n r);
  EVP_keygen ty r := Some (fold_to 32 (0 :: r), fold_to 32 (fold_to 32 (0 :: r)));
  EVP_raw_public ty k := if derives then Some (fold_to 32 k) else None;
  EVP_derive a p := Some (fold_to 32 (fold_to 32 a ++ p));
  EVP_DigestSign k m := Some (fold_to 64 (fold_to 32 k ++ m));
  EVP_DigestVerify p m s := memeq s (fold_to 64 (p ++ m));
  EVP_aes_256_cbc_encrypt k iv m := Some (m, toy_pad m);
  EVP_aes_256_cbc_decrypt k iv m := Some ([], toy_unpad m);
  EVP_pair ty k p := p = fold_to 32 k
|}.
Proof.
  - intros m d [= <-]. split; [apply length_fold_to|apply fold_to_bytes].
  - intros k m d [= <-]. apply fold_to_bytes.
  - intros r n b [= <-]. apply length_fold_to.
  - intros r n b [= <-]. apply fold_to_bytes.
  - by intros ty r k p [= <- <-].
  - intros ty k p. by destruct derives; [intros [= <-]|].
  - by intros ty k p q -> ->.
  - intros a b pa pb -> ->. by rewrite fold_to_comm.
  - intros k m s [= <-]. apply fold_to_bytes.
  - intros k p m s -> [= <-]. apply memeq_refl.
  - intros k iv m a b [= <- <-]. unfold toy_pad. rewrite length_replicate. apply pad_length_spec.
  - intros k iv m a b [= <- <-]. eexists _, _. split; [done|]. apply toy_unpad_pad.
  - intros k iv m a b [= <- <-]. unfold toy_unpad. rewrite length_take. simpl. lia.
  - intros k iv m a b [= <- <-] Hb. by apply Forall_take.
Defined.

#[global] Instance toy_openssl : OpenSSL | 100 := toy_library true.

(** The token of [crypto.c]: what [openssl_token_encrypt] produces has the
    announced size, within the capacity, and [openssl_token_decrypt] with the
    same key gives back the plaintext whenever the caller's buffer holds the
    padded ciphertext. *)
Theorem openssl_token_roundtrip `{OpenSSL} key seed plaintext cap token cap' :
  Provider.openssl_token_encrypt key seed plaintext cap = Some token ->
  (length token <= cap' + RNS_TOKEN_OVERHEAD)%nat ->
  length token = token_size (length plaintext) /\ (length token <= cap)%nat /\
  Provider.openssl_token_decrypt key token cap' = Some plaintext.
Proof.
  intros He Hc. pose proof (Provider.token_roundtrip_spec _ _ _ _ _ _ He Hc).
  destruct (Provider.token_encrypt_parts _ _ _ _ _ He) as (iv & a & b & mac & _ & _ & _ & _ & _ & ? & ? & _). done.
Qed.

Lemma openssl_token_roundtrip_witness :
  exists token, Provider.openssl_token_encrypt (fold_to 64 [1]) [2] [3; 4; 5] 64 = Some token /\
    Provider.openssl_token_decrypt (fold_to 64 [1]) token 16 = Some [3; 4; 5].
Proof.
  eexists. split; [vm_compute; reflexivity|].
  refine (proj2 (proj2 (openssl_token_roundtrip (fold_to 64 [1]) [2] [3; 4; 5] 64 _ 16 _ _)));
    [vm_compute; reflexivity|vm_compute; lia].
Defined.

(** The HKDF of [crypto.c] terminates with exactly [out_length] bytes for
    every request it accepts, as long as the library's HMAC answers with 32
    bytes; the loop needs at most 255 rounds. *)
Theorem openssl_hkdf_total `{OpenSSL} input salt context out_length :
  (forall k m, exists d, HMAC_sha256 k m = Some d /\ length d = 32%nat) ->
  (1 <= out_length)%nat -> Z.of_nat out_length <= 255 * 32 -> input <> [] -> (length context <= 255)%nat ->
  Z.of_nat (length salt) <= INT_MAX ->
  exists k, Provider.openssl_hkdf_sha256 input salt context out_length = Some k /\
    length k = out_length /\ bytes_ok k.
Proof.
  intros Hm Hn Hmax Hi Hc Hs. unfold Provider.openssl_hkdf_sha256.
  rewrite (proj2 (Nat.eqb_neq out_length 0)), (proj2 (Z.ltb_ge _ _)) by lia.
  rewrite (proj2 (Nat.eqb_neq (length input) 0)), (proj2 (Nat.ltb_ge _ _)) by (destruct input; simpl; done || lia).
  cbn [orb].
  assert (forall k m, Z.of_nat (length k) <= INT_MAX -> is_Some (Provider.openssl_hmac_sha256 k m)) as Hok.
  { intros k m Hk. unfold Provider.openssl_hmac_sha256, Provider.sized. rewrite (proj2 (Z.ltb_ge _ _)) by done.
    destruct (Hm k m) as (d & -> & Hd). simpl. rewrite Hd. by eexists. }
  destruct (Hok (if (length salt =? 0)%nat then replicate 32 0 else salt) input) as [prk Hprk];
    [by case_match|]. rewrite Hprk. cbn [mbind option_bind].
  apply Provider.hmac_spec in Hprk as [Hprk _].
  destruct (Provider.hkdf_loop_total 255 prk context out_length None 1 []) as [k Hk];
    [intros m; apply Hok; by rewrite Hprk|simpl; lia|].
  exists k. split; [done|]. apply Provider.hkdf_loop_spec in Hk; [done|simpl; lia|apply Forall_nil_2].
Qed.

Lemma openssl_hkdf_total_witness :
  exists k, Provider.openssl_hkdf_sha256 [1] [] [] 64 = Some k /\ length k = 64%nat /\ bytes_ok k.
Proof.
  apply (openssl_hkdf_total [1] [] [] 64); [|lia|lia|done|simpl; lia|vm_compute; congruence].
  intros k m. eexists. split; [reflexivity|apply length_fold_to].
Defined.
