(* ===== verification/Packet.v ===== *)
(** * Packets

    Models [src/packet/packet.c]: the 2-byte header with its bit fields, the
    one- and two-address layouts, and the packet hash that ignores everything a
    transport node may change. *)

From Stdlib Require Import ZArith Lia.
From S2P Require Import Prelude Crypto.

Module Packet.

Definition RNS_MTU : nat := 500.
Definition RNS_PACKET_HEADER_1 : Z := 0.
Definition RNS_PACKET_HEADER_2 : Z := 1.

Record rns_packet : Type := {
  header_type : Z;
  context_flag : Z;
  transport_type : Z;
  destination_type : Z;
  packet_type : Z;
  hops : Z;
  transport_id : list Z;
  destination_hash : list Z;
  context : Z;
  data : slice
}.

(** The offsets of the context byte and of the data. *)
Definition layout (flags : Z) (raw_length : nat) : option (nat * nat) :=
  let ht := Z.land (Z.shiftr flags 6) 1 in
  let co := if negb (ht =? 0) then 34%nat else 18%nat in
  if (raw_length <=? co)%nat || (RNS_MTU <? raw_length)%nat then None
  else Some (co, (co + 1)%nat).

(** The flag byte [out[0]]. *)
Definition flag_byte (p : rns_packet) : Z :=
  wrap8 (Z.lor (Z.lor (Z.lor (Z.lor (Z.shiftl p.(header_type) 6) (Z.shiftl p.(context_flag) 5))
    (Z.shiftl p.(transport_type) 4)) (Z.shiftl p.(destination_type) 2)) p.(packet_type)).

(** The result is the C return value, the output object and the value behind
    [out_length]; the outer option is memory safety. *)
Definition rns_packet_encode (p : rns_packet) (out : option (list Z)) (capacity : nat)
    (out_length : option nat) : option (bool * option (list Z) * option nat) :=
  match out, out_length with
  | Some o, Some _ =>
      if (1 <? p.(header_type)) || (1 <? p.(context_flag)) || (1 <? p.(transport_type)) ||
         (3 <? p.(destination_type)) || (3 <? p.(packet_type)) || slice_bad p.(data)
      then Some (false, out, out_length)
      else
        let address_length := if p.(header_type) =? RNS_PACKET_HEADER_2 then 32%nat else 16%nat in
        let total := (2 + address_length + 1 + slice_length p.(data))%nat in
        if (RNS_MTU <? total)%nat || (capacity <? total)%nat then Some (false, out, out_length)
        else
          o ← store o 0 (flag_byte p);
          o ← store o 1 p.(hops);
          r ← (if p.(header_type) =? RNS_PACKET_HEADER_2
               then o ← memcpy o 2 p.(transport_id); Some (o, 18%nat)
               else Some (o, 2%nat));
          let '(o, offset) := r in
          o ← memcpy o offset p.(destination_hash);
          let offset := (offset + 16)%nat in
          o ← store o offset p.(context);
          let offset := (offset + 1)%nat in
          o ← (if negb (slice_length p.(data) =? 0)%nat
               then memcpy o offset (slice_bytes p.(data)) else Some o);
          Some (true, Some o, Some total)
  | _, _ => Some (false, out, out_length)
  end.

(** [None] is the C result 0; a read outside [raw] is impossible by the layout
    check and is proved so. *)
Definition rns_packet_decode (raw : slice) : option rns_packet :=
  match raw with
  | SNull _ => None
  | SBytes raw =>
      if (length raw <? 2)%nat then None else
      flags ← load raw 0;
      l ← layout flags (length raw);
      let '(context_offset, data_offset) := l in
      if (data_offset =? length raw)%nat then None else
      let ht := Z.land (Z.shiftr flags 6) 1 in
      h ← load raw 1;
      r ← (if ht =? RNS_PACKET_HEADER_2
           then t ← memread raw 2 16; Some (t, 18%nat)
           else Some (replicate 16 0, 2%nat));
      let '(tid, offset) := r in
      dst ← memread raw offset 16;
      c ← load raw context_offset;
      d ← memread raw data_offset (length raw - data_offset);
      Some {| header_type := ht;
              context_flag := Z.land (Z.shiftr flags 5) 1;
              transport_type := Z.land (Z.shiftr flags 4) 1;
              destination_type := Z.land (Z.shiftr flags 2) 3;
              packet_type := Z.land flags 3;
              hops := h; transport_id := tid; destination_hash := dst; context := c;
              data := SBytes d |}
  end.

(** The same decoder with the two failures apart: the outer [None] is a read outside
    the input, the inner one the C result 0. [rns_packet_read_defined] says that the
    outer one does not occur. *)
Definition rns_packet_read (raw : slice) : option (option rns_packet) :=
  match raw with
  | SNull _ => Some None
  | SBytes raw =>
      if (length raw <? 2)%nat then Some None else
      flags ← load raw 0;
      match layout flags (length raw) with
      | None => Some None
      | Some (context_offset, data_offset) =>
          if (data_offset =? length raw)%nat then Some None else
          let ht := Z.land (Z.shiftr flags 6) 1 in
          h ← load raw 1;
          r ← (if ht =? RNS_PACKET_HEADER_2
               then t ← memread raw 2 16; Some (t, 18%nat)
               else Some (replicate 16 0, 2%nat));
          let '(tid, offset) := r in
          dst ← memread raw offset 16;
          c ← load raw context_offset;
          d ← memread raw data_offset (length raw - data_offset);
          Some (Some {| header_type := ht;
                        context_flag := Z.land (Z.shiftr flags 5) 1;
                        transport_type := Z.land (Z.shiftr flags 4) 1;
                        destination_type := Z.land (Z.shiftr flags 2) 3;
                        packet_type := Z.land flags 3;
                        hops := h; transport_id := tid; destination_hash := dst; context := c;
                        data := SBytes d |})
      end
  end.

(** The bytes the packet hash covers. *)
Definition hashable_part (raw : slice) : option (list Z) :=
  match raw with
  | SNull _ => None
  | SBytes raw =>
      if (length raw <? 2)%nat then None else
      flags ← load raw 0;
      _ ← layout flags (length raw);
      let source_offset := if negb (Z.land (Z.shiftr flags 6) 1 =? 0) then 18%nat else 2%nat in
      let n := (length raw - source_offset)%nat in
      body ← memread raw source_offset n;
      hashable ← store (replicate RNS_MTU 0) 0 (Z.land flags 0x0f);
      hashable ← memcpy hashable 1 body;
      memread hashable 0 (n + 1)
  end.

Section Hash.
Context `{Crypto}.

Definition rns_packet_hash (raw : slice) : option (list Z) :=
  h ← hashable_part raw; rns_sha256 h.

Definition rns_packet_truncated_hash (raw : slice) : option (list Z) :=
  d ← rns_packet_hash raw; Some (take 16 d).
End Hash.

(** ** Specification *)

(** The fields have the widths and sizes of the C struct, and the values the
    encoder accepts. *)
Record wf (p : rns_packet) : Prop := {
  wf_header : 0 <= p.(header_type) <= 1;
  wf_context_flag : 0 <= p.(context_flag) <= 1;
  wf_transport_type : 0 <= p.(transport_type) <= 1;
  wf_destination_type : 0 <= p.(destination_type) <= 3;
  wf_packet_type : 0 <= p.(packet_type) <= 3;
  wf_hops : is_byte p.(hops);
  wf_transport_id : length p.(transport_id) = 16%nat;
  wf_destination : length p.(destination_hash) = 16%nat;
  wf_context : is_byte p.(context);
  wf_data : slice_bad p.(data) = false
}.

Definition addresses (p : rns_packet) : list Z :=
  (if p.(header_type) =? RNS_PACKET_HEADER_2 then p.(transport_id) else []) ++ p.(destination_hash).

(** The encoded packet. *)
Definition wire (p : rns_packet) : list Z :=
  [flag_byte p; p.(hops)] ++ addresses p ++ [p.(context)] ++ slice_bytes p.(data).

(** What a decoder can see of a packet: without a second address the transport
    identifier is not transmitted. *)
Definition canonical (p : rns_packet) : rns_packet :=
  {| p with transport_id := if p.(header_type) =? RNS_PACKET_HEADER_2
                            then p.(transport_id) else replicate 16 0;
            data := SBytes (slice_bytes p.(data)) |}.

(** The part of a packet its hash depends on. *)
Definition identity_part (p : rns_packet) : list Z :=
  [Z.lor (Z.shiftl p.(destination_type) 2) p.(packet_type)] ++ p.(destination_hash) ++
  [p.(context)] ++ slice_bytes p.(data).

Lemma flag_byte_fields p :
  wf p ->
  let f := flag_byte p in
  0 <= f < 128 /\ Z.land (Z.shiftr f 6) 1 = p.(header_type) /\
  Z.land (Z.shiftr f 5) 1 = p.(context_flag) /\ Z.land (Z.shiftr f 4) 1 = p.(transport_type) /\
  Z.land (Z.shiftr f 2) 3 = p.(destination_type) /\ Z.land f 3 = p.(packet_type) /\
  Z.land f 0x0f = Z.lor (Z.shiftl p.(destination_type) 2) p.(packet_type).
Proof.
  intros []. unfold flag_byte. generalize dependent p.(header_type).
  generalize dependent p.(context_flag). generalize dependent p.(transport_type).
  generalize dependent p.(destination_type). generalize dependent p.(packet_type).
  intros pt Hpt dt Hdt tt Htt cf Hcf ht Hht.
  pose proof (forall_below2 4 4 (λ pt dt, forallb (λ tt, forallb (λ cf, forallb (λ ht,
      let f := wrap8 (Z.lor (Z.lor (Z.lor (Z.lor (Z.shiftl ht 6) (Z.shiftl cf 5))
        (Z.shiftl tt 4)) (Z.shiftl dt 2)) pt) in
      (0 <=? f) && (f <? 128) && (Z.land (Z.shiftr f 6) 1 =? ht) && (Z.land (Z.shiftr f 5) 1 =? cf) &&
      (Z.land (Z.shiftr f 4) 1 =? tt) && (Z.land (Z.shiftr f 2) 3 =? dt) && (Z.land f 3 =? pt) &&
      (Z.land f 0x0f =? Z.lor (Z.shiftl dt 2) pt))
    (seqZ 0 2)) (seqZ 0 2)) (seqZ 0 2)) ltac:(vm_compute; reflexivity) pt dt ltac:(lia) ltac:(lia)) as H.
  apply forall_below with (x := tt) in H; [|lia]. apply forall_below with (x := cf) in H; [|lia].
  apply forall_below with (x := ht) in H; [|lia]. cbv zeta in H |- *.
  rewrite !andb_true_iff, !Z.eqb_eq in H. lia.
Qed.

Lemma length_addresses p :
  wf p -> length (addresses p) = if p.(header_type) =? RNS_PACKET_HEADER_2 then 32%nat else 16%nat.
Proof. intros []. unfold addresses. rewrite length_app. case_match; simpl; lia. Qed.

Lemma length_packet_wire p :
  wf p -> length (wire p) = (3 + length (addresses p) + length (slice_bytes p.(data)))%nat.
Proof. intros. unfold wire. rewrite !length_app. simpl. lia. Qed.

Lemma encode_wire p o capacity n0 :
  wf p -> (capacity <= length o)%nat ->
  if decide (length (wire p) <= RNS_MTU /\ length (wire p) <= capacity)%nat then
    exists o', rns_packet_encode p (Some o) capacity (Some n0)
        = Some (true, Some o', Some (length (wire p))) /\ wrote (length o) o' (wire p)
  else rns_packet_encode p (Some o) capacity (Some n0) = Some (false, Some o, Some n0).
Proof.
  intros Hwf Hcap. pose proof (length_packet_wire p Hwf) as Hl. pose proof (length_addresses p Hwf) as Ha.
  unfold rns_packet_encode. destruct Hwf as [H1 H2 H3 H4 H5 H6 H7 H8 H9 H10].
  rewrite !(proj2 (Z.ltb_ge _ _)), H10 by lia. cbn [orb]. rewrite (slice_bad_length _ H10).
  replace (2 + (if (header_type p =? RNS_PACKET_HEADER_2)%Z then 32 else 16) + 1 +
    length (slice_bytes (data p)))%nat with (length (wire p)) by (rewrite Hl, Ha; lia).
  case_decide as Hd.
  2:{ destruct (Nat.ltb_spec RNS_MTU (length (wire p))); [done|].
      destruct (Nat.ltb_spec capacity (length (wire p))); [done|]. lia. }
  rewrite !(proj2 (Nat.ltb_ge _ _)) by lia. cbn [orb].
  destruct (wrote_store2 (length o) o [] (flag_byte p) p.(hops)) as (o1 & o2 & Ho1 & Ho2 & Hw2);
    [by apply wrote_nil|simpl; lia|]. simpl in Ho1, Ho2, Hw2. rewrite Ho1. cbn [mbind option_bind]. rewrite Ho2.
  cbn [mbind option_bind].
  set (tid := if header_type p =? RNS_PACKET_HEADER_2 then transport_id p else []).
  assert (exists o3, (if header_type p =? RNS_PACKET_HEADER_2
      then o ← memcpy o2 2 (transport_id p); Some (o, 18%nat) else Some (o2, 2%nat)) =
      Some (o3, (2 + length tid)%nat) /\
    wrote (length o) o3 ([flag_byte p; hops p] ++ tid)) as (o3 & -> & Hw3).
  { subst tid. destruct (header_type p =? RNS_PACKET_HEADER_2); [|rewrite app_nil_r; eauto].
    destruct (wrote_memcpy _ _ _ (transport_id p) Hw2) as (o3 & Ho3 & Hw3); [rewrite Hl in Hd; cbn [length]; lia|].
    simpl in Ho3. rewrite Ho3, H7. eauto. }
  cbn [mbind option_bind].
  assert (length (wire p) = length ([flag_byte p; hops p] ++ tid) + 16 + 1 + length (slice_bytes (data p)))%nat
    as Htot. { rewrite Hl. unfold addresses. fold tid. rewrite !length_app, H8. cbn [length]. lia. }
  change (2 + length tid)%nat with (length ([flag_byte p; hops p] ++ tid)).
  destruct (wrote_memcpy _ _ _ (destination_hash p) Hw3) as (o4 & Ho4 & Hw4); [lia|].
  rewrite Ho4. cbn [mbind option_bind].
  replace (length ([flag_byte p; hops p] ++ tid) + 16)%nat with
    (length (([flag_byte p; hops p] ++ tid) ++ destination_hash p)) by (rewrite length_app, H8; done).
  destruct (wrote_store _ _ _ (context p) Hw4) as (o5 & Ho5 & Hw5); [rewrite length_app; lia|].
  rewrite Ho5. cbn [mbind option_bind].
  destruct (wrote_memcpy _ _ _ (slice_bytes (data p)) Hw5) as (o6 & Ho6 & Hw6); [rewrite !length_app; simpl in *; lia|].
  assert (wire p = ((([flag_byte p; hops p] ++ tid) ++ destination_hash p) ++ [context p]) ++ slice_bytes (data p))
    as Hwire. { unfold wire, addresses. by rewrite <-!app_assoc. }
  destruct (Nat.eqb_spec (length (slice_bytes (data p))) 0) as [E|E]; cbn [negb].
  - cbn [mbind option_bind]. eexists. split; [done|]. rewrite Hwire.
    apply length_zero_iff_nil in E. rewrite E, app_nil_r. done.
  - rewrite length_app in Ho6. change (length [context p]) with 1%nat in Ho6. rewrite Ho6. cbn [mbind option_bind]. eexists. split; [done|].
    by rewrite Hwire.
Qed.

(** [rns_packet_encode] never writes outside its output; on a well-formed
    packet it succeeds exactly when the wire image fits both the MTU and the
    capacity, and the output then starts with that image. *)
Theorem rns_packet_encode_spec p o capacity n0 :
  wf p -> (capacity <= length o)%nat ->
  if decide (length (wire p) <= RNS_MTU /\ length (wire p) <= capacity)%nat then
    exists o', rns_packet_encode p (Some o) capacity (Some n0)
        = Some (true, Some o', Some (length (wire p))) /\ wrote (length o) o' (wire p)
  else rns_packet_encode p (Some o) capacity (Some n0) = Some (false, Some o, Some n0).
Proof. apply encode_wire. Qed.

(** *** Reading a packet *)

Lemma layout_wire p :
  wf p -> (length (wire p) <= RNS_MTU)%nat ->
  let co := (2 + length (addresses p))%nat in
  layout (flag_byte p) (length (wire p)) = Some (co, (co + 1)%nat).
Proof.
  intros Hwf Hm. pose proof (flag_byte_fields p Hwf) as (_ & Hh & _).
  pose proof (length_packet_wire p Hwf) as Hl. pose proof (length_addresses p Hwf) as Ha.
  unfold layout. rewrite Hh, (proj2 (Nat.ltb_ge _ _) Hm), orb_false_r.
  pose proof (wf_header p Hwf) as Hr. unfold RNS_PACKET_HEADER_2 in Ha.
  destruct (Z.eqb_spec (header_type p) 0) as [E|E]; cbn [negb].
  - rewrite E in Ha. simpl in Ha. rewrite (proj2 (Nat.leb_gt _ _)) by lia. by rewrite Ha.
  - replace (header_type p) with 1 in Ha by lia. simpl in Ha.
    rewrite (proj2 (Nat.leb_gt _ _)) by lia. by rewrite Ha.
Qed.

Lemma decode_wire p :
  wf p -> slice_bytes p.(data) <> [] -> (length (wire p) <= RNS_MTU)%nat ->
  rns_packet_decode (SBytes (wire p)) = Some (canonical p).
Proof.
  intros Hwf Hd Hm. pose proof (layout_wire p Hwf Hm) as Hlay.
  pose proof (flag_byte_fields p Hwf) as (_ & Hht & Hcf & Htt & Hdt & Hpt & _).
  pose proof (length_packet_wire p Hwf) as Hl. pose proof (length_addresses p Hwf) as Ha.
  unfold rns_packet_decode. rewrite (proj2 (Nat.ltb_ge _ _)) by lia.
  change (load (wire p) 0) with (Some (flag_byte p)). cbn [mbind option_bind].
  cbv zeta in Hlay. rewrite Hlay. cbn [mbind option_bind].
  destruct (Nat.eqb_spec (2 + length (addresses p) + 1) (length (wire p))) as [E|_].
  { destruct (slice_bytes (data p)); [done|]. rewrite Hl in E. cbn [length] in E. lia. }
  change (load (wire p) 1) with (Some (hops p)). cbn [mbind option_bind]. rewrite Hht, Hcf, Htt, Hdt, Hpt.
  assert (load (wire p) (2 + length (addresses p)) = Some (context p)) as Hc.
  { apply (load_at _ ([flag_byte p; hops p] ++ addresses p) _ (slice_bytes (data p)));
      [unfold wire; by rewrite <-!app_assoc|done]. }
  assert (memread (wire p) (2 + length (addresses p) + 1) (length (wire p) - (2 + length (addresses p) + 1))
      = Some (slice_bytes (data p))) as Hdata.
  { apply (memread_at _ ([flag_byte p; hops p] ++ addresses p ++ [context p]) _ []);
      [unfold wire; by rewrite <-!app_assoc, app_nil_r|rewrite !length_app; simpl; lia|lia]. }
  assert (exists off, (if header_type p =? RNS_PACKET_HEADER_2
     then t ← memread (wire p) 2 16; Some (t, 18%nat) else Some (replicate 16 0, 2%nat)) =
     Some (transport_id (canonical p), off) /\ memread (wire p) off 16 = Some (destination_hash p))
    as (off & -> & Hdst).
  { unfold canonical. cbn [transport_id]. unfold wire, addresses.
    pose proof (wf_transport_id p Hwf) as Ht. pose proof (wf_destination p Hwf) as Hdl.
    destruct (header_type p =? RNS_PACKET_HEADER_2).
    - exists 18%nat. rewrite (memread_at _ [flag_byte p; hops p] (transport_id p)
        (destination_hash p ++ [context p] ++ slice_bytes (data p))) by (by rewrite ?app_assoc).
      split; [done|]. apply (memread_at _ ([flag_byte p; hops p] ++ transport_id p) _
        ([context p] ++ slice_bytes (data p))); [by rewrite <-!app_assoc|by rewrite length_app, Ht|done].
    - exists 2%nat. split; [done|]. by apply (memread_at _ [flag_byte p; hops p] _
        ([context p] ++ slice_bytes (data p))). }
  cbn [mbind option_bind]. rewrite Hdst. cbn [mbind option_bind]. rewrite Hc. cbn [mbind option_bind].
  rewrite Hdata. cbn [mbind option_bind]. reflexivity.
Qed.

(** Decoding the wire image of a well-formed packet that carries data gives
    back the packet, every field included; without a second address the
    transport identifier reads as zero. *)
Theorem rns_packet_roundtrip p :
  wf p -> slice_bytes p.(data) <> [] -> (length (wire p) <= RNS_MTU)%nat ->
  rns_packet_decode (SBytes (wire p)) = Some (canonical p).
Proof. apply decode_wire. Qed.

(** *** What is accepted *)

(** The flag byte a decoded packet re-encodes to: the interface access bit,
    bit 7, is not a field of the packet. *)
Lemma flag_byte_of_flags flags ht :
  is_byte flags -> ht = Z.land (Z.shiftr flags 6) 1 ->
  forall h t d c x,
  let p := {| header_type := ht; context_flag := Z.land (Z.shiftr flags 5) 1;
      transport_type := Z.land (Z.shiftr flags 4) 1; destination_type := Z.land (Z.shiftr flags 2) 3;
      packet_type := Z.land flags 3; hops := h; transport_id := t; destination_hash := d;
      context := c; data := x |} in
  flag_byte p = Z.land flags 127 /\ 0 <= p.(header_type) <= 1 /\ 0 <= p.(context_flag) <= 1 /\
  0 <= p.(transport_type) <= 1 /\ 0 <= p.(destination_type) <= 3 /\ 0 <= p.(packet_type) <= 3.
Proof.
  intros Hf -> h t d c x. unfold flag_byte. cbn -[Z.land Z.shiftr Z.lor Z.shiftl].
  pose proof (forall_below 256 (λ flags,
    (wrap8 (Z.lor (Z.lor (Z.lor (Z.lor (Z.shiftl (Z.land (Z.shiftr flags 6) 1) 6)
       (Z.shiftl (Z.land (Z.shiftr flags 5) 1) 5)) (Z.shiftl (Z.land (Z.shiftr flags 4) 1) 4))
       (Z.shiftl (Z.land (Z.shiftr flags 2) 3) 2)) (Z.land flags 3)) =? Z.land flags 127) &&
    (0 <=? Z.land (Z.shiftr flags 6) 1) && (Z.land (Z.shiftr flags 6) 1 <=? 1) &&
    (0 <=? Z.land (Z.shiftr flags 5) 1) && (Z.land (Z.shiftr flags 5) 1 <=? 1) &&
    (0 <=? Z.land (Z.shiftr flags 4) 1) && (Z.land (Z.shiftr flags 4) 1 <=? 1) &&
    (0 <=? Z.land (Z.shiftr flags 2) 3) && (Z.land (Z.shiftr flags 2) 3 <=? 3) &&
    (0 <=? Z.land flags 3) && (Z.land flags 3 <=? 3)) ltac:(vm_compute; reflexivity) flags Hf) as H.
  cbv beta in H. rewrite !andb_true_iff, Z.eqb_eq, !Z.leb_le in H. tauto.
Qed.

Definition context_offset (flags : Z) : nat :=
  if negb (Z.land (Z.shiftr flags 6) 1 =? 0) then 34%nat else 18%nat.

Lemma layout_spec flags n :
  layout flags n = if decide (context_offset flags < n <= RNS_MTU)%nat
    then Some (context_offset flags, (context_offset flags + 1)%nat) else None.
Proof.
  unfold layout. fold (context_offset flags). destruct (Nat.leb_spec n (context_offset flags));
    destruct (Nat.ltb_spec RNS_MTU n); case_decide; cbn [orb]; reflexivity || lia.
Qed.

(** The pieces of an accepted packet. *)
Lemma split_packet raw flags :
  load raw 0 = Some flags -> (context_offset flags + 1 <= length raw)%nat ->
  exists hops addr ctx dat, raw = flags :: hops :: addr ++ ctx :: dat /\
    length addr = (context_offset flags - 2)%nat.
Proof.
  unfold load. destruct raw as [|f [|h raw]]; [done|simpl..].
  { unfold context_offset. case_match; lia. }
  intros [= ->] Hl. assert (2 <= context_offset flags)%nat by (unfold context_offset; case_match; lia).
  pose proof (take_drop (context_offset flags - 2) raw) as E.
  destruct (drop (context_offset flags - 2) raw) as [|c dat] eqn:Hd.
  { apply (f_equal length) in Hd. rewrite length_drop in Hd. simpl in Hd. lia. }
  exists h, (take (context_offset flags - 2) raw), c, dat. rewrite E. split; [done|].
  rewrite length_take. lia.
Qed.

(** The addresses the decoder reads. *)
Lemma read_addresses raw flags h addr c dat :
  is_byte flags -> raw = flags :: h :: addr ++ c :: dat -> length addr = (context_offset flags - 2)%nat ->
  let two := Z.land (Z.shiftr flags 6) 1 =? RNS_PACKET_HEADER_2 in
  exists tid off dst,
    (if two then t ← memread raw 2 16; Some (t, 18%nat) else Some (replicate 16 0, 2%nat)) = Some (tid, off) /\
    memread raw off 16 = Some dst /\ length tid = 16%nat /\ length dst = 16%nat /\
    addr = (if two then tid else []) ++ dst /\ (two = false -> tid = replicate 16 0).
Proof.
  intros Hb E Ha. unfold context_offset in Ha. set (ht := Z.land (Z.shiftr flags 6) 1) in *.
  destruct (flag_byte_of_flags flags ht Hb eq_refl 0 [] [] 0 (SNull 0)) as (_ & Hht & _).
  cbn [header_type] in Hht. unfold RNS_PACKET_HEADER_2.
  destruct (Z.eqb_spec ht 0) as [E0|E0]; cbn [negb] in Ha.
  - rewrite E0. exists (replicate 16 0), 2%nat, addr. split_and!; try done.
    by apply (memread_at _ [flags; h] _ (c :: dat)).
  - replace ht with 1 by lia. exists (take 16 addr), 18%nat, (drop 16 addr).
    assert (length (take 16 addr) = 16%nat) by (rewrite length_take; lia).
    assert (length (drop 16 addr) = 16%nat) by (rewrite length_drop; lia).
    change (1 =? 1) with true. cbn iota. rewrite (bind_Some_eq _ _ (take 16 addr)).
    2:{ apply (memread_at _ [flags; h] _ (drop 16 addr ++ c :: dat)); [|done..].
        rewrite E. cbn [app]. by rewrite app_assoc, take_drop. }
    split_and!; try done; [|by rewrite take_drop].
    apply (memread_at _ (flags :: h :: take 16 addr) _ (c :: dat)); [|simpl; lia|done].
    rewrite E. cbn [app]. by rewrite app_assoc, take_drop.
Qed.

Lemma decode_sound raw flags :
  bytes_ok raw -> load raw 0 = Some flags ->
  if decide (context_offset flags + 2 <= length raw /\ length raw <= RNS_MTU)%nat then
    exists p, rns_packet_decode (SBytes raw) = Some p /\ wf p /\ canonical p = p /\
      p.(data) <> SBytes [] /\ Z.land flags 127 :: drop 1 raw = wire p
  else rns_packet_decode (SBytes raw) = None.
Proof.
  intros Hb Hf. unfold rns_packet_decode. rewrite Hf. cbn [mbind option_bind]. rewrite layout_spec.
  case_decide as Hd.
  2:{ case_match; [done|]. case_decide; [|done]. cbn [mbind option_bind].
      destruct (Nat.eqb_spec (context_offset flags + 1) (length raw)); [done|lia]. }
  destruct (split_packet raw flags Hf) as (h & addr & c & dat & E & Ha); [lia|].
  assert (2 <= context_offset flags)%nat as H2 by (unfold context_offset; case_match; lia).
  assert (length raw = context_offset flags + 1 + length dat)%nat as Hl
    by (rewrite E; simpl; rewrite length_app; simpl; lia).
  rewrite (proj2 (Nat.ltb_ge _ _)), decide_True by lia. cbn [mbind option_bind].
  rewrite (proj2 (Nat.eqb_neq _ _)) by lia.
  rewrite (bind_Some_eq (load raw 1) _ h) by (by rewrite E).
  assert (is_byte flags) as Hflags by (rewrite E in Hb; by inversion Hb).
  assert (is_byte h) as Hh by (rewrite E in Hb; apply Forall_cons_1 in Hb as [_ Hb]; by inversion Hb).
  assert (is_byte c) as Hc.
  { rewrite E in Hb. do 2 apply Forall_cons_1 in Hb as [_ Hb].
    apply Forall_app in Hb as [_ Hb]. by inversion Hb. }
  assert (load raw (context_offset flags) = Some c) as Hctx.
  { apply (load_at _ (flags :: h :: addr) _ dat); [done|simpl; lia]. }
  assert (memread raw (context_offset flags + 1) (length raw - (context_offset flags + 1)) = Some dat) as Hdat.
  { apply (memread_at _ (flags :: h :: addr ++ [c]) _ []); [|simpl; rewrite length_app; simpl; lia|lia].
    rewrite app_nil_r, E. simpl. by rewrite <-app_assoc. }
  destruct (read_addresses raw flags h addr c dat) as (tid & off & dst & -> & Hdst & Ht16 & Hd16 & Haddr & Hz);
    [done..|]. set (ht := Z.land (Z.shiftr flags 6) 1) in *.
  cbn [mbind option_bind]. rewrite Hdst. cbn [mbind option_bind]. rewrite Hctx. cbn [mbind option_bind].
  rewrite Hdat. cbn [mbind option_bind]. eexists. split; [done|].
  destruct (flag_byte_of_flags flags ht Hflags eq_refl h tid dst c (SBytes dat)) as (Hfb & Hr).
  split; [|split; [|split]].
  - destruct Hr as (?&?&?&?&?). by split.
  - unfold canonical. simpl. destruct (ht =? RNS_PACKET_HEADER_2) eqn:E1; [done|].
    by rewrite Hz.
  - cbn [data]. intros [= ->]. simpl in Hl. lia.
  - unfold wire, addresses. rewrite Hfb. cbn -[Z.land]. rewrite <-Haddr, E. done.
Qed.

(** [rns_packet_decode] never reads outside its input; it accepts exactly
    the inputs of at most [RNS_MTU] bytes with a complete header and at least
    one data byte, and what it returns is a well-formed packet whose wire image
    is the input with the interface access bit cleared. *)
Theorem rns_packet_decode_spec raw flags :
  bytes_ok raw -> load raw 0 = Some flags ->
  if decide (context_offset flags + 2 <= length raw /\ length raw <= RNS_MTU)%nat then
    exists p, rns_packet_decode (SBytes raw) = Some p /\ wf p /\ canonical p = p /\
      p.(data) <> SBytes [] /\ Z.land flags 127 :: drop 1 raw = wire p
  else rns_packet_decode (SBytes raw) = None.
Proof. apply decode_sound. Qed.

Lemma decode_read raw : rns_packet_decode raw = mjoin (rns_packet_read raw).
Proof.
  unfold rns_packet_decode, rns_packet_read. destruct raw as [n|raw]; [done|]. destruct (_ <? _)%nat; [done|].
  destruct (load raw 0) as [flags|]; cbn [mbind option_bind]; [|done]. destruct (layout _ _) as [[co off]|]; cbn [mbind option_bind]; [|done].
  destruct (_ =? _)%nat; [done|]. destruct (load raw 1); cbn [mbind option_bind]; [|done].
  destruct (if _ =? RNS_PACKET_HEADER_2 then _ else _) as [[tid at_]|]; cbn [mbind option_bind]; [|done].
  destruct (memread raw at_ 16); cbn [mbind option_bind]; [|done]. destruct (load raw co); cbn [mbind option_bind]; [|done].
  by destruct (memread raw off _).
Qed.

(** Every read of the decoder is inside its input: what it rejects, it rejects by a
    check of the code. *)
Lemma rns_packet_read_defined raw : rns_packet_read raw = Some (rns_packet_decode raw).
Proof.
  enough (is_Some (rns_packet_read raw)) as [o E] by (by rewrite decode_read, E). unfold rns_packet_read.
  destruct raw as [n|raw]; [done|]. destruct (Nat.ltb_spec (length raw) 2) as [|Hl]; [done|].
  destruct (lookup_lt_is_Some_2 raw 0) as [flags Hf]; [lia|]. destruct (lookup_lt_is_Some_2 raw 1) as [h Hh]; [lia|]. unfold load. rewrite Hf.
  cbn [mbind option_bind]. rewrite layout_spec. case_decide as Hd; [|done]. destruct (lookup_lt_is_Some_2 raw (context_offset flags)) as [c Hc]; [lia|].
  destruct (_ =? _)%nat; [done|]. rewrite Hh, Hc. cbn [mbind option_bind]. revert Hd. clear Hc. unfold context_offset. change RNS_PACKET_HEADER_2 with 1.
  destruct (Z.eqb_spec (Z.land (Z.shiftr flags 6) 1) 1) as [->|_]; [|destruct (negb _)]; cbn [Z.eqb negb]; intros Hd;
    repeat (rewrite memread_in by lia; cbn [mbind option_bind]); by eexists.
Qed.

(** *** The packet hash *)

(** [hashable] is filled without overflow. *)
Lemma hashable_copy b body :
  (length body + 1 <= RNS_MTU)%nat ->
  (h ← store (replicate RNS_MTU 0) 0 b; h ← memcpy h 1 body; memread h 0 (length body + 1)) =
  Some (b :: body).
Proof.
  intros Hl.
  destruct (wrote_store RNS_MTU (replicate RNS_MTU 0) [] b) as (m1 & Hm1 & Hw1);
    [apply wrote_nil, length_replicate|unfold RNS_MTU; simpl; lia|].
  destruct (wrote_memcpy _ _ _ body Hw1) as (m2 & Hm2 & Hw2); [simpl; lia|].
  cbn [length app] in Hm1, Hm2. rewrite Hm1. cbn [mbind option_bind]. rewrite Hm2. cbn [mbind option_bind].
  apply wrote_read in Hw2. rewrite length_app in Hw2. rewrite Nat.add_comm. exact Hw2.
Qed.

Lemma hashable_part_wire p :
  wf p -> (length (wire p) <= RNS_MTU)%nat -> hashable_part (SBytes (wire p)) = Some (identity_part p).
Proof.
  intros Hwf Hm. pose proof (flag_byte_fields p Hwf) as (_ & Hht & _ & _ & _ & _ & Hlow).
  pose proof (length_packet_wire p Hwf) as Hl. pose proof (length_addresses p Hwf) as Ha.
  pose proof (layout_wire p Hwf Hm) as Hlay. cbv zeta in Hlay. pose proof (wf_header p Hwf) as Hr.
  unfold hashable_part. rewrite (proj2 (Nat.ltb_ge _ _)) by lia.
  change (load (wire p) 0) with (Some (flag_byte p)). cbn [mbind option_bind].
  rewrite Hlay. cbn [mbind option_bind]. rewrite Hht, Hlow.
  set (so := if negb (header_type p =? 0) then 18%nat else 2%nat).
  set (body := destination_hash p ++ [context p] ++ slice_bytes (data p)).
  assert (exists pre, wire p = pre ++ body ++ [] /\ so = length pre) as (pre & E & Hso).
  { subst so body. rewrite app_nil_r. unfold wire, addresses, RNS_PACKET_HEADER_2.
    destruct (Z.eqb_spec (header_type p) 0) as [E|E]; cbn [negb].
    - rewrite E. by exists [flag_byte p; hops p].
    - replace (header_type p) with 1 by lia. exists ([flag_byte p; hops p] ++ transport_id p).
      rewrite length_app, (wf_transport_id p Hwf). split; [by rewrite <-!app_assoc|done]. }
  assert (length (wire p) - so = length body)%nat as Hn by (rewrite E, Hso, !length_app; simpl; lia).
  rewrite Hn, (memread_at _ pre body [] so (length body)) by done. cbn [mbind option_bind].
  rewrite (hashable_copy _ body); [done|]. 
  assert (2 <= so)%nat by (subst so; case_match; lia). lia.
Qed.

Lemma identity_part_inj p q :
  wf p -> wf q -> identity_part p = identity_part q ->
  p.(destination_type) = q.(destination_type) /\ p.(packet_type) = q.(packet_type) /\
  p.(destination_hash) = q.(destination_hash) /\ p.(context) = q.(context) /\
  slice_bytes p.(data) = slice_bytes q.(data).
Proof.
  intros Hp Hq. unfold identity_part. cbn [app]. intros [= Ef E].
  apply app_inj_1 in E as [Ed E]; [|by rewrite (wf_destination p Hp), (wf_destination q Hq)].
  injection E as Ec E.
  pose proof (flag_byte_fields p Hp) as (_&_&_&_&Hdp&Htp&Hlp).
  pose proof (flag_byte_fields q Hq) as (_&_&_&_&Hdq&Htq&Hlq).
  split_and!; try done.
  - rewrite <-Hdp, <-Hdq. rewrite <-Hlp, <-Hlq in Ef. apply Z.bits_inj'. intros n Hn.
    change 3 with (Z.ones 2). apply (f_equal (λ z, Z.testbit z (n + 2))) in Ef.
    rewrite !Z.land_spec, !Z.testbit_ones_nonneg, !Z.shiftr_spec by lia.
    change 0x0f with (Z.ones 4) in Ef. rewrite !Z.land_spec, !Z.testbit_ones_nonneg in Ef by lia.
    destruct (Z.ltb_spec n 2); [|by rewrite !andb_false_r].
    rewrite !(proj2 (Z.ltb_lt (n + 2) 4)), !andb_true_r in Ef by lia. by rewrite Ef.
  - rewrite <-Htp, <-Htq. rewrite <-Hlp, <-Hlq in Ef.
    assert (forall f, Z.land f 3 = Z.land (Z.land f 0x0f) 3) as H3 by (intros; by rewrite <-Z.land_assoc).
    by rewrite H3, Ef, <-H3.
Qed.

(** The packet hash is computed over the destination type, packet type,
    destination, context and data, and nothing else: on packets that fit the
    MTU the hashed bytes agree exactly when those fields do, so a forwarded
    packet (other hop count, header type, transport identifier, flags) keeps its
    hash and two packets that differ in an end-to-end field are hashed from
    different bytes. *)
Theorem rns_packet_hash_invariant `{Crypto} p q :
  wf p -> wf q -> (length (wire p) <= RNS_MTU)%nat -> (length (wire q) <= RNS_MTU)%nat ->
  exists hp hq, rns_packet_hash (SBytes (wire p)) = rns_sha256 hp /\
    rns_packet_hash (SBytes (wire q)) = rns_sha256 hq /\
    (hp = hq <-> p.(destination_type) = q.(destination_type) /\ p.(packet_type) = q.(packet_type) /\
      p.(destination_hash) = q.(destination_hash) /\ p.(context) = q.(context) /\
      slice_bytes p.(data) = slice_bytes q.(data)).
Proof.
  intros Hp Hq Hlp Hlq. exists (identity_part p), (identity_part q).
  unfold rns_packet_hash.
  rewrite !hashable_part_wire by done. split_and!; [done..|]. split; [by apply identity_part_inj|].
  unfold identity_part. by intros (-> & -> & -> & -> & ->).
Qed.

(** ** Received bytes *)

(** A decoded input is the packet's wire image up to the interface access bit. *)
Lemma decode_raw raw p :
  bytes_ok raw -> rns_packet_decode (SBytes raw) = Some p ->
  exists f, raw = f :: drop 1 (wire p) /\ Z.land f 127 = flag_byte p /\ wf p /\ canonical p = p /\
    slice_bytes p.(data) <> [] /\ (length raw <= RNS_MTU)%nat /\ length raw = length (wire p).
Proof.
  intros Hb Hd. destruct raw as [|f r]; [done|].
  pose proof (decode_sound (f :: r) f Hb eq_refl) as Hs. case_decide as Hl; [|congruence].
  destruct Hs as (p' & Hp & Hwf & Hc & Hne & E). rewrite Hp in Hd. injection Hd as ->.
  exists f. rewrite <-E. cbn [drop] in *. split_and!; try done.
  - unfold wire in E. cbn [app] in E. by injection E.
  - rewrite <-Hc in Hne. simpl in Hne. intros En. by rewrite En in Hne.
  - lia.
Qed.

Lemma flags_access_bit f : Z.land (Z.shiftr f 6) 1 = Z.land (Z.shiftr (Z.land f 127) 6) 1 /\
  Z.land f 15 = Z.land (Z.land f 127) 15.
Proof.
  split; [|by rewrite <-Z.land_assoc].
  rewrite Z.shiftr_land, <-Z.land_assoc. done.
Qed.

(** The hash of an input is the hash of its packet. *)
Lemma hashable_part_raw raw p :
  bytes_ok raw -> rns_packet_decode (SBytes raw) = Some p -> hashable_part (SBytes raw) = Some (identity_part p).
Proof.
  intros Hb Hd. destruct (decode_raw raw p Hb Hd) as (f & E & Hf & Hwf & _ & _ & Hm & Hl).
  rewrite Hl in Hm. pose proof (hashable_part_wire p Hwf Hm) as Hh. rewrite <-Hh, E.
  destruct (flags_access_bit f) as [H6 H15]. rewrite Hf in H6, H15.
  unfold hashable_part, layout, wire. cbn [app drop load lookup list_lookup length mbind option_bind].
  rewrite H6, H15. by destruct (negb (Z.land (Z.shiftr (flag_byte p) 6) 1 =? 0)).
Qed.

(** ** A concrete packet *)
Definition sample : rns_packet :=
  {| header_type := 1; context_flag := 0; transport_type := 1; destination_type := 0; packet_type := 1;
     hops := 3; transport_id := replicate 16 7; destination_hash := replicate 16 9; context := 0;
     data := SBytes [1; 2; 3] |}.

Lemma sample_packet_wf : wf sample.
Proof. by split; vm_compute. Qed.

(** The same packet as it reaches the next hop without transport header. *)
Definition sample_forwarded : rns_packet :=
  let s := sample in {| s with header_type := 0; hops := 4; transport_type := 0 |}.

Lemma sample_forwarded_wf : wf sample_forwarded.
Proof. by split; vm_compute. Qed.

Lemma rns_packet_encode_spec_witness :
  exists o', rns_packet_encode sample (Some (replicate 100 0)) 100 (Some 0%nat)
    = Some (true, Some o', Some 38%nat).
Proof.
  destruct (rns_packet_encode_spec sample (replicate 100 0) 100 0 sample_packet_wf (le_n _)) as (o' & E & _).
  exists o'. exact E.
Defined.

Lemma rns_packet_roundtrip_witness :
  rns_packet_decode (SBytes (wire sample)) = Some (canonical sample).
Proof.
  apply (rns_packet_roundtrip sample sample_packet_wf); [vm_compute; discriminate|vm_compute; lia].
Defined.

Lemma rns_packet_decode_spec_witness : is_Some (rns_packet_decode (SBytes (wire sample))).
Proof.
  destruct (rns_packet_decode_spec (wire sample) (flag_byte sample)) as (p & E & _);
    [by apply (bool_decide_unpack _); vm_compute|reflexivity|]. by exists p.
Defined.

Lemma rns_packet_hash_invariant_witness :
  rns_packet_hash (SBytes (wire sample)) = rns_packet_hash (SBytes (wire sample_forwarded)).
Proof.
  destruct (rns_packet_hash_invariant sample sample_forwarded sample_packet_wf sample_forwarded_wf)
    as (hp & hq & -> & -> & Hiff); [vm_compute; lia..|].
  f_equal. apply Hiff. by vm_compute.
Defined.

End Packet.
