(* ===== verification/Channel.v ===== *)
(** * Reliable channels

    Models [src/link/channel.c] and [include/reticulum/channel.h]: the envelope
    codec, the sending side with its window, retries and timeouts, and the
    receiving side that reorders envelopes into the sequence they were sent in.

    The callbacks of [rns_channel_config_t] act on an environment [E] of their
    own (their context pointers) and do not touch the channel object. A null
    callback is [None]; calling one has no result. *)

From Stdlib Require Import ZArith Lia.
From S2P Require Import Prelude Platform.

Module Channel.

Definition RNS_CHANNEL_HEADER_BYTES : nat := 6.
Definition RNS_CHANNEL_MAX_ENVELOPE_BYTES : nat := 500.
Definition RNS_CHANNEL_MAX_PAYLOAD_BYTES : nat :=
  RNS_CHANNEL_MAX_ENVELOPE_BYTES - RNS_CHANNEL_HEADER_BYTES.
Definition RNS_CHANNEL_MAX_WINDOW : nat := 32.

(** ** Envelopes *)

Definition read_u16 (m : list Z) (i : nat) : option Z :=
  a ← load m i; b ← load m (i + 1);
  Some (wrap16 (Z.lor (Z.shiftl a 8) b)).

Definition write_u16 (m : list Z) (i : nat) (value : Z) : option (list Z) :=
  m ← store m i (wrap8 (Z.shiftr value 8)); store m (i + 1) (wrap8 value).

(** [(int16_t)(left - right) < 0] *)
Definition sequence_before (left right : Z) : bool := swrap 16 (left - right) <? 0.

Definition sequence_distance (sequence base : Z) : Z := wrap16 (sequence - base).

Definition rns_channel_envelope_encode (message_type sequence : Z) (payload : slice)
    (output : option (list Z)) (capacity : nat) (output_length : option nat)
    : option (rns_status * option (list Z) * option nat) :=
  let total := (RNS_CHANNEL_HEADER_BYTES + slice_length payload)%nat in
  match output, output_length with
  | Some o, Some _ =>
      if slice_bad payload then Some (RNS_ERROR_INVALID_ARGUMENT, output, output_length)
      else if (RNS_CHANNEL_MAX_PAYLOAD_BYTES <? slice_length payload)%nat || (capacity <? total)%nat
      then Some (RNS_ERROR_OVERFLOW, output, output_length)
      else
        o ← write_u16 o 0 message_type;
        o ← write_u16 o 2 sequence;
        o ← write_u16 o 4 (wrap16 (Z.of_nat (slice_length payload)));
        o ← (if negb (slice_length payload =? 0)%nat
             then memcpy o RNS_CHANNEL_HEADER_BYTES (slice_bytes payload) else Some o);
        Some (RNS_OK, Some o, Some total)
  | _, _ => Some (RNS_ERROR_INVALID_ARGUMENT, output, output_length)
  end.

(** The message type, sequence and payload, or the error; the four output
    pointers are given. *)
Definition rns_channel_envelope_decode (envelope : slice)
    : option (rns_status + Z * Z * list Z) :=
  match envelope with
  | SNull _ => Some (inl RNS_ERROR_INVALID_ARGUMENT)
  | SBytes e =>
      if (length e <? RNS_CHANNEL_HEADER_BYTES)%nat ||
         (RNS_CHANNEL_MAX_ENVELOPE_BYTES <? length e)%nat
      then Some (inl RNS_ERROR_PROTOCOL)
      else
        declared ← read_u16 e 4;
        if negb (declared =? Z.of_nat (length e - RNS_CHANNEL_HEADER_BYTES))
        then Some (inl RNS_ERROR_PROTOCOL)
        else
          message_type ← read_u16 e 0;
          sequence ← read_u16 e 2;
          payload ← memread e RNS_CHANNEL_HEADER_BYTES (Z.to_nat declared);
          Some (inr (message_type, sequence, payload))
  end.

(** ** State *)

Inductive rns_channel_event : Type :=
| RNS_CHANNEL_EVENT_DELIVERED
| RNS_CHANNEL_EVENT_RETRY
| RNS_CHANNEL_EVENT_TIMEOUT
| RNS_CHANNEL_EVENT_DUPLICATE
| RNS_CHANNEL_EVENT_OUT_OF_ORDER.

#[global] Instance rns_channel_event_eq_dec : EqDecision rns_channel_event.
Proof. solve_decision. Defined.

Record rns_channel_config (E : Type) : Type := {
  initial_window : Z;
  max_window : Z;
  max_retries : Z;
  retry_timeout : double;
  clock : option (E -> double * E);
  send : option (list Z -> E -> rns_status * E);
  receive_fn : option (Z -> Z -> list Z -> E -> rns_status * E);
  event_fn : option (rns_channel_event -> Z -> E -> E)
}.
Arguments initial_window {E}. Arguments max_window {E}. Arguments max_retries {E}.
Arguments retry_timeout {E}. Arguments clock {E}. Arguments send {E}.
Arguments receive_fn {E}. Arguments event_fn {E}.

Record rns_channel_slot : Type := {
  used : bool;
  retries : Z;
  sequence : Z;
  slot_length : Z;
  deadline : double;
  envelope : list Z
}.

(** A slot after [memset(slot, 0, sizeof *slot)]. *)
Definition zero_slot : rns_channel_slot :=
  {| used := false; retries := 0; sequence := 0; slot_length := 0; deadline := dzero;
     envelope := replicate RNS_CHANNEL_MAX_ENVELOPE_BYTES 0 |}.

Record rns_channel (E : Type) : Type := {
  config : rns_channel_config E;
  next_sequence : Z;
  expected_sequence : Z;
  window : Z;
  success_count : Z;
  outstanding : Z;
  transmit : list rns_channel_slot;
  receive : list rns_channel_slot
}.
Arguments config {E}. Arguments next_sequence {E}. Arguments expected_sequence {E}.
Arguments window {E}. Arguments success_count {E}. Arguments outstanding {E}.
Arguments transmit {E}. Arguments receive {E}.

(** ** Operations *)
Section Operations.
Context {E : Type}.
Implicit Types (ch : rns_channel E) (e : E).

Definition event ch (kind : rns_channel_event) (seq : Z) (e : E) : E :=
  match ch.(config).(event_fn) with Some f => f kind seq e | None => e end.

Definition rns_channel_init (cfg : rns_channel_config E) : rns_status + rns_channel E :=
  if match cfg.(clock), cfg.(send), cfg.(receive_fn) with Some _, Some _, Some _ => false | _, _, _ => true end
     || (cfg.(initial_window) =? 0) || (cfg.(max_window) <? cfg.(initial_window))
     || (Z.of_nat RNS_CHANNEL_MAX_WINDOW <? cfg.(max_window)) || (cfg.(retry_timeout) <=.? dzero)
  then inl RNS_ERROR_INVALID_ARGUMENT
  else inr {| config := cfg; next_sequence := 0; expected_sequence := 0;
              window := cfg.(initial_window); success_count := 0; outstanding := 0;
              transmit := replicate RNS_CHANNEL_MAX_WINDOW zero_slot;
              receive := replicate RNS_CHANNEL_MAX_WINDOW zero_slot |}.

(** The first slot that satisfies a test. *)
Fixpoint find_slot (test : rns_channel_slot -> bool) (slots : list rns_channel_slot) : option nat :=
  match slots with
  | [] => None
  | s :: rest => if test s then Some 0%nat else S <$> find_slot test rest
  end.

Definition set_transmit ch (i : nat) (s : rns_channel_slot) : rns_channel E :=
  {| ch with transmit := <[i := s]> ch.(transmit) |}.

Definition set_receive ch (i : nat) (s : rns_channel_slot) : rns_channel E :=
  {| ch with receive := <[i := s]> ch.(receive) |}.

(** The status, the channel, the value behind [sequence] and the environment. *)
Definition rns_channel_send ch (message_type : Z) (payload : slice) (seq_out : option Z) (e : E)
    : option (rns_status * rns_channel E * option Z * E) :=
  match seq_out with
  | None => Some (RNS_ERROR_INVALID_ARGUMENT, ch, seq_out, e)
  | Some _ =>
      if slice_bad payload then Some (RNS_ERROR_INVALID_ARGUMENT, ch, seq_out, e)
      else if ch.(window) <=? ch.(outstanding) then Some (RNS_ERROR_OVERFLOW, ch, seq_out, e)
      else
        match find_slot (λ s, negb s.(used)) ch.(transmit) with
        | None => Some (RNS_ERROR_OVERFLOW, ch, seq_out, e)
        | Some i =>
            slot ← ch.(transmit) !! i;
            r ← rns_channel_envelope_encode message_type ch.(next_sequence) payload
                  (Some slot.(envelope)) (length slot.(envelope)) (Some 0%nat);
            match r with
            | (RNS_OK, Some envl, Some encoded_length) =>
                send_callback ← ch.(config).(send);
                sent ← memread envl 0 encoded_length;
                let '(status, e) := send_callback sent e in
                if negb (is_ok status) then Some (status, set_transmit ch i zero_slot, seq_out, e)
                else
                  clock_callback ← ch.(config).(clock);
                  let '(now, e) := clock_callback e in
                  let slot := {| slot with used := true; sequence := ch.(next_sequence);
                                 slot_length := wrap16 (Z.of_nat encoded_length);
                                 deadline := dadd now ch.(config).(retry_timeout);
                                 envelope := envl |} in
                  let seq := ch.(next_sequence) in
                  let ch := set_transmit ch i slot in
                  let ch := {| ch with next_sequence := wrap16 (ch.(next_sequence) + 1);
                               outstanding := wrap64 (ch.(outstanding) + 1) |} in
                  Some (RNS_OK, ch, Some seq, e)
            | (status, _, _) => Some (status, ch, seq_out, e)
            end
        end
  end.

Definition rns_channel_mark_delivered ch (seq : Z) (e : E) : rns_status * rns_channel E * E :=
  match find_slot (λ s, s.(used) && (s.(sequence) =? seq)) ch.(transmit) with
  | None => (RNS_ERROR_NOT_FOUND, ch, e)
  | Some i =>
      let ch := set_transmit ch i zero_slot in
      let ch := {| ch with outstanding := wrap64 (ch.(outstanding) - 1);
                   success_count := wrap8 (ch.(success_count) + 1) |} in
      let ch := if (ch.(window) <=? ch.(success_count)) && (ch.(window) <? ch.(config).(max_window))
                then {| ch with window := wrap8 (ch.(window) + 1); success_count := 0 |} else ch in
      (RNS_OK, ch, event ch RNS_CHANNEL_EVENT_DELIVERED seq e)
  end.

(** The body of the loop of [drain_receive]: [inl] is a [return], [inr] the
    next iteration. *)
Definition drain_step ch (e : E) : option (rns_status * rns_channel E * E + rns_channel E * E) :=
  match find_slot (λ s, s.(used) && (s.(sequence) =? ch.(expected_sequence))) ch.(receive) with
  | None => Some (inl (RNS_OK, ch, e))
  | Some i =>
      found ← ch.(receive) !! i;
      bytes ← memread found.(envelope) 0 (Z.to_nat found.(slot_length));
      r ← rns_channel_envelope_decode (SBytes bytes);
      match r with
      | inl status => Some (inl (status, ch, e))
      | inr (message_type, seq, payload) =>
          receive_callback ← ch.(config).(receive_fn);
          let '(status, e) := receive_callback message_type seq payload e in
          if negb (is_ok status) then Some (inl (status, ch, e))
          else
            let ch := set_receive ch i zero_slot in
            let ch := {| ch with expected_sequence := wrap16 (ch.(expected_sequence) + 1) |} in
            Some (inr (ch, e))
      end
  end.

Fixpoint drain_loop (fuel : nat) ch (e : E) : option (rns_status * rns_channel E * E) :=
  match fuel with
  | O => None
  | S fuel =>
      r ← drain_step ch e;
      match r with
      | inl result => Some result
      | inr (ch, e) => drain_loop fuel ch e
      end
  end.

(** Every iteration but the last frees a slot, so the loop runs at most once
    more than there are slots. *)
Definition drain_receive ch (e : E) : option (rns_status * rns_channel E * E) :=
  drain_loop (S RNS_CHANNEL_MAX_WINDOW) ch e.

(** The slot search of [rns_channel_receive]: [inl] when the sequence is
    already stored, otherwise the first free slot. *)
Fixpoint receive_scan (seq : Z) (i : nat) (slot : option nat) (slots : list rns_channel_slot)
    : unit + option nat :=
  match slots with
  | [] => inr slot
  | s :: rest =>
      if s.(used) && (s.(sequence) =? seq) then inl ()
      else receive_scan seq (S i)
             (match slot with None => if negb s.(used) then Some i else None | Some _ => slot end) rest
  end.

Definition rns_channel_receive ch (envl : slice) (e : E) : option (rns_status * rns_channel E * E) :=
  r ← rns_channel_envelope_decode envl;
  match r with
  | inl status => Some (status, ch, e)
  | inr (_, seq, _) =>
      if sequence_before seq ch.(expected_sequence)
      then Some (RNS_OK, ch, event ch RNS_CHANNEL_EVENT_DUPLICATE seq e)
      else
        let distance := sequence_distance seq ch.(expected_sequence) in
        if ch.(config).(max_window) <=? distance then Some (RNS_ERROR_PROTOCOL, ch, e)
        else
          match receive_scan seq 0 None ch.(receive) with
          | inl () => Some (RNS_OK, ch, event ch RNS_CHANNEL_EVENT_DUPLICATE seq e)
          | inr None => Some (RNS_ERROR_OVERFLOW, ch, e)
          | inr (Some i) =>
              slot ← ch.(receive) !! i;
              stored ← memcpy slot.(envelope) 0 (slice_bytes envl);
              let slot := {| slot with used := true; sequence := seq;
                             slot_length := wrap16 (Z.of_nat (slice_length envl)); envelope := stored |} in
              let ch := set_receive ch i slot in
              let e := if negb (distance =? 0) then event ch RNS_CHANNEL_EVENT_OUT_OF_ORDER seq e else e in
              drain_receive ch e
          end
  end.

(** One slot of [rns_channel_tick]: the channel, the environment, and whether
    an action is counted. *)
Definition tick_slot ch (now : double) (i : nat) (e : E) : option (rns_channel E * E * nat) :=
  slot ← ch.(transmit) !! i;
  if negb slot.(used) || (now <.? slot.(deadline)) then Some (ch, e, 0%nat)
  else if ch.(config).(max_retries) <=? slot.(retries) then
    let seq := slot.(sequence) in
    let ch := set_transmit ch i zero_slot in
    let ch := {| ch with outstanding := wrap64 (ch.(outstanding) - 1);
                 window := if 1 <? ch.(window) then wrap8 (ch.(window) / 2) else 1 |} in
    let ch := if ch.(config).(max_window) <? ch.(window)
              then {| ch with window := ch.(config).(max_window) |} else ch in
    let ch := {| ch with success_count := 0 |} in
    Some (ch, event ch RNS_CHANNEL_EVENT_TIMEOUT seq e, 1%nat)
  else
    send_callback ← ch.(config).(send);
    sent ← memread slot.(envelope) 0 (Z.to_nat slot.(slot_length));
    let '(status, e) := send_callback sent e in
    if is_ok status then
      let slot := {| slot with retries := wrap8 (slot.(retries) + 1);
                     deadline := dadd now ch.(config).(retry_timeout) |} in
      let ch := set_transmit ch i slot in
      Some (ch, event ch RNS_CHANNEL_EVENT_RETRY slot.(sequence) e, 1%nat)
    else
      let slot := {| slot with deadline := dadd now ch.(config).(retry_timeout) |} in
      Some (set_transmit ch i slot, e, 0%nat).

Fixpoint tick_loop ch (now : double) (indices : list nat) (actions : nat) (e : E)
    : option (nat * rns_channel E * E) :=
  match indices with
  | [] => Some (actions, ch, e)
  | i :: rest =>
      r ← tick_slot ch now i e;
      let '(ch, e, n) := r in
      tick_loop ch now rest (actions + n) e
  end.

Definition rns_channel_tick ch (e : E) : option (nat * rns_channel E * E) :=
  match ch.(config).(clock) with
  | None => Some (0%nat, ch, e)
  | Some clock_callback =>
      let '(now, e) := clock_callback e in
      tick_loop ch now (seq 0 RNS_CHANNEL_MAX_WINDOW) 0 e
  end.

End Operations.

(** ** The envelope codec *)

Definition envelope_bytes (message_type seq : Z) (payload : list Z) : list Z :=
  be_encode 2 message_type ++ be_encode 2 seq ++ be_encode 2 (Z.of_nat (length payload)) ++ payload.

Lemma length_envelope_bytes mt sq p : length (envelope_bytes mt sq p) = (6 + length p)%nat.
Proof. unfold envelope_bytes. rewrite !length_app, !length_be_encode. lia. Qed.

Lemma write_u16_spec n m w v :
  wrote n m w -> (length w + 2 <= n)%nat ->
  exists m', write_u16 m (length w) v = Some m' /\ wrote n m' (w ++ be_encode 2 v).
Proof.
  intros Hw Hn. destruct (wrote_store2 n m w (wrap8 (Z.shiftr v 8)) (wrap8 v) Hw Hn)
    as (m1 & m2 & Hm1 & Hm2 & Hw2).
  exists m2. unfold write_u16. rewrite Hm1. split; [done|].
  unfold wrap in Hw2. rewrite Z.shiftr_div_pow2 in Hw2 by lia. exact Hw2.
Qed.

Lemma read_u16_spec m a v c i :
  in_width 16 v -> m = a ++ be_encode 2 v ++ c -> i = length a -> read_u16 m i = Some v.
Proof.
  intros Hv -> ->. unfold read_u16, load.
  rewrite (lookup_app_r a _ (length a)), (lookup_app_r a _ (length a + 1)) by lia.
  rewrite Nat.sub_diag. replace (length a + 1 - length a)%nat with 1%nat by lia.
  simpl. f_equal. rewrite lor_shiftl_add; [|lia|by apply Z.mod_pos_bound].
  unfold in_width in Hv. rewrite wrap_small; unfold in_width.
  - rewrite (Z.mod_small (v / 256)); [pose proof (Z.div_mod v 256); lia|].
    split; [apply Z.div_pos; lia|apply Z.div_lt_upper_bound; lia].
  - pose proof (Z.mod_pos_bound (v / 256) 256). pose proof (Z.mod_pos_bound v 256). lia.
Qed.

Lemma envelope_encode_spec mt sq payload o capacity n0 :
  (capacity <= length o)%nat -> slice_bad payload = false ->
  let w := envelope_bytes mt sq (slice_bytes payload) in
  if decide (length w <= RNS_CHANNEL_MAX_ENVELOPE_BYTES /\ length w <= capacity)%nat then
    exists o', rns_channel_envelope_encode mt sq payload (Some o) capacity (Some n0)
        = Some (RNS_OK, Some o', Some (length w)) /\ wrote (length o) o' w
  else rns_channel_envelope_encode mt sq payload (Some o) capacity (Some n0)
        = Some (RNS_ERROR_OVERFLOW, Some o, Some n0).
Proof.
  intros Hcap Hs w. pose proof (length_envelope_bytes mt sq (slice_bytes payload)) as Hl. fold w in Hl.
  unfold rns_channel_envelope_encode. rewrite Hs, (slice_bad_length _ Hs).
  unfold RNS_CHANNEL_MAX_PAYLOAD_BYTES, RNS_CHANNEL_HEADER_BYTES. cbv zeta. rewrite <-Hl.
  unfold RNS_CHANNEL_MAX_ENVELOPE_BYTES. case_decide as Hd.
  2:{ destruct (Nat.ltb_spec (500 - 6) (length (slice_bytes payload))); [done|].
      destruct (Nat.ltb_spec capacity (length w)); [done|]. lia. }
  rewrite !(proj2 (Nat.ltb_ge _ _)) by lia. cbn [orb].
  rewrite wrap_small by (unfold in_width; lia).
  destruct (write_u16_spec (length o) o [] mt) as (o1 & Ho1 & Hw1); [by apply wrote_nil|simpl; lia|].
  simpl in Ho1. rewrite Ho1. cbn [mbind option_bind].
  destruct (write_u16_spec _ _ _ sq Hw1) as (o2 & Ho2 & Hw2); [rewrite length_app, length_be_encode; simpl; lia|].
  rewrite length_app, length_be_encode in Ho2. simpl in Ho2. rewrite Ho2. cbn [mbind option_bind].
  destruct (write_u16_spec _ _ _ (Z.of_nat (length (slice_bytes payload))) Hw2) as (o3 & Ho3 & Hw3);
    [rewrite !length_app, !length_be_encode; simpl; lia|].
  rewrite !length_app, !length_be_encode in Ho3. simpl in Ho3. rewrite Ho3. cbn [mbind option_bind].
  destruct (wrote_memcpy _ _ _ (slice_bytes payload) Hw3) as (o4 & Ho4 & Hw4);
    [rewrite !length_app, !length_be_encode; simpl; lia|].
  rewrite !length_app, !length_be_encode in Ho4. cbn [length Nat.add] in Ho4.
  rewrite <-!app_assoc in Hw3, Hw4. cbn [app] in Hw3, Hw4.
  destruct (Nat.eqb_spec (length (slice_bytes payload)) 0) as [Z0|Z0]; cbn [negb].
  - cbn [mbind option_bind]. eexists. split; [done|]. apply length_zero_iff_nil in Z0.
    subst w. unfold envelope_bytes. rewrite Z0, app_nil_r in *. done.
  - rewrite Ho4. cbn [mbind option_bind]. eexists. split; [done|]. exact Hw4.
Qed.

(** [rns_channel_envelope_encode] writes within its output on every input:
    given both outputs and a consistent payload it reports an overflow exactly
    when the payload is above the maximum or the envelope above the capacity,
    leaving the output untouched, and otherwise writes the three big-endian
    fields followed by the payload. *)
Theorem rns_channel_envelope_encode_spec mt sq payload o capacity n0 :
  (capacity <= length o)%nat -> slice_bad payload = false ->
  let w := envelope_bytes mt sq (slice_bytes payload) in
  if decide (length w <= RNS_CHANNEL_MAX_ENVELOPE_BYTES /\ length w <= capacity)%nat then
    exists o', rns_channel_envelope_encode mt sq payload (Some o) capacity (Some n0)
        = Some (RNS_OK, Some o', Some (length w)) /\ wrote (length o) o' w
  else rns_channel_envelope_encode mt sq payload (Some o) capacity (Some n0)
        = Some (RNS_ERROR_OVERFLOW, Some o, Some n0).
Proof. apply envelope_encode_spec. Qed.

Lemma decode_envelope_bytes mt sq p :
  in_width 16 mt -> in_width 16 sq -> (length p <= RNS_CHANNEL_MAX_PAYLOAD_BYTES)%nat ->
  rns_channel_envelope_decode (SBytes (envelope_bytes mt sq p)) = Some (inr (mt, sq, p)).
Proof.
  intros Hm Hs Hp. pose proof (length_envelope_bytes mt sq p) as Hl.
  unfold RNS_CHANNEL_MAX_PAYLOAD_BYTES, RNS_CHANNEL_MAX_ENVELOPE_BYTES, RNS_CHANNEL_HEADER_BYTES in Hp.
  unfold rns_channel_envelope_decode, RNS_CHANNEL_HEADER_BYTES, RNS_CHANNEL_MAX_ENVELOPE_BYTES.
  rewrite !(proj2 (Nat.ltb_ge _ _)) by lia. cbn [orb].
  rewrite (read_u16_spec _ (be_encode 2 mt ++ be_encode 2 sq) (Z.of_nat (length p)) p 4)
    by (done || (unfold in_width; lia) || (unfold envelope_bytes; by rewrite <-app_assoc)).
  cbn [mbind option_bind]. rewrite Hl.
  replace (6 + length p - 6)%nat with (length p) by lia. rewrite Z.eqb_refl. cbn [negb].
  rewrite (read_u16_spec _ [] mt (be_encode 2 sq ++ be_encode 2 (Z.of_nat (length p)) ++ p) 0) by done.
  cbn [mbind option_bind].
  rewrite (read_u16_spec _ (be_encode 2 mt) sq (be_encode 2 (Z.of_nat (length p)) ++ p) 2) by done.
  cbn [mbind option_bind]. rewrite Nat2Z.id. unfold memread. rewrite decide_True by lia.
  cbn [mbind option_bind]. repeat f_equal. unfold envelope_bytes. rewrite !app_assoc.
  rewrite drop_app_length' by (by rewrite !length_app, !length_be_encode). by rewrite take_ge.
Qed.

Lemma bytes_ok_pair x y : is_byte x -> is_byte y -> bytes_ok [x; y].
Proof. auto using Forall_cons_2, Forall_nil_2. Qed.

Lemma be_encode_pair x y : is_byte x -> is_byte y -> be_encode 2 (be_decode [x; y]) = [x; y].
Proof. intros. by apply (be_encode_decode [x; y]), bytes_ok_pair. Qed.

Lemma decode_envelope_total e :
  bytes_ok e ->
  rns_channel_envelope_decode (SBytes e) = Some (inl RNS_ERROR_PROTOCOL) \/
  exists mt sq p, rns_channel_envelope_decode (SBytes e) = Some (inr (mt, sq, p)) /\
    in_width 16 mt /\ in_width 16 sq /\ (length p <= RNS_CHANNEL_MAX_PAYLOAD_BYTES)%nat /\
    e = envelope_bytes mt sq p.
Proof.
  intros Hb. destruct (decide (6 <= length e <= 500)%nat) as [Hl|Hl].
  2:{ left. unfold rns_channel_envelope_decode, RNS_CHANNEL_HEADER_BYTES, RNS_CHANNEL_MAX_ENVELOPE_BYTES.
      destruct (Nat.ltb_spec (length e) 6); [done|]. destruct (Nat.ltb_spec 500 (length e)); [done|lia]. }
  destruct e as [|b0 [|b1 [|b2 [|b3 [|b4 [|b5 p]]]]]]; try (simpl in Hl; lia).
  assert (forall x y, is_byte x -> is_byte y -> in_width 16 (be_decode [x; y])) as Hw16.
  { intros x y Hx Hy. pose proof (be_decode_bounds [x; y]) as H. unfold in_width. apply H. by apply bytes_ok_pair. }
  repeat match goal with H : bytes_ok (_ :: _) |- _ => apply Forall_cons_1 in H as [? H] end.
  set (mt := be_decode [b0; b1]). set (sq := be_decode [b2; b3]). set (n := be_decode [b4; b5]).
  assert (b0 :: b1 :: b2 :: b3 :: b4 :: b5 :: p = be_encode 2 mt ++ be_encode 2 sq ++ be_encode 2 n ++ p) as E.
  { subst mt sq n. by rewrite !be_encode_pair. }
  destruct (decide (n = Z.of_nat (length p))) as [En|En].
  - right. exists mt, sq, p. rewrite En in E. rewrite E. fold (envelope_bytes mt sq p).
    assert (length p <= RNS_CHANNEL_MAX_PAYLOAD_BYTES)%nat
      by (simpl in Hl; unfold RNS_CHANNEL_MAX_PAYLOAD_BYTES, RNS_CHANNEL_MAX_ENVELOPE_BYTES,
          RNS_CHANNEL_HEADER_BYTES; lia).
    assert (in_width 16 mt /\ in_width 16 sq) as [] by (split; by apply Hw16).
    by rewrite decode_envelope_bytes.
  - left. unfold rns_channel_envelope_decode, RNS_CHANNEL_HEADER_BYTES, RNS_CHANNEL_MAX_ENVELOPE_BYTES.
    rewrite !(proj2 (Nat.ltb_ge _ _)) by lia. cbn [orb].
    rewrite (read_u16_spec _ (be_encode 2 mt ++ be_encode 2 sq) n p 4); [|by apply Hw16| |done].
    2:{ rewrite E. by rewrite <-!app_assoc. }
    cbn [mbind option_bind length]. rewrite (proj2 (Z.eqb_neq _ _)); [done|].
    intros ->. apply En. f_equal. lia.
Qed.

(** ** Slots *)

Lemma find_slot_Some f l i :
  find_slot f l = Some i -> exists s, l !! i = Some s /\ f s = true.
Proof.
  revert i. induction l as [|s l IH]; intros i; simpl; [done|].
  destruct (f s) eqn:Hf; [intros [= <-]; eauto|].
  destruct (find_slot f l) as [j|]; simpl; [|done]. intros [= <-]. by apply IH.
Qed.

Lemma find_slot_None f l i s : find_slot f l = None -> l !! i = Some s -> f s = false.
Proof.
  revert i. induction l as [|t l IH]; intros i; simpl; [done|].
  destruct (f t) eqn:Hf; [done|]. destruct (find_slot f l) as [j|]; simpl; [done|].
  intros _ Hi. destruct i as [|i]; simpl in Hi; [by simplify_eq|]. by apply (IH i).
Qed.

Definition count_used (l : list rns_channel_slot) : Z :=
  Z.of_nat (length (filter (λ s, used s = true) l)).

Lemma count_used_insert l i s t :
  l !! i = Some s ->
  count_used (<[i := t]> l) =
    count_used l + (if t.(used) then 1 else 0) - (if s.(used) then 1 else 0).
Proof.
  intros Hi. unfold count_used. rewrite (insert_take_drop _ _ _ (lookup_lt_Some _ _ _ Hi)).
  rewrite <-(take_drop_middle l i s Hi) at 3.
  rewrite !list.filter_app, !list.filter_cons, !length_app.
  destruct (used t), (used s); simpl; lia.
Qed.

Lemma filter_all (l : list rns_channel_slot) : (forall (i : nat) s, l !! i = Some s -> used s = true) -> filter (λ s, used s = true) l = l.
Proof.
  induction l as [|s l IH]; intros Hl; [done|]. rewrite list.filter_cons_True by (by apply (Hl 0%nat)).
  f_equal. apply IH. intros i t Hi. by apply (Hl (S i)).
Qed.

Lemma count_used_bounds l : 0 <= count_used l <= Z.of_nat (length l).
Proof. unfold count_used. pose proof (list.length_filter (λ s, used s = true) l). lia. Qed.

Lemma receive_scan_inl sq i slot l :
  receive_scan sq i slot l = inl () ->
  exists j s, l !! j = Some s /\ s.(used) = true /\ s.(sequence) = sq.
Proof.
  revert i slot. induction l as [|s l IH]; intros i slot; simpl; [done|].
  destruct (used s && (sequence s =? sq)) eqn:Hs.
  - intros _. apply andb_true_iff in Hs as [Hu Hs]. apply Z.eqb_eq in Hs. by exists 0%nat, s.
  - intros H. apply IH in H as (j & t & ?). by exists (S j), t.
Qed.

Lemma receive_scan_inr sq i slot l r :
  receive_scan sq i slot l = inr r ->
  (forall j s, l !! j = Some s -> s.(used) = true -> s.(sequence) <> sq) /\
  (match slot with
   | Some k => r = Some k
   | None => match r with
             | Some k => exists j s, k = (i + j)%nat /\ l !! j = Some s /\ s.(used) = false
             | None => forall j s, l !! j = Some s -> s.(used) = true
             end
   end).
Proof.
  revert i slot. induction l as [|s l IH]; intros i slot; simpl.
  { intros [= <-]. split; [by intros|]. by destruct slot. }
  destruct (used s && (sequence s =? sq)) eqn:Hs; [done|].
  intros H. apply IH in H as [Hne Hr]. split.
  - intros [|j] t; simpl; [|by apply Hne]. intros [= <-] Hu E.
    by rewrite Hu, E, Z.eqb_refl in Hs.
  - destruct slot; [done|]. destruct (used s) eqn:Hu; simpl in Hr.
    + destruct r as [k|]; [|intros [|j] t Hj; simpl in Hj; [by simplify_eq|by apply (Hr j)]].
      destruct Hr as (j & t & -> & Hj). exists (S j), t. simpl. split; [lia|done].
    + rewrite Hr. exists 0%nat, s. simpl. split; [lia|done].
Qed.

(** ** The invariant *)

(** The slot stores the envelope of one message. *)
Definition holds (s : rns_channel_slot) (mt : Z) (p : list Z) : Prop :=
  in_width 16 mt /\ (length p <= RNS_CHANNEL_MAX_PAYLOAD_BYTES)%nat /\
  s.(slot_length) = Z.of_nat (6 + length p) /\
  wrote RNS_CHANNEL_MAX_ENVELOPE_BYTES s.(envelope) (envelope_bytes mt s.(sequence) p).

Definition slot_ok (s : rns_channel_slot) : Prop :=
  if s.(used) then in_width 16 s.(sequence) /\ exists mt p, holds s mt p else s = zero_slot.

Definition transmit_ok (l : list rns_channel_slot) (n : Z) : Prop :=
  length l = RNS_CHANNEL_MAX_WINDOW /\ Forall slot_ok l /\ n = count_used l.

(** The stored envelopes have different sequence numbers, all within the
    window that starts at the expected one. *)
Record receive_ok (l : list rns_channel_slot) (expected mw : Z) : Prop := {
  receive_length : length l = RNS_CHANNEL_MAX_WINDOW;
  receive_slots : Forall slot_ok l;
  receive_window i s : l !! i = Some s -> s.(used) = true ->
    sequence_distance s.(sequence) expected < mw;
  receive_distinct i j s t : l !! i = Some s -> l !! j = Some t ->
    s.(used) = true -> t.(used) = true -> s.(sequence) = t.(sequence) -> i = j
}.

Record config_ok {E} (cfg : rns_channel_config E) : Prop := {
  config_clock : is_Some cfg.(clock);
  config_send : is_Some cfg.(send);
  config_receive : is_Some cfg.(receive_fn);
  config_window : 1 <= cfg.(max_window) <= Z.of_nat RNS_CHANNEL_MAX_WINDOW;
  config_retries : is_byte cfg.(max_retries)
}.

Record wf {E} (ch : rns_channel E) : Prop := {
  wf_config : config_ok ch.(config);
  wf_next : in_width 16 ch.(next_sequence);
  wf_expected : in_width 16 ch.(expected_sequence);
  wf_window : 1 <= ch.(window) <= ch.(config).(max_window);
  wf_success : is_byte ch.(success_count);
  wf_transmit : transmit_ok ch.(transmit) ch.(outstanding);
  wf_receive : receive_ok ch.(receive) ch.(expected_sequence) ch.(config).(max_window)
}.

Lemma slot_ok_length s : slot_ok s -> length s.(envelope) = RNS_CHANNEL_MAX_ENVELOPE_BYTES.
Proof.
  unfold slot_ok. destruct (used s); [|intros ->; apply length_replicate].
  by intros (_ & mt & p & _ & _ & _ & ? & _).
Qed.

Lemma slot_ok_zero : slot_ok zero_slot.
Proof. done. Qed.

Lemma holds_read s mt p :
  holds s mt p ->
  memread s.(envelope) 0 (Z.to_nat s.(slot_length)) = Some (envelope_bytes mt s.(sequence) p).
Proof.
  intros (_ & _ & -> & Hw). apply wrote_read in Hw.
  by rewrite Nat2Z.id, <-(length_envelope_bytes mt (sequence s)).
Qed.

Lemma transmit_ok_insert l n i s t :
  transmit_ok l n -> l !! i = Some s -> slot_ok t ->
  transmit_ok (<[i := t]> l) (n + (if t.(used) then 1 else 0) - (if s.(used) then 1 else 0)).
Proof.
  intros (Hl & Hf & Hn) Hi Ht. split_and!.
  - by rewrite length_insert.
  - by apply Forall_insert.
  - by rewrite (count_used_insert _ _ _ _ Hi), Hn.
Qed.

Lemma transmit_ok_bounds l n : transmit_ok l n -> 0 <= n <= 32.
Proof. intros (Hl & _ & ->). pose proof (count_used_bounds l). rewrite Hl in *. done. Qed.

Lemma transmit_ok_used l n i s : transmit_ok l n -> l !! i = Some s -> s.(used) = true -> 1 <= n.
Proof.
  intros Ht Hi Hu. pose proof (transmit_ok_insert _ _ _ _ _ Ht Hi slot_ok_zero) as Ht'.
  rewrite Hu in Ht'. apply transmit_ok_bounds in Ht'. simpl in Ht'. lia.
Qed.

(** Clearing a used transmit slot and decrementing [outstanding]. *)
Lemma transmit_ok_clear l n i s :
  transmit_ok l n -> l !! i = Some s -> s.(used) = true ->
  transmit_ok (<[i := zero_slot]> l) (wrap64 (n - 1)).
Proof.
  intros Ht Hi Hu. pose proof (transmit_ok_used _ _ _ _ Ht Hi Hu). pose proof (transmit_ok_bounds _ _ Ht).
  pose proof (transmit_ok_insert _ _ _ _ _ Ht Hi slot_ok_zero) as Ht'. rewrite Hu in Ht'. simpl in Ht'.
  rewrite wrap_small by (unfold in_width; lia). by replace (n - 1) with (n + 0 - 1) by lia.
Qed.

Lemma transmit_ok_slot l n i s : transmit_ok l n -> l !! i = Some s -> slot_ok s.
Proof. intros (_ & Hf & _) Hi. exact (Forall_lookup_1 _ _ _ _ Hf Hi). Qed.

Lemma receive_ok_slot l x mw i s : receive_ok l x mw -> l !! i = Some s -> slot_ok s.
Proof. intros Hr Hi. exact (Forall_lookup_1 _ _ _ _ (receive_slots _ _ _ Hr) Hi). Qed.

(** ** Sequence arithmetic *)

Lemma wrap16_add_l a b : wrap16 (wrap16 a + b) = wrap16 (a + b).
Proof. unfold wrap. by rewrite Zplus_mod_idemp_l. Qed.

Lemma sequence_distance_range a b : 0 <= sequence_distance a b < 65536.
Proof. unfold sequence_distance, wrap. by apply Z.mod_pos_bound. Qed.

Lemma sequence_distance_eq a b : in_width 16 a -> in_width 16 b -> a = wrap16 (b + sequence_distance a b).
Proof.
  intros Ha Hb. unfold sequence_distance, wrap. rewrite Zplus_mod_idemp_r.
  replace (b + (a - b)) with a by lia. symmetry. by apply wrap_small.
Qed.

Lemma sequence_distance_succ a b :
  in_width 16 a -> in_width 16 b -> sequence_distance a b <> 0 ->
  sequence_distance a (wrap16 (b + 1)) = sequence_distance a b - 1.
Proof.
  intros Ha Hb. unfold sequence_distance, wrap. intros Hne.
  rewrite Zminus_mod_idemp_r. replace (a - (b + 1)) with ((a - b) - 1) by lia.
  rewrite <-(Zminus_mod_idemp_l (a - b) 1). apply Z.mod_small.
  pose proof (Z.mod_pos_bound (a - b) (2 ^ 16)). lia.
Qed.

Lemma sequence_distance_0 a b : in_width 16 a -> in_width 16 b -> sequence_distance a b = 0 -> a = b.
Proof.
  intros Ha Hb E. rewrite (sequence_distance_eq a b Ha Hb), E, Z.add_0_r. by apply wrap_small.
Qed.

(** ** The sending side *)
Section Sending.
Context {E : Type}.
Implicit Types (ch : rns_channel E) (e : E).

Lemma channel_init_wf (cfg : rns_channel_config E) ch :
  is_byte cfg.(initial_window) -> is_byte cfg.(max_retries) ->
  rns_channel_init cfg = inr ch -> wf ch /\ ch.(config) = cfg.
Proof.
  unfold rns_channel_init. change (Z.of_nat RNS_CHANNEL_MAX_WINDOW) with 32. intros Hi Hr.
  destruct (clock cfg) as [c|] eqn:Hc, (send cfg) as [f|] eqn:Hs, (receive_fn cfg) as [r|] eqn:Hrc; simpl; try done.
  destruct (Z.eqb_spec (initial_window cfg) 0); [done|].
  destruct (Z.ltb_spec (max_window cfg) (initial_window cfg)); [done|].
  destruct (Z.ltb_spec 32 (max_window cfg)); [done|]. destruct (_ <=.? _); [done|].
  intros [= <-]. split; [|done]. unfold in_width in *.
  assert (forall i s, replicate RNS_CHANNEL_MAX_WINDOW zero_slot !! i = Some s -> s.(used) = false) as Hz.
  { intros i s Hl. apply lookup_replicate in Hl as [-> _]. done. }
  assert (Forall slot_ok (replicate RNS_CHANNEL_MAX_WINDOW zero_slot)) by (by apply Forall_replicate).
  constructor; simpl; try (unfold in_width; lia).
  - constructor; rewrite ?Hc, ?Hs, ?Hrc; try by eexists. all: unfold RNS_CHANNEL_MAX_WINDOW, in_width; lia.
  - by split_and!.
  - constructor; [done|done|..].
    + intros i s Hl Hu. by rewrite (Hz _ _ Hl) in Hu.
    + intros i j s t Hl _ Hu. by rewrite (Hz _ _ Hl) in Hu.
Qed.

Lemma free_slot l n :
  transmit_ok l n -> n < 32 -> exists i, find_slot (λ s, negb s.(used)) l = Some i /\ l !! i = Some zero_slot.
Proof.
  intros Ht Hn. destruct (find_slot _ l) as [i|] eqn:Hf.
  - exists i. split; [done|]. apply find_slot_Some in Hf as (s & Hi & Hu).
    apply negb_true_iff in Hu. pose proof (transmit_ok_slot _ _ _ _ Ht Hi) as Hs.
    unfold slot_ok in Hs. rewrite Hu in Hs. by subst.
  - exfalso. destruct Ht as (Hl & _ & ->). unfold count_used in Hn.
    assert (filter (λ s, used s = true) l = l) as Hall.
    { apply filter_all. intros i s Hi. pose proof (find_slot_None _ _ _ _ Hf Hi) as Hu. by apply negb_false_iff in Hu. }
    rewrite Hall, Hl in Hn. unfold RNS_CHANNEL_MAX_WINDOW in Hn. lia.
Qed.

(** The slot a successful send fills. *)
Definition sent_slot ch (mt : Z) (p : list Z) (now : double) (s : rns_channel_slot) : Prop :=
  s.(used) = true /\ s.(sequence) = ch.(next_sequence) /\ s.(retries) = 0 /\
  s.(deadline) = dadd now ch.(config).(retry_timeout) /\ holds s mt p.

Lemma send_spec ch mt payload seq0 e transport clk :
  wf ch -> in_width 16 mt -> slice_bad payload = false ->
  ch.(config).(send) = Some transport -> ch.(config).(clock) = Some clk ->
  let p := slice_bytes payload in
  let out := rns_channel_send ch mt payload (Some seq0) e in
  if decide (ch.(outstanding) < ch.(window) /\ (length p <= RNS_CHANNEL_MAX_PAYLOAD_BYTES)%nat) then
    let '(st, e1) := transport (envelope_bytes mt ch.(next_sequence) p) e in
    if is_ok st then
      let '(now, e2) := clk e1 in
      exists ch' i s, out = Some (RNS_OK, ch', Some ch.(next_sequence), e2) /\ wf ch' /\
        ch.(transmit) !! i = Some zero_slot /\ sent_slot ch mt p now s /\
        ch' = {| ch with transmit := <[i := s]> ch.(transmit);
                 next_sequence := wrap16 (ch.(next_sequence) + 1);
                 outstanding := ch.(outstanding) + 1 |}
    else out = Some (st, ch, Some seq0, e1)
  else out = Some (RNS_ERROR_OVERFLOW, ch, Some seq0, e).
Proof.
  intros Hwf Hmt Hp Hsend Hclk p out. pose proof (wf_transmit _ Hwf) as Ht.
  pose proof (transmit_ok_bounds _ _ Ht) as Hb. pose proof (wf_window _ Hwf) as Hwin.
  pose proof (config_window _ (wf_config _ Hwf)) as Hmw. unfold RNS_CHANNEL_MAX_WINDOW in Hmw.
  unfold out, rns_channel_send. rewrite Hp.
  destruct (Z.leb_spec (window ch) (outstanding ch)) as [Hfull|Hfull].
  { rewrite decide_False by lia. done. }
  destruct (free_slot _ _ Ht) as (i & -> & Hi); [lia|]. rewrite Hi. cbn [mbind option_bind].
  pose proof (envelope_encode_spec mt (next_sequence ch) payload (envelope zero_slot)
    (length (envelope zero_slot)) 0 (le_n _) Hp) as Henc. cbv zeta in Henc. fold p in Henc.
  pose proof (length_envelope_bytes mt (next_sequence ch) p) as Hle.
  change (length (envelope zero_slot)) with 500%nat in *.
  unfold RNS_CHANNEL_MAX_PAYLOAD_BYTES, RNS_CHANNEL_MAX_ENVELOPE_BYTES, RNS_CHANNEL_HEADER_BYTES in *.
  destruct (decide (length (envelope_bytes mt (next_sequence ch) p) <= 500 /\ _)%nat) as [Hfit|Hfit].
  2:{ rewrite Henc. cbn [mbind option_bind]. rewrite decide_False by lia. done. }
  destruct Henc as (o' & -> & Hw). cbn [mbind option_bind]. rewrite decide_True by lia.
  rewrite Hsend. cbn [mbind option_bind]. rewrite (wrote_read _ _ _ Hw). cbn [mbind option_bind].
  destruct (transport _ e) as [st e1]. destruct (is_ok st) eqn:Hok; cbn [negb].
  2:{ unfold set_transmit. rewrite list_insert_id by done. by destruct ch. }
  rewrite Hclk. cbn [mbind option_bind]. destruct (clk e1) as [now e2].
  rewrite Hle. rewrite (wrap_small 16 (Z.of_nat _)) by (unfold in_width; lia).
  rewrite (wrap_small 64 (_ + 1)) by (unfold in_width, set_transmit; simpl; lia).
  set (s := {| used := true; retries := 0; sequence := next_sequence ch;
    slot_length := Z.of_nat (6 + length p); deadline := dadd now (retry_timeout (config ch)); envelope := o' |}).
  assert (sent_slot ch mt p now s) as Hsl.
  { unfold s, sent_slot, holds, RNS_CHANNEL_MAX_PAYLOAD_BYTES, RNS_CHANNEL_MAX_ENVELOPE_BYTES,
      RNS_CHANNEL_HEADER_BYTES. cbn -[Z.of_nat Nat.sub]. split_and!; done || lia. }
  eexists _, i, s. split; [reflexivity|]. split; [|by split_and!].
  assert (slot_ok s) as Hs by (split; [apply (wf_next _ Hwf)|]; exists mt, p; apply Hsl).
  pose proof (transmit_ok_insert _ _ _ _ s Ht Hi Hs) as Hins. simpl in Hins. rewrite Z.sub_0_r in Hins.
  destruct Hwf. constructor; simpl; try done. by apply wrap_in_width.
Qed.

(** [rns_channel_send] on a well-formed channel: it refuses a full window and
    an oversized payload, leaves the channel unchanged when the transport
    refuses the envelope, and otherwise transmits exactly the envelope of the
    message, stores it in a free slot for retransmission with a fresh retry
    count and deadline, and consumes one sequence number (mod 2^16). *)
Theorem rns_channel_send_spec ch mt payload seq0 e transport clk :
  wf ch -> in_width 16 mt -> slice_bad payload = false ->
  ch.(config).(send) = Some transport -> ch.(config).(clock) = Some clk ->
  let p := slice_bytes payload in
  let out := rns_channel_send ch mt payload (Some seq0) e in
  if decide (ch.(outstanding) < ch.(window) /\ (length p <= RNS_CHANNEL_MAX_PAYLOAD_BYTES)%nat) then
    let '(st, e1) := transport (envelope_bytes mt ch.(next_sequence) p) e in
    if is_ok st then
      let '(now, e2) := clk e1 in
      exists ch' i s, out = Some (RNS_OK, ch', Some ch.(next_sequence), e2) /\ wf ch' /\
        ch.(transmit) !! i = Some zero_slot /\ sent_slot ch mt p now s /\
        ch' = {| ch with transmit := <[i := s]> ch.(transmit);
                 next_sequence := wrap16 (ch.(next_sequence) + 1);
                 outstanding := ch.(outstanding) + 1 |}
    else out = Some (st, ch, Some seq0, e1)
  else out = Some (RNS_ERROR_OVERFLOW, ch, Some seq0, e).
Proof. apply send_spec. Qed.

Lemma mark_delivered_wf ch sq e :
  wf ch -> wf (rns_channel_mark_delivered ch sq e).1.2.
Proof.
  intros Hwf. unfold rns_channel_mark_delivered. destruct (find_slot _ _) as [i|] eqn:Hf; [|done].
  apply find_slot_Some in Hf as (s & Hi & Hs). apply andb_true_iff in Hs as [Hu _].
  pose proof (transmit_ok_clear _ _ _ _ (wf_transmit _ Hwf) Hi Hu) as Ht.
  pose proof (config_window _ (wf_config _ Hwf)) as Hmw. unfold RNS_CHANNEL_MAX_WINDOW in Hmw.
  pose proof (wf_window _ Hwf) as Hwin. destruct Hwf. cbn [fst snd].
  destruct (_ && _) eqn:Hgrow; constructor; simpl in *; try done; try (by apply wrap_in_width).
  apply andb_true_iff in Hgrow as [_ Hgrow%Z.ltb_lt]. rewrite wrap_small by (unfold in_width; lia). lia.
Qed.

(** [rns_channel_mark_delivered] on a well-formed channel: an unknown
    sequence changes nothing; a known one frees its slot, takes one message out
    of flight, reports the delivery, and the window grows by one, never above
    its maximum, when as many deliveries as the window is wide have been
    counted. *)
Theorem rns_channel_mark_delivered_spec ch sq e :
  wf ch ->
  let '(st, ch', e') := rns_channel_mark_delivered ch sq e in
  wf ch' /\ ch'.(receive) = ch.(receive) /\ ch'.(next_sequence) = ch.(next_sequence) /\
  if find_slot (λ s, s.(used) && (s.(sequence) =? sq)) ch.(transmit) is Some i then
    st = RNS_OK /\ ch'.(transmit) = <[i := zero_slot]> ch.(transmit) /\
    ch'.(outstanding) = ch.(outstanding) - 1 /\
    e' = event ch RNS_CHANNEL_EVENT_DELIVERED sq e /\
    (ch'.(window) = ch.(window) \/
     ch'.(window) = ch.(window) + 1 /\ ch.(window) <= wrap8 (ch.(success_count) + 1) /\ ch'.(success_count) = 0)
  else st = RNS_ERROR_NOT_FOUND /\ ch' = ch /\ e' = e.
Proof.
  intros Hwf. pose proof (mark_delivered_wf ch sq e Hwf) as Hwf'.
  revert Hwf'. unfold rns_channel_mark_delivered. destruct (find_slot _ _) as [i|] eqn:Hf; [|done].
  apply find_slot_Some in Hf as (s & Hi & Hs). apply andb_true_iff in Hs as [Hu _].
  pose proof (transmit_ok_used _ _ _ _ (wf_transmit _ Hwf) Hi Hu).
  pose proof (transmit_ok_bounds _ _ (wf_transmit _ Hwf)).
  pose proof (config_window _ (wf_config _ Hwf)) as Hmw. unfold RNS_CHANNEL_MAX_WINDOW in Hmw.
  pose proof (wf_window _ Hwf) as Hwin. cbn [fst snd]. intros Hwf'. split; [exact Hwf'|].
  simpl. destruct (_ && _) eqn:Hgrow; simpl; split_and!; try done;
    try (apply wrap_small; unfold in_width; lia); auto.
  right. apply andb_true_iff in Hgrow as [Hc%Z.leb_le Hgrow%Z.ltb_lt].
  rewrite wrap_small by (unfold in_width; lia). done.
Qed.

(** What a tick does to one transmit slot. *)
Inductive slot_after (cfg : rns_channel_config E) (now : double) (s : rns_channel_slot)
    : rns_channel_slot -> Prop :=
| SlotKept :
    s.(used) = false \/ (now <.? s.(deadline)) = true -> slot_after cfg now s s
| SlotTimedOut :
    s.(used) = true -> (now <.? s.(deadline)) = false -> cfg.(max_retries) <= s.(retries) ->
    slot_after cfg now s zero_slot
| SlotRetried k :
    s.(used) = true -> (now <.? s.(deadline)) = false -> s.(retries) < cfg.(max_retries) ->
    k = s.(retries) \/ k = wrap8 (s.(retries) + 1) ->
    slot_after cfg now s {| s with retries := k; deadline := dadd now cfg.(retry_timeout) |}.

(** The state a tick may change: the transmit slots, the count of messages in
    flight and the window. *)
Record tick_frame ch ch' : Prop := {
  frame_config : ch'.(config) = ch.(config);
  frame_next : ch'.(next_sequence) = ch.(next_sequence);
  frame_expected : ch'.(expected_sequence) = ch.(expected_sequence);
  frame_receive : ch'.(receive) = ch.(receive);
  frame_window : ch'.(window) <= ch.(window)
}.

Lemma tick_frame_refl ch : tick_frame ch ch.
Proof. by constructor. Qed.

Lemma tick_frame_trans a b c : tick_frame a b -> tick_frame b c -> tick_frame a c.
Proof. intros [] []. constructor; congruence || lia. Qed.

Lemma halved_window w mw :
  1 <= w <= mw -> mw <= 32 ->
  let h := if 1 <? w then wrap8 (w / 2) else 1 in 1 <= h <= w.
Proof.
  intros Hw Hm. simpl. destruct (Z.ltb_spec 1 w); [|lia].
  pose proof (Z.div_le_lower_bound w 2 1). pose proof (Z.div_le_upper_bound w 2 w).
  rewrite wrap_small; unfold in_width; lia.
Qed.

Lemma tick_slot_spec ch now i s e :
  wf ch -> ch.(transmit) !! i = Some s ->
  exists ch' e' n t, tick_slot ch now i e = Some (ch', e', n) /\ wf ch' /\ tick_frame ch ch' /\
    ch'.(transmit) = <[i := t]> ch.(transmit) /\ slot_after ch.(config) now s t.
Proof.
  intros Hwf Hi. unfold tick_slot. rewrite Hi. cbn [mbind option_bind].
  destruct (negb (used s) || (now <.? deadline s)) eqn:Hdue.
  { eexists _, _, _, s. split; [done|]. rewrite list_insert_id by done.
    apply orb_true_iff in Hdue as [Hu%negb_true_iff|Hd]; 
      split_and!; try done; try apply tick_frame_refl; by constructor; auto. }
  apply orb_false_iff in Hdue as [Hu%negb_false_iff Hd].
  pose proof (transmit_ok_slot _ _ _ _ (wf_transmit _ Hwf) Hi) as Hs.
  destruct (Z.leb_spec (max_retries (config ch)) (retries s)) as [Hr|Hr].
  - pose proof (config_window _ (wf_config _ Hwf)) as Hmw. unfold RNS_CHANNEL_MAX_WINDOW in Hmw.
    pose proof (halved_window _ _ (wf_window _ Hwf) (proj2 Hmw)) as Hh. cbv zeta in Hh.
    eexists _, _, _, zero_slot. split; [done|]. simpl.
    pose proof (wf_window _ Hwf) as Hwin. rewrite (proj2 (Z.ltb_ge _ _)) by lia. simpl.
    pose proof (transmit_ok_clear _ _ _ _ (wf_transmit _ Hwf) Hi Hu) as Ht.
    split_and!; [|by constructor; try done; apply Hh|done|by apply SlotTimedOut].
    destruct Hwf. constructor; simpl; try done. lia.
  - destruct (config_send _ (wf_config _ Hwf)) as [f Hf]. rewrite Hf. cbn [mbind option_bind].
    unfold slot_ok in Hs. rewrite Hu in Hs. destruct Hs as (Hq & mt & p & Hh).
    rewrite (holds_read _ _ _ Hh). cbn [mbind option_bind]. destruct (f _ e) as [st e1].
    assert (forall k, wf (set_transmit ch i
       {| s with retries := k; deadline := dadd now (retry_timeout (config ch)) |})) as Hwf'.
    { intros k. set (t := {| s with retries := k; deadline := _ |}).
      assert (slot_ok t) as Ht by (unfold slot_ok, t; simpl; rewrite Hu; split; [done|]; by exists mt, p).
      pose proof (transmit_ok_insert _ _ _ _ _ (wf_transmit _ Hwf) Hi Ht) as Hins.
      rewrite Hu in Hins. unfold t at 2 in Hins. simpl in Hins. rewrite Hu in Hins.
      replace (outstanding ch + 1 - 1) with (outstanding ch) in Hins by lia. by destruct Hwf. }
    destruct (is_ok st); eexists _, _, _, _; (split; [done|]);
      (split; [apply Hwf'|]); (split; [by constructor|]); (split; [done|]).
    + eapply SlotRetried; eauto.
    + eapply SlotRetried; eauto.
Qed.

Lemma tick_loop_spec ch now indices actions e :
  wf ch -> NoDup indices -> (forall i, i ∈ indices -> (i < length ch.(transmit))%nat) ->
  exists n ch' e', tick_loop ch now indices actions e = Some (n, ch', e') /\ wf ch' /\ tick_frame ch ch' /\
    (forall i, i ∉ indices -> ch'.(transmit) !! i = ch.(transmit) !! i) /\
    (forall i s, i ∈ indices -> ch.(transmit) !! i = Some s ->
       exists t, ch'.(transmit) !! i = Some t /\ slot_after ch.(config) now s t).
Proof.
  revert ch actions e. induction indices as [|i indices IH]; intros ch actions e Hwf Hnd Hin; simpl.
  { eexists _, _, _. split; [done|]. split_and!; [done|apply tick_frame_refl|done|].
    intros i s Hi. by apply not_elem_of_nil in Hi. }
  apply list.NoDup_cons in Hnd as [Hni Hnd].
  destruct (lookup_lt_is_Some_2 (transmit ch) i) as [s Hs]; [apply Hin; left|].
  destruct (tick_slot_spec ch now i s e Hwf Hs) as (ch1 & e1 & n1 & t & -> & Hwf1 & Hf1 & Ht1 & Ha).
  cbn [mbind option_bind].
  destruct (IH ch1 (actions + n1)%nat e1 Hwf1 Hnd) as (n & ch' & e' & -> & Hwf' & Hf' & Hout & Hins).
  { intros j Hj. rewrite Ht1, length_insert. apply Hin. by right. }
  eexists _, _, _. split; [done|]. split_and!; [done|by eapply tick_frame_trans|..].
  - intros j Hj. apply not_elem_of_cons in Hj as [Hne Hj]. rewrite Hout, Ht1 by done.
    by rewrite list_lookup_insert_ne.
  - intros j u Hj Hu. apply elem_of_cons in Hj as [->|Hj].
    + exists t. rewrite Hout, Ht1 by done. rewrite list_lookup_insert_eq by (by eapply lookup_lt_Some).
      by simplify_eq.
    + rewrite <-(frame_config _ _ Hf1). apply Hins; [done|].
      rewrite Ht1, list_lookup_insert_ne; [done|]. by intros ->.
Qed.

Lemma tick_spec ch e clk now e1 :
  wf ch -> ch.(config).(clock) = Some clk -> clk e = (now, e1) ->
  exists n ch' e', rns_channel_tick ch e = Some (n, ch', e') /\ wf ch' /\ tick_frame ch ch' /\
    Forall2 (slot_after ch.(config) now) ch.(transmit) ch'.(transmit).
Proof.
  intros Hwf Hc Hn. unfold rns_channel_tick. rewrite Hc, Hn.
  assert (length (transmit ch) = RNS_CHANNEL_MAX_WINDOW) as Hl by apply (wf_transmit _ Hwf).
  destruct (tick_loop_spec ch now (seq 0 RNS_CHANNEL_MAX_WINDOW) 0 e1 Hwf)
    as (n & ch' & e' & -> & Hwf' & Hf & _ & Hin).
  { apply list.NoDup_seq. }
  { intros i Hi%elem_of_seq. lia. }
  exists n, ch', e'. split_and!; try done. apply Forall2_same_length_lookup.
  assert (length (transmit ch') = RNS_CHANNEL_MAX_WINDOW) as Hl' by apply (wf_transmit _ Hwf').
  split; [by rewrite Hl, Hl'|]. intros i s t Hs Ht.
  destruct (Hin i s) as (t' & Ht' & Ha); [|done|by simplify_eq].
  apply elem_of_seq. apply lookup_lt_Some in Hs. lia.
Qed.

(** [rns_channel_tick] on a well-formed channel terminates with a
    well-formed channel: slots that are free or not yet due are untouched, a due
    slot that has used up its retries is freed, any other due slot keeps its
    envelope and moves its deadline to [now + retry_timeout] (whether or not the
    transport accepted it) with at most one more retry counted; the window never
    grows, and the receiving side is untouched. *)
Theorem rns_channel_tick_spec ch e clk now e1 :
  wf ch -> ch.(config).(clock) = Some clk -> clk e = (now, e1) ->
  exists n ch' e', rns_channel_tick ch e = Some (n, ch', e') /\ wf ch' /\ tick_frame ch ch' /\
    Forall2 (slot_after ch.(config) now) ch.(transmit) ch'.(transmit).
Proof. apply tick_spec. Qed.

End Sending.

(** ** The receiving side *)
Section Receiving.
Context {E : Type}.
Implicit Types (ch : rns_channel E) (e : E).

(** The stored envelope with the expected sequence is delivered and its slot
    freed. *)
Definition advance ch (i : nat) : rns_channel E :=
  {| ch with receive := <[i := zero_slot]> ch.(receive);
             expected_sequence := wrap16 (ch.(expected_sequence) + 1) |}.

Lemma receive_ok_clear l x mw i s :
  receive_ok l x mw -> in_width 16 x -> l !! i = Some s -> s.(used) = true -> s.(sequence) = x ->
  receive_ok (<[i := zero_slot]> l) (wrap16 (x + 1)) mw.
Proof.
  intros Hr Hx Hi Hu Hs.
  assert (forall j t, <[i := zero_slot]> l !! j = Some t -> t.(used) = true -> i <> j /\ l !! j = Some t) as Hold.
  { intros j t Hj Ht. apply list_lookup_insert_Some in Hj as [(-> & <- & _)|[Hne Hj]]; [done|]. done. }
  constructor.
  - rewrite length_insert. apply Hr.
  - apply Forall_insert; [apply Hr|apply slot_ok_zero].
  - intros j t Hj Ht. destruct (Hold j t Hj Ht) as [Hne Hl].
    pose proof (receive_ok_slot _ _ _ _ _ Hr Hl) as Hok. unfold slot_ok in Hok. rewrite Ht in Hok.
    pose proof (receive_window _ _ _ Hr j t Hl Ht).
    rewrite sequence_distance_succ; [lia|apply Hok|done|]. intros E0.
    apply Hne, (receive_distinct _ _ _ Hr i j s t); try done. rewrite Hs.
    symmetry. apply sequence_distance_0; [apply Hok|done|done].
  - intros j k t u Hj Hk Ht Hu'. destruct (Hold j t Hj Ht) as [_ Hj'].
    destruct (Hold k u Hk Hu') as [_ Hk']. by apply (receive_distinct _ _ _ Hr).
Qed.

Lemma drain_step_found ch e i :
  wf ch -> find_slot (λ s, s.(used) && (s.(sequence) =? ch.(expected_sequence))) ch.(receive) = Some i ->
  exists s mt p rf, ch.(receive) !! i = Some s /\ s.(used) = true /\
    s.(sequence) = ch.(expected_sequence) /\ holds s mt p /\ ch.(config).(receive_fn) = Some rf /\
    wf (advance ch i) /\
    drain_step ch e = Some (let '(st, e') := rf mt ch.(expected_sequence) p e in
      if is_ok st then inr (advance ch i, e') else inl (st, ch, e')).
Proof.
  intros Hwf Hf. pose proof (find_slot_Some _ _ _ Hf) as (s & Hi & Hs).
  apply andb_true_iff in Hs as [Hu Hs%Z.eqb_eq].
  pose proof (receive_ok_slot _ _ _ _ _ (wf_receive _ Hwf) Hi) as Hok.
  unfold slot_ok in Hok. rewrite Hu in Hok. destruct Hok as (Hq & mt & p & Hh).
  destruct (config_receive _ (wf_config _ Hwf)) as [rf Hrf].
  exists s, mt, p, rf. split_and!; try done.
  - pose proof (receive_ok_clear _ _ _ _ _ (wf_receive _ Hwf) (wf_expected _ Hwf) Hi Hu Hs) as Hr.
    destruct Hwf. constructor; simpl; try done. by apply wrap_in_width.
  - unfold drain_step. rewrite Hf, Hi. cbn [mbind option_bind].
    rewrite (holds_read _ _ _ Hh). cbn [mbind option_bind].
    destruct Hh as (Hmt & Hp & _). rewrite decode_envelope_bytes by done. cbn [mbind option_bind].
    rewrite Hrf, Hs. cbn [mbind option_bind]. destruct (rf _ _ _ e) as [st e']. by destruct (is_ok st).
Qed.

(** The loop of [drain_receive] from a well-formed channel, as a relation: the
    envelopes it delivers, in order. *)
Inductive drains : rns_channel E -> E -> list (Z * Z * list Z) -> rns_status -> rns_channel E -> E -> Prop :=
| DrainEmpty ch e :
    (forall i s, ch.(receive) !! i = Some s -> s.(used) = true -> s.(sequence) <> ch.(expected_sequence)) ->
    drains ch e [] RNS_OK ch e
| DrainRefused ch e i s mt p rf st e' :
    ch.(receive) !! i = Some s -> s.(used) = true -> s.(sequence) = ch.(expected_sequence) -> holds s mt p ->
    ch.(config).(receive_fn) = Some rf -> rf mt ch.(expected_sequence) p e = (st, e') -> st <> RNS_OK ->
    drains ch e [] st ch e'
| DrainNext ch e i s mt p rf e1 ms st ch' e' :
    ch.(receive) !! i = Some s -> s.(used) = true -> s.(sequence) = ch.(expected_sequence) -> holds s mt p ->
    ch.(config).(receive_fn) = Some rf -> rf mt ch.(expected_sequence) p e = (RNS_OK, e1) ->
    drains (advance ch i) e1 ms st ch' e' ->
    drains ch e ((mt, ch.(expected_sequence), p) :: ms) st ch' e'.

Lemma drain_loop_drains fuel ch e :
  wf ch -> count_used ch.(receive) < Z.of_nat fuel ->
  exists ms st ch' e', drain_loop fuel ch e = Some (st, ch', e') /\ wf ch' /\ drains ch e ms st ch' e'.
Proof.
  revert ch e. induction fuel as [|fuel IH]; intros ch e Hwf Hc.
  { pose proof (count_used_bounds (receive ch)). lia. }
  simpl. destruct (find_slot (λ s, s.(used) && (s.(sequence) =? ch.(expected_sequence))) ch.(receive))
    as [i|] eqn:Hf.
  - destruct (drain_step_found ch e i Hwf Hf) as (s & mt & p & rf & Hi & Hu & Hs & Hh & Hrf & Hwf' & ->).
    destruct (rf mt (expected_sequence ch) p e) as [st e'] eqn:Hcb. destruct (is_ok st) eqn:Hok; cbn [mbind option_bind].
    + apply is_ok_true in Hok as ->.
      destruct (IH (advance ch i) e' Hwf') as (ms & st & ch' & e'' & -> & ? & ?).
      { unfold advance. simpl. rewrite (count_used_insert _ _ _ _ Hi), Hu. simpl. lia. }
      eexists _, st, ch', e''. split_and!; try done. by eapply DrainNext.
    + exists [], st, ch, e'. split_and!; try done. eapply DrainRefused; try done. by intros ->.
  - exists [], RNS_OK, ch, e. unfold drain_step. rewrite Hf. split_and!; try done.
    constructor. intros i s Hi Hu Hs. pose proof (find_slot_None _ _ _ _ Hf Hi) as Hn. simpl in Hn.
    by rewrite Hu, Hs, Z.eqb_refl in Hn.
Qed.

Lemma drain_receive_drains ch e :
  wf ch -> exists ms st ch' e', drain_receive ch e = Some (st, ch', e') /\ wf ch' /\ drains ch e ms st ch' e'.
Proof.
  intros Hwf. apply drain_loop_drains; [done|].
  pose proof (count_used_bounds (receive ch)). rewrite (receive_length _ _ _ (wf_receive _ Hwf)) in *.
  unfold RNS_CHANNEL_MAX_WINDOW in *. lia.
Qed.

(** *** Storing an envelope *)

Lemma list_pigeonhole (l : list Z) (n : nat) :
  NoDup l -> Forall (λ x, 0 <= x < Z.of_nat n) l -> (length l <= n)%nat.
Proof.
  intros Hnd Hf. assert (l ⊆ seqZ 0 (Z.of_nat n)) as Hsub.
  { intros x Hx. apply elem_of_seqZ. rewrite list.Forall_forall in Hf. specialize (Hf x Hx). lia. }
  apply NoDup_submseteq, submseteq_length in Hsub; [|done].
  rewrite length_seqZ in Hsub. lia.
Qed.

(** A new sequence within the window finds a free slot. *)
Lemma receive_not_full l x mw sq :
  receive_ok l x mw -> in_width 16 x -> in_width 16 sq -> mw <= 32 -> sequence_distance sq x < mw ->
  (forall j s, l !! j = Some s -> s.(used) = true -> s.(sequence) <> sq) ->
  ~ (forall j s, l !! j = Some s -> s.(used) = true).
Proof.
  intros Hr Hx Hsq Hmw Hd Hne Hall.
  set (ds := (λ s, sequence_distance s.(sequence) x) <$> l).
  assert (forall j s, l !! j = Some s -> in_width 16 s.(sequence)) as Hw.
  { intros j s Hj. pose proof (receive_ok_slot _ _ _ _ _ Hr Hj) as Hok. unfold slot_ok in Hok.
    rewrite (Hall j s Hj) in Hok. apply Hok. }
  assert (length (sequence_distance sq x :: ds) <= 32)%nat as Hlen.
  { apply list_pigeonhole.
    - apply list.NoDup_cons. split.
      + intros Hin. apply list_elem_of_fmap in Hin as (s & Es & Hs). apply list_elem_of_lookup in Hs as [j Hj].
        apply (Hne j s Hj (Hall j s Hj)).
        rewrite (sequence_distance_eq (sequence s) x), (sequence_distance_eq sq x) by eauto. by rewrite Es.
      + apply NoDup_alt. intros i j d Hi Hj. unfold ds in *. rewrite list_lookup_fmap in Hi, Hj.
        apply fmap_Some in Hi as (s & Hi & ->). apply fmap_Some in Hj as (t & Hj & Et).
        apply (receive_distinct _ _ _ Hr i j s t); eauto.
        rewrite (sequence_distance_eq (sequence s) x), (sequence_distance_eq (sequence t) x) by eauto.
        by rewrite Et.
    - constructor; [pose proof (sequence_distance_range sq x); lia|].
      apply Forall_fmap, Forall_lookup. intros j s Hj. simpl.
      pose proof (receive_window _ _ _ Hr j s Hj (Hall j s Hj)).
      pose proof (sequence_distance_range (sequence s) x). lia. }
  simpl in Hlen. unfold ds in Hlen. rewrite length_fmap, (receive_length _ _ _ Hr) in Hlen.
  unfold RNS_CHANNEL_MAX_WINDOW in Hlen. lia.
Qed.

Lemma receive_ok_store l x mw i s t :
  receive_ok l x mw -> l !! i = Some s -> slot_ok t -> t.(used) = true ->
  sequence_distance t.(sequence) x < mw ->
  (forall j u, l !! j = Some u -> u.(used) = true -> u.(sequence) <> t.(sequence)) ->
  receive_ok (<[i := t]> l) x mw.
Proof.
  intros Hr Hi Ht Hu Hd Hne. constructor.
  - rewrite length_insert. apply Hr.
  - apply Forall_insert; [apply Hr|done].
  - intros j v Hj Hv. apply list_lookup_insert_Some in Hj as [(-> & <- & _)|[_ Hj]]; [done|].
    by apply (receive_window _ _ _ Hr j).
  - intros j k v w Hj Hk Hv Hw Hs.
    apply list_lookup_insert_Some in Hj as [(<- & <- & _)|[Hnj Hj]];
      apply list_lookup_insert_Some in Hk as [(<- & <- & _)|[Hnk Hk]]; try done.
    + by destruct (Hne k w Hk Hw).
    + by destruct (Hne j v Hj Hv).
    + by apply (receive_distinct _ _ _ Hr j k v w).
Qed.

(** What receiving the bytes [bs] may do. *)
Inductive receives ch (bs : list Z) e : rns_status -> rns_channel E -> E -> Prop :=
| ReceiveMalformed :
    rns_channel_envelope_decode (SBytes bs) = Some (inl RNS_ERROR_PROTOCOL) ->
    receives ch bs e RNS_ERROR_PROTOCOL ch e
| ReceiveOld mt sq p :
    rns_channel_envelope_decode (SBytes bs) = Some (inr (mt, sq, p)) -> sequence_before sq ch.(expected_sequence) = true ->
    receives ch bs e RNS_OK ch (event ch RNS_CHANNEL_EVENT_DUPLICATE sq e)
| ReceiveFar mt sq p :
    rns_channel_envelope_decode (SBytes bs) = Some (inr (mt, sq, p)) -> sequence_before sq ch.(expected_sequence) = false ->
    ch.(config).(max_window) <= sequence_distance sq ch.(expected_sequence) ->
    receives ch bs e RNS_ERROR_PROTOCOL ch e
| ReceiveStored mt sq p i s :
    rns_channel_envelope_decode (SBytes bs) = Some (inr (mt, sq, p)) -> sequence_before sq ch.(expected_sequence) = false ->
    sequence_distance sq ch.(expected_sequence) < ch.(config).(max_window) ->
    ch.(receive) !! i = Some s -> s.(used) = true -> s.(sequence) = sq ->
    receives ch bs e RNS_OK ch (event ch RNS_CHANNEL_EVENT_DUPLICATE sq e)
| ReceiveNew mt sq p i s ms st ch' e' :
    rns_channel_envelope_decode (SBytes bs) = Some (inr (mt, sq, p)) -> sequence_before sq ch.(expected_sequence) = false ->
    sequence_distance sq ch.(expected_sequence) < ch.(config).(max_window) ->
    (forall j t, ch.(receive) !! j = Some t -> t.(used) = true -> t.(sequence) <> sq) ->
    ch.(receive) !! i = Some zero_slot -> s.(used) = true -> s.(sequence) = sq -> holds s mt p ->
    wf (set_receive ch i s) ->
    drains (set_receive ch i s)
      (if sq =? ch.(expected_sequence) then e else event ch RNS_CHANNEL_EVENT_OUT_OF_ORDER sq e) ms st ch' e' ->
    receives ch bs e st ch' e'.

(** The envelope is copied into a free slot. *)
Lemma store_envelope mt sq p :
  in_width 16 mt -> (length p <= RNS_CHANNEL_MAX_PAYLOAD_BYTES)%nat ->
  exists m s, memcpy zero_slot.(envelope) 0 (envelope_bytes mt sq p) = Some m /\
    s = {| used := true; retries := 0; sequence := sq;
           slot_length := wrap16 (Z.of_nat (length (envelope_bytes mt sq p)));
           deadline := dzero; envelope := m |} /\ holds s mt p.
Proof.
  intros Hm Hp. pose proof (length_envelope_bytes mt sq p) as Hl.
  unfold holds. unfold RNS_CHANNEL_MAX_PAYLOAD_BYTES, RNS_CHANNEL_MAX_ENVELOPE_BYTES, RNS_CHANNEL_HEADER_BYTES in *.
  destruct (wrote_memcpy 500 (envelope zero_slot) [] (envelope_bytes mt sq p)) as (m & Hc & Hw);
    [by apply wrote_nil|simpl; lia|].
  exists m. eexists. split; [exact Hc|]. split; [reflexivity|]. simpl.
  rewrite wrap_small by (unfold in_width; lia). split_and!; done || lia.
Qed.

Lemma receive_scan_free l x mw sq i :
  receive_ok l x mw -> receive_scan sq 0 None l = inr (Some i) ->
  l !! i = Some zero_slot /\ (forall j t, l !! j = Some t -> t.(used) = true -> t.(sequence) <> sq).
Proof.
  intros Hr [Hne Hfree]%receive_scan_inr. split; [|done].
  destruct Hfree as (j & s & -> & Hi & Hu).
  pose proof (receive_ok_slot _ _ _ _ _ Hr Hi) as Hok. unfold slot_ok in Hok. rewrite Hu in Hok. by subst.
Qed.

Lemma receive_receives ch bs e :
  wf ch -> bytes_ok bs ->
  exists st ch' e', rns_channel_receive ch (SBytes bs) e = Some (st, ch', e') /\ wf ch' /\
    receives ch bs e st ch' e'.
Proof.
  intros Hwf Hb. unfold rns_channel_receive.
  destruct (decode_envelope_total bs Hb) as [E0|(mt & sq & p & E0 & Hmt & Hsq & Hp & Ebs)]; rewrite E0;
    cbn [mbind option_bind].
  { eexists _, _, _. split; [done|]. split; [done|]. by constructor. }
  destruct (sequence_before sq (expected_sequence ch)) eqn:Hbef.
  { eexists _, _, _. split; [done|]. split; [done|]. by eapply ReceiveOld. }
  destruct (Z.leb_spec (max_window (config ch)) (sequence_distance sq (expected_sequence ch))) as [Hd|Hd].
  { eexists _, _, _. split; [done|]. split; [done|]. by eapply ReceiveFar. }
  pose proof (wf_receive _ Hwf) as Hr.
  pose proof (config_window _ (wf_config _ Hwf)) as Hmw. unfold RNS_CHANNEL_MAX_WINDOW in Hmw.
  destruct (receive_scan sq 0 None (receive ch)) as [[]|[i|]] eqn:Hscan.
  - apply receive_scan_inl in Hscan as (j & s & Hj & Hu & Hs).
    eexists _, _, _. split; [done|]. split; [done|]. by eapply ReceiveStored.
  - apply (receive_scan_free _ _ _ _ _ Hr) in Hscan as [Hi Hne].
    rewrite Hi. cbn [mbind option_bind slice_bytes slice_length]. subst bs.
    destruct (store_envelope mt sq p Hmt Hp) as (m & s & -> & Es & Hh). cbn [mbind option_bind].
    change (retries zero_slot) with 0. change (deadline zero_slot) with dzero. rewrite <-Es.
    assert (used s = true /\ sequence s = sq) as [Hus Hss] by (by rewrite Es).
    assert (slot_ok s) as Hok by (unfold slot_ok; rewrite Hus, Hss; eauto).
    assert (wf (set_receive ch i s)) as Hwf'.
    { pose proof (receive_ok_store _ _ _ _ _ s Hr Hi Hok Hus) as Hst. rewrite Hss in Hst.
      specialize (Hst Hd Hne). by destruct Hwf. }
    destruct (drain_receive_drains _ (if negb (sequence_distance sq (expected_sequence ch) =? 0)
        then event (set_receive ch i s) RNS_CHANNEL_EVENT_OUT_OF_ORDER sq e else e) Hwf')
      as (ms & st & ch' & e' & Hdr & Hwf'' & Hms).
    exists st, ch', e'. split; [exact Hdr|]. split; [done|].
    eapply ReceiveNew; try done.
    replace (sq =? expected_sequence ch) with (sequence_distance sq (expected_sequence ch) =? 0).
    + by destruct (_ =? 0).
    + apply eq_bool_prop_intro. split; intros Hq%Is_true_true%Z.eqb_eq; apply Is_true_true, Z.eqb_eq.
      * apply sequence_distance_0; [done|apply (wf_expected _ Hwf)|done].
      * rewrite Hq. unfold sequence_distance. by rewrite Z.sub_diag.
  - exfalso. apply receive_scan_inr in Hscan as [Hne Hall].
    by apply (receive_not_full _ _ _ sq Hr (wf_expected _ Hwf)) in Hall; [| |lia|..].
Qed.

(** [rns_channel_receive] on a well-formed channel and any bytes returns
    (the drain loop terminates and no access is out of bounds) with a
    well-formed channel, and does one of five things: reject malformed bytes or a
    sequence beyond the window, report an old or an already stored sequence as
    a duplicate, or store the envelope and deliver every envelope that is now
    next in sequence. A full receive table is never reported. *)
Theorem rns_channel_receive_spec ch bs e :
  wf ch -> bytes_ok bs ->
  exists st ch' e', rns_channel_receive ch (SBytes bs) e = Some (st, ch', e') /\ wf ch' /\
    receives ch bs e st ch' e'.
Proof. apply receive_receives. Qed.
End Receiving.

(** *** Sequence numbers as positions in the stream *)

Lemma distance_positions (a b : Z) :
  0 <= a - b < 65536 -> sequence_distance (wrap16 a) (wrap16 b) = a - b.
Proof.
  intros H. unfold sequence_distance, wrap. rewrite <-Zminus_mod. by apply Z.mod_small.
Qed.

Lemma before_positions (a b : Z) :
  -32768 <= a - b < 32768 -> sequence_before (wrap16 a) (wrap16 b) = (a <? b).
Proof.
  intros H. unfold sequence_before, swrap. change (2 ^ (16 - 1)) with 32768.
  unfold wrap. rewrite <-Zplus_mod_idemp_l, <-Zminus_mod, Zplus_mod_idemp_l.
  rewrite Z.mod_small by lia. destruct (Z.ltb_spec a b); lia.
Qed.

Lemma positions_inj (a b : Z) : 0 <= a - b < 65536 -> wrap16 a = wrap16 b -> a = b.
Proof.
  intros H E. pose proof (distance_positions a b H) as Hd.
  rewrite E in Hd. unfold sequence_distance in Hd. rewrite Z.sub_diag in Hd. change (wrap16 0) with 0 in Hd. lia.
Qed.

Lemma holds_inj s mt p mt' p' :
  in_width 16 s.(sequence) -> holds s mt p -> holds s mt' p' -> mt = mt' /\ p = p'.
Proof.
  intros Hs H H'. pose proof (holds_read _ _ _ H) as E. rewrite (holds_read _ _ _ H') in E.
  apply (inj Some) in E. destruct H as (Hm & Hp & _), H' as (Hm' & Hp' & _).
  pose proof (decode_envelope_bytes mt (sequence s) p Hm Hs Hp) as D.
  rewrite <-E, decode_envelope_bytes in D by done. by injection D.
Qed.

Lemma envelope_bytes_inj mt sq p mt' sq' p' :
  in_width 16 mt -> in_width 16 sq -> (length p <= RNS_CHANNEL_MAX_PAYLOAD_BYTES)%nat ->
  in_width 16 mt' -> in_width 16 sq' -> (length p' <= RNS_CHANNEL_MAX_PAYLOAD_BYTES)%nat ->
  envelope_bytes mt sq p = envelope_bytes mt' sq' p' -> mt = mt' /\ sq = sq' /\ p = p'.
Proof.
  intros A B C A' B' C' E. pose proof (decode_envelope_bytes mt sq p A B C) as D.
  rewrite E, (decode_envelope_bytes mt' sq' p') in D by done. by injection D.
Qed.

(** *** The first position not received *)

Fixpoint frontier_from (fuel : nat) (A : list nat) (n : nat) : nat :=
  match fuel with
  | O => n
  | S fuel => if decide (n ∈ A) then frontier_from fuel A (S n) else n
  end.

Definition frontier (A : list nat) : nat := frontier_from (S (length A)) A 0.

Lemma frontier_from_spec fuel A n m :
  (n <= m)%nat -> (m < n + fuel)%nat -> (forall j, (n <= j < m)%nat -> j ∈ A) -> m ∉ A ->
  frontier_from fuel A n = m.
Proof.
  revert n. induction fuel as [|fuel IH]; intros n Hn Hm Hin Hout; simpl; [lia|].
  case_decide as Hd.
  - destruct (decide (n = m)) as [->|]; [done|]. apply IH; [lia|lia| |done].
    intros j Hj. apply Hin. lia.
  - destruct (decide (n = m)) as [->|]; [done|]. destruct Hd. apply Hin. lia.
Qed.

Lemma frontier_unique A n : (forall j, (j < n)%nat -> j ∈ A) -> n ∉ A -> frontier A = n.
Proof.
  intros Hin Hout. apply frontier_from_spec; [lia| |by intros; apply Hin; lia|done].
  assert (seq 0 n ⊆ A) as Hsub by (intros j Hj%elem_of_seq; apply Hin; lia).
  apply NoDup_submseteq, submseteq_length in Hsub; [|apply list.NoDup_seq].
  rewrite length_seq in Hsub. lia.
Qed.

(** The arrivals stay within what the sender's window allows: an envelope is
    less than [mw] positions ahead of the first missing one, and not older
    than half the sequence space. *)
Fixpoint in_window (mw : nat) (A : list nat) (ks : list nat) : Prop :=
  match ks with
  | [] => True
  | k :: ks => (k < frontier A + mw)%nat /\ Z.of_nat (frontier A) <= Z.of_nat k + 32768 /\ in_window mw (A ++ [k]) ks
  end.

Section Stream.
Context {E : Type}.
Variable log : E -> list (Z * Z * list Z).
Variable msgs : nat -> Z * list Z.
Implicit Types (ch : rns_channel E) (e : E).

(** The receive callback accepts every message and appends it to the log; the
    event callback leaves the log alone. *)
Record logging (cfg : rns_channel_config E) : Prop := {
  logging_receive : exists rf, cfg.(receive_fn) = Some rf /\
    forall mt sq p e, (rf mt sq p e).1 = RNS_OK /\ log (rf mt sq p e).2 = log e ++ [(mt, sq, p)];
  logging_event f k sq e : cfg.(event_fn) = Some f -> log (f k sq e) = log e
}.

Definition valid_messages : Prop := forall k,
  in_width 16 (msgs k).1 /\ (length (msgs k).2 <= RNS_CHANNEL_MAX_PAYLOAD_BYTES)%nat /\ bytes_ok (msgs k).2.

(** Position [k] of the stream: what is delivered for it, and its envelope. *)
Definition message (k : nat) : Z * Z * list Z := ((msgs k).1, wrap16 (Z.of_nat k), (msgs k).2).
Definition stream_envelope (k : nat) : list Z :=
  envelope_bytes (msgs k).1 (wrap16 (Z.of_nat k)) (msgs k).2.

(** The receiver has seen the positions [A] and delivered those below [n]. *)
Record tracks ch e (A : list nat) (n : nat) : Prop := {
  tracks_below j : (j < n)%nat -> j ∈ A;
  tracks_expected : ch.(expected_sequence) = wrap16 (Z.of_nat n);
  tracks_log : log e = message <$> seq 0 n;
  tracks_slot i s : ch.(receive) !! i = Some s -> s.(used) = true ->
    exists k, k ∈ A /\ (n <= k)%nat /\ Z.of_nat k < Z.of_nat n + ch.(config).(max_window) /\
      s.(sequence) = wrap16 (Z.of_nat k) /\ holds s (msgs k).1 (msgs k).2;
  tracks_pending k : k ∈ A -> (n <= k)%nat -> Z.of_nat k < Z.of_nat n + ch.(config).(max_window) /\
    exists i s, ch.(receive) !! i = Some s /\ s.(used) = true /\ s.(sequence) = wrap16 (Z.of_nat k)
}.

Lemma event_log ch k sq e : logging ch.(config) -> log (event ch k sq e) = log e.
Proof. intros Hl. unfold event. destruct (event_fn (config ch)) eqn:He; [|done]. by eapply logging_event. Qed.

Lemma tracks_advance ch e A n i s mt p rf e' :
  wf ch -> logging ch.(config) -> tracks ch e A n ->
  ch.(receive) !! i = Some s -> s.(used) = true -> s.(sequence) = ch.(expected_sequence) -> holds s mt p ->
  ch.(config).(receive_fn) = Some rf -> rf mt ch.(expected_sequence) p e = (RNS_OK, e') ->
  tracks (advance ch i) e' A (S n).
Proof.
  intros Hwf [(rf' & Hrf' & Hlog) _] [Hb He Hl Hsl Hp] Hi Hu Hs Hh Hrf Hcb.
  rewrite Hrf in Hrf'. injection Hrf' as <-. specialize (Hlog mt (expected_sequence ch) p e). rewrite Hcb in Hlog.
  destruct Hlog as [_ Hlog]. simpl in Hlog.
  pose proof (config_window _ (wf_config _ Hwf)) as Hmw. unfold RNS_CHANNEL_MAX_WINDOW in Hmw.
  destruct (Hsl i s Hi Hu) as (k & Hk & Hnk & Hkw & Hks & Hkh).
  assert (k = n) as ->. { apply Nat2Z.inj, positions_inj; [lia|]. by rewrite <-Hks, Hs. }
  assert (in_width 16 (sequence s)) as Hw by (rewrite Hks; by apply wrap_in_width).
  destruct (holds_inj _ _ _ _ _ Hw Hh Hkh) as [-> ->].
  assert (forall k, k ∈ A -> (S n <= k)%nat -> Z.of_nat k < Z.of_nat n + max_window (config ch) ->
    wrap16 (Z.of_nat k) <> sequence s) as Hne.
  { intros k _ Hk' Hkw' E'. rewrite Hks in E'. apply positions_inj in E'; lia. }
  constructor; unfold advance; cbn [expected_sequence receive config].
  - intros j Hj. destruct (decide (j = n)) as [->|]; [done|]. apply Hb. lia.
  - rewrite He, wrap_incr by lia. f_equal. lia.
  - by rewrite Hlog, Hl, He, seq_S, fmap_app.
  - intros j t Hj Ht. apply list_lookup_insert_Some in Hj as [(<- & <- & _)|[Hij Hj]]; [done|].
    destruct (Hsl j t Hj Ht) as (k & Hk' & Hnk' & Hkw' & Hks' & Hkh'). exists k. split_and!; try done; [|lia].
    destruct (decide (k = n)) as [->|]; [|lia]. destruct Hij.
    apply (receive_distinct _ _ _ (wf_receive _ Hwf) i j s t); try done. by rewrite Hks, Hks'.
  - intros k Hk' Hnk'. destruct (Hp k Hk') as (Hkw' & j & t & Hj & Ht & Hts); [lia|].
    split; [lia|]. exists j, t. split_and!; try done. rewrite list_lookup_insert_ne; [done|].
    intros <-. simplify_eq. by apply (Hne k).
Qed.

Lemma tracks_drains ch e ms st ch' e' A n :
  drains ch e ms st ch' e' -> wf ch -> logging ch.(config) -> tracks ch e A n ->
  exists n', tracks ch' e' A n' /\ (n' ∉ A) /\ st = RNS_OK /\ ch'.(config) = ch.(config).
Proof.
  intros Hd. revert n. induction Hd as [ch e Hno|ch e i s mt p rf st e' Hi Hu Hs Hh Hrf Hcb Hst|
    ch e i s mt p rf e1 ms st ch' e' Hi Hu Hs Hh Hrf Hcb Hd IH]; intros n Hwf Hlg Ht.
  - exists n. split_and!; try done. intros Hn.
    destruct (tracks_pending _ _ _ _ Ht n Hn (le_n _)) as (_ & i & s & Hi & Hu & Hs).
    apply (Hno i s Hi Hu). by rewrite Hs, (tracks_expected _ _ _ _ Ht).
  - destruct (logging_receive _ Hlg) as (rf' & Hrf' & Hlog). rewrite Hrf in Hrf'. injection Hrf' as <-.
    specialize (Hlog mt (expected_sequence ch) p e) as [Hlog _]. by rewrite Hcb in Hlog.
  - apply (IH (S n)); [|done|by eapply tracks_advance].
    pose proof (receive_ok_clear _ _ _ _ _ (wf_receive _ Hwf) (wf_expected _ Hwf) Hi Hu Hs) as Hr.
    destruct Hwf. constructor; simpl; try done. by apply wrap_in_width.
Qed.

Lemma stream_decode k :
  valid_messages ->
  rns_channel_envelope_decode (SBytes (stream_envelope k)) =
    Some (inr ((msgs k).1, wrap16 (Z.of_nat k), (msgs k).2)).
Proof.
  intros Hv. destruct (Hv k) as (Hm & Hp & _). apply decode_envelope_bytes; try done. by apply wrap_in_width.
Qed.

Lemma stream_envelope_bytes k : valid_messages -> bytes_ok (stream_envelope k).
Proof.
  intros Hv. destruct (Hv k) as (_ & _ & Hb). unfold stream_envelope, envelope_bytes.
  do 3 (apply Forall_app_2; [apply be_encode_bytes|]). done.
Qed.

(** One more position seen that was delivered or stored before. *)
Lemma tracks_seen ch e e' A n k :
  tracks ch e A n -> log e' = log e -> k ∈ A -> tracks ch e' (A ++ [k]) n.
Proof.
  intros [Hb He Hl Hs Hp] Hlog Hk.
  assert (forall j, j ∈ A ++ [k] <-> j ∈ A) as Hiff.
  { intros j. rewrite elem_of_app, list_elem_of_singleton. split; [by intros [?| ->]|by left]. }
  constructor; try done.
  - intros j Hj. apply Hiff. auto.
  - by rewrite Hlog.
  - intros i s Hi Hu. destruct (Hs i s Hi Hu) as (j & ? & ?). exists j. by rewrite Hiff.
  - intros j Hj. rewrite Hiff in Hj. auto.
Qed.

(** One more position stored. *)
Lemma tracks_store ch e e' A n k i s :
  tracks ch e A n -> log e' = log e -> (n <= k)%nat -> Z.of_nat k < Z.of_nat n + ch.(config).(max_window) ->
  ch.(receive) !! i = Some zero_slot ->
  s.(used) = true -> s.(sequence) = wrap16 (Z.of_nat k) -> holds s (msgs k).1 (msgs k).2 ->
  tracks (set_receive ch i s) e' (A ++ [k]) n.
Proof.
  intros [Hb He Hl Hs Hp] Hlog Hnk Hkw Hi Hu Hsq Hh.
  assert (forall j, j ∈ A ++ [k] <-> j ∈ A \/ j = k) as Hiff.
  { intros j. by rewrite elem_of_app, list_elem_of_singleton. }
  constructor; unfold set_receive; cbn [expected_sequence receive config]; try done.
  - intros j Hj. apply Hiff. auto.
  - by rewrite Hlog.
  - intros j t Hj Ht. apply list_lookup_insert_Some in Hj as [(<- & <- & _)|[_ Hj]].
    + exists k. rewrite Hiff. auto.
    + destruct (Hs j t Hj Ht) as (k' & ? & ?). exists k'. rewrite Hiff. auto.
  - intros j Hj Hnj. apply Hiff in Hj as [Hj| ->].
    + destruct (Hp j Hj Hnj) as (Hw & m & t & Hm & Ht & Htq). split; [done|].
      exists m, t. rewrite list_lookup_insert_ne; [done|]. intros <-. by simplify_eq.
    + split; [done|]. exists i, s. rewrite list_lookup_insert_eq; [done|]. by eapply lookup_lt_Some.
Qed.

Lemma tracks_receive ch e A n k :
  wf ch -> logging ch.(config) -> valid_messages -> tracks ch e A n -> n ∉ A ->
  (Z.of_nat k < Z.of_nat n + ch.(config).(max_window)) -> (Z.of_nat n <= Z.of_nat k + 32768) ->
  exists ch' e' n', rns_channel_receive ch (SBytes (stream_envelope k)) e = Some (RNS_OK, ch', e') /\
    wf ch' /\ ch'.(config) = ch.(config) /\ tracks ch' e' (A ++ [k]) n' /\ (n' ∉ A ++ [k]).
Proof.
  intros Hwf Hlg Hv Ht Hn Hk Hk'.
  pose proof (config_window _ (wf_config _ Hwf)) as Hmw. unfold RNS_CHANNEL_MAX_WINDOW in Hmw.
  pose proof (tracks_expected _ _ _ _ Ht) as He.
  assert (forall j, (j ∉ A ++ [k]) <-> (j ∉ A) /\ j <> k) as Hiff.
  { intros j. rewrite elem_of_app, list_elem_of_singleton. tauto. }
  destruct (receive_receives ch (stream_envelope k) e Hwf (stream_envelope_bytes k Hv))
    as (st & ch' & e' & -> & Hwf' & Hr).
  pose proof (before_positions (Z.of_nat k) (Z.of_nat n) ltac:(lia)) as Hbef. rewrite <-He in Hbef.
  destruct Hr as [D|mt sq p D Hb|mt sq p D Hb Hd|mt sq p i s D Hb Hd Hi Hu Hs
    |mt sq p i s ms st ch' e' D Hb Hd Hne Hi Hu Hs Hh Hwf1 Hdr];
    rewrite stream_decode in D by done; [done|injection D as <- <- <-; rewrite Hbef in Hb..].
  - apply Z.ltb_lt in Hb. eexists _, _, n. split; [done|]. split_and!; [done..| |apply Hiff; split; [done|lia]].
    eapply tracks_seen; [done|by apply event_log|]. apply (tracks_below _ _ _ _ Ht). lia.
  - apply Z.ltb_ge in Hb. rewrite He, distance_positions in Hd by lia. lia.
  - apply Z.ltb_ge in Hb. destruct (tracks_slot _ _ _ _ Ht i s Hi Hu) as (j & Hj & Hnj & Hjw & Hjs & _).
    assert (j = k) as ->.
    { rewrite Hs in Hjs. destruct (Z.le_ge_cases (Z.of_nat j) (Z.of_nat k)).
      - symmetry. apply Nat2Z.inj, positions_inj; [lia|done].
      - apply Nat2Z.inj, positions_inj; [lia|done]. }
    eexists _, _, n. split; [done|]. split_and!; [done..| |].
    + eapply tracks_seen; [done|by apply event_log|done].
    + apply Hiff. split; [done|]. by intros ->.
  - apply Z.ltb_ge in Hb.
    assert (tracks (set_receive ch i s) (if wrap16 (Z.of_nat k) =? expected_sequence ch then e
        else event ch RNS_CHANNEL_EVENT_OUT_OF_ORDER (wrap16 (Z.of_nat k)) e) (A ++ [k]) n) as Ht1.
    { eapply tracks_store; try done; [|lia]. destruct (_ =? _); [done|by apply event_log]. }
    destruct (tracks_drains _ _ _ _ _ _ _ _ Hdr Hwf1 Hlg Ht1) as (n' & Ht' & Hn' & -> & Hc).
    eexists _, _, n'. by split_and!.
Qed.

(** The receiver fed one envelope after the other, as long as it accepts. *)
Fixpoint receive_all ch (envelopes : list (list Z)) e : option (rns_channel E * E) :=
  match envelopes with
  | [] => Some (ch, e)
  | bs :: rest =>
      r ← rns_channel_receive ch (SBytes bs) e;
      let '(st, ch, e) := r in
      if is_ok st then receive_all ch rest e else None
  end.

Lemma tracks_receive_all ks ch e A n :
  wf ch -> logging ch.(config) -> valid_messages -> tracks ch e A n -> n ∉ A ->
  in_window (Z.to_nat ch.(config).(max_window)) A ks ->
  exists ch' e' n', receive_all ch (stream_envelope <$> ks) e = Some (ch', e') /\ wf ch' /\
    tracks ch' e' (A ++ ks) n' /\ (n' ∉ A ++ ks).
Proof.
  revert ch e A n. induction ks as [|k ks IH]; intros ch e A n Hwf Hlg Hv Ht Hn; simpl.
  { intros _. exists ch, e, n. by rewrite app_nil_r. }
  pose proof (frontier_unique A n (tracks_below _ _ _ _ Ht) Hn) as ->. intros (H1 & H2 & Hw).
  pose proof (config_window _ (wf_config _ Hwf)).
  destruct (tracks_receive ch e A n k Hwf Hlg Hv Ht Hn) as (ch1 & e1 & n1 & -> & Hwf1 & Hc1 & Ht1 & Hn1); [lia..|].
  cbn [mbind option_bind is_ok]. rewrite <-Hc1 in Hw, Hlg.
  destruct (IH ch1 e1 _ n1 Hwf1 Hlg Hv Ht1 Hn1 Hw) as (ch' & e' & n' & ? & ? & ? & ?).
  exists ch', e', n'. by rewrite <-app_assoc in *.
Qed.

(** C24: reliable in-order delivery. Feed a freshly initialised receiver the
    envelopes of a message stream in any order, with any repetitions, staying
    inside the window: every call succeeds, and what has been delivered to the
    application is exactly the stream's prefix up to the first position that
    has not arrived - each message once, in order, unchanged - across any number
    of wrap-arounds of the 16-bit sequence number. *)
Theorem channel_delivers_in_order cfg ch e ks :
  is_byte cfg.(initial_window) -> is_byte cfg.(max_retries) -> rns_channel_init cfg = inr ch ->
  logging cfg -> valid_messages -> log e = [] ->
  in_window (Z.to_nat cfg.(max_window)) [] ks ->
  exists ch' e', receive_all ch (stream_envelope <$> ks) e = Some (ch', e') /\
    log e' = message <$> seq 0 (frontier ks).
Proof.
  intros Hi Hr Hinit Hlg Hv Hlog Hwin. destruct (channel_init_wf cfg ch Hi Hr Hinit) as [Hwf Hcfg].
  assert (ch.(expected_sequence) = 0 /\ ch.(receive) = replicate RNS_CHANNEL_MAX_WINDOW zero_slot) as [He Hrc].
  { revert Hinit. unfold rns_channel_init. case_match; [done|]. by intros [= <-]. }
  rewrite <-Hcfg in Hlg, Hwin.
  destruct (tracks_receive_all ks ch e [] 0 Hwf Hlg Hv) as (ch' & e' & n' & Hall & _ & Ht & Hn); [|by apply not_elem_of_nil|done|].
  { constructor; try done.
    - intros; lia.
    - rewrite Hrc. intros i s Hs Hu. apply lookup_replicate in Hs as [-> _]. done.
    - intros k Hk. by apply not_elem_of_nil in Hk. }
  exists ch', e'. split; [done|]. rewrite (tracks_log _ _ _ _ Ht).
  pose proof (frontier_unique _ _ (tracks_below _ _ _ _ Ht) Hn) as F. cbn [app] in F. by rewrite F.
Qed.
End Stream.

(** ** Any use of a channel *)
Section Reachable.
Context {E : Type}.

Inductive channel_op : Type :=
| OpSend (mt : Z) (payload : slice) (seq_out : option Z)
| OpDelivered (sq : Z)
| OpReceive (envl : slice)
| OpTick.

(** The arguments have their C types. *)
Definition op_ok (op : channel_op) : Prop :=
  match op with
  | OpSend mt _ _ => in_width 16 mt
  | OpReceive envl => bytes_ok (slice_bytes envl)
  | _ => True
  end.

Definition run_op (op : channel_op) (ch : rns_channel E) (e : E) : option (rns_channel E * E) :=
  match op with
  | OpSend mt payload so => r ← rns_channel_send ch mt payload so e; let '(_, ch, _, e) := r in Some (ch, e)
  | OpDelivered sq => let '(_, ch, e) := rns_channel_mark_delivered ch sq e in Some (ch, e)
  | OpReceive envl => r ← rns_channel_receive ch envl e; let '(_, ch, e) := r in Some (ch, e)
  | OpTick => r ← rns_channel_tick ch e; let '(_, ch, e) := r in Some (ch, e)
  end.

Fixpoint run_ops (ops : list channel_op) (ch : rns_channel E) (e : E) : option (rns_channel E * E) :=
  match ops with
  | [] => Some (ch, e)
  | op :: ops => r ← run_op op ch e; let '(ch, e) := r in run_ops ops ch e
  end.

Lemma run_send_wf ch mt payload so e :
  wf ch -> in_width 16 mt -> exists ch' e', run_op (OpSend mt payload so) ch e = Some (ch', e') /\ wf ch'.
Proof.
  intros Hwf Hm. unfold run_op. destruct so as [s0|]; [|simpl; eauto].
  destruct (slice_bad payload) eqn:Hp; [unfold rns_channel_send; rewrite Hp; simpl; eauto|].
  destruct (config_send _ (wf_config _ Hwf)) as [f Hf], (config_clock _ (wf_config _ Hwf)) as [c Hc].
  pose proof (send_spec ch mt payload s0 e f c Hwf Hm Hp Hf Hc) as Hs. cbv zeta in Hs.
  case_decide; [|rewrite Hs; simpl; eauto].
  destruct (f _ e) as [st e1]. destruct (is_ok st); [|rewrite Hs; simpl; eauto].
  destruct (c e1) as [now e2]. destruct Hs as (ch' & i & s & -> & Hwf' & _). simpl. eauto.
Qed.

Lemma channel_run_op_wf op ch e :
  wf ch -> op_ok op -> exists ch' e', run_op op ch e = Some (ch', e') /\ wf ch'.
Proof.
  intros Hwf Hok. destruct op as [mt payload so|sq|[n|bs]|].
  - by apply run_send_wf.
  - pose proof (mark_delivered_wf ch sq e Hwf). unfold run_op.
    destruct (rns_channel_mark_delivered ch sq e) as [[st ch'] e']. eauto.
  - unfold run_op. simpl. eauto.
  - destruct (receive_receives ch bs e Hwf Hok) as (st & ch' & e' & Hr & ? & _).
    unfold run_op. rewrite Hr. simpl. eauto.
  - destruct (config_clock _ (wf_config _ Hwf)) as [c Hc]. destruct (c e) as [now e1] eqn:Hn.
    destruct (tick_spec ch e c now e1 Hwf Hc Hn) as (n & ch' & e' & Hr & ? & _).
    unfold run_op. rewrite Hr. simpl. eauto.
Qed.

(** C33: whatever sequence of sends, acknowledgements, received envelopes and
    ticks a channel goes through after a successful initialisation, and whatever
    its callbacks answer, no operation reads or writes out of bounds, calls a
    null callback or fails to terminate, and the channel stays well formed: the
    count of messages in flight is exact, the window stays between one and its
    maximum, every stored envelope is intact, and the received sequence numbers
    are distinct and inside the window. *)
Theorem channel_run_safe cfg ch ops e :
  is_byte cfg.(initial_window) -> is_byte cfg.(max_retries) -> rns_channel_init cfg = inr ch ->
  Forall op_ok ops ->
  exists ch' e', run_ops ops ch e = Some (ch', e') /\ wf ch'.
Proof.
  intros Hi Hr Hinit Hops. destruct (channel_init_wf cfg ch Hi Hr Hinit) as [Hwf _]. clear Hinit.
  revert ch e Hwf. induction Hops as [|op ops Hop Hops IH]; intros ch e Hwf; simpl; [eauto|].
  destruct (channel_run_op_wf op ch e Hwf Hop) as (ch1 & e1 & -> & Hwf1). simpl. auto.
Qed.
End Reachable.

(** The envelope codec is a bijection: [rns_channel_envelope_decode] answers
    on every byte string, rejecting with a protocol error exactly the strings
    that are not the encoding of a message, and on the others returning the
    message they encode. *)
Theorem rns_channel_envelope_decode_spec e mt sq p :
  bytes_ok e ->
  (rns_channel_envelope_decode (SBytes e) = Some (inr (mt, sq, p)) <->
   e = envelope_bytes mt sq p /\ in_width 16 mt /\ in_width 16 sq /\
   (length p <= RNS_CHANNEL_MAX_PAYLOAD_BYTES)%nat) /\
  (rns_channel_envelope_decode (SBytes e) = Some (inl RNS_ERROR_PROTOCOL) \/
   exists m, rns_channel_envelope_decode (SBytes e) = Some (inr m)).
Proof.
  intros Hb. split.
  - split; [|intros (-> & ? & ? & ?); by apply decode_envelope_bytes].
    intros D. destruct (decode_envelope_total e Hb) as [D'|(mt' & sq' & p' & D' & H)]; rewrite D in D'; [done|].
    injection D' as <- <- <-. tauto.
  - destruct (decode_envelope_total e Hb) as [D'|(mt' & sq' & p' & D' & H)]; eauto.
Qed.

(** ** A concrete channel

    The environment is the log of delivered messages. *)
Definition sample_config : rns_channel_config (list (Z * Z * list Z)) :=
  {| initial_window := 2; max_window := 4; max_retries := 3; retry_timeout := d_of_Z 5;
     clock := Some (λ e, (dzero, e)); send := Some (λ _ e, (RNS_OK, e));
     receive_fn := Some (λ mt sq p e, (RNS_OK, e ++ [(mt, sq, p)])); event_fn := None |}.

Definition sample : rns_channel (list (Z * Z * list Z)) :=
  {| config := sample_config; next_sequence := 0; expected_sequence := 0; window := 2; success_count := 0;
     outstanding := 0; transmit := replicate 32 zero_slot; receive := replicate 32 zero_slot |}.

Lemma sample_channel_init : rns_channel_init sample_config = inr sample.
Proof. reflexivity. Qed.

Lemma sample_channel_wf : wf sample.
Proof. apply (channel_init_wf sample_config sample); [vm_compute; split; congruence..|apply sample_channel_init]. Qed.

Definition sample_message (k : nat) : Z * list Z := (7, [Z.of_nat k mod 256]).

Lemma sample_logging : logging id sample_config.
Proof. constructor; [|done]. eexists. split; [done|]. intros. done. Qed.

Lemma sample_messages_valid : valid_messages sample_message.
Proof.
  intros k. split_and!; simpl; [by vm_compute|unfold RNS_CHANNEL_MAX_PAYLOAD_BYTES; simpl; lia|].
  apply Forall_cons_2; [by apply Z.mod_pos_bound|apply Forall_nil_2].
Qed.

Lemma rns_channel_envelope_encode_spec_witness :
  exists o', rns_channel_envelope_encode 1 2 (SBytes [3; 4]) (Some (replicate 20 0)) 20 (Some 0%nat)
    = Some (RNS_OK, Some o', Some 8%nat).
Proof.
  destruct (rns_channel_envelope_encode_spec 1 2 (SBytes [3; 4]) (replicate 20 0) 20 0 (le_n _) eq_refl)
    as (o' & E & _). exists o'. exact E.
Defined.

Lemma rns_channel_envelope_decode_spec_witness :
  rns_channel_envelope_decode (SBytes [0; 1; 0; 2; 0; 1; 9]) = Some (inr (1, 2, [9])).
Proof.
  apply (rns_channel_envelope_decode_spec [0; 1; 0; 2; 0; 1; 9] 1 2 [9]).
  - by apply (bool_decide_unpack _); vm_compute.
  - split; [reflexivity|]. split_and!; vm_compute; try split; congruence || lia.
Defined.

Lemma rns_channel_send_spec_witness :
  exists ch', rns_channel_send sample 7 (SBytes [1]) (Some 0) [] = Some (RNS_OK, ch', Some 0, []) /\ wf ch'.
Proof.
  destruct (rns_channel_send_spec sample 7 (SBytes [1]) 0 [] (λ _ e, (RNS_OK, e)) (λ e, (dzero, e)) sample_channel_wf)
    as (ch' & i & s & Hs & Hwf & _); [by vm_compute|done..|]. exists ch'. exact (conj Hs Hwf).
Defined.

Lemma rns_channel_mark_delivered_spec_witness :
  (rns_channel_mark_delivered sample 3 []).1.1 = RNS_ERROR_NOT_FOUND.
Proof.
  apply (rns_channel_mark_delivered_spec sample 3 [] sample_channel_wf).
Defined.

Lemma rns_channel_tick_spec_witness :
  exists n ch' e', rns_channel_tick sample [] = Some (n, ch', e') /\ wf ch'.
Proof.
  destruct (rns_channel_tick_spec sample [] (λ e, (dzero, e)) dzero [] sample_channel_wf eq_refl eq_refl)
    as (n & ch' & e' & H & Hwf & _). exists n, ch', e'. exact (conj H Hwf).
Defined.

Lemma rns_channel_receive_spec_witness :
  exists st ch' e', rns_channel_receive sample (SBytes [0; 1; 0; 0; 0; 1; 9]) [] = Some (st, ch', e') /\ wf ch'.
Proof.
  destruct (rns_channel_receive_spec sample [0; 1; 0; 0; 0; 1; 9] [] sample_channel_wf) as (st & ch' & e' & H & Hwf & _);
    [by apply (bool_decide_unpack _); vm_compute|]. exists st, ch', e'. exact (conj H Hwf).
Defined.

(** The stream 0, 1, 2, 4 arriving as 1, 0, 1, 4, 2. *)
Lemma channel_delivers_in_order_witness :
  exists ch', receive_all sample (stream_envelope sample_message <$> [1; 0; 1; 4; 2]%nat) [] =
    Some (ch', [(7, 0, [0]); (7, 1, [1]); (7, 2, [2])]).
Proof.
  destruct (channel_delivers_in_order id sample_message sample_config sample [] [1; 0; 1; 4; 2]%nat)
    as (ch' & e' & H & Hlog); [vm_compute; split; congruence..|apply sample_channel_init|apply sample_logging|
      apply sample_messages_valid|done|by vm_compute; intuition (lia || congruence)|].
  exists ch'. unfold id in Hlog. rewrite Hlog in H. exact H.
Defined.

Lemma channel_run_safe_witness :
  exists ch' e', run_ops [OpSend 7 (SBytes [1]) (Some 0); OpTick; OpDelivered 0; OpReceive (SBytes [1; 2])]
    sample [] = Some (ch', e') /\ wf ch'.
Proof.
  apply (channel_run_safe sample_config sample); [vm_compute; split; congruence..|apply sample_channel_init|].
  repeat apply Forall_cons_2; try apply Forall_nil_2; done.
Defined.

End Channel.
