(* ===== verification/Identity.v ===== *)
(** * Identities, delivery proofs and destination names

    [Identity] models [src/identity/identity.c] (key pairs, signatures, and the
    ephemeral-key encryption with optional ratchets), [DeliveryProof] models
    [src/transport/proof.c], and [Destination] models
    [src/destination/destination.c]. All are clients of the class [Crypto]. *)

From Stdlib Require Import ZArith Lia.
From S2P Require Import Prelude Crypto.

(** ** Comparing byte arrays without early exit

    The [equal_ct] loop: every byte is visited and the differences are
    accumulated. *)
Fixpoint equal_ct_loop (a b : list Z) (i n : nat) (different : Z) : option bool :=
  match n with
  | O => Some (different =? 0)
  | S n =>
      x ← load a i; y ← load b i;
      equal_ct_loop a b (S i) n (wrap8 (Z.lor different (wrap8 (Z.lxor x y))))
  end.

Definition equal_ct (a b : list Z) (n : nat) : option bool := equal_ct_loop a b 0 n 0.

Lemma byte_lxor_spec x y :
  is_byte x -> is_byte y -> is_byte (Z.lxor x y) /\ (Z.lxor x y = 0 <-> x = y).
Proof.
  intros Hx Hy. split; [|apply Z.lxor_eq_0_iff].
  assert (0 <= Z.lxor x y) by (apply Z.lxor_nonneg; unfold in_width in *; lia).
  split; [done|]. destruct (decide (Z.lxor x y = 0)) as [->|]; [done|].
  apply Z.log2_lt_pow2; [lia|]. pose proof (Z.log2_lxor x y). unfold in_width in *.
  assert (forall z, 0 <= z < 2 ^ 8 -> Z.log2 z < 8) as Hl.
  { intros z Hz. destruct (decide (z = 0)) as [->|]; [done|]. apply Z.log2_lt_pow2; lia. }
  pose proof (Hl x Hx). pose proof (Hl y Hy). lia.
Qed.

Lemma byte_lor_spec x y :
  is_byte x -> is_byte y -> is_byte (Z.lor x y) /\ (Z.lor x y = 0 <-> x = 0 /\ y = 0).
Proof.
  intros Hx Hy. split; [|apply Z.lor_eq_0_iff].
  assert (0 <= Z.lor x y) by (apply Z.lor_nonneg; unfold in_width in *; lia).
  split; [done|]. destruct (decide (Z.lor x y = 0)) as [->|]; [done|].
  apply Z.log2_lt_pow2; [lia|]. unfold in_width in *. rewrite Z.log2_lor by lia.
  assert (forall z, 0 <= z < 2 ^ 8 -> Z.log2 z < 8) as Hl.
  { intros z Hz. destruct (decide (z = 0)) as [->|]; [done|]. apply Z.log2_lt_pow2; lia. }
  pose proof (Hl x Hx). pose proof (Hl y Hy). lia.
Qed.

Lemma equal_ct_loop_spec a b i n d :
  bytes_ok a -> bytes_ok b -> (i + n <= length a)%nat -> (i + n <= length b)%nat -> is_byte d ->
  equal_ct_loop a b i n d = Some ((d =? 0) && memeq (take n (drop i a)) (take n (drop i b))).
Proof.
  intros Ha Hb. revert i d. induction n as [|n IH]; intros i d Hla Hlb Hd; simpl.
  { rewrite !take_0, memeq_refl, andb_true_r. done. }
  destruct (lookup_lt_is_Some_2 a i) as [x Hx]; [lia|]. destruct (lookup_lt_is_Some_2 b i) as [y Hy]; [lia|].
  unfold load. rewrite Hx, Hy. cbn [mbind option_bind].
  pose proof (Forall_lookup_1 _ _ _ _ Ha Hx) as Hbx. pose proof (Forall_lookup_1 _ _ _ _ Hb Hy) as Hby.
  destruct (byte_lxor_spec x y Hbx Hby) as [Hxy Exy]. rewrite (wrap_small 8 (Z.lxor x y)) by done.
  destruct (byte_lor_spec d _ Hd Hxy) as [Hor Eor]. rewrite wrap_small by done.
  rewrite IH by (done || lia). f_equal.
  rewrite (drop_S _ _ _ Hx), (drop_S _ _ _ Hy), !firstn_cons.
  apply eq_true_iff_eq. rewrite !andb_true_iff, !Z.eqb_eq, !memeq_true, Eor, Exy.
  split; [intros [[-> ->] ->]; done|intros [-> [= -> ->]]; done].
Qed.

Lemma equal_ct_spec a b n :
  bytes_ok a -> bytes_ok b -> (n <= length a)%nat -> (n <= length b)%nat ->
  equal_ct a b n = Some (memeq (take n a) (take n b)).
Proof. intros. unfold equal_ct. by rewrite equal_ct_loop_spec, !drop_0 by (done || lia). Qed.

(** ** Identities *)
Module Identity.

Definition RNS_RATCHET_PRIVATE_SIZE : nat := 32.

Record rns_identity : Type := {
  encryption_private : list Z;
  signing_private : list Z;
  encryption_public : list Z;
  signing_public : list Z;
  hash : list Z;
  has_private : bool
}.

Definition zero_identity : rns_identity :=
  {| encryption_private := replicate 32 0; signing_private := replicate 32 0;
     encryption_public := replicate 32 0; signing_public := replicate 32 0;
     hash := replicate 16 0; has_private := false |}.

Section WithCrypto.
Context `{Crypto}.

Definition update_hash (identity : rns_identity) : option rns_identity :=
  let pub := identity.(encryption_public) ++ identity.(signing_public) in
  digest ← rns_sha256 pub;
  Some {| identity with hash := take 16 digest |}.

(** The two seeds are the random choices of the key generations. *)
Definition rns_identity_generate (seed1 seed2 : list Z) : option rns_identity :=
  x ← rns_x25519_generate seed1;
  e ← rns_ed25519_generate seed2;
  let z := zero_identity in
  update_hash {| z with encryption_private := x.1; encryption_public := x.2;
                 signing_private := e.1; signing_public := e.2; has_private := true |}.

Definition rns_identity_from_private (private_key : list Z) : option rns_identity :=
  let xk := take 32 private_key in
  let ek := take 32 (drop 32 private_key) in
  xp ← rns_x25519_public_from_private xk;
  ep ← rns_ed25519_public_from_private ek;
  let z := zero_identity in
  update_hash {| z with encryption_private := xk; signing_private := ek;
                 encryption_public := xp; signing_public := ep; has_private := true |}.

Definition rns_identity_from_public (public_key : list Z) : option rns_identity :=
  let z := zero_identity in
  update_hash {| z with encryption_public := take 32 public_key;
                 signing_public := take 32 (drop 32 public_key) |}.

Definition rns_identity_export_private (identity : rns_identity) : option (list Z) :=
  if negb identity.(has_private) then None
  else Some (identity.(encryption_private) ++ identity.(signing_private)).

Definition rns_identity_export_public (identity : rns_identity) : list Z :=
  identity.(encryption_public) ++ identity.(signing_public).

Definition rns_identity_sign (identity : rns_identity) (message : list Z) : option (list Z) :=
  if identity.(has_private) then rns_ed25519_sign identity.(signing_private) message else None.

Definition rns_identity_verify (identity : rns_identity) (message signature : list Z) : bool :=
  rns_ed25519_verify identity.(signing_public) message signature.

Definition rns_identity_encrypt_bound (plaintext_length : Z) : Z :=
  if SIZE_MAX - 16 <? plaintext_length then 0
  else
    let blocks := plaintext_length / 16 + 1 in
    if (SIZE_MAX - 80) / 16 <? blocks then 0 else 80 + blocks * 16.

(** The ephemeral public key followed by the token; [seed1] and [seed2] are the
    random choices of the key generation and of the token. *)
Definition rns_identity_encrypt (identity : rns_identity) (ratchet_public : option (list Z))
    (seed1 seed2 plaintext : list Z) (out_capacity : nat) : option (list Z) :=
  let bound := rns_identity_encrypt_bound (Z.of_nat (length plaintext)) in
  if (bound =? 0) || (Z.of_nat out_capacity <? bound) then None
  else
    let target := match ratchet_public with Some p => p | None => identity.(encryption_public) end in
    ephemeral ← rns_x25519_generate seed1;
    shared ← rns_x25519_exchange ephemeral.1 target;
    derived ← rns_hkdf_sha256 shared identity.(hash) [] 64;
    token ← rns_token_encrypt derived seed2 plaintext (out_capacity - 32);
    Some (ephemeral.2 ++ token).

Definition rns_identity_ratchet_id (public_key : list Z) : list Z :=
  match rns_sha256 public_key with Some digest => take 16 digest | None => replicate 16 0 end.

Definition rns_identity_ratchet_generate (seed : list Z) : option (list Z * list Z * list Z) :=
  r ← rns_x25519_generate seed;
  Some (r.1, r.2, rns_identity_ratchet_id r.2).

Definition decrypt_with_private (identity : rns_identity) (private_key ciphertext : list Z)
    (out_capacity : nat) : option (list Z) :=
  shared ← rns_x25519_exchange private_key (take 32 ciphertext);
  derived ← rns_hkdf_sha256 shared identity.(hash) [] 64;
  rns_token_decrypt derived (drop 32 ciphertext) out_capacity.

(** The plaintext, the ratchet identifier (zero when no ratchet was used or none
    was asked for) and whether a ratchet was used. *)
Record decrypted : Type := {
  plaintext : list Z;
  ratchet_id : list Z;
  used_ratchet : bool
}.

(** The loop over the ratchets: [None] when no ratchet fits, [Some] the
    function's result. *)
Fixpoint try_ratchets (identity : rns_identity) (ratchets : list (list Z)) (ciphertext : list Z)
    (out_capacity : nat) (want_id : bool) : option (option decrypted) :=
  match ratchets with
  | [] => None
  | private_key :: rest =>
      match decrypt_with_private identity private_key ciphertext out_capacity with
      | Some p =>
          Some (if want_id then
                  pk ← rns_x25519_public_from_private private_key;
                  Some {| plaintext := p; ratchet_id := rns_identity_ratchet_id pk; used_ratchet := true |}
                else Some {| plaintext := p; ratchet_id := replicate 16 0; used_ratchet := true |})
      | None => try_ratchets identity rest ciphertext out_capacity want_id
      end
  end.

Definition rns_identity_decrypt_with_ratchets (identity : rns_identity) (ratchets : list (list Z))
    (enforce_ratchets : bool) (ciphertext : slice) (out_capacity : nat) (want_id : bool)
    : option decrypted :=
  match ciphertext with
  | SNull _ => None
  | SBytes c =>
      if negb identity.(has_private) || (length c <=? 32)%nat ||
         (SIZE_MAX / Z.of_nat RNS_RATCHET_PRIVATE_SIZE <? Z.of_nat (length ratchets)) then None
      else
        match try_ratchets identity ratchets c out_capacity want_id with
        | Some r => r
        | None =>
            if enforce_ratchets then None
            else
              p ← decrypt_with_private identity identity.(encryption_private) c out_capacity;
              Some {| plaintext := p; ratchet_id := replicate 16 0; used_ratchet := false |}
        end
  end.

Definition rns_identity_decrypt (identity : rns_identity) (ciphertext : slice) (out_capacity : nat)
    : option (list Z) :=
  plaintext <$> rns_identity_decrypt_with_ratchets identity [] false ciphertext out_capacity false.

(** *** Well-formed identities *)

Record wf (i : rns_identity) : Prop := {
  wf_encryption_private : length i.(encryption_private) = 32%nat;
  wf_signing_private : length i.(signing_private) = 32%nat;
  wf_encryption_public : length i.(encryption_public) = 32%nat;
  wf_signing_public : length i.(signing_public) = 32%nat;
  wf_hash : exists d, rns_sha256 (rns_identity_export_public i) = Some d /\ i.(hash) = take 16 d;
  wf_keys : if i.(has_private) then
      x25519_pair i.(encryption_private) i.(encryption_public) /\
      ed25519_pair i.(signing_private) i.(signing_public)
    else i.(encryption_private) = replicate 32 0 /\ i.(signing_private) = replicate 32 0
}.

Lemma update_hash_Some i j :
  update_hash i = Some j ->
  exists d, rns_sha256 (rns_identity_export_public i) = Some d /\ j = {| i with hash := take 16 d |}.
Proof. unfold update_hash. intros (d & Hd & [= <-])%bind_Some. eauto. Qed.

Lemma hash_length i : wf i -> length i.(hash) = 16%nat.
Proof. intros Hwf. destruct (wf_hash _ Hwf) as (d & Hd & ->). apply sha256_length in Hd. rewrite length_take. lia. Qed.

Lemma generate_wf s1 s2 i : rns_identity_generate s1 s2 = Some i -> wf i /\ i.(has_private) = true.
Proof.
  unfold rns_identity_generate. intros ([xk xp] & Hx & Hr)%bind_Some.
  apply bind_Some in Hr as ([ek ep] & He & Hr). simpl in Hr.
  apply update_hash_Some in Hr as (d & Hd & ->). split; [|done].
  apply x_generate_spec in Hx as [Hxk Hxp]. apply ed_generate_spec in He as [Hek Hep].
  pose proof (x_pair_length _ _ Hxp). pose proof (ed_pair_length _ _ Hep).
  constructor; simpl; try done. by exists d.
Qed.

Lemma from_private_wf k i :
  length k = 64%nat -> rns_identity_from_private k = Some i ->
  wf i /\ i.(has_private) = true /\ rns_identity_export_private i = Some k.
Proof.
  intros Hk. unfold rns_identity_from_private. intros (xp & Hxp & Hr)%bind_Some.
  apply bind_Some in Hr as (ep & Hep & Hr). apply update_hash_Some in Hr as (d & Hd & ->).
  apply x_public_pair in Hxp. apply ed_public_pair in Hep.
  pose proof (x_pair_length _ _ Hxp). pose proof (ed_pair_length _ _ Hep).
  split_and!; [|done|].
  - constructor; simpl; try done; [rewrite length_take; lia|rewrite length_take, length_drop; lia|by exists d].
  - unfold rns_identity_export_private. simpl. f_equal. rewrite (take_ge (drop 32 k)) by (rewrite length_drop; lia).
    apply take_drop.
Qed.

Lemma from_public_wf k i :
  length k = 64%nat -> rns_identity_from_public k = Some i ->
  wf i /\ i.(has_private) = false /\ rns_identity_export_public i = k.
Proof.
  intros Hk. unfold rns_identity_from_public. intros (d & Hd & ->)%update_hash_Some.
  split_and!; [|done|].
  - constructor; simpl; try done; [rewrite length_take; lia|rewrite length_take, length_drop; lia|by exists d].
  - unfold rns_identity_export_public. simpl. rewrite (take_ge (drop 32 k)) by (rewrite length_drop; lia).
    apply take_drop.
Qed.

(** The public half of an identity. *)
Definition public_half (i : rns_identity) : rns_identity :=
  {| i with encryption_private := replicate 32 0; signing_private := replicate 32 0; has_private := false |}.

Lemma from_public_export i :
  wf i -> rns_identity_from_public (rns_identity_export_public i) = Some (public_half i).
Proof.
  intros Hwf. destruct (wf_hash _ Hwf) as (d & Hd & Hh). unfold rns_identity_from_public, update_hash, rns_identity_export_public in *.
  rewrite take_app_length', (drop_app_length' (encryption_public i)), (take_ge (signing_public i))
    by (pose proof (wf_encryption_public _ Hwf); pose proof (wf_signing_public _ Hwf); lia).
  cbn [encryption_public signing_public]. rewrite Hd. cbn [mbind option_bind]. unfold public_half. by rewrite Hh.
Qed.

Lemma from_private_export i k j :
  wf i -> rns_identity_export_private i = Some k -> rns_identity_from_private k = Some j -> j = i.
Proof.
  intros Hwf. unfold rns_identity_export_private. destruct (has_private i) eqn:Hp; [|done]. intros [= <-].
  destruct (wf_hash _ Hwf) as (d & Hd & Hh). pose proof (wf_keys _ Hwf) as Hk. rewrite Hp in Hk. destruct Hk as [Hx He].
  unfold rns_identity_from_private.
  rewrite take_app_length', (drop_app_length' (encryption_private i)), (take_ge (signing_private i))
    by (pose proof (wf_encryption_private _ Hwf); pose proof (wf_signing_private _ Hwf); lia).
  intros (xp & Hxp%x_public_pair & Hr)%bind_Some. apply bind_Some in Hr as (ep & Hep%ed_public_pair & Hr).
  rewrite (x_pair_unique _ _ _ Hxp Hx), (ed_pair_unique _ _ _ Hep He) in Hr.
  unfold update_hash in Hr. cbn [encryption_public signing_public] in Hr. unfold rns_identity_export_public in Hd, Hr. cbn [encryption_public signing_public] in Hr.
  rewrite Hd in Hr. injection Hr as <-. destruct i. simpl in *. by subst.
Qed.

(** Exporting and importing an identity are inverse: an identity built from
    64 private bytes exports those bytes, importing what a well-formed identity
    exports gives the identity back when the keys can be derived, and the public export identifies the same
    peer (same public keys and hash, without the private keys). *)
Theorem identity_import_export i k :
  wf i -> rns_identity_export_private i = Some k ->
  (forall j, rns_identity_from_private k = Some j -> j = i) /\
  rns_identity_from_public (rns_identity_export_public i) = Some (public_half i) /\
  (forall j, length k = 64%nat -> rns_identity_from_private k = Some j -> rns_identity_export_private j = Some k).
Proof.
  intros Hwf Hk. split_and!; [intros j; by apply from_private_export|by apply from_public_export|].
  intros j Hl Hj. by destruct (from_private_wf _ _ Hl Hj) as (_ & _ & ?).
Qed.

Lemma sign_verify_public i m s :
  wf i -> rns_identity_sign i m = Some s -> rns_identity_verify (public_half i) m s = true.
Proof.
  intros Hwf. unfold rns_identity_sign, rns_identity_verify. pose proof (wf_keys _ Hwf) as Hk.
  destruct (has_private i); [|done]. intros Hs. simpl. exact (sign_verify _ _ _ _ (proj2 Hk) Hs).
Qed.

(** What an identity signs, a peer that knows only its exported public key
    verifies. *)
Theorem identity_sign_verify i m s :
  wf i -> rns_identity_sign i m = Some s ->
  exists j, rns_identity_from_public (rns_identity_export_public i) = Some j /\
    rns_identity_verify j m s = true /\ length s = 64%nat.
Proof.
  intros Hwf Hs. exists (public_half i). split_and!; [by apply from_public_export|by apply sign_verify_public|].
  unfold rns_identity_sign in Hs. case_match; [|done]. by apply sign_length in Hs.
Qed.

(** *** Encryption *)

Lemma encrypt_bound_spec n :
  0 <= n -> rns_identity_encrypt_bound n = 0 \/
  (rns_identity_encrypt_bound n = 80 + (n / 16 + 1) * 16 /\ rns_identity_encrypt_bound n <= SIZE_MAX).
Proof.
  intros Hn. unfold rns_identity_encrypt_bound. case_match; [auto|]. case_match eqn:E; [auto|].
  right. split; [done|]. apply Z.ltb_ge in E. pose proof (Z.mul_div_le (SIZE_MAX - 80) 16). limits. lia.
Qed.

(** The sender and the holder of the target's private key derive the same
    token key. *)
Lemma encrypt_decrypt_private i j target priv ratchet_public s1 s2 p cap c cap' :
  x25519_pair priv target ->
  match ratchet_public with Some r => r | None => i.(encryption_public) end = target ->
  j.(hash) = i.(hash) ->
  rns_identity_encrypt i ratchet_public s1 s2 p cap = Some c -> (length c <= cap' + 80)%nat ->
  Z.of_nat (length c) = rns_identity_encrypt_bound (Z.of_nat (length p)) /\ (length c <= cap)%nat /\
  decrypt_with_private j priv c cap' = Some p.
Proof.
  intros Hpub Htarget Hhash. unfold rns_identity_encrypt.
  destruct (_ || _) eqn:Hb; [done|]. apply orb_false_iff in Hb as [Hb0%Z.eqb_neq Hcap%Z.ltb_ge].
  rewrite Htarget. intros ([ek ep] & Hgen & Hr)%bind_Some. simpl in Hr.
  apply bind_Some in Hr as (shared & Hsh & Hr). apply bind_Some in Hr as (derived & Hd & Hr).
  apply bind_Some in Hr as (t & Ht & [= <-]). intros Hl.
  apply x_generate_spec in Hgen as [_ Hep]. pose proof (x_pair_length _ _ Hep) as Hel.
  destruct (token_encrypt_size _ _ _ _ _ Ht) as [Hts Htc]. rewrite length_app in *.
  destruct (encrypt_bound_spec (Z.of_nat (length p))) as [E|[E _]]; [lia|lia|].
  unfold token_size in Hts. split_and!.
  - rewrite E, Nat2Z.inj_add, Hts, Hel. change 16 with (Z.of_nat 16). rewrite <-Nat2Z.inj_div. lia.
  - lia.
  - unfold decrypt_with_private. rewrite (take_app_length' ep), (drop_app_length' ep) by lia.
    rewrite (exchange_comm priv ek target ep) by done. rewrite Hsh. cbn [mbind option_bind].
    rewrite Hhash, Hd. cbn [mbind option_bind].
    eapply token_roundtrip; [done|]. unfold RNS_TOKEN_OVERHEAD. lia.
Qed.

(** Encryption round trip. A message encrypted to the public half of an
    identity is exactly [rns_identity_encrypt_bound] bytes long, and the
    identity decrypts it to the plaintext. *)
Theorem identity_encrypt_decrypt i s1 s2 p cap c cap' :
  wf i -> i.(has_private) = true ->
  rns_identity_encrypt (public_half i) None s1 s2 p cap = Some c -> (length c <= cap' + 80)%nat ->
  Z.of_nat (length c) = rns_identity_encrypt_bound (Z.of_nat (length p)) /\
  rns_identity_decrypt i (SBytes c) cap' = Some p.
Proof.
  intros Hwf Hp He Hl. pose proof (wf_keys _ Hwf) as Hk. rewrite Hp in Hk. destruct Hk as [Hx _].
  destruct (encrypt_decrypt_private (public_half i) i (encryption_public i) (encryption_private i) None s1 s2 p cap c cap')
    as (Hlen & Hc & Hd); [done..|]. split; [done|].
  unfold rns_identity_decrypt, rns_identity_decrypt_with_ratchets. rewrite Hp.
  assert (32 < length c)%nat as H32.
  { destruct (encrypt_bound_spec (Z.of_nat (length p))) as [E|[E _]]; [lia|..].
    - rewrite E in Hlen. unfold rns_identity_encrypt in He. by rewrite E in He.
    - pose proof (Z.div_pos (Z.of_nat (length p)) 16). lia. }
  rewrite (proj2 (Nat.leb_gt _ _)) by done. cbn [negb orb length]. 
  rewrite (proj2 (Z.ltb_ge _ _)) by (vm_compute; congruence).
  cbn [try_ratchets]. rewrite Hd. done.
Qed.

(** Encryption to a ratchet. The holder of the ratchet's private key decrypts
    the message, also when only ratchets are allowed; the ratchets that come
    before it in the list are tried first, and the identifier reported is the
    one of the ratchet that worked. *)
Theorem identity_ratchet_decrypt i before after priv rpub s1 s2 p cap c cap' enforce :
  i.(has_private) = true ->
  rns_x25519_public_from_private priv = Some rpub ->
  rns_identity_encrypt (public_half i) (Some rpub) s1 s2 p cap = Some c -> (length c <= cap' + 80)%nat ->
  Forall (λ k, decrypt_with_private i k c cap' = None) before ->
  Z.of_nat (length (before ++ priv :: after)) <= SIZE_MAX / 32 ->
  rns_identity_decrypt_with_ratchets i (before ++ priv :: after) enforce (SBytes c) cap' true =
    Some {| plaintext := p; ratchet_id := rns_identity_ratchet_id rpub; used_ratchet := true |}.
Proof.
  intros Hp Hpub He Hl Hbefore Hn.
  destruct (encrypt_decrypt_private (public_half i) i rpub priv (Some rpub) s1 s2 p cap c cap')
    as (Hlen & Hc & Hd); [by apply x_public_pair|done..|].
  assert (32 < length c)%nat as H32.
  { destruct (encrypt_bound_spec (Z.of_nat (length p))) as [E|[E _]]; [lia|..].
    - rewrite E in Hlen. unfold rns_identity_encrypt in He. by rewrite E in He.
    - pose proof (Z.div_pos (Z.of_nat (length p)) 16). lia. }
  unfold rns_identity_decrypt_with_ratchets. rewrite Hp, (proj2 (Nat.leb_gt _ _)) by done. cbn [negb orb].
  rewrite (proj2 (Z.ltb_ge _ _)) by done.
  replace (try_ratchets i (before ++ priv :: after) c cap' true) with
    (Some (Some {| plaintext := p; ratchet_id := rns_identity_ratchet_id rpub; used_ratchet := true |})); [done|].
  clear Hn. induction Hbefore as [|k before Hk _ IH]; cbn [app try_ratchets].
  - rewrite Hd, Hpub. done.
  - by rewrite Hk.
Qed.

End WithCrypto.

(** *** A concrete identity *)
Definition sample : rns_identity := default zero_identity (rns_identity_generate [1] [2]).

Lemma sample_generated : rns_identity_generate [1] [2] = Some sample.
Proof. vm_compute. reflexivity. Qed.

Lemma sample_wf : wf sample.
Proof. apply (generate_wf [1] [2] sample sample_generated). Qed.

Lemma identity_import_export_witness :
  exists k, rns_identity_export_private sample = Some k /\ rns_identity_from_private k = Some sample.
Proof.
  pose proof (proj1 (identity_import_export sample (encryption_private sample ++ signing_private sample) sample_wf eq_refl)) as Hj.
  destruct (rns_identity_from_private (encryption_private sample ++ signing_private sample)) as [j|] eqn:E.
  - exists (encryption_private sample ++ signing_private sample). split; [reflexivity|]. rewrite E. f_equal. by apply Hj.
  - vm_compute in E. done.
Defined.

Lemma identity_sign_verify_witness :
  exists j s, rns_identity_sign sample [1; 2; 3] = Some s /\ rns_identity_verify j [1; 2; 3] s = true.
Proof.
  destruct (identity_sign_verify sample [1; 2; 3] (fold_to 64 (fold_to 32 (signing_private sample) ++ [1; 2; 3]))
    sample_wf) as (j & _ & Hv & _); [vm_compute; reflexivity|].
  eexists j, _. split; [|exact Hv]. vm_compute. reflexivity.
Defined.

Lemma identity_encrypt_decrypt_witness :
  exists c, rns_identity_encrypt (public_half sample) None [3] [4] [9; 8; 7] 96 = Some c /\
    rns_identity_decrypt sample (SBytes c) 16 = Some [9; 8; 7].
Proof.
  eexists. split; [vm_compute; reflexivity|].
  refine (proj2 (identity_encrypt_decrypt sample [3] [4] [9; 8; 7] 96 _ 16 sample_wf eq_refl _ _));
    [vm_compute; reflexivity|vm_compute; lia].
Defined.

Lemma identity_ratchet_decrypt_witness :
  exists c, rns_identity_encrypt (public_half sample) (Some (fold_to 32 [5])) [3] [4] [9; 8; 7] 96 = Some c /\
    rns_identity_decrypt_with_ratchets sample [[5]] true (SBytes c) 16 true =
      Some {| plaintext := [9; 8; 7]; ratchet_id := rns_identity_ratchet_id (fold_to 32 [5]); used_ratchet := true |}.
Proof.
  eexists. split; [vm_compute; reflexivity|].
  apply (identity_ratchet_decrypt sample [] [] [5] (fold_to 32 [5]) [3] [4] [9; 8; 7] 96 _ 16 true);
    [vm_compute; reflexivity|vm_compute; reflexivity|vm_compute; reflexivity|vm_compute; lia|
     apply Forall_nil_2|vm_compute; congruence].
Defined.

End Identity.

(** ** Delivery proofs *)
Module DeliveryProof.
Import Identity.
Section WithCrypto.
Context `{Crypto}.

Definition RNS_PROOF_EXPLICIT_SIZE : nat := 96.
Definition RNS_PROOF_IMPLICIT_SIZE : nat := 64.

Definition rns_proof_generate_explicit (identity : rns_identity) (packet_hash : list Z) : option (list Z) :=
  s ← rns_identity_sign identity packet_hash; Some (packet_hash ++ s).

Definition rns_proof_generate_implicit (identity : rns_identity) (packet_hash : list Z) : option (list Z) :=
  rns_identity_sign identity packet_hash.

(** The outer option is memory safety. *)
Definition rns_proof_validate (identity : rns_identity) (expected_packet_hash : list Z) (proof : slice)
    : option bool :=
  match proof with
  | SNull _ => Some false
  | SBytes p =>
      if (length p =? RNS_PROOF_EXPLICIT_SIZE)%nat then
        same ← equal_ct p expected_packet_hash 32;
        if negb same then Some false
        else s ← memread p 32 64; Some (rns_identity_verify identity expected_packet_hash s)
      else if (length p =? RNS_PROOF_IMPLICIT_SIZE)%nat then
        s ← memread p 0 64; Some (rns_identity_verify identity expected_packet_hash s)
      else Some false
  end.

(** [rns_proof_validate] reads within the proof on every input, and accepts
    exactly: 96 bytes that are the expected hash and a valid signature of it, or
    64 bytes that are a valid signature of it. *)
Theorem rns_proof_validate_spec identity h p :
  length h = 32%nat -> bytes_ok h -> bytes_ok p ->
  exists r, rns_proof_validate identity h (SBytes p) = Some r /\
    (r = true <-> exists s, length s = 64%nat /\ rns_identity_verify identity h s = true /\ (p = h ++ s \/ p = s)).
Proof.
  intros Hl Hh Hp. unfold rns_proof_validate, RNS_PROOF_EXPLICIT_SIZE, RNS_PROOF_IMPLICIT_SIZE.
  destruct (Nat.eqb_spec (length p) 96) as [E|E].
  - rewrite equal_ct_spec by (done || lia). cbn [mbind option_bind]. rewrite (take_ge h) by lia.
    destruct (memeq (take 32 p) h) eqn:Em; cbn [negb].
    + apply memeq_true in Em. unfold memread. rewrite decide_True by lia. cbn [mbind option_bind].
      rewrite take_ge by (rewrite length_drop; lia). eexists. split; [done|]. split.
      * intros Hv. exists (drop 32 p). rewrite length_drop. split_and!; [lia|done|left].
        by rewrite <-Em, take_drop.
      * intros (s & Hs & Hv & [->| ->]); [by rewrite drop_app_length' by done|lia].
    + eexists. split; [done|]. split; [done|]. intros (s & Hs & _ & [->| ->]); [|lia].
      rewrite take_app_length', memeq_refl in Em by done. done.
  - destruct (Nat.eqb_spec (length p) 64) as [E'|E'].
    + unfold memread. rewrite decide_True by lia. cbn [mbind option_bind]. rewrite drop_0, take_ge by lia.
      eexists. split; [done|]. split; [intros Hv; eauto|].
      intros (s & Hs & Hv & [->| ->]); [rewrite length_app in E'; lia|done].
    + eexists. split; [done|]. split; [done|].
      intros (s & Hs & _ & [->| ->]); [rewrite length_app in E; lia|lia].
Qed.

Lemma proofs_validate i h pe pi :
  wf i -> length h = 32%nat -> bytes_ok h ->
  rns_proof_generate_explicit i h = Some pe -> rns_proof_generate_implicit i h = Some pi ->
  rns_proof_validate (public_half i) h (SBytes pe) = Some true /\
  rns_proof_validate (public_half i) h (SBytes pi) = Some true.
Proof.
  intros Hwf Hl Hb (s & Hs & [= <-])%bind_Some Hi. unfold rns_proof_generate_implicit in Hi.
  rewrite Hs in Hi. injection Hi as <-.
  pose proof (sign_verify_public _ _ _ Hwf Hs) as Hv.
  assert (length s = 64%nat /\ bytes_ok s) as [Hsl Hsb].
  { unfold rns_identity_sign in Hs. case_match; [|done]. split; [by apply sign_length in Hs|by apply sign_bytes in Hs]. }
  unfold rns_proof_validate, RNS_PROOF_EXPLICIT_SIZE, RNS_PROOF_IMPLICIT_SIZE. rewrite length_app, Hl, Hsl. cbn [Nat.eqb Nat.add].
  rewrite equal_ct_spec by (rewrite ?Forall_app, ?length_app; done || lia). cbn [mbind option_bind].
  rewrite take_app_length', (take_ge h), memeq_refl by lia. cbn [negb].
  unfold memread. rewrite !decide_True by (rewrite ?length_app; lia). cbn [mbind option_bind].
  rewrite drop_app_length', drop_0, take_ge, Hv by lia. done.
Qed.

(** The delivery proofs an identity generates, explicit and implicit, are
    accepted by a peer that knows its public key. *)
Theorem rns_proof_roundtrip i h pe pi :
  wf i -> length h = 32%nat -> bytes_ok h ->
  rns_proof_generate_explicit i h = Some pe -> rns_proof_generate_implicit i h = Some pi ->
  rns_proof_validate (public_half i) h (SBytes pe) = Some true /\
  rns_proof_validate (public_half i) h (SBytes pi) = Some true.
Proof. apply proofs_validate. Qed.
End WithCrypto.

Lemma rns_proof_validate_spec_witness :
  exists r, rns_proof_validate sample (fold_to 32 [1]) (SBytes [1; 2]) = Some r.
Proof.
  destruct (rns_proof_validate_spec sample (fold_to 32 [1]) [1; 2] (length_fold_to _ _) (fold_to_bytes _ _))
    as (r & Hr & _); [by apply (bool_decide_unpack _); vm_compute|]. by exists r.
Defined.

Lemma rns_proof_roundtrip_witness :
  exists pe, rns_proof_generate_explicit sample (fold_to 32 [1]) = Some pe /\
    rns_proof_validate (public_half sample) (fold_to 32 [1]) (SBytes pe) = Some true.
Proof.
  eexists. split; [vm_compute; reflexivity|].
  refine (proj1 (rns_proof_roundtrip sample (fold_to 32 [1]) _
    (fold_to 64 (fold_to 32 (signing_private sample) ++ fold_to 32 [1])) sample_wf (length_fold_to _ _) (fold_to_bytes _ _) _ _));
    vm_compute; reflexivity.
Defined.

End DeliveryProof.

(** ** Destination names and hashes *)
Module Destination.
Import Identity.

(** ['.'] *)
Definition DOT : Z := 46.

(** A [const char *] is [None] for the null pointer, otherwise the bytes before
    the terminating zero. *)
Definition valid_component (value : option (list Z)) : bool :=
  match value with
  | None => false
  | Some s => negb (length s =? 0)%nat && negb (existsb (λ c, c =? DOT) s)
  end.

Definition chars (value : option (list Z)) : list Z :=
  match value with Some s => s | None => [] end.

(** The length of the dotted name; [None] when a component is invalid or the
    length would overflow. *)
Fixpoint name_length (acc : Z) (aspects : list (option (list Z))) : option Z :=
  match aspects with
  | [] => Some acc
  | a :: rest =>
      if negb (valid_component a) || (SIZE_MAX - acc - 1 <? Z.of_nat (length (chars a))) then None
      else name_length (acc + (1 + Z.of_nat (length (chars a)))) rest
  end.

(** Copying the aspects behind the application name. *)
Fixpoint copy_aspects (name : list Z) (offset : nat) (aspects : list (option (list Z)))
    : option (list Z * nat) :=
  match aspects with
  | [] => Some (name, offset)
  | a :: rest =>
      name ← store name offset DOT;
      name ← memcpy name (offset + 1) (chars a);
      copy_aspects name (offset + 1 + length (chars a)) rest
  end.

Section WithCrypto.
Context `{Crypto}.
(** Whether [malloc] succeeds for a size. *)
Variable malloc_ok : Z -> bool.

(** The aspects are a null pointer with a claimed count, or the array. The
    inner option is the C result; [None] outside is an invalid access. *)
Definition rns_destination_name_hash (app_name : option (list Z)) (aspects : nat + list (option (list Z)))
    : option (option (list Z)) :=
  if negb (valid_component app_name) || (if aspects is inl n then negb (n =? 0)%nat else false) then Some None
  else
    let aspects := if aspects is inr l then l else [] in
    match name_length (Z.of_nat (length (chars app_name))) aspects with
    | None => Some None
    | Some len =>
        if negb (malloc_ok (len + 1)) then Some None
        else
          let name := replicate (Z.to_nat (len + 1)) 0 in
          name ← memcpy name 0 (chars app_name);
          r ← copy_aspects name (length (chars app_name)) aspects;
          let '(name, offset) := r in
          name ← store name offset 0;
          hashed ← memread name 0 (Z.to_nat len);
          Some (digest ← rns_sha256 hashed; Some (take 10 digest))
    end.

Definition rns_destination_hash (identity : option rns_identity) (app_name : option (list Z))
    (aspects : nat + list (option (list Z))) : option (option (list Z)) :=
  r ← rns_destination_name_hash app_name aspects;
  match r with
  | None => Some None
  | Some name_hash =>
      let material := name_hash ++ match identity with Some i => i.(hash) | None => [] end in
      Some (digest ← rns_sha256 material; Some (take 16 digest))
  end.

(** The dotted name. *)
Fixpoint dotted (app : list Z) (aspects : list (list Z)) : list Z :=
  match aspects with
  | [] => app
  | a :: rest => app ++ DOT :: dotted a rest
  end.

Definition tail (aspects : list (list Z)) : list Z := concat ((λ a, DOT :: a) <$> aspects).

Lemma dotted_tail app aspects : dotted app aspects = app ++ tail aspects.
Proof.
  revert app. induction aspects as [|a rest IH]; intros app; simpl; [by rewrite app_nil_r|].
  by rewrite IH.
Qed.

Lemma length_tail_cons a rest : length (tail (a :: rest)) = (1 + length a + length (tail rest))%nat.
Proof. change (tail (a :: rest)) with (DOT :: a ++ tail rest). cbn [length]. rewrite length_app. lia. Qed.

Definition component (s : list Z) : Prop := s <> [] /\ (DOT ∉ s).

Lemma valid_component_spec s : valid_component (Some s) = true <-> component s.
Proof.
  unfold valid_component, component. rewrite andb_true_iff, !negb_true_iff, Nat.eqb_neq.
  assert (existsb (λ c, c =? DOT) s = false <-> (DOT ∉ s)) as ->.
  { rewrite <-not_true_iff_false, existsb_exists, list_elem_of_In. split.
    - intros Hn Hin. apply Hn. exists DOT. by rewrite Z.eqb_refl.
    - intros Hn (x & Hx & ->%Z.eqb_eq). done. }
  by rewrite length_zero_iff_nil.
Qed.

Lemma name_length_spec acc aspects :
  Forall component aspects -> acc + Z.of_nat (length (tail aspects)) <= SIZE_MAX ->
  name_length acc (Some <$> aspects) = Some (acc + Z.of_nat (length (tail aspects))).
Proof.
  intros Hc. revert acc. induction Hc as [|a rest Ha Hc IH]; intros acc Hmax; [simpl; f_equal; lia|].
  rewrite length_tail_cons in *. cbn [fmap list_fmap name_length].
  rewrite (proj2 (valid_component_spec a) Ha). cbn [negb orb chars].
  rewrite (proj2 (Z.ltb_ge _ _)) by lia. rewrite IH by lia. f_equal. lia.
Qed.

Lemma copy_aspects_spec n name w aspects :
  wrote n name w -> (length w + length (tail aspects) <= n)%nat ->
  exists name', copy_aspects name (length w) (Some <$> aspects) =
      Some (name', length (w ++ tail aspects)) /\ wrote n name' (w ++ tail aspects).
Proof.
  revert name w. induction aspects as [|a rest IH]; intros name w Hw Hn.
  { exists name. simpl. by rewrite app_nil_r. }
  rewrite length_tail_cons in Hn. cbn [fmap list_fmap copy_aspects].
  change (tail (a :: rest)) with (DOT :: a ++ tail rest).
  destruct (wrote_store _ _ _ DOT Hw) as (n1 & -> & Hw1); [lia|]. cbn [mbind option_bind].
  destruct (wrote_memcpy _ _ _ a Hw1) as (n2 & Hn2 & Hw2); [rewrite length_app; simpl; lia|].
  rewrite length_app in Hn2. cbn [length] in Hn2. cbn [chars]. rewrite Hn2. cbn [mbind option_bind].
  destruct (IH n2 ((w ++ [DOT]) ++ a) Hw2) as (n3 & Hn3 & Hw3); [rewrite !length_app; simpl; lia|].
  rewrite <-!app_assoc in Hw3, Hn3. cbn [app] in Hw3, Hn3. exists n3. split; [|exact Hw3].
  replace (length w + 1 + length a)%nat with (length (w ++ DOT :: a)) by (rewrite length_app; simpl; lia).
  exact Hn3.
Qed.

(** Two dotted names of valid components agree only for the same components. *)
Lemma dotted_inj app aspects app' aspects' :
  component app -> Forall component aspects -> component app' -> Forall component aspects' ->
  dotted app aspects = dotted app' aspects' -> app = app' /\ aspects = aspects'.
Proof.
  intros Ha Hc Ha' Hc'. revert app app' aspects' Ha Ha' Hc'.
  assert (forall x y l m, (DOT ∉ x) -> (DOT ∉ y) -> x ++ DOT :: l = y ++ DOT :: m -> x = y /\ l = m) as Hsplit.
  { induction x as [|c x IHx]; intros [|d y] l m Hx Hy E; simpl in E; simplify_eq.
    - done.
    - destruct Hy. left.
    - destruct Hx. left.
    - edestruct (IHx y l m) as [-> ->]; [intros Hin; apply Hx; by right|intros Hin; apply Hy; by right|done|done]. }
  assert (forall x y m, (DOT ∉ x) -> x <> y ++ DOT :: m) as Hno.
  { intros x y m Hx ->. apply Hx, elem_of_app. right. left. }
  induction Hc as [|a rest Hca Hc IH]; intros app app' [|a' rest'] [_ Ha] [_ Ha'] Hc' E; simpl in E.
  - done.
  - by apply Hno in E.
  - symmetry in E. by apply Hno in E.
  - apply Forall_cons_1 in Hc' as [Hca' Hc']. apply Hsplit in E as [-> E]; [|done..].
    destruct (IH a a' rest' Hca Hca' Hc' E) as [-> ->]. done.
Qed.

(** [rns_destination_name_hash] builds the dotted name within the buffer it
    allocated and hashes exactly that name, for every valid list of components
    whose name has an addressable length; and the name identifies its
    components, so different applications or aspects hash different strings. *)
Theorem rns_destination_name_hash_spec app aspects :
  component app -> Forall component aspects ->
  Z.of_nat (length (dotted app aspects)) <= SIZE_MAX ->
  malloc_ok (Z.of_nat (length (dotted app aspects)) + 1) = true ->
  rns_destination_name_hash (Some app) (inr (Some <$> aspects)) =
    Some (digest ← rns_sha256 (dotted app aspects); Some (take 10 digest)) /\
  (forall app' aspects', component app' -> Forall component aspects' ->
     dotted app' aspects' = dotted app aspects -> app' = app /\ aspects' = aspects).
Proof.
  intros Ha Hc Hmax Hm. split; [|intros app' aspects' Ha' Hc'; by apply dotted_inj]. unfold rns_destination_name_hash.
  rewrite (proj2 (valid_component_spec app) Ha). cbn [negb orb chars].
  rewrite dotted_tail, length_app in *.
  rewrite name_length_spec by (done || lia).
  rewrite <-Nat2Z.inj_add, Hm. cbn [negb]. rewrite Nat2Z.id, Z2Nat.inj_add, Nat2Z.id by lia.
  change (Z.to_nat 1) with 1%nat.
  set (n := (length app + length (tail aspects) + 1)%nat).
  destruct (wrote_memcpy n (replicate n 0) [] app) as (m1 & Hm1 & Hw1);
    [apply wrote_nil, length_replicate|simpl; lia|]. simpl in Hm1, Hw1. rewrite Hm1. cbn [mbind option_bind].
  destruct (copy_aspects_spec n m1 app aspects Hw1) as (m2 & -> & Hw2); [lia|]. cbn [mbind option_bind].
  destruct (wrote_store _ _ _ 0 Hw2) as (m3 & -> & Hw3); [rewrite length_app; lia|]. cbn [mbind option_bind].
  assert (memread m3 0 (length app + length (tail aspects)) = Some (app ++ tail aspects)) as Hr.
  { destruct Hw3 as (Hl & Ht & Hle). unfold memread. rewrite !length_app in *. simpl in *.
    rewrite decide_True, drop_0 by lia. f_equal.
    replace (length app + length (tail aspects))%nat with
      (length (app ++ tail aspects) `min` (length app + length (tail aspects) + 1))%nat
      by (rewrite length_app; lia).
    rewrite <-take_take, Ht. by rewrite take_app_length. }
  rewrite Hr. done.
Qed.

End WithCrypto.

(** The name ["ab.c"]. *)
Lemma rns_destination_name_hash_spec_witness :
  rns_destination_name_hash (λ _, true) (Some [97; 98]) (inr [Some [99]]) =
    Some (Some (take 10 (fold_to 32 [97; 98; 46; 99]))).
Proof.
  assert (component [97; 98]) by (by apply valid_component_spec).
  assert (component [99]) by (by apply valid_component_spec).
  refine (proj1 (rns_destination_name_hash_spec (λ _, true) [97; 98] [[99]] _ _ _ _));
    [done|by apply Forall_cons_2; [|apply Forall_nil_2]|vm_compute; congruence|reflexivity].
Defined.

End Destination.
