(* ===== verification/Announce.v ===== *)
(** * Announces

    Models [src/announce/announce.c]: the announce body with its optional
    ratchet, its construction with the signature over destination, body prefix
    and application data, its parser and its verification. *)

From Stdlib Require Import ZArith Lia.
From S2P Require Import Prelude Crypto Identity.

Module Announce.
Import Identity.

Definition RNS_ANNOUNCE_MIN_BODY_SIZE : nat := 148.
Definition RNS_ANNOUNCE_RATCHET_BODY_SIZE : nat := 180.
Definition RNS_ANNOUNCE_MAX_BODY_SIZE : nat := 465.
Definition RNS_ANNOUNCE_MAX_TIMESTAMP : Z := 0xffffffffff.

(** The parsed fields; the C fields are pointers into the body. *)
Record rns_announce : Type := {
  public_key : list Z;
  name_hash : list Z;
  random_blob : list Z;
  ratchet : option (list Z);
  signature : list Z;
  app_data : list Z;
  timestamp : Z;
  has_ratchet : bool
}.

Definition decode_timestamp (blob : list Z) : Z := shift_bytes (take 5 (drop 5 blob)).

(** The loop stores the low byte last to first. *)
Fixpoint encode_timestamp (n : nat) (value : Z) : list Z :=
  match n with
  | O => []
  | S n => encode_timestamp n (Z.shiftr value 8) ++ [wrap8 value]
  end.

(** The outer option is memory safety; [Some None] is the C result 0. *)
Definition rns_announce_parse (body : slice) (context_flag : Z) : option (option rns_announce) :=
  match body with
  | SNull _ => Some None
  | SBytes b =>
      if 1 <? context_flag then Some None
      else if (RNS_ANNOUNCE_MAX_BODY_SIZE <? length b)%nat ||
              ((context_flag =? 0) && (length b <? RNS_ANNOUNCE_MIN_BODY_SIZE)%nat) ||
              (negb (context_flag =? 0) && (length b <? RNS_ANNOUNCE_RATCHET_BODY_SIZE)%nat)
      then Some None
      else
        pk ← memread b 0 64;
        nh ← memread b 64 10;
        rb ← memread b 74 10;
        let hr := negb (context_flag =? 0) in
        r ← (if hr then x ← memread b 84 32; Some (Some x, 116%nat) else Some (None, 84%nat));
        let '(rt, signature_offset) := r in
        sg ← memread b signature_offset 64;
        ad ← memread b (signature_offset + 64) (length b - signature_offset - 64);
        Some (Some {| public_key := pk; name_hash := nh; random_blob := rb; ratchet := rt; signature := sg;
                      app_data := ad; timestamp := decode_timestamp rb; has_ratchet := hr |})
  end.

Section WithCrypto.
Context `{Crypto}.
(** Whether [malloc] succeeds for a size. *)
Variable malloc_ok : nat -> bool.

(** The C result, the output object, the length and the context flag. *)
Definition rns_announce_build (identity : rns_identity) (destination_hash nh random_prefix : list Z)
    (ts : Z) (rt : option (list Z)) (ad : slice) (out : option (list Z)) (out_capacity : nat)
    (out_length : option nat) (context_flag : option Z)
    : option (bool * option (list Z) * option nat * option Z) :=
  let fail o := Some (false, o, out_length, context_flag) in
  match out, out_length, context_flag with
  | Some o, Some _, Some _ =>
      if negb identity.(has_private) || (RNS_ANNOUNCE_MAX_TIMESTAMP <? ts) || slice_bad ad then fail out
      else
        let prefix_length := if rt is Some _ then 116%nat else 84%nat in
        if SIZE_MAX - Z.of_nat prefix_length - 64 <? Z.of_nat (slice_length ad) then fail out
        else
          let body_length := (prefix_length + 64 + slice_length ad)%nat in
          if (RNS_ANNOUNCE_MAX_BODY_SIZE <? body_length)%nat || (out_capacity <? body_length)%nat then fail out
          else
            o ← memcpy o 0 (rns_identity_export_public identity);
            o ← memcpy o 64 nh;
            o ← memcpy o 74 random_prefix;
            o ← memcpy o 79 (encode_timestamp 5 ts);
            r ← (if rt is Some x then o ← memcpy o 84 x; Some (o, 116%nat) else Some (o, 84%nat));
            let '(o, offset) := r in
            let signed_length := (16 + offset + slice_length ad)%nat in
            if negb (malloc_ok signed_length) then fail (Some o)
            else
              prefix ← memread o 0 offset;
              match rns_identity_sign identity (destination_hash ++ prefix ++ slice_bytes ad) with
              | None => fail (Some o)
              | Some sg =>
                  o ← memcpy o offset sg;
                  o ← (if negb (slice_length ad =? 0)%nat then memcpy o (offset + 64) (slice_bytes ad) else Some o);
                  Some (true, Some o, Some body_length, Some (if rt is Some _ then 1 else 0))
              end
  | _, _, _ => fail out
  end.

Definition rns_announce_verify (destination_hash : list Z) (body : slice) (context_flag : Z) : option bool :=
  r ← rns_announce_parse body context_flag;
  match r with
  | None => Some false
  | Some announce =>
      match rns_identity_from_public announce.(public_key) with
      | None => Some false
      | Some ident =>
          let material := announce.(name_hash) ++ ident.(hash) in
          match rns_sha256 material with
          | None => Some false
          | Some digest =>
              if negb (memeq (take 16 digest) destination_hash) then Some false
              else
                let prefix_length := if announce.(has_ratchet) then 116%nat else 84%nat in
                if negb (malloc_ok (16 + prefix_length + length announce.(app_data))) then Some false
                else
                  prefix ← memread (slice_bytes body) 0 prefix_length;
                  Some (rns_identity_verify ident (destination_hash ++ prefix ++ announce.(app_data))
                          announce.(signature))
          end
      end
  end.

(** ** The body of an announce *)

Definition prefix_bytes (pk nh rp : list Z) (ts : Z) (rt : option (list Z)) : list Z :=
  pk ++ nh ++ rp ++ encode_timestamp 5 ts ++ default [] rt.

(** The arguments have the sizes of their C array types. *)
Record args_ok (pk dst nh rp : list Z) (ts : Z) (rt : option (list Z)) : Prop := {
  ok_public : length pk = 64%nat;
  ok_destination : length dst = 16%nat;
  ok_name : length nh = 10%nat;
  ok_prefix : length rp = 5%nat;
  ok_timestamp : 0 <= ts <= RNS_ANNOUNCE_MAX_TIMESTAMP;
  ok_ratchet x : rt = Some x -> length x = 32%nat
}.

Lemma encode_timestamp_be n v : encode_timestamp n v = be_encode n v.
Proof.
  revert v. induction n as [|n IH]; intros v; simpl; [done|]. rewrite IH, Z.shiftr_div_pow2 by lia. done.
Qed.

Definition prefix_size (rt : option (list Z)) : nat := if rt is Some _ then 116%nat else 84%nat.

Lemma length_prefix_bytes pk dst nh rp ts rt :
  args_ok pk dst nh rp ts rt -> length (prefix_bytes pk nh rp ts rt) = prefix_size rt.
Proof.
  intros []. unfold prefix_bytes. rewrite !length_app, encode_timestamp_be, length_be_encode.
  destruct rt as [x|]; simpl; [rewrite (ok_ratchet0 x eq_refl)|]; lia.
Qed.

Lemma decode_encode_timestamp rp ts :
  length rp = 5%nat -> 0 <= ts <= RNS_ANNOUNCE_MAX_TIMESTAMP ->
  decode_timestamp (rp ++ encode_timestamp 5 ts) = ts.
Proof.
  intros Hl Ht. unfold decode_timestamp. rewrite drop_app_length' by done.
  rewrite encode_timestamp_be, take_ge by (by rewrite length_be_encode).
  rewrite shift_bytes_be; [|apply be_encode_bytes|rewrite length_be_encode; lia].
  apply be_decode_encode. unfold RNS_ANNOUNCE_MAX_TIMESTAMP in Ht. lia.
Qed.

(** ** Parsing *)

(** The announce [a] is the content of the body [b]. *)
Record parses (b : list Z) (context_flag : Z) (a : rns_announce) : Prop := {
  parses_body : b = a.(public_key) ++ a.(name_hash) ++ a.(random_blob) ++ default [] a.(ratchet) ++
    a.(signature) ++ a.(app_data);
  parses_public : length a.(public_key) = 64%nat;
  parses_name : length a.(name_hash) = 10%nat;
  parses_blob : length a.(random_blob) = 10%nat;
  parses_ratchet : a.(has_ratchet) = negb (context_flag =? 0) /\
    if a.(has_ratchet) then exists x, a.(ratchet) = Some x /\ length x = 32%nat else a.(ratchet) = None;
  parses_signature : length a.(signature) = 64%nat;
  parses_timestamp : a.(timestamp) = decode_timestamp a.(random_blob)
}.

Definition min_body (context_flag : Z) : nat :=
  if context_flag =? 0 then RNS_ANNOUNCE_MIN_BODY_SIZE else RNS_ANNOUNCE_RATCHET_BODY_SIZE.

Lemma parse_guard (b : list Z) flag :
  (RNS_ANNOUNCE_MAX_BODY_SIZE <? length b)%nat ||
    ((flag =? 0) && (length b <? RNS_ANNOUNCE_MIN_BODY_SIZE)%nat) ||
    (negb (flag =? 0) && (length b <? RNS_ANNOUNCE_RATCHET_BODY_SIZE)%nat) =
  negb (bool_decide (min_body flag <= length b <= RNS_ANNOUNCE_MAX_BODY_SIZE)%nat).
Proof.
  unfold min_body. destruct (flag =? 0); cbn [negb andb];
    destruct (Nat.ltb_spec RNS_ANNOUNCE_MAX_BODY_SIZE (length b));
    destruct (Nat.ltb_spec (length b) RNS_ANNOUNCE_MIN_BODY_SIZE);
    destruct (Nat.ltb_spec (length b) RNS_ANNOUNCE_RATCHET_BODY_SIZE);
    case_bool_decide; cbn [orb negb]; done || lia.
Qed.

(** The parser on the concatenation of its fields. *)
Lemma parse_parses b flag a :
  0 <= flag <= 1 -> parses b flag a -> (length b <= RNS_ANNOUNCE_MAX_BODY_SIZE)%nat ->
  rns_announce_parse (SBytes b) flag = Some (Some a).
Proof.
  intros Hf [Hb Hpk Hnh Hrb [Hhr Hrt] Hsg Hts] Hmax.
  destruct a as [pk nh rb rt sg ad ts hr]; cbn [public_key name_hash random_blob ratchet signature app_data timestamp has_ratchet] in *.
  unfold rns_announce_parse. rewrite (proj2 (Z.ltb_ge _ _)), parse_guard by lia.
  assert (length b = 148 + length (default [] rt) + length ad)%nat as Hl by (rewrite Hb, !length_app; lia).
  assert (length (default [] rt) = if hr then 32 else 0)%nat as Hlr.
  { destruct hr; [destruct Hrt as (x & -> & ?)|rewrite Hrt]; done. }
  assert (min_body flag <= length b)%nat as Hmin.
  { unfold min_body, RNS_ANNOUNCE_MIN_BODY_SIZE, RNS_ANNOUNCE_RATCHET_BODY_SIZE. rewrite Hhr in Hlr.
    destruct (flag =? 0); simpl in Hlr; lia. }
  rewrite bool_decide_eq_true_2 by done. cbn [negb].
  rewrite (bind_Some_eq _ _ pk) by (by eapply (memread_at _ [])).
  rewrite (bind_Some_eq _ _ nh) by (eapply (memread_at _ pk); done).
  rewrite (bind_Some_eq _ _ rb)
    by (eapply (memread_at _ (pk ++ nh)); [by rewrite <-app_assoc|rewrite length_app; lia|done]).
  rewrite <-Hhr. cbv zeta.
  assert ((if hr then x ← memread b 84 32; Some (Some x, 116%nat) else Some (None, 84%nat)) =
    Some (rt, (84 + length (default [] rt))%nat)) as ->.
  { destruct hr; [|by rewrite Hrt]. destruct Hrt as (x & -> & Hx). simpl in *.
    rewrite (bind_Some_eq _ _ x); [by rewrite Hx|].
    eapply (memread_at _ (pk ++ nh ++ rb)); [by rewrite <-!app_assoc|rewrite !length_app; lia|done]. }
  cbn [mbind option_bind].
  rewrite (bind_Some_eq _ _ sg)
    by (eapply (memread_at _ (pk ++ nh ++ rb ++ default [] rt)); [by rewrite <-!app_assoc|rewrite !length_app; lia|done]).
  rewrite (bind_Some_eq _ _ ad)
    by (eapply (memread_at _ (pk ++ nh ++ rb ++ default [] rt ++ sg) _ []);
        [by rewrite <-!app_assoc, app_nil_r|rewrite !length_app; lia|lia]).
  by rewrite Hts.
Qed.

Lemma parses_exists b flag :
  0 <= flag <= 1 -> (min_body flag <= length b)%nat -> exists a, parses b flag a.
Proof.
  intros Hf. unfold min_body, RNS_ANNOUNCE_MIN_BODY_SIZE, RNS_ANNOUNCE_RATCHET_BODY_SIZE. intros Hl.
  destruct (split_at b 64) as (pk & b1 & -> & Hpk); [destruct (flag =? 0); lia|]. rewrite length_app in Hl.
  destruct (split_at b1 10) as (nh & b2 & -> & Hnh); [destruct (flag =? 0); lia|]. rewrite length_app in Hl.
  destruct (split_at b2 10) as (rb & b3 & -> & Hrb); [destruct (flag =? 0); lia|]. rewrite length_app in Hl.
  destruct (flag =? 0) eqn:E.
  - destruct (split_at b3 64) as (sg & ad & -> & Hsg); [lia|].
    by exists {| public_key := pk; name_hash := nh; random_blob := rb; ratchet := None; signature := sg;
      app_data := ad; timestamp := decode_timestamp rb; has_ratchet := false |};
      constructor; simpl; rewrite ?E.
  - destruct (split_at b3 32) as (x & b4 & -> & Hx); [lia|]. rewrite length_app in Hl.
    destruct (split_at b4 64) as (sg & ad & -> & Hsg); [lia|].
    exists {| public_key := pk; name_hash := nh; random_blob := rb; ratchet := Some x; signature := sg;
      app_data := ad; timestamp := decode_timestamp rb; has_ratchet := true |}.
    constructor; simpl; rewrite ?E; eauto.
Qed.

Lemma parse_spec b flag :
  0 <= flag ->
  if decide (flag <= 1 /\ (min_body flag <= length b <= RNS_ANNOUNCE_MAX_BODY_SIZE)%nat) then
    exists a, rns_announce_parse (SBytes b) flag = Some (Some a) /\ parses b flag a
  else rns_announce_parse (SBytes b) flag = Some None.
Proof.
  intros Hf. case_decide as Hd.
  - destruct (parses_exists b flag) as [a Ha]; [lia..|]. exists a. split; [|done]. apply parse_parses; lia || done.
  - unfold rns_announce_parse. destruct (Z.ltb_spec 1 flag); [done|]. rewrite parse_guard.
    rewrite bool_decide_eq_false_2; [done|]. intros ?. apply Hd. split; [lia|done].
Qed.

(** [rns_announce_parse] never reads outside the body: it accepts exactly the
    bodies whose size is in range for the context flag, and then splits the body
    into its fields without loss. *)
Theorem rns_announce_parse_spec b flag :
  0 <= flag ->
  if decide (flag <= 1 /\ (min_body flag <= length b <= RNS_ANNOUNCE_MAX_BODY_SIZE)%nat) then
    exists a, rns_announce_parse (SBytes b) flag = Some (Some a) /\ parses b flag a
  else rns_announce_parse (SBytes b) flag = Some None.
Proof. apply parse_spec. Qed.

(** ** Building *)

(** Copying the five pieces of the prefix. *)
Lemma write_prefix pk dst nh rp ts rt o :
  args_ok pk dst nh rp ts rt -> (prefix_size rt <= length o)%nat ->
  exists o', (o ← memcpy o 0 pk; o ← memcpy o 64 nh; o ← memcpy o 74 rp;
      o ← memcpy o 79 (encode_timestamp 5 ts);
      (if rt is Some x then o ← memcpy o 84 x; Some (o, 116%nat) else Some (o, 84%nat))) =
    Some (o', prefix_size rt) /\ wrote (length o) o' (prefix_bytes pk nh rp ts rt).
Proof.
  intros Hok Hn. pose proof (length_prefix_bytes _ _ _ _ _ _ Hok) as Hl.
  destruct Hok as [Hpk Hdst Hnh Hrp Hts Hrt]. unfold prefix_bytes in *. rewrite !length_app in Hl.
  pose proof (length_be_encode 5 ts) as Hte. rewrite <-encode_timestamp_be in Hte.
  destruct (wrote_memcpy (length o) o [] pk) as (o1 & H1 & W1); [by apply wrote_nil|simpl; lia|].
  simpl in H1, W1. rewrite (bind_Some_eq _ _ _ H1).
  destruct (wrote_memcpy _ _ _ nh W1) as (o2 & H2 & W2); [lia|]. rewrite Hpk in H2. rewrite (bind_Some_eq _ _ _ H2).
  destruct (wrote_memcpy _ _ _ rp W2) as (o3 & H3 & W3); [rewrite length_app; lia|].
  rewrite length_app, Hpk, Hnh in H3. rewrite (bind_Some_eq _ _ _ H3).
  destruct (wrote_memcpy _ _ _ (encode_timestamp 5 ts) W3) as (o4 & H4 & W4); [rewrite !length_app; lia|].
  rewrite !length_app, Hpk, Hnh, Hrp in H4. rewrite (bind_Some_eq _ _ _ H4).
  rewrite <-!app_assoc in W4. destruct rt as [x|]; [|exists o4; by rewrite app_nil_r].
  destruct (wrote_memcpy _ _ _ x W4) as (o5 & H5 & W5); [rewrite !length_app; simpl in Hl, Hn; lia|].
  rewrite !length_app, Hpk, Hnh, Hrp, Hte in H5. rewrite (bind_Some_eq _ _ _ H5).
  exists o5. split; [done|]. by rewrite <-!app_assoc in W5.
Qed.

(** The body [rns_announce_build] is meant to write. *)
Definition signed_body (i : rns_identity) (dst nh rp : list Z) (ts : Z) (rt : option (list Z)) (ad : list Z)
    : option (list Z) :=
  let prefix := prefix_bytes (rns_identity_export_public i) nh rp ts rt in
  s ← rns_identity_sign i (dst ++ prefix ++ ad); Some (prefix ++ s ++ ad).

Lemma build_spec i dst nh rp ts rt ad o cap n0 f0 body :
  args_ok (rns_identity_export_public i) dst nh rp ts rt -> i.(has_private) = true -> slice_bad ad = false ->
  (cap <= length o)%nat -> (forall n, malloc_ok n = true) ->
  signed_body i dst nh rp ts rt (slice_bytes ad) = Some body ->
  if decide (length body <= RNS_ANNOUNCE_MAX_BODY_SIZE /\ length body <= cap)%nat then
    exists o', rns_announce_build i dst nh rp ts rt ad (Some o) cap (Some n0) (Some f0) =
        Some (true, Some o', Some (length body), Some (if rt is Some _ then 1 else 0)) /\
      wrote (length o) o' body
  else rns_announce_build i dst nh rp ts rt ad (Some o) cap (Some n0) (Some f0) =
    Some (false, Some o, Some n0, Some f0).
Proof.
  intros Hok Hpriv Had Hcap Hm (s & Hs & [= <-])%bind_Some.
  pose proof (length_prefix_bytes _ _ _ _ _ _ Hok) as Hpl. set (prefix := prefix_bytes _ _ _ _ _) in *.
  assert (length s = 64%nat) as Hsl.
  { unfold rns_identity_sign in Hs. rewrite Hpriv in Hs. by apply sign_length in Hs. }
  unfold rns_announce_build. rewrite Hpriv, Had, (slice_bad_length _ Had). cbn [negb orb].
  rewrite (proj2 (Z.ltb_ge _ _)) by (pose proof (ok_timestamp _ _ _ _ _ _ Hok); lia). cbn [orb].
  fold (prefix_size rt). rewrite !length_app, Hpl, Hsl, Nat.add_assoc.
  assert (84 <= prefix_size rt <= 116)%nat as Hps by (unfold prefix_size; case_match; lia).
  unfold RNS_ANNOUNCE_MAX_BODY_SIZE. case_decide as Hd.
  2:{ case_match; [done|].
      destruct (Nat.ltb_spec 465 (prefix_size rt + 64 + length (slice_bytes ad))); [done|].
      destruct (Nat.ltb_spec cap (prefix_size rt + 64 + length (slice_bytes ad))); [done|]. lia. }
  rewrite (proj2 (Z.ltb_ge _ _)) by (limits; lia). rewrite !(proj2 (Nat.ltb_ge _ _)) by lia. cbn [orb].
  destruct (write_prefix _ _ _ _ _ _ o Hok) as (o1 & Ho1 & Hw1); [lia|]. fold prefix in Hw1.
  repeat (let o := fresh "o" in let H := fresh in
    match type of Ho1 with (?x ≫= _ = Some _) => apply bind_Some in Ho1 as (o & H & Ho1);
      rewrite H; cbn [mbind option_bind] end).
  rewrite Ho1. cbn [mbind option_bind]. rewrite Hm. cbn [negb].
  assert (memread o1 0 (prefix_size rt) = Some prefix) as Hr by (rewrite <-Hpl; by eapply wrote_read).
  rewrite Hr. cbn [mbind option_bind]. rewrite Hs.
  destruct (wrote_memcpy _ _ _ s Hw1) as (q2 & Ho2 & Hw2); [lia|]. rewrite Hpl in Ho2. rewrite Ho2.
  cbn [mbind option_bind].
  destruct (wrote_memcpy _ _ _ (slice_bytes ad) Hw2) as (q3 & Ho3 & Hw3); [rewrite length_app; lia|].
  rewrite length_app, Hpl, Hsl in Ho3. rewrite <-app_assoc in Hw3.
  destruct (Nat.eqb_spec (length (slice_bytes ad)) 0) as [E|E]; cbn [negb].
  - cbn [mbind option_bind]. eexists. split; [done|]. apply length_zero_iff_nil in E. by rewrite E, app_nil_r.
  - rewrite Ho3. cbn [mbind option_bind]. eexists. by split.
Qed.

(** Whatever memory and signing do, building stays inside the output, and what it reports
    as built is a signed body. *)
Lemma build_total i dst nh rp ts rt ad o cap n0 f0 :
  args_ok (rns_identity_export_public i) dst nh rp ts rt -> slice_bad ad = false -> (cap <= length o)%nat ->
  exists ok o' n f, rns_announce_build i dst nh rp ts rt ad (Some o) cap (Some n0) (Some f0) = Some (ok, Some o', Some n, Some f) /\
    length o' = length o /\
    (ok = true -> exists body, signed_body i dst nh rp ts rt (slice_bytes ad) = Some body /\ wrote (length o) o' body /\ n = length body /\
      (length body <= RNS_ANNOUNCE_MAX_BODY_SIZE)%nat /\ f = (if rt is Some _ then 1 else 0)).
Proof.
  intros Hok Had Hcap. pose proof (length_prefix_bytes _ _ _ _ _ _ Hok) as Hpl. set (prefix := prefix_bytes _ _ _ _ _) in *.
  unfold rns_announce_build. rewrite Had, (slice_bad_length _ Had). destruct (_ || _ || false) eqn:Eg; [by eexists _, _, _, _|].
  apply orb_false_elim in Eg as [[Hpriv _]%orb_false_elim _]. apply negb_false_iff in Hpriv. fold (prefix_size rt).
  assert (84 <= prefix_size rt <= 116)%nat as Hps by (unfold prefix_size; case_match; lia).
  destruct (_ <? _); [by eexists _, _, _, _|]. destruct (_ || _) eqn:Eb; [by eexists _, _, _, _|].
  apply orb_false_elim in Eb as [Hmax%Nat.ltb_ge Hc%Nat.ltb_ge].
  destruct (write_prefix _ _ _ _ _ _ o Hok) as (o1 & Ho1 & Hw1); [lia|]. fold prefix in Hw1.
  repeat (let o := fresh "o" in let H := fresh in
    match type of Ho1 with (?x ≫= _ = Some _) => apply bind_Some in Ho1 as (o & H & Ho1);
      rewrite H; cbn [mbind option_bind] end).
  rewrite Ho1. cbn [mbind option_bind]. destruct (negb (malloc_ok _)); [eexists _, _, _, _; split; [done|]; split; [by destruct Hw1|done]|].
  assert (memread o1 0 (prefix_size rt) = Some prefix) as Hr by (rewrite <-Hpl; by eapply wrote_read).
  rewrite Hr. cbn [mbind option_bind]. destruct (rns_identity_sign _ _) as [s|] eqn:Hs; [|eexists _, _, _, _; split; [done|]; split; [by destruct Hw1|done]].
  assert (length s = 64%nat) as Hsl by (unfold rns_identity_sign in Hs; rewrite Hpriv in Hs; by apply sign_length in Hs).
  destruct (wrote_memcpy _ _ _ s Hw1) as (q2 & Ho2 & Hw2); [lia|]. rewrite Hpl in Ho2. rewrite Ho2. cbn [mbind option_bind].
  destruct (wrote_memcpy _ _ _ (slice_bytes ad) Hw2) as (q3 & Ho3 & Hw3); [rewrite length_app; lia|].
  rewrite length_app, Hpl, Hsl in Ho3. rewrite <-app_assoc in Hw3.
  assert (exists q, (if negb (length (slice_bytes ad) =? 0)%nat then memcpy q2 (prefix_size rt + 64) (slice_bytes ad) else Some q2) = Some q /\
    wrote (length o) q (prefix ++ s ++ slice_bytes ad)) as (q & -> & Hq).
  { destruct (Nat.eqb_spec (length (slice_bytes ad)) 0) as [E|E]; cbn [negb]; [|by eexists].
    eexists. split; [done|]. apply length_zero_iff_nil in E. by rewrite E, app_nil_r. }
  cbn [mbind option_bind]. eexists _, _, _, _. split; [done|]. split; [by destruct Hq|]. intros _. exists (prefix ++ s ++ slice_bytes ad).
  unfold signed_body. fold prefix. rewrite Hs. split_and!; [done|done|rewrite !length_app; lia|rewrite !length_app; lia|done].
Qed.

(** [rns_announce_build] writes only inside the output; with working memory
    and signing it succeeds exactly when the signed body fits the maximum and the
    capacity, and then the output starts with that body and the context flag
    tells whether a ratchet is present. *)
Theorem rns_announce_build_spec i dst nh rp ts rt ad o cap n0 f0 body :
  args_ok (rns_identity_export_public i) dst nh rp ts rt -> i.(has_private) = true -> slice_bad ad = false ->
  (cap <= length o)%nat -> (forall n, malloc_ok n = true) ->
  signed_body i dst nh rp ts rt (slice_bytes ad) = Some body ->
  if decide (length body <= RNS_ANNOUNCE_MAX_BODY_SIZE /\ length body <= cap)%nat then
    exists o', rns_announce_build i dst nh rp ts rt ad (Some o) cap (Some n0) (Some f0) =
        Some (true, Some o', Some (length body), Some (if rt is Some _ then 1 else 0)) /\
      wrote (length o) o' body
  else rns_announce_build i dst nh rp ts rt ad (Some o) cap (Some n0) (Some f0) =
    Some (false, Some o, Some n0, Some f0).
Proof. apply build_spec. Qed.

(** ** Verification *)

Lemma parses_signed_body pk dst nh rp ts rt s ad :
  args_ok pk dst nh rp ts rt -> length s = 64%nat ->
  parses (prefix_bytes pk nh rp ts rt ++ s ++ ad) (if rt is Some _ then 1 else 0)
    {| public_key := pk; name_hash := nh; random_blob := rp ++ encode_timestamp 5 ts; ratchet := rt;
       signature := s; app_data := ad; timestamp := ts; has_ratchet := if rt is Some _ then true else false |}.
Proof.
  intros [Hpk Hdst Hnh Hrp Hts Hrt] Hs. constructor; cbn -[encode_timestamp decode_timestamp]; try done.
  - unfold prefix_bytes. by rewrite <-!app_assoc.
  - by rewrite length_app, encode_timestamp_be, length_be_encode, Hrp.
  - destruct rt as [x|]; split; eauto.
  - by rewrite decode_encode_timestamp.
Qed.

(** What a successful verification means. *)
Lemma verify_spec dst b flag a :
  rns_announce_parse (SBytes b) flag = Some (Some a) -> parses b flag a -> (forall n, malloc_ok n = true) ->
  rns_announce_verify dst (SBytes b) flag = Some (
    match rns_identity_from_public a.(public_key) with
    | None => false
    | Some j =>
        match rns_sha256 (a.(name_hash) ++ j.(hash)) with
        | None => false
        | Some d => memeq (take 16 d) dst &&
            rns_identity_verify j (dst ++ (a.(public_key) ++ a.(name_hash) ++ a.(random_blob) ++
              default [] a.(ratchet)) ++ a.(app_data)) a.(signature)
        end
    end).
Proof.
  intros Hp [Hb Hpk Hnh Hrb [Hhr Hrt] Hsg _] Hm. unfold rns_announce_verify. rewrite Hp. cbn [mbind option_bind].
  destruct (rns_identity_from_public _) as [j|]; [|done]. destruct (rns_sha256 _) as [d|]; [|done].
  destruct (memeq _ dst); cbn [negb andb]; [|done]. rewrite Hm. cbn [negb slice_bytes].
  rewrite (bind_Some_eq _ _ (a.(public_key) ++ a.(name_hash) ++ a.(random_blob) ++ default [] a.(ratchet))); [done|].
  eapply (memread_at _ [] _ (a.(signature) ++ a.(app_data))); [|done|].
  - rewrite Hb. by rewrite <-!app_assoc.
  - rewrite !length_app, Hpk, Hnh, Hrb. destruct (has_ratchet a).
    + destruct Hrt as (x & -> & Hx). simpl. by rewrite Hx.
    + by rewrite Hrt.
Qed.

(** Verifying reads inside the body. *)
Lemma verify_total dst b flag a :
  rns_announce_parse (SBytes b) flag = Some (Some a) -> parses b flag a ->
  exists v, rns_announce_verify dst (SBytes b) flag = Some v.
Proof.
  intros Hp Ha. unfold rns_announce_verify. rewrite Hp. cbn [mbind option_bind].
  destruct (rns_identity_from_public _) as [j|]; [|by eexists]. destruct (rns_sha256 _) as [d|]; [|by eexists].
  destruct (negb (memeq _ dst)); [by eexists|]. destruct (negb (malloc_ok _)); [by eexists|].
  rewrite memread_in; [by eexists|]. destruct Ha as [Hb Hpk Hnh Hrb [_ Hrt] Hsg _]. cbn [slice_bytes].
  rewrite Hb, !length_app, Hpk, Hnh, Hrb, Hsg. destruct (has_ratchet a); [|lia].
  destruct Hrt as (x & -> & Hx). simpl. lia.
Qed.

(** An announce built by an identity for the destination derived from the
    name hash and the identity verifies, and parses back into the announced
    fields (public key, name hash, random prefix and timestamp, ratchet,
    application data). *)
Theorem announce_roundtrip i dst nh rp ts rt ad body digest :
  wf i -> args_ok (rns_identity_export_public i) dst nh rp ts rt -> (forall n, malloc_ok n = true) ->
  rns_sha256 (nh ++ i.(hash)) = Some digest -> dst = take 16 digest ->
  signed_body i dst nh rp ts rt ad = Some body -> (length body <= RNS_ANNOUNCE_MAX_BODY_SIZE)%nat ->
  let flag := if rt is Some _ then 1 else 0 in
  rns_announce_verify dst (SBytes body) flag = Some true /\
  exists a, rns_announce_parse (SBytes body) flag = Some (Some a) /\
    a.(public_key) = rns_identity_export_public i /\ a.(name_hash) = nh /\ take 5 a.(random_blob) = rp /\
    a.(timestamp) = ts /\ a.(ratchet) = rt /\ a.(app_data) = ad.
Proof.
  intros Hwf Hok Hm Hd Hdst (s & Hs & [= <-])%bind_Some Hmax flag.
  assert (length s = 64%nat) as Hsl.
  { unfold rns_identity_sign in Hs. case_match; [|done]. by apply sign_length in Hs. }
  pose proof (parses_signed_body _ _ _ _ _ _ s ad Hok Hsl) as Hps.
  assert (0 <= flag <= 1) as Hf by (unfold flag; case_match; lia).
  pose proof (parse_parses _ flag _ Hf Hps Hmax) as Hp. split.
  - rewrite (verify_spec _ _ _ _ Hp Hps Hm). cbn [public_key name_hash random_blob ratchet app_data signature].
    rewrite from_public_export by done. cbn [hash public_half]. unfold public_half. cbn [hash].
    rewrite Hd, Hdst, memeq_refl. cbn [andb].
    f_equal. rewrite <-Hdst. unfold prefix_bytes in Hs. rewrite <-!app_assoc in Hs |- *.
    by apply (sign_verify_public i).
  - eexists. split; [exact Hp|]. cbn [public_key name_hash random_blob ratchet app_data signature timestamp].
    split_and!; try done. apply take_app_length'. by rewrite (ok_prefix _ _ _ _ _ _ Hok).
Qed.

(** Whatever bytes arrive, a body that verifies for a destination is bound to
    it: the destination is the hash of the announced name hash and the announced
    key's identity, and the signature of that key covers the destination, every
    field before the signature and the application data. *)
Theorem rns_announce_verify_sound dst b flag :
  0 <= flag -> (forall n, malloc_ok n = true) ->
  rns_announce_verify dst (SBytes b) flag = Some true ->
  exists pk nh rb rt s ad d d', b = (pk ++ nh ++ rb ++ rt) ++ s ++ ad /\
    length pk = 64%nat /\ length nh = 10%nat /\ length rb = 10%nat /\ length s = 64%nat /\
    length rt = (if flag =? 0 then 0%nat else 32%nat) /\
    rns_sha256 pk = Some d /\ rns_sha256 (nh ++ take 16 d) = Some d' /\ dst = take 16 d' /\
    rns_ed25519_verify (drop 32 pk) (dst ++ (pk ++ nh ++ rb ++ rt) ++ ad) s = true.
Proof.
  intros Hf Hm Hv. pose proof (parse_spec b flag Hf) as Hp. case_decide as Hd.
  2:{ unfold rns_announce_verify in Hv. by rewrite Hp in Hv. }
  destruct Hp as (a & Hp & Hps). rewrite (verify_spec _ _ _ _ Hp Hps Hm) in Hv.
  pose proof Hps as [Hb Hpk Hnh Hrb [Hhr Hrt] Hsg _].
  destruct (rns_identity_from_public (public_key a)) as [j|] eqn:Hj; [|done].
  destruct (rns_sha256 (name_hash a ++ hash j)) as [d'|] eqn:Hd'; [|done].
  injection Hv as [Hdst%memeq_true Hsig]%andb_true_iff.
  apply update_hash_Some in Hj as (d & Hd1 & ->). unfold rns_identity_export_public in Hd1.
  cbn [encryption_public signing_public] in Hd1. rewrite (take_ge (drop 32 _)), take_drop in Hd1 by (rewrite length_drop; lia).
  unfold rns_identity_verify in Hsig. cbn [signing_public hash] in *.
  rewrite (take_ge (drop 32 _)) in Hsig by (rewrite length_drop; lia).
  exists (public_key a), (name_hash a), (random_blob a), (default [] (ratchet a)), (signature a), (app_data a), d, d'.
  split_and!; try done.
  - rewrite Hb. by rewrite <-!app_assoc.
  - rewrite Hhr in Hrt. destruct (flag =? 0); simpl in Hrt; [by rewrite Hrt|]. by destruct Hrt as (x & -> & ?).
Qed.
End WithCrypto.

(** ** A concrete announce *)

Definition sample_name : list Z := fold_to 10 [5].
Definition sample_destination : list Z := take 16 (fold_to 32 (sample_name ++ sample.(hash))).

Lemma sample_args :
  args_ok (rns_identity_export_public sample) sample_destination sample_name [1; 2; 3; 4; 5] 1700000000 (Some (fold_to 32 [7])).
Proof. constructor; try (vm_compute; reflexivity); [vm_compute; split; congruence|]. intros x [= <-]. apply length_fold_to. Qed.

Definition sample_body : list Z :=
  default [] (signed_body sample sample_destination sample_name [1; 2; 3; 4; 5] 1700000000 (Some (fold_to 32 [7])) [9; 9]).

Lemma sample_body_signed :
  signed_body sample sample_destination sample_name [1; 2; 3; 4; 5] 1700000000 (Some (fold_to 32 [7])) [9; 9] = Some sample_body.
Proof. vm_compute. reflexivity. Qed.

Lemma rns_announce_parse_spec_witness :
  exists a, rns_announce_parse (SBytes sample_body) 1 = Some (Some a) /\ parses sample_body 1 a.
Proof. exact (rns_announce_parse_spec sample_body 1 ltac:(lia)). Defined.

Lemma rns_announce_build_spec_witness :
  exists o', rns_announce_build (λ _, true) sample sample_destination sample_name [1; 2; 3; 4; 5] 1700000000
    (Some (fold_to 32 [7])) (SBytes [9; 9]) (Some (replicate 200 0)) 200 (Some 0%nat) (Some 0) =
      Some (true, Some o', Some 182%nat, Some 1).
Proof.
  destruct (rns_announce_build_spec (λ _, true) sample sample_destination sample_name [1; 2; 3; 4; 5] 1700000000
    (Some (fold_to 32 [7])) (SBytes [9; 9]) (replicate 200 0) 200 0 0 sample_body sample_args eq_refl eq_refl
    (le_n _) (λ _, eq_refl) sample_body_signed) as (o' & E & _). exists o'. exact E.
Defined.

Lemma announce_roundtrip_witness :
  rns_announce_verify (λ _, true) sample_destination (SBytes sample_body) 1 = Some true.
Proof.
  refine (proj1 (announce_roundtrip (λ _, true) sample sample_destination sample_name [1; 2; 3; 4; 5] 1700000000
    (Some (fold_to 32 [7])) [9; 9] sample_body (fold_to 32 (sample_name ++ sample.(hash))) sample_wf sample_args
    (λ _, eq_refl) eq_refl eq_refl sample_body_signed _)). vm_compute. lia.
Defined.

Lemma rns_announce_verify_sound_witness :
  exists pk nh rb rt s ad d d', sample_body = (pk ++ nh ++ rb ++ rt) ++ s ++ ad /\
    length pk = 64%nat /\ length nh = 10%nat /\ length rb = 10%nat /\ length s = 64%nat /\
    length rt = 32%nat /\
    rns_sha256 pk = Some d /\ rns_sha256 (nh ++ take 16 d) = Some d' /\ sample_destination = take 16 d' /\
    rns_ed25519_verify (drop 32 pk) (sample_destination ++ (pk ++ nh ++ rb ++ rt) ++ ad) s = true.
Proof.
  apply (rns_announce_verify_sound (λ _, true) sample_destination sample_body 1 ltac:(lia) (λ _, eq_refl)).
  vm_compute. reflexivity.
Defined.

End Announce.
