(* ===== verification/Ifac.v ===== *)
(** * Interface access codes

    Models [src/transport/ifac.c]: the derivation of an interface's signing
    identity from a network name and passphrase, and the masking of packets with
    an authentication tag. *)

From Stdlib Require Import ZArith Lia.
From S2P Require Import Prelude Crypto Identity Packet.

Module Ifac.
Import Identity.

Definition RNS_IFAC_MIN_SIZE : nat := 1.
Definition RNS_IFAC_MAX_SIZE : nat := 64.
Definition RNS_IFAC_KEY_SIZE : nat := 64.

Definition IFAC_SALT : list Z :=
  [0xad;0xf5;0x4d;0x88;0x2c;0x9a;0x9b;0x80;0x77;0x1e;0xb4;0x99;0x5d;0x70;0x2d;0x4a;
   0x3e;0x73;0x33;0x91;0xb2;0xa0;0xf5;0x3f;0x41;0x6d;0x9f;0x90;0x7e;0x55;0xcf;0xf8].

Record rns_ifac : Type := {
  key : list Z;
  ifac_identity : rns_identity;
  tag_size : nat
}.

Definition valid (ifac : rns_ifac) : bool :=
  (RNS_IFAC_MIN_SIZE <=? ifac.(tag_size))%nat && (ifac.(tag_size) <=? RNS_IFAC_MAX_SIZE)%nat &&
  ifac.(ifac_identity).(has_private).

Definition rns_ifac_protected_bound (raw_length tag : nat) : nat :=
  if (raw_length <? 2)%nat || (Packet.RNS_MTU <? raw_length)%nat || (tag <? RNS_IFAC_MIN_SIZE)%nat ||
     (RNS_IFAC_MAX_SIZE <? tag)%nat || (SIZE_MAX - Z.of_nat tag <? Z.of_nat raw_length) then 0%nat
  else (raw_length + tag)%nat.

(** [o[dst + k] = src[from + k] ^ mask[at + k]] for the [n] bytes from [k] on. *)
Fixpoint mask_loop (o src mask : list Z) (dst from at_ n : nat) : option (list Z) :=
  match n with
  | O => Some o
  | S n =>
      x ← load src from; m ← load mask at_;
      o ← store o dst (wrap8 (Z.lxor x m));
      mask_loop o src mask (S dst) (S from) (S at_) n
  end.

Section WithCrypto.
Context `{Crypto}.

Definition rns_ifac_derive (network_name passphrase : slice) (tag : nat) : option rns_ifac :=
  let nl := slice_length network_name in
  let pl := slice_length passphrase in
  if (tag <? RNS_IFAC_MIN_SIZE)%nat || (RNS_IFAC_MAX_SIZE <? tag)%nat || ((nl =? 0)%nat && (pl =? 0)%nat) ||
     slice_bad network_name || slice_bad passphrase then None
  else
    o1 ← (if negb (nl =? 0)%nat then rns_sha256 (slice_bytes network_name) else Some []);
    o2 ← (if negb (pl =? 0)%nat then rns_sha256 (slice_bytes passphrase) else Some []);
    origin_hash ← rns_sha256 (o1 ++ o2);
    k ← rns_hkdf_sha256 origin_hash IFAC_SALT [] RNS_IFAC_KEY_SIZE;
    i ← rns_identity_from_private k;
    Some {| key := k; ifac_identity := i; tag_size := tag |}.

(** The C result, the output object and the length; the outer option is memory
    safety. *)
Definition rns_ifac_protect (ifac : rns_ifac) (raw : slice) (out : option (list Z)) (out_capacity : nat)
    (out_length : option nat) : option (bool * option (list Z) * option nat) :=
  match raw, out, out_length with
  | SBytes raw, Some o, Some _ =>
      let total := rns_ifac_protected_bound (length raw) ifac.(tag_size) in
      if negb (valid ifac) || (total =? 0)%nat || (out_capacity <? total)%nat
      then Some (false, out, out_length)
      else
        match rns_identity_sign ifac.(ifac_identity) raw with
        | None => Some (false, out, out_length)
        | Some signature =>
            tag ← memread signature (64 - ifac.(tag_size)) ifac.(tag_size);
            match rns_hkdf_sha256 tag ifac.(key) [] total with
            | None => Some (false, out, out_length)
            | Some mask =>
                r0 ← load raw 0; m0 ← load mask 0;
                o ← store o 0 (wrap8 (Z.lxor (Z.lor r0 0x80) m0));
                b0 ← load o 0;
                o ← store o 0 (Z.lor b0 0x80);
                r1 ← load raw 1; m1 ← load mask 1;
                o ← store o 1 (wrap8 (Z.lxor r1 m1));
                o ← memcpy o 2 tag;
                o ← mask_loop o raw mask (2 + ifac.(tag_size)) 2 (2 + ifac.(tag_size)) (length raw - 2);
                Some (true, Some o, Some total)
            end
        end
  | _, _, _ => Some (false, out, out_length)
  end.

Definition rns_ifac_unprotect (ifac : rns_ifac) (protected_raw : slice) (out : option (list Z))
    (out_capacity : nat) (out_length : option nat) : option (bool * option (list Z) * option nat) :=
  match protected_raw, out, out_length with
  | SBytes p, Some o, Some _ =>
      if negb (valid ifac) then Some (false, out, out_length)
      else
        first ← load p 0;
        if (Z.land first 0x80 =? 0) || (length p <=? 2 + ifac.(tag_size))%nat then Some (false, out, out_length)
        else
          let raw_length := (length p - ifac.(tag_size))%nat in
          if (Packet.RNS_MTU <? raw_length)%nat || (out_capacity <? raw_length)%nat then Some (false, out, out_length)
          else
            tag ← memread p 2 ifac.(tag_size);
            match rns_hkdf_sha256 tag ifac.(key) [] (length p) with
            | None => Some (false, out, out_length)
            | Some mask =>
                p0 ← load p 0; m0 ← load mask 0;
                o ← store o 0 (wrap8 (Z.land (Z.lxor p0 m0) 0x7f));
                p1 ← load p 1; m1 ← load mask 1;
                o ← store o 1 (wrap8 (Z.lxor p1 m1));
                o ← mask_loop o p mask 2 (2 + ifac.(tag_size)) (2 + ifac.(tag_size)) (raw_length - 2);
                raw ← memread o 0 raw_length;
                match rns_identity_sign ifac.(ifac_identity) raw with
                | None => o ← memset o 0 0 raw_length; Some (false, Some o, out_length)
                | Some expected =>
                    t ← memread expected (64 - ifac.(tag_size)) ifac.(tag_size);
                    same ← equal_ct tag t ifac.(tag_size);
                    if negb same then o ← memset o 0 0 raw_length; Some (false, Some o, out_length)
                    else Some (true, Some o, Some raw_length)
                end
            end
  | _, _, _ => Some (false, out, out_length)
  end.

(** ** Masking *)

Definition xor_bytes : list Z -> list Z -> list Z := zip_with Z.lxor.

Lemma mask_loop_spec n N o w src mask from at_ :
  bytes_ok src -> bytes_ok mask -> wrote N o w -> (length w + n <= N)%nat ->
  (from + n <= length src)%nat -> (at_ + n <= length mask)%nat ->
  exists o', mask_loop o src mask (length w) from at_ n = Some o' /\
    wrote N o' (w ++ xor_bytes (take n (drop from src)) (take n (drop at_ mask))).
Proof.
  intros Hs Hm. revert o w from at_. induction n as [|n IH]; intros o w from at_ Hw Hn Hf Ha; simpl.
  { exists o. by rewrite app_nil_r. }
  destruct (lookup_lt_is_Some_2 src from) as [x Hx]; [lia|].
  destruct (lookup_lt_is_Some_2 mask at_) as [y Hy]; [lia|].
  unfold load. rewrite Hx, Hy. cbn [mbind option_bind].
  pose proof (Forall_lookup_1 _ _ _ _ Hs Hx) as Hbx. pose proof (Forall_lookup_1 _ _ _ _ Hm Hy) as Hby.
  rewrite wrap_small by (by apply byte_lxor_spec).
  destruct (wrote_store _ _ _ (Z.lxor x y) Hw) as (o1 & -> & Hw1); [lia|]. cbn [mbind option_bind].
  destruct (IH o1 (w ++ [Z.lxor x y]) (S from) (S at_) Hw1) as (o2 & Ho2 & Hw2); [rewrite ?length_app; simpl; lia..|].
  rewrite length_app, Nat.add_comm in Ho2. exists o2. split; [exact Ho2|].
  rewrite (drop_S _ _ _ Hx), (drop_S _ _ _ Hy), !firstn_cons. cbn [xor_bytes zip_with].
  by rewrite <-app_assoc in Hw2.
Qed.

Lemma xor_bytes_twice a m : length a = length m -> xor_bytes (xor_bytes a m) m = a.
Proof.
  unfold xor_bytes. revert m. induction a as [|x a IH]; intros [|y m] Hl; simpl in *; try done.
  rewrite IH by lia. f_equal. by rewrite Z.lxor_assoc, Z.lxor_nilpotent, Z.lxor_0_r.
Qed.

Lemma length_xor_bytes a m : length a = length m -> length (xor_bytes a m) = length a.
Proof. intros. unfold xor_bytes. rewrite length_zip_with. lia. Qed.

Lemma xor_bytes_ok a m : bytes_ok a -> bytes_ok m -> bytes_ok (xor_bytes a m).
Proof.
  unfold xor_bytes. revert m. induction a as [|x a IH]; intros [|y m] Ha Hm; simpl; try apply Forall_nil_2.
  apply Forall_cons_1 in Ha as [? ?], Hm as [? ?]. apply Forall_cons_2; [by apply byte_lxor_spec|auto].
Qed.

(** The first byte: the access bit is set on the wire and cleared on return. *)
Lemma first_byte r m :
  0 <= r < 128 -> is_byte m ->
  let b := Z.lor (wrap8 (Z.lxor (Z.lor r 0x80) m)) 0x80 in
  is_byte b /\ Z.land b 0x80 <> 0 /\ wrap8 (Z.land (Z.lxor b m) 0x7f) = r.
Proof.
  intros Hr Hm.
  pose proof (forall_below2 128 256 (λ r m,
    let b := Z.lor (wrap8 (Z.lxor (Z.lor r 0x80) m)) 0x80 in
    (0 <=? b) && (b <? 256) && negb (Z.land b 0x80 =? 0) && (wrap8 (Z.land (Z.lxor b m) 0x7f) =? r))
    ltac:(vm_compute; reflexivity) r m Hr Hm) as H0.
  cbv zeta in H0 |- *. rewrite !andb_true_iff, negb_true_iff, Z.eqb_eq, Z.eqb_neq in H0.
  unfold in_width. split_and!; try tauto; lia.
Qed.

End WithCrypto.

Section Roundtrip.
Context `{Crypto}.

(** The protected form of a packet. *)
Definition protected_image (ifac : rns_ifac) (raw : list Z) : option (list Z) :=
  signature ← rns_identity_sign ifac.(ifac_identity) raw;
  let tag := drop (64 - ifac.(tag_size)) signature in
  mask ← rns_hkdf_sha256 tag ifac.(key) [] (length raw + ifac.(tag_size));
  match raw, mask with
  | r0 :: r1 :: rest, m0 :: m1 :: _ =>
      Some ([Z.lor (wrap8 (Z.lxor (Z.lor r0 0x80) m0)) 0x80; Z.lxor r1 m1] ++ tag ++
            xor_bytes rest (drop (2 + ifac.(tag_size)) mask))
  | _, _ => None
  end.

Lemma valid_tag ifac :
  valid ifac = true -> (1 <= ifac.(tag_size) <= 64)%nat /\ ifac.(ifac_identity).(has_private) = true.
Proof.
  unfold valid, RNS_IFAC_MIN_SIZE, RNS_IFAC_MAX_SIZE. rewrite !andb_true_iff, !Nat.leb_le. tauto.
Qed.

Lemma bound_spec n t :
  (2 <= n <= Packet.RNS_MTU)%nat -> (1 <= t <= 64)%nat -> rns_ifac_protected_bound n t = (n + t)%nat.
Proof.
  intros Hn Ht. unfold rns_ifac_protected_bound, Packet.RNS_MTU, RNS_IFAC_MIN_SIZE, RNS_IFAC_MAX_SIZE in *.
  rewrite !(proj2 (Nat.ltb_ge _ _)) by lia. rewrite (proj2 (Z.ltb_ge _ _)) by (limits; lia). done.
Qed.

(** The signature, the tag, the mask and the bytes behind an image. *)
Lemma image_parts ifac raw w :
  valid ifac = true -> protected_image ifac raw = Some w ->
  exists s tag mask r0 r1 rest m0 m1 mrest,
    rns_identity_sign ifac.(ifac_identity) raw = Some s /\ length s = 64%nat /\
    tag = drop (64 - ifac.(tag_size)) s /\ length tag = ifac.(tag_size) /\ bytes_ok tag /\
    rns_hkdf_sha256 tag ifac.(key) [] (length raw + ifac.(tag_size)) = Some mask /\ bytes_ok mask /\
    length mask = (length raw + ifac.(tag_size))%nat /\
    raw = r0 :: r1 :: rest /\ mask = m0 :: m1 :: mrest /\
    w = [Z.lor (wrap8 (Z.lxor (Z.lor r0 0x80) m0)) 0x80; Z.lxor r1 m1] ++ tag ++
          xor_bytes rest (drop (2 + ifac.(tag_size)) mask).
Proof.
  intros [Ht Hp]%valid_tag. unfold protected_image. intros (s & Hs & Hr)%bind_Some. cbv zeta in Hr.
  apply bind_Some in Hr as (mask & Hm & Hr).
  assert (length s = 64%nat /\ bytes_ok s) as [Hsl Hsb].
  { unfold rns_identity_sign in Hs. rewrite Hp in Hs. split; [by apply sign_length in Hs|by apply sign_bytes in Hs]. }
  destruct raw as [|r0 [|r1 rest]]; [done..|]. destruct mask as [|m0 [|m1 mrest]] eqn:Em; [done..|].
  injection Hr as <-. rewrite <-Em in *. eexists s, _, mask, r0, r1, rest, m0, m1, mrest.
  split_and!; try done.
  - rewrite length_drop. lia.
  - by apply Forall_drop.
  - by apply hkdf_bytes in Hm.
  - by apply hkdf_length in Hm.
  - by rewrite Em.
Qed.

Lemma drop_mask_length (mask raw : list Z) t :
  length mask = (length raw + t)%nat -> (2 <= length raw)%nat ->
  length (drop (2 + t) mask) = (length raw - 2)%nat.
Proof. intros Hm Hl. rewrite length_drop. lia. Qed.

Lemma protect_spec ifac raw o cap n0 w :
  valid ifac = true -> bytes_ok raw -> (length raw <= Packet.RNS_MTU)%nat -> (cap <= length o)%nat ->
  protected_image ifac raw = Some w ->
  length w = (length raw + ifac.(tag_size))%nat /\
  if decide (length w <= cap)%nat then
    exists o', rns_ifac_protect ifac (SBytes raw) (Some o) cap (Some n0) = Some (true, Some o', Some (length w)) /\
      wrote (length o) o' w
  else rns_ifac_protect ifac (SBytes raw) (Some o) cap (Some n0) = Some (false, Some o, Some n0).
Proof.
  intros Hv Hb Hmtu Hcap Himg. pose proof (valid_tag _ Hv) as [Ht _].
  destruct (image_parts _ _ _ Hv Himg) as (s & tag & mask & r0 & r1 & rest & m0 & m1 & mrest &
    Hs & Hsl & Htag & Htl & Htb & Hmask & Hmb & Hml & Hraw & Em & ->).
  assert (2 <= length raw)%nat as H2 by (rewrite Hraw; simpl; lia).
  pose proof (drop_mask_length mask raw (tag_size ifac) Hml H2) as Hdl.
  assert (length rest = length raw - 2)%nat as Hrl by (rewrite Hraw; simpl; lia).
  assert (length ([Z.lor (wrap8 (Z.lxor (Z.lor r0 128) m0)) 128; Z.lxor r1 m1] ++ tag ++
    xor_bytes rest (drop (2 + tag_size ifac) mask)) = length raw + tag_size ifac)%nat as Hwl.
  { rewrite !length_app, length_xor_bytes, Htl by lia. simpl. lia. }
  split; [exact Hwl|]. rewrite Hwl.
  unfold rns_ifac_protect. rewrite Hv, bound_spec by (done || lia). cbn [negb orb].
  rewrite (proj2 (Nat.eqb_neq _ _)) by lia. cbn [orb].
  case_decide as Hd; [|by rewrite (proj2 (Nat.ltb_lt _ _)) by lia].
  rewrite (proj2 (Nat.ltb_ge _ _)) by lia. rewrite Hs.
  rewrite (bind_Some_eq _ _ tag).
  2:{ unfold memread. rewrite decide_True by lia. rewrite Htag. f_equal. apply take_ge. rewrite length_drop. lia. }
  rewrite Hmask.
  rewrite (bind_Some_eq (load raw 0) _ r0), (bind_Some_eq (load mask 0) _ m0) by (by rewrite ?Hraw, ?Em).
  destruct (wrote_store (length o) o [] (wrap8 (Z.lxor (Z.lor r0 128) m0))) as (o1 & Ho1 & Hw1);
    [by apply wrote_nil|simpl; lia|]. simpl in Ho1. rewrite Ho1. cbn [mbind option_bind].
  rewrite (bind_Some_eq (load o1 0) _ (wrap8 (Z.lxor (Z.lor r0 128) m0))).
  2:{ destruct Hw1 as (_ & Htk & _). destruct o1; [done|]. simpl in Htk. by injection Htk as ->. }
  destruct (wrote_store (length o) o1 [] (Z.lor (wrap8 (Z.lxor (Z.lor r0 128) m0)) 128)) as (o2 & Ho2 & Hw2);
    [apply wrote_nil; apply Hw1|simpl; lia|]. simpl in Ho2. rewrite Ho2. cbn [mbind option_bind].
  rewrite (bind_Some_eq (load raw 1) _ r1), (bind_Some_eq (load mask 1) _ m1) by (by rewrite ?Hraw, ?Em).
  rewrite (wrap_small 8 (Z.lxor r1 m1)).
  2:{ apply byte_lxor_spec; [apply (Forall_lookup_1 _ _ 1%nat _ Hb); by rewrite Hraw|
        apply (Forall_lookup_1 _ _ 1%nat _ Hmb); by rewrite Em]. }
  destruct (wrote_store _ _ _ (Z.lxor r1 m1) Hw2) as (o3 & Ho3 & Hw3); [simpl; lia|].
  simpl in Ho3. rewrite Ho3. cbn [mbind option_bind].
  destruct (wrote_memcpy _ _ _ tag Hw3) as (o4 & Ho4 & Hw4); [simpl; lia|].
  simpl in Ho4. rewrite Ho4. cbn [mbind option_bind].
  destruct (mask_loop_spec (length raw - 2) _ _ _ raw mask 2 (2 + tag_size ifac) Hb Hmb Hw4) as (o5 & Ho5 & Hw5);
    [rewrite !length_app; simpl; lia|lia|lia|].
  rewrite !length_app, Htl in Ho5. simpl in Ho5. simpl. rewrite Ho5. cbn [mbind option_bind].
  eexists. split; [done|]. rewrite !(take_ge (drop _ _)) in Hw5 by (rewrite length_drop; lia).
  replace (drop 2 raw) with rest in Hw5 by (by rewrite Hraw). by rewrite <-!app_assoc in Hw5.
Qed.

Lemma image_first ifac raw w :
  valid ifac = true -> bytes_ok raw -> protected_image ifac raw = Some w -> bytes_ok w.
Proof.
  intros Hv Hb Himg.
  destruct (image_parts _ _ _ Hv Himg) as (s & tag & mask & r0 & r1 & rest & m0 & m1 & mrest &
    Hs & Hsl & Htag & Htl & Htb & Hmask & Hmb & Hml & -> & -> & ->).
  apply Forall_cons_1 in Hb as [H0 Hb]. apply Forall_cons_1 in Hb as [H1 Hb].
  pose proof (Forall_cons_1 _ _ _ Hmb) as [Hm0 Hmb']. apply Forall_cons_1 in Hmb' as [Hm1 Hmb'].
  apply Forall_cons_2; [|apply Forall_cons_2; [by apply byte_lxor_spec|apply Forall_app_2; [done|]]].
  - apply byte_lor_spec; [by apply wrap_in_width|by vm_compute].
  - apply xor_bytes_ok; [done|by apply Forall_drop].
Qed.

Lemma unprotect_image ifac raw w o cap n0 :
  valid ifac = true -> bytes_ok raw -> (3 <= length raw <= Packet.RNS_MTU)%nat ->
  (forall r0, load raw 0 = Some r0 -> r0 < 128) -> (length raw <= cap <= length o)%nat ->
  protected_image ifac raw = Some w ->
  exists o', rns_ifac_unprotect ifac (SBytes w) (Some o) cap (Some n0) = Some (true, Some o', Some (length raw)) /\
    wrote (length o) o' raw.
Proof.
  intros Hv Hb Hlen Hr0 Hcap Himg. pose proof (image_first _ _ _ Hv Hb Himg) as Hwb.
  pose proof (protect_spec _ _ o cap n0 _ Hv Hb (proj2 Hlen) (proj2 Hcap) Himg) as [Hwl _].
  pose proof (valid_tag _ Hv) as [Ht _].
  destruct (image_parts _ _ _ Hv Himg) as (s & tag & mask & r0 & r1 & rest & m0 & m1 & mrest &
    Hs & Hsl & Htag & Htl & Htb & Hmask & Hmb & Hml & Hraw & Em & Hw).
  pose proof (drop_mask_length mask raw (tag_size ifac) Hml ltac:(lia)) as Hdl.
  assert (length rest = length raw - 2)%nat as Hrl by (rewrite Hraw; simpl; lia).
  assert (is_byte m0) as Hm0 by (apply (Forall_lookup_1 _ _ 0%nat _ Hmb); by rewrite Em).
  assert (is_byte m1) as Hm1 by (apply (Forall_lookup_1 _ _ 1%nat _ Hmb); by rewrite Em).
  assert (is_byte r0) as Hb0 by (apply (Forall_lookup_1 _ _ 0%nat _ Hb); by rewrite Hraw).
  assert (is_byte r1) as Hb1 by (apply (Forall_lookup_1 _ _ 1%nat _ Hb); by rewrite Hraw).
  assert (r0 < 128) as Hlt by (apply Hr0; by rewrite Hraw).
  destruct (first_byte r0 m0) as (_ & Hbit & Hback); [unfold in_width in Hb0; lia|done|].
  set (b0 := Z.lor (wrap8 (Z.lxor (Z.lor r0 128) m0)) 128) in *.
  unfold rns_ifac_unprotect. rewrite Hv. cbn [negb].
  rewrite (bind_Some_eq (load w 0) _ b0) by (by rewrite Hw).
  rewrite (proj2 (Z.eqb_neq _ _)), (proj2 (Nat.leb_gt _ _)) by (done || lia). cbn [orb].
  replace (length w - tag_size ifac)%nat with (length raw) by lia.
  rewrite !(proj2 (Nat.ltb_ge _ _)) by lia. cbn [orb].
  rewrite (bind_Some_eq _ _ tag) by (by eapply (memread_at _ [b0; Z.lxor r1 m1])).
  rewrite Hwl, Hmask.
  rewrite (bind_Some_eq (load w 0) _ b0) by (by rewrite Hw).
  rewrite (bind_Some_eq (load mask 0) _ m0) by (by rewrite Em).
  rewrite Hback.
  destruct (wrote_store (length o) o [] r0) as (o1 & Ho1 & Hw1); [by apply wrote_nil|simpl; lia|].
  simpl in Ho1. rewrite Ho1. cbn [mbind option_bind].
  rewrite (bind_Some_eq (load w 1) _ (Z.lxor r1 m1)) by (by rewrite Hw).
  rewrite (bind_Some_eq (load mask 1) _ m1) by (by rewrite Em).
  rewrite Z.lxor_assoc, Z.lxor_nilpotent, Z.lxor_0_r, (wrap_small 8 r1) by done.
  destruct (wrote_store _ _ _ r1 Hw1) as (o2 & Ho2 & Hw2); [simpl; lia|].
  simpl in Ho2. rewrite Ho2. cbn [mbind option_bind].
  destruct (mask_loop_spec (length raw - 2) _ _ _ w mask (2 + tag_size ifac) (2 + tag_size ifac) Hwb Hmb Hw2)
    as (o3 & Ho3 & Hw3); [simpl; lia|lia|lia|].
  assert (drop (2 + tag_size ifac) w = xor_bytes rest (drop (2 + tag_size ifac) mask)) as Hdw.
  { rewrite Hw, app_assoc. apply drop_app_length'. rewrite length_app, Htl. done. }
  rewrite Hdw, !take_ge, xor_bytes_twice in Hw3 by (rewrite ?length_xor_bytes; lia).
  rewrite <-app_assoc in Hw3. cbn [app] in Hw3. rewrite <-Hraw in Hw3.
  change (length ([] ++ [r0] ++ [r1])) with 2%nat in Ho3. cbn [length app] in Ho3.
  rewrite Ho3. cbn [mbind option_bind]. rewrite (wrote_read _ _ _ Hw3). cbn [mbind option_bind]. rewrite Hs.
  rewrite (bind_Some_eq _ _ tag).
  2:{ unfold memread. rewrite decide_True by lia. rewrite Htag. f_equal. apply take_ge. rewrite length_drop. lia. }
  rewrite equal_ct_spec by (done || lia). cbn [mbind option_bind]. rewrite memeq_refl. cbn [negb].
  eexists. by split.
Qed.

(** Interface access codes round trip. A packet of at least three bytes with
    a clear access bit that one end protects is exactly the packet the other
    end, holding the same key, gets back; the protected form is the packet's
    length plus the tag, has the access bit set, and every access stays inside
    the buffers. *)
Theorem ifac_roundtrip ifac raw w o cap o' cap' n0 n0' :
  valid ifac = true -> bytes_ok raw -> (3 <= length raw <= Packet.RNS_MTU)%nat ->
  (forall r0, load raw 0 = Some r0 -> r0 < 128) ->
  protected_image ifac raw = Some w ->
  (length raw + ifac.(tag_size) <= cap <= length o)%nat -> (length raw <= cap' <= length o')%nat ->
  exists p q, rns_ifac_protect ifac (SBytes raw) (Some o) cap (Some n0)
      = Some (true, Some p, Some (length raw + ifac.(tag_size))%nat) /\ wrote (length o) p w /\
    rns_ifac_unprotect ifac (SBytes w) (Some o') cap' (Some n0') = Some (true, Some q, Some (length raw)) /\
    wrote (length o') q raw.
Proof.
  intros Hv Hb Hl Hr0 Himg Hc Hc'.
  destruct (protect_spec _ _ o cap n0 _ Hv Hb (proj2 Hl) (proj2 Hc) Himg) as [Hwl Hp].
  rewrite Hwl in Hp. rewrite decide_True in Hp by lia. destruct Hp as (p & Hp & Hpw).
  destruct (unprotect_image ifac raw w o' cap' n0' Hv Hb Hl Hr0 Hc' Himg) as (q & Hq & Hqw).
  exists p, q. by split_and!.
Qed.
End Roundtrip.

Section Safety.
Context `{Crypto}.

(** What a call may leave behind. *)
Definition unprotect_post (ifac : rns_ifac) (p o : list Z) (n0 : nat) (ok : bool) (o' : list Z) (n : nat) : Prop :=
  length o' = length o /\
  if ok then exists raw s, wrote (length o) o' raw /\ n = length raw /\
       length p = (length raw + ifac.(tag_size))%nat /\
       rns_identity_sign ifac.(ifac_identity) raw = Some s /\
       memread p 2 ifac.(tag_size) = Some (drop (64 - ifac.(tag_size)) s)
  else n = n0.

(** The unmasking writes the packet's bytes. *)
Lemma unmask_spec p mask o t :
  bytes_ok p -> bytes_ok mask -> length mask = length p -> (2 + t < length p)%nat -> (length p - t <= length o)%nat ->
  exists raw o', length raw = (length p - t)%nat /\ wrote (length o) o' raw /\
    (p0 ← load p 0; m0 ← load mask 0;
     o ← store o 0 (wrap8 (Z.land (Z.lxor p0 m0) 0x7f));
     p1 ← load p 1; m1 ← load mask 1;
     o ← store o 1 (wrap8 (Z.lxor p1 m1));
     mask_loop o p mask 2 (2 + t) (2 + t) (length p - t - 2)) = Some o'.
Proof.
  intros Hb Hmb Hml Ht Ho.
  destruct (lookup_lt_is_Some_2 p 0) as [p0 Hp0]; [lia|]. destruct (lookup_lt_is_Some_2 p 1) as [p1 Hp1]; [lia|].
  destruct (lookup_lt_is_Some_2 mask 0) as [m0 Hm0]; [lia|]. destruct (lookup_lt_is_Some_2 mask 1) as [m1 Hm1]; [lia|].
  rewrite (bind_Some_eq (load p 0) _ p0), (bind_Some_eq (load mask 0) _ m0) by done.
  set (b0 := wrap8 (Z.land (Z.lxor p0 m0) 127)). set (b1 := wrap8 (Z.lxor p1 m1)).
  destruct (wrote_store2 (length o) o [] b0 b1) as (o1 & o2 & Ho1 & Ho2 & Hw2); [by apply wrote_nil|simpl; lia|].
  simpl in Ho1, Ho2, Hw2. rewrite (bind_Some_eq _ _ _ Ho1).
  rewrite (bind_Some_eq (load p 1) _ p1), (bind_Some_eq (load mask 1) _ m1) by done. fold b1.
  rewrite (bind_Some_eq _ _ _ Ho2).
  destruct (mask_loop_spec (length p - t - 2) _ _ _ p mask (2 + t) (2 + t) Hb Hmb Hw2) as (o3 & Ho3 & Hw3);
    [simpl; lia..|].
  change (length [b0; b1]) with 2%nat in Ho3. eexists _, o3. split; [|split; [exact Hw3|exact Ho3]].
  rewrite length_app, length_xor_bytes by (rewrite !length_take, !length_drop; lia).
  rewrite length_take, length_drop. simpl. lia.
Qed.

(** Moving a continuation into the last step of a chain of binds. *)
Lemma bind_assoc {A B C} (x : option A) (f : A -> option B) (g : B -> option C) :
  (x ≫= f) ≫= g = x ≫= λ a, f a ≫= g.
Proof. by destruct x. Qed.

Lemma wrote_clear N (o w : list Z) :
  wrote N o w -> exists o', memset o 0 0 (length w) = Some o' /\ length o' = N.
Proof.
  intros (Hl & _ & Hle). unfold memset, memcpy. rewrite length_replicate, decide_True by lia.
  eexists. split; [done|]. rewrite !length_app, length_take, length_replicate, length_drop. lia.
Qed.

(** [rns_ifac_unprotect] on any non-empty input stays inside its buffers, and
    it reports a packet only when the tag carried by the input is the end of the
    shared key's signature over exactly that packet; on failure the length is
    left alone. *)
Theorem rns_ifac_unprotect_authentic ifac p o cap n0 :
  valid ifac = true -> bytes_ok p -> p <> [] -> (cap <= length o)%nat ->
  exists ok o' n, rns_ifac_unprotect ifac (SBytes p) (Some o) cap (Some n0) = Some (ok, Some o', Some n) /\
    unprotect_post ifac p o n0 ok o' n.
Proof.
  intros Hv Hb Hne Hcap. pose proof (valid_tag _ Hv) as [Ht Hpriv].
  assert (exists ok o' n, Some (false, Some o, Some n0) = Some (ok, Some o', Some n) /\
    unprotect_post ifac p o n0 ok o' n) as Hfail by (by exists false, o, n0).
  unfold rns_ifac_unprotect. rewrite Hv. cbn [negb].
  destruct (lookup_lt_is_Some_2 p 0) as [p0 Hp0]; [destruct p; simpl; [done|lia]|].
  rewrite (bind_Some_eq (load p 0) _ p0) by done.
  destruct ((Z.land p0 128 =? 0) || (length p <=? 2 + tag_size ifac)%nat) eqn:G1; [exact Hfail|].
  apply orb_false_iff in G1 as [_ Hlen%Nat.leb_gt].
  destruct ((Packet.RNS_MTU <? length p - tag_size ifac)%nat || (cap <? length p - tag_size ifac)%nat) eqn:G2; [exact Hfail|].
  apply orb_false_iff in G2 as [_ Hc%Nat.ltb_ge].
  set (tag := take (tag_size ifac) (drop 2 p)).
  assert (memread p 2 (tag_size ifac) = Some tag) as Htag by (unfold memread; by rewrite decide_True by lia).
  assert (length tag = tag_size ifac) as Htl by (unfold tag; rewrite length_take, length_drop; lia).
  assert (bytes_ok tag) as Htb by (by apply Forall_take, Forall_drop).
  rewrite (bind_Some_eq _ _ _ Htag).
  destruct (rns_hkdf_sha256 tag (key ifac) [] (length p)) as [mask|] eqn:Hmask; [|exact Hfail].
  destruct (unmask_spec p mask o (tag_size ifac) Hb (hkdf_bytes _ _ _ _ _ Hmask) (hkdf_length _ _ _ _ _ Hmask) Hlen)
    as (raw & o3 & Hrl & Hw3 & Ho3); [lia|].
  match goal with |- exists ok o' n, ?x = _ /\ _ => 
    replace x with (Some o3 ≫= λ o, raw ← memread o 0 (length p - tag_size ifac);
      match rns_identity_sign (ifac_identity ifac) raw with
      | None => o ← memset o 0 0 (length p - tag_size ifac); Some (false, Some o, Some n0)
      | Some expected =>
          t ← memread expected (64 - ifac.(tag_size)) ifac.(tag_size);
          same ← equal_ct tag t ifac.(tag_size);
          if negb same then o ← memset o 0 0 (length p - tag_size ifac); Some (false, Some o, Some n0)
          else Some (true, Some o, Some (length p - tag_size ifac)%nat)
      end) by (rewrite <-Ho3, ?bind_assoc; repeat (apply option_bind_ext_fun; intros ?; rewrite ?bind_assoc); done)
  end.
  cbn [mbind option_bind]. rewrite <-Hrl, (wrote_read _ _ _ Hw3). cbn [mbind option_bind].
  destruct (wrote_clear _ _ _ Hw3) as (o4 & Ho4 & Ho4l).
  destruct (rns_identity_sign (ifac_identity ifac) raw) as [s|] eqn:Hs.
  2:{ rewrite Ho4. by exists false, o4, n0. }
  assert (length s = 64%nat /\ bytes_ok s) as [Hsl Hsb].
  { unfold rns_identity_sign in Hs. rewrite Hpriv in Hs. split; [by apply sign_length in Hs|by apply sign_bytes in Hs]. }
  rewrite (bind_Some_eq _ _ (drop (64 - tag_size ifac) s)).
  2:{ unfold memread. rewrite decide_True by lia. f_equal. apply take_ge. rewrite length_drop. lia. }
  rewrite equal_ct_spec by (first [done|by apply Forall_drop|rewrite ?length_drop; lia]). cbn [mbind option_bind].
  rewrite !take_ge by (rewrite ?length_drop; lia).
  destruct (memeq tag (drop (64 - tag_size ifac) s)) eqn:Heq; cbn [negb].
  - exists true, o3, (length raw). split; [done|]. split; [apply Hw3|].
    apply memeq_true in Heq. exists raw, s. rewrite Htag, Heq. split_and!; done || lia.
  - rewrite Ho4. by exists false, o4, n0.
Qed.

(** An empty input makes [rns_ifac_unprotect] read its first byte before the
    length is checked. *)
Theorem rns_ifac_unprotect_empty ifac o cap n0 :
  valid ifac = true -> rns_ifac_unprotect ifac (SBytes []) (Some o) cap (Some n0) = None.
Proof. intros Hv. unfold rns_ifac_unprotect. by rewrite Hv. Qed.
End Safety.

(** ** A concrete access code *)
Definition sample_ifac : rns_ifac :=
  {| key := fold_to 64 [1]; ifac_identity := sample; tag_size := 8 |}.

Definition sample_image : list Z := default [] (protected_image sample_ifac [1; 2; 3; 4]).

Lemma sample_image_eq : protected_image sample_ifac [1; 2; 3; 4] = Some sample_image.
Proof. vm_compute. reflexivity. Qed.

Lemma ifac_roundtrip_witness :
  exists q, rns_ifac_unprotect sample_ifac (SBytes sample_image) (Some (replicate 500 0)) 500 (Some 0%nat)
    = Some (true, Some q, Some 4%nat).
Proof.
  destruct (ifac_roundtrip sample_ifac [1; 2; 3; 4] sample_image (replicate 100 0) 100 (replicate 500 0) 500 0 0)
    as (p & q & _ & _ & Hq & _).
  - reflexivity.
  - by apply (bool_decide_unpack _); vm_compute.
  - vm_compute. lia.
  - intros r0 [= <-]. lia.
  - apply sample_image_eq.
  - vm_compute. lia.
  - vm_compute. lia.
  - exists q. exact Hq.
Defined.

Lemma rns_ifac_unprotect_authentic_witness :
  exists ok o' n, rns_ifac_unprotect sample_ifac (SBytes [130; 1; 2]) (Some (replicate 9 0)) 9 (Some 0%nat)
    = Some (ok, Some o', Some n) /\ unprotect_post sample_ifac [130; 1; 2] (replicate 9 0) 0 ok o' n.
Proof.
  apply (rns_ifac_unprotect_authentic sample_ifac [130; 1; 2] (replicate 9 0) 9 0 eq_refl);
    [by apply (bool_decide_unpack _); vm_compute|done|apply le_n].
Defined.

Lemma rns_ifac_unprotect_empty_witness :
  rns_ifac_unprotect sample_ifac (SBytes []) (Some [0]) 1 (Some 0%nat) = None.
Proof. apply (rns_ifac_unprotect_empty sample_ifac [0] 1 0). reflexivity. Defined.

End Ifac.
