(* ===== verification/Transport.v ===== *)
(** * Transport tables

    Models [src/transport/transport.c] and [include/reticulum/transport.h]: the
    path table fed by announces, the packet-hash filter, the reverse table for
    proofs, the link table with its proof validation, the rollback of a
    forwarding mutation, and the path-request codec.

    A table is the list of its [capacity] entries, or [None] for the null pointer
    (after [rns_transport_free]). The clock is a callback on its own context [E],
    read as often as the code reads it. A pointer to an entry is its index. *)

From Stdlib Require Import ZArith SpecFloat Lia.
From S2P Require Import Prelude Crypto Identity.

Module Transport.
Import Identity.

Definition RNS_TRANSPORT_MAX_RANDOM_BLOBS : nat := 16.
Definition RNS_PATH_REQUEST_MAX_TAG_SIZE : nat := 16.
Definition RNS_TRANSPORT_DEFAULT_LINK_CAPACITY : Z := 64.
Definition RNS_TRANSPORT_LINK_TIMEOUT : double := d_of_Z 900.
Definition RNS_TRANSPORT_LINK_PROOF_TIMEOUT_PER_HOP : double := d_of_Z 6.

Inductive rns_path_result : Type := RNS_PATH_REJECTED | RNS_PATH_INSERTED | RNS_PATH_UPDATED.

Inductive rns_reverse_result : Type :=
| RNS_REVERSE_MISSING | RNS_REVERSE_MATCHED | RNS_REVERSE_WRONG_INTERFACE.

Inductive rns_link_route_result : Type :=
| RNS_LINK_ROUTE_MISSING | RNS_LINK_ROUTE_MATCHED | RNS_LINK_ROUTE_WRONG_INTERFACE
| RNS_LINK_ROUTE_WRONG_HOPS | RNS_LINK_ROUTE_NOT_VALIDATED | RNS_LINK_ROUTE_INVALID_PROOF.

#[global] Instance rns_link_route_result_eq_dec : EqDecision rns_link_route_result.
Proof. solve_decision. Defined.

(** ** Entries *)

(** [random_blobs] holds the [random_blob_count] blobs in use. *)
Record rns_path_entry : Type := {
  path_destination : list Z;
  path_next_hop : list Z;
  announce_packet_hash : list Z;
  identity_public_key : list Z;
  random_blobs : list (list Z);
  announce_timebase : Z;
  path_interface : Z;
  interface_gravity : Z;
  path_hops : Z;
  has_identity : bool;
  unresponsive : bool;
  path_updated_at : double;
  path_expires_at : double;
  path_occupied : bool
}.

Definition zero_path : rns_path_entry :=
  {| path_destination := replicate 16 0; path_next_hop := replicate 16 0;
     announce_packet_hash := replicate 32 0; identity_public_key := replicate 64 0; random_blobs := [];
     announce_timebase := 0; path_interface := 0; interface_gravity := 0; path_hops := 0;
     has_identity := false; unresponsive := false; path_updated_at := dzero; path_expires_at := dzero;
     path_occupied := false |}.

Record rns_dedupe_entry : Type := {
  dedupe_hash : list Z;
  seen_at : double;
  dedupe_expires_at : double;
  dedupe_occupied : bool
}.

Definition zero_dedupe : rns_dedupe_entry :=
  {| dedupe_hash := replicate 32 0; seen_at := dzero; dedupe_expires_at := dzero; dedupe_occupied := false |}.

Record rns_reverse_entry : Type := {
  reverse_hash : list Z;
  reverse_received : Z;
  reverse_outbound : Z;
  reverse_created_at : double;
  reverse_expires_at : double;
  reverse_occupied : bool
}.

Definition zero_reverse : rns_reverse_entry :=
  {| reverse_hash := replicate 16 0; reverse_received := 0; reverse_outbound := 0;
     reverse_created_at := dzero; reverse_expires_at := dzero; reverse_occupied := false |}.

Record rns_transport_link_entry : Type := {
  link_id : list Z;
  link_next_hop : list Z;
  link_destination : list Z;
  destination_public_key : list Z;
  next_hop_interface : Z;
  received_interface : Z;
  remaining_hops : Z;
  taken_hops : Z;
  validated : bool;
  link_created_at : double;
  link_updated_at : double;
  proof_deadline : double;
  link_expires_at : double;
  link_occupied : bool
}.

Definition zero_link : rns_transport_link_entry :=
  {| link_id := replicate 16 0; link_next_hop := replicate 16 0; link_destination := replicate 16 0;
     destination_public_key := replicate 64 0; next_hop_interface := 0; received_interface := 0;
     remaining_hops := 0; taken_hops := 0; validated := false; link_created_at := dzero;
     link_updated_at := dzero; proof_deadline := dzero; link_expires_at := dzero; link_occupied := false |}.

(** The deadline of a link entry depends on its state. *)
Definition link_deadline (e : rns_transport_link_entry) : double :=
  if e.(validated) then e.(link_expires_at) else e.(proof_deadline).

(** ** The transport object *)

Record rns_transport_config (E : Type) : Type := {
  path_capacity : Z;
  dedupe_capacity : Z;
  reverse_capacity : Z;
  link_capacity : Z;
  random_blob_history : nat;
  path_lifetime : double;
  dedupe_lifetime : double;
  reverse_lifetime : double;
  link_lifetime : double;
  link_proof_timeout_per_hop : double;
  clock : option (E -> double * E)
}.
Arguments path_capacity {E}. Arguments dedupe_capacity {E}. Arguments reverse_capacity {E}.
Arguments link_capacity {E}. Arguments random_blob_history {E}. Arguments path_lifetime {E}.
Arguments dedupe_lifetime {E}. Arguments reverse_lifetime {E}. Arguments link_lifetime {E}.
Arguments link_proof_timeout_per_hop {E}. Arguments clock {E}.

Definition zero_config (E : Type) : rns_transport_config E :=
  {| path_capacity := 0; dedupe_capacity := 0; reverse_capacity := 0; link_capacity := 0;
     random_blob_history := 0; path_lifetime := dzero; dedupe_lifetime := dzero; reverse_lifetime := dzero;
     link_lifetime := dzero; link_proof_timeout_per_hop := dzero; clock := None |}.

Record rns_transport (E : Type) : Type := {
  config : rns_transport_config E;
  paths : option (list rns_path_entry);
  dedupe : option (list rns_dedupe_entry);
  reverse_paths : option (list rns_reverse_entry);
  links : option (list rns_transport_link_entry)
}.
Arguments config {E}. Arguments paths {E}. Arguments dedupe {E}. Arguments reverse_paths {E}. Arguments links {E}.

Inductive rns_transport_transaction : Type :=
| TransactionNone
| TransactionReverse (slot : nat) (previous : rns_reverse_entry)
| TransactionLink (slot : nat) (previous : rns_transport_link_entry).

(** ** Table scans *)

(** The first entry that satisfies a test. *)
Fixpoint find_index {A : Type} (test : A -> bool) (l : list A) : option nat :=
  match l with
  | [] => None
  | x :: rest => if test x then Some 0%nat else S <$> find_index test rest
  end.

(** The slot a new entry takes: the first free one, or else the one with the
    smallest time, the first among equals ([i] is the position of the head of
    [l] and [oldest] the candidate so far). *)
Fixpoint scan_slot {A : Type} (free : A -> bool) (time : A -> double) (oldest : nat) (oldest_time : double)
    (i : nat) (l : list A) : nat :=
  match l with
  | [] => oldest
  | x :: rest =>
      if free x then i
      else if time x <.? oldest_time then scan_slot free time i (time x) (S i) rest
      else scan_slot free time oldest oldest_time (S i) rest
  end.

Definition replacement_slot {A : Type} (free : A -> bool) (time : A -> double) (l : list A) : nat :=
  match l with
  | [] => 0%nat
  | x :: _ => scan_slot free time 0 (time x) 0 l
  end.

(** Writing an entry of a table. Outside the table C has no defined behaviour, and no table
    is left: an invariant that says that a table is there excludes it. *)
Definition put {A : Type} (i : nat) (x : A) (l : list A) : option (list A) :=
  if (i <? length l)%nat then Some (<[i := x]> l) else None.

(** Clearing the expired entries of a table and counting them. *)
Definition expire_table {A : Type} (expired : A -> bool) (zero : A) (l : list A) : list A * nat :=
  ((λ x, if expired x then zero else x) <$> l, length (filter (λ x, expired x = true) l)).

(** ** Operations *)
Section Operations.
Context {E : Type}.
Implicit Types (t : rns_transport E) (e : E).

Definition live (now deadline : double) : bool := isfinite now && (now <.? deadline).

Definition random_blob_timebase (blob : list Z) : Z := shift_bytes (take 5 (drop 5 blob)).

(** [count != 0 && count <= SIZE_MAX / size] *)
Definition allocation_size_ok (count size : Z) : bool := negb (count =? 0) && (count <=? SIZE_MAX / size).

(** A zero link setting selects its default. *)
Definition link_defaults (cfg : rns_transport_config E) : rns_transport_config E :=
  let cfg := if cfg.(link_capacity) =? 0
             then {| cfg with link_capacity := RNS_TRANSPORT_DEFAULT_LINK_CAPACITY |} else cfg in
  let cfg := if SFeqb cfg.(link_lifetime) dzero
             then {| cfg with link_lifetime := RNS_TRANSPORT_LINK_TIMEOUT |} else cfg in
  if SFeqb cfg.(link_proof_timeout_per_hop) dzero
  then {| cfg with link_proof_timeout_per_hop := RNS_TRANSPORT_LINK_PROOF_TIMEOUT_PER_HOP |} else cfg.

(** The sizes of the four entry types are the compiler's; the model takes them
    and the success of the four allocations as arguments. *)
Definition rns_transport_init (sizes : Z * Z * Z * Z) (calloc_ok : bool * bool * bool * bool)
    (cfg : rns_transport_config E) : option (rns_transport E) :=
  let '(path_size, dedupe_size, reverse_size, link_size) := sizes in
  let '(ok1, ok2, ok3, ok4) := calloc_ok in
  if (if cfg.(clock) is None then true else false) ||
     negb (allocation_size_ok cfg.(path_capacity) path_size) ||
     negb (allocation_size_ok cfg.(dedupe_capacity) dedupe_size) ||
     negb (allocation_size_ok cfg.(reverse_capacity) reverse_size) ||
     (cfg.(random_blob_history) =? 0)%nat ||
     (RNS_TRANSPORT_MAX_RANDOM_BLOBS <? cfg.(random_blob_history))%nat ||
     negb (isfinite cfg.(path_lifetime)) || (cfg.(path_lifetime) <=.? dzero) ||
     negb (isfinite cfg.(dedupe_lifetime)) || (cfg.(dedupe_lifetime) <=.? dzero) ||
     negb (isfinite cfg.(reverse_lifetime)) || (cfg.(reverse_lifetime) <=.? dzero)
  then None
  else
    let cfg := link_defaults cfg in
    if negb (allocation_size_ok cfg.(link_capacity) link_size) ||
       negb (isfinite cfg.(link_lifetime)) || (cfg.(link_lifetime) <=.? dzero) ||
       negb (isfinite cfg.(link_proof_timeout_per_hop)) || (cfg.(link_proof_timeout_per_hop) <=.? dzero)
    then None
    else if negb (ok1 && ok2 && ok3 && ok4) then None
    else Some {| config := cfg;
                 paths := Some (replicate (Z.to_nat cfg.(path_capacity)) zero_path);
                 dedupe := Some (replicate (Z.to_nat cfg.(dedupe_capacity)) zero_dedupe);
                 reverse_paths := Some (replicate (Z.to_nat cfg.(reverse_capacity)) zero_reverse);
                 links := Some (replicate (Z.to_nat cfg.(link_capacity)) zero_link) |}.

Definition rns_transport_free : rns_transport E :=
  {| config := zero_config E; paths := None; dedupe := None; reverse_paths := None; links := None |}.

Definition path_expired (now : double) (x : rns_path_entry) : bool :=
  x.(path_occupied) && (now >=.? x.(path_expires_at)).
Definition dedupe_expired (now : double) (x : rns_dedupe_entry) : bool :=
  x.(dedupe_occupied) && (now >=.? x.(dedupe_expires_at)).
Definition reverse_expired (now : double) (x : rns_reverse_entry) : bool :=
  x.(reverse_occupied) && (now >=.? x.(reverse_expires_at)).
Definition link_expired (now : double) (x : rns_transport_link_entry) : bool :=
  x.(link_occupied) && (now >=.? link_deadline x).

Definition rns_transport_expire t e : nat * rns_transport E * E :=
  match t.(config).(clock) with
  | None => (0%nat, t, e)
  | Some clk =>
      let '(now, e) := clk e in
      if negb (isfinite now) then (0%nat, t, e)
      else
        let p := expire_table (path_expired now) zero_path (default [] t.(paths)) in
        let d := expire_table (dedupe_expired now) zero_dedupe (default [] t.(dedupe)) in
        let r := expire_table (reverse_expired now) zero_reverse (default [] t.(reverse_paths)) in
        let l := expire_table (link_expired now) zero_link (default [] t.(links)) in
        ((p.2 + d.2 + r.2 + l.2)%nat,
         {| t with paths := (λ _, p.1) <$> t.(paths); dedupe := (λ _, d.1) <$> t.(dedupe);
            reverse_paths := (λ _, r.1) <$> t.(reverse_paths); links := (λ _, l.1) <$> t.(links) |}, e)
  end.

(** *** Paths *)

Definition path_matches (destination_hash : list Z) (x : rns_path_entry) : bool :=
  x.(path_occupied) && memeq x.(path_destination) destination_hash.

Definition set_path t (i : nat) (x : rns_path_entry) : rns_transport E :=
  {| t with paths := ps ← t.(paths); put i x ps |}.

(** The index of the entry found. *)
Definition rns_transport_lookup t (destination_hash : list Z) e : option nat * rns_transport E * E :=
  match t.(paths), t.(config).(clock) with
  | Some ps, Some clk =>
      let '(now, e) := clk e in
      if negb (isfinite now) then (None, t, e)
      else
        match find_index (path_matches destination_hash) ps with
        | None => (None, t, e)
        | Some i =>
            match ps !! i with
            | None => (None, t, e)
            | Some entry =>
                if negb (live now entry.(path_expires_at)) then (None, set_path t i zero_path, e)
                else (Some i, t, e)
            end
        end
  | _, _ => (None, t, e)
  end.

(** The entry behind an index a lookup returned. *)
Definition path_at t (i : nat) : rns_path_entry := default zero_path (ps ← t.(paths); ps !! i).

Definition rns_transport_mark_unresponsive t (destination_hash : list Z) e : bool * rns_transport E * E :=
  let '(r, t, e) := rns_transport_lookup t destination_hash e in
  match r with
  | None => (false, t, e)
  | Some i => let x := path_at t i in (true, set_path t i {| x with unresponsive := true |}, e)
  end.

Definition path_heard_blob (entry : rns_path_entry) (blob : list Z) : bool :=
  existsb (λ b, memeq b blob) entry.(random_blobs).

Definition path_add_blob (entry : rns_path_entry) (blob : list Z) (history : nat) : rns_path_entry :=
  if path_heard_blob entry blob then entry
  else if (length entry.(random_blobs) <? history)%nat
  then {| entry with random_blobs := entry.(random_blobs) ++ [blob] |}
  else {| entry with random_blobs := take (history - 1) (drop 1 entry.(random_blobs)) ++ [blob] |}.

Definition path_replacement_slot (ps : list rns_path_entry) : nat :=
  replacement_slot (λ x, negb x.(path_occupied)) path_updated_at ps.

(** The checks that reject an announce for a live path. *)
Definition announce_stale (entry : rns_path_entry) (timebase gravity : Z) (blob : list Z) : bool :=
  let heard := path_heard_blob entry blob in
  let higher_gravity := entry.(interface_gravity) <? gravity in
  (negb entry.(unresponsive) && (timebase <? entry.(announce_timebase))) ||
  (negb entry.(unresponsive) && (timebase =? entry.(announce_timebase)) && negb higher_gravity) ||
  (negb entry.(unresponsive) && heard && negb higher_gravity).

(** The entry an accepted announce writes. *)
Definition announced_path (cfg : rns_transport_config E) (now : double) (old_blobs : list (list Z))
    (destination_hash next_hop : list Z) (interface_id gravity hops : Z) (blob packet_hash : list Z)
    : rns_path_entry :=
  let z := zero_path in
  let x := {| z with path_destination := destination_hash; path_next_hop := next_hop;
              announce_packet_hash := packet_hash; random_blobs := old_blobs |} in
  let x := path_add_blob x blob cfg.(random_blob_history) in
  {| x with announce_timebase := random_blob_timebase blob; path_interface := interface_id;
     interface_gravity := gravity; path_hops := hops; path_updated_at := now;
     path_expires_at := dadd now cfg.(path_lifetime); path_occupied := true |}.

Definition rns_transport_consider_announce t (destination_hash next_hop : list Z) (interface_id gravity hops : Z)
    (blob packet_hash : list Z) e : rns_path_result * rns_transport E * E :=
  match t.(paths), t.(config).(clock) with
  | Some ps, Some clk =>
      let '(now, e) := clk e in
      if negb (isfinite now) then (RNS_PATH_REJECTED, t, e)
      else
        let timebase := random_blob_timebase blob in
        let write i old_blobs :=
          set_path t i (announced_path t.(config) now old_blobs destination_hash next_hop interface_id gravity hops
                          blob packet_hash) in
        match find_index (path_matches destination_hash) ps with
        | Some i =>
            let entry := path_at t i in
            if now >=.? entry.(path_expires_at) then (RNS_PATH_UPDATED, write i [], e)
            else if announce_stale entry timebase gravity blob then (RNS_PATH_REJECTED, t, e)
            else (RNS_PATH_UPDATED, write i entry.(random_blobs), e)
        | None => (RNS_PATH_INSERTED, write (path_replacement_slot ps) [], e)
        end
  | _, _ => (RNS_PATH_REJECTED, t, e)
  end.

Definition rns_transport_set_path_identity t (destination_hash : list Z) (public_key : option (list Z)) e
    : bool * rns_transport E * E :=
  let '(r, t, e) := rns_transport_lookup t destination_hash e in
  match r, public_key with
  | Some i, Some k =>
      let x := path_at t i in
      (true, set_path t i {| x with identity_public_key := k; has_identity := true |}, e)
  | _, _ => (false, t, e)
  end.

(** *** Packet hashes *)

Definition oldest_dedupe_slot (ds : list rns_dedupe_entry) : nat :=
  replacement_slot (λ x, negb x.(dedupe_occupied)) seen_at ds.

(** The loop of [rns_transport_accept_packet_hash]: expired entries are cleared
    up to the first live entry with the hash, if any ([true]). *)
Fixpoint dedupe_scan (now : double) (packet_hash : list Z) (ds : list rns_dedupe_entry)
    : bool * list rns_dedupe_entry :=
  match ds with
  | [] => (false, [])
  | x :: rest =>
      if dedupe_expired now x then
        let '(found, rest) := dedupe_scan now packet_hash rest in (found, zero_dedupe :: rest)
      else if x.(dedupe_occupied) && memeq x.(dedupe_hash) packet_hash then (true, x :: rest)
      else let '(found, rest) := dedupe_scan now packet_hash rest in (found, x :: rest)
  end.

Definition rns_transport_accept_packet_hash t (packet_hash : list Z) e : bool * rns_transport E * E :=
  match t.(dedupe), t.(config).(clock) with
  | Some ds, Some clk =>
      let '(now, e) := clk e in
      if negb (isfinite now) then (false, t, e)
      else
        let '(found, ds) := dedupe_scan now packet_hash ds in
        if found then (false, {| t with dedupe := Some ds |}, e)
        else
          let entry := {| dedupe_hash := packet_hash; seen_at := now;
                          dedupe_expires_at := dadd now t.(config).(dedupe_lifetime);
                          dedupe_occupied := true |} in
          (true, {| t with dedupe := put (oldest_dedupe_slot ds) entry ds |}, e)
  | _, _ => (false, t, e)
  end.

(** *** Reverse paths *)

Definition oldest_reverse_slot (now : double) (rs : list rns_reverse_entry) : nat :=
  replacement_slot (λ x, negb x.(reverse_occupied) || (now >=.? x.(reverse_expires_at))) reverse_created_at rs.

(** The transaction argument is [None] for a null pointer; the result is its new
    value. *)
Definition rns_transport_record_reverse_transaction t (packet_hash : list Z) (received outbound : Z)
    (transaction : option rns_transport_transaction) e
    : bool * rns_transport E * option rns_transport_transaction * E :=
  let transaction := (λ _, TransactionNone) <$> transaction in
  match t.(reverse_paths), t.(config).(clock) with
  | Some rs, Some clk =>
      let '(now, e) := clk e in
      if negb (isfinite now) then (false, t, transaction, e)
      else
        let slot := oldest_reverse_slot now rs in
        let transaction := (λ _, TransactionReverse slot (default zero_reverse (rs !! slot))) <$> transaction in
        let entry := {| reverse_hash := take 16 packet_hash; reverse_received := received;
                        reverse_outbound := outbound; reverse_created_at := now;
                        reverse_expires_at := dadd now t.(config).(reverse_lifetime);
                        reverse_occupied := true |} in
        (true, {| t with reverse_paths := put slot entry rs |}, transaction, e)
  | _, _ => (false, t, transaction, e)
  end.

Definition rns_transport_record_reverse t (packet_hash : list Z) (received outbound : Z) e
    : bool * rns_transport E * E :=
  let '(ok, t, _, e) := rns_transport_record_reverse_transaction t packet_hash received outbound None e in
  (ok, t, e).

Definition reverse_matches (packet_hash : list Z) (x : rns_reverse_entry) : bool :=
  x.(reverse_occupied) && memeq x.(reverse_hash) packet_hash.

(** The result, the transport and the value behind [forward_interface_id]. *)
Definition rns_transport_consume_reverse t (packet_hash : list Z) (ingress : Z) (forward : option Z) e
    : rns_reverse_result * rns_transport E * option Z * E :=
  let forward := (λ _, 0) <$> forward in
  match t.(reverse_paths), t.(config).(clock), forward with
  | Some rs, Some clk, Some _ =>
      let '(now, e) := clk e in
      if negb (isfinite now) then (RNS_REVERSE_MISSING, t, forward, e)
      else
        match find_index (reverse_matches packet_hash) rs with
        | None => (RNS_REVERSE_MISSING, t, forward, e)
        | Some i =>
            let entry := default zero_reverse (rs !! i) in
            let t := {| t with reverse_paths := put i zero_reverse rs |} in
            if now >=.? entry.(reverse_expires_at) then (RNS_REVERSE_MISSING, t, forward, e)
            else if negb (ingress =? entry.(reverse_outbound)) then (RNS_REVERSE_WRONG_INTERFACE, t, forward, e)
            else (RNS_REVERSE_MATCHED, t, Some entry.(reverse_received), e)
        end
  | _, _, _ => (RNS_REVERSE_MISSING, t, forward, e)
  end.

(** *** Links *)

Definition oldest_link_slot (now : double) (ls : list rns_transport_link_entry) : nat :=
  replacement_slot (λ x, negb x.(link_occupied) || (now >=.? link_deadline x)) link_created_at ls.

Definition rns_transport_record_link_request_transaction t (id : list Z) (path : option rns_path_entry)
    (received taken : Z) (transaction : option rns_transport_transaction) e
    : bool * rns_transport E * option rns_transport_transaction * E :=
  let transaction := (λ _, TransactionNone) <$> transaction in
  match path, t.(links), t.(config).(clock) with
  | Some path, Some ls, Some clk =>
      if negb path.(path_occupied) || negb path.(has_identity) then (false, t, transaction, e)
      else
        let '(now, e) := clk e in
        let interval := dmul (d_of_Z path.(path_hops)) t.(config).(link_proof_timeout_per_hop) in
        if negb (isfinite now) || negb (isfinite interval) then (false, t, transaction, e)
        else
          let slot := oldest_link_slot now ls in
          let transaction := (λ _, TransactionLink slot (default zero_link (ls !! slot))) <$> transaction in
          let entry := {| link_id := id; link_next_hop := path.(path_next_hop);
                          link_destination := path.(path_destination);
                          destination_public_key := path.(identity_public_key);
                          next_hop_interface := path.(path_interface); received_interface := received;
                          remaining_hops := path.(path_hops); taken_hops := taken; validated := false;
                          link_created_at := now; link_updated_at := now; proof_deadline := dadd now interval;
                          link_expires_at := dzero; link_occupied := true |} in
          (true, {| t with links := put slot entry ls |}, transaction, e)
  | _, _, _ => (false, t, transaction, e)
  end.

Definition rns_transport_record_link_request t (id : list Z) (path : option rns_path_entry)
    (received taken : Z) e : bool * rns_transport E * E :=
  let '(ok, t, _, e) := rns_transport_record_link_request_transaction t id path received taken None e in (ok, t, e).

Definition link_matches (id : list Z) (x : rns_transport_link_entry) : bool :=
  x.(link_occupied) && memeq x.(link_id) id.

Definition set_link t (i : nat) (x : rns_transport_link_entry) : rns_transport E :=
  {| t with links := ls ← t.(links); put i x ls |}.

Definition link_at t (i : nat) : rns_transport_link_entry := default zero_link (ls ← t.(links); ls !! i).

Definition rns_transport_link_lookup t (id : list Z) e : option nat * rns_transport E * E :=
  match t.(links), t.(config).(clock) with
  | Some ls, Some clk =>
      let '(now, e) := clk e in
      if negb (isfinite now) then (None, t, e)
      else
        match find_index (link_matches id) ls with
        | None => (None, t, e)
        | Some i =>
            if now >=.? link_deadline (link_at t i) then (None, set_link t i zero_link, e)
            else (Some i, t, e)
        end
  | _, _ => (None, t, e)
  end.

Definition rns_transport_forget_link t (id : list Z) e : bool * rns_transport E * E :=
  let '(r, t, e) := rns_transport_link_lookup t id e in
  match r with None => (false, t, e) | Some i => (true, set_link t i zero_link, e) end.

Definition rns_transport_route_link_transaction t (id : list Z) (ingress packet_hops : Z) (forward : option Z)
    (transaction : option rns_transport_transaction) e
    : rns_link_route_result * rns_transport E * option Z * option rns_transport_transaction * E :=
  let transaction := (λ _, TransactionNone) <$> transaction in
  let forward := (λ _, 0) <$> forward in
  let '(r, t, e) := rns_transport_link_lookup t id e in
  match r, forward with
  | Some i, Some _ =>
      let entry := link_at t i in
      if negb entry.(validated) then (RNS_LINK_ROUTE_NOT_VALIDATED, t, forward, transaction, e)
      else
        match (if ingress =? entry.(received_interface)
               then Some (entry.(taken_hops), entry.(next_hop_interface))
               else if ingress =? entry.(next_hop_interface)
               then Some (entry.(remaining_hops), entry.(received_interface))
               else None) with
        | None => (RNS_LINK_ROUTE_WRONG_INTERFACE, t, forward, transaction, e)
        | Some (expected, fwd) =>
            if negb (packet_hops =? expected) then (RNS_LINK_ROUTE_WRONG_HOPS, t, Some 0, transaction, e)
            else
              let transaction := (λ _, TransactionLink i entry) <$> transaction in
              match t.(config).(clock) with
              | None => (RNS_LINK_ROUTE_MATCHED, t, Some fwd, transaction, e)
              | Some clk =>
                  let '(now, e) := clk e in
                  (RNS_LINK_ROUTE_MATCHED, set_link t i {| entry with link_updated_at := now |}, Some fwd,
                   transaction, e)
              end
        end
  | _, _ => (RNS_LINK_ROUTE_MISSING, t, forward, transaction, e)
  end.

Definition rns_transport_route_link t (id : list Z) (ingress packet_hops : Z) (forward : option Z) e
    : rns_link_route_result * rns_transport E * option Z * E :=
  let '(r, t, f, _, e) := rns_transport_route_link_transaction t id ingress packet_hops forward None e in
  (r, t, f, e).

(** *** Transactions *)

Definition rns_transport_transaction_rollback t (transaction : rns_transport_transaction)
    : bool * rns_transport E * rns_transport_transaction :=
  match transaction with
  | TransactionReverse slot previous =>
      match t.(reverse_paths) with
      | None => (false, t, transaction)
      | Some rs =>
          if t.(config).(reverse_capacity) <=? Z.of_nat slot then (false, t, transaction)
          else (true, {| t with reverse_paths := put slot previous rs |}, TransactionNone)
      end
  | TransactionLink slot previous =>
      match t.(links) with
      | None => (false, t, transaction)
      | Some ls =>
          if t.(config).(link_capacity) <=? Z.of_nat slot then (false, t, transaction)
          else (true, {| t with links := put slot previous ls |}, TransactionNone)
      end
  | TransactionNone => (true, t, TransactionNone)
  end.

Definition rns_transport_transaction_commit (transaction : option rns_transport_transaction)
    : option rns_transport_transaction := (λ _, TransactionNone) <$> transaction.

End Operations.

Section LinkProofs.
Context `{Crypto} {E : Type}.
Implicit Types (t : rns_transport E) (e : E).

(** The signed bytes of a link proof: the link identifier, the peer's ephemeral
    key, the destination's signing key and the signalling bytes. *)
Definition proof_preimage (entry : rns_transport_link_entry) (proof : list Z) : option (list Z) :=
  a ← memread proof 64 32;
  b ← memread entry.(destination_public_key) 32 32;
  c ← memread proof 96 3;
  Some (entry.(link_id) ++ a ++ b ++ c).

(** The outer option is memory safety. *)
Definition rns_transport_accept_link_proof_transaction t (id : list Z) (proof : slice) (ingress proof_hops : Z)
    (forward : option Z) (transaction : option rns_transport_transaction) e
    : option (rns_link_route_result * rns_transport E * option Z * option rns_transport_transaction * E) :=
  let transaction := (λ _, TransactionNone) <$> transaction in
  let forward := (λ _, 0) <$> forward in
  let '(r, t, e) := rns_transport_link_lookup t id e in
  match r, forward with
  | Some i, Some _ =>
      let entry := link_at t i in
      let refuse result := Some (result, t, forward, transaction, e) in
      if entry.(validated) then refuse RNS_LINK_ROUTE_INVALID_PROOF
      else if negb (ingress =? entry.(next_hop_interface)) then refuse RNS_LINK_ROUTE_WRONG_INTERFACE
      else if negb (proof_hops =? entry.(remaining_hops)) then refuse RNS_LINK_ROUTE_WRONG_HOPS
      else
        match proof with
        | SNull _ => refuse RNS_LINK_ROUTE_INVALID_PROOF
        | SBytes p =>
            if negb (length p =? 99)%nat then refuse RNS_LINK_ROUTE_INVALID_PROOF
            else
              preimage ← proof_preimage entry p;
              signature ← memread p 0 64;
              if negb (match rns_identity_from_public entry.(destination_public_key) with
                       | None => false
                       | Some ident => rns_identity_verify ident preimage signature
                       end)
              then refuse RNS_LINK_ROUTE_INVALID_PROOF
              else
                clk ← t.(config).(clock);
                let '(now, e) := clk e in
                if negb (isfinite now) then Some (RNS_LINK_ROUTE_INVALID_PROOF, t, forward, transaction, e)
                else
                  let transaction := (λ _, TransactionLink i entry) <$> transaction in
                  let entry' := {| entry with validated := true; link_updated_at := now;
                                   link_expires_at := dadd now t.(config).(link_lifetime) |} in
                  Some (RNS_LINK_ROUTE_MATCHED, set_link t i entry', Some entry.(received_interface), transaction, e)
        end
  | _, _ => Some (RNS_LINK_ROUTE_MISSING, t, forward, transaction, e)
  end.

Definition rns_transport_accept_link_proof t (id : list Z) (proof : slice) (ingress proof_hops : Z)
    (forward : option Z) e : option (rns_link_route_result * rns_transport E * option Z * E) :=
  r ← rns_transport_accept_link_proof_transaction t id proof ingress proof_hops forward None e;
  let '(res, t, f, _, e) := r in Some (res, t, f, e).

End LinkProofs.

(** *** Path requests *)

Record rns_path_request : Type := {
  request_destination : list Z;
  requesting_transport : list Z;
  request_tag : list Z;
  has_requesting_transport : bool
}.

(** The C result, the output object and the length. *)
Definition rns_path_request_build (destination_hash : option (list Z)) (transport_id : option (list Z))
    (tag : slice) (output : option (list Z)) (output_capacity : nat) (output_length : option nat)
    : option (bool * option (list Z) * option nat) :=
  let output_length := (λ _, 0%nat) <$> output_length in
  match destination_hash, tag, output, output_length with
  | Some d, SBytes tag, Some o, Some _ =>
      if (length tag =? 0)%nat || (RNS_PATH_REQUEST_MAX_TAG_SIZE <? length tag)%nat then Some (false, output, output_length)
      else
        let required := (16 + length tag + (if transport_id is Some _ then 16 else 0))%nat in
        if (output_capacity <? required)%nat then Some (false, output, output_length)
        else
          o ← memcpy o 0 d;
          r ← (if transport_id is Some x then o ← memcpy o 16 x; Some (o, 32%nat) else Some (o, 16%nat));
          let '(o, offset) := r in
          o ← memcpy o offset tag;
          Some (true, Some o, Some required)
  | _, _, _, _ => Some (false, output, output_length)
  end.

(** The outer option is memory safety, [Some None] the C result 0. The tag
    array's unused bytes are not represented. *)
Definition rns_path_request_parse (input : slice) : option (option rns_path_request) :=
  match input with
  | SNull _ => Some None
  | SBytes b =>
      if (length b <? 17)%nat || (48 <? length b)%nat then Some None
      else
        d ← memread b 0 16;
        r ← (if (33 <=? length b)%nat then x ← memread b 16 16; Some (true, x, 32%nat)
             else Some (false, replicate 16 0, 16%nat));
        let '(has, tid, offset) := r in
        let tag_length := (length b - offset)%nat in
        if (tag_length =? 0)%nat || (RNS_PATH_REQUEST_MAX_TAG_SIZE <? tag_length)%nat then Some None
        else
          tag ← memread b offset tag_length;
          Some (Some {| request_destination := d; requesting_transport := tid; request_tag := tag;
                        has_requesting_transport := has |})
  end.

(** ** Path requests: theorems *)

(** Parsing reads inside the input. *)
Lemma path_request_parse_total input : exists q, rns_path_request_parse input = Some q.
Proof.
  destruct input as [|b]; [by eexists|]. unfold rns_path_request_parse.
  destruct (Nat.ltb_spec (length b) 17); [by eexists|]. destruct (Nat.ltb_spec 48 (length b)); [by eexists|]. cbn [orb].
  rewrite (memread_in b 0 16) by lia. cbn [mbind option_bind].
  destruct (Nat.leb_spec 33 (length b)); [rewrite (memread_in b 16 16) by lia|]; cbn [mbind option_bind];
    (destruct (_ || _); [by eexists|]); rewrite memread_in by lia; by eexists.
Qed.

Definition request_bytes (d : list Z) (transport_id : option (list Z)) (tag : list Z) : list Z :=
  d ++ default [] transport_id ++ tag.

Definition request_of (d : list Z) (transport_id : option (list Z)) (tag : list Z) : rns_path_request :=
  {| request_destination := d; requesting_transport := default (replicate 16 0) transport_id;
     request_tag := tag; has_requesting_transport := if transport_id is Some _ then true else false |}.

(** Path requests round trip. [rns_path_request_build] succeeds exactly when
    the request fits the capacity, writes only inside the output, and
    [rns_path_request_parse] reads back the destination, the requesting transport
    (or its absence) and the tag. *)
Theorem path_request_roundtrip d transport_id tag o cap n0 :
  length d = 16%nat -> (forall x, transport_id = Some x -> length x = 16%nat) ->
  (1 <= length tag <= RNS_PATH_REQUEST_MAX_TAG_SIZE)%nat -> (cap <= length o)%nat ->
  let w := request_bytes d transport_id tag in
  (if decide (length w <= cap)%nat then
     exists o', rns_path_request_build (Some d) transport_id (SBytes tag) (Some o) cap (Some n0)
       = Some (true, Some o', Some (length w)) /\ wrote (length o) o' w
   else rns_path_request_build (Some d) transport_id (SBytes tag) (Some o) cap (Some n0)
       = Some (false, Some o, Some 0%nat)) /\
  rns_path_request_parse (SBytes w) = Some (Some (request_of d transport_id tag)).
Proof.
  intros Hd Hx Ht Hcap w. unfold RNS_PATH_REQUEST_MAX_TAG_SIZE in Ht.
  assert (length w = 16 + length tag + (if transport_id is Some _ then 16 else 0))%nat as Hl.
  { unfold w, request_bytes. rewrite !length_app, Hd. destruct transport_id as [x|]; simpl; [rewrite (Hx x eq_refl)|]; lia. }
  split.
  - unfold rns_path_request_build, RNS_PATH_REQUEST_MAX_TAG_SIZE. cbn [fmap option_fmap option_map].
    rewrite (proj2 (Nat.eqb_neq _ _)), (proj2 (Nat.ltb_ge _ _)) by lia. cbn [orb]. rewrite <-Hl.
    case_decide; [|by rewrite (proj2 (Nat.ltb_lt _ _)) by lia]. rewrite (proj2 (Nat.ltb_ge _ _)) by lia.
    destruct (wrote_memcpy (length o) o [] d) as (o1 & Ho1 & Hw1); [by apply wrote_nil|simpl; lia|].
    simpl in Ho1, Hw1. rewrite (bind_Some_eq _ _ _ Ho1).
    assert (exists o2 off, (if transport_id is Some x then o ← memcpy o1 16 x; Some (o, 32%nat) else Some (o1, 16%nat)) =
      Some (o2, off) /\ off = length (d ++ default [] transport_id) /\
      wrote (length o) o2 (d ++ default [] transport_id)) as (o2 & off & Ho2 & -> & Hw2).
    { destruct transport_id as [x|]; [|exists o1, 16%nat; by rewrite app_nil_r].
      destruct (wrote_memcpy _ _ _ x Hw1) as (o2 & Ho2 & Hw2); [rewrite Hd, (Hx x eq_refl); lia|].
      rewrite Hd in Ho2. rewrite (bind_Some_eq _ _ _ Ho2). exists o2, 32%nat. split_and!; [done| |done].
      rewrite length_app, Hd. simpl. by rewrite (Hx x eq_refl). }
    rewrite (bind_Some_eq _ _ _ Ho2).
    destruct (wrote_memcpy _ _ _ tag Hw2) as (o3 & Ho3 & Hw3).
    { unfold w, request_bytes in *. rewrite !length_app in *. lia. }
    rewrite (bind_Some_eq _ _ _ Ho3). eexists. split; [done|]. by rewrite <-app_assoc in Hw3.
  - unfold rns_path_request_parse, RNS_PATH_REQUEST_MAX_TAG_SIZE.
    rewrite !(proj2 (Nat.ltb_ge _ _)) by (destruct transport_id; lia). cbn [orb].
    rewrite (bind_Some_eq _ _ d) by (by eapply (memread_at _ [])).
    destruct transport_id as [x|]; simpl in Hl.
    + pose proof (Hx x eq_refl) as Hxl. rewrite (proj2 (Nat.leb_le _ _)) by lia.
      rewrite (bind_Some_eq (memread w 16 16) _ x) by (by eapply (memread_at _ d)). cbn [mbind option_bind].
      rewrite (proj2 (Nat.eqb_neq _ _)), (proj2 (Nat.ltb_ge _ _)) by lia. cbn [orb].
      rewrite (bind_Some_eq _ _ tag); [done|].
      eapply (memread_at _ (d ++ x) _ []); [|rewrite length_app; lia|lia].
      unfold w, request_bytes. simpl. by rewrite <-app_assoc, app_nil_r.
    + rewrite (proj2 (Nat.leb_gt _ _)) by lia. cbn [mbind option_bind].
      rewrite (proj2 (Nat.eqb_neq _ _)), (proj2 (Nat.ltb_ge _ _)) by lia. cbn [orb].
      rewrite (bind_Some_eq _ _ tag); [done|].
      eapply (memread_at _ d _ []); [|lia|lia]. unfold w, request_bytes. simpl. by rewrite app_nil_r.
Qed.

(** ** Scanning tables: lemmas *)
Section Scans.
Context {A : Type}.
Implicit Types (l : list A).

Lemma find_index_Some (test : A -> bool) l i :
  find_index test l = Some i ->
  exists x, l !! i = Some x /\ test x = true /\ forall j y, (j < i)%nat -> l !! j = Some y -> test y = false.
Proof.
  revert i. induction l as [|x l IH]; intros i; simpl; [done|].
  destruct (test x) eqn:Hx; [intros [= <-]; exists x; split_and!; [done..|intros; lia]|].
  destruct (find_index test l) as [k|]; simpl; [|done]. intros [= <-].
  destruct (IH k eq_refl) as (y & Hk & Hy & Hj). exists y. split_and!; [done..|].
  intros [|j] z Hlt Hz; simpl in Hz; [by simplify_eq|]. apply (Hj j); [lia|done].
Qed.

Lemma find_index_None (test : A -> bool) l j y : find_index test l = None -> l !! j = Some y -> test y = false.
Proof.
  revert j. induction l as [|x l IH]; intros j; simpl; [done|].
  destruct (test x) eqn:Hx; [done|]. destruct (find_index test l) as [k|]; simpl; [done|].
  intros _. destruct j as [|j]; simpl; [by intros [= <-]|]. by apply IH.
Qed.

(** The only entry that satisfies the test is found. *)
Lemma find_index_unique (test : A -> bool) l i x :
  l !! i = Some x -> test x = true -> (forall j y, l !! j = Some y -> test y = true -> j = i) ->
  find_index test l = Some i.
Proof.
  intros Hi Hx Hu. destruct (find_index test l) as [k|] eqn:Hf.
  - apply find_index_Some in Hf as (y & Hk & Hy & _). f_equal. by eapply Hu.
  - by rewrite (find_index_None _ _ _ _ Hf Hi) in Hx.
Qed.

Lemma scan_slot_spec (free : A -> bool) (time : A -> double) (whole : list A) l o ot i x0 :
  (forall j y, l !! j = Some y -> whole !! (i + j)%nat = Some y) ->
  whole !! o = Some x0 -> time x0 = ot -> (forall j y, (j < i)%nat -> whole !! j = Some y ->
    free y = false /\ (time y <.? ot) = false) -> (o < i)%nat \/ o = i -> length whole = (i + length l)%nat ->
  exists s x, scan_slot free time o ot i l = s /\ whole !! s = Some x /\
    (free x = true \/ forall j y, whole !! j = Some y -> free y = false /\ (time y <.? time x) = false).
Proof.
  revert o ot i x0. induction l as [|y l IH]; intros o ot i x0 Hl Ho Hot Hlt Hoi Hlen; simpl.
  { exists o, x0. split_and!; [done..|]. right. rewrite Hot. simpl in Hlen. intros j z Hj.
    apply (Hlt j); [|done]. apply lookup_lt_Some in Hj. lia. }
  pose proof (Hl 0%nat y eq_refl) as Hy. rewrite Nat.add_0_r in Hy.
  assert (forall j z, l !! j = Some z -> whole !! (S i + j)%nat = Some z) as Hl'.
  { intros j z Hj. replace (S i + j)%nat with (i + S j)%nat by lia. by apply Hl. }
  destruct (free y) eqn:Hf; [exists i, y; auto|].
  destruct (time y <.? ot) eqn:Ht.
  - apply (IH i (time y) (S i) y); [done|done|done| |lia|simpl in Hlen; lia].
    intros j z Hj Hz. destruct (decide (j = i)) as [->|Hne].
    + rewrite Hy in Hz. injection Hz as <-. split; [done|apply dlt_irrefl].
    + destruct (Hlt j z ltac:(lia) Hz) as [Hfz Hzt]. split; [done|].
      apply not_true_is_false. intros Hc. rewrite (dlt_trans _ _ _ Hc Ht) in Hzt. done.
  - apply (IH o ot (S i) x0); [done|done|done| |lia|simpl in Hlen; lia].
    intros j z Hj Hz. destruct (decide (j = i)) as [->|Hne]; [|apply (Hlt j); [lia|done]].
    rewrite Hy in Hz. by injection Hz as <-.
Qed.

(** The slot is a free entry, or no entry is free and none is older. *)
Lemma replacement_slot_spec (free : A -> bool) (time : A -> double) l :
  l <> [] ->
  exists x, l !! replacement_slot free time l = Some x /\
    (free x = true \/ forall j y, l !! j = Some y -> free y = false /\ (time y <.? time x) = false).
Proof.
  destruct l as [|x0 l]; [done|]. intros _. unfold replacement_slot.
  destruct (scan_slot_spec free time (x0 :: l) (x0 :: l) 0 (time x0) 0 x0) as (s & x & <- & Hs & Hx);
    [done|done|done|intros; lia|by right|done|]. eauto.
Qed.
End Scans.

Lemma put_in {A} (l : list A) i x : (i < length l)%nat -> put i x l = Some (<[i := x]> l).
Proof. intros Hi. unfold put. by rewrite (proj2 (Nat.ltb_lt _ _)). Qed.

Lemma put_lookup {A} (l : list A) i x y : l !! i = Some y -> put i x l = Some (<[i := x]> l).
Proof. intros Hi. apply put_in. by eapply lookup_lt_Some. Qed.

Lemma put_slot {A} (free : A -> bool) (time : A -> double) (l : list A) x :
  l <> [] -> put (replacement_slot free time l) x l = Some (<[replacement_slot free time l := x]> l).
Proof. intros Hne. destruct (replacement_slot_spec free time l Hne) as (y & Hy & _). by eapply put_lookup. Qed.

Lemma list_insert_same_lookup {A} (l : list A) i x y : l !! i = Some y -> <[i := x]> l !! i = Some x.
Proof. intros H. apply list_lookup_insert_eq. by eapply lookup_lt_Some. Qed.

(** ** The invariant *)

Record config_ok {E} (cfg : rns_transport_config E) : Prop := {
  ok_clock : is_Some cfg.(clock);
  ok_history : (1 <= cfg.(random_blob_history) <= RNS_TRANSPORT_MAX_RANDOM_BLOBS)%nat
}.

(** The key and the next hop have the size of their C array. *)
Definition sized_path (x : rns_path_entry) : Prop :=
  length x.(identity_public_key) = 64%nat /\ length x.(path_next_hop) = 16%nat.

(** At most one path per destination, with a bounded blob history. *)
Record paths_ok (history : nat) (ps : list rns_path_entry) : Prop := {
  paths_distinct i j x y : ps !! i = Some x -> ps !! j = Some y ->
    x.(path_occupied) = true -> y.(path_occupied) = true -> x.(path_destination) = y.(path_destination) -> i = j;
  paths_blobs i x : ps !! i = Some x -> (length x.(random_blobs) <= history)%nat;
  paths_keys i x : ps !! i = Some x -> sized_path x
}.

(** The keys of the link table have their size. *)
Definition links_ok (ls : list rns_transport_link_entry) : Prop :=
  Forall (λ x, length x.(destination_public_key) = 64%nat) ls.

Record wf {E} (t : rns_transport E) : Prop := {
  wf_config : config_ok t.(config);
  wf_paths : exists ps, t.(paths) = Some ps /\ Z.of_nat (length ps) = t.(config).(path_capacity) /\ ps <> [] /\
    paths_ok RNS_TRANSPORT_MAX_RANDOM_BLOBS ps;
  wf_dedupe : exists ds, t.(dedupe) = Some ds /\ Z.of_nat (length ds) = t.(config).(dedupe_capacity) /\ ds <> [];
  wf_reverse : exists rs, t.(reverse_paths) = Some rs /\
    Z.of_nat (length rs) = t.(config).(reverse_capacity) /\ rs <> [];
  wf_links : exists ls, t.(links) = Some ls /\ Z.of_nat (length ls) = t.(config).(link_capacity) /\ ls <> [] /\
    links_ok ls
}.

(** ** Paths *)
Section Paths.
Context {E : Type}.
Implicit Types (t : rns_transport E) (e : E).

Lemma path_add_blob_length x blob history bound :
  (1 <= history <= bound)%nat -> (length x.(random_blobs) <= bound)%nat ->
  (length (path_add_blob x blob history).(random_blobs) <= bound)%nat.
Proof.
  intros Hh Hl. unfold path_add_blob. case_match; [done|].
  destruct (Nat.ltb_spec (length (random_blobs x)) history); simpl; rewrite length_app; simpl; [lia|].
  rewrite length_take, length_drop. lia.
Qed.

Lemma path_add_blob_fields x blob history :
  path_add_blob x blob history = {| x with random_blobs := (path_add_blob x blob history).(random_blobs) |}.
Proof. unfold path_add_blob. repeat case_match; by destruct x. Qed.

(** The fields of the entry an announce writes. *)
Lemma announced_path_fields (cfg : rns_transport_config E) now old d nh ifc g h blob ph :
  let x := announced_path cfg now old d nh ifc g h blob ph in
  x.(path_destination) = d /\ x.(path_next_hop) = nh /\ x.(announce_packet_hash) = ph /\
  x.(path_interface) = ifc /\ x.(interface_gravity) = g /\ x.(path_hops) = h /\
  x.(announce_timebase) = random_blob_timebase blob /\ x.(unresponsive) = false /\ x.(has_identity) = false /\
  x.(path_updated_at) = now /\ x.(path_expires_at) = dadd now cfg.(path_lifetime) /\ x.(path_occupied) = true /\
  length x.(identity_public_key) = 64%nat.
Proof. unfold announced_path. rewrite path_add_blob_fields. done. Qed.

Lemma announced_path_blobs (cfg : rns_transport_config E) now old d nh ifc g h blob ph :
  (1 <= cfg.(random_blob_history) <= RNS_TRANSPORT_MAX_RANDOM_BLOBS)%nat ->
  (length old <= RNS_TRANSPORT_MAX_RANDOM_BLOBS)%nat ->
  (length (announced_path cfg now old d nh ifc g h blob ph).(random_blobs) <= RNS_TRANSPORT_MAX_RANDOM_BLOBS)%nat.
Proof. intros. unfold announced_path. simpl. by apply path_add_blob_length. Qed.

(** Replacing an entry by one for [d] keeps the table well formed when no other
    entry is for [d]. *)
Lemma paths_ok_insert history ps i x :
  paths_ok history ps -> (length x.(random_blobs) <= history)%nat -> sized_path x ->
  (forall j y, ps !! j = Some y -> y.(path_occupied) = true -> x.(path_occupied) = true ->
     y.(path_destination) = x.(path_destination) -> j = i) ->
  paths_ok history (<[i := x]> ps).
Proof.
  intros [Hd Hb Hkeys] Hx Hxk Hu. constructor.
  - intros j k y z Hj Hk Hy Hz E'.
    apply list_lookup_insert_Some in Hj as [(Ej & Ey & _)|[Hnj Hj]];
      apply list_lookup_insert_Some in Hk as [(Ek & Ez & _)|[Hnk Hk]]; subst; try done.
    + symmetry. by apply (Hu k z).
    + by apply (Hu j y).
    + by apply (Hd j k y z).
  - intros j y Hj. apply list_lookup_insert_Some in Hj as [(_ & <- & _)|[_ Hj]]; [done|by eapply Hb].
  - intros j y Hj. apply list_lookup_insert_Some in Hj as [(_ & <- & _)|[_ Hj]]; [done|by eapply Hkeys].
Qed.

Lemma path_matches_true d x : path_matches d x = true <-> x.(path_occupied) = true /\ x.(path_destination) = d.
Proof. unfold path_matches. by rewrite andb_true_iff, memeq_true. Qed.

(** The slot an accepted announce for [d] is written to: the entry of [d] if
    there is one. *)
Definition announce_slot (ps : list rns_path_entry) (d : list Z) : nat :=
  match find_index (path_matches d) ps with Some i => i | None => path_replacement_slot ps end.

Lemma announce_slot_spec history ps d :
  paths_ok history ps -> ps <> [] ->
  exists x, ps !! announce_slot ps d = Some x /\
    forall j y, ps !! j = Some y -> y.(path_occupied) = true -> y.(path_destination) = d -> j = announce_slot ps d.
Proof.
  intros Hok Hne. unfold announce_slot. destruct (find_index (path_matches d) ps) as [i|] eqn:Hf.
  - pose proof (find_index_Some _ _ _ Hf) as (x & Hi & Hm & _). apply path_matches_true in Hm as [Ho Hd].
    exists x. split; [done|]. intros j y Hj Hy Hyd. apply (paths_distinct _ _ Hok j i y x); congruence.
  - destruct (replacement_slot_spec (λ x, negb x.(path_occupied)) path_updated_at ps Hne) as (x & Hx & _).
    exists x. split; [done|]. intros j y Hj Hy Hyd. pose proof (find_index_None _ _ _ _ Hf Hj) as Hm.
    apply not_true_iff_false in Hm. destruct Hm. by apply path_matches_true.
Qed.

(** One call on a well-formed transport: the announce is rejected and nothing
    changes, or the destination's slot is overwritten. *)
Lemma consider_announce_cases t e d nh ifc g h blob ph clk now e' ps :
  wf t -> t.(config).(clock) = Some clk -> clk e = (now, e') -> isfinite now = true -> t.(paths) = Some ps ->
  let out := rns_transport_consider_announce t d nh ifc g h blob ph e in
  let slot := announce_slot ps d in
  (exists x, ps !! slot = Some x /\ path_matches d x = true /\ (now >=.? x.(path_expires_at)) = false /\
     announce_stale x (random_blob_timebase blob) g blob = true /\ out = (RNS_PATH_REJECTED, t, e')) \/
  (exists r old, r <> RNS_PATH_REJECTED /\ (length old <= RNS_TRANSPORT_MAX_RANDOM_BLOBS)%nat /\
     (forall x, ps !! slot = Some x -> path_matches d x = true -> r = RNS_PATH_UPDATED /\
        ((now >=.? x.(path_expires_at)) = false ->
           announce_stale x (random_blob_timebase blob) g blob = false /\ old = x.(random_blobs))) /\
     out = (r, set_path t slot (announced_path t.(config) now old d nh ifc g h blob ph), e')).
Proof.
  intros Hwf Hc Hnow Hfin Hps out slot. subst out slot.
  unfold rns_transport_consider_announce, announce_slot. rewrite Hps, Hc, Hnow, Hfin. cbn [negb].
  destruct (wf_paths _ Hwf) as (ps' & Hps' & _ & Hne & Hok). rewrite Hps in Hps'. injection Hps' as <-.
  destruct (find_index (path_matches d) ps) as [i|] eqn:Hf.
  - pose proof (find_index_Some _ _ _ Hf) as (x & Hi & Hm & _).
    assert (path_at t i = x) as Hat by (unfold path_at; rewrite Hps; simpl; by rewrite Hi).
    rewrite Hat. pose proof (paths_blobs _ _ Hok i x Hi) as Hbl.
    destruct (now >=.? path_expires_at x) eqn:Hexp.
    + right. exists RNS_PATH_UPDATED, []. split_and!; [done|simpl; lia| |done].
      intros y Hy _. assert (y = x) as -> by congruence. split; [done|]. congruence.
    + destruct (announce_stale x (random_blob_timebase blob) g blob) eqn:Hst.
      * left. exists x. by split_and!.
      * right. exists RNS_PATH_UPDATED, (random_blobs x). split_and!; [done|done| |done].
        intros y Hy _. assert (y = x) as -> by congruence. done.
  - right. exists RNS_PATH_INSERTED, []. split_and!; [done|simpl; lia| |done].
    intros x Hx Hm. rewrite (find_index_None _ _ _ _ Hf Hx) in Hm. done.
Qed.

Lemma set_path_wf t i x ps y :
  wf t -> t.(paths) = Some ps -> ps !! i = Some y ->
  (length x.(random_blobs) <= RNS_TRANSPORT_MAX_RANDOM_BLOBS)%nat -> sized_path x ->
  (forall j z, ps !! j = Some z -> z.(path_occupied) = true -> x.(path_occupied) = true ->
     z.(path_destination) = x.(path_destination) -> j = i) ->
  wf (set_path t i x).
Proof.
  intros [Hc (ps' & Hps' & Hl & Hne & Hok) Hd Hr Hk] Hps Hi Hx Hxk Hu.
  rewrite Hps in Hps'. injection Hps' as <-. constructor; simpl; try done.
  exists (<[i := x]> ps). rewrite Hps, length_insert. split_and!; [by eapply put_lookup|done| |by apply paths_ok_insert].
  intros E'. apply (f_equal length) in E'. rewrite length_insert in E'. by destruct ps.
Qed.

Lemma announce_write_wf t ps d now old nh ifc g h blob ph :
  wf t -> t.(paths) = Some ps -> (length old <= RNS_TRANSPORT_MAX_RANDOM_BLOBS)%nat -> length nh = 16%nat ->
  wf (set_path t (announce_slot ps d) (announced_path t.(config) now old d nh ifc g h blob ph)).
Proof.
  intros Hwf Hps Hold Hnh. destruct (wf_paths _ Hwf) as (ps' & Hps' & _ & Hne & Hok).
  rewrite Hps in Hps'. injection Hps' as <-.
  destruct (announce_slot_spec _ _ d Hok Hne) as (y & Hy & Hu).
  pose proof (announced_path_fields t.(config) now old d nh ifc g h blob ph) as Hf. cbv zeta in Hf.
  eapply set_path_wf; [done|done|done|apply announced_path_blobs; [apply (ok_history _ (wf_config _ Hwf))|done]| |].
  { split; [tauto|]. destruct Hf as (_ & -> & _). done. }
  intros j z Hj Hz _ Hd. apply (Hu j z Hj Hz). rewrite Hd. apply announced_path_fields.
Qed.

(** A lookup of a destination whose only entry is live. *)
Lemma lookup_live t d e clk now e' ps i x :
  t.(paths) = Some ps -> t.(config).(clock) = Some clk -> clk e = (now, e') -> isfinite now = true ->
  ps !! i = Some x -> path_matches d x = true ->
  (forall j y, ps !! j = Some y -> path_matches d y = true -> j = i) ->
  (now <.? x.(path_expires_at)) = true ->
  rns_transport_lookup t d e = (Some i, t, e').
Proof.
  intros Hps Hc Hnow Hfin Hi Hm Hu Hlive. unfold rns_transport_lookup. rewrite Hps, Hc, Hnow, Hfin. cbn [negb].
  rewrite (find_index_unique _ _ i x Hi Hm Hu), Hi. unfold live. by rewrite Hfin, Hlive.
Qed.

(** The entry an accepted announce wrote, seen through the table. *)
Lemma announce_written t ps d now old nh ifc g h blob ph :
  wf t -> t.(paths) = Some ps ->
  let x := announced_path t.(config) now old d nh ifc g h blob ph in
  let t' := set_path t (announce_slot ps d) x in
  exists ps', t'.(paths) = Some ps' /\ ps' !! announce_slot ps d = Some x /\ path_matches d x = true /\
    (forall j y, ps' !! j = Some y -> path_matches d y = true -> j = announce_slot ps d) /\
    path_at t' (announce_slot ps d) = x.
Proof.
  intros Hwf Hps x t'. destruct (wf_paths _ Hwf) as (ps' & Hps' & _ & Hne & Hok).
  rewrite Hps in Hps'. injection Hps' as <-.
  destruct (announce_slot_spec _ _ d Hok Hne) as (y & Hy & Hu).
  assert (<[announce_slot ps d := x]> ps !! announce_slot ps d = Some x) as Hx by (by eapply list_insert_same_lookup).
  exists (<[announce_slot ps d := x]> ps). unfold t', set_path, path_at. simpl. rewrite Hps. simpl. rewrite (put_lookup _ _ _ _ Hy). simpl.
  split_and!; [done|done| | |by rewrite Hx].
  - apply path_matches_true. split; apply announced_path_fields.
  - intros j z Hj [Hz Hzd]%path_matches_true.
    apply list_lookup_insert_Some in Hj as [(<- & _ & _)|[_ Hj]]; [done|]. by apply (Hu j z).
Qed.

(** An accepted announce installs the path. When
    [rns_transport_consider_announce] does not reject, the transport stays well
    formed, and a lookup of the destination at any later clock value before
    [now + path_lifetime] returns an entry with the announced next hop,
    interface and hop count. *)
Theorem announce_then_lookup t e d nh ifc g h blob ph clk now e1 r t' e2 now2 e3 :
  wf t -> t.(config).(clock) = Some clk -> clk e = (now, e1) -> isfinite now = true -> length nh = 16%nat ->
  rns_transport_consider_announce t d nh ifc g h blob ph e = (r, t', e1) -> r <> RNS_PATH_REJECTED ->
  clk e2 = (now2, e3) -> isfinite now2 = true -> (now2 <.? dadd now t.(config).(path_lifetime)) = true ->
  wf t' /\ exists i, rns_transport_lookup t' d e2 = (Some i, t', e3) /\
    (path_at t' i).(path_next_hop) = nh /\ (path_at t' i).(path_interface) = ifc /\
    (path_at t' i).(path_hops) = h /\ (path_at t' i).(path_destination) = d.
Proof.
  intros Hwf Hc Hnow Hfin Hnh Hout Hr Hnow2 Hfin2 Hlive.
  destruct (wf_paths _ Hwf) as (ps & Hps & _).
  destruct (consider_announce_cases t e d nh ifc g h blob ph clk now e1 ps Hwf Hc Hnow Hfin Hps)
    as [(x & _ & _ & _ & _ & Ho)|(r' & old & _ & Hold & _ & Ho)]; rewrite Ho in Hout; [by simplify_eq|].
  injection Hout as <- <-.
  destruct (announce_written t ps d now old nh ifc g h blob ph Hwf Hps) as (ps' & Hps' & Hx & Hm & Hu & Hat).
  pose proof (announced_path_fields t.(config) now old d nh ifc g h blob ph) as Hf. cbv zeta in Hf.
  split; [by apply announce_write_wf|]. exists (announce_slot ps d). rewrite Hat.
  split; [|tauto]. by eapply lookup_live.
Qed.

(** Replayed announces are rejected. After an announce was accepted, the same
    random blob from an interface of no higher gravity is rejected, whatever
    route it claims, at every clock value before the path expires, and the
    tables do not change. *)
Theorem announce_replay_rejected t e d nh ifc g h blob ph clk now e1 r t' nh2 ifc2 g2 h2 ph2 e2 now2 e3 :
  wf t -> t.(config).(clock) = Some clk -> clk e = (now, e1) -> isfinite now = true ->
  rns_transport_consider_announce t d nh ifc g h blob ph e = (r, t', e1) -> r <> RNS_PATH_REJECTED ->
  clk e2 = (now2, e3) -> isfinite now2 = true -> (now2 <.? dadd now t.(config).(path_lifetime)) = true ->
  g2 <= g ->
  rns_transport_consider_announce t' d nh2 ifc2 g2 h2 blob ph2 e2 = (RNS_PATH_REJECTED, t', e3).
Proof.
  intros Hwf Hc Hnow Hfin Hout Hr Hnow2 Hfin2 Hlive Hg.
  destruct (wf_paths _ Hwf) as (ps & Hps & _).
  destruct (consider_announce_cases t e d nh ifc g h blob ph clk now e1 ps Hwf Hc Hnow Hfin Hps)
    as [(x & _ & _ & _ & _ & Ho)|(r' & old & _ & Hold & _ & Ho)]; rewrite Ho in Hout; [by simplify_eq|].
  injection Hout as <- <-.
  destruct (announce_written t ps d now old nh ifc g h blob ph Hwf Hps) as (ps' & Hps' & Hx & Hm & Hu & Hat).
  pose proof (announced_path_fields t.(config) now old d nh ifc g h blob ph) as Hf. cbv zeta in Hf.
  set (x := announced_path _ _ _ _ _ _ _ _ _ _) in *.
  destruct Hf as (_&_&_&_&Hxg&_&Hxt&Hxu&_&_&Hxe&_).
  unfold rns_transport_consider_announce. rewrite Hps'. cbn [config set_path]. unfold set_path at 1. cbn [config].
  rewrite Hc, Hnow2, Hfin2. cbn [negb].
  rewrite (find_index_unique _ _ _ x Hx Hm Hu), Hat, Hxe, (dlt_not_ge _ _ Hlive).
  unfold announce_stale. rewrite Hxu, Hxt, Hxg, Z.eqb_refl, (proj2 (Z.ltb_ge g g2) Hg). cbn [negb andb orb].
  by rewrite orb_true_r.
Qed.

(** A live, responsive path only gives way to a fresher announce: when
    [rns_transport_consider_announce] replaces it, the new announce's timebase is
    not smaller, it is larger unless the new interface has a higher gravity, and
    an already heard blob is only taken from an interface of higher gravity. *)
Theorem announce_freshness t e d nh ifc g h blob ph clk now e1 r t' ps i x :
  wf t -> t.(config).(clock) = Some clk -> clk e = (now, e1) -> isfinite now = true ->
  t.(paths) = Some ps -> ps !! i = Some x -> path_matches d x = true ->
  (now <.? x.(path_expires_at)) = true -> x.(unresponsive) = false ->
  rns_transport_consider_announce t d nh ifc g h blob ph e = (r, t', e1) ->
  (r = RNS_PATH_REJECTED /\ t' = t) \/
  (r = RNS_PATH_UPDATED /\ x.(announce_timebase) <= random_blob_timebase blob /\
   (x.(announce_timebase) < random_blob_timebase blob \/ x.(interface_gravity) < g) /\
   (path_heard_blob x blob = true -> x.(interface_gravity) < g)).
Proof.
  intros Hwf Hc Hnow Hfin Hps Hi Hm Hlive Hresp Hout.
  destruct (wf_paths _ Hwf) as (ps' & Hps' & _ & Hne & Hok). rewrite Hps in Hps'. injection Hps' as <-.
  destruct (announce_slot_spec _ _ d Hok Hne) as (y & Hy & Hu).
  pose proof Hm as [Ho Hd]%path_matches_true. rewrite <-(Hu i x Hi Ho Hd) in Hy.
  assert (y = x) as -> by congruence.
  destruct (consider_announce_cases t e d nh ifc g h blob ph clk now e1 ps Hwf Hc Hnow Hfin Hps)
    as [(x' & _ & _ & _ & _ & Ho')|(r' & old & _ & _ & Hupd & Ho')]; rewrite Ho' in Hout; injection Hout as <- <-.
  { by left. }
  right. rewrite <-(Hu i x Hi Ho Hd) in Hupd. destruct (Hupd x Hi Hm) as [-> Hst].
  destruct (Hst (dlt_not_ge _ _ Hlive)) as [Hns _]. split; [done|].
  unfold announce_stale in Hns. rewrite Hresp in Hns. cbn [negb andb] in Hns.
  rewrite !orb_false_iff, Z.ltb_ge in Hns. destruct Hns as [[H1 H2] H3].
  destruct (Z.ltb_spec (interface_gravity x) g) as [Hg|Hg].
  - split_and!; [done|by right|done].
  - cbn [negb] in H2, H3. rewrite andb_true_r in H2, H3. apply Z.eqb_neq in H2.
    split_and!; [done|left; lia|congruence].
Qed.
End Paths.

(** ** The packet-hash filter *)
Section Dedupe.
Context {E : Type}.
Implicit Types (t : rns_transport E) (e : E) (ds : list rns_dedupe_entry).

Definition holds_hash (h : list Z) (x : rns_dedupe_entry) : Prop :=
  x.(dedupe_occupied) = true /\ x.(dedupe_hash) = h.

(** Entries are kept or, when expired, cleared. *)
Definition cleared (now : double) (x y : rns_dedupe_entry) : Prop :=
  y = x \/ (dedupe_expired now x = true /\ y = zero_dedupe).

Lemma dedupe_scan_spec now h ds :
  let '(found, ds') := dedupe_scan now h ds in
  Forall2 (cleared now) ds ds' /\
  if found then exists i x, ds !! i = Some x /\ holds_hash h x /\ dedupe_expired now x = false
  else (forall i x, ds !! i = Some x -> holds_hash h x -> dedupe_expired now x = true) /\
    forall i x, ds !! i = Some x -> dedupe_expired now x = true -> ds' !! i = Some zero_dedupe.
Proof.
  induction ds as [|x ds IH]; simpl; [split; [constructor|split; by intros]|].
  destruct (dedupe_expired now x) eqn:Hx.
  - destruct (dedupe_scan now h ds) as [found ds']. destruct IH as [IH1 IH2].
    split; [constructor; [by right|done]|]. destruct found.
    + destruct IH2 as (i & y & ?). by exists (S i), y.
    + destruct IH2 as [H1 H2]. split; intros [|i] y; simpl; [by intros [= <-]|eauto|done|eauto].
  - destruct (dedupe_occupied x && memeq (dedupe_hash x) h) eqn:Hm.
    + apply andb_true_iff in Hm as [Ho Hm%memeq_true].
      split; [constructor; [by left|apply Forall_Forall2_diag, Forall_true; by left]|].
      exists 0%nat, x. by split_and!.
    + destruct (dedupe_scan now h ds) as [found ds']. destruct IH as [IH1 IH2].
      split; [constructor; [by left|done]|]. destruct found.
      * destruct IH2 as (i & y & ?). by exists (S i), y.
      * destruct IH2 as [H1 H2]. split; intros [|i] y; simpl; eauto.
        -- intros [= <-] [Ho Hh]. apply memeq_true in Hh. by rewrite Ho, Hh in Hm.
        -- intros [= <-]. by rewrite Hx.
Qed.

(** The transport after a call. *)
Lemma accept_cases t h e clk now e1 ds :
  t.(dedupe) = Some ds -> t.(config).(clock) = Some clk -> clk e = (now, e1) -> isfinite now = true -> ds <> [] ->
  exists ds', Forall2 (cleared now) ds ds' /\
  ((exists i x, ds !! i = Some x /\ holds_hash h x /\ dedupe_expired now x = false) /\
    rns_transport_accept_packet_hash t h e = (false, {| t with dedupe := Some ds' |}, e1) \/
   (forall i x, ds !! i = Some x -> holds_hash h x -> dedupe_expired now x = true) /\
    (forall i x, ds !! i = Some x -> dedupe_expired now x = true -> ds' !! i = Some zero_dedupe) /\
    rns_transport_accept_packet_hash t h e =
      (true, {| t with dedupe := Some (<[oldest_dedupe_slot ds' :=
        {| dedupe_hash := h; seen_at := now; dedupe_expires_at := dadd now t.(config).(dedupe_lifetime);
           dedupe_occupied := true |}]> ds') |}, e1)).
Proof.
  intros Hds Hc Hnow Hfin Hne. unfold rns_transport_accept_packet_hash. rewrite Hds, Hc, Hnow, Hfin. cbn [negb].
  pose proof (dedupe_scan_spec now h ds) as Hs. destruct (dedupe_scan now h ds) as [found ds'].
  destruct Hs as [H2 Hf]. exists ds'. split; [done|]. destruct found; [by left|]. destruct Hf.
  unfold oldest_dedupe_slot. rewrite put_slot; [by right|]. intros ->. by inversion H2; subst.
Qed.

(** The number of entries that were not seen before [t0]. *)
Definition seen_since (t0 : double) ds : nat :=
  length (filter (λ x, dedupe_occupied x && negb (seen_at x <.? t0) = true) ds).

Lemma seen_since_cleared (t0 : double) now ds ds' : Forall2 (cleared now) ds ds' -> (seen_since t0 ds' <= seen_since t0 ds)%nat.
Proof.
  unfold seen_since. induction 1 as [|x y ds ds' Hxy _ IH]; [done|]. rewrite !filter_cons.
  destruct Hxy as [->|[_ ->]]; [case_decide; simpl; lia|]. rewrite (decide_False (P := _ && _ = true)) by done.
  case_decide; simpl; lia.
Qed.

Lemma seen_since_insert (t0 : double) ds i x y :
  ds !! i = Some x -> (seen_since t0 (<[i := y]> ds) <= seen_since t0 ds + 1)%nat.
Proof.
  intros Hi. unfold seen_since. rewrite (insert_take_drop _ _ _ (lookup_lt_Some _ _ _ Hi)).
  rewrite <-(take_drop_middle ds i x Hi) at 3. rewrite !list.filter_app, !filter_cons, !length_app.
  repeat case_decide; simpl; lia.
Qed.

Lemma filter_everything {A} (P : A -> Prop) `{!forall x, Decision (P x)} (l : list A) :
  (forall i x, l !! i = Some x -> P x) -> filter P l = l.
Proof.
  induction l as [|x l IH]; intros Hl; [done|]. rewrite filter_cons_True by (by apply (Hl 0%nat)).
  f_equal. apply IH. intros i y Hi. by apply (Hl (S i)).
Qed.

(** The table holds the hash [h], seen at [t0], until [deadline], and at most [n] entries
    were not seen before [t0]. *)
Definition remembers t (h : list Z) (t0 deadline : double) (n : nat) : Prop :=
  exists ds i x, t.(dedupe) = Some ds /\ ds !! i = Some x /\ holds_hash h x /\ x.(seen_at) = t0 /\
    x.(dedupe_expires_at) = deadline /\ (seen_since t0 ds <= n)%nat.

Lemma remembers_same t t' h (t0 d : double) n : t'.(dedupe) = t.(dedupe) -> remembers t h t0 d n -> remembers t' h t0 d n.
Proof. unfold remembers. by intros ->. Qed.

Lemma accept_remembers t h e t' e' clk :
  wf t -> t.(config).(clock) = Some clk -> rns_transport_accept_packet_hash t h e = (true, t', e') ->
  remembers t' h (clk e).1 (dadd (clk e).1 t.(config).(dedupe_lifetime)) (seen_since (clk e).1 (default [] t.(dedupe)) + 1).
Proof.
  intros Hwf Hc. destruct (wf_dedupe _ Hwf) as (ds & Hds & Hlen & Hne). destruct (clk e) as [now e1] eqn:Hnow.
  destruct (isfinite now) eqn:Hfin.
  - destruct (accept_cases t h e clk now e1 ds Hds Hc Hnow Hfin Hne) as (ds' & Hcl & [[_ ->]|(_ & _ & ->)]); [done|].
    intros [= <- <-]. pose proof (Forall2_length Hcl). rewrite Hds. cbn [default from_option id].
    destruct (replacement_slot_spec (λ x, negb x.(dedupe_occupied)) seen_at ds') as (y & Hy & _); [by destruct ds, ds'|].
    fold (oldest_dedupe_slot ds') in Hy. eexists _, (oldest_dedupe_slot ds'), _. split; [done|].
    split; [by eapply list_lookup_insert_eq, lookup_lt_Some|]. split_and!; try done.
    pose proof (seen_since_cleared now now ds ds' Hcl). etrans; [by eapply seen_since_insert|]. cbn [fst]. lia.
  - unfold rns_transport_accept_packet_hash. by rewrite Hds, Hc, Hnow, Hfin.
Qed.

Lemma accept_duplicate t h e clk (t0 deadline : double) n :
  t.(config).(clock) = Some clk -> remembers t h t0 deadline n -> ((clk e).1 >=.? deadline) = false ->
  (rns_transport_accept_packet_hash t h e).1.1 = false.
Proof.
  intros Hc (ds & i & x & Hds & Hi & Hh & _ & Hx & _) Hlive. destruct (clk e) as [now e1] eqn:Hnow. cbn [fst] in Hlive.
  destruct (isfinite now) eqn:Hfin.
  - destruct (accept_cases t h e clk now e1 ds Hds Hc Hnow Hfin) as (ds' & _ & [[_ ->]|(Hexp & _)]); [by intros ->|done|].
    specialize (Hexp i x Hi Hh). unfold dedupe_expired in Hexp. by rewrite Hx, Hlive, andb_false_r in Hexp.
  - unfold rns_transport_accept_packet_hash. by rewrite Hds, Hc, Hnow, Hfin.
Qed.

(** Clearing what expired keeps an entry that has not. *)
Lemma remembers_cleared t now ds ds' h (t0 deadline : double) n :
  remembers t h t0 deadline n -> t.(dedupe) = Some ds -> Forall2 (cleared now) ds ds' -> (now >=.? deadline) = false ->
  remembers {| t with dedupe := Some ds' |} h t0 deadline n.
Proof.
  intros (ds1 & i & x & Hds & Hi & Hh & Hs & Hx & Hn) Hds' Hcl Hlive. rewrite Hds in Hds'. injection Hds' as ->.
  exists ds', i, x. split_and!; try done; [|pose proof (seen_since_cleared t0 now ds ds' Hcl); lia].
  destruct (Forall2_lookup_l _ _ _ _ _ Hcl Hi) as (y & Hy & [->|[He _]]); [done|]. unfold dedupe_expired in He. by rewrite Hx, Hlive, andb_false_r in He.
Qed.

(** The remembered entry is only replaced when no entry is older. *)
Lemma remembers_put t ds h (t0 deadline : double) n z :
  remembers {| t with dedupe := Some ds |} h t0 deadline n -> (n < length ds)%nat ->
  remembers {| t with dedupe := Some (<[oldest_dedupe_slot ds := z]> ds) |} h t0 deadline (n + 1).
Proof.
  intros (ds1 & i & x & [= <-] & Hi & Hh & Hs & Hx & Hn) Hlen.
  destruct (replacement_slot_spec (λ x, negb x.(dedupe_occupied)) seen_at ds) as (y & Hy & Hold); [by intros ->|]. fold (oldest_dedupe_slot ds) in Hy.
  exists (<[oldest_dedupe_slot ds := z]> ds), i, x. split_and!; try done; [|pose proof (seen_since_insert t0 ds _ y z Hy); lia].
  rewrite list_lookup_insert_ne; [done|]. intros E'. rewrite E', Hi in Hy. injection Hy as <-. destruct Hold as [Hfree|Hall].
  { destruct Hh as [Hocc _]. by rewrite Hocc in Hfree. }
  enough (seen_since t0 ds = length ds) by lia. unfold seen_since. rewrite filter_everything; [done|].
  intros j w Hw. destruct (Hall j w Hw) as [Hocc%negb_false_iff Hlt]. by rewrite Hocc, <-Hs, Hlt.
Qed.

(** Offering another hash, while some entry is older or free. *)
Lemma accept_keeps t h h' e clk (t0 deadline : double) n :
  wf t -> t.(config).(clock) = Some clk -> remembers t h t0 deadline n -> Z.of_nat n < t.(config).(dedupe_capacity) ->
  ((clk e).1 >=.? deadline) = false -> remembers (rns_transport_accept_packet_hash t h' e).1.2 h t0 deadline (n + 1).
Proof.
  intros Hwf Hc Hrem Hn Hlive. destruct (wf_dedupe _ Hwf) as (ds & Hds & Hlen & Hne). destruct (clk e) as [now e1] eqn:Hnow. cbn [fst] in Hlive.
  destruct (isfinite now) eqn:Hfin.
  - destruct (accept_cases t h' e clk now e1 ds Hds Hc Hnow Hfin Hne) as (ds' & Hcl & Hcase). pose proof (Forall2_length Hcl).
    pose proof (remembers_cleared t now ds ds' h t0 deadline n Hrem Hds Hcl Hlive) as Hrem'.
    destruct Hcase as [[_ ->]|(_ & _ & ->)]; cbn [fst snd].
    + destruct Hrem' as (ds1 & i & x & ? & ? & ? & ? & ? & ?). exists ds1, i, x. split_and!; try done. lia.
    + apply remembers_put; [done|lia].
  - unfold rns_transport_accept_packet_hash. rewrite Hds, Hc, Hnow, Hfin. cbn [negb fst snd].
    destruct Hrem as (ds1 & i & x & ? & ? & ? & ? & ? & ?). exists ds1, i, x. split_and!; try done. lia.
Qed.
End Dedupe.

(** ** Reverse paths *)
Section Reverse.
Context {E : Type}.
Implicit Types (t : rns_transport E) (e : E) (rs : list rns_reverse_entry).

Lemma reverse_matches_true h x :
  reverse_matches h x = true <-> x.(reverse_occupied) = true /\ x.(reverse_hash) = h.
Proof. unfold reverse_matches. by rewrite andb_true_iff, memeq_true. Qed.

(** Consuming a hash that has exactly one entry. *)
Lemma consume_unique t h ingress e clk now e1 rs i x f :
  t.(reverse_paths) = Some rs -> t.(config).(clock) = Some clk -> clk e = (now, e1) -> isfinite now = true ->
  rs !! i = Some x -> reverse_matches h x = true ->
  (forall j y, rs !! j = Some y -> reverse_matches h y = true -> j = i) ->
  (now <.? x.(reverse_expires_at)) = true ->
  rns_transport_consume_reverse t h ingress (Some f) e =
    (if ingress =? x.(reverse_outbound) then RNS_REVERSE_MATCHED else RNS_REVERSE_WRONG_INTERFACE,
     {| t with reverse_paths := Some (<[i := zero_reverse]> rs) |},
     Some (if ingress =? x.(reverse_outbound) then x.(reverse_received) else 0), e1).
Proof.
  intros Hrs Hc Hnow Hfin Hi Hm Hu Hlive. unfold rns_transport_consume_reverse. cbn [fmap option_fmap option_map].
  rewrite Hrs, Hc, Hnow, Hfin. cbn [negb]. rewrite (find_index_unique _ _ i x Hi Hm Hu), Hi. cbn [default].
  simpl. rewrite (put_lookup _ _ _ _ Hi), (dlt_not_ge _ _ Hlive). by destruct (ingress =? _).
Qed.

Lemma consume_absent t h ingress e clk now e1 rs f :
  t.(reverse_paths) = Some rs -> t.(config).(clock) = Some clk -> clk e = (now, e1) ->
  (forall j y, rs !! j = Some y -> reverse_matches h y = false) ->
  rns_transport_consume_reverse t h ingress (Some f) e = (RNS_REVERSE_MISSING, t, Some 0, e1).
Proof.
  intros Hrs Hc Hnow Hno. unfold rns_transport_consume_reverse. cbn [fmap option_fmap option_map].
  rewrite Hrs, Hc, Hnow. case_match; [done|].
  destruct (find_index (reverse_matches h) rs) as [i|] eqn:Hf; [|done].
  apply find_index_Some in Hf as (x & Hi & Hm & _). by rewrite (Hno i x Hi) in Hm.
Qed.

(** A recorded reverse path is consumed exactly once. After a forwarded
    packet's hash is recorded, a proof for it that arrives before the lifetime is
    over on the interface the packet left through is matched to the interface the
    packet came from; on any other interface it is refused; and either way the
    entry is gone, so a second proof finds nothing. *)
Theorem reverse_path_consumed_once t h received outbound e clk now e1 t1 tx ingress e2 now2 e3 e4 now4 e5 f :
  wf t -> t.(config).(clock) = Some clk -> clk e = (now, e1) ->
  (forall rs j y, t.(reverse_paths) = Some rs -> rs !! j = Some y -> reverse_matches (take 16 h) y = false) ->
  rns_transport_record_reverse_transaction t h received outbound None e = (true, t1, tx, e1) ->
  clk e2 = (now2, e3) -> isfinite now2 = true -> (now2 <.? dadd now t.(config).(reverse_lifetime)) = true ->
  clk e4 = (now4, e5) ->
  exists t2, rns_transport_consume_reverse t1 (take 16 h) ingress (Some f) e2 =
      (if ingress =? outbound then RNS_REVERSE_MATCHED else RNS_REVERSE_WRONG_INTERFACE, t2,
       Some (if ingress =? outbound then received else 0), e3) /\
    forall ingress', rns_transport_consume_reverse t2 (take 16 h) ingress' (Some f) e4 =
      (RNS_REVERSE_MISSING, t2, Some 0, e5).
Proof.
  intros Hwf Hc Hnow Hno Hrec Hnow2 Hfin2 Hlive Hnow4.
  destruct (wf_reverse _ Hwf) as (rs & Hrs & Hl & Hne).
  unfold rns_transport_record_reverse_transaction in Hrec. rewrite Hrs, Hc, Hnow in Hrec.
  destruct (isfinite now); [|done]. cbn [negb] in Hrec. unfold oldest_reverse_slot in Hrec. rewrite put_slot in Hrec by done.
  fold (oldest_reverse_slot now rs) in Hrec. injection Hrec as <- _.
  set (slot := oldest_reverse_slot now rs). set (x := {| reverse_hash := take 16 h |}).
  destruct (replacement_slot_spec (λ x, negb x.(reverse_occupied) || (now >=.? x.(reverse_expires_at)))
    reverse_created_at rs Hne) as (y & Hy & _). fold (oldest_reverse_slot now rs) in Hy. fold slot in Hy.
  assert (<[slot := x]> rs !! slot = Some x) as Hx by (by eapply list_insert_same_lookup).
  assert (forall j z, <[slot := x]> rs !! j = Some z -> reverse_matches (take 16 h) z = true -> j = slot) as Hu.
  { intros j z Hj Hz. apply list_lookup_insert_Some in Hj as [(<- & _)|[_ Hj]]; [done|].
    by rewrite (Hno rs j z Hrs Hj) in Hz. }
  eexists. split.
  - apply (consume_unique _ _ ingress e2 clk now2 e3 (<[slot := x]> rs) slot x f); try done.
    by apply reverse_matches_true.
  - intros ingress'. eapply consume_absent; [done|done|done|].
    intros j z Hj. apply list_lookup_insert_Some in Hj as [(_ & <- & _)|[Hne' Hj]]; [done|].
    apply not_true_is_false. intros Hz. apply Hne'. symmetry. by apply (Hu j z).
Qed.
End Reverse.

(** ** Links and transactions *)
Section Links.
Context `{Crypto} {E : Type}.
Implicit Types (t : rns_transport E) (e : E).

(** A lookup finds a live entry and changes nothing, or finds none. *)
Lemma link_lookup_cases t id e clk now e1 ls :
  t.(links) = Some ls -> t.(config).(clock) = Some clk -> clk e = (now, e1) ->
  (exists i x, ls !! i = Some x /\ link_matches id x = true /\ (now >=.? link_deadline x) = false /\
     isfinite now = true /\ link_at t i = x /\ rns_transport_link_lookup t id e = (Some i, t, e1)) \/
  (exists t', rns_transport_link_lookup t id e = (None, t', e1) /\
     (t' = t \/ exists i, (i < length ls)%nat /\ t' = set_link t i zero_link)).
Proof.
  intros Hls Hc Hnow. unfold rns_transport_link_lookup. rewrite Hls, Hc, Hnow.
  destruct (isfinite now) eqn:Hfin; cbn [negb]; [|right; eauto].
  destruct (find_index (link_matches id) ls) as [i|] eqn:Hf; [|right; eauto].
  apply find_index_Some in Hf as (x & Hi & Hm & _).
  assert (link_at t i = x) as Hat by (unfold link_at; rewrite Hls; simpl; by rewrite Hi).
  rewrite Hat. destruct (now >=.? link_deadline x) eqn:Hd.
  - right. eexists. split; [done|]. right. exists i. split; [by eapply lookup_lt_Some|done].
  - left. exists i, x. by split_and!.
Qed.

Lemma set_link_wf t i x ls :
  wf t -> t.(links) = Some ls -> (i < length ls)%nat -> length x.(destination_public_key) = 64%nat -> wf (set_link t i x).
Proof.
  intros [Hc Hp Hd Hr (ls' & Hls & Hl & Hne & Hok)] Hls' Hi Hx. rewrite Hls in Hls'. injection Hls' as ->. constructor; simpl; try done.
  exists (<[i := x]> ls). rewrite Hls, length_insert. split_and!; [by apply put_in|done| |by apply Forall_insert].
  intros E'. apply (f_equal length) in E'. rewrite length_insert in E'. by destruct ls.
Qed.

Lemma link_lookup_wf t id e : wf t -> wf (rns_transport_link_lookup t id e).1.2.
Proof.
  intros Hwf. destruct (wf_links _ Hwf) as (ls & Hls & _). destruct (ok_clock _ (wf_config _ Hwf)) as [clk Hc].
  destruct (clk e) as [now e1] eqn:Hnow.
  destruct (link_lookup_cases t id e clk now e1 ls Hls Hc Hnow)
    as [(i & x & _ & _ & _ & _ & _ & ->)|(t' & -> & [->|(i & Hi & ->)])]; [done|done|]. by eapply set_link_wf.
Qed.

(** The conditions under which a link proof is accepted. *)
Definition proof_acceptable (x : rns_transport_link_entry) (proof : list Z) (ingress hops : Z) : Prop :=
  x.(validated) = false /\ ingress = x.(next_hop_interface) /\ hops = x.(remaining_hops) /\
  length proof = 99%nat /\ exists ident preimage,
    rns_identity_from_public x.(destination_public_key) = Some ident /\
    preimage = x.(link_id) ++ take 32 (drop 64 proof) ++ drop 32 x.(destination_public_key) ++ drop 96 proof /\
    rns_identity_verify ident preimage (take 64 proof) = true.

Lemma preimage_spec x proof :
  length x.(destination_public_key) = 64%nat -> length proof = 99%nat ->
  proof_preimage x proof = Some (x.(link_id) ++ take 32 (drop 64 proof) ++
    drop 32 x.(destination_public_key) ++ drop 96 proof).
Proof.
  intros Hk Hp. unfold proof_preimage, memread. rewrite !decide_True by lia. cbn [mbind option_bind].
  by rewrite (take_ge (drop 32 _)), (take_ge (drop 96 _)) by (rewrite length_drop; lia).
Qed.

(** What offering a link proof may do. *)
Definition proof_taken t (id proof : list Z) (ingress hops : Z) (clk : E -> double * E) (e : E)
    (tx : option rns_transport_transaction)
    (r : rns_link_route_result) (t' : rns_transport E) (f' : Z) (tx' : option rns_transport_transaction) (e' : E) : Prop :=
  (r = RNS_LINK_ROUTE_MATCHED -> exists i x now, (default [] t.(links)) !! i = Some x /\ link_matches id x = true /\
     ((clk e).1 >=.? link_deadline x) = false /\ proof_acceptable x proof ingress hops /\
     clk (clk e).2 = (now, e') /\ f' = x.(received_interface) /\ tx' = (λ _, TransactionLink i x) <$> tx /\
     t' = set_link t i {| x with validated := true; link_updated_at := now;
                          link_expires_at := dadd now t.(config).(link_lifetime) |}) /\
  (r <> RNS_LINK_ROUTE_MATCHED -> f' = 0 /\ tx' = (λ _, TransactionNone) <$> tx /\
     t' = (rns_transport_link_lookup t id e).1.2).

Lemma accept_proof_spec t id proof ingress hops e clk f tx :
  wf t -> t.(config).(clock) = Some clk ->
  exists r t' f' tx' e', rns_transport_accept_link_proof_transaction t id (SBytes proof) ingress hops (Some f) tx e
      = Some (r, t', Some f', tx', e') /\ proof_taken t id proof ingress hops clk e tx r t' f' tx' e'.
Proof.
  intros Hwf Hc. destruct (wf_links _ Hwf) as (ls & Hls & _).
  unfold rns_transport_accept_link_proof_transaction, proof_taken. cbn [fmap option_fmap option_map].
  destruct (clk e) as [now e1] eqn:Hnow.
  destruct (link_lookup_cases t id e clk now e1 ls Hls Hc Hnow) as [(i & x & Hi & Hm & Hd & Hfin & Hat & Hlk)|(t' & Hlk & _)];
    rewrite Hlk; [|by eexists _, _, _, _, _].
  rewrite Hat. destruct (wf_links _ Hwf) as (ls' & Hls' & _ & _ & Hok). rewrite Hls in Hls'. injection Hls' as <-.
  pose proof (Forall_lookup_1 _ _ _ _ Hok Hi) as Hk. simpl in Hk.
  destruct (validated x) eqn:Hv; [by eexists _, _, _, _, _|].
  destruct (Z.eqb_spec ingress (next_hop_interface x)) as [->|]; cbn [negb]; [|by eexists _, _, _, _, _].
  destruct (Z.eqb_spec hops (remaining_hops x)) as [->|]; cbn [negb]; [|by eexists _, _, _, _, _].
  destruct (Nat.eqb_spec (length proof) 99) as [Hp|]; cbn [negb]; [|by eexists _, _, _, _, _].
  rewrite (bind_Some_eq _ _ _ (preimage_spec x proof Hk Hp)).
  rewrite (bind_Some_eq _ _ (take 64 proof)) by (unfold memread; by rewrite decide_True by lia).
  destruct (rns_identity_from_public (destination_public_key x)) as [ident|] eqn:Hid; cbn [negb]; [|by eexists _, _, _, _, _].
  destruct (rns_identity_verify ident _ (take 64 proof)) eqn:Hver; cbn [negb]; [|by eexists _, _, _, _, _].
  rewrite Hc. cbn [mbind option_bind]. destruct (clk e1) as [now1 e2] eqn:Hnow1.
  destruct (isfinite now1); cbn [negb]; [|by eexists _, _, _, _, _].
  eexists _, _, _, _, _. split; [done|]. split; [|done]. intros _. exists i, x, now1. rewrite Hls.
  split_and!; try done.
  - split_and!; try done. eexists _, _. by split_and!.
  - by destruct tx.
Qed.

(** C29: a transport accepts a link proof only from the destination. On every
    input [rns_transport_accept_link_proof_transaction] reads inside its buffers;
    when it reports a match, a live, not yet validated entry for the link exists,
    the proof came over the next hop's interface with the expected hop count, and
    its signature by the destination's announced key covers the link identifier,
    the peer's key and the signalling bytes; the entry becomes validated with a
    fresh lifetime and the proof is forwarded to the interface the request came
    from. In every other case nothing is forwarded and no entry is validated. *)
Theorem rns_transport_accept_link_proof_spec t id proof ingress hops e clk f tx :
  wf t -> t.(config).(clock) = Some clk ->
  exists r t' f' tx' e', rns_transport_accept_link_proof_transaction t id (SBytes proof) ingress hops (Some f) tx e
      = Some (r, t', Some f', tx', e') /\ proof_taken t id proof ingress hops clk e tx r t' f' tx' e'.
Proof. apply accept_proof_spec. Qed.

(** The two directions of a link. *)
Definition link_route (x : rns_transport_link_entry) (ingress hops : Z) : option Z :=
  if ingress =? x.(received_interface) then
    if hops =? x.(taken_hops) then Some x.(next_hop_interface) else None
  else if ingress =? x.(next_hop_interface) then
    if hops =? x.(remaining_hops) then Some x.(received_interface) else None
  else None.

(** What a routing attempt may do, [now] being the time it started at. *)
Definition routed t (id : list Z) (ingress hops : Z) (clk : E -> double * E) (now : double) (e1 : E)
    (tx : option rns_transport_transaction) (t0 : rns_transport E)
    (r : rns_link_route_result) (t' : rns_transport E) (f' : Z) (tx' : option rns_transport_transaction) (e' : E) : Prop :=
  (r = RNS_LINK_ROUTE_MATCHED -> exists i x now', (default [] t.(links)) !! i = Some x /\ link_matches id x = true /\
     (now >=.? link_deadline x) = false /\ x.(validated) = true /\ link_route x ingress hops = Some f' /\
     clk e1 = (now', e') /\ tx' = (λ _, TransactionLink i x) <$> tx /\
     t' = set_link t i {| x with link_updated_at := now' |}) /\
  (r <> RNS_LINK_ROUTE_MATCHED -> f' = 0 /\ tx' = (λ _, TransactionNone) <$> tx /\ t' = t0).

Lemma route_link_spec t id ingress hops e clk now e1 f tx :
  wf t -> t.(config).(clock) = Some clk -> clk e = (now, e1) ->
  exists r t' f' tx' e', rns_transport_route_link_transaction t id ingress hops (Some f) tx e
      = (r, t', Some f', tx', e') /\
    routed t id ingress hops clk now e1 tx (rns_transport_link_lookup t id e).1.2 r t' f' tx' e'.
Proof.
  intros Hwf Hc Hnow. destruct (wf_links _ Hwf) as (ls & Hls & _).
  unfold rns_transport_route_link_transaction. cbn [fmap option_fmap option_map].
  destruct (link_lookup_cases t id e clk now e1 ls Hls Hc Hnow) as [(i & x & Hi & Hm & Hd & Hfin & Hat & Hlk)|(t' & Hlk & _)];
    rewrite Hlk; [|by eexists _, _, _, _, _].
  rewrite Hat. destruct (negb (validated x)) eqn:Hv; [by eexists _, _, _, _, _|]. apply negb_false_iff in Hv.
  rewrite Hc. destruct (clk e1) as [now' e'] eqn:Hnow'. cbn [fst snd].
  assert (forall fwd, link_route x ingress hops = Some fwd ->
    routed t id ingress hops clk now e1 tx t RNS_LINK_ROUTE_MATCHED
      (set_link t i {| x with link_updated_at := now' |}) fwd
      (option_map (λ _, TransactionLink i x) (option_map (λ _, TransactionNone) tx)) e') as Hmatch.
  { intros fwd Hr. split; [|done]. intros _. exists i, x, now'. rewrite Hls. split_and!; try done. by destruct tx. }
  destruct (ingress =? received_interface x) eqn:Hin; [|destruct (ingress =? next_hop_interface x) eqn:Hout;
    [|by eexists _, _, _, _, _]].
  - destruct (hops =? taken_hops x) eqn:Hh; cbn [negb]; [|by eexists _, _, _, _, _].
    eexists _, _, _, _, _. split; [done|]. apply Hmatch. unfold link_route. by rewrite Hin, Hh.
  - destruct (hops =? remaining_hops x) eqn:Hh; cbn [negb]; [|by eexists _, _, _, _, _].
    eexists _, _, _, _, _. split; [done|]. apply Hmatch. unfold link_route. by rewrite Hin, Hout, Hh.
Qed.

(** Only validated links carry traffic. [rns_transport_route_link_transaction]
    reports a match only for a live, validated entry of the link, from one of
    its two interfaces with the hop count of that side, and then forwards to the
    other interface, changing nothing but the entry's activity time; in every other
    case nothing is forwarded. *)
Theorem rns_transport_route_link_spec t id ingress hops e clk now e1 f tx :
  wf t -> t.(config).(clock) = Some clk -> clk e = (now, e1) ->
  exists r t' f' tx' e', rns_transport_route_link_transaction t id ingress hops (Some f) tx e
      = (r, t', Some f', tx', e') /\
    routed t id ingress hops clk now e1 tx (rns_transport_link_lookup t id e).1.2 r t' f' tx' e'.
Proof. apply route_link_spec. Qed.

(** *** Rollback *)

(** The successful mutations that a transaction records. *)
Inductive recorded t e : rns_transport E -> rns_transport_transaction -> Prop :=
| RecordedReverse h received outbound t' tx e' :
    rns_transport_record_reverse_transaction t h received outbound (Some TransactionNone) e = (true, t', Some tx, e') ->
    recorded t e t' tx
| RecordedRequest id path received taken t' tx e' :
    rns_transport_record_link_request_transaction t id path received taken (Some TransactionNone) e =
      (true, t', Some tx, e') -> recorded t e t' tx
| RecordedProof id proof ingress hops t' f tx e' :
    rns_transport_accept_link_proof_transaction t id (SBytes proof) ingress hops (Some 0) (Some TransactionNone) e =
      Some (RNS_LINK_ROUTE_MATCHED, t', f, Some tx, e') -> recorded t e t' tx
| RecordedRoute id ingress hops t' f tx e' :
    rns_transport_route_link_transaction t id ingress hops (Some 0) (Some TransactionNone) e =
      (RNS_LINK_ROUTE_MATCHED, t', f, Some tx, e') -> recorded t e t' tx.

Lemma insert_back {A} (l : list A) i x y : l !! i = Some x -> <[i := x]> (<[i := y]> l) = l.
Proof. intros Hi. rewrite list_insert_insert_eq. by apply list_insert_id. Qed.

Lemma put_back {A} (l : list A) i x y : l !! i = Some x -> put i x (<[i := y]> l) = Some l.
Proof. intros Hi. rewrite put_in; [by rewrite insert_back|]. rewrite length_insert. by eapply lookup_lt_Some. Qed.

Lemma rollback_link t ls i x y :
  wf t -> t.(links) = Some ls -> ls !! i = Some x ->
  rns_transport_transaction_rollback (set_link t i y) (TransactionLink i x) = (true, t, TransactionNone).
Proof.
  intros Hwf Hls Hi. destruct (wf_links _ Hwf) as (ls' & Hls' & Hl & _). rewrite Hls in Hls'. injection Hls' as <-.
  unfold rns_transport_transaction_rollback, set_link. simpl. rewrite Hls. simpl. rewrite (put_lookup _ _ _ _ Hi).
  apply lookup_lt_Some in Hi as Hlt. rewrite (proj2 (Z.leb_gt _ _)) by lia. rewrite put_back by done.
  rewrite <-Hls. by destruct t.
Qed.

Lemma rollback_recorded t e t' tx :
  wf t -> recorded t e t' tx -> rns_transport_transaction_rollback t' tx = (true, t, TransactionNone).
Proof.
  intros Hwf Hrec. destruct (ok_clock _ (wf_config _ Hwf)) as [clk Hc].
  destruct (wf_links _ Hwf) as (ls & Hls & Hll & Hlne & _). destruct (wf_reverse _ Hwf) as (rs & Hrs & Hrl & Hrne).
  destruct Hrec as [h received outbound t' tx e' Hop|id path received taken t' tx e' Hop|id proof ingress hops t' f tx e' Hop
    |id ingress hops t' f tx e' Hop].
  - unfold rns_transport_record_reverse_transaction in Hop. rewrite Hrs, Hc in Hop. destruct (clk e) as [now e1].
    destruct (isfinite now); [|done]. cbn [negb] in Hop. unfold oldest_reverse_slot in Hop. rewrite put_slot in Hop by done.
    fold (oldest_reverse_slot now rs) in Hop. injection Hop as <- <- _.
    destruct (replacement_slot_spec (λ x, negb x.(reverse_occupied) || (now >=.? x.(reverse_expires_at)))
      reverse_created_at rs Hrne) as (y & Hy & _). fold (oldest_reverse_slot now rs) in Hy. rewrite Hy. simpl.
    unfold rns_transport_transaction_rollback. simpl. apply lookup_lt_Some in Hy as Hlt.
    rewrite (proj2 (Z.leb_gt _ _)) by lia. rewrite put_back by done. rewrite <-Hrs. by destruct t.
  - unfold rns_transport_record_link_request_transaction in Hop. destruct path as [path|]; [|done].
    rewrite Hls, Hc in Hop. destruct (_ || _) in Hop; [done|]. destruct (clk e) as [now e1].
    destruct (_ || _) in Hop; [done|]. unfold oldest_link_slot in Hop. rewrite put_slot in Hop by done.
    fold (oldest_link_slot now ls) in Hop. injection Hop as <- <- _.
    destruct (replacement_slot_spec (λ x, negb x.(link_occupied) || (now >=.? link_deadline x))
      link_created_at ls Hlne) as (y & Hy & _). fold (oldest_link_slot now ls) in Hy. rewrite Hy. simpl.
    unfold rns_transport_transaction_rollback. simpl. apply lookup_lt_Some in Hy as Hlt.
    rewrite (proj2 (Z.leb_gt _ _)) by lia. rewrite put_back by done. rewrite <-Hls. by destruct t.
  - destruct (accept_proof_spec t id proof ingress hops e clk 0 (Some TransactionNone) Hwf Hc)
      as (r & t2 & f2 & tx2 & e2 & Hop2 & Hm & _). rewrite Hop in Hop2. injection Hop2 as <- <- -> <- <-.
    destruct (Hm eq_refl) as (i & x & now & Hi & _ & _ & _ & _ & _ & [= ->] & ->).
    rewrite Hls in Hi. by eapply rollback_link.
  - destruct (clk e) as [now e1] eqn:Hnow.
    destruct (route_link_spec t id ingress hops e clk now e1 0 (Some TransactionNone) Hwf Hc Hnow)
      as (r & t2 & f2 & tx2 & e2 & Hop2 & Hm & _). rewrite Hop in Hop2. injection Hop2 as <- <- -> <- <-.
    destruct (Hm eq_refl) as (i & x & now2 & Hi & _ & _ & _ & _ & _ & [= ->] & ->).
    rewrite Hls in Hi. by eapply rollback_link.
Qed.

(** Rollback is exact. Undoing a recorded forwarding mutation - a reverse
    path, a link request, a link proof or a routed link packet - restores the
    transport to the very state before the mutation. *)
Theorem transaction_rollback_exact t e t' tx :
  wf t -> recorded t e t' tx -> rns_transport_transaction_rollback t' tx = (true, t, TransactionNone).
Proof. apply rollback_recorded. Qed.
End Links.

(** ** Expiry, and any use of the tables *)
Section Reachable.
Context `{Crypto} {E : Type}.
Implicit Types (t : rns_transport E) (e : E).

Lemma expire_table_spec {A} (expired : A -> bool) (zero : A) (l l' : list A) n :
  expired zero = false -> expire_table expired zero l = (l', n) ->
  length l' = length l /\ (forall i y, l' !! i = Some y -> expired y = false) /\
  (forall i x, l !! i = Some x -> expired x = false -> l' !! i = Some x) /\
  (forall i y, l' !! i = Some y -> y = zero \/ l !! i = Some y).
Proof.
  intros Hz. unfold expire_table. intros [= <- _]. rewrite length_fmap. split_and!; [done|..].
  - intros i y Hy. apply list_lookup_fmap_Some in Hy as (x & -> & _). destruct (expired x) eqn:Hx; done.
  - intros i x Hi Hx. rewrite list_lookup_fmap, Hi. simpl. by rewrite Hx.
  - intros i y Hy. apply list_lookup_fmap_Some in Hy as (x & -> & Hi). destruct (expired x); auto.
Qed.

Lemma wf_nonempty {A} (l l' : list A) : length l' = length l -> l <> [] -> l' <> [].
Proof. intros Hl Hne ->. by destruct l. Qed.

Lemma expire_wf t e : wf t -> wf (rns_transport_expire t e).1.2.
Proof.
  intros Hwf. unfold rns_transport_expire. destruct (ok_clock _ (wf_config _ Hwf)) as [clk Hc]. rewrite Hc.
  destruct (clk e) as [now e1]. case_match; [done|]. destruct Hwf as [Hcfg (ps & Hps & Hpl & Hpn & Hpok) (ds & Hds & Hdl & Hdn)
    (rs & Hrs & Hrl & Hrn) (ls & Hls & Hll & Hln & Hlok)]. rewrite Hps, Hds, Hrs, Hls. cbn [default].
  unfold default, id. cbn [from_option].
  destruct (expire_table (path_expired now) zero_path ps) as [ps' np] eqn:Ep.
  destruct (expire_table (dedupe_expired now) zero_dedupe ds) as [ds' nd] eqn:Ed.
  destruct (expire_table (reverse_expired now) zero_reverse rs) as [rs' nr] eqn:Er.
  destruct (expire_table (link_expired now) zero_link ls) as [ls' nl] eqn:El.
  apply expire_table_spec in Ep as (Lp & _ & _ & Kp), Ed as (Ld & _), Er as (Lr & _), El as (Ll & _ & _ & Kl); try done.
  constructor; simpl; [done|..].
  - exists ps'. split_and!; [done|by rewrite Lp|by eapply wf_nonempty|]. constructor.
    + intros i j x y Hi Hj Hx Hy Ed. destruct (Kp i x Hi) as [->|Hi']; [done|]. destruct (Kp j y Hj) as [->|Hj']; [done|].
      by apply (paths_distinct _ _ Hpok i j x y).
    + intros i x Hi. destruct (Kp i x Hi) as [->|Hi']; [simpl; lia|by eapply paths_blobs].
    + intros i x Hi. destruct (Kp i x Hi) as [->|Hi']; [done|by eapply paths_keys].
  - exists ds'. split_and!; [done|by rewrite Ld|by eapply wf_nonempty].
  - exists rs'. split_and!; [done|by rewrite Lr|by eapply wf_nonempty].
  - exists ls'. split_and!; [done|by rewrite Ll|by eapply wf_nonempty|]. apply Forall_lookup. intros i x Hi.
    destruct (Kl i x Hi) as [->|Hi']; [done|]. exact (Forall_lookup_1 _ _ _ _ Hlok Hi').
Qed.

(** [rns_transport_expire] at a finite clock value clears exactly the expired
    entries of all four tables, in place, counts them, and keeps the tables well
    formed. *)
Theorem rns_transport_expire_spec t e clk now e1 ps ds rs ls :
  wf t -> t.(config).(clock) = Some clk -> clk e = (now, e1) -> isfinite now = true ->
  t.(paths) = Some ps -> t.(dedupe) = Some ds -> t.(reverse_paths) = Some rs -> t.(links) = Some ls ->
  exists n t' ps' ds' rs' ls', rns_transport_expire t e = (n, t', e1) /\ wf t' /\
    t' = {| t with paths := Some ps'; dedupe := Some ds'; reverse_paths := Some rs'; links := Some ls' |} /\
    n = (length (filter (λ x, path_expired now x = true) ps) + length (filter (λ x, dedupe_expired now x = true) ds) +
         length (filter (λ x, reverse_expired now x = true) rs) + length (filter (λ x, link_expired now x = true) ls))%nat /\
    (forall i x, ps !! i = Some x -> ps' !! i = Some (if path_expired now x then zero_path else x)) /\
    (forall i x, ds !! i = Some x -> ds' !! i = Some (if dedupe_expired now x then zero_dedupe else x)) /\
    (forall i x, rs !! i = Some x -> rs' !! i = Some (if reverse_expired now x then zero_reverse else x)) /\
    (forall i x, ls !! i = Some x -> ls' !! i = Some (if link_expired now x then zero_link else x)).
Proof.
  intros Hwf Hc Hnow Hfin Hps Hds Hrs Hls. pose proof (expire_wf t e Hwf) as Hwf'.
  unfold rns_transport_expire in *. rewrite Hc, Hnow, Hfin, Hps, Hds, Hrs, Hls in *. cbn [negb fst snd] in *.
  eexists _, _, _, _, _, _. split; [done|]. split; [exact Hwf'|]. split; [done|]. split; [done|].
  split_and!; intros i x Hi; cbn -[fmap list_fmap]; by rewrite list_lookup_fmap, Hi.
Qed.

Inductive transport_op : Type :=
| OpExpire
| OpLookup (d : list Z)
| OpUnresponsive (d : list Z)
| OpAnnounce (d nh : list Z) (ifc g h : Z) (blob ph : list Z)
| OpIdentity (d : list Z) (k : option (list Z))
| OpAccept (h : list Z)
| OpRecordReverse (h : list Z) (received outbound : Z)
| OpConsumeReverse (h : list Z) (ingress : Z) (f : option Z)
| OpRecordLink (id : list Z) (path : option rns_path_entry) (received taken : Z)
| OpProof (id : list Z) (proof : slice) (ingress hops : Z) (f : option Z)
| OpRoute (id : list Z) (ingress hops : Z) (f : option Z)
| OpForget (id : list Z)
| OpRollback (transaction : rns_transport_transaction).

(** Keys have the size of their C array type. *)
Definition op_ok (op : transport_op) : Prop :=
  match op with
  | OpAnnounce _ nh _ _ _ _ _ => length nh = 16%nat
  | OpIdentity _ (Some k) => length k = 64%nat
  | OpRecordLink _ (Some p) _ _ => length p.(identity_public_key) = 64%nat
  | OpRollback (TransactionLink _ previous) => length previous.(destination_public_key) = 64%nat
  | _ => True
  end.

Definition run_op (op : transport_op) t e : option (rns_transport E * E) :=
  match op with
  | OpExpire => let '(_, t, e) := rns_transport_expire t e in Some (t, e)
  | OpLookup d => let '(_, t, e) := rns_transport_lookup t d e in Some (t, e)
  | OpUnresponsive d => let '(_, t, e) := rns_transport_mark_unresponsive t d e in Some (t, e)
  | OpAnnounce d nh ifc g h blob ph =>
      let '(_, t, e) := rns_transport_consider_announce t d nh ifc g h blob ph e in Some (t, e)
  | OpIdentity d k => let '(_, t, e) := rns_transport_set_path_identity t d k e in Some (t, e)
  | OpAccept h => let '(_, t, e) := rns_transport_accept_packet_hash t h e in Some (t, e)
  | OpRecordReverse h r o => let '(_, t, e) := rns_transport_record_reverse t h r o e in Some (t, e)
  | OpConsumeReverse h i f => let '(_, t, _, e) := rns_transport_consume_reverse t h i f e in Some (t, e)
  | OpRecordLink id p r k => let '(_, t, e) := rns_transport_record_link_request t id p r k e in Some (t, e)
  | OpProof id p i h f => r ← rns_transport_accept_link_proof t id p i h f e; let '(_, t, _, e) := r in Some (t, e)
  | OpRoute id i h f => let '(_, t, _, e) := rns_transport_route_link t id i h f e in Some (t, e)
  | OpForget id => let '(_, t, e) := rns_transport_forget_link t id e in Some (t, e)
  | OpRollback tx => let '(_, t, _) := rns_transport_transaction_rollback t tx in Some (t, e)
  end.

Fixpoint run_ops (ops : list transport_op) t e : option (rns_transport E * E) :=
  match ops with
  | [] => Some (t, e)
  | op :: ops => r ← run_op op t e; let '(t, e) := r in run_ops ops t e
  end.

(** A table replaced by one of the same size. *)
Lemma dedupe_wf t ds ds' :
  wf t -> t.(dedupe) = Some ds -> length ds' = length ds -> wf {| t with dedupe := Some ds' |}.
Proof.
  intros [Hc Hp (d & Hd & Hl & Hne) Hr Hk] Hds Hlen. rewrite Hds in Hd. injection Hd as <-.
  constructor; simpl; try done. exists ds'. split_and!; [done|by rewrite Hlen|by eapply wf_nonempty].
Qed.

Lemma reverse_wf t rs rs' :
  wf t -> t.(reverse_paths) = Some rs -> length rs' = length rs -> wf {| t with reverse_paths := Some rs' |}.
Proof.
  intros [Hc Hp Hd (r & Hr & Hl & Hne) Hk] Hrs Hlen. rewrite Hrs in Hr. injection Hr as <-.
  constructor; simpl; try done. exists rs'. split_and!; [done|by rewrite Hlen|by eapply wf_nonempty].
Qed.

(** What a lookup returns is an occupied entry of the table. *)
Lemma lookup_wf t d e :
  wf t -> let '(r, t', _) := rns_transport_lookup t d e in
  wf t' /\ t'.(config) = t.(config) /\
  (forall i, r = Some i -> t' = t /\ exists ps x, t.(paths) = Some ps /\ ps !! i = Some x /\
     path_at t i = x /\ path_matches d x = true).
Proof.
  intros Hwf. unfold rns_transport_lookup. destruct (wf_paths _ Hwf) as (ps & Hps & Hl & Hne & Hok).
  destruct (ok_clock _ (wf_config _ Hwf)) as [clk Hc]. rewrite Hps, Hc. destruct (clk e) as [now e1].
  destruct (negb (isfinite now)); [done|]. destruct (find_index (path_matches d) ps) as [i|] eqn:Hf; [|done].
  apply find_index_Some in Hf as (x & Hi & Hm & _). rewrite Hi. destruct (negb (live now (path_expires_at x))).
  - split; [|done]. eapply set_path_wf; try done. simpl. lia.
  - split; [done|]. split; [done|]. intros j [= <-]. split; [done|]. exists ps, x. split_and!; try done.
    unfold path_at. rewrite Hps. simpl. by rewrite Hi.
Qed.

(** Updating a found entry without touching its destination. *)
Lemma update_found_wf t i x ps d (y : rns_path_entry) :
  wf t -> t.(paths) = Some ps -> ps !! i = Some x -> path_matches d x = true ->
  y.(path_destination) = x.(path_destination) -> y.(random_blobs) = x.(random_blobs) ->
  sized_path y -> wf (set_path t i y).
Proof.
  intros Hwf Hps Hi Hm Hd Hb Hk. destruct (wf_paths _ Hwf) as (ps' & Hps' & _ & _ & Hok).
  rewrite Hps in Hps'. injection Hps' as <-. apply path_matches_true in Hm as [Ho _].
  eapply set_path_wf; try done; [rewrite Hb; by eapply paths_blobs|].
  intros j z Hj Hz _ Hzd. apply (paths_distinct _ _ Hok j i z x); congruence.
Qed.

Lemma announce_wf t d nh ifc g h blob ph e :
  wf t -> length nh = 16%nat -> wf (rns_transport_consider_announce t d nh ifc g h blob ph e).1.2.
Proof.
  intros Hwf Hnh. destruct (wf_paths _ Hwf) as (ps & Hps & _). destruct (ok_clock _ (wf_config _ Hwf)) as [clk Hc].
  destruct (clk e) as [now e1] eqn:Hnow. destruct (isfinite now) eqn:Hfin.
  - destruct (consider_announce_cases t e d nh ifc g h blob ph clk now e1 ps Hwf Hc Hnow Hfin Hps)
      as [(x & _ & _ & _ & _ & ->)|(r & old & _ & Hold & _ & ->)]; [done|]. by apply announce_write_wf.
  - unfold rns_transport_consider_announce. by rewrite Hps, Hc, Hnow, Hfin.
Qed.

Lemma accept_wf t h e : wf t -> wf (rns_transport_accept_packet_hash t h e).1.2.
Proof.
  intros Hwf. destruct (wf_dedupe _ Hwf) as (ds & Hds & _ & Hne). destruct (ok_clock _ (wf_config _ Hwf)) as [clk Hc].
  destruct (clk e) as [now e1] eqn:Hnow. destruct (isfinite now) eqn:Hfin.
  - destruct (accept_cases t h e clk now e1 ds Hds Hc Hnow Hfin Hne) as (ds' & Hcl & Hcase).
    pose proof (Forall2_length Hcl). destruct Hcase as [[_ ->]|(_ & _ & ->)]; eapply dedupe_wf; try done.
    by rewrite length_insert.
  - unfold rns_transport_accept_packet_hash. by rewrite Hds, Hc, Hnow, Hfin.
Qed.

Lemma record_reverse_tx_wf t h r o tx e : wf t -> wf (rns_transport_record_reverse_transaction t h r o tx e).1.1.2.
Proof.
  intros Hwf. unfold rns_transport_record_reverse_transaction.
  destruct (wf_reverse _ Hwf) as (rs & Hrs & _ & Hne). destruct (ok_clock _ (wf_config _ Hwf)) as [clk Hc]. rewrite Hrs, Hc.
  destruct (clk e) as [now e1]. destruct (negb (isfinite now)); [done|]. simpl. unfold oldest_reverse_slot. rewrite put_slot by done.
  eapply reverse_wf; [done|done|]. by rewrite length_insert.
Qed.

Lemma record_reverse_wf t h r o e : wf t -> wf (rns_transport_record_reverse t h r o e).1.2.
Proof.
  intros Hwf. pose proof (record_reverse_tx_wf t h r o None e Hwf). unfold rns_transport_record_reverse.
  by destruct (rns_transport_record_reverse_transaction t h r o None e) as [[[b t'] tx] e'].
Qed.

Lemma consume_reverse_wf t h i f e : wf t -> wf (rns_transport_consume_reverse t h i f e).1.1.2.
Proof.
  intros Hwf. unfold rns_transport_consume_reverse. destruct (wf_reverse _ Hwf) as (rs & Hrs & _).
  destruct (ok_clock _ (wf_config _ Hwf)) as [clk Hc]. rewrite Hrs, Hc. destruct f as [f|]; [|done]. simpl.
  destruct (clk e) as [now e1]. destruct (negb (isfinite now)); [done|].
  destruct (find_index _ rs) as [k|] eqn:Hf; [|done]. apply find_index_Some in Hf as (x & Hk & _). rewrite (put_lookup _ _ _ _ Hk).
  assert (wf {| t with reverse_paths := Some (<[k := zero_reverse]> rs) |}) as Hw
    by (eapply reverse_wf; [done|done|by rewrite length_insert]).
  destruct (_ >=.? _); [exact Hw|]. destruct (negb _); exact Hw.
Qed.

Lemma record_link_tx_wf t id p r k tx e :
  wf t -> op_ok (OpRecordLink id p r k) -> wf (rns_transport_record_link_request_transaction t id p r k tx e).1.1.2.
Proof.
  intros Hwf Hok. unfold rns_transport_record_link_request_transaction.
  destruct (wf_links _ Hwf) as (ls & Hls & _ & Hne & _). destruct (ok_clock _ (wf_config _ Hwf)) as [clk Hc].
  destruct p as [p|]; [|done]. rewrite Hls, Hc. destruct (_ || _); [done|]. destruct (clk e) as [now e1].
  destruct (_ || _); [done|]. simpl.
  destruct (replacement_slot_spec (λ x, negb x.(link_occupied) || (now >=.? link_deadline x)) link_created_at ls Hne) as (y & Hy & _).
  apply lookup_lt_Some in Hy. match goal with |- wf {| config := _; paths := _; dedupe := _; reverse_paths := _; links := put _ ?x ls |} =>
    pose proof (set_link_wf t (oldest_link_slot now ls) x ls Hwf Hls Hy Hok) as Hw end.
  unfold set_link in Hw. rewrite Hls in Hw. exact Hw.
Qed.

Lemma record_link_wf t id p r k e :
  wf t -> op_ok (OpRecordLink id p r k) -> wf (rns_transport_record_link_request t id p r k e).1.2.
Proof.
  intros Hwf Hok. pose proof (record_link_tx_wf t id p r k None e Hwf Hok). unfold rns_transport_record_link_request.
  by destruct (rns_transport_record_link_request_transaction t id p r k None e) as [[[b t'] tx] e'].
Qed.

Lemma found_link_wf t ls i x y :
  wf t -> t.(links) = Some ls -> ls !! i = Some x -> y.(destination_public_key) = x.(destination_public_key) ->
  wf (set_link t i y).
Proof.
  intros Hwf Hls Hi Hy. eapply set_link_wf; [done|done|by eapply lookup_lt_Some|]. rewrite Hy.
  destruct (wf_links _ Hwf) as (ls' & Hls' & _ & _ & Hok). rewrite Hls in Hls'. injection Hls' as <-.
  exact (Forall_lookup_1 _ _ _ _ Hok Hi).
Qed.

Lemma route_tx_wf t id i h f tx e : wf t -> wf (rns_transport_route_link_transaction t id i h (Some f) tx e).1.1.1.2.
Proof.
  intros Hwf. destruct (ok_clock _ (wf_config _ Hwf)) as [clk Hc]. destruct (clk e) as [now e1] eqn:Hnow.
  destruct (route_link_spec t id i h e clk now e1 f tx Hwf Hc Hnow) as (r & t' & f' & tx' & e' & -> & Hm & Hn).
  simpl. destruct (decide (r = RNS_LINK_ROUTE_MATCHED)) as [Hr|Hr].
  - destruct (Hm Hr) as (j & x & now' & Hj & _ & _ & _ & _ & _ & _ & ->).
    destruct (wf_links _ Hwf) as (ls & Hls & _). rewrite Hls in Hj. by eapply found_link_wf.
  - destruct (Hn Hr) as (_ & _ & ->). by apply link_lookup_wf.
Qed.

Lemma route_wf t id i h f e : wf t -> wf (rns_transport_route_link t id i h f e).1.1.2.
Proof.
  intros Hwf. unfold rns_transport_route_link. destruct f as [f|].
  - pose proof (route_tx_wf t id i h f None e Hwf).
    by destruct (rns_transport_route_link_transaction t id i h (Some f) None e) as [[[[r t'] f'] tx'] e'].
  - unfold rns_transport_route_link_transaction. simpl. pose proof (link_lookup_wf t id e Hwf) as Hl.
    destruct (rns_transport_link_lookup t id e) as [[r t'] e']. by destruct r.
Qed.

Lemma accept_proof_tx_wf t id p i h f tx e :
  wf t -> exists r t' f' tx' e', rns_transport_accept_link_proof_transaction t id (SBytes p) i h (Some f) tx e =
    Some (r, t', Some f', tx', e') /\ wf t'.
Proof.
  intros Hwf. destruct (ok_clock _ (wf_config _ Hwf)) as [clk Hc].
  destruct (accept_proof_spec t id p i h e clk f tx Hwf Hc) as (r & t' & f' & tx' & e' & -> & Hm & Hn).
  eexists _, _, _, _, _. split; [done|]. destruct (decide (r = RNS_LINK_ROUTE_MATCHED)) as [Hr|Hr].
  - destruct (Hm Hr) as (j & x & now' & Hj & _ & _ & _ & _ & _ & _ & ->).
    destruct (wf_links _ Hwf) as (ls & Hls & _). rewrite Hls in Hj. by eapply found_link_wf.
  - destruct (Hn Hr) as (_ & _ & ->). by apply link_lookup_wf.
Qed.

Lemma accept_proof_wf t id p i h f e :
  wf t -> exists r t' f' e', rns_transport_accept_link_proof t id p i h f e = Some (r, t', f', e') /\ wf t'.
Proof.
  intros Hwf. unfold rns_transport_accept_link_proof. pose proof (link_lookup_wf t id e Hwf) as Hl.
  destruct f as [f|], p as [n|p].
  2:{ destruct (accept_proof_tx_wf t id p i h f None e Hwf) as (r & t' & f' & tx' & e' & -> & Hw). simpl. eauto 10. }
  all: unfold rns_transport_accept_link_proof_transaction; destruct (rns_transport_link_lookup t id e) as [[r t'] e'];
    destruct r; simpl; repeat case_match; simpl; simplify_eq; eexists _, _, _, _; split; done.
Qed.

Lemma found_sized t ps i x : wf t -> t.(paths) = Some ps -> ps !! i = Some x -> sized_path x.
Proof.
  intros Hwf Hps Hi. destruct (wf_paths _ Hwf) as (ps' & Hps' & _ & _ & Hpok).
  rewrite Hps in Hps'. injection Hps' as <-. by eapply paths_keys.
Qed.

Lemma set_identity_wf t d k e :
  wf t -> length k = 64%nat -> wf (rns_transport_set_path_identity t d (Some k) e).1.2.
Proof.
  intros Hwf Hk. unfold rns_transport_set_path_identity. pose proof (lookup_wf t d e Hwf) as Hl.
  destruct (rns_transport_lookup t d e) as [[[i|] t'] e']; destruct Hl as (Hw & _ & Hf); [|done].
  destruct (Hf i eq_refl) as (-> & ps & x & Hps & Hi & Hat & Hm). rewrite Hat.
  eapply update_found_wf; try done. split; [done|]. by apply (found_sized t ps i x).
Qed.

Lemma forget_wf t id e : wf t -> wf (rns_transport_forget_link t id e).1.2.
Proof.
  intros Hwf. unfold rns_transport_forget_link. pose proof (link_lookup_wf t id e Hwf) as Hl. destruct (wf_links _ Hwf) as (ls & Hls & _).
  destruct (ok_clock _ (wf_config _ Hwf)) as [clk Hc]. destruct (clk e) as [now e1] eqn:Hnow.
  destruct (link_lookup_cases t id e clk now e1 ls Hls Hc Hnow) as [(i & x & Hi & _ & _ & _ & _ & E')|(t' & E' & _)]; rewrite E' in *; [|done].
  eapply set_link_wf; [done|done|by eapply lookup_lt_Some|done].
Qed.

(** A rollback writes where it was told to, inside the table. *)
Lemma rollback_wf t tx : wf t -> op_ok (OpRollback tx) -> wf (rns_transport_transaction_rollback t tx).1.2.
Proof.
  intros Hwf Hok. destruct tx as [|slot previous|slot previous]; [done|..]; simpl.
  - destruct (wf_reverse _ Hwf) as (rs & Hrs & Hl & _). rewrite Hrs. destruct (Z.leb_spec (reverse_capacity (config t)) (Z.of_nat slot)); [done|].
    simpl. rewrite put_in by lia. eapply reverse_wf; [done|done|]. by rewrite length_insert.
  - destruct (wf_links _ Hwf) as (ls & Hls & Hl & _). rewrite Hls. destruct (Z.leb_spec (link_capacity (config t)) (Z.of_nat slot)); [done|].
    pose proof (set_link_wf t slot previous ls Hwf Hls ltac:(lia) Hok) as Hw. unfold set_link in Hw. by rewrite Hls in Hw.
Qed.

Lemma run_op_wf op t e : wf t -> op_ok op -> exists t' e', run_op op t e = Some (t', e') /\ wf t'.
Proof.
  intros Hwf Hok. destruct op as [|d|d|d nh ifc g h blob ph|d k|h|h r o|h i f|id p r k|id p i h f|id i h f|id|tx]; simpl.
  - pose proof (expire_wf t e Hwf). destruct (rns_transport_expire t e) as [[n t'] e']. eauto.
  - pose proof (lookup_wf t d e Hwf) as Hl. destruct (rns_transport_lookup t d e) as [[r t'] e']. destruct Hl. eauto.
  - unfold rns_transport_mark_unresponsive. pose proof (lookup_wf t d e Hwf) as Hl.
    destruct (rns_transport_lookup t d e) as [[[i|] t'] e']; destruct Hl as (Hw & _ & Hf); [|eauto].
    destruct (Hf i eq_refl) as (-> & ps & x & Hps & Hi & Hat & Hm). rewrite Hat. eexists _, _. split; [done|].
    eapply update_found_wf; try done. by apply (found_sized t ps i x).
  - pose proof (announce_wf t d nh ifc g h blob ph e Hwf Hok).
    destruct (rns_transport_consider_announce _ _ _ _ _ _ _ _ _) as [[r t'] e']. eauto.
  - destruct k as [k|].
    + pose proof (set_identity_wf t d k e Hwf Hok).
      destruct (rns_transport_set_path_identity t d (Some k) e) as [[r t'] e']. eauto.
    + unfold rns_transport_set_path_identity. pose proof (lookup_wf t d e Hwf) as Hl.
      destruct (rns_transport_lookup t d e) as [[[i|] t'] e']; destruct Hl; eauto.
  - pose proof (accept_wf t h e Hwf). destruct (rns_transport_accept_packet_hash t h e) as [[b t'] e']. eauto.
  - pose proof (record_reverse_wf t h r o e Hwf). destruct (rns_transport_record_reverse t h r o e) as [[b t'] e']. eauto.
  - pose proof (consume_reverse_wf t h i f e Hwf). destruct (rns_transport_consume_reverse t h i f e) as [[[b t'] g'] e']. eauto.
  - pose proof (record_link_wf t id p r k e Hwf Hok). destruct (rns_transport_record_link_request t id p r k e) as [[b t'] e']. eauto.
  - destruct (accept_proof_wf t id p i h f e Hwf) as (r & t' & f' & e' & -> & ?). simpl. eauto.
  - pose proof (route_wf t id i h f e Hwf). destruct (rns_transport_route_link t id i h f e) as [[[b t'] g'] e']. eauto.
  - pose proof (forget_wf t id e Hwf). destruct (rns_transport_forget_link t id e) as [[b t'] e']. eauto.
  - pose proof (rollback_wf t tx Hwf Hok). destruct (rns_transport_transaction_rollback t tx) as [[b t'] tx']. eauto.
Qed.

Lemma link_defaults_fields (cfg : rns_transport_config E) :
  clock (link_defaults cfg) = clock cfg /\ random_blob_history (link_defaults cfg) = random_blob_history cfg /\
  path_capacity (link_defaults cfg) = path_capacity cfg /\ dedupe_capacity (link_defaults cfg) = dedupe_capacity cfg /\
  reverse_capacity (link_defaults cfg) = reverse_capacity cfg /\
  (0 <= link_capacity cfg -> 0 <= link_capacity (link_defaults cfg)).
Proof.
  unfold link_defaults. destruct (link_capacity cfg =? 0); simpl; destruct (SFeqb _ _); simpl;
    destruct (SFeqb _ _); simpl; split_and!; done.
Qed.

Lemma allocation_size_ok_nonzero n s : allocation_size_ok n s = true -> n <> 0.
Proof. unfold allocation_size_ok. rewrite andb_true_iff, negb_true_iff, Z.eqb_neq. tauto. Qed.

Lemma zeroed_table {A} (x : A) n :
  0 <= n -> n <> 0 -> Z.of_nat (length (replicate (Z.to_nat n) x)) = n /\ replicate (Z.to_nat n) x <> [].
Proof.
  intros Hn Hn0. rewrite length_replicate. split; [lia|]. intros E'. apply (f_equal length) in E'.
  rewrite length_replicate in E'. simpl in E'. lia.
Qed.

Lemma init_wf sizes ok (cfg : rns_transport_config E) t :
  0 <= cfg.(path_capacity) -> 0 <= cfg.(dedupe_capacity) -> 0 <= cfg.(reverse_capacity) -> 0 <= cfg.(link_capacity) ->
  rns_transport_init sizes ok cfg = Some t -> wf t.
Proof.
  intros Hp Hd Hr Hl Hi. destruct sizes as [[[s1 s2] s3] s4], ok as [[[k1 k2] k3] k4]. unfold rns_transport_init in Hi.
  destruct (link_defaults_fields cfg) as (F1 & F2 & F3 & F4 & F5 & F6). specialize (F6 Hl). revert Hi.
  match goal with |- (if ?g then _ else _) = _ -> _ => destruct g eqn:G end; [done|]. cbv zeta.
  match goal with |- (if ?g then _ else _) = _ -> _ => destruct g eqn:G2 end; [done|].
  match goal with |- (if ?g then _ else _) = _ -> _ => destruct g end; [done|]. intros [= <-].
  rewrite !orb_false_iff, !negb_false_iff in G. rewrite !orb_false_iff, !negb_false_iff in G2.
  destruct G as (((((((((((Gc & G1) & Gd) & Gr) & Gb) & Gb') & _) & _) & _) & _) & _) & _).
  destruct G2 as ((((Gl & _) & _) & _) & _). apply allocation_size_ok_nonzero in G1, Gd, Gr, Gl.
  rewrite <- F3 in Hp, G1. rewrite <- F4 in Hd, Gd. rewrite <- F5 in Hr, Gr.
  apply Nat.eqb_neq in Gb. apply Nat.ltb_ge in Gb'.
  constructor; simpl.
  - constructor; [rewrite F1; destruct (clock cfg); [by eexists|done]|rewrite F2; lia].
  - eexists. split; [done|]. destruct (zeroed_table zero_path _ Hp G1). split_and!; [done|done|].
    constructor; intros i; intros; repeat match goal with H : replicate _ _ !! _ = Some _ |- _ =>
        apply lookup_replicate in H as [-> _] end; simpl; done || lia.
  - eexists. split; [done|]. by apply zeroed_table.
  - eexists. split; [done|]. by apply zeroed_table.
  - eexists. split; [done|]. destruct (zeroed_table zero_link _ F6 Gl). split_and!; [done|done|].
    by apply Forall_replicate.
Qed.

(** C25: whatever sequence of operations a transport goes through after a
    successful initialisation, and whatever its clock answers, no operation reads or
    writes out of bounds - a write outside a table would leave none - and the
    tables stay well formed: all four are there with their configured sizes, there
    is at most one path per destination, blob histories stay bounded and stored
    keys have their size. A rollback is included for any transaction, also one
    that was not recorded: a slot outside the table is refused. *)
Theorem transport_run_safe sizes ok cfg t ops e :
  0 <= cfg.(path_capacity) -> 0 <= cfg.(dedupe_capacity) -> 0 <= cfg.(reverse_capacity) -> 0 <= cfg.(link_capacity) ->
  rns_transport_init sizes ok cfg = Some t -> Forall op_ok ops ->
  exists t' e', run_ops ops t e = Some (t', e') /\ wf t'.
Proof.
  intros Hp Hd Hr Hl Hinit Hops. pose proof (init_wf _ _ _ _ Hp Hd Hr Hl Hinit) as Hwf. clear Hinit.
  revert t e Hwf. induction Hops as [|op ops Hop Hops IH]; intros t e Hwf; simpl; [eauto|].
  destruct (run_op_wf op t e Hwf Hop) as (t1 & e1 & -> & Hwf1). simpl. auto.
Qed.
End Reachable.

(** ** A concrete transport: a clock that answers the next time of a list, four
    entries per table. *)
Definition sample_clock (e : list double) : double * list double :=
  match e with now :: rest => (now, rest) | [] => (dzero, []) end.

Definition times (l : list Z) : list double := d_of_Z <$> l.

Definition sample_config : rns_transport_config (list double) :=
  {| path_capacity := 4; dedupe_capacity := 4; reverse_capacity := 4; link_capacity := 4;
     random_blob_history := 2; path_lifetime := d_of_Z 100; dedupe_lifetime := d_of_Z 100;
     reverse_lifetime := d_of_Z 100; link_lifetime := d_of_Z 100; link_proof_timeout_per_hop := d_of_Z 6;
     clock := Some sample_clock |}.

Definition sample_sizes : Z * Z * Z * Z := (512, 64, 64, 256).

Definition sample_transport : rns_transport (list double) :=
  default rns_transport_free (rns_transport_init sample_sizes (true, true, true, true) sample_config).

Lemma sample_init : rns_transport_init sample_sizes (true, true, true, true) sample_config = Some sample_transport.
Proof. vm_compute. reflexivity. Qed.

Lemma sample_transport_wf : wf sample_transport.
Proof. eapply init_wf; [| | | |apply sample_init]; vm_compute; congruence. Qed.

Definition sample_hash : list Z := replicate 16 7.
Definition sample_blob : list Z := [1; 2; 3; 4; 5; 0; 0; 0; 0; 9].

Ltac concrete :=
  lazymatch goal with
  | |- wf _ => exact sample_transport_wf
  | |- _ = _ => vm_compute; reflexivity
  | |- _ <> _ => discriminate
  | |- _ < _ => vm_compute; reflexivity
  end.

Lemma path_request_roundtrip_witness :
  rns_path_request_parse (SBytes (sample_hash ++ [1; 2])) = Some (Some (request_of sample_hash None [1; 2])).
Proof.
  destruct (path_request_roundtrip sample_hash None [1; 2] (replicate 48 0) 48 0) as [_ H];
    [done|done|vm_compute; lia|simpl; lia|]. exact H.
Defined.

(** The table after one announce. *)
Definition sample_announced : rns_transport (list double) :=
  (rns_transport_consider_announce sample_transport sample_hash (replicate 16 8) 3 0 2 sample_blob
    (replicate 32 1) (times [10])).1.2.

Lemma announce_then_lookup_witness :
  exists i, rns_transport_lookup sample_announced sample_hash (times [50]) = (Some i, sample_announced, []) /\
    (path_at sample_announced i).(path_interface) = 3.
Proof.
  destruct (announce_then_lookup sample_transport (times [10]) sample_hash (replicate 16 8) 3 0 2 sample_blob (replicate 32 1)
    sample_clock (d_of_Z 10) [] RNS_PATH_INSERTED sample_announced (times [50]) (d_of_Z 50) []) as (_ & i & H & _ & Hi & _);
    try concrete.
  exists i. exact (conj H Hi).
Defined.

Lemma announce_replay_rejected_witness :
  rns_transport_consider_announce sample_announced sample_hash (replicate 16 9) 4 0 1 sample_blob (replicate 32 2)
    (times [50]) = (RNS_PATH_REJECTED, sample_announced, []).
Proof.
  apply (announce_replay_rejected sample_transport (times [10]) sample_hash (replicate 16 8) 3 0 2 sample_blob (replicate 32 1)
    sample_clock (d_of_Z 10) [] RNS_PATH_INSERTED sample_announced _ _ _ _ _ (times [50]) (d_of_Z 50) []);
    try concrete; lia.
Defined.

Definition sample_paths : list rns_path_entry := default [] sample_announced.(paths).
Definition sample_path : rns_path_entry := path_at sample_announced 0.

Lemma sample_announced_wf : wf sample_announced.
Proof. by apply announce_wf; [apply sample_transport_wf|]. Qed.

Lemma announce_freshness_witness :
  exists r t', rns_transport_consider_announce sample_announced sample_hash (replicate 16 9) 4 0 1 sample_blob
      (replicate 32 2) (times [50]) = (r, t', []) /\
    ((r = RNS_PATH_REJECTED /\ t' = sample_announced) \/
     (r = RNS_PATH_UPDATED /\ sample_path.(announce_timebase) <= random_blob_timebase sample_blob /\
      (sample_path.(announce_timebase) < random_blob_timebase sample_blob \/ sample_path.(interface_gravity) < 0) /\
      (path_heard_blob sample_path sample_blob = true -> sample_path.(interface_gravity) < 0))).
Proof.
  assert (rns_transport_consider_announce sample_announced sample_hash (replicate 16 9) 4 0 1 sample_blob
      (replicate 32 2) (times [50]) = (RNS_PATH_REJECTED, sample_announced, [])) as H by (vm_compute; reflexivity).
  eexists _, _. split; [exact H|].
  apply (announce_freshness sample_announced (times [50]) sample_hash (replicate 16 9) 4 0 1 sample_blob (replicate 32 2)
    sample_clock (d_of_Z 50) [] _ _ sample_paths 0 sample_path);
    [apply sample_announced_wf|vm_compute; reflexivity..|exact H].
Defined.

Definition sample_accepted : rns_transport (list double) :=
  (rns_transport_accept_packet_hash sample_transport (replicate 32 1) (times [10])).1.2.

Definition sample_reversed : rns_transport (list double) :=
  (rns_transport_record_reverse_transaction sample_transport (replicate 32 1) 3 4 None (times [10])).1.1.2.

Lemma reverse_path_consumed_once_witness :
  exists t2, rns_transport_consume_reverse sample_reversed (replicate 16 1) 4 (Some 0) (times [20]) =
      (RNS_REVERSE_MATCHED, t2, Some 3, []) /\
    forall ingress', rns_transport_consume_reverse t2 (replicate 16 1) ingress' (Some 0) (times [30]) =
      (RNS_REVERSE_MISSING, t2, Some 0, []).
Proof.
  apply (reverse_path_consumed_once sample_transport (replicate 32 1) 3 4 (times [10]) sample_clock (d_of_Z 10) []
    sample_reversed None 4 (times [20]) (d_of_Z 20) [] (times [30]) (d_of_Z 30) [] 0);
    try concrete.
  intros rs i x Hrs Hi. vm_compute in Hrs. apply (inj Some) in Hrs. subst rs.
  do 4 (destruct i as [|i]; [apply (inj Some) in Hi; by subst x|]). done.
Defined.

Lemma rns_transport_accept_link_proof_spec_witness :
  exists r t' f' tx' e', rns_transport_accept_link_proof_transaction sample_transport sample_hash (SBytes [1]) 3 2
      (Some 0) None (times [10; 11]) = Some (r, t', Some f', tx', e') /\
    proof_taken sample_transport sample_hash [1] 3 2 sample_clock (times [10; 11]) None r t' f' tx' e'.
Proof.
  apply (rns_transport_accept_link_proof_spec sample_transport sample_hash [1] 3 2 (times [10; 11]) sample_clock 0 None);
    [apply sample_transport_wf|reflexivity].
Defined.

Lemma rns_transport_route_link_spec_witness :
  exists r t' f' tx' e', rns_transport_route_link_transaction sample_transport sample_hash 3 2 (Some 0) None (times [10; 11])
      = (r, t', Some f', tx', e') /\
    routed sample_transport sample_hash 3 2 sample_clock (d_of_Z 10) (times [11]) None
      (rns_transport_link_lookup sample_transport sample_hash (times [10; 11])).1.2 r t' f' tx' e'.
Proof.
  apply (rns_transport_route_link_spec sample_transport sample_hash 3 2 (times [10; 11]) sample_clock (d_of_Z 10) (times [11]) 0 None);
    [apply sample_transport_wf|reflexivity..].
Defined.

Lemma transaction_rollback_exact_witness :
  rns_transport_transaction_rollback sample_reversed (TransactionReverse 0 zero_reverse)
    = (true, sample_transport, TransactionNone).
Proof.
  apply (rollback_recorded sample_transport (times [10])); [apply sample_transport_wf|].
  apply (RecordedReverse _ _ (replicate 32 1) 3 4 _ _ []). vm_compute. reflexivity.
Defined.

Lemma rns_transport_expire_spec_witness :
  exists n t', rns_transport_expire sample_announced (times [200]) = (n, t', []) /\ wf t'.
Proof.
  destruct (rns_transport_expire_spec sample_announced (times [200]) sample_clock (d_of_Z 200) [] sample_paths
    (replicate 4 zero_dedupe) (replicate 4 zero_reverse) (replicate 4 zero_link)) as (n & t' & ? & ? & ? & ? & H & Hwf & _);
    [apply sample_announced_wf|vm_compute; reflexivity..|]. exists n, t'. exact (conj H Hwf).
Defined.

Lemma transport_run_safe_witness :
  exists t' e', run_ops [OpAccept (replicate 32 1); OpRecordReverse (replicate 32 1) 3 4; OpRollback (TransactionReverse 7 zero_reverse); OpExpire; OpLookup sample_hash] sample_transport (times [10; 11; 12; 13]) = Some (t', e') /\ wf t'.
Proof.
  apply (transport_run_safe sample_sizes (true, true, true, true) sample_config);
    [vm_compute; congruence..|apply sample_init|repeat constructor].
Defined.

End Transport.
