(* ===== verification/Link.v ===== *)
(** * Links

    Models [src/link/link.c] and [include/reticulum/link.h]: the handshake that
    turns a destination's announced identity into a shared session key (request,
    proof, round-trip confirmation), the link's state machine, and the encryption
    of link traffic.

    The clock is a callback on its own context [E]; [None] is the null pointer,
    and calling it is undefined behaviour, the outer [option] of the operations
    that read it. Operations return the link as they leave it, also when they
    fail. Key generation takes its random choices as seeds. *)

From Stdlib Require Import ZArith SpecFloat Lia.
From stdpp Require Import relations.
From S2P Require Import Prelude Crypto Packet Identity.

Module Link.

Definition RNS_LINK_REQUEST_BYTES : nat := 67.
Definition RNS_LINK_PROOF_BYTES : nat := 99.
Definition RNS_LINK_MODE_AES256_CBC : Z := 1.
Definition RNS_LINK_MTU_MASK : Z := 0x1fffff.

Inductive rns_link_state : Type := RNS_LINK_PENDING | RNS_LINK_HANDSHAKE | RNS_LINK_ACTIVE | RNS_LINK_CLOSED.
Inductive rns_link_role : Type := RNS_LINK_INITIATOR | RNS_LINK_RESPONDER.

#[global] Instance rns_link_state_eq_dec : EqDecision rns_link_state.
Proof. solve_decision. Defined.
#[global] Instance rns_link_role_eq_dec : EqDecision rns_link_role.
Proof. solve_decision. Defined.

Record rns_link (E : Type) : Type := {
  role : rns_link_role;
  state : rns_link_state;
  clock : option (E -> double * E);
  request_time : double;
  deadline : double;
  rtt : double;
  activated_at : double;
  mtu : Z;
  mode : Z;
  link_id : list Z;
  private_key : list Z;
  public_key : list Z;
  signing_private : list Z;
  signing_public : list Z;
  peer_public : list Z;
  peer_signing_public : list Z;
  derived_key : list Z;
  remote_identity : Identity.rns_identity
}.
Arguments role {E}. Arguments state {E}. Arguments clock {E}. Arguments request_time {E}. Arguments deadline {E}.
Arguments rtt {E}. Arguments activated_at {E}. Arguments mtu {E}. Arguments mode {E}. Arguments link_id {E}.
Arguments private_key {E}. Arguments public_key {E}. Arguments signing_private {E}. Arguments signing_public {E}.
Arguments peer_public {E}. Arguments peer_signing_public {E}. Arguments derived_key {E}. Arguments remote_identity {E}.

(** A link after [memset] and the assignment of its role and state. *)
Definition fresh_link (E : Type) (r : rns_link_role) (s : rns_link_state) : rns_link E :=
  {| role := r; state := s; clock := None; request_time := dzero; deadline := dzero; rtt := dzero;
     activated_at := dzero; mtu := 0; mode := 0; link_id := replicate 16 0; private_key := replicate 32 0;
     public_key := replicate 32 0; signing_private := replicate 32 0; signing_public := replicate 32 0;
     peer_public := replicate 32 0; peer_signing_public := replicate 32 0; derived_key := replicate 64 0;
     remote_identity := Identity.zero_identity |}.

Section Assignments.
Context {E : Type}.
Implicit Types (l : rns_link E).

(** Assignments to one or several fields. *)
Definition set_state (s : rns_link_state) l : rns_link E := {| l with state := s |}.
Definition set_private (k : list Z) l : rns_link E := {| l with private_key := k |}.
Definition set_keys (k p : list Z) l : rns_link E := {| l with private_key := k; public_key := p |}.
Definition set_signing_private (k : list Z) l : rns_link E := {| l with signing_private := k |}.
Definition set_signing (k p : list Z) l : rns_link E := {| l with signing_private := k; signing_public := p |}.
Definition set_link_id (id : list Z) l : rns_link E := {| l with link_id := id |}.
Definition set_derived_key (k : list Z) l : rns_link E := {| l with derived_key := k |}.
Definition set_peer (p s : list Z) l : rns_link E := {| l with peer_public := p; peer_signing_public := s |}.
Definition set_active (now measured : double) (m : Z) l : rns_link E :=
  {| l with rtt := measured; mtu := m; state := RNS_LINK_ACTIVE; activated_at := now |}.
Definition set_request (f : E -> double * E) (now timeout : double) (m md : Z) l : rns_link E :=
  {| l with clock := Some f; request_time := now; deadline := dadd now timeout; mtu := m; mode := md |}.
Definition set_remote (i : Identity.rns_identity) l : rns_link E := {| l with remote_identity := i |}.
End Assignments.

(** ** Doubles on the wire *)

(** The 64 bits of a double. The sign and payload of a NaN are not determined by
    the value; the quiet NaN stands for them. *)
Definition double_bits (x : double) : Z :=
  match x with
  | S754_zero s => Z.shiftl (Z.b2z s) 63
  | S754_infinity s => Z.lor (Z.shiftl (Z.b2z s) 63) (Z.shiftl 2047 52)
  | S754_nan => Z.lor (Z.shiftl 2047 52) (Z.shiftl 1 51)
  | S754_finite s m e =>
      Z.lor (Z.shiftl (Z.b2z s) 63)
        (if Z.pos m <? 2 ^ 52 then Z.pos m else Z.lor (Z.shiftl (e + 1075) 52) (Z.pos m - 2 ^ 52))
  end.

Definition bits_double (bits : Z) : double :=
  let s := Z.testbit bits 63 in
  let ex := Z.land (Z.shiftr bits 52) 2047 in
  let frac := Z.land bits (2 ^ 52 - 1) in
  if ex =? 0 then (match frac with Z.pos m => S754_finite s m (-1074) | _ => S754_zero s end)
  else if ex =? 2047 then (if frac =? 0 then S754_infinity s else S754_nan)
  else (match frac + 2 ^ 52 with Z.pos m => S754_finite s m (ex - 1075) | _ => S754_nan end).

(** [for (i = 9; i > 1; --i) { out[i - 1] = (uint8_t)bits; bits >>= 8; }] *)
Fixpoint encode_bits (n : nat) (bits : Z) : list Z :=
  match n with
  | O => []
  | S n => encode_bits n (Z.shiftr bits 8) ++ [wrap8 bits]
  end.

Definition encode_double (value : double) : list Z := 0xcb :: encode_bits 8 (double_bits value).

(** The outer option is memory safety, the inner one the C result. *)
Definition decode_double (input : list Z) : option (option double) :=
  tag ← load input 0;
  if negb (tag =? 0xcb) then Some None
  else
    bytes ← memread input 1 8;
    let value := bits_double (shift_bytes bytes) in
    Some (if isfinite value && (value >=.? dzero) then Some value else None).

(** ** Signalling bytes *)

Definition rns_link_signalling_encode (mtu mode : Z) : option (list Z) :=
  if (mtu =? 0) || (RNS_LINK_MTU_MASK <? mtu) || negb (mode =? RNS_LINK_MODE_AES256_CBC) then None
  else
    let value := Z.lor (Z.land mtu RNS_LINK_MTU_MASK) (wrap32 (Z.shiftl (wrap32 (Z.shiftl mode 5)) 16)) in
    Some [wrap8 (Z.shiftr value 16); wrap8 (Z.shiftr value 8); wrap8 value].

(** The C result, the MTU and the mode; the option is memory safety. *)
Definition rns_link_signalling_decode (input : list Z) : option (bool * Z * Z) :=
  a ← load input 0; b ← load input 1; c ← load input 2;
  let value := Z.lor (Z.lor (Z.shiftl a 16) (Z.shiftl b 8)) c in
  let decoded_mode := wrap8 (Z.shiftr (Z.land a 0xe0) 5) in
  let mtu := Z.land value RNS_LINK_MTU_MASK in
  Some (negb (mtu =? 0) && (decoded_mode =? RNS_LINK_MODE_AES256_CBC), mtu, decoded_mode).

Section Operations.
Context `{Crypto} {E : Type}.
Implicit Types (l : rns_link E) (e : E).

Definition derive l : option (rns_link E) :=
  shared ← rns_x25519_exchange l.(private_key) l.(peer_public);
  k ← rns_hkdf_sha256 shared l.(link_id) [] 64;
  Some (set_derived_key k l).

Definition link_data_length_ok (n : nat) : bool := (n =? 64)%nat || (n =? 67)%nat.

(** The outer option is memory safety. *)
Definition rns_link_id_from_request_packet (raw : slice) : option (option (list Z)) :=
  match raw, Packet.rns_packet_decode raw with
  | SBytes r, Some packet =>
      let n_data := slice_length packet.(Packet.data) in
      if negb (packet.(Packet.packet_type) =? 2) || negb (link_data_length_ok n_data) then Some None
      else
        let source_offset := if packet.(Packet.header_type) =? Packet.RNS_PACKET_HEADER_2 then 18%nat else 2%nat in
        let n := (length r - n_data - source_offset + 64)%nat in
        flags ← load r 0;
        body ← memread r source_offset n;
        hashable ← store (replicate 500 0) 0 (Z.land flags 0x0f);
        hashable ← memcpy hashable 1 body;
        hashed ← memread hashable 0 (n + 1);
        Some (match rns_sha256 hashed with Some digest => Some (take 16 digest) | None => None end)
  | _, _ => Some None
  end.

(** The keys of a new link: given ones, or generated from a seed. *)
Definition link_x_keys (given : option (list Z)) (seed : list Z) : option (list Z * list Z) :=
  match given with
  | Some k => p ← rns_x25519_public_from_private k; Some (k, p)
  | None => rns_x25519_generate seed
  end.
Definition link_ed_keys (given : option (list Z)) (seed : list Z) : option (list Z * list Z) :=
  match given with
  | Some k => p ← rns_ed25519_public_from_private k; Some (k, p)
  | None => rns_ed25519_generate seed
  end.

Definition initiator_common l (destination : option Identity.rns_identity) (x_private s_private : option (list Z))
    (seed1 seed2 : list Z) (mtu' : Z) (timeout : double) (clk : option (E -> double * E)) e
    : bool * rns_link E * E :=
  match destination, clk, rns_link_signalling_encode mtu' RNS_LINK_MODE_AES256_CBC with
  | Some destination, Some f, Some _ =>
      if timeout <=.? dzero then (false, l, e)
      else
        let '(now, e) := f e in
        let z := fresh_link E RNS_LINK_INITIATOR RNS_LINK_PENDING in
        let l := set_remote destination (set_request f now timeout mtu' RNS_LINK_MODE_AES256_CBC z) in
        let l := match x_private with Some k => set_private k l | None => l end in
        match link_x_keys x_private seed1 with
        | None => (false, l, e)
        | Some (k, p) =>
            let l := set_keys k p l in
            let l := match s_private with Some k => set_signing_private k l | None => l end in
            match link_ed_keys s_private seed2 with
            | None => (false, l, e)
            | Some (k, p) => (true, set_signing k p l, e)
            end
        end
  | _, _, _ => (false, l, e)
  end.

Definition rns_link_initiator_init l (destination : option Identity.rns_identity) (seed1 seed2 : list Z) (mtu : Z)
    (timeout : double) (clk : option (E -> double * E)) e : bool * rns_link E * E :=
  initiator_common l destination None None seed1 seed2 mtu timeout clk e.

Definition rns_link_initiator_init_keys l (destination : option Identity.rns_identity)
    (x_private s_private : option (list Z)) (mtu : Z) (timeout : double) (clk : option (E -> double * E)) e
    : bool * rns_link E * E :=
  match x_private, s_private with
  | Some _, Some _ => initiator_common l destination x_private s_private [] [] mtu timeout clk e
  | _, _ => (false, l, e)
  end.

Definition rns_link_build_request_payload l : option (list Z) :=
  if negb (bool_decide (l.(role) = RNS_LINK_INITIATOR)) || negb (bool_decide (l.(state) = RNS_LINK_PENDING)) then None
  else
    s ← rns_link_signalling_encode l.(mtu) l.(mode);
    Some (l.(public_key) ++ l.(signing_public) ++ s).

Definition rns_link_initiator_set_request_packet l (raw : slice) : option (bool * rns_link E) :=
  if negb (bool_decide (l.(role) = RNS_LINK_INITIATOR)) || negb (bool_decide (l.(state) = RNS_LINK_PENDING))
  then Some (false, l)
  else
    match Packet.rns_packet_decode raw with
    | None => Some (false, l)
    | Some packet =>
        if negb (slice_length packet.(Packet.data) =? 67)%nat then Some (false, l)
        else
          match rns_link_build_request_payload l with
          | None => Some (false, l)
          | Some expected =>
              if negb (memeq (slice_bytes packet.(Packet.data)) expected) then Some (false, l)
              else
                id ← rns_link_id_from_request_packet raw;
                match id with
                | None => Some (false, l)
                | Some id => Some (true, set_link_id id l)
                end
          end
    end.

(** The MTU and mode a request proposes; the outer option is memory safety. *)
Definition request_signalling (d : list Z) : option (option (Z * Z)) :=
  if (length d =? 67)%nat then
    bytes ← memread d 64 3;
    r ← rns_link_signalling_decode bytes;
    let '(ok, mtu, mode) := r in Some (if (ok : bool) then Some (mtu, mode) else None)
  else Some (Some (Z.of_nat Packet.RNS_MTU, RNS_LINK_MODE_AES256_CBC)).

Definition responder_common l (identity : option Identity.rns_identity) (given : option (list Z)) (seed : list Z)
    (raw : slice) (timeout : double) (clk : option (E -> double * E)) e : option (bool * rns_link E * E) :=
  match identity, clk, Packet.rns_packet_decode raw with
  | Some identity, Some f, Some packet =>
      let d := slice_bytes packet.(Packet.data) in
      if negb identity.(Identity.has_private) || (timeout <=.? dzero) || negb (packet.(Packet.packet_type) =? 2) ||
         negb (link_data_length_ok (slice_length packet.(Packet.data))) then Some (false, l, e)
      else
        s ← request_signalling d;
        match s with
        | None => Some (false, l, e)
        | Some (mtu', mode') =>
            let mtu' := if Z.of_nat Packet.RNS_MTU <? mtu' then Z.of_nat Packet.RNS_MTU else mtu' in
            let '(now, e) := f e in
            peer ← memread d 0 32;
            peer_signing ← memread d 32 32;
            let z := fresh_link E RNS_LINK_RESPONDER RNS_LINK_HANDSHAKE in
            let l := set_signing identity.(Identity.signing_private) identity.(Identity.signing_public)
                       (set_peer peer peer_signing (set_request f now timeout mtu' mode' z)) in
            let l := match given with Some k => set_private k l | None => l end in
            match link_x_keys given seed with
            | None => Some (false, l, e)
            | Some (k, p) =>
                let l := set_keys k p l in
                id ← rns_link_id_from_request_packet raw;
                match id with
                | None => Some (false, set_state RNS_LINK_CLOSED l, e)
                | Some id =>
                    let l := set_link_id id l in
                    match derive l with
                    | None => Some (false, set_state RNS_LINK_CLOSED l, e)
                    | Some l => Some (true, l, e)
                    end
                end
            end
        end
  | _, _, _ => Some (false, l, e)
  end.

Definition rns_link_responder_accept l (identity : option Identity.rns_identity) (seed : list Z) (raw : slice)
    (timeout : double) (clk : option (E -> double * E)) e : option (bool * rns_link E * E) :=
  responder_common l identity None seed raw timeout clk e.

Definition rns_link_responder_accept_key l (identity : option Identity.rns_identity) (given : option (list Z))
    (raw : slice) (timeout : double) (clk : option (E -> double * E)) e : option (bool * rns_link E * E) :=
  match given with
  | None => Some (false, l, e)
  | Some _ => responder_common l identity given [] raw timeout clk e
  end.

(** What a proof signs. *)
Definition proof_message (id public signing signalling : list Z) : list Z := id ++ public ++ signing ++ signalling.

Definition rns_link_build_proof l : option (list Z) :=
  if negb (bool_decide (l.(role) = RNS_LINK_RESPONDER)) || negb (bool_decide (l.(state) = RNS_LINK_HANDSHAKE)) then None
  else
    s ← rns_link_signalling_encode l.(mtu) l.(mode);
    signature ← rns_ed25519_sign l.(signing_private)
                  (proof_message l.(link_id) l.(public_key) l.(signing_public) s);
    Some (signature ++ l.(public_key) ++ s).

Definition rns_link_initiator_accept_proof l (proof : slice) e : option (bool * rns_link E * E) :=
  match proof with
  | SNull _ => Some (false, l, e)
  | SBytes proof =>
      if negb (length proof =? RNS_LINK_PROOF_BYTES)%nat || negb (bool_decide (l.(role) = RNS_LINK_INITIATOR)) ||
         negb (bool_decide (l.(state) = RNS_LINK_PENDING)) then Some (false, l, e)
      else
        signalling ← memread proof 96 3;
        r ← rns_link_signalling_decode signalling;
        let '(ok, mtu', mode') := r in
        if negb ok || negb (mode' =? l.(mode)) then Some (false, l, e)
        else
          peer ← memread proof 64 32;
          let l := set_peer peer l.(remote_identity).(Identity.signing_public) l in
          signature ← memread proof 0 64;
          let signed_data := proof_message l.(link_id) l.(peer_public) l.(peer_signing_public) signalling in
          if negb (Identity.rns_identity_verify l.(remote_identity) signed_data signature) then Some (false, l, e)
          else
            match derive l with
            | None => Some (false, l, e)
            | Some l =>
                f ← l.(clock);
                let '(now, e) := f e in
                Some (true, set_active now (dsub now l.(request_time)) mtu' l, e)
            end
  end.

Definition rns_link_build_rtt_confirm l (seed : list Z) (capacity : nat) : option (list Z) :=
  if negb (bool_decide (l.(role) = RNS_LINK_INITIATOR)) || negb (bool_decide (l.(state) = RNS_LINK_ACTIVE)) then None
  else rns_token_encrypt l.(derived_key) seed (encode_double l.(rtt)) capacity.

(** The round-trip time a confirmation reports. *)
Definition reported_rtt l (token : slice) : option (option double) :=
  match token with
  | SNull _ => Some None
  | SBytes token =>
      match rns_token_decrypt l.(derived_key) token 16 with
      | None => Some None
      | Some packed => if negb (length packed =? 9)%nat then Some None else decode_double packed
      end
  end.

Definition rns_link_responder_accept_rtt l (token : slice) e : option (bool * rns_link E * E) :=
  if negb (bool_decide (l.(role) = RNS_LINK_RESPONDER)) || negb (bool_decide (l.(state) = RNS_LINK_HANDSHAKE))
  then Some (false, set_state RNS_LINK_CLOSED l, e)
  else
    r ← reported_rtt l token;
    match r with
    | None => Some (false, set_state RNS_LINK_CLOSED l, e)
    | Some reported =>
        f ← l.(clock);
        let '(now, e) := f e in
        let measured := dsub now l.(request_time) in
        Some (true, set_active now (if reported <.? measured then measured else reported) l.(mtu) l, e)
    end.

Definition rns_link_check_timeout l e : option (bool * rns_link E * E) :=
  match l.(state) with
  | RNS_LINK_CLOSED | RNS_LINK_ACTIVE => Some (false, l, e)
  | RNS_LINK_PENDING | RNS_LINK_HANDSHAKE =>
      f ← l.(clock);
      let '(now, e) := f e in
      if now >=.? l.(deadline) then Some (true, set_state RNS_LINK_CLOSED l, e) else Some (false, l, e)
  end.

Definition rns_link_encrypt l (seed plaintext : list Z) (capacity : nat) : option (list Z) :=
  if bool_decide (l.(state) = RNS_LINK_ACTIVE) then rns_token_encrypt l.(derived_key) seed plaintext capacity else None.

Definition rns_link_decrypt l (token : list Z) (capacity : nat) : option (list Z) :=
  if bool_decide (l.(state) = RNS_LINK_ACTIVE) || bool_decide (l.(state) = RNS_LINK_HANDSHAKE)
  then rns_token_decrypt l.(derived_key) token capacity else None.

End Operations.

(** ** Doubles *)

(** [spec_float] has values that are no double; these are. *)
Definition is_double (x : double) : Prop := valid_binary 53 1024 x = true.

Lemma digits2_log2 m : Z.pos (digits2_pos m) = Z.log2 (Z.pos m) + 1.
Proof.
  induction m as [m IH|m IH|]; simpl digits2_pos; [| |done]; rewrite Pos2Z.inj_succ, IH.
  - rewrite Pos2Z.inj_xI, Z.log2_succ_double by lia. lia.
  - rewrite Pos2Z.inj_xO, Z.log2_double by lia. lia.
Qed.

(** The mantissa and exponent of a double: subnormal or normal. *)
Lemma is_double_finite s m e :
  is_double (S754_finite s m e) ->
  (Z.pos m < 2 ^ 52 /\ e = -1074) \/ (2 ^ 52 <= Z.pos m < 2 ^ 53 /\ -1074 <= e <= 971).
Proof.
  unfold is_double. simpl. unfold bounded, canonical_mantissa, fexp, emin. rewrite digits2_log2.
  rewrite andb_true_iff, Z.leb_le. intros [Hc%Z.eqb_eq He].
  destruct (Z.lt_ge_cases (Z.log2 (Z.pos m)) 52) as [Hl|Hl].
  - left. split; [apply Z.log2_lt_pow2; lia|lia].
  - right. assert (Z.log2 (Z.pos m) = 52) as Hm by lia.
    pose proof (Z.log2_spec (Z.pos m)) as Hs. rewrite Hm in Hs. change (Z.succ 52) with 53 in Hs. lia.
Qed.

(** The three fields of the bit pattern. *)
Lemma bits_fields (s : bool) ex frac :
  0 <= ex < 2048 -> 0 <= frac < 2 ^ 52 ->
  let bits := Z.b2z s * 2 ^ 63 + ex * 2 ^ 52 + frac in
  Z.testbit bits 63 = s /\ Z.land (Z.shiftr bits 52) 2047 = ex /\ Z.land bits (2 ^ 52 - 1) = frac /\ 0 <= bits < 2 ^ 64.
Proof.
  intros Hex Hf bits. assert (0 <= Z.b2z s <= 1) as Hs by (destruct s; simpl; lia).
  assert (bits / 2 ^ 52 = Z.b2z s * 2048 + ex) as Hd.
  { subst bits. replace (Z.b2z s * 2 ^ 63 + ex * 2 ^ 52 + frac) with ((Z.b2z s * 2048 + ex) * 2 ^ 52 + frac) by lia.
    rewrite Z.div_add_l, (Z.div_small frac) by lia. lia. }
  assert (bits / 2 ^ 63 = Z.b2z s) as Hd63.
  { subst bits. rewrite <-Z.add_assoc, Z.div_add_l, (Z.div_small (ex * 2 ^ 52 + frac)) by lia. lia. }
  split_and!; [| | |subst bits; lia..].
  - apply Z.b2z_inj. rewrite Z.testbit_spec' by lia. rewrite Hd63. destruct s; done.
  - change 2047 with (Z.ones 11). rewrite Z.shiftr_div_pow2, Hd, Z.land_ones by lia.
    change (2 ^ 11) with 2048. rewrite Z.add_comm, Z.mod_add by lia. by apply Z.mod_small.
  - rewrite <-Z.sub_1_r, <-Z.ones_equiv || change (2 ^ 52 - 1) with (Z.ones 52). rewrite Z.land_ones by lia. subst bits.
    replace (Z.b2z s * 2 ^ 63 + ex * 2 ^ 52 + frac) with (frac + (Z.b2z s * 2048 + ex) * 2 ^ 52) by lia.
    rewrite Z.mod_add by lia. by apply Z.mod_small.
Qed.

(** The bit pattern of a double as its three fields. *)
Lemma double_bits_fields x :
  is_double x -> isnan x = false ->
  exists s ex frac, double_bits x = Z.b2z s * 2 ^ 63 + ex * 2 ^ 52 + frac /\ 0 <= ex < 2048 /\ 0 <= frac < 2 ^ 52 /\
    x = (if ex =? 0 then (match frac with Z.pos m => S754_finite s m (-1074) | _ => S754_zero s end)
         else if ex =? 2047 then (if frac =? 0 then S754_infinity s else S754_nan)
         else (match frac + 2 ^ 52 with Z.pos m => S754_finite s m (ex - 1075) | _ => S754_nan end)).
Proof.
  intros Hd Hn. destruct x as [s|s| |s m e]; [| |done|].
  - exists s, 0, 0. unfold double_bits. rewrite Z.shiftl_mul_pow2 by lia. split_and!; [lia..|done].
  - exists s, 2047, 0. unfold double_bits. rewrite lor_shiftl_add by (vm_compute; intuition congruence).
    split_and!; [by rewrite Z.shiftl_mul_pow2 by lia; lia|lia..|done].
  - unfold double_bits. destruct (is_double_finite s m e Hd) as [[Hm ->]|[Hm He]].
    + rewrite (proj2 (Z.ltb_lt _ _) Hm), lor_shiftl_add by (unfold in_width; lia).
      exists s, 0, (Z.pos m). split_and!; [lia..|done].
    + rewrite (proj2 (Z.ltb_ge _ _)) by lia. rewrite (lor_shiftl_add (e + 1075)) by (unfold in_width; lia).
      rewrite lor_shiftl_add by (unfold in_width; lia).
      exists s, (e + 1075), (Z.pos m - 2 ^ 52). split_and!; [lia..|].
      rewrite (proj2 (Z.eqb_neq _ _)), (proj2 (Z.eqb_neq _ _)) by lia.
      replace (Z.pos m - 2 ^ 52 + 2 ^ 52) with (Z.pos m) by lia. by replace (e + 1075 - 1075) with e by lia.
Qed.

Lemma double_bits_roundtrip x :
  is_double x -> isnan x = false -> bits_double (double_bits x) = x /\ 0 <= double_bits x < 2 ^ 64.
Proof.
  intros Hd Hn. destruct (double_bits_fields x Hd Hn) as (s & ex & frac & -> & Hex & Hf & Hx).
  destruct (bits_fields s ex frac Hex Hf) as (H1 & H2 & H3 & H4). cbv zeta in H1, H2, H3, H4.
  split; [|done]. unfold bits_double. rewrite H1, H2, H3. by symmetry.
Qed.

Lemma encode_bits_be n bits : encode_bits n bits = be_encode n bits.
Proof.
  revert bits. induction n as [|n IH]; intros bits; simpl; [done|].
  by rewrite IH, Z.shiftr_div_pow2 by lia.
Qed.

(** The round-trip report survives its encoding. *)
Lemma decode_encode_double x :
  is_double x -> isfinite x = true -> (x >=.? dzero) = true -> decode_double (encode_double x) = Some (Some x).
Proof.
  intros Hd Hf Hp. unfold decode_double, encode_double. rewrite encode_bits_be. cbn [load lookup list_lookup mbind option_bind].
  change (negb (0xcb =? 0xcb)) with false. cbn iota.
  rewrite (bind_Some_eq _ _ (be_encode 8 (double_bits x))).
  2:{ apply (memread_at _ [0xcb] _ []); [by rewrite app_nil_r|done|by rewrite length_be_encode]. }
  rewrite shift_bytes_be by (apply be_encode_bytes || by rewrite length_be_encode).
  destruct (double_bits_roundtrip x Hd (isfinite_isnan _ Hf)) as [Hr Hb].
  rewrite be_decode_encode by exact Hb. by rewrite Hr, Hf, Hp.
Qed.

(** ** Signalling *)

Definition signalling_value (mtu : Z) : Z := mtu + 2 ^ 21.

Lemma signalling_encode_spec m :
  0 < m <= RNS_LINK_MTU_MASK ->
  rns_link_signalling_encode m RNS_LINK_MODE_AES256_CBC = Some (be_encode 3 (signalling_value m)).
Proof.
  unfold RNS_LINK_MTU_MASK. intros Hm. unfold rns_link_signalling_encode, RNS_LINK_MTU_MASK.
  rewrite (proj2 (Z.eqb_neq _ _)), (proj2 (Z.ltb_ge _ _)) by lia. cbn [orb negb Z.eqb RNS_LINK_MODE_AES256_CBC Pos.eqb].
  cbv zeta. change 0x1fffff with (Z.ones 21) at 1 2 3. rewrite Z.land_ones, Z.mod_small by lia.
  change (wrap32 _) with (Z.shiftl 1 21). rewrite Z.lor_comm, lor_shiftl_add by (unfold in_width; lia).
  replace (1 * 2 ^ 21 + m) with (signalling_value m) by (unfold signalling_value; lia).
  cbn [be_encode app]. rewrite !Z.shiftr_div_pow2 by lia. by rewrite Z.div_div by lia.
Qed.

Lemma signalling_decode_spec a b c :
  is_byte a -> is_byte b -> is_byte c ->
  let value := be_decode [a; b; c] in
  rns_link_signalling_decode [a; b; c] =
    Some (negb (value mod 2 ^ 21 =? 0) && (value / 2 ^ 21 =? 1), value mod 2 ^ 21, value / 2 ^ 21).
Proof.
  intros Ha Hb Hc value. unfold rns_link_signalling_decode. cbn [load lookup list_lookup mbind option_bind].
  unfold in_width in *.
  assert (Z.lor (Z.lor (Z.shiftl a 16) (Z.shiftl b 8)) c = value) as ->.
  { rewrite lor_shiftl_add by (unfold in_width; rewrite ?Z.shiftl_mul_pow2; lia).
    rewrite Z.shiftl_mul_pow2 by lia. replace (a * 2 ^ 16 + b * 2 ^ 8) with (Z.shiftl (a * 2 ^ 8 + b) 8)
      by (rewrite Z.shiftl_mul_pow2; lia). rewrite lor_shiftl_add by (unfold in_width; lia).
    subst value. unfold be_decode. simpl. lia. }
  assert (wrap8 (Z.shiftr (Z.land a 0xe0) 5) = value / 2 ^ 21) as ->.
  { pose proof (forall_below 256 (λ a, wrap8 (Z.shiftr (Z.land a 0xe0) 5) =? a / 32)
      ltac:(vm_compute; reflexivity) a ltac:(lia)) as Hx. apply Z.eqb_eq in Hx. rewrite Hx.
    subst value. unfold be_decode. simpl be_decode_from.
    replace ((0 * 256 + a) * 256 + b) with (a * 256 + b) by lia.
    change (2 ^ 21) with (65536 * 32). rewrite <-Z.div_div by lia. f_equal.
    replace ((a * 256 + b) * 256 + c) with (a * 65536 + (b * 256 + c)) by lia.
    rewrite Z.div_add_l, (Z.div_small (b * 256 + c)) by lia. lia. }
  change RNS_LINK_MTU_MASK with (Z.ones 21). rewrite Z.land_ones by lia. done.
Qed.

Lemma signalling_decode_encode m :
  0 < m <= RNS_LINK_MTU_MASK ->
  rns_link_signalling_decode (be_encode 3 (signalling_value m)) = Some (true, m, RNS_LINK_MODE_AES256_CBC).
Proof.
  unfold RNS_LINK_MTU_MASK. intros Hm. set (v := signalling_value m).
  assert (be_decode (be_encode 3 v) = v) as Hv by (apply be_decode_encode; unfold v, signalling_value; lia).
  pose proof (be_encode_bytes 3 v) as Hb. pose proof (length_be_encode 3 v) as Hl.
  destruct (be_encode 3 v) as [|a [|b [|c [|? ?]]]]; try done.
  apply Forall_cons_1 in Hb as [Ha Hb]. apply Forall_cons_1 in Hb as [Hb Hc]. apply Forall_cons_1 in Hc as [Hc _].
  rewrite signalling_decode_spec by done. rewrite Hv. unfold v, signalling_value.
  replace (m + 2 ^ 21) with (m + 1 * 2 ^ 21) by lia.
  rewrite Z.mod_add, Z.mod_small, Z.div_add, Z.div_small by lia. by rewrite (proj2 (Z.eqb_neq _ _)) by lia.
Qed.

(** The signalling bytes of every message a peer can send decode. *)
Lemma signalling_decode_total s : length s = 3%nat -> is_Some (rns_link_signalling_decode s).
Proof. by destruct s as [|a [|b [|c [|? ?]]]]. Qed.

(** The signalling bytes round trip. [rns_link_signalling_encode] accepts
    exactly the MTUs from 1 to [RNS_LINK_MTU_MASK] in AES-256-CBC mode, and
    [rns_link_signalling_decode] reads the MTU and the mode back from its three
    bytes; on any three bytes the decoder accepts exactly the images of the
    encoder. *)
Theorem link_signalling_roundtrip m md a b c :
  0 <= m -> is_byte a -> is_byte b -> is_byte c ->
  (forall s, rns_link_signalling_encode m md = Some s ->
     0 < m <= RNS_LINK_MTU_MASK /\ md = RNS_LINK_MODE_AES256_CBC /\ rns_link_signalling_decode s = Some (true, m, md)) /\
  (0 < m <= RNS_LINK_MTU_MASK -> md = RNS_LINK_MODE_AES256_CBC -> is_Some (rns_link_signalling_encode m md)) /\
  (forall m' md', rns_link_signalling_decode [a; b; c] = Some (true, m', md') ->
     rns_link_signalling_encode m' md' = Some [a; b; c]).
Proof.
  intros Hm Ha Hb Hc. split_and!.
  - intros s Hs. assert (0 < m <= RNS_LINK_MTU_MASK /\ md = RNS_LINK_MODE_AES256_CBC) as [Hr ->].
    { unfold rns_link_signalling_encode in Hs. destruct (_ || _) eqn:G in Hs; [done|].
      rewrite !orb_false_iff, Z.eqb_neq, Z.ltb_ge, negb_false_iff, Z.eqb_eq in G. lia. }
    rewrite signalling_encode_spec in Hs by done. apply (inj Some) in Hs. subst s.
    split; [exact Hr|]. split; [done|]. by apply signalling_decode_encode.
  - intros Hr ->. rewrite signalling_encode_spec by done. by eexists.
  - intros m' md'. rewrite signalling_decode_spec by done. set (v := be_decode [a; b; c]). intros [= Hok <- <-].
    assert (bytes_ok [a; b; c]) as Habc by (repeat apply Forall_cons_2; try done; apply Forall_nil_2).
    pose proof (be_decode_bounds [a; b; c] Habc) as Hbd. change (256 ^ _) with (2 ^ 24) in Hbd. fold v in Hbd.
    apply andb_true_iff in Hok as [H1%negb_true_iff H2%Z.eqb_eq]. apply Z.eqb_neq in H1. rewrite H2.
    pose proof (Z.mod_pos_bound v (2 ^ 21) eq_refl). rewrite signalling_encode_spec by (unfold RNS_LINK_MTU_MASK; lia).
    f_equal. rewrite <-(be_encode_decode [a; b; c] Habc). fold v. simpl length. f_equal. unfold signalling_value.
    pose proof (Z.div_mod v (2 ^ 21)). lia.
Qed.

(** ** The link identifier *)
Section LinkId.
Context `{Crypto}.

(** What the identifier is computed from: a request without the parts that a
    transport node or the signalling may change. *)
Definition link_id_message (p : Packet.rns_packet) : list Z :=
  [Z.lor (Z.shiftl p.(Packet.destination_type) 2) p.(Packet.packet_type)] ++ p.(Packet.destination_hash) ++
  [p.(Packet.context)] ++ take 64 (slice_bytes p.(Packet.data)).

Definition is_link_request (p : Packet.rns_packet) : bool :=
  (p.(Packet.packet_type) =? 2) && link_data_length_ok (length (slice_bytes p.(Packet.data))).

Definition link_id_of (p : Packet.rns_packet) : option (list Z) := take 16 <$> rns_sha256 (link_id_message p).

Lemma link_id_decoded raw p f :
  Packet.rns_packet_decode (SBytes raw) = Some p -> Packet.wf p -> raw = f :: drop 1 (Packet.wire p) ->
  Z.land f 15 = Z.land (Packet.flag_byte p) 15 ->
  rns_link_id_from_request_packet (SBytes raw) = Some (if is_link_request p then link_id_of p else None).
Proof.
  intros Hd Hwf E Hf. unfold rns_link_id_from_request_packet. rewrite Hd.
  assert (slice_length (Packet.data p) = length (slice_bytes (Packet.data p))) as Hsl
    by (apply slice_bad_length, (Packet.wf_data p Hwf)).
  rewrite Hsl. unfold is_link_request. destruct (Packet.packet_type p =? 2); [|done].
  destruct (link_data_length_ok _) eqn:Hlen; [|done]. cbn [negb orb andb].
  assert (64 <= length (slice_bytes (Packet.data p)))%nat as H64.
  { unfold link_data_length_ok in Hlen. apply orb_true_iff in Hlen as [Hlen|Hlen]; apply Nat.eqb_eq in Hlen; lia. }
  set (so := if Packet.header_type p =? Packet.RNS_PACKET_HEADER_2 then 18%nat else 2%nat).
  set (body := Packet.destination_hash p ++ [Packet.context p] ++ take 64 (slice_bytes (Packet.data p))).
  assert (exists pre, raw = pre ++ body ++ drop 64 (slice_bytes (Packet.data p)) /\ so = length pre) as (pre & Er & Hso).
  { subst so body. rewrite E. unfold Packet.wire, Packet.addresses. cbn [app drop].
    destruct (Z.eqb_spec (Packet.header_type p) Packet.RNS_PACKET_HEADER_2).
    - exists ([f; Packet.hops p] ++ Packet.transport_id p). rewrite length_app, (Packet.wf_transport_id p Hwf).
      split; [|done]. cbn [app]. by rewrite <-!app_assoc, <-!app_comm_cons, take_drop.
    - exists [f; Packet.hops p]. split; [|done]. cbn [app]. by rewrite <-!app_assoc, <-!app_comm_cons, take_drop. }
  assert (length body = 81)%nat as Hbl.
  { subst body. rewrite !length_app, (Packet.wf_destination p Hwf), length_take. cbn [length]. lia. }
  replace (length raw - length (slice_bytes (Packet.data p)) - so + 64)%nat with (length body).
  2:{ rewrite Er, !length_app, length_drop, Hbl, Hso. lia. }
  rewrite (bind_Some_eq _ _ f) by (by rewrite E).
  rewrite (bind_Some_eq _ _ body) by (by apply (memread_at _ pre _ (drop 64 (slice_bytes (Packet.data p))))).
  pose proof (Packet.hashable_copy (Z.land f 15) body ltac:(unfold Packet.RNS_MTU; lia)) as Hc.
  destruct (store (replicate 500 0) 0 (Z.land f 15)) as [h1|] eqn:H1;
    change Packet.RNS_MTU with 500%nat in Hc; rewrite H1 in Hc; cbn [mbind option_bind] in Hc |- *; [|done].
  destruct (memcpy h1 1 body) as [h2|]; cbn [mbind option_bind] in Hc |- *; [|done].
  rewrite Hc. cbn [mbind option_bind]. unfold link_id_of, link_id_message.
  rewrite Hf. destruct (Packet.flag_byte_fields p Hwf) as (_&_&_&_&_&_&->). fold body.
  by destruct (rns_sha256 _).
Qed.

Lemma link_id_raw raw p :
  bytes_ok raw -> Packet.rns_packet_decode (SBytes raw) = Some p ->
  rns_link_id_from_request_packet (SBytes raw) = Some (if is_link_request p then link_id_of p else None).
Proof.
  intros Hb Hd. destruct (Packet.decode_raw raw p Hb Hd) as (f & E & Hf & Hwf & _).
  apply (link_id_decoded raw p f); try done. destruct (Packet.flags_access_bit f) as [_ ->]. by rewrite Hf.
Qed.

(** The same of the image of a packet. *)
Lemma link_id_wire p :
  Packet.wf p -> slice_bytes p.(Packet.data) <> [] -> (length (Packet.wire p) <= Packet.RNS_MTU)%nat ->
  rns_link_id_from_request_packet (SBytes (Packet.wire p)) = Some (if is_link_request p then link_id_of p else None).
Proof.
  intros Hp Hne Hm. pose proof (Packet.decode_wire p Hp Hne Hm) as Hd.
  rewrite (link_id_decoded _ _ (Packet.flag_byte p) Hd).
  - done.
  - destruct Hp. constructor; try done. simpl. by case_match.
  - unfold Packet.wire, Packet.addresses. simpl. by destruct (Packet.header_type p =? Packet.RNS_PACKET_HEADER_2).
  - done.
Qed.

(** The link identifier of a received request is computed without reading
    outside any buffer, and depends only on the destination type, packet type,
    destination, context and the first 64 data bytes: neither the hops, header and
    transport identifier that a transport node rewrites nor the trailing
    signalling bytes change it, so both ends and every node on the way agree on
    it. *)
Theorem link_id_invariant raw1 raw2 p1 p2 :
  bytes_ok raw1 -> bytes_ok raw2 ->
  Packet.rns_packet_decode (SBytes raw1) = Some p1 -> Packet.rns_packet_decode (SBytes raw2) = Some p2 ->
  is_link_request p1 = true -> is_link_request p2 = true ->
  Packet.destination_type p1 = Packet.destination_type p2 ->
  Packet.destination_hash p1 = Packet.destination_hash p2 -> Packet.context p1 = Packet.context p2 ->
  take 64 (slice_bytes (Packet.data p1)) = take 64 (slice_bytes (Packet.data p2)) ->
  exists id, rns_link_id_from_request_packet (SBytes raw1) = Some id /\
    rns_link_id_from_request_packet (SBytes raw2) = Some id /\ id = take 16 <$> rns_sha256 (link_id_message p1).
Proof.
  intros Hb1 Hb2 Hd1 Hd2 Hr1 Hr2 Ht Hh Hc Hda. exists (link_id_of p1).
  rewrite (link_id_raw raw1 p1), (link_id_raw raw2 p2), Hr1, Hr2 by done. split_and!; [done| |done].
  unfold link_id_of, link_id_message. unfold is_link_request in Hr1, Hr2.
  apply andb_true_iff in Hr1 as [Hp1%Z.eqb_eq _], Hr2 as [Hp2%Z.eqb_eq _].
  by rewrite Ht, Hh, Hc, Hda, Hp1, Hp2.
Qed.
End LinkId.

(** ** The handshake *)
Section Handshake.
Context `{Crypto} {E : Type}.
Implicit Types (l : rns_link E) (e : E).

(** An initiator that has not seen a proof. *)
Record pending_initiator l : Prop := {
  pending_role : l.(role) = RNS_LINK_INITIATOR;
  pending_state : l.(state) = RNS_LINK_PENDING;
  pending_mode : l.(mode) = RNS_LINK_MODE_AES256_CBC;
  pending_mtu : 0 < l.(mtu) <= RNS_LINK_MTU_MASK;
  pending_clock : is_Some l.(clock);
  pending_keys : x25519_pair l.(private_key) l.(public_key);
  pending_signing : length l.(signing_public) = 32%nat
}.

Lemma link_x_keys_spec given seed k p :
  link_x_keys given seed = Some (k, p) -> x25519_pair k p.
Proof.
  destruct given as [g|]; simpl; [|by intros [_ ?]%x_generate_spec].
  intros (p' & Hp & [= <- <-])%bind_Some. by apply x_public_pair.
Qed.

Lemma link_ed_keys_spec given seed k p : link_ed_keys given seed = Some (k, p) -> length p = 32%nat.
Proof.
  destruct given as [g|]; simpl; [|by intros [_ ?%ed_pair_length]%ed_generate_spec].
  intros (p' & Hp & [= <- <-])%bind_Some. by eapply ed_pair_length, ed_public_pair.
Qed.

Lemma initiator_common_ok l0 dest xk sk s1 s2 m timeout f e l e' :
  0 <= m -> initiator_common l0 (Some dest) xk sk s1 s2 m timeout (Some f) e = (true, l, e') ->
  pending_initiator l /\ l.(remote_identity) = dest /\ l.(mtu) = m /\ l.(clock) = Some f /\
  l.(request_time) = (f e).1 /\ e' = (f e).2.
Proof.
  intros Hm. unfold initiator_common. destruct (rns_link_signalling_encode m _) eqn:Hs; [|done].
  assert (0 < m <= RNS_LINK_MTU_MASK) as Hr.
  { unfold rns_link_signalling_encode in Hs. destruct (_ || _) eqn:G in Hs; [done|].
    rewrite !orb_false_iff, Z.eqb_neq, Z.ltb_ge in G. lia. }
  destruct (timeout <=.? dzero); [done|]. destruct (f e) as [now e1].
  destruct (link_x_keys xk s1) as [[k p]|] eqn:Hx; [|done].
  destruct (link_ed_keys sk s2) as [[k' p']|] eqn:He; [|done]. intros [= <- <-].
  apply link_x_keys_spec in Hx. apply link_ed_keys_spec in He.
  destruct xk, sk; simpl; (split; [constructor; simpl; try done; by eexists|done]).
Qed.

(** The payload of a pending initiator. *)
Definition request_payload l : list Z := l.(public_key) ++ l.(signing_public) ++ be_encode 3 (signalling_value l.(mtu)).

Lemma build_request_payload_ok l :
  pending_initiator l -> rns_link_build_request_payload l = Some (request_payload l) /\ length (request_payload l) = 67%nat.
Proof.
  intros []. unfold rns_link_build_request_payload, request_payload.
  rewrite !bool_decide_eq_true_2 by done. cbn [negb orb].
  rewrite pending_mode0, signalling_encode_spec by done. cbn [mbind option_bind]. split; [done|].
  rewrite !length_app, length_be_encode, pending_signing0, (x_pair_length _ _ pending_keys0). done.
Qed.

Lemma set_request_ok l raw l' p :
  pending_initiator l -> bytes_ok raw -> Packet.rns_packet_decode (SBytes raw) = Some p ->
  rns_link_initiator_set_request_packet l (SBytes raw) = Some (true, l') ->
  exists id, l' = set_link_id id l /\ is_link_request p = true /\ link_id_of p = Some id /\
    slice_bytes p.(Packet.data) = request_payload l.
Proof.
  intros Hl Hb Hd. destruct (build_request_payload_ok l Hl) as [Hp _]. destruct Hl as [Hr Hs].
  unfold rns_link_initiator_set_request_packet. rewrite !bool_decide_eq_true_2 by done. cbn [negb orb].
  rewrite Hd, Hp, (link_id_raw raw p) by done. destruct (slice_length _ =? _)%nat; [|done]. cbn [negb].
  destruct (memeq _ _) eqn:Hm; [|done]. apply memeq_true in Hm. cbn [negb mbind option_bind].
  destruct (is_link_request p); [|done]. destruct (link_id_of p) as [id|] eqn:Hid; [|done].
  intros [= <-]. by exists id.
Qed.

(** A responder that has accepted a request [p]. *)
Record handshaking l (idn : Identity.rns_identity) (p : Packet.rns_packet) : Prop := {
  hs_role : l.(role) = RNS_LINK_RESPONDER;
  hs_state : l.(state) = RNS_LINK_HANDSHAKE;
  hs_mode : l.(mode) = RNS_LINK_MODE_AES256_CBC;
  hs_mtu : request_signalling (slice_bytes p.(Packet.data)) = Some (Some (l.(mtu), RNS_LINK_MODE_AES256_CBC)) \/
    l.(mtu) = Z.of_nat Packet.RNS_MTU;
  hs_mtu_small : 0 < l.(mtu) <= Z.of_nat Packet.RNS_MTU;
  hs_id : link_id_of p = Some l.(link_id);
  hs_keys : x25519_pair l.(private_key) l.(public_key);
  hs_peer : l.(peer_public) = take 32 (slice_bytes p.(Packet.data));
  hs_derived : exists s, rns_x25519_exchange l.(private_key) l.(peer_public) = Some s /\
    rns_hkdf_sha256 s l.(link_id) [] 64 = Some l.(derived_key);
  hs_signing : l.(signing_private) = idn.(Identity.signing_private) /\ l.(signing_public) = idn.(Identity.signing_public)
}.

Lemma derive_ok l l' :
  derive l = Some l' -> exists s k, rns_x25519_exchange l.(private_key) l.(peer_public) = Some s /\
    rns_hkdf_sha256 s l.(link_id) [] 64 = Some k /\ l' = set_derived_key k l.
Proof. unfold derive. intros (s & Hs & Hr)%bind_Some. apply bind_Some in Hr as (k & Hk & [= <-]). eauto. Qed.

(** The signalling of a request is read safely; an accepted one is sensible. *)
Lemma request_signalling_total d : exists r, request_signalling d = Some r.
Proof.
  unfold request_signalling. destruct (Nat.eqb_spec (length d) 67) as [Hl|]; [|by eexists].
  rewrite (bind_Some_eq _ _ (take 3 (drop 64 d))).
  2:{ apply (memread_at _ (take 64 d) _ (drop 3 (drop 64 d))); [by rewrite !take_drop| |];
        rewrite length_take, ?length_drop; lia. }
  destruct (signalling_decode_total (take 3 (drop 64 d))) as [[[ok m] md] Hs];
    [rewrite length_take, length_drop; lia|]. rewrite Hs. by eexists.
Qed.

Lemma request_signalling_ok d m md :
  bytes_ok d -> request_signalling d = Some (Some (m, md)) -> md = RNS_LINK_MODE_AES256_CBC /\ 0 < m.
Proof.
  intros Hb. unfold request_signalling. destruct (length d =? 67)%nat; [|by intros [= <- <-]].
  intros (bs & Hbs & Hr)%bind_Some. apply bind_Some in Hr as ([[ok m'] md'] & Hd & Hr).
  destruct ok; [|done]. injection Hr as -> ->.
  assert (bytes_ok bs /\ length bs = 3%nat) as [Hbb Hbl].
  { unfold memread in Hbs. case_decide; [|done]. injection Hbs as <-. split; [by apply Forall_take, Forall_drop|].
    rewrite length_take, length_drop. lia. }
  destruct bs as [|a [|b [|c [|? ?]]]]; try done.
  apply Forall_cons_1 in Hbb as [Ha Hbb]. apply Forall_cons_1 in Hbb as [Hb' Hc]. apply Forall_cons_1 in Hc as [Hc _].
  rewrite signalling_decode_spec in Hd by done. injection Hd as Hok <- <-.
  apply andb_true_iff in Hok as [H1%negb_true_iff H2%Z.eqb_eq]. apply Z.eqb_neq in H1.
  pose proof (Z.mod_pos_bound (be_decode [a; b; c]) (2 ^ 21) eq_refl). split; [done|lia].
Qed.

(** Fewer than all data bytes are read of a valid request. *)
Lemma request_keys_read d :
  link_data_length_ok (length d) = true ->
  memread d 0 32 = Some (take 32 d) /\ memread d 32 32 = Some (take 32 (drop 32 d)).
Proof.
  intros Hl. assert (64 <= length d)%nat.
  { unfold link_data_length_ok in Hl. apply orb_true_iff in Hl as [Hl|Hl]; apply Nat.eqb_eq in Hl; lia. }
  unfold memread. by rewrite !decide_True, drop_0 by lia.
Qed.

Lemma wire_data_bytes p : bytes_ok (Packet.wire p) -> bytes_ok (slice_bytes p.(Packet.data)).
Proof. unfold Packet.wire. rewrite !Forall_app. tauto. Qed.

Lemma decoded_data_bytes raw p :
  bytes_ok raw -> Packet.rns_packet_decode (SBytes raw) = Some p ->
  bytes_ok (slice_bytes p.(Packet.data)) /\ slice_length p.(Packet.data) = length (slice_bytes p.(Packet.data)).
Proof.
  intros Hb Hd. destruct (Packet.decode_raw raw p Hb Hd) as (f & E' & _ & Hwf & _).
  split; [|apply slice_bad_length, (Packet.wf_data p Hwf)]. rewrite E' in Hb. apply Forall_cons_1 in Hb as [_ Hb].
  unfold Packet.wire in Hb. cbn [app drop] in Hb. apply Forall_cons_1 in Hb as [_ Hb].
  rewrite Forall_app in Hb. destruct Hb as [_ Hb]. by apply Forall_cons_1 in Hb as [_ ?].
Qed.

Lemma responder_common_ok l0 idn given seed raw timeout g e l e' p :
  bytes_ok raw -> Packet.rns_packet_decode (SBytes raw) = Some p ->
  responder_common l0 (Some idn) given seed (SBytes raw) timeout (Some g) e = Some (true, l, e') ->
  handshaking l idn p /\ l.(clock) = Some g /\ l.(request_time) = (g e).1.
Proof.
  intros Hb Hd. destruct (decoded_data_bytes raw p Hb Hd) as [Hdb Hdl].
  unfold responder_common. rewrite Hd, Hdl. destruct (negb (Identity.has_private idn)); [done|].
  destruct (timeout <=.? dzero); [done|]. destruct (negb (Packet.packet_type p =? 2)) eqn:Hpt; [done|].
  destruct (link_data_length_ok _) eqn:Hl; [|done]. cbn [negb orb].
  destruct (request_keys_read _ Hl) as [Hk1 Hk2]. rewrite Hk1, Hk2.
  destruct (request_signalling _) as [[[m md]|]|] eqn:Hs; [|done..]. cbn [mbind option_bind].
  destruct (request_signalling_ok _ _ _ Hdb Hs) as [-> Hm].
  destruct (g e) as [now e1]. cbn [mbind option_bind].
  destruct (link_x_keys given seed) as [[k q]|] eqn:Hx; [|done]. apply link_x_keys_spec in Hx.
  rewrite (link_id_raw raw p) by done. cbn [mbind option_bind]. unfold is_link_request. rewrite Hl, andb_true_r.
  apply negb_false_iff in Hpt. rewrite Hpt. destruct (link_id_of p) as [id|] eqn:Hid; [|done].
  destruct (derive _) as [l1|] eqn:Hder; [|done]. intros [= <- <-].
  apply derive_ok in Hder as (s & dk & Hex & Hkd & ->).
  destruct given; simpl in *; (split; [|done]); constructor; simpl; try done; eauto.
  all: unfold Packet.RNS_MTU in *; destruct (Z.ltb_spec (Z.of_nat 500) m); (lia || auto).
Qed.

(** What a responder's proof is. *)
Lemma build_proof_ok l idn p proof :
  handshaking l idn p -> rns_link_build_proof l = Some proof ->
  exists sg, proof = sg ++ l.(public_key) ++ be_encode 3 (signalling_value l.(mtu)) /\ length sg = 64%nat /\
    rns_ed25519_sign l.(signing_private) (proof_message l.(link_id) l.(public_key) l.(signing_public)
      (be_encode 3 (signalling_value l.(mtu)))) = Some sg.
Proof.
  intros Hh. destruct Hh. unfold rns_link_build_proof. rewrite !bool_decide_eq_true_2 by done. cbn [negb orb].
  unfold Packet.RNS_MTU in *. rewrite hs_mode0, signalling_encode_spec by (unfold RNS_LINK_MTU_MASK; lia).
  cbn [mbind option_bind]. intros (sg & Hsg & [= <-])%bind_Some. exists sg. eauto using sign_length.
Qed.

(** An initiator with the same identifier accepts it. *)
Lemma accept_proof_ok li lr idn p proof e :
  pending_initiator li -> handshaking lr idn p -> Identity.wf idn -> idn.(Identity.has_private) = true ->
  li.(remote_identity).(Identity.signing_public) = idn.(Identity.signing_public) ->
  li.(link_id) = lr.(link_id) -> lr.(peer_public) = li.(public_key) ->
  rns_link_build_proof lr = Some proof ->
  exists f li', li.(clock) = Some f /\
    rns_link_initiator_accept_proof li (SBytes proof) e = Some (true, li', (f e).2) /\
    li' = set_active (f e).1 (dsub (f e).1 li.(request_time)) lr.(mtu) (set_derived_key lr.(derived_key)
            (set_peer lr.(public_key) idn.(Identity.signing_public) li)).
Proof.
  intros Hli Hh Hidn Hpriv Hsig Hid Hpeer (sg & -> & Hsgl & Hsign)%(build_proof_ok lr idn p) ; [|done].
  destruct Hli as [Hr Hs Hmode _ [f Hf] Hkeys _].
  destruct Hh as [_ _ _ _ Hmtu _ Hrk _ (sh & Hex & Hkd) [Hsp Hspub]].
  pose proof (x_pair_length _ _ Hrk) as Hpl. set (sig3 := be_encode 3 (signalling_value (mtu lr))) in *.
  assert (length sig3 = 3%nat) as Hl3 by apply length_be_encode.
  eexists f, _. split; [done|]. split; [|reflexivity]. unfold rns_link_initiator_accept_proof.
  assert (length (sg ++ public_key lr ++ sig3) = 99)%nat as Hl by (rewrite !length_app; lia).
  unfold RNS_LINK_PROOF_BYTES. rewrite Hl, !bool_decide_eq_true_2 by done. cbn [negb orb Nat.eqb].
  rewrite (bind_Some_eq _ _ sig3)
    by (apply (memread_at _ (sg ++ public_key lr) _ []); [by rewrite app_nil_r, app_assoc|rewrite length_app; lia|lia]).
  unfold Packet.RNS_MTU in Hmtu.
  rewrite (bind_Some_eq _ _ (true, mtu lr, RNS_LINK_MODE_AES256_CBC))
    by (apply signalling_decode_encode; unfold RNS_LINK_MTU_MASK; lia).
  rewrite Hmode, Z.eqb_refl. cbn [negb orb].
  rewrite (bind_Some_eq _ _ (public_key lr)) by (by apply (memread_at _ sg _ sig3)).
  rewrite (bind_Some_eq _ _ sg) by (by apply (memread_at _ [] _ (public_key lr ++ sig3))).
  set (l1 := set_peer (public_key lr) _ li).
  change (link_id l1) with (link_id li). change (peer_public l1) with (public_key lr).
  change (peer_signing_public l1) with (Identity.signing_public (remote_identity li)).
  change (remote_identity l1) with (remote_identity li).
  pose proof (Identity.wf_keys _ Hidn) as Hk. rewrite Hpriv in Hk. destruct Hk as [_ Hk].
  unfold Identity.rns_identity_verify. rewrite Hsig, Hid, <-Hspub.
  rewrite <-Hsp in Hk. rewrite <-Hspub in Hk. rewrite (sign_verify _ _ _ _ Hk Hsign). cbn [negb].
  unfold derive. change (private_key l1) with (private_key li). change (link_id l1) with (link_id li).
  change (peer_public l1) with (public_key lr).
  rewrite (exchange_comm _ _ _ _ Hkeys Hrk), <-Hpeer, Hex. cbn [mbind option_bind]. rewrite Hid, Hkd.
  cbn [mbind option_bind]. change (clock (set_derived_key (derived_key lr) l1)) with (clock li).
  change (request_time (set_derived_key (derived_key lr) l1)) with (request_time li).
  rewrite Hf. cbn [mbind option_bind]. destruct (f e) as [now e1]. unfold l1. by rewrite Hsig, Hspub.
Qed.

(** The responder accepts the initiator's confirmation. *)
Lemma accept_rtt_ok (li lr : rns_link E) idn p g seed capacity token e :
  handshaking lr idn p -> lr.(clock) = Some g ->
  li.(derived_key) = lr.(derived_key) ->
  is_double li.(rtt) -> isfinite li.(rtt) = true -> (li.(rtt) >=.? dzero) = true ->
  rns_link_build_rtt_confirm li seed capacity = Some token ->
  exists rtt', rns_link_responder_accept_rtt lr (SBytes token) e = Some (true, set_active (g e).1 rtt' lr.(mtu) lr, (g e).2).
Proof.
  intros Hh Hg Hk Hd Hf Hp. unfold rns_link_build_rtt_confirm.
  destruct (_ || _); [done|]. rewrite Hk. intros Ht.
  unfold rns_link_responder_accept_rtt. destruct Hh as [Hr Hs]. rewrite !bool_decide_eq_true_2 by done. cbn [negb orb].
  pose proof (token_encrypt_size _ _ _ _ _ Ht) as [Hsz _].
  assert (length (encode_double (rtt li)) = 9%nat) as Hl.
  { unfold encode_double. cbn [length]. by rewrite encode_bits_be, length_be_encode. }
  unfold reported_rtt. rewrite (token_roundtrip _ _ _ _ _ 16 Ht) by (rewrite Hsz, Hl; unfold RNS_TOKEN_OVERHEAD; by vm_compute; lia).
  rewrite Hl. cbn [negb Nat.eqb]. rewrite decode_encode_double by done. cbn [mbind option_bind].
  rewrite Hg. cbn [mbind option_bind]. destruct (g e) as [now e1]. by eexists.
Qed.

(** C1: the handshake establishes a shared key. An initiator that knows the
    destination's signing key and a responder that received the initiator's
    request - possibly rewritten by transport nodes on the way - agree on the
    link identifier; the responder's proof is accepted, both ends hold the same
    session key and the same MTU, which is at most [RNS_MTU]; the initiator's
    round-trip confirmation then activates the responder, and what either end
    encrypts the other decrypts. *)
Theorem link_handshake (l0 lr0 li li1 lr : rns_link E) dest idn xk sk s1 s2 m timeout f e0 e1
    raw raw' p p' given s3 timeout' g e2 e3 proof e4 s4 cap token e5 :
  0 <= m -> Identity.wf idn -> idn.(Identity.has_private) = true ->
  dest.(Identity.signing_public) = idn.(Identity.signing_public) ->
  initiator_common l0 (Some dest) xk sk s1 s2 m timeout (Some f) e0 = (true, li, e1) ->
  bytes_ok raw -> Packet.rns_packet_decode (SBytes raw) = Some p ->
  rns_link_initiator_set_request_packet li (SBytes raw) = Some (true, li1) ->
  bytes_ok raw' -> Packet.rns_packet_decode (SBytes raw') = Some p' ->
  Packet.identity_part p' = Packet.identity_part p ->
  responder_common lr0 (Some idn) given s3 (SBytes raw') timeout' (Some g) e2 = Some (true, lr, e3) ->
  rns_link_build_proof lr = Some proof ->
  exists li2, rns_link_initiator_accept_proof li1 (SBytes proof) e4 = Some (true, li2, (f e4).2) /\
    li2.(state) = RNS_LINK_ACTIVE /\ li2.(link_id) = lr.(link_id) /\ li2.(derived_key) = lr.(derived_key) /\
    li2.(mtu) = lr.(mtu) /\ lr.(mtu) <= Z.of_nat Packet.RNS_MTU /\
    (is_double li2.(rtt) -> isfinite li2.(rtt) = true -> (li2.(rtt) >=.? dzero) = true ->
     rns_link_build_rtt_confirm li2 s4 cap = Some token ->
     exists lr2, rns_link_responder_accept_rtt lr (SBytes token) e5 = Some (true, lr2, (g e5).2) /\
       lr2.(state) = RNS_LINK_ACTIVE /\ lr2.(derived_key) = li2.(derived_key) /\
       forall seed plain c t c', (length t <= c' + RNS_TOKEN_OVERHEAD)%nat ->
         (rns_link_encrypt li2 seed plain c = Some t -> rns_link_decrypt lr2 t c' = Some plain) /\
         (rns_link_encrypt lr2 seed plain c = Some t -> rns_link_decrypt li2 t c' = Some plain)).
Proof.
  intros Hm Hidn Hpriv Hsig Hinit Hb Hd Hset Hb' Hd' Hpart Hresp Hproof.
  destruct (initiator_common_ok _ _ _ _ _ _ _ _ _ _ _ _ Hm Hinit) as (Hli & Hrem & _ & Hclk & _).
  destruct (set_request_ok li raw li1 p Hli Hb Hd Hset) as (id & -> & Hreq & Hid & Hdata).
  destruct (responder_common_ok _ _ _ _ _ _ _ _ _ _ p' Hb' Hd' Hresp) as (Hh & Hg & _).
  destruct (Packet.decode_raw raw p Hb Hd) as (_ & _ & _ & Hwf & _).
  destruct (Packet.decode_raw raw' p' Hb' Hd') as (_ & _ & _ & Hwf' & _).
  apply (Packet.identity_part_inj p' p Hwf' Hwf) in Hpart as (E1 & E2 & E3 & E4 & E5).
  assert (lr.(link_id) = id) as Hlid.
  { pose proof (hs_id _ _ _ Hh) as Hi. unfold link_id_of, link_id_message in Hi, Hid.
    rewrite E1, E2, E3, E4, E5, Hid in Hi. by injection Hi. }
  assert (lr.(peer_public) = li.(public_key)) as Hpeer.
  { rewrite (hs_peer _ _ _ Hh), E5, Hdata. unfold request_payload.
    by rewrite take_app_length' by (symmetry; apply (x_pair_length _ _ (pending_keys _ Hli))). }
  destruct (accept_proof_ok (set_link_id id li) lr idn p' proof e4) as (f' & li2 & Hf' & Hacc & Hli2); try done.
  { destruct Hli. by constructor. }
  { by rewrite Hrem || (simpl; by rewrite Hrem). }
  assert (f' = f) as -> by (simpl in Hf'; congruence).
  exists li2. split; [done|]. rewrite Hli2. cbn [set_active set_derived_key set_peer set_link_id state link_id derived_key mtu].
  split_and!; [done|by rewrite Hlid|done|done|by destruct (hs_mtu_small _ _ _ Hh)|]. rewrite <-Hli2.
  intros Hdbl Hfin Hpos Hconf.
  destruct (accept_rtt_ok li2 lr idn p' g s4 cap token e5 Hh Hg) as (rtt' & Hrtt); try done; [by rewrite Hli2|].
  eexists. split; [exact Hrtt|]. split; [done|]. split; [done|]. intros seed plain c t c' Hlen.
  unfold rns_link_encrypt, rns_link_decrypt. rewrite Hli2.
  cbn [set_active set_derived_key set_peer set_link_id state link_id derived_key mtu].
  rewrite !bool_decide_eq_true_2 by done. cbn [orb].
  split; intros Ht; by eapply token_roundtrip.
Qed.
End Handshake.

(** ** The state machine *)
Section StateMachine.
Context `{Crypto} {E : Type}.
Implicit Types (l : rns_link E) (e : E).

(** What can happen to a link once it exists; every outcome of an operation is
    a step, failures included. *)
Inductive link_step : rns_link E * E -> rns_link E * E -> Prop :=
| StepRequest l e raw ok l' :
    rns_link_initiator_set_request_packet l raw = Some (ok, l') -> link_step (l, e) (l', e)
| StepProof l e proof ok l' e' :
    rns_link_initiator_accept_proof l proof e = Some (ok, l', e') -> link_step (l, e) (l', e')
| StepRtt l e token ok l' e' :
    rns_link_responder_accept_rtt l token e = Some (ok, l', e') -> link_step (l, e) (l', e')
| StepTimeout l e ok l' e' :
    rns_link_check_timeout l e = Some (ok, l', e') -> link_step (l, e) (l', e').

(** An active initiator has verified the destination's signature over this link
    and derived its key from the signed one; an active responder has received a
    confirmation that only a holder of the session key can produce. *)
Definition authenticated l : Prop :=
  match l.(role) with
  | RNS_LINK_INITIATOR =>
      exists signalling signature shared,
        Identity.rns_identity_verify l.(remote_identity)
          (proof_message l.(link_id) l.(peer_public) l.(remote_identity).(Identity.signing_public) signalling)
          signature = true /\
        rns_x25519_exchange l.(private_key) l.(peer_public) = Some shared /\
        rns_hkdf_sha256 shared l.(link_id) [] 64 = Some l.(derived_key)
  | RNS_LINK_RESPONDER =>
      exists token packed reported, rns_token_decrypt l.(derived_key) token 16 = Some packed /\
        decode_double packed = Some (Some reported)
  end.

Definition sound l : Prop := is_Some l.(clock) /\ (l.(state) = RNS_LINK_ACTIVE -> authenticated l).

(** The fields that no step changes. *)
Definition same_link l l' : Prop :=
  l'.(role) = l.(role) /\ l'.(clock) = l.(clock) /\ l'.(private_key) = l.(private_key) /\
  l'.(remote_identity) = l.(remote_identity) /\ l'.(deadline) = l.(deadline).

(** A link moves forward: from waiting to active to closed. *)
Definition rank (s : rns_link_state) : nat :=
  match s with RNS_LINK_PENDING | RNS_LINK_HANDSHAKE => 0 | RNS_LINK_ACTIVE => 1 | RNS_LINK_CLOSED => 2 end.

Definition advances l l' : Prop :=
  same_link l l' /\ (l'.(state) = l.(state) \/ (rank l.(state) < rank l'.(state))%nat).

Lemma closed_advances l : sound l -> sound (set_state RNS_LINK_CLOSED l) /\ advances l (set_state RNS_LINK_CLOSED l).
Proof.
  intros [Hc _]. split; [by split|]. split; [done|]. simpl. destruct (state l); simpl; (by left) || (right; lia).
Qed.

Lemma same_advances l : advances l l.
Proof. by repeat split; left. Qed.

Lemma request_sound l raw ok l' :
  sound l -> rns_link_initiator_set_request_packet l raw = Some (ok, l') -> sound l' /\ advances l l'.
Proof.
  intros Hs. unfold rns_link_initiator_set_request_packet.
  destruct (negb _ || negb _) eqn:G; [by intros [= <- <-]; auto using same_advances|].
  rewrite orb_false_iff, !negb_false_iff, !bool_decide_eq_true in G. destruct G as [_ Hst].
  destruct (Packet.rns_packet_decode raw) as [p|]; [|by intros [= <- <-]; auto using same_advances].
  destruct (negb _); [by intros [= <- <-]; auto using same_advances|].
  destruct (rns_link_build_request_payload l); [|by intros [= <- <-]; auto using same_advances].
  destruct (negb _); [by intros [= <- <-]; auto using same_advances|].
  intros (id & _ & Hr)%bind_Some. destruct id as [id|]; injection Hr as <- <-; [|auto using same_advances].
  destruct Hs as [Hc _]. split; [split; [done|]; simpl; by rewrite Hst|]. by repeat split; left.
Qed.

Lemma proof_sound l proof ok l' e e' :
  sound l -> rns_link_initiator_accept_proof l proof e = Some (ok, l', e') -> sound l' /\ advances l l'.
Proof.
  intros Hs. unfold rns_link_initiator_accept_proof.
  destruct proof as [|proof]; [by intros [= <- <- <-]; auto using same_advances|].
  destruct (negb _ || negb _ || negb _) eqn:G; [by intros [= <- <- <-]; auto using same_advances|].
  rewrite !orb_false_iff, !negb_false_iff, !bool_decide_eq_true in G. destruct G as [[_ Hrole] Hst].
  intros (sg3 & _ & Hr)%bind_Some. apply bind_Some in Hr as ([[ok' m] md] & _ & Hr).
  destruct (negb ok' || _); [by injection Hr as <- <- <-; auto using same_advances|].
  apply bind_Some in Hr as (peer & _ & Hr). apply bind_Some in Hr as (sg & _ & Hr).
  set (l1 := set_peer _ _ l) in *. destruct Hs as [Hc _].
  assert (sound l1 /\ advances l l1) as H1.
  { split; [split; [done|]; simpl; by rewrite Hst|]. by repeat split; left. }
  destruct (negb (Identity.rns_identity_verify _ _ _)) eqn:Hv; [by injection Hr as <- <- <-|].
  destruct (derive l1) as [l2|] eqn:Hd; [|by injection Hr as <- <- <-].
  apply derive_ok in Hd as (s & k & Hex & Hk & ->). apply bind_Some in Hr as (f & Hf & Hr).
  destruct (f e) as [now e1]. injection Hr as <- <- <-. apply negb_false_iff in Hv. split.
  - split; [done|]. intros _. unfold authenticated. simpl. rewrite Hrole. by exists sg3, sg, s.
  - split; [done|]. right. simpl. rewrite Hst. simpl. lia.
Qed.

Lemma rtt_sound l token ok l' e e' :
  sound l -> rns_link_responder_accept_rtt l token e = Some (ok, l', e') -> sound l' /\ advances l l'.
Proof.
  intros Hs. unfold rns_link_responder_accept_rtt.
  destruct (negb _ || negb _) eqn:G; [intros [= <- <- <-]; by apply closed_advances|].
  rewrite !orb_false_iff, !negb_false_iff, !bool_decide_eq_true in G. destruct G as [Hrole Hst].
  intros (r & Hr & Hout)%bind_Some. destruct r as [v|]; [|injection Hout as <- <- <-; by apply closed_advances].
  apply bind_Some in Hout as (f & Hf & Hout). destruct (f e) as [now e1]. injection Hout as <- <- <-.
  unfold reported_rtt in Hr. destruct token as [|token]; [done|].
  destruct (rns_token_decrypt _ _ _) as [packed|] eqn:Ht; [|done]. destruct (negb _); [done|].
  destruct Hs as [Hc _]. split; [split; [done|]; intros _|].
  - unfold authenticated. simpl. rewrite Hrole. eauto.
  - split; [done|]. right. simpl. rewrite Hst. simpl. lia.
Qed.

Lemma timeout_sound l ok l' e e' :
  sound l -> rns_link_check_timeout l e = Some (ok, l', e') -> sound l' /\ advances l l'.
Proof.
  intros Hs. unfold rns_link_check_timeout.
  assert ((f ← l.(clock); let '(now, e) := f e in
     if now >=.? l.(deadline) then Some (true, set_state RNS_LINK_CLOSED l, e) else Some (false, l, e)) =
     Some (ok, l', e') -> sound l' /\ advances l l') as Hw.
  { intros (f & _ & Hr)%bind_Some. destruct (f e) as [now e1]. destruct (now >=.? _); injection Hr as <- <- <-;
      [by apply closed_advances|auto using same_advances]. }
  destruct (state l); [exact Hw|exact Hw|..]; intros [= <- <- <-]; auto using same_advances.
Qed.

Lemma step_sound l e l' e' : sound l -> link_step (l, e) (l', e') -> sound l' /\ advances l l'.
Proof.
  intros Hs Hst. inversion Hst; subst; eauto using request_sound, proof_sound, rtt_sound, timeout_sound.
Qed.

Lemma advances_trans l1 l2 l3 : advances l1 l2 -> advances l2 l3 -> advances l1 l3.
Proof.
  unfold advances, same_link. intros [Hs1 H1] [Hs2 H2]. split; [intuition congruence|].
  destruct H1 as [H1|H1], H2 as [H2|H2]; rewrite ?H1, ?H2 in *; auto; right; lia.
Qed.

Lemma steps_sound x y : rtc link_step x y -> sound x.1 -> sound y.1 /\ advances x.1 y.1.
Proof.
  induction 1 as [x|[l e] [l' e'] z Hst _ IH]; intros Hs; [auto using same_advances|].
  destruct (step_sound _ _ _ _ Hs Hst) as [Hs' Ha]. destruct (IH Hs') as [Hz Ha']. eauto using advances_trans.
Qed.

(** Every operation returns. *)
Lemma operations_total l e :
  sound l ->
  (forall raw, bytes_ok raw -> is_Some (rns_link_initiator_set_request_packet l (SBytes raw))) /\
  (forall proof, is_Some (rns_link_initiator_accept_proof l proof e)) /\
  (forall token, is_Some (rns_link_responder_accept_rtt l token e)) /\
  is_Some (rns_link_check_timeout l e).
Proof.
  intros [[f Hf] _]. split_and!.
  - intros raw Hb. unfold rns_link_initiator_set_request_packet. destruct (negb _ || _); [by eexists|].
    destruct (Packet.rns_packet_decode _) as [p|] eqn:Hd; [|by eexists]. destruct (negb _); [by eexists|].
    destruct (rns_link_build_request_payload l); [|by eexists]. destruct (negb _); [by eexists|].
    rewrite (link_id_raw raw p) by done. cbn [mbind option_bind]. destruct (if is_link_request p then _ else _); by eexists.
  - intros [|proof]; unfold rns_link_initiator_accept_proof; [by eexists|].
    destruct (Nat.eqb_spec (length proof) RNS_LINK_PROOF_BYTES) as [Hl|]; [|by eexists]. unfold RNS_LINK_PROOF_BYTES in Hl.
    destruct (negb true || _ || _); [by eexists|].
    unfold memread. rewrite !decide_True by lia. cbn [mbind option_bind].
    destruct (signalling_decode_total (take 3 (drop 96 proof))) as [[[ok m] md] Hs];
      [rewrite length_take, length_drop; lia|]. rewrite Hs. cbn [mbind option_bind].
    destruct (negb ok || _); [by eexists|]. destruct (negb _); [by eexists|].
    destruct (derive _) as [l2|] eqn:Hd; [|by eexists]. apply derive_ok in Hd as (s & k & _ & _ & ->).
    simpl. rewrite Hf. simpl. destruct (f e). by eexists.
  - intros token. unfold rns_link_responder_accept_rtt. destruct (negb _ || _); [by eexists|].
    assert (is_Some (reported_rtt l token)) as [r Hr].
    { unfold reported_rtt. destruct token as [|token]; [by eexists|].
      destruct (rns_token_decrypt _ _ _) as [packed|]; [|by eexists].
      destruct (Nat.eqb_spec (length packed) 9) as [Hl|]; [|by eexists]. cbn [negb]. unfold decode_double.
      destruct packed as [|a packed]; [done|]. simpl in Hl. cbn [load lookup list_lookup mbind option_bind].
      destruct (negb _); [by eexists|]. unfold memread. rewrite decide_True by (simpl; lia). by eexists. }
    rewrite Hr. cbn [mbind option_bind]. destruct r; [|by eexists]. rewrite Hf. simpl. destruct (f e). by eexists.
  - unfold rns_link_check_timeout. destruct (state l); try (by eexists); rewrite Hf; simpl; destruct (f e);
      destruct (_ >=.? _); by eexists.
Qed.

(** C2: an active link is authenticated, in every reachable state. From a link
    that was just requested or accepted, whatever packets and clock values
    arrive, every operation returns without undefined behaviour; the role, the
    private key and the remote identity never change; the state only moves
    forward, so a closed link stays closed; and whenever the link is active, the
    initiator holds a valid signature of the destination over this link's
    identifier and the peer key it derived its session key from, and the
    responder has seen a confirmation encrypted under the session key. *)
Theorem link_authenticated l e l' e' :
  is_Some l.(clock) -> l.(state) <> RNS_LINK_ACTIVE -> rtc link_step (l, e) (l', e') ->
  (l'.(state) = RNS_LINK_ACTIVE -> authenticated l') /\ advances l l' /\
  (l.(state) = RNS_LINK_CLOSED -> l'.(state) = RNS_LINK_CLOSED) /\
  (forall raw, bytes_ok raw -> is_Some (rns_link_initiator_set_request_packet l' (SBytes raw))) /\
  (forall proof, is_Some (rns_link_initiator_accept_proof l' proof e')) /\
  (forall token, is_Some (rns_link_responder_accept_rtt l' token e')) /\
  is_Some (rns_link_check_timeout l' e').
Proof.
  intros Hc Hna Hst. assert (sound l) as Hs by (split; [done|intros; done]).
  destruct (steps_sound _ _ Hst Hs) as [Hs' Ha]. simpl in Hs', Ha. split; [apply Hs'|]. split; [done|].
  split; [|by apply operations_total]. intros Hcl. destruct Ha as [_ [Ha|Ha]]; [congruence|].
  rewrite Hcl in Ha. simpl in Ha. destruct (state l'); simpl in Ha; lia.
Qed.
End StateMachine.

(** ** A concrete handshake *)
Definition sample_clock (e : list double) : double * list double :=
  match e with now :: rest => (now, rest) | [] => (dzero, []) end.

Definition blank : rns_link (list double) := fresh_link _ RNS_LINK_INITIATOR RNS_LINK_PENDING.

Definition sample_initiator : rns_link (list double) :=
  (initiator_common blank (Some (Identity.public_half Identity.sample)) None None [1] [2] 2000 (d_of_Z 10)
    (Some sample_clock) [d_of_Z 5]).1.2.

(** The request as the initiator sends it, and as a transport node forwards it. *)
Definition sample_request : Packet.rns_packet :=
  {| Packet.header_type := 0; Packet.context_flag := 0; Packet.transport_type := 0; Packet.destination_type := 0;
     Packet.packet_type := 2; Packet.hops := 0; Packet.transport_id := replicate 16 0;
     Packet.destination_hash := replicate 16 7; Packet.context := 0;
     Packet.data := SBytes (request_payload sample_initiator) |}.
Definition sample_forwarded : Packet.rns_packet :=
  let r := sample_request in
  {| r with Packet.header_type := 1; Packet.transport_type := 1; Packet.hops := 2; Packet.transport_id := replicate 16 9 |}.

Definition sample_requested : rns_link (list double) :=
  default blank (snd <$> rns_link_initiator_set_request_packet sample_initiator (SBytes (Packet.wire sample_request))).

Definition sample_responder : rns_link (list double) :=
  default blank ((λ x, x.1.2) <$> responder_common blank (Some Identity.sample) None [3]
    (SBytes (Packet.wire sample_forwarded)) (d_of_Z 10) (Some sample_clock) [d_of_Z 6]).

Definition sample_proof : list Z := default [] (rns_link_build_proof sample_responder).

Definition sample_active : rns_link (list double) :=
  default blank ((λ x, x.1.2) <$> rns_link_initiator_accept_proof sample_requested (SBytes sample_proof) [d_of_Z 7]).

Definition sample_token : list Z := default [] (rns_link_build_rtt_confirm sample_active [4] 64).

Lemma link_signalling_roundtrip_witness :
  rns_link_signalling_encode 500 1 = Some [32; 1; 244] /\ rns_link_signalling_decode [32; 1; 244] = Some (true, 500, 1).
Proof.
  destruct (link_signalling_roundtrip 500 1 32 1 244) as (H1 & _ & H3); [vm_compute; intuition congruence..|].
  pose proof (H3 500 1 eq_refl) as He. split; [exact He|]. exact (proj2 (proj2 (H1 _ He))).
Defined.

Lemma link_id_invariant_witness :
  exists id, rns_link_id_from_request_packet (SBytes (Packet.wire sample_request)) = Some id /\
    rns_link_id_from_request_packet (SBytes (Packet.wire sample_forwarded)) = Some id /\
    id = take 16 <$> rns_sha256 (link_id_message sample_request).
Proof.
  apply (link_id_invariant _ _ sample_request sample_forwarded); try (vm_compute; reflexivity);
    by apply (bool_decide_unpack _); vm_compute.
Defined.

Lemma link_handshake_witness :
  exists li2, rns_link_initiator_accept_proof sample_requested (SBytes sample_proof) [d_of_Z 7] = Some (true, li2, []) /\
    li2.(state) = RNS_LINK_ACTIVE /\ li2.(derived_key) = sample_responder.(derived_key) /\
    exists lr2, rns_link_responder_accept_rtt sample_responder (SBytes sample_token) [d_of_Z 8] = Some (true, lr2, []) /\
      lr2.(state) = RNS_LINK_ACTIVE /\ lr2.(derived_key) = li2.(derived_key).
Proof.
  destruct (link_handshake blank blank sample_initiator sample_requested sample_responder
    (Identity.public_half Identity.sample) Identity.sample None None [1] [2] 2000 (d_of_Z 10) sample_clock [d_of_Z 5] []
    (Packet.wire sample_request) (Packet.wire sample_forwarded) sample_request sample_forwarded None [3] (d_of_Z 10)
    sample_clock [d_of_Z 6] [] sample_proof [d_of_Z 7] [4] 64 sample_token [d_of_Z 8])
    as (li2 & Hacc & Hst & _ & Hk & _ & _ & Hrest).
  - lia.
  - exact Identity.sample_wf.
  - vm_compute. reflexivity.
  - vm_compute. reflexivity.
  - vm_compute. reflexivity.
  - by apply (bool_decide_unpack _); vm_compute.
  - vm_compute. reflexivity.
  - vm_compute. reflexivity.
  - by apply (bool_decide_unpack _); vm_compute.
  - vm_compute. reflexivity.
  - vm_compute. reflexivity.
  - vm_compute. reflexivity.
  - vm_compute. reflexivity.
  - assert (li2 = sample_active) as -> by (unfold sample_active; rewrite Hacc; reflexivity).
    destruct Hrest as (lr2 & Hrtt & Hst2 & Hk2 & _); try (vm_compute; reflexivity).
    exists sample_active. split; [exact Hacc|]. split; [exact Hst|]. split; [exact Hk|].
    exists lr2. exact (conj Hrtt (conj Hst2 Hk2)).
Defined.

Lemma link_authenticated_witness : authenticated sample_active.
Proof.
  refine (proj1 (link_authenticated sample_requested [d_of_Z 7] sample_active [] _ _ _) _).
  - vm_compute. by eexists.
  - vm_compute. discriminate.
  - apply rtc_once. apply (StepProof _ _ (SBytes sample_proof) true). vm_compute. reflexivity.
  - vm_compute. reflexivity.
Defined.

End Link.
