(* ===== verification/Node.v ===== *)
(** * The transport node

    Models [src/transport/node.c] and [include/reticulum/node.h]: the decision
    about one received packet (drop, deliver, forward, rebroadcast, answer a path
    request), composed of the packet codec, announces, links and the transport
    tables, and the completion of a forwarding decision.

    [local_destinations] holds the destinations in use; the C array has room for
    [local_destination_capacity] of them. The outer [option] of the operations is
    memory safety. *)

From Stdlib Require Import ZArith SpecFloat Lia.
From S2P Require Import Prelude Crypto Packet Identity Announce Transport Link.

Module Node.
Import Transport.

Definition RNS_NODE_PATH_REQUEST_CONTEXT : Z := 0x00.
Definition RNS_NODE_LINK_REQUEST_PROOF_CONTEXT : Z := 0xff.

Inductive rns_node_action : Type :=
| RNS_NODE_DROP | RNS_NODE_DELIVER | RNS_NODE_FORWARD | RNS_NODE_REBROADCAST | RNS_NODE_PATH_RESPONSE.

Inductive rns_node_reason : Type :=
| RNS_NODE_REASON_NONE | RNS_NODE_REASON_MALFORMED | RNS_NODE_REASON_DUPLICATE | RNS_NODE_REASON_MAX_HOPS
| RNS_NODE_REASON_INVALID_ANNOUNCE | RNS_NODE_REASON_STALE_ANNOUNCE | RNS_NODE_REASON_NOT_FOR_US
| RNS_NODE_REASON_NO_PATH | RNS_NODE_REASON_NO_REVERSE_PATH | RNS_NODE_REASON_WRONG_REVERSE_INTERFACE
| RNS_NODE_REASON_NO_LINK | RNS_NODE_REASON_LINK_NOT_VALIDATED | RNS_NODE_REASON_WRONG_LINK_INTERFACE
| RNS_NODE_REASON_WRONG_LINK_HOPS | RNS_NODE_REASON_INVALID_LINK_PROOF | RNS_NODE_REASON_BAD_PROOF
| RNS_NODE_REASON_BAD_PATH_REQUEST | RNS_NODE_REASON_OUTPUT_TOO_SMALL.

#[global] Instance rns_node_action_eq_dec : EqDecision rns_node_action.
Proof. solve_decision. Defined.
#[global] Instance rns_node_reason_eq_dec : EqDecision rns_node_reason.
Proof. solve_decision. Defined.

Record rns_node_config (E : Type) : Type := {
  cfg_transport : rns_transport_config E;
  cfg_transport_id : list Z;
  cfg_path_request_destination : list Z;
  cfg_max_hops : Z;
  cfg_local_destination_capacity : Z
}.
Arguments cfg_transport {E}. Arguments cfg_transport_id {E}. Arguments cfg_path_request_destination {E}.
Arguments cfg_max_hops {E}. Arguments cfg_local_destination_capacity {E}.

Record rns_node (E : Type) : Type := {
  transport : rns_transport E;
  node_transport_id : list Z;
  path_request_destination : list Z;
  max_hops : Z;
  local_destinations : option (list (list Z));
  local_destination_capacity : Z
}.
Arguments transport {E}. Arguments node_transport_id {E}. Arguments path_request_destination {E}.
Arguments max_hops {E}. Arguments local_destinations {E}. Arguments local_destination_capacity {E}.

Record rns_node_result : Type := {
  action : rns_node_action;
  reason : rns_node_reason;
  result_packet_hash : list Z;
  result_destination : list Z;
  result_next_hop : list Z;
  result_hops : Z;
  output_length : nat;
  path_request : option rns_path_request;
  has_path_request : bool;
  has_verified_announce : bool;
  received_interface_id : Z;
  forward_interface_id : Z;
  path_update : rns_path_result;
  announce_identity : Identity.rns_identity;
  announce_app_data : list Z;
  result_timebase : Z;
  announce_has_ratchet : bool;
  announce_ratchet : option (list Z);
  received_at : double;
  transport_transaction : rns_transport_transaction
}.

(** [memset(result, 0, sizeof *result)] *)
Definition zero_result : rns_node_result :=
  {| action := RNS_NODE_DROP; reason := RNS_NODE_REASON_NONE; result_packet_hash := replicate 32 0;
     result_destination := replicate 16 0; result_next_hop := replicate 16 0; result_hops := 0; output_length := 0;
     path_request := None; has_path_request := false; has_verified_announce := false; received_interface_id := 0;
     forward_interface_id := 0; path_update := RNS_PATH_REJECTED; announce_identity := Identity.zero_identity;
     announce_app_data := []; result_timebase := 0; announce_has_ratchet := false; announce_ratchet := None;
     received_at := dzero; transport_transaction := TransactionNone |}.

(** ** Assignments *)

Definition drop (why : rns_node_reason) (r : rns_node_result) : rns_node_result :=
  {| r with action := RNS_NODE_DROP; reason := why |}.
Definition set_action (a : rns_node_action) (r : rns_node_result) : rns_node_result := {| r with action := a |}.
Definition set_output (n : nat) (hops : Z) (r : rns_node_result) : rns_node_result :=
  {| r with output_length := n; result_hops := hops |}.
Definition set_output_length (n : nat) (r : rns_node_result) : rns_node_result := {| r with output_length := n |}.
Definition set_forward (interface : Z) (r : rns_node_result) : rns_node_result :=
  {| r with forward_interface_id := interface |}.
Definition set_next_hop (hop : list Z) (r : rns_node_result) : rns_node_result := {| r with result_next_hop := hop |}.
Definition set_transaction (tx : rns_transport_transaction) (r : rns_node_result) : rns_node_result :=
  {| r with transport_transaction := tx |}.
Definition set_received (interface : Z) (now : double) (r : rns_node_result) : rns_node_result :=
  {| r with received_interface_id := interface; received_at := now |}.
Definition set_packet (hash destination : list Z) (hops : Z) (r : rns_node_result) : rns_node_result :=
  {| r with result_packet_hash := hash; result_destination := destination; result_hops := hops |}.
Definition set_announce_identity (i : Identity.rns_identity) (r : rns_node_result) : rns_node_result :=
  {| r with announce_identity := i |}.
Definition set_announce (update : rns_path_result) (a : Announce.rns_announce) (r : rns_node_result)
    : rns_node_result :=
  {| r with has_verified_announce := true; path_update := update; result_timebase := a.(Announce.timestamp);
     announce_app_data := a.(Announce.app_data); announce_has_ratchet := a.(Announce.has_ratchet);
     announce_ratchet := a.(Announce.ratchet) |}.
Definition set_path_request (q : rns_path_request) (r : rns_node_result) : rns_node_result :=
  {| r with path_request := Some q |}.
Definition set_has_path_request (r : rns_node_result) : rns_node_result := {| r with has_path_request := true |}.

Section Assignments.
Context {E : Type}.
Definition set_transport (t : rns_transport E) (n : rns_node E) : rns_node E := {| n with transport := t |}.
Definition set_destinations (l : option (list (list Z))) (n : rns_node E) : rns_node E :=
  {| n with local_destinations := l |}.
End Assignments.

(** The forwarded copies of a packet. *)
Definition set_hops (h : Z) (p : Packet.rns_packet) : Packet.rns_packet := {| p with Packet.hops := h |}.
Definition set_route (header transport_type : Z) (id : list Z) (p : Packet.rns_packet) : Packet.rns_packet :=
  {| p with Packet.header_type := header; Packet.transport_type := transport_type; Packet.transport_id := id |}.

(** ** Destinations *)
Section Destinations.
Context {E : Type}.
Implicit Types (n : rns_node E).

Definition local_destination n (destination : list Z) : bool :=
  existsb (λ d, memeq d destination) (default [] n.(local_destinations)).

(** [calloc_ok] is the success of the allocation of the destinations. *)
Definition rns_node_init (sizes : Z * Z * Z * Z) (transport_calloc_ok : bool * bool * bool * bool) (calloc_ok : bool)
    (cfg : rns_node_config E) : option (rns_node E) :=
  if (cfg.(cfg_max_hops) =? 0) || (cfg.(cfg_local_destination_capacity) =? 0) ||
     (SIZE_MAX / 16 <? cfg.(cfg_local_destination_capacity)) then None
  else
    t ← rns_transport_init sizes transport_calloc_ok cfg.(cfg_transport);
    if negb calloc_ok then None
    else Some {| transport := t; node_transport_id := cfg.(cfg_transport_id);
                 path_request_destination := cfg.(cfg_path_request_destination); max_hops := cfg.(cfg_max_hops);
                 local_destinations := Some []; local_destination_capacity := cfg.(cfg_local_destination_capacity) |}.

Definition rns_node_free : rns_node E :=
  {| transport := rns_transport_free; node_transport_id := replicate 16 0;
     path_request_destination := replicate 16 0; max_hops := 0; local_destinations := None;
     local_destination_capacity := 0 |}.

Definition rns_node_register_destination n (destination : list Z) : bool * rns_node E :=
  match n.(local_destinations) with
  | None => (false, n)
  | Some l =>
      if local_destination n destination then (true, n)
      else if Z.of_nat (length l) =? n.(local_destination_capacity) then (false, n)
      else (true, set_destinations (Some (l ++ [destination])) n)
  end.

(** The last destination takes the place of the removed one. *)
Definition rns_node_unregister_destination n (destination : list Z) : bool * rns_node E :=
  match n.(local_destinations) with
  | None => (false, n)
  | Some l =>
      match find_index (λ d, memeq d destination) l with
      | None => (false, n)
      | Some i =>
          let last := (length l - 1)%nat in
          let l' := if negb (i =? last)%nat then moved ← l !! last; put i moved l else Some l in
          (true, set_destinations (take last <$> l') n)
      end
  end.
End Destinations.

(** ** Handling a packet *)

Definition path_has_random_blob (path : option rns_path_entry) (blob : list Z) : bool :=
  match path with
  | None => false
  | Some path =>
      if (RNS_TRANSPORT_MAX_RANDOM_BLOBS <? length path.(random_blobs))%nat then false
      else existsb (λ b, memeq b blob) path.(random_blobs)
  end.

Definition link_reason (route : rns_link_route_result) : rns_node_reason :=
  match route with
  | RNS_LINK_ROUTE_MISSING => RNS_NODE_REASON_NO_LINK
  | RNS_LINK_ROUTE_WRONG_INTERFACE => RNS_NODE_REASON_WRONG_LINK_INTERFACE
  | RNS_LINK_ROUTE_WRONG_HOPS => RNS_NODE_REASON_WRONG_LINK_HOPS
  | RNS_LINK_ROUTE_NOT_VALIDATED => RNS_NODE_REASON_LINK_NOT_VALIDATED
  | RNS_LINK_ROUTE_INVALID_PROOF => RNS_NODE_REASON_INVALID_LINK_PROOF
  | RNS_LINK_ROUTE_MATCHED => RNS_NODE_REASON_NONE
  end.

Definition ordinary_proof (p : Packet.rns_packet) : bool :=
  (p.(Packet.packet_type) =? 3) && (p.(Packet.destination_type) =? 0).

(** The C result, the output object and the result structure. *)
Definition encode_forward (p : Packet.rns_packet) (output : option (list Z)) (output_capacity : nat)
    (r : rns_node_result) : option (bool * option (list Z) * rns_node_result) :=
  match output with
  | None => Some (false, output, drop RNS_NODE_REASON_OUTPUT_TOO_SMALL (set_output_length 0 r))
  | Some _ =>
      x ← Packet.rns_packet_encode p output output_capacity (Some r.(output_length));
      let '(ok, output, len) := x in
      if (ok : bool) then Some (true, output, set_output (default 0%nat len) p.(Packet.hops) r)
      else Some (false, output, drop RNS_NODE_REASON_OUTPUT_TOO_SMALL (set_output_length 0 r))
  end.

(** Encoding into the local array [encoded] of a handler: [None] is a packet
    that does not fit the array or the output. *)
Definition encode_local (p : Packet.rns_packet) (output : option (list Z)) (output_capacity : nat)
    : option (option (list Z)) :=
  match output with
  | None => Some None
  | Some _ =>
      x ← Packet.rns_packet_encode p (Some (replicate Packet.RNS_MTU 0)) Packet.RNS_MTU (Some 0%nat);
      let '(ok, encoded, len) := x in
      let len := default 0%nat len in
      if negb ok || (output_capacity <? len)%nat then Some None
      else
        encoded ← encoded;
        bytes ← memread encoded 0 len;
        Some (Some bytes)
  end.

(** [memcpy(output, encoded, encoded_length)] *)
Definition copy_out (output : option (list Z)) (bytes : list Z) : option (option (list Z)) :=
  o ← output; o ← memcpy o 0 bytes; Some (Some o).

Section Handlers.
Context `{Crypto} {E : Type}.
Variable malloc_ok : nat -> bool.
Implicit Types (n : rns_node E) (e : E) (r : rns_node_result).

(** What a handler returns: the node, the output object, the result and the
    clock's context. *)
Abbreviation handled := (option (rns_node E * option (list Z) * rns_node_result * E)).

(** The end of [handle_announce], for an announce the path table took. *)
Definition rebroadcast_announce n (p : Packet.rns_packet) (announce : Announce.rns_announce)
    (update : rns_path_result) (output : option (list Z)) (output_capacity : nat) r e : handled :=
  match Identity.rns_identity_from_public announce.(Announce.public_key) with
  | None => Some (n, output, drop RNS_NODE_REASON_INVALID_ANNOUNCE r, e)
  | Some ident =>
      let r := set_announce_identity ident r in
      let '(ok, t, e) := rns_transport_set_path_identity n.(transport) p.(Packet.destination_hash)
                           (Some announce.(Announce.public_key)) e in
      let n := set_transport t n in
      if negb ok then Some (n, output, drop RNS_NODE_REASON_INVALID_ANNOUNCE r, e)
      else
        let r := set_announce update announce r in
        let forwarded := set_hops (wrap8 (p.(Packet.hops) + 1))
                           (set_route Packet.RNS_PACKET_HEADER_2 1 n.(node_transport_id) p) in
        x ← encode_forward forwarded output output_capacity r;
        let '(ok, output, r) := x in
        Some (n, output, if (ok : bool) then set_action RNS_NODE_REBROADCAST r else r, e)
  end.

Definition handle_announce n (p : Packet.rns_packet) (packet_hash : list Z) (received gravity : Z)
    (output : option (list Z)) (output_capacity : nat) r e : handled :=
  parsed ← Announce.rns_announce_parse p.(Packet.data) p.(Packet.context_flag);
  verified ← (if parsed is Some _ then Announce.rns_announce_verify malloc_ok p.(Packet.destination_hash) p.(Packet.data)
                               p.(Packet.context_flag)
              else Some false);
  match parsed, verified with
  | Some announce, true =>
      let '(new_packet_hash, t, e) := rns_transport_accept_packet_hash n.(transport) packet_hash e in
      let '(duplicate, t, e) :=
        if negb new_packet_hash then
          let '(i, t, e) := rns_transport_lookup t p.(Packet.destination_hash) e in
          let current := path_at t <$> i in
          (match current with
           | Some c => negb (path_has_random_blob current announce.(Announce.random_blob)) ||
                       (negb c.(unresponsive) && (gravity <=? c.(interface_gravity)))
           | None => true
           end, t, e)
        else (false, t, e) in
      if (duplicate : bool) then Some (set_transport t n, output, drop RNS_NODE_REASON_DUPLICATE r, e)
      else
        let next_hop := if p.(Packet.header_type) =? Packet.RNS_PACKET_HEADER_2
                        then p.(Packet.transport_id) else p.(Packet.destination_hash) in
        let '(update, t, e) := rns_transport_consider_announce t p.(Packet.destination_hash) next_hop received gravity
                                 (wrap8 (p.(Packet.hops) + 1)) announce.(Announce.random_blob) packet_hash e in
        match update with
        | RNS_PATH_REJECTED =>
            Some (set_transport t n, output,
                  drop (if new_packet_hash then RNS_NODE_REASON_STALE_ANNOUNCE else RNS_NODE_REASON_DUPLICATE) r, e)
        | _ =>
rebroadcast_announce (set_transport t n) p announce update output output_capacity r e
        end
  | _, _ => Some (n, output, drop RNS_NODE_REASON_INVALID_ANNOUNCE r, e)
  end.

Definition handle_path_request n (p : Packet.rns_packet) (output : option (list Z)) r e : handled :=
  q ← (if negb (p.(Packet.context) =? RNS_NODE_PATH_REQUEST_CONTEXT) then Some None
       else rns_path_request_parse p.(Packet.data));
  match q with
  | None => Some (n, output, drop RNS_NODE_REASON_BAD_PATH_REQUEST r, e)
  | Some q =>
      let r := set_path_request q r in
      if local_destination n q.(request_destination)
      then Some (n, output, set_action RNS_NODE_PATH_RESPONSE (set_has_path_request r), e)
      else
        let '(i, t, e) := rns_transport_lookup n.(transport) q.(request_destination) e in
        let n := set_transport t n in
        match i with
        | None => Some (n, output, drop RNS_NODE_REASON_NO_PATH r, e)
        | Some _ => Some (n, output, set_action RNS_NODE_PATH_RESPONSE (set_has_path_request r), e)
        end
  end.

Definition handle_link_packet n (p : Packet.rns_packet) (received : Z) (output : option (list Z))
    (output_capacity : nat) r e : handled :=
  let link_request_proof :=
    (p.(Packet.packet_type) =? 3) && (p.(Packet.context) =? RNS_NODE_LINK_REQUEST_PROOF_CONTEXT) in
  if link_request_proof && negb (slice_length p.(Packet.data) =? Link.RNS_LINK_PROOF_BYTES)%nat
  then Some (n, output, drop RNS_NODE_REASON_INVALID_LINK_PROOF r, e)
  else
    let forwarded_hops := wrap8 (p.(Packet.hops) + 1) in
    encoded ← encode_local (set_hops forwarded_hops p) output output_capacity;
    match encoded with
    | None => Some (n, output, drop RNS_NODE_REASON_OUTPUT_TOO_SMALL r, e)
    | Some bytes =>
        x ← (if link_request_proof
             then rns_transport_accept_link_proof_transaction n.(transport) p.(Packet.destination_hash)
                    p.(Packet.data) received forwarded_hops (Some 0) (Some r.(transport_transaction)) e
             else Some (rns_transport_route_link_transaction n.(transport) p.(Packet.destination_hash)
                    received forwarded_hops (Some 0) (Some r.(transport_transaction)) e));
        let '(route, t, forward, tx, e) := x in
        let n := set_transport t n in
        let r := set_transaction (default TransactionNone tx) r in
        match route with
        | RNS_LINK_ROUTE_MATCHED =>
            output ← copy_out output bytes;
            Some (n, output, set_action RNS_NODE_FORWARD (set_forward (default 0 forward)
                    (set_output (length bytes) forwarded_hops r)), e)
        | _ => Some (n, output, drop (link_reason route) r, e)
        end
    end.

Definition handle_ordinary_proof n (p : Packet.rns_packet) (packet_hash : list Z) (received : Z)
    (output : option (list Z)) (output_capacity : nat) r e : handled :=
  if negb (p.(Packet.header_type) =? Packet.RNS_PACKET_HEADER_1) || negb (p.(Packet.context) =? 0) ||
     (negb (slice_length p.(Packet.data) =? 64)%nat && negb (slice_length p.(Packet.data) =? 96)%nat)
  then Some (n, output, drop RNS_NODE_REASON_BAD_PROOF r, e)
  else
    let forwarded := set_hops (wrap8 (p.(Packet.hops) + 1)) p in
    encoded ← encode_local forwarded output output_capacity;
    match encoded with
    | None => Some (n, output, drop RNS_NODE_REASON_OUTPUT_TOO_SMALL r, e)
    | Some bytes =>
        let '(accepted, t, e) := rns_transport_accept_packet_hash n.(transport) packet_hash e in
        if negb accepted then Some (set_transport t n, output, drop RNS_NODE_REASON_DUPLICATE r, e)
        else
          let '(rev, t, forward, e) := rns_transport_consume_reverse t p.(Packet.destination_hash) received (Some 0) e in
          let n := set_transport t n in
          match rev with
          | RNS_REVERSE_MISSING => Some (n, output, drop RNS_NODE_REASON_NO_REVERSE_PATH r, e)
          | RNS_REVERSE_WRONG_INTERFACE => Some (n, output, drop RNS_NODE_REASON_WRONG_REVERSE_INTERFACE r, e)
          | RNS_REVERSE_MATCHED =>
              output ← copy_out output bytes;
              Some (n, output, set_action RNS_NODE_FORWARD (set_forward (default 0 forward)
                      (set_output (length bytes) forwarded.(Packet.hops) r)), e)
          end
    end.

(** The packet to send on a path: directly to a neighbour, or through the next
    transport node. *)
Definition routed_packet (p : Packet.rns_packet) (path : rns_path_entry) : Packet.rns_packet :=
  set_hops (wrap8 (p.(Packet.hops) + 1))
    (if path.(path_hops) <=? 1 then set_route Packet.RNS_PACKET_HEADER_1 0 (replicate 16 0) p
     else set_route Packet.RNS_PACKET_HEADER_2 1 path.(path_next_hop) p).

Definition handle_routed n (p : Packet.rns_packet) (packet_hash : list Z) (received : Z)
    (output : option (list Z)) (output_capacity : nat) r e : handled :=
  let '(i, t, e) := rns_transport_lookup n.(transport) p.(Packet.destination_hash) e in
  let n := set_transport t n in
  match i with
  | None => Some (n, output, drop RNS_NODE_REASON_NO_PATH r, e)
  | Some i =>
      let path := path_at t i in
      let is_request := p.(Packet.packet_type) =? 2 in
      if is_request && (negb (slice_length p.(Packet.data) =? Link.RNS_LINK_REQUEST_BYTES)%nat ||
                        negb path.(has_identity))
      then Some (n, output, drop RNS_NODE_REASON_NO_PATH r, e)
      else
        let forwarded := routed_packet p path in
        x ← encode_forward forwarded output output_capacity r;
        let '(ok, output, r) := x in
        if negb ok then Some (n, output, r, e)
        else
          let r := set_next_hop path.(path_next_hop) (set_forward path.(path_interface) r) in
          y ← (if is_request then
                 o ← output;
                 sent ← memread o 0 r.(output_length);
                 id ← Link.rns_link_id_from_request_packet (SBytes sent);
                 match id with
                 | None => Some (false, t, transport_transaction r, e)
                 | Some id =>
                     let '(ok, t, tx, e) := rns_transport_record_link_request_transaction t id (Some path) received
                                              forwarded.(Packet.hops) (Some r.(transport_transaction)) e in
                     Some (ok, t, default TransactionNone tx, e)
                 end
               else
                 let '(ok, t, tx, e) := rns_transport_record_reverse_transaction t packet_hash received
                                          path.(path_interface) (Some r.(transport_transaction)) e in
                 Some (ok, t, default TransactionNone tx, e));
          let '(ok, t, tx, e) := y in
          let n := set_transport t n in
          let r := set_transaction tx r in
          if negb ok
          then Some (n, output, drop RNS_NODE_REASON_NO_PATH (set_forward 0 (set_output_length 0 r)), e)
          else Some (n, output, set_action RNS_NODE_FORWARD r, e)
  end.

(** The dispatch on a decoded packet below the hop limit. *)
Definition dispatch n (p : Packet.rns_packet) (packet_hash : list Z) (received gravity : Z)
    (output : option (list Z)) (output_capacity : nat) r e : handled :=
  if ordinary_proof p then handle_ordinary_proof n p packet_hash received output output_capacity r e
  else if p.(Packet.packet_type) =? 1
  then handle_announce n p packet_hash received gravity output output_capacity r e
  else if local_destination n p.(Packet.destination_hash) then
    let '(accepted, t, e) := rns_transport_accept_packet_hash n.(transport) packet_hash e in
    let n := set_transport t n in
    if negb accepted then Some (n, output, drop RNS_NODE_REASON_DUPLICATE r, e)
    else Some (n, output, set_action RNS_NODE_DELIVER r, e)
  else if p.(Packet.destination_type) =? 3
  then handle_link_packet n p received output output_capacity r e
  else if (p.(Packet.header_type) =? Packet.RNS_PACKET_HEADER_2) &&
          negb (memeq p.(Packet.transport_id) n.(node_transport_id))
  then Some (n, output, drop RNS_NODE_REASON_NOT_FOR_US r, e)
  else
    let '(accepted, t, e) := rns_transport_accept_packet_hash n.(transport) packet_hash e in
    let n := set_transport t n in
    if negb accepted then Some (n, output, drop RNS_NODE_REASON_DUPLICATE r, e)
    else if (p.(Packet.destination_type) =? 2) && memeq p.(Packet.destination_hash) n.(path_request_destination)
    then handle_path_request n p output r e
    else handle_routed n p packet_hash received output output_capacity r e.

Definition rns_node_ingress n (raw : slice) (received gravity : Z) (output : option (list Z))
    (output_capacity : nat) e : handled :=
  let '(now, e) := match n.(transport).(config).(clock) with Some clk => clk e | None => (dzero, e) end in
  let r := set_received received now zero_result in
  let malformed := Some (n, output, drop RNS_NODE_REASON_MALFORMED r, e) in
  if (Packet.RNS_MTU <? slice_length raw)%nat then malformed
  else
    match Packet.rns_packet_decode raw, Packet.rns_packet_hash raw with
    | Some p, Some hash =>
        let r := set_packet hash p.(Packet.destination_hash) p.(Packet.hops) r in
        if n.(max_hops) <=? p.(Packet.hops)
        then Some (n, output, drop RNS_NODE_REASON_MAX_HOPS r, e)
        else dispatch n p hash received gravity output output_capacity r e
    | _, _ => malformed
    end.

Definition rns_node_complete_forward n r (sent : bool) : bool * rns_node E * rns_node_result :=
  if negb (bool_decide (r.(action) = RNS_NODE_FORWARD)) then (false, n, r)
  else if sent then (true, n, set_transaction TransactionNone r)
  else
    let '(ok, t, tx) := rns_transport_transaction_rollback n.(transport) r.(transport_transaction) in
    (ok, set_transport t n, set_transaction tx r).
End Handlers.

(** ** What the node promises *)

(** A well-formed node. *)
Record node_wf {E} (n : rns_node E) : Prop := {
  nw_transport : wf n.(transport);
  nw_id : length n.(node_transport_id) = 16%nat;
  nw_hops : 0 < n.(max_hops) < 256;
  nw_destinations : exists l, n.(local_destinations) = Some l /\ NoDup l /\
    Z.of_nat (length l) <= n.(local_destination_capacity)
}.

(** [q] is [p] one hop further: the same packet end to end, one more hop, within
    the MTU. *)
Definition forwards (p q : Packet.rns_packet) : Prop :=
  Packet.wf q /\ Packet.identity_part q = Packet.identity_part p /\ q.(Packet.hops) = p.(Packet.hops) + 1 /\
  (length (Packet.wire q) <= Packet.RNS_MTU)%nat.

Definition same_node {E} (n n' : rns_node E) : Prop := n' = set_transport n'.(transport) n.

(** The output object holds the capacity the caller states. *)
Definition output_ok (output : option (list Z)) (capacity : nat) : Prop :=
  forall o, output = Some o -> (capacity <= length o)%nat.

(** A result structure before a decision. *)
Definition undecided (r : rns_node_result) : Prop :=
  r.(reason) = RNS_NODE_REASON_NONE /\ r.(output_length) = 0%nat /\ r.(transport_transaction) = TransactionNone.

(** [q], the packet [p] one hop further, is in the output. *)
Definition sent (p q : Packet.rns_packet) (output : option (list Z)) (capacity : nat) (output' : option (list Z))
    (r : rns_node_result) : Prop :=
  exists b b', output = Some b /\ output' = Some b' /\ forwards p q /\ (length (Packet.wire q) <= capacity)%nat /\
    wrote (length b) b' (Packet.wire q) /\ r.(output_length) = length (Packet.wire q) /\
    r.(result_hops) = q.(Packet.hops).

(** The outcome of handling a packet. A drop names its reason and sends nothing.
    Only packets for a registered destination are delivered, only requests to the
    path request destination are answered, and neither sends anything. What is
    forwarded is the packet one hop further, and never an announce. What is
    rebroadcast is a verified announce, one hop further and through this node. *)
Definition decided `{Crypto} {E} (malloc_ok : nat -> bool) (p : Packet.rns_packet) (output : option (list Z))
    (capacity : nat) (n n' : rns_node E) (output' : option (list Z)) (r : rns_node_result) : Prop :=
  node_wf n' /\ same_node n n' /\
  match r.(action) with
  | RNS_NODE_DROP => r.(reason) <> RNS_NODE_REASON_NONE /\ r.(output_length) = 0%nat
  | RNS_NODE_DELIVER =>
      r.(reason) = RNS_NODE_REASON_NONE /\ r.(output_length) = 0%nat /\ output' = output /\
      local_destination n p.(Packet.destination_hash) = true /\ p.(Packet.packet_type) <> 1
  | RNS_NODE_PATH_RESPONSE =>
      r.(reason) = RNS_NODE_REASON_NONE /\ r.(output_length) = 0%nat /\ output' = output /\
      p.(Packet.destination_hash) = n.(path_request_destination) /\ r.(has_path_request) = true /\
      rns_path_request_parse p.(Packet.data) = Some r.(path_request)
  | RNS_NODE_FORWARD =>
      r.(reason) = RNS_NODE_REASON_NONE /\ p.(Packet.packet_type) <> 1 /\ exists q, sent p q output capacity output' r
  | RNS_NODE_REBROADCAST =>
      r.(reason) = RNS_NODE_REASON_NONE /\ p.(Packet.packet_type) = 1 /\
      Announce.rns_announce_verify malloc_ok p.(Packet.destination_hash) p.(Packet.data) p.(Packet.context_flag) = Some true /\
      r.(has_verified_announce) = true /\
      exists q, sent p q output capacity output' r /\ q.(Packet.header_type) = Packet.RNS_PACKET_HEADER_2 /\
        q.(Packet.transport_id) = n.(node_transport_id)
  end.

(** *** Encoding *)

Lemma encode_forward_spec q o capacity r :
  Packet.wf q -> (capacity <= length o)%nat ->
  exists ok o' r', encode_forward q (Some o) capacity r = Some (ok, Some o', r') /\
    if (ok : bool) then wrote (length o) o' (Packet.wire q) /\ (length (Packet.wire q) <= Packet.RNS_MTU)%nat /\
      (length (Packet.wire q) <= capacity)%nat /\ r' = set_output (length (Packet.wire q)) q.(Packet.hops) r
    else r' = drop RNS_NODE_REASON_OUTPUT_TOO_SMALL (set_output_length 0 r).
Proof.
  intros Hq Hcap. unfold encode_forward. pose proof (Packet.encode_wire q o capacity (output_length r) Hq Hcap) as He.
  case_decide as Hd.
  - destruct He as (o' & -> & Hw). eexists true, o', _. split; [done|]. split_and!; [done|lia|lia|done].
  - rewrite He. by eexists false, o, _.
Qed.

Lemma encode_local_spec q o capacity :
  Packet.wf q ->
  exists b, encode_local q (Some o) capacity = Some b /\
    forall bytes, b = Some bytes -> bytes = Packet.wire q /\ (length (Packet.wire q) <= Packet.RNS_MTU)%nat /\
      (length (Packet.wire q) <= capacity)%nat.
Proof.
  intros Hq. unfold encode_local.
  pose proof (Packet.encode_wire q (replicate Packet.RNS_MTU 0) Packet.RNS_MTU 0 Hq) as He.
  rewrite length_replicate in He. specialize (He (le_n _)). case_decide as Hd.
  - destruct He as (o' & -> & Hw). generalize dependent (Packet.wire q). intros w Hd Hw. cbn [mbind option_bind negb orb].
    change (default 0%nat (Some (length w))) with (length w). destruct (Nat.ltb_spec capacity (length w)); [by exists None|]. cbn [mbind option_bind].
    rewrite (wrote_read _ _ _ Hw). cbn [mbind option_bind]. eexists. split; [done|]. intros bytes [= <-].
    split_and!; [done|lia|lia].
  - rewrite He. by exists None.
Qed.

Lemma copy_out_spec o bytes :
  (length bytes <= length o)%nat -> exists o', copy_out (Some o) bytes = Some (Some o') /\ wrote (length o) o' bytes.
Proof.
  intros Hl. unfold copy_out. simpl.
  destruct (wrote_memcpy (length o) o [] bytes) as (o' & Ho & Hw); [by apply wrote_nil|simpl; lia|].
  simpl in Ho. rewrite Ho. simpl. eauto.
Qed.

(** *** Forwarded packets *)

Lemma forwards_hops p :
  Packet.wf p -> p.(Packet.hops) + 1 < 256 ->
  let q := set_hops (wrap8 (p.(Packet.hops) + 1)) p in
  Packet.wf q /\ Packet.identity_part q = Packet.identity_part p /\ q.(Packet.hops) = p.(Packet.hops) + 1.
Proof.
  intros Hp Hh. pose proof (Packet.wf_hops p Hp) as [Hlo Hhi].
  assert (wrap8 (Packet.hops p + 1) = Packet.hops p + 1) as E by (apply wrap_small; unfold in_width; lia).
  split_and!; [|done|exact E]. destruct Hp. constructor; try done. simpl. rewrite E. unfold in_width. lia.
Qed.

Lemma forwards_route p header tt id :
  Packet.wf p -> 0 <= header <= 1 -> 0 <= tt <= 1 -> length id = 16%nat ->
  let q := set_route header tt id p in
  Packet.wf q /\ Packet.identity_part q = Packet.identity_part p /\ q.(Packet.hops) = p.(Packet.hops).
Proof. intros Hp Hh Ht Hi. split_and!; [|done|done]. destruct Hp. constructor; simpl; done || lia. Qed.

(** Both rewritings together. *)
Lemma forwards_routed p header tt id :
  Packet.wf p -> p.(Packet.hops) + 1 < 256 -> 0 <= header <= 1 -> 0 <= tt <= 1 -> length id = 16%nat ->
  let q := set_hops (wrap8 (p.(Packet.hops) + 1)) (set_route header tt id p) in
  Packet.wf q /\ Packet.identity_part q = Packet.identity_part p /\ q.(Packet.hops) = p.(Packet.hops) + 1.
Proof.
  intros Hp Hh Hht Htt Hid. destruct (forwards_route p header tt id Hp Hht Htt Hid) as (Hq & Hpart & Hhops).
  destruct (forwards_hops (set_route header tt id p) Hq) as (Hw & Hpart' & Hh'); [done|].
  exact (conj Hw (conj (eq_trans Hpart' Hpart) (eq_trans Hh' (f_equal (λ h, h + 1) Hhops)))).
Qed.

Section Nodes.
Context `{Crypto} {E : Type}.
Variable malloc_ok : nat -> bool.
Implicit Types (n : rns_node E) (e : E) (r : rns_node_result).
Abbreviation decided := (decided malloc_ok).

Lemma set_transport_wf n t : node_wf n -> wf t -> node_wf (set_transport t n) /\ same_node n (set_transport t n).
Proof. intros [] Ht. by split; [constructor|]. Qed.

Lemma set_transport_twice n t t' : set_transport t (set_transport t' n) = set_transport t n.
Proof. done. Qed.

Lemma same_node_trans n1 n2 n3 : same_node n1 n2 -> same_node n2 n3 -> same_node n1 n3.
Proof. unfold same_node. intros -> ->. by rewrite set_transport_twice. Qed.

Lemma dropped p output capacity n n' output' why r :
  node_wf n' -> same_node n n' -> why <> RNS_NODE_REASON_NONE -> r.(output_length) = 0%nat ->
  decided p output capacity n n' output' (drop why r).
Proof. intros. by split_and!. Qed.

Lemma same_node_refl n : same_node n n.
Proof. by destruct n. Qed.

Lemma dropped_here p output capacity n output' why r :
  node_wf n -> why <> RNS_NODE_REASON_NONE -> r.(output_length) = 0%nat ->
  decided p output capacity n n output' (drop why r).
Proof. intros. by apply dropped; [|apply same_node_refl|..]. Qed.

(** Dropping after the transport tables changed. *)
Lemma dropped_at p output capacity n t output' why r :
  node_wf n -> wf t -> why <> RNS_NODE_REASON_NONE -> r.(output_length) = 0%nat ->
  decided p output capacity n (set_transport t n) output' (drop why r).
Proof. intros Hn Ht Hw Hr. destruct (set_transport_wf n t Hn Ht). by apply dropped. Qed.

Lemma answered p output capacity n t r q :
  node_wf n -> wf t -> undecided r -> p.(Packet.destination_hash) = n.(path_request_destination) ->
  rns_path_request_parse p.(Packet.data) = Some (Some q) ->
  decided p output capacity n (set_transport t n) output
    (set_action RNS_NODE_PATH_RESPONSE (set_has_path_request (set_path_request q r))).
Proof. intros Hn Ht (H1 & H2 & _) Hd Hq. destruct (set_transport_wf n t Hn Ht). by split_and!. Qed.

(** Sending the packet one hop further. *)
Lemma sent_on p q o o' capacity r :
  Packet.wf q -> Packet.identity_part q = Packet.identity_part p ->
  q.(Packet.hops) = p.(Packet.hops) + 1 -> (length (Packet.wire q) <= Packet.RNS_MTU)%nat ->
  (length (Packet.wire q) <= capacity)%nat -> wrote (length o) o' (Packet.wire q) ->
  r.(output_length) = length (Packet.wire q) -> r.(result_hops) = q.(Packet.hops) ->
  sent p q (Some o) capacity (Some o') r.
Proof. intros. by exists o, o'. Qed.

Lemma forwarded p q output output' capacity n t r :
  node_wf n -> wf t -> p.(Packet.packet_type) <> 1 -> r.(reason) = RNS_NODE_REASON_NONE ->
  r.(action) = RNS_NODE_FORWARD -> sent p q output capacity output' r ->
  decided p output capacity n (set_transport t n) output' r.
Proof.
  intros Hn Ht Hp Hr Ha Hs. destruct (set_transport_wf n t Hn Ht). split; [done|]. split; [done|].
  rewrite Ha. eauto.
Qed.

(** *** The handlers *)

Lemma handle_path_request_ok p output capacity n r e :
  node_wf n -> undecided r -> p.(Packet.destination_hash) = n.(path_request_destination) ->
  exists n' output' r' e', handle_path_request n p output r e = Some (n', output', r', e') /\
    decided p output capacity n n' output' r'.
Proof.
  intros Hn Hr Hd. pose proof Hr as (_ & Hlen & _). unfold handle_path_request.
  pose proof (nw_transport n Hn) as Ht. destruct (path_request_parse_total (Packet.data p)) as (q & Hq).
  destruct (negb _); [by eexists _, _, _, _; split; [|apply dropped_here]|].
  rewrite Hq. cbn [mbind option_bind].
  destruct q as [q|]; [|by eexists _, _, _, _; split; [|apply dropped_here]].
  destruct (local_destination n (request_destination q)).
  { eexists _, _, _, _. split; [done|]. pose proof (answered p output capacity n (transport n) r q Hn Ht Hr Hd Hq) as Ha.
    by rewrite <-(same_node_refl n : n = _) in Ha. }
  pose proof (lookup_wf (transport n) (request_destination q) e Ht) as Hl.
  destruct (rns_transport_lookup _ _ _) as [[i t] e']. destruct Hl as (Hw & _).
  destruct i; eexists _, _, _, _; (split; [done|]); [by apply answered|by apply dropped_at].
Qed.

Lemma handle_ordinary_proof_ok p hash received output capacity n r e :
  node_wf n -> Packet.wf p -> p.(Packet.hops) + 1 < 256 -> output_ok output capacity -> undecided r ->
  p.(Packet.packet_type) <> 1 ->
  exists n' output' r' e', handle_ordinary_proof n p hash received output capacity r e = Some (n', output', r', e') /\
    decided p output capacity n n' output' r'.
Proof.
  intros Hn Hp Hh Ho (Hr1 & Hr2 & Hr3) Hpt. unfold handle_ordinary_proof. pose proof (nw_transport n Hn) as Ht.
  destruct (_ || _ || _); [by eexists _, _, _, _; split; [|apply dropped_here]|].
  destruct (forwards_hops p Hp Hh) as (Hq & Hpart & Hqh). set (q := set_hops _ p) in *.
  destruct output as [o|]; [|by eexists _, _, _, _; split; [|apply dropped_here]].
  destruct (encode_local_spec q o capacity Hq) as (b & -> & Hb). cbn [mbind option_bind].
  destruct b as [bytes|]; [|by eexists _, _, _, _; split; [|apply dropped_here]].
  destruct (Hb _ eq_refl) as (-> & Hm & Hc). pose proof (accept_wf (transport n) hash e Ht) as Ha.
  destruct (rns_transport_accept_packet_hash _ _ _) as [[acc t] e1]. simpl in Ha.
  destruct acc; cbn [negb]; [|by eexists _, _, _, _; split; [|apply dropped_at]].
  pose proof (consume_reverse_wf t (Packet.destination_hash p) received (Some 0) e1 Ha) as Hcr.
  destruct (rns_transport_consume_reverse _ _ _ _ _) as [[[rev t2] fwd] e2]. simpl in Hcr.
  destruct rev; [by eexists _, _, _, _; split; [|apply dropped_at]| |
    by eexists _, _, _, _; split; [|apply dropped_at]].
  destruct (copy_out_spec o (Packet.wire q)) as (o' & -> & Hw); [specialize (Ho o eq_refl); lia|]. cbn [mbind option_bind].
  eexists _, _, _, _. split; [done|]. eapply (forwarded p q); try done. by apply sent_on.
Qed.

Lemma handle_link_packet_ok p received output capacity n r e :
  node_wf n -> Packet.wf p -> Packet.canonical p = p -> p.(Packet.hops) + 1 < 256 -> output_ok output capacity -> undecided r ->
  p.(Packet.packet_type) <> 1 ->
  exists n' output' r' e', handle_link_packet n p received output capacity r e = Some (n', output', r', e') /\
    decided p output capacity n n' output' r'.
Proof.
  intros Hn Hp Hcan Hh Ho (Hr1 & Hr2 & Hr3) Hpt. unfold handle_link_packet. pose proof (nw_transport n Hn) as Ht.
  set (lrp := (Packet.packet_type p =? 3) && (Packet.context p =? _)). destruct (lrp && _); [by eexists _, _, _, _; split; [|apply dropped_here]|].
  destruct (forwards_hops p Hp Hh) as (Hq & Hpart & Hqh). set (q := set_hops _ p) in *.
  destruct output as [o|]; [|by eexists _, _, _, _; split; [|apply dropped_here]].
  destruct (encode_local_spec q o capacity Hq) as (b & -> & Hb). cbn [mbind option_bind].
  destruct b as [bytes|]; [|by eexists _, _, _, _; split; [|apply dropped_here]].
  destruct (Hb _ eq_refl) as (-> & Hm & Hc).
  assert (Packet.data p = SBytes (slice_bytes (Packet.data p))) as -> by (by rewrite <-Hcan at 1).
  set (h := wrap8 _). set (tx := Some (transport_transaction r)).
  assert (exists route t f tx' e', (if lrp
      then rns_transport_accept_link_proof_transaction (transport n) (Packet.destination_hash p)
             (SBytes (slice_bytes (Packet.data p))) received h (Some 0) tx e
      else Some (rns_transport_route_link_transaction (transport n) (Packet.destination_hash p) received h (Some 0) tx e))
      = Some (route, t, f, tx', e') /\ wf t) as (route & t & f & tx' & e' & -> & Hw).
  { destruct lrp.
    - destruct (accept_proof_tx_wf (transport n) (Packet.destination_hash p) (slice_bytes (Packet.data p)) received h 0 tx e Ht)
        as (route & t & f & tx' & e' & -> & Hw). by eexists _, _, _, _, _.
    - pose proof (route_tx_wf (transport n) (Packet.destination_hash p) received h 0 tx e Ht) as Hw.
      destruct (rns_transport_route_link_transaction _ _ _ _ _ _ _) as [[[[route t] f] tx'] e']. by eexists _, _, _, _, _. }
  cbn [mbind option_bind].
  destruct route; try (by eexists _, _, _, _; split; [|apply dropped_at]).
  destruct (copy_out_spec o (Packet.wire q)) as (o' & -> & Hwr); [specialize (Ho o eq_refl); lia|]. cbn [mbind option_bind].
  eexists _, _, _, _. split; [done|]. eapply (forwarded p q); try done. by apply sent_on.
Qed.

Lemma rebroadcast_ok p a update output capacity n t r e :
  node_wf n -> wf t -> Packet.wf p -> p.(Packet.hops) + 1 < 256 -> output_ok output capacity ->
  r.(reason) = RNS_NODE_REASON_NONE -> r.(output_length) = 0%nat -> p.(Packet.packet_type) = 1 ->
  length a.(Announce.public_key) = 64%nat ->
  Announce.rns_announce_verify malloc_ok p.(Packet.destination_hash) p.(Packet.data) p.(Packet.context_flag) = Some true ->
  exists n' output' r' e', rebroadcast_announce (set_transport t n) p a update output capacity r e =
      Some (n', output', r', e') /\ decided p output capacity n n' output' r'.
Proof.
  intros Hn Ht Hp Hh Ho Hr1 Hr2 Hpt Hk Hv. unfold rebroadcast_announce.
  destruct (Identity.rns_identity_from_public _) as [idn|]; [|by eexists _, _, _, _; split; [|apply dropped_at]].
  pose proof (set_identity_wf t (Packet.destination_hash p) (Announce.public_key a) e Ht Hk) as Ht4.
  cbn [transport set_transport].
  destruct (rns_transport_set_path_identity _ _ _ _) as [[ok t4] e4]. cbn [fst snd] in Ht4. rewrite set_transport_twice.
  destruct ok; cbn [negb]; [|by eexists _, _, _, _; split; [|apply dropped_at]].
  destruct (forwards_routed p Packet.RNS_PACKET_HEADER_2 1 (node_transport_id n) Hp Hh) as (Hq & Hpart & Hqh);
    [done..|by apply nw_id|].
  change (node_transport_id (set_transport t4 n)) with (node_transport_id n). set (q := set_hops _ _) in *.
  destruct output as [o|]; [|by eexists _, _, _, _; split; [|apply dropped_at]].
  destruct (encode_forward_spec q o capacity (set_announce update a (set_announce_identity idn r)) Hq (Ho o eq_refl))
    as (ok & o' & r' & -> & Hr'). cbn [mbind option_bind].
  destruct ok; [|subst r'; by eexists _, _, _, _; split; [|apply dropped_at]].
  destruct Hr' as (Hw & Hm & Hc & ->). eexists _, _, _, _. split; [done|].
  destruct (set_transport_wf n t4 Hn Ht4). split; [done|]. split; [done|].
  cbn [action set_action]. split_and!; try done. exists q. split; [|done]. by apply sent_on.
Qed.

Lemma handle_announce_ok p hash received gravity output capacity n r e :
  node_wf n -> Packet.wf p -> Packet.canonical p = p -> p.(Packet.hops) + 1 < 256 -> output_ok output capacity ->
  undecided r -> p.(Packet.packet_type) = 1 ->
  exists n' output' r' e', handle_announce malloc_ok n p hash received gravity output capacity r e =
      Some (n', output', r', e') /\ decided p output capacity n n' output' r'.
Proof.
  intros Hn Hp Hcan Hh Ho (Hr1 & Hr2 & _) Hpt. unfold handle_announce. pose proof (nw_transport n Hn) as Ht.
  assert (Packet.data p = SBytes (slice_bytes (Packet.data p))) as Hdata by (by rewrite <-Hcan at 1).
  pose proof (Announce.parse_spec (slice_bytes (Packet.data p)) (Packet.context_flag p)
    (proj1 (Packet.wf_context_flag p Hp))) as Hparse. rewrite <-Hdata in Hparse.
  case_decide; [|rewrite Hparse; by eexists _, _, _, _; split; [|apply dropped_here]].
  destruct Hparse as (a & Hparse & Ha). rewrite Hparse. cbn [mbind option_bind].
  destruct (Announce.verify_total malloc_ok (Packet.destination_hash p) (slice_bytes (Packet.data p))
    (Packet.context_flag p) a) as [v Hv]; [by rewrite <-Hdata|done|]. rewrite <-Hdata in Hv. rewrite Hv.
  cbn [mbind option_bind]. destruct v; [|by eexists _, _, _, _; split; [|apply dropped_here]].
  pose proof (accept_wf (transport n) hash e Ht) as Ht1.
  destruct (rns_transport_accept_packet_hash _ _ _) as [[fresh t1] e1]. cbn [fst snd] in Ht1.
  assert (exists dup t2 e2, wf t2 /\ (if negb fresh then
      let '(i, t, e) := rns_transport_lookup t1 p.(Packet.destination_hash) e1 in
      (match path_at t <$> i with
       | Some c => negb (path_has_random_blob (path_at t <$> i) a.(Announce.random_blob)) ||
                   (negb c.(unresponsive) && (gravity <=? c.(interface_gravity)))
       | None => true
       end, t, e)
    else (false, t1, e1)) = (dup, t2, e2)) as (dup & t2 & e2 & Ht2 & ->).
  { destruct fresh; [by eexists _, _, _|]. pose proof (lookup_wf t1 p.(Packet.destination_hash) e1 Ht1) as Hl.
    destruct (rns_transport_lookup _ _ _) as [[i t] e']. destruct Hl. by eexists _, _, _. }
  destruct dup; [by eexists _, _, _, _; split; [|apply dropped_at]|].
  set (nh := if Packet.header_type p =? _ then _ else _).
  assert (length nh = 16)%nat as Hnh by (subst nh; destruct (_ =? _); apply Hp).
  pose proof (announce_wf t2 (Packet.destination_hash p) nh received gravity (wrap8 (Packet.hops p + 1))
    (Announce.random_blob a) hash e2 Ht2 Hnh) as Ht3.
  destruct (rns_transport_consider_announce _ _ _ _ _ _ _ _ _) as [[update t3] e3]. cbn [fst snd] in Ht3.
  destruct update; [by destruct fresh; eexists _, _, _, _; (split; [|apply dropped_at])|..].
  all: apply rebroadcast_ok; try done; by eapply Announce.parses_public.
Qed.

Lemma handle_routed_ok p hash received output capacity n r e :
  node_wf n -> Packet.wf p -> slice_bytes p.(Packet.data) <> [] -> p.(Packet.hops) + 1 < 256 ->
  output_ok output capacity -> undecided r -> p.(Packet.packet_type) <> 1 ->
  exists n' output' r' e', handle_routed n p hash received output capacity r e = Some (n', output', r', e') /\
    decided p output capacity n n' output' r'.
Proof.
  intros Hn Hp Hne Hh Ho (Hr1 & Hr2 & _) Hpt. unfold handle_routed. pose proof (nw_transport n Hn) as Ht.
  pose proof (lookup_wf (transport n) (Packet.destination_hash p) e Ht) as Hl.
  destruct (rns_transport_lookup _ _ _) as [[i t] e1]. destruct Hl as (Ht1 & _ & Hi).
  destruct i as [i|]; [|by eexists _, _, _, _; split; [|apply dropped_at]].
  destruct (Hi i eq_refl) as (-> & ps & x & Hps & Hx & Hat & _). rewrite Hat.
  destruct (found_sized _ ps i x Ht Hps Hx) as (Hk & Hnh).
  destruct (_ && (_ || _)); [by eexists _, _, _, _; split; [|apply dropped_at]|].
  assert (Packet.wf (routed_packet p x) /\ Packet.identity_part (routed_packet p x) = Packet.identity_part p /\
    Packet.hops (routed_packet p x) = Packet.hops p + 1 /\ slice_bytes (Packet.data (routed_packet p x)) <> [])
    as (Hq & Hpart & Hqh & Hqd).
  { unfold routed_packet. destruct (path_hops x <=? 1).
    - by destruct (forwards_routed p Packet.RNS_PACKET_HEADER_1 0 (replicate 16 0) Hp Hh) as (? & ? & ?).
    - by destruct (forwards_routed p Packet.RNS_PACKET_HEADER_2 1 (path_next_hop x) Hp Hh) as (? & ? & ?). }
  generalize dependent (routed_packet p x). intros q Hq Hpart Hqh Hqd.
  destruct output as [o|]; [|by eexists _, _, _, _; split; [|apply dropped_at]].
  destruct (encode_forward_spec q o capacity r Hq (Ho o eq_refl)) as (ok & o' & r' & -> & Hr'). cbn [mbind option_bind].
  destruct ok; cbn [negb]; [|subst r'; by eexists _, _, _, _; split; [|apply dropped_at]].
  destruct Hr' as (Hw & Hm & Hc & ->). set (r1 := set_next_hop _ _).
  assert (sent p q (Some o) capacity (Some o') r1) as Hsent by (by apply sent_on).
  match goal with |- context [mbind _ ?y] =>
    assert (exists ok t2 tx e2, y = Some (ok, t2, tx, e2) /\ wf t2) as (ok & t2 & tx & e2 & -> & Ht2) end.
  { destruct (Packet.packet_type p =? 2).
    - cbn [mbind option_bind]. change (output_length r1) with (length (Packet.wire q)). rewrite (wrote_read _ _ _ Hw).
      cbn [mbind option_bind]. rewrite Link.link_id_wire by done. cbn [mbind option_bind].
      destruct (if Link.is_link_request q then _ else _) as [id|]; [|by eexists _, _, _, _].
      pose proof (record_link_tx_wf (transport n) id (Some x) received (Packet.hops q) (Some (transport_transaction r1)) e1 Ht Hk) as Hw2.
      destruct (rns_transport_record_link_request_transaction _ _ _ _ _ _ _) as [[[ok t2] tx] e2]. by eexists _, _, _, _.
    - pose proof (record_reverse_tx_wf (transport n) hash received (path_interface x) (Some (transport_transaction r1)) e1 Ht) as Hw2.
      destruct (rns_transport_record_reverse_transaction _ _ _ _ _ _) as [[[ok t2] tx] e2]. by eexists _, _, _, _. }
  cbn [mbind option_bind]. rewrite set_transport_twice.
  destruct ok; cbn [negb]; eexists _, _, _, _; (split; [done|]); [by apply (forwarded p q)|by apply dropped_at].
Qed.

(** *** Dispatch *)

Lemma decided_from p output capacity n t n' output' r :
  decided p output capacity (set_transport t n) n' output' r -> decided p output capacity n n' output' r.
Proof.
  intros (Hn & Hs & Ha). split; [done|]. split; [by rewrite Hs|]. exact Ha.
Qed.

Lemma dispatch_ok p hash received gravity output capacity n r e :
  node_wf n -> Packet.wf p -> Packet.canonical p = p -> slice_bytes p.(Packet.data) <> [] ->
  p.(Packet.hops) < n.(max_hops) -> output_ok output capacity -> undecided r -> r.(action) = RNS_NODE_DROP ->
  exists n' output' r' e', dispatch malloc_ok n p hash received gravity output capacity r e =
      Some (n', output', r', e') /\ decided p output capacity n n' output' r'.
Proof.
  intros Hn Hp Hcan Hne Hmax Ho Hr _. pose proof Hr as (Hr1 & Hr2 & _). pose proof (nw_transport n Hn) as Ht.
  assert (Packet.hops p + 1 < 256) as Hh by (destruct (nw_hops n Hn); lia).
  unfold dispatch. destruct (ordinary_proof p) eqn:Hop.
  { apply handle_ordinary_proof_ok; try done. unfold ordinary_proof in Hop. lia. }
  destruct (Z.eqb_spec (Packet.packet_type p) 1) as [Hpt|Hpt]; [by apply handle_announce_ok|].
  pose proof (accept_wf (transport n) hash e Ht) as Ht1.
  destruct (rns_transport_accept_packet_hash _ _ _) as [[acc t] e1]. cbn [fst snd] in Ht1.
  destruct (set_transport_wf n t Hn Ht1) as [Hn1 Hs1].
  destruct (local_destination n _) eqn:Hld.
  { destruct acc; cbn [negb]; [|by eexists _, _, _, _; split; [|apply dropped_at]].
    eexists _, _, _, _. split; [done|]. by split_and!. }
  destruct (Packet.destination_type p =? 3); [by apply handle_link_packet_ok|].
  destruct (_ && negb _); [by eexists _, _, _, _; split; [|apply dropped_here]|].
  destruct acc; cbn [negb]; [|by eexists _, _, _, _; split; [|apply dropped_at]].
  destruct (_ && memeq _ _) eqn:Hpr.
  - apply andb_true_iff in Hpr as [_ Hpr%memeq_true].
    destruct (handle_path_request_ok p output capacity (set_transport t n) r e1) as (n' & o' & r' & e' & -> & Hdec); try done.
    eexists _, _, _, _. split; [done|]. by eapply decided_from.
  - destruct (handle_routed_ok p hash received output capacity (set_transport t n) r e1)
      as (n' & o' & r' & e' & -> & Hdec); try done.
    eexists _, _, _, _. split; [done|]. by eapply decided_from.
Qed.

(** What an ingress does with the packet [decoded] from the input. *)
Definition ingress_outcome (decoded : option Packet.rns_packet) (output : option (list Z)) (capacity : nat)
    n n' (output' : option (list Z)) r : Prop :=
  match decoded with
  | None => n' = n /\ output' = output /\ r.(action) = RNS_NODE_DROP /\ r.(reason) = RNS_NODE_REASON_MALFORMED
  | Some p => decided p output capacity n n' output' r /\
      (n.(max_hops) <= p.(Packet.hops) -> n' = n /\ output' = output /\ r.(action) = RNS_NODE_DROP)
  end.

Lemma ingress_safe n raw received gravity output capacity e :
  node_wf n -> bytes_ok raw -> output_ok output capacity ->
  exists n' output' r e', rns_node_ingress malloc_ok n (SBytes raw) received gravity output capacity e =
      Some (n', output', r, e') /\
    ingress_outcome (Packet.rns_packet_decode (SBytes raw)) output capacity n n' output' r.
Proof.
  intros Hn Hb Ho. unfold rns_node_ingress, ingress_outcome.
  destruct (match clock (config (transport n)) with Some clk => clk e | None => (dzero, e) end) as [now e1].
  destruct (Packet.rns_packet_decode (SBytes raw)) as [p|] eqn:Hd.
  2:{ by destruct (_ <? _)%nat; eexists _, _, _, _; (split; [|]). }
  destruct (Packet.decode_raw raw p Hb Hd) as (f & _ & _ & Hp & Hcan & Hne & Hm & _).
  cbn [slice_length]. rewrite (proj2 (Nat.ltb_ge _ _)) by lia.
  destruct (Packet.rns_packet_hash (SBytes raw)) as [hash|].
  2:{ eexists _, _, _, _. split; [done|]. split; [by apply dropped_here|done]. }
  destruct (Z.leb_spec (max_hops n) (Packet.hops p)).
  { eexists _, _, _, _. split; [done|]. split; [by apply dropped_here|done]. }
  destruct (dispatch_ok p hash received gravity output capacity n
    (set_packet hash p.(Packet.destination_hash) p.(Packet.hops) (set_received received now zero_result)) e1)
    as (n' & o' & r & e' & -> & Hdec); try done.
  eexists _, _, _, _. split; [done|]. split; [done|lia].
Qed.

(** C3: the node's decision on any input. [rns_node_ingress] returns on every
    input and output buffer, never touches memory outside them, and keeps the node
    well formed and its identity and destinations unchanged. Malformed input and
    packets that have used up their hops are dropped without effect; a drop sends
    nothing; only packets for a registered destination are delivered; what is
    forwarded carries the same end-to-end fields with one more hop and fits both
    MTU and output; only announces that verify are rebroadcast, with this node as
    the transport. *)
Theorem rns_node_ingress_safe n raw received gravity output capacity e :
  node_wf n -> bytes_ok raw -> output_ok output capacity ->
  exists n' output' r e', rns_node_ingress malloc_ok n (SBytes raw) received gravity output capacity e =
      Some (n', output', r, e') /\
    ingress_outcome (Packet.rns_packet_decode (SBytes raw)) output capacity n n' output' r.
Proof. apply ingress_safe. Qed.

(** *** Duplicates *)

(** The operations that leave the packet-hash table alone. *)
Lemma lookup_dedupe (t : rns_transport E) d e : (rns_transport_lookup t d e).1.2.(dedupe) = t.(dedupe).
Proof. unfold rns_transport_lookup. by repeat case_match. Qed.

Lemma consume_reverse_dedupe (t : rns_transport E) h i f e : (rns_transport_consume_reverse t h i f e).1.1.2.(dedupe) = t.(dedupe).
Proof. unfold rns_transport_consume_reverse. by repeat case_match. Qed.

Lemma record_reverse_dedupe (t : rns_transport E) h i o tx e :
  (rns_transport_record_reverse_transaction t h i o tx e).1.1.2.(dedupe) = t.(dedupe).
Proof. unfold rns_transport_record_reverse_transaction. by repeat case_match. Qed.

Lemma record_link_dedupe (t : rns_transport E) id p i h tx e :
  (rns_transport_record_link_request_transaction t id p i h tx e).1.1.2.(dedupe) = t.(dedupe).
Proof. unfold rns_transport_record_link_request_transaction. by repeat case_match. Qed.

Lemma rollback_dedupe (t : rns_transport E) tx : (rns_transport_transaction_rollback t tx).1.2.(dedupe) = t.(dedupe).
Proof. unfold rns_transport_transaction_rollback. by repeat case_match. Qed.

Lemma complete_forward_dedupe n r ok :
  (rns_node_complete_forward n r ok).1.2.(transport).(dedupe) = n.(transport).(dedupe) /\
  same_node n (rns_node_complete_forward n r ok).1.2.
Proof.
  unfold rns_node_complete_forward. destruct (negb _); [by split; [|apply same_node_refl]|].
  destruct ok; [by split; [|apply same_node_refl]|]. pose proof (rollback_dedupe (transport n) (transport_transaction r)).
  by destruct (rns_transport_transaction_rollback _ _) as [[ok t] tx].
Qed.

Lemma path_request_dedupe n p output r e n' output' r' e' :
  handle_path_request n p output r e = Some (n', output', r', e') -> n'.(transport).(dedupe) = n.(transport).(dedupe).
Proof.
  unfold handle_path_request. destruct (if negb _ then _ else _) as [[q|]|]; [|by intros [= <- <- <- <-]|done].
  cbn [mbind option_bind]. destruct (local_destination n _); [by intros [= <- <- <- <-]|].
  pose proof (lookup_dedupe (transport n) (request_destination q) e). destruct (rns_transport_lookup _ _ _) as [[[i|] t] e1];
    by intros [= <- <- <- <-].
Qed.

(** A routed packet: dropped, or forwarded with its reverse path or link recorded. *)
Lemma handle_routed_inv p hash received output capacity n r e n' output' r' e' :
  r.(transport_transaction) = TransactionNone -> r.(action) = RNS_NODE_DROP -> wf n.(transport) ->
  handle_routed n p hash received output capacity r e = Some (n', output', r', e') ->
  n'.(transport).(dedupe) = n.(transport).(dedupe) /\
  (r'.(action) = RNS_NODE_FORWARD -> exists e1, recorded n.(transport) e1 n'.(transport) r'.(transport_transaction)).
Proof.
  intros Htx Ha Ht. unfold handle_routed. pose proof (lookup_dedupe (transport n) (Packet.destination_hash p) e) as Hd.
  pose proof (lookup_wf (transport n) (Packet.destination_hash p) e Ht) as Hl.
  destruct (rns_transport_lookup _ _ _) as [[[i|] t] e1]; [|by intros [= <- <- <- <-]]. cbn [fst snd] in Hd.
  destruct Hl as (_ & _ & Hi). destruct (Hi i eq_refl) as (-> & _).
  destruct (_ && (_ || _)); [by intros [= <- <- <- <-]|].
  destruct (encode_forward _ _ _ _) as [[[ok o] r1]|] eqn:Hef; [|done]. cbn [mbind option_bind].
  assert (transport_transaction r1 = TransactionNone /\ (ok = false -> action r1 = RNS_NODE_DROP)) as [Htx1 Hok].
  { revert Hef. unfold encode_forward. destruct output; [|by intros [= <- <- <-]].
    destruct (Packet.rns_packet_encode _ _ _ _) as [[[[] ?] ?]|]; [| |done]; by intros [= <- <- <-]. }
  destruct ok; cbn [negb]; [|intros [= <- <- <- <-]; split; [done|]; by rewrite Hok].
  set (path := path_at (transport n) i). set (r2 := set_next_hop _ _).
  change (transport_transaction r2) with (transport_transaction r1). rewrite Htx1.
  destruct (Packet.packet_type p =? 2).
  - destruct o as [o|]; [|done]. cbn [mbind option_bind]. destruct (memread _ _ _) as [bs|]; [|done]. cbn [mbind option_bind].
    destruct (Link.rns_link_id_from_request_packet _) as [[id|]|]; [| |done]; cbn [mbind option_bind];
      [|by intros [= <- <- <- <-]].
    pose proof (record_link_dedupe (transport n) id (Some path) received (Packet.hops (routed_packet p path)) (Some TransactionNone) e1) as Hrd.
    destruct (rns_transport_record_link_request_transaction _ _ _ _ _ _ _) as [[[ok t2] tx] e2] eqn:Hrec. cbn [fst snd] in Hrd.
    cbn [mbind option_bind]. destruct ok; cbn [negb]; intros [= <- <- <- <-]; (split; [done|]); [|done]. intros _.
    exists e1. destruct tx; [by eapply RecordedRequest|]. exfalso. revert Hrec.
    unfold rns_transport_record_link_request_transaction. by repeat case_match.
  - pose proof (record_reverse_dedupe (transport n) hash received (path_interface path) (Some TransactionNone) e1) as Hrd.
    destruct (rns_transport_record_reverse_transaction _ _ _ _ _ _) as [[[ok t2] tx] e2] eqn:Hrec. cbn [fst snd] in Hrd.
    cbn [mbind option_bind]. destruct ok; cbn [negb]; intros [= <- <- <- <-]; (split; [done|]); [|done]. intros _.
    exists e1. destruct tx; [by eapply RecordedReverse|]. exfalso. revert Hrec.
    unfold rns_transport_record_reverse_transaction. by repeat case_match.
Qed.

Lemma handle_link_packet_inv p received output capacity n r e n' output' r' e' :
  r.(transport_transaction) = TransactionNone -> r.(action) = RNS_NODE_DROP -> wf n.(transport) ->
  Packet.canonical p = p ->
  handle_link_packet n p received output capacity r e = Some (n', output', r', e') ->
  r'.(action) = RNS_NODE_FORWARD -> exists e1, recorded n.(transport) e1 n'.(transport) r'.(transport_transaction).
Proof.
  intros Htx Ha Ht Hcan. unfold handle_link_packet.
  assert (Packet.data p = SBytes (slice_bytes (Packet.data p))) as -> by (by rewrite <-Hcan at 1).
  set (lrp := (Packet.packet_type p =? 3) && (Packet.context p =? _)). destruct (lrp && _); [by intros [= <- <- <- <-]|].
  destruct (encode_local _ _ _) as [[bs|]|]; [|by intros [= <- <- <- <-]|done]. cbn [mbind option_bind]. rewrite Htx.
  destruct lrp.
  - destruct (accept_proof_tx_wf (transport n) (Packet.destination_hash p) (slice_bytes (Packet.data p)) received
      (wrap8 (Packet.hops p + 1)) 0 (Some TransactionNone) e Ht) as (route & t & f & tx & e2 & Heq & _).
    rewrite Heq. cbn [mbind option_bind]. destruct route; try (by intros [= <- <- <- <-]).
    destruct (copy_out _ _); [|done]. cbn [mbind option_bind]. intros [= <- <- <- <-] _. exists e.
    destruct tx; [by eapply RecordedProof|]. exfalso. revert Heq.
    destruct (ok_clock _ (wf_config _ Ht)) as [clk Hc].
    destruct (accept_proof_spec (transport n) (Packet.destination_hash p) (slice_bytes (Packet.data p)) received
      (wrap8 (Packet.hops p + 1)) e clk 0 (Some TransactionNone) Ht Hc) as (r2 & t2 & f2 & tx2 & e3 & -> & Hm & _).
    intros [= -> -> -> -> ->]. by destruct (Hm eq_refl) as (? & ? & ? & _ & _ & _ & _ & _ & _ & ? & _).
  - destruct (ok_clock _ (wf_config _ Ht)) as [clk Hc]. destruct (clk e) as [now e1] eqn:Hnow.
    destruct (route_link_spec (transport n) (Packet.destination_hash p) received (wrap8 (Packet.hops p + 1)) e clk now e1 0
      (Some TransactionNone) Ht Hc Hnow) as (route & t & f & tx & e2 & Heq & Hm & _).
    rewrite Heq. cbn [mbind option_bind]. destruct route; try (by intros [= <- <- <- <-]).
    destruct (copy_out _ _); [|done]. cbn [mbind option_bind]. intros [= <- <- <- <-] _. exists e.
    destruct (Hm eq_refl) as (? & ? & ? & _ & _ & _ & _ & _ & _ & -> & _). by eapply RecordedRoute.
Qed.

(** Packets the hash filter covers. *)
Definition filtered n (p : Packet.rns_packet) : Prop :=
  p.(Packet.packet_type) <> 1 /\
  (p.(Packet.destination_type) <> 3 \/ local_destination n p.(Packet.destination_hash) = true).

Lemma ordinary_proof_remembers p hash received output capacity n r e n' output' r' e' clk :
  r.(action) = RNS_NODE_DROP -> wf n.(transport) -> n.(transport).(config).(clock) = Some clk ->
  handle_ordinary_proof n p hash received output capacity r e = Some (n', output', r', e') ->
  r'.(action) <> RNS_NODE_DROP ->
  remembers n'.(transport) hash (clk e).1 (dadd (clk e).1 n.(transport).(config).(dedupe_lifetime))
    (seen_since (clk e).1 (default [] n.(transport).(dedupe)) + 1).
Proof.
  intros Ha Ht Hc. unfold handle_ordinary_proof. destruct (_ || _ || _); [by intros [= <- <- <- <-]|].
  destruct (encode_local _ _ _) as [[bs|]|]; [|by intros [= <- <- <- <-]|done]. cbn [mbind option_bind].
  destruct (rns_transport_accept_packet_hash _ _ _) as [[acc t] e1] eqn:Hacc.
  destruct acc; cbn [negb]; [|by intros [= <- <- <- <-]].
  apply (accept_remembers _ _ _ _ _ clk Ht Hc) in Hacc as Hrem.
  pose proof (consume_reverse_dedupe t (Packet.destination_hash p) received (Some 0) e1) as Hd.
  destruct (rns_transport_consume_reverse _ _ _ _ _) as [[[rev t2] fwd] e2]. cbn [fst snd] in Hd.
  destruct rev; [by intros [= <- <- <- <-]| |by intros [= <- <- <- <-]].
  destruct (copy_out _ _); [|done]. cbn [mbind option_bind]. intros [= <- <- <- <-] _. by eapply remembers_same.
Qed.

(** A packet the dispatch does not drop is in the hash table afterwards. *)
Lemma dispatch_remembers p hash received gravity output capacity n r e n' output' r' e' clk :
  undecided r -> r.(action) = RNS_NODE_DROP -> node_wf n -> filtered n p ->
  n.(transport).(config).(clock) = Some clk ->
  dispatch malloc_ok n p hash received gravity output capacity r e = Some (n', output', r', e') ->
  r'.(action) <> RNS_NODE_DROP ->
  remembers n'.(transport) hash (clk e).1 (dadd (clk e).1 n.(transport).(config).(dedupe_lifetime))
    (seen_since (clk e).1 (default [] n.(transport).(dedupe)) + 1).
Proof.
  intros (_ & _ & Htx) Ha Hn [Hpt Hf] Hc. pose proof (nw_transport n Hn) as Ht. unfold dispatch.
  destruct (ordinary_proof p); [by eapply ordinary_proof_remembers|].
  destruct (Z.eqb_spec (Packet.packet_type p) 1); [done|].
  destruct (rns_transport_accept_packet_hash _ _ _) as [[acc t] e1] eqn:Hacc.
  pose proof (accept_wf (transport n) hash e Ht) as Ht1. rewrite Hacc in Ht1. cbn [fst snd] in Ht1.
  destruct (local_destination n (Packet.destination_hash p)) eqn:Hld.
  { destruct acc; cbn [negb]; intros [= <- <- <- <-]; [|done]. intros _.
    by apply (accept_remembers _ _ _ _ _ clk Ht Hc) in Hacc as Hrem. }
  destruct (Z.eqb_spec (Packet.destination_type p) 3); [by destruct Hf|].
  destruct (_ && negb _); [by intros [= <- <- <- <-]|].
  destruct acc; cbn [negb]; [|by intros [= <- <- <- <-]].
  apply (accept_remembers _ _ _ _ _ clk Ht Hc) in Hacc as Hrem.
  destruct (_ && memeq _ _); intros Heq _; eapply remembers_same; try exact Hrem.
  - by apply path_request_dedupe in Heq.
  - by apply handle_routed_inv in Heq as [? _].
Qed.

(** A remembered packet is dropped. *)
Lemma dispatch_duplicate p hash received gravity output capacity n r e n' output' r' e' clk (t0 deadline : double) k :
  r.(action) = RNS_NODE_DROP -> filtered n p ->
  n.(transport).(config).(clock) = Some clk -> remembers n.(transport) hash t0 deadline k -> ((clk e).1 >=.? deadline) = false ->
  dispatch malloc_ok n p hash received gravity output capacity r e = Some (n', output', r', e') ->
  r'.(action) = RNS_NODE_DROP.
Proof.
  intros Ha [Hpt Hf] Hc Hrem Hlive. pose proof (accept_duplicate (transport n) hash e clk t0 deadline k Hc Hrem Hlive) as Hacc.
  unfold dispatch, handle_ordinary_proof.
  destruct (rns_transport_accept_packet_hash _ _ _) as [[acc t] e1]. cbn [fst snd] in Hacc. subst acc. cbn [negb].
  destruct (ordinary_proof p).
  { destruct (_ || _ || _); [by intros [= <- <- <- <-]|].
    by destruct (encode_local _ _ _) as [[bs|]|]; [| |done]; intros [= <- <- <- <-]. }
  destruct (Z.eqb_spec (Packet.packet_type p) 1); [done|].
  destruct (local_destination n (Packet.destination_hash p)) eqn:Hld; [by intros [= <- <- <- <-]|].
  destruct (Z.eqb_spec (Packet.destination_type p) 3); [by destruct Hf|].
  by destruct (_ && negb _); intros [= <- <- <- <-].
Qed.

(** Accepting a hash changes the packet-hash table only. *)
Lemma accept_only_dedupe (t : rns_transport E) h e :
  let t' := (rns_transport_accept_packet_hash t h e).1.2 in t' = {| t with dedupe := t'.(dedupe) |}.
Proof. unfold rns_transport_accept_packet_hash. destruct t. by repeat case_match. Qed.

Lemma recorded_undone (t : rns_transport E) e t' tx :
  wf t -> recorded t e t' tx ->
  rns_transport_transaction_rollback t' tx = (true, {| t with dedupe := t'.(dedupe) |}, TransactionNone) /\
  t'.(dedupe) = t.(dedupe).
Proof.
  intros Ht Hrec. pose proof (rollback_recorded t e t' tx Ht Hrec) as Hr.
  pose proof (rollback_dedupe t' tx) as Hd. rewrite Hr in Hd. cbn [fst snd] in Hd. rewrite Hr, <-Hd. by destruct t.
Qed.

Lemma ordinary_proof_transaction n p hash received output capacity r e n' output' r' e' :
  handle_ordinary_proof n p hash received output capacity r e = Some (n', output', r', e') ->
  r'.(transport_transaction) = r.(transport_transaction).
Proof.
  unfold handle_ordinary_proof. destruct (_ || _ || _); [by intros [= <- <- <- <-]|].
  destruct (encode_local _ _ _) as [[bs|]|]; [|by intros [= <- <- <- <-]|done]. cbn [mbind option_bind].
  destruct (rns_transport_accept_packet_hash _ _ _) as [[[] t] e1]; cbn [negb]; [|by intros [= <- <- <- <-]].
  destruct (rns_transport_consume_reverse _ _ _ _ _) as [[[[] t2] fwd] e2]; [by intros [= <- <- <- <-]| |by intros [= <- <- <- <-]].
  by destruct (copy_out _ _); [|done]; intros [= <- <- <- <-].
Qed.

(** Undoing a forwarding decision. *)
Definition undone n n' (p : Packet.rns_packet) r : Prop :=
  if ordinary_proof p then r.(transport_transaction) = TransactionNone
  else rns_transport_transaction_rollback n'.(transport) r.(transport_transaction) =
      (true, {| n.(transport) with dedupe := n'.(transport).(dedupe) |}, TransactionNone) /\
    (p.(Packet.destination_type) = 3 -> n'.(transport).(dedupe) = n.(transport).(dedupe)).

Lemma dispatch_undo p hash received gravity output capacity n r e n' output' r' e' :
  undecided r -> r.(action) = RNS_NODE_DROP -> node_wf n -> Packet.wf p -> Packet.canonical p = p ->
  slice_bytes p.(Packet.data) <> [] -> p.(Packet.hops) < n.(max_hops) -> output_ok output capacity ->
  dispatch malloc_ok n p hash received gravity output capacity r e = Some (n', output', r', e') ->
  r'.(action) = RNS_NODE_FORWARD -> undone n n' p r'.
Proof.
  intros Hr Ha Hn Hp Hcan Hne Hmax Ho Heq Hfw. pose proof Hr as (_ & _ & Htx). pose proof (nw_transport n Hn) as Ht.
  destruct (dispatch_ok p hash received gravity output capacity n r e) as (n2 & o2 & r2 & e2 & Heq2 & _ & _ & Hdec); try done.
  rewrite Heq in Heq2. injection Heq2 as <- <- <- <-. rewrite Hfw in Hdec. destruct Hdec as (_ & Hpt & _).
  unfold undone. revert Heq Hfw. unfold dispatch. destruct (ordinary_proof p).
  { intros Heq _. apply ordinary_proof_transaction in Heq. congruence. }
  destruct (Z.eqb_spec (Packet.packet_type p) 1); [done|].
  pose proof (accept_wf (transport n) hash e Ht) as Ht1. pose proof (accept_only_dedupe (transport n) hash e) as Hd.
  destruct (rns_transport_accept_packet_hash _ _ _) as [[acc t] e1]. cbn [fst snd] in Ht1, Hd.
  destruct (local_destination n _); [by destruct acc; intros [= <- <- <- <-]|].
  destruct (Z.eqb_spec (Packet.destination_type p) 3).
  { intros Heq Hfw. destruct (handle_link_packet_inv p received output capacity n r e n' output' r' e') as [e3 Hrec]; try done.
    by destruct (recorded_undone _ _ _ _ Ht Hrec). }
  destruct (_ && negb _); [by intros [= <- <- <- <-]|]. destruct acc; cbn [negb]; [|by intros [= <- <- <- <-]].
  intros Heq Hfw. split; [|done]. destruct (_ && memeq _ _).
  - exfalso. revert Heq. unfold handle_path_request. destruct (if negb _ then _ else _) as [[q|]|]; [| |done]; cbn [mbind option_bind].
    + destruct (local_destination _ _); [by intros [= <- <- <- <-]|].
      by destruct (rns_transport_lookup _ _ _) as [[[i|] t2] e3]; intros [= <- <- <- <-].
    + by intros [= <- <- <- <-].
  - destruct (handle_routed_inv p hash received output capacity (set_transport t n) r e1 n' output' r' e') as [_ Hrec]; try done.
    destruct (Hrec Hfw) as [e3 Hrec']. destruct (recorded_undone _ _ _ _ Ht1 Hrec') as [-> _].
    cbn [transport set_transport]. by rewrite Hd.
Qed.

(** An ingress whose packet is within the hop limit is a dispatch. *)
Lemma ingress_dispatch n raw received gravity output capacity e clk p h :
  bytes_ok raw -> n.(transport).(config).(clock) = Some clk ->
  Packet.rns_packet_decode (SBytes raw) = Some p -> rns_sha256 (Packet.identity_part p) = Some h ->
  rns_node_ingress malloc_ok n (SBytes raw) received gravity output capacity e =
    (let r := set_packet h p.(Packet.destination_hash) p.(Packet.hops) (set_received received (clk e).1 zero_result) in
     if n.(max_hops) <=? p.(Packet.hops) then Some (n, output, drop RNS_NODE_REASON_MAX_HOPS r, (clk e).2)
     else dispatch malloc_ok n p h received gravity output capacity r (clk e).2).
Proof.
  intros Hb Hc Hd Hh. unfold rns_node_ingress. rewrite Hc. destruct (clk e) as [now e1].
  destruct (Packet.decode_raw raw p Hb Hd) as (f & _ & _ & _ & _ & _ & Hm & _). cbn [slice_length].
  rewrite (proj2 (Nat.ltb_ge _ _)) by lia. rewrite Hd. unfold Packet.rns_packet_hash.
  rewrite (Packet.hashable_part_raw raw p Hb Hd). cbn [mbind option_bind]. by rewrite Hh.
Qed.

(** The operations keep the configuration. *)
Lemma lookup_config (t : rns_transport E) d e i t' e' : rns_transport_lookup t d e = (i, t', e') -> t'.(config) = t.(config).
Proof. unfold rns_transport_lookup. repeat case_match; by intros [= <- <- <-]. Qed.
Lemma accept_config (t : rns_transport E) h e b t' e' :
  rns_transport_accept_packet_hash t h e = (b, t', e') -> t'.(config) = t.(config).
Proof. unfold rns_transport_accept_packet_hash. repeat case_match; by intros [= <- <- <-]. Qed.
Lemma consume_config (t : rns_transport E) h i f e res t' f' e' :
  rns_transport_consume_reverse t h i f e = (res, t', f', e') -> t'.(config) = t.(config).
Proof. unfold rns_transport_consume_reverse. repeat case_match; by intros [= <- <- <- <-]. Qed.
Lemma record_reverse_config (t : rns_transport E) h i o tx e res t' tx' e' :
  rns_transport_record_reverse_transaction t h i o tx e = (res, t', tx', e') -> t'.(config) = t.(config).
Proof. unfold rns_transport_record_reverse_transaction. repeat case_match; by intros [= <- <- <- <-]. Qed.
Lemma record_link_config (t : rns_transport E) id p i h tx e res t' tx' e' :
  rns_transport_record_link_request_transaction t id p i h tx e = (res, t', tx', e') -> t'.(config) = t.(config).
Proof. unfold rns_transport_record_link_request_transaction. repeat case_match; by intros [= <- <- <- <-]. Qed.
(** Collecting what the operations of a handler keep. *)
Ltac config_facts :=
  repeat match goal with
  | H : rns_transport_lookup _ _ _ = _ |- _ => apply lookup_config in H
  | H : rns_transport_accept_packet_hash _ _ _ = _ |- _ => apply accept_config in H
  | H : rns_transport_consume_reverse _ _ _ _ _ = _ |- _ => apply consume_config in H
  | H : rns_transport_record_reverse_transaction _ _ _ _ _ _ = _ |- _ => apply record_reverse_config in H
  | H : rns_transport_record_link_request_transaction _ _ _ _ _ _ _ = _ |- _ => apply record_link_config in H
  end.

Lemma ordinary_proof_config n p hash received output capacity r e n' output' r' e' :
  handle_ordinary_proof n p hash received output capacity r e = Some (n', output', r', e') ->
  n'.(transport).(config) = n.(transport).(config).
Proof.
  unfold handle_ordinary_proof. intros. repeat (case_match || simplify_option_eq); config_facts; cbn in *; congruence.
Qed.

Lemma routed_config n p hash received output capacity r e n' output' r' e' :
  handle_routed n p hash received output capacity r e = Some (n', output', r', e') ->
  n'.(transport).(config) = n.(transport).(config).
Proof.
  unfold handle_routed. destruct (rns_transport_lookup _ _ _) as [[[i|] t] e1] eqn:Hl; apply lookup_config in Hl;
    [|by intros [= <- <- <- <-]].
  destruct (_ && (_ || _)); [by intros [= <- <- <- <-]|].
  destruct (encode_forward _ _ _ _) as [[[[] o] r1]|]; [| |done]; cbn [mbind option_bind negb]; [|by intros [= <- <- <- <-]].
  set (path := path_at t i). set (r2 := set_next_hop _ _). destruct (Packet.packet_type p =? 2).
  - destruct o as [o|]; [|done]. cbn [mbind option_bind]. destruct (memread _ _ _); [|done]. cbn [mbind option_bind].
    destruct (Link.rns_link_id_from_request_packet _) as [[id|]|]; [| |done]; cbn [mbind option_bind];
      [|by intros [= <- <- <- <-]].
    destruct (rns_transport_record_link_request_transaction _ _ _ _ _ _ _) as [[[ok t2] tx] e2] eqn:Hrec.
    apply record_link_config in Hrec. by destruct ok; intros [= <- <- <- <-]; cbn; rewrite Hrec.
  - destruct (rns_transport_record_reverse_transaction _ _ _ _ _ _) as [[[ok t2] tx] e2] eqn:Hrec.
    apply record_reverse_config in Hrec. by destruct ok; intros [= <- <- <- <-]; cbn; rewrite Hrec.
Qed.

Lemma path_request_config n p output r e n' output' r' e' :
  handle_path_request n p output r e = Some (n', output', r', e') ->
  n'.(transport).(config) = n.(transport).(config).
Proof.
  unfold handle_path_request. intros. repeat (case_match || simplify_option_eq); config_facts; cbn in *; congruence.
Qed.

Lemma dispatch_config p hash received gravity output capacity n r e n' output' r' e' :
  filtered n p -> dispatch malloc_ok n p hash received gravity output capacity r e = Some (n', output', r', e') ->
  n'.(transport).(config) = n.(transport).(config).
Proof.
  intros [Hpt Hf]. unfold dispatch. destruct (ordinary_proof p); [by apply ordinary_proof_config|].
  destruct (Z.eqb_spec (Packet.packet_type p) 1); [done|].
  destruct (rns_transport_accept_packet_hash _ _ _) as [[acc t] e1] eqn:Hacc. apply accept_config in Hacc.
  destruct (local_destination n _); [by destruct acc; intros [= <- <- <- <-]|].
  destruct (Z.eqb_spec (Packet.destination_type p) 3); [by destruct Hf|].
  destruct (_ && negb _); [by intros [= <- <- <- <-]|]. destruct acc; cbn [negb]; [|by intros [= <- <- <- <-]].
  destruct (_ && memeq _ _); intros Heq; rewrite <-Hacc; [by apply path_request_config in Heq|by apply routed_config in Heq].
Qed.

Lemma ingress_no_hash n raw received gravity output capacity e n' output' r e' p :
  bytes_ok raw -> Packet.rns_packet_decode (SBytes raw) = Some p -> rns_sha256 (Packet.identity_part p) = None ->
  rns_node_ingress malloc_ok n (SBytes raw) received gravity output capacity e = Some (n', output', r, e') ->
  r.(action) = RNS_NODE_DROP.
Proof.
  intros Hb Hd Hh. unfold rns_node_ingress. destruct (match clock _ with Some clk => _ | None => _ end) as [now e1].
  rewrite Hd. unfold Packet.rns_packet_hash. rewrite (Packet.hashable_part_raw raw p Hb Hd). cbn [mbind option_bind]. rewrite Hh.
  by destruct (_ <? _)%nat; intros [= <- <- <- <-].
Qed.

Lemma complete_forward_config n r ok :
  (rns_node_complete_forward n r ok).1.2.(transport).(config) = n.(transport).(config).
Proof.
  unfold rns_node_complete_forward. destruct (negb _); [done|]. destruct ok; [done|].
  assert ((rns_transport_transaction_rollback (transport n) (transport_transaction r)).1.2.(config) = (transport n).(config))
    as Hrb by (unfold rns_transport_transaction_rollback; by repeat case_match).
  by destruct (rns_transport_transaction_rollback _ _) as [[? ?] ?].
Qed.

Lemma ingress_undo n raw received gravity output capacity e n' output' r e' p :
  node_wf n -> bytes_ok raw -> output_ok output capacity -> Packet.rns_packet_decode (SBytes raw) = Some p ->
  rns_node_ingress malloc_ok n (SBytes raw) received gravity output capacity e = Some (n', output', r, e') ->
  r.(action) = RNS_NODE_FORWARD -> undone n n' p r.
Proof.
  intros Hn Hb Ho Hd Heq Hfw. destruct (ok_clock _ (wf_config _ (nw_transport n Hn))) as [clk Hc].
  destruct (Packet.decode_raw raw p Hb Hd) as (f & _ & _ & Hp & Hcan & Hne & Hm & _).
  destruct (rns_sha256 (Packet.identity_part p)) as [h|] eqn:Hh.
  - rewrite (ingress_dispatch n raw received gravity output capacity e clk p h) in Heq by done. cbv zeta in Heq.
    destruct (Z.leb_spec (max_hops n) (Packet.hops p)); [by injection Heq as <- <- <- <-|].
    by eapply dispatch_undo in Heq.
  - apply (ingress_no_hash n raw received gravity output capacity e n' output' r e' p) in Heq; congruence.
Qed.

Lemma rollback_config (t : rns_transport E) tx : (rns_transport_transaction_rollback t tx).1.2.(config) = t.(config).
Proof. unfold rns_transport_transaction_rollback. by repeat case_match. Qed.

Lemma complete_wf n raw received gravity output capacity e n' output' r e' p ok :
  node_wf n -> bytes_ok raw -> output_ok output capacity -> Packet.rns_packet_decode (SBytes raw) = Some p ->
  rns_node_ingress malloc_ok n (SBytes raw) received gravity output capacity e = Some (n', output', r, e') ->
  node_wf n' -> node_wf (rns_node_complete_forward n' r ok).1.2.
Proof.
  intros Hn Hb Ho Hd Heq Hn'. unfold rns_node_complete_forward. case_bool_decide as Ha; cbn [negb]; [|done].
  destruct ok; [done|]. pose proof (ingress_undo _ _ _ _ _ _ _ _ _ _ _ _ Hn Hb Ho Hd Heq Ha) as Hu. unfold undone in Hu.
  destruct (ordinary_proof p); [rewrite Hu; by apply set_transport_wf, nw_transport|]. destruct Hu as [Hu _].
  pose proof (rollback_config (transport n') (transport_transaction r)) as Hc. rewrite Hu in Hc |- *. cbn in Hc.
  apply set_transport_wf; [done|]. destruct (nw_transport n Hn), (wf_dedupe _ (nw_transport n' Hn')) as (ds & Hds & Hl & Hne).
  constructor; cbn; try done. rewrite Hc. eauto.
Qed.

(** C6: a failed send is undone. When the packet an ingress decided to forward
    could not be sent, [rns_node_complete_forward] restores the node exactly as it
    was before the ingress, up to the packet-hash table; for packets of a link the
    hash table is untouched too and the restoration is complete. A delivery proof is
    the exception: its reverse path stays consumed. *)
Theorem node_forward_rollback n raw received gravity output capacity e n' output' r e' p :
  node_wf n -> bytes_ok raw -> output_ok output capacity -> Packet.rns_packet_decode (SBytes raw) = Some p ->
  rns_node_ingress malloc_ok n (SBytes raw) received gravity output capacity e = Some (n', output', r, e') ->
  r.(action) = RNS_NODE_FORWARD ->
  exists n'' r', rns_node_complete_forward n' r false = (true, n'', r') /\
    r'.(transport_transaction) = TransactionNone /\
    if ordinary_proof p then n'' = n'
    else n'' = set_transport {| n.(transport) with dedupe := n'.(transport).(dedupe) |} n /\
      (p.(Packet.destination_type) = 3 -> n'' = n).
Proof.
  intros Hn Hb Ho Hd Heq Ha. pose proof (ingress_undo _ _ _ _ _ _ _ _ _ _ _ _ Hn Hb Ho Hd Heq Ha) as Hu.
  destruct (ingress_safe n raw received gravity output capacity e Hn Hb Ho) as (n2 & o2 & r2 & e2 & Heq2 & Hout).
  rewrite Heq in Heq2. injection Heq2 as <- <- <- <-. rewrite Hd in Hout. destruct Hout as [(_ & Hs & _) _].
  unfold rns_node_complete_forward, undone in *. rewrite bool_decide_eq_true_2 by done. cbn [negb].
  destruct (ordinary_proof p).
  - rewrite Hu. eexists _, _. split; [done|]. split; [done|]. by destruct n'.
  - destruct Hu as [-> H3]. eexists _, _. split; [done|]. split; [done|].
    assert (set_transport {| n.(transport) with dedupe := n'.(transport).(dedupe) |} n' =
      set_transport {| n.(transport) with dedupe := n'.(transport).(dedupe) |} n) as -> by (by rewrite Hs).
    split; [done|]. intros Ht. rewrite (H3 Ht). by destruct n as [[] ? ? ? ? ?].
Qed.

(** *** Traffic in between *)

(** What leaves the settings and the packet-hash table alone. *)
Definition quiet (t t' : rns_transport E) : Prop := t'.(config) = t.(config) /\ t'.(dedupe) = t.(dedupe).

Lemma quiet_trans t t' t'' : quiet t t' -> quiet t' t'' -> quiet t t''.
Proof. unfold quiet. intros [-> ->]. tauto. Qed.

Lemma lookup_quiet (t : rns_transport E) d e : quiet t (rns_transport_lookup t d e).1.2.
Proof. unfold rns_transport_lookup. by repeat case_match. Qed.
Lemma consider_quiet (t : rns_transport E) d nh i g h b ph e : quiet t (rns_transport_consider_announce t d nh i g h b ph e).1.2.
Proof. unfold rns_transport_consider_announce. by repeat case_match. Qed.
Lemma set_identity_quiet (t : rns_transport E) d k e : quiet t (rns_transport_set_path_identity t d k e).1.2.
Proof.
  unfold rns_transport_set_path_identity. pose proof (lookup_quiet t d e). by destruct (rns_transport_lookup t d e) as [[[i|] t'] e'], k.
Qed.
Lemma consume_quiet (t : rns_transport E) h i f e : quiet t (rns_transport_consume_reverse t h i f e).1.1.2.
Proof. unfold rns_transport_consume_reverse. by repeat case_match. Qed.
Lemma record_reverse_quiet (t : rns_transport E) h i o tx e : quiet t (rns_transport_record_reverse_transaction t h i o tx e).1.1.2.
Proof. unfold rns_transport_record_reverse_transaction. by repeat case_match. Qed.
Lemma record_link_quiet (t : rns_transport E) id p i h tx e : quiet t (rns_transport_record_link_request_transaction t id p i h tx e).1.1.2.
Proof. unfold rns_transport_record_link_request_transaction. by repeat case_match. Qed.
Lemma link_lookup_quiet (t : rns_transport E) id e : quiet t (rns_transport_link_lookup t id e).1.2.
Proof. unfold rns_transport_link_lookup. by repeat case_match. Qed.
Lemma route_quiet (t : rns_transport E) id i h f tx e : quiet t (rns_transport_route_link_transaction t id i h f tx e).1.1.1.2.
Proof.
  unfold rns_transport_route_link_transaction. pose proof (link_lookup_quiet t id e). destruct (rns_transport_link_lookup t id e) as [[r t'] e'].
  by repeat case_match.
Qed.
Lemma accept_proof_quiet (t : rns_transport E) id p i h f tx e x :
  rns_transport_accept_link_proof_transaction t id p i h f tx e = Some x -> quiet t x.1.1.1.2.
Proof.
  unfold rns_transport_accept_link_proof_transaction. pose proof (link_lookup_quiet t id e). destruct (rns_transport_link_lookup t id e) as [[r t'] e'].
  intros. repeat (case_match || simplify_option_eq); done.
Qed.

(** What a handler does to the transport: nothing to the packet-hash table, or the offer of
    a hash. *)
Definition offers (n : rns_node E) (h : list Z) e (n' : rns_node E) : Prop :=
  quiet n.(transport) n'.(transport) \/ quiet (rns_transport_accept_packet_hash n.(transport) h e).1.2 n'.(transport).

Lemma rebroadcast_quiet n p a u output capacity r e n' output' r' e' :
  rebroadcast_announce n p a u output capacity r e = Some (n', output', r', e') -> quiet n.(transport) n'.(transport).
Proof.
  unfold rebroadcast_announce. destruct (Identity.rns_identity_from_public _); [|by intros [= <- <- <- <-]].
  pose proof (set_identity_quiet (transport n) (Packet.destination_hash p) (Some (Announce.public_key a)) e) as Hq.
  destruct (rns_transport_set_path_identity _ _ _ _) as [[[] t] e1]; cbn [fst snd negb] in *; [|by intros [= <- <- <- <-]].
  destruct (encode_forward _ _ _ _) as [[[ok o] r1]|]; [|done]. by intros [= <- <- <- <-].
Qed.

Lemma announce_offers n p h i g output capacity r e n' output' r' e' :
  handle_announce malloc_ok n p h i g output capacity r e = Some (n', output', r', e') -> offers n h e n'.
Proof.
  unfold handle_announce, offers. destruct (Announce.rns_announce_parse _ _) as [parsed|]; [|done]. cbn [mbind option_bind].
  destruct (if parsed is Some _ then _ else _) as [verified|]; [|done]. cbn [mbind option_bind].
  destruct parsed as [a|]; [|intros [= <- <- <- <-]; by left]. destruct verified; [|intros [= <- <- <- <-]; by left].
  destruct (rns_transport_accept_packet_hash _ _ _) as [[acc t] e1]. cbn [fst snd]. set (x := if negb acc then _ else _).
  assert (quiet t x.1.2) as Hx.
  { subst x. destruct acc; [done|]. cbn [negb]. pose proof (lookup_quiet t (Packet.destination_hash p) e1) as Hl.
    by destruct (rns_transport_lookup _ _ _) as [[j t1] e2]. }
  destruct x as [[dup t1] e2]. cbn [fst snd] in Hx. destruct dup; [intros [= <- <- <- <-]; by right|].
  match goal with |- context [rns_transport_consider_announce ?a ?b ?c ?d ?e ?f ?g ?h ?i] =>
    pose proof (consider_quiet a b c d e f g h i) as Hc; destruct (rns_transport_consider_announce a b c d e f g h i) as [[u t2] e3] end.
  cbn [fst snd] in Hc. pose proof (quiet_trans _ _ _ Hx Hc) as Hq.
  destruct u; [by intros [= <- <- <- <-]; right|..]; intros Hr%rebroadcast_quiet; right; by eapply quiet_trans.
Qed.

Lemma path_request_quiet n p output r e n' output' r' e' :
  handle_path_request n p output r e = Some (n', output', r', e') -> quiet n.(transport) n'.(transport).
Proof. intros Heq. split; [by eapply path_request_config|by eapply path_request_dedupe]. Qed.

Lemma link_packet_quiet n p i output capacity r e n' output' r' e' :
  handle_link_packet n p i output capacity r e = Some (n', output', r', e') -> quiet n.(transport) n'.(transport).
Proof.
  unfold handle_link_packet. destruct (_ && negb _); [by intros [= <- <- <- <-]|].
  destruct (encode_local _ _ _) as [[bs|]|]; [|by intros [= <- <- <- <-]|done]. cbn [mbind option_bind].
  destruct (if _ && _ then _ else _) as [[[[[route t] fwd] tx] e1]|] eqn:Ex; [|done]. cbn [mbind option_bind].
  assert (quiet (transport n) t) as Hq.
  { destruct (_ && _); [by apply accept_proof_quiet in Ex|]. injection Ex as Ex.
    pose proof (route_quiet (transport n) (Packet.destination_hash p) i (wrap8 (Packet.hops p + 1)) (Some 0) (Some (transport_transaction r)) e) as Hr.
    by rewrite Ex in Hr. }
  destruct route; try (by intros [= <- <- <- <-]). destruct (copy_out _ _); [|done]. by intros [= <- <- <- <-].
Qed.

Lemma ordinary_proof_offers n p h i output capacity r e n' output' r' e' :
  handle_ordinary_proof n p h i output capacity r e = Some (n', output', r', e') -> offers n h e n'.
Proof.
  unfold handle_ordinary_proof, offers. destruct (_ || _ || _); [intros [= <- <- <- <-]; by left|].
  destruct (encode_local _ _ _) as [[bs|]|]; [|intros [= <- <- <- <-]; by left|done]. cbn [mbind option_bind].
  destruct (rns_transport_accept_packet_hash _ _ _) as [[acc t] e1]. cbn [fst snd]. destruct acc; cbn [negb]; [|by intros [= <- <- <- <-]; right].
  pose proof (consume_quiet t (Packet.destination_hash p) i (Some 0) e1) as Hq.
  destruct (rns_transport_consume_reverse _ _ _ _ _) as [[[rev t2] fwd] e2]. cbn [fst snd] in Hq.
  destruct rev; [by intros [= <- <- <- <-]; right| |by intros [= <- <- <- <-]; right].
  destruct (copy_out _ _); [|done]. intros [= <- <- <- <-]. by right.
Qed.

Lemma dispatch_offers n p h i g output capacity r e n' output' r' e' :
  node_wf n -> r.(transport_transaction) = TransactionNone -> r.(action) = RNS_NODE_DROP ->
  dispatch malloc_ok n p h i g output capacity r e = Some (n', output', r', e') -> offers n h e n'.
Proof.
  intros Hn Htx Ha. unfold dispatch. destruct (ordinary_proof p); [by apply ordinary_proof_offers|].
  destruct (_ =? 1); [by apply announce_offers|].
  destruct (local_destination _ _).
  { unfold offers. destruct (rns_transport_accept_packet_hash _ _ _) as [[acc t] e1]. cbn [fst snd]. destruct acc; intros [= <- <- <- <-]; by right. }
  destruct (_ =? 3); [intros Heq; left; by eapply link_packet_quiet|]. destruct (_ && negb _); [intros [= <- <- <- <-]; by left|].
  pose proof (accept_wf (transport n) h e (nw_transport n Hn)) as Ht. unfold offers.
  destruct (rns_transport_accept_packet_hash _ _ _) as [[acc t] e1]. cbn [fst snd] in *. destruct acc; cbn [negb]; [|by intros [= <- <- <- <-]; right].
  destruct (_ && memeq _ _); intros Heq; right; [by apply path_request_quiet in Heq|].
  split; [by apply routed_config in Heq|]. by apply handle_routed_inv in Heq as [? _].
Qed.

Lemma ingress_offers n raw i g output capacity e n' output' r e' clk :
  node_wf n -> n.(transport).(config).(clock) = Some clk ->
  rns_node_ingress malloc_ok n (SBytes raw) i g output capacity e = Some (n', output', r, e') ->
  exists h, offers n h (clk e).2 n'.
Proof.
  intros Hn Hc. unfold rns_node_ingress. rewrite Hc. destruct (clk e) as [now e1]. cbn [snd]. destruct (_ <? _)%nat; [intros [= <- <- <- <-]; exists []; by left|].
  destruct (Packet.rns_packet_decode _) as [p|]; [|intros [= <- <- <- <-]; exists []; by left].
  destruct (Packet.rns_packet_hash _) as [h|]; [|intros [= <- <- <- <-]; exists []; by left].
  destruct (_ <=? _); [intros [= <- <- <- <-]; exists []; by left|]. intros Heq. exists h.
  eapply dispatch_offers; [exact Hn| | |exact Heq]; done.
Qed.

Lemma offers_remembers n h' e n' clk h (t0 deadline : double) k :
  node_wf n -> n.(transport).(config).(clock) = Some clk -> offers n h' e n' -> remembers n.(transport) h t0 deadline k ->
  Z.of_nat k < n.(transport).(config).(dedupe_capacity) -> ((clk e).1 >=.? deadline) = false ->
  n'.(transport).(config) = n.(transport).(config) /\ remembers n'.(transport) h t0 deadline (k + 1).
Proof.
  intros Hn Hc Ho Hrem Hk Hlive. pose proof (accept_only_dedupe (transport n) h' e) as Hd. cbv zeta in Hd.
  destruct Ho as [[Hq1 Hq2]|[Hq1 Hq2]]; (split; [rewrite Hq1; first [done|by rewrite Hd]|]); eapply remembers_same; try exact Hq2.
  - destruct Hrem as (ds & j & x & ? & ? & ? & ? & ? & ?). exists ds, j, x. split_and!; try done. lia.
  - by eapply accept_keeps; [apply nw_transport| | | |].
Qed.

End Nodes.

(** *** Registered destinations *)
Section Registration.
Context {E : Type}.
Implicit Types (n : rns_node E).

Lemma local_destination_true n l d :
  n.(local_destinations) = Some l -> local_destination n d = true <-> d ∈ l.
Proof.
  intros Hl. unfold local_destination. rewrite Hl. cbn [default from_option id]. rewrite existsb_exists. split.
  - intros (x & Hx & Hm). apply memeq_true in Hm as <-. by apply list_elem_of_In.
  - intros Hd. exists d. split; [by apply list_elem_of_In|by apply memeq_true].
Qed.

(** Removing by moving the last entry. *)
Lemma swap_remove_permutation (l : list (list Z)) i d :
  l !! i = Some d ->
  exists l', (if negb (i =? length l - 1)%nat then moved ← l !! (length l - 1)%nat; put i moved l else Some l) = Some l' /\
    l ≡ₚ d :: take (length l - 1) l'.
Proof.
  destruct l as [|z l _] using rev_ind; [done|]. rewrite length_app. cbn [length]. replace (length l + 1 - 1)%nat with (length l) by lia.
  rewrite (list_lookup_middle l [] z _ eq_refl). cbn [mbind option_bind]. intros Hi. rewrite (put_lookup _ _ _ _ Hi).
  destruct (Nat.eqb_spec i (length l)) as [->|Hne]; cbn [negb]; (eexists; split; [done|]).
  - rewrite (list_lookup_middle l [] z _ eq_refl) in Hi. injection Hi as <-. rewrite take_app_length. by rewrite Permutation_app_comm.
  - assert (i < length l)%nat as Hlt by (apply lookup_lt_Some in Hi; rewrite length_app in Hi; cbn [length] in Hi; lia).
    rewrite lookup_app_l in Hi by done. rewrite insert_app_l by done.
    replace (length l) with (length (<[i:=z]> l)) at 1 by apply length_insert. rewrite take_app_length.
    rewrite <-(take_drop_middle l i d Hi) at 1. rewrite (insert_take_drop l i z) by done.
    rewrite <-app_assoc, <-app_comm_cons, <-Permutation_middle. apply perm_skip, Permutation_app_head.
    by rewrite Permutation_app_comm.
Qed.

Lemma registration n d :
  node_wf n ->
  (let '(ok, n') := rns_node_register_destination n d in node_wf n' /\
   (ok = true -> forall x, local_destination n' x = true <-> local_destination n x = true \/ x = d) /\
   (ok = false -> n' = n /\ local_destination n d = false /\
      exists l, n.(local_destinations) = Some l /\ Z.of_nat (length l) = n.(local_destination_capacity))) /\
  (let '(ok, n') := rns_node_unregister_destination n d in node_wf n' /\ ok = local_destination n d /\
   forall x, local_destination n' x = true <-> local_destination n x = true /\ x <> d).
Proof.
  intros Hn. destruct (nw_destinations n Hn) as (l & Hl & Hnd & Hcap). split.
  - unfold rns_node_register_destination. rewrite Hl. destruct (local_destination n d) eqn:Hd.
    { split_and!; [done| |done]. intros _ x. split; [by left|by intros [? | ->]]. }
    destruct (Z.eqb_spec (Z.of_nat (length l)) (local_destination_capacity n)) as [He|He]; [by split_and!; [| |eauto]|].
    assert (d ∉ l) as Hin by (rewrite <-(local_destination_true n l d Hl), Hd; done).
    split_and!; [|intros _ x|done].
    + destruct Hn. constructor; try done. exists (l ++ [d]). split_and!; [done| |cbn; rewrite length_app; cbn [length]; lia].
      apply list.NoDup_app. split_and!; [done| |apply NoDup_singleton]. by intros x Hx ->%list_elem_of_singleton.
    + rewrite (local_destination_true n l x Hl), (local_destination_true (set_destinations (Some (l ++ [d])) n) (l ++ [d]) x eq_refl).
      by rewrite elem_of_app, list_elem_of_singleton.
  - unfold rns_node_unregister_destination. rewrite Hl. destruct (find_index _ l) as [i|] eqn:Hf.
    + apply find_index_Some in Hf as (y & Hi & Hm%memeq_true & _). subst y.
      destruct (swap_remove_permutation l i d Hi) as (l1 & -> & Hp). cbn [fmap option_fmap option_map]. set (l' := take _ _) in *.
      assert (NoDup (d :: l')) as [Hdl Hnd']%list.NoDup_cons by (by rewrite <-Hp).
      split_and!; [|symmetry; apply (local_destination_true n l d Hl); by eapply list_elem_of_lookup_2|].
      * destruct Hn. constructor; try done. exists l'. split_and!; [done|done|].
        apply Permutation_length in Hp. cbn [length] in Hp. cbn. lia.
      * intros x. rewrite (local_destination_true n l x Hl), (local_destination_true (set_destinations (Some l') n) l' x eq_refl), Hp, elem_of_cons.
        split; [intros Hx; split; [by right|by intros ->]|]. by intros [[-> | Hx] Hxd].
    + assert (d ∉ l) as Hin.
      { intros [i Hi]%list_elem_of_lookup_1. pose proof (find_index_None _ _ _ _ Hf Hi) as Hm. simpl in Hm.
        by rewrite (proj2 (memeq_true d d) eq_refl) in Hm. }
      split_and!; [done| |].
      * destruct (local_destination n d) eqn:Hd; [|done]. by apply (local_destination_true n l d Hl) in Hd.
      * intros x. rewrite (local_destination_true n l x Hl). split; [intros Hx; split; [done|by intros ->]|by intros [? ?]].
Qed.

(** The registered destinations are a set. Registering adds a destination,
    which fails only when it is new and the table is full; unregistering removes
    it, and fails only when it is not registered; no other destination changes and
    the node stays well formed. *)
Theorem node_registration n d :
  node_wf n ->
  (let '(ok, n') := rns_node_register_destination n d in node_wf n' /\
   (ok = true -> forall x, local_destination n' x = true <-> local_destination n x = true \/ x = d) /\
   (ok = false -> n' = n /\ local_destination n d = false /\
      exists l, n.(local_destinations) = Some l /\ Z.of_nat (length l) = n.(local_destination_capacity))) /\
  (let '(ok, n') := rns_node_unregister_destination n d in node_wf n' /\ ok = local_destination n d /\
   forall x, local_destination n' x = true <-> local_destination n x = true /\ x <> d).
Proof. apply registration. Qed.

(** A configuration of C integers. *)
Record node_config_ok (cfg : rns_node_config E) : Prop := {
  nc_paths : 0 <= cfg.(cfg_transport).(path_capacity);
  nc_dedupe : 0 <= cfg.(cfg_transport).(dedupe_capacity);
  nc_reverse : 0 <= cfg.(cfg_transport).(reverse_capacity);
  nc_links : 0 <= cfg.(cfg_transport).(link_capacity);
  nc_id : length cfg.(cfg_transport_id) = 16%nat;
  nc_hops : is_byte cfg.(cfg_max_hops);
  nc_capacity : 0 <= cfg.(cfg_local_destination_capacity)
}.

Lemma node_init_wf sizes ok calloc_ok (cfg : rns_node_config E) n :
  node_config_ok cfg -> rns_node_init sizes ok calloc_ok cfg = Some n -> node_wf n.
Proof.
  intros [Hp Hd Hr Hl Hid Hh Hcap]. unfold rns_node_init. destruct (_ || _ || _) eqn:Hg; [done|].
  destruct (rns_transport_init _ _ _) as [t|] eqn:Ht; [|done]. cbn [mbind option_bind]. destruct calloc_ok; [|done].
  intros [= <-]. apply orb_false_iff in Hg as [[Hm%Z.eqb_neq _]%orb_false_iff _]. unfold in_width in Hh.
  constructor; cbn; [by eapply init_wf|done|lia|]. exists []. split_and!; [done|constructor|cbn; lia].
Qed.
End Registration.

(** *** Any use of a node *)
Section Reachable.
Context `{Crypto} {E : Type}.
Variable malloc_ok : nat -> bool.
Implicit Types (n : rns_node E) (e : E).

(** What a node does between two packets while no clock reading has reached [deadline]: it
    decides on packets, [k] of them, which are sent or not, drops what has expired, and
    destinations come and go. *)
Inductive traffic (clk : E -> double * E) (deadline : double) : nat -> rns_node E -> rns_node E -> Prop :=
| TrafficEnd n : traffic clk deadline 0 n n
| TrafficIngress k n raw i g output capacity e n1 output1 r1 e1 ok n2 :
    bytes_ok raw -> output_ok output capacity ->
    rns_node_ingress malloc_ok n (SBytes raw) i g output capacity e = Some (n1, output1, r1, e1) ->
    ((clk (clk e).2).1 >=.? deadline) = false ->
    traffic clk deadline k (rns_node_complete_forward n1 r1 ok).1.2 n2 -> traffic clk deadline (S k) n n2
| TrafficExpire k n e n2 : ((clk e).1 >=.? deadline) = false ->
    traffic clk deadline k (set_transport (rns_transport_expire n.(transport) e).1.2 n) n2 -> traffic clk deadline k n n2
| TrafficRegister k n d n2 : traffic clk deadline k (rns_node_register_destination n d).2 n2 -> traffic clk deadline k n n2
| TrafficUnregister k n d n2 : traffic clk deadline k (rns_node_unregister_destination n d).2 n2 -> traffic clk deadline k n n2.

Lemma expire_remembers (t : rns_transport E) e clk h (t0 deadline : double) k :
  wf t -> t.(config).(clock) = Some clk -> remembers t h t0 deadline k -> ((clk e).1 >=.? deadline) = false ->
  (rns_transport_expire t e).1.2.(config) = t.(config) /\ remembers (rns_transport_expire t e).1.2 h t0 deadline k.
Proof.
  intros Hwf Hc Hrem Hlive. unfold rns_transport_expire. rewrite Hc. destruct (clk e) as [now e1]. cbn [fst] in Hlive. destruct (negb _); [done|]. split; [done|].
  destruct (wf_dedupe _ Hwf) as (ds & Hds & _). eapply (remembers_same {| t with dedupe := Some (expire_table (dedupe_expired now) zero_dedupe ds).1 |});
    [cbn [fst snd dedupe]; by rewrite Hds|]. eapply remembers_cleared; [exact Hrem|exact Hds| |exact Hlive].
  unfold expire_table. cbn [fst]. apply Forall2_fmap_r, Forall2_same_length_lookup_2; [done|]. intros i x y Hx Hy. rewrite Hx in Hy. injection Hy as <-.
  unfold compose, cleared. destruct (dedupe_expired now x) eqn:Ex; [by right|by left]. 
Qed.

Lemma ingress_wf n raw i g output capacity e n' output' r e' ok :
  node_wf n -> bytes_ok raw -> output_ok output capacity ->
  rns_node_ingress malloc_ok n (SBytes raw) i g output capacity e = Some (n', output', r, e') -> node_wf (rns_node_complete_forward n' r ok).1.2.
Proof.
  intros Hn Hb Ho Heq. destruct (ingress_safe malloc_ok n raw i g output capacity e Hn Hb Ho) as (n2 & o2 & r2 & e2 & Heq2 & Hout).
  rewrite Heq in Heq2. injection Heq2 as <- <- <- <-. destruct (Packet.rns_packet_decode (SBytes raw)) as [p|] eqn:Hd.
  - destruct Hout as [[Hn' _] _]. exact (complete_wf malloc_ok n raw i g output capacity e n' output' r e' p ok Hn Hb Ho Hd Heq Hn').
  - destruct Hout as (-> & _ & Ha & _). unfold rns_node_complete_forward. by rewrite Ha.
Qed.

Lemma traffic_remembers clk (deadline t0 : double) k n n2 h m :
  traffic clk deadline k n n2 -> node_wf n -> n.(transport).(config).(clock) = Some clk -> remembers n.(transport) h t0 deadline m ->
  Z.of_nat (m + k) <= n.(transport).(config).(dedupe_capacity) ->
  node_wf n2 /\ n2.(transport).(config).(clock) = Some clk /\ remembers n2.(transport) h t0 deadline (m + k).
Proof.
  intros Ht. revert m. induction Ht as [n|k n raw i g output capacity e n1 output1 r1 e1 ok n2 Hb Ho Heq Hlive _ IH|k n e n2 Hlive _ IH|k n d n2 _ IH|k n d n2 _ IH]; intros m Hn Hc Hrem Hm.
  - by rewrite Nat.add_0_r.
  - destruct (ingress_offers malloc_ok n raw i g output capacity e n1 output1 r1 e1 clk Hn Hc Heq) as (h' & Hof).
    destruct (offers_remembers n h' (clk e).2 n1 clk h t0 deadline m Hn Hc Hof Hrem) as [Hcfg Hrem1]; [lia|done|].
    destruct (complete_forward_dedupe n1 r1 ok) as [Hdd _]. pose proof (complete_forward_config n1 r1 ok) as Hcc.
    replace (m + S k)%nat with (m + 1 + k)%nat by lia. apply IH; [by eapply ingress_wf|by rewrite Hcc, Hcfg|by eapply remembers_same|rewrite Hcc, Hcfg; lia].
  - destruct (expire_remembers (transport n) e clk h t0 deadline m (nw_transport n Hn) Hc Hrem Hlive) as [Hcfg Hrem1].
    apply IH; cbn [transport set_transport]; [by apply set_transport_wf; [|apply expire_wf, nw_transport]|by rewrite Hcfg|done|by rewrite Hcfg].
  - pose proof (registration n d Hn) as [Hreg _]. assert (transport (rns_node_register_destination n d).2 = transport n) as Et
      by (unfold rns_node_register_destination; by repeat case_match). apply IH; rewrite ?Et; try done.
    destruct (rns_node_register_destination n d). by destruct Hreg.
  - pose proof (registration n d Hn) as [_ Hreg]. assert (transport (rns_node_unregister_destination n d).2 = transport n) as Et
      by (unfold rns_node_unregister_destination; by repeat case_match). apply IH; rewrite ?Et; try done.
    destruct (rns_node_unregister_destination n d). by destruct Hreg.
Qed.

(** A packet that was handled is remembered. *)
Lemma handled_remembers n raw p i g output capacity e n1 output1 r1 e1 ok clk h :
  node_wf n -> bytes_ok raw -> output_ok output capacity -> Packet.rns_packet_decode (SBytes raw) = Some p -> filtered n p ->
  rns_sha256 (Packet.identity_part p) = Some h -> n.(transport).(config).(clock) = Some clk ->
  rns_node_ingress malloc_ok n (SBytes raw) i g output capacity e = Some (n1, output1, r1, e1) -> r1.(action) <> RNS_NODE_DROP ->
  let n2 := (rns_node_complete_forward n1 r1 ok).1.2 in let t0 := (clk (clk e).2).1 in
  n2.(transport).(config) = n.(transport).(config) /\
  remembers n2.(transport) h t0 (dadd t0 n.(transport).(config).(dedupe_lifetime)) (seen_since t0 (default [] n.(transport).(dedupe)) + 1).
Proof.
  intros Hn Hb Ho Hd Hf Hh Hc Heq Ha. destruct (complete_forward_dedupe n1 r1 ok) as [Hdd _]. pose proof (complete_forward_config n1 r1 ok) as Hcc.
  rewrite (ingress_dispatch malloc_ok n raw i g output capacity e clk p h) in Heq by done. cbv zeta in Heq.
  destruct (Z.leb_spec (max_hops n) (Packet.hops p)); [by injection Heq as <- <- <- <-|]. split; [rewrite Hcc; by eapply dispatch_config|].
  eapply remembers_same; [exact Hdd|]. by eapply dispatch_remembers in Heq.
Qed.

(** C5: no packet is handled twice. A packet outside link traffic was delivered, answered or
    forwarded - sent or not - at the clock reading [t0]. A copy of it, with any hops and
    route, is dropped whatever happened in between, as long as the clock has not reached the
    deadline of its hash and the packet-hash table was not filled up: the number of packets
    decided on in between, and of hashes the table held that were not seen before [t0], is
    below the capacity. Only then is the oldest entry this one. *)
Theorem node_no_duplicates n raw1 raw2 p1 p2 rc1 g1 o1 c1 e n1 o1' r1 e1 ok k n2 e2 rc2 g2 o2 c2 clk :
  node_wf n -> bytes_ok raw1 -> bytes_ok raw2 -> output_ok o1 c1 -> output_ok o2 c2 ->
  Packet.rns_packet_decode (SBytes raw1) = Some p1 -> Packet.rns_packet_decode (SBytes raw2) = Some p2 ->
  Packet.identity_part p1 = Packet.identity_part p2 -> filtered n p1 -> filtered n2 p2 ->
  n.(transport).(config).(clock) = Some clk ->
  rns_node_ingress malloc_ok n (SBytes raw1) rc1 g1 o1 c1 e = Some (n1, o1', r1, e1) -> r1.(action) <> RNS_NODE_DROP ->
  let t0 := (clk (clk e).2).1 in
  let deadline := dadd t0 n.(transport).(config).(dedupe_lifetime) in
  traffic clk deadline k (rns_node_complete_forward n1 r1 ok).1.2 n2 ->
  Z.of_nat (seen_since t0 (default [] n.(transport).(dedupe)) + k) < n.(transport).(config).(dedupe_capacity) ->
  ((clk (clk e2).2).1 >=.? deadline) = false ->
  exists n3 o3 r3 e3, rns_node_ingress malloc_ok n2 (SBytes raw2) rc2 g2 o2 c2 e2 = Some (n3, o3, r3, e3) /\ r3.(action) = RNS_NODE_DROP.
Proof.
  intros Hn Hb1 Hb2 Ho1 Ho2 Hd1 Hd2 Hpart Hf1 Hf2 Hc Heq Ha t0 deadline Ht Hcap Hlive.
  destruct (rns_sha256 (Packet.identity_part p1)) as [h|] eqn:Hh; [|exfalso; apply Ha; by eapply (ingress_no_hash malloc_ok n raw1)].
  destruct (handled_remembers n raw1 p1 rc1 g1 o1 c1 e n1 o1' r1 e1 ok clk h) as [Hcfg Hrem]; try done.
  edestruct (traffic_remembers clk deadline t0 k) as (Hn2 & Hc2 & Hrem2); [exact Ht|by eapply (ingress_wf n raw1 _ _ o1 c1)|by rewrite Hcfg|exact Hrem|rewrite Hcfg; unfold t0 in Hcap; lia|].
  destruct (ingress_safe malloc_ok n2 raw2 rc2 g2 o2 c2 e2 Hn2 Hb2 Ho2) as (n3 & o3 & r3 & e3 & Heq3 & _).
  exists n3, o3, r3, e3. split; [done|]. rewrite Hpart in Hh.
  rewrite (ingress_dispatch malloc_ok n2 raw2 rc2 g2 o2 c2 e2 clk p2 h) in Heq3 by done. cbv zeta in Heq3.
  destruct (Z.leb_spec (max_hops n2) (Packet.hops p2)); [by injection Heq3 as <- <- <- <-|].
  by eapply (dispatch_duplicate malloc_ok p2 h); [| |exact Hc2|exact Hrem2|exact Hlive|exact Heq3].
Qed.

(** The states a node goes through: a packet is decided on and, when it is to be
    forwarded, sent or not; destinations come and go; old entries expire. *)
Inductive node_reachable : rns_node E -> Prop :=
| NodeInit sizes ok calloc_ok cfg n :
    node_config_ok cfg -> rns_node_init sizes ok calloc_ok cfg = Some n -> node_reachable n
| NodeRegister n d : node_reachable n -> node_reachable (rns_node_register_destination n d).2
| NodeUnregister n d : node_reachable n -> node_reachable (rns_node_unregister_destination n d).2
| NodeExpire n e : node_reachable n -> node_reachable (set_transport (rns_transport_expire n.(transport) e).1.2 n)
| NodeIngress n raw received gravity output capacity e n' output' r e' ok :
    node_reachable n -> bytes_ok raw -> output_ok output capacity ->
    rns_node_ingress malloc_ok n (SBytes raw) received gravity output capacity e = Some (n', output', r, e') ->
    node_reachable (rns_node_complete_forward n' r ok).1.2.

Lemma reachable_wf n : node_reachable n -> node_wf n.
Proof.
  induction 1 as [sizes ok calloc_ok cfg n Hcfg Hi|n d _ IH|n d _ IH|n e _ IH
    |n raw received gravity output capacity e n' output' r e' ok _ IH Hb Ho Heq].
  - by eapply node_init_wf.
  - pose proof (registration n d IH) as [Hreg _]. destruct (rns_node_register_destination n d). by destruct Hreg.
  - pose proof (registration n d IH) as [_ Hreg]. destruct (rns_node_unregister_destination n d). by destruct Hreg.
  - by apply set_transport_wf; [|apply expire_wf, nw_transport].
  - by eapply ingress_wf.
Qed.

(** C4: a node never fails. In every state a node can reach from a successful
    initialisation - through any packets, successful or failed sends,
    registrations and expiries, whatever its clock answers - its invariant holds,
    and it decides on any next packet without touching memory outside its
    buffers. *)
Theorem node_run_safe n raw received gravity output capacity e :
  node_reachable n -> bytes_ok raw -> output_ok output capacity ->
  node_wf n /\ exists res, rns_node_ingress malloc_ok n (SBytes raw) received gravity output capacity e = Some res.
Proof.
  intros Hr%reachable_wf Hb Ho. split; [done|].
  destruct (ingress_safe malloc_ok n raw received gravity output capacity e Hr Hb Ho) as (n' & o' & r & e' & Heq & _). eauto.
Qed.
End Reachable.

(** ** A concrete node: a path to [sample_hash], one registered destination *)

Definition sample_node_config : rns_node_config (list double) :=
  {| cfg_transport := sample_config; cfg_transport_id := replicate 16 5; cfg_path_request_destination := replicate 16 6;
     cfg_max_hops := 128; cfg_local_destination_capacity := 2 |}.

Definition sample_fresh : rns_node (list double) :=
  default rns_node_free (rns_node_init sample_sizes (true, true, true, true) true sample_node_config).

Definition sample_node : rns_node (list double) := set_transport sample_announced sample_fresh.

Lemma sample_config_ok : node_config_ok sample_node_config.
Proof. constructor; cbn; unfold in_width; lia || done. Qed.

Lemma sample_fresh_wf : node_wf sample_fresh.
Proof. apply (node_init_wf sample_sizes (true, true, true, true) true sample_node_config); [apply sample_config_ok|by vm_compute]. Qed.

Lemma sample_node_wf : node_wf sample_node.
Proof. apply set_transport_wf; [apply sample_fresh_wf|apply sample_announced_wf]. Qed.

(** A packet for [sample_hash], and the same packet over another way. *)
Definition sample_packet : Packet.rns_packet :=
  {| Packet.header_type := 0; Packet.context_flag := 0; Packet.transport_type := 0; Packet.destination_type := 0;
     Packet.packet_type := 0; Packet.hops := 1; Packet.transport_id := replicate 16 0;
     Packet.destination_hash := sample_hash; Packet.context := 0; Packet.data := SBytes [1; 2; 3] |}.

Definition sample_copy : Packet.rns_packet := set_hops 4 (set_route 1 1 (replicate 16 5) sample_packet).

Definition sample_outcome : rns_node (list double) * option (list Z) * rns_node_result * list double :=
  default (sample_node, None, zero_result, [])
    (rns_node_ingress (λ _, true) sample_node (SBytes (Packet.wire sample_packet)) 1 0 (Some (replicate 64 0)) 64
      (times [20; 21; 22; 23; 24; 25])).

Ltac sample_side := first [ by vm_compute | by apply (bool_decide_unpack _); vm_compute
  | by intros o [= <-]; vm_compute; lia | apply sample_node_wf ].

Lemma rns_node_ingress_safe_witness :
  exists n' o' r e', rns_node_ingress (λ _, true) sample_node (SBytes (Packet.wire sample_packet)) 1 0
      (Some (replicate 64 0)) 64 (times [20; 21; 22; 23; 24; 25]) = Some (n', o', r, e') /\
    decided (λ _, true) sample_packet (Some (replicate 64 0)) 64 sample_node n' o' r.
Proof.
  destruct (rns_node_ingress_safe (λ _, true) sample_node (Packet.wire sample_packet) 1 0 (Some (replicate 64 0)) 64
    (times [20; 21; 22; 23; 24; 25])) as (n' & o' & r & e' & Heq & Hout); [sample_side..|].
  exists n', o', r, e'. split; [exact Heq|]. exact (proj1 Hout).
Defined.

Lemma node_forward_rollback_witness :
  exists n'' r', rns_node_complete_forward sample_outcome.1.1.1 sample_outcome.1.2 false = (true, n'', r') /\
    n'' = set_transport {| sample_announced with dedupe := sample_outcome.1.1.1.(transport).(dedupe) |} sample_node.
Proof.
  destruct (node_forward_rollback (λ _, true) sample_node (Packet.wire sample_packet) 1 0 (Some (replicate 64 0)) 64
    (times [20; 21; 22; 23; 24; 25]) sample_outcome.1.1.1 sample_outcome.1.1.2 sample_outcome.1.2 sample_outcome.2 sample_packet)
    as (n'' & r' & Heq & _ & Hn & _); [sample_side..|].
  exists n'', r'. exact (conj Heq Hn).
Defined.

(** Another packet on the way to the same destination, and what expires after it. *)
Definition sample_other : Packet.rns_packet := {| sample_packet with Packet.data := SBytes [9; 9] |}.

Definition sample_completed : rns_node (list double) := (rns_node_complete_forward sample_outcome.1.1.1 sample_outcome.1.2 false).1.2.

Definition sample_other_outcome : rns_node (list double) * option (list Z) * rns_node_result * list double :=
  default (sample_node, None, zero_result, [])
    (rns_node_ingress (λ _, true) sample_completed (SBytes (Packet.wire sample_other)) 1 0 (Some (replicate 64 0)) 64 (times [30; 31; 32; 33; 34; 35])).

Definition sample_between : rns_node (list double) :=
  let n := (rns_node_complete_forward sample_other_outcome.1.1.1 sample_other_outcome.1.2 true).1.2 in
  set_transport (rns_transport_expire n.(transport) (times [40])).1.2 n.

Lemma sample_traffic : traffic (λ _, true) sample_clock (dadd (d_of_Z 21) (d_of_Z 100)) 1 sample_completed sample_between.
Proof.
  refine (TrafficIngress (λ _, true) sample_clock _ 0 sample_completed (Packet.wire sample_other) 1 0 (Some (replicate 64 0)) 64 (times [30; 31; 32; 33; 34; 35])
    sample_other_outcome.1.1.1 sample_other_outcome.1.1.2 sample_other_outcome.1.2 sample_other_outcome.2 true sample_between _ _ _ _ _); [sample_side..|].
  refine (TrafficExpire (λ _, true) sample_clock _ 0 _ (times [40]) sample_between _ _); [by vm_compute|]. apply TrafficEnd.
Defined.

Lemma node_no_duplicates_witness :
  exists n3 o3 r3 e3, rns_node_ingress (λ _, true) sample_between (SBytes (Packet.wire sample_copy)) 2 0 None 0 (times [50; 51; 52]) = Some (n3, o3, r3, e3) /\
    r3.(action) = RNS_NODE_DROP.
Proof.
  apply (node_no_duplicates (λ _, true) sample_node (Packet.wire sample_packet) (Packet.wire sample_copy) sample_packet sample_copy
    1 0 (Some (replicate 64 0)) 64 (times [20; 21; 22; 23; 24; 25]) sample_outcome.1.1.1 sample_outcome.1.1.2
    sample_outcome.1.2 sample_outcome.2 false 1 sample_between (times [50; 51; 52]) 2 0 None 0 sample_clock);
    [sample_side..|exact sample_traffic|sample_side|sample_side].
Defined.

Lemma node_registration_witness :
  (let '(ok, n') := rns_node_register_destination sample_node sample_hash in
    ok = true -> local_destination n' sample_hash = true <-> local_destination sample_node sample_hash = true \/ sample_hash = sample_hash).
Proof.
  destruct (node_registration sample_node sample_hash sample_node_wf) as [Hr _].
  destruct (rns_node_register_destination sample_node sample_hash) as [ok n']. intros Ho. exact (proj1 (proj2 Hr) Ho sample_hash).
Defined.

Lemma node_run_safe_witness :
  exists res, rns_node_ingress (λ _, true) sample_fresh (SBytes (Packet.wire sample_packet)) 1 0 (Some (replicate 64 0)) 64
      (times [20; 21]) = Some res.
Proof.
  apply (node_run_safe (λ _, true) sample_fresh (Packet.wire sample_packet) 1 0 (Some (replicate 64 0)) 64 (times [20; 21]));
    [|sample_side..].
  eapply (NodeInit _ sample_sizes (true, true, true, true) true sample_node_config); [apply sample_config_ok|by vm_compute].
Defined.
End Node.
