(* ===== verification/StorageRecord.v ===== *)
(** * Storage records: the checksummed envelope and the two-slot journal

    Models [src/platform/storage_record.c] and
    [include/reticulum/storage_record.h]: big-endian fields, the bitwise CRC-32,
    the record codec, and the policy that picks the slot to read and the slot to
    write of a two-slot journal. A C string is the list of its characters before
    the terminating NUL. The outer [option] is memory safety. *)

From Stdlib Require Import ZArith Lia.
From S2P Require Import Prelude Platform.

(** ** CRC-32 *)
Module Crc.

Definition CRC_POLYNOMIAL : Z := 0xedb88320.
Definition UINT32_MAX : Z := 0xffffffff.

(** [~x] on a [uint32_t] *)
Definition not32 (x : Z) : Z := Z.lxor x UINT32_MAX.

(** One step of the inner loop:
    [mask = -(crc & 1); crc = (crc >> 1) ^ (poly & mask)]. *)
Definition crc_bit (crc : Z) : Z :=
  let mask := wrap32 (- (Z.land crc 1)) in
  Z.lxor (Z.shiftr crc 1) (Z.land CRC_POLYNOMIAL mask).

(** The inner loop. *)
Fixpoint crc_bits (n : nat) (crc : Z) : Z :=
  match n with O => crc | S k => crc_bits k (crc_bit crc) end.

Fixpoint crc32_update (crc : Z) (data : list Z) {struct data} : Z :=
  match data with
  | [] => crc
  | b :: rest => crc32_update (crc_bits 8 (Z.lxor crc b)) rest
  end.

Lemma crc32_update_app crc a b : crc32_update crc (a ++ b) = crc32_update (crc32_update crc a) b.
Proof. revert crc. induction a as [|x a IH]; intros crc; simpl; [done|]. apply IH. Qed.

(** *** Width *)

Lemma in_width_bits w x : 0 <= w -> in_width w x <-> 0 <= x /\ forall i, w <= i -> Z.testbit x i = false.
Proof.
  intros Hw. split.
  - intros [H0 H1]. split; [done|]. intros i Hi. rewrite <-(Z.mod_small x (2 ^ w)) by lia. apply Z.mod_pow2_bits_high. lia.
  - intros [H0 Hb]. split; [done|]. rewrite <-(Z.mod_small x (2 ^ w)); [apply Z.mod_pos_bound; lia|].
    split; [done|]. apply Z.nle_gt. intros Hle. destruct (Z.eq_dec x 0) as [->|Hne]; [pose proof (Z.pow_pos_nonneg 2 w); lia|].
    assert (w <= Z.log2 x) as Hl by (apply Z.log2_le_pow2; lia). pose proof (Z.bit_log2 x ltac:(lia)) as Ht.
    by rewrite Hb in Ht by lia.
Qed.

Lemma lxor_width w x y : 0 <= w -> in_width w x -> in_width w y -> in_width w (Z.lxor x y).
Proof.
  intros Hw [Hx Hxb]%in_width_bits [Hy Hyb]%in_width_bits; try done. apply in_width_bits; [done|].
  split; [by apply Z.lxor_nonneg|]. intros i Hi. by rewrite Z.lxor_spec, Hxb, Hyb.
Qed.

Lemma is_byte_width32 b : is_byte b -> in_width 32 b.
Proof. unfold in_width. lia. Qed.

(** *** The step is a linear bijection *)

(** Without the mask. *)
Lemma crc_bit_eq crc :
  crc_bit crc = Z.lxor (Z.shiftr crc 1) (if Z.testbit crc 0 then CRC_POLYNOMIAL else 0).
Proof.
  unfold crc_bit. assert (Z.land crc 1 = Z.b2z (Z.testbit crc 0)) as ->.
  { rewrite Z.bit0_mod. exact (Z.land_ones crc 1 ltac:(lia)). }
  by destruct (Z.testbit crc 0).
Qed.

Lemma crc_bit_width crc : in_width 32 crc -> in_width 32 (crc_bit crc).
Proof.
  intros Hc. rewrite crc_bit_eq. apply lxor_width; [lia| |by destruct (Z.testbit crc 0)].
  rewrite Z.shiftr_div_pow2 by lia. change (2 ^ 1) with 2. unfold in_width in *.
  split; [apply Z.div_pos; lia|]. apply Z.div_lt_upper_bound; lia.
Qed.

Lemma crc_bit_lxor x y : crc_bit (Z.lxor x y) = Z.lxor (crc_bit x) (crc_bit y).
Proof.
  rewrite !crc_bit_eq, Z.shiftr_lxor, Z.lxor_spec.
  apply Z.bits_inj'. intros i Hi. rewrite !Z.lxor_spec.
  destruct (Z.testbit x 0), (Z.testbit y 0), (Z.testbit (Z.shiftr x 1) i), (Z.testbit (Z.shiftr y 1) i);
    cbn [xorb]; rewrite ?Z.bits_0; by destruct (Z.testbit CRC_POLYNOMIAL i).
Qed.

(** The top bit of the polynomial tells which branch was taken. *)
Lemma crc_bit_inj x y : in_width 32 x -> in_width 32 y -> crc_bit x = crc_bit y -> x = y.
Proof.
  intros Hx Hy E. apply in_width_bits in Hx as [Hx0 Hx], Hy as [Hy0 Hy]; try lia.
  rewrite !crc_bit_eq in E.
  assert (forall i, 0 <= i -> xorb (Z.testbit x (i + 1)) (Z.testbit (if Z.testbit x 0 then CRC_POLYNOMIAL else 0) i) =
    xorb (Z.testbit y (i + 1)) (Z.testbit (if Z.testbit y 0 then CRC_POLYNOMIAL else 0) i)) as Eb.
  { intros i Hi. rewrite <-!Z.shiftr_spec, <-!Z.lxor_spec by done. by rewrite E. }
  assert (Z.testbit x 0 = Z.testbit y 0) as E0.
  { specialize (Eb 31 ltac:(lia)). rewrite (Hx (31 + 1)), (Hy (31 + 1)) in Eb by lia.
    by destruct (Z.testbit x 0), (Z.testbit y 0). }
  apply Z.bits_inj'. intros i Hi. destruct (Z.eq_dec i 0) as [->|Hi0]; [done|].
  specialize (Eb (i - 1) ltac:(lia)). rewrite E0 in Eb. replace (i - 1 + 1) with i in Eb by lia.
  revert Eb. by destruct (Z.testbit x i), (Z.testbit y i), (Z.testbit (if Z.testbit y 0 then _ else _) (i - 1)).
Qed.

Lemma crc_bits_lxor n x y : crc_bits n (Z.lxor x y) = Z.lxor (crc_bits n x) (crc_bits n y).
Proof. revert x y. induction n as [|n IH]; intros x y; cbn [crc_bits]; [done|]. by rewrite crc_bit_lxor, IH. Qed.

Lemma crc_bits_width n x : in_width 32 x -> in_width 32 (crc_bits n x).
Proof. revert x. induction n as [|n IH]; intros x Hx; cbn [crc_bits]; [done|]. by apply IH, crc_bit_width. Qed.

Lemma crc_bits_inj n x y : in_width 32 x -> in_width 32 y -> crc_bits n x = crc_bits n y -> x = y.
Proof.
  revert x y. induction n as [|n IH]; intros x y Hx Hy; cbn [crc_bits]; [done|].
  intros E. apply crc_bit_inj; [done..|]. by apply IH; [apply crc_bit_width..|].
Qed.

Lemma crc_bits_add m n x : crc_bits (m + n) x = crc_bits n (crc_bits m x).
Proof. revert x. induction m as [|m IH]; intros x; cbn [crc_bits Nat.add]; [done|]. apply IH. Qed.

(** Bits that have not reached the end are only shifted. *)
Lemma crc_bits_shiftl n x : crc_bits n (Z.shiftl x (Z.of_nat n)) = x.
Proof.
  induction n as [|n IH]; [by rewrite Z.shiftl_0_r|]. cbn [crc_bits]. rewrite crc_bit_eq.
  rewrite Z.shiftl_spec_low, Z.lxor_0_r by lia. rewrite <-IH at 2. f_equal.
  rewrite Z.shiftr_shiftl_l by lia. f_equal. lia.
Qed.

Lemma crc32_update_width s l : in_width 32 s -> bytes_ok l -> in_width 32 (crc32_update s l).
Proof.
  revert s. induction l as [|b l IH]; intros s Hs Hl; cbn [crc32_update]; [done|].
  apply Forall_cons_1 in Hl as [Hb Hl]. apply IH; [|done]. apply crc_bits_width, lxor_width; [lia|done|].
  by apply is_byte_width32.
Qed.

Lemma crc32_update_inj s s' l :
  in_width 32 s -> in_width 32 s' -> bytes_ok l -> crc32_update s l = crc32_update s' l -> s = s'.
Proof.
  revert s s'. induction l as [|b l IH]; intros s s' Hs Hs' Hl; cbn [crc32_update]; [done|].
  apply Forall_cons_1 in Hl as [Hb%is_byte_width32 Hl]. intros E.
  apply IH in E; [|apply crc_bits_width, lxor_width; (done || lia)..|done].
  apply crc_bits_inj in E; [|apply lxor_width; (done || lia)..].
  apply (f_equal (λ x, Z.lxor x b)) in E. by rewrite !Z.lxor_assoc, Z.lxor_nilpotent, !Z.lxor_0_r in E.
Qed.

(** *** The checksum as one reduction *)

(** The message as one integer, first byte lowest. *)
Fixpoint le_word (l : list Z) : Z :=
  match l with [] => 0 | b :: rest => Z.lxor b (Z.shiftl (le_word rest) 8) end.

Lemma update_word s l : crc32_update s l = crc_bits (8 * length l) (Z.lxor s (le_word l)).
Proof.
  revert s. induction l as [|b l IH]; intros s; [by rewrite Z.lxor_0_r|]. cbn [crc32_update le_word]. rewrite IH.
  rewrite <-(crc_bits_shiftl 8 (le_word l)) at 1. rewrite <-crc_bits_lxor, Z.lxor_assoc, <-crc_bits_add.
  f_equal. cbn [length]. lia.
Qed.

Lemma le_word_width l : bytes_ok l -> in_width (8 * Z.of_nat (length l)) (le_word l).
Proof.
  induction 1 as [|b l Hb Hl IH]; [done|]. cbn [le_word length].
  apply lxor_width; [lia|unfold in_width in *|unfold in_width in *].
  - assert (2 ^ 8 <= 2 ^ (8 * Z.of_nat (S (length l)))) by (apply Z.pow_le_mono_r; lia). lia.
  - rewrite Z.shiftl_mul_pow2 by lia. replace (8 * Z.of_nat (S (length l))) with (8 * Z.of_nat (length l) + 8) by lia.
    rewrite Z.pow_add_r by lia. nia.
Qed.

Lemma le_word_inj l l' : bytes_ok l -> bytes_ok l' -> length l = length l' -> le_word l = le_word l' -> l = l'.
Proof.
  intros Hl. revert l'. induction Hl as [|b l Hb Hl IH]; intros [|b' l'] Hl' Hlen; try done. cbn [le_word]. intros E.
  apply Forall_cons_1 in Hl' as [Hb' Hl']. injection Hlen as Hlen.
  assert (forall c x i, is_byte c -> 0 <= i ->
    Z.testbit (Z.lxor c (Z.shiftl x 8)) i = if i <? 8 then Z.testbit c i else Z.testbit x (i - 8)) as Hbit.
  { intros c x i [_ Hc]%in_width_bits Hi; [|lia]. rewrite Z.lxor_spec. destruct (Z.ltb_spec i 8).
    - by rewrite Z.shiftl_spec_low, xorb_false_r by lia.
    - by rewrite Hc, Z.shiftl_spec_high by lia. }
  f_equal.
  - apply Z.bits_inj'. intros i Hi. destruct (Z.lt_ge_cases i 8).
    + pose proof (f_equal (λ w, Z.testbit w i) E) as Ei. cbv beta in Ei. rewrite !Hbit in Ei by done.
      by rewrite (proj2 (Z.ltb_lt i 8)) in Ei.
    + apply in_width_bits in Hb as [_ Hb], Hb' as [_ Hb']; [|lia..]. by rewrite Hb, Hb'.
  - apply IH; [done..|]. apply Z.bits_inj'. intros i Hi.
    pose proof (f_equal (λ w, Z.testbit w (i + 8)) E) as Ei. cbv beta in Ei. rewrite !Hbit in Ei by (done || lia).
    rewrite (proj2 (Z.ltb_ge (i + 8) 8)) in Ei by lia. by replace (i + 8 - 8) with i in Ei by lia.
Qed.

(** The bits in which two messages differ span at most 32, in the order of the checksum: the
    bytes in their order, and the least significant bit of each first. They may lie across
    five bytes. *)
Definition burst (w w' : list Z) : Prop :=
  exists s b, in_width 32 b /\ Z.lxor (le_word w) (le_word w') = Z.shiftl b (Z.of_nat s).

(** Four bytes or fewer. *)
Lemma burst_bytes w w' : bytes_ok w -> bytes_ok w' -> length w = length w' -> (length w <= 4)%nat -> burst w w'.
Proof.
  intros Hw Hw' Hl H4. exists 0%nat, (Z.lxor (le_word w) (le_word w')). split; [|by rewrite Z.shiftl_0_r].
  assert (forall v, bytes_ok v -> (length v <= 4)%nat -> in_width 32 (le_word v)) as Hword.
  { intros v Hv Hlv. pose proof (le_word_width v Hv) as Hww. unfold in_width in *.
    assert (2 ^ (8 * Z.of_nat (length v)) <= 2 ^ 32) by (apply Z.pow_le_mono_r; lia). lia. }
  apply lxor_width; [lia|apply Hword; done|apply Hword; [done|lia]].
Qed.

Lemma crc_bits_0 n : crc_bits n 0 = 0.
Proof. induction n as [|n IH]; [done|]. exact IH. Qed.

(** A burst shifted through the register does not vanish. *)
Lemma crc_bits_burst n s b : in_width 32 b -> in_width (Z.of_nat n) (Z.shiftl b (Z.of_nat s)) -> crc_bits n (Z.shiftl b (Z.of_nat s)) = 0 -> b = 0.
Proof.
  intros Hb Hn E. destruct (decide (b = 0)) as [|Hne]; [done|]. assert (s <= n)%nat as Hs.
  { unfold in_width in *. rewrite Z.shiftl_mul_pow2 in Hn by lia. destruct (decide (s <= n)%nat); [done|].
    assert (2 ^ Z.of_nat n <= 2 ^ Z.of_nat s) by (apply Z.pow_le_mono_r; lia). nia. }
  replace n with (s + (n - s))%nat in E by lia. rewrite crc_bits_add, crc_bits_shiftl in E.
  by apply (crc_bits_inj (n - s) b 0); [done|done|rewrite E, crc_bits_0].
Qed.

(** Messages that differ in a burst have different checksums. *)
Lemma crc_burst s pre w w' post :
  in_width 32 s -> bytes_ok pre -> bytes_ok w -> bytes_ok w' -> bytes_ok post -> length w = length w' ->
  burst w w' -> crc32_update s (pre ++ w ++ post) = crc32_update s (pre ++ w' ++ post) -> w = w'.
Proof.
  intros Hs Hpre Hw Hw' Hpost Hlen (o & b & Hb & Hd). rewrite !crc32_update_app. set (s1 := crc32_update s pre).
  assert (in_width 32 s1) as Hs1 by (by apply crc32_update_width). intros E.
  apply crc32_update_inj in E; [|by apply crc32_update_width..|done]. rewrite !update_word, <-Hlen in E.
  apply le_word_inj; [done..|]. apply Z.lxor_eq. rewrite Hd.
  rewrite (crc_bits_burst (8 * length w) o b Hb); [by rewrite Z.shiftl_0_l| |].
  - rewrite <-Hd. replace (Z.of_nat (8 * length w)) with (8 * Z.of_nat (length w)) by lia.
    apply lxor_width; [lia|by apply le_word_width|rewrite Hlen; by apply le_word_width].
  - rewrite <-Hd. rewrite !crc_bits_lxor in *. apply (f_equal (Z.lxor (crc_bits (8 * length w) s1))) in E.
    rewrite <-!Z.lxor_assoc, Z.lxor_nilpotent, !Z.lxor_0_l in E. by rewrite E, Z.lxor_nilpotent.
Qed.

(** The bytewise checksum loop is one reduction. Running the checksum over a
    message byte by byte and bit by bit is shifting the whole message, read as one
    little-endian integer, through the register. *)
Theorem crc32_update_reduction s l : crc32_update s l = crc_bits (8 * length l) (Z.lxor s (le_word l)).
Proof. apply update_word. Qed.
End Crc.

(** ** Big-endian fields *)
Module Fields.

Definition put_u16 (output : list Z) (off : nat) (value : Z) : option (list Z) :=
  output ← store output off (wrap8 (Z.shiftr value 8));
  store output (off + 1) (wrap8 value).

Definition put_u32 (output : list Z) (off : nat) (value : Z) : option (list Z) :=
  output ← store output off (wrap8 (Z.shiftr value 24));
  output ← store output (off + 1) (wrap8 (Z.shiftr value 16));
  output ← store output (off + 2) (wrap8 (Z.shiftr value 8));
  store output (off + 3) (wrap8 value).

Definition get_u16 (input : list Z) (off : nat) : option Z :=
  a ← load input off;
  b ← load input (off + 1);
  Some (wrap16 (Z.lor (Z.shiftl a 8) b)).

Definition get_u32 (input : list Z) (off : nat) : option Z :=
  a ← load input off;
  b ← load input (off + 1);
  c ← load input (off + 2);
  d ← load input (off + 3);
  Some (Z.lor (Z.lor (Z.lor (Z.shiftl a 24) (Z.shiftl b 16)) (Z.shiftl c 8)) d).

Lemma wrap8_shiftr x k : 0 <= k -> wrap8 (Z.shiftr x k) = x / 2 ^ k mod 256.
Proof. intros. unfold wrap. by rewrite Z.shiftr_div_pow2. Qed.

Lemma put_u16_wrote n m w v :
  wrote n m w -> (length w + 2 <= n)%nat -> exists m', put_u16 m (length w) v = Some m' /\ wrote n m' (w ++ be_encode 2 v).
Proof.
  intros Hw Hn. unfold put_u16. destruct (wrote_store2 n m w (wrap8 (Z.shiftr v 8)) (wrap8 v) Hw Hn) as (m1 & m2 & H1 & H2 & Hw2).
  rewrite (bind_Some_eq _ _ _ H1), H2. eexists. split; [done|]. by rewrite wrap8_shiftr in Hw2.
Qed.

Lemma be_encode_4 v : be_encode 4 v = [v / 2 ^ 24 mod 256; v / 2 ^ 16 mod 256; v / 2 ^ 8 mod 256; v mod 256].
Proof.
  cbn [be_encode app]. rewrite !Z.div_div by lia. done.
Qed.

Lemma put_u32_wrote n m w v :
  wrote n m w -> (length w + 4 <= n)%nat -> exists m', put_u32 m (length w) v = Some m' /\ wrote n m' (w ++ be_encode 4 v).
Proof.
  intros Hw Hn. unfold put_u32.
  destruct (wrote_store2 n m w (wrap8 (Z.shiftr v 24)) (wrap8 (Z.shiftr v 16)) Hw) as (m1 & m2 & H1 & H2 & Hw2); [lia|].
  rewrite (bind_Some_eq _ _ _ H1), (bind_Some_eq _ _ _ H2).
  destruct (wrote_store2 n m2 _ (wrap8 (Z.shiftr v 8)) (wrap8 v) Hw2) as (m3 & m4 & H3 & H4 & Hw4); [rewrite length_app; cbn [length]; lia|].
  rewrite length_app in H3, H4. cbn [length] in H3, H4. rewrite <-Nat.add_assoc in H4.
  change (2 + 1)%nat with 3%nat in H4.
  rewrite (bind_Some_eq _ _ _ H3), H4. eexists. split; [done|]. rewrite be_encode_4, <-app_assoc in *.
  by rewrite !wrap8_shiftr in Hw4.
Qed.

(** Overwriting a field in place. *)
Lemma store_at m a x c i b : m = a ++ x :: c -> i = length a -> store m i b = Some (a ++ b :: c).
Proof.
  intros -> ->. unfold store. rewrite decide_True by (rewrite length_app; cbn [length]; lia).
  by rewrite insert_app_r_alt, Nat.sub_diag by lia.
Qed.

Lemma length_2 (l : list Z) : length l = 2%nat -> exists a b, l = [a; b].
Proof. destruct l as [|a [|b [|]]]; try done. eauto. Qed.
Lemma length_4 (l : list Z) : length l = 4%nat -> exists a b c d, l = [a; b; c; d].
Proof. destruct l as [|a [|b [|c [|d [|]]]]]; try done. eauto 10. Qed.

Lemma put_u32_at m a f c i v :
  m = a ++ f ++ c -> i = length a -> length f = 4%nat -> put_u32 m i v = Some (a ++ be_encode 4 v ++ c).
Proof.
  intros -> -> Hf. destruct (length_4 f Hf) as (x & y & z & u & ->). unfold put_u32. rewrite be_encode_4. cbn [app].
  rewrite (bind_Some_eq _ _ _ (store_at _ a x (y :: z :: u :: c) _ (wrap8 (Z.shiftr v 24)) eq_refl eq_refl)).
  erewrite bind_Some_eq by (eapply (store_at _ (a ++ [_])); [by rewrite <-app_assoc|by rewrite length_app]).
  erewrite bind_Some_eq by (eapply (store_at _ (a ++ [_; _])); [by rewrite <-!app_assoc|by rewrite length_app]).
  erewrite (store_at _ (a ++ [_; _; _])); [|by rewrite <-!app_assoc|by rewrite length_app].
  rewrite !wrap8_shiftr by lia. by rewrite <-!app_assoc.
Qed.

Lemma get_u16_at m a f c i :
  m = a ++ f ++ c -> i = length a -> length f = 2%nat -> bytes_ok f -> get_u16 m i = Some (be_decode f).
Proof.
  intros -> -> Hf Hb. destruct (length_2 f Hf) as (x & y & ->). apply Forall_cons_1 in Hb as [Hx Hb].
  apply Forall_cons_1 in Hb as [Hy _]. unfold get_u16.
  rewrite (bind_Some_eq _ _ x) by (by eapply (load_at _ a)).
  rewrite (bind_Some_eq _ _ y) by (eapply (load_at _ (a ++ [x])); [by rewrite <-app_assoc|by rewrite length_app]).
  rewrite lor_shiftl_add by (done || lia). unfold be_decode. cbn [be_decode_from]. f_equal.
  apply wrap_small. unfold in_width in *. lia.
Qed.

Lemma get_u32_at m a f c i :
  m = a ++ f ++ c -> i = length a -> length f = 4%nat -> bytes_ok f -> get_u32 m i = Some (be_decode f).
Proof.
  intros -> -> Hf Hb. destruct (length_4 f Hf) as (x & y & z & u & ->).
  repeat match goal with H : bytes_ok (_ :: _) |- _ => apply Forall_cons_1 in H as [? H] end. unfold get_u32.
  rewrite (bind_Some_eq _ _ x) by (by eapply (load_at _ a)).
  rewrite (bind_Some_eq _ _ y) by (eapply (load_at _ (a ++ [x])); [by rewrite <-app_assoc|by rewrite length_app]).
  rewrite (bind_Some_eq _ _ z) by (eapply (load_at _ (a ++ [x; y])); [by rewrite <-app_assoc|by rewrite length_app]).
  rewrite (bind_Some_eq _ _ u) by (eapply (load_at _ (a ++ [x; y; z])); [by rewrite <-app_assoc|by rewrite length_app]).
  assert (Z.lor (Z.lor (Z.shiftl x 24) (Z.shiftl y 16)) (Z.shiftl z 8) = Z.shiftl (Z.lor (Z.shiftl (Z.lor (Z.shiftl x 8) y) 8) z) 8) as ->.
  { by rewrite !Z.shiftl_lor, !Z.shiftl_shiftl by lia. }
  rewrite !lor_shiftl_add by (done || lia). unfold be_decode. cbn [be_decode_from]. done.
Qed.
End Fields.

(** ** Records *)
Module StorageRecord.
Import Crc Fields.

Definition RNS_STORAGE_KEY_MAX : nat := 64.
Definition RNS_STORAGE_RECORD_VERSION : Z := 1.
Definition RNS_STORAGE_RECORD_HEADER_SIZE : nat := 24.
Definition RNS_STORAGE_RECORD_MAX_PAYLOAD : nat := 4096.
Definition RECORD_MAGIC_0 : Z := 82.
Definition RECORD_MAGIC_1 : Z := 78.
Definition RECORD_MAGIC_2 : Z := 83.
Definition RECORD_MAGIC_3 : Z := 78.

(** The loop that measures the key stops after [RNS_STORAGE_KEY_MAX + 1]
    characters. *)
Definition valid_key (key : option (list Z)) : option nat :=
  match key with
  | None => None
  | Some k =>
      let value := Nat.min (length k) (RNS_STORAGE_KEY_MAX + 1) in
      if (value =? 0)%nat || (RNS_STORAGE_KEY_MAX <? value)%nat then None else Some value
  end.

Definition key_tag (key : list Z) (length : nat) : Z := not32 (crc32_update UINT32_MAX (take length key)).

(** The status and the value behind [encoded_length]. *)
Definition rns_storage_record_encoded_size (payload_length : nat) (encoded_length : option nat)
    : rns_status * option nat :=
  match encoded_length with
  | None => (RNS_ERROR_INVALID_ARGUMENT, None)
  | Some _ =>
      if (RNS_STORAGE_RECORD_MAX_PAYLOAD <? payload_length)%nat then (RNS_ERROR_OVERFLOW, Some 0%nat)
      else (RNS_OK, Some (RNS_STORAGE_RECORD_HEADER_SIZE + payload_length)%nat)
  end.

(** The header fields, the checksum still zero. *)
Definition put_header (o k : list Z) (key_length : nat) (generation : Z) (payload_length : nat) : option (list Z) :=
  o ← store o 0 RECORD_MAGIC_0;
  o ← store o 1 RECORD_MAGIC_1;
  o ← store o 2 RECORD_MAGIC_2;
  o ← store o 3 RECORD_MAGIC_3;
  o ← put_u16 o 4 RNS_STORAGE_RECORD_VERSION;
  o ← put_u16 o 6 (Z.of_nat RNS_STORAGE_RECORD_HEADER_SIZE);
  o ← put_u32 o 8 generation;
  o ← put_u32 o 12 (key_tag k key_length);
  o ← put_u32 o 16 (Z.of_nat payload_length);
  put_u32 o 20 0.

(** The status, the output object and the value behind [encoded_length]. *)
Definition rns_storage_record_encode (key : option (list Z)) (generation : Z) (payload : slice)
    (output : option (list Z)) (capacity : nat) (encoded_length : option nat)
    : option (rns_status * option (list Z) * option nat) :=
  match encoded_length, key, valid_key key, output with
  | Some _, Some k, Some key_length, Some o =>
      if (generation =? 0) || slice_bad payload then Some (RNS_ERROR_INVALID_ARGUMENT, output, encoded_length)
      else
        match rns_storage_record_encoded_size (slice_length payload) (Some 0%nat) with
        | (RNS_OK, Some required) =>
            if (capacity <? required)%nat then Some (RNS_ERROR_OVERFLOW, output, Some required)
            else
              o ← put_header o k key_length generation (slice_length payload);
              o ← (if negb (slice_length payload =? 0)%nat
                   then memcpy o RNS_STORAGE_RECORD_HEADER_SIZE (slice_bytes payload) else Some o);
              header ← memread o 0 20;
              body ← memread o RNS_STORAGE_RECORD_HEADER_SIZE (slice_length payload);
              let checksum := crc32_update (crc32_update UINT32_MAX header) body in
              o ← put_u32 o 20 (not32 checksum);
              Some (RNS_OK, Some o, Some required)
        | (status, _) => Some (status, output, encoded_length)
        end
  | _, _, _, _ => Some (RNS_ERROR_INVALID_ARGUMENT, output, encoded_length)
  end.

(** The end of the decoder: the payload of a record whose checksum matches. *)
Definition deliver_payload (output : option (list Z)) (capacity : nat) (len gen : Z) (body : list Z)
    : option (rns_status * option (list Z) * option nat * option Z) :=
  if gen =? 0 then Some (RNS_ERROR_PROTOCOL, output, Some (Z.to_nat len), Some gen)
  else if (Z.of_nat capacity <? len) || (negb (len =? 0) && (if output is None then true else false))
  then Some (RNS_ERROR_OVERFLOW, output, Some (Z.to_nat len), Some gen)
  else
    output ← (if negb (len =? 0) then o ← output; o ← memcpy o 0 body; Some (Some o) else Some output);
    Some (RNS_OK, output, Some (Z.to_nat len), Some gen).

(** The status, the output object, the payload length and the generation. *)
Definition rns_storage_record_decode (key : option (list Z)) (record : slice) (output : option (list Z))
    (capacity : nat) (payload_length : option nat) (generation : option Z)
    : option (rns_status * option (list Z) * option nat * option Z) :=
  match payload_length, generation, key, valid_key key, record with
  | Some _, Some _, Some k, Some key_length, SBytes r =>
      if (if output is None then negb (capacity =? 0)%nat else false)
      then Some (RNS_ERROR_INVALID_ARGUMENT, output, payload_length, generation)
      else
        let protocol := Some (RNS_ERROR_PROTOCOL, output, Some 0%nat, Some 0) in
        if (length r <? RNS_STORAGE_RECORD_HEADER_SIZE)%nat then protocol
        else
          m0 ← load r 0; m1 ← load r 1; m2 ← load r 2; m3 ← load r 3;
          version ← get_u16 r 4;
          size ← get_u16 r 6;
          tag ← get_u32 r 12;
          if negb (m0 =? RECORD_MAGIC_0) || negb (m1 =? RECORD_MAGIC_1) || negb (m2 =? RECORD_MAGIC_2) ||
             negb (m3 =? RECORD_MAGIC_3) || negb (version =? RNS_STORAGE_RECORD_VERSION) ||
             negb (size =? Z.of_nat RNS_STORAGE_RECORD_HEADER_SIZE) || negb (tag =? key_tag k key_length)
          then protocol
          else
            len ← get_u32 r 16;
            if (Z.of_nat RNS_STORAGE_RECORD_MAX_PAYLOAD <? len) ||
               negb (Z.of_nat (length r) =? Z.of_nat RNS_STORAGE_RECORD_HEADER_SIZE + len)
            then protocol
            else
              header ← memread r 0 20;
              body ← memread r RNS_STORAGE_RECORD_HEADER_SIZE (Z.to_nat len);
              let checksum := crc32_update (crc32_update UINT32_MAX header) body in
              crc ← get_u32 r 20;
              if negb (not32 checksum =? crc) then protocol
              else
                gen ← get_u32 r 8;
                deliver_payload output capacity len gen body
  | _, _, _, _, _ => Some (RNS_ERROR_INVALID_ARGUMENT, output, payload_length, generation)
  end.

(** The status and the character behind [selected_slot]: [a] is 97, [b] is 98. *)
Definition rns_storage_record_select_slot (valid_a : bool) (generation_a : Z) (valid_b : bool) (generation_b : Z)
    (selected_slot : option Z) : rns_status * option Z :=
  match selected_slot with
  | None => (RNS_ERROR_INVALID_ARGUMENT, None)
  | Some _ =>
      if (valid_a && (generation_a =? 0)) || (valid_b && (generation_b =? 0))
      then (RNS_ERROR_INVALID_ARGUMENT, selected_slot)
      else if negb valid_a && negb valid_b then (RNS_ERROR_NOT_FOUND, Some 0)
      else (RNS_OK, Some (if negb valid_b || (valid_a && (generation_b <=? generation_a)) then 97 else 98))
  end.

(** The status, the slot to write and the generation to write. *)
Definition rns_storage_record_next_slot (valid_a : bool) (generation_a : Z) (valid_b : bool) (generation_b : Z)
    (write_slot next_generation : option Z) : rns_status * option Z * option Z :=
  match write_slot, next_generation with
  | Some _, Some _ =>
      if (valid_a && (generation_a =? 0)) || (valid_b && (generation_b =? 0))
      then (RNS_ERROR_INVALID_ARGUMENT, write_slot, next_generation)
      else if negb valid_a && negb valid_b then (RNS_OK, Some 97, Some 1)
      else
        let newest := if negb valid_b || (valid_a && (generation_b <=? generation_a)) then generation_a else generation_b in
        if newest =? UINT32_MAX then (RNS_ERROR_INVALID_STATE, write_slot, next_generation)
        else (RNS_OK, Some (if negb valid_a then 97 else if negb valid_b then 98
                            else if generation_a <=? generation_b then 97 else 98),
              Some (wrap32 (newest + 1)))
  | _, _ => (RNS_ERROR_INVALID_ARGUMENT, write_slot, next_generation)
  end.

(** ** The image of a record *)

Definition record_header (k : list Z) (generation : Z) (payload : list Z) : list Z :=
  [RECORD_MAGIC_0; RECORD_MAGIC_1; RECORD_MAGIC_2; RECORD_MAGIC_3] ++ be_encode 2 RNS_STORAGE_RECORD_VERSION ++
  be_encode 2 (Z.of_nat RNS_STORAGE_RECORD_HEADER_SIZE) ++ be_encode 4 generation ++
  be_encode 4 (key_tag k (length k)) ++ be_encode 4 (Z.of_nat (length payload)).

Definition record_checksum (header payload : list Z) : Z :=
  not32 (crc32_update (crc32_update UINT32_MAX header) payload).

Definition record_image (k : list Z) (generation : Z) (payload : list Z) : list Z :=
  let header := record_header k generation payload in
  header ++ be_encode 4 (record_checksum header payload) ++ payload.

Definition key_ok (k : list Z) : Prop := (1 <= length k <= RNS_STORAGE_KEY_MAX)%nat.

Lemma valid_key_ok k : key_ok k -> valid_key (Some k) = Some (length k).
Proof.
  unfold key_ok, valid_key, RNS_STORAGE_KEY_MAX. intros Hk. rewrite Nat.min_l by lia.
  rewrite (proj2 (Nat.eqb_neq _ _)), (proj2 (Nat.ltb_ge _ _)) by lia. done.
Qed.

Lemma length_record_header k g p : length (record_header k g p) = 20%nat.
Proof. unfold record_header. by rewrite !length_app, !length_be_encode. Qed.

Lemma length_record_image k g p : length (record_image k g p) = (24 + length p)%nat.
Proof. unfold record_image. rewrite !length_app, length_be_encode, length_record_header. lia. Qed.

Lemma record_header_bytes k g p : bytes_ok (record_header k g p).
Proof.
  unfold record_header. rewrite !Forall_app. split_and!; try apply be_encode_bytes.
  by apply (bool_decide_unpack _); vm_compute.
Qed.

Lemma not32_inj x y : not32 x = not32 y -> x = y.
Proof.
  unfold not32. intros E. apply (f_equal (λ z, Z.lxor z UINT32_MAX)) in E.
  by rewrite !Z.lxor_assoc, Z.lxor_nilpotent, !Z.lxor_0_r in E.
Qed.

Lemma not32_width x : in_width 32 x -> in_width 32 (not32 x).
Proof. intros. by apply lxor_width. Qed.

Lemma key_tag_width k : bytes_ok k -> in_width 32 (key_tag k (length k)).
Proof. intros. apply not32_width, crc32_update_width; [done|]. by apply Forall_take. Qed.

Lemma record_checksum_width h p : bytes_ok h -> bytes_ok p -> in_width 32 (record_checksum h p).
Proof. intros. by apply not32_width, crc32_update_width; [apply crc32_update_width|]. Qed.

Lemma be_decode_encode_32 x : in_width 32 x -> be_decode (be_encode 4 x) = x.
Proof. intros. by apply be_decode_encode. Qed.

(** The header, front to back. *)
Lemma write_header k g p o :
  (24 <= length o)%nat ->
  exists o', put_header o k (length k) g (length p) = Some o' /\
    wrote (length o) o' (record_header k g p ++ be_encode 4 0).
Proof.
  intros Hl. unfold put_header. set (n := length o) in *.
  destruct (wrote_store n o [] RECORD_MAGIC_0) as (o1 & H1 & W1); [by apply wrote_nil|cbn; lia|].
  destruct (wrote_store n o1 _ RECORD_MAGIC_1 W1) as (o2 & H2 & W2); [cbn; lia|].
  destruct (wrote_store n o2 _ RECORD_MAGIC_2 W2) as (o3 & H3 & W3); [cbn; lia|].
  destruct (wrote_store n o3 _ RECORD_MAGIC_3 W3) as (o4 & H4 & W4); [cbn; lia|].
  destruct (put_u16_wrote n o4 _ RNS_STORAGE_RECORD_VERSION W4) as (o5 & H5 & W5); [cbn; lia|].
  destruct (put_u16_wrote n o5 _ (Z.of_nat RNS_STORAGE_RECORD_HEADER_SIZE) W5) as (o6 & H6 & W6); [cbn; lia|].
  destruct (put_u32_wrote n o6 _ g W6) as (o7 & H7 & W7); [cbn; lia|].
  destruct (put_u32_wrote n o7 _ (key_tag k (length k)) W7) as (o8 & H8 & W8); [rewrite length_app, length_be_encode; cbn; lia|].
  destruct (put_u32_wrote n o8 _ (Z.of_nat (length p)) W8) as (o9 & H9 & W9); [rewrite !length_app, !length_be_encode; cbn; lia|].
  destruct (put_u32_wrote n o9 _ 0 W9) as (o10 & H10 & W10); [rewrite !length_app, !length_be_encode; cbn; lia|].
  rewrite !length_app, ?length_be_encode in *. cbn [length Nat.add] in *.
  rewrite H1; cbn [mbind option_bind]. rewrite H2; cbn [mbind option_bind]. rewrite H3; cbn [mbind option_bind].
  rewrite H4; cbn [mbind option_bind]. rewrite H5; cbn [mbind option_bind]. rewrite H6; cbn [mbind option_bind].
  rewrite H7; cbn [mbind option_bind]. rewrite H8; cbn [mbind option_bind]. rewrite H9; cbn [mbind option_bind].
  exists o10. split; [exact H10|]. unfold record_header. by rewrite <-!app_assoc in W10 |- *.
Qed.

(** The encoder writes the image. *)
Lemma encode_image k g p o capacity n0 :
  key_ok k -> bytes_ok k -> 0 < g < 2 ^ 32 -> bytes_ok p -> (length p <= RNS_STORAGE_RECORD_MAX_PAYLOAD)%nat ->
  (capacity <= length o)%nat ->
  if decide (24 + length p <= capacity)%nat then
    exists o', rns_storage_record_encode (Some k) g (SBytes p) (Some o) capacity (Some n0) =
      Some (RNS_OK, Some o', Some (24 + length p)%nat) /\ wrote (length o) o' (record_image k g p)
  else rns_storage_record_encode (Some k) g (SBytes p) (Some o) capacity (Some n0) =
      Some (RNS_ERROR_OVERFLOW, Some o, Some (24 + length p)%nat).
Proof.
  intros Hk Hkb Hg Hp Hl Hcap. unfold rns_storage_record_encode. rewrite valid_key_ok by done.
  rewrite (proj2 (Z.eqb_neq g 0)) by lia. cbn [orb slice_bad slice_is_null slice_length slice_bytes andb].
  unfold rns_storage_record_encoded_size. rewrite (proj2 (Nat.ltb_ge _ _)) by lia.
  change RNS_STORAGE_RECORD_HEADER_SIZE with 24%nat. case_decide as Hd; [rewrite (proj2 (Nat.ltb_ge _ _)) by lia|
    by rewrite (proj2 (Nat.ltb_lt _ _)) by lia].
  pose proof (length_record_header k g p) as Hh.
  destruct (write_header k g p o) as (o1 & H1 & W1); [lia|]. rewrite (bind_Some_eq _ _ _ H1).
  destruct (wrote_memcpy _ _ _ p W1) as (o2 & H2 & W2); [rewrite length_app, length_be_encode; lia|].
  rewrite length_app, length_be_encode, Hh in H2. change (20 + 4)%nat with 24%nat in H2.
  rewrite (bind_Some_eq _ _ o2) by (destruct p as [|b p]; [by rewrite (memcpy_nil _ _ _ H2)|done]).
  destruct (wrote_split _ _ _ W2) as (rest & -> & Hrest).
  rewrite (bind_Some_eq _ _ (record_header k g p))
    by (eapply (memread_at _ [] _ (be_encode 4 0 ++ p ++ rest)); [by rewrite <-!app_assoc|done|done]).
  rewrite (bind_Some_eq _ _ p)
    by (eapply (memread_at _ (record_header k g p ++ be_encode 4 0) _ rest); [by rewrite <-!app_assoc|by rewrite length_app, Hh|done]).
  erewrite bind_Some_eq by (eapply (put_u32_at _ (record_header k g p) (be_encode 4 0) (p ++ rest)); [by rewrite <-!app_assoc|done|done]).
  eexists. split; [done|]. rewrite !app_assoc. unfold record_image, record_checksum. rewrite <-!app_assoc.
  rewrite Hrest, !app_assoc.
  replace (length _) with (length (((record_header k g p ++ be_encode 4 (not32 (crc32_update
    (crc32_update UINT32_MAX (record_header k g p)) p))) ++ p) ++ rest)) by (by rewrite !length_app, !length_be_encode).
  apply wrote_app.
Qed.


(** ** What decoding accepts *)

(** The fields of any record of at least the header's size. *)
Lemma record_fields r :
  bytes_ok r -> (24 <= length r)%nat ->
  exists m0 m1 m2 m3 v s g t l c p, r = [m0; m1; m2; m3] ++ v ++ s ++ g ++ t ++ l ++ c ++ p /\
    length v = 2%nat /\ length s = 2%nat /\ length g = 4%nat /\ length t = 4%nat /\ length l = 4%nat /\ length c = 4%nat /\
    bytes_ok v /\ bytes_ok s /\ bytes_ok g /\ bytes_ok t /\ bytes_ok l /\ bytes_ok c /\ bytes_ok p.
Proof.
  intros Hb Hl. destruct r as [|m0 [|m1 [|m2 [|m3 r]]]]; cbn [length] in Hl; try lia.
  apply Forall_cons_1 in Hb as [_ Hb]. apply Forall_cons_1 in Hb as [_ Hb]. apply Forall_cons_1 in Hb as [_ Hb].
  apply Forall_cons_1 in Hb as [_ Hb].
  destruct (split_at r 2) as (v & r1 & -> & Hv); [lia|]. rewrite length_app in Hl.
  destruct (split_at r1 2) as (s & r2 & -> & Hs); [lia|]. rewrite length_app in Hl.
  destruct (split_at r2 4) as (g & r3 & -> & Hg); [lia|]. rewrite length_app in Hl.
  destruct (split_at r3 4) as (t & r4 & -> & Ht); [lia|]. rewrite length_app in Hl.
  destruct (split_at r4 4) as (l & r5 & -> & Hll); [lia|]. rewrite length_app in Hl.
  destruct (split_at r5 4) as (c & p & -> & Hc); [lia|]. rewrite !Forall_app in Hb.
  destruct Hb as (? & ? & ? & ? & ? & ? & ?). by exists m0, m1, m2, m3, v, s, g, t, l, c, p.
Qed.

(** The image splits at the same places. *)
Lemma image_fields k g' p' m0 m1 m2 m3 v s g t l c p :
  length v = 2%nat -> length s = 2%nat -> length g = 4%nat -> length t = 4%nat -> length l = 4%nat -> length c = 4%nat ->
  [m0; m1; m2; m3] ++ v ++ s ++ g ++ t ++ l ++ c ++ p = record_image k g' p' ->
  [m0; m1; m2; m3] = [RECORD_MAGIC_0; RECORD_MAGIC_1; RECORD_MAGIC_2; RECORD_MAGIC_3] /\
  v = be_encode 2 RNS_STORAGE_RECORD_VERSION /\ s = be_encode 2 (Z.of_nat RNS_STORAGE_RECORD_HEADER_SIZE) /\
  g = be_encode 4 g' /\ t = be_encode 4 (key_tag k (length k)) /\ l = be_encode 4 (Z.of_nat (length p')) /\
  c = be_encode 4 (record_checksum (record_header k g' p') p') /\ p = p'.
Proof.
  intros Hv Hs Hg Ht Hl Hc. unfold record_image, record_header at 1. rewrite <-!app_assoc. intros E.
  apply app_inj_1 in E as [E0 E]; [|done]. apply app_inj_1 in E as [E1 E]; [|by rewrite length_be_encode].
  apply app_inj_1 in E as [E2 E]; [|by rewrite length_be_encode]. apply app_inj_1 in E as [E3 E]; [|by rewrite length_be_encode].
  apply app_inj_1 in E as [E4 E]; [|by rewrite length_be_encode]. apply app_inj_1 in E as [E5 E]; [|by rewrite length_be_encode].
  apply app_inj_1 in E as [E6 E]; [|by rewrite length_be_encode]. done.
Qed.

Lemma be_decode_inj a b n : bytes_ok a -> length a = n -> be_decode a = b -> a = be_encode n b.
Proof. intros Ha <- <-. by rewrite be_encode_decode. Qed.

(** Where a field of a record starts. *)
Ltac at_field Er := first [done | by rewrite Er, <-!app_assoc |
  rewrite !length_app; repeat match goal with H : length _ = _ |- _ => rewrite H end; done].

(** The record is an image, up to a zero generation. *)
Definition genuine (k r : list Z) (g : Z) (p : list Z) : Prop :=
  r = record_image k g p /\ 0 <= g < 2 ^ 32 /\ (length p <= RNS_STORAGE_RECORD_MAX_PAYLOAD)%nat.

(** The checks of the decoder, in their order. *)
Lemma decode_checks k r output capacity l0 g0 :
  key_ok k -> bytes_ok k -> bytes_ok r -> (if output is None then negb (capacity =? 0)%nat else false) = false ->
  (forall g p, ~ genuine k r g p) /\
    rns_storage_record_decode (Some k) (SBytes r) output capacity (Some l0) (Some g0) =
      Some (RNS_ERROR_PROTOCOL, output, Some 0%nat, Some 0) \/
  exists g p, genuine k r g p /\
    rns_storage_record_decode (Some k) (SBytes r) output capacity (Some l0) (Some g0) =
      deliver_payload output capacity (Z.of_nat (length p)) g p.
Proof.
  intros Hk Hkb Hr Hnull. unfold rns_storage_record_decode. rewrite valid_key_ok, Hnull by done.
  destruct (Nat.ltb_spec (length r) RNS_STORAGE_RECORD_HEADER_SIZE) as [Hlen|Hlen].
  { left. split; [|done]. intros g p (-> & _). rewrite length_record_image in Hlen. unfold RNS_STORAGE_RECORD_HEADER_SIZE in Hlen. lia. }
  destruct (record_fields r Hr Hlen) as (m0 & m1 & m2 & m3 & v & s & g & t & l & c & p & Er & Hv & Hs & Hg & Ht & Hl & Hc &
    Bv & Bs & Bg & Bt & Bl & Bc & Bp).
  assert (forall g' p', genuine k r g' p' -> [m0; m1; m2; m3] = [RECORD_MAGIC_0; RECORD_MAGIC_1; RECORD_MAGIC_2; RECORD_MAGIC_3] /\
    v = be_encode 2 RNS_STORAGE_RECORD_VERSION /\ s = be_encode 2 (Z.of_nat RNS_STORAGE_RECORD_HEADER_SIZE) /\
    g = be_encode 4 g' /\ t = be_encode 4 (key_tag k (length k)) /\ l = be_encode 4 (Z.of_nat (length p')) /\
    c = be_encode 4 (record_checksum (record_header k g' p') p') /\ p = p' /\ (length p' <= RNS_STORAGE_RECORD_MAX_PAYLOAD)%nat) as Himg.
  { intros g' p' (E & _ & Hl'). rewrite Er in E.
    destruct (image_fields k g' p' _ _ _ _ _ _ _ _ _ _ _ Hv Hs Hg Ht Hl Hc E) as (? & ? & ? & ? & ? & ? & ? & ?). by split_and!. }
  rewrite (bind_Some_eq _ _ m0) by (by rewrite Er). rewrite (bind_Some_eq _ _ m1) by (by rewrite Er).
  rewrite (bind_Some_eq _ _ m2) by (by rewrite Er). rewrite (bind_Some_eq _ _ m3) by (by rewrite Er).
  rewrite (bind_Some_eq _ _ (be_decode v)) by (by apply (get_u16_at _ [m0; m1; m2; m3] _ (s ++ g ++ t ++ l ++ c ++ p))).
  rewrite (bind_Some_eq _ _ (be_decode s)) by (apply (get_u16_at _ ([m0; m1; m2; m3] ++ v) _ (g ++ t ++ l ++ c ++ p)); at_field Er).
  rewrite (bind_Some_eq _ _ (be_decode t)) by (apply (get_u32_at _ ([m0; m1; m2; m3] ++ v ++ s ++ g) _ (l ++ c ++ p)); at_field Er).
  destruct (_ || _) eqn:Hck.
  { left. split; [|done]. intros g' p' Hgen. destruct (Himg g' p' Hgen) as ([= -> -> -> ->] & -> & -> & _ & -> & _).
    rewrite (be_decode_encode_32 (key_tag k (length k))), (Z.eqb_refl (key_tag k (length k))) in Hck by (by apply key_tag_width).
    by vm_compute in Hck. }
  rewrite !orb_false_iff, !negb_false_iff, !Z.eqb_eq in Hck. destruct Hck as ((((((-> & ->) & ->) & ->) & Ev) & Es) & Et).
  apply (be_decode_inj _ _ 2) in Ev, Es; [|done..]. apply (be_decode_inj _ _ 4) in Et; [|done..].
  set (M := [RECORD_MAGIC_0; RECORD_MAGIC_1; RECORD_MAGIC_2; RECORD_MAGIC_3]) in *.
  rewrite (bind_Some_eq _ _ (be_decode l)) by (apply (get_u32_at _ (M ++ v ++ s ++ g ++ t) _ (c ++ p)); at_field Er).
  pose proof (be_decode_bounds l Bl) as Hbl. rewrite Hl in Hbl.
  assert (Z.of_nat (length r) = 24 + Z.of_nat (length p)) as Hrl.
  { rewrite Er, !length_app, Hv, Hs, Hg, Ht, Hl, Hc. cbn [M length]. lia. }
  destruct (_ || _) eqn:Hck.
  { left. split; [|done]. intros g' p' Hgen. destruct (Himg g' p' Hgen) as (_ & _ & _ & _ & _ & -> & _ & -> & Hmax).
    rewrite Hrl, be_decode_encode_32 in Hck by (unfold in_width, RNS_STORAGE_RECORD_MAX_PAYLOAD in *; lia).
    apply orb_true_iff in Hck as [Hck%Z.ltb_lt|Hck%negb_true_iff%Z.eqb_neq]; [lia|].
    unfold RNS_STORAGE_RECORD_HEADER_SIZE in Hck. lia. }
  apply orb_false_iff in Hck as [Hmax%Z.ltb_ge Hsz%negb_false_iff%Z.eqb_eq].
  assert (be_decode l = Z.of_nat (length p)) as Elen by (unfold RNS_STORAGE_RECORD_HEADER_SIZE in Hsz; lia).
  rewrite Elen, Nat2Z.id in *. apply (be_decode_inj _ _ 4) in Elen; [|done..].
  assert (record_header k (be_decode g) p = M ++ v ++ s ++ g ++ t ++ l) as Eh.
  { unfold record_header. fold M. by rewrite <-(be_decode_inj g _ 4 Bg Hg eq_refl), <-Ev, <-Es, <-Et, <-Elen. }
  assert (r = record_header k (be_decode g) p ++ c ++ p) as Er' by (by rewrite Eh, Er, <-!app_assoc).
  pose proof (length_record_header k (be_decode g) p) as Hh.
  rewrite (bind_Some_eq _ _ (record_header k (be_decode g) p)) by (by apply (memread_at _ [] _ (c ++ p))).
  rewrite (bind_Some_eq _ _ p) by (apply (memread_at _ (record_header k (be_decode g) p ++ c) _ []);
    [by rewrite Er', app_nil_r, <-app_assoc|by rewrite length_app, Hh, Hc|done]).
  rewrite (bind_Some_eq _ _ (be_decode c)) by (by apply (get_u32_at _ (record_header k (be_decode g) p) _ p)).
  destruct (Z.eqb_spec (not32 (crc32_update (crc32_update UINT32_MAX (record_header k (be_decode g) p)) p)) (be_decode c))
    as [Ec|Ec]; cbn [negb].
  - right. rewrite (bind_Some_eq _ _ (be_decode g)) by (apply (get_u32_at _ (M ++ v ++ s) _ (t ++ l ++ c ++ p)); at_field Er).
    exists (be_decode g), p. split; [|done]. split; [|split; [|lia]].
    + unfold record_image, record_checksum. by rewrite Ec, <-(be_decode_inj c _ 4 Bc Hc eq_refl).
    + pose proof (be_decode_bounds g Bg) as Hbg. by rewrite Hg in Hbg.
  - left. split; [|done]. intros g' p' Hgen. destruct (Himg g' p' Hgen) as (_ & _ & _ & -> & _ & _ & -> & -> & _).
    destruct Hgen as (_ & Hg' & _). apply Ec. rewrite be_decode_encode_32 by done.
    rewrite be_decode_encode_32; [done|]. by apply record_checksum_width; [apply record_header_bytes|].
Qed.

(** The outcome of decoding [r] under the key [k] into [output]. *)
Definition decoded (k r : list Z) (output : option (list Z)) (capacity : nat)
    (res : rns_status * option (list Z) * option nat * option Z) : Prop :=
  let '(status, output', len, gen) := res in
  match status with
  | RNS_OK => exists g p, genuine k r g p /\ g <> 0 /\ (length p <= capacity)%nat /\ len = Some (length p) /\ gen = Some g /\
      (p = [] /\ output' = output \/ exists o o', output = Some o /\ output' = Some o' /\ wrote (length o) o' p)
  | RNS_ERROR_OVERFLOW => output' = output /\ exists g p, genuine k r g p /\ g <> 0 /\ (capacity < length p)%nat /\
      len = Some (length p) /\ gen = Some g
  | RNS_ERROR_PROTOCOL => output' = output /\ forall g p, genuine k r g p -> g = 0
  | _ => False
  end.

Lemma genuine_unique k r g p g' p' : genuine k r g p -> genuine k r g' p' -> g' = g /\ p' = p.
Proof.
  intros (Hr & Hg & Hl) (Hr' & Hg' & Hl'). rewrite Hr in Hr'. unfold record_image, record_header in Hr'. cbv zeta in Hr'.
  rewrite <-!app_assoc in Hr'.
  do 3 (apply app_inj_1 in Hr' as [_ Hr']; [|done]). apply app_inj_1 in Hr' as [E Hr']; [|done].
  apply (f_equal be_decode) in E. rewrite !be_decode_encode_32 in E by done. split; [done|].
  do 3 (apply app_inj_1 in Hr' as [_ Hr']; [|by rewrite !length_be_encode]). done.
Qed.

Lemma decode_decides k r output capacity l0 g0 :
  key_ok k -> bytes_ok k -> bytes_ok r -> (forall o, output = Some o -> (capacity <= length o)%nat) ->
  (output = None -> capacity = 0%nat) ->
  exists res, rns_storage_record_decode (Some k) (SBytes r) output capacity (Some l0) (Some g0) = Some res /\
    decoded k r output capacity res.
Proof.
  intros Hk Hkb Hr Ho Hnone.
  assert ((if output is None then negb (capacity =? 0)%nat else false) = false) as Hnull.
  { destruct output; [done|]. by rewrite Hnone. }
  destruct (decode_checks k r output capacity l0 g0 Hk Hkb Hr Hnull) as [[Hno ->]|(g & p & Hgen & ->)].
  { eexists. split; [done|]. split; [done|]. intros g p Hg. by apply Hno in Hg. }
  unfold deliver_payload. destruct (Z.eqb_spec g 0) as [Hg|Hg].
  { eexists. split; [done|]. split; [done|]. intros g' p' Hgen'. by destruct (genuine_unique _ _ _ _ _ _ Hgen Hgen') as [-> _]. }
  rewrite Nat2Z.id. destruct (Z.ltb_spec (Z.of_nat capacity) (Z.of_nat (length p))) as [Hc|Hc]; cbn [orb].
  { eexists. split; [done|]. split; [done|]. exists g, p. split_and!; [done|done|lia|done|done]. }
  destruct p as [|b p]; cbn [length] in *.
  { eexists. split; [done|]. exists g, []. split_and!; [done|done|cbn [length]; lia|done|done|by left]. }
  destruct output as [o|]; [|rewrite Hnone in Hc by done; lia].
  rewrite (proj2 (Z.eqb_neq _ _)) by lia. cbn [negb andb].
  destruct (wrote_memcpy (length o) o [] (b :: p)) as (o' & Hm & Hw);
    [by apply wrote_nil|specialize (Ho o eq_refl); cbn [length Nat.add]; lia|].
  cbn [mbind option_bind length] in *. rewrite Hm. cbn [mbind option_bind]. eexists. split; [done|].
  exists g, (b :: p). split_and!; [done|done|cbn [length]; lia|done|done|right; eauto].
Qed.

(** Records round trip. [rns_storage_record_encode] writes only the record,
    exactly when it fits the capacity, and [rns_storage_record_decode] under the
    same key gives back the payload and the generation. *)
Theorem storage_record_roundtrip k g p o capacity n0 out l0 g0 :
  key_ok k -> bytes_ok k -> 0 < g < 2 ^ 32 -> bytes_ok p -> (length p <= RNS_STORAGE_RECORD_MAX_PAYLOAD)%nat ->
  (capacity <= length o)%nat -> (length p <= length out)%nat ->
  (if decide (24 + length p <= capacity)%nat then
     exists o', rns_storage_record_encode (Some k) g (SBytes p) (Some o) capacity (Some n0) =
       Some (RNS_OK, Some o', Some (24 + length p)%nat) /\ wrote (length o) o' (record_image k g p)
   else rns_storage_record_encode (Some k) g (SBytes p) (Some o) capacity (Some n0) =
       Some (RNS_ERROR_OVERFLOW, Some o, Some (24 + length p)%nat)) /\
  exists out', rns_storage_record_decode (Some k) (SBytes (record_image k g p)) (Some out) (length out) (Some l0) (Some g0) =
    Some (RNS_OK, Some out', Some (length p), Some g) /\ wrote (length out) out' p.
Proof.
  intros Hk Hkb Hg Hp Hl Hcap Hout. split; [by apply encode_image|].
  assert (genuine k (record_image k g p) g p) as Hgen by (split_and!; (done || lia)).
  destruct (decode_decides k (record_image k g p) (Some out) (length out) l0 g0) as (res & -> & Hres); try done.
  { unfold record_image. rewrite !Forall_app. split_and!; [apply record_header_bytes|apply be_encode_bytes|done]. }
  { by intros ? [= <-]. }
  destruct res as [[[status out'] len] gen]. destruct status; try done.
  - destruct Hres as (g' & p' & Hgen' & _ & _ & -> & -> & Hw). destruct (genuine_unique _ _ _ _ _ _ Hgen Hgen') as [-> ->].
    destruct Hw as [[-> ->]|(o1 & o' & [= <-] & -> & Hw)]; [|eauto]. eexists. split; [done|]. by apply wrote_nil.
  - destruct Hres as [_ Hz]. apply Hz in Hgen. lia.
  - destruct Hres as [_ (g' & p' & Hgen' & _ & Hc & _)]. destruct (genuine_unique _ _ _ _ _ _ Hgen Hgen') as [_ ->]. lia.
Qed.

(** The decoder accepts exactly the records of its key. On any bytes it stays
    inside record and output; it succeeds exactly on an image of a payload under
    the key with a positive generation that fits the capacity, whose payload it
    then delivers. *)
Theorem rns_storage_record_decode_spec k r output capacity l0 g0 :
  key_ok k -> bytes_ok k -> bytes_ok r -> (forall o, output = Some o -> (capacity <= length o)%nat) ->
  (output = None -> capacity = 0%nat) ->
  exists res, rns_storage_record_decode (Some k) (SBytes r) output capacity (Some l0) (Some g0) = Some res /\
    decoded k r output capacity res.
Proof. apply decode_decides. Qed.

(** *** Corruption *)

(** The three parts of a record: what the checksum covers before it, the
    checksum, and the payload. *)
Definition within_part (offset size : nat) : Prop :=
  (offset + size <= 20)%nat \/ (20 <= offset /\ offset + size <= 24)%nat \/ (24 <= offset)%nat.

Lemma record_checksum_app h p : record_checksum h p = not32 (crc32_update UINT32_MAX (h ++ p)).
Proof. unfold record_checksum. by rewrite crc32_update_app. Qed.

Lemma checksum_burst pre w w' post h h' p p' :
  h ++ p = pre ++ w ++ post -> h' ++ p' = pre ++ w' ++ post -> bytes_ok (pre ++ w ++ post) -> bytes_ok (pre ++ w' ++ post) ->
  length w = length w' -> burst w w' ->
  be_encode 4 (record_checksum h p) = be_encode 4 (record_checksum h' p') -> w = w'.
Proof.
  intros E E' Hb Hb' Hl H4 Hc. apply (f_equal be_decode) in Hc.
  assert (in_width 32 (record_checksum h p) /\ in_width 32 (record_checksum h' p')) as [Hw Hw'].
  { rewrite !record_checksum_app, E, E'. by split; apply not32_width, crc32_update_width. }
  rewrite !be_decode_encode_32, !record_checksum_app, E, E' in Hc by done. apply not32_inj in Hc.
  rewrite !Forall_app in Hb, Hb'. destruct Hb as (? & ? & ?), Hb' as (_ & ? & _). by eapply crc_burst in Hc.
Qed.

Lemma app_inj_prefix (x y a b : list Z) : length x = length a -> x ++ y = a ++ b -> x = a /\ y = b.
Proof. apply app_inj_1. Qed.

(** Two images that differ in a burst inside one part are equal. *)
Lemma image_burst k g p g' p' pre w w' post :
  record_image k g p = pre ++ w ++ post -> record_image k g' p' = pre ++ w' ++ post -> length w = length w' ->
  bytes_ok (pre ++ w ++ post) -> bytes_ok (pre ++ w' ++ post) -> burst w w' -> within_part (length pre) (length w) ->
  w = w'.
Proof.
  intros E E' Hl Hb Hb' H4 Hpart. pose proof (length_record_header k g p) as Hh. pose proof (length_record_header k g' p') as Hh'.
  unfold record_image in E, E'. cbv zeta in E, E'. set (h := record_header k g p) in *. set (h' := record_header k g' p') in *.
  assert (length (h ++ be_encode 4 (record_checksum h p) ++ p) = length (pre ++ w ++ post)) as Hlen by (by rewrite E).
  rewrite !length_app, length_be_encode, Hh in Hlen.
  destruct Hpart as [Hpart|[Hpart|Hpart]].
  - destruct (split_at post (20 - length pre - length w)) as (b & c & -> & Hbl); [lia|].
    destruct (app_inj_prefix h (be_encode 4 (record_checksum h p) ++ p) (pre ++ w ++ b) c) as [Eh Ec];
      [rewrite !length_app; lia|by rewrite E, <-!app_assoc|].
    destruct (app_inj_prefix h' (be_encode 4 (record_checksum h' p') ++ p') (pre ++ w' ++ b) c) as [Eh' Ec'];
      [rewrite !length_app; lia|by rewrite E', <-!app_assoc|].
    rewrite <-Ec' in Ec. apply app_inj_1 in Ec as [Ec ->]; [|by rewrite !length_be_encode].
    assert (bytes_ok p') as Bp by (rewrite <-Ec', !Forall_app in Hb'; tauto).
    apply (checksum_burst pre w w' (b ++ p') h h' p' p'); try done.
    + by rewrite Eh, <-!app_assoc.
    + by rewrite Eh', <-!app_assoc.
    + rewrite !Forall_app in *. tauto.
    + rewrite !Forall_app in *. tauto.
  - destruct (split_at pre 20) as (a & b & -> & Ha); [lia|]. rewrite length_app in Hpart.
    destruct (split_at post (24 - length (a ++ b) - length w)) as (c & d & -> & Hc); [rewrite !length_app in *; lia|].
    rewrite length_app in Hc.
    destruct (app_inj_prefix h (be_encode 4 (record_checksum h p) ++ p) a ((b ++ w ++ c) ++ d)) as [Eh Ec];
      [lia|by rewrite E, <-!app_assoc|].
    destruct (app_inj_prefix h' (be_encode 4 (record_checksum h' p') ++ p') a ((b ++ w' ++ c) ++ d)) as [Eh' Ec'];
      [lia|by rewrite E', <-!app_assoc|].
    apply app_inj_1 in Ec as [Ec ->]; [|rewrite length_be_encode, !length_app; lia].
    apply app_inj_1 in Ec' as [Ec' ->]; [|rewrite length_be_encode, !length_app; lia].
    rewrite Eh' in Ec'. rewrite Eh, Ec' in Ec. apply app_inv_head in Ec. by apply app_inv_tail in Ec.
  - destruct (split_at pre 24) as (a & b & -> & Ha); [lia|].
    destruct (app_inj_prefix (h ++ be_encode 4 (record_checksum h p)) p a (b ++ w ++ post)) as [Eh ->];
      [rewrite length_app, length_be_encode; lia|by rewrite <-app_assoc, E, <-!app_assoc|].
    destruct (app_inj_prefix (h' ++ be_encode 4 (record_checksum h' p')) p' a (b ++ w' ++ post)) as [Eh' ->];
      [rewrite length_app, length_be_encode; lia|by rewrite <-app_assoc, E', <-!app_assoc|].
    rewrite <-Eh' in Eh. apply app_inj_1 in Eh as [Eh Ec]; [|lia].
    apply (checksum_burst (h ++ b) w w' post h h' (b ++ w ++ post) (b ++ w' ++ post)); try done.
    + by rewrite <-Eh, !app_assoc.
    + rewrite !Forall_app in *. pose proof (record_header_bytes k g (b ++ w ++ post)). tauto.
    + rewrite !Forall_app in *. pose proof (record_header_bytes k g (b ++ w ++ post)). tauto.
Qed.

(** C34: corruption is detected. When the bits that change in a stored record span at most
    32 - each byte's least significant bit first, so any change of four consecutive bytes
    and many of five - and lie inside the header, the checksum or the payload, decoding
    reports a protocol error and delivers nothing. *)
Theorem storage_record_detects_burst k g p pre w w' post output capacity l0 g0 :
  key_ok k -> bytes_ok k -> 0 < g < 2 ^ 32 -> record_image k g p = pre ++ w ++ post -> bytes_ok p ->
  length w = length w' -> bytes_ok w' -> w <> w' -> burst w w' -> within_part (length pre) (length w) ->
  (forall o, output = Some o -> (capacity <= length o)%nat) -> (output = None -> capacity = 0%nat) ->
  exists len gen, rns_storage_record_decode (Some k) (SBytes (pre ++ w' ++ post)) output capacity (Some l0) (Some g0) =
    Some (RNS_ERROR_PROTOCOL, output, len, gen).
Proof.
  intros Hk Hkb Hg E Hp Hl Bw' Hne H4 Hpart Ho Hnone.
  assert (bytes_ok (pre ++ w ++ post)) as Hb.
  { rewrite <-E. unfold record_image. rewrite !Forall_app. split_and!; [apply record_header_bytes|apply be_encode_bytes|done]. }
  assert (bytes_ok (pre ++ w' ++ post)) as Hb' by (rewrite !Forall_app in *; tauto).
  destruct (decode_checks k (pre ++ w' ++ post) output capacity l0 g0) as [[_ ->]|(g' & p' & (E' & _) & _)]; try done.
  - destruct output; [done|]. by rewrite Hnone.
  - by eexists _, _.
  - exfalso. apply Hne. by eapply (image_burst k g p g' p' pre w w' post).
Qed.

(** *** The journal *)

(** A slot holds a valid record of some generation, or nothing readable. *)
Definition slot_ok (valid : bool) (generation : Z) : Prop := valid = true -> 0 < generation < 2 ^ 32.

(** The newest valid generation, 0 when there is none. *)
Definition newest (valid_a : bool) (a : Z) (valid_b : bool) (b : Z) : Z :=
  Z.max (if valid_a then a else 0) (if valid_b then b else 0).

Definition selected (valid_a : bool) (a : Z) (valid_b : bool) (b : Z) : rns_status * option Z :=
  rns_storage_record_select_slot valid_a a valid_b b (Some 0).

(** What is selected after a write to [slot] that completed with generation [g],
    or left the slot unreadable. *)
Definition select_after (slot : Z) (completed : bool) (g : Z) (valid_a : bool) (a : Z) (valid_b : bool) (b : Z)
    : rns_status * option Z :=
  if slot =? 97 then selected completed g valid_b b else selected valid_a a completed g.

Ltac select_slots :=
  unfold select_after, selected, rns_storage_record_select_slot; cbn [Z.eqb Pos.eqb andb orb negb];
  repeat match goal with |- context [?x =? 0] => rewrite (proj2 (Z.eqb_neq x 0)) by lia end; cbn [andb orb negb];
  repeat match goal with |- context [?x <=? ?y] => first [rewrite (proj2 (Z.leb_le x y)) by lia | rewrite (proj2 (Z.leb_gt x y)) by lia] end;
  done.

(** The states a journal goes through: writes to the named slot that complete or
    leave it unreadable, and slots that become unreadable on their own. *)
Inductive journal : bool -> Z -> bool -> Z -> Prop :=
| JournalEmpty a b : journal false a false b
| JournalWriteA completed va a vb b g :
    journal va a vb b -> rns_storage_record_next_slot va a vb b (Some 0) (Some 0) = (RNS_OK, Some 97, Some g) ->
    journal completed g vb b
| JournalWriteB completed va a vb b g :
    journal va a vb b -> rns_storage_record_next_slot va a vb b (Some 0) (Some 0) = (RNS_OK, Some 98, Some g) ->
    journal va a completed g
| JournalLoseA va a vb b : journal va a vb b -> journal false a vb b
| JournalLoseB va a vb b : journal va a vb b -> journal va a false b.

(** Valid slots have different positive generations. *)
Definition journal_ok (va : bool) (a : Z) (vb : bool) (b : Z) : Prop :=
  slot_ok va a /\ slot_ok vb b /\ (va = true -> vb = true -> a <> b).

(** The slot named for writing, and its generation. *)
Lemma next_slot_cases va a vb b :
  journal_ok va a vb b ->
  rns_storage_record_next_slot va a vb b (Some 0) (Some 0) =
    if newest va a vb b =? UINT32_MAX then (RNS_ERROR_INVALID_STATE, Some 0, Some 0)
    else (RNS_OK, Some (if negb va then 97 else if negb vb then 98 else if a <=? b then 97 else 98),
          Some (newest va a vb b + 1)).
Proof.
  unfold journal_ok, slot_ok, newest, rns_storage_record_next_slot. intros (Ha & Hb & Hd).
  assert (forall x, 0 <= x < 2 ^ 32 -> x <> UINT32_MAX -> wrap32 (x + 1) = x + 1) as Hw.
  { intros x Hx Hx'. apply wrap_small. unfold in_width, UINT32_MAX in *. lia. }
  destruct va, vb; try specialize (Ha eq_refl); try specialize (Hb eq_refl); cbn [andb orb negb];
    rewrite ?(proj2 (Z.eqb_neq a 0)), ?(proj2 (Z.eqb_neq b 0)) by lia; cbn [orb]; [destruct (Z.leb_spec b a)| | |done].
  - rewrite (Z.max_l a b) by lia. destruct (Z.eqb_spec a UINT32_MAX); [done|]. by rewrite Hw by lia.
  - rewrite (Z.max_r a b) by lia. destruct (Z.eqb_spec b UINT32_MAX); [done|]. by rewrite Hw by lia.
  - rewrite (Z.max_l a 0) by lia. destruct (Z.eqb_spec a UINT32_MAX); [done|]. by rewrite Hw by lia.
  - rewrite (Z.max_r 0 b) by lia. destruct (Z.eqb_spec b UINT32_MAX); [done|]. by rewrite Hw by lia.
Qed.

Lemma newest_bounds va a vb b :
  journal_ok va a vb b -> 0 <= newest va a vb b < 2 ^ 32 /\ (va = true -> a <= newest va a vb b) /\ (vb = true -> b <= newest va a vb b).
Proof.
  intros (Ha & Hb & _). unfold newest, slot_ok in *.
  destruct va, vb; try specialize (Ha eq_refl); try specialize (Hb eq_refl); split_and!; try done; intros; lia.
Qed.

Lemma journal_invariant va a vb b : journal va a vb b -> journal_ok va a vb b.
Proof.
  unfold journal_ok, slot_ok.
  induction 1 as [a b|c va a vb b g _ IH Hn|c va a vb b g _ IH Hn|va a vb b _ IH|va a vb b _ IH]; [done|..|by destruct IH as (? & ? & ?)|by destruct IH as (? & ? & ?)].
  all: pose proof (newest_bounds _ _ _ _ IH) as (Hbd & Hma & Hmb); rewrite next_slot_cases in Hn by done.
  all: destruct (Z.eqb_spec (newest va a vb b) UINT32_MAX) as [|Hne]; [done|]; injection Hn as Hslot <-.
  all: destruct IH as (Ha & Hb & Hd); unfold UINT32_MAX in Hne; split_and!; intros; try lia; try by auto.
  - specialize (Hmb ltac:(done)). lia.
  - specialize (Hma ltac:(done)). lia.
Qed.

(** C35: the journal survives interrupted writes. In every state reachable through
    completed and interrupted writes and lost slots, below the last generation the
    policy names a slot to write and a new generation. When the write completes,
    that slot is the one read; when it is interrupted and leaves the slot unreadable,
    the slot read before is still the one read: the previous record is never lost. *)
Theorem storage_journal_crash_safe va a vb b :
  journal va a vb b -> newest va a vb b <> UINT32_MAX ->
  exists slot g, rns_storage_record_next_slot va a vb b (Some 0) (Some 0) = (RNS_OK, Some slot, Some g) /\
    newest va a vb b < g < 2 ^ 32 /\
    select_after slot true g va a vb b = (RNS_OK, Some slot) /\
    select_after slot false g va a vb b = selected va a vb b.
Proof.
  intros Hj%journal_invariant Hne. pose proof (newest_bounds _ _ _ _ Hj) as (Hbd & Hma & Hmb).
  rewrite next_slot_cases, (proj2 (Z.eqb_neq _ _) Hne) by done. eexists _, _. split; [done|].
  unfold UINT32_MAX in Hne. split; [lia|]. destruct Hj as (Ha & Hb & Hd). unfold slot_ok in *.
  destruct va, vb; try specialize (Ha eq_refl); try specialize (Hb eq_refl); try specialize (Hd eq_refl eq_refl);
    try specialize (Hma eq_refl); try specialize (Hmb eq_refl); cbn [negb]; try destruct (Z.leb_spec a b); split; select_slots.
Qed.

(** ** Concrete records *)

Definition sample_key : list Z := [112; 97; 116; 104; 115].
Definition sample_payload : list Z := [1; 2; 3; 4; 5; 6].
Definition sample_image : list Z := Eval vm_compute in record_image sample_key 7 sample_payload.

Lemma sample_key_ok : key_ok sample_key /\ bytes_ok sample_key.
Proof. split; [vm_compute; lia|by apply (bool_decide_unpack _); vm_compute]. Qed.

Lemma sample_record_eq : sample_image = record_image sample_key 7 sample_payload.
Proof. by vm_compute. Qed.

Lemma storage_record_roundtrip_witness :
  exists out', rns_storage_record_decode (Some sample_key) (SBytes (record_image sample_key 7 sample_payload))
      (Some (replicate 16 0)) 16 (Some 0%nat) (Some 0) = Some (RNS_OK, Some out', Some 6%nat, Some 7) /\
    wrote 16 out' sample_payload.
Proof.
  destruct sample_key_ok as [Hk Hb].
  refine (proj2 (storage_record_roundtrip sample_key 7 sample_payload (replicate 64 0) 64 0 (replicate 16 0) 0 0 Hk Hb _ _ _ _ _));
    [lia|by apply (bool_decide_unpack _); vm_compute|unfold RNS_STORAGE_RECORD_MAX_PAYLOAD; cbn [length sample_payload]; lia|done|cbn; lia].
Defined.

Lemma rns_storage_record_decode_spec_witness :
  exists res, rns_storage_record_decode (Some sample_key) (SBytes sample_image) (Some (replicate 4 0)) 4 (Some 0%nat) (Some 0) =
    Some res /\ decoded sample_key sample_image (Some (replicate 4 0)) 4 res.
Proof.
  destruct sample_key_ok as [Hk Hb].
  apply (rns_storage_record_decode_spec sample_key sample_image (Some (replicate 4 0)) 4 0 0 Hk Hb);
    [by apply (bool_decide_unpack _); vm_compute|by intros o [= <-]|done].
Defined.

(** A burst of 26 bits across five payload bytes, from the last bit of the first to the
    first bit of the last. *)
Lemma storage_record_detects_burst_witness :
  exists len gen, rns_storage_record_decode (Some sample_key) (SBytes (take 24 sample_image ++ [129; 2; 3; 4; 4] ++ [6])) None 0
    (Some 0%nat) (Some 0) = Some (RNS_ERROR_PROTOCOL, None, len, gen).
Proof.
  destruct sample_key_ok as [Hk Hb].
  apply (storage_record_detects_burst sample_key 7 sample_payload (take 24 sample_image) [1; 2; 3; 4; 5] [129; 2; 3; 4; 4] [6] None 0 0 0 Hk Hb);
    [lia|by vm_compute|by apply (bool_decide_unpack _); vm_compute|done|by apply (bool_decide_unpack _); vm_compute|
     done| |right; right; by vm_compute; lia|done|done].
  exists 7%nat, (1 + 2 ^ 25). split; [by vm_compute|reflexivity].
Defined.

Lemma storage_journal_crash_safe_witness :
  exists slot g, rns_storage_record_next_slot true 1 true 2 (Some 0) (Some 0) = (RNS_OK, Some slot, Some g) /\
    select_after slot false g true 1 true 2 = selected true 1 true 2.
Proof.
  destruct (storage_journal_crash_safe true 1 true 2) as (slot & g & Hn & _ & _ & Hs); [|by vm_compute|by exists slot, g].
  apply (JournalWriteB true true 1 false 0 2); [|done]. by apply (JournalWriteA true false 0 false 0 1); [constructor|].
Defined.
End StorageRecord.
