(* ===== verification/Request.v ===== *)
(** * Requests and responses over a link

    Models [src/link/request.c] and [include/reticulum/request.h]: the
    MessagePack walker that checks that a buffer holds exactly one object, and the
    codecs of requests and responses. A cursor is the list of the bytes from it to
    the end of the buffer; reads through it are checked, and the outer [option] is
    memory safety. *)

From Stdlib Require Import ZArith SpecFloat Lia.
From S2P Require Import Prelude Platform Crypto Link.

Module Request.

Definition RNS_REQUEST_ID_LENGTH : nat := 16.
Definition RNS_REQUEST_PATH_MAX : nat := 1024.

Record rns_request_view : Type := {
  requested_at : double;
  path_hash : list Z;
  data_msgpack : list Z
}.

Record rns_response_view : Type := {
  request_id : list Z;
  response_msgpack : list Z;
  response : list Z
}.

(** ** The walker *)

Definition read32 (p : list Z) : option Z :=
  a ← load p 0; b ← load p 1; c ← load p 2; d ← load p 3;
  Some (Z.lor (Z.lor (Z.lor (Z.shiftl a 24) (Z.shiftl b 16)) (Z.shiftl c 8)) d).

Definition read16 (p : list Z) : option Z :=
  a ← load p 0; b ← load p 1; Some (Z.lor (Z.shiftl a 8) b).

(** A length or count field of [n] bytes at the cursor: [Some None] when fewer
    bytes are left. *)
Definition size_field (n : nat) (cursor : list Z) : option (option (Z * list Z)) :=
  if (length cursor <? n)%nat then Some None
  else
    v ← (if (n =? 1)%nat then load cursor 0 else if (n =? 2)%nat then read16 cursor else read32 cursor);
    Some (Some (v, drop n cursor)).

(** A [case] label. *)
Definition is_code (code : Z) (labels : list Z) : bool := existsb (Z.eqb code) labels.

(** The part of [skip_object] between the code byte and the skipping: the
    bytes and the children the object has, and the cursor behind its size field;
    [Some None] is [return false]. *)
Definition object_size (code : Z) (cursor : list Z) : option (option (Z * Z * list Z)) :=
  let bytes n := x ← size_field n cursor; Some (x ≫= λ '(v, c), Some (v, 0, c)) in
  let children k n := x ← size_field n cursor; Some (x ≫= λ '(v, c), Some (0, k * v, c)) in
  let fixed n := Some (Some (n, 0, cursor)) in
  if Z.land code 0xe0 =? 0xa0 then fixed (Z.land code 0x1f)
  else if Z.land code 0xf0 =? 0x90 then Some (Some (0, Z.land code 0x0f, cursor))
  else if Z.land code 0xf0 =? 0x80 then Some (Some (0, 2 * Z.land code 0x0f, cursor))
  else if is_code code [0xc4; 0xd9] then bytes 1%nat
  else if is_code code [0xc5; 0xda] then bytes 2%nat
  else if is_code code [0xc6; 0xdb] then bytes 4%nat
  else if is_code code [0xca] then fixed 4
  else if is_code code [0xcb] then fixed 8
  else if is_code code [0xcc; 0xd0] then fixed 1
  else if is_code code [0xcd; 0xd1] then fixed 2
  else if is_code code [0xce; 0xd2] then fixed 4
  else if is_code code [0xcf; 0xd3] then fixed 8
  else if is_code code [0xd4] then fixed 2
  else if is_code code [0xd5] then fixed 3
  else if is_code code [0xd6] then fixed 5
  else if is_code code [0xd7] then fixed 9
  else if is_code code [0xd8] then fixed 17
  else if is_code code [0xdc] then children 1 2%nat
  else if is_code code [0xdd] then children 1 4%nat
  else if is_code code [0xde] then children 2 2%nat
  else if is_code code [0xdf] then children 2 4%nat
  else Some None.

(** Codes of objects of one byte. *)
Definition single_byte (code : Z) : bool :=
  (code <=? 0x7f) || (0xe0 <=? code) || (code =? 0xc0) || (code =? 0xc2) || (code =? 0xc3).

(** The loop over the children. [fuel] bounds the iterations; every child takes
    a byte, so the length of the cursor is enough. *)
Fixpoint skip_children (skip : list Z -> option (option (list Z))) (fuel : nat) (n : Z) (cursor : list Z)
    {struct fuel} : option (option (list Z)) :=
  if n <=? 0 then Some (Some cursor)
  else match fuel with
  | O => Some None
  | S fuel =>
      x ← skip cursor;
      match x with
      | None => Some None
      | Some cursor => skip_children skip fuel (n - 1) cursor
      end
  end.

(** [levels] is [33 - depth]. *)
Fixpoint skip_object (levels : nat) (cursor : list Z) {struct levels} : option (option (list Z)) :=
  match levels, cursor with
  | S levels, _ :: _ =>
      code ← load cursor 0;
      let cursor := drop 1 cursor in
      if single_byte code then Some (Some cursor)
      else
        x ← object_size code cursor;
        match x with
        | None => Some None
        | Some (bytes, children, cursor) =>
            if Z.of_nat (length cursor) <? bytes then Some None
            else
              let cursor := drop (Z.to_nat bytes) cursor in
              skip_children (skip_object levels) (S (length cursor)) children cursor
        end
  | _, _ => Some None
  end.

Definition MAX_LEVELS : nat := 33.

(** [skip_object(&cursor, end, 0) && cursor == end] *)
Definition one_object (input : list Z) : option bool :=
  x ← skip_object MAX_LEVELS input;
  Some (match x with Some [] => true | _ => false end).

Definition write64 (value : Z) : list Z := Link.encode_bits 8 value.

(** The fields in front of the data of a request. *)
Definition put_request (o : list Z) (bits : Z) (hash : list Z) : option (list Z) :=
  o ← store o 0 0x93;
  o ← store o 1 0xcb;
  o ← memcpy o 2 (write64 bits);
  o ← store o 10 0xc4;
  o ← store o 11 (Z.of_nat RNS_REQUEST_ID_LENGTH);
  memcpy o 12 hash.

Section Codecs.
Context `{Crypto}.

(** The status, the output object and the length. *)
Definition rns_request_encode (path : option (list Z)) (at_ : double) (data : slice) (out : option (list Z))
    (capacity : nat) (len : option nat) : option (rns_status * option (list Z) * option nat) :=
  let fail s := Some (s, out, len) in
  match path, out, len with
  | Some path, Some o, Some _ =>
      if negb (isfinite at_) || (at_ <.? dzero) || slice_bad data then fail RNS_ERROR_INVALID_ARGUMENT
      else if (length path =? 0)%nat || (RNS_REQUEST_PATH_MAX <? length path)%nat then fail RNS_ERROR_INVALID_ARGUMENT
      else
        ok ← (if negb (slice_length data =? 0)%nat then one_object (slice_bytes data) else Some true);
        if negb ok then fail RNS_ERROR_PROTOCOL
        else
          let needed := (1 + 9 + 2 + RNS_REQUEST_ID_LENGTH + (if negb (slice_length data =? 0)%nat then slice_length data else 1))%nat in
          if (capacity <? needed)%nat then fail RNS_ERROR_OVERFLOW
          else
            match rns_sha256 path with
            | None => fail RNS_ERROR_CRYPTO
            | Some digest =>
                o ← put_request o (Link.double_bits at_) (take RNS_REQUEST_ID_LENGTH digest);
                if negb (slice_length data =? 0)%nat
                then o ← memcpy o 28 (slice_bytes data); Some (RNS_OK, Some o, Some (28 + slice_length data)%nat)
                else o ← store o 28 0xc0; Some (RNS_OK, Some o, Some 29%nat)
            end
  | _, _, _ => fail RNS_ERROR_INVALID_ARGUMENT
  end.
End Codecs.

(** The status and the request written. *)
Definition rns_request_decode (input : slice) : option (rns_status * option rns_request_view) :=
  match input with
  | SNull _ => Some (RNS_ERROR_INVALID_ARGUMENT, None)
  | SBytes i =>
      if (length i <? 29)%nat then Some (RNS_ERROR_PROTOCOL, None)
      else
        b0 ← load i 0; b1 ← load i 1; b10 ← load i 10; b11 ← load i 11;
        if negb (b0 =? 0x93) || negb (b1 =? 0xcb) || negb (b10 =? 0xc4) || negb (b11 =? Z.of_nat RNS_REQUEST_ID_LENGTH)
        then Some (RNS_ERROR_PROTOCOL, None)
        else
          bits ← memread i 2 8;
          let timestamp := Link.bits_double (shift_bytes bits) in
          if negb (isfinite timestamp) || (timestamp <.? dzero) then Some (RNS_ERROR_PROTOCOL, None)
          else
            data ← memread i 28 (length i - 28);
            ok ← one_object data;
            if negb ok then Some (RNS_ERROR_PROTOCOL, None)
            else
              hash ← memread i 12 RNS_REQUEST_ID_LENGTH;
              Some (RNS_OK, Some {| requested_at := timestamp; path_hash := hash; data_msgpack := data |})
  end.

(** The bytes read and the cursor behind them. *)
Definition read_bytes (cursor : list Z) : option (option (list Z * list Z)) :=
  match cursor with
  | [] => Some None
  | _ :: _ =>
      code ← load cursor 0;
      let cursor := drop 1 cursor in
      x ← (if Z.land code 0xe0 =? 0xa0 then Some (Some (Z.land code 0x1f, cursor))
           else if is_code code [0xc4; 0xd9] then size_field 1 cursor
           else if is_code code [0xc5; 0xda] then size_field 2 cursor
           else if is_code code [0xc6; 0xdb] then size_field 4 cursor
           else Some None);
      match x with
      | None => Some None
      | Some (size, cursor) =>
          if Z.of_nat (length cursor) <? size then Some None
          else
            bytes ← memread cursor 0 (Z.to_nat size);
            Some (Some (bytes, drop (Z.to_nat size) cursor))
      end
  end.

Definition rns_response_decode (input : slice) : option (rns_status * option rns_response_view) :=
  match input with
  | SNull _ => Some (RNS_ERROR_INVALID_ARGUMENT, None)
  | SBytes i =>
      if (length i <? 1)%nat then Some (RNS_ERROR_PROTOCOL, None)
      else
        b0 ← load i 0;
        if negb (b0 =? 0x92) then Some (RNS_ERROR_PROTOCOL, None)
        else
          x ← read_bytes (drop 1 i);
          match x with
          | None => Some (RNS_ERROR_PROTOCOL, None)
          | Some (id, object) =>
              if negb (length id =? RNS_REQUEST_ID_LENGTH)%nat then Some (RNS_ERROR_PROTOCOL, None)
              else
                ok ← one_object object;
                if negb ok then Some (RNS_ERROR_PROTOCOL, None)
                else
                  y ← read_bytes object;
                  let body := match y with Some (body, []) => body | _ => object end in
                  Some (RNS_OK, Some {| request_id := id; response_msgpack := object; response := body |})
          end
  end.

(** The status, the output object and the length. *)
Definition rns_response_encode (id : option (list Z)) (msgpack : slice) (output : option (list Z)) (capacity : nat)
    (len : option nat) : option (rns_status * option (list Z) * option nat) :=
  let fail s := Some (s, output, len) in
  match id, msgpack, output, len with
  | Some id, SBytes m, Some o, Some _ =>
      if (length m =? 0)%nat then fail RNS_ERROR_INVALID_ARGUMENT
      else
        ok ← one_object m;
        if negb ok then fail RNS_ERROR_PROTOCOL
        else if (SIZE_MAX - 19 <? Z.of_nat (length m)) || (capacity <? 19 + length m)%nat then fail RNS_ERROR_OVERFLOW
        else
          o ← store o 0 0x92;
          o ← store o 1 0xc4;
          o ← store o 2 (Z.of_nat RNS_REQUEST_ID_LENGTH);
          o ← memcpy o 3 id;
          o ← memcpy o 19 m;
          Some (RNS_OK, Some o, Some (19 + length m)%nat)
  | _, _, _, _ => fail RNS_ERROR_INVALID_ARGUMENT
  end.

(** ** MessagePack *)

(** The header of an object: its bytes, the length of the body that follows and
    the number of the objects inside. *)
Inductive header : list Z -> Z -> Z -> Prop :=
| HPositive c : 0 <= c <= 0x7f -> header [c] 0 0
| HNegative c : 0xe0 <= c < 256 -> header [c] 0 0
| HConstant c : c = 0xc0 \/ c = 0xc2 \/ c = 0xc3 -> header [c] 0 0
| HFixStr n : 0 <= n < 32 -> header [0xa0 + n] n 0
| HFixArray n : 0 <= n < 16 -> header [0x90 + n] 0 n
| HFixMap n : 0 <= n < 16 -> header [0x80 + n] 0 (2 * n)
| HScalar c n :
    In (c, n) [(0xca, 4); (0xcb, 8); (0xcc, 1); (0xd0, 1); (0xcd, 2); (0xd1, 2); (0xce, 4); (0xd2, 4); (0xcf, 8);
               (0xd3, 8); (0xd4, 2); (0xd5, 3); (0xd6, 5); (0xd7, 9); (0xd8, 17)] -> header [c] n 0
| HBytes c w n :
    In (c, w) [(0xc4, 1%nat); (0xd9, 1%nat); (0xc5, 2%nat); (0xda, 2%nat); (0xc6, 4%nat); (0xdb, 4%nat)] ->
    0 <= n < 256 ^ Z.of_nat w -> header (c :: be_encode w n) n 0
| HArray c w n : In (c, w) [(0xdc, 2%nat); (0xdd, 4%nat)] -> 0 <= n < 256 ^ Z.of_nat w -> header (c :: be_encode w n) 0 n
| HMap c w n : In (c, w) [(0xde, 2%nat); (0xdf, 4%nat)] -> 0 <= n < 256 ^ Z.of_nat w -> header (c :: be_encode w n) 0 (2 * n).

(** The encoding of one object with at most [levels] levels of nesting. *)
Fixpoint msgpack (levels : nat) (l : list Z) : Prop :=
  match levels with
  | O => False
  | S levels => exists h bytes count body children, l = h ++ body ++ concat children /\ header h bytes count /\
      Z.of_nat (length body) = bytes /\ Z.of_nat (length children) = count /\ Forall (msgpack levels) children
  end.

(** *** Size fields *)

Lemma size_field_spec n cursor :
  In n [1; 2; 4]%nat -> bytes_ok cursor ->
  size_field n cursor = Some (if (length cursor <? n)%nat then None else Some (be_decode (take n cursor), drop n cursor)).
Proof.
  intros Hn Hb. unfold size_field. destruct (Nat.ltb_spec (length cursor) n) as [|Hl]; [done|].
  destruct (split_at cursor n Hl) as (f & rest & -> & Hf). apply Forall_app in Hb as [Hb _].
  assert (take n (f ++ rest) = f /\ drop n (f ++ rest) = rest) as [-> ->].
  { rewrite <-Hf. by rewrite take_app_length, drop_app_length. } clear Hl.
  destruct Hn as [<-|[<-|[<-|[]]]]; cbn [Nat.eqb].
  - by destruct f as [|x [|]].
  - destruct f as [|x [|y [|]]]; try done. apply Forall_cons_1 in Hb as [Hx Hb]. apply Forall_cons_1 in Hb as [Hy _].
    cbn. rewrite lor_shiftl_add by (done || lia). done.
  - destruct f as [|x [|y [|z [|u [|]]]]]; try done.
    repeat match goal with H : bytes_ok (_ :: _) |- _ => apply Forall_cons_1 in H as [? H] end. cbn [app read32 load lookup list_lookup mbind option_bind].
    assert (Z.lor (Z.lor (Z.shiftl x 24) (Z.shiftl y 16)) (Z.shiftl z 8) = Z.shiftl (Z.lor (Z.shiftl (Z.lor (Z.shiftl x 8) y) 8) z) 8) as ->.
    { by rewrite !Z.shiftl_lor, !Z.shiftl_shiftl by lia. }
    rewrite !lor_shiftl_add by (done || lia). done.
Qed.

(** A size field written in front of a cursor. *)
Lemma size_field_encode w n rest :
  In w [1; 2; 4]%nat -> 0 <= n < 256 ^ Z.of_nat w -> bytes_ok rest ->
  size_field w (be_encode w n ++ rest) = Some (Some (n, rest)).
Proof.
  intros Hw Hn Hb. rewrite size_field_spec by (done || (apply Forall_app; split; [apply be_encode_bytes|done])).
  rewrite length_app, length_be_encode, (proj2 (Nat.ltb_ge _ _)) by lia.
  rewrite take_app_length', drop_app_length' by (by rewrite length_be_encode). by rewrite be_decode_encode.
Qed.

(** *** Headers *)

(** What the walker learns from a header. *)
Definition object_head (code : Z) (cursor : list Z) : option (option (Z * Z * list Z)) :=
  if single_byte code then Some (Some (0, 0, cursor)) else object_size code cursor.

Lemma header_bounds h b c : header h b c -> (1 <= length h)%nat /\ 0 <= b /\ 0 <= c.
Proof.
  destruct 1; cbn [length In] in *; try lia; split_and!; try lia.
  repeat match goal with H : _ \/ _ |- _ => destruct H as [[= <- <-]|H] end; (lia || done).
Qed.

(** The codes with a count in them. *)
Lemma fix_codes n :
  (0 <= n < 32 -> single_byte (0xa0 + n) = false /\ Z.land (0xa0 + n) 0xe0 = 0xa0 /\ Z.land (0xa0 + n) 0x1f = n) /\
  (0 <= n < 16 -> single_byte (0x90 + n) = false /\ Z.land (0x90 + n) 0xe0 <> 0xa0 /\ Z.land (0x90 + n) 0xf0 = 0x90 /\
     Z.land (0x90 + n) 0x0f = n) /\
  (0 <= n < 16 -> single_byte (0x80 + n) = false /\ Z.land (0x80 + n) 0xe0 <> 0xa0 /\ Z.land (0x80 + n) 0xf0 <> 0x90 /\
     Z.land (0x80 + n) 0xf0 = 0x80 /\ Z.land (0x80 + n) 0x0f = n).
Proof.
  split_and!; intros Hn; apply (bool_decide_eq_true_1 _); revert n Hn.
  - apply (forall_below 32 (λ n, bool_decide _)). by vm_compute.
  - apply (forall_below 16 (λ n, bool_decide _)). by vm_compute.
  - apply (forall_below 16 (λ n, bool_decide _)). by vm_compute.
Qed.

(** Every header is recognised. *)
Lemma head_complete code t b c rest :
  header (code :: t) b c -> bytes_ok rest -> object_head code (t ++ rest) = Some (Some (b, c, rest)).
Proof.
  intros Hh Hb. unfold object_head. inversion Hh as [? Hc|? Hc|? Hc|n Hn|n Hn|n Hn|? n Hin|? w n Hin Hn|? w n Hin Hn|? w n Hin Hn]; subst.
  - unfold single_byte. by rewrite (proj2 (Z.leb_le code 0x7f)) by lia.
  - unfold single_byte. rewrite (proj2 (Z.leb_le 0xe0 code)), orb_true_r by lia. done.
  - by destruct Hc as [-> |[-> | ->]].
  - destruct (fix_codes b) as (Hf & _). destruct (Hf Hn) as (-> & He & Hv). unfold object_size. by rewrite He, Hv.
  - destruct (fix_codes c) as (_ & Hf & _). destruct (Hf Hn) as (-> & He & Hv & Hw). unfold object_size.
    by rewrite (proj2 (Z.eqb_neq _ _) He), Hv, Hw.
  - destruct (fix_codes n) as (_ & _ & Hf). destruct (Hf Hn) as (-> & He & Hv & Hw & Hx). unfold object_size.
    by rewrite (proj2 (Z.eqb_neq _ _) He), (proj2 (Z.eqb_neq _ _) Hv), Hw, Hx.
  - cbn [In] in Hin. repeat match goal with H : _ \/ _ |- _ => destruct H as [[= <- <-]|H] end; done.
  - cbn [In] in Hin. repeat match goal with H : _ \/ _ |- _ => destruct H as [[= <- <-]|H] end; try done;
      unfold object_size; cbn -[size_field be_encode]; (rewrite size_field_encode; [done|cbn; auto|done|done]).
  - cbn [In] in Hin. repeat match goal with H : _ \/ _ |- _ => destruct H as [[= <- <-]|H] end; try done;
      unfold object_size; cbn -[size_field be_encode]; (rewrite size_field_encode; [|cbn; auto|done|done]); cbn; by rewrite ?Z.mul_1_l.
  - cbn [In] in Hin. repeat match goal with H : _ \/ _ |- _ => destruct H as [[= <- <-]|H] end; try done;
      unfold object_size; cbn -[size_field be_encode]; (rewrite size_field_encode; [done|cbn; auto|done|done]).
Qed.

Lemma is_code_true code labels : is_code code labels = true <-> In code labels.
Proof.
  unfold is_code. rewrite existsb_exists. split; [by intros (x & Hx & ->%Z.eqb_eq)|]. intros Hin. exists code. by rewrite Z.eqb_refl.
Qed.

(** A byte with a count in it is that code. *)
Lemma fix_codes_inv code : is_byte code ->
  (Z.land code 0xe0 = 0xa0 -> code = 0xa0 + Z.land code 0x1f /\ 0 <= Z.land code 0x1f < 32) /\
  (Z.land code 0xf0 = 0x90 -> code = 0x90 + Z.land code 0x0f /\ 0 <= Z.land code 0x0f < 16) /\
  (Z.land code 0xf0 = 0x80 -> code = 0x80 + Z.land code 0x0f /\ 0 <= Z.land code 0x0f < 16).
Proof.
  intros Hc. apply (bool_decide_eq_true_1 _). revert code Hc. apply (forall_below 256 (λ code, bool_decide _)). by vm_compute.
Qed.

(** A size field the walker read. *)
Lemma size_field_inv w cursor n rest :
  In w [1; 2; 4]%nat -> bytes_ok cursor -> size_field w cursor = Some (Some (n, rest)) ->
  cursor = be_encode w n ++ rest /\ 0 <= n < 256 ^ Z.of_nat w.
Proof.
  intros Hw Hb. rewrite size_field_spec by done. destruct (Nat.ltb_spec (length cursor) w) as [|Hl]; [done|]. intros [= <- <-].
  assert (length (take w cursor) = w) as Ht by (rewrite length_take; lia).
  assert (bytes_ok (take w cursor)) as Hbt by (by apply Forall_take).
  pose proof (be_decode_bounds _ Hbt) as Hbd. rewrite Ht in Hbd. split; [|done].
  pose proof (be_encode_decode _ Hbt) as He. rewrite Ht in He. by rewrite He, take_drop.
Qed.

Lemma size_field_total w cursor : In w [1; 2; 4]%nat -> bytes_ok cursor -> exists r, size_field w cursor = Some r.
Proof. intros. rewrite size_field_spec by done. eauto. Qed.

(** What the walker took for a header is one. *)
Definition head_found (code : Z) (cursor : list Z) (r : option (Z * Z * list Z)) : Prop :=
  forall b c rest, r = Some (b, c, rest) -> exists t, cursor = t ++ rest /\ header (code :: t) b c.

Lemma fixed_found code cursor n : header [code] n 0 -> head_found code cursor (Some (n, 0, cursor)).
Proof. intros Hh b c rest [= <- <- <-]. by exists []. Qed.

Lemma sized_found code cursor w (f g : Z -> Z) :
  In w [1; 2; 4]%nat -> bytes_ok cursor ->
  (forall n, 0 <= n < 256 ^ Z.of_nat w -> header (code :: be_encode w n) (f n) (g n)) ->
  exists r, (x ← size_field w cursor; Some (x ≫= λ '(v, c), Some (f v, g v, c))) = Some r /\ head_found code cursor r.
Proof.
  intros Hw Hb Hh. destruct (size_field_total w cursor Hw Hb) as [x Hx]. rewrite Hx. cbn [mbind option_bind]. eexists. split; [done|].
  intros b c rest. destruct x as [[v cur]|]; [|done]. cbn [mbind option_bind]. intros [= <- <- <-].
  destruct (size_field_inv w cursor v cur Hw Hb Hx) as [-> Hn]. exists (be_encode w v). split; [done|]. by apply Hh.
Qed.

(** One [case] of the switch. *)
Ltac switch_case code :=
  match goal with |- context [is_code code ?l] =>
    let H := fresh "Hcode" in destruct (is_code code l) eqn:H; [apply is_code_true in H; cbn [In] in H|clear H] end.

Lemma head_sound code cursor :
  bytes_ok (code :: cursor) -> exists r, object_head code cursor = Some r /\ head_found code cursor r.
Proof.
  intros Hb. apply Forall_cons_1 in Hb as [Hc Hb]. unfold object_head. destruct (single_byte code) eqn:Hs.
  { eexists. split; [done|]. apply fixed_found.
    unfold single_byte in Hs. rewrite !orb_true_iff, !Z.leb_le, !Z.eqb_eq in Hs. unfold in_width in Hc.
    destruct Hs as [[[[Hs|Hs]|Hs]|Hs]|Hs]; [apply HPositive|apply HNegative|apply HConstant..]; lia. }
  destruct (fix_codes_inv code Hc) as (H1 & H2 & H3). unfold object_size. cbv zeta.
  destruct (Z.eqb_spec (Z.land code 0xe0) 0xa0) as [He|_].
  { eexists. split; [done|]. apply fixed_found. destruct (H1 He) as [Hcode Hn]. rewrite Hcode at 1. by apply HFixStr. }
  destruct (Z.eqb_spec (Z.land code 0xf0) 0x90) as [He|_].
  { eexists. split; [done|]. destruct (H2 He) as [Hcode Hn]. intros b c rest [= <- <- <-]. exists []. split; [done|].
    rewrite Hcode at 1. by apply HFixArray. }
  destruct (Z.eqb_spec (Z.land code 0xf0) 0x80) as [He|_].
  { eexists. split; [done|]. destruct (H3 He) as [Hcode Hn]. intros b c rest [= <- <- <-]. exists []. split; [done|].
    rewrite Hcode at 1. by apply HFixMap. }
  do 3 (switch_case code; [apply (sized_found code cursor _ (λ v, v) (λ _, 0)); [cbn; tauto|done|];
    intros n Hn; eapply HBytes; [|exact Hn]; cbn [In]; destruct Hcode as [<-|[<-|[]]]; tauto|]).
  do 11 (switch_case code; [eexists; split; [done|]; apply fixed_found, HScalar; cbn [In];
    repeat (destruct Hcode as [<-|Hcode]; [tauto|]); done|]).
  do 2 (switch_case code; [apply (sized_found code cursor _ (λ _, 0) (λ v, 1 * v)); [cbn; tauto|done|];
    intros n Hn; rewrite Z.mul_1_l; eapply HArray; [|exact Hn]; cbn [In]; destruct Hcode as [<-|[]]; tauto|]).
  do 2 (switch_case code; [apply (sized_found code cursor _ (λ _, 0) (λ v, 2 * v)); [cbn; tauto|done|];
    intros n Hn; eapply HMap; [|exact Hn]; cbn [In]; destruct Hcode as [<-|[]]; tauto|]).
  eexists. split; [done|]. by intros b c rest.
Qed.

(** *** The walker *)

(** A routine that recognises the objects of [P] at the cursor. *)
Definition recognises (P : list Z -> Prop) (skip : list Z -> option (option (list Z))) : Prop :=
  forall l, bytes_ok l -> exists r, skip l = Some r /\
    forall rest, r = Some rest <-> exists obj, l = obj ++ rest /\ P obj.

(** The loop recognises sequences; [fuel] beyond the length changes nothing. *)
Lemma skip_children_spec (P : list Z -> Prop) skip fuel n l :
  recognises P skip -> (forall obj, P obj -> obj <> []) -> bytes_ok l -> (length l < fuel)%nat -> 0 <= n ->
  exists r, skip_children skip fuel n l = Some r /\
    forall rest, r = Some rest <-> exists children, l = concat children ++ rest /\ Z.of_nat (length children) = n /\ Forall P children.
Proof.
  intros Hskip Hne. revert n l. induction fuel as [|fuel IH]; intros n l Hb Hl Hn; [lia|]. cbn [skip_children].
  destruct (Z.leb_spec n 0) as [Hz|Hz].
  { eexists. split; [done|]. intros rest. split.
    - intros [= <-]. exists []. split_and!; [done|cbn; lia|constructor].
    - intros ([|x cs] & -> & Hlen & _); [done|cbn [length] in Hlen; lia]. }
  destruct (Hskip l Hb) as (r & Hr & Hspec). rewrite Hr. cbn [mbind option_bind]. destruct r as [cur|].
  - destruct (proj1 (Hspec cur) eq_refl) as (obj & -> & Hobj). apply Forall_app in Hb as [Hbo Hbc].
    rewrite length_app in Hl. pose proof (Hne obj Hobj) as Hobj'. destruct obj as [|o obj]; [done|]. cbn [length] in Hl.
    destruct (IH (n - 1) cur Hbc ltac:(lia) ltac:(lia)) as (r' & -> & Hspec'). eexists. split; [done|]. intros rest.
    rewrite Hspec'. split.
    + intros (cs & -> & Hlen & Hcs). exists ((o :: obj) :: cs). cbn [concat length]. rewrite <-app_assoc.
      split_and!; [done|lia|by constructor].
    + intros ([|x cs] & E & Hlen & Hcs); [cbn [length] in Hlen; lia|]. apply Forall_cons_1 in Hcs as [Hx Hcs].
      cbn [concat] in E. rewrite <-app_assoc in E. pose proof (proj2 (Hspec (concat cs ++ rest)) (ex_intro _ x (conj E Hx))) as E2.
      injection E2 as ->. exists cs. cbn [length] in Hlen. split_and!; [done|lia|done].
  - eexists. split; [done|]. intros rest. split; [done|]. intros ([|x cs] & E & Hlen & Hcs); [cbn [length] in Hlen; lia|].
    apply Forall_cons_1 in Hcs as [Hx _]. cbn [concat] in E. rewrite <-app_assoc in E.
    by pose proof (proj2 (Hspec (concat cs ++ rest)) (ex_intro _ x (conj E Hx))).
Qed.

Lemma msgpack_nonempty d obj : msgpack d obj -> obj <> [].
Proof.
  destruct d; [done|]. intros (h & b & c & body & cs & -> & Hh & _). apply header_bounds in Hh as [Hh _]. by destruct h; [cbn in Hh; lia|].
Qed.

(** The walker as one step. *)
Lemma skip_object_step d code cursor :
  skip_object (S d) (code :: cursor) =
    (x ← object_head code cursor;
     match x with
     | None => Some None
     | Some (bytes, children, cursor) =>
         if Z.of_nat (length cursor) <? bytes then Some None
         else skip_children (skip_object d) (S (length (drop (Z.to_nat bytes) cursor))) children (drop (Z.to_nat bytes) cursor)
     end).
Proof.
  cbn [skip_object load lookup list_lookup mbind option_bind]. unfold object_head.
  destruct (single_byte code); [|done]. cbn [mbind option_bind]. rewrite (proj2 (Z.ltb_ge _ _)) by lia. done.
Qed.

Lemma walker_spec d : recognises (msgpack d) (skip_object d).
Proof.
  induction d as [|d IH]; intros l Hb.
  { eexists. split; [done|]. intros rest. split; [done|]. by intros (obj & _ & ?). }
  destruct l as [|code l].
  { eexists. split; [done|]. intros rest. split; [done|]. intros (obj & E & Hm%msgpack_nonempty). by destruct obj. }
  rewrite skip_object_step. destruct (head_sound code l Hb) as (hd & Hhd & Hfound). rewrite Hhd. cbn [mbind option_bind].
  assert (forall h b c rest, code :: l = h ++ rest -> header h b c -> hd = Some (b, c, rest)) as Hcomplete.
  { intros [|c0 t] b c rest E Hh; [apply header_bounds in Hh as [Hh _]; cbn in Hh; lia|]. injection E as <- ->.
    apply Forall_cons_1 in Hb as [_ [_ Hbr]%Forall_app].
    rewrite (head_complete code t b c rest Hh Hbr) in Hhd. congruence. }
  destruct hd as [[[b c] cur]|].
  2:{ eexists. split; [done|]. intros rest. split; [done|]. intros (obj & E & h & b & c & body & cs & -> & Hh & _).
      rewrite <-!app_assoc in E. by specialize (Hcomplete h b c _ E Hh). }
  destruct (Hfound b c cur eq_refl) as (t & -> & Hh). destruct (header_bounds _ _ _ Hh) as (_ & Hb0 & Hc0).
  apply Forall_cons_1 in Hb as [_ [_ Hbr]%Forall_app].
  destruct (Z.ltb_spec (Z.of_nat (length cur)) b) as [Hlt|Hle].
  { eexists. split; [done|]. intros rest. split; [done|]. intros (obj & E & h & b' & c' & body & cs & -> & Hh' & Hlen & _).
    rewrite <-!app_assoc in E. specialize (Hcomplete h b' c' _ E Hh'). injection Hcomplete as -> -> ->.
    rewrite length_app in Hlt. lia. }
  destruct (skip_children_spec (msgpack d) (skip_object d) (S (length (drop (Z.to_nat b) cur))) c (drop (Z.to_nat b) cur))
    as (r & -> & Hspec); [done|apply msgpack_nonempty|by apply Forall_drop|lia|done|].
  eexists. split; [done|]. intros rest. rewrite Hspec. split.
  - intros (cs & E & Hlen & Hcs). exists ((code :: t) ++ take (Z.to_nat b) cur ++ concat cs). split.
    + rewrite <-!app_assoc, <-E, take_drop. done.
    + exists (code :: t), b, c, (take (Z.to_nat b) cur), cs. split_and!; try done. rewrite length_take. lia.
  - intros (obj & E & h & b' & c' & body & cs & -> & Hh' & Hlen & Hcl & Hcs). rewrite <-!app_assoc in E.
    specialize (Hcomplete h b' c' _ E Hh'). injection Hcomplete as -> -> ->. exists cs. split_and!; [|done|done].
    rewrite drop_app_length' by lia. done.
Qed.

Lemma one_object_decides l : bytes_ok l -> exists b, one_object l = Some b /\ (b = true <-> msgpack MAX_LEVELS l).
Proof.
  intros Hb. unfold one_object. destruct (walker_spec MAX_LEVELS l Hb) as (r & -> & Hr). cbn [mbind option_bind].
  eexists. split; [done|]. split.
  - destruct r as [[|]|]; [|done..]. intros _. destruct (proj1 (Hr []) eq_refl) as (obj & -> & Hm). by rewrite app_nil_r.
  - intros Hm. rewrite (proj2 (Hr []) (ex_intro _ l (conj (eq_sym (app_nil_r l)) Hm))). done.
Qed.

(** The walker accepts exactly MessagePack objects. On any bytes it reads
    inside the buffer and returns; the buffer passes exactly when it is the
    encoding of one object with at most 33 levels of nesting. *)
Theorem one_object_spec l :
  bytes_ok l -> exists b, one_object l = Some b /\ (b = true <-> msgpack MAX_LEVELS l).
Proof. apply one_object_decides. Qed.

(** ** Requests *)

Definition request_image (bits : Z) (hash data : list Z) : list Z :=
  [0x93; 0xcb] ++ be_encode 8 bits ++ [0xc4; 16] ++ hash ++ data.

Lemma nil_msgpack : msgpack MAX_LEVELS [0xc0].
Proof. exists [0xc0], 0, 0, [], []. split_and!; try done. by apply HConstant; left. Qed.

Lemma request_fields i :
  bytes_ok i -> (29 <= length i)%nat -> exists b0 b1 bits b10 b11 hash data,
    i = [b0; b1] ++ be_encode 8 bits ++ [b10; b11] ++ hash ++ data /\ in_width 64 bits /\ length hash = 16%nat /\
    bytes_ok data.
Proof.
  intros Hb Hl. destruct i as [|b0 [|b1 i]]; cbn [length] in Hl; try lia.
  apply Forall_cons_1 in Hb as [_ Hb]. apply Forall_cons_1 in Hb as [_ Hb].
  destruct (split_at i 8) as (ts & i1 & -> & Hts); [lia|]. rewrite length_app in Hl. apply Forall_app in Hb as [Bts Hb].
  destruct i1 as [|b10 [|b11 i1]]; cbn [length] in Hl; try lia.
  apply Forall_cons_1 in Hb as [_ Hb]. apply Forall_cons_1 in Hb as [_ Hb].
  destruct (split_at i1 16) as (hash & data & -> & Hh); [lia|]. apply Forall_app in Hb as [_ Hb].
  exists b0, b1, (be_decode ts), b10, b11, hash, data. pose proof (be_encode_decode ts Bts) as He. rewrite Hts in He.
  pose proof (be_decode_bounds ts Bts) as Hbd. rewrite Hts in Hbd. by rewrite He.
Qed.

(** What decoding an image gives. *)
Definition request_of (bits : Z) (hash data : list Z) : rns_request_view :=
  {| requested_at := Link.bits_double bits; path_hash := hash; data_msgpack := data |}.

(** The decoder on the fields of an input. *)
Lemma request_decode_fields b0 b1 bits b10 b11 hash data i :
  i = [b0; b1] ++ be_encode 8 bits ++ [b10; b11] ++ hash ++ data -> in_width 64 bits -> length hash = 16%nat -> bytes_ok data ->
  (29 <= length i)%nat ->
  exists ok, (ok = true <-> msgpack MAX_LEVELS data) /\
  rns_request_decode (SBytes i) =
    if negb (b0 =? 0x93) || negb (b1 =? 0xcb) || negb (b10 =? 0xc4) || negb (b11 =? 16) ||
       negb (isfinite (Link.bits_double bits)) || (Link.bits_double bits <.? dzero) || negb ok
    then Some (RNS_ERROR_PROTOCOL, None) else Some (RNS_OK, Some (request_of bits hash data)).
Proof.
  intros E Hw Hh Hb Hl. destruct (one_object_decides data Hb) as (ok & Hok & Hspec). exists ok. split; [done|].
  pose proof (length_be_encode 8 bits) as H8. unfold rns_request_decode. rewrite (proj2 (Nat.ltb_ge _ _)) by done.
  rewrite (bind_Some_eq _ _ b0) by (by rewrite E). rewrite (bind_Some_eq _ _ b1) by (by rewrite E).
  rewrite (bind_Some_eq _ _ b10) by (apply (load_at _ ([b0; b1] ++ be_encode 8 bits) _ (b11 :: hash ++ data));
    [by rewrite E, <-app_assoc|by rewrite length_app, H8]).
  rewrite (bind_Some_eq _ _ b11) by (apply (load_at _ ([b0; b1] ++ be_encode 8 bits ++ [b10]) _ (hash ++ data));
    [by rewrite E, <-!app_assoc|by rewrite !length_app, H8]).
  change (Z.of_nat RNS_REQUEST_ID_LENGTH) with 16. destruct (_ || negb (b11 =? 16)); cbn [orb]; [done|].
  rewrite (bind_Some_eq _ _ (be_encode 8 bits)) by (by apply (memread_at _ [b0; b1] _ ([b10; b11] ++ hash ++ data))).
  rewrite shift_bytes_be, be_decode_encode by (apply be_encode_bytes || lia || done). cbv zeta.
  destruct (_ || _); [done|]. cbn [orb].
  rewrite (bind_Some_eq _ _ data) by (apply (memread_at _ ([b0; b1] ++ be_encode 8 bits ++ [b10; b11] ++ hash) _ []);
    [by rewrite E, app_nil_r, <-!app_assoc|by rewrite !length_app, H8, Hh|rewrite E, !length_app, H8, Hh; cbn [length]; lia]).
  rewrite (bind_Some_eq _ _ _ Hok). destruct ok; cbn [negb]; [|done].
  rewrite (bind_Some_eq _ _ hash) by (apply (memread_at _ ([b0; b1] ++ be_encode 8 bits ++ [b10; b11]) _ data);
    [by rewrite E, <-!app_assoc|by rewrite !length_app, H8|done]). done.
Qed.

(** The requests of an input. *)
Definition is_request (i : list Z) (v : rns_request_view) : Prop :=
  exists bits hash data, i = request_image bits hash data /\ in_width 64 bits /\ length hash = 16%nat /\
    isfinite (Link.bits_double bits) = true /\ (Link.bits_double bits <.? dzero) = false /\ msgpack MAX_LEVELS data /\
    v = request_of bits hash data.

Lemma request_decode_decides i :
  bytes_ok i ->
  (exists v, is_request i v /\ rns_request_decode (SBytes i) = Some (RNS_OK, Some v)) \/
  (forall v, ~ is_request i v) /\ rns_request_decode (SBytes i) = Some (RNS_ERROR_PROTOCOL, None).
Proof.
  intros Hb. destruct (Nat.lt_ge_cases (length i) 29) as [Hl|Hl].
  { right. split; [|unfold rns_request_decode; by rewrite (proj2 (Nat.ltb_lt _ _))].
    intros v (bits & hash & data & -> & _ & Hh & _ & _ & Hm & _). apply msgpack_nonempty in Hm.
    unfold request_image in Hl. rewrite !length_app, length_be_encode, Hh in Hl. cbn [length] in Hl. destruct data; [done|].
    cbn [length] in Hl. lia. }
  destruct (request_fields i Hb Hl) as (b0 & b1 & bits & b10 & b11 & hash & data & E & Hw & Hh & Hd).
  destruct (request_decode_fields b0 b1 bits b10 b11 hash data i E Hw Hh Hd Hl) as (ok & Hok & ->).
  destruct (_ || negb ok) eqn:Hc.
  - right. split; [|done]. intros v (bits' & hash' & data' & E' & Hw' & Hh' & Hf & Hp & Hm & _). rewrite E in E'.
    unfold request_image in E'. apply app_inj_1 in E' as [E0 E']; [|done]. injection E0 as -> ->.
    apply app_inj_1 in E' as [Eb E']; [|by rewrite !length_be_encode].
    apply app_inj_1 in E' as [E0 E']; [|done]. injection E0 as -> ->.
    apply app_inj_1 in E' as [-> ->]; [|congruence]. apply (f_equal be_decode) in Eb. rewrite !be_decode_encode in Eb by done. subst bits'.
    rewrite Hf, Hp in Hc. apply Hok in Hm. subst ok. done.
  - left. rewrite !orb_false_iff, !negb_false_iff, !Z.eqb_eq in Hc. destruct Hc as ((((((-> & ->) & ->) & ->) & Hf) & Hp) & Ho).
    eexists. split; [|done]. exists bits, hash, data. split_and!; try done. by apply Hok.
Qed.

(** The request decoder accepts exactly requests. On any bytes it reads
    inside the input and returns; it succeeds exactly on the image of a request
    with a finite, non-negative time and one MessagePack object as data, and then
    returns its fields; otherwise it reports a protocol error. *)
Theorem rns_request_decode_spec i :
  bytes_ok i ->
  (exists v, is_request i v /\ rns_request_decode (SBytes i) = Some (RNS_OK, Some v)) \/
  (forall v, ~ is_request i v) /\ rns_request_decode (SBytes i) = Some (RNS_ERROR_PROTOCOL, None).
Proof. apply request_decode_decides. Qed.

Section Encoding.
Context `{Crypto}.

(** The data a request carries: nothing is sent as nil. *)
Definition sent_data (data : list Z) : list Z := if data is [] then [0xc0] else data.

Definition request_args_ok (path : list Z) (t : double) (data : list Z) : Prop :=
  (1 <= length path <= RNS_REQUEST_PATH_MAX)%nat /\ Link.is_double t /\ isfinite t = true /\ (t <.? dzero) = false /\
  bytes_ok data /\ (data = [] \/ msgpack MAX_LEVELS data).

(** Writing the fixed part. *)
Lemma write_request bits hash o :
  in_width 64 bits -> length hash = 16%nat -> (28 <= length o)%nat ->
  exists o', put_request o bits hash = Some o' /\ wrote (length o) o' (request_image bits hash []).
Proof.
  intros Hw Hh Hl. unfold put_request. set (n := length o) in *. pose proof (length_be_encode 8 bits) as H8.
  destruct (wrote_store n o [] 0x93) as (o1 & H1 & W1); [by apply wrote_nil|cbn; lia|].
  destruct (wrote_store n o1 _ 0xcb W1) as (o2 & H2 & W2); [cbn; lia|].
  destruct (wrote_memcpy n o2 _ (be_encode 8 bits) W2) as (o3 & H3 & W3); [rewrite H8; cbn; lia|].
  destruct (wrote_store n o3 _ 0xc4 W3) as (o4 & H4 & W4); [rewrite length_app, H8; cbn; lia|].
  destruct (wrote_store n o4 _ 16 W4) as (o5 & H5 & W5); [rewrite !length_app, H8; cbn; lia|].
  destruct (wrote_memcpy n o5 _ hash W5) as (o6 & H6 & W6); [rewrite !length_app, H8, Hh; cbn; lia|].
  rewrite ?length_app, ?H8 in *. cbn [length app Nat.add] in *. unfold write64. rewrite Link.encode_bits_be.
  rewrite (bind_Some_eq _ _ _ H1), (bind_Some_eq _ _ _ H2), (bind_Some_eq _ _ _ H3), (bind_Some_eq _ _ _ H4), (bind_Some_eq _ _ _ H5).
  exists o6. split; [done|]. unfold request_image. rewrite app_nil_r. by rewrite <-!app_assoc in W6.
Qed.

Lemma length_request_image bits hash data : length hash = 16%nat -> length (request_image bits hash data) = (28 + length data)%nat.
Proof. intros Hh. unfold request_image. rewrite !length_app, length_be_encode, Hh. cbn [length]. lia. Qed.

Lemma request_image_app bits hash data : request_image bits hash [] ++ data = request_image bits hash data.
Proof. unfold request_image. by rewrite <-!app_assoc. Qed.

Lemma request_encode_image path t data o capacity n0 digest :
  request_args_ok path t data -> rns_sha256 path = Some digest -> (capacity <= length o)%nat ->
  (28 + length (sent_data data) <= capacity)%nat ->
  exists o', rns_request_encode (Some path) t (SBytes data) (Some o) capacity (Some n0) =
      Some (RNS_OK, Some o', Some (28 + length (sent_data data))%nat) /\
    wrote (length o) o' (request_image (Link.double_bits t) (take 16 digest) (sent_data data)).
Proof.
  intros ((Hp1 & Hp2) & Hd & Hf & Ht & Hb & Hdata) Hsha Hcap Hfit. unfold rns_request_encode. rewrite Hf, Ht.
  cbn [negb orb slice_bad slice_is_null andb slice_length slice_bytes].
  rewrite (proj2 (Nat.eqb_neq _ _)), (proj2 (Nat.ltb_ge _ _)) by lia. cbn [orb].
  assert ((if negb (length data =? 0)%nat then one_object data else Some true) = Some true) as ->.
  { destruct (one_object_decides data Hb) as (ok & -> & Hok). destruct Hdata as [->|Hm]; [done|]. apply Hok in Hm as ->. by destruct (negb _). }
  cbn [mbind option_bind negb].
  replace (1 + 9 + 2 + RNS_REQUEST_ID_LENGTH + (if negb (length data =? 0)%nat then length data else 1))%nat
    with (28 + length (sent_data data))%nat by (by destruct data).
  rewrite (proj2 (Nat.ltb_ge _ _)), Hsha by lia. change RNS_REQUEST_ID_LENGTH with 16%nat.
  pose proof (sha256_length _ _ Hsha) as Hlen. assert (length (take 16 digest) = 16)%nat as H16 by (rewrite length_take; lia).
  destruct (Link.double_bits_roundtrip t Hd (isfinite_isnan _ Hf)) as [_ Hbits].
  destruct (write_request (Link.double_bits t) (take 16 digest) o Hbits H16) as (o1 & H1 & W1); [destruct data; cbn in Hfit; lia|].
  rewrite (bind_Some_eq _ _ _ H1). pose proof (length_request_image (Link.double_bits t) (take 16 digest) [] H16) as Hi. cbn [length] in Hi.
  destruct data as [|x data]; cbn [length Nat.eqb negb sent_data] in *.
  - destruct (wrote_store _ _ _ 0xc0 W1) as (o2 & H2 & W2); [lia|]. rewrite Hi in H2. change (28 + 0)%nat with 28%nat in H2.
    rewrite (bind_Some_eq _ _ _ H2). eexists. split; [done|]. by rewrite request_image_app in W2.
  - destruct (wrote_memcpy _ _ _ (x :: data) W1) as (o2 & H2 & W2); [cbn [length]; lia|]. rewrite Hi in H2. change (28 + 0)%nat with 28%nat in H2.
    rewrite (bind_Some_eq _ _ _ H2). eexists. split; [done|]. by rewrite request_image_app in W2.
Qed.

(** Requests round trip. A request for a path, with a finite non-negative
    time and nothing or one MessagePack object as data, is written whole into any
    output that has room for it and nowhere else, and decodes to the time, the
    truncated path hash and the data. *)
Theorem request_roundtrip path t data o capacity n0 digest :
  request_args_ok path t data -> rns_sha256 path = Some digest -> (capacity <= length o)%nat ->
  (28 + length (sent_data data) <= capacity)%nat ->
  exists image o', rns_request_encode (Some path) t (SBytes data) (Some o) capacity (Some n0) =
      Some (RNS_OK, Some o', Some (length image)) /\ wrote (length o) o' image /\
    rns_request_decode (SBytes image) =
      Some (RNS_OK, Some {| requested_at := t; path_hash := take 16 digest; data_msgpack := sent_data data |}).
Proof.
  intros Hargs Hsha Hcap Hfit. destruct (request_encode_image path t data o capacity n0 digest Hargs Hsha Hcap Hfit) as (o' & He & Hw).
  destruct Hargs as (_ & Hd & Hf & Ht & Hb & Hdata). pose proof (sha256_length _ _ Hsha) as Hlen.
  assert (length (take 16 digest) = 16)%nat as H16 by (rewrite length_take; lia).
  destruct (Link.double_bits_roundtrip t Hd (isfinite_isnan _ Hf)) as [Hr Hbits].
  exists (request_image (Link.double_bits t) (take 16 digest) (sent_data data)), o'. rewrite length_request_image by done.
  split; [done|]. split; [done|].
  assert (msgpack MAX_LEVELS (sent_data data)) as Hm by (destruct Hdata as [->|Hm]; [apply nil_msgpack|destruct data; [apply nil_msgpack|done]]).
  assert (bytes_ok (sent_data data)) as Hbs by (destruct data; [by apply (bool_decide_unpack _); vm_compute|done]).
  destruct (request_decode_fields 0x93 0xcb (Link.double_bits t) 0xc4 16 (take 16 digest) (sent_data data)
    (request_image (Link.double_bits t) (take 16 digest) (sent_data data))) as (ok & Hok & ->); try done.
  { rewrite length_request_image by done. destruct data; cbn; lia. }
  apply Hok in Hm as ->. rewrite Hr, Hf, Ht. cbn. unfold request_of. by rewrite Hr.
Qed.
End Encoding.

(** ** Responses *)

Definition response_image (id msgpack : list Z) : list Z := [0x92; 0xc4; 16] ++ id ++ msgpack.

Lemma read_bytes_total l : bytes_ok l -> exists r, read_bytes l = Some r /\
  forall body rest, r = Some (body, rest) -> exists h, l = h ++ body ++ rest /\ header h (Z.of_nat (length body)) 0.
Proof.
  intros Hb. destruct l as [|code l]; [by eexists|]. unfold read_bytes. cbn [load lookup list_lookup mbind option_bind drop].
  rewrite drop_0. apply Forall_cons_1 in Hb as [Hc Hb]. destruct (fix_codes_inv code Hc) as (H1 & _).
  match goal with |- context [mbind _ ?y] => assert (exists x, y = Some x /\
    forall n rest, x = Some (n, rest) -> exists t, l = t ++ rest /\ header (code :: t) n 0) as (x & -> & Hx) end.
  { destruct (Z.eqb_spec (Z.land code 0xe0) 0xa0) as [He|_].
    { eexists. split; [done|]. intros n rest [= <- <-]. exists []. split; [done|]. destruct (H1 He) as [Hcode Hn].
      rewrite Hcode at 1. by apply HFixStr. }
    assert (forall w, In w [1; 2; 4]%nat -> In (code, w) [(0xc4, 1%nat); (0xd9, 1%nat); (0xc5, 2%nat); (0xda, 2%nat); (0xc6, 4%nat); (0xdb, 4%nat)] ->
      exists x, size_field w l = Some x /\ forall n rest, x = Some (n, rest) -> exists t, l = t ++ rest /\ header (code :: t) n 0) as Hsz.
    { intros w Hw Hin. destruct (size_field_total w l Hw Hb) as [x Hx]. exists x. split; [done|]. intros n rest ->.
      destruct (size_field_inv w l n rest Hw Hb Hx) as [-> Hn]. exists (be_encode w n). split; [done|]. by eapply HBytes. }
    do 3 (switch_case code; [apply Hsz; cbn [In]; destruct Hcode as [<-|[<-|[]]]; tauto|]). by eexists. }
  cbn [mbind option_bind]. destruct x as [[n cur]|]; [|by eexists].
  destruct (Hx n cur eq_refl) as (t & -> & Hh). destruct (header_bounds _ _ _ Hh) as (_ & Hn & _).
  destruct (Z.ltb_spec (Z.of_nat (length cur)) n); [by eexists|].
  rewrite memread_in by lia. cbn [mbind option_bind]. eexists. split; [done|]. intros body rest [= <- <-].
  exists (code :: t). rewrite drop_0, take_drop. split; [done|]. rewrite length_take. by replace (Z.of_nat _) with n by lia.
Qed.

(** The body of a byte response; every other object is its own body. *)
Definition body_of (object body : list Z) : Prop :=
  (exists h, object = h ++ body /\ header h (Z.of_nat (length body)) 0) \/ body = object.

Lemma read_bytes_bin id object :
  length id = 16%nat -> bytes_ok id -> bytes_ok object -> read_bytes (0xc4 :: 16 :: id ++ object) = Some (Some (id, object)).
Proof.
  intros Hid Bid Bo. unfold read_bytes. rewrite (bind_Some_eq _ _ 0xc4) by done. change (drop 1 (0xc4 :: 16 :: id ++ object)) with (16 :: id ++ object).
  change (Z.land 0xc4 0xe0 =? 0xa0) with false. change (is_code 0xc4 [0xc4; 0xd9]) with true. cbv iota.
  assert (size_field 1 (16 :: id ++ object) = Some (Some (16, id ++ object))) as ->.
  { apply (size_field_encode 1 16); [cbn; tauto|done|by apply Forall_app]. }
  cbn [mbind option_bind]. rewrite (proj2 (Z.ltb_ge _ _)) by (rewrite length_app; lia). change (Z.to_nat 16) with 16%nat.
  rewrite (bind_Some_eq _ _ id) by (by apply (memread_at _ [] _ object)). by rewrite drop_app_length' by done.
Qed.

Lemma response_decode_object id object :
  length id = 16%nat -> bytes_ok id -> bytes_ok object ->
  exists ok body, (ok = true <-> msgpack MAX_LEVELS object) /\ body_of object body /\
    rns_response_decode (SBytes (response_image id object)) =
      if negb ok then Some (RNS_ERROR_PROTOCOL, None)
      else Some (RNS_OK, Some {| request_id := id; response_msgpack := object; response := body |}).
Proof.
  intros Hid Bid Bo. destruct (one_object_decides object Bo) as (ok & Hok & Hspec).
  destruct (read_bytes_total object Bo) as (y & Hy & Hbody).
  exists ok, (match y with Some (body, []) => body | _ => object end). split; [done|]. split.
  { destruct y as [[body [|]]|]; [|by right..]. left. destruct (Hbody body [] eq_refl) as (h & -> & Hh). rewrite app_nil_r. eauto. }
  unfold rns_response_decode, response_image. cbn [length app Nat.ltb Nat.leb load lookup list_lookup mbind option_bind Z.eqb Pos.eqb negb drop].
  rewrite read_bytes_bin by done. cbn [mbind option_bind].
  rewrite Hid. cbn [Nat.eqb RNS_REQUEST_ID_LENGTH negb]. rewrite (bind_Some_eq _ _ _ Hok).
  destruct ok; cbn [negb]; [|done]. by rewrite (bind_Some_eq _ _ _ Hy).
Qed.

(** Responses round trip. A response to a request, one MessagePack object, is
    written whole into an output that has room for it and nowhere else; what is
    written decodes to the request identifier and the object, and the body is the
    content of a byte string or the object itself. *)
Theorem response_roundtrip id object o capacity n0 :
  length id = 16%nat -> bytes_ok id -> bytes_ok object -> msgpack MAX_LEVELS object -> (capacity <= length o)%nat ->
  (19 + length object <= capacity)%nat -> Z.of_nat (length object) <= SIZE_MAX - 19 ->
  exists o' body, rns_response_encode (Some id) (SBytes object) (Some o) capacity (Some n0) =
      Some (RNS_OK, Some o', Some (19 + length object)%nat) /\ wrote (length o) o' (response_image id object) /\
    body_of object body /\
    rns_response_decode (SBytes (response_image id object)) =
      Some (RNS_OK, Some {| request_id := id; response_msgpack := object; response := body |}).
Proof.
  intros Hid Bid Bo Hm Hcap Hfit Hmax.
  destruct (response_decode_object id object Hid Bid Bo) as (ok & body & Hok & Hbody & Hdec). apply Hok in Hm as ->. cbn [negb] in Hdec.
  destruct (one_object_decides object Bo) as (ok & Hone & Hspec).
  unfold rns_response_encode. pose proof (msgpack_nonempty MAX_LEVELS object) as Hne.
  assert (ok = true) as -> by (by apply Hspec, Hok).
  rewrite (proj2 (Nat.eqb_neq _ _)) by (destruct object; [by exfalso; apply Hne; [apply Hok|]|done]).
  rewrite (bind_Some_eq _ _ _ Hone). cbn [negb]. rewrite (proj2 (Z.ltb_ge _ _)), (proj2 (Nat.ltb_ge _ _)) by lia. cbn [orb].
  set (n := length o) in *.
  destruct (wrote_store n o [] 0x92) as (o1 & H1 & W1); [by apply wrote_nil|cbn; lia|].
  destruct (wrote_store n o1 _ 0xc4 W1) as (o2 & H2 & W2); [cbn; lia|].
  destruct (wrote_store n o2 _ 16 W2) as (o3 & H3 & W3); [cbn; lia|].
  destruct (wrote_memcpy n o3 _ id W3) as (o4 & H4 & W4); [rewrite Hid; cbn; lia|].
  destruct (wrote_memcpy n o4 _ object W4) as (o5 & H5 & W5); [rewrite length_app, Hid; cbn; lia|].
  rewrite length_app, Hid in H5. cbn [length app Nat.add] in *.
  rewrite (bind_Some_eq _ _ _ H1), (bind_Some_eq _ _ _ H2), (bind_Some_eq _ _ _ H3), (bind_Some_eq _ _ _ H4), (bind_Some_eq _ _ _ H5).
  exists o5, body. by split_and!.
Qed.

(** ** Concrete requests and responses *)

(** [[1, "hi"]] *)
Definition sample_object : list Z := [0x92; 1; 0xa2; 104; 105].

Lemma sample_object_msgpack : msgpack MAX_LEVELS sample_object.
Proof. destruct (one_object_decides sample_object) as (b & Hb & Hspec); [by apply (bool_decide_unpack _); vm_compute|]. apply Hspec. by vm_compute in Hb; injection Hb. Qed.

Lemma sample_object_bytes : bytes_ok sample_object.
Proof. by apply (bool_decide_unpack _); vm_compute. Qed.

Lemma one_object_spec_witness : exists b, one_object sample_object = Some b /\ (b = true <-> msgpack MAX_LEVELS sample_object).
Proof. apply (one_object_spec sample_object). apply sample_object_bytes. Defined.

Lemma rns_request_decode_spec_witness :
  (exists v, is_request sample_object v /\ rns_request_decode (SBytes sample_object) = Some (RNS_OK, Some v)) \/
  (forall v, ~ is_request sample_object v) /\ rns_request_decode (SBytes sample_object) = Some (RNS_ERROR_PROTOCOL, None).
Proof. apply (rns_request_decode_spec sample_object). apply sample_object_bytes. Defined.

Lemma request_roundtrip_witness :
  exists image o', rns_request_encode (Some [47; 97]) (d_of_Z 12) (SBytes sample_object) (Some (replicate 64 0)) 64 (Some 0%nat) =
      Some (RNS_OK, Some o', Some (length image)) /\
    rns_request_decode (SBytes image) = Some (RNS_OK, Some {| requested_at := d_of_Z 12;
      path_hash := take 16 (fold_to 32 [47; 97]); data_msgpack := sample_object |}).
Proof.
  destruct (request_roundtrip [47; 97] (d_of_Z 12) sample_object (replicate 64 0) 64 0 (fold_to 32 [47; 97])) as (image & o' & He & _ & Hd);
    [|done|done|cbn; lia|by exists image, o'].
  split_and!; [cbn; lia|unfold RNS_REQUEST_PATH_MAX; cbn [length]; lia|by vm_compute..|apply sample_object_bytes|right; apply sample_object_msgpack].
Defined.

Lemma response_roundtrip_witness :
  exists o' body, rns_response_encode (Some (replicate 16 3)) (SBytes sample_object) (Some (replicate 40 0)) 40 (Some 0%nat) =
      Some (RNS_OK, Some o', Some 24%nat) /\
    rns_response_decode (SBytes (response_image (replicate 16 3) sample_object)) =
      Some (RNS_OK, Some {| request_id := replicate 16 3; response_msgpack := sample_object; response := body |}).
Proof.
  destruct (response_roundtrip (replicate 16 3) sample_object (replicate 40 0) 40 0) as (o' & body & He & _ & _ & Hd);
    [done|by apply (bool_decide_unpack _); vm_compute|apply sample_object_bytes|apply sample_object_msgpack|done|cbn; lia|by vm_compute|].
  by exists o', body.
Defined.
End Request.
