(* ===== verification/PathStore.v ===== *)
(** * The path store: saving and restoring the path table

    Models [src/transport/path_store.c] and [include/reticulum/path_store.h]:
    the checksummed snapshot of the live paths and its transactional restoration.
    A cursor into the snapshot is the list of the bytes from it to the end. The
    outer [option] is memory safety (and the range of the conversions from
    [double]). *)

From Stdlib Require Import ZArith SpecFloat Lia.
From S2P Require Import Prelude Platform StorageRecord Transport.

Module PathStore.
Import Transport.

Definition PATH_STORE_HEADER_SIZE : nat := 32.
Definition PATH_STORE_RECORD_BASE_SIZE : nat := 104.
Definition PATH_STORE_RECORD_PREFIX_SIZE : nat := 2.
Definition PATH_STORE_VERSION : Z := 2.
Definition PATH_STORE_IDENTITY_SIZE : nat := 64.
Definition RNS_TRANSPORT_RANDOM_BLOB_SIZE : nat := 10.
Definition path_store_magic : list Z := [82; 78; 83; 80; 65; 84; 72; 49].

(** ** Fields *)

(** The bytes [putN] stores. *)
Definition put16 (value : Z) : list Z := [wrap8 (Z.shiftr value 8); wrap8 value].
Definition put32 (value : Z) : list Z :=
  [wrap8 (Z.shiftr value 24); wrap8 (Z.shiftr value 16); wrap8 (Z.shiftr value 8); wrap8 value].
Definition put64 (value : Z) : list Z := (λ i, wrap8 (Z.shiftr value (56 - 8 * i))) <$> seqZ 0 8.

Definition get16 (input : list Z) (off : nat) : option Z :=
  a ← load input off; b ← load input (off + 1); Some (wrap16 (Z.lor (Z.shiftl a 8) b)).
Definition get32 (input : list Z) (off : nat) : option Z :=
  a ← load input off; b ← load input (off + 1); c ← load input (off + 2); d ← load input (off + 3);
  Some (Z.lor (Z.lor (Z.lor (Z.shiftl a 24) (Z.shiftl b 16)) (Z.shiftl c 8)) d).
Definition get64 (input : list Z) (off : nat) : option Z := b ← memread input off 8; Some (shift_bytes b).

Fixpoint crc32_loop (crc : Z) (data : list Z) {struct data} : Z :=
  match data with [] => crc | b :: rest => crc32_loop (Crc.crc_bits 8 (Z.lxor crc b)) rest end.
Definition crc32_bytes (data : list Z) : Z := Crc.not32 (crc32_loop Crc.UINT32_MAX data).

Definition blob_timebase (blob : list Z) : Z := shift_bytes (drop 5 blob).

(** [Some None] is [false]. *)
Definition seconds_to_ms (seconds : double) : option (option Z) :=
  if negb (isfinite seconds) || (seconds <.? dzero) || (ddiv (d_of_Z (2 ^ 64 - 1)) (d_of_Z 1000) <.? seconds)
  then Some None
  else ms ← d_to_u64 (dmul seconds (d_of_Z 1000)); Some (Some ms).

(** ** Saving *)

Definition entry_live (now : double) (entry : rns_path_entry) : bool :=
  entry.(path_occupied) && negb (entry.(path_expires_at) <=.? now).

Definition entry_record_size (entry : rns_path_entry) : nat :=
  (PATH_STORE_RECORD_BASE_SIZE + length entry.(random_blobs) * RNS_TRANSPORT_RANDOM_BLOB_SIZE +
   (if entry.(has_identity) then PATH_STORE_IDENTITY_SIZE else 0))%nat.

(** The first loop: the size and the number of the records. *)
Fixpoint measure (now : double) (ps : list rns_path_entry) (required count : nat) : rns_status * nat * nat :=
  match ps with
  | [] => (RNS_OK, required, count)
  | entry :: rest =>
      if negb (entry_live now entry) then measure now rest required count
      else if (length entry.(random_blobs) =? 0)%nat || (RNS_TRANSPORT_MAX_RANDOM_BLOBS <? length entry.(random_blobs))%nat
      then (RNS_ERROR_INVALID_STATE, required, count)
      else
        let size := entry_record_size entry in
        if (0xffff <? Z.of_nat size) || (SIZE_MAX - Z.of_nat size - 2 <? Z.of_nat required)
        then (RNS_ERROR_OVERFLOW, required, count)
        else measure now rest (required + (PATH_STORE_RECORD_PREFIX_SIZE + size)) (S count)
  end.

(** The fields of a record, in the order they are written. *)
Definition record_fields (entry : rns_path_entry) (remaining_ms age_ms : Z) : list (list Z) :=
  [put16 (Z.of_nat (entry_record_size entry)); entry.(path_destination); entry.(path_next_hop);
   entry.(announce_packet_hash); put64 entry.(announce_timebase); put64 entry.(path_interface);
   put32 (wrap32 entry.(interface_gravity)); put64 remaining_ms; put64 age_ms;
   [entry.(path_hops)]; [if entry.(unresponsive) then 1 else 0]; [wrap8 (Z.of_nat (length entry.(random_blobs)))];
   [if entry.(has_identity) then 1 else 0]; concat entry.(random_blobs);
   if entry.(has_identity) then entry.(identity_public_key) else []].

(** The second loop. *)
Fixpoint put_records (now : double) (ps : list rns_path_entry) (output : list Z) (cursor : nat)
    : option (rns_status * list Z) :=
  match ps with
  | [] => Some (RNS_OK, output)
  | entry :: rest =>
      if negb (entry_live now entry) then put_records now rest output cursor
      else
        remaining ← seconds_to_ms (dsub entry.(path_expires_at) now);
        match remaining with
        | None => Some (RNS_ERROR_INVALID_STATE, output)
        | Some remaining_ms =>
            age ← seconds_to_ms (if entry.(path_updated_at) <.? now then dsub now entry.(path_updated_at) else dzero);
            match age with
            | None => Some (RNS_ERROR_INVALID_STATE, output)
            | Some age_ms =>
                r ← put_all output cursor (record_fields entry remaining_ms age_ms);
                put_records now rest r.1 r.2
            end
        end
  end.

Section Store.
Context {E : Type}.
Implicit Types (t : rns_transport E) (e : E).

(** The status, the output object, its length, the number of entries and the
    clock's context. *)
Definition rns_path_store_encode t (wall_time_ms : Z) (output : option (list Z)) (output_capacity : nat)
    (output_length encoded_count : option nat) e
    : option (rns_status * option (list Z) * option nat * option nat * E) :=
  match output_length, encoded_count with
  | Some _, Some _ =>
      match t.(paths), t.(config).(clock) with
      | Some ps, Some clk =>
          if (if output is None then negb (output_capacity =? 0)%nat else false)
          then Some (RNS_ERROR_INVALID_ARGUMENT, output, Some 0%nat, Some 0%nat, e)
          else
            let '(now, e) := clk e in
            if negb (isfinite now) then Some (RNS_ERROR_INVALID_STATE, output, Some 0%nat, Some 0%nat, e)
            else
              let '(status, required, count) := measure now ps PATH_STORE_HEADER_SIZE 0 in
              if negb (is_ok status) then Some (status, output, Some 0%nat, Some 0%nat, e)
              else if (0xffffffff <? Z.of_nat count) || (0xffffffff <? Z.of_nat (required - PATH_STORE_HEADER_SIZE))
              then Some (RNS_ERROR_OVERFLOW, output, Some 0%nat, Some 0%nat, e)
              else
                match output with
                | Some o =>
                    if (output_capacity <? required)%nat then Some (RNS_ERROR_OVERFLOW, output, Some required, Some count, e)
                    else
                      o ← memset o 0 0 PATH_STORE_HEADER_SIZE;
                      o ← memcpy o 0 path_store_magic;
                      o ← memcpy o 8 (put16 PATH_STORE_VERSION);
                      o ← memcpy o 10 (put16 (Z.of_nat PATH_STORE_HEADER_SIZE));
                      o ← memcpy o 12 (put32 (Z.of_nat count));
                      o ← memcpy o 16 (put32 (Z.of_nat (required - PATH_STORE_HEADER_SIZE)));
                      o ← memcpy o 20 (put64 wall_time_ms);
                      r ← put_records now ps o PATH_STORE_HEADER_SIZE;
                      let '(status, o) := r in
                      if negb (is_ok status) then Some (status, Some o, Some required, Some count, e)
                      else
                        payload ← memread o PATH_STORE_HEADER_SIZE (required - PATH_STORE_HEADER_SIZE);
                        o ← memcpy o 28 (put32 (crc32_bytes payload));
                        Some (RNS_OK, Some o, Some required, Some count, e)
                | None => Some (RNS_ERROR_OVERFLOW, output, Some required, Some count, e)
                end
      | _, _ => Some (RNS_ERROR_INVALID_ARGUMENT, output, Some 0%nat, Some 0%nat, e)
      end
  | _, _ => Some (RNS_ERROR_INVALID_ARGUMENT, output, output_length, encoded_count, e)
  end.
End Store.

(** ** Restoring *)

Definition duplicate_destination (entries : list rns_path_entry) (destination : list Z) : bool :=
  existsb (λ x, memeq x.(path_destination) destination) entries.

(** The blobs of a record. *)
Fixpoint record_blobs (record : list Z) (off n : nat) : option (list (list Z)) :=
  match n with
  | O => Some []
  | S n => b ← memread record off RNS_TRANSPORT_RANDOM_BLOB_SIZE;
           bs ← record_blobs record (off + RNS_TRANSPORT_RANDOM_BLOB_SIZE) n; Some (b :: bs)
  end.

Definition latest_timebase (blobs : list (list Z)) : Z :=
  foldl (λ latest b, if latest <? blob_timebase b then blob_timebase b else latest) 0 blobs.

(** A record that is still alive. *)
Definition restored_entry (record : list Z) (blobs : list (list Z)) (blob_count : nat) (identity : bool) (now : double)
    (offline_ms remaining_ms age_ms : Z) : option rns_path_entry :=
  destination ← memread record 0 16;
  hop ← memread record 16 16;
  hash ← memread record 32 32;
  timebase ← get64 record 64;
  interface ← get64 record 72;
  gravity ← get32 record 80;
  hops ← load record 100;
  flag ← load record 101;
  key ← (if identity
         then memread record (PATH_STORE_RECORD_BASE_SIZE + blob_count * RNS_TRANSPORT_RANDOM_BLOB_SIZE) PATH_STORE_IDENTITY_SIZE
         else Some (replicate 64 0));
  let total_age := dadd (ddiv (d_of_Z age_ms) (d_of_Z 1000)) (ddiv (d_of_Z offline_ms) (d_of_Z 1000)) in
  Some {| path_destination := destination; path_next_hop := hop; announce_packet_hash := hash; identity_public_key := key;
          random_blobs := blobs; announce_timebase := timebase; path_interface := interface;
          interface_gravity := swrap 32 gravity; path_hops := hops; has_identity := identity;
          unresponsive := negb (flag =? 0); path_updated_at := dsub now total_age;
          path_expires_at := dadd now (ddiv (d_of_Z (wrap64 (remaining_ms - offline_ms))) (d_of_Z 1000));
          path_occupied := true |}.

(** The body of the loop: the candidates, an array of [capacity] entries, and the
    cursor after the record; [Some None] is a protocol error. *)
Definition decode_record (capacity : nat) (version maximum_lifetime_ms offline_ms : Z) (now : double) (candidate : list rns_path_entry)
    (cursor : list Z) : option (option (list rns_path_entry * list Z)) :=
  if (length cursor <? 2)%nat then Some None
  else
    size ← get16 cursor 0;
    let size := Z.to_nat size in
    let record := drop 2 cursor in
    if (size <? PATH_STORE_RECORD_BASE_SIZE)%nat || (length record <? size)%nat then Some None
    else
      blob_count ← load record 102;
      b103 ← load record 103;
      b101 ← load record 101;
      destination ← memread record 0 16;
      let blob_count := Z.to_nat blob_count in
      let identity := (2 <=? version) && (b103 =? 1) in
      if (1 <? b101) || ((if 2 <=? version then 1 else 0) <? b103) || (blob_count =? 0)%nat ||
         (RNS_TRANSPORT_MAX_RANDOM_BLOBS <? blob_count)%nat ||
         negb (size =? PATH_STORE_RECORD_BASE_SIZE + blob_count * RNS_TRANSPORT_RANDOM_BLOB_SIZE +
                       (if identity then PATH_STORE_IDENTITY_SIZE else 0))%nat ||
         duplicate_destination candidate destination
      then Some None
      else
        remaining_ms ← get64 record 84;
        age_ms ← get64 record 92;
        blobs ← record_blobs record PATH_STORE_RECORD_BASE_SIZE blob_count;
        timebase ← get64 record 64;
        if (maximum_lifetime_ms <? remaining_ms) || negb (timebase =? latest_timebase blobs) then Some None
        else
          candidate ← (if offline_ms <? remaining_ms
                       then entry ← restored_entry record blobs blob_count identity now offline_ms remaining_ms age_ms;
                            if (length candidate <? capacity)%nat then Some (candidate ++ [entry]) else None
                       else Some candidate);
          Some (Some (candidate, drop size record)).

Fixpoint decode_records (capacity : nat) (version maximum_lifetime_ms offline_ms : Z) (now : double) (count : nat)
    (candidate : list rns_path_entry) (cursor : list Z) : option (option (list rns_path_entry * list Z)) :=
  match count with
  | O => Some (Some (candidate, cursor))
  | S count =>
      r ← decode_record capacity version maximum_lifetime_ms offline_ms now candidate cursor;
      match r with
      | None => Some None
      | Some (candidate, cursor) => decode_records capacity version maximum_lifetime_ms offline_ms now count candidate cursor
      end
  end.

Section Restore.
Context {E : Type}.
Implicit Types (t : rns_transport E) (e : E).

(** The status, the transport, the number of entries and the clock's context. *)
Definition rns_path_store_decode (calloc_ok : bool) t (wall_time_ms : Z) (input : slice) (decoded_count : option nat) e
    : option (rns_status * rns_transport E * option nat * E) :=
  match decoded_count with
  | None => Some (RNS_ERROR_INVALID_ARGUMENT, t, None, e)
  | Some _ =>
      match t.(paths), t.(config).(clock), input with
      | Some ps, Some clk, SBytes i =>
          let protocol := Some (RNS_ERROR_PROTOCOL, t, Some 0%nat, e) in
          if (length i <? PATH_STORE_HEADER_SIZE)%nat then protocol
          else
            magic ← memread i 0 8;
            version ← get16 i 8;
            size ← get16 i 10;
            if negb (memeq magic path_store_magic) || (negb (version =? 1) && negb (version =? PATH_STORE_VERSION)) ||
               negb (size =? Z.of_nat PATH_STORE_HEADER_SIZE)
            then protocol
            else
              declared_count ← get32 i 12;
              payload_length ← get32 i 16;
              payload ← memread i PATH_STORE_HEADER_SIZE (length i - PATH_STORE_HEADER_SIZE);
              crc ← get32 i 28;
              if (t.(config).(path_capacity) <? declared_count) ||
                 negb (payload_length =? Z.of_nat (length i - PATH_STORE_HEADER_SIZE)) ||
                 negb (crc32_bytes payload =? crc)
              then protocol
              else
                let '(now, e) := clk e in
                if negb (isfinite now) then Some (RNS_ERROR_INVALID_STATE, t, Some 0%nat, e)
                else
                  saved_wall_ms ← get64 i 20;
                  let offline_ms := if saved_wall_ms <=? wall_time_ms then wall_time_ms - saved_wall_ms else 0 in
                  if negb calloc_ok then Some (RNS_ERROR_NO_MEMORY, t, Some 0%nat, e)
                  else
                    maximum ← seconds_to_ms t.(config).(path_lifetime);
                    match maximum with
                    | None => Some (RNS_ERROR_INVALID_STATE, t, Some 0%nat, e)
                    | Some maximum_lifetime_ms =>
                        r ← decode_records (Z.to_nat t.(config).(path_capacity)) version maximum_lifetime_ms offline_ms now
                               (Z.to_nat declared_count) [] payload;
                        match r with
                        | Some (retained, []) =>
                            let table := retained ++ replicate (Z.to_nat t.(config).(path_capacity) - length retained) zero_path in
                            Some (RNS_OK, {| t with paths := Some table |}, Some (length retained), e)
                        | _ => Some (RNS_ERROR_PROTOCOL, t, Some 0%nat, e)
                        end
                    end
      | _, _, _ => Some (RNS_ERROR_INVALID_ARGUMENT, t, Some 0%nat, e)
      end
  end.
End Restore.

(** ** Reading fields *)

Lemma put16_be v : put16 v = be_encode 2 v.
Proof. unfold put16. cbn [be_encode app]. by rewrite Fields.wrap8_shiftr by lia. Qed.

Lemma put32_be v : put32 v = be_encode 4 v.
Proof. unfold put32. by rewrite Fields.be_encode_4, !Fields.wrap8_shiftr by lia. Qed.

Lemma put64_be v : put64 v = be_encode 8 v.
Proof.
  unfold put64. change (seqZ 0 8) with [0; 1; 2; 3; 4; 5; 6; 7]. cbn [fmap list_fmap be_encode app].
  rewrite !Fields.wrap8_shiftr by lia. rewrite !Z.div_div by lia. change (56 - 8 * 7) with 0. by rewrite Z.div_1_r.
Qed.

Lemma get16_at m a f c i :
  m = a ++ f ++ c -> i = length a -> length f = 2%nat -> bytes_ok f -> get16 m i = Some (be_decode f).
Proof. apply Fields.get_u16_at. Qed.

Lemma get32_at m a f c i :
  m = a ++ f ++ c -> i = length a -> length f = 4%nat -> bytes_ok f -> get32 m i = Some (be_decode f).
Proof. apply Fields.get_u32_at. Qed.

Lemma get64_at m a f c i :
  m = a ++ f ++ c -> i = length a -> length f = 8%nat -> bytes_ok f -> get64 m i = Some (be_decode f).
Proof.
  intros E Hi Hf Hb. unfold get64. rewrite (bind_Some_eq _ _ f) by (by apply (memread_at _ a _ c)).
  by rewrite shift_bytes_be by (done || lia).
Qed.

(** A field inside an object can be read. *)
Lemma split_field (m : list Z) i n :
  (i + n <= length m)%nat -> exists a f c, m = a ++ f ++ c /\ i = length a /\ length f = n.
Proof.
  intros Hl. exists (take i m), (take n (drop i m)), (drop n (drop i m)).
  rewrite take_drop, take_drop, !length_take, length_drop. split_and!; [done|lia|lia].
Qed.

Lemma get16_in m i : bytes_ok m -> (i + 2 <= length m)%nat -> exists v, get16 m i = Some v /\ in_width 16 v.
Proof.
  intros Hb Hl. destruct (split_field m i 2 Hl) as (a & f & c & E & Hi & Hf).
  assert (bytes_ok f) as Bf by (rewrite E, !Forall_app in Hb; tauto). eexists. split; [by eapply get16_at|].
  pose proof (be_decode_bounds f Bf) as H2. by rewrite Hf in H2.
Qed.

Lemma get32_in m i : bytes_ok m -> (i + 4 <= length m)%nat -> exists v, get32 m i = Some v /\ in_width 32 v.
Proof.
  intros Hb Hl. destruct (split_field m i 4 Hl) as (a & f & c & E & Hi & Hf).
  assert (bytes_ok f) as Bf by (rewrite E, !Forall_app in Hb; tauto). eexists. split; [by eapply get32_at|].
  pose proof (be_decode_bounds f Bf) as H2. by rewrite Hf in H2.
Qed.

Lemma get64_in m i : bytes_ok m -> (i + 8 <= length m)%nat -> exists v, get64 m i = Some v /\ in_width 64 v.
Proof.
  intros Hb Hl. destruct (split_field m i 8 Hl) as (a & f & c & E & Hi & Hf).
  assert (bytes_ok f) as Bf by (rewrite E, !Forall_app in Hb; tauto). eexists. split; [by eapply get64_at|].
  pose proof (be_decode_bounds f Bf) as H2. by rewrite Hf in H2.
Qed.

Lemma load_in m i : bytes_ok m -> (i < length m)%nat -> exists v, load m i = Some v /\ is_byte v.
Proof.
  intros Hb Hl. unfold load. destruct (lookup_lt_is_Some_2 m i Hl) as [v Hv]. exists v. split; [done|]. by eapply Forall_lookup_1 in Hb.
Qed.

Lemma record_blobs_in (m : list Z) off n :
  (off + n * 10 <= length m)%nat -> exists bs, record_blobs m off n = Some bs /\ length bs = n.
Proof.
  revert off. induction n as [|n IH]; intros off Hl; [by exists []|]. cbn [record_blobs].
  unfold RNS_TRANSPORT_RANDOM_BLOB_SIZE. rewrite memread_in by lia. cbn [mbind option_bind].
  destruct (IH (off + 10)%nat) as (bs & -> & Hbs); [lia|]. eexists. split; [done|]. cbn [length]. lia.
Qed.

(** ** Restoring any bytes *)

(** The entries a restoration keeps. *)
Definition candidate_ok (x : rns_path_entry) : Prop :=
  x.(path_occupied) = true /\ sized_path x /\ (1 <= length x.(random_blobs) <= RNS_TRANSPORT_MAX_RANDOM_BLOBS)%nat /\
  x.(announce_timebase) = latest_timebase x.(random_blobs).

Record candidates_ok (cs : list rns_path_entry) : Prop := {
  co_entries : Forall candidate_ok cs;
  co_distinct : NoDup (path_destination <$> cs)
}.

Lemma duplicate_false cs d : duplicate_destination cs d = false -> d ∉ (path_destination <$> cs).
Proof.
  intros Hd (x & -> & Hx)%list_elem_of_fmap. apply not_true_iff_false in Hd. apply Hd. unfold duplicate_destination.
  apply existsb_exists. exists x. split; [by apply list_elem_of_In|apply memeq_refl].
Qed.

Lemma candidates_ok_snoc cs x :
  candidates_ok cs -> candidate_ok x -> x.(path_destination) ∉ (path_destination <$> cs) -> candidates_ok (cs ++ [x]).
Proof.
  intros [Hc Hd] Hx Hn. constructor; [apply Forall_app; split; [done|by constructor]|]. rewrite fmap_app.
  apply list.NoDup_app. split_and!; [done| |apply NoDup_singleton]. by intros y Hy ->%list_elem_of_singleton.
Qed.

Lemma restored_entry_in record blobs n (identity : bool) now offline remaining age :
  bytes_ok record -> (104 + n * 10 + (if identity then 64 else 0) <= length record)%nat ->
  exists x, restored_entry record blobs n identity now offline remaining age = Some x /\
    memread record 0 16 = Some x.(path_destination) /\ x.(path_occupied) = true /\ sized_path x /\
    x.(random_blobs) = blobs /\ get64 record 64 = Some x.(announce_timebase).
Proof.
  intros Hb Hl. unfold restored_entry, PATH_STORE_RECORD_BASE_SIZE, RNS_TRANSPORT_RANDOM_BLOB_SIZE, PATH_STORE_IDENTITY_SIZE.
  rewrite (memread_in record 0 16), (memread_in record 16 16), (memread_in record 32 32) by lia. cbn [mbind option_bind].
  destruct (get64_in record 64 Hb) as (tb & Htb & _); [lia|]. rewrite Htb. cbn [mbind option_bind].
  destruct (get64_in record 72 Hb) as (ifc & -> & _); [lia|]. cbn [mbind option_bind].
  destruct (get32_in record 80 Hb) as (gr & -> & _); [lia|]. cbn [mbind option_bind].
  destruct (load_in record 100 Hb) as (hp & -> & _); [lia|]. cbn [mbind option_bind].
  destruct (load_in record 101 Hb) as (fl & -> & _); [lia|]. cbn [mbind option_bind].
  assert (exists key, (if identity then memread record (104 + n * 10) 64 else Some (replicate 64 0)) = Some key /\ length key = 64%nat)
    as (key & -> & Hk).
  { destruct identity; [|by eexists]. rewrite memread_in by lia. eexists. split; [done|]. rewrite length_take, length_drop. lia. }
  cbn [mbind option_bind]. eexists. split; [done|]. split_and!; try done. split; [done|]. cbn. rewrite length_take, length_drop. lia.
Qed.

(** What a record of the snapshot may do to the candidates. *)
Definition record_taken (cs : list rns_path_entry) (r : option (list rns_path_entry * list Z)) : Prop :=
  forall cs' rest, r = Some (cs', rest) -> bytes_ok rest /\ (length cs' <= S (length cs))%nat /\ candidates_ok cs'.

Lemma decode_record_total capacity version maxlife offline now cs cursor :
  bytes_ok cursor -> candidates_ok cs -> (length cs < capacity)%nat ->
  exists r, decode_record capacity version maxlife offline now cs cursor = Some r /\ record_taken cs r.
Proof.
  intros Hb Hcs Hcap. assert (record_taken cs None) as Hnone by done. unfold decode_record.
  destruct (Nat.ltb_spec (length cursor) 2); [by eexists|].
  destruct (get16_in cursor 0 Hb) as (sz & -> & Hsz); [lia|]. cbn [mbind option_bind].
  assert (bytes_ok (drop 2 cursor)) as Hbr by (by apply Forall_drop). set (record := drop 2 cursor) in *.
  destruct (_ || _) eqn:Hg; [by eexists|]. apply orb_false_iff in Hg as [Hg1%Nat.ltb_ge Hg2%Nat.ltb_ge].
  unfold PATH_STORE_RECORD_BASE_SIZE, RNS_TRANSPORT_RANDOM_BLOB_SIZE, PATH_STORE_IDENTITY_SIZE in *.
  destruct (load_in record 102 Hbr) as (bc & -> & _); [lia|]. cbn [mbind option_bind].
  destruct (load_in record 103 Hbr) as (b103 & -> & _); [lia|]. cbn [mbind option_bind].
  destruct (load_in record 101 Hbr) as (b101 & -> & _); [lia|]. cbn [mbind option_bind].
  rewrite (memread_in record 0 16) by lia. cbn [mbind option_bind].
  set (identity := (2 <=? version) && (b103 =? 1)). set (n := Z.to_nat bc).
  destruct (_ || _) eqn:Hg; [by eexists|].
  apply orb_false_iff in Hg as [Hg Hdup]. apply orb_false_iff in Hg as [Hg Hsize%negb_false_iff%Nat.eqb_eq].
  apply orb_false_iff in Hg as [Hg Hmax%Nat.ltb_ge]. apply orb_false_iff in Hg as [_ Hn0%Nat.eqb_neq].
  destruct (get64_in record 84 Hbr) as (rem & -> & _); [lia|]. cbn [mbind option_bind].
  destruct (get64_in record 92 Hbr) as (age & -> & _); [lia|]. cbn [mbind option_bind].
  destruct (record_blobs_in record 104 n) as (bs & Hbs & Hbl); [lia|]. rewrite Hbs. cbn [mbind option_bind].
  destruct (get64_in record 64 Hbr) as (tb & Htb & _); [lia|]. rewrite Htb. cbn [mbind option_bind].
  destruct (_ || _) eqn:Hg'; [by eexists|]. apply orb_false_iff in Hg' as [_ Hlatest%negb_false_iff%Z.eqb_eq].
  assert (bytes_ok (drop (Z.to_nat sz) record)) as Hrest by (by apply Forall_drop).
  destruct (offline <? rem).
  - destruct (restored_entry_in record bs n identity now offline rem age Hbr) as (x & -> & Hdst & Hocc & Hszd & Hxb & Htb'); [lia|].
    cbn [mbind option_bind]. rewrite (proj2 (Nat.ltb_lt _ _)) by done. cbn [mbind option_bind]. eexists. split; [done|].
    intros cs' rest [= <- <-]. split; [done|]. split; [rewrite length_app; cbn [length]; lia|].
    rewrite (memread_in record 0 16) in Hdst by lia. injection Hdst as Hdst. apply candidates_ok_snoc; [done| |].
    + split_and!; [done|done|rewrite Hxb; lia|rewrite Hxb; lia|]. rewrite Hxb. congruence.
    + rewrite <-Hdst. by apply duplicate_false.
  - cbn [mbind option_bind]. eexists. split; [done|]. intros cs' rest [= <- <-]. split_and!; [done|lia|done].
Qed.

Lemma decode_records_total capacity version maxlife offline now count cs cursor :
  bytes_ok cursor -> candidates_ok cs -> (length cs + count <= capacity)%nat ->
  exists r, decode_records capacity version maxlife offline now count cs cursor = Some r /\
    forall cs' rest, r = Some (cs', rest) -> (length cs' <= length cs + count)%nat /\ candidates_ok cs'.
Proof.
  revert cs cursor. induction count as [|count IH]; intros cs cursor Hb Hcs Hcap; cbn [decode_records].
  { eexists. split; [done|]. intros cs' rest [= <- <-]. split; [lia|done]. }
  destruct (decode_record_total capacity version maxlife offline now cs cursor Hb Hcs) as (r & -> & Hr); [lia|].
  cbn [mbind option_bind]. destruct r as [[cs1 cur1]|]; [|by eexists]. destruct (Hr cs1 cur1 eq_refl) as (Hb1 & Hl1 & Hc1).
  destruct (IH cs1 cur1 Hb1 Hc1) as (r & -> & Hr'); [lia|]. eexists. split; [done|]. intros cs' rest E.
  destruct (Hr' cs' rest E). split; [lia|done].
Qed.

(** The restored table. *)
Lemma candidates_table cs k : candidates_ok cs -> paths_ok RNS_TRANSPORT_MAX_RANDOM_BLOBS (cs ++ replicate k zero_path).
Proof.
  intros [Hc Hd]. assert (forall i x, (cs ++ replicate k zero_path) !! i = Some x -> cs !! i = Some x \/ x = zero_path) as Hlook.
  { intros i x. rewrite lookup_app_Some. intros [?|[_ [-> _]%lookup_replicate]]; auto. }
  constructor.
  - intros i j x y Hi Hj Hx Hy E. apply Hlook in Hi as [Hi| ->]; [|done]. apply Hlook in Hj as [Hj| ->]; [|done].
    eapply NoDup_lookup; [exact Hd| |]; rewrite list_lookup_fmap; [by rewrite Hi|by rewrite Hj, E].
  - intros i x Hi. apply Hlook in Hi as [Hi| ->]; [|cbn; lia]. destruct (Forall_lookup_1 _ _ _ _ Hc Hi) as (_ & _ & Hl & _). lia.
  - intros i x Hi. apply Hlook in Hi as [Hi| ->]; [|done]. by destruct (Forall_lookup_1 _ _ _ _ Hc Hi) as (_ & Hs & _ & _).
Qed.

(** What a restoration does to the transport. *)
Definition restored {E} (t t' : rns_transport E) (status : rns_status) (n : nat) : Prop :=
  match status with
  | RNS_OK => exists cs, candidates_ok cs /\ length cs = n /\
      t' = {| t with paths := Some (cs ++ replicate (Z.to_nat t.(config).(path_capacity) - n) zero_path) |}
  | _ => t' = t /\ n = 0%nat
  end.

Lemma restored_wf {E} (t t' : rns_transport E) status n :
  wf t -> restored t t' status n -> (n <= Z.to_nat t.(config).(path_capacity))%nat -> wf t'.
Proof.
  intros Hwf Hr Hn. destruct status; cbn in Hr; try (by destruct Hr as [-> _]). destruct Hr as (cs & Hcs & Hl & ->).
  destruct Hwf as [Hc (ps & Hps & Hpl & Hne & _) Hd Hrv Hk]. constructor; cbn; try done. eexists. split; [done|].
  assert (length ps <> 0%nat) by (by destruct ps). split_and!; [rewrite length_app, length_replicate; lia| |by apply candidates_table].
  intros E0. apply (f_equal length) in E0. rewrite length_app, length_replicate in E0. cbn in E0. lia.
Qed.

(** C39: restoring is transactional and safe on any bytes. Given a path lifetime
    the code can express in milliseconds, [rns_path_store_decode] returns on every
    input, reads only inside it and writes only inside the table. It either
    reports an error and leaves the transport as it was, or replaces the path table
    by occupied entries with pairwise different destinations and bounded blob
    histories; the transport stays well formed. *)
Theorem rns_path_store_decode_safe {E} calloc_ok (t : rns_transport E) wall i c0 e :
  wf t -> bytes_ok i -> is_Some (seconds_to_ms t.(config).(path_lifetime)) ->
  exists status t' n e', rns_path_store_decode calloc_ok t wall (SBytes i) (Some c0) e = Some (status, t', Some n, e') /\
    restored t t' status n /\ wf t'.
Proof.
  intros Hwf Hb [life Hlife].
  assert (exists status t' n e', rns_path_store_decode calloc_ok t wall (SBytes i) (Some c0) e = Some (status, t', Some n, e') /\
    restored t t' status n /\ (n <= Z.to_nat t.(config).(path_capacity))%nat) as (status & t' & n & e' & Heq & Hr & Hn).
  2:{ exists status, t', n, e'. split; [done|]. split; [done|]. by eapply restored_wf. }
  unfold rns_path_store_decode. destruct (wf_paths _ Hwf) as (ps & Hps & Hpl & _).
  destruct (ok_clock _ (wf_config _ Hwf)) as [clk Hclk]. rewrite Hps, Hclk.
  assert (forall status (e' : E), status <> RNS_OK -> exists s' t' n e2, Some (status, t, Some 0%nat, e') = Some (s', t', Some n, e2) /\
    restored t t' s' n /\ (n <= Z.to_nat t.(config).(path_capacity))%nat) as Herr.
  { intros status e' Hs. exists status, t, 0%nat, e'. split; [done|]. split; [by destruct status|lia]. }
  destruct (Nat.ltb_spec (length i) PATH_STORE_HEADER_SIZE) as [|Hl]; [by apply Herr|]. unfold PATH_STORE_HEADER_SIZE in *.
  rewrite (memread_in i 0 8) by lia. cbn [mbind option_bind].
  destruct (get16_in i 8 Hb) as (version & -> & _); [lia|]. cbn [mbind option_bind].
  destruct (get16_in i 10 Hb) as (size & -> & _); [lia|]. cbn [mbind option_bind]. destruct (_ || _); [by apply Herr|].
  destruct (get32_in i 12 Hb) as (declared & -> & Hdec); [lia|]. cbn [mbind option_bind].
  destruct (get32_in i 16 Hb) as (plen & -> & _); [lia|]. cbn [mbind option_bind].
  rewrite (memread_in i 32) by lia. cbn [mbind option_bind]. set (payload := take _ (drop 32 i)).
  destruct (get32_in i 28 Hb) as (crc & -> & _); [lia|]. cbn [mbind option_bind].
  destruct (_ || _) eqn:Hg; [by apply Herr|]. apply orb_false_iff in Hg as [[Hcnt%Z.ltb_ge _]%orb_false_iff _].
  destruct (clk e) as [now e1]. destruct (negb (isfinite now)); [by apply Herr|].
  destruct (get64_in i 20 Hb) as (saved & -> & _); [lia|]. cbn [mbind option_bind]. destruct calloc_ok; cbn [negb]; [|by apply Herr].
  rewrite Hlife. cbn [mbind option_bind]. destruct life as [maxlife|]; [|by apply Herr].
  destruct (decode_records_total (Z.to_nat t.(config).(path_capacity)) version maxlife
    (if saved <=? wall then wall - saved else 0) now (Z.to_nat declared) [] payload) as (r & -> & Hr).
  { by apply Forall_take, Forall_drop. }
  { constructor; [constructor|apply NoDup_nil_2]. }
  { unfold in_width in Hdec. cbn [length]. lia. }
  cbn [mbind option_bind]. destruct r as [[cs [|]]|]; [|by apply Herr..]. destruct (Hr cs [] eq_refl) as [Hlc Hcs].
  eexists _, _, _, _. split; [done|]. split; [by exists cs|]. unfold in_width in Hdec. cbn [length] in Hlc. lia.
Qed.

(** ** Round trip *)

(** An entry whose fields fit their C types. *)
Record savable (x : rns_path_entry) : Prop := {
  sv_occupied : x.(path_occupied) = true;
  sv_destination : length x.(path_destination) = 16%nat /\ bytes_ok x.(path_destination);
  sv_next_hop : length x.(path_next_hop) = 16%nat /\ bytes_ok x.(path_next_hop);
  sv_hash : length x.(announce_packet_hash) = 32%nat /\ bytes_ok x.(announce_packet_hash);
  sv_key : length x.(identity_public_key) = 64%nat /\ bytes_ok x.(identity_public_key);
  sv_count : (1 <= length x.(random_blobs) <= RNS_TRANSPORT_MAX_RANDOM_BLOBS)%nat;
  sv_blobs : Forall (λ b, length b = 10%nat /\ bytes_ok b) x.(random_blobs);
  sv_timebase : in_width 64 x.(announce_timebase);
  sv_interface : in_width 64 x.(path_interface);
  sv_gravity : - 2 ^ 31 <= x.(interface_gravity) < 2 ^ 31;
  sv_hops : is_byte x.(path_hops)
}.

(** The times of an entry in milliseconds: until its expiry, and since its update. *)
Definition stored (now : double) (x : rns_path_entry) : option (Z * Z) :=
  match seconds_to_ms (dsub x.(path_expires_at) now),
        seconds_to_ms (if x.(path_updated_at) <.? now then dsub now x.(path_updated_at) else dzero) with
  | Some (Some rem), Some (Some age) => Some (rem, age)
  | _, _ => None
  end.

(** The entry as it comes back [offline] milliseconds after it was stored. *)
Definition restore (now : double) (offline : Z) (x : rns_path_entry) (rem age : Z) : rns_path_entry :=
  {| x with identity_public_key := if x.(has_identity) then x.(identity_public_key) else replicate 64 0;
     path_updated_at := dsub now (dadd (ddiv (d_of_Z age) (d_of_Z 1000)) (ddiv (d_of_Z offline) (d_of_Z 1000)));
     path_expires_at := dadd now (ddiv (d_of_Z (rem - offline)) (d_of_Z 1000)) |}.

Definition restored_path (then_ now : double) (offline : Z) (x : rns_path_entry) : option rns_path_entry :=
  s ← stored then_ x; if offline <? s.1 then Some (restore now offline x s.1 s.2) else None.

Definition live_paths (now : double) (ps : list rns_path_entry) : list rns_path_entry := List.filter (entry_live now) ps.

Lemma seconds_to_ms_width s v : seconds_to_ms s = Some (Some v) -> in_width 64 v.
Proof.
  unfold seconds_to_ms. destruct (_ || _); [done|]. destruct (d_to_u64 _) as [ms|] eqn:E; [|done]. cbn. intros [= <-].
  revert E. unfold d_to_u64, in_width. destruct (dmul _ _) as [| | |[|] m ex]; intros E; simplify_eq; try lia.
  - destruct (_ =? 0); simplify_eq. lia.
  - destruct (Z.ltb_spec (if 0 <=? ex then Z.shiftl (Z.pos m) ex else Z.shiftr (Z.pos m) (- ex)) (2 ^ 64)); simplify_eq.
    split; [|lia]. destruct (0 <=? ex); [apply Z.shiftl_nonneg|apply Z.shiftr_nonneg]; lia.
Qed.

Lemma stored_width now x rem age : stored now x = Some (rem, age) -> in_width 64 rem /\ in_width 64 age.
Proof.
  unfold stored. destruct (seconds_to_ms (dsub _ _)) as [[r|]|] eqn:E1; try done.
  destruct (seconds_to_ms (if path_updated_at x <.? now then _ else _)) as [[a|]|] eqn:E2; try done. intros [= <- <-].
  split; by eapply seconds_to_ms_width.
Qed.

(** *** Blobs *)

Lemma length_concat_blobs (bs : list (list Z)) :
  Forall (λ b, length b = 10%nat /\ bytes_ok b) bs -> length (concat bs) = (length bs * 10)%nat /\ bytes_ok (concat bs).
Proof.
  induction 1 as [|b bs [Hb Bb] Hbs [IHl IHb]]; cbn [concat length]; [by split|].
  rewrite length_app, Hb, IHl. split; [lia|by apply Forall_app].
Qed.

Lemma record_blobs_at (m a : list Z) bs c off :
  m = a ++ concat bs ++ c -> off = length a -> Forall (λ b, length b = 10%nat /\ bytes_ok b) bs ->
  record_blobs m off (length bs) = Some bs.
Proof.
  intros E Hoff Hbs. revert a off E Hoff. induction Hbs as [|b bs [Hb _] Hbs IH]; intros a off E Hoff; cbn [record_blobs length]; [done|].
  cbn [concat] in E. rewrite <-app_assoc in E. unfold RNS_TRANSPORT_RANDOM_BLOB_SIZE.
  rewrite (bind_Some_eq _ _ b) by (by apply (memread_at _ a _ (concat bs ++ c))).
  rewrite (bind_Some_eq _ _ bs); [done|]. apply (IH (a ++ b)); [by rewrite <-app_assoc|rewrite length_app; lia].
Qed.

(** *** One record *)

(** The bytes of a record behind its size. *)
Definition record_body (x : rns_path_entry) (rem age : Z) : list Z := concat (drop 1 (record_fields x rem age)).

Lemma record_body_eq x rem age :
  record_body x rem age = x.(path_destination) ++ x.(path_next_hop) ++ x.(announce_packet_hash) ++
    be_encode 8 x.(announce_timebase) ++ be_encode 8 x.(path_interface) ++ be_encode 4 (wrap32 x.(interface_gravity)) ++
    be_encode 8 rem ++ be_encode 8 age ++ [x.(path_hops); if x.(unresponsive) then 1 else 0;
      wrap8 (Z.of_nat (length x.(random_blobs))); if x.(has_identity) then 1 else 0] ++
    concat x.(random_blobs) ++ (if x.(has_identity) then x.(identity_public_key) else []).
Proof.
  unfold record_body, record_fields. cbn [drop concat]. rewrite !put64_be, put32_be, app_nil_r. done.
Qed.

Lemma length_record_body x rem age : savable x -> length (record_body x rem age) = entry_record_size x.
Proof.
  intros Hx. rewrite record_body_eq. destruct (length_concat_blobs _ (sv_blobs x Hx)) as [Hb _].
  rewrite !length_app, !length_be_encode, Hb, (proj1 (sv_destination x Hx)), (proj1 (sv_next_hop x Hx)), (proj1 (sv_hash x Hx)).
  unfold entry_record_size, PATH_STORE_RECORD_BASE_SIZE, RNS_TRANSPORT_RANDOM_BLOB_SIZE, PATH_STORE_IDENTITY_SIZE.
  cbn [length]. destruct (has_identity x); [rewrite (proj1 (sv_key x Hx))|cbn [length]]; lia.
Qed.

Lemma record_body_bytes x rem age : savable x -> bytes_ok (record_body x rem age).
Proof.
  intros Hx. rewrite record_body_eq. destruct (length_concat_blobs _ (sv_blobs x Hx)) as [_ Hb].
  rewrite !Forall_app. split_and!; try apply be_encode_bytes; try apply Hx; try done.
  - repeat (apply Forall_cons_2); [apply Hx|by destruct (unresponsive x)|by apply wrap_in_width|by destruct (has_identity x)|constructor].
  - destruct (has_identity x); [apply Hx|constructor].
Qed.

Lemma swrap_wrap g : - 2 ^ 31 <= g < 2 ^ 31 -> swrap 32 (wrap32 g) = g.
Proof.
  intros Hg. unfold swrap, wrap. rewrite Zplus_mod_idemp_l. change (32 - 1) with 31. rewrite Z.mod_small by lia. lia.
Qed.


(** The reads of a record. *)
Record record_reads (m : list Z) (x : rns_path_entry) (rem age : Z) : Prop := {
  rd_destination : memread m 0 16 = Some x.(path_destination);
  rd_next_hop : memread m 16 16 = Some x.(path_next_hop);
  rd_hash : memread m 32 32 = Some x.(announce_packet_hash);
  rd_timebase : get64 m 64 = Some x.(announce_timebase);
  rd_interface : get64 m 72 = Some x.(path_interface);
  rd_gravity : get32 m 80 = Some (wrap32 x.(interface_gravity));
  rd_remaining : get64 m 84 = Some rem;
  rd_age : get64 m 92 = Some age;
  rd_hops : load m 100 = Some x.(path_hops);
  rd_unresponsive : load m 101 = Some (if x.(unresponsive) then 1 else 0);
  rd_count : load m 102 = Some (Z.of_nat (length x.(random_blobs)));
  rd_has_identity : load m 103 = Some (if x.(has_identity) then 1 else 0);
  rd_blobs : record_blobs m 104 (length x.(random_blobs)) = Some x.(random_blobs);
  rd_key : x.(has_identity) = true -> memread m (104 + length x.(random_blobs) * 10) 64 = Some x.(identity_public_key)
}.

(** A field behind the bytes [pre]. *)
Ltac field_after lem pre :=
  eapply (lem _ pre); [by rewrite <-?app_assoc| rewrite ?length_app; cbn [length]; lia| ..].

Lemma get64_encoded m a v c i : m = a ++ be_encode 8 v ++ c -> i = length a -> in_width 64 v -> get64 m i = Some v.
Proof.
  intros E Hi Hv. erewrite get64_at; [|exact E|exact Hi|apply length_be_encode|apply be_encode_bytes].
  f_equal. by apply be_decode_encode.
Qed.

Lemma get32_encoded m a v c i : m = a ++ be_encode 4 v ++ c -> i = length a -> in_width 32 v -> get32 m i = Some v.
Proof.
  intros E Hi Hv. erewrite get32_at; [|exact E|exact Hi|apply length_be_encode|apply be_encode_bytes].
  f_equal. by apply be_decode_encode.
Qed.

Lemma get16_encoded m a v c i : m = a ++ be_encode 2 v ++ c -> i = length a -> in_width 16 v -> get16 m i = Some v.
Proof.
  intros E Hi Hv. erewrite get16_at; [|exact E|exact Hi|apply length_be_encode|apply be_encode_bytes].
  f_equal. by apply be_decode_encode.
Qed.

Lemma record_body_reads x rem age rest :
  savable x -> in_width 64 rem -> in_width 64 age -> record_reads (record_body x rem age ++ rest) x rem age.
Proof.
  intros Hx Hrem Hage. rewrite record_body_eq. destruct (length_concat_blobs _ (sv_blobs x Hx)) as [Hbl _].
  destruct Hx as [_ [Hd _] [Hn _] [Hh _] [Hk _] Hcnt Hblobs Htb Hif Hg Hhp].
  unfold RNS_TRANSPORT_MAX_RANDOM_BLOBS in Hcnt. rewrite (wrap_small 8) by (unfold in_width; lia). rewrite <-!app_assoc. cbn [app].
  set (D := path_destination x) in *. set (N := path_next_hop x) in *. set (H := announce_packet_hash x) in *.
  set (TB := be_encode 8 (announce_timebase x)). set (IF := be_encode 8 (path_interface x)).
  set (GR := be_encode 4 (wrap32 (interface_gravity x))). set (RM := be_encode 8 rem). set (AG := be_encode 8 age).
  assert (length TB = 8 /\ length IF = 8 /\ length GR = 4 /\ length RM = 8 /\ length AG = 8)%nat as (L1 & L2 & L3 & L4 & L5)
    by (split_and!; apply length_be_encode).
  set (P := D ++ N ++ H ++ TB ++ IF ++ GR ++ RM ++ AG).
  assert (length P = 100%nat) as HP by (unfold P; rewrite !length_app; lia).
  set (F := [path_hops x; if unresponsive x then 1 else 0; Z.of_nat (length (random_blobs x)); if has_identity x then 1 else 0]).
  constructor.
  - eapply (memread_at _ []); done.
  - field_after memread_at D; done.
  - field_after memread_at (D ++ N); done.
  - field_after get64_encoded (D ++ N ++ H); done.
  - field_after get64_encoded (D ++ N ++ H ++ TB); done.
  - field_after get32_encoded (D ++ N ++ H ++ TB ++ IF); by apply wrap_in_width.
  - field_after get64_encoded (D ++ N ++ H ++ TB ++ IF ++ GR); done.
  - field_after get64_encoded (D ++ N ++ H ++ TB ++ IF ++ GR ++ RM); done.
  - eapply (load_at _ P); [unfold P; by rewrite <-!app_assoc|done].
  - eapply (load_at _ (P ++ take 1 F)); [unfold P; by rewrite <-!app_assoc|by rewrite length_app, HP].
  - eapply (load_at _ (P ++ take 2 F)); [unfold P; by rewrite <-!app_assoc|by rewrite length_app, HP].
  - eapply (load_at _ (P ++ take 3 F)); [unfold P; by rewrite <-!app_assoc|by rewrite length_app, HP].
  - eapply (record_blobs_at _ (P ++ F)); [unfold P; by rewrite <-!app_assoc|by rewrite length_app, HP|done].
  - intros Hid. rewrite Hid. eapply (memread_at _ (P ++ F ++ concat (random_blobs x))).
    + unfold P, F. rewrite Hid. by rewrite <-!app_assoc.
    + rewrite !length_app, HP, Hbl. change (length F) with 4%nat. lia.
    + done.
Qed.

(** Reading the fields of a record back. *)
Lemma restored_entry_reads m x rem age now offline :
  record_reads m x rem age -> savable x -> in_width 64 rem -> 0 <= offline < rem ->
  restored_entry m x.(random_blobs) (length x.(random_blobs)) x.(has_identity) now offline rem age = Some (restore now offline x rem age).
Proof.
  intros [] Hx Hrem Hoff. unfold restored_entry, PATH_STORE_RECORD_BASE_SIZE, RNS_TRANSPORT_RANDOM_BLOB_SIZE, PATH_STORE_IDENTITY_SIZE.
  rewrite rd_destination0, rd_next_hop0, rd_hash0, rd_timebase0, rd_interface0, rd_gravity0, rd_hops0, rd_unresponsive0.
  cbn [mbind option_bind]. rewrite (swrap_wrap _ (sv_gravity _ Hx)), (wrap_small 64) by (unfold in_width in *; lia).
  assert ((if has_identity x then memread m (104 + length (random_blobs x) * 10) 64 else Some (replicate 64 0)) =
    Some (if has_identity x then identity_public_key x else replicate 64 0)) as ->.
  { destruct (has_identity x); [by apply rd_key0|done]. }
  cbn [mbind option_bind]. unfold restore. replace (negb ((if unresponsive x then 1 else 0) =? 0)) with (unresponsive x) by (by destruct (unresponsive x)).
  rewrite <-(sv_occupied _ Hx). by destruct x.
Qed.

(** *** The records of a snapshot *)

Definition saved_record (now : double) (x : rns_path_entry) : list Z :=
  match stored now x with
  | Some (rem, age) => be_encode 2 (Z.of_nat (entry_record_size x)) ++ record_body x rem age
  | None => []
  end.

Definition saved_records (now : double) (xs : list rns_path_entry) : list Z := concat (saved_record now <$> xs).

(** What saving asks of a live path: its times can be converted. *)
Definition storable (now : double) (x : rns_path_entry) : Prop := savable x /\ is_Some (stored now x).

(** What restoring asks of a saved path: it does not outlive the path lifetime, and its
    announce is the newest of those it heard. *)
Definition restorable (now : double) (maximum : Z) (x : rns_path_entry) : bool :=
  match stored now x with Some (rem, _) => (rem <=? maximum) && (x.(announce_timebase) =? latest_timebase x.(random_blobs)) | None => false end.

Lemma entry_record_size_bound x : savable x -> (114 <= entry_record_size x <= 328)%nat.
Proof.
  intros Hx. pose proof (sv_count x Hx) as Hc. unfold RNS_TRANSPORT_MAX_RANDOM_BLOBS in Hc.
  unfold entry_record_size, PATH_STORE_RECORD_BASE_SIZE, RNS_TRANSPORT_RANDOM_BLOB_SIZE, PATH_STORE_IDENTITY_SIZE.
  destruct (has_identity x); lia.
Qed.

Lemma length_saved_record now x : storable now x -> length (saved_record now x) = (2 + entry_record_size x)%nat.
Proof.
  intros (Hx & [rem age] & Hs). unfold saved_record. rewrite Hs, length_app, length_be_encode.
  by rewrite length_record_body.
Qed.

(** The loop body on a record the code wrote. *)
Lemma decode_record_saved capacity maximum offline then_ now cs x rest :
  storable then_ x -> 0 <= offline -> x.(path_destination) ∉ (path_destination <$> cs) -> (length cs < capacity)%nat ->
  decode_record capacity 2 maximum offline now cs (saved_record then_ x ++ rest) =
    Some (if restorable then_ maximum x then Some (cs ++ option_list (restored_path then_ now offline x), rest) else None).
Proof.
  intros (Hx & [rem age] & Hs) Hoff Hdup Hcap. unfold saved_record, restored_path, restorable. rewrite Hs. cbn [mbind option_bind fst snd].
  destruct (stored_width _ _ _ _ Hs) as [Hrem Hage]. pose proof (entry_record_size_bound x Hx) as Hsz.
  pose proof (length_record_body x rem age Hx) as Hlen. rewrite <-app_assoc.
  assert (length (be_encode 2 (Z.of_nat (entry_record_size x))) = 2%nat) as L2 by apply length_be_encode.
  unfold decode_record. rewrite (proj2 (Nat.ltb_ge _ _)) by (rewrite length_app; lia).
  rewrite (get16_encoded _ [] (Z.of_nat (entry_record_size x)) (record_body x rem age ++ rest)) by (done || unfold in_width; lia).
  cbn [mbind option_bind]. rewrite Nat2Z.id, (drop_app_length' _ _ 2) by done.
  rewrite (proj2 (Nat.ltb_ge _ _)), (proj2 (Nat.ltb_ge (length _) _)) by (unfold PATH_STORE_RECORD_BASE_SIZE; rewrite ?length_app; lia).
  pose proof (record_body_reads x rem age rest Hx Hrem Hage) as Hreads.
  rewrite (rd_count _ _ _ _ Hreads), (rd_has_identity _ _ _ _ Hreads), (rd_unresponsive _ _ _ _ Hreads), (rd_destination _ _ _ _ Hreads),
    (rd_remaining _ _ _ _ Hreads), (rd_age _ _ _ _ Hreads), (rd_timebase _ _ _ _ Hreads). cbn [mbind option_bind orb]. rewrite Nat2Z.id.
  unfold PATH_STORE_RECORD_BASE_SIZE. rewrite (rd_blobs _ _ _ _ Hreads). cbn [mbind option_bind].
  assert (((2 <=? 2) && ((if has_identity x then 1 else 0) =? 1)) = has_identity x) as -> by (by destruct (has_identity x)).
  pose proof (sv_count x Hx) as Hc.
  rewrite (proj2 (Nat.eqb_neq _ 0)) by lia. rewrite (proj2 (Nat.ltb_ge RNS_TRANSPORT_MAX_RANDOM_BLOBS _)) by lia.
  rewrite (proj2 (Nat.eqb_eq _ _)) by done.
  assert (duplicate_destination cs (path_destination x) = false) as ->.
  { apply not_true_iff_false. unfold duplicate_destination. rewrite existsb_exists. intros (y & Hy & E%memeq_true).
    apply Hdup. rewrite <-E. apply list_elem_of_fmap_2, list_elem_of_In, Hy. }
  replace (1 <? (if unresponsive x then 1 else 0)) with false by (by destruct (unresponsive x)).
  replace ((if 2 <=? 2 then 1 else 0) <? (if has_identity x then 1 else 0)) with false by (by destruct (has_identity x)).
  cbn [orb negb]. rewrite Z.ltb_antisym. destruct (rem <=? maximum); cbn [negb orb andb]; [|done].
  destruct (announce_timebase x =? latest_timebase (random_blobs x)); cbn [negb]; [|done].
  rewrite (drop_app_length' _ _ (entry_record_size x)) by done.
  destruct (Z.ltb_spec offline rem) as [Hlive|]; cbn [option_list mbind option_bind]; [|by rewrite app_nil_r].
  rewrite (restored_entry_reads _ x rem age) by (done || lia). cbn [mbind option_bind].
  by rewrite (proj2 (Nat.ltb_lt _ _)) by done.
Qed.

Lemma decode_records_saved capacity maximum offline then_ now xs cs :
  Forall (storable then_) xs -> 0 <= offline -> NoDup (path_destination <$> xs) ->
  (forall x, x ∈ xs -> x.(path_destination) ∉ (path_destination <$> cs)) -> (length cs + length xs <= capacity)%nat ->
  decode_records capacity 2 maximum offline now (length xs) cs (saved_records then_ xs) =
    Some (if forallb (restorable then_ maximum) xs then Some (cs ++ omap (restored_path then_ now offline) xs, []) else None).
Proof.
  intros Hxs Hoff. revert cs. induction Hxs as [|x xs Hx Hxs IH]; intros cs Hnd Hdis Hcap; cbn [decode_records length].
  { unfold saved_records. cbn. by rewrite app_nil_r. }
  rewrite fmap_cons in Hnd. apply list.NoDup_cons in Hnd as [Hnx Hnd]. unfold saved_records. cbn [fmap list_fmap concat].
  rewrite (decode_record_saved capacity maximum) by (done || (apply Hdis; left) || (cbn [length] in Hcap; lia)). cbn [mbind option_bind forallb].
  destruct (restorable then_ maximum x); cbn [andb]; [|done].
  assert (forall y, y ∈ option_list (restored_path then_ now offline x) -> path_destination y = path_destination x) as Hy.
  { unfold restored_path. intros y. destruct (stored then_ x) as [[rem age]|]; cbn; [|by intros ?%not_elem_of_nil].
    destruct (_ <? _); cbn; [|by intros ?%not_elem_of_nil]. by intros ->%list_elem_of_singleton. }
  fold (saved_records then_ xs). rewrite IH.
  - rewrite <-app_assoc. destruct (forallb _ _); [|done]. cbn [omap list_omap]. by destruct (restored_path _ _ _ x).
  - done.
  - intros z Hz. rewrite fmap_app, not_elem_of_app. split; [by apply Hdis; right|].
    intros (y & E & Hin)%list_elem_of_fmap. apply Hnx. rewrite <-(Hy y Hin), <-E. by apply list_elem_of_fmap_2.
  - rewrite length_app. cbn [length] in Hcap. destruct (restored_path _ _ _ x); cbn; lia.
Qed.

(** *** Writing a snapshot *)

Lemma live_paths_cons now x ps :
  live_paths now (x :: ps) = if entry_live now x then x :: live_paths now ps else live_paths now ps.
Proof. done. Qed.

Lemma measure_spec now ps required count :
  Forall (storable now) (live_paths now ps) ->
  Z.of_nat (required + length (saved_records now (live_paths now ps))) <= 2 ^ 33 ->
  measure now ps required count =
    (RNS_OK, required + length (saved_records now (live_paths now ps)), count + length (live_paths now ps))%nat.
Proof.
  revert required count. induction ps as [|x ps IH]; intros required count Hxs Hsz; cbn [measure].
  { cbn. by rewrite !Nat.add_0_r. }
  rewrite live_paths_cons in *. destruct (entry_live now x); cbn [negb]; [|by apply IH]. apply Forall_cons_1 in Hxs as [Hx Hxs].
  unfold saved_records in *. cbn [fmap list_fmap concat] in *. rewrite length_app, (length_saved_record now) in * by done.
  pose proof (entry_record_size_bound x (proj1 Hx)) as Hb. pose proof (sv_count x (proj1 Hx)) as Hc.
  rewrite (proj2 (Nat.eqb_neq _ 0)), (proj2 (Nat.ltb_ge RNS_TRANSPORT_MAX_RANDOM_BLOBS _)) by lia. cbn [orb].
  change (2 ^ 33) with 8589934592 in Hsz. limits. rewrite !(proj2 (Z.ltb_ge _ _)) by lia. cbn [orb]. rewrite IH; [|done|].
  - unfold PATH_STORE_RECORD_PREFIX_SIZE. f_equal; [f_equal|]; cbn [length]; lia.
  - unfold PATH_STORE_RECORD_PREFIX_SIZE. change (2 ^ 33) with 8589934592. lia.
Qed.

Lemma record_fields_concat x rem age :
  savable x -> concat (record_fields x rem age) = be_encode 2 (Z.of_nat (entry_record_size x)) ++ record_body x rem age.
Proof. intros Hx. unfold record_body. cbn [record_fields concat drop]. by rewrite put16_be. Qed.

Lemma put_records_wrote now n ps o w :
  Forall (storable now) (live_paths now ps) -> wrote n o w ->
  (length w + length (saved_records now (live_paths now ps)) <= n)%nat ->
  exists o', put_records now ps o (length w) = Some (RNS_OK, o') /\ wrote n o' (w ++ saved_records now (live_paths now ps)).
Proof.
  revert o w. induction ps as [|x ps IH]; intros o w Hxs Hw Hl; cbn [put_records].
  { exists o. cbn. by rewrite app_nil_r. }
  rewrite live_paths_cons in *. destruct (entry_live now x); cbn [negb]; [|by apply IH]. apply Forall_cons_1 in Hxs as [Hx Hxs].
  unfold saved_records in *. cbn [fmap list_fmap concat] in *. rewrite length_app in Hl. destruct Hx as (Hx & [rem age] & Hs).
  assert (saved_record now x = concat (record_fields x rem age)) as Erec by (unfold saved_record; by rewrite Hs, record_fields_concat).
  rewrite Erec in *. clear Erec. unfold stored in Hs.
  destruct (seconds_to_ms (dsub _ _)) as [[r|]|]; [|done..]. cbn [mbind option_bind].
  destruct (seconds_to_ms (if path_updated_at x <.? now then _ else _)) as [[a|]|]; [|done..]. cbn [mbind option_bind]. injection Hs as -> ->.
  destruct (put_all_wrote n (record_fields x rem age) o w Hw) as (o1 & -> & Hw1); [lia|]. cbn [mbind option_bind fst snd].
  rewrite <-length_app. destruct (IH o1 _ Hxs Hw1) as (o' & Hp & Hw'); [rewrite length_app; lia|]. exists o'. split; [done|].
  by rewrite app_assoc.
Qed.

(** The whole snapshot. *)
Definition snapshot_head (count : nat) (wall : Z) (payload : list Z) : list Z :=
  path_store_magic ++ be_encode 2 PATH_STORE_VERSION ++ be_encode 2 32 ++ be_encode 4 (Z.of_nat count) ++
  be_encode 4 (Z.of_nat (length payload)) ++ be_encode 8 wall.
Definition snapshot (count : nat) (wall : Z) (payload : list Z) : list Z :=
  snapshot_head count wall payload ++ be_encode 4 (crc32_bytes payload) ++ payload.

Lemma length_snapshot_head count wall payload : length (snapshot_head count wall payload) = 28%nat.
Proof. unfold snapshot_head. by rewrite !length_app, !length_be_encode. Qed.

(** The header as the code writes it, the checksum still missing. *)
Lemma put_snapshot_head count wall payload (o : list Z) :
  (32 <= length o)%nat ->
  exists o1 o2 o3 o4 o5 o6 o7 gap, memset o 0 0 32 = Some o1 /\ memcpy o1 0 path_store_magic = Some o2 /\
    memcpy o2 8 (put16 PATH_STORE_VERSION) = Some o3 /\ memcpy o3 10 (put16 32) = Some o4 /\
    memcpy o4 12 (put32 (Z.of_nat count)) = Some o5 /\ memcpy o5 16 (put32 (Z.of_nat (length payload))) = Some o6 /\
    memcpy o6 20 (put64 wall) = Some o7 /\ length gap = 4%nat /\
    wrote (length o) o7 (snapshot_head count wall payload ++ gap).
Proof.
  intros Hl. rewrite !put16_be, !put32_be, !put64_be.
  destruct (wrote_memcpy (length o) o [] (replicate 32 0)) as (o1 & H1 & W1); [by apply wrote_nil|rewrite length_replicate; cbn; lia|].
  assert (wrote (length o) o1 []) as W1' by (apply wrote_nil; by destruct W1).
  destruct (wrote_memcpy _ _ _ path_store_magic W1') as (o2 & H2 & W2); [cbn; lia|].
  destruct (wrote_memcpy _ _ _ (be_encode 2 PATH_STORE_VERSION) W2) as (o3 & H3 & W3); [rewrite length_be_encode; cbn; lia|].
  destruct (wrote_memcpy _ _ _ (be_encode 2 32) W3) as (o4 & H4 & W4); [rewrite !length_app, !length_be_encode; cbn; lia|].
  destruct (wrote_memcpy _ _ _ (be_encode 4 (Z.of_nat count)) W4) as (o5 & H5 & W5); [rewrite !length_app, !length_be_encode; cbn; lia|].
  destruct (wrote_memcpy _ _ _ (be_encode 4 (Z.of_nat (length payload))) W5) as (o6 & H6 & W6); [rewrite !length_app, !length_be_encode; cbn; lia|].
  destruct (wrote_memcpy _ _ _ (be_encode 8 wall) W6) as (o7 & H7 & W7); [rewrite !length_app, !length_be_encode; cbn; lia|].
  rewrite ?length_app, ?length_be_encode in H3, H4, H5, H6, H7. cbn [length path_store_magic Nat.add] in H3, H4, H5, H6, H7.
  destruct (wrote_split _ _ _ W7) as (rest & E7 & Hlen). rewrite !length_app, !length_be_encode in Hlen. cbn [length path_store_magic] in Hlen.
  exists o1, o2, o3, o4, o5, o6, o7, (take 4 rest). split_and!; try done; [rewrite length_take; lia|].
  rewrite <-!app_assoc in E7. unfold snapshot_head. rewrite <-!app_assoc. pose proof (take_drop 4 rest) as Er.
  split_and!; [apply W7| |rewrite !length_app, !length_be_encode, length_take; cbn [length path_store_magic]; lia].
  rewrite E7 at 1. rewrite <-Er at 2. rewrite !app_assoc. apply take_app_length.
Qed.

Lemma saved_records_count now xs :
  Forall (storable now) xs -> (length xs <= length (saved_records now xs))%nat.
Proof.
  induction 1 as [|x xs Hx Hxs IH]; [done|]. unfold saved_records in *. cbn [fmap list_fmap concat length].
  rewrite length_app, (length_saved_record now) by done. lia.
Qed.

Lemma encode_snapshot {E} (t : rns_transport E) ps clk now wall o e e1 l0 c0 :
  t.(paths) = Some ps -> t.(config).(clock) = Some clk -> clk e = (now, e1) -> isfinite now = true ->
  Forall (storable now) (live_paths now ps) ->
  let payload := saved_records now (live_paths now ps) in
  Z.of_nat (length payload) <= 0xffffffff -> (32 + length payload <= length o)%nat ->
  exists tail, rns_path_store_encode t wall (Some o) (length o) (Some l0) (Some c0) e =
    Some (RNS_OK, Some (snapshot (length (live_paths now ps)) wall payload ++ tail), Some (32 + length payload)%nat,
          Some (length (live_paths now ps)), e1).
Proof.
  intros Hps Hclk Hnow Hfin Hxs payload Hpl Ho. pose proof (saved_records_count _ _ Hxs) as Hcount. fold payload in Hcount.
  unfold rns_path_store_encode. rewrite Hps, Hclk, Hnow, Hfin. cbn [negb].
  rewrite (measure_spec now) by (done || fold payload; unfold PATH_STORE_HEADER_SIZE; change (2 ^ 33) with 8589934592; lia).
  fold payload. unfold PATH_STORE_HEADER_SIZE. cbn [is_ok negb]. replace (32 + length payload - 32)%nat with (length payload) by lia. change (0 + length (live_paths now ps))%nat with (length (live_paths now ps)).
  rewrite !(proj2 (Z.ltb_ge _ _)) by lia. cbn [orb]. rewrite (proj2 (Nat.ltb_ge _ _)) by lia.
  destruct (put_snapshot_head (length (live_paths now ps)) wall payload o) as (o1 & o2 & o3 & o4 & o5 & o6 & o7 & gap & -> & W); [lia|].
  cbn [mbind option_bind]. destruct W as (-> & W). cbn [mbind option_bind]. destruct W as (-> & W). cbn [mbind option_bind].
  change (Z.of_nat 32) with 32. destruct W as (-> & W). cbn [mbind option_bind]. destruct W as (-> & W). cbn [mbind option_bind].
  destruct W as (-> & W). cbn [mbind option_bind]. destruct W as (-> & Hgap & W). cbn [mbind option_bind].
  set (head := snapshot_head _ wall payload) in *. assert (length head = 28%nat) as Hh by apply length_snapshot_head.
  destruct (put_records_wrote now _ ps o7 _ Hxs W) as (o8 & Hp & W8); [fold payload; rewrite length_app; lia|].
  fold payload in W8. rewrite length_app, Hh, Hgap in Hp. change (28 + 4)%nat with 32%nat in Hp. rewrite Hp. cbn [mbind option_bind is_ok negb].
  destruct (wrote_split _ _ _ W8) as (tail & -> & _). rewrite <-!app_assoc.
  rewrite (bind_Some_eq _ _ payload) by (apply (memread_at _ (head ++ gap) _ tail); [by rewrite <-app_assoc|rewrite length_app; lia|done]).
  rewrite put32_be. rewrite (bind_Some_eq _ _ (head ++ be_encode 4 (crc32_bytes payload) ++ payload ++ tail)).
  2:{ apply (memcpy_at _ head gap); [done|lia|by rewrite length_be_encode]. }
  exists tail. unfold snapshot. fold head. by rewrite <-!app_assoc.
Qed.

Lemma crc32_loop_width crc data : in_width 32 crc -> bytes_ok data -> in_width 32 (crc32_loop crc data).
Proof. intros Hc Hd. by apply Crc.crc32_update_width. Qed.

Lemma saved_records_bytes now xs : Forall (storable now) xs -> bytes_ok (saved_records now xs).
Proof.
  induction 1 as [|x xs (Hx & [rem age] & Hs) Hxs IH]; [constructor|]. unfold saved_records in *. cbn [fmap list_fmap concat].
  apply Forall_app. split; [|done]. unfold saved_record. rewrite Hs. apply Forall_app. split; [apply be_encode_bytes|by apply record_body_bytes].
Qed.

Lemma decode_snapshot {E} (t : rns_transport E) ps clk now then_ maximum wall wall2 xs e e1 c0 :
  t.(paths) = Some ps -> t.(config).(clock) = Some clk -> clk e = (now, e1) -> isfinite now = true ->
  seconds_to_ms t.(config).(path_lifetime) = Some (Some maximum) -> in_width 64 wall ->
  Forall (storable then_) xs -> NoDup (path_destination <$> xs) ->
  let payload := saved_records then_ xs in
  Z.of_nat (length payload) <= 0xffffffff -> Z.of_nat (length xs) <= t.(config).(path_capacity) ->
  let kept := omap (restored_path then_ now (if wall <=? wall2 then wall2 - wall else 0)) xs in
  rns_path_store_decode true t wall2 (SBytes (snapshot (length xs) wall payload)) (Some c0) e =
    Some (if forallb (restorable then_ maximum) xs
          then (RNS_OK, {| t with paths := Some (kept ++ replicate (Z.to_nat t.(config).(path_capacity) - length kept) zero_path) |},
                Some (length kept), e1)
          else (RNS_ERROR_PROTOCOL, t, Some 0%nat, e1)).
Proof.
  intros Hps Hclk Hnow Hfin Hlife Hwall Hxs Hnd payload Hpl Hcap kept. pose proof (saved_records_count _ _ Hxs) as Hcount.
  fold payload in Hcount. pose proof (saved_records_bytes _ _ Hxs) as Hbytes. fold payload in Hbytes.
  unfold rns_path_store_decode. rewrite Hps, Hclk. set (img := snapshot _ wall payload).
  set (M := path_store_magic). set (V := be_encode 2 PATH_STORE_VERSION). set (Z2 := be_encode 2 32).
  set (CN := be_encode 4 (Z.of_nat (length xs))). set (PL := be_encode 4 (Z.of_nat (length payload))). set (WL := be_encode 8 wall).
  assert (img = M ++ V ++ Z2 ++ CN ++ PL ++ WL ++ be_encode 4 (crc32_bytes payload) ++ payload) as Eimg
    by (unfold img, snapshot, snapshot_head; by rewrite <-!app_assoc).
  assert (length M = 8 /\ length V = 2 /\ length Z2 = 2 /\ length CN = 4 /\ length PL = 4 /\ length WL = 8 /\
    length (be_encode 4 (crc32_bytes payload)) = 4)%nat as (L1 & L2 & L3 & L4 & L5 & L6 & L7) by (split_and!; (done || apply length_be_encode)).
  assert (length img = 32 + length payload)%nat as Hlen by (rewrite Eimg, !length_app; lia).
  unfold PATH_STORE_HEADER_SIZE. rewrite (proj2 (Nat.ltb_ge _ _)) by lia. replace (length img - 32)%nat with (length payload) by lia.
  rewrite Eimg. clear Eimg Hlen img.
  rewrite (bind_Some_eq _ _ M) by (by eapply (memread_at _ [])).
  rewrite (bind_Some_eq _ _ PATH_STORE_VERSION) by (field_after get16_encoded M; done).
  rewrite (bind_Some_eq _ _ 32) by (field_after get16_encoded (M ++ V); done). unfold M at 1. rewrite memeq_refl.
  change (negb true || (negb (PATH_STORE_VERSION =? 1) && negb (PATH_STORE_VERSION =? PATH_STORE_VERSION)) || negb (32 =? Z.of_nat 32)) with false.
  cbv iota.
  rewrite (bind_Some_eq _ _ (Z.of_nat (length xs))) by (field_after get32_encoded (M ++ V ++ Z2); unfold in_width; lia).
  rewrite (bind_Some_eq _ _ (Z.of_nat (length payload))) by (field_after get32_encoded (M ++ V ++ Z2 ++ CN); unfold in_width; lia).
  rewrite (bind_Some_eq _ _ payload) by (eapply (memread_at _ (M ++ V ++ Z2 ++ CN ++ PL ++ WL ++ be_encode 4 (crc32_bytes payload)));
    [by rewrite <-!app_assoc, app_nil_r|rewrite !length_app; lia|done]).
  rewrite (bind_Some_eq _ _ (crc32_bytes payload)) by (field_after get32_encoded (M ++ V ++ Z2 ++ CN ++ PL ++ WL);
    apply StorageRecord.not32_width; by apply crc32_loop_width).
  rewrite (proj2 (Z.ltb_ge _ _)) by lia. rewrite !Z.eqb_refl. cbn [orb negb]. rewrite Hnow, Hfin. cbn [negb].
  rewrite (bind_Some_eq _ _ wall) by (field_after get64_encoded (M ++ V ++ Z2 ++ CN ++ PL); done).
  rewrite Hlife. cbn [mbind option_bind negb]. rewrite Nat2Z.id. change PATH_STORE_VERSION with 2.
  unfold payload. rewrite (decode_records_saved _ maximum _ then_ now xs []); [by destruct (forallb _ xs)|done| |done|by intros x _ ?%not_elem_of_nil|cbn [length]; lia].
  destruct (Z.leb_spec wall wall2); lia.
Qed.

(** The destinations of the live paths of a table are distinct. *)
Lemma live_paths_distinct history now ps : paths_ok history ps -> Forall savable (live_paths now ps) -> NoDup (path_destination <$> live_paths now ps).
Proof.
  intros Hok. pose proof (paths_distinct _ _ Hok) as Hd. clear Hok. induction ps as [|x ps IH]; intros Hs; [constructor|]. rewrite live_paths_cons in *.
  assert (forall i j y z, ps !! i = Some y -> ps !! j = Some z -> path_occupied y = true -> path_occupied z = true -> path_destination y = path_destination z -> i = j) as Hd'.
  { intros i j y z Hi Hj Hy Hz E. pose proof (Hd (S i) (S j) y z Hi Hj Hy Hz E) as [= ->]. done. }
  destruct (entry_live now x); [|by apply IH]. apply Forall_cons_1 in Hs as [Hx Hs]. cbn [fmap list_fmap]. apply list.NoDup_cons. split; [|by apply IH].
  intros (y & E & Hy)%list_elem_of_fmap. pose proof (proj1 (list.Forall_forall _ _) Hs y Hy) as Hsy. apply list_elem_of_In, filter_In in Hy as [Hy%list_elem_of_In _].
  apply list_elem_of_lookup in Hy as [j Hj]. pose proof (Hd 0%nat (S j) x y eq_refl Hj (sv_occupied _ Hx) (sv_occupied _ Hsy) E). done.
Qed.

(** C38: a saved path table comes back, or is refused as a whole. The live paths of a
    well-formed table, whose fields are in range and whose times can be converted, are in
    the snapshot that [rns_path_store_encode] writes with success into a large enough
    buffer. On a transport with room for the paths and at any later or earlier wall clock,
    [rns_path_store_decode] restores from it exactly the paths that outlive the time in
    between, in order, each with its fields and with its times moved to the new clock, and
    the rest of the table is empty - when every saved path is [restorable]: its announce is
    the newest it heard, and its remaining life is within the path lifetime. When one is
    not, nothing is restored and the transport stays as it is. *)
Theorem path_store_roundtrip {E} (t t2 : rns_transport E) ps ps2 clk clk2 now now2 maximum wall wall2 o e e1 f f1 l0 c0 d0 :
  wf t -> t.(paths) = Some ps -> t.(config).(clock) = Some clk -> clk e = (now, e1) -> isfinite now = true ->
  t2.(paths) = Some ps2 -> t2.(config).(clock) = Some clk2 -> clk2 f = (now2, f1) -> isfinite now2 = true ->
  seconds_to_ms t2.(config).(path_lifetime) = Some (Some maximum) -> in_width 64 wall ->
  let xs := live_paths now ps in
  Forall (storable now) xs -> Z.of_nat (length xs) <= t2.(config).(path_capacity) ->
  let size := (32 + length (saved_records now xs))%nat in
  Z.of_nat size <= 0xffffffff -> (size <= length o)%nat ->
  let kept := omap (restored_path now now2 (if wall <=? wall2 then wall2 - wall else 0)) xs in
  exists o', rns_path_store_encode t wall (Some o) (length o) (Some l0) (Some c0) e =
      Some (RNS_OK, Some o', Some size, Some (length xs), e1) /\
    rns_path_store_decode true t2 wall2 (SBytes (take size o')) (Some d0) f =
      Some (if forallb (restorable now maximum) xs
            then (RNS_OK, {| t2 with paths := Some (kept ++ replicate (Z.to_nat t2.(config).(path_capacity) - length kept) zero_path) |},
                  Some (length kept), f1)
            else (RNS_ERROR_PROTOCOL, t2, Some 0%nat, f1)).
Proof.
  intros Hwf Hps Hclk Hnow Hfin Hps2 Hclk2 Hnow2 Hfin2 Hlife Hwall xs Hxs Hcap size Hsize Ho kept.
  assert (NoDup (path_destination <$> xs)) as Hnd.
  { destruct (wf_paths _ Hwf) as (ps' & Hps' & _ & _ & Hok). rewrite Hps in Hps'. injection Hps' as <-. eapply live_paths_distinct; [done|]. eapply Forall_impl; [|exact Hxs]. by intros x [? _]. }
  destruct (encode_snapshot t ps clk now wall o e e1 l0 c0 Hps Hclk Hnow Hfin Hxs) as (tail & Henc); [fold xs; lia..|].
  eexists. split; [exact Henc|]. fold xs. rewrite take_app_length'.
  - by apply (decode_snapshot t2 ps2 clk2 now2 now maximum wall wall2 xs); (done || lia).
  - unfold snapshot. rewrite !length_app, length_snapshot_head, length_be_encode. unfold size. lia.
Qed.

(** ** Findings *)

(** A path learnt from an announce, marked unresponsive, and taken again from an
    announce that is older than the first. *)
Definition stale_path : rns_transport (list double) :=
  let announce t blob at_ := (rns_transport_consider_announce t sample_hash (replicate 16 8) 3 0 2 blob (replicate 32 1) (times [at_])).1.2 in
  let learnt := announce sample_transport [1; 2; 3; 4; 5; 0; 0; 0; 0; 9] 10 in
  let unresponsive := (rns_transport_mark_unresponsive learnt sample_hash (times [11])).1.2 in
  announce unresponsive [1; 2; 3; 4; 5; 0; 0; 0; 0; 3] 12.

(** The bytes a successful save writes. *)
Definition saved (t : rns_transport (list double)) (capacity : nat) (at_ : Z) : list Z :=
  match rns_path_store_encode t 5000 (Some (replicate capacity 0)) capacity (Some 0%nat) (Some 0%nat) (times [at_]) with
  | Some (RNS_OK, Some output, _, _, _) => output | _ => [] end.

(** Operations that lead to a snapshot the code refuses to read: an unresponsive path
    is taken again from an announce older than the newest it has heard
    ([consider_announce] stores its timebase beside the newer blobs). The snapshot is
    written with success, and its restoration ends in a protocol error. *)
Example path_store_own_snapshot_rejected :
  rns_path_store_encode stale_path 5000 (Some (replicate 158 0)) 158 (Some 0%nat) (Some 0%nat) (times [20]) =
    Some (RNS_OK, Some (saved stale_path 158 20), Some 158%nat, Some 1%nat, []) /\
  rns_path_store_decode true sample_transport 5000 (SBytes (saved stale_path 158 20)) (Some 0%nat) (times [21]) =
    Some (RNS_ERROR_PROTOCOL, sample_transport, Some 0%nat, []).
Proof. split; vm_compute; reflexivity. Qed.

(** The guard of [seconds_to_ms] admits the quotient [UINT64_MAX / 1000.0]
    itself, which is rounded up: the product is [2^64], and its conversion to
    [uint64_t] is undefined. *)
Theorem seconds_to_ms_boundary_undefined :
  exists seconds, isfinite seconds = true /\ (seconds <.? dzero) = false /\
    (ddiv (d_of_Z (2 ^ 64 - 1)) (d_of_Z 1000) <.? seconds) = false /\ seconds_to_ms seconds = None.
Proof. exists (ddiv (d_of_Z (2 ^ 64 - 1)) (d_of_Z 1000)). split_and!; vm_compute; reflexivity. Qed.

(** ** Witnesses *)

(** The snapshot of a table with one path. *)
Definition sample_snapshot : list Z := saved sample_announced 148 20.

Lemma rns_path_store_decode_safe_witness :
  exists t' n e', rns_path_store_decode true sample_transport 9000 (SBytes sample_snapshot) (Some 0%nat) (times [21]) =
    Some (RNS_OK, t', Some n, e') /\ wf t' /\ length sample_snapshot = 148%nat.
Proof.
  destruct (rns_path_store_decode_safe true sample_transport 9000 sample_snapshot 0 (times [21]) sample_transport_wf)
    as (status & t' & n & e' & E & _ & Hwf); [by apply (bool_decide_unpack _); vm_compute|vm_compute; by eexists|].
  assert (status = RNS_OK) as -> by (revert E; vm_compute; congruence). exists t', n, e'. split; [exact E|]. split; [exact Hwf|]. vm_compute. reflexivity.
Defined.

Lemma sample_live : live_paths (d_of_Z 20) (default [] sample_announced.(paths)) = [sample_path].
Proof. vm_compute. reflexivity. Qed.

Lemma sample_storable : storable (d_of_Z 20) sample_path.
Proof.
  split.
  - constructor; first [vm_compute; reflexivity|by apply (bool_decide_unpack _); vm_compute|split; vm_compute; congruence].
  - eexists. vm_compute. reflexivity.
Qed.

Lemma path_store_roundtrip_witness :
  exists o' size count,
    rns_path_store_encode sample_announced 5000 (Some (replicate 200 0)) (length (replicate 200 0)) (Some 0%nat) (Some 0%nat) (times [20]) =
      Some (RNS_OK, Some o', Some size, Some count, []) /\
    exists t', rns_path_store_decode true sample_transport 9000 (SBytes (take size o')) (Some 0%nat) (times [21]) =
      Some (RNS_OK, t', Some 1%nat, []).
Proof.
  destruct (path_store_roundtrip sample_announced sample_transport (default [] sample_announced.(paths))
    (default [] sample_transport.(paths)) sample_clock sample_clock (d_of_Z 20) (d_of_Z 21) 100000 5000 9000 (replicate 200 0)
    (times [20]) [] (times [21]) [] 0 0 0) as (o' & Henc & Hdec).
  2-10: vm_compute; reflexivity.
  - apply sample_announced_wf.
  - split; vm_compute; congruence.
  - rewrite sample_live. constructor; [apply sample_storable|constructor].
  - vm_compute. congruence.
  - vm_compute. congruence.
  - apply Nat.leb_le. vm_compute. reflexivity.
  - eexists o', _, _. split; [exact Henc|]. eexists. etransitivity; [exact Hdec|]. vm_compute. reflexivity.
Defined.
End PathStore.
