(* ===== verification/Resource.v ===== *)
(** * Resources: segmented transfers over a link

    Models [src/link/resource.c] and [include/reticulum/resource.h]: the
    MessagePack advertisement, the receiver that collects hash-identified parts
    under a request window and pages of part hashes, its retries, the assembly with
    decryption, decompression and verification, and the sender with its segments,
    its part hashes, its answers to requests and its check of the final proof.

    A reader is the list of the bytes left; a failed read is [None]. Its two accesses
    to memory are also given at its pointers ([mp_byte_at], [mp_take_at]), with the
    proofs that they stay inside the input. The outer [option] of the operations is memory safety. [malloc_ok n] says whether an
    allocation of [n] bytes succeeds. The null tests of buffers are modelled; those
    of the structures and of scalar results are not. *)

From Stdlib Require Import ZArith SpecFloat Lia.
From S2P Require Import Prelude Platform Crypto Link.

(** ** The compression library *)

(** [BZ2_bzBuffToBuffDecompress]: its result code and the bytes it wrote. *)
Inductive bz_result : Type :=
| BZ_OK (written : list Z)
| BZ_OUTBUFF_FULL (written : list Z)
| BZ_ERROR (written : list Z).

Definition bz_written (r : bz_result) : list Z := match r with BZ_OK w | BZ_OUTBUFF_FULL w | BZ_ERROR w => w end.

(** The calls of [bzlib.h] the code makes, with their documented behaviour:
    output stays within the given capacity, and a compressed buffer decompresses
    to its source where that fits. *)
Class Bzip2 : Type := {
  (** whether the library is compiled in *)
  RETICULUM_HAVE_BZIP2 : bool;
  (** source, capacity; [None] for any code but [BZ_OK] *)
  BZ2_bzBuffToBuffCompress : list Z -> nat -> option (list Z);
  BZ2_bzBuffToBuffDecompress : list Z -> nat -> bz_result;
  bz_compress_fits s n c : BZ2_bzBuffToBuffCompress s n = Some c -> (length c <= n)%nat;
  bz_decompress_fits s n : (length (bz_written (BZ2_bzBuffToBuffDecompress s n)) <= n)%nat;
  bz_roundtrip s n c m :
    BZ2_bzBuffToBuffCompress s n = Some c -> (length s <= m)%nat -> BZ2_bzBuffToBuffDecompress c m = BZ_OK s
}.

Module Resource.

Definition RNS_RESOURCE_HASH_SIZE : nat := 32.
Definition RNS_RESOURCE_MAPHASH_LEN : nat := 4.
Definition RNS_RESOURCE_RANDOM_HASH_SIZE : nat := 4.
Definition RNS_RESOURCE_REQUEST_ID_SIZE : nat := 16.
Definition RNS_RESOURCE_PROOF_SIZE : nat := 64.
Definition RNS_RESOURCE_WINDOW : nat := 4.
Definition RNS_RESOURCE_WINDOW_MAX : nat := 75.
Definition RNS_RESOURCE_MAX_RETRIES : nat := 16.
Definition RNS_RESOURCE_RETRY_GRACE_SECONDS : double := ddiv (d_of_Z 1) (d_of_Z 4).
Definition RNS_RESOURCE_RETRY_BACKOFF_SECONDS : double := ddiv (d_of_Z 1) (d_of_Z 2).
Definition RNS_RESOURCE_RETRY_MAX_SECONDS : double := d_of_Z 3600.
Definition RNS_RESOURCE_HASHMAP_MAX_ENTRIES : Z := 74.
Definition RNS_RESOURCE_MAX_PARTS : Z := 18000.
Definition RNS_RESOURCE_PART_MAX : Z := 464.
Definition RNS_RESOURCE_DEFAULT_MAX_SIZE : Z := 8 * 1024 * 1024.
Definition RNS_RESOURCE_MAX_SIZE : Z := RNS_RESOURCE_DEFAULT_MAX_SIZE.
Definition RNS_RESOURCE_SINGLE_SEGMENT_MAX_SIZE : Z := 1048575.
Definition RNS_RESOURCE_FLAG_ENCRYPTED : Z := 1.
Definition RNS_RESOURCE_FLAG_COMPRESSED : Z := 2.
Definition RNS_RESOURCE_FLAG_SPLIT : Z := 4.
Definition RNS_RESOURCE_FLAG_REQUEST : Z := 8.
Definition RNS_RESOURCE_FLAG_RESPONSE : Z := 16.
Definition RNS_RESOURCE_FLAG_METADATA : Z := 32.

(** [hashmap] and [hashmap_length] are a slice. *)
Record rns_resource_advertisement : Type := {
  adv_transfer_size : Z;
  adv_data_size : Z;
  adv_parts : Z;
  adv_hash : list Z;
  adv_random_hash : list Z;
  adv_original_hash : list Z;
  adv_segment_index : Z;
  adv_total_segments : Z;
  adv_has_request_id : bool;
  adv_request_id : list Z;
  adv_flags : Z;
  adv_hashmap : slice;
  adv_encrypted : bool;
  adv_compressed : bool;
  adv_split : bool;
  adv_is_request : bool;
  adv_is_response : bool;
  adv_has_metadata : bool
}.

(** Assignments to one field of an advertisement. *)
Section AdvertisementSetters.
Implicit Types a : rns_resource_advertisement.
Definition set_transfer_size v a := {| a with adv_transfer_size := v |}.
Definition set_data_size v a := {| a with adv_data_size := v |}.
Definition set_parts v a := {| a with adv_parts := v |}.
Definition set_hash v a := {| a with adv_hash := v |}.
Definition set_random_hash v a := {| a with adv_random_hash := v |}.
Definition set_original_hash v a := {| a with adv_original_hash := v |}.
Definition set_segment_index v a := {| a with adv_segment_index := v |}.
Definition set_total_segments v a := {| a with adv_total_segments := v |}.
Definition set_request_id v a := {| a with adv_request_id := v; adv_has_request_id := true |}.
Definition set_flags v a := {| a with adv_flags := v |}.
Definition set_hashmap v a := {| a with adv_hashmap := v |}.
End AdvertisementSetters.

(** [memset(&parsed, 0, sizeof parsed)] *)
Definition zero_advertisement : rns_resource_advertisement :=
  {| adv_transfer_size := 0; adv_data_size := 0; adv_parts := 0; adv_hash := replicate 32 0;
     adv_random_hash := replicate 4 0; adv_original_hash := replicate 32 0; adv_segment_index := 0;
     adv_total_segments := 0; adv_has_request_id := false; adv_request_id := replicate 16 0; adv_flags := 0;
     adv_hashmap := SNull 0; adv_encrypted := false; adv_compressed := false; adv_split := false;
     adv_is_request := false; adv_is_response := false; adv_has_metadata := false |}.

Record rns_resource : Type := {
  advertisement : rns_resource_advertisement;
  map_hashes : list Z;
  known_hashes : nat;
  parts : list (option (list Z));
  part_lengths : list nat;
  requested : list bool;
  received : nat;
  retries_used : nat;
  waiting : bool;
  assembled : bool;
  proof : list Z;
  max_size : Z
}.

(** ** Readers *)

Definition add_size (a b : Z) : option Z := if SIZE_MAX - b <? a then None else Some (a + b).
Definition mul_size (a b : Z) : option Z := if negb (a =? 0) && (SIZE_MAX / a <? b) then None else Some (wrap64 (a * b)).

Definition mp_byte (reader : list Z) : option (Z * list Z) :=
  match reader with [] => None | b :: rest => Some (b, rest) end.

Definition mp_take (reader : list Z) (n : Z) : option (list Z * list Z) :=
  if Z.of_nat (length reader) <? n then None else Some (take (Z.to_nat n) reader, drop (Z.to_nat n) reader).

(** The two accesses of a reader at the memory behind it, with [p] and [end_] its
    pointers as offsets of [m]: the outer option is a read outside [m], the inner one
    the result [false]. All other readers go through these two. *)
Definition mp_byte_at (m : list Z) (p end_ : nat) : option (option (Z * nat)) :=
  if (p =? end_)%nat then Some None else v ← load m p; Some (Some (v, S p)).

Definition mp_take_at (m : list Z) (p end_ : nat) (n : Z) : option (option (list Z * nat)) :=
  if Z.of_nat (end_ - p) <? n then Some None
  else data ← memread m p (Z.to_nat n); Some (Some (data, (p + Z.to_nat n)%nat)).

(** The bytes left of a reader are those between its pointers, and its accesses stay
    inside the memory as long as [p] does not pass [end_], which they preserve. *)
Lemma mp_byte_defined m p : (p <= length m)%nat ->
  exists r, mp_byte_at m p (length m) = Some r /\ mp_byte (drop p m) = (λ x, (x.1, drop x.2 m)) <$> r /\
    forall x, r = Some x -> (x.2 <= length m)%nat.
Proof.
  intros Hp. unfold mp_byte_at. destruct (Nat.eqb_spec p (length m)) as [->|Hn]; [exists None; by rewrite drop_all|].
  destruct (lookup_lt_is_Some_2 m p) as [v Hv]; [lia|]. exists (Some (v, S p)). unfold load. rewrite Hv.
  rewrite (drop_S _ _ _ Hv). split_and!; [done|done|]. intros x [= <-]. cbn. lia.
Qed.

Lemma mp_take_defined m p n : (p <= length m)%nat -> 0 <= n ->
  exists r, mp_take_at m p (length m) n = Some r /\ mp_take (drop p m) n = (λ x, (x.1, drop x.2 m)) <$> r /\
    forall x, r = Some x -> (x.2 <= length m)%nat.
Proof.
  intros Hp Hn. unfold mp_take_at, mp_take. rewrite length_drop. destruct (Z.ltb_spec (Z.of_nat (length m - p)) n); [by exists None|].
  rewrite memread_in by lia. eexists. split; [done|]. cbn. rewrite drop_drop. split; [done|]. intros x [= <-]. cbn. lia.
Qed.

(** The width the tag of an integer announces. *)
Definition uint_width (tag : Z) : option Z :=
  if tag =? 0xcc then Some 1 else if tag =? 0xcd then Some 2 else if tag =? 0xce then Some 4
  else if tag =? 0xcf then Some 8 else None.

Definition mp_uint (reader : list Z) : option (Z * list Z) :=
  r ← mp_byte reader;
  let '(tag, reader) := r in
  if tag <=? 0x7f then Some (tag, reader)
  else
    width ← uint_width tag;
    r ← mp_take reader width;
    Some (shift_bytes r.1, r.2).

Definition bin_width (tag : Z) : option Z :=
  if tag =? 0xc4 then Some 1 else if tag =? 0xc5 then Some 2 else if tag =? 0xc6 then Some 4 else None.

Definition mp_bin (reader : list Z) : option (list Z * list Z) :=
  r ← mp_byte reader;
  let '(tag, reader) := r in
  width ← bin_width tag;
  r ← mp_take reader width;
  let n := shift_bytes r.1 in
  if SIZE_MAX <? n then None else mp_take r.2 n.

Definition mp_key (reader : list Z) : option (Z * list Z) :=
  r ← mp_byte reader;
  if r.1 =? 0xa1 then mp_byte r.2 else None.

Definition uint_to_size (value : Z) : option Z := if SIZE_MAX <? value then None else Some value.

(** ** The advertisement *)

Definition has_flag (flags flag : Z) : bool := negb (Z.land flags flag =? 0).

Definition validate_advertisement (a : rns_resource_advertisement) : rns_status :=
  if (a.(adv_parts) =? 0) || (RNS_RESOURCE_MAX_PARTS <? a.(adv_parts)) || (a.(adv_transfer_size) =? 0) ||
     (RNS_RESOURCE_MAX_SIZE <? a.(adv_data_size)) || (a.(adv_segment_index) =? 0) ||
     (a.(adv_total_segments) <? a.(adv_segment_index)) || slice_is_null a.(adv_hashmap) ||
     negb (Z.of_nat (slice_length a.(adv_hashmap)) mod 4 =? 0) ||
     negb (Z.of_nat (slice_length a.(adv_hashmap)) =?
           (if a.(adv_parts) <? RNS_RESOURCE_HASHMAP_MAX_ENTRIES then a.(adv_parts) else RNS_RESOURCE_HASHMAP_MAX_ENTRIES) * 4)
  then RNS_ERROR_PROTOCOL
  else
    match mul_size a.(adv_parts) RNS_RESOURCE_PART_MAX with
    | None => RNS_ERROR_PROTOCOL
    | Some maximum_wire =>
        if (maximum_wire <? a.(adv_transfer_size)) || (a.(adv_transfer_size) <? a.(adv_parts)) then RNS_ERROR_PROTOCOL
        else if has_flag a.(adv_flags) RNS_RESOURCE_FLAG_ENCRYPTED &&
                ((a.(adv_transfer_size) <? 64) || negb (a.(adv_transfer_size) mod 16 =? 0)) then RNS_ERROR_PROTOCOL
        else if negb (has_flag a.(adv_flags) RNS_RESOURCE_FLAG_ENCRYPTED) && (a.(adv_transfer_size) <? 4)
        then RNS_ERROR_PROTOCOL
        else if xorb (has_flag a.(adv_flags) RNS_RESOURCE_FLAG_SPLIT) (1 <? a.(adv_total_segments)) then RNS_ERROR_PROTOCOL
        else if (a.(adv_segment_index) =? 1) && negb (memeq a.(adv_hash) a.(adv_original_hash)) then RNS_ERROR_PROTOCOL
        else RNS_OK
    end.

(** The bit of a key: ['t'], ['d'], ['n'], ['h'], ['r'], ['o'], ['i'], ['l'],
    ['q'], ['f'], ['m']. *)
Definition key_bit (key : Z) : option Z :=
  if key =? 116 then Some 1 else if key =? 100 then Some 2 else if key =? 110 then Some 4
  else if key =? 104 then Some 8 else if key =? 114 then Some 16 else if key =? 111 then Some 32
  else if key =? 105 then Some 64 else if key =? 108 then Some 128 else if key =? 113 then Some 256
  else if key =? 102 then Some 512 else if key =? 109 then Some 1024 else None.

Definition set_uint_field (key value : Z) (a : rns_resource_advertisement) : option rns_resource_advertisement :=
  if key =? 116 then Some (set_transfer_size value a)
  else if key =? 100 then Some (set_data_size value a)
  else if key =? 110 then Some (set_parts value a)
  else if key =? 105 then Some (set_segment_index value a)
  else if key =? 108 then Some (set_total_segments value a)
  else if 0xff <? value then None
  else Some (set_flags value a).

Definition set_bin_field (key : Z) (value : list Z) (a : rns_resource_advertisement) : option rns_resource_advertisement :=
  if key =? 104 then if negb (length value =? 32)%nat then None else Some (set_hash value a)
  else if key =? 114 then if negb (length value =? 4)%nat then None else Some (set_random_hash value a)
  else if key =? 111 then if negb (length value =? 32)%nat then None else Some (set_original_hash value a)
  else Some (set_hashmap (SBytes value) a).

Definition is_uint_key (key : Z) : bool :=
  (key =? 116) || (key =? 100) || (key =? 110) || (key =? 105) || (key =? 108) || (key =? 102).

(** The value behind a key. *)
Definition parse_value (key : Z) (a : rns_resource_advertisement) (reader : list Z)
    : option (rns_resource_advertisement * list Z) :=
  if is_uint_key key then
    r ← mp_uint reader;
    value ← uint_to_size r.1;
    a ← set_uint_field key value a;
    Some (a, r.2)
  else if key =? 113 then
    match reader with
    | [] => None
    | b :: rest =>
        if b =? 0xc0 then Some (a, rest)
        else
          r ← mp_bin reader;
          if negb (length r.1 =? 16)%nat then None
          else Some (set_request_id r.1 a, r.2)
    end
  else
    r ← mp_bin reader;
    a ← set_bin_field key r.1 a;
    Some (a, r.2).

Fixpoint parse_fields (n : nat) (seen : Z) (a : rns_resource_advertisement) (reader : list Z)
    : option (Z * rns_resource_advertisement * list Z) :=
  match n with
  | O => Some (seen, a, reader)
  | S n =>
      r ← mp_key reader;
      bit ← key_bit r.1;
      if negb (Z.land seen bit =? 0) then None
      else
        v ← parse_value r.1 a r.2;
        parse_fields n (Z.lor seen bit) v.1 v.2
  end.

(** The flags spelled out. *)
Definition set_flag_fields (a : rns_resource_advertisement) : rns_resource_advertisement :=
  {| a with adv_encrypted := has_flag a.(adv_flags) RNS_RESOURCE_FLAG_ENCRYPTED;
            adv_compressed := has_flag a.(adv_flags) RNS_RESOURCE_FLAG_COMPRESSED;
            adv_split := has_flag a.(adv_flags) RNS_RESOURCE_FLAG_SPLIT;
            adv_is_request := has_flag a.(adv_flags) RNS_RESOURCE_FLAG_REQUEST;
            adv_is_response := has_flag a.(adv_flags) RNS_RESOURCE_FLAG_RESPONSE;
            adv_has_metadata := has_flag a.(adv_flags) RNS_RESOURCE_FLAG_METADATA |}.

Definition rns_resource_advertisement_parse (data : slice) : rns_status + rns_resource_advertisement :=
  match data with
  | SNull _ => inl RNS_ERROR_INVALID_ARGUMENT
  | SBytes [] => inl RNS_ERROR_INVALID_ARGUMENT
  | SBytes (map_tag :: reader) =>
      if negb (map_tag =? 0x8b) then inl RNS_ERROR_PROTOCOL
      else
        match parse_fields 11 0 zero_advertisement reader with
        | Some (seen, a, []) =>
            if negb (seen =? 0x7ff) then inl RNS_ERROR_PROTOCOL
            else
              let a := set_flag_fields a in
              if negb (is_ok (validate_advertisement a)) then inl RNS_ERROR_PROTOCOL else inr a
        | _ => inl RNS_ERROR_PROTOCOL
        end
  end.

(** ** The receiver *)

(** The object [rns_resource_accept] builds. The hash map of its advertisement points to
    the front of [map_hashes] and keeps its advertised length; later hash map updates
    write behind it. *)
Definition accepted_resource (a : rns_resource_advertisement) (maps : list Z) (maximum : Z) : rns_resource :=
  {| advertisement := {| (set_flag_fields a) with adv_hashmap := SBytes (take (slice_length a.(adv_hashmap)) maps) |};
     map_hashes := maps; known_hashes := slice_length a.(adv_hashmap) / 4;
     parts := replicate (Z.to_nat a.(adv_parts)) None; part_lengths := replicate (Z.to_nat a.(adv_parts)) 0%nat;
     requested := replicate (Z.to_nat a.(adv_parts)) false; received := 0; retries_used := 0;
     waiting := false; assembled := false; proof := replicate 64 0; max_size := maximum |}.

(** [object_ok] and [arrays_ok] say whether the allocation of the object and
    those of its four arrays succeed. *)
Definition rns_resource_accept (object_ok arrays_ok : bool) (a : rns_resource_advertisement) (maximum : Z)
    : option (rns_status + rns_resource) :=
  if slice_is_null a.(adv_hashmap) then Some (inl RNS_ERROR_INVALID_ARGUMENT)
  else if RNS_RESOURCE_MAX_PARTS <? a.(adv_parts) then Some (inl RNS_ERROR_UNSUPPORTED)
  else if negb (is_ok (validate_advertisement a)) then Some (inl RNS_ERROR_PROTOCOL)
  else
    let maximum := if maximum =? 0 then RNS_RESOURCE_DEFAULT_MAX_SIZE else maximum in
    let maximum := if RNS_RESOURCE_MAX_SIZE <? maximum then RNS_RESOURCE_MAX_SIZE else maximum in
    if maximum <? a.(adv_data_size) then Some (inl RNS_ERROR_OVERFLOW)
    else if negb object_ok then Some (inl RNS_ERROR_NO_MEMORY)
    else
      match mul_size a.(adv_parts) 4 with
      | None => Some (inl RNS_ERROR_OVERFLOW)
      | Some map_bytes =>
          if negb arrays_ok then Some (inl RNS_ERROR_NO_MEMORY)
          else
            maps ← memcpy (replicate (Z.to_nat map_bytes) 0) 0 (slice_bytes a.(adv_hashmap));
            Some (inr (accepted_resource a maps maximum))
      end.

Definition rns_resource_total_parts (r : option rns_resource) : Z :=
  match r with Some r => r.(advertisement).(adv_parts) | None => 0 end.
Definition rns_resource_received_parts (r : option rns_resource) : nat :=
  match r with Some r => r.(received) | None => 0 end.
Definition rns_resource_retries_used (r : option rns_resource) : nat :=
  match r with Some r => r.(retries_used) | None => 0 end.
Definition rns_resource_parts_complete (r : option rns_resource) : bool :=
  match r with Some r => Z.of_nat r.(received) =? r.(advertisement).(adv_parts) | None => false end.
Definition rns_resource_waiting_for_hashmap (r : option rns_resource) : bool :=
  match r with Some r => r.(waiting) | None => false end.

(** The indexes from [i] on of the parts that are missing and whose request flag
    is [flag]. *)
Fixpoint missing_parts (flag : bool) (i : nat) (ps : list (option (list Z))) (qs : list bool) : list nat :=
  match ps, qs with
  | p :: ps, q :: qs =>
      (if p is None then if Bool.eqb q flag then [i] else [] else []) ++ missing_parts flag (S i) ps qs
  | _, _ => []
  end.

(** A loop over [i < known_hashes] reads [parts[i]] and [requested[i]]. *)
Definition missing_known (flag : bool) (r : rns_resource) : option (list nat) :=
  if decide (r.(known_hashes) <= length r.(parts) /\ r.(known_hashes) <= length r.(requested))%nat
  then Some (missing_parts flag 0 (take r.(known_hashes) r.(parts)) (take r.(known_hashes) r.(requested)))
  else None.

Definition rns_resource_outstanding_parts (r : option rns_resource) : option nat :=
  match r with None => Some 0%nat | Some r => length <$> missing_known true r end.

(** The first of the [n] four-byte hashes from index [i] on that is [wanted]. *)
Fixpoint find_map_hash (maps wanted : list Z) (n i : nat) : option (option nat) :=
  match n with
  | O => Some None
  | S n =>
      h ← memread maps (i * 4) 4;
      if memeq h wanted then Some (Some i) else find_map_hash maps wanted n (S i)
  end.

(** [requested[i] = flag] for each index of a list. *)
Fixpoint set_requested (flag : bool) (is_ : list nat) (qs : list bool) : option (list bool) :=
  match is_ with
  | [] => Some qs
  | i :: is_ => if decide (i < length qs)%nat then set_requested flag is_ (<[i := flag]> qs) else None
  end.

(** The status, the resource, the output object, and the length written. *)
Definition request_result : Type := rns_status * rns_resource * option (list Z) * option nat.

Definition rns_resource_build_request (r : rns_resource) (out : option (list Z)) (capacity : nat) : option request_result :=
  match out with
  | None => Some (RNS_ERROR_INVALID_ARGUMENT, r, out, None)
  | Some o =>
      if rns_resource_parts_complete (Some r) then Some (RNS_ERROR_INVALID_STATE, r, out, None)
      else
        outstanding ← rns_resource_outstanding_parts (Some r);
        let available := (if outstanding <? RNS_RESOURCE_WINDOW then RNS_RESOURCE_WINDOW - outstanding else 0)%nat in
        missing ← missing_known false r;
        let missing := take available missing in
        if negb (length missing =? 0)%nat then
          let needed := (1 + 32 + length missing * 4)%nat in
          if (capacity <? needed)%nat then Some (RNS_ERROR_OVERFLOW, r, out, None)
          else
            hashes ← mapM (λ i, memread r.(map_hashes) (i * 4) 4) missing;
            w ← put_all o 0 ([0x00] :: r.(advertisement).(adv_hash) :: hashes);
            qs ← set_requested true missing r.(requested);
            Some (RNS_OK, {| r with requested := qs; waiting := false |}, Some w.1, Some needed)
        else if negb (outstanding =? 0)%nat then Some (RNS_ERROR_INVALID_STATE, r, out, None)
        else if r.(advertisement).(adv_parts) <=? Z.of_nat r.(known_hashes) then Some (RNS_ERROR_INVALID_STATE, r, out, None)
        else
          let repeat := (if r.(known_hashes) <? RNS_RESOURCE_WINDOW then r.(known_hashes) else RNS_RESOURCE_WINDOW)%nat in
          let needed := (1 + 4 + 32 + repeat * 4)%nat in
          if (capacity <? needed)%nat then Some (RNS_ERROR_OVERFLOW, r, out, None)
          else
            last ← (if decide (r.(known_hashes) = 0%nat) then None else memread r.(map_hashes) ((r.(known_hashes) - 1) * 4) 4);
            again ← memread r.(map_hashes) ((r.(known_hashes) - repeat) * 4) (repeat * 4);
            w ← put_all o 0 [[0xff]; last; r.(advertisement).(adv_hash); again];
            Some (RNS_OK, {| r with waiting := true |}, Some w.1, Some needed)
  end.

Definition rns_resource_build_retry_request (r : rns_resource) (out : option (list Z)) (capacity : nat) : option request_result :=
  match out with
  | None => Some (RNS_ERROR_INVALID_ARGUMENT, r, out, None)
  | Some _ =>
      if (RNS_RESOURCE_MAX_RETRIES <=? r.(retries_used))%nat then Some (RNS_ERROR_TIMEOUT, r, out, None)
      else
        outstanding ← rns_resource_outstanding_parts (Some r);
        if (RNS_RESOURCE_WINDOW <? outstanding)%nat then Some (RNS_ERROR_PROTOCOL, r, out, None)
        else
          again ← missing_known true r;
          let previous := take RNS_RESOURCE_WINDOW again in
          qs ← set_requested false again r.(requested);
          x ← rns_resource_build_request {| r with requested := qs |} out capacity;
          let '(status, r, out, len) := x in
          if negb (is_ok status) then
            qs ← set_requested true previous r.(requested);
            Some (status, {| r with requested := qs |}, out, len)
          else Some (RNS_OK, {| r with retries_used := S r.(retries_used) |}, out, len)
  end.

Definition rns_resource_retry_timeout (rtt_seconds part_airtime_seconds : double) (outstanding_parts retries : nat) : double :=
  let rtt := if negb (isfinite rtt_seconds) || (rtt_seconds <.? dzero) then dzero else rtt_seconds in
  let airtime := if negb (isfinite part_airtime_seconds) || (part_airtime_seconds <.? dzero) then dzero else part_airtime_seconds in
  let outstanding := if (RNS_RESOURCE_WINDOW <? outstanding_parts)%nat then RNS_RESOURCE_WINDOW else outstanding_parts in
  let retries := if (RNS_RESOURCE_MAX_RETRIES <? retries)%nat then RNS_RESOURCE_MAX_RETRIES else retries in
  let round_trip := dmul (d_of_Z 2) rtt in
  let airtime := dmul (dmul (d_of_Z 2) airtime) (d_of_Z (Z.of_nat outstanding)) in
  let transport := if airtime <.? round_trip then round_trip else airtime in
  let result := dadd (dadd transport RNS_RESOURCE_RETRY_GRACE_SECONDS)
                     (dmul (d_of_Z (Z.of_nat retries)) RNS_RESOURCE_RETRY_BACKOFF_SECONDS) in
  if negb (isfinite result) || (RNS_RESOURCE_RETRY_MAX_SECONDS <.? result) then RNS_RESOURCE_RETRY_MAX_SECONDS else result.

(** The page and the hashes of an update for the resource [hash]. *)
Definition parse_hashmap_update (update : slice) (hash : list Z) : option (rns_status + Z * list Z) :=
  match update with
  | SNull _ => Some (inl RNS_ERROR_PROTOCOL)
  | SBytes u =>
      if (length u <? 35)%nat then Some (inl RNS_ERROR_PROTOCOL)
      else
        h ← memread u 0 32;
        if negb (memeq h hash) then Some (inl RNS_ERROR_PROTOCOL)
        else
          Some (match mp_byte (drop 32 u) with
                | Some (tag, reader) =>
                    if negb (tag =? 0x92) then inl RNS_ERROR_PROTOCOL
                    else
                      match mp_uint reader with
                      | Some (page, reader) =>
                          if SIZE_MAX <? page then inl RNS_ERROR_PROTOCOL
                          else
                            match mp_bin reader with
                            | Some (map, []) => inr (page, map)
                            | _ => inl RNS_ERROR_PROTOCOL
                            end
                      | None => inl RNS_ERROR_PROTOCOL
                      end
                | None => inl RNS_ERROR_PROTOCOL
                end)
  end.

Definition rns_resource_apply_hashmap_update (r : rns_resource) (update : slice) : option (rns_status * rns_resource) :=
  u ← parse_hashmap_update update r.(advertisement).(adv_hash);
  match u with
  | inl status => Some (status, r)
  | inr (page, map) =>
      match mul_size page RNS_RESOURCE_HASHMAP_MAX_ENTRIES with
      | None => Some (RNS_ERROR_PROTOCOL, r)
      | Some page_start =>
          if r.(advertisement).(adv_parts) <=? page_start then Some (RNS_ERROR_PROTOCOL, r)
          else
            let entries := r.(advertisement).(adv_parts) - page_start in
            let entries := if RNS_RESOURCE_HASHMAP_MAX_ENTRIES <? entries then RNS_RESOURCE_HASHMAP_MAX_ENTRIES else entries in
            if (length map =? 0)%nat || negb (Z.of_nat (length map) =? entries * 4) then Some (RNS_ERROR_PROTOCOL, r)
            else if page_start <? Z.of_nat r.(known_hashes) then
              if page_start + entries <=? Z.of_nat r.(known_hashes) then
                known ← memread r.(map_hashes) (Z.to_nat page_start * 4) (length map);
                Some (if memeq known map then RNS_OK else RNS_ERROR_PROTOCOL, r)
              else Some (RNS_ERROR_PROTOCOL, r)
            else if negb r.(waiting) || negb (page_start =? Z.of_nat r.(known_hashes)) then Some (RNS_ERROR_PROTOCOL, r)
            else
              maps ← memcpy r.(map_hashes) (Z.to_nat page_start * 4) map;
              Some (RNS_OK, {| r with map_hashes := maps; known_hashes := (r.(known_hashes) + Z.to_nat entries)%nat;
                                      waiting := false; retries_used := 0%nat |})
      end
  end.

Section Hashing.
Context `{Crypto}.
Variable malloc_ok : nat -> bool.

Definition hash_part (part random_hash : list Z) : rns_status + list Z :=
  match add_size (Z.of_nat (length part)) 4 with
  | None => inl RNS_ERROR_OVERFLOW
  | Some n =>
      if negb (malloc_ok (Z.to_nat n)) then inl RNS_ERROR_NO_MEMORY
      else match rns_sha256 (part ++ random_hash) with Some digest => inr digest | None => inl RNS_ERROR_CRYPTO end
  end.

(** The part is stored at its index. *)
Definition store_part (r : rns_resource) (i : nat) (part : list Z) : rns_resource :=
  {| r with parts := <[i := Some part]> r.(parts); part_lengths := <[i := length part]> r.(part_lengths);
     requested := <[i := false]> r.(requested); received := S r.(received); retries_used := 0%nat |}.

Definition rns_resource_receive_part (r : rns_resource) (part : slice) : option (rns_status * rns_resource) :=
  match part with
  | SNull _ | SBytes [] => Some (RNS_ERROR_INVALID_ARGUMENT, r)
  | SBytes part =>
      if RNS_RESOURCE_PART_MAX <? Z.of_nat (length part) then Some (RNS_ERROR_PROTOCOL, r)
      else
        match hash_part part r.(advertisement).(adv_random_hash) with
        | inl status => Some (status, r)
        | inr digest =>
            i ← find_map_hash r.(map_hashes) (take 4 digest) r.(known_hashes) 0;
            match i with
            | None => Some (RNS_ERROR_PROTOCOL, r)
            | Some i =>
                p ← r.(parts) !! i;
                match p with
                | Some stored =>
                    len ← r.(part_lengths) !! i;
                    Some (if (len =? length part)%nat && memeq stored part then RNS_OK else RNS_ERROR_PROTOCOL, r)
                | None =>
                    if negb (malloc_ok (length part)) then Some (RNS_ERROR_NO_MEMORY, r)
                    else if decide (i < length r.(part_lengths) /\ i < length r.(requested))%nat
                    then Some (RNS_OK, store_part r i part)
                    else None
                end
            end
        end
  end.
End Hashing.

(** ** Assembly *)

Section Assembly.
Context `{Crypto} `{Bzip2} {E : Type}.
Variable malloc_ok : nat -> bool.

(** [#ifdef RETICULUM_HAVE_BZIP2] *)
Definition rns_resource_decompression_available : bool := RETICULUM_HAVE_BZIP2.

(** The loop that adds the lengths of the parts. *)
Fixpoint sum_lengths (lens : list nat) (wire_length : Z) : option Z :=
  match lens with
  | [] => Some wire_length
  | n :: lens => match add_size wire_length (Z.of_nat n) with None => None | Some w => sum_lengths lens w end
  end.

(** The parts joined: the second loop copies [part_lengths[i]] bytes from
    [parts[i]]. *)
Fixpoint join_parts (ps : list (option (list Z))) (lens : list nat) : option (list Z) :=
  match ps, lens with
  | [], [] => Some []
  | Some p :: ps, n :: lens => b ← memread p 0 n; rest ← join_parts ps lens; Some (b ++ rest)
  | _, _ => None
  end.

(** The decrypted stream. *)
Definition decrypt_wire (r : rns_resource) (link : option (Link.rns_link E)) (wire : list Z) : rns_status + list Z :=
  if r.(advertisement).(adv_encrypted) then
    match link with
    | None => inl RNS_ERROR_INVALID_STATE
    | Some link =>
        if negb (malloc_ok (length wire)) then inl RNS_ERROR_NO_MEMORY
        else match Link.rns_link_decrypt link wire (length wire) with Some p => inr p | None => inl RNS_ERROR_CRYPTO end
    end
  else inr wire.

Definition UINT_MAX : Z := 0xffffffff.

Definition min_size (a b : Z) : Z := if b <? a then b else a.

(** The data written to the output: its status, the output, and its length. *)
Definition unpack (r : rns_resource) (processed o : list Z) (capacity : nat) : option (rns_status * list Z * nat) :=
  let a := r.(advertisement) in
  let n := length processed in
  if a.(adv_compressed) then
    if RETICULUM_HAVE_BZIP2 then
      let limit := min_size (min_size (Z.of_nat capacity) r.(max_size)) a.(adv_data_size) in
      if UINT_MAX <? limit then Some (RNS_ERROR_OVERFLOW, o, n)
      else if UINT_MAX <? Z.of_nat n then Some (RNS_ERROR_PROTOCOL, o, n)
      else
        let bz := BZ2_bzBuffToBuffDecompress processed (Z.to_nat limit) in
        o ← memcpy o 0 (bz_written bz);
        match bz with
        | BZ_OK data => Some (RNS_OK, o, length data)
        | BZ_OUTBUFF_FULL _ => Some (RNS_ERROR_OVERFLOW, o, n)
        | BZ_ERROR _ => Some (RNS_ERROR_PROTOCOL, o, n)
        end
    else Some (RNS_ERROR_UNSUPPORTED, o, n)
  else if (capacity <? n)%nat || (r.(max_size) <? Z.of_nat n) || (a.(adv_data_size) <? Z.of_nat n)
  then Some (RNS_ERROR_OVERFLOW, o, n)
  else o ← memcpy o 0 processed; Some (RNS_OK, o, n).

(** The check of the data against the advertised hash. *)
Definition verify_data (r : rns_resource) (data : list Z) : rns_status :=
  match add_size (Z.of_nat (length data)) 4 with
  | None => RNS_ERROR_OVERFLOW
  | Some n =>
      if negb (malloc_ok (Z.to_nat n)) then RNS_ERROR_NO_MEMORY
      else
        match rns_sha256 (data ++ r.(advertisement).(adv_random_hash)) with
        | None => RNS_ERROR_CRYPTO
        | Some digest => if memeq digest r.(advertisement).(adv_hash) then RNS_OK else RNS_ERROR_PROTOCOL
        end
  end.

(** The proof of reception. *)
Definition prove_data (r : rns_resource) (data : list Z) : rns_status * rns_resource :=
  match add_size (Z.of_nat (length data)) 32 with
  | None => (RNS_ERROR_NO_MEMORY, r)
  | Some n =>
      if negb (malloc_ok (Z.to_nat n)) then (RNS_ERROR_NO_MEMORY, r)
      else
        let hash := r.(advertisement).(adv_hash) in
        match rns_sha256 (data ++ hash) with
        | None => (RNS_ERROR_CRYPTO, {| r with proof := hash ++ drop 32 r.(proof) |})
        | Some digest => (RNS_OK, {| r with proof := hash ++ digest; assembled := true |})
        end
  end.

(** The status, the resource, the output, and the length of the result. *)
Definition rns_resource_assemble (r : rns_resource) (link : option (Link.rns_link E)) (out : option (list Z)) (capacity : nat)
    : option (rns_status * rns_resource * option (list Z) * option nat) :=
  let fail status := Some (status, r, out, None) in
  match out with
  | None => fail RNS_ERROR_INVALID_ARGUMENT
  | Some o =>
      if negb (rns_resource_parts_complete (Some r)) then fail RNS_ERROR_INVALID_STATE
      else
        let n := Z.to_nat r.(advertisement).(adv_parts) in
        if decide (length r.(parts) < n \/ length r.(part_lengths) < n)%nat then None
        else
        match sum_lengths (take n r.(part_lengths)) 0 with
        | None => fail RNS_ERROR_OVERFLOW
        | Some wire_length =>
            if negb (wire_length =? r.(advertisement).(adv_transfer_size)) then fail RNS_ERROR_PROTOCOL
            else if negb (malloc_ok (Z.to_nat wire_length)) then fail RNS_ERROR_NO_MEMORY
            else
              wire ← join_parts (take n r.(parts)) (take n r.(part_lengths));
              match decrypt_wire r link wire with
              | inl status => fail status
              | inr plain =>
                  if (length plain <? 4)%nat ||
                     (negb r.(advertisement).(adv_encrypted) && negb (memeq (take 4 plain) r.(advertisement).(adv_random_hash)))
                  then fail RNS_ERROR_PROTOCOL
                  else
                    x ← unpack r (drop 4 plain) o capacity;
                    let '(result, o, len) := x in
                    let result := if is_ok result && ((r.(max_size) <? Z.of_nat len) ||
                                                      (r.(advertisement).(adv_data_size) <? Z.of_nat len))
                                  then RNS_ERROR_OVERFLOW else result in
                    if negb (is_ok result) then Some (result, r, Some o, None)
                    else
                      data ← memread o 0 len;
                      let result := verify_data r data in
                      if negb (is_ok result) then Some (result, r, Some o, None)
                      else
                        let '(result, r) := prove_data r data in
                        Some (result, r, Some o, if is_ok result then Some len else None)
              end
        end
  end.

Definition rns_resource_build_proof (r : rns_resource) (out : option (list Z)) : option (rns_status * option (list Z)) :=
  match out with
  | None => Some (RNS_ERROR_INVALID_ARGUMENT, out)
  | Some o =>
      if negb r.(assembled) then Some (RNS_ERROR_INVALID_STATE, out)
      else o ← memcpy o 0 r.(proof); Some (RNS_OK, Some o)
  end.
End Assembly.

(** ** The sender *)

Record rns_resource_sender : Type := {
  source : list Z;
  segment_index : Z;
  total_segments : Z;
  total_data_parts : Z;
  auto_compress : bool;
  is_response : bool;
  has_request_id : bool;
  request_id : list Z;
  flags : Z;
  random_hash : list Z;
  hash : list Z;
  original_hash : list Z;
  wire : list Z;
  sender_parts : Z;
  sender_map_hashes : list Z
}.

(** [source_length] and [wire_length] are the lengths of their arrays. *)
Definition source_length (s : rns_resource_sender) : Z := Z.of_nat (length s.(source)).
Definition wire_length (s : rns_resource_sender) : Z := Z.of_nat (length s.(wire)).

Definition segment_offset (index : Z) : Z := wrap64 (wrap64 (index - 1) * RNS_RESOURCE_SINGLE_SEGMENT_MAX_SIZE).

Definition segment_source_length (s : rns_resource_sender) (index : Z) : Z :=
  let remaining := wrap64 (source_length s - segment_offset index) in
  if remaining <? RNS_RESOURCE_SINGLE_SEGMENT_MAX_SIZE then remaining else RNS_RESOURCE_SINGLE_SEGMENT_MAX_SIZE.

Record rns_resource_sender_options : Type := {
  opt_auto_compress : bool;
  opt_is_response : bool;
  opt_request_id : option (list Z)
}.

Section Sender.
Context `{Crypto} `{Bzip2} {E : Type}.
Variable malloc_ok : nat -> bool.

(** [None] in the result: the data is sent as it is. *)
Definition compressed_copy (data : list Z) : rns_status + option (list Z) :=
  if RETICULUM_HAVE_BZIP2 then
    let n := Z.of_nat (length data) in
    if (UINT_MAX <? n) || (SIZE_MAX - n / 100 - 601 <? n) then inl RNS_ERROR_OVERFLOW
    else
      let bound := n + n / 100 + 601 in
      if UINT_MAX <? bound then inl RNS_ERROR_OVERFLOW
      else if negb (malloc_ok (Z.to_nat bound)) then inl RNS_ERROR_NO_MEMORY
      else
        match BZ2_bzBuffToBuffCompress data (Z.to_nat bound) with
        | None => inl RNS_ERROR_PROTOCOL
        | Some c => inr (if (length c <? length data)%nat then Some c else None)
        end
  else inr None.

(** The part of the stream at [index]. *)
Definition part_at (w : list Z) (index : nat) : list Z :=
  take (Z.to_nat RNS_RESOURCE_PART_MAX) (drop (index * Z.to_nat RNS_RESOURCE_PART_MAX) w).

(** The loop that hashes the parts: the hashes so far and the index; [true] is a
    collision with an earlier hash. *)
Fixpoint hash_parts (w random : list Z) (n i : nat) (maps : list Z) : option (rns_status + bool * list Z) :=
  match n with
  | O => Some (inr (false, maps))
  | S n =>
      match hash_part malloc_ok (part_at w i) random with
      | inl status => Some (inl status)
      | inr digest =>
          clash ← find_map_hash maps (take 4 digest) i 0;
          match clash with
          | Some _ => Some (inr (true, maps))
          | None => hash_parts w random n (S i) (maps ++ take 4 digest)
          end
      end
  end.

(** The flag byte of a segment. *)
Definition segment_flags (s : rns_resource_sender) (compressed : bool) : Z :=
  let f := RNS_RESOURCE_FLAG_ENCRYPTED in
  let f := if compressed then Z.lor f RNS_RESOURCE_FLAG_COMPRESSED else f in
  let f := if 1 <? s.(total_segments) then Z.lor f RNS_RESOURCE_FLAG_SPLIT else f in
  if s.(is_response) then Z.lor f RNS_RESOURCE_FLAG_RESPONSE else f.

(** The number of parts of a stream of [n] bytes. *)
Definition parts_of (n : Z) : Z := (n + RNS_RESOURCE_PART_MAX - 1) / RNS_RESOURCE_PART_MAX.

(** The current segment's bytes. *)
Definition segment (s : rns_resource_sender) : option (list Z) :=
  memread s.(source) (Z.to_nat (segment_offset s.(segment_index))) (Z.to_nat (segment_source_length s s.(segment_index))).

(** The encrypted stream of a segment and its parts; [seeds] are the random
    choices of the salt and of the encryption. On an error the sender is
    discarded by both callers. *)
Definition seal_segment (s : rns_resource_sender) (link : Link.rns_link E) (data seed : list Z) (compressed : option (list Z))
    : option (rns_status + bool * rns_resource_sender) :=
  let processed := match compressed with Some c => c | None => data end in
  match add_size (Z.of_nat (length processed)) 4 with
  | None => Some (inl RNS_ERROR_OVERFLOW)
  | Some n =>
      if negb (malloc_ok (Z.to_nat n)) then Some (inl RNS_ERROR_NO_MEMORY)
      else if SIZE_MAX - 64 <? n then Some (inl RNS_ERROR_OVERFLOW)
      else
        let capacity := Z.to_nat (16 + (n / 16 + 1) * 16 + 32) in
        if negb (malloc_ok capacity) then Some (inl RNS_ERROR_NO_MEMORY)
        else
          match Link.rns_link_encrypt link seed (s.(random_hash) ++ processed) capacity with
          | None => Some (inl RNS_ERROR_CRYPTO)
          | Some w =>
              let count := parts_of (Z.of_nat (length w)) in
              if (count =? 0) || (RNS_RESOURCE_MAX_PARTS <? count) then Some (inl RNS_ERROR_OVERFLOW)
              else if negb (malloc_ok (Z.to_nat (count * 4))) then Some (inl RNS_ERROR_NO_MEMORY)
              else
                r ← hash_parts w s.(random_hash) (Z.to_nat count) 0 [];
                match r with
                | inl status => Some (inl status)
                | inr (collision, maps) =>
                    Some (inr (collision, {| s with flags := segment_flags s (if compressed is Some _ then true else false);
                                                    wire := w; sender_parts := count; sender_map_hashes := maps |}))
                end
          end
  end.

Definition sender_prepare_segment_attempt (s : rns_resource_sender) (link : Link.rns_link E) (seeds : list Z * list Z)
    : option (rns_status + bool * rns_resource_sender) :=
  data ← segment s;
  match rns_random_bytes seeds.1 4 with
  | None => Some (inl RNS_ERROR_CRYPTO)
  | Some random =>
      match add_size (Z.of_nat (length data)) 4 with
      | None => Some (inl RNS_ERROR_OVERFLOW)
      | Some n =>
          if negb (malloc_ok (Z.to_nat n)) then Some (inl RNS_ERROR_NO_MEMORY)
          else
            match rns_sha256 (data ++ random) with
            | None => Some (inl RNS_ERROR_CRYPTO)
            | Some digest =>
                let s := {| s with random_hash := random; hash := digest;
                                   original_hash := if s.(segment_index) =? 1 then digest else s.(original_hash) |} in
                match (if s.(auto_compress) then compressed_copy data else inr None) with
                | inl status => Some (inl status)
                | inr compressed => seal_segment s link data seeds.2 compressed
                end
            end
      end
  end.

(** At most [n] attempts. *)
Fixpoint prepare_attempts (n : nat) (s : rns_resource_sender) (link : Link.rns_link E) (seeds : nat -> list Z * list Z)
    : option (rns_status + rns_resource_sender) :=
  match n with
  | O => Some (inl RNS_ERROR_CRYPTO)
  | S n =>
      r ← sender_prepare_segment_attempt s link (seeds n);
      match r with
      | inl status => Some (inl status)
      | inr (false, s) => Some (inr s)
      | inr (true, s) => prepare_attempts n s link seeds
      end
  end.

Definition sender_prepare_segment (s : rns_resource_sender) (link : Link.rns_link E) (seeds : nat -> list Z * list Z)
    : option (rns_status + rns_resource_sender) := prepare_attempts 8 s link seeds.

Definition estimate_parts (data : list Z) (compress : bool) : rns_status + Z :=
  match (if compress then compressed_copy data else inr None) with
  | inl status => inl status
  | inr compressed =>
      match add_size (Z.of_nat (length (match compressed with Some c => c | None => data end))) 4 with
      | None => inl RNS_ERROR_OVERFLOW
      | Some n => if SIZE_MAX - 64 <? n then inl RNS_ERROR_OVERFLOW else inr (parts_of (16 + (n / 16 + 1) * 16 + 32))
      end
  end.

(** The loop over the segments that adds their parts. *)
Fixpoint estimate_all (s : rns_resource_sender) (n : nat) (i : Z) : option (rns_status + rns_resource_sender) :=
  match n with
  | O => Some (inr s)
  | S n =>
      let offset := i * RNS_RESOURCE_SINGLE_SEGMENT_MAX_SIZE in
      let len := min_size (source_length s - offset) RNS_RESOURCE_SINGLE_SEGMENT_MAX_SIZE in
      data ← memread s.(source) (Z.to_nat offset) (Z.to_nat len);
      match estimate_parts data s.(auto_compress) with
      | inl status => Some (inl status)
      | inr count =>
          if SIZE_MAX - count <? s.(total_data_parts) then Some (inl RNS_ERROR_OVERFLOW)
          else estimate_all {| s with total_data_parts := s.(total_data_parts) + count |} n (i + 1)
      end
  end.

(** The sender before its first segment is prepared. *)
Definition fresh_sender (data : list Z) (compress response : bool) (id : list Z) : rns_resource_sender :=
  {| source := data; segment_index := 1;
     total_segments := (Z.of_nat (length data) + RNS_RESOURCE_SINGLE_SEGMENT_MAX_SIZE - 1) / RNS_RESOURCE_SINGLE_SEGMENT_MAX_SIZE;
     total_data_parts := 0; auto_compress := compress; is_response := response; has_request_id := response;
     request_id := id; flags := 0; random_hash := replicate 4 0; hash := replicate 32 0; original_hash := replicate 32 0;
     wire := []; sender_parts := 0; sender_map_hashes := [] |}.

(** [object_ok] says whether the allocation of the object succeeds. *)
Definition rns_resource_sender_create (object_ok : bool) (link : option (Link.rns_link E)) (data : slice)
    (options : option rns_resource_sender_options) (seeds : nat -> list Z * list Z)
    : option (rns_status + rns_resource_sender) :=
  match link with
  | None => Some (inl RNS_ERROR_INVALID_ARGUMENT)
  | Some link =>
      if negb (bool_decide (link.(Link.state) = Link.RNS_LINK_ACTIVE)) || slice_bad data || (slice_length data =? 0)%nat ||
         (RNS_RESOURCE_MAX_SIZE <? Z.of_nat (slice_length data))
      then Some (inl RNS_ERROR_INVALID_ARGUMENT)
      else
        let compress := match options with None => true | Some o => o.(opt_auto_compress) end in
        let response := match options with None => false | Some o => o.(opt_is_response) end in
        let id := match options with Some o => o.(opt_request_id) | None => None end in
        if response && (if id is None then true else false) then Some (inl RNS_ERROR_INVALID_ARGUMENT)
        else if negb object_ok then Some (inl RNS_ERROR_NO_MEMORY)
        else if negb (malloc_ok (slice_length data)) then Some (inl RNS_ERROR_NO_MEMORY)
        else
          let s := fresh_sender (slice_bytes data) compress response
                     (if response then default [] id else replicate 16 0) in
          r ← estimate_all s (Z.to_nat s.(total_segments)) 0;
          match r with
          | inl status => Some (inl status)
          | inr s => sender_prepare_segment s link seeds
          end
  end.

(** *** Writing MessagePack *)

Definition mp_uint_size (value : Z) : nat :=
  if value <=? 0x7f then 1 else if value <=? 0xff then 2 else if value <=? 0xffff then 3
  else if value <=? 0xffffffff then 5 else 9.

(** The loop that writes [width] bytes, the highest first. *)
Fixpoint put_be (width : nat) (value : Z) : list Z :=
  match width with O => [] | S w => wrap8 (Z.shiftr value (Z.of_nat w * 8)) :: put_be w value end.

(** The bytes [mp_put_uint] writes. *)
Definition mp_put_uint (value : Z) : list Z :=
  if value <=? 0x7f then [wrap8 value]
  else if value <=? 0xff then 0xcc :: put_be 1 value
  else if value <=? 0xffff then 0xcd :: put_be 2 value
  else if value <=? 0xffffffff then 0xce :: put_be 4 value
  else 0xcf :: put_be 8 value.

Definition mp_bin_header_size (n : nat) : nat :=
  if Z.of_nat n <=? 0xff then 2 else if Z.of_nat n <=? 0xffff then 3 else 5.

(** The bytes [mp_put_bin] writes. *)
Definition mp_put_bin (data : list Z) : list Z :=
  let n := Z.of_nat (length data) in
  (if n <=? 0xff then [0xc4; wrap8 n]
   else if n <=? 0xffff then [0xc5; wrap8 (Z.shiftr n 8); wrap8 n]
   else 0xc6 :: put_be 4 n) ++ data.

Definition mp_put_key (key : Z) : list Z := [0xa1; key].

(** The first [n] bytes of an array as they are read. *)
Definition first_hashes (s : rns_resource_sender) : nat :=
  Z.to_nat (min_size s.(sender_parts) RNS_RESOURCE_HASHMAP_MAX_ENTRIES * 4).

(** The fields in the order they are written. *)
Definition advertisement_fields (s : rns_resource_sender) (maps : list Z) : list (list Z) :=
  [[0x8b]; mp_put_key 116; mp_put_uint (wire_length s); mp_put_key 100; mp_put_uint (source_length s);
   mp_put_key 110; mp_put_uint s.(sender_parts); mp_put_key 104; mp_put_bin s.(hash);
   mp_put_key 114; mp_put_bin s.(random_hash); mp_put_key 111; mp_put_bin s.(original_hash);
   mp_put_key 105; mp_put_uint s.(segment_index); mp_put_key 108; mp_put_uint s.(total_segments);
   mp_put_key 113; (if s.(has_request_id) then mp_put_bin s.(request_id) else [0xc0]);
   mp_put_key 102; mp_put_uint s.(flags); mp_put_key 109; mp_put_bin maps].

Definition advertisement_size (s : rns_resource_sender) : nat :=
  let map_length := first_hashes s in
  (1 + 11 * 2 + mp_uint_size (wire_length s) + mp_uint_size (source_length s) + mp_uint_size s.(sender_parts) +
   mp_bin_header_size 32 + 32 + mp_bin_header_size 4 + 4 + mp_bin_header_size 32 + 32 +
   mp_uint_size s.(segment_index) + mp_uint_size s.(total_segments) +
   (if s.(has_request_id) then mp_bin_header_size 16 + 16 else 1) + mp_uint_size s.(flags) +
   mp_bin_header_size map_length + map_length)%nat.

Definition rns_resource_sender_advertisement (s : rns_resource_sender) (out : option (list Z)) (capacity : nat)
    : option (rns_status * option (list Z) * option nat) :=
  match out with
  | None => Some (RNS_ERROR_INVALID_ARGUMENT, out, None)
  | Some o =>
      let needed := advertisement_size s in
      if (capacity <? needed)%nat then Some (RNS_ERROR_OVERFLOW, out, None)
      else
        maps ← memread s.(sender_map_hashes) 0 (first_hashes s);
        w ← put_all o 0 (advertisement_fields s maps);
        Some (if (w.2 =? needed)%nat then RNS_OK else RNS_ERROR_PROTOCOL, Some w.1, Some w.2)
  end.

(** *** Answering requests *)

(** The offset of the wanted hashes. *)
Definition parse_request (s : rns_resource_sender) (request : slice) : option (rns_status + nat) :=
  match request with
  | SNull _ | SBytes [] => Some (inl RNS_ERROR_INVALID_ARGUMENT)
  | SBytes ((kind :: _) as q) =>
      if negb (kind =? 0x00) && negb (kind =? 0xff) then Some (inl RNS_ERROR_PROTOCOL)
      else
        let maps_offset := if kind =? 0x00 then 33%nat else 37%nat in
        let hash_offset := if kind =? 0x00 then 1%nat else 5%nat in
        if (length q <? maps_offset)%nat || negb ((length q - maps_offset) mod 4 =? 0)%nat then Some (inl RNS_ERROR_PROTOCOL)
        else
          h ← memread q hash_offset 32;
          Some (if memeq h s.(hash) then inr maps_offset else inl RNS_ERROR_PROTOCOL)
  end.

(** The loop over the wanted hashes: the indexes found so far. *)
Fixpoint find_requested (s : rns_resource_sender) (q : list Z) (offset n : nat) (capacity : nat) (found : list nat)
    : option (rns_status * list nat) :=
  match n with
  | O => Some (RNS_OK, found)
  | S n =>
      wanted ← memread q offset 4;
      i ← find_map_hash s.(sender_map_hashes) wanted (Z.to_nat s.(sender_parts)) 0;
      match i with
      | None => find_requested s q (offset + 4) n capacity found
      | Some i =>
          if (capacity <=? length found)%nat then Some (RNS_ERROR_OVERFLOW, found)
          else find_requested s q (offset + 4) n capacity (found ++ [i])
      end
  end.

(** The status and the indexes written. *)
Definition rns_resource_sender_requested_parts (s : rns_resource_sender) (request : slice) (capacity : nat)
    : option (rns_status * list nat) :=
  p ← parse_request s request;
  match p with
  | inl status => Some (status, [])
  | inr maps_offset =>
      let q := slice_bytes request in
      let n := ((length q - maps_offset) / 4)%nat in
      if (RNS_RESOURCE_WINDOW_MAX <? n)%nat then Some (RNS_ERROR_PROTOCOL, [])
      else find_requested s q maps_offset n capacity []
  end.

Definition rns_resource_sender_hashmap_update (s : rns_resource_sender) (request : slice) (out : option (list Z)) (capacity : nat)
    : option (rns_status * option (list Z) * option nat) :=
  match out with
  | None => Some (RNS_ERROR_INVALID_ARGUMENT, out, None)
  | Some o =>
      p ← parse_request s request;
      match p with
      | inl status => Some (status, out, None)
      | inr _ =>
          let q := slice_bytes request in
          kind ← load q 0;
          if negb (kind =? 0xff) then Some (RNS_ERROR_NOT_FOUND, out, None)
          else
            anchor ← memread q 1 4;
            i ← find_map_hash s.(sender_map_hashes) anchor (Z.to_nat s.(sender_parts)) 0;
            match i with
            | None => Some (RNS_ERROR_PROTOCOL, out, None)
            | Some i =>
                if negb ((Z.of_nat i + 1) mod RNS_RESOURCE_HASHMAP_MAX_ENTRIES =? 0) then Some (RNS_ERROR_PROTOCOL, out, None)
                else
                  let page := (Z.of_nat i + 1) / RNS_RESOURCE_HASHMAP_MAX_ENTRIES in
                  let start := page * RNS_RESOURCE_HASHMAP_MAX_ENTRIES in
                  if s.(sender_parts) <=? start then Some (RNS_ERROR_NOT_FOUND, out, None)
                  else
                    let entries := min_size (s.(sender_parts) - start) RNS_RESOURCE_HASHMAP_MAX_ENTRIES in
                    let map_length := Z.to_nat (entries * 4) in
                    let needed := (32 + 1 + mp_uint_size page + mp_bin_header_size map_length + map_length)%nat in
                    if (capacity <? needed)%nat then Some (RNS_ERROR_OVERFLOW, out, None)
                    else
                      maps ← memread s.(sender_map_hashes) (Z.to_nat start * 4) map_length;
                      w ← put_all o 0 [s.(hash); [0x92]; mp_put_uint page; mp_put_bin maps];
                      Some (RNS_OK, Some w.1, Some w.2)
            end
      end
  end.

(** The part a pointer and a length describe. *)
Definition rns_resource_sender_part (s : rns_resource_sender) (index : nat) : option (rns_status + list Z) :=
  if s.(sender_parts) <=? Z.of_nat index then Some (inl RNS_ERROR_NOT_FOUND)
  else
    let offset := Z.of_nat index * RNS_RESOURCE_PART_MAX in
    let len := min_size (wrap64 (wire_length s - offset)) RNS_RESOURCE_PART_MAX in
    part ← memread s.(wire) (Z.to_nat offset) (Z.to_nat len);
    Some (inr part).

Definition rns_resource_sender_validate_proof (s : rns_resource_sender) (p : slice) : option rns_status :=
  match p with
  | SNull _ => Some RNS_ERROR_INVALID_ARGUMENT
  | SBytes p =>
      if negb (length p =? RNS_RESOURCE_PROOF_SIZE)%nat then Some RNS_ERROR_CRYPTO
      else
        h ← memread p 0 32;
        if negb (memeq h s.(hash)) then Some RNS_ERROR_CRYPTO
        else
          match add_size (segment_source_length s s.(segment_index)) 32 with
          | None => Some RNS_ERROR_OVERFLOW
          | Some n =>
              if negb (malloc_ok (Z.to_nat n)) then Some RNS_ERROR_NO_MEMORY
              else
                data ← segment s;
                expected ← memread p 32 32;
                Some (match rns_sha256 (data ++ s.(hash)) with
                      | None => RNS_ERROR_CRYPTO
                      | Some digest => if memeq digest expected then RNS_OK else RNS_ERROR_CRYPTO
                      end)
          end
  end.

Definition rns_resource_sender_advance_segment (s : rns_resource_sender) (link : option (Link.rns_link E))
    (seeds : nat -> list Z * list Z) : option (rns_status * rns_resource_sender) :=
  match link with
  | None => Some (RNS_ERROR_INVALID_ARGUMENT, s)
  | Some link =>
      if negb (bool_decide (link.(Link.state) = Link.RNS_LINK_ACTIVE)) then Some (RNS_ERROR_INVALID_ARGUMENT, s)
      else if s.(total_segments) <=? s.(segment_index) then Some (RNS_ERROR_INVALID_STATE, s)
      else
        let next := {| s with segment_index := s.(segment_index) + 1; wire := []; sender_parts := 0; sender_map_hashes := [] |} in
        r ← sender_prepare_segment next link seeds;
        Some (match r with inl status => (status, s) | inr next => (RNS_OK, next) end)
  end.
End Sender.

Definition rns_resource_sender_hash (s : option rns_resource_sender) : option (list Z) := hash <$> s.
Definition rns_resource_sender_data_size (s : option rns_resource_sender) : Z :=
  match s with Some s => source_length s | None => 0 end.
Definition rns_resource_sender_transfer_size (s : option rns_resource_sender) : Z :=
  match s with Some s => wire_length s | None => 0 end.
Definition rns_resource_sender_total_parts (s : option rns_resource_sender) : Z :=
  match s with Some s => s.(sender_parts) | None => 0 end.
Definition rns_resource_sender_total_data_parts (s : option rns_resource_sender) : Z :=
  match s with Some s => s.(total_data_parts) | None => 0 end.
Definition rns_resource_sender_segment_index (s : option rns_resource_sender) : Z :=
  match s with Some s => s.(segment_index) | None => 0 end.
Definition rns_resource_sender_total_segments (s : option rns_resource_sender) : Z :=
  match s with Some s => s.(total_segments) | None => 0 end.

(** A library that codes runs of one byte; for witnesses. *)
Definition toy_compress (s : list Z) (n : nat) : option (list Z) :=
  let c := if bool_decide (s = replicate (length s) (default 0 (head s)) /\ s <> [])
           then [1; default 0 (head s); Z.of_nat (length s)] else 0 :: s in
  if (length c <=? n)%nat then Some c else None.

Definition toy_decompress (c : list Z) (m : nat) : bz_result :=
  let give d := if (length d <=? m)%nat then BZ_OK d else BZ_OUTBUFF_FULL [] in
  match c with
  | 0 :: s => give s
  | [1; x; k] => give (replicate (Z.to_nat k) x)
  | _ => BZ_ERROR []
  end.

#[global, refine] Instance toy_bzip2 : Bzip2 | 100 :=
  {| RETICULUM_HAVE_BZIP2 := true; BZ2_bzBuffToBuffCompress := toy_compress; BZ2_bzBuffToBuffDecompress := toy_decompress |}.
Proof.
  - intros s n c. unfold toy_compress. destruct (_ <=? n)%nat eqn:E; [|done]. intros [= <-]. by apply Nat.leb_le.
  - intros s n. unfold toy_decompress.
    assert (forall d, length (bz_written (if (length d <=? n)%nat then BZ_OK d else BZ_OUTBUFF_FULL [])) <= n)%nat as Hg.
    { intros d. destruct (Nat.leb_spec (length d) n); cbn; lia. }
    destruct s as [|[|[p|p|]|p] s]; try (cbn; lia); [apply Hg|]. destruct s as [|x [|k [|]]]; try (cbn; lia). apply Hg.
  - intros s n c m. unfold toy_compress, toy_decompress. destruct (_ <=? n)%nat; [|done]. intros [= <-] Hm.
    case_bool_decide as Hs; [|by rewrite (proj2 (Nat.leb_le _ _)) by done].
    rewrite Nat2Z.id, length_replicate, (proj2 (Nat.leb_le _ _)) by done. f_equal. symmetry. apply Hs.
Defined.

(** ** MessagePack round trips *)

Lemma be_encode_cons w v : be_encode (S w) v = v / 256 ^ Z.of_nat w mod 256 :: be_encode w v.
Proof.
  revert v. induction w as [|w IH]; intros v; [cbn; by rewrite Z.div_1_r|].
  change (be_encode (S (S w)) v) with (be_encode (S w) (v / 256) ++ [v mod 256]). rewrite IH. cbn [app]. f_equal.
  by rewrite Nat2Z.inj_succ, Z.pow_succ_r, Z.div_div by lia.
Qed.

Lemma put_be_eq w v : put_be w v = be_encode w v.
Proof.
  induction w as [|w IH]; [done|]. cbn [put_be]. rewrite be_encode_cons, IH. f_equal. unfold wrap.
  rewrite Z.shiftr_div_pow2 by lia. by rewrite Z.mul_comm, Z.pow_mul_r by lia.
Qed.

Lemma mp_take_app d rest n : n = Z.of_nat (length d) -> mp_take (d ++ rest) n = Some (d, rest).
Proof.
  intros ->. unfold mp_take. rewrite (proj2 (Z.ltb_ge _ _)) by (rewrite length_app; lia).
  by rewrite Nat2Z.id, take_app_length, drop_app_length.
Qed.

Lemma length_mp_put_uint v : length (mp_put_uint v) = mp_uint_size v.
Proof. unfold mp_put_uint, mp_uint_size. repeat case_match; cbn [length]; rewrite ?put_be_eq, ?length_be_encode; done. Qed.

(** A big-endian field behind its tag. *)
Lemma mp_take_be w v rest n :
  n = Z.of_nat w -> 0 <= v < 256 ^ Z.of_nat w -> (w <= 8)%nat ->
  exists d, mp_take (put_be w v ++ rest) n = Some (d, rest) /\ shift_bytes d = v.
Proof.
  intros -> Hv Hw. exists (be_encode w v). rewrite put_be_eq, mp_take_app by (by rewrite length_be_encode). split; [done|].
  rewrite shift_bytes_be by (apply be_encode_bytes || by rewrite length_be_encode). by apply be_decode_encode.
Qed.

Lemma mp_uint_put v rest : in_width 64 v -> mp_uint (mp_put_uint v ++ rest) = Some (v, rest).
Proof.
  intros Hv. unfold in_width in Hv. unfold mp_put_uint, mp_uint.
  destruct (Z.leb_spec v 0x7f). { cbn [app mp_byte mbind option_bind]. rewrite wrap_small by (unfold in_width; lia). by rewrite (proj2 (Z.leb_le _ _)) by done. }
  destruct (Z.leb_spec v 0xff); [|destruct (Z.leb_spec v 0xffff); [|destruct (Z.leb_spec v 0xffffffff)]];
    cbn [app mp_byte mbind option_bind uint_width Z.leb Z.eqb Z.compare Pos.compare Pos.compare_cont Pos.eqb].
  - destruct (mp_take_be 1 v rest 1) as (d & -> & Hd); [done|lia..|]. cbn [mbind option_bind fst snd]. by rewrite Hd.
  - destruct (mp_take_be 2 v rest 2) as (d & -> & Hd); [done|lia..|]. cbn [mbind option_bind fst snd]. by rewrite Hd.
  - destruct (mp_take_be 4 v rest 4) as (d & -> & Hd); [done|lia..|]. cbn [mbind option_bind fst snd]. by rewrite Hd.
  - destruct (mp_take_be 8 v rest 8) as (d & -> & Hd); [done| |lia|]. { change (256 ^ Z.of_nat 8) with (2 ^ 64). lia. } cbn [mbind option_bind fst snd]. by rewrite Hd.
Qed.

Lemma length_mp_put_bin d : length (mp_put_bin d) = (mp_bin_header_size (length d) + length d)%nat.
Proof.
  unfold mp_put_bin, mp_bin_header_size. rewrite length_app. f_equal.
  repeat case_match; cbn [length]; rewrite ?put_be_eq, ?length_be_encode; done.
Qed.

(** The header of a byte string, [w] bytes behind the tag. *)
Lemma mp_bin_head tag w d rest :
  bin_width tag = Some (Z.of_nat w) -> Z.of_nat (length d) < 256 ^ Z.of_nat w -> (w <= 4)%nat ->
  mp_bin (tag :: put_be w (Z.of_nat (length d)) ++ d ++ rest) = Some (d, rest).
Proof.
  intros Ht Hd Hw. unfold mp_bin. cbn [mp_byte mbind option_bind]. rewrite Ht. cbn [mbind option_bind].
  destruct (mp_take_be w (Z.of_nat (length d)) (d ++ rest) (Z.of_nat w)) as (e & -> & He); [done|lia|lia|].
  cbn [mbind option_bind fst snd]. rewrite He.
  assert (256 ^ Z.of_nat w <= 256 ^ 4) by (apply Z.pow_le_mono_r; lia). change (256 ^ 4) with 4294967296 in *.
  limits. rewrite (proj2 (Z.ltb_ge _ _)) by lia. by apply mp_take_app.
Qed.

Lemma mp_bin_put d rest : Z.of_nat (length d) < 2 ^ 32 -> mp_bin (mp_put_bin d ++ rest) = Some (d, rest).
Proof.
  intros Hd. unfold mp_put_bin. rewrite <-app_assoc.
  destruct (Z.leb_spec (Z.of_nat (length d)) 0xff); [|destruct (Z.leb_spec (Z.of_nat (length d)) 0xffff)].
  - replace [0xc4; wrap8 (Z.of_nat (length d))] with (0xc4 :: put_be 1 (Z.of_nat (length d))) by (cbn; by rewrite Z.shiftr_0_r).
    apply (mp_bin_head 0xc4 1); [done|change (256 ^ Z.of_nat 1) with 256; lia|lia].
  - replace [0xc5; wrap8 (Z.shiftr (Z.of_nat (length d)) 8); wrap8 (Z.of_nat (length d))] with (0xc5 :: put_be 2 (Z.of_nat (length d)))
      by (cbn [put_be]; change (Z.of_nat 1 * 8) with 8; change (Z.of_nat 0 * 8) with 0; by rewrite Z.shiftr_0_r).
    apply (mp_bin_head 0xc5 2); [done|change (256 ^ Z.of_nat 2) with 65536; lia|lia].
  - apply (mp_bin_head 0xc6 4); [done|done|lia].
Qed.

(** A key and its value. *)
Lemma mp_key_put key rest : mp_key (mp_put_key key ++ rest) = Some (key, rest).
Proof. done. Qed.

(** ** The advertisement of a sender *)

(** What a prepared sender advertises. *)
Record advertisable (s : rns_resource_sender) : Prop := {
  av_wire : 64 <= wire_length s /\ wire_length s mod 16 = 0;
  av_source : 1 <= source_length s <= RNS_RESOURCE_MAX_SIZE;
  av_parts : s.(sender_parts) = parts_of (wire_length s) /\ s.(sender_parts) <= RNS_RESOURCE_MAX_PARTS;
  av_segment : 1 <= s.(segment_index) <= s.(total_segments) /\ s.(total_segments) <= 127;
  av_hash : length s.(hash) = 32%nat;
  av_random : length s.(random_hash) = 4%nat;
  av_original : length s.(original_hash) = 32%nat /\ (s.(segment_index) = 1 -> s.(original_hash) = s.(hash));
  av_request : s.(has_request_id) = true -> length s.(request_id) = 16%nat;
  av_flags : 0 <= s.(flags) < 64 /\ has_flag s.(flags) RNS_RESOURCE_FLAG_ENCRYPTED = true /\
    has_flag s.(flags) RNS_RESOURCE_FLAG_SPLIT = (1 <? s.(total_segments));
  av_maps : length s.(sender_map_hashes) = (Z.to_nat s.(sender_parts) * 4)%nat
}.

Definition advertised (s : rns_resource_sender) : rns_resource_advertisement :=
  set_flag_fields
    {| adv_transfer_size := wire_length s; adv_data_size := source_length s; adv_parts := s.(sender_parts);
       adv_hash := s.(hash); adv_random_hash := s.(random_hash); adv_original_hash := s.(original_hash);
       adv_segment_index := s.(segment_index); adv_total_segments := s.(total_segments);
       adv_has_request_id := s.(has_request_id);
       adv_request_id := if s.(has_request_id) then s.(request_id) else replicate 16 0; adv_flags := s.(flags);
       adv_hashmap := SBytes (take (first_hashes s) s.(sender_map_hashes));
       adv_encrypted := false; adv_compressed := false; adv_split := false; adv_is_request := false;
       adv_is_response := false; adv_has_metadata := false |}.

Lemma parse_step n seen a key bit v rest a' :
  key_bit key = Some bit -> Z.land seen bit = 0 -> parse_value key a (v ++ rest) = Some (a', rest) ->
  parse_fields (S n) seen a (mp_put_key key ++ v ++ rest) = parse_fields n (Z.lor seen bit) a' rest.
Proof. intros Hk Hs Hv. cbn [parse_fields]. rewrite mp_key_put. cbn [mbind option_bind fst snd]. rewrite Hk. cbn [mbind option_bind].
  rewrite Hs. cbn [negb Z.eqb]. by rewrite Hv. Qed.

Lemma parse_uint key a a' v rest :
  is_uint_key key = true -> in_width 64 v -> set_uint_field key v a = Some a' ->
  parse_value key a (mp_put_uint v ++ rest) = Some (a', rest).
Proof.
  intros Hk Hv Hs. unfold parse_value. rewrite Hk, mp_uint_put by done. cbn [mbind option_bind fst snd].
  unfold uint_to_size, in_width in *. limits. rewrite (proj2 (Z.ltb_ge _ _)) by lia. cbn [mbind option_bind]. by rewrite Hs.
Qed.

Lemma parse_bin key a a' d rest :
  is_uint_key key = false -> (key =? 113) = false -> Z.of_nat (length d) < 2 ^ 32 -> set_bin_field key d a = Some a' ->
  parse_value key a (mp_put_bin d ++ rest) = Some (a', rest).
Proof. intros Hk Hq Hd Hs. unfold parse_value. rewrite Hk, Hq, mp_bin_put by done. cbn [mbind option_bind fst snd]. by rewrite Hs. Qed.

Lemma parse_request_id a (has : bool) id rest :
  (has = true -> length id = 16%nat) ->
  parse_value 113 a ((if has then mp_put_bin id else [0xc0]) ++ rest) =
    Some (if has then set_request_id id a else a, rest).
Proof.
  intros Hid. destruct has; [|done]. specialize (Hid eq_refl). unfold parse_value. cbn [is_uint_key Z.eqb Pos.eqb orb].
  assert (mp_put_bin id ++ rest = 0xc4 :: 16 :: id ++ rest) as E.
  { unfold mp_put_bin. rewrite Hid. done. }
  rewrite E. cbn [Z.eqb Pos.eqb]. rewrite <-E, mp_bin_put by (rewrite Hid; lia). cbn [mbind option_bind fst snd]. by rewrite Hid.
Qed.

Lemma first_hashes_le s : advertisable s -> (first_hashes s <= length s.(sender_map_hashes))%nat /\ (4 <= first_hashes s <= 296)%nat.
Proof.
  intros Hs. destruct (av_parts _ Hs) as [Hp _]. rewrite (av_maps _ Hs). unfold first_hashes, min_size, RNS_RESOURCE_HASHMAP_MAX_ENTRIES.
  assert (1 <= sender_parts s).
  { rewrite Hp. destruct (av_wire _ Hs). unfold parts_of, RNS_RESOURCE_PART_MAX. apply Z.div_le_lower_bound; lia. }
  destruct (Z.ltb_spec 74 (sender_parts s)); lia.
Qed.

Lemma parts_of_bound n : parts_of n <= RNS_RESOURCE_MAX_PARTS -> n <= 8352000.
Proof.
  unfold parts_of, RNS_RESOURCE_MAX_PARTS, RNS_RESOURCE_PART_MAX. intros Hp.
  pose proof (Z.mul_succ_div_gt (n + 464 - 1) 464 ltac:(lia)). lia.
Qed.

(** One field of an advertisement. *)
Ltac parsed key bit tac := erewrite (parse_step _ _ _ key bit); [|reflexivity|reflexivity|tac].

(** The fields come back. *)
Lemma parse_advertisement_fields s rest :
  advertisable s ->
  parse_fields 11 0 zero_advertisement (concat (drop 1 (advertisement_fields s (take (first_hashes s) s.(sender_map_hashes)))) ++ rest) =
    Some (0x7ff, {| (advertised s) with adv_encrypted := false; adv_compressed := false; adv_split := false;
                     adv_is_request := false; adv_is_response := false; adv_has_metadata := false |}, rest).
Proof.
  intros Hs. destruct (first_hashes_le s Hs) as [Hfl Hf]. destruct Hs as [[Hw _] Hsrc [Hp1 Hp2] [Hi Ht] Hh Hr [Ho _] Hq [Hfl1 _] _].
  assert (wire_length s <= 8352000) by (apply parts_of_bound; congruence).
  unfold RNS_RESOURCE_MAX_SIZE, RNS_RESOURCE_DEFAULT_MAX_SIZE, RNS_RESOURCE_MAX_PARTS in *.
  assert (0 <= sender_parts s) by (rewrite Hp1; apply Z.div_pos; unfold RNS_RESOURCE_PART_MAX; lia).
  cbn [advertisement_fields drop concat]. rewrite app_nil_r. rewrite <-!app_assoc. set (maps := take _ _).
  assert (length maps <= 296)%nat by (unfold maps; rewrite length_take; lia).
  parsed 116 1 ltac:(apply parse_uint; [reflexivity|unfold in_width; lia|reflexivity]).
  parsed 100 2 ltac:(apply parse_uint; [reflexivity|unfold in_width; lia|reflexivity]).
  parsed 110 4 ltac:(apply parse_uint; [reflexivity|unfold in_width; lia|reflexivity]).
  parsed 104 8 ltac:(apply parse_bin; [reflexivity|reflexivity|rewrite Hh; lia|cbn [set_bin_field Z.eqb Pos.eqb]; rewrite Hh; reflexivity]).
  parsed 114 16 ltac:(apply parse_bin; [reflexivity|reflexivity|rewrite Hr; lia|cbn [set_bin_field Z.eqb Pos.eqb]; rewrite Hr; reflexivity]).
  parsed 111 32 ltac:(apply parse_bin; [reflexivity|reflexivity|rewrite Ho; lia|cbn [set_bin_field Z.eqb Pos.eqb]; rewrite Ho; reflexivity]).
  parsed 105 64 ltac:(apply parse_uint; [reflexivity|unfold in_width; lia|reflexivity]).
  parsed 108 128 ltac:(apply parse_uint; [reflexivity|unfold in_width; lia|reflexivity]).
  parsed 113 256 ltac:(apply parse_request_id, Hq).
  parsed 102 512 ltac:(apply parse_uint; [reflexivity|unfold in_width; lia|]; cbn [set_uint_field Z.eqb Pos.eqb]; rewrite (proj2 (Z.ltb_ge _ _)) by lia; reflexivity).
  parsed 109 1024 ltac:(apply parse_bin; [reflexivity|reflexivity|lia|reflexivity]).
  cbn [parse_fields]. unfold advertised, set_flag_fields. destruct (has_request_id s); reflexivity.
Qed.

Lemma validate_advertised s : advertisable s -> validate_advertisement (advertised s) = RNS_OK.
Proof.
  intros Hs. destruct (first_hashes_le s Hs) as [Hfl Hf]. destruct Hs as [[Hw Hw16] Hsrc [Hp1 Hp2] [Hi Ht] Hh Hr [Ho Ho1] Hq [Hfl1 [He Hsp]] _].
  assert (wire_length s <= 8352000) as Hwb by (apply parts_of_bound; congruence).
  assert (1 <= sender_parts s) as Hp0 by (rewrite Hp1; unfold parts_of, RNS_RESOURCE_PART_MAX; apply Z.div_le_lower_bound; lia).
  assert (wire_length s <= sender_parts s * 464 /\ sender_parts s <= wire_length s) as [Hmax Hmin].
  { rewrite Hp1. unfold parts_of, RNS_RESOURCE_PART_MAX. pose proof (Z.mul_succ_div_gt (wire_length s + 464 - 1) 464 ltac:(lia)).
    split; [lia|]. apply Z.div_le_upper_bound; lia. }
  unfold validate_advertisement, advertised, set_flag_fields. cbn.
  unfold RNS_RESOURCE_MAX_SIZE, RNS_RESOURCE_DEFAULT_MAX_SIZE, RNS_RESOURCE_MAX_PARTS in *.
  rewrite length_take, Nat.min_l by done.
  assert (Z.of_nat (first_hashes s) = (if sender_parts s <? 74 then sender_parts s else 74) * 4) as Efh.
  { unfold first_hashes, min_size, RNS_RESOURCE_HASHMAP_MAX_ENTRIES. destruct (Z.ltb_spec 74 (sender_parts s)), (Z.ltb_spec (sender_parts s) 74); lia. }
  unfold RNS_RESOURCE_HASHMAP_MAX_ENTRIES. rewrite Efh, Z.mod_mul, !Z.eqb_refl by lia.
  rewrite (proj2 (Z.eqb_neq (sender_parts s) 0)), (proj2 (Z.ltb_ge 18000 _)), (proj2 (Z.eqb_neq (wire_length s) 0)),
    (proj2 (Z.ltb_ge (8 * 1024 * 1024) _)), (proj2 (Z.eqb_neq (segment_index s) 0)), (proj2 (Z.ltb_ge (total_segments s) _)) by lia.
  cbn [orb negb]. unfold mul_size. rewrite (proj2 (Z.eqb_neq (sender_parts s) 0)) by lia. cbn [negb andb].
  assert (464 <= SIZE_MAX / sender_parts s) by (apply Z.div_le_lower_bound; limits; lia).
  unfold RNS_RESOURCE_PART_MAX. rewrite (proj2 (Z.ltb_ge _ 464)) by lia. rewrite wrap_small by (unfold in_width; lia).
  rewrite (proj2 (Z.ltb_ge (sender_parts s * 464) _)), (proj2 (Z.ltb_ge (wire_length s) (sender_parts s))), (proj2 (Z.ltb_ge _ 64)) by lia.
  rewrite He, Hw16. cbn [orb negb andb Z.eqb]. rewrite Hsp, xorb_nilpotent.
  destruct (Z.eqb_spec (segment_index s) 1) as [E1|]; cbn [andb]; [|done]. by rewrite Ho1, memeq_refl.
Qed.

Lemma length_advertisement s :
  advertisable s ->
  length (concat (advertisement_fields s (take (first_hashes s) s.(sender_map_hashes)))) = advertisement_size s /\
  (advertisement_size s <= 430)%nat.
Proof.
  intros Hs. destruct (first_hashes_le s Hs) as [Hfl Hf]. destruct Hs as [[Hw _] Hsrc [Hp1 Hp2] [Hi Ht] Hh Hr [Ho _] Hq [Hfl1 _] _].
  assert (wire_length s <= 8352000) by (apply parts_of_bound; congruence). split.
  - unfold advertisement_fields, advertisement_size. cbn [concat]. rewrite !length_app, !length_mp_put_uint, !length_mp_put_bin.
    rewrite Hh, Hr, Ho, length_take, Nat.min_l by done. change (length (mp_put_key _)) with 2%nat. cbn [length].
    destruct (has_request_id s); [rewrite length_mp_put_bin, Hq by done|cbn [length]]; lia.
  - unfold advertisement_size, RNS_RESOURCE_MAX_SIZE, RNS_RESOURCE_DEFAULT_MAX_SIZE, RNS_RESOURCE_MAX_PARTS in *.
    assert (forall v, v <= 127 -> mp_uint_size v = 1%nat) as U1 by (intros v Hv; unfold mp_uint_size; by rewrite (proj2 (Z.leb_le _ _))).
    assert (forall v, v <= 0xffff -> (mp_uint_size v <= 3)%nat) as U3.
    { intros v Hv. unfold mp_uint_size. rewrite (proj2 (Z.leb_le v 0xffff)) by done. repeat case_match; lia. }
    assert (forall v, v <= 0xffffffff -> (mp_uint_size v <= 5)%nat) as U5.
    { intros v Hv. unfold mp_uint_size. rewrite (proj2 (Z.leb_le v 0xffffffff)) by done. repeat case_match; lia. }
    rewrite (U1 (segment_index s)), (U1 (total_segments s)), (U1 (flags s)) by lia.
    pose proof (U3 (sender_parts s) ltac:(lia)). pose proof (U5 (wire_length s) ltac:(lia)). pose proof (U5 (source_length s) ltac:(lia)).
    assert (mp_bin_header_size (first_hashes s) <= 3)%nat.
    { unfold mp_bin_header_size. rewrite (proj2 (Z.leb_le _ 0xffff)) by lia. case_match; lia. }
    change (mp_bin_header_size 32) with 2%nat. change (mp_bin_header_size 4) with 2%nat. change (mp_bin_header_size 16) with 2%nat.
    destruct (has_request_id s); lia.
Qed.

Lemma sender_advertisement_spec s o cap :
  advertisable s -> (advertisement_size s <= cap <= length o)%nat ->
  exists o', rns_resource_sender_advertisement s (Some o) cap = Some (RNS_OK, Some o', Some (advertisement_size s)) /\
    rns_resource_advertisement_parse (SBytes (take (advertisement_size s) o')) = inr (advertised s).
Proof.
  intros Hs Hcap. unfold rns_resource_sender_advertisement. rewrite (proj2 (Nat.ltb_ge _ _)) by lia.
  destruct (first_hashes_le s Hs) as [Hfl _]. destruct (length_advertisement s Hs) as [Hlen _].
  rewrite memread_in by done. rewrite drop_0. cbn [mbind option_bind]. set (fs := advertisement_fields s _) in *.
  destruct (put_all_wrote (length o) fs o []) as (o' & Hp & Hw); [by apply wrote_nil|rewrite Hlen; cbn [length]; lia|].
  cbn [length app Nat.add] in Hp, Hw. rewrite Hp, Hlen. cbn [mbind option_bind fst snd]. rewrite Nat.eqb_refl.
  exists o'. split; [done|]. destruct Hw as (_ & Ht & _). rewrite Hlen in Ht. rewrite Ht. unfold fs at 1. cbn [advertisement_fields concat].
  cbn [app]. unfold rns_resource_advertisement_parse. cbn [negb Z.eqb Pos.eqb].
  pose proof (parse_advertisement_fields s [] Hs) as Hparse. unfold advertisement_fields in Hparse. cbn [drop concat] in Hparse.
  rewrite app_nil_r in Hparse. rewrite Hparse. cbn [negb Z.eqb Pos.eqb].
  match goal with |- context [validate_advertisement ?a] => replace a with (advertised s) by done end.
  by rewrite validate_advertised.
Qed.

(** C28: The advertisement round trip. What a prepared sender advertises fits the
    430 bytes a link packet carries, is written within the buffer, and is parsed by
    [rns_resource_advertisement_parse] to exactly the sender's sizes, hashes,
    indexes, flags and first page of part hashes. *)
Theorem resource_advertisement_roundtrip s o cap :
  advertisable s -> (430 <= cap <= length o)%nat ->
  exists o' n, rns_resource_sender_advertisement s (Some o) cap = Some (RNS_OK, Some o', Some n) /\ (n <= 430)%nat /\
    rns_resource_advertisement_parse (SBytes (take n o')) = inr (advertised s).
Proof.
  intros Hs Hcap. destruct (length_advertisement s Hs) as [_ Hn].
  destruct (sender_advertisement_spec s o cap Hs) as (o' & H1 & H2); [lia|]. by exists o', (advertisement_size s).
Qed.

(** ** The receiver's bookkeeping *)

Lemma elem_of_missing flag i ps qs j :
  j ∈ missing_parts flag i ps qs <-> exists k, j = (i + k)%nat /\ ps !! k = Some None /\ qs !! k = Some flag.
Proof.
  revert i qs. induction ps as [|p ps IH]; intros i qs.
  { cbn. rewrite elem_of_nil. split; [done|]. by intros (? & _ & ? & _). }
  destruct qs as [|q qs]; cbn [missing_parts]. { rewrite elem_of_nil. split; [done|]. by intros (? & _ & _ & ?). }
  rewrite elem_of_app, IH. split.
  - intros [Hj|(k & -> & Hk)]; [|exists (S k); split; [lia|done]]. exists 0%nat. destruct p; [by apply elem_of_nil in Hj|].
    destruct (Bool.eqb q flag) eqn:E; [|by apply elem_of_nil in Hj]. apply eqb_prop in E as ->.
    apply list_elem_of_singleton in Hj as ->. split; [lia|done].
  - intros ([|k] & -> & Hp & Hq); cbn in Hp, Hq; [|right; exists k; split; [lia|done]]. left. simplify_eq.
    rewrite eqb_reflx. apply list_elem_of_singleton. lia.
Qed.

Lemma missing_NoDup flag i ps qs : NoDup (missing_parts flag i ps qs).
Proof.
  revert i qs. induction ps as [|p ps IH]; intros i qs; [apply NoDup_nil_2|]. destruct qs as [|q qs]; [apply NoDup_nil_2|].
  cbn [missing_parts]. apply list.NoDup_app. split_and!; [|intros j Hj (k & -> & _)%elem_of_missing|done].
  - destruct p; [apply NoDup_nil_2|]. destruct (Bool.eqb q flag); [apply NoDup_singleton|apply NoDup_nil_2].
  - destruct p; [by apply elem_of_nil in Hj|]. destruct (Bool.eqb q flag); [|by apply elem_of_nil in Hj].
    apply list_elem_of_singleton in Hj. lia.
Qed.

(** Two lists of missing parts with the same members have the same length. *)
Lemma missing_length (l k : list nat) : NoDup l -> NoDup k -> (forall x, x ∈ l <-> x ∈ k) -> length l = length k.
Proof. intros Hl Hk E. apply Permutation_length. by apply NoDup_Permutation. Qed.

Lemma missing_take flag n ps qs :
  (forall i, (n <= i)%nat -> qs !! i <> Some flag) ->
  length (missing_parts flag 0 (take n ps) (take n qs)) = length (missing_parts flag 0 ps qs) /\
  forall x, x ∈ missing_parts flag 0 (take n ps) (take n qs) <-> x ∈ missing_parts flag 0 ps qs.
Proof.
  intros Hn. assert (forall x, x ∈ missing_parts flag 0 (take n ps) (take n qs) <-> x ∈ missing_parts flag 0 ps qs) as E.
  { intros x. rewrite !elem_of_missing. split; intros (k & -> & Hp & Hq); exists k.
    - apply lookup_take_Some in Hp as [? _], Hq as [? _]. done.
    - split; [done|]. destruct (decide (k < n)%nat) as [Hk|Hk]; [|by destruct (Hn k); [lia|]].
      by rewrite !lookup_take_lt. }
  split; [|done]. apply missing_length; [apply missing_NoDup..|done].
Qed.

Lemma set_requested_spec flag is_ qs :
  (forall i, i ∈ is_ -> (i < length qs)%nat) ->
  exists qs', set_requested flag is_ qs = Some qs' /\ length qs' = length qs /\
    forall j, qs' !! j = if decide (j ∈ is_) then Some flag else qs !! j.
Proof.
  revert qs. induction is_ as [|i is_ IH]; intros qs Hi; cbn [set_requested].
  { by exists qs. }
  assert (i < length qs)%nat as Hlt by (apply Hi; left). rewrite decide_True by done.
  destruct (IH (<[i:=flag]> qs)) as (qs' & -> & Hl & Hj).
  { intros j Hj. rewrite length_insert. apply Hi. by right. }
  rewrite length_insert in Hl. exists qs'. split_and!; [done|done|]. intros j. rewrite Hj.
  destruct (decide (j ∈ is_)) as [Hin|Hin].
  - rewrite decide_True by (by right). done.
  - destruct (decide (j = i)) as [->|Hne].
    + rewrite decide_True by left. by apply list_lookup_insert_eq.
    + rewrite decide_False by (rewrite elem_of_cons; tauto). by apply list_lookup_insert_ne.
Qed.

(** The number of stored parts. *)
Definition stored_count (ps : list (option (list Z))) : nat := length (omap id ps).

Lemma stored_count_insert ps i p : ps !! i = Some None -> stored_count (<[i := Some p]> ps) = S (stored_count ps).
Proof.
  unfold stored_count. intros Hi. rewrite (insert_take_drop _ _ _ (lookup_lt_Some _ _ _ Hi)).
  rewrite <-(take_drop_middle _ _ _ Hi) at 3. rewrite !omap_app, !length_app. cbn. lia.
Qed.

Lemma stored_count_le ps : (stored_count ps <= length ps)%nat.
Proof. unfold stored_count. induction ps as [|[p|] ps IH]; cbn; lia. Qed.

Lemma stored_count_full ps : stored_count ps = length ps <-> forall i, (i < length ps)%nat -> exists p, ps !! i = Some (Some p).
Proof.
  unfold stored_count. split.
  - induction ps as [|[p|] ps IH]; cbn; intros E i Hi; [lia| |].
    + destruct i as [|i]; [by exists p|]. apply IH; cbn; lia.
    + pose proof (stored_count_le ps) as Hle. unfold stored_count in Hle. lia.
  - induction ps as [|[p|] ps IH]; cbn; intros E; [done| |].
    + f_equal. apply IH. intros i Hi. apply (E (S i)). lia.
    + destruct (E 0%nat) as [p Hp]; [lia|done].
Qed.

(** *** The invariant *)

Definition total (r : rns_resource) : nat := Z.to_nat r.(advertisement).(adv_parts).

Record wf (r : rns_resource) : Prop := {
  wf_parts : 1 <= r.(advertisement).(adv_parts) <= RNS_RESOURCE_MAX_PARTS;
  wf_maps : length r.(map_hashes) = (total r * 4)%nat;
  wf_arrays : length r.(parts) = total r /\ length r.(part_lengths) = total r /\ length r.(requested) = total r;
  wf_known : (1 <= r.(known_hashes) <= total r)%nat;
  wf_pages : r.(known_hashes) = total r \/ Z.of_nat r.(known_hashes) mod RNS_RESOURCE_HASHMAP_MAX_ENTRIES = 0;
  wf_stored : forall i p, r.(parts) !! i = Some (Some p) ->
    (i < r.(known_hashes))%nat /\ r.(part_lengths) !! i = Some (length p) /\ 1 <= Z.of_nat (length p) <= RNS_RESOURCE_PART_MAX;
  wf_requested : forall i, r.(requested) !! i = Some true -> (i < r.(known_hashes))%nat /\ r.(parts) !! i = Some None;
  wf_received : r.(received) = stored_count r.(parts);
  wf_window : (length (missing_parts true 0 r.(parts) r.(requested)) <= RNS_RESOURCE_WINDOW)%nat;
  wf_retries : (r.(retries_used) <= RNS_RESOURCE_MAX_RETRIES)%nat;
  wf_waiting : r.(waiting) = true -> forall i, r.(parts) !! i = Some None -> (r.(known_hashes) <= i)%nat;
  wf_hashes : length r.(advertisement).(adv_hash) = 32%nat /\ length r.(advertisement).(adv_random_hash) = 4%nat;
  wf_max_size : r.(max_size) <= RNS_RESOURCE_MAX_SIZE /\ r.(advertisement).(adv_data_size) <= r.(max_size)
}.

Lemma missing_known_spec flag r :
  wf r -> exists l, missing_known flag r = Some l /\ NoDup l /\
    (forall i, i ∈ l <-> (i < r.(known_hashes))%nat /\ r.(parts) !! i = Some None /\ r.(requested) !! i = Some flag).
Proof.
  intros Hr. destruct (wf_arrays r Hr) as (Hp & _ & Hq). pose proof (wf_known r Hr). unfold missing_known.
  rewrite decide_True by lia. eexists. split; [done|]. split; [apply missing_NoDup|]. intros i. rewrite elem_of_missing. cbn [Nat.add]. split.
  - intros (k & -> & H1 & H2). apply lookup_take_Some in H1 as [? ?], H2 as [? ?]. done.
  - intros (Hi & H1 & H2). exists i. by rewrite !lookup_take_lt.
Qed.

Lemma outstanding_spec r :
  wf r -> exists l, missing_known true r = Some l /\ rns_resource_outstanding_parts (Some r) = Some (length l) /\
    (length l <= RNS_RESOURCE_WINDOW)%nat /\ NoDup l /\ forall i, i ∈ l <-> r.(requested) !! i = Some true.
Proof.
  intros Hr. destruct (missing_known_spec true r Hr) as (l & Hl & Hnd & Hin). exists l. unfold rns_resource_outstanding_parts.
  rewrite Hl. split_and!; [done|done| |done|].
  - transitivity (length (missing_parts true 0 (parts r) (requested r))); [|by apply wf_window]. apply eq_subrelation; [apply _|].
    apply missing_length; [done|apply missing_NoDup|]. intros i. rewrite Hin, elem_of_missing. cbn [Nat.add]. split.
    + intros (_ & ? & ?). by exists i.
    + intros (k & -> & ? & Hq). split_and!; [by apply (wf_requested r Hr)|done..].
  - intros i. rewrite Hin. split; [tauto|]. intros Hq. destruct (wf_requested r Hr i Hq). tauto.
Qed.

(** Reduce the fields of a changed resource. *)
Ltac fields := cbn [store_part advertisement map_hashes known_hashes parts part_lengths requested received retries_used
  waiting assembled proof max_size].

(** What every operation keeps: the advertisement, the known hashes and the
    stored parts. *)
Record extends (r r' : rns_resource) : Prop := {
  ex_advertisement : r'.(advertisement) = r.(advertisement);
  ex_max_size : r'.(max_size) = r.(max_size);
  ex_known : (r.(known_hashes) <= r'.(known_hashes))%nat;
  ex_maps : take (r.(known_hashes) * 4) r'.(map_hashes) = take (r.(known_hashes) * 4) r.(map_hashes);
  ex_stored : forall i p, r.(parts) !! i = Some (Some p) -> r'.(parts) !! i = Some (Some p)
}.

#[global] Instance extends_refl : Reflexive extends.
Proof. intros r. constructor; (done || lia). Qed.

#[global] Instance extends_trans : Transitive extends.
Proof.
  intros a b c [A1 A2 A3 A4 A5] [B1 B2 B3 B4 B5]. constructor; [congruence|congruence|lia| |auto].
  rewrite <-A4. apply (f_equal (take (known_hashes a * 4))) in B4. rewrite !take_take in B4.
  by rewrite !Nat.min_l in B4 by lia.
Qed.

(** Changing the flags and the counters only. *)
Definition with_requested (qs : list bool) (w : bool) (n : nat) (r : rns_resource) : rns_resource :=
  {| r with requested := qs; waiting := w; retries_used := n |}.

Lemma with_requested_extends qs w n r : extends r (with_requested qs w n r).
Proof. by constructor. Qed.

Lemma wf_with_requested qs w n r :
  wf r -> length qs = total r -> (n <= RNS_RESOURCE_MAX_RETRIES)%nat ->
  (forall i, qs !! i = Some true -> (i < r.(known_hashes))%nat /\ r.(parts) !! i = Some None) ->
  (length (missing_parts true 0 r.(parts) qs) <= RNS_RESOURCE_WINDOW)%nat ->
  (w = true -> forall i, r.(parts) !! i = Some None -> (r.(known_hashes) <= i)%nat) ->
  wf (with_requested qs w n r).
Proof. intros [] Hl Hn Hq Hw Hwait. constructor; try done. cbn. destruct wf_arrays0 as (? & ? & ?). done. Qed.

(** The bytes of hash [i]. *)
Lemma map_hash_at r i : wf r -> (i < r.(known_hashes))%nat -> exists h, memread r.(map_hashes) (i * 4) 4 = Some h /\ length h = 4%nat.
Proof.
  intros Hr Hi. pose proof (wf_known r Hr). pose proof (wf_maps r Hr). rewrite memread_in by lia. eexists. split; [done|].
  rewrite length_take, length_drop. lia.
Qed.

Lemma map_hashes_at r l : wf r -> (forall i, i ∈ l -> (i < r.(known_hashes))%nat) ->
  exists hs, mapM (λ i, memread r.(map_hashes) (i * 4) 4) l = Some hs /\ length (concat hs) = (length l * 4)%nat /\
    Forall2 (λ i h, memread r.(map_hashes) (i * 4) 4 = Some h) l hs.
Proof.
  intros Hr. induction l as [|i l IH]; intros Hl; [by exists []|]. destruct (map_hash_at r i Hr) as (h & Hh & Hlen); [apply Hl; left|].
  destruct IH as (hs & Hm & Hc & HF); [intros; apply Hl; by right|]. exists (h :: hs). cbn. rewrite Hh. cbn. rewrite Hm. cbn.
  split_and!; [done|rewrite length_app; lia|by constructor].
Qed.

(** A request for the parts [l]. *)
Record asks_parts (r r' : rns_resource) (l : list nat) (hs : list (list Z)) : Prop := {
  ap_some : l <> [];
  ap_missing : forall i, i ∈ l -> (i < r.(known_hashes))%nat /\ r.(parts) !! i = Some None /\ r.(requested) !! i = Some false;
  ap_distinct : NoDup l;
  ap_hashes : Forall2 (λ i h, memread r.(map_hashes) (i * 4) 4 = Some h) l hs;
  ap_state : exists qs, r' = with_requested qs false r.(retries_used) r /\ length qs = total r /\
    forall j, qs !! j = if decide (j ∈ l) then Some true else r.(requested) !! j
}.

(** A request for the next page of hashes: every known part is there. *)
Record asks_page (r r' : rns_resource) (last again : list Z) : Prop := {
  ag_stored : forall i, (i < r.(known_hashes))%nat -> exists p, r.(parts) !! i = Some (Some p);
  ag_known : (r.(known_hashes) < total r)%nat;
  ag_last : memread r.(map_hashes) ((r.(known_hashes) - 1) * 4) 4 = Some last;
  ag_again : length again = (Nat.min r.(known_hashes) RNS_RESOURCE_WINDOW * 4)%nat /\
    memread r.(map_hashes) ((r.(known_hashes) - Nat.min r.(known_hashes) RNS_RESOURCE_WINDOW) * 4) (length again) = Some again;
  ag_state : r' = with_requested r.(requested) true r.(retries_used) r
}.

Definition request_outcome (r : rns_resource) (o : list Z) (capacity : nat) (x : request_result) : Prop :=
  let '(status, r', out, len) := x in
  (status <> RNS_OK /\ r' = r /\ out = Some o /\ len = None /\
   (rns_resource_parts_complete (Some r) = true \/ (exists i, r.(requested) !! i = Some true) \/ (capacity < 53)%nat)) \/
  (status = RNS_OK /\ exists o' l hs, asks_parts r r' l hs /\ out = Some o' /\ len = Some (33 + length l * 4)%nat /\
     (length l <= RNS_RESOURCE_WINDOW)%nat /\ wrote (length o) o' ([0x00] ++ r.(advertisement).(adv_hash) ++ concat hs)) \/
  (status = RNS_OK /\ exists o' last again, asks_page r r' last again /\ out = Some o' /\ len = Some (37 + length again)%nat /\
     wrote (length o) o' ([0xff] ++ last ++ r.(advertisement).(adv_hash) ++ again)).

Lemma asks_parts_wf r r' l hs n : wf r -> asks_parts r r' l hs -> length l = n ->
  (n + length (missing_parts true 0 r.(parts) r.(requested)) <= RNS_RESOURCE_WINDOW)%nat -> wf r'.
Proof.
  intros Hr [_ Hm Hnd _ (qs & -> & Hl & Hqs)] Hn Hw. apply wf_with_requested; [done|done|by apply wf_retries| | |done].
  - intros i. rewrite Hqs. destruct (decide (i ∈ l)) as [Hi|]; [|by apply wf_requested]. intros _. destruct (Hm i Hi) as (? & ? & _). done.
  - transitivity (length (l ++ missing_parts true 0 (parts r) (requested r))); [|rewrite length_app; lia]. apply eq_subrelation; [apply _|].
    apply missing_length; [apply missing_NoDup| |].
    + apply list.NoDup_app. split_and!; [done| |apply missing_NoDup]. intros i Hi (k & -> & _ & Hq)%elem_of_missing.
      destruct (Hm _ Hi) as (_ & _ & Hq'). cbn in Hq'. congruence.
    + intros i. rewrite elem_of_app, !elem_of_missing. cbn [Nat.add]. split.
      * intros (k & -> & Hp & Hq). rewrite Hqs in Hq. destruct (decide (k ∈ l)); [by left|right; by exists k].
      * intros [Hi|(k & -> & Hp & Hq)]; [exists i|exists k]; (split; [done|]).
        { destruct (Hm i Hi) as (_ & Hp & _). rewrite Hqs, decide_True by done. done. }
        { rewrite Hqs. by destruct (decide (k ∈ l)). }
Qed.

Lemma build_request_spec r o capacity :
  wf r -> (capacity <= length o)%nat ->
  exists x, rns_resource_build_request r (Some o) capacity = Some x /\ request_outcome r o capacity x /\ wf x.1.1.2 /\ extends r x.1.1.2.
Proof.
  intros Hr Hcap. unfold rns_resource_build_request. pose proof (wf_known r Hr) as Hk.
  assert (forall st, st <> RNS_OK -> (rns_resource_parts_complete (Some r) = true \/ (exists i, r.(requested) !! i = Some true) \/ (capacity < 53)%nat) ->
    exists x, Some (st, r, Some o, None) = Some x /\ request_outcome r o capacity x /\ wf x.1.1.2 /\ extends r x.1.1.2) as Hfail.
  { intros st Hst Hwhy. eexists. split; [done|]. split; [by left|]. done. }
  destruct (rns_resource_parts_complete (Some r)) eqn:Hcomp; [by apply Hfail; [|left]|].
  destruct (outstanding_spec r Hr) as (out & _ & Hout & Hwin & Hnd & Hoin). rewrite Hout. cbn [mbind option_bind].
  destruct (missing_known_spec false r Hr) as (free & Hfree & Hfnd & Hfin). rewrite Hfree. cbn [mbind option_bind].
  assert (length out = length (missing_parts true 0 (parts r) (requested r))) as Eout.
  { apply missing_length; [done|apply missing_NoDup|]. intros i. rewrite Hoin, elem_of_missing. cbn [Nat.add]. split.
    - intros Hq. exists i. split; [done|]. split; [|done]. by apply (wf_requested r Hr).
    - by intros (k & -> & _ & ?). }
  unfold RNS_RESOURCE_WINDOW in *. set (avail := (if (length out <? 4)%nat then _ else _)).
  assert (avail = 4 - length out)%nat as Eav by (unfold avail; destruct (Nat.ltb_spec (length out) 4); lia). rewrite Eav. clear avail Eav.
  set (l := take (4 - length out) free). assert (length l <= 4)%nat as Hl4 by (unfold l; rewrite length_take; lia).
  destruct (Nat.eqb_spec (length l) 0) as [Hl0|Hl0]; cbn [negb].
  - destruct (Nat.eqb_spec (length out) 0) as [Ho0|Ho0]; cbn [negb].
    2:{ apply Hfail; [done|]. right. left. destruct out as [|i out']; [done|]. exists i. apply Hoin. left. }
    assert (free = []) as ->. { destruct free; [done|]. unfold l in Hl0. rewrite Ho0 in Hl0. done. }
    assert (forall i, (i < known_hashes r)%nat -> exists p, parts r !! i = Some (Some p)) as Hall.
    { intros i Hi. destruct (wf_arrays r Hr) as (Hp & _ & Hq). destruct (lookup_lt_is_Some_2 (parts r) i) as [[p|] Hpi]; [lia|by exists p|].
      destruct (lookup_lt_is_Some_2 (requested r) i) as [[] Hqi]; [lia| |].
      - assert (i ∈ out) as Hin by (by apply Hoin). destruct out; [by apply elem_of_nil in Hin|done].
      - assert (i ∈ @nil nat) as Hin by (by apply Hfin). by apply elem_of_nil in Hin. }
    destruct (Z.leb_spec (adv_parts (advertisement r)) (Z.of_nat (known_hashes r))) as [Hle|Hlt].
    { exfalso. apply not_true_iff_false in Hcomp. apply Hcomp. cbn. apply Z.eqb_eq. rewrite (wf_received r Hr).
      assert (stored_count (parts r) = length (parts r)) as ->.
      { apply stored_count_full. intros i Hi. apply Hall. destruct (wf_arrays r Hr) as [Hp _]. unfold total in *. lia. }
      destruct (wf_arrays r Hr) as [-> _]. pose proof (wf_parts r Hr). unfold total. lia. }
    assert ((if (known_hashes r <? 4)%nat then known_hashes r else 4%nat) = Nat.min (known_hashes r) 4) as ->
      by (destruct (Nat.ltb_spec (known_hashes r) 4); lia).
    set (rp := Nat.min (known_hashes r) 4). assert (1 <= rp <= 4)%nat as Hrp by lia.
    destruct (Nat.ltb_spec capacity (1 + 4 + 32 + rp * 4)) as [Hc|Hc]; [apply Hfail; [done|right; right; lia]|].
    rewrite decide_False by lia. destruct (map_hash_at r (known_hashes r - 1) Hr) as (last & Hlast & Hl4'); [lia|]. rewrite Hlast. cbn [mbind option_bind].
    pose proof (wf_maps r Hr) as Hmaps. destruct (wf_hashes r Hr) as [Hhash _].
    rewrite memread_in by lia. cbn [mbind option_bind]. set (again := take _ _).
    assert (length again = rp * 4)%nat as Hag by (unfold again; rewrite length_take, length_drop; lia).
    destruct (put_all_wrote (length o) [[0xff]; last; adv_hash (advertisement r); again] o []) as (o' & Hp & Hw).
    { by apply wrote_nil. }
    { cbn [concat]. rewrite !length_app. cbn [length]. lia. }
    cbn [length Nat.add] in Hp. rewrite Hp. cbn [mbind option_bind fst snd]. eexists. split; [done|]. cbn [fst snd].
    assert (wf (with_requested (requested r) true (retries_used r) r)) as Hwf'.
    { destruct (wf_arrays r Hr) as (_ & _ & ?). apply wf_with_requested; [done|done|by apply wf_retries|by apply wf_requested|by apply wf_window|].
      intros _ i Hi. destruct (decide (i < known_hashes r)%nat) as [Hik|]; [|lia]. destruct (Hall i Hik). congruence. }
    split; [|split; [exact Hwf'|apply with_requested_extends]]. right. right. split; [done|]. exists o', last, again. split.
    + constructor; try done; [unfold total; lia|]. split; [done|]. rewrite Hag. unfold RNS_RESOURCE_WINDOW, rp. rewrite memread_in by lia. unfold again, rp. done.
    + cbn [concat] in Hw. rewrite app_nil_r in Hw. split_and!; [done|f_equal; lia|done].
  - destruct (Nat.ltb_spec capacity (1 + 32 + length l * 4)) as [Hc|Hc]; [apply Hfail; [done|right; right; lia]|].
    assert (forall i, i ∈ l -> (i < known_hashes r)%nat /\ parts r !! i = Some None /\ requested r !! i = Some false) as Hlin.
    { intros i Hi. apply Hfin. unfold l in Hi. apply elem_of_take in Hi as (k & Hk' & _). by eapply list_elem_of_lookup_2. }
    assert (NoDup l) as Hlnd by (unfold l; by eapply sublist_NoDup, sublist_take).
    destruct (map_hashes_at r l Hr) as (hs & Hm & Hc4 & HF); [intros i Hi; by apply Hlin|]. rewrite Hm. cbn [mbind option_bind].
    destruct (wf_hashes r Hr) as [Hhash _]. destruct (wf_arrays r Hr) as (_ & _ & Hqn).
    destruct (put_all_wrote (length o) ([0x00] :: adv_hash (advertisement r) :: hs) o []) as (o' & Hp & Hw).
    { by apply wrote_nil. }
    { cbn [concat]. rewrite !length_app. cbn [length]. lia. }
    cbn [length Nat.add] in Hp. rewrite Hp. cbn [mbind option_bind fst snd].
    destruct (set_requested_spec true l (requested r)) as (qs & -> & Hql & Hqs). { intros i Hi. destruct (Hlin i Hi) as (_ & _ & ?). by eapply lookup_lt_Some. }
    cbn [mbind option_bind]. eexists. split; [done|]. cbn [fst snd].
    assert (asks_parts r (with_requested qs false (retries_used r) r) l hs) as Hask.
    { constructor; try done; [by destruct l|]. exists qs. split_and!; [done|lia|done]. }
    split; [|split; [|apply with_requested_extends]].
    + right. left. split; [done|]. exists o', l, hs. split; [exact Hask|]. split_and!; [done|done|done|exact Hw].
    + eapply asks_parts_wf; [done|exact Hask|done|]. unfold l. rewrite length_take. unfold RNS_RESOURCE_WINDOW. lia.
Qed.

(** Withdrawing every request. *)
Lemma withdraw_requests r :
  wf r -> exists l qs, missing_known true r = Some l /\ rns_resource_outstanding_parts (Some r) = Some (length l) /\
    (length l <= RNS_RESOURCE_WINDOW)%nat /\
    set_requested false l r.(requested) = Some qs /\ set_requested true l qs = Some r.(requested) /\
    (forall j, qs !! j <> Some true) /\ wf (with_requested qs r.(waiting) r.(retries_used) r).
Proof.
  intros Hr. destruct (outstanding_spec r Hr) as (l & Hl & Hout & Hwin & Hnd & Hin).
  assert (forall i, i ∈ l -> (i < length (requested r))%nat) as Hlt by (intros i Hi%Hin; by eapply lookup_lt_Some).
  destruct (set_requested_spec false l (requested r) Hlt) as (qs & Hqs & Hlen & Hj).
  destruct (set_requested_spec true l qs) as (qs2 & Hqs2 & Hlen2 & Hj2); [by rewrite Hlen|].
  assert (forall j, qs !! j <> Some true) as Hnone.
  { intros j. rewrite Hj. destruct (decide (j ∈ l)) as [|Hn]; [done|]. intros E. apply Hn. by apply Hin. }
  exists l, qs. split_and!; try done.
  - rewrite Hqs2. f_equal. apply list_eq. intros j. rewrite Hj2, Hj. destruct (decide (j ∈ l)) as [Hi|]; [|done]. symmetry. by apply Hin.
  - destruct (wf_arrays r Hr) as (_ & _ & Hq). apply wf_with_requested; [done|congruence|by apply wf_retries| | |by apply wf_waiting].
    + intros i Hi. by destruct (Hnone i).
    + assert (missing_parts true 0 (parts r) qs = []) as ->; [|cbn; lia]. apply elem_of_nil_inv. intros x (k & _ & _ & Hk)%elem_of_missing.
      by destruct (Hnone k).
Qed.

(** A retry that fails changes nothing; one that succeeds asks again as if
    nothing had been asked. *)
Lemma build_retry_request_spec r o capacity :
  wf r -> (capacity <= length o)%nat ->
  exists x, rns_resource_build_retry_request r (Some o) capacity = Some x /\ wf x.1.1.2 /\ extends r x.1.1.2 /\
    (x.1.1.1 <> RNS_OK -> x.1.1.2 = r) /\
    (r.(retries_used) = RNS_RESOURCE_MAX_RETRIES -> x.1.1.1 = RNS_ERROR_TIMEOUT) /\
    (x.1.1.1 = RNS_OK -> x.1.1.2.(retries_used) = S r.(retries_used) /\ x.1.1.2.(known_hashes) = r.(known_hashes) /\ x.1.1.2.(parts) = r.(parts)).
Proof.
  intros Hr Hcap. unfold rns_resource_build_retry_request. pose proof (wf_retries r Hr) as Hre.
  destruct (Nat.leb_spec RNS_RESOURCE_MAX_RETRIES (retries_used r)) as [|Hlt]; [by eexists|].
  destruct (withdraw_requests r Hr) as (l & qs & Hl & Hout & Hwin & Hclear & Hback & Hnone & Hwf). rewrite Hout. cbn [mbind option_bind].
  rewrite (proj2 (Nat.ltb_ge _ _)) by done. rewrite Hl. cbn [mbind option_bind]. rewrite (take_ge l) by done. rewrite Hclear. cbn [mbind option_bind].
  change {| r with requested := qs |} with (with_requested qs r.(waiting) r.(retries_used) r) in *. set (r0 := with_requested qs _ _ r) in *.
  destruct (build_request_spec r0 o capacity Hwf Hcap) as ([[[status r'] out] len] & -> & Ho & Hwf' & Hex). cbn [mbind option_bind fst snd] in *.
  destruct Ho as [(Hst & -> & -> & -> & _)|Ho].
  - rewrite (proj2 (negb_true_iff _)) by (by destruct status). cbn [mbind option_bind]. change (requested r0) with qs. rewrite Hback.
    cbn [mbind option_bind]. eexists. split; [done|]. cbn [fst snd].
    match goal with |- wf ?y /\ _ => replace y with r by (by destruct r) end. split_and!; try done. intros E. lia.
  - assert (status = RNS_OK) as -> by tauto. cbn [is_ok negb]. eexists. split; [done|]. cbn [fst snd].
    assert (parts r' = parts r /\ known_hashes r' = known_hashes r /\ retries_used r' = retries_used r) as (Ep & Ek & Er).
    { destruct Ho as [(_ & o' & l' & hs & [_ _ _ _ (q & -> & _)] & _)|(_ & o' & a & b & [_ _ _ _ ->] & _)]; done. }
    split_and!; [|by etrans; [apply with_requested_extends|by etrans; [exact Hex|by constructor]]|done|lia|rewrite Er; done..].
    change (wf (with_requested r'.(requested) r'.(waiting) (S r'.(retries_used)) r')). destruct (wf_arrays r' Hwf') as (_ & _ & Hq).
    apply wf_with_requested; [done|done|lia|by apply wf_requested|by apply wf_window|by apply wf_waiting].
Qed.

(** *** Updates of the hashes *)

Lemma mp_uint_nonneg reader v rest : bytes_ok reader -> mp_uint reader = Some (v, rest) -> 0 <= v.
Proof.
  unfold mp_uint. destruct reader as [|tag reader]; [done|]. intros [Ht _]%Forall_cons_1. cbn [mp_byte mbind option_bind].
  destruct (tag <=? 0x7f); [intros [= <- _]; by apply Ht|]. destruct (uint_width tag) as [w|]; [|done]. cbn [mbind option_bind].
  destruct (mp_take reader w) as [[d rest']|]; [|done]. cbn. intros [= <- _]. clear. unfold shift_bytes.
  induction d as [|b d _] using rev_ind; [done|]. rewrite foldl_app. cbn [foldl]. apply wrap_in_width. lia.
Qed.

Lemma mul_size_spec a b c : 0 <= a -> 0 < b -> mul_size a b = Some c -> c = a * b /\ c <= SIZE_MAX.
Proof.
  unfold mul_size. intros Ha Hb. destruct (Z.eqb_spec a 0) as [->|Hne]; cbn [negb andb].
  - rewrite wrap_small by (unfold in_width; lia). intros [= <-]. limits. lia.
  - destruct (Z.ltb_spec (SIZE_MAX / a) b) as [|Hle]; [done|]. intros [= <-].
    assert (a * b <= SIZE_MAX). { pose proof (Z.mul_div_le SIZE_MAX a ltac:(lia)). nia. }
    rewrite wrap_small; [done|]. unfold in_width. limits. nia.
Qed.

(** The page of an update that is taken. *)
Record page_taken (r r' : rns_resource) (page : Z) (map : list Z) : Prop := {
  pt_waiting : r.(waiting) = true;
  pt_page : page * 74 = Z.of_nat r.(known_hashes);
  pt_length : Z.of_nat (length map) = Z.min (r.(advertisement).(adv_parts) - page * 74) 74 * 4;
  pt_more : (r.(known_hashes) < total r)%nat;
  pt_state : exists maps, memcpy r.(map_hashes) (r.(known_hashes) * 4) map = Some maps /\
    r' = {| r with map_hashes := maps; known_hashes := (r.(known_hashes) + length map / 4)%nat; waiting := false; retries_used := 0%nat |}
}.

Lemma page_taken_wf r r' page map : wf r -> page_taken r r' page map -> wf r' /\ extends r r'.
Proof.
  intros Hr [Hwait Hpage Hlen Hmore (maps & Hmaps & ->)]. pose proof (wf_maps r Hr) as Hml. pose proof (wf_known r Hr) as Hk.
  pose proof (wf_parts r Hr) as Hp. assert (total r = Z.to_nat (adv_parts (advertisement r))) as Htot by done.
  set (n := (length map / 4)%nat). assert (length map = n * 4)%nat as En.
  { unfold n. pose proof (Nat.div_mod_eq (length map) 4). assert (length map mod 4 = 0)%nat; [|lia].
    apply Nat2Z.inj. rewrite Nat2Z.inj_mod, Hlen. change (Z.of_nat 4) with 4. by rewrite Z.mod_mul. }
  assert (Z.of_nat n = Z.min (adv_parts (advertisement r) - page * 74) 74) as Hn by lia.
  unfold memcpy in Hmaps. destruct (decide _) as [Hfit|]; [|done]. injection Hmaps as <-. split.
  - destruct Hr as [? _ Ha _ _ Hst Hrq Hrc Hw _ Hwt Hh Hm].
    constructor; unfold total in *; fields; fold n; try done.
    + rewrite !length_app, length_take, length_drop. lia.
    + lia.
    + destruct (Z.le_gt_cases (adv_parts (advertisement r) - page * 74) 74); [left; lia|right]. rewrite Nat2Z.inj_add.
      replace (Z.of_nat n) with 74 by lia. rewrite <-Hpage. replace (page * 74 + 74) with ((page + 1) * 74) by lia. by apply Z.mod_mul.
    + intros i p Hi. destruct (Hst i p Hi) as (? & ? & ?). split; [lia|done].
    + intros i Hi. destruct (Hrq i Hi). split; [lia|done].
    + lia.
  - constructor; fields; try done; [lia|]. rewrite take_app_le by (rewrite length_take; lia). by rewrite take_take, Nat.min_id.
Qed.

(** The outcome of an update that parses. *)
Lemma apply_parsed r u page map :
  wf r -> parse_hashmap_update u r.(advertisement).(adv_hash) = Some (inr (page, map)) -> 0 <= page ->
  exists status r', rns_resource_apply_hashmap_update r u = Some (status, r') /\
    ((r' = r /\ ~ (r.(waiting) = true /\ page * 74 = Z.of_nat r.(known_hashes) /\ page * 74 < r.(advertisement).(adv_parts) /\
        Z.of_nat (length map) = Z.min (r.(advertisement).(adv_parts) - page * 74) 74 * 4)) \/
     (status = RNS_OK /\ page_taken r r' page map)).
Proof.
  intros Hr Hparse Hpg. unfold rns_resource_apply_hashmap_update. rewrite Hparse. cbn [mbind option_bind].
  pose proof (wf_parts r Hr) as Hp. pose proof (wf_maps r Hr) as Hml. pose proof (wf_known r Hr) as Hk. unfold total in *.
  set (P := adv_parts (advertisement r)) in *.
  destruct (mul_size page _) as [start|] eqn:Hmul.
  2:{ eexists _, _. split; [done|]. left. split; [done|]. intros (_ & He & Hl & _). unfold mul_size, RNS_RESOURCE_HASHMAP_MAX_ENTRIES in Hmul.
      destruct (Z.eqb_spec page 0); [done|]. cbn [negb andb] in Hmul. destruct (Z.ltb_spec (SIZE_MAX / page) 74) as [Hd|]; [|done].
      unfold RNS_RESOURCE_MAX_PARTS in Hp. assert (74 <= SIZE_MAX / page); [|lia]. apply Z.div_le_lower_bound; limits; lia. }
  unfold RNS_RESOURCE_HASHMAP_MAX_ENTRIES in *. apply mul_size_spec in Hmul as [-> Hmax]; [|lia..].
  destruct (Z.leb_spec P (page * 74)). { eexists _, _. split; [done|]. left. split; [done|]. intros (_ & _ & ? & _). lia. }
  assert ((if 74 <? P - page * 74 then 74 else P - page * 74) = Z.min (P - page * 74) 74) as -> by (destruct (Z.ltb_spec 74 (P - page * 74)); lia).
  destruct (_ || _) eqn:Hg.
  { eexists _, _. split; [done|]. left. split; [done|]. intros (_ & _ & _ & Hl). apply orb_true_iff in Hg as [Hg%Nat.eqb_eq|Hg%negb_true_iff%Z.eqb_neq]; lia. }
  apply orb_false_iff in Hg as [_ Hg%negb_false_iff%Z.eqb_eq].
  destruct (Z.ltb_spec (page * 74) (Z.of_nat (known_hashes r))).
  - destruct (Z.leb_spec (page * 74 + Z.min (P - page * 74) 74) (Z.of_nat (known_hashes r))).
    + rewrite memread_in by lia. cbn [mbind option_bind]. eexists _, _. split; [done|]. left. split; [done|]. intros (_ & ? & _). lia.
    + eexists _, _. split; [done|]. left. split; [done|]. intros (_ & ? & _). lia.
  - destruct (_ || _) eqn:Hg2.
    { eexists _, _. split; [done|]. left. split; [done|]. intros (Hw & He & _). rewrite Hw, He, Z.eqb_refl in Hg2. done. }
    apply orb_false_iff in Hg2 as [Hwait%negb_false_iff Hst%negb_false_iff%Z.eqb_eq].
    replace (Z.to_nat (page * 74)) with (known_hashes r) by lia. unfold memcpy. rewrite decide_True by lia. cbn [mbind option_bind].
    assert (Z.to_nat (Z.min (P - page * 74) 74) = length map / 4)%nat as ->.
    { replace (length map) with (Z.to_nat (Z.min (P - page * 74) 74) * 4)%nat by lia. by rewrite Nat.div_mul. }
    eexists _, _. split; [done|]. right. split; [done|]. constructor; [done|done|done|unfold total; lia|].
    eexists. split; [|done]. unfold memcpy. by rewrite decide_True by lia.
Qed.

Lemma parse_hashmap_update_cases u hash :
  bytes_ok u -> (exists status, parse_hashmap_update (SBytes u) hash = Some (inl status)) \/
    (exists page map, parse_hashmap_update (SBytes u) hash = Some (inr (page, map)) /\ 0 <= page).
Proof.
  intros Hu. unfold parse_hashmap_update. destruct (Nat.ltb_spec (length u) 35) as [|Hl]; [left; by eexists|]. rewrite memread_in by lia.
  cbn [mbind option_bind]. destruct (negb (memeq _ _)); [left; by eexists|]. assert (bytes_ok (drop 32 u)) as Hd by (by apply Forall_drop).
  destruct (drop 32 u) as [|tag reader]; [left; by eexists|]. apply Forall_cons_1 in Hd as [_ Hd]. cbn [mp_byte].
  destruct (negb (tag =? 0x92)); [left; by eexists|]. destruct (mp_uint reader) as [[page reader2]|] eqn:Hpg; [|left; by eexists].
  apply mp_uint_nonneg in Hpg; [|done]. destruct (SIZE_MAX <? page); [left; by eexists|].
  destruct (mp_bin reader2) as [[map [|]]|]; [right; by exists page, map|left; by eexists..].
Qed.

Lemma apply_hashmap_update_spec r u :
  wf r -> bytes_ok u ->
  exists status r', rns_resource_apply_hashmap_update r (SBytes u) = Some (status, r') /\ wf r' /\ extends r r'.
Proof.
  intros Hr Hu. destruct (parse_hashmap_update_cases u r.(advertisement).(adv_hash) Hu) as [(st & Hp)|(page & map & Hp & Hpg)].
  - unfold rns_resource_apply_hashmap_update. rewrite Hp. by eexists _, _.
  - destruct (apply_parsed r _ page map Hr Hp Hpg) as (st & r' & -> & [[-> _]|[_ Ht]]); eexists _, _; (split; [done|]); [done|].
    by apply (page_taken_wf r r' page map).
Qed.

(** *** Parts *)

Lemma find_map_hash_spec maps wanted n i :
  ((i + n) * 4 <= length maps)%nat ->
  exists res, find_map_hash maps wanted n i = Some res /\
    match res with
    | None => forall j, (i <= j < i + n)%nat -> memread maps (j * 4) 4 <> Some wanted
    | Some k => (i <= k < i + n)%nat /\ memread maps (k * 4) 4 = Some wanted /\
                forall j, (i <= j < k)%nat -> memread maps (j * 4) 4 <> Some wanted
    end.
Proof.
  revert i. induction n as [|n IH]; intros i Hl; cbn [find_map_hash]. { eexists. split; [done|]. intros j Hj. lia. }
  destruct (memread maps (i * 4) 4) as [h|] eqn:Hh; [|rewrite memread_in in Hh by lia; done]. cbn [mbind option_bind].
  destruct (memeq h wanted) eqn:E.
  - apply memeq_true in E as ->. eexists. split; [done|]. split_and!; [lia|lia|done|]. intros j Hj. lia.
  - apply memeq_false in E. destruct (IH (S i)) as (res & -> & Hres); [lia|]. eexists. split; [done|].
    destruct res as [k|]; [destruct Hres as (? & ? & Hmin); split_and!; [lia|lia|done|]|]; intros j Hj;
      (destruct (decide (j = i)) as [->|]; [congruence|]); [apply Hmin|apply Hres]; lia.
Qed.

Lemma store_part_wf r i p :
  wf r -> (i < r.(known_hashes))%nat -> r.(parts) !! i = Some None -> 1 <= Z.of_nat (length p) <= RNS_RESOURCE_PART_MAX ->
  wf (store_part r i p) /\ extends r (store_part r i p).
Proof.
  intros Hr Hi Hp Hl. pose proof (lookup_lt_Some _ _ _ Hp) as Hlt. pose proof Hr as [? Hm (A1 & A2 & A3) ? ? Hst Hrq Hrc Hw ? Hwt Hh Hmx]. split.
  - constructor; unfold total; fields; try done.
    + by rewrite !length_insert.
    + intros j q. destruct (decide (j = i)) as [->|Hne].
      * rewrite list_lookup_insert_eq by done. intros [= <-]. rewrite list_lookup_insert_eq by lia. done.
      * rewrite !list_lookup_insert_ne by done. apply Hst.
    + intros j. destruct (decide (j = i)) as [->|Hne].
      * rewrite list_lookup_insert_eq by lia. done.
      * rewrite !list_lookup_insert_ne by done. apply Hrq.
    + by rewrite stored_count_insert, Hrc.
    + etrans; [|exact Hw]. apply submseteq_length, NoDup_submseteq; [apply missing_NoDup|].
      intros j (k & -> & Hk & Hq)%elem_of_missing. apply elem_of_missing. exists k. split; [done|]. destruct (decide (k = i)) as [->|Hne].
      * by rewrite list_lookup_insert_eq in Hk by done.
      * rewrite list_lookup_insert_ne in Hk by done. rewrite list_lookup_insert_ne in Hq by done. done.
    + unfold RNS_RESOURCE_MAX_RETRIES. lia.
    + intros Hwait j. destruct (decide (j = i)) as [->|Hne]; [by rewrite list_lookup_insert_eq by done|].
      rewrite list_lookup_insert_ne by done. by apply Hwt.
  - constructor; fields; try done. intros j q Hj. destruct (decide (j = i)) as [->|Hne]; [congruence|]. by rewrite list_lookup_insert_ne.
Qed.

Section Receiving.
Context `{Crypto}.
Variable malloc_ok : nat -> bool.

(** The part [p] belongs at index [i]: its salted hash starts with hash [i]. *)
Definition belongs (r : rns_resource) (i : nat) (p : list Z) : Prop :=
  exists d, rns_sha256 (p ++ r.(advertisement).(adv_random_hash)) = Some d /\ memread r.(map_hashes) (i * 4) 4 = Some (take 4 d).

Lemma receive_part_spec r p :
  wf r ->
  exists status r', rns_resource_receive_part malloc_ok r (SBytes p) = Some (status, r') /\ wf r' /\ extends r r' /\
    (status <> RNS_OK -> r' = r) /\
    (r' = r \/ exists i, (i < r.(known_hashes))%nat /\ r.(parts) !! i = Some None /\ belongs r i p /\ r' = store_part r i p).
Proof.
  intros Hr. assert (forall st, exists status r', Some (st, r) = Some (status, r') /\ wf r' /\ extends r r' /\ (status <> RNS_OK -> r' = r) /\
    (r' = r \/ exists i, (i < r.(known_hashes))%nat /\ r.(parts) !! i = Some None /\ belongs r i p /\ r' = store_part r i p)) as Hsame.
  { intros st. exists st, r. split_and!; try done. by left. }
  unfold rns_resource_receive_part. destruct p as [|b p']; [apply Hsame|]. set (p := b :: p') in *.
  destruct (Z.ltb_spec RNS_RESOURCE_PART_MAX (Z.of_nat (length p))) as [|Hlen]; [apply Hsame|].
  destruct (hash_part malloc_ok p _) as [st|d] eqn:Hd; [apply Hsame|].
  assert (rns_sha256 (p ++ adv_random_hash (advertisement r)) = Some d) as Hsha.
  { revert Hd. unfold hash_part. destruct (add_size _ _); [|done]. destruct (negb _); [done|]. destruct (rns_sha256 _); [by intros [= ->]|done]. }
  pose proof (wf_known r Hr) as Hk. pose proof (wf_maps r Hr) as Hm. destruct (wf_arrays r Hr) as (A1 & A2 & A3).
  destruct (find_map_hash_spec (map_hashes r) (take 4 d) (known_hashes r) 0) as (res & -> & Hres); [lia|]. cbn [mbind option_bind].
  destruct res as [i|]; [|apply Hsame]. destruct Hres as (Hi & Hh & _). destruct (lookup_lt_is_Some_2 (parts r) i) as [q Hq]; [lia|].
  rewrite Hq. cbn [mbind option_bind]. destruct q as [q|].
  - destruct (lookup_lt_is_Some_2 (part_lengths r) i) as [n Hn]; [lia|]. rewrite Hn. cbn [mbind option_bind]. apply Hsame.
  - destruct (negb _); [apply Hsame|]. rewrite decide_True by lia. eexists _, _. split; [done|].
    destruct (store_part_wf r i p Hr) as [Hwf Hex]; [lia|done|unfold p in *; cbn [length] in *; lia|].
    split_and!; [done|done|done|]. right. exists i. split_and!; [lia|done|by exists d|done].
Qed.
End Receiving.

(** *** Accepting an advertisement *)

Lemma set_uint_field_hashes key v a a' :
  set_uint_field key v a = Some a' ->
  a'.(adv_hash) = a.(adv_hash) /\ a'.(adv_random_hash) = a.(adv_random_hash).
Proof. unfold set_uint_field. intros E. repeat (case_match; simplify_eq; try done). Qed.

Lemma parse_value_hashes key a a' reader rest :
  parse_value key a reader = Some (a', rest) ->
  (length a.(adv_hash) = 32 /\ length a.(adv_random_hash) = 4)%nat -> (length a'.(adv_hash) = 32 /\ length a'.(adv_random_hash) = 4)%nat.
Proof.
  unfold parse_value. destruct (is_uint_key key).
  - destruct (mp_uint reader) as [[v r]|]; [|done]. cbn [mbind option_bind fst snd]. destruct (uint_to_size v); [|done]. cbn [mbind option_bind].
    destruct (set_uint_field key _ a) as [a2|] eqn:E; [|done]. cbn. intros [= <- <-]. by apply set_uint_field_hashes in E as [-> ->].
  - destruct (key =? 113).
    + destruct reader as [|b r]; [done|]. destruct (b =? 0xc0); [by intros [= <- <-]|].
      destruct (mp_bin _) as [[v r']|]; [|done]. cbn [mbind option_bind fst snd]. destruct (negb _); [done|]. by intros [= <- <-].
    + destruct (mp_bin reader) as [[v r']|]; [|done]. cbn [mbind option_bind fst snd]. unfold set_bin_field.
      destruct (key =? 104); [destruct (Nat.eqb_spec (length v) 32); [|done]; cbn; intros [= <- <-]; cbn; tauto|].
      destruct (key =? 114); [destruct (Nat.eqb_spec (length v) 4); [|done]; cbn; intros [= <- <-]; cbn; tauto|].
      destruct (key =? 111); [destruct (Nat.eqb_spec (length v) 32); [|done]; cbn; intros [= <- <-]; cbn; tauto|].
      cbn. intros [= <- <-]. done.
Qed.

Lemma parse_fields_hashes n seen a reader seen' a' rest :
  parse_fields n seen a reader = Some (seen', a', rest) ->
  (length a.(adv_hash) = 32 /\ length a.(adv_random_hash) = 4)%nat -> (length a'.(adv_hash) = 32 /\ length a'.(adv_random_hash) = 4)%nat.
Proof.
  revert seen a reader. induction n as [|n IH]; intros seen a reader; cbn [parse_fields]; [by intros [= <- <- <-]|].
  destruct (mp_key reader) as [[k r]|]; [|done]. cbn [mbind option_bind fst snd]. destruct (key_bit k); [|done]. cbn [mbind option_bind].
  destruct (negb _); [done|]. destruct (parse_value k a r) as [[a2 r2]|] eqn:E; [|done]. cbn [mbind option_bind fst snd].
  intros Hp Ha. eapply IH; [exact Hp|]. by eapply parse_value_hashes.
Qed.

Lemma parsed_advertisement data a :
  rns_resource_advertisement_parse data = inr a ->
  validate_advertisement a = RNS_OK /\ length a.(adv_hash) = 32%nat /\ length a.(adv_random_hash) = 4%nat /\ set_flag_fields a = a.
Proof.
  unfold rns_resource_advertisement_parse. destruct data as [|[|tag reader]]; try done. destruct (negb (tag =? 0x8b)); [done|].
  destruct (parse_fields 11 0 zero_advertisement reader) as [[[seen a0] [|]]|] eqn:E; try done. destruct (negb (seen =? 0x7ff)); [done|].
  destruct (validate_advertisement (set_flag_fields a0)) eqn:Hv; try done. cbn. intros [= <-].
  apply parse_fields_hashes in E as [E1 E2]; [|done]. split_and!; [done|exact E1|exact E2|reflexivity].
Qed.

(** What a validated advertisement says. *)
Lemma validated_bounds a :
  validate_advertisement a = RNS_OK ->
  1 <= Z.abs a.(adv_parts) /\ a.(adv_parts) <= RNS_RESOURCE_MAX_PARTS /\ a.(adv_data_size) <= RNS_RESOURCE_MAX_SIZE /\
  (exists m, a.(adv_hashmap) = SBytes m /\ Z.of_nat (length m) = Z.min a.(adv_parts) RNS_RESOURCE_HASHMAP_MAX_ENTRIES * 4).
Proof.
  unfold validate_advertisement. destruct (_ || _) eqn:G; [done|]. intros _.
  repeat (apply orb_false_iff in G as [G ?]). destruct (adv_hashmap a) as [k|m]; [done|]. cbn [slice_length] in *.
  apply Z.eqb_neq in G. repeat match goal with H : (_ <? _) = false |- _ => apply Z.ltb_ge in H end.
  match goal with H : negb (Z.of_nat _ =? _ * 4) = false |- _ => apply negb_false_iff, Z.eqb_eq in H; rename H into Hm end.
  split_and!; [lia|done|done|]. exists m. split; [done|]. rewrite Hm. unfold RNS_RESOURCE_HASHMAP_MAX_ENTRIES.
  destruct (Z.ltb_spec (adv_parts a) 74); lia.
Qed.

Lemma accept_spec object_ok arrays_ok a maximum :
  set_flag_fields a = a -> validate_advertisement a = RNS_OK -> length a.(adv_hash) = 32%nat -> length a.(adv_random_hash) = 4%nat ->
  exists res, rns_resource_accept object_ok arrays_ok a maximum = Some res /\
    forall r, res = inr r -> wf r /\ exists tail, r = accepted_resource a (slice_bytes a.(adv_hashmap) ++ tail) r.(max_size).
Proof.
  intros Hflags Hv Hh Hr. destruct (validated_bounds a Hv) as (Hp & Hpm & Hdm & m & Em & Hm). unfold rns_resource_accept. rewrite Em, Hv.
  cbn [slice_is_null is_ok negb slice_bytes]. rewrite (proj2 (Z.ltb_ge _ _)) by done.
  set (mx := if maximum =? 0 then _ else _). set (mx2 := if RNS_RESOURCE_MAX_SIZE <? mx then _ else _).
  assert (mx2 <= RNS_RESOURCE_MAX_SIZE) as Hmx by (unfold mx2; destruct (Z.ltb_spec RNS_RESOURCE_MAX_SIZE mx); lia).
  destruct (Z.ltb_spec mx2 (adv_data_size a)); [by eexists|]. destruct object_ok; cbn [negb]; [|by eexists].
  assert (1 <= adv_parts a) as Hp1 by (unfold RNS_RESOURCE_HASHMAP_MAX_ENTRIES in Hm; lia). unfold RNS_RESOURCE_MAX_PARTS in Hpm.
  destruct (mul_size (adv_parts a) 4) as [mb|] eqn:Hmul; [|by eexists]. apply mul_size_spec in Hmul as [-> _]; [|lia..].
  destruct arrays_ok; cbn [negb]; [|by eexists]. unfold memcpy. cbn [Nat.add take app].
  unfold RNS_RESOURCE_HASHMAP_MAX_ENTRIES in Hm. rewrite decide_True by (rewrite length_replicate; lia). cbn [mbind option_bind]. eexists. split; [done|].
  intros r [= <-]. set (tail := drop _ _). split; [|by exists tail].
  assert (length m = Z.to_nat (Z.min (adv_parts a) 74) * 4)%nat as Hml by lia.
  unfold accepted_resource. rewrite Hflags. constructor; unfold total; cbn [advertisement map_hashes known_hashes parts part_lengths requested
    received retries_used waiting max_size adv_parts adv_hash adv_random_hash adv_data_size slice_length] in *; rewrite ?Em, ?Hml; cbn [slice_length];
    rewrite ?Hml, ?Nat.div_mul by done.
  - unfold RNS_RESOURCE_MAX_PARTS. lia.
  - unfold tail. rewrite length_app, length_drop, length_replicate. lia.
  - by rewrite !length_replicate.
  - lia.
  - destruct (Z.le_gt_cases (adv_parts a) 74); [left; lia|right]. rewrite Z.min_r by lia. done.
  - by intros i p [? _]%lookup_replicate.
  - by intros i [? _]%lookup_replicate.
  - unfold stored_count. induction (Z.to_nat (adv_parts a)); [done|cbn; done].
  - assert (missing_parts true 0 (replicate (Z.to_nat (adv_parts a)) None) (replicate (Z.to_nat (adv_parts a)) false) = []) as ->; [|cbn; lia].
    apply elem_of_nil_inv. by intros x (k & _ & _ & [? _]%lookup_replicate)%elem_of_missing.
  - unfold RNS_RESOURCE_MAX_RETRIES. lia.
  - done.
  - done.
  - done.
Qed.

(** *** Assembly *)

Lemma take_full {A} (l : list A) n : length l = n -> take n l = l.
Proof. intros <-. apply firstn_all. Qed.

(** The stored parts, joined. *)
Definition joined (ps : list (option (list Z))) : list Z := concat (omap id ps).

Lemma join_parts_spec ps lens :
  length ps = length lens ->
  (forall i, (i < length ps)%nat -> exists p, ps !! i = Some (Some p) /\ lens !! i = Some (length p)) ->
  join_parts ps lens = Some (joined ps).
Proof.
  revert lens. induction ps as [|p ps IH]; intros [|n lens] Hl Hi; try done. destruct (Hi 0%nat) as (q & [= ->] & [= ->]); [cbn; lia|].
  cbn [join_parts]. rewrite (memread_at q [] q []) by (by rewrite ?app_nil_r). cbn [mbind option_bind].
  rewrite (IH lens); [done|by injection Hl|]. intros i Hlt. apply (Hi (S i)). cbn. lia.
Qed.

Lemma sum_lengths_some lens w n : sum_lengths lens w = Some n -> n = w + Z.of_nat (sum_list lens).
Proof.
  revert w. induction lens as [|k lens IH]; intros w; cbn [sum_lengths]; [intros [= <-]; cbn; lia|].
  unfold add_size. destruct (_ <? _); [done|]. intros ->%IH. cbn. lia.
Qed.

(** Setting the proof. *)
Definition with_proof (p : list Z) (a : bool) (r : rns_resource) : rns_resource := {| r with proof := p; assembled := a |}.

Lemma wf_with_proof p a r : wf r -> wf (with_proof p a r) /\ extends r (with_proof p a r).
Proof. intros []. split; constructor; done. Qed.

Section AssemblySpec.
Context `{Crypto} `{Bzip2} {E : Type}.
Variable malloc_ok : nat -> bool.
Implicit Types (r : rns_resource) (link : option (Link.rns_link E)).

Lemma unpack_spec r processed o capacity :
  (capacity <= length o)%nat ->
  exists status o' n, unpack r processed o capacity = Some (status, o', n) /\ length o' = length o /\
    (status = RNS_OK -> (n <= length o)%nat).
Proof.
  intros Hcap. unfold unpack.
  assert (forall src, (length src <= length o)%nat -> exists o', memcpy o 0 src = Some o' /\ length o' = length o) as Hcpy.
  { intros src Hs. unfold memcpy. rewrite decide_True by lia. eexists. split; [done|]. rewrite !length_app, length_take, length_drop. lia. }
  destruct (adv_compressed (advertisement r)).
  - destruct RETICULUM_HAVE_BZIP2; [|by eexists _, _, _]. set (lim := min_size _ _).
    destruct (UINT_MAX <? lim); [by eexists _, _, _|]. destruct (UINT_MAX <? _); [by eexists _, _, _|].
    pose proof (bz_decompress_fits processed (Z.to_nat lim)) as Hfit. set (bz := BZ2_bzBuffToBuffDecompress processed (Z.to_nat lim)) in *.
    assert (Z.to_nat lim <= capacity)%nat as Hlim.
    { unfold lim, min_size. repeat case_match; lia. }
    destruct (Hcpy (bz_written bz)) as (o' & -> & Ho'); [lia|]. cbn [mbind option_bind].
    destruct bz; (eexists _, _, _; split; [done|]; split; [done|]); try done. cbn [bz_written] in Hfit. lia.
  - destruct (_ || _) eqn:G; [by eexists _, _, _|]. apply orb_false_iff in G as [G _]. apply orb_false_iff in G as [G%Nat.ltb_ge _].
    destruct (Hcpy processed) as (o' & -> & Ho'); [lia|]. cbn [mbind option_bind]. eexists _, _, _. split; [done|]. split; [done|]. lia.
Qed.

(** The data [rns_resource_assemble] delivers. *)
Record delivered r r' (o' : list Z) (n : nat) : Prop := {
  dl_fits : (n <= length o')%nat;
  dl_size : Z.of_nat n <= r.(advertisement).(adv_data_size) /\ Z.of_nat n <= r.(max_size);
  dl_hash : rns_sha256 (take n o' ++ r.(advertisement).(adv_random_hash)) = Some r.(advertisement).(adv_hash);
  dl_proof : exists digest, rns_sha256 (take n o' ++ r.(advertisement).(adv_hash)) = Some digest /\
    r' = with_proof (r.(advertisement).(adv_hash) ++ digest) true r
}.

Lemma verify_prove r data o' :
  take (length data) o' = data -> verify_data malloc_ok r data = RNS_OK ->
  exists status r', prove_data malloc_ok r data = (status, r') /\ (exists p a, r' = with_proof p a r) /\
    (status = RNS_OK -> rns_sha256 (data ++ r.(advertisement).(adv_random_hash)) = Some r.(advertisement).(adv_hash) /\
      exists digest, rns_sha256 (data ++ r.(advertisement).(adv_hash)) = Some digest /\
        r' = with_proof (r.(advertisement).(adv_hash) ++ digest) true r).
Proof.
  intros Ht Hv. assert (rns_sha256 (data ++ adv_random_hash (advertisement r)) = Some (adv_hash (advertisement r))) as Hh.
  { revert Hv. unfold verify_data. destruct (add_size _ _); [|done]. destruct (negb _); [done|]. destruct (rns_sha256 _) as [d|]; [|done].
    destruct (memeq d _) eqn:Eq; [|done]. by apply memeq_true in Eq as ->. }
  assert (r = with_proof r.(proof) r.(assembled) r) as Er by (by destruct r).
  unfold prove_data. destruct (add_size _ _); [|eexists _, _; split; [done|]; split; [by eexists _, _|done]].
  destruct (negb _); [eexists _, _; split; [done|]; split; [by eexists _, _|done]|].
  destruct (rns_sha256 (data ++ adv_hash _)) as [d|] eqn:Eq2.
  - eexists _, _. split; [done|]. split; [by eexists _, _|]. intros _. split; [done|]. by exists d.
  - eexists _, _. split; [done|]. split; [|done]. by exists (r.(advertisement).(adv_hash) ++ drop 32 r.(proof)), r.(assembled).
Qed.

Lemma assemble_spec r link o capacity :
  wf r -> (capacity <= length o)%nat ->
  exists status r' out n, rns_resource_assemble malloc_ok r link (Some o) capacity = Some (status, r', out, n) /\ wf r' /\ extends r r' /\
    (status = RNS_OK -> exists o' k, out = Some o' /\ n = Some k /\ length o' = length o /\ delivered r r' o' k).
Proof.
  intros Hr Hcap. assert (forall st (out : option (list Z)), st <> RNS_OK -> exists status r' out' n, Some (st, r, out, None) = Some (status, r', out', n) /\ wf r' /\ extends r r' /\
    (status = RNS_OK -> exists o' k, out' = Some o' /\ n = Some k /\ length o' = length o /\ delivered r r' o' k)) as Hfail.
  { intros st out Hst. by eexists _, _, _, _. }
  unfold rns_resource_assemble. destruct (rns_resource_parts_complete (Some r)) eqn:Hc; cbn [negb]; [|by apply Hfail].
  destruct (wf_arrays r Hr) as (A1 & A2 & _). unfold total in A1, A2. rewrite decide_False by lia. rewrite !take_full by done.
  assert (forall i, (i < length (parts r))%nat -> exists p, parts r !! i = Some (Some p) /\ part_lengths r !! i = Some (length p)) as Hall.
  { intros i Hi. destruct (proj1 (stored_count_full (parts r))) with (i := i) as (p & Hp); [|done|].
    - rewrite <-(wf_received r Hr). cbn in Hc. apply Z.eqb_eq in Hc. lia.
    - exists p. split; [done|]. by destruct (wf_stored r Hr i p Hp) as (_ & ? & _). }
  destruct (sum_lengths _ 0) as [wl|] eqn:Hs; [|by apply Hfail]. destruct (negb (wl =? _)); [by apply Hfail|].
  destruct (negb (malloc_ok _)); [by apply Hfail|]. rewrite join_parts_spec by (done || lia). cbn [mbind option_bind].
  destruct (decrypt_wire malloc_ok r link _) as [st|plain] eqn:Hdec.
  { apply Hfail. revert Hdec. unfold decrypt_wire. repeat case_match; congruence. }
  destruct (_ || _); [by apply Hfail|]. destruct (unpack_spec r (drop 4 plain) o capacity Hcap) as (result & o' & n & -> & Ho' & Hn).
  cbn [mbind option_bind]. set (g := (max_size r <? Z.of_nat n) || _).
  destruct (is_ok result) eqn:Hok; cbn [andb]; [|rewrite Hok; cbn [negb]; by apply Hfail; intros ->].
  destruct g eqn:Hg; [by apply Hfail|]. rewrite Hok. cbn [negb]. assert (result = RNS_OK) as -> by (by destruct result).
  specialize (Hn eq_refl). rewrite memread_in by lia. rewrite drop_0. cbn [mbind option_bind].
  destruct (verify_data malloc_ok r (take n o')) eqn:Hv; cbn [is_ok negb]; try (by apply Hfail).
  assert (length (take n o') = n) as Hln by (rewrite length_take; lia).
  destruct (verify_prove r (take n o') o') as (status & r' & -> & (p & a & Er') & Hgood); [by rewrite Hln|done|].
  eexists _, _, _, _. split; [done|]. split; [by rewrite Er'; apply wf_with_proof|]. split; [by rewrite Er'; apply wf_with_proof|].
  intros ->. exists o', n. destruct (Hgood eq_refl) as [Hh Hp]. split_and!; [done|done|done|]. unfold g in Hg.
  apply orb_false_iff in Hg as [Hg1%Z.ltb_ge Hg2%Z.ltb_ge]. constructor; [lia|done|done|done].
Qed.

(** *** Every run of the receiver *)

Inductive resource_op : Type :=
| OpPart (part : slice)
| OpUpdate (update : slice)
| OpRequest (out : list Z) (capacity : nat)
| OpRetry (out : list Z) (capacity : nat)
| OpAssemble (link : option (Link.rns_link E)) (out : list Z) (capacity : nat).

Definition op_ok (op : resource_op) : Prop :=
  match op with
  | OpPart _ => True
  | OpUpdate u => bytes_ok (slice_bytes u)
  | OpRequest o c | OpRetry o c | OpAssemble _ o c => (c <= length o)%nat
  end.

Definition run_op (op : resource_op) r : option (rns_status * rns_resource) :=
  match op with
  | OpPart p => rns_resource_receive_part malloc_ok r p
  | OpUpdate u => rns_resource_apply_hashmap_update r u
  | OpRequest o c => x ← rns_resource_build_request r (Some o) c; Some x.1.1
  | OpRetry o c => x ← rns_resource_build_retry_request r (Some o) c; Some x.1.1
  | OpAssemble link o c => x ← rns_resource_assemble malloc_ok r link (Some o) c; Some x.1.1
  end.

Fixpoint run_ops (ops : list resource_op) r : option rns_resource :=
  match ops with [] => Some r | op :: ops => x ← run_op op r; run_ops ops x.2 end.

Lemma run_op_safe op r : wf r -> op_ok op -> exists status r', run_op op r = Some (status, r') /\ wf r' /\ extends r r'.
Proof.
  intros Hr Hop. destruct op as [p|u|o c|o c|link o c]; cbn [run_op op_ok] in *.
  - destruct p as [k|p]; [by eexists _, _|]. destruct (receive_part_spec malloc_ok r p Hr) as (st & r' & -> & ? & ? & _). by eexists _, _.
  - destruct u as [k|u]; [by eexists _, _|]. destruct (apply_hashmap_update_spec r u Hr Hop) as (st & r' & -> & ? & ?). by eexists _, _.
  - destruct (build_request_spec r o c Hr Hop) as ([[[st r'] ?] ?] & -> & _ & ? & ?). cbn. by eexists _, _.
  - destruct (build_retry_request_spec r o c Hr Hop) as ([[[st r'] ?] ?] & -> & ? & ? & _). cbn. by eexists _, _.
  - destruct (assemble_spec r link o c Hr Hop) as (st & r' & ? & ? & -> & ? & ? & _). cbn. by eexists _, _.
Qed.

Lemma run_ops_safe ops r : wf r -> Forall op_ok ops -> exists r', run_ops ops r = Some r' /\ wf r' /\ extends r r'.
Proof.
  intros Hr Hops. revert r Hr. induction Hops as [|op ops Hop Hops IH]; intros r Hr; cbn [run_ops]; [by exists r|].
  destruct (run_op_safe op r Hr Hop) as (st & r1 & -> & Hr1 & Hex). cbn [mbind option_bind snd].
  destruct (IH r1 Hr1) as (r' & ? & ? & ?). exists r'. split_and!; [done|done|by etrans].
Qed.

(** C26: A receiver survives any peer. Whatever bytes are taken for an advertisement,
    if they parse and are accepted, then under every sequence of parts, hash
    updates, requests, retries and assemblies, with any contents, no operation
    reads or writes outside its objects; at most four requests are outstanding, no
    more than sixteen retries are spent, the known hashes end at a page, a stored
    part is at most one packet long and stays stored, and the count of received
    parts is the number of stored ones. *)
Theorem resource_run_safe data a maximum r0 ops :
  rns_resource_advertisement_parse data = inr a -> rns_resource_accept true true a maximum = Some (inr r0) -> Forall op_ok ops ->
  exists r, run_ops ops r0 = Some r /\ wf r /\ extends r0 r.
Proof.
  intros Hparse Hacc Hops. destruct (parsed_advertisement data a Hparse) as (Hv & Hh & Hr & Hf).
  destruct (accept_spec true true a maximum Hf Hv Hh Hr) as (res & Hres & Hok). rewrite Hacc in Hres. injection Hres as <-.
  destruct (Hok r0 eq_refl) as [Hwf _]. by apply run_ops_safe.
Qed.

(** C27: Assembly is verified. [rns_resource_assemble] on any well-formed receiver
    returns, and when it reports success the bytes it delivers fit the output, the
    advertised size and the receiver's limit, their salted hash is the advertised
    resource hash, and the stored proof is that hash followed by the hash of the
    data and it. *)
Theorem rns_resource_assemble_sound r link o capacity :
  wf r -> (capacity <= length o)%nat ->
  exists status r' out n, rns_resource_assemble malloc_ok r link (Some o) capacity = Some (status, r', out, n) /\
    (status = RNS_OK -> exists o' k, out = Some o' /\ n = Some k /\ length o' = length o /\ delivered r r' o' k).
Proof. intros Hr Hcap. destruct (assemble_spec r link o capacity Hr Hcap) as (st & r' & out & n & ? & _ & _ & ?). by exists st, r', out, n. Qed.
End AssemblySpec.

(** ** The retry timeout *)

(** No negative number. *)
Definition not_negative (x : double) : Prop := match x with S754_finite true _ _ | S754_infinity true => False | _ => True end.

Lemma round_not_negative m e l : not_negative (binary_round_aux 53 1024 false m e l).
Proof. unfold binary_round_aux. repeat case_match; done. Qed.

Lemma normalize_not_negative m e : 0 <= m -> not_negative (binary_normalize 53 1024 m e false).
Proof.
  intros Hm. unfold binary_normalize. destruct m as [|p|p]; [done| |lia]. unfold binary_round. destruct (shl_align _ _ _). apply round_not_negative.
Qed.

Lemma dmul_not_negative x y : not_negative x -> not_negative y -> not_negative (dmul x y).
Proof.
  unfold dmul, SFmul. destruct x as [sx|[]| |[] mx ex], y as [sy|[]| |[] my ey]; try done. intros _ _. apply round_not_negative.
Qed.

Lemma dadd_not_negative x y : not_negative x -> not_negative y -> not_negative (dadd x y).
Proof.
  unfold dadd, SFadd. destruct x as [sx|[]| |[] mx ex], y as [sy|[]| |[] my ey]; try done; try (by destruct sx, sy); try (by destruct sx); try (by destruct sy).
  intros _ _. unfold cond_Zopp. apply normalize_not_negative. lia.
Qed.

Lemma not_negative_le x : not_negative x -> isfinite x = true -> (dzero <=.? x) = true.
Proof. by destruct x as [s|s| |[] m e]. Qed.

(** The retry timeout is bounded. For any round-trip time and airtime, NaN and
    infinities included, and any numbers of outstanding parts and retries, the
    delay before a retry is a finite number of seconds between 0 and 3600. *)
Theorem rns_resource_retry_timeout_bounds rtt airtime outstanding retries :
  let t := rns_resource_retry_timeout rtt airtime outstanding retries in
  isfinite t = true /\ (dzero <=.? t) = true /\ (t <=.? d_of_Z 3600) = true.
Proof.
  intros t. unfold t, rns_resource_retry_timeout. clear t.
  assert (forall x, not_negative (if negb (isfinite x) || (x <.? dzero) then dzero else x)) as Hclean.
  { intros x. destruct (negb _ || _) eqn:G; [done|]. apply orb_false_iff in G as [Hf Hn]. by destruct x as [s|s| |[] m e]. }
  set (rt := if negb (isfinite rtt) || _ then _ else _). set (at_ := if negb (isfinite airtime) || _ then _ else _).
  assert (not_negative rt) as Hrt by apply Hclean. assert (not_negative at_) as Hat by apply Hclean. clearbody rt at_.
  set (k := if (RNS_RESOURCE_WINDOW <? outstanding)%nat then _ else _). set (n := if (RNS_RESOURCE_MAX_RETRIES <? retries)%nat then _ else _).
  set (result := dadd _ _). assert (not_negative result) as Hres.
  { apply dadd_not_negative; [apply dadd_not_negative; [|done]|apply dmul_not_negative; [apply normalize_not_negative; lia|done]].
    destruct (_ <.? _); [by apply dmul_not_negative|].
    apply dmul_not_negative; [by apply dmul_not_negative|apply normalize_not_negative; lia]. }
  clearbody result. destruct (negb (isfinite result) || _) eqn:G; [vm_compute; done|]. apply orb_false_iff in G as [Hf%negb_false_iff Hle].
  split; [done|]. split; [by apply not_negative_le|]. apply dlt_false; [done|by apply isfinite_isnan|done].
Qed.

(** ** Witnesses *)

Definition sample_source : list Z := (λ i, Z.of_nat i * 7 mod 251) <$> seq 0 1000.

Definition sample_seeds (i : nat) : list Z * list Z := ([Z.of_nat i; 5], [Z.of_nat i; 6]).

Definition sample_sender : rns_resource_sender :=
  match rns_resource_sender_create (λ _, true) true (Some Link.sample_active) (SBytes sample_source) None sample_seeds with
  | Some (inr s) => s
  | _ => fresh_sender [] false false []
  end.

Definition sample_buffer : list Z := replicate 500 0.

Definition sample_advertisement : list Z :=
  match rns_resource_sender_advertisement sample_sender (Some sample_buffer) 500 with
  | Some (_, Some o, Some n) => take n o
  | _ => []
  end.

Definition sample_resource : rns_resource :=
  match rns_resource_accept true true (advertised sample_sender) 0 with
  | Some (inr r) => r
  | _ => accepted_resource zero_advertisement [] 0
  end.

(** The parts arrive last to first, the middle one twice. *)
Definition sample_parts : list (resource_op (E := list double)) :=
  (λ i, OpPart (SBytes (part_at sample_sender.(wire) i))) <$> [2; 1; 1; 0]%nat.

Definition sample_complete : rns_resource := default sample_resource (run_ops (λ _, true) sample_parts sample_resource).

Lemma resource_advertisement_roundtrip_witness :
  exists o' n, rns_resource_sender_advertisement sample_sender (Some sample_buffer) 500 = Some (RNS_OK, Some o', Some n) /\ (n <= 430)%nat /\
    rns_resource_advertisement_parse (SBytes (take n o')) = inr (advertised sample_sender).
Proof.
  apply (resource_advertisement_roundtrip sample_sender sample_buffer 500); [constructor; vm_compute; intuition congruence|].
  change (length sample_buffer) with 500%nat. lia.
Defined.

Lemma resource_run_safe_witness :
  exists r, run_ops (λ _, true) sample_parts sample_resource = Some r /\ wf r /\ extends sample_resource r.
Proof.
  apply (resource_run_safe (λ _, true) (SBytes sample_advertisement) (advertised sample_sender) 0).
  - vm_compute. reflexivity.
  - vm_compute. reflexivity.
  - repeat constructor.
Defined.

Lemma sample_complete_wf : wf sample_complete.
Proof.
  destruct (accept_spec true true (advertised sample_sender) 0) as (res & Hres & Hok); [vm_compute; reflexivity..|].
  destruct (run_ops_safe (λ _, true) sample_parts sample_resource) as (r & Hr & Hwf & _).
  - assert (rns_resource_accept true true (advertised sample_sender) 0 = Some (inr sample_resource)) as Hs by (vm_compute; reflexivity).
    rewrite Hs in Hres. injection Hres as <-. by destruct (Hok sample_resource eq_refl).
  - repeat constructor.
  - unfold sample_complete. by rewrite Hr.
Qed.

Lemma rns_resource_assemble_sound_witness :
  exists status r' out n, rns_resource_assemble (λ _, true) sample_complete (Some Link.sample_active) (Some (replicate 1000 0)) 1000 =
      Some (status, r', out, n) /\
    (status = RNS_OK -> exists o' k, out = Some o' /\ n = Some k /\ length o' = length (replicate 1000 0) /\ delivered sample_complete r' o' k).
Proof.
  apply (rns_resource_assemble_sound (λ _, true) sample_complete (Some Link.sample_active) (replicate 1000 0) 1000 sample_complete_wf).
  rewrite length_replicate. lia.
Defined.
End Resource.
