(* ===== verification/ResourceTransfer.v ===== *)
(** * Resource transfers, end to end

    Composes the sender and the receiver of [Resource] over an active link: what a
    sender prepares, what the receiver knows of it in every reachable state, and
    the transfer of a segment, under any schedule of parts, updates, requests and
    retries, and by the exchange of requests and answers. *)

From Stdlib Require Import ZArith Lia.
From stdpp Require Import relations.
From S2P Require Import Prelude Platform Crypto Link Resource.

Module ResourceTransfer.
Import Resource.

(** ** Segments *)

(** The job of a sender: its source is not empty and within the limit, and its
    segment exists. *)
Record job_ok (s : rns_resource_sender) : Prop := {
  jb_source : 1 <= source_length s <= RNS_RESOURCE_MAX_SIZE;
  jb_total : s.(total_segments) =
    (source_length s + RNS_RESOURCE_SINGLE_SEGMENT_MAX_SIZE - 1) / RNS_RESOURCE_SINGLE_SEGMENT_MAX_SIZE;
  jb_index : 1 <= s.(segment_index) <= s.(total_segments);
  jb_request : s.(has_request_id) = true -> length s.(request_id) = 16%nat
}.

(** Segment [k] of a source. *)
Definition segment_of (src : list Z) (k : Z) : list Z :=
  take (Z.to_nat RNS_RESOURCE_SINGLE_SEGMENT_MAX_SIZE) (drop (Z.to_nat ((k - 1) * RNS_RESOURCE_SINGLE_SEGMENT_MAX_SIZE)) src).

Lemma job_segment_range s :
  job_ok s -> (s.(segment_index) - 1) * RNS_RESOURCE_SINGLE_SEGMENT_MAX_SIZE < source_length s /\ s.(total_segments) <= 9.
Proof.
  intros [Hs Ht Hi _]. unfold RNS_RESOURCE_SINGLE_SEGMENT_MAX_SIZE, RNS_RESOURCE_MAX_SIZE, RNS_RESOURCE_DEFAULT_MAX_SIZE in *.
  pose proof (Z.mul_div_le (source_length s + 1048575 - 1) 1048575 ltac:(lia)). split; [nia|].
  rewrite Ht. apply Z.lt_succ_r, Z.div_lt_upper_bound; lia.
Qed.

Lemma segment_spec s :
  job_ok s -> segment s = Some (segment_of s.(source) s.(segment_index)) /\
    Z.of_nat (length (segment_of s.(source) s.(segment_index))) = segment_source_length s s.(segment_index) /\
    1 <= segment_source_length s s.(segment_index) <= source_length s.
Proof.
  intros Hj. destruct (job_segment_range s Hj) as [Hlt Ht9]. destruct Hj as [Hs _ Hi _]. unfold segment, segment_source_length, segment_offset, segment_of.
  unfold RNS_RESOURCE_SINGLE_SEGMENT_MAX_SIZE, RNS_RESOURCE_MAX_SIZE, RNS_RESOURCE_DEFAULT_MAX_SIZE, source_length in *.
  rewrite (wrap_small 64 (segment_index s - 1)), (wrap_small 64 ((segment_index s - 1) * 1048575)) by (unfold in_width; lia).
  set (off := (segment_index s - 1) * 1048575) in *. rewrite (wrap_small 64 (Z.of_nat (length (source s)) - off)) by (unfold in_width; lia).
  set (n := if _ <? 1048575 then _ else _). assert (n = Z.min (Z.of_nat (length (source s)) - off) 1048575) as En
    by (unfold n; destruct (Z.ltb_spec (Z.of_nat (length (source s)) - off) 1048575); lia).
  assert (take (Z.to_nat 1048575) (drop (Z.to_nat off) (source s)) = take (Z.to_nat n) (drop (Z.to_nat off) (source s))) as Etake.
  { destruct (Z.le_gt_cases 1048575 (Z.of_nat (length (source s)) - off)); [by replace n with 1048575 by lia|].
    rewrite !take_ge by (rewrite length_drop; lia). done. }
  rewrite Etake. rewrite memread_in by lia. split; [done|]. rewrite length_take, length_drop. lia.
Qed.

(** Consecutive pieces of [m] elements. *)
Lemma chunks_cover {A} (m : nat) (l : list A) n k :
  concat ((λ i, take m (drop (i * m) l)) <$> seq k n) = take (n * m) (drop (k * m) l).
Proof.
  revert k. induction n as [|n IH]; intros k; [done|]. cbn [seq fmap list_fmap concat]. rewrite IH. cbn [Nat.mul].
  rewrite <-(take_take_drop _ m (n * m)), drop_drop. f_equal. f_equal. f_equal. lia.
Qed.

(** The segments of a source, joined, are the source. *)
Lemma segments_cover src n :
  Z.of_nat (length src) <= Z.of_nat n * RNS_RESOURCE_SINGLE_SEGMENT_MAX_SIZE ->
  concat ((λ k, segment_of src (Z.of_nat k)) <$> seq 1 n) = src.
Proof.
  intros Hn. rewrite <-(fmap_S_seq 0 n), <-list_fmap_compose.
  rewrite (list_fmap_ext _ (λ i, take (Z.to_nat RNS_RESOURCE_SINGLE_SEGMENT_MAX_SIZE) (drop (i * Z.to_nat RNS_RESOURCE_SINGLE_SEGMENT_MAX_SIZE) src))).
  - rewrite chunks_cover, Nat.mul_0_l, drop_0. apply take_ge. unfold RNS_RESOURCE_SINGLE_SEGMENT_MAX_SIZE in *. lia.
  - intros i k _. unfold compose, segment_of. f_equal. f_equal. unfold RNS_RESOURCE_SINGLE_SEGMENT_MAX_SIZE. lia.
Qed.

(** ** Parts of a stream *)

Lemma parts_of_range n : 0 < n -> (parts_of n - 1) * 464 < n <= parts_of n * 464 /\ 1 <= parts_of n.
Proof.
  intros Hn. unfold parts_of, RNS_RESOURCE_PART_MAX. pose proof (Z.mul_div_le (n + 464 - 1) 464 ltac:(lia)).
  pose proof (Z.mul_succ_div_gt (n + 464 - 1) 464 ltac:(lia)). lia.
Qed.

Lemma length_part_at w i : length (part_at w i) = Nat.min 464 (length w - i * 464).
Proof. unfold part_at, RNS_RESOURCE_PART_MAX. rewrite length_take, length_drop. done. Qed.

Lemma parts_cover w n : (length w <= n * 464)%nat -> concat (part_at w <$> seq 0 n) = w.
Proof.
  intros Hn. unfold part_at, RNS_RESOURCE_PART_MAX. change (Z.to_nat 464) with 464%nat.
  rewrite chunks_cover, Nat.mul_0_l, drop_0. by apply take_ge.
Qed.

(** ** The sender *)

Section Sender.
Context `{Crypto} `{Bzip2} {E : Type}.
Variable malloc_ok : nat -> bool.
Implicit Types (s : rns_resource_sender) (link : Link.rns_link E).

Lemma hash_part_inr p random d : hash_part malloc_ok p random = inr d -> rns_sha256 (p ++ random) = Some d.
Proof. unfold hash_part. destruct (add_size _ _); [|done]. destruct (negb _); [done|]. destruct (rns_sha256 _); [by intros [= ->]|done]. Qed.

Lemma hash_part_inl p random st : hash_part malloc_ok p random = inl st -> st <> RNS_OK.
Proof.
  unfold hash_part. destruct (add_size _ _); [|by intros [= <-]]. destruct (negb _); [by intros [= <-]|].
  destruct (rns_sha256 _); [done|by intros [= <-]].
Qed.

(** The first [n] hashes of a stream: they identify its parts. *)
Record hashes_of (w random maps : list Z) (n : nat) : Prop := {
  ho_length : length maps = (n * 4)%nat;
  ho_parts : forall i, (i < n)%nat -> exists d, rns_sha256 (part_at w i ++ random) = Some d /\ memread maps (i * 4) 4 = Some (take 4 d);
  ho_distinct : forall i j, (i < n)%nat -> (j < n)%nat -> memread maps (i * 4) 4 = memread maps (j * 4) 4 -> i = j
}.

Lemma hashes_of_snoc w random maps n d :
  hashes_of w random maps n -> rns_sha256 (part_at w n ++ random) = Some d ->
  (forall j, (j < n)%nat -> memread maps (j * 4) 4 <> Some (take 4 d)) -> hashes_of w random (maps ++ take 4 d) (S n).
Proof.
  intros [Hl Hp Hd] Hsha Hnew. pose proof (sha256_length _ _ Hsha) as Hdl. assert (length (take 4 d) = 4%nat) as H4 by (rewrite length_take; lia).
  assert (forall i, (i < n)%nat -> memread (maps ++ take 4 d) (i * 4) 4 = memread maps (i * 4) 4) as Hold.
  { intros i Hi. rewrite !memread_in by (rewrite ?length_app; lia). f_equal. rewrite drop_app_le by lia. apply take_app_le. rewrite length_drop. lia. }
  assert (memread (maps ++ take 4 d) (n * 4) 4 = Some (take 4 d)) as Hnew'.
  { apply (memread_at _ maps _ []); [by rewrite app_nil_r|done|done]. }
  constructor.
  - rewrite length_app. lia.
  - intros i Hi. destruct (decide (i = n)) as [->|]; [by exists d|]. destruct (Hp i) as (d' & ? & ?); [lia|]. exists d'. by rewrite Hold by lia.
  - intros i j Hi Hj. destruct (decide (i = n)) as [->|], (decide (j = n)) as [->|]; [done|..].
    + rewrite Hnew', Hold by lia. intros Eq. by destruct (Hnew j); [lia|].
    + rewrite Hnew', Hold by lia. intros Eq. by destruct (Hnew i); [lia|].
    + rewrite !Hold by lia. apply Hd; lia.
Qed.

Lemma hash_parts_spec w random n i maps :
  hashes_of w random maps i ->
  exists res, hash_parts malloc_ok w random n i maps = Some res /\
    match res with inl st => st <> RNS_OK | inr (collision, maps') => collision = false -> hashes_of w random maps' (i + n) end.
Proof.
  revert i maps. induction n as [|n IH]; intros i maps Hm; cbn [hash_parts].
  { eexists. split; [done|]. by rewrite Nat.add_0_r. }
  destruct (hash_part malloc_ok (part_at w i) random) as [st|d] eqn:Hh; [apply hash_part_inl in Hh; by eexists|]. apply hash_part_inr in Hh.
  destruct (find_map_hash_spec maps (take 4 d) i 0) as (res & -> & Hres); [rewrite (ho_length _ _ _ _ Hm); lia|]. cbn [mbind option_bind].
  destruct res as [k|]; [by eexists|]. destruct (IH (S i) (maps ++ take 4 d)) as (res & -> & Hr).
  { apply hashes_of_snoc; [done|done|]. intros j Hj. apply Hres. lia. }
  eexists. split; [done|]. replace (i + S n)%nat with (S i + n)%nat by lia. exact Hr.
Qed.

(** How the data of a segment is carried. *)
Definition packed (fl : Z) (data processed : list Z) : Prop :=
  if has_flag fl RNS_RESOURCE_FLAG_COMPRESSED
  then RETICULUM_HAVE_BZIP2 = true /\ exists n, BZ2_bzBuffToBuffCompress data n = Some processed
  else processed = data.

(** A sender whose segment [data] is ready to be advertised. *)
Record prepared link s (data : list Z) : Prop := {
  pr_job : job_ok s;
  pr_data : data = segment_of s.(source) s.(segment_index);
  pr_advertisable : advertisable s;
  pr_hash : rns_sha256 (data ++ s.(random_hash)) = Some s.(hash);
  pr_wire : exists seed cap processed, Link.rns_link_encrypt link seed (s.(random_hash) ++ processed) cap = Some s.(wire) /\
    packed s.(flags) data processed;
  pr_maps : hashes_of s.(wire) s.(random_hash) s.(sender_map_hashes) (Z.to_nat s.(sender_parts))
}.

(** The fields a preparation leaves alone. *)
Record same_job s s' : Prop := {
  sj_source : s'.(source) = s.(source);
  sj_index : s'.(segment_index) = s.(segment_index);
  sj_total : s'.(total_segments) = s.(total_segments);
  sj_data_parts : s'.(total_data_parts) = s.(total_data_parts);
  sj_compress : s'.(auto_compress) = s.(auto_compress);
  sj_response : s'.(is_response) = s.(is_response);
  sj_request : s'.(has_request_id) = s.(has_request_id) /\ s'.(request_id) = s.(request_id);
  sj_original : s.(segment_index) <> 1 -> s'.(original_hash) = s.(original_hash)
}.

Lemma same_job_ok s s' : same_job s s' -> job_ok s -> job_ok s'.
Proof.
  intros [E1 E2 E3 _ _ _ [E6 E7] _] [J1 J2 J3 J4]. unfold source_length in *. constructor; unfold source_length; rewrite ?E1, ?E2, ?E3, ?E6, ?E7; done.
Qed.

Lemma same_job_trans s1 s2 s3 : same_job s1 s2 -> same_job s2 s3 -> same_job s1 s3.
Proof.
  intros [A1 A2 A3 A4 A5 A6 [A7 A8] A9] [B1 B2 B3 B4 B5 B6 [B7 B8] B9]. constructor; try congruence; [split; congruence|].
  intros Hne. rewrite B9 by congruence. auto.
Qed.

Lemma segment_flags_spec s c :
  0 <= segment_flags s c < 64 /\ has_flag (segment_flags s c) RNS_RESOURCE_FLAG_ENCRYPTED = true /\
  has_flag (segment_flags s c) RNS_RESOURCE_FLAG_SPLIT = (1 <? s.(total_segments)) /\
  has_flag (segment_flags s c) RNS_RESOURCE_FLAG_COMPRESSED = c.
Proof. unfold segment_flags. destruct c, (1 <? total_segments s), (is_response s); vm_compute; intuition congruence. Qed.

Lemma seal_segment_spec s link data seed compressed :
  job_ok s -> data = segment_of s.(source) s.(segment_index) -> rns_sha256 (data ++ s.(random_hash)) = Some s.(hash) ->
  length s.(random_hash) = 4%nat -> length s.(original_hash) = 32%nat -> (s.(segment_index) = 1 -> s.(original_hash) = s.(hash)) ->
  (forall c, compressed = Some c -> RETICULUM_HAVE_BZIP2 = true /\ exists n, BZ2_bzBuffToBuffCompress data n = Some c) ->
  exists res, seal_segment malloc_ok s link data seed compressed = Some res /\
    match res with
    | inl st => st <> RNS_OK
    | inr (collision, s') => same_job s s' /\ length s'.(original_hash) = 32%nat /\ (collision = false -> prepared link s' data)
    end.
Proof.
  intros Hj Hdata Hsha Hr Ho Ho1 Hcomp. unfold seal_segment. set (processed := match compressed with Some c => c | None => data end).
  destruct (add_size _ 4) as [n|] eqn:Hadd; [|by eexists]. destruct (negb (malloc_ok _)); [by eexists|].
  destruct (SIZE_MAX - 64 <? n); [by eexists|]. destruct (negb (malloc_ok _)); [by eexists|].
  destruct (Link.rns_link_encrypt link seed _ _) as [w|] eqn:Henc; [|by eexists].
  assert (length w = token_size (length (random_hash s ++ processed))) as Hw.
  { revert Henc. unfold Link.rns_link_encrypt. case_bool_decide; [|done]. intros Ht. by apply token_encrypt_size in Ht as [? _]. }
  destruct (_ || _) eqn:G; [by eexists|]. apply orb_false_iff in G as [Hp0%Z.eqb_neq Hpm%Z.ltb_ge]. destruct (negb (malloc_ok _)); [by eexists|].
  destruct (hash_parts_spec w (random_hash s) (Z.to_nat (parts_of (Z.of_nat (length w)))) 0 []) as (res & -> & Hres).
  { constructor; [done|lia|lia]. }
  cbn [mbind option_bind]. destruct res as [st|[collision maps]]; [by eexists|]. eexists. split; [done|].
  split; [by constructor|]. split; [done|]. intros ->. specialize (Hres eq_refl). cbn [Nat.add] in Hres.
  set (c := if compressed is Some _ then true else false). destruct (segment_flags_spec s c) as (F1 & F2 & F3 & F4).
  destruct (job_segment_range s Hj) as [_ H9]. pose proof (sha256_length _ _ Hsha) as Hh. pose proof Hj as [J1 J2 J3 J4].
  assert (Z.of_nat (length w) = (Z.of_nat (length (random_hash s ++ processed)) / 16 + 4) * 16) as Hwz.
  { rewrite Hw. unfold token_size. rewrite !Nat2Z.inj_add, Nat2Z.inj_mul, Nat2Z.inj_add, Nat2Z.inj_div. lia. }
  pose proof (Z.div_pos (Z.of_nat (length (random_hash s ++ processed))) 16 ltac:(lia) ltac:(lia)).
  constructor; cbn; try done.
  - constructor; unfold wire_length, source_length in *; cbn; try done.
    + rewrite Hwz. split; [lia|by apply Z.mod_mul].
    + split; [done|]. lia.
    + rewrite (ho_length _ _ _ _ Hres). done.
  - exists seed, (Z.to_nat (16 + (n / 16 + 1) * 16 + 32)), processed. split; [done|]. unfold packed. rewrite F4. unfold c, processed.
    destruct compressed as [c'|]; [by apply Hcomp|done].
Qed.

Lemma compressed_copy_spec data c : compressed_copy malloc_ok data = inr (Some c) ->
  RETICULUM_HAVE_BZIP2 = true /\ exists n, BZ2_bzBuffToBuffCompress data n = Some c.
Proof.
  unfold compressed_copy. destruct RETICULUM_HAVE_BZIP2; [|done]. destruct (_ || _); [done|]. destruct (UINT_MAX <? _); [done|].
  destruct (negb _); [done|]. set (n := Z.to_nat _). destruct (BZ2_bzBuffToBuffCompress data n) as [d|] eqn:Hb; [|done].
  destruct (_ <? _)%nat; [|done]. intros [= ->]. split; [done|by exists n].
Qed.

Lemma compressed_copy_error data st : compressed_copy malloc_ok data = inl st -> st <> RNS_OK.
Proof. unfold compressed_copy. repeat case_match; congruence. Qed.

Lemma attempt_spec s link seeds :
  job_ok s -> length s.(original_hash) = 32%nat ->
  exists res, sender_prepare_segment_attempt malloc_ok s link seeds = Some res /\
    match res with
    | inl st => st <> RNS_OK
    | inr (collision, s') => same_job s s' /\ length s'.(original_hash) = 32%nat /\
        (collision = false -> prepared link s' (segment_of s.(source) s.(segment_index)))
    end.
Proof.
  intros Hj Ho. unfold sender_prepare_segment_attempt. destruct (segment_spec s Hj) as (-> & _ & _). cbn [mbind option_bind].
  set (data := segment_of _ _). destruct (rns_random_bytes seeds.1 4) as [random|] eqn:Hrnd; [|by eexists]. apply random_length in Hrnd.
  destruct (add_size _ 4); [|by eexists]. destruct (negb _); [by eexists|].
  destruct (rns_sha256 (data ++ random)) as [digest|] eqn:Hsha; [|by eexists].
  match goal with |- context [seal_segment malloc_ok ?s2] => set (s2' := s2) end.
  assert (same_job s s2') as Hsame.
  { constructor; try done. intros Hne. unfold s2'. cbn. by rewrite (proj2 (Z.eqb_neq _ _)). }
  change (auto_compress s2') with (auto_compress s).
  destruct (if auto_compress s then compressed_copy malloc_ok data else inr None) as [st|compressed] eqn:Hc.
  { eexists. split; [done|]. destruct (auto_compress s); [|done]. by apply compressed_copy_error in Hc. }
  destruct (seal_segment_spec s2' link data seeds.2 compressed) as (res & -> & Hres); try done.
  - by eapply same_job_ok.
  - unfold s2'. cbn. destruct (segment_index s =? 1); [by eapply sha256_length|done].
  - unfold s2'. cbn. by intros ->.
  - intros c ->. destruct (auto_compress s); [by apply compressed_copy_spec|done].
  - eexists. split; [done|]. destruct res as [|[col s']]; [done|]. destruct Hres as (Hs' & Ho' & Hp). split; [by eapply same_job_trans|done].
Qed.

Lemma prepare_attempts_spec n s link seeds :
  job_ok s -> length s.(original_hash) = 32%nat ->
  exists res, prepare_attempts malloc_ok n s link seeds = Some res /\
    match res with
    | inl st => st <> RNS_OK
    | inr s' => same_job s s' /\ prepared link s' (segment_of s.(source) s.(segment_index))
    end.
Proof.
  revert s. induction n as [|n IH]; intros s Hj Ho; cbn [prepare_attempts]; [by eexists|].
  destruct (attempt_spec s link (seeds n) Hj Ho) as (res & -> & Hres). cbn [mbind option_bind]. destruct res as [st|[[] s1]]; [by eexists| |].
  - destruct Hres as (Hs1 & Ho1 & _). destruct (IH s1) as (res & -> & Hr); [by eapply same_job_ok|done|].
    eexists. split; [done|]. destruct res as [|s']; [done|]. destruct Hr as [Hs' Hp]. split; [by eapply same_job_trans|].
    by rewrite (sj_source _ _ Hs1), (sj_index _ _ Hs1) in Hp.
  - destruct Hres as (Hs1 & _ & Hp). eexists. split; [done|]. split; [done|by apply Hp].
Qed.

Lemma estimate_all_spec s n i :
  1 <= source_length s <= RNS_RESOURCE_MAX_SIZE -> 0 <= i -> 
  (i + Z.of_nat n - 1) * RNS_RESOURCE_SINGLE_SEGMENT_MAX_SIZE < source_length s \/ n = 0%nat ->
  exists res, estimate_all malloc_ok s n i = Some res /\ forall s', res = inr s' -> exists k, s' = {| s with total_data_parts := k |}.
Proof.
  intros Hs. unfold RNS_RESOURCE_SINGLE_SEGMENT_MAX_SIZE. revert s i Hs. induction n as [|n IH]; intros s i Hs Hi Hn; cbn [estimate_all].
  { eexists. split; [done|]. intros s' [= <-]. exists (total_data_parts s). by destruct s. }
  destruct Hn as [Hn|]; [|done]. unfold RNS_RESOURCE_SINGLE_SEGMENT_MAX_SIZE. unfold source_length in *.
  assert (i * 1048575 < Z.of_nat (length (source s))) as Hlt by lia.
  assert (min_size (Z.of_nat (length (source s)) - i * 1048575) 1048575 <= Z.of_nat (length (source s)) - i * 1048575) as Hmin
    by (unfold min_size; destruct (Z.ltb_spec 1048575 (Z.of_nat (length (source s)) - i * 1048575)); lia).
  rewrite memread_in by lia. cbn [mbind option_bind].
  destruct (estimate_parts _ _ _) as [st|count]; [by eexists|]. destruct (_ <? _); [by eexists|].
  match goal with |- context [estimate_all malloc_ok ?x n] => destruct (IH x (i + 1)) as (res & -> & Hres) end; [done|lia| |].
  { destruct n; [by right|left]. cbn [source]. lia. }
  eexists. split; [done|]. intros s' Heq. destruct (Hres s' Heq) as (k & ->). by exists k.
Qed.

Lemma sender_create_spec object_ok (link : option (Link.rns_link E)) data options seeds :
  (forall o id, options = Some o -> o.(opt_request_id) = Some id -> length id = 16%nat) ->
  exists res, rns_resource_sender_create malloc_ok object_ok link data options seeds = Some res /\
    forall s, res = inr s -> exists l, link = Some l /\ s.(source) = slice_bytes data /\ s.(segment_index) = 1 /\
      prepared l s (segment_of s.(source) s.(segment_index)).
Proof.
  intros Hid. unfold rns_resource_sender_create. destruct link as [link|]; [|by eexists]. destruct (_ || _) eqn:G; [by eexists|].
  apply orb_false_iff in G as [G Hmax%Z.ltb_ge]. apply orb_false_iff in G as [G Hn0%Nat.eqb_neq].
  apply orb_false_iff in G as [_ Hbad%slice_bad_length]. rewrite Hbad in *.
  set (compress := match options with None => true | Some o => _ end). set (response := match options with None => false | Some o => _ end).
  set (id := match options with Some o => _ | None => None end). destruct (response && _) eqn:Hresp; [by eexists|].
  destruct (negb object_ok); [by eexists|]. destruct (negb (malloc_ok _)); [by eexists|].
  set (s0 := fresh_sender _ _ _ _). assert (length s0.(source) = length (slice_bytes data)) as Hlen by done.
  assert (job_ok s0) as Hj.
  { constructor; unfold source_length; cbn [s0 source segment_index total_segments fresh_sender has_request_id request_id].
    - lia.
    - done.
    - split; [done|]. apply Z.div_le_lower_bound; unfold RNS_RESOURCE_SINGLE_SEGMENT_MAX_SIZE; lia.
    - intros Hr. rewrite Hr in *. cbn [andb] in Hresp. unfold id, response in *. destruct options as [o|]; [|done].
      destruct (opt_request_id o) as [i|] eqn:Ei; [|done]. by apply (Hid o). }
  destruct (estimate_all_spec s0 (Z.to_nat s0.(total_segments)) 0) as (res & -> & Hest); [by apply jb_source|lia| |].
  { left. destruct Hj as [J1 J2 J3 _]. rewrite Z2Nat.id by lia. rewrite J2. unfold RNS_RESOURCE_SINGLE_SEGMENT_MAX_SIZE.
    pose proof (Z.mul_div_le (source_length s0 + 1048575 - 1) 1048575 ltac:(lia)). lia. }
  cbn [mbind option_bind]. destruct res as [st|s1]; [by eexists|]. destruct (Hest s1 eq_refl) as (k & ->).
  set (s1 := {| s0 with total_data_parts := k |} : rns_resource_sender).
  destruct (prepare_attempts_spec 8 s1 link seeds) as (res & Hres & Hp); [by destruct Hj; constructor|done|].
  unfold sender_prepare_segment. rewrite Hres. eexists. split; [done|]. intros s ->. destruct Hp as [Hs Hprep]. exists link.
  split; [done|]. split; [by rewrite (sj_source _ _ Hs)|]. split; [by rewrite (sj_index _ _ Hs)|].
  by rewrite (sj_source _ _ Hs), (sj_index _ _ Hs).
Qed.

Lemma advance_segment_spec link l2 s data seeds :
  prepared link s data ->
  exists status s', rns_resource_sender_advance_segment malloc_ok s (Some l2) seeds = Some (status, s') /\
    (status <> RNS_OK -> s' = s) /\
    (status = RNS_OK -> s.(segment_index) < s.(total_segments) /\ s'.(source) = s.(source) /\ s'.(segment_index) = s.(segment_index) + 1 /\
      s'.(total_segments) = s.(total_segments) /\ s'.(original_hash) = s.(original_hash) /\
      prepared l2 s' (segment_of s.(source) (s.(segment_index) + 1))).
Proof.
  intros Hp. pose proof (pr_job _ _ _ Hp) as [J1 J2 J3 J4]. pose proof (av_original _ (pr_advertisable _ _ _ Hp)) as [Ho _].
  unfold rns_resource_sender_advance_segment. destruct (negb _); [by eexists _, _|].
  destruct (Z.leb_spec (total_segments s) (segment_index s)); [by eexists _, _|]. unfold sender_prepare_segment.
  match goal with |- context [prepare_attempts malloc_ok 8 ?x] => set (next := x) end.
  assert (job_ok next) as Hj by (constructor; try done; cbn; lia).
  destruct (prepare_attempts_spec 8 next l2 seeds Hj Ho) as (res & -> & Hres). cbn [mbind option_bind].
  destruct res as [st|s']; eexists _, _; (split; [done|]); [done|]. split; [done|]. intros _. destruct Hres as [Hs Hprep].
  split_and!; [lia|by rewrite (sj_source _ _ Hs)|by rewrite (sj_index _ _ Hs)|by rewrite (sj_total _ _ Hs)| |done].
  rewrite (sj_original _ _ Hs); [done|]. cbn. lia.
Qed.

(** ** The receiver of a prepared sender *)

(** What a receiver has is the sender's. *)
Record receiving s (r : rns_resource) : Prop := {
  rc_wf : wf r;
  rc_hash : r.(advertisement).(adv_hash) = s.(hash) /\ r.(advertisement).(adv_random_hash) = s.(random_hash);
  rc_size : r.(advertisement).(adv_parts) = s.(sender_parts) /\ r.(advertisement).(adv_transfer_size) = wire_length s /\
    r.(advertisement).(adv_data_size) = source_length s;
  rc_flags : r.(advertisement).(adv_encrypted) = true /\
    r.(advertisement).(adv_compressed) = has_flag s.(flags) RNS_RESOURCE_FLAG_COMPRESSED;
  rc_maps : forall i, (i < r.(known_hashes))%nat -> memread r.(map_hashes) (i * 4) 4 = memread s.(sender_map_hashes) (i * 4) 4;
  rc_parts : forall i p, r.(parts) !! i = Some (Some p) -> p = part_at s.(wire) i
}.

(** An operation that only learns what is the sender's. *)
Lemma receiving_extends s r r' :
  receiving s r -> wf r' -> extends r r' ->
  (forall i, (r.(known_hashes) <= i < r'.(known_hashes))%nat -> memread r'.(map_hashes) (i * 4) 4 = memread s.(sender_map_hashes) (i * 4) 4) ->
  (forall i p, r'.(parts) !! i = Some (Some p) -> r.(parts) !! i = Some (Some p) \/ p = part_at s.(wire) i) ->
  receiving s r'.
Proof.
  intros [R1 R2 R3 R4 R5 R6] Hwf [X1 _ X2 X3 X4] Hmaps Hparts. constructor; try (by rewrite X1); [done| |].
  - intros i Hi. destruct (decide (i < known_hashes r)%nat) as [Hlt|]; [|apply Hmaps; lia]. rewrite <-R5 by done.
    pose proof (wf_known r R1). pose proof (wf_maps r R1). pose proof (wf_maps r' Hwf). pose proof (wf_known r' Hwf).
    rewrite !memread_in by lia. f_equal. rewrite !take_drop_commute. f_equal.
    apply (f_equal (take (i * 4 + 4))) in X3. rewrite !take_take, !Nat.min_l in X3 by lia. done.
  - intros i p Hi. destruct (Hparts i p Hi); [by apply R6|done].
Qed.

Lemma accepted_receiving link s data r m :
  prepared link s data -> wf r -> r = accepted_resource (advertised s) (take (first_hashes s) s.(sender_map_hashes) ++ m) r.(max_size) ->
  receiving s r.
Proof.
  intros Hp Hwf Er. pose proof (pr_advertisable _ _ _ Hp) as Ha. destruct (first_hashes_le s Ha) as [Hfl Hf].
  destruct (av_flags _ Ha) as (_ & He & _). constructor; [done|..]; rewrite Er; try done.
  - intros i Hi. cbn [accepted_resource known_hashes map_hashes advertised set_flag_fields adv_hashmap slice_length] in *.
    rewrite length_take, Nat.min_l in Hi by done. pose proof (Nat.div_mod_eq (first_hashes s) 4).
    rewrite !memread_in by (rewrite ?length_app, ?length_take; lia). f_equal. rewrite !take_drop_commute. f_equal.
    rewrite take_app_le by (rewrite length_take; lia). rewrite take_take. by rewrite Nat.min_l by lia.
  - intros i p Hi. cbn [accepted_resource parts] in Hi. by apply lookup_replicate in Hi as [? _].
Qed.

(** *** Parts *)

Lemma sender_part_spec link s data i :
  prepared link s data -> (i < Z.to_nat s.(sender_parts))%nat -> rns_resource_sender_part s i = Some (inr (part_at s.(wire) i)) /\
    1 <= Z.of_nat (length (part_at s.(wire) i)) <= 464.
Proof.
  intros Hp Hi. pose proof (pr_advertisable _ _ _ Hp) as Ha. destruct (av_parts _ Ha) as [Hpn Hpm]. destruct (av_wire _ Ha) as [Hw _].
  destruct (parts_of_range (wire_length s)) as [[H1 H2] H3]; [lia|]. rewrite <-Hpn in *. unfold wire_length, RNS_RESOURCE_MAX_PARTS in *.
  unfold rns_resource_sender_part, RNS_RESOURCE_PART_MAX, wire_length. rewrite (proj2 (Z.leb_gt _ _)) by lia.
  assert (Z.of_nat i * 464 < Z.of_nat (length (wire s))) by lia. assert (Z.of_nat (length (wire s)) <= 18000 * 464) by lia.
  rewrite (wrap_small 64) by (unfold in_width; lia).
  assert (min_size (Z.of_nat (length (wire s)) - Z.of_nat i * 464) 464 = Z.min (Z.of_nat (length (wire s)) - Z.of_nat i * 464) 464) as ->
    by (unfold min_size; destruct (Z.ltb_spec 464 (Z.of_nat (length (wire s)) - Z.of_nat i * 464)); lia).
  rewrite memread_in by lia. cbn [mbind option_bind]. rewrite length_part_at. split; [|lia]. do 2 f_equal. unfold part_at, RNS_RESOURCE_PART_MAX.
  replace (Z.to_nat (Z.of_nat i * 464)) with (i * Z.to_nat 464)%nat by lia.
  destruct (Z.le_gt_cases 464 (Z.of_nat (length (wire s)) - Z.of_nat i * 464)); [by rewrite Z.min_r by lia|].
  rewrite !take_ge by (rewrite length_drop; lia). done.
Qed.

(** A genuine part belongs where the sender has it. *)
Lemma genuine_index link s data r i j :
  prepared link s data -> receiving s r -> (j < Z.to_nat s.(sender_parts))%nat -> (i < r.(known_hashes))%nat ->
  belongs r i (part_at s.(wire) j) -> i = j.
Proof.
  intros Hp Hr Hj Hi (d & Hd & Hm). pose proof (pr_maps _ _ _ Hp) as [_ Hparts Hdist]. rewrite (rc_maps _ _ Hr) in Hm by done.
  destruct (rc_hash _ _ Hr) as [_ Hrand]. rewrite Hrand in Hd. destruct (Hparts j Hj) as (d' & Hd' & Hm'). assert (d' = d) as -> by congruence.
  pose proof (wf_known _ (rc_wf _ _ Hr)) as Hk. unfold total in Hk. destruct (rc_size _ _ Hr) as (Es & _). rewrite Es in Hk.
  apply Hdist; [lia|done|congruence].
Qed.

Lemma receive_genuine link s data r j :
  prepared link s data -> receiving s r -> (j < Z.to_nat s.(sender_parts))%nat ->
  exists status r', rns_resource_receive_part malloc_ok r (SBytes (part_at s.(wire) j)) = Some (status, r') /\ receiving s r' /\ extends r r'.
Proof.
  intros Hp Hr Hj. destruct (receive_part_spec malloc_ok r (part_at s.(wire) j) (rc_wf _ _ Hr)) as (st & r' & -> & Hwf & Hex & _ & Hcase).
  eexists _, _. split; [done|]. split; [|done]. destruct Hcase as [->|(i & Hi & Hnone & Hbel & ->)]; [done|].
  apply (genuine_index link s data) in Hbel as ->; [|done..]. eapply receiving_extends; [done|done|done| |].
  - cbn. intros i Hlt. lia.
  - fields. intros i p. destruct (decide (i = j)) as [->|Hne]; [|rewrite list_lookup_insert_ne by done; auto].
    rewrite list_lookup_insert_eq by (by eapply lookup_lt_Some). intros [= <-]. by right.
Qed.

(** *** Pages of hashes *)

Definition page_hashes s (page : Z) : list Z :=
  take (Z.to_nat (Z.min (s.(sender_parts) - page * 74) 74 * 4)) (drop (Z.to_nat (page * 74) * 4) s.(sender_map_hashes)).

Definition page_bytes s (page : Z) : list Z := s.(hash) ++ [0x92] ++ mp_put_uint page ++ mp_put_bin (page_hashes s page).

Lemma length_page_bytes s page :
  length s.(hash) = 32%nat ->
  length (page_bytes s page) =
  (32 + 1 + mp_uint_size page + mp_bin_header_size (length (page_hashes s page)) + length (page_hashes s page))%nat.
Proof. intros Hh. unfold page_bytes. rewrite !length_app, length_mp_put_uint, length_mp_put_bin, Hh. cbn [length]. lia. Qed.

Lemma parse_page s page :
  length s.(hash) = 32%nat -> in_width 64 page -> (length (page_hashes s page) <= 296)%nat ->
  parse_hashmap_update (SBytes (page_bytes s page)) s.(hash) = Some (inr (page, page_hashes s page)).
Proof.
  intros Hh Hp Hl. unfold parse_hashmap_update, page_bytes.
  assert (1 <= length (mp_put_uint page))%nat by (rewrite length_mp_put_uint; unfold mp_uint_size; repeat case_match; lia).
  assert (2 <= length (mp_put_bin (page_hashes s page)))%nat by (rewrite length_mp_put_bin; unfold mp_bin_header_size; repeat case_match; lia).
  rewrite (proj2 (Nat.ltb_ge _ _)) by (rewrite !length_app; cbn [length]; lia).
  rewrite (memread_at _ [] (hash s) ([0x92] ++ mp_put_uint page ++ mp_put_bin (page_hashes s page))) by done. cbn [mbind option_bind].
  rewrite memeq_refl. cbn [negb]. rewrite drop_app_length' by done. cbn [app mp_byte Z.eqb Pos.eqb negb]. rewrite mp_uint_put by done.
  unfold in_width in Hp. limits. rewrite (proj2 (Z.ltb_ge _ _)) by lia.
  rewrite <-(app_nil_r (mp_put_bin _)), mp_bin_put by lia. done.
Qed.

Lemma page_hashes_at s page i :
  length s.(sender_map_hashes) = (Z.to_nat s.(sender_parts) * 4)%nat -> 0 <= page -> page * 74 < s.(sender_parts) ->
  length (page_hashes s page) = Z.to_nat (Z.min (s.(sender_parts) - page * 74) 74 * 4) /\
  ((i < Z.to_nat (Z.min (s.(sender_parts) - page * 74) 74))%nat ->
   memread (page_hashes s page) (i * 4) 4 = memread s.(sender_map_hashes) ((Z.to_nat (page * 74) + i) * 4) 4).
Proof.
  intros Hl Hp Hlt. assert (length (page_hashes s page) = Z.to_nat (Z.min (s.(sender_parts) - page * 74) 74 * 4)) as Hlen
    by (unfold page_hashes; rewrite length_take, length_drop; lia).
  split; [done|]. intros Hi. rewrite !memread_in by lia. f_equal. unfold page_hashes. rewrite skipn_firstn_comm, take_take, drop_drop.
  rewrite Nat.min_l by lia. f_equal. f_equal. lia.
Qed.

(** The outcome of a genuine page. *)
Lemma apply_genuine link s data r page :
  prepared link s data -> receiving s r -> 0 <= page -> page * 74 < s.(sender_parts) ->
  exists status r', rns_resource_apply_hashmap_update r (SBytes (page_bytes s page)) = Some (status, r') /\ receiving s r' /\ extends r r' /\
    (r.(waiting) = true -> page * 74 = Z.of_nat r.(known_hashes) -> status = RNS_OK /\ page_taken r r' page (page_hashes s page)).
Proof.
  intros Hp Hr Hpg Hlt. pose proof (pr_advertisable _ _ _ Hp) as Ha. destruct (av_parts _ Ha) as [_ Hpm]. unfold RNS_RESOURCE_MAX_PARTS in Hpm.
  destruct (page_hashes_at s page 0 (av_maps _ Ha) Hpg Hlt) as [Hlen _]. destruct (rc_hash _ _ Hr) as [Ehash _]. destruct (rc_size _ _ Hr) as (Eparts & _).
  assert (parse_hashmap_update (SBytes (page_bytes s page)) r.(advertisement).(adv_hash) = Some (inr (page, page_hashes s page))) as Hparse.
  { rewrite Ehash. apply parse_page; [by apply av_hash|unfold in_width; lia|lia]. }
  destruct (apply_parsed r _ _ _ (rc_wf _ _ Hr) Hparse Hpg) as (st & r' & -> & Hcase). eexists _, _. split; [done|].
  destruct Hcase as [[-> Hnot]|[-> Ht]].
  { split; [done|]. split; [done|]. intros Hw He. exfalso. apply Hnot. rewrite Eparts. split_and!; [done|done|done|]. rewrite Hlen. lia. }
  destruct (page_taken_wf r r' page _ (rc_wf _ _ Hr) Ht) as [Hwf Hex]. split; [|done]. eapply receiving_extends; [done|done|done| |].
  - destruct Ht as [_ He _ _ (maps & Hm & ->)]. fields. intros i Hi. unfold memcpy in Hm. destruct (decide _) as [Hfit|]; [|done]. injection Hm as <-.
    set (k := (i - known_hashes r)%nat). rewrite Hlen in Hi. replace (Z.to_nat _) with (Z.to_nat (Z.min (sender_parts s - page * 74) 74) * 4)%nat in Hi by lia.
    rewrite Nat.div_mul in Hi by done.
    destruct (page_hashes_at s page k (av_maps _ Ha) Hpg Hlt) as [_ Hat]. replace i with (Z.to_nat (page * 74) + k)%nat by lia. rewrite <-Hat by lia.
    pose proof (wf_maps r (rc_wf _ _ Hr)) as Hml. rewrite !memread_in by (rewrite ?length_app, ?length_take, ?length_drop; lia).
    f_equal. rewrite drop_app_ge by (rewrite length_take; lia). rewrite length_take, Nat.min_l by lia.
    rewrite drop_app_le by lia. rewrite take_app_le by (rewrite length_drop; lia). f_equal. f_equal. lia.
  - destruct Ht as [_ _ _ _ (maps & _ & ->)]. fields. auto.
Qed.

(** The bytes of a page written into the caller's buffer. *)
Lemma put_page link s data page o :
  prepared link s data -> 0 <= page -> page * 74 < s.(sender_parts) -> (length (page_bytes s page) <= length o)%nat ->
  exists u k,
    (maps ← memread s.(sender_map_hashes) (Z.to_nat (page * 74) * 4) (Z.to_nat (Z.min (s.(sender_parts) - page * 74) 74 * 4));
     w ← put_all o 0 [s.(hash); [0x92]; mp_put_uint page; mp_put_bin maps];
     Some (RNS_OK, Some w.1, Some w.2)) = Some (RNS_OK, Some u, Some k) /\
    take k u = page_bytes s page.
Proof.
  intros Hp Hpg Hlt Hl. pose proof (pr_advertisable _ _ _ Hp) as Ha. pose proof (av_maps _ Ha) as Hml.
  destruct (page_hashes_at s page 0 Hml Hpg Hlt) as [Hph _].
  rewrite memread_in by lia. cbn [mbind option_bind].
  fold (page_hashes s page).
  destruct (put_all_wrote (length o) [hash s; [0x92]; mp_put_uint page; mp_put_bin (page_hashes s page)] o []) as (u & Hput & Hw);
    [by apply wrote_nil|by unfold page_bytes in Hl; cbn [concat]; rewrite app_nil_r|].
  cbn [length Nat.add] in Hput. rewrite Hput. cbn [mbind option_bind fst snd]. eexists _, _. split; [done|].
  destruct Hw as (_ & Ht & _). cbn [app] in Ht. rewrite Ht. unfold page_bytes. cbn [concat]. by rewrite app_nil_r.
Qed.

(** What the sender answers to a request for a page. *)
Lemma hashmap_update_spec link s data q o cap :
  prepared link s data -> (cap <= length o)%nat ->
  exists status out n, rns_resource_sender_hashmap_update s q (Some o) cap = Some (status, out, n) /\
    (status = RNS_OK -> exists page u k, 1 <= page /\ page * 74 < s.(sender_parts) /\ out = Some u /\ n = Some k /\ take k u = page_bytes s page).
Proof.
  intros Hp Hcap. pose proof (pr_advertisable _ _ _ Hp) as Ha. pose proof (av_maps _ Ha) as Hml. unfold rns_resource_sender_hashmap_update, parse_request.
  destruct q as [k|[|kind q]]; [by eexists _, _, _..|]. set (l := kind :: q). destruct (negb (kind =? 0) && negb (kind =? 0xff)); [by eexists _, _, _|].
  set (mo := if kind =? 0 then 33%nat else 37%nat). set (ho := if kind =? 0 then 1%nat else 5%nat).
  assert (ho + 32 = mo)%nat as Eho by (unfold ho, mo; by destruct (kind =? 0)).
  destruct (Nat.ltb_spec (length l) mo) as [|Hl]; [by eexists _, _, _|]. cbn [orb]. destruct (negb (_ =? 0)%nat); [by eexists _, _, _|].
  rewrite (memread_in l ho) by lia. cbn [mbind option_bind]. destruct (memeq _ (hash s)); [|by eexists _, _, _]. cbn [slice_bytes].
  change (load l 0) with (Some kind). cbn [mbind option_bind]. destruct (Z.eqb_spec kind 0xff) as [->|]; cbn [negb]; [|by eexists _, _, _].
  change mo with 37%nat in Hl. rewrite (memread_in l 1) by lia. cbn [mbind option_bind].
  destruct (find_map_hash_spec (sender_map_hashes s) (take 4 (drop 1 l)) (Z.to_nat (sender_parts s)) 0) as (res & -> & Hres); [lia|]. cbn [mbind option_bind].
  destruct res as [i|]; [|by eexists _, _, _]. unfold RNS_RESOURCE_HASHMAP_MAX_ENTRIES.
  destruct (Z.eqb_spec ((Z.of_nat i + 1) mod 74) 0) as [Hmod|]; cbn [negb]; [|by eexists _, _, _]. set (page := (Z.of_nat i + 1) / 74).
  assert (page * 74 = Z.of_nat i + 1) as Epage by (unfold page; pose proof (Z.div_mod (Z.of_nat i + 1) 74 ltac:(lia)); lia).
  destruct (Z.leb_spec (sender_parts s) (page * 74)); [by eexists _, _, _|].
  assert (min_size (sender_parts s - page * 74) 74 = Z.min (sender_parts s - page * 74) 74) as ->
    by (unfold min_size; destruct (Z.ltb_spec 74 (sender_parts s - page * 74)); lia).
  destruct (page_hashes_at s page 0 Hml) as [Hph _]; [lia|done|].
  destruct (Nat.ltb_spec cap (32 + 1 + mp_uint_size page + mp_bin_header_size (Z.to_nat (Z.min (sender_parts s - page * 74) 74 * 4))
                              + Z.to_nat (Z.min (sender_parts s - page * 74) 74 * 4))) as [|Hfit]; [by eexists _, _, _|].
  rewrite <-Hph, <-length_page_bytes in Hfit by (by apply av_hash).
  destruct (put_page link s data page o Hp) as (u & k & -> & Htake); [lia|done|lia|].
  eexists _, _, _. split; [done|]. intros _. exists page, u, k. split_and!; [lia|done|done|done|done].
Qed.

(** ** Delivery *)

Lemma sum_lengths_fits lens w : 0 <= w -> w + Z.of_nat (sum_list lens) <= SIZE_MAX -> sum_lengths lens w = Some (w + Z.of_nat (sum_list lens)).
Proof.
  revert w. induction lens as [|k lens IH]; intros w Hw Hm; cbn [sum_lengths sum_list] in *; [f_equal; cbn; lia|].
  unfold add_size. cbn in Hm. rewrite (proj2 (Z.ltb_ge _ _)) by lia. rewrite IH by lia. f_equal. cbn. lia.
Qed.

Lemma complete_parts s r :
  receiving s r -> rns_resource_parts_complete (Some r) = true ->
  r.(parts) = Some <$> (part_at s.(wire) <$> seq 0 (Z.to_nat s.(sender_parts))) /\
  r.(part_lengths) = length <$> (part_at s.(wire) <$> seq 0 (Z.to_nat s.(sender_parts))).
Proof.
  intros Hr Hc. pose proof (rc_wf _ _ Hr) as Hwf. destruct (wf_arrays r Hwf) as (A1 & A2 & _). destruct (rc_size _ _ Hr) as (Es & _).
  unfold total in *. rewrite Es in *. cbn in Hc. apply Z.eqb_eq in Hc. rewrite Es in Hc.
  pose proof (proj1 (stored_count_full (parts r)) ltac:(rewrite <-(wf_received r Hwf); lia)) as Hfull.
  assert (forall i, (i < Z.to_nat (sender_parts s))%nat ->
    parts r !! i = Some (Some (part_at (wire s) i)) /\ part_lengths r !! i = Some (length (part_at (wire s) i))) as Hat.
  { intros i Hi. destruct (Hfull i) as (p & Hp); [lia|]. pose proof (rc_parts _ _ Hr i p Hp) as ->. split; [done|].
    by destruct (wf_stored r Hwf _ _ Hp) as (_ & ? & _). }
  split; apply list_eq_same_length with (n := Z.to_nat (sender_parts s)); rewrite ?length_fmap, ?length_seq; try done;
    intros i x y Hi; rewrite !list_lookup_fmap, lookup_seq_lt by done; destruct (Hat i Hi) as [H1 H2]; rewrite ?H1, ?H2; cbn; congruence.
Qed.

Lemma omap_id_Some {A} (l : list A) : omap id (Some <$> l) = l.
Proof. induction l as [|x l IH]; [done|]. cbn [fmap list_fmap omap list_omap id]. by f_equal. Qed.

Lemma complete_wire link s data r :
  prepared link s data -> receiving s r -> rns_resource_parts_complete (Some r) = true ->
  sum_lengths r.(part_lengths) 0 = Some (wire_length s) /\ join_parts r.(parts) r.(part_lengths) = Some s.(wire).
Proof.
  intros Hp Hr Hc. destruct (complete_parts s r Hr Hc) as [-> ->]. pose proof (pr_advertisable _ _ _ Hp) as Ha.
  destruct (av_parts _ Ha) as [Hpn Hpm]. destruct (av_wire _ Ha) as [Hw _]. destruct (parts_of_range (wire_length s)) as [[_ Hle] _]; [lia|].
  pose proof (parts_of_bound (wire_length s) ltac:(lia)) as Hb. rewrite <-Hpn in Hle. set (n := Z.to_nat (sender_parts s)).
  assert (concat (part_at (wire s) <$> seq 0 n) = wire s) as Hcat by (apply parts_cover; unfold wire_length in *; lia). split.
  - assert (forall l : list (list Z), sum_list (length <$> l) = length (concat l)) as Hsum
      by (intros l; induction l as [|x l IH]; [done|]; cbn [fmap list_fmap sum_list concat]; rewrite length_app, <-IH; done).
    rewrite sum_lengths_fits; rewrite ?Hsum, ?Hcat; [done|done|]. unfold wire_length in Hb. limits. lia.
  - rewrite join_parts_spec; [|by rewrite !length_fmap|].
    + f_equal. unfold joined. rewrite <-Hcat at 2. f_equal. apply omap_id_Some.
    + intros i Hi. rewrite !length_fmap in Hi. destruct (lookup_lt_is_Some_2 (part_at (wire s) <$> seq 0 n) i) as [p Hpi]; [by rewrite length_fmap|].
      exists p. by rewrite (list_lookup_fmap Some), (list_lookup_fmap length), Hpi.
Qed.

(** The library calls of a delivery succeed, and the peer has the link's key. *)
Record delivers link (peer : Link.rns_link E) : Prop := {
  dv_malloc : forall n, malloc_ok n = true;
  dv_sha256 : forall m, is_Some (rns_sha256 m);
  dv_key : peer.(Link.derived_key) = link.(Link.derived_key);
  dv_state : peer.(Link.state) = Link.RNS_LINK_ACTIVE \/ peer.(Link.state) = Link.RNS_LINK_HANDSHAKE
}.

Lemma decrypt_wire_spec link s data r peer :
  prepared link s data -> receiving s r -> delivers link peer ->
  exists processed, decrypt_wire malloc_ok r (Some peer) s.(wire) = inr (s.(random_hash) ++ processed) /\ packed s.(flags) data processed /\
    (length processed <= length s.(wire))%nat.
Proof.
  intros Hp Hr [D1 _ D3 D4]. destruct (pr_wire _ _ _ Hp) as (seed & cap & processed & Henc & Hpk). exists processed.
  unfold decrypt_wire. destruct (rc_flags _ _ Hr) as [-> _]. rewrite D1. cbn [negb].
  unfold Link.rns_link_encrypt in Henc. case_bool_decide; [|done].
  assert (rns_token_decrypt link.(Link.derived_key) s.(wire) (length s.(wire)) = Some (s.(random_hash) ++ processed)) as Hdec
    by (by eapply token_roundtrip; [|unfold RNS_TOKEN_OVERHEAD; lia]).
  unfold Link.rns_link_decrypt. rewrite D3, Hdec.
  rewrite (proj2 (orb_true_iff _ _)) by (destruct D4; [left|right]; by apply bool_decide_eq_true).
  split; [done|]. split; [done|]. apply token_decrypt_size in Hdec as [Hl _]. rewrite length_app in Hl. lia.
Qed.

Lemma unpack_packed s data r processed o cap :
  receiving s r -> packed s.(flags) data processed -> Z.of_nat (length data) <= source_length s -> Z.of_nat (length processed) <= UINT_MAX ->
  (length data <= cap <= length o)%nat ->
  exists o', unpack r processed o cap = Some (RNS_OK, o', length data) /\ take (length data) o' = data /\ (length data <= length o')%nat.
Proof.
  intros Hr Hpk Hd Hu Hcap. destruct (wf_max_size r (rc_wf _ _ Hr)) as [Hm1 Hm2]. destruct (rc_size _ _ Hr) as (_ & _ & Es).
  destruct (rc_flags _ _ Hr) as [_ Ef]. unfold unpack. rewrite Ef. unfold packed in Hpk.
  assert (exists o', memcpy o 0 data = Some o' /\ take (length data) o' = data /\ (length data <= length o')%nat) as (o' & Hcpy & Ht & Hl).
  { unfold memcpy. rewrite decide_True by lia. rewrite take_0. cbn [app]. eexists. split; [done|].
    split; [by apply take_app_length|]. rewrite length_app. lia. }
  destruct (has_flag (flags s) _).
  - destruct Hpk as [-> [n Hbz]]. set (lim := min_size _ _). assert (Z.of_nat (length data) <= lim <= RNS_RESOURCE_MAX_SIZE) as Hlim.
    { unfold lim, min_size. rewrite Es in *. repeat case_match; lia. }
    unfold RNS_RESOURCE_MAX_SIZE, RNS_RESOURCE_DEFAULT_MAX_SIZE in Hlim. unfold UINT_MAX in *. rewrite !(proj2 (Z.ltb_ge _ _)) by lia.
    rewrite (bz_roundtrip data n processed) by (done || lia). cbn [bz_written]. rewrite Hcpy. cbn [mbind option_bind]. by exists o'.
  - subst processed. rewrite (proj2 (Nat.ltb_ge _ _)), !(proj2 (Z.ltb_ge _ _)) by lia. cbn [orb]. rewrite Hcpy. by exists o'.
Qed.

Lemma prepared_size link s data : prepared link s data -> 1 <= Z.of_nat (length data) <= source_length s /\ source_length s <= RNS_RESOURCE_MAX_SIZE.
Proof.
  intros Hp. pose proof (pr_job _ _ _ Hp) as Hj. destruct (segment_spec s Hj) as (_ & Hl & Hle). rewrite (pr_data _ _ _ Hp), Hl.
  destruct Hj as [Hs _ _ _]. lia.
Qed.

(** A receiver that has every part delivers the segment of the sender. *)
Lemma assemble_genuine link s data r peer o cap :
  prepared link s data -> receiving s r -> delivers link peer -> rns_resource_parts_complete (Some r) = true ->
  (length data <= cap <= length o)%nat ->
  exists digest o', rns_sha256 (data ++ s.(hash)) = Some digest /\ take (length data) o' = data /\
    rns_resource_assemble malloc_ok r (Some peer) (Some o) cap =
    Some (RNS_OK, with_proof (s.(hash) ++ digest) true r, Some o', Some (length data)).
Proof.
  intros Hp Hr Hd Hc Hcap. destruct (complete_wire link s data r Hp Hr Hc) as [Hsum Hjoin]. pose proof (rc_wf _ _ Hr) as Hwf.
  destruct (wf_arrays r Hwf) as (A1 & A2 & _). unfold total in A1, A2. destruct (rc_size _ _ Hr) as (_ & Ew & Es). destruct (rc_hash _ _ Hr) as [Eh Er].
  destruct (prepared_size _ _ _ Hp) as [Hdl Hmax]. unfold RNS_RESOURCE_MAX_SIZE, RNS_RESOURCE_DEFAULT_MAX_SIZE in Hmax.
  pose proof (pr_advertisable _ _ _ Hp) as Ha. destruct (av_parts _ Ha) as [Hpn Hpm]. pose proof (parts_of_bound (wire_length s) ltac:(lia)) as Hwl.
  destruct (decrypt_wire_spec link s data r peer Hp Hr Hd) as (processed & Hdec & Hpk & Hpl). destruct Hd as [D1 D2 _ _].
  destruct (D2 (data ++ hash s)) as [digest Hdig].
  destruct (unpack_packed s data r processed o cap Hr Hpk) as (o' & Hun & Ht & Hlo); [lia|unfold wire_length, UINT_MAX in *; lia|done|].
  exists digest, o'. split; [done|]. split; [done|]. unfold rns_resource_assemble. rewrite Hc. cbn [negb]. rewrite decide_False by lia.
  rewrite !take_full by done. rewrite Hsum, Ew, Z.eqb_refl, D1. cbn [negb]. rewrite Hjoin. cbn [mbind option_bind]. rewrite Hdec.
  destruct (rc_flags _ _ Hr) as [-> _]. rewrite length_app, (av_random _ Ha). rewrite (proj2 (Nat.ltb_ge _ _)) by lia. cbn [negb orb andb].
  rewrite drop_app_length' by (symmetry; by apply av_random). rewrite Hun. cbn [mbind option_bind is_ok andb].
  destruct (wf_max_size r Hwf) as [_ Hms]. rewrite Es in *. rewrite !(proj2 (Z.ltb_ge _ _)) by lia. cbn [orb negb].
  rewrite memread_in by lia. rewrite drop_0, Ht. cbn [mbind option_bind is_ok negb].
  assert (forall k, 0 <= k <= 32 -> add_size (Z.of_nat (length data)) k = Some (Z.of_nat (length data) + k)) as Hadd.
  { intros k Hk. unfold add_size. rewrite (proj2 (Z.ltb_ge _ _)); [done|]. limits. lia. }
  unfold verify_data, prove_data. rewrite !Hadd by lia. rewrite !D1, Er, Eh, (pr_hash _ _ _ Hp), memeq_refl, Hdig. done.
Qed.

(** The proof of a delivery is the one the sender expects. *)
Lemma proof_genuine link s data r digest o :
  prepared link s data -> (forall n, malloc_ok n = true) -> rns_sha256 (data ++ s.(hash)) = Some digest -> length o = RNS_RESOURCE_PROOF_SIZE ->
  exists o', rns_resource_build_proof (with_proof (s.(hash) ++ digest) true r) (Some o) = Some (RNS_OK, Some o') /\
    rns_resource_sender_validate_proof malloc_ok s (SBytes o') = Some RNS_OK.
Proof.
  intros Hp Hmal Hdig Ho. pose proof (pr_advertisable _ _ _ Hp) as Ha. pose proof (av_hash _ Ha) as Hh. pose proof (sha256_length _ _ Hdig) as Hdl.
  unfold RNS_RESOURCE_PROOF_SIZE in *. destruct (segment_spec s (pr_job _ _ _ Hp)) as (Hseg & Hsl & _). rewrite <-(pr_data _ _ _ Hp) in *.
  exists (hash s ++ digest). unfold rns_resource_build_proof, memcpy. cbn [with_proof assembled proof negb].
  rewrite decide_True by (rewrite length_app; lia). cbn [mbind option_bind take app Nat.add].
  rewrite drop_ge, app_nil_r by (rewrite length_app; lia). split; [done|]. unfold rns_resource_sender_validate_proof, RNS_RESOURCE_PROOF_SIZE.
  rewrite length_app, Hh, Hdl. cbn [Nat.add Nat.eqb negb]. rewrite (memread_at _ [] (hash s) digest 0 32) by done. cbn [mbind option_bind].
  rewrite memeq_refl. cbn [negb]. rewrite <-Hsl. destruct (prepared_size _ _ _ Hp) as [Hd1 Hd2].
  unfold RNS_RESOURCE_MAX_SIZE, RNS_RESOURCE_DEFAULT_MAX_SIZE in Hd2. unfold add_size.
  rewrite (proj2 (Z.ltb_ge _ _)) by (limits; lia). rewrite Hmal. cbn [negb]. rewrite Hseg. cbn [mbind option_bind].
  rewrite (memread_at _ (hash s) digest [] 32 32) by (by rewrite ?app_nil_r). cbn [mbind option_bind]. rewrite Hdig. by rewrite memeq_refl.
Qed.
End Sender.

(** ** Transfers under any schedule *)

Section Transfer.
Context `{Crypto} `{Bzip2} {E : Type}.
Implicit Types (s : rns_resource_sender) (link peer : Link.rns_link E) (r : rns_resource).

(** The senders of a source over a link: created, then moved from segment to
    segment. *)
Inductive sender_run link (src : list Z) : rns_resource_sender -> Prop :=
| run_create mok object_ok options seeds s :
    (forall o id, options = Some o -> o.(opt_request_id) = Some id -> length id = 16%nat) ->
    rns_resource_sender_create mok object_ok (Some link) (SBytes src) options seeds = Some (inr s) -> sender_run link src s
| run_advance mok seeds s s' :
    sender_run link src s -> rns_resource_sender_advance_segment mok s (Some link) seeds = Some (RNS_OK, s') -> sender_run link src s'.

Lemma sender_run_prepared link src s :
  sender_run link src s -> s.(source) = src /\ prepared link s (segment_of src s.(segment_index)).
Proof.
  induction 1 as [mok object_ok options seeds s Hid Hc|mok seeds s s' _ [<- IH] Ha].
  - destruct (sender_create_spec mok object_ok (Some link) (SBytes src) options seeds Hid) as (res & Hres & Hs). rewrite Hc in Hres.
    injection Hres as <-. destruct (Hs s eq_refl) as (l & [= <-] & Hsrc & _ & Hp). cbn in Hsrc. by rewrite Hsrc in *.
  - destruct (advance_segment_spec mok link link s _ seeds IH) as (st & s2 & Hres & _ & Hok). rewrite Ha in Hres. injection Hres as <- <-.
    destruct (Hok eq_refl) as (_ & Hsrc & Hidx & _ & _ & Hp). rewrite Hsrc, Hidx. done.
Qed.

(** What can happen to a receiver of [s]: a part of the sender arrives (again,
    late, in any order), or bytes that match no known hash; a page of hashes the
    sender answered to some request arrives; the receiver builds a request or a
    retry, which may be lost. Any allocation may fail. *)
Inductive transfer_step s : rns_resource -> rns_resource -> Prop :=
| step_part mok i p status r r' :
    rns_resource_sender_part s i = Some (inr p) -> rns_resource_receive_part mok r (SBytes p) = Some (status, r') -> transfer_step s r r'
| step_noise mok p status r r' :
    (forall i, (i < r.(known_hashes))%nat -> ~ belongs r i p) ->
    rns_resource_receive_part mok r (SBytes p) = Some (status, r') -> transfer_step s r r'
| step_update q o cap u n status r r' :
    (cap <= length o)%nat -> rns_resource_sender_hashmap_update s q (Some o) cap = Some (RNS_OK, Some u, Some n) ->
    rns_resource_apply_hashmap_update r (SBytes (take n u)) = Some (status, r') -> transfer_step s r r'
| step_request o cap status r r' out n :
    (cap <= length o)%nat -> rns_resource_build_request r (Some o) cap = Some (status, r', out, n) -> transfer_step s r r'
| step_retry o cap status r r' out n :
    (cap <= length o)%nat -> rns_resource_build_retry_request r (Some o) cap = Some (status, r', out, n) -> transfer_step s r r'.

Lemma request_parts_same r o cap x : request_outcome r o cap x -> x.1.1.2.(parts) = r.(parts) /\ x.1.1.2.(known_hashes) = r.(known_hashes).
Proof.
  destruct x as [[[st r'] out] n]. intros [(_ & -> & _)|[(_ & o' & l & hs & [_ _ _ _ (q & -> & _)] & _)|(_ & o' & a & b & [_ _ _ _ ->] & _)]]; done.
Qed.

Lemma receiving_same s r r' :
  receiving s r -> wf r' -> extends r r' -> r'.(parts) = r.(parts) /\ r'.(known_hashes) = r.(known_hashes) -> receiving s r'.
Proof. intros Hr Hwf Hex [Ep Ek]. eapply receiving_extends; [done|done|done|rewrite Ek; lia|rewrite Ep; auto]. Qed.

Lemma transfer_step_receiving link s data r r' : prepared link s data -> receiving s r -> transfer_step s r r' -> receiving s r' /\ extends r r'.
Proof.
  intros Hp Hr Hstep. pose proof (rc_wf _ _ Hr) as Hwf. destruct Hstep as [mok i p st r r' Hi Hrec|mok p st r r' Hn Hrec|q o cap u n st r r' Hc Hu Hap|o cap st r r' out n Hc Hb|o cap st r r' out n Hc Hb].
  - assert (i < Z.to_nat (sender_parts s))%nat as Hlt.
    { revert Hi. unfold rns_resource_sender_part. destruct (Z.leb_spec (sender_parts s) (Z.of_nat i)); [done|lia]. }
    destruct (sender_part_spec link s data i Hp Hlt) as [Hpi _]. rewrite Hi in Hpi. injection Hpi as ->.
    destruct (receive_genuine mok link s data r i Hp Hr Hlt) as (st2 & r2 & Heq & ? & ?). rewrite Hrec in Heq. by injection Heq as <- <-.
  - destruct (receive_part_spec mok r p Hwf) as (st2 & r2 & Heq & _ & _ & _ & Hcase). rewrite Hrec in Heq. injection Heq as <- <-.
    destruct Hcase as [->|(i & Hi & _ & Hb & _)]; [done|]. by destruct (Hn i).
  - destruct (hashmap_update_spec link s data q o cap Hp Hc) as (st2 & out & n2 & Heq & Hok). rewrite Hu in Heq. injection Heq as <- <- <-.
    destruct (Hok eq_refl) as (page & u2 & k & Hpg & Hlt & [= <-] & [= <-] & Ht). rewrite Ht in Hap.
    destruct (apply_genuine link s data r page Hp Hr) as (st3 & r3 & Heq & Hr3 & Hex & _); [lia|done|]. rewrite Hap in Heq. by injection Heq as <- <-.
  - destruct (build_request_spec r o cap Hwf Hc) as (x & Hx & Ho & Hwf' & Hex). rewrite Hb in Hx. injection Hx as <-.
    apply request_parts_same in Ho. split; [by eapply receiving_same|done].
  - destruct (build_retry_request_spec r o cap Hwf Hc) as (x & Hx & Hwf' & Hex & Hsame & _ & Hok). rewrite Hb in Hx. injection Hx as <-. cbn [fst snd] in *.
    split; [|done]. eapply receiving_same; [done..|]. destruct (decide (st = RNS_OK)) as [Est|]; [by destruct (Hok Est) as (_ & ? & ?)|].
    by rewrite Hsame.
Qed.

Lemma transfer_receiving link s data r r' : prepared link s data -> receiving s r -> rtc (transfer_step s) r r' -> receiving s r' /\ extends r r'.
Proof.
  intros Hp Hr Hs. induction Hs as [r|r r1 r' Hst _ IH]; [done|]. destruct (transfer_step_receiving link s data r r1 Hp Hr Hst) as [Hr1 Hx].
  destruct (IH Hr1) as [Hr' Hx']. split; [done|by etrans].
Qed.

(** The receiver that took the sender's advertisement. *)
Lemma advertised_receiving link s data o cap out n a maximum r :
  prepared link s data -> (430 <= cap <= length o)%nat ->
  rns_resource_sender_advertisement s (Some o) cap = Some (RNS_OK, Some out, Some n) ->
  rns_resource_advertisement_parse (SBytes (take n out)) = inr a -> rns_resource_accept true true a maximum = Some (inr r) -> receiving s r.
Proof.
  intros Hp Hcap Hadv Hparse Hacc. pose proof (pr_advertisable _ _ _ Hp) as Ha. destruct (length_advertisement s Ha) as [_ Hn].
  destruct (sender_advertisement_spec s o cap Ha) as (o' & Hadv' & Hparse'); [lia|]. rewrite Hadv in Hadv'. injection Hadv' as -> ->.
  rewrite Hparse in Hparse'. injection Hparse' as ->.
  destruct (accept_spec true true (advertised s) maximum) as (res & Hres & Hr); [done|by apply validate_advertised|by apply av_hash|by apply av_random|].
  rewrite Hacc in Hres. injection Hres as <-. destruct (Hr r eq_refl) as [Hwf [tail Er]]. by eapply accepted_receiving.
Qed.

(** C7: Transfers deliver the segment. A segment of a source that
    [rns_resource_sender_create] and [rns_resource_sender_advance_segment]
    prepared, advertised, parsed and accepted: whatever sequence of parts (lost,
    repeated, out of order), foreign bytes, updates of the hashes, requests and
    retries follows, once every part is there [rns_resource_assemble] over the
    peer's end of the link delivers exactly that segment, and the proof built
    from it is the one the sender accepts. *)
Theorem resource_transfer link peer src s adv cap out n a maximum r0 r o capacity po :
  sender_run link src s -> (430 <= cap <= length adv)%nat ->
  rns_resource_sender_advertisement s (Some adv) cap = Some (RNS_OK, Some out, Some n) ->
  rns_resource_advertisement_parse (SBytes (take n out)) = inr a -> rns_resource_accept true true a maximum = Some (inr r0) ->
  rtc (transfer_step s) r0 r -> rns_resource_parts_complete (Some r) = true ->
  delivers (λ _, true) link peer -> (length (segment_of src s.(segment_index)) <= capacity <= length o)%nat -> length po = RNS_RESOURCE_PROOF_SIZE ->
  exists r' o' p, rns_resource_assemble (λ _, true) r (Some peer) (Some o) capacity =
      Some (RNS_OK, r', Some o', Some (length (segment_of src s.(segment_index)))) /\
    take (length (segment_of src s.(segment_index))) o' = segment_of src s.(segment_index) /\
    rns_resource_build_proof r' (Some po) = Some (RNS_OK, Some p) /\
    rns_resource_sender_validate_proof (λ _, true) s (SBytes p) = Some RNS_OK.
Proof.
  intros Hrun Hcap Hadv Hparse Hacc Hsteps Hc Hd Hl Hpo. destruct (sender_run_prepared link src s Hrun) as [_ Hp].
  pose proof (advertised_receiving _ _ _ _ _ _ _ _ _ _ Hp Hcap Hadv Hparse Hacc) as Hr0.
  destruct (transfer_receiving _ _ _ _ _ Hp Hr0 Hsteps) as [Hr _].
  destruct (assemble_genuine _ link s _ r peer o capacity Hp Hr Hd Hc Hl) as (digest & o' & Hdig & Ht & Hasm).
  destruct (proof_genuine (λ _, true) link s _ r digest po Hp (λ _, eq_refl) Hdig Hpo) as (p & Hb & Hv). by eexists _, o', p.
Qed.

(** ** The exchange of requests and answers *)

(** The buffers of both ends are one packet. *)
Definition packet_buffer : list Z := replicate 500 0.

(** What the sender sends for a request: the parts, then the page of hashes. *)
Definition answer s (q : list Z) : option (list (list Z) * option (list Z)) :=
  y ← rns_resource_sender_requested_parts s (SBytes q) (Z.to_nat RNS_RESOURCE_MAX_PARTS);
  ps ← mapM (λ i, x ← rns_resource_sender_part s i; match x with inr p => Some p | inl _ => None end) y.2;
  z ← rns_resource_sender_hashmap_update s (SBytes q) (Some packet_buffer) 500;
  Some (ps, match z with (RNS_OK, Some u, Some n) => Some (take n u) | _ => None end).

Fixpoint take_parts r (ps : list (list Z)) : option rns_resource :=
  match ps with
  | [] => Some r
  | p :: ps => x ← rns_resource_receive_part (λ _, true) r (SBytes p); take_parts x.2 ps
  end.

Definition take_answer r (a : list (list Z) * option (list Z)) : option rns_resource :=
  r ← take_parts r a.1;
  match a.2 with None => Some r | Some u => w ← rns_resource_apply_hashmap_update r (SBytes u); Some w.2 end.

(** A request and its answer, both delivered. *)
Definition exchange_round s r : option rns_resource :=
  x ← rns_resource_build_request r (Some packet_buffer) 500;
  match x with
  | (RNS_OK, r, Some o, Some n) => a ← answer s (take n o); take_answer r a
  | (_, r, _, _) => Some r
  end.

Fixpoint exchange (n : nat) s r : option rns_resource :=
  match n with
  | O => Some r
  | S n => if rns_resource_parts_complete (Some r) then Some r else r ← exchange_round s r; exchange n s r
  end.

(** No request is open. *)
Definition idle r : Prop := forall i, r.(requested) !! i <> Some true.

Lemma find_hash link s data i h :
  prepared link s data -> (i < Z.to_nat s.(sender_parts))%nat -> memread s.(sender_map_hashes) (i * 4) 4 = Some h ->
  find_map_hash s.(sender_map_hashes) h (Z.to_nat s.(sender_parts)) 0 = Some (Some i).
Proof.
  intros Hp Hi Hh. pose proof (pr_maps _ _ _ Hp) as [Hl _ Hd].
  destruct (find_map_hash_spec (sender_map_hashes s) h (Z.to_nat (sender_parts s)) 0) as (res & -> & Hres); [lia|].
  destruct res as [k|]; [|by destruct (Hres i); [lia|]]. destruct Hres as (Hk & Hk2 & _). do 2 f_equal. apply Hd; [lia|done|congruence].
Qed.

(** The hashes of the parts [l] in a request are answered by these parts. *)
Lemma find_requested_genuine link s data q cap l off found :
  prepared link s data ->
  (forall k i, l !! k = Some i -> (i < Z.to_nat s.(sender_parts))%nat /\ memread q (off + k * 4) 4 = memread s.(sender_map_hashes) (i * 4) 4) ->
  (length found + length l <= cap)%nat -> find_requested s q off (length l) cap found = Some (RNS_OK, found ++ l).
Proof.
  intros Hp. revert off found. induction l as [|i l IH]; intros off found Hl Hcap; cbn [length find_requested]; [by rewrite app_nil_r|].
  destruct (Hl 0%nat i eq_refl) as [Hi Hm]. rewrite Nat.mul_0_l, Nat.add_0_r in Hm. rewrite Hm.
  pose proof (av_maps _ (pr_advertisable _ _ _ Hp)) as Hml. rewrite memread_in by lia. cbn [mbind option_bind].
  rewrite (find_hash link s data i) by (try done; by rewrite memread_in by lia). cbn [mbind option_bind]. cbn [length] in Hcap.
  rewrite (proj2 (Nat.leb_gt _ _)) by lia. rewrite IH; [by rewrite <-app_assoc| |rewrite length_app; cbn [length]; lia].
  intros k j Hk. destruct (Hl (S k) j Hk) as [Hj Hm2]. split; [done|]. rewrite <-Hm2. f_equal. lia.
Qed.

Lemma requested_genuine link s data pre kind l tail :
  prepared link s data -> (kind = 0x00 /\ pre = [] \/ kind = 0xff /\ length pre = 4%nat) -> (length l <= RNS_RESOURCE_WINDOW_MAX)%nat ->
  length tail = (length l * 4)%nat ->
  (forall k i, l !! k = Some i -> (i < Z.to_nat s.(sender_parts))%nat /\ memread tail (k * 4) 4 = memread s.(sender_map_hashes) (i * 4) 4) ->
  parse_request s (SBytes (kind :: pre ++ s.(hash) ++ tail)) = Some (inr (33 + length pre)%nat) /\
  rns_resource_sender_requested_parts s (SBytes (kind :: pre ++ s.(hash) ++ tail)) (Z.to_nat RNS_RESOURCE_MAX_PARTS) = Some (RNS_OK, l).
Proof.
  intros Hp Hk Hw Ht Hl. pose proof (av_hash _ (pr_advertisable _ _ _ Hp)) as Hh. unfold RNS_RESOURCE_WINDOW_MAX in *.
  set (q := kind :: pre ++ hash s ++ tail). assert (length q = 33 + length pre + length l * 4)%nat as Hq
    by (unfold q; cbn [length]; rewrite !length_app; lia).
  assert (parse_request s (SBytes q) = Some (inr (33 + length pre)%nat)) as Hparse.
  { unfold parse_request, q. fold q. assert (negb (kind =? 0) && negb (kind =? 255) = false) as -> by (by destruct Hk as [[-> _]|[-> _]]).
    assert ((if kind =? 0 then 33%nat else 37%nat) = (33 + length pre)%nat) as -> by (destruct Hk as [[-> ->]|[-> ->]]; done).
    rewrite (proj2 (Nat.ltb_ge _ _)) by lia. rewrite Hq. replace (33 + length pre + length l * 4 - (33 + length pre))%nat with (length l * 4)%nat by lia.
    rewrite Nat.Div0.mod_mul. cbn [Nat.eqb negb orb].
    rewrite (memread_at q (kind :: pre) (hash s) tail); [|done| |done]; [|destruct Hk as [[-> ->]|[-> Hpre]]; cbn; lia].
    cbn [mbind option_bind]. by rewrite memeq_refl. }
  split; [done|]. unfold rns_resource_sender_requested_parts. rewrite Hparse. cbn [mbind option_bind slice_bytes]. rewrite Hq.
  replace (33 + length pre + length l * 4 - (33 + length pre))%nat with (length l * 4)%nat by lia. rewrite Nat.div_mul by done.
  rewrite (proj2 (Nat.ltb_ge _ _)) by (unfold RNS_RESOURCE_WINDOW_MAX; lia).
  rewrite (find_requested_genuine link s data); [done|done| |cbn [length]; unfold RNS_RESOURCE_MAX_PARTS; lia].
  intros k i Hki. destruct (Hl k i Hki) as [Hi Hm]. split; [done|]. rewrite <-Hm. pose proof (lookup_lt_Some _ _ _ Hki) as Hlt.
  rewrite !memread_in by lia. f_equal. f_equal. unfold q. change (kind :: pre ++ hash s ++ tail) with ((kind :: pre) ++ hash s ++ tail).
  rewrite app_assoc, drop_app_ge by (rewrite length_app; cbn [length]; lia). f_equal. rewrite length_app. cbn [length]. lia.
Qed.

(** A genuine part whose hash is known is stored, and its request is closed. *)
Lemma receive_known link s data r j :
  prepared link s data -> receiving s r -> (forall m, is_Some (rns_sha256 m)) -> (j < r.(known_hashes))%nat ->
  exists r', rns_resource_receive_part (λ _, true) r (SBytes (part_at s.(wire) j)) = Some (RNS_OK, r') /\ receiving s r' /\ extends r r' /\
    r'.(known_hashes) = r.(known_hashes) /\ r'.(waiting) = r.(waiting) /\ r'.(parts) !! j = Some (Some (part_at s.(wire) j)) /\
    forall i, r'.(requested) !! i = Some true -> r.(requested) !! i = Some true /\ i <> j.
Proof.
  intros Hp Hr Hsha Hj. pose proof (rc_wf _ _ Hr) as Hwf. pose proof (wf_known r Hwf) as Hk. destruct (rc_size _ _ Hr) as (Es & _).
  unfold total in Hk. rewrite Es in Hk. assert (j < Z.to_nat (sender_parts s))%nat as Hjs by lia.
  destruct (receive_genuine (λ _, true) link s data r j Hp Hr Hjs) as (st & r' & Hrec & Hr' & Hex).
  destruct (sender_part_spec link s data j Hp Hjs) as [_ Hpl]. set (p := part_at (wire s) j) in *.
  destruct (ho_parts _ _ _ _ (pr_maps _ _ _ Hp) j Hjs) as (d & Hd & Hm). fold p in Hd. destruct (rc_hash _ _ Hr) as [_ Erand].
  destruct (wf_arrays r Hwf) as (A1 & A2 & A3). unfold total in *. rewrite Es in *.
  assert (find_map_hash r.(map_hashes) (take 4 d) r.(known_hashes) 0 = Some (Some j)) as Hfind.
  { pose proof (wf_maps r Hwf) as Hml. unfold total in Hml. rewrite Es in Hml.
    destruct (find_map_hash_spec (map_hashes r) (take 4 d) (known_hashes r) 0) as (res & -> & Hres); [lia|].
    destruct res as [k|]; [|destruct (Hres j); [lia|by rewrite (rc_maps _ _ Hr)]]. do 2 f_equal. destruct Hres as (Hk' & Hk2 & _).
    eapply (genuine_index link s data r k j); [done..|lia|]. exists d. by rewrite Erand. }
  assert (hash_part (λ _, true) p r.(advertisement).(adv_random_hash) = inr d) as Hhash.
  { unfold hash_part, add_size. rewrite (proj2 (Z.ltb_ge _ _)) by (limits; lia). cbn [negb]. by rewrite Erand, Hd. }
  exists r'. revert Hrec. unfold rns_resource_receive_part. destruct p as [|b p'] eqn:Ep; [cbn in Hpl; lia|]. rewrite <-Ep in *.
  unfold RNS_RESOURCE_PART_MAX. rewrite (proj2 (Z.ltb_ge _ _)) by lia. rewrite Hhash, Hfind. cbn [mbind option_bind].
  destruct (lookup_lt_is_Some_2 (parts r) j) as [stored Hst]; [lia|]. rewrite Hst. cbn [mbind option_bind]. destruct stored as [q|].
  - destruct (wf_stored r Hwf j q Hst) as (_ & -> & _). pose proof (rc_parts _ _ Hr j q Hst) as Eq. fold p in Eq. subst q.
    cbn [mbind option_bind]. rewrite Nat.eqb_refl, memeq_refl. cbn [andb]. intros [= <- <-]. split_and!; try done.
    intros i Hi. split; [done|]. intros ->. destruct (wf_requested r Hwf j Hi). congruence.
  - cbn [negb]. rewrite decide_True by lia. intros [= <- <-]. split_and!; try done.
    + fields. by rewrite list_lookup_insert_eq by lia.
    + fields. intros i. destruct (decide (i = j)) as [->|]; [by rewrite list_lookup_insert_eq by lia|]. by rewrite list_lookup_insert_ne.
Qed.

Lemma take_parts_known link s data r l :
  prepared link s data -> receiving s r -> (forall m, is_Some (rns_sha256 m)) -> (forall j, j ∈ l -> (j < r.(known_hashes))%nat) ->
  exists r', take_parts r (part_at s.(wire) <$> l) = Some r' /\ receiving s r' /\ extends r r' /\
    r'.(known_hashes) = r.(known_hashes) /\ r'.(waiting) = r.(waiting) /\
    (forall j, j ∈ l -> exists p, r'.(parts) !! j = Some (Some p)) /\
    forall i, r'.(requested) !! i = Some true -> r.(requested) !! i = Some true /\ i ∉ l.
Proof.
  intros Hp Hr Hsha. revert r Hr. induction l as [|j l IH]; intros r Hr Hl; cbn [fmap list_fmap take_parts].
  { exists r. split_and!; try done; [intros j Hj; by apply not_elem_of_nil in Hj|]. intros i Hi. split; [done|apply not_elem_of_nil]. }
  destruct (receive_known link s data r j Hp Hr Hsha) as (r1 & -> & Hr1 & Hx1 & Hk1 & Hw1 & Hs1 & Hq1); [apply Hl; left|].
  cbn [mbind option_bind snd]. destruct (IH r1 Hr1) as (r' & -> & Hr' & Hx' & Hk' & Hw' & Hs' & Hq'); [intros i Hi; rewrite Hk1; apply Hl; by right|].
  exists r'. split_and!; try done; [by etrans|congruence|congruence| |].
  - intros i [->|Hi]%elem_of_cons; [|by apply Hs']. eexists. by eapply ex_stored.
  - intros i Hi. destruct (Hq' i Hi) as [Hi1 Hn]. destruct (Hq1 i Hi1). split; [done|]. by apply not_elem_of_cons.
Qed.

Lemma stored_count_mono (ps qs : list (option (list Z))) :
  length ps = length qs -> (forall i p, ps !! i = Some (Some p) -> qs !! i = Some (Some p)) -> (stored_count ps <= stored_count qs)%nat.
Proof.
  revert qs. induction ps as [|p ps IH]; intros [|q qs] Hl Hi; try done. injection Hl as Hl.
  specialize (IH qs Hl (λ i, Hi (S i))). unfold stored_count in *. destruct p as [p|].
  - pose proof (Hi 0%nat p eq_refl) as [= ->]. cbn. lia.
  - destruct q; cbn; lia.
Qed.

(** A resource that extends another one has as many parts, and more when a
    missing one is stored. *)
Lemma extends_received r r' :
  wf r -> wf r' -> extends r r' -> (r.(received) <= r'.(received))%nat /\
    forall i p, r.(parts) !! i = Some None -> r'.(parts) !! i = Some (Some p) -> (r.(received) < r'.(received))%nat.
Proof.
  intros Hr Hr' Hex. destruct (wf_arrays r Hr) as (A & _), (wf_arrays r' Hr') as (A' & _). unfold total in *. rewrite (ex_advertisement _ _ Hex) in A'.
  rewrite (wf_received r Hr), (wf_received r' Hr'). split; [apply stored_count_mono; [lia|by apply ex_stored]|]. intros i p Hn Hs.
  apply Nat.lt_le_trans with (stored_count (<[i := Some p]> (parts r))); [rewrite stored_count_insert by done; lia|].
  apply stored_count_mono; [rewrite length_insert; lia|]. intros j q. destruct (decide (j = i)) as [->|].
  - rewrite list_lookup_insert_eq by (by eapply lookup_lt_Some). by intros [= <-].
  - rewrite list_lookup_insert_ne by done. by apply ex_stored.
Qed.

Lemma sender_parts_mapM link s data l :
  prepared link s data -> (forall i, i ∈ l -> (i < Z.to_nat s.(sender_parts))%nat) ->
  mapM (λ i, x ← rns_resource_sender_part s i; match x with inr p => Some p | inl _ => None end) l = Some (part_at s.(wire) <$> l).
Proof.
  intros Hp Hl. apply mapM_Some. apply Forall2_fmap_r, Forall_Forall2_diag, list.Forall_forall. intros i Hi.
  destruct (sender_part_spec link s data i Hp) as [-> _]; [by apply Hl|]. done.
Qed.

Lemma memread_length (m b : list Z) i n : memread m i n = Some b -> length b = n.
Proof. unfold memread. case_decide; [|done]. intros [= <-]. rewrite length_take, length_drop. lia. Qed.

Lemma concat_at (hs : list (list Z)) k h :
  Forall (λ x, length x = 4%nat) hs -> hs !! k = Some h -> length (concat hs) = (length hs * 4)%nat /\ memread (concat hs) (k * 4) 4 = Some h.
Proof.
  intros HF. revert k h. induction HF as [|x hs Hx HF IH]; intros k h Hk; [done|]. cbn [concat length]. rewrite length_app. destruct k as [|k].
  - injection Hk as ->. split; [|by apply (memread_at _ [] h (concat hs))].
    destruct hs as [|y hs']; [cbn; lia|]. destruct (IH 0%nat y eq_refl) as [-> _]. lia.
  - destruct (IH k h Hk) as [Hl Hm]. split; [lia|]. apply lookup_lt_Some in Hk. cbn [length] in Hk. rewrite memread_in in Hm by lia.
    rewrite memread_in by (rewrite length_app; lia). rewrite <-Hm. f_equal. f_equal. rewrite drop_app_ge by lia. f_equal. lia.
Qed.

(** What a round leaves: the receiver is idle again and closer to the end. *)
Record progress s r r' : Prop := {
  pg_receiving : receiving s r';
  pg_extends : extends r r';
  pg_idle : idle r';
  pg_closer : (r.(received) + r.(known_hashes) < r'.(received) + r'.(known_hashes))%nat
}.

Lemma round_parts link s data r r1 l hs o :
  prepared link s data -> receiving s r -> (forall m, is_Some (rns_sha256 m)) -> idle r -> wf r1 -> extends r r1 -> asks_parts r r1 l hs ->
  (length l <= RNS_RESOURCE_WINDOW)%nat -> wrote 500 o ([0x00] ++ r.(advertisement).(adv_hash) ++ concat hs) ->
  exists r', (a ← answer s (take (33 + length l * 4) o); take_answer r1 a) = Some r' /\ progress s r r'.
Proof.
  intros Hp Hr Hsha Hidle Hwf1 Hex1 [Hl0 Hmiss Hnd HF (qs & Er1 & _ & Hqs)] Hw Ho. pose proof (rc_wf _ _ Hr) as Hwf.
  pose proof (wf_known r Hwf) as Hk. destruct (rc_size _ _ Hr) as (Es & _). unfold total in Hk. rewrite Es in Hk.
  assert (receiving s r1) as Hr1 by (eapply receiving_same; [done..|by rewrite Er1]).
  assert (Forall (λ x, length x = 4%nat) hs) as H4.
  { eapply Forall2_Forall_r; [exact HF|]. apply list.Forall_forall. intros i _ h Hh. by apply memread_length in Hh. }
  assert (length hs = length l) as Hhl by (symmetry; by eapply Forall2_length).
  destruct (rc_hash _ _ Hr) as [Eh _]. rewrite Eh in Ho.
  assert (length (concat hs) = length l * 4)%nat as Hcl.
  { destruct hs as [|h hs']; [destruct l; done|]. destruct (concat_at (h :: hs') 0 h H4 eq_refl) as [-> _]. lia. }
  destruct Ho as (_ & Ht & _). rewrite !length_app, (av_hash _ (pr_advertisable _ _ _ Hp)), Hcl in Ht. cbn [length Nat.add] in Ht.
  cbn [Nat.add]. rewrite Ht. destruct (requested_genuine link s data [] 0 l (concat hs)) as [Hparse Hreq]; [done|by left|unfold RNS_RESOURCE_WINDOW, RNS_RESOURCE_WINDOW_MAX in *; lia|done| |].
  { intros k i Hki. destruct (Hmiss i) as [Hi _]; [by eapply list_elem_of_lookup_2|]. split; [lia|].
    destruct (Forall2_lookup_l _ _ _ _ _ HF Hki) as (h & Hh & Hm). destruct (concat_at hs k h H4 Hh) as [_ ->]. rewrite <-Hm. by apply (rc_maps _ _ Hr). }
  cbn [app] in *. unfold answer. rewrite Hreq. cbn [mbind option_bind snd].
  rewrite (sender_parts_mapM link s data) by (try done; intros i Hi; destruct (Hmiss i Hi); lia). cbn [mbind option_bind].
  unfold rns_resource_sender_hashmap_update. rewrite Hparse. cbn [mbind option_bind slice_bytes load lookup list_lookup Z.eqb negb].
  destruct (take_parts_known link s data r1 l Hp Hr1 Hsha) as (r' & Htp & Hr' & Hx' & Hk' & _ & Hst & Hq).
  { intros j Hj. rewrite Er1. by destruct (Hmiss j Hj). }
  unfold take_answer. cbn [fst snd]. rewrite Htp. exists r'. split; [done|].
  assert (extends r r') as Hx by (by etrans). constructor; [done|done| |].
  - intros i Hi. destruct (Hq i Hi) as [Hi1 Hn]. rewrite Er1 in Hi1. cbn [with_requested requested] in Hi1. rewrite Hqs in Hi1.
    rewrite decide_False in Hi1 by done. by apply (Hidle i).
  - destruct l as [|i l]; [done|]. destruct (Hmiss i) as (_ & Hn & _); [left|]. destruct (Hst i) as [p Hp']; [left|].
    destruct (extends_received r r' Hwf (rc_wf _ _ Hr') Hx) as [_ Hlt]. specialize (Hlt i p Hn Hp').
    assert (known_hashes r1 = known_hashes r) by (by rewrite Er1). lia.
Qed.

(** The page the request for more hashes is answered with. *)
Lemma update_genuine link s data last again k :
  prepared link s data -> (1 <= k < Z.to_nat s.(sender_parts))%nat -> Z.of_nat k mod 74 = 0 ->
  memread s.(sender_map_hashes) ((k - 1) * 4) 4 = Some last ->
  parse_request s (SBytes (0xff :: last ++ s.(hash) ++ again)) = Some (inr 37%nat) ->
  exists u n, rns_resource_sender_hashmap_update s (SBytes (0xff :: last ++ s.(hash) ++ again)) (Some packet_buffer) 500 = Some (RNS_OK, Some u, Some n) /\
    take n u = page_bytes s (Z.of_nat k / 74).
Proof.
  intros Hp Hk Hmod Hlast Hparse. pose proof (memread_length _ _ _ _ Hlast) as H4. unfold rns_resource_sender_hashmap_update.
  rewrite Hparse. cbn [mbind option_bind slice_bytes]. change (load (255 :: last ++ hash s ++ again) 0) with (Some 255).
  cbn [mbind option_bind Z.eqb Pos.eqb negb]. rewrite (memread_at _ [255] last (hash s ++ again)) by done. cbn [mbind option_bind].
  rewrite (find_hash link s data (k - 1)) by (done || lia). cbn [mbind option_bind]. unfold RNS_RESOURCE_HASHMAP_MAX_ENTRIES.
  replace (Z.of_nat (k - 1) + 1) with (Z.of_nat k) by lia. rewrite Hmod. cbn [Z.eqb negb]. set (page := Z.of_nat k / 74).
  pose proof (Z.div_mod (Z.of_nat k) 74 ltac:(lia)) as Hdiv. rewrite Hmod in Hdiv. fold page in Hdiv.
  rewrite (proj2 (Z.leb_gt _ _)) by lia.
  assert (min_size (sender_parts s - page * 74) 74 = Z.min (sender_parts s - page * 74) 74) as ->
    by (unfold min_size; destruct (Z.ltb_spec 74 (sender_parts s - page * 74)); lia).
  pose proof (pr_advertisable _ _ _ Hp) as Ha. destruct (page_hashes_at s page 0 (av_maps _ Ha)) as [Hph _]; [lia|lia|].
  pose proof (length_page_bytes s page (av_hash _ Ha)) as Hpb.
  assert (mp_uint_size page <= 9 /\ mp_bin_header_size (length (page_hashes s page)) <= 5)%nat as [H9 H5]
    by (unfold mp_uint_size, mp_bin_header_size; repeat case_match; lia).
  rewrite (proj2 (Nat.ltb_ge _ _)) by (rewrite <-Hph; lia).
  apply (put_page link s data page packet_buffer Hp); [lia|lia|]. change (length packet_buffer) with 500%nat. lia.
Qed.

Lemma page_taken_progress s r r' page map :
  receiving s r -> idle r -> page_taken r r' page map -> (r.(known_hashes) < r'.(known_hashes))%nat /\ idle r' /\ r'.(received) = r.(received).
Proof.
  intros Hr Hi [_ Hpg Hlen Hmore (maps & _ & ->)]. fields. split; [|by split]. unfold total in Hmore.
  pose proof (wf_parts r (rc_wf _ _ Hr)). assert (1 <= length map / 4)%nat; [|lia]. apply Nat.div_le_lower_bound; lia.
Qed.

Lemma round_page link s data r r1 last again o :
  prepared link s data -> receiving s r -> (forall m, is_Some (rns_sha256 m)) -> idle r -> wf r1 -> extends r r1 -> asks_page r r1 last again ->
  wrote 500 o ([0xff] ++ last ++ r.(advertisement).(adv_hash) ++ again) ->
  exists r', (a ← answer s (take (37 + length again) o); take_answer r1 a) = Some r' /\ progress s r r'.
Proof.
  intros Hp Hr Hsha Hidle Hwf1 Hex1 [_ Hlt Hlast [Hal Hagain] Er1] Ho. pose proof (rc_wf _ _ Hr) as Hwf.
  pose proof (wf_known r Hwf) as Hk. destruct (rc_size _ _ Hr) as (Es & _). unfold total in Hk, Hlt. rewrite Es in Hk, Hlt.
  assert (receiving s r1) as Hr1 by (eapply receiving_same; [done..|by rewrite Er1]).
  assert (Z.of_nat (known_hashes r) mod 74 = 0) as Hmod by (destruct (wf_pages r Hwf) as [He|]; [unfold total in He; lia|done]).
  destruct (rc_hash _ _ Hr) as [Eh _]. rewrite Eh in Ho. rewrite (rc_maps _ _ Hr) in Hlast by lia. pose proof (memread_length _ _ _ _ Hlast) as H4.
  unfold RNS_RESOURCE_WINDOW in *. set (rep := Nat.min (known_hashes r) 4) in *.
  destruct Ho as (_ & Ht & _). rewrite !length_app, (av_hash _ (pr_advertisable _ _ _ Hp)), H4 in Ht. cbn [length Nat.add] in Ht. cbn [Nat.add]. rewrite Ht.
  destruct (requested_genuine link s data last 255 (seq (known_hashes r - rep) rep) again) as [Hparse Hreq]; [done|by right|unfold RNS_RESOURCE_WINDOW_MAX; rewrite length_seq; lia|by rewrite length_seq| |].
  { intros k i [-> Hki]%lookup_seq. split; [lia|]. rewrite <-(rc_maps _ _ Hr) by lia. pose proof (wf_maps r Hwf) as Hml. unfold total in Hml. rewrite Es in Hml.
    rewrite Hal in Hagain. rewrite memread_in in Hagain by lia. injection Hagain as <-. rewrite length_take, length_drop in Hal.
    rewrite !memread_in by (rewrite ?length_take, ?length_drop; lia). f_equal. rewrite skipn_firstn_comm, take_take, drop_drop. f_equal; [lia|]. f_equal. lia. }
  rewrite H4 in Hparse. destruct (update_genuine link s data last again (known_hashes r) Hp) as (u & n & Hup & Hu); [lia|done|done|done|].
  cbn [app] in *. unfold answer. rewrite Hreq. cbn [mbind option_bind snd].
  rewrite (sender_parts_mapM link s data) by (try done; intros i [? ?]%elem_of_seq; lia). cbn [mbind option_bind]. rewrite Hup. cbn [mbind option_bind]. rewrite Hu.
  destruct (take_parts_known link s data r1 (seq (known_hashes r - rep) rep) Hp Hr1 Hsha) as (r2 & Htp & Hr2 & Hx2 & Hk2 & Hw2 & _ & Hq2).
  { intros j [? ?]%elem_of_seq. rewrite Er1. cbn [with_requested known_hashes]. lia. }
  unfold take_answer. cbn [fst snd]. rewrite Htp. cbn [mbind option_bind]. rewrite Er1 in Hk2, Hw2, Hq2. cbn [with_requested known_hashes waiting requested] in Hk2, Hw2, Hq2.
  pose proof (Z.div_mod (Z.of_nat (known_hashes r)) 74 ltac:(lia)) as Hdiv. rewrite Hmod in Hdiv.
  destruct (apply_genuine link s data r2 (Z.of_nat (known_hashes r) / 74) Hp Hr2) as (st & r3 & -> & Hr3 & Hx3 & Hok); [lia|lia|].
  destruct (Hok Hw2) as [-> Htaken]; [lia|]. cbn [mbind option_bind snd]. exists r3. split; [done|]. assert (extends r r2) as Hx by (by etrans).
  destruct (page_taken_progress s r2 r3 _ _ Hr2 ltac:(intros i Hi; by destruct (Hq2 i Hi) as [?%Hidle _]) Htaken) as (Hk3 & Hi3 & Hrc3).
  constructor; [done|by etrans|done|]. destruct (extends_received r r2 Hwf (rc_wf _ _ Hr2) Hx) as [Hle _]. lia.
Qed.

Lemma round_progress link s data r :
  prepared link s data -> receiving s r -> (forall m, is_Some (rns_sha256 m)) -> idle r -> rns_resource_parts_complete (Some r) = false ->
  exists r', exchange_round s r = Some r' /\ progress s r r'.
Proof.
  intros Hp Hr Hsha Hi Hc. unfold exchange_round.
  destruct (build_request_spec r packet_buffer 500 (rc_wf _ _ Hr)) as ([[[st r1] out] len] & -> & Ho & Hwf1 & Hex1); [done|].
  cbn [mbind option_bind fst snd] in *. destruct Ho as [(_ & _ & _ & _ & Hwhy)|[(-> & o & l & hs & Hasks & -> & -> & Hl & Hw)|(-> & o & last & again & Hasks & -> & -> & Hw)]].
  - exfalso. destruct Hwhy as [|[[i Hreq]|]]; [congruence|by apply (Hi i)|lia].
  - by eapply round_parts.
  - by eapply round_page.
Qed.

Lemma exchange_completes link s data n r :
  prepared link s data -> receiving s r -> (forall m, is_Some (rns_sha256 m)) -> idle r ->
  (2 * Z.to_nat s.(sender_parts) <= n + r.(received) + r.(known_hashes))%nat ->
  exists r', exchange n s r = Some r' /\ receiving s r' /\ rns_resource_parts_complete (Some r') = true.
Proof.
  intros Hp. revert r. induction n as [|n IH]; intros r Hr Hsha Hi Hn.
  - exists r. split; [done|]. split; [done|]. pose proof (rc_wf _ _ Hr) as Hwf. pose proof (wf_known r Hwf). pose proof (stored_count_le (parts r)).
    destruct (wf_arrays r Hwf) as (A & _). destruct (rc_size _ _ Hr) as (Es & _). pose proof (wf_parts r Hwf) as Hpos.
    unfold total in *. rewrite Es in *. rewrite <-(wf_received r Hwf) in *. cbn. rewrite Es. apply Z.eqb_eq. lia.
  - cbn [exchange]. destruct (rns_resource_parts_complete (Some r)) eqn:Hc; [by exists r|].
    destruct (round_progress link s data r Hp Hr Hsha Hi Hc) as (r1 & -> & [Hr1 _ Hi1 Hlt]). cbn [mbind option_bind]. apply IH; [done..|lia].
Qed.

Lemma accept_idle a maximum r : rns_resource_accept true true a maximum = Some (inr r) -> idle r.
Proof.
  unfold rns_resource_accept. intros Ha i Hi. repeat case_match; try done; 
    (apply bind_Some in Ha as (maps & _ & [= <-]); by apply lookup_replicate in Hi as [? _]).
Qed.

(** C8: The exchange completes. A receiver that accepts the advertisement of a
    prepared sender and whose requests (one packet each) and answers are
    delivered has every part, over all pages of hashes, after at most two rounds
    per part: no round ends without a new part or a new page, and no call reads
    or writes out of bounds. *)
Theorem resource_exchange_completes link src s adv cap out n a maximum r :
  sender_run link src s -> (430 <= cap <= length adv)%nat -> (forall m, is_Some (rns_sha256 m)) ->
  rns_resource_sender_advertisement s (Some adv) cap = Some (RNS_OK, Some out, Some n) ->
  rns_resource_advertisement_parse (SBytes (take n out)) = inr a -> rns_resource_accept true true a maximum = Some (inr r) ->
  exists r', exchange (2 * Z.to_nat s.(sender_parts)) s r = Some r' /\ rns_resource_parts_complete (Some r') = true /\
    r'.(parts) = Some <$> (part_at s.(wire) <$> seq 0 (Z.to_nat s.(sender_parts))).
Proof.
  intros Hrun Hcap Hsha Hadv Hparse Hacc. destruct (sender_run_prepared link src s Hrun) as [_ Hp].
  pose proof (advertised_receiving _ _ _ _ _ _ _ _ _ _ Hp Hcap Hadv Hparse Hacc) as Hr.
  destruct (exchange_completes link s _ (2 * Z.to_nat s.(sender_parts)) r Hp Hr Hsha) as (r' & Hx & Hr' & Hc); [by eapply accept_idle|lia|].
  exists r'. split_and!; [done|done|by apply complete_parts].
Qed.

(** The segments make the source. Every sender of a source is at one of its
    segments; the segments, at most 1048575 bytes each and none empty, joined in
    order are the source. [rns_resource_sender_advance_segment] moves to the next
    one, keeping the hash of the first segment and the source, or changes
    nothing; behind the last segment it is refused. *)
Theorem resource_segments link src s mok seeds :
  sender_run link src s ->
  concat ((λ k, segment_of src (Z.of_nat k)) <$> seq 1 (Z.to_nat s.(total_segments))) = src /\
  1 <= s.(segment_index) <= s.(total_segments) /\
  1 <= Z.of_nat (length (segment_of src s.(segment_index))) <= RNS_RESOURCE_SINGLE_SEGMENT_MAX_SIZE /\
  exists status s', rns_resource_sender_advance_segment mok s (Some link) seeds = Some (status, s') /\
    (status <> RNS_OK -> s' = s) /\ (s.(segment_index) = s.(total_segments) -> status <> RNS_OK) /\
    (status = RNS_OK -> s'.(segment_index) = s.(segment_index) + 1 /\ s'.(total_segments) = s.(total_segments) /\
      s'.(original_hash) = s.(original_hash) /\ rns_sha256 (segment_of src s'.(segment_index) ++ s'.(random_hash)) = Some s'.(hash)).
Proof.
  intros Hrun. destruct (sender_run_prepared link src s Hrun) as [Esrc Hp]. pose proof (pr_job _ _ _ Hp) as [J1 J2 J3 _].
  destruct (prepared_size _ _ _ Hp) as [Hd _]. split; [|split; [done|split]].
  - apply segments_cover. rewrite Z2Nat.id by lia. rewrite J2. unfold source_length in *. rewrite Esrc in *.
    pose proof (Z.mul_succ_div_gt (Z.of_nat (length src) + RNS_RESOURCE_SINGLE_SEGMENT_MAX_SIZE - 1) RNS_RESOURCE_SINGLE_SEGMENT_MAX_SIZE).
    unfold RNS_RESOURCE_SINGLE_SEGMENT_MAX_SIZE in *. lia.
  - split; [lia|]. unfold segment_of. rewrite length_take. unfold RNS_RESOURCE_SINGLE_SEGMENT_MAX_SIZE. lia.
  - destruct (advance_segment_spec mok link link s _ seeds Hp) as (st & s' & -> & Hsame & Hok). eexists _, _. split; [done|]. split; [done|]. split.
    + intros Hlast ->. destruct (Hok eq_refl) as [? _]. lia.
    + intros Hst. destruct (Hok Hst) as (_ & _ & Hi & Ht & Hor & Hp'). split_and!; [done|done|done|]. rewrite Hi, <-Esrc. apply (pr_hash _ _ _ Hp').
Qed.
End Transfer.

(** ** Witnesses *)

Lemma sample_run : sender_run Link.sample_active sample_source sample_sender.
Proof. apply (run_create _ _ (λ _, true) true None sample_seeds); [done|]. vm_compute. reflexivity. Qed.

Definition sample_written : list Z :=
  match rns_resource_sender_advertisement sample_sender (Some sample_buffer) 500 with Some (_, Some o, _) => o | _ => [] end.

(** The receiver after part [i] of the sample. *)
Definition sample_take (r : rns_resource) (i : nat) : rns_resource :=
  match rns_resource_receive_part (λ _, true) r (SBytes (part_at sample_sender.(wire) i)) with Some (_, r') => r' | None => r end.

Definition sample_last : rns_resource := foldl sample_take sample_resource [2; 0; 1]%nat.

Lemma sample_steps : rtc (transfer_step sample_sender) sample_resource sample_last.
Proof.
  apply (rtc_l _ _ (sample_take sample_resource 2)); [apply (step_part _ (λ _, true) 2 (part_at sample_sender.(wire) 2) RNS_OK); vm_compute; reflexivity|].
  apply (rtc_l _ _ (foldl sample_take sample_resource [2; 0]%nat)); [apply (step_part _ (λ _, true) 0 (part_at sample_sender.(wire) 0) RNS_OK); vm_compute; reflexivity|].
  apply rtc_once. apply (step_part _ (λ _, true) 1 (part_at sample_sender.(wire) 1) RNS_OK); vm_compute; reflexivity.
Qed.

Lemma resource_transfer_witness :
  exists r' o' p, rns_resource_assemble (λ _, true) sample_last (Some Link.sample_active) (Some (replicate 1000 0)) 1000 =
      Some (RNS_OK, r', Some o', Some (length (segment_of sample_source sample_sender.(segment_index)))) /\
    take (length (segment_of sample_source sample_sender.(segment_index))) o' = segment_of sample_source sample_sender.(segment_index) /\
    rns_resource_build_proof r' (Some (replicate 64 0)) = Some (RNS_OK, Some p) /\
    rns_resource_sender_validate_proof (λ _, true) sample_sender (SBytes p) = Some RNS_OK.
Proof.
  apply (resource_transfer Link.sample_active Link.sample_active sample_source sample_sender sample_buffer 500 sample_written
    (length sample_advertisement) (advertised sample_sender) 0 sample_resource).
  - exact sample_run.
  - change (length sample_buffer) with 500%nat. lia.
  - vm_compute. reflexivity.
  - vm_compute. reflexivity.
  - vm_compute. reflexivity.
  - exact sample_steps.
  - vm_compute. reflexivity.
  - constructor; [done|intros m; by eexists|done|left; vm_compute; reflexivity].
  - vm_compute. lia.
  - reflexivity.
Defined.

Lemma resource_exchange_completes_witness :
  exists r', exchange (2 * Z.to_nat sample_sender.(sender_parts)) sample_sender sample_resource = Some r' /\
    rns_resource_parts_complete (Some r') = true /\
    r'.(parts) = Some <$> (part_at sample_sender.(wire) <$> seq 0 (Z.to_nat sample_sender.(sender_parts))).
Proof.
  apply (resource_exchange_completes Link.sample_active sample_source sample_sender sample_buffer 500 sample_written
    (length sample_advertisement) (advertised sample_sender) 0 sample_resource).
  - exact sample_run.
  - change (length sample_buffer) with 500%nat. lia.
  - intros m. by eexists.
  - vm_compute. reflexivity.
  - vm_compute. reflexivity.
  - vm_compute. reflexivity.
Defined.

Lemma resource_segments_witness :
  concat ((λ k, segment_of sample_source (Z.of_nat k)) <$> seq 1 (Z.to_nat sample_sender.(total_segments))) = sample_source.
Proof. exact (proj1 (resource_segments Link.sample_active sample_source sample_sender (λ _, true) sample_seeds sample_run)). Defined.
End ResourceTransfer.
