(* ===== verification/Sha256.v ===== *)
(** * SHA-256 of the message layer

    [lxmf/lxmf.c] has its own streaming SHA-256 (lines 22 to 144), used for message
    identifiers and stamps: [sha_init], [sha_update] and [sha_final] over a context
    with a partial block. Module [Sha] models it with every array access checked;
    the theorems show that a hash taken in any number of pieces is memory safe and
    is the hash of the joined message: padding, blocks of 64 bytes, compression. *)

From Stdlib Require Import ZArith Lia.
From S2P Require Import Prelude.

Module Sha.

(** ** The code *)

Definition rotr32 (x n : Z) : Z := Z.lor (Z.shiftr x n) (wrap32 (Z.shiftl x (32 - n))).

Definition load32be (p : list Z) (off : nat) : option Z :=
  a ← load p off; b ← load p (off + 1); c ← load p (off + 2); d ← load p (off + 3);
  Some (Z.lor (Z.lor (Z.lor (Z.shiftl a 24) (Z.shiftl b 16)) (Z.shiftl c 8)) d).

Definition store32be (x : Z) : list Z := [wrap8 (Z.shiftr x 24); wrap8 (Z.shiftr x 16); wrap8 (Z.shiftr x 8); wrap8 x].

(** The loop stores byte [7 - i] from the bits at [8 * i]. *)
Definition store64be (x : Z) : list Z := (λ i, wrap8 (Z.shiftr x (8 * (7 - Z.of_nat i)))) <$> seq 0 8.

Definition sha_k : list Z :=
  [
   1116352408; 1899447441; 3049323471; 3921009573; 961987163; 1508970993; 2453635748; 2870763221;
   3624381080; 310598401; 607225278; 1426881987; 1925078388; 2162078206; 2614888103; 3248222580;
   3835390401; 4022224774; 264347078; 604807628; 770255983; 1249150122; 1555081692; 1996064986;
   2554220882; 2821834349; 2952996808; 3210313671; 3336571891; 3584528711; 113926993; 338241895;
   666307205; 773529912; 1294757372; 1396182291; 1695183700; 1986661051; 2177026350; 2456956037;
   2730485921; 2820302411; 3259730800; 3345764771; 3516065817; 3600352804; 4094571909; 275423344;
   430227734; 506948616; 659060556; 883997877; 958139571; 1322822218; 1537002063; 1747873779;
   1955562222; 2024104815; 2227730452; 2361852424; 2428436474; 2756734187; 3204031479; 3329325298].

Record sha_ctx : Type := {
  h : list Z;
  block : list Z;
  used : nat;
  bits : Z
}.

(** The schedule: the loop from 16 to 63 appends to [w]. *)
Fixpoint sha_extend (n : nat) (w : list Z) : option (list Z) :=
  match n with
  | O => Some w
  | S n =>
      let i := length w in
      w15 ← w !! (i - 15)%nat; w2 ← w !! (i - 2)%nat; w16 ← w !! (i - 16)%nat; w7 ← w !! (i - 7)%nat;
      let s0 := Z.lxor (Z.lxor (rotr32 w15 7) (rotr32 w15 18)) (Z.shiftr w15 3) in
      let s1 := Z.lxor (Z.lxor (rotr32 w2 17) (rotr32 w2 19)) (Z.shiftr w2 10) in
      sha_extend n (w ++ [wrap32 (w16 + s0 + w7 + s1)])
  end.

Definition sha_schedule (b : list Z) : option (list Z) :=
  w ← mapM (λ i, load32be b (4 * i)) (seq 0 16);
  sha_extend 48 w.

(** The variables [a], [bv], [cc], [d], [e], [f], [g], [h] of the round loop. *)
Record sha_vars : Type := { va : Z; vb : Z; vc : Z; vd : Z; ve : Z; vf : Z; vg : Z; vh : Z }.

Definition sha_round (v : sha_vars) (k w : Z) : sha_vars :=
  let s1 := Z.lxor (Z.lxor (rotr32 v.(ve) 6) (rotr32 v.(ve) 11)) (rotr32 v.(ve) 25) in
  let ch := Z.lxor (Z.land v.(ve) v.(vf)) (Z.land (Z.lxor v.(ve) 0xffffffff) v.(vg)) in
  let t1 := wrap32 (v.(vh) + s1 + ch + k + w) in
  let s0 := Z.lxor (Z.lxor (rotr32 v.(va) 2) (rotr32 v.(va) 13)) (rotr32 v.(va) 22) in
  let maj := Z.lxor (Z.lxor (Z.land v.(va) v.(vb)) (Z.land v.(va) v.(vc))) (Z.land v.(vb) v.(vc)) in
  let t2 := wrap32 (s0 + maj) in
  {| va := wrap32 (t1 + t2); vb := v.(va); vc := v.(vb); vd := v.(vc);
     ve := wrap32 (v.(vd) + t1); vf := v.(ve); vg := v.(vf); vh := v.(vg) |}.

(** The loop over [sha_k] and [w]. *)
Fixpoint sha_rounds (v : sha_vars) (ks ws : list Z) : option sha_vars :=
  match ks, ws with
  | [], _ => Some v
  | k :: ks, w :: ws => sha_rounds (sha_round v k w) ks ws
  | _ :: _, [] => None
  end.

(** [sha_block] on the words of the context. *)
Definition compress (hs b : list Z) : option (list Z) :=
  w ← sha_schedule b;
  match hs with
  | [a; bv; cc; d; e; f; g; hh] =>
      v ← sha_rounds {| va := a; vb := bv; vc := cc; vd := d; ve := e; vf := f; vg := g; vh := hh |} sha_k w;
      Some [wrap32 (a + v.(va)); wrap32 (bv + v.(vb)); wrap32 (cc + v.(vc)); wrap32 (d + v.(vd));
            wrap32 (e + v.(ve)); wrap32 (f + v.(vf)); wrap32 (g + v.(vg)); wrap32 (hh + v.(vh))]
  | _ => None
  end.

Definition sha_block (c : sha_ctx) (b : list Z) : option sha_ctx :=
  hs ← compress c.(h) b; Some {| c with h := hs |}.

Definition iv : list Z := [1779033703; 3144134277; 1013904242; 2773480762; 1359893119; 2600822924; 528734635; 1541459225].

(** [b]: what the memory of the block holds before. *)
Definition sha_init (b : list Z) : sha_ctx := {| h := iv; block := b; used := 0; bits := 0 |}.

(** Every iteration takes at least a byte while the block has room: the length of
    the input is fuel enough. *)
Fixpoint sha_update_loop (fuel : nat) (c : sha_ctx) (p : list Z) : option sha_ctx :=
  match p, fuel with
  | [], _ => Some c
  | _ :: _, O => None
  | _ :: _, S fuel =>
      let n := length p in
      let taken := (if n <? 64 - c.(used) then n else 64 - c.(used))%nat in
      blk ← memcpy c.(block) c.(used) (take taken p);
      let c := {| h := c.(h); block := blk; used := c.(used) + taken;
                  bits := wrap64 (c.(bits) + wrap64 (Z.of_nat taken * 8)) |} in
      c ← (if (c.(used) =? 64)%nat then c' ← sha_block c c.(block); Some {| c' with used := 0%nat |} else Some c);
      sha_update_loop fuel c (drop taken p)
  end.

Definition sha_update (c : sha_ctx) (p : list Z) : option sha_ctx := sha_update_loop (length p) c p.

Definition sha_final (c : sha_ctx) : option (list Z) :=
  blk ← store c.(block) c.(used) 0x80;
  let c := {| c with block := blk; used := S c.(used) |} in
  c ← (if (56 <? c.(used))%nat then
         blk ← memset c.(block) c.(used) 0 (64 - c.(used));
         c' ← sha_block {| c with block := blk |} blk;
         Some {| c' with used := 0%nat |}
       else Some c);
  blk ← memset c.(block) c.(used) 0 (56 - c.(used));
  blk ← memcpy blk 56 (store64be c.(bits));
  c ← sha_block {| c with block := blk |} blk;
  Some (concat (store32be <$> c.(h))).

Definition lxmf_sha256 (b data : list Z) : option (list Z) :=
  let c := sha_init b in
  c ← (if (length data =? 0)%nat then Some c else sha_update c data);
  sha_final c.

(** A hash taken in pieces: one [sha_update] each. *)
Definition sha_pieces (b : list Z) (ps : list (list Z)) : option (list Z) :=
  c ← foldl (λ c p, c ← c; sha_update c p) (Some (sha_init b)) ps;
  sha_final c.

(** ** The hash of a message *)

Definition padding (n : nat) : list Z := 0x80 :: replicate ((119 - n mod 64) mod 64) 0 ++ be_encode 8 (wrap64 (Z.of_nat n * 8)).

Definition blocks (l : list Z) : list (list Z) := (λ i, take 64 (drop (i * 64) l)) <$> seq 0 (length l / 64).

Definition hash_blocks (hs : list Z) (bs : list (list Z)) : option (list Z) := foldl (λ acc b, hs ← acc; compress hs b) (Some hs) bs.

Definition sha256 (m : list Z) : option (list Z) :=
  hs ← hash_blocks iv (blocks (m ++ padding (length m))); Some (concat (store32be <$> hs)).

(** *** Compression is total on a block *)

Lemma load32be_total p off : (off + 4 <= length p)%nat -> exists x, load32be p off = Some x.
Proof.
  intros Hl. unfold load32be, load.
  destruct (lookup_lt_is_Some_2 p off) as [a ->]; [lia|]. destruct (lookup_lt_is_Some_2 p (off + 1)) as [b ->]; [lia|].
  destruct (lookup_lt_is_Some_2 p (off + 2)) as [c ->]; [lia|]. destruct (lookup_lt_is_Some_2 p (off + 3)) as [d ->]; [lia|]. by eexists.
Qed.

Lemma sha_extend_total n w : (16 <= length w)%nat -> exists w', sha_extend n w = Some w' /\ length w' = (length w + n)%nat.
Proof.
  revert w. induction n as [|n IH]; intros w Hw; cbn [sha_extend]; [exists w; split; [done|lia]|].
  destruct (lookup_lt_is_Some_2 w (length w - 15)) as [w15 ->]; [lia|]. destruct (lookup_lt_is_Some_2 w (length w - 2)) as [w2 ->]; [lia|].
  destruct (lookup_lt_is_Some_2 w (length w - 16)) as [w16 ->]; [lia|]. destruct (lookup_lt_is_Some_2 w (length w - 7)) as [w7 ->]; [lia|].
  cbn [mbind option_bind]. match goal with |- context [sha_extend n ?x] => destruct (IH x) as (w' & -> & Hl) end; [rewrite length_app; lia|].
  exists w'. split; [done|]. rewrite Hl, length_app. cbn [length]. lia.
Qed.

Lemma sha_rounds_total v ks ws : (length ks <= length ws)%nat -> exists v', sha_rounds v ks ws = Some v'.
Proof.
  revert v ws. induction ks as [|k ks IH]; intros v [|w ws] Hl; cbn [sha_rounds length] in *; try (by eexists); [lia|]. apply IH. lia.
Qed.

Lemma compress_total hs b : length hs = 8%nat -> length b = 64%nat -> exists hs', compress hs b = Some hs' /\ length hs' = 8%nat.
Proof.
  intros Hh Hb. unfold compress, sha_schedule.
  assert (exists ws, mapM (λ i, load32be b (4 * i)) (seq 0 16) = Some ws) as [ws Hws].
  { apply mapM_is_Some_2. apply list.Forall_forall. intros i [? ?]%elem_of_seq. destruct (load32be_total b (4 * i)) as [x Hx]; [lia|by exists x]. }
  pose proof (length_mapM _ _ _ Hws) as Hlen. rewrite length_seq in Hlen. rewrite Hws. cbn [mbind option_bind].
  destruct (sha_extend_total 48 ws) as (w & -> & Hw); [lia|]. cbn [mbind option_bind].
  destruct hs as [|a [|bv [|cc [|d [|e [|f [|g [|hh [|]]]]]]]]]; try done.
  match goal with |- context [sha_rounds ?v] => destruct (sha_rounds_total v sha_k w) as [v' ->] end; [cbn [length sha_k]; lia|].
  cbn [mbind option_bind]. by eexists.
Qed.

(** *** Blocks *)

Lemma hash_blocks_app hs a b : hash_blocks hs (a ++ b) = (x ← hash_blocks hs a; hash_blocks x b).
Proof.
  unfold hash_blocks. rewrite foldl_app. destruct (foldl _ (Some hs) a) as [x|]; [done|]. cbn [mbind option_bind].
  induction b as [|y b IH]; [done|]. cbn [foldl mbind option_bind]. exact IH.
Qed.

Lemma blocks_app a b : (length a mod 64 = 0)%nat -> blocks (a ++ b) = blocks a ++ blocks b.
Proof.
  intros Ha. unfold blocks. rewrite length_app. pose proof (Nat.div_mod_eq (length a) 64) as Hd. rewrite Ha, Nat.add_0_r in Hd.
  set (k := (length a / 64)%nat) in *. replace ((length a + length b) / 64)%nat with (k + length b / 64)%nat
    by (rewrite Hd, Nat.mul_comm, Nat.div_add_l by done; lia).
  rewrite seq_app, fmap_app. f_equal.
  - apply list_fmap_ext. intros j i [? Hi]%lookup_seq. rewrite drop_app_le by lia. apply take_app_le. rewrite length_drop. lia.
  - replace (seq (0 + k) (length b / 64)) with (Nat.add k <$> seq 0 (length b / 64)) by (rewrite fmap_add_seq; f_equal; lia).
    rewrite <-list_fmap_compose. apply list_fmap_ext. intros j i _. unfold compose.
    rewrite drop_app_ge by lia. f_equal. f_equal. lia.
Qed.

Lemma blocks_one b : length b = 64%nat -> blocks b = [b].
Proof. intros Hb. unfold blocks. rewrite Hb. cbn. rewrite drop_0. rewrite take_ge by lia. done. Qed.

Lemma blocks_nil : blocks [] = [].
Proof. done. Qed.

(** [c] is the context after the bytes [m]. *)
Record absorbed (c : sha_ctx) (m : list Z) : Prop := {
  ab_block : length c.(block) = 64%nat;
  ab_words : length c.(h) = 8%nat;
  ab_state : exists full tail, m = full ++ tail /\ (length full mod 64 = 0)%nat /\ (length tail < 64)%nat /\ c.(used) = length tail /\
    take c.(used) c.(block) = tail /\ hash_blocks iv (blocks full) = Some c.(h);
  ab_bits : c.(bits) = wrap64 (Z.of_nat (length m) * 8)
}.

Lemma absorbed_init b : length b = 64%nat -> absorbed (sha_init b) [].
Proof. intros Hb. constructor; [done|done| |done]. exists [], []. split_and!; (done || cbn; lia). Qed.

Lemma bits_add n k : wrap64 (wrap64 (Z.of_nat n * 8) + wrap64 (Z.of_nat k * 8)) = wrap64 (Z.of_nat (n + k) * 8).
Proof. unfold wrap. rewrite <-Z.add_mod by lia. f_equal. lia. Qed.

Lemma update_absorbed fuel c m p :
  absorbed c m -> (length p <= fuel)%nat -> exists c', sha_update_loop fuel c p = Some c' /\ absorbed c' (m ++ p).
Proof.
  revert c m p. induction fuel as [|fuel IH]; intros c m p Hc Hp.
  { destruct p; [|cbn in Hp; lia]. rewrite app_nil_r. by exists c. }
  destruct p as [|x p']; [rewrite app_nil_r; by exists c|]. set (p := x :: p') in *. cbn [sha_update_loop]. fold p.
  destruct Hc as [Hb Hh (full & tail & -> & Hf & Ht & Hu & Htail & Hhash) Hbits]. rewrite Hu in *.
  set (k := (if length p <? 64 - length tail then length p else 64 - length tail)%nat).
  assert (k = Nat.min (length p) (64 - length tail)) as Ek by (unfold k; destruct (Nat.ltb_spec (length p) (64 - length tail)); lia).
  assert (length (take k p) = k) as Hk by (rewrite length_take; lia). assert (1 <= k)%nat as Hk1 by (subst p; cbn [length] in *; lia).
  destruct (wrote_memcpy 64 (block c) tail (take k p)) as (blk & Hcpy & Hblk & Htk & _); [split_and!; (done || lia)|lia|].
  rewrite Hcpy. cbn [mbind option_bind used]. rewrite length_app, Hk in Htk.
  destruct (Nat.eqb_spec (length tail + k) 64) as [Hfull|Hpart].
  - unfold sha_block. cbn [h block]. assert (blk = tail ++ take k p) as Eblk by (rewrite <-Htk, Hfull; symmetry; apply take_ge; lia).
    destruct (compress_total (h c) blk Hh Hblk) as (hs & Hcomp & Hhs). rewrite Hcomp. cbn [mbind option_bind].
    match goal with |- context [sha_update_loop fuel ?x] => destruct (IH x ((full ++ tail) ++ take k p) (drop k p)) as (c' & Hc' & Habs) end.
    + constructor; cbn [h block used bits]; [done|done| |by rewrite Hbits, bits_add, (length_app (full ++ tail)), Hk].
      exists (full ++ blk), []. rewrite app_nil_r, Eblk, app_assoc. split_and!; try done; [|cbn; lia|].
      { rewrite !length_app, Hk, <-Nat.add_assoc, Hfull. rewrite <-Nat.Div0.add_mod_idemp_l, Hf. done. }
      rewrite <-app_assoc, <-Eblk, blocks_app, (blocks_one blk), hash_blocks_app, Hhash by done. done.
    + rewrite length_drop. lia.
    + exists c'. split; [exact Hc'|]. by rewrite <-app_assoc, take_drop in Habs.
  - cbn [mbind option_bind]. assert (k = length p) as -> by lia. rewrite take_ge, drop_ge in * by lia.
    exists {| h := h c; block := blk; used := length tail + length p; bits := wrap64 (bits c + wrap64 (Z.of_nat (length p) * 8)) |}.
    split; [by destruct fuel|]. constructor; cbn [h block used bits]; [done|done| |by rewrite Hbits, bits_add, (length_app (full ++ tail))].
    exists full, (tail ++ p). rewrite app_assoc, length_app. rewrite (take_ge p) in Htk by lia. split_and!; try done. lia.
Qed.

Lemma sha_update_absorbed c m p : absorbed c m -> exists c', sha_update c p = Some c' /\ absorbed c' (m ++ p).
Proof. intros Hc. by apply update_absorbed. Qed.

Lemma store64be_encode x : store64be x = be_encode 8 x.
Proof.
  unfold store64be. cbn [seq fmap list_fmap be_encode app]. unfold wrap.
  repeat (rewrite Z.shiftr_div_pow2 by lia). rewrite !Zdiv.Zdiv_Zdiv by lia. 
  change (2 ^ (8 * (7 - Z.of_nat 7))) with 1. by rewrite Z.div_1_r.
Qed.

(** The context at the end: the message, a byte 0x80, and the block it starts in. *)
Lemma sha_final_absorbed c m : absorbed c m -> sha_final c = sha256 m /\ exists d, sha256 m = Some d /\ length d = 32%nat.
Proof.
  intros [Hb Hh (full & tail & -> & Hf & Ht & Hu & Htail & Hhash) Hbits]. unfold sha_final, sha256. rewrite Hu in *.
  assert (forall hs, length hs = 8%nat -> length (concat (store32be <$> hs)) = 32%nat) as Hout.
  { intros hs Hl. destruct hs as [|? [|? [|? [|? [|? [|? [|? [|? [|]]]]]]]]]; done. }
  destruct (wrote_store 64 (block c) tail 0x80) as (b1 & -> & Hw1); [split_and!; (done || lia)|lia|]. cbn [mbind option_bind used block h bits].
  set (len := be_encode 8 (wrap64 (Z.of_nat (length (full ++ tail)) * 8))). assert (length len = 8%nat) as Hlen by apply length_be_encode.
  assert (store64be (bits c) = len) as Estore by (by rewrite Hbits, store64be_encode).
  assert (length (full ++ tail) mod 64 = length tail)%nat as Hmod by (rewrite length_app, <-Nat.Div0.add_mod_idemp_l, Hf; by apply Nat.mod_small).
  assert (forall n w b, wrote 64 b w -> (length w + n <= 64)%nat -> exists b', memset b (length w) 0 n = Some b' /\ wrote 64 b' (w ++ replicate n 0)) as Hset.
  { intros n w b Hw Hn. apply (wrote_memcpy 64 b w (replicate n 0) Hw). rewrite length_replicate. lia. }
  assert (padding (length (full ++ tail)) = 0x80 :: replicate ((119 - length tail) mod 64) 0 ++ len) as -> by (unfold padding; by rewrite Hmod).
  rewrite <-app_assoc, (blocks_app full), hash_blocks_app, Hhash by done. cbn [mbind option_bind].
  set (w1 := tail ++ [0x80]) in *. assert (length w1 = S (length tail)) as Hw1l by (unfold w1; rewrite length_app; cbn; lia).
  assert (forall b w, wrote 64 b w -> length w = 56%nat -> exists b', memcpy b 56 len = Some b' /\ b' = w ++ len) as Hend.
  { intros b w Hw Hl. destruct (wrote_memcpy 64 b w len Hw) as (b' & Hc & Hw'); [lia|]. rewrite Hl in Hc. exists b'. split; [done|].
    apply (wrote_full 64); [done|]. rewrite length_app. lia. }
  destruct (Nat.ltb_spec 56 (S (length tail))) as [Hbig|Hsmall].
  - rewrite (Nat.mod_small (119 - length tail)) by lia. destruct (Hset (64 - length w1)%nat w1 b1 Hw1) as (b2 & Hb2 & Hw2); [lia|].
    rewrite <-Hw1l, Hb2. cbn [mbind option_bind]. unfold sha_block. cbn [h block used bits].
    assert (b2 = w1 ++ replicate (64 - length w1) 0) as Eb2 by (apply (wrote_full 64); [done|rewrite length_app, length_replicate; lia]).
    assert (length b2 = 64%nat) as Hb2l by (by destruct Hw2).
    destruct (compress_total (h c) b2 Hh Hb2l) as (hs & Hcomp & Hhs). rewrite Hcomp. cbn [mbind option_bind h block used bits].
    destruct (Hset 56%nat [] b2) as (b3 & Hb3 & Hw3); [by apply wrote_nil|cbn; lia|]. cbn [length app] in Hb3, Hw3. rewrite Nat.sub_0_r, Hb3. cbn [mbind option_bind].
    rewrite Estore. destruct (Hend b3 _ Hw3) as (b4 & -> & Eb4); [by rewrite length_replicate|]. cbn [mbind option_bind].
    assert (length b4 = 64%nat) as Hb4l by (rewrite Eb4, length_app, length_replicate; lia).
    destruct (compress_total hs b4 Hhs Hb4l) as (hs2 & Hcomp2 & Hhs2). rewrite Hcomp2. cbn [mbind option_bind h].
    assert (tail ++ 0x80 :: replicate (119 - length tail) 0 ++ len = b2 ++ b4) as ->.
    { rewrite Eb2, Eb4. unfold w1. rewrite <-!app_assoc. cbn [app]. f_equal. f_equal. rewrite app_assoc, <-replicate_add. f_equal. f_equal.
      fold w1. rewrite Hw1l. lia. }
    rewrite blocks_app, !blocks_one by (done || by rewrite Hb2l). cbn [app]. unfold hash_blocks. cbn [foldl mbind option_bind].
    rewrite Hcomp. cbn [mbind option_bind]. rewrite Hcomp2. cbn [mbind option_bind]. split; [done|]. eexists. split; [done|by apply Hout].
  - replace ((119 - length tail) mod 64)%nat with (55 - length tail)%nat
      by (replace (119 - length tail)%nat with (55 - length tail + 1 * 64)%nat by lia; rewrite Nat.Div0.mod_add; symmetry; apply Nat.mod_small; lia).
    cbn [mbind option_bind h block used bits]. destruct (Hset (56 - length w1)%nat w1 b1 Hw1) as (b2 & Hb2 & Hw2); [lia|].
    rewrite <-Hw1l, Hb2. cbn [mbind option_bind]. rewrite Estore.
    destruct (Hend b2 _ Hw2) as (b3 & -> & Eb3); [rewrite length_app, length_replicate; lia|]. cbn [mbind option_bind]. unfold sha_block. cbn [h block used bits].
    assert (length b3 = 64%nat) as Hb3l by (rewrite Eb3, !length_app, length_replicate; lia).
    destruct (compress_total (h c) b3 Hh Hb3l) as (hs & Hcomp & Hhs). rewrite Hcomp. cbn [mbind option_bind h].
    assert (tail ++ 0x80 :: replicate (55 - length tail) 0 ++ len = b3) as ->.
    { rewrite Eb3. unfold w1. rewrite <-!app_assoc. cbn [app]. do 3 f_equal. fold w1. rewrite Hw1l. f_equal; lia. }
    rewrite blocks_one by done. unfold hash_blocks. cbn [foldl mbind option_bind]. rewrite Hcomp. cbn [mbind option_bind].
    split; [done|]. eexists. split; [done|by apply Hout].
Qed.

Lemma sha_pieces_spec b ps : length b = 64%nat -> sha_pieces b ps = sha256 (concat ps) /\ exists d, sha256 (concat ps) = Some d /\ length d = 32%nat.
Proof.
  intros Hb. unfold sha_pieces. assert (forall c m, absorbed c m -> exists c', foldl (λ c p, c ← c; sha_update c p) (Some c) ps = Some c' /\ absorbed c' (m ++ concat ps)) as Hfold.
  { induction ps as [|p ps IH]; intros c m Hc; cbn [foldl concat]; [rewrite app_nil_r; by exists c|]. cbn [mbind option_bind].
    destruct (sha_update_absorbed c m p Hc) as (c1 & -> & Hc1). destruct (IH c1 (m ++ p) Hc1) as (c' & -> & Hc'). exists c'. by rewrite <-app_assoc in Hc'. }
  destruct (Hfold (sha_init b) [] (absorbed_init b Hb)) as (c' & -> & Hc'). cbn [mbind option_bind app] in *. by apply sha_final_absorbed.
Qed.

Lemma lxmf_sha256_spec b m : length b = 64%nat -> lxmf_sha256 b m = sha256 m /\ exists d, sha256 m = Some d /\ length d = 32%nat.
Proof.
  intros Hb. pose proof (sha_pieces_spec b [m] Hb) as Hs. cbn [concat] in Hs. rewrite app_nil_r in Hs. unfold lxmf_sha256. destruct m as [|x m].
  - by apply sha_final_absorbed, absorbed_init.
  - cbn [length Nat.eqb]. rewrite <-(proj1 Hs) at 1. unfold sha_pieces. cbn [foldl mbind option_bind]. split; [done|]. apply Hs.
Qed.

(** C17: hashing in pieces is hashing the message. The streaming SHA-256 of the
    message layer, fed any pieces in order, stays inside its block, never runs
    out of steps, and gives the 32 bytes that padding the joined message and
    compressing its 64-byte blocks gives; so does the one-call form. *)
Theorem sha_streaming b ps :
  length b = 64%nat ->
  sha_pieces b ps = sha256 (concat ps) /\ lxmf_sha256 b (concat ps) = sha256 (concat ps) /\
  exists d, sha256 (concat ps) = Some d /\ length d = 32%nat.
Proof.
  intros Hb. destruct (sha_pieces_spec b ps Hb) as [H1 Hd]. destruct (lxmf_sha256_spec b (concat ps) Hb) as [H2 _]. done.
Qed.

(** ** The constants *)

Definition is_prime (n : Z) : bool := forallb (λ d, negb (n mod d =? 0)) (seqZ 2 (n - 2)).

Definition primes : list Z := List.filter is_prime (seqZ 2 310).

(** [k] is the first [2^32] of the fraction of the [e]-th root of [p]. *)
Definition root_fraction (e p k : Z) : bool :=
  existsb (λ a, let c := a * 2 ^ 32 + k in (c ^ e <=? p * 2 ^ (32 * e)) && (p * 2 ^ (32 * e) <? (c + 1) ^ e)) (seqZ 1 6).

(** The round constants are the fractions of the cube roots of the first 64
    primes, the initial words those of the square roots of the first eight. *)
Lemma sha_constants :
  length primes = 64%nat /\ zip_with (root_fraction 3) primes sha_k = replicate 64 true /\
  zip_with (root_fraction 2) (take 8 primes) iv = replicate 8 true.
Proof. vm_compute. done. Qed.

(** The examples of the standard. *)
Example sha256_empty :
  be_decode <$> lxmf_sha256 (replicate 64 0) [] = Some 0xe3b0c44298fc1c149afbf4c8996fb92427ae41e4649b934ca495991b7852b855.
Proof. vm_compute. done. Qed.

Example sha256_abc :
  be_decode <$> lxmf_sha256 (replicate 64 0) [97; 98; 99] = Some 0xba7816bf8f01cfea414140de5dae2223b00361a396177a9cb410ff61f20015ad.
Proof. vm_compute. done. Qed.

Lemma sha_streaming_witness :
  sha_pieces (replicate 64 0) [[97]; []; [98; 99]] = sha256 [97; 98; 99] /\ lxmf_sha256 (replicate 64 0) [97; 98; 99] = sha256 [97; 98; 99].
Proof. destruct (sha_streaming (replicate 64 0) [[97]; []; [98; 99]] eq_refl) as (H1 & H2 & _). split; [exact H1|exact H2]. Defined.

End Sha.
