(* ===== verification/Lxmf.v ===== *)
(** * LXMF messages

    [lxmf/lxmf.c] up to the stamps: the MessagePack reader and writer, the codec of
    signed messages ([lxmf_pack], [lxmf_unpack]), the ticket field, and the two
    callbacks that sign and verify with an identity. The hash is [Sha256], the
    grammar of MessagePack that of [Request].

    A message is a record of the fields of [lxmf_message_t]; its time is kept as the
    64 bits of the double, which the code only copies. Memory the code allocates is
    zero here, whatever it holds is overwritten before it is read. *)

From Stdlib Require Import ZArith SpecFloat Lia.
From S2P Require Import Prelude Crypto Identity Link Request Sha256.

Module Lxmf.
Import Request Sha.

(** ** Constants and data *)

Definition LXMF_DESTINATION_LENGTH : nat := 16.
Definition LXMF_SOURCE_LENGTH : nat := 16.
Definition LXMF_SIGNATURE_LENGTH : nat := 64.
Definition LXMF_MESSAGE_ID_LENGTH : nat := 32.
Definition LXMF_TICKET_LENGTH : nat := 16.
Definition LXMF_STAMP_LENGTH : nat := 16.
Definition LXMF_POW_STAMP_LENGTH : nat := 32.
Definition LXMF_FIELD_TICKET : Z := 0x0c.
Definition LXMF_MAX_MESSAGE_SIZE : Z := 8 * 1024 * 1024.
Definition LXMF_HEADER_LENGTH : nat := LXMF_DESTINATION_LENGTH + LXMF_SOURCE_LENGTH + LXMF_SIGNATURE_LENGTH.
Definition LXMF_MAX_NESTING : nat := 32.
Definition UINT32_MAX : Z := 0xffffffff.

Inductive lxmf_status : Type :=
| LXMF_OK | LXMF_ERR_ARGUMENT | LXMF_ERR_BOUNDS | LXMF_ERR_FORMAT | LXMF_ERR_CRYPTO | LXMF_ERR_SIGNATURE | LXMF_ERR_CANCELLED
| LXMF_ERR_TIMEOUT | LXMF_ERR_PENDING | LXMF_ERR_UNKNOWN_SIGNER | LXMF_ERR_STAMP | LXMF_ERR_BLOCKED.

#[global] Instance lxmf_status_eq_dec : EqDecision lxmf_status.
Proof. solve_decision. Defined.

Record lxmf_message : Type := {
  destination : list Z;
  source : list Z;
  signature : list Z;
  message_id : list Z;
  timestamp : Z;
  title : slice;
  content : slice;
  fields_msgpack : slice;
  has_stamp : bool;
  stamp_len : nat;
  stamp : list Z
}.

Record lxmf_ticket_field : Type := { present : bool; expires_at : Z; ticket : list Z }.

(** ** Writing *)

(** [writer_t]: the buffer, where [p] is in it, and [left]. *)
Record writer : Type := { wbuf : list Z; wpos : nat; left : nat }.

Definition fresh_writer (n : nat) : writer := {| wbuf := replicate n 0; wpos := 0; left := n |}.

Definition put (w : writer) (p : list Z) : option (bool * writer) :=
  if (w.(left) <? length p)%nat then Some (false, w)
  else buf ← memcpy w.(wbuf) w.(wpos) p; Some (true, {| wbuf := buf; wpos := w.(wpos) + length p; left := w.(left) - length p |}).

Definition put_u8 (w : writer) (x : Z) : option (bool * writer) := put w [x].

(** [a && b] on writing steps. *)
Definition and_then (a b : writer -> option (bool * writer)) (w : writer) : option (bool * writer) :=
  x ← a w; if x.1 : bool then b x.2 else Some x.

(** The header of a byte string of [n] bytes. *)
Definition bin_header (n : Z) : option (list Z) :=
  if n <=? 0xff then Some [0xc4; wrap8 n]
  else if n <=? 0xffff then Some [0xc5; wrap8 (Z.shiftr n 8); wrap8 n]
  else if n <=? UINT32_MAX then Some [0xc6; wrap8 (Z.shiftr n 24); wrap8 (Z.shiftr n 16); wrap8 (Z.shiftr n 8); wrap8 n]
  else None.

Definition put_bin (s : slice) (w : writer) : option (bool * writer) :=
  if slice_bad s then Some (false, w)
  else match bin_header (Z.of_nat (slice_length s)) with
       | None => Some (false, w)
       | Some hd => and_then (λ w, put w hd) (λ w, put w (slice_bytes s)) w
       end.

Definition put_double (bits : Z) (w : writer) : option (bool * writer) := put w (0xcb :: store64be bits).

(** ** Reading *)

(** A [reader_t] is the bytes from [p] to [end]. The bytes and the objects inside
    an object, and the reader behind its size field; [Some None] is
    [return false]. *)
Definition obj_size (c : Z) (r : list Z) : option (option (Z * Z * list Z)) :=
  let bytes n := x ← size_field n r; Some (x ≫= λ '(v, r), Some (v, 0, r)) in
  let items k n := x ← size_field n r; Some (x ≫= λ '(v, r), Some (0, k * v, r)) in
  let fixed n := Some (Some (n, 0, r)) in
  if Z.land c 0xe0 =? 0xa0 then fixed (Z.land c 31)
  else if Z.land c 0xf0 =? 0x90 then Some (Some (0, Z.land c 15, r))
  else if Z.land c 0xf0 =? 0x80 then Some (Some (0, 2 * Z.land c 15, r))
  else if is_code c [0xc4; 0xd9] then bytes 1%nat
  else if is_code c [0xc5; 0xda] then bytes 2%nat
  else if is_code c [0xc6; 0xdb] then bytes 4%nat
  else if is_code c [0xca] then fixed 4
  else if is_code c [0xcb] then fixed 8
  else if is_code c [0xcc] then fixed 1
  else if is_code c [0xcd] then fixed 2
  else if is_code c [0xce] then fixed 4
  else if is_code c [0xcf] then fixed 8
  else if is_code c [0xd0] then fixed 1
  else if is_code c [0xd1] then fixed 2
  else if is_code c [0xd2] then fixed 4
  else if is_code c [0xd3] then fixed 8
  else if is_code c [0xd4] then fixed 2
  else if is_code c [0xd5] then fixed 3
  else if is_code c [0xd6] then fixed 5
  else if is_code c [0xd7] then fixed 9
  else if is_code c [0xd8] then fixed 17
  else if is_code c [0xdc] then items 1 2%nat
  else if is_code c [0xdd] then items 1 4%nat
  else if is_code c [0xde] then items 2 2%nat
  else if is_code c [0xdf] then
    x ← size_field 4 r;
    Some (x ≫= λ '(q, r), if UINT32_MAX / 2 <? q then None else Some (0, 2 * q, r))
  else Some None.

(** [levels] is [33 - depth]; the loop over the items is [skip_children]. *)
Fixpoint skip_obj (levels : nat) (r : list Z) {struct levels} : option (option (list Z)) :=
  match levels, r with
  | S levels, c :: r =>
      if (c <=? 0x7f) || (0xe0 <=? c) || (c =? 0xc0) || (c =? 0xc2) || (c =? 0xc3) then Some (Some r)
      else
        x ← obj_size c r;
        match x with
        | None => Some None
        | Some (n, items, r) =>
            if negb (n =? 0) && (Z.of_nat (length r) <? n) then Some None
            else
              let r := drop (Z.to_nat n) r in
              skip_children (skip_obj levels) (S (length r)) items r
        end
  | _, _ => Some None
  end.

Definition LEVELS : nat := S LXMF_MAX_NESTING.

(** The bytes read, and the reader behind them. *)
Definition get_bin (r : list Z) : option (option (list Z * list Z)) :=
  x ← skip_obj LEVELS r;
  match x with
  | None => Some None
  | Some rest =>
      c ← load r 0;
      hn ← (if (0xa0 <=? c) && (c <=? 0xbf) then Some (Some (1%nat, Z.land c 31))
            else if is_code c [0xc4; 0xd9] then n ← load r 1; Some (Some (2%nat, n))
            else if is_code c [0xc5; 0xda] then n ← read16 (drop 1 r); Some (Some (3%nat, n))
            else if is_code c [0xc6; 0xdb] then n ← load32be r 1; Some (Some (5%nat, n))
            else Some None);
      match hn with
      | None => Some None
      | Some (hd, n) => data ← memread r hd (Z.to_nat n); Some (Some (data, rest))
      end
  end.

Definition get_double (r : list Z) : option (option (Z * list Z)) :=
  if (length r <? 9)%nat then Some None
  else
    c ← load r 0;
    if negb (c =? 0xcb) then Some None
    else
      hi ← load32be r 1; lo ← load32be r 5;
      Some (Some (Z.lor (Z.shiftl hi 32) lo, drop 9 r)).

Definition get_container_count (fix_mask fix_tag code16 code32 : Z) (r : list Z) : option (option (Z * list Z)) :=
  match r with
  | [] => Some None
  | code :: r =>
      if Z.land code fix_mask =? fix_tag then Some (Some (Z.land code (Z.lxor fix_mask 0xff), r))
      else if code =? code16 then size_field 2 r
      else if code =? code32 then size_field 4 r
      else Some None
  end.

Definition get_unsigned (r : list Z) : option (option (Z * list Z)) :=
  match r with
  | [] => Some None
  | code :: r =>
      if code <=? 0x7f then Some (Some (code, r))
      else
        match (if code =? 0xcc then Some 1%nat else if code =? 0xcd then Some 2%nat else if code =? 0xce then Some 4%nat
               else if code =? 0xcf then Some 8%nat else None) with
        | None => Some None
        | Some bytes =>
            if (length r <? bytes)%nat then Some None
            else b ← memread r 0 bytes; Some (Some (shift_bytes b, drop bytes r))
        end
  end.

(** The double [m * 2^e], for [m] of at most 53 bits. *)
Definition exact_double (s : bool) (m e : Z) : double :=
  let k := 52 - Z.log2 m in
  match Z.shiftl m k with Z.pos p => S754_finite s p (e - k) | _ => S754_zero s end.

(** A [float] as a [double]. *)
Definition bits_float (bits : Z) : double :=
  let s := Z.testbit bits 31 in
  let ex := Z.land (Z.shiftr bits 23) 255 in
  let frac := Z.land bits (2 ^ 23 - 1) in
  if ex =? 0 then (if frac =? 0 then S754_zero s else exact_double s frac (-149))
  else if ex =? 255 then (if frac =? 0 then S754_infinity s else S754_nan)
  else exact_double s (frac + 2 ^ 23) (ex - 150).

(** 2^64 as a [double]. *)
Definition two64 : double := d_of_Z (2 ^ 64).

Definition get_expiry (r : list Z) : option (option (Z * list Z)) :=
  match r with
  | [] => Some None
  | code :: r' =>
      if negb (code =? 0xca) && negb (code =? 0xcb) then get_unsigned r
      else
        x ← (if code =? 0xca then
               if (length r' <? 4)%nat then Some None
               else bits ← load32be r' 0; Some (Some (bits_float bits, drop 4 r'))
             else if (length r' <? 8)%nat then Some None
             else hi ← load32be r' 0; lo ← load32be r' 4;
                  Some (Some (Link.bits_double (Z.lor (Z.shiftl hi 32) lo), drop 8 r')));
        match x with
        | None => Some None
        | Some (value, r) =>
            if negb (dzero <=.? value) || (two64 <=.? value) then Some None
            else expiry ← d_to_u64 value; Some (Some (expiry, r))
        end
  end.

(** ** The ticket field *)

Definition zero_ticket : lxmf_ticket_field := {| present := false; expires_at := 0; ticket := replicate 16 0 |}.

(** The value of the ticket field: [[expiry, ticket]]. *)
Definition ticket_value (r : list Z) : option (option (lxmf_ticket_field * list Z)) :=
  x ← get_container_count 0xf0 0x90 0xdc 0xdd r;
  match x with
  | None => Some None
  | Some (values, r) =>
      if negb (values =? 2) then Some None
      else
        x ← get_expiry r;
        match x with
        | None => Some None
        | Some (expiry, r) =>
            x ← get_bin r;
            match x with
            | None => Some None
            | Some (bytes, r) =>
                if negb (length bytes =? LXMF_TICKET_LENGTH)%nat then Some None
                else Some (Some ({| present := true; expires_at := expiry; ticket := bytes |}, r))
            end
        end
  end.

(** The loop over the [n] entries. [fuel] bounds the iterations: every entry takes
    a byte. The result is the ticket and the reader, [None] for a format error. *)
Fixpoint ticket_entries (fuel : nat) (n : Z) (t : lxmf_ticket_field) (r : list Z) : option (option (lxmf_ticket_field * list Z)) :=
  if n <=? 0 then Some (Some (t, r))
  else match fuel with
  | O => Some None
  | S fuel =>
      key ← get_unsigned r;
      x ← skip_obj LEVELS r;
      match x with
      | None => Some None
      | Some r =>
          if (match key with Some (k, _) => k =? LXMF_FIELD_TICKET | None => false end) then
            if t.(present) then Some None
            else
              x ← ticket_value r;
              match x with None => Some None | Some (t, r) => ticket_entries fuel (n - 1) t r end
          else
            x ← skip_obj LEVELS r;
            match x with None => Some None | Some r => ticket_entries fuel (n - 1) t r end
      end
  end.

(** The status, and the ticket when it is [LXMF_OK]. *)
Definition lxmf_fields_parse_ticket (fields : slice) : option (lxmf_status * option lxmf_ticket_field) :=
  match fields with
  | SNull _ | SBytes [] => Some (LXMF_ERR_ARGUMENT, None)
  | SBytes l =>
      x ← get_container_count 0xf0 0x80 0xde 0xdf l;
      match x with
      | None => Some (LXMF_ERR_FORMAT, None)
      | Some (count, r) =>
          x ← ticket_entries (S (length r)) count zero_ticket r;
          Some (match x with Some (t, []) => (LXMF_OK, Some t) | _ => (LXMF_ERR_FORMAT, None) end)
      end
  end.

(** ** Packing *)

Definition bin_bound (n : Z) : Z := if (n <=? UINT32_MAX) && (n <=? SIZE_MAX - 5) then n + 5 else 0.

(** The new total, [None] when it is too large. *)
Definition add_bound (total value : Z) : option Z :=
  if SIZE_MAX - total <? value then None
  else if total + value <=? LXMF_MAX_MESSAGE_SIZE then Some (total + value) else None.

Definition stamp_length (m : lxmf_message) : nat := if (m.(stamp_len) =? 0)%nat then LXMF_STAMP_LENGTH else m.(stamp_len).

Definition lxmf_pack_bound (m : lxmf_message) : Z :=
  let title := bin_bound (Z.of_nat (slice_length m.(title))) in
  let content := bin_bound (Z.of_nat (slice_length m.(content))) in
  let stamp := if m.(has_stamp) then bin_bound (Z.of_nat (stamp_length m)) else 0 in
  if (title =? 0) || (content =? 0) || (m.(has_stamp) && (stamp =? 0)) then 0
  else
    let fields := if (slice_length m.(fields_msgpack) =? 0)%nat then 1 else Z.of_nat (slice_length m.(fields_msgpack)) in
    default 0 (b ← add_bound (Z.of_nat LXMF_HEADER_LENGTH) 10; b ← add_bound b fields; b ← add_bound b title;
               b ← add_bound b content; add_bound b stamp).

(** [(p[0] & 0xf0) == 0x80 || p[0] == 0xde || p[0] == 0xdf] *)
Definition is_map (c : Z) : bool := (Z.land c 0xf0 =? 0x80) || (c =? 0xde) || (c =? 0xdf).

(** [return LXMF_ERR_BOUNDS] unless the step succeeds. *)
Definition bounded (a : writer -> option (bool * writer)) (w : writer) (k : writer -> option (lxmf_status * writer))
    : option (lxmf_status * writer) :=
  x ← a w; if x.1 : bool then k x.2 else Some (LXMF_ERR_BOUNDS, x.2).

Definition put_fields (fields : slice) (w : writer) (k : writer -> option (lxmf_status * writer)) : option (lxmf_status * writer) :=
  match fields with
  | SNull (S _) => None
  | SNull O | SBytes [] => bounded (λ w, put_u8 w 0x80) w k
  | SBytes ((c :: _) as l) =>
      x ← skip_obj LEVELS l;
      match x with
      | Some [] => if is_map c then bounded (λ w, put w l) w k else Some (LXMF_ERR_FORMAT, w)
      | _ => Some (LXMF_ERR_FORMAT, w)
      end
  end.

Definition encode_payload (m : lxmf_message) (with_stamp : bool) (w : writer) : option (lxmf_status * writer) :=
  bounded (and_then (λ w, put_u8 w (if with_stamp then 0x95 else 0x94))
          (and_then (put_double m.(timestamp)) (and_then (put_bin m.(title)) (put_bin m.(content))))) w (λ w,
  put_fields m.(fields_msgpack) w (λ w,
    if with_stamp then
      let n := stamp_length m in
      if negb (n =? LXMF_STAMP_LENGTH)%nat && negb (n =? LXMF_POW_STAMP_LENGTH)%nat then Some (LXMF_ERR_FORMAT, w)
      else s ← memread m.(stamp) 0 n; bounded (put_bin (SBytes s)) w (λ w, Some (LXMF_OK, w))
    else Some (LXMF_OK, w))).

Section Codec.
Variable malloc_ok : nat -> bool.

(** Whether the bytes of [dest ++ source ++ payload] hash to an identifier:
    [sha_init], three [sha_update], [sha_final]. *)
Definition payload_id (dest src payload : list Z) : option (list Z) := sha_pieces (replicate 64 0) [dest; src; payload].

(** [sign data] is the status of the callback and the signature it writes. The
    result is the status, the output, and [out_len]. *)
Definition lxmf_pack (m : lxmf_message) (sign : list Z -> lxmf_status * list Z) (out : option (list Z)) (cap : nat)
    : option (lxmf_status * option (list Z) * nat) :=
  match out with
  | None => Some (LXMF_ERR_ARGUMENT, out, 0%nat)
  | Some o =>
      let bound := lxmf_pack_bound m in
      if (bound =? 0) || (Z.of_nat cap <? bound) then Some (LXMF_ERR_BOUNDS, out, 0%nat)
      else
        let payload_cap := (Z.to_nat bound - LXMF_HEADER_LENGTH)%nat in
        if negb (malloc_ok payload_cap) then Some (LXMF_ERR_BOUNDS, out, 0%nat)
        else
          x ← encode_payload m false (fresh_writer payload_cap);
          let '(st, pw) := x in
          if negb (bool_decide (st = LXMF_OK)) then Some (st, out, 0%nat)
          else
            let plen := (payload_cap - pw.(left))%nat in
            payload ← memread pw.(wbuf) 0 plen;
            id ← payload_id m.(destination) m.(source) payload;
            if SIZE_MAX - 64 <? Z.of_nat plen then Some (LXMF_ERR_BOUNDS, out, 0%nat)
            else if negb (malloc_ok (plen + 64)) then Some (LXMF_ERR_BOUNDS, out, 0%nat)
            else
              let '(st, sig) := sign (m.(destination) ++ m.(source) ++ payload ++ id) in
              if negb (bool_decide (st = LXMF_OK)) then Some (LXMF_ERR_CRYPTO, out, 0%nat)
              else
                x ← and_then (λ w, put w m.(destination)) (and_then (λ w, put w m.(source)) (λ w, put w sig))
                      {| wbuf := o; wpos := 0; left := cap |};
                if negb (x.1 : bool) then Some (LXMF_ERR_BOUNDS, Some x.2.(wbuf), 0%nat)
                else
                  x ← encode_payload m m.(has_stamp) x.2;
                  let '(st, w) := x in
                  Some (st, Some w.(wbuf), if bool_decide (st = LXMF_OK) then (cap - w.(left))%nat else 0%nat)
  end.

(** ** Unpacking *)

(** The fields of the payload, and the message with them. [None] inside: a format
    error. *)
Definition unpack_payload (m : lxmf_message) (r : list Z) : option (option lxmf_message) :=
  a ← load r 0;
  let r := drop 1 r in
  if negb (a =? 0x94) && negb (a =? 0x95) then Some None
  else
    x ← get_double r;
    match x with None => Some None | Some (time, r) =>
    x ← get_bin r;
    match x with None => Some None | Some (title, r) =>
    x ← get_bin r;
    match x with None => Some None | Some (content, r) =>
    x ← skip_obj LEVELS r;
    match x with None => Some None | Some rest =>
    c ← load r 0;
    if negb (is_map c) then Some None
    else
      let fields := take (length r - length rest) r in
      let m := {| destination := m.(destination); source := m.(source); signature := m.(signature); message_id := m.(message_id);
                  timestamp := time; title := SBytes title; content := SBytes content; fields_msgpack := SBytes fields;
                  has_stamp := false; stamp_len := 0; stamp := replicate 32 0 |} in
      if a =? 0x95 then
        x ← get_bin rest;
        match x with
        | None => Some None
        | Some (s, rest) =>
            if negb (length s =? LXMF_STAMP_LENGTH)%nat && negb (length s =? LXMF_POW_STAMP_LENGTH)%nat then Some None
            else
              st ← memcpy (replicate 32 0) 0 s;
              Some (if rest is [] then
                      Some {| destination := m.(destination); source := m.(source); signature := m.(signature); message_id := m.(message_id);
                              timestamp := time; title := SBytes title; content := SBytes content; fields_msgpack := SBytes fields;
                              has_stamp := true; stamp_len := length s; stamp := st |}
                    else None)
        end
      else Some (if rest is [] then Some m else None)
    end end end end.

(** The message with its identifier. *)
Definition identified (m : lxmf_message) (id : list Z) : lxmf_message :=
  {| destination := m.(destination); source := m.(source); signature := m.(signature); message_id := id;
     timestamp := m.(timestamp); title := m.(title); content := m.(content); fields_msgpack := m.(fields_msgpack);
     has_stamp := m.(has_stamp); stamp_len := m.(stamp_len); stamp := m.(stamp) |}.

(** [verify source data signature] is the status of the callback. The result is
    the status and the message, where every field of it is set. *)
Definition lxmf_unpack (input : slice) (verify : option (list Z -> list Z -> list Z -> lxmf_status))
    : option (lxmf_status * option lxmf_message) :=
  match input with
  | SNull _ => Some (LXMF_ERR_ARGUMENT, None)
  | SBytes l =>
      let len := length l in
      if (len <? LXMF_HEADER_LENGTH + 1)%nat || (LXMF_MAX_MESSAGE_SIZE <? Z.of_nat len) then Some (LXMF_ERR_FORMAT, None)
      else
        dest ← memread l 0 16; src ← memread l 16 16; sig ← memread l 32 64;
        x ← unpack_payload {| destination := dest; source := src; signature := sig; message_id := replicate 32 0; timestamp := 0;
                              title := SNull 0; content := SNull 0; fields_msgpack := SNull 0; has_stamp := false; stamp_len := 0;
                              stamp := replicate 32 0 |} (drop LXMF_HEADER_LENGTH l);
        match x with
        | None => Some (LXMF_ERR_FORMAT, None)
        | Some m =>
            let payload_capacity := (len - LXMF_HEADER_LENGTH)%nat in
            if negb (malloc_ok payload_capacity) then Some (LXMF_ERR_BOUNDS, None)
            else
              x ← encode_payload m false (fresh_writer payload_capacity);
              let '(st, pw) := x in
              if negb (bool_decide (st = LXMF_OK)) then Some (st, None)
              else
                let plen := (payload_capacity - pw.(left))%nat in
                payload ← memread pw.(wbuf) 0 plen;
                id ← payload_id m.(destination) m.(source) payload;
                let m := identified m id in
                match verify with
                | None => Some (LXMF_OK, Some m)
                | Some verify =>
                    if SIZE_MAX - 64 <? Z.of_nat plen then Some (LXMF_ERR_BOUNDS, Some m)
                    else if negb (malloc_ok (plen + 64)) then Some (LXMF_ERR_BOUNDS, Some m)
                    else
                      let st := verify m.(source) (m.(destination) ++ m.(source) ++ payload ++ id) m.(signature) in
                      Some (match st with LXMF_OK => LXMF_OK | LXMF_ERR_UNKNOWN_SIGNER => LXMF_ERR_UNKNOWN_SIGNER | _ => LXMF_ERR_SIGNATURE end,
                            Some m)
                end
        end
  end.
End Codec.

(** ** Signing and verifying with identities *)

Section Callbacks.
Context `{Crypto}.

Definition lxmf_identity_signer (signer : option Identity.rns_identity) (data : list Z) : lxmf_status * list Z :=
  match signer with
  | None => (LXMF_ERR_ARGUMENT, [])
  | Some who =>
      match Identity.rns_identity_sign who data with
      | Some s => (LXMF_OK, s)
      | None => (LXMF_ERR_CRYPTO, [])
      end
  end.

(** [resolve]: the callback that finds the identity of a source. *)
Definition lxmf_identity_verifier (resolve : option (list Z -> option Identity.rns_identity)) (source data signature : list Z) : lxmf_status :=
  match resolve with
  | None => LXMF_ERR_ARGUMENT
  | Some resolve =>
      match resolve source with
      | None => LXMF_ERR_UNKNOWN_SIGNER
      | Some who => if Identity.rns_identity_verify who data signature then LXMF_OK else LXMF_ERR_SIGNATURE
      end
  end.
End Callbacks.

(** ** The walker *)

Lemma obj_size_eq c r : c <> 0xdf -> obj_size c r = object_size c r.
Proof.
  intros Hdf. unfold obj_size, object_size. destruct (Z.land c 0xe0 =? 0xa0); [done|]. destruct (Z.land c 0xf0 =? 0x90); [done|].
  destruct (Z.land c 0xf0 =? 0x80); [done|]. cbv zeta.
  do 5 match goal with |- (if ?b then _ else _) = _ => destruct b; [reflexivity|] end.
  assert (forall a b, is_code c [a; b] = (c =? a) || (c =? b)) as H2 by (intros a b; unfold is_code; cbn [existsb]; by rewrite orb_false_r).
  rewrite !H2. assert (forall a, is_code c [a] = (c =? a)) as H1 by (intros a; unfold is_code; cbn [existsb]; by rewrite orb_false_r).
  rewrite !H1. rewrite (proj2 (Z.eqb_neq c 0xdf) Hdf).
  do 8 match goal with |- (if c =? ?k then _ else _) = _ => destruct (Z.eqb_spec c k) as [->|]; [reflexivity|] end. cbn [orb].
  do 8 match goal with |- (if c =? ?k then _ else _) = _ => destruct (Z.eqb_spec c k) as [->|]; [reflexivity|] end. done.
Qed.

Lemma obj_size_df r : obj_size 0xdf r = (x ← size_field 4 r; Some (x ≫= λ '(q, r), if UINT32_MAX / 2 <? q then None else Some (0, 2 * q, r))).
Proof. done. Qed.

Lemma skip_children_ext f g fuel n l :
  (forall l', (length l' <= length l)%nat -> bytes_ok l' -> f l' = g l') -> (forall l' rest, bytes_ok l' -> g l' = Some (Some rest) -> exists p, l' = p ++ rest) ->
  bytes_ok l -> skip_children f fuel n l = skip_children g fuel n l.
Proof.
  intros Hfg Hg. revert n l Hfg. induction fuel as [|fuel IH]; intros n l Hfg Hb; cbn [skip_children]; [done|]. destruct (n <=? 0); [done|].
  rewrite Hfg by done. destruct (g l) as [[rest|]|] eqn:E; [|done..]. cbn [mbind option_bind]. destruct (Hg _ _ Hb E) as (p & ->).
  apply Forall_app in Hb as [_ Hb]. apply IH; [|done]. intros l' Hl. apply Hfg. rewrite length_app. lia.
Qed.

Lemma concat_length_ge {A} (ls : list (list A)) : Forall (λ x, x <> []) ls -> (length ls <= length (concat ls))%nat.
Proof. induction 1 as [|x ls Hx _ IH]; [done|]. cbn [concat length]. rewrite length_app. destruct x; [done|]. cbn [length]. lia. Qed.

Lemma skip_object_suffix d l rest : bytes_ok l -> skip_object d l = Some (Some rest) -> exists p, l = p ++ rest /\ msgpack d p.
Proof. intros Hb E. destruct (walker_spec d l Hb) as (r & Hr & Hs). rewrite Hr in E. injection E as ->. by destruct (proj1 (Hs rest) eq_refl) as (p & -> & ?); exists p. Qed.

(** The walker of the message layer is the walker of requests, on inputs of less
    than 4 GiB: it refuses maps of more than 2^31 entries, which do not fit. *)
Lemma skip_obj_eq d l : bytes_ok l -> Z.of_nat (length l) < 2 ^ 32 -> skip_obj d l = skip_object d l.
Proof.
  revert l. induction d as [|d IH]; intros l Hb Hl; [done|]. destruct l as [|c r]; [done|]. rewrite skip_object_step. cbn [skip_obj].
  fold (single_byte c). unfold object_head. apply Forall_cons_1 in Hb as [Hc Hb]. cbn [length] in Hl. rewrite Nat2Z.inj_succ in Hl. destruct (single_byte c) eqn:Hs.
  { cbn [mbind option_bind]. rewrite (proj2 (Z.ltb_ge _ _)) by lia. cbn [Z.to_nat drop]. by cbn [skip_children]. }
  assert (forall r' items, bytes_ok r' -> (length r' <= length r)%nat ->
    skip_children (skip_obj d) (S (length r')) items r' = skip_children (skip_object d) (S (length r')) items r') as Hch.
  { intros r' items Hb' Hl'. apply skip_children_ext; [|..|done].
    - intros l' Hle Hbl. apply IH; [done|lia].
    - intros l' rest Hbl E. destruct (skip_object_suffix d l' rest Hbl E) as (p & -> & _). by exists p. }
  destruct (head_sound c r) as (x & Hx & Hfound); [by constructor|]. unfold object_head in Hx. rewrite Hs in Hx. rewrite Hx. cbn [mbind option_bind].
  assert (forall n items cur, x = Some (n, items, cur) -> 0 <= n /\ bytes_ok cur /\ (length cur <= length r)%nat) as Hcur.
  { intros n items cur ->. destruct (Hfound n items cur eq_refl) as (t & -> & Hh). apply header_bounds in Hh as (_ & ? & _).
    apply Forall_app in Hb as [_ ?]. rewrite length_app. split_and!; [done|done|lia]. }
  assert (forall n items cur, x = Some (n, items, cur) ->
    (if negb (n =? 0) && (Z.of_nat (length cur) <? n) then Some None
     else skip_children (skip_obj d) (S (length (drop (Z.to_nat n) cur))) items (drop (Z.to_nat n) cur)) =
    (if Z.of_nat (length cur) <? n then Some None
     else skip_children (skip_object d) (S (length (drop (Z.to_nat n) cur))) items (drop (Z.to_nat n) cur))) as Hsame.
  { intros n items cur Ex. destruct (Hcur n items cur Ex) as (Hn & Hbc & Hlc). rewrite Hch; [|by apply Forall_drop|rewrite length_drop; lia].
    destruct (Z.eqb_spec n 0) as [->|]; [|done]. cbn [negb andb]. by rewrite (proj2 (Z.ltb_ge _ _)) by lia. }
  destruct (decide (c = 0xdf)) as [->|Hdf].
  - rewrite obj_size_df. assert (object_size 0xdf r = (x ← size_field 4 r; Some (x ≫= λ '(q, r), Some (0, 2 * q, r)))) as Eo by done.
    rewrite Eo in Hx. destruct (size_field 4 r) as [[[q cur]|]|]; cbn [mbind option_bind] in *; [| |done].
    + injection Hx as <-. destruct (Z.ltb_spec (UINT32_MAX / 2) q) as [Hq|Hq]; [|by apply Hsame]. change (UINT32_MAX / 2) with 2147483647 in Hq.
      destruct (Hcur _ _ _ eq_refl) as (_ & Hbc & Hlc). rewrite (proj2 (Z.ltb_ge _ _)) by lia. change (Z.to_nat 0) with 0%nat. rewrite drop_0.
      destruct (skip_children_spec (msgpack d) (skip_object d) (S (length cur)) (2 * q) cur) as (res & -> & Hres);
        [apply walker_spec|apply msgpack_nonempty|done|lia|lia|].
      destruct res as [rest|]; [|done]. destruct (proj1 (Hres rest) eq_refl) as (cs & -> & Hlen & Hcs).
      assert (length cs <= length (concat cs))%nat by (apply concat_length_ge; eapply Forall_impl; [apply msgpack_nonempty|exact Hcs]).
      rewrite length_app in Hlc. lia.
    + by injection Hx as <-.
  - rewrite obj_size_eq, Hx by done. cbn [mbind option_bind]. destruct x as [[[n items] cur]|]; [by apply Hsame|done].
Qed.

Lemma skip_obj_spec l : bytes_ok l -> Z.of_nat (length l) < 2 ^ 32 -> exists r, skip_obj LEVELS l = Some r /\
  forall rest, r = Some rest <-> exists obj, l = obj ++ rest /\ msgpack MAX_LEVELS obj.
Proof. intros Hb Hl. rewrite skip_obj_eq by done. by apply (walker_spec MAX_LEVELS). Qed.

Lemma skip_obj_app obj rest : bytes_ok (obj ++ rest) -> Z.of_nat (length (obj ++ rest)) < 2 ^ 32 -> msgpack MAX_LEVELS obj ->
  skip_obj LEVELS (obj ++ rest) = Some (Some rest).
Proof. intros Hb Hl Hm. destruct (skip_obj_spec _ Hb Hl) as (r & -> & Hr). f_equal. apply Hr. by exists obj. Qed.

(** ** Byte strings and times *)

Lemma fixstr_range c : is_byte c -> (0xa0 <=? c) && (c <=? 0xbf) = (Z.land c 0xe0 =? 0xa0).
Proof.
  intros Hc. apply (bool_decide_eq_true_1 (_ = _)). revert c Hc. unfold in_width.
  apply (forall_below 256 (λ c, bool_decide ((0xa0 <=? c) && (c <=? 0xbf) = (Z.land c 0xe0 =? 0xa0)))). by vm_compute.
Qed.

Lemma single_not_string c : single_byte c = true -> is_byte c -> (Z.land c 0xe0 =? 0xa0) = false /\
  is_code c [0xc4; 0xd9] = false /\ is_code c [0xc5; 0xda] = false /\ is_code c [0xc6; 0xdb] = false.
Proof.
  intros Hs Hc. apply (bool_decide_eq_true_1 _). revert Hs. apply implb_true_iff. revert c Hc. unfold in_width.
  apply (forall_below 256 (λ c, implb (single_byte c) (bool_decide _))). by vm_compute.
Qed.

(** A byte string: its length field gives [n] bytes, and the reader [cur]. *)
Lemma get_bin_string c r n cur hd :
  bytes_ok (c :: r) -> Z.of_nat (length (c :: r)) < 2 ^ 32 -> single_byte c = false ->
  object_size c r = Some (Some (n, 0, cur)) -> c :: r = hd ++ cur -> 0 <= n ->
  skip_obj LEVELS (c :: r) = Some (if Z.of_nat (length cur) <? n then None else Some (drop (Z.to_nat n) cur)) /\
  (n <= Z.of_nat (length cur) -> memread (c :: r) (length hd) (Z.to_nat n) = memread cur 0 (Z.to_nat n)).
Proof.
  intros Hb Hl Hs Ho Ehd Hn. split.
  - rewrite skip_obj_eq by done. unfold LEVELS, LXMF_MAX_NESTING. rewrite skip_object_step. unfold object_head. rewrite Hs, Ho. cbn [mbind option_bind].
    destruct (Z.of_nat (length cur) <? n); [done|]. by cbn [skip_children].
  - intros Hle. rewrite Ehd. rewrite !memread_in by (rewrite ?length_app; lia). by rewrite drop_app_length, drop_0.
Qed.

Lemma get_bin_eq l : bytes_ok l -> Z.of_nat (length l) < 2 ^ 32 -> get_bin l = read_bytes l.
Proof.
  intros Hb Hl. destruct l as [|c r]; [done|]. pose proof Hb as [Hc Hr]%Forall_cons_1. unfold get_bin, read_bytes.
  change (load (c :: r) 0) with (Some c). cbn [mbind option_bind]. change (drop 1 (c :: r)) with r.
  destruct (skip_obj_spec _ Hb Hl) as (sk & Hsk & _). rewrite fixstr_range by done.
  destruct (single_byte c) eqn:Hs.
  { destruct (single_not_string c Hs Hc) as (-> & -> & -> & ->). rewrite Hsk. by destruct sk. }
  (* a size field of [w] bytes *)
  assert (forall w v, In w [1; 2; 4]%nat -> object_size c r = (x ← size_field w r; Some (x ≫= λ '(v, c), Some (v, 0, c))) ->
    v = (if (w =? 1)%nat then load r 0 else if (w =? 2)%nat then read16 r else read32 r) ->
    (x ← skip_obj LEVELS (c :: r);
     match x with
     | None => Some None
     | Some rest => hn ← (n ← v; Some (Some (S w, n)));
         match hn with None => Some None | Some (hd, n) => data ← memread (c :: r) hd (Z.to_nat n); Some (Some (data, rest)) end
     end) =
    (x ← size_field w r;
     match x with
     | None => Some None
     | Some (size, cursor) =>
         if Z.of_nat (length cursor) <? size then Some None
         else bytes ← memread cursor 0 (Z.to_nat size); Some (Some (bytes, drop (Z.to_nat size) cursor))
     end)) as Hcase.
  { intros w v Hw Ho Hv. destruct (size_field_total w r Hw Hr) as [x Hx]. rewrite Hx in *. cbn [mbind option_bind] in *.
    destruct x as [[n cur]|].
    - destruct (size_field_inv w r n cur Hw Hr Hx) as [Er Hn]. cbn [mbind option_bind] in Ho.
      assert (v = Some n) as ->.
      { revert Hx. unfold size_field. destruct (_ <? _)%nat; [done|]. rewrite <-Hv. destruct v; [|done]. cbn [mbind option_bind]. by intros [= -> _]. }
      destruct (get_bin_string c r n cur (c :: be_encode w n)) as [-> Hm]; [done|done|done|done|by rewrite Er at 1|lia|].
      cbn [mbind option_bind]. cbn [length] in Hm. rewrite length_be_encode in Hm. destruct (Z.ltb_spec (Z.of_nat (length cur)) n); [done|].
      cbn [mbind option_bind]. by rewrite Hm by lia.
    - cbn [mbind option_bind] in Ho. rewrite Hsk. cbn [mbind option_bind]. destruct sk as [rest|]; [|done]. exfalso.
      rewrite skip_obj_eq in Hsk by done. unfold LEVELS, LXMF_MAX_NESTING in Hsk. rewrite skip_object_step in Hsk. unfold object_head in Hsk.
      by rewrite Hs, Ho in Hsk. }
  destruct (Z.eqb_spec (Z.land c 0xe0) 0xa0) as [He|He].
  { destruct (fix_codes_inv c Hc) as (H1 & _). destruct (H1 He) as [_ Hn].
    assert (object_size c r = Some (Some (Z.land c 31, 0, r))) as Ho by (unfold object_size; by rewrite He).
    destruct (get_bin_string c r (Z.land c 31) r [c] Hb Hl Hs Ho eq_refl) as [-> Hm]; [lia|]. cbn [mbind option_bind].
    change 0x1f with 31. destruct (Z.ltb_spec (Z.of_nat (length r)) (Z.land c 31)); [done|]. cbn [mbind option_bind]. cbn [length] in Hm. by rewrite Hm by lia. }
  destruct (is_code c [0xc4; 0xd9]) eqn:E1.
  { rewrite <-(Hcase 1%nat (load r 0)); [done|cbn; tauto| |done]. apply is_code_true in E1 as [<-|[<-|[]]]; done. }
  destruct (is_code c [0xc5; 0xda]) eqn:E2.
  { rewrite <-(Hcase 2%nat (read16 r)); [done|cbn; tauto| |done]. apply is_code_true in E2 as [<-|[<-|[]]]; done. }
  destruct (is_code c [0xc6; 0xdb]) eqn:E3.
  { rewrite <-(Hcase 4%nat (read32 r)); [done|cbn; tauto| |done]. apply is_code_true in E3 as [<-|[<-|[]]]; done. }
  rewrite Hsk. by destruct sk.
Qed.

(** The header [put_bin] writes. *)
Lemma bin_header_spec n :
  0 <= n <= UINT32_MAX -> exists c w, In (c, w) [(0xc4, 1%nat); (0xc5, 2%nat); (0xc6, 4%nat)] /\
    bin_header n = Some (c :: be_encode w n) /\ n < 256 ^ Z.of_nat w.
Proof.
  intros Hn. unfold bin_header, UINT32_MAX in *. assert (forall k, 0 <= k -> Z.shiftr n k = n / 2 ^ k) as Hsh by (intros; by rewrite Z.shiftr_div_pow2).
  destruct (Z.leb_spec n 0xff); [exists 0xc4, 1%nat; cbn [In]; split_and!; [tauto|done|lia]|].
  destruct (Z.leb_spec n 0xffff).
  { exists 0xc5, 2%nat. cbn [In be_encode app]. rewrite !Hsh by done. split_and!; [tauto|done|lia]. }
  rewrite (proj2 (Z.leb_le _ _)) by lia. exists 0xc6, 4%nat. cbn [In be_encode app]. rewrite !Hsh, !Zdiv.Zdiv_Zdiv by done. split_and!; [tauto|done|lia].
Qed.

(** A byte string as it is written. *)
Definition bin_image (d : list Z) : list Z := default [] (bin_header (Z.of_nat (length d))) ++ d.

Lemma bin_image_spec d : Z.of_nat (length d) <= UINT32_MAX -> exists h, bin_header (Z.of_nat (length d)) = Some h /\ bin_image d = h ++ d /\
  header h (Z.of_nat (length d)) 0 /\ (2 <= length h <= 5)%nat /\ bytes_ok h.
Proof.
  intros Hd. destruct (bin_header_spec (Z.of_nat (length d))) as (c & w & Hin & Hh & Hlt); [lia|]. exists (c :: be_encode w (Z.of_nat (length d))).
  unfold bin_image. rewrite Hh. split_and!; try done.
  - apply (HBytes c w); [|lia]. cbn [In] in *. destruct Hin as [[= <- <-]|[[= <- <-]|[[= <- <-]|[]]]]; tauto.
  - cbn [length]. rewrite length_be_encode. destruct Hin as [[= <- <-]|[[= <- <-]|[[= <- <-]|[]]]]; lia.
  - cbn [length]. rewrite length_be_encode. destruct Hin as [[= <- <-]|[[= <- <-]|[[= <- <-]|[]]]]; lia.
  - constructor; [|apply be_encode_bytes]. unfold in_width. destruct Hin as [[= <- <-]|[[= <- <-]|[[= <- <-]|[]]]]; lia.
Qed.

Lemma get_bin_put d rest :
  bytes_ok d -> bytes_ok rest -> Z.of_nat (length (bin_image d ++ rest)) < 2 ^ 32 -> get_bin (bin_image d ++ rest) = Some (Some (d, rest)).
Proof.
  intros Hd Hr Hl. destruct (bin_header_spec (Z.of_nat (length d))) as (c & w & Hin & Hh & Hlt).
  { unfold bin_image in Hl. rewrite !length_app in Hl. unfold UINT32_MAX. lia. }
  unfold bin_image in *. rewrite Hh in *. cbn [default] in *. assert (bytes_ok (d ++ rest)) as Hdr by (by apply Forall_app).
  assert (is_byte c) as Hc by (unfold in_width; destruct Hin as [[= <- <-]|[[= <- <-]|[[= <- <-]|[]]]]; lia).
  rewrite get_bin_eq; [|rewrite <-app_assoc; cbn [app]; constructor; [done|by apply Forall_app; split; [apply be_encode_bytes|]]|done].
  rewrite <-app_assoc. cbn [app]. unfold read_bytes. rewrite (bind_Some_eq _ _ c) by done. cbv zeta.
  assert (size_field w (be_encode w (Z.of_nat (length d)) ++ d ++ rest) = Some (Some (Z.of_nat (length d), d ++ rest))) as Hsz.
  { apply size_field_encode; [|lia|done]. destruct Hin as [[= <- <-]|[[= <- <-]|[[= <- <-]|[]]]]; cbn; tauto. }
  rewrite (bind_Some_eq _ _ (Some (Z.of_nat (length d), d ++ rest))) by (destruct Hin as [[= <- <-]|[[= <- <-]|[[= <- <-]|[]]]]; exact Hsz).
  rewrite (proj2 (Z.ltb_ge _ _)) by (rewrite length_app; lia). rewrite Nat2Z.id.
  rewrite (memread_at _ [] d rest) by done. cbn [mbind option_bind]. by rewrite drop_app_length.
Qed.

Lemma load32be_drop p off : load32be p off = read32 (drop off p).
Proof. unfold load32be, read32, load. rewrite !lookup_drop. by rewrite Nat.add_0_r. Qed.

Lemma read32_encode x rest : in_width 32 x -> bytes_ok rest -> read32 (be_encode 4 x ++ rest) = Some x.
Proof.
  intros Hx Hr. pose proof (size_field_encode 4 x rest ltac:(cbn; tauto) Hx Hr) as Hs. unfold size_field in Hs.
  destruct (_ <? _)%nat; [done|]. change (if (4 =? 1)%nat then _ else _) with (read32 (be_encode 4 x ++ rest)) in Hs.
  destruct (read32 _); [|done]. by injection Hs as ->.
Qed.

Lemma be_encode_split n k x : be_encode (n + k) x = be_encode n (x / 256 ^ Z.of_nat k) ++ be_encode k x.
Proof.
  revert n x. induction k as [|k IH]; intros n x; [cbn [be_encode]; by rewrite Nat.add_0_r, Z.div_1_r, app_nil_r|].
  rewrite Nat.add_succ_r. cbn [be_encode]. rewrite IH, app_assoc. do 3 f_equal.
  rewrite Zdiv.Zdiv_Zdiv by lia. f_equal. rewrite Nat2Z.inj_succ, Z.pow_succ_r by lia. lia.
Qed.

Lemma get_double_put t rest : in_width 64 t -> bytes_ok rest -> get_double (0xcb :: store64be t ++ rest) = Some (Some (t, rest)).
Proof.
  intros Ht Hr. unfold get_double. rewrite store64be_encode. cbn [length]. rewrite length_app, length_be_encode.
  rewrite (proj2 (Nat.ltb_ge _ _)) by lia. change (load (0xcb :: be_encode 8 t ++ rest) 0) with (Some 0xcb). cbn [mbind option_bind Z.eqb Pos.eqb negb].
  rewrite !load32be_drop. change (drop 1 (0xcb :: be_encode 8 t ++ rest)) with (be_encode 8 t ++ rest).
  change (drop 5 (0xcb :: be_encode 8 t ++ rest)) with (drop 4 (be_encode 8 t ++ rest)).
  change (drop 9 (0xcb :: be_encode 8 t ++ rest)) with (drop 8 (be_encode 8 t ++ rest)).
  rewrite (drop_app_length' (be_encode 8 t)) by (by rewrite length_be_encode). rewrite (be_encode_split 4 4), <-app_assoc.
  assert (be_encode 4 t = be_encode 4 (t mod 2 ^ 32)) as E4.
  { assert (forall k y, be_encode k (y mod 256 ^ Z.of_nat k) = be_encode k y) as Hm.
    { intros k. induction k as [|k IH]; intros y; [done|]. cbn [be_encode]. rewrite Nat2Z.inj_succ, Z.pow_succ_r by lia. f_equal.
      - rewrite <-(IH (y / 256)). f_equal. rewrite Z.rem_mul_r by lia. rewrite Z.add_comm, Z.mul_comm, Z.div_add_l by lia.
        rewrite (Z.div_small (y mod 256)); [lia|]. apply Z.mod_pos_bound. lia.
      - f_equal. rewrite Z.rem_mul_r by lia. rewrite Z.add_comm, Z.mul_comm, Z.add_comm, Z.mod_add by lia. by rewrite Z.mod_mod. }
    by rewrite <-(Hm 4%nat t). }
  rewrite drop_app_length' by (by rewrite length_be_encode). rewrite E4. unfold in_width in Ht.
  rewrite (read32_encode (t / 256 ^ Z.of_nat 4)); [|split; [apply Z.div_pos; lia|apply Z.div_lt_upper_bound; lia]|by apply Forall_app; split; [apply be_encode_bytes|]].
  rewrite read32_encode; [|unfold in_width; apply Z.mod_pos_bound; lia|done].
  cbn [mbind option_bind]. do 3 f_equal. rewrite lor_shiftl_add by (done || (unfold in_width; apply Z.mod_pos_bound; lia)).
  change (256 ^ Z.of_nat 4) with (2 ^ 32). pose proof (Z.div_mod t (2 ^ 32) ltac:(lia)). lia.
Qed.

(** ** Writing *)

(** A writer over [n] bytes, [cap] of them usable, that has written [acc]. *)
Record written (n cap : nat) (w : writer) (acc : list Z) : Prop := {
  wr_buf : wrote n w.(wbuf) acc;
  wr_pos : w.(wpos) = length acc;
  wr_left : w.(left) = (cap - length acc)%nat;
  wr_cap : (length acc <= cap <= n)%nat
}.

(** The step [a] writes the bytes [bs], or fails because they do not fit. *)
Definition writes (n cap : nat) (a : writer -> option (bool * writer)) (bs : list Z) : Prop :=
  forall w acc, written n cap w acc -> exists ok w', a w = Some (ok, w') /\ length w'.(wbuf) = n /\
    (ok = true <-> (length acc + length bs <= cap)%nat) /\ (ok = true -> written n cap w' (acc ++ bs)).

Lemma fresh_written n : written n n (fresh_writer n) [].
Proof. constructor; cbn; [apply wrote_nil; apply length_replicate|done|lia|lia]. Qed.

Lemma writes_put n cap bs : writes n cap (λ w, put w bs) bs.
Proof.
  intros w acc [Hb Hp Hl Hc]. unfold put. rewrite Hl. destruct (Nat.ltb_spec (cap - length acc) (length bs)) as [Hlt|Hge].
  - exists false, w. split; [done|]. split; [apply Hb|]. split; [split; [done|lia]|done].
  - rewrite Hp. destruct (wrote_memcpy n (wbuf w) acc bs Hb) as (b & -> & Hb'); [lia|]. cbn [mbind option_bind].
    eexists _, _. split; [done|]. split; [apply Hb'|]. split; [split; [lia|done]|]. intros _.
    constructor; cbn [wbuf wpos left]; rewrite ?length_app; [done|done|lia|lia].
Qed.

Lemma writes_and_then n cap a b x y : writes n cap a x -> writes n cap b y -> writes n cap (and_then a b) (x ++ y).
Proof.
  intros Ha Hb w acc Hw. unfold and_then. destruct (Ha w acc Hw) as (ok & w1 & -> & Hn & Hok & Hw1). cbn [mbind option_bind fst snd].
  rewrite length_app. destruct ok.
  - destruct (Hb w1 _ (Hw1 eq_refl)) as (ok & w2 & -> & Hn2 & Hok2 & Hw2). rewrite length_app in Hok2. rewrite app_assoc. eexists _, _.
    split; [done|]. split; [done|]. split; [|done]. rewrite Hok2. lia.
  - exists false, w1. split; [done|]. split; [done|]. split; [|done]. split; [done|]. intros Hle. apply Hok. lia.
Qed.

Lemma writes_put_bin n cap s : slice_bad s = false -> Z.of_nat (slice_length s) <= UINT32_MAX -> writes n cap (put_bin s) (bin_image (slice_bytes s)).
Proof.
  intros Hs Hl w acc Hw. unfold put_bin. rewrite Hs. apply slice_bad_length in Hs. rewrite Hs in *.
  destruct (bin_image_spec (slice_bytes s) Hl) as (h & -> & -> & _). by apply (writes_and_then n cap); [apply writes_put|apply writes_put|].
Qed.

(** The slices of a message that can be written. *)
Record slices_ok (m : lxmf_message) : Prop := {
  so_title : slice_bad m.(title) = false /\ Z.of_nat (slice_length m.(title)) <= UINT32_MAX;
  so_content : slice_bad m.(content) = false /\ Z.of_nat (slice_length m.(content)) <= UINT32_MAX;
  so_fields : slice_bad m.(fields_msgpack) = false /\ bytes_ok (slice_bytes m.(fields_msgpack)) /\
    Z.of_nat (slice_length m.(fields_msgpack)) <= UINT32_MAX /\
    (slice_bytes m.(fields_msgpack) = [] \/
     msgpack MAX_LEVELS (slice_bytes m.(fields_msgpack)) /\ exists c l, slice_bytes m.(fields_msgpack) = c :: l /\ is_map c = true)
}.

Definition fields_image (m : lxmf_message) : list Z := if slice_bytes m.(fields_msgpack) is [] then [0x80] else slice_bytes m.(fields_msgpack).

Definition stamp_bytes (m : lxmf_message) : list Z := take (stamp_length m) m.(stamp).

(** The payload of a message, without and with its stamp. *)
Definition payload_image (m : lxmf_message) (with_stamp : bool) : list Z :=
  ([if with_stamp then 0x95 else 0x94] ++ (0xcb :: store64be m.(timestamp)) ++ bin_image (slice_bytes m.(title)) ++
   bin_image (slice_bytes m.(content))) ++ fields_image m ++ (if with_stamp then bin_image (stamp_bytes m) else []).

Definition stamp_ok (m : lxmf_message) : Prop :=
  (stamp_length m = LXMF_STAMP_LENGTH \/ stamp_length m = LXMF_POW_STAMP_LENGTH) /\ (stamp_length m <= length m.(stamp))%nat.

(** A step and what follows it. *)
Lemma bounded_spec n cap a x y w acc k (P : lxmf_status -> writer -> Prop) :
  writes n cap a x -> written n cap w acc -> (cap < length acc + length (x ++ y) -> forall w', length w'.(wbuf) = n -> P LXMF_ERR_BOUNDS w')%nat ->
  (forall w', written n cap w' (acc ++ x) -> exists s w'', k w' = Some (s, w'') /\ P s w'') ->
  exists s w'', bounded a w k = Some (s, w'') /\ P s w''.
Proof.
  intros Ha Hw Hfail Hk. unfold bounded. destruct (Ha w acc Hw) as (ok & w1 & -> & Hn & Hok & Hw1). cbn [mbind option_bind fst snd]. destruct ok.
  - apply Hk, Hw1. done.
  - eexists _, _. split; [done|]. apply Hfail; [|done]. rewrite length_app. assert (~ (length acc + length x <= cap)%nat) by (intros Hc; by apply Hok in Hc). lia.
Qed.

(** What writing a payload comes to. *)
Definition payload_written n cap (acc image : list Z) (s : lxmf_status) (w : writer) : Prop :=
  length w.(wbuf) = n /\ (s = LXMF_OK <-> (length acc + length image <= cap)%nat) /\ (s <> LXMF_OK -> s = LXMF_ERR_BOUNDS) /\
  (s = LXMF_OK -> written n cap w (acc ++ image)).

Lemma payload_failed n cap acc image w :
  (cap < length acc + length image)%nat -> length w.(wbuf) = n -> payload_written n cap acc image LXMF_ERR_BOUNDS w.
Proof. intros Hc Hn. split; [done|]. split; [split; [done|lia]|]. done. Qed.

Lemma encode_payload_spec n cap m st w acc :
  slices_ok m -> (st = true -> stamp_ok m) -> written n cap w acc ->
  exists s w', encode_payload m st w = Some (s, w') /\ payload_written n cap acc (payload_image m st) s w'.
Proof.
  intros [[T1 T2] [C1 C2] (F1 & F2 & F3 & F4)] Hst Hw. unfold encode_payload. set (post := payload_written n cap acc (payload_image m st)).
  set (head := [if st then 0x95 else 0x94] ++ (0xcb :: store64be (timestamp m)) ++ bin_image (slice_bytes (title m)) ++ bin_image (slice_bytes (content m))).
  set (foot := if st then bin_image (stamp_bytes m) else []). set (fi := fields_image m).
  assert (payload_image m st = head ++ fi ++ foot) as Eimg by done.
  apply (bounded_spec n cap _ head (fi ++ foot) w acc); [|done| |].
  { repeat (apply writes_and_then; [apply writes_put|]). apply writes_and_then; by apply writes_put_bin. }
  { intros Hc w' Hn. apply payload_failed; [by rewrite Eimg|done]. }
  intros w1 Hw1.
  assert (forall k, (forall w', written n cap w' ((acc ++ head) ++ fi) -> exists s w'', k w' = Some (s, w'') /\ post s w'') ->
    exists s w', put_fields (fields_msgpack m) w1 k = Some (s, w') /\ post s w') as Hfields.
  { intros k Hk. assert (forall l, fi = l -> exists s w', bounded (λ w, put w l) w1 k = Some (s, w') /\ post s w') as Hput.
    { intros l <-. apply (bounded_spec n cap _ fi foot w1 (acc ++ head)); [apply writes_put|done| |done].
      intros Hc w' Hn. apply payload_failed; [|done]. rewrite Eimg. rewrite !length_app in *. lia. }
    unfold fi, fields_image, put_fields in *. destruct (fields_msgpack m) as [[|k0]|[|c l]]; cbn [slice_bytes slice_length] in *; try (by apply Hput); [done|].
    destruct F4 as [|[Hm (c0 & l0 & [= <- <-] & Hmap)]]; [done|]. 
    pose proof (skip_obj_app (c :: l) []) as Hskip. rewrite app_nil_r in Hskip. rewrite Hskip; [|done|unfold UINT32_MAX in F3; lia|done]. cbn [mbind option_bind]. rewrite Hmap. by apply Hput. }
  apply Hfields. intros w2 Hw2. destruct st.
  - destruct (Hst eq_refl) as [Hlen Hsl]. set (k := stamp_length m) in *.
    assert (negb (k =? LXMF_STAMP_LENGTH)%nat && negb (k =? LXMF_POW_STAMP_LENGTH)%nat = false) as -> by (by destruct Hlen as [->| ->]).
    rewrite memread_in by lia. rewrite drop_0. cbn [mbind option_bind]. change (take k (stamp m)) with (stamp_bytes m).
    apply (bounded_spec n cap _ foot [] w2 ((acc ++ head) ++ fi)); [|done| |].
    + apply (writes_put_bin n cap (SBytes (stamp_bytes m))); [done|]. cbn [slice_length]. unfold stamp_bytes. rewrite length_take. fold k.
      unfold LXMF_STAMP_LENGTH, LXMF_POW_STAMP_LENGTH, UINT32_MAX in *. lia.
    + intros Hc w' Hn. apply payload_failed; [|done]. rewrite Eimg. rewrite !length_app in *. cbn [length] in *. lia.
    + intros w3 Hw3. eexists _, _. split; [done|]. rewrite <-!app_assoc in Hw3. rewrite <-Eimg in Hw3. split; [apply (wr_buf _ _ _ _ Hw3)|].
      split; [|done]. split; [|done]. intros _. pose proof (wr_cap _ _ _ _ Hw3) as Hc. rewrite length_app in Hc. lia.
  - eexists _, _. split; [done|]. unfold foot in Eimg. rewrite app_nil_r in Eimg. rewrite <-app_assoc, <-Eimg in Hw2. split; [apply (wr_buf _ _ _ _ Hw2)|].
    split; [|done]. split; [|done]. intros _. pose proof (wr_cap _ _ _ _ Hw2) as Hc. rewrite length_app in Hc. lia.
Qed.

(** ** Packing a message *)

(** A message that can be sent. *)
Record message_ok (m : lxmf_message) : Prop := {
  mo_destination : length m.(destination) = 16%nat /\ bytes_ok m.(destination);
  mo_source : length m.(source) = 16%nat /\ bytes_ok m.(source);
  mo_timestamp : in_width 64 m.(timestamp);
  mo_slices : slices_ok m;
  mo_text : bytes_ok (slice_bytes m.(title)) /\ bytes_ok (slice_bytes m.(content));
  mo_stamp : m.(has_stamp) = true -> stamp_ok m /\ bytes_ok m.(stamp);
  mo_size : lxmf_pack_bound m <> 0
}.

Lemma length_bin_image d : Z.of_nat (length d) <= UINT32_MAX -> (length d + 2 <= length (bin_image d) <= length d + 5)%nat.
Proof. intros Hd. destruct (bin_image_spec d Hd) as (h & _ & -> & _ & Hl & _). rewrite length_app. lia. Qed.

Lemma length_store64be x : length (store64be x) = 8%nat.
Proof. by rewrite store64be_encode, length_be_encode. Qed.

Lemma add_bound_some t v b : add_bound t v = Some b -> b = t + v /\ b <= LXMF_MAX_MESSAGE_SIZE.
Proof. unfold add_bound. destruct (_ <? _); [done|]. destruct (Z.leb_spec (t + v) LXMF_MAX_MESSAGE_SIZE); [|done]. by intros [= <-]. Qed.

Lemma stamp_bytes_length m : stamp_ok m -> length (stamp_bytes m) = stamp_length m /\ (stamp_length m <= 32)%nat.
Proof. intros [Hl Hs]. unfold stamp_bytes. rewrite length_take. unfold LXMF_STAMP_LENGTH, LXMF_POW_STAMP_LENGTH in Hl. lia. Qed.

Lemma length_payload_image m (st : bool) : length (payload_image m st) =
  (10 + length (bin_image (slice_bytes m.(title))) + length (bin_image (slice_bytes m.(content))) + length (fields_image m) +
   length (if st then bin_image (stamp_bytes m) else []))%nat.
Proof. unfold payload_image. rewrite !length_app. cbn [length]. rewrite length_store64be. lia. Qed.

(** The bound is enough for the message, and within the largest one. *)
Lemma pack_bound_spec m (st : bool) :
  slices_ok m -> (m.(has_stamp) = true -> stamp_ok m) -> lxmf_pack_bound m <> 0 -> (st = true -> m.(has_stamp) = true) ->
  Z.of_nat (96 + length (payload_image m st)) <= lxmf_pack_bound m <= LXMF_MAX_MESSAGE_SIZE.
Proof.
  intros [[T1 T2] [C1 C2] (F1 & _ & F3 & _)] Hs Hb Hst. rewrite length_payload_image. apply slice_bad_length in T1, C1, F1. rewrite T1, C1, F1 in *.
  pose proof (length_bin_image _ T2) as HT. pose proof (length_bin_image _ C2) as HC.
  assert (Z.of_nat (length (fields_image m)) = if (length (slice_bytes (fields_msgpack m)) =? 0)%nat then 1 else Z.of_nat (length (slice_bytes (fields_msgpack m)))) as HF.
  { unfold fields_image. by destruct (slice_bytes (fields_msgpack m)). }
  assert (forall n, 0 <= n <= UINT32_MAX -> bin_bound n = n + 5) as Hbb.
  { intros n Hn. unfold bin_bound. rewrite !(proj2 (Z.leb_le _ _)); [done| |lia]. limits. unfold UINT32_MAX in Hn. lia. }
  assert (0 <= Z.of_nat (length (if st then bin_image (stamp_bytes m) else [])) <=
    (if has_stamp m then bin_bound (Z.of_nat (stamp_length m)) else 0)) as HS.
  { destruct st; [|destruct (has_stamp m) eqn:E; [destruct (stamp_bytes_length m (Hs eq_refl)); rewrite Hbb; cbn [length]; unfold UINT32_MAX; lia|cbn; lia]].
    rewrite (Hst eq_refl) in *. destruct (stamp_bytes_length m (Hs eq_refl)) as [Hl H32]. rewrite Hbb by (unfold UINT32_MAX; lia).
    pose proof (length_bin_image (stamp_bytes m)) as HI. rewrite Hl in HI. unfold UINT32_MAX in HI. lia. }
  revert Hb. unfold lxmf_pack_bound. rewrite T1, C1, F1, !(Hbb (Z.of_nat _)) by lia. rewrite <-HF.
  set (sb := if has_stamp m then bin_bound _ else 0) in *. destruct (_ || _); [done|].
  destruct (add_bound (Z.of_nat LXMF_HEADER_LENGTH) 10) as [b1|] eqn:E1; [|done]. cbn [mbind option_bind].
  destruct (add_bound b1 _) as [b2|] eqn:E2; [|done]. cbn [mbind option_bind]. destruct (add_bound b2 _) as [b3|] eqn:E3; [|done]. cbn [mbind option_bind].
  destruct (add_bound b3 _) as [b4|] eqn:E4; [|done]. cbn [mbind option_bind]. destruct (add_bound b4 sb) as [b5|] eqn:E5; [|done]. cbn [default]. intros _.
  apply add_bound_some in E1 as [-> _], E2 as [-> _], E3 as [-> _], E4 as [-> _], E5 as [-> Hmax].
  unfold LXMF_HEADER_LENGTH, LXMF_DESTINATION_LENGTH, LXMF_SOURCE_LENGTH, LXMF_SIGNATURE_LENGTH in *. unfold id. split; [lia|done].
Qed.

Lemma payload_id_spec dest src payload : payload_id dest src payload = sha256 (dest ++ src ++ payload) /\
  exists id, sha256 (dest ++ src ++ payload) = Some id /\ length id = 32%nat.
Proof. pose proof (sha_pieces_spec (replicate 64 0) [dest; src; payload] eq_refl) as Hs. cbn [concat] in Hs. by rewrite app_nil_r in Hs. Qed.

(** A payload written into fresh memory. *)
Lemma encode_fresh m n :
  slices_ok m -> exists s w, encode_payload m false (fresh_writer n) = Some (s, w) /\
    (s = LXMF_OK <-> (length (payload_image m false) <= n)%nat) /\ (s <> LXMF_OK -> s = LXMF_ERR_BOUNDS) /\
    (s = LXMF_OK -> (n - w.(left))%nat = length (payload_image m false) /\ memread w.(wbuf) 0 (n - w.(left)) = Some (payload_image m false)).
Proof.
  intros Hs. destruct (encode_payload_spec n n m false (fresh_writer n) [] Hs ltac:(done) (fresh_written n)) as (s & w & -> & _ & Hok & Hb & Hw).
  exists s, w. split; [done|]. cbn [length Nat.add app] in *. split; [done|]. split; [done|]. intros Hst. specialize (Hw Hst).
  pose proof (wr_left _ _ _ _ Hw) as Hl. pose proof (wr_cap _ _ _ _ Hw) as Hc. replace (n - left w)%nat with (length (payload_image m false)) by lia.
  split; [done|]. apply (wrote_read n). apply (wr_buf _ _ _ _ Hw).
Qed.

Section PackSpec.
Variable malloc_ok : nat -> bool.
Hypothesis malloc_all : forall n, malloc_ok n = true.

Lemma lxmf_pack_spec m sign o cap id sig :
  message_ok m -> lxmf_pack_bound m <= Z.of_nat cap -> (cap <= length o)%nat ->
  sha256 (m.(destination) ++ m.(source) ++ payload_image m false) = Some id ->
  sign (m.(destination) ++ m.(source) ++ payload_image m false ++ id) = (LXMF_OK, sig) -> length sig = 64%nat ->
  exists o', lxmf_pack malloc_ok m sign (Some o) cap = Some (LXMF_OK, Some o', 96 + length (payload_image m m.(has_stamp)))%nat /\
    take (96 + length (payload_image m m.(has_stamp))) o' = m.(destination) ++ m.(source) ++ sig ++ payload_image m m.(has_stamp).
Proof.
  intros [[D1 D2] [S1 S2] Ht Hsl _ Hst Hb] Hcap Hlo Hid Hsign Hsig. assert (has_stamp m = true -> stamp_ok m) as Hst' by (intros E; by destruct (Hst E)).
  pose proof (pack_bound_spec m false Hsl Hst' Hb ltac:(done)) as [Hb1 Hmax]. pose proof (pack_bound_spec m (has_stamp m) Hsl Hst' Hb ltac:(done)) as [Hb2 _].
  unfold lxmf_pack. set (bound := lxmf_pack_bound m) in *. rewrite (proj2 (Z.eqb_neq _ _)) by done. rewrite (proj2 (Z.ltb_ge _ _)) by lia. cbn [orb].
  unfold LXMF_HEADER_LENGTH, LXMF_DESTINATION_LENGTH, LXMF_SOURCE_LENGTH, LXMF_SIGNATURE_LENGTH. cbn [Nat.add]. set (pc := (Z.to_nat bound - 96)%nat).
  rewrite malloc_all. cbn [negb]. destruct (encode_fresh m pc Hsl) as (s & pw & -> & Hok & _ & Hw). assert (s = LXMF_OK) as -> by (apply Hok; lia).
  cbn [mbind option_bind]. rewrite bool_decide_true by done. cbn [negb]. destruct (Hw eq_refl) as [Hpl ->]. cbn [mbind option_bind]. rewrite Hpl.
  rewrite (proj1 (payload_id_spec _ _ _)), Hid. cbn [mbind option_bind]. unfold LXMF_MAX_MESSAGE_SIZE in Hmax.
  rewrite (proj2 (Z.ltb_ge _ _)) by (limits; lia). rewrite malloc_all. cbn [negb]. rewrite Hsign, bool_decide_true by done. cbn [negb].
  assert (writes (length o) cap (and_then (λ w, put w (destination m)) (and_then (λ w, put w (source m)) (λ w, put w sig))) (destination m ++ source m ++ sig)) as Hhead
    by (repeat (apply writes_and_then; [apply writes_put|]); apply writes_put).
  destruct (Hhead {| wbuf := o; wpos := 0; left := cap |} []) as (ok & w1 & -> & Hn1 & Hok1 & Hw1).
  { constructor; cbn [wbuf wpos left length]; [by apply wrote_nil|done|lia|lia]. }
  cbn [mbind option_bind fst snd length app Nat.add] in *. rewrite !length_app in Hok1. assert (ok = true) as -> by (apply Hok1; lia). cbn [negb].
  destruct (encode_payload_spec (length o) cap m (has_stamp m) w1 _ Hsl Hst' (Hw1 eq_refl)) as (s & w2 & -> & _ & Hok2 & _ & Hw2).
  rewrite !length_app, D1, S1, Hsig in Hok2. assert (s = LXMF_OK) as -> by (apply Hok2; lia). cbn [mbind option_bind]. rewrite bool_decide_true by done.
  specialize (Hw2 eq_refl). pose proof (wr_left _ _ _ _ Hw2) as Hl2. pose proof (wr_cap _ _ _ _ Hw2) as Hc2. rewrite !length_app, D1, S1, Hsig in Hl2, Hc2.
  exists (wbuf w2). split; [do 2 f_equal; lia|]. destruct (wr_buf _ _ _ _ Hw2) as (_ & Htk & _). rewrite !length_app, D1, S1, Hsig in Htk.
  rewrite <-!app_assoc in Htk. done.
Qed.
End PackSpec.

(** ** Unpacking a message *)

(** The message that arrives: everything but the signature and the identifier. *)
Definition received (m0 m : lxmf_message) : lxmf_message :=
  {| destination := m0.(destination); source := m0.(source); signature := m0.(signature); message_id := m0.(message_id);
     timestamp := m.(timestamp); title := SBytes (slice_bytes m.(title)); content := SBytes (slice_bytes m.(content));
     fields_msgpack := SBytes (fields_image m); has_stamp := m.(has_stamp);
     stamp_len := if m.(has_stamp) then stamp_length m else 0;
     stamp := if m.(has_stamp) then stamp_bytes m ++ replicate (32 - stamp_length m) 0 else replicate 32 0 |}.

Lemma fields_image_spec m : slices_ok m -> bytes_ok (fields_image m) /\ msgpack MAX_LEVELS (fields_image m) /\
  exists c l, fields_image m = c :: l /\ is_map c = true.
Proof.
  intros [_ _ (F1 & F2 & F3 & F4)]. unfold fields_image. destruct (slice_bytes (fields_msgpack m)) as [|c l] eqn:E.
  - split; [by repeat constructor|]. split; [|by exists 0x80, []].
    exists [0x80], 0, 0, [], []. split_and!; try done. exact (HFixMap 0 ltac:(lia)).
  - destruct F4 as [|[Hm Hmap]]; [done|]. done.
Qed.

Lemma bin_image_bytes d : bytes_ok d -> Z.of_nat (length d) <= UINT32_MAX -> bytes_ok (bin_image d).
Proof. intros Hd Hl. destruct (bin_image_spec d Hl) as (h & _ & -> & _ & _ & Hh). by apply Forall_app. Qed.

Lemma stamp_bytes_ok m : bytes_ok m.(stamp) -> bytes_ok (stamp_bytes m).
Proof. intros Hb. by apply Forall_take. Qed.

Lemma foot_bytes m : (m.(has_stamp) = true -> stamp_ok m /\ bytes_ok m.(stamp)) -> bytes_ok (if m.(has_stamp) then bin_image (stamp_bytes m) else []).
Proof.
  intros Hs. destruct (has_stamp m); [|constructor]. destruct (Hs eq_refl) as [Hok Hb]. destruct (stamp_bytes_length m Hok) as [Hl H32].
  apply bin_image_bytes; [by apply stamp_bytes_ok|]. rewrite Hl. unfold UINT32_MAX. lia.
Qed.

Lemma unpack_payload_image m0 m :
  message_ok m -> unpack_payload m0 (payload_image m m.(has_stamp)) = Some (Some (received m0 m)).
Proof.
  intros [_ _ Ht Hsl [Tb Cb] Hst Hb]. assert (has_stamp m = true -> stamp_ok m) as Hst' by (intros E; by destruct (Hst E)).
  pose proof (pack_bound_spec m (has_stamp m) Hsl Hst' Hb ltac:(done)) as [Hb1 Hmax]. unfold LXMF_MAX_MESSAGE_SIZE in Hmax. rewrite length_payload_image in Hb1.
  destruct (fields_image_spec m Hsl) as (Fb & Fm & c & fl & Ef & Hmap). pose proof (foot_bytes m Hst) as Footb. pose proof Hsl as [[T1 T2] [C1 C2] _].
  rewrite (slice_bad_length _ T1) in T2. rewrite (slice_bad_length _ C1) in C2.
  set (foot := if has_stamp m then bin_image (stamp_bytes m) else []) in *. set (tb := slice_bytes (title m)) in *. set (cb := slice_bytes (content m)) in *.
  pose proof (bin_image_bytes tb Tb T2) as Tib. pose proof (bin_image_bytes cb Cb C2) as Cib.
  assert (payload_image m (has_stamp m) = (if has_stamp m then 0x95 else 0x94) :: 0xcb :: store64be (timestamp m) ++ bin_image tb ++ bin_image cb ++ fields_image m ++ foot) as ->.
  { unfold payload_image. fold tb cb foot. rewrite <-!app_assoc. done. }
  unfold unpack_payload. set (a := if has_stamp m then 0x95 else 0x94). rewrite (bind_Some_eq _ _ a) by done. cbv zeta.
  assert (negb (a =? 0x94) && negb (a =? 0x95) = false) as -> by (unfold a; by destruct (has_stamp m)).
  change (drop 1 (a :: 0xcb :: store64be (timestamp m) ++ bin_image tb ++ bin_image cb ++ fields_image m ++ foot))
    with (0xcb :: store64be (timestamp m) ++ bin_image tb ++ bin_image cb ++ fields_image m ++ foot).
  assert (bytes_ok (fields_image m ++ foot)) as B1 by (by apply Forall_app). assert (bytes_ok (bin_image cb ++ fields_image m ++ foot)) as B2 by (by apply Forall_app).
  assert (bytes_ok (bin_image tb ++ bin_image cb ++ fields_image m ++ foot)) as B3 by (by apply Forall_app).
  rewrite (bind_Some_eq _ _ _ (get_double_put (timestamp m) _ Ht B3)).
  rewrite (bind_Some_eq _ _ _ (get_bin_put tb _ Tb B2 ltac:(rewrite !length_app; lia))).
  rewrite (bind_Some_eq _ _ _ (get_bin_put cb _ Cb B1 ltac:(rewrite !length_app; lia))).
  rewrite (bind_Some_eq _ _ _ (skip_obj_app (fields_image m) foot B1 ltac:(rewrite !length_app; lia) Fm)).
  rewrite (bind_Some_eq _ _ c) by (by rewrite Ef). rewrite Hmap. cbn [negb].
  assert (take (length (fields_image m ++ foot) - length foot) (fields_image m ++ foot) = fields_image m) as ->
    by (rewrite length_app, Nat.add_sub; apply take_app_length).
  unfold a, foot, received. destruct (has_stamp m) eqn:Es; cbn [Z.eqb Pos.eqb].
  - destruct (Hst eq_refl) as [Hok Hsb]. destruct (stamp_bytes_length m Hok) as [Hl H32]. unfold foot in Hb1.
    pose proof (get_bin_put (stamp_bytes m) [] (stamp_bytes_ok m Hsb) ltac:(constructor)) as Hg. rewrite app_nil_r in Hg. rewrite (bind_Some_eq _ _ _ (Hg ltac:(lia))).
    assert (negb (length (stamp_bytes m) =? LXMF_STAMP_LENGTH)%nat && negb (length (stamp_bytes m) =? LXMF_POW_STAMP_LENGTH)%nat = false) as ->
      by (rewrite Hl; destruct Hok as [[->| ->] _]; done).
    unfold memcpy. rewrite decide_True by (rewrite length_replicate; lia). rewrite take_0. cbn [mbind option_bind app Nat.add]. rewrite drop_replicate, Hl. done.
  - done.
Qed.

(** The payload that is hashed again is the one that was signed. *)
Lemma received_payload m0 m : slices_ok m -> payload_image (received m0 m) false = payload_image m false /\ slices_ok (received m0 m).
Proof.
  intros Hsl. destruct (fields_image_spec m Hsl) as (Fb & Fm & c & fl & Ef & Hmap). destruct Hsl as [[T1 T2] [C1 C2] (F1 & F2 & F3 & F4)].
  assert (fields_image (received m0 m) = fields_image m) as Ei by (unfold fields_image at 1; cbn [received fields_msgpack slice_bytes]; by rewrite Ef).
  split.
  - unfold payload_image. by rewrite Ei.
  - constructor; cbn [received title content fields_msgpack slice_bytes slice_length]; [split; [done|by rewrite <-(slice_bad_length _ T1)]|split; [done|by rewrite <-(slice_bad_length _ C1)]|].
    split; [done|]. split; [done|]. split; [|right; split; [done|by exists c, fl]].
    unfold fields_image. destruct (slice_bytes (fields_msgpack m)) eqn:E; [cbn; unfold UINT32_MAX; lia|]. by rewrite <-E, <-(slice_bad_length _ F1).
Qed.

(** The verdict of the callback as the code reports it. *)
Definition verdict (st : lxmf_status) : lxmf_status :=
  match st with LXMF_OK => LXMF_OK | LXMF_ERR_UNKNOWN_SIGNER => LXMF_ERR_UNKNOWN_SIGNER | _ => LXMF_ERR_SIGNATURE end.

Definition empty_message (dest src sig : list Z) : lxmf_message :=
  {| destination := dest; source := src; signature := sig; message_id := replicate 32 0; timestamp := 0; title := SNull 0; content := SNull 0;
     fields_msgpack := SNull 0; has_stamp := false; stamp_len := 0; stamp := replicate 32 0 |}.

Section UnpackSpec.
Variable malloc_ok : nat -> bool.

Lemma lxmf_unpack_image m sig id verify :
  (forall n, malloc_ok n = true) -> message_ok m -> length sig = 64%nat -> bytes_ok sig ->
  sha256 (m.(destination) ++ m.(source) ++ payload_image m false) = Some id ->
  lxmf_unpack malloc_ok (SBytes (m.(destination) ++ m.(source) ++ sig ++ payload_image m m.(has_stamp))) (Some verify) =
  Some (verdict (verify m.(source) (m.(destination) ++ m.(source) ++ payload_image m false ++ id) sig),
        Some (identified (received (empty_message m.(destination) m.(source) sig) m) id)).
Proof.
  intros Hmal Hm Hsig Sb Hid. pose proof Hm as [[D1 D2] [S1 S2] Ht Hsl [Tb Cb] Hst Hb]. assert (has_stamp m = true -> stamp_ok m) as Hst' by (intros E; by destruct (Hst E)).
  pose proof (pack_bound_spec m false Hsl Hst' Hb ltac:(done)) as [Hb1 Hmax]. pose proof (pack_bound_spec m (has_stamp m) Hsl Hst' Hb ltac:(done)) as [Hb2 _].
  assert (length (payload_image m false) <= length (payload_image m (has_stamp m)) /\ 1 <= length (payload_image m (has_stamp m)))%nat as [Hle H1]
    by (rewrite !length_payload_image; cbn [length]; lia).
  set (img := payload_image m (has_stamp m)) in *. set (l := destination m ++ source m ++ sig ++ img).
  assert (length l = 96 + length img)%nat as Hl by (unfold l; rewrite !length_app; lia).
  unfold lxmf_unpack. rewrite Hl. unfold LXMF_HEADER_LENGTH, LXMF_DESTINATION_LENGTH, LXMF_SOURCE_LENGTH, LXMF_SIGNATURE_LENGTH. cbn [Nat.add].
  rewrite (proj2 (Nat.ltb_ge _ _)) by lia. rewrite (proj2 (Z.ltb_ge _ _)) by lia. cbn [orb].
  rewrite (bind_Some_eq _ _ (destination m)) by (by apply (memread_at _ [] _ (source m ++ sig ++ img))).
  rewrite (bind_Some_eq _ _ (source m)) by (by apply (memread_at _ (destination m) _ (sig ++ img))).
  rewrite (bind_Some_eq _ _ sig) by (apply (memread_at _ (destination m ++ source m) _ img); [unfold l; by rewrite <-!app_assoc|rewrite length_app; lia|done]).
  assert (drop 96 l = img) as -> by (unfold l; rewrite !app_assoc; apply drop_app_length'; rewrite !length_app; lia).
  fold (empty_message (destination m) (source m) sig). rewrite (bind_Some_eq _ _ _ (unpack_payload_image _ m Hm)).
  set (pc := (_ - 96)%nat). assert (pc = length img) as Epc by (unfold pc; lia).
  rewrite Hmal. cbn [negb]. destruct (received_payload (empty_message (destination m) (source m) sig) m Hsl) as [Epay Hsl2].
  destruct (encode_fresh _ pc Hsl2) as (s & pw & -> & Hok & _ & Hw). rewrite Epay in *. assert (s = LXMF_OK) as -> by (apply Hok; lia). cbn [mbind option_bind].
  rewrite bool_decide_true by done. cbn [negb]. destruct (Hw eq_refl) as [Hpl ->]. cbn [mbind option_bind]. rewrite Hpl.
  cbn [received destination source signature empty_message]. rewrite (proj1 (payload_id_spec _ _ _)), Hid. cbn [mbind option_bind]. unfold LXMF_MAX_MESSAGE_SIZE in Hmax.
  rewrite (proj2 (Z.ltb_ge _ _)) by (limits; lia). rewrite Hmal. cbn [negb identified destination source signature received empty_message]. done.
Qed.

(** *** Any input *)

Lemma get_bin_total l : bytes_ok l -> Z.of_nat (length l) < 2 ^ 32 -> exists x, get_bin l = Some x /\
  forall d rest, x = Some (d, rest) -> exists h, l = h ++ d ++ rest.
Proof.
  intros Hb Hl. rewrite get_bin_eq by done. destruct (read_bytes_total l Hb) as (x & -> & Hx). exists x. split; [done|]. intros d rest E.
  destruct (Hx d rest E) as (h & -> & _). by exists h.
Qed.

Lemma get_double_total l : exists x, get_double l = Some x /\ forall t rest, x = Some (t, rest) -> rest = drop 9 l.
Proof.
  unfold get_double. destruct (Nat.ltb_spec (length l) 9) as [|Hl]; [by eexists|]. destruct l as [|c l]; [cbn in Hl; lia|].
  change (load (c :: l) 0) with (Some c). cbn [mbind option_bind]. destruct (negb _); [by eexists|].
  destruct (load32be_total (c :: l) 1) as [hi ->]; [lia|]. destruct (load32be_total (c :: l) 5) as [lo ->]; [lia|]. cbn [mbind option_bind].
  eexists. split; [done|]. by intros t rest [= _ <-].
Qed.

(** What a payload that parses has. *)
Lemma unpack_payload_total m0 r :
  bytes_ok r -> r <> [] -> Z.of_nat (length r) < 2 ^ 32 ->
  exists x, unpack_payload m0 r = Some x /\ forall m, x = Some m -> slices_ok m /\
    m.(destination) = m0.(destination) /\ m.(source) = m0.(source) /\ m.(signature) = m0.(signature).
Proof.
  intros Hb Hne Hl. destruct r as [|a r]; [done|]. apply Forall_cons_1 in Hb as [_ Hb]. cbn [length] in Hl. unfold unpack_payload.
  rewrite (bind_Some_eq _ _ a) by done. change (drop 1 (a :: r)) with (drop 0 r). rewrite drop_0. cbv zeta. destruct (negb _ && negb _); [by eexists|].
  destruct (get_double_total r) as (x & -> & Hx). cbn [mbind option_bind]. destruct x as [[t r1]|]; [|by eexists].
  pose proof (Hx t r1 eq_refl) as Er1. assert (bytes_ok r1) as Hb1 by (rewrite Er1; by apply Forall_drop).
  assert (length r1 <= length r)%nat as Hl1 by (rewrite Er1, length_drop; lia). clear Hx Er1.
  destruct (get_bin_total r1 Hb1 ltac:(lia)) as (x & -> & Hx). cbn [mbind option_bind]. destruct x as [[ti r2]|]; [|by eexists].
  destruct (Hx ti r2 eq_refl) as (h1 & ->). apply Forall_app in Hb1 as [_ [_ Hb2]%Forall_app]. rewrite !length_app in Hl1.
  destruct (get_bin_total r2 Hb2 ltac:(lia)) as (y & -> & Hy). cbn [mbind option_bind]. destruct y as [[co r3]|]; [|by eexists].
  destruct (Hy co r3 eq_refl) as (h2 & ->). apply Forall_app in Hb2 as [_ [_ Hb3]%Forall_app]. rewrite !length_app in Hl1.
  destruct (skip_obj_spec r3 Hb3 ltac:(lia)) as (z & -> & Hz). cbn [mbind option_bind]. destruct z as [rest|]; [|by eexists].
  destruct (proj1 (Hz rest) eq_refl) as (obj & -> & Hobj). pose proof Hb3 as [Hbo Hbr]%Forall_app. rewrite length_app in Hl1.
  destruct obj as [|c obj]; [by apply msgpack_nonempty in Hobj|]. rewrite (bind_Some_eq _ _ c) by done. destruct (is_map c) eqn:Hmap; cbn [negb]; [|by eexists].
  assert (take (length ((c :: obj) ++ rest) - length rest) ((c :: obj) ++ rest) = c :: obj) as -> by (rewrite length_app, Nat.add_sub; apply take_app_length).
  assert (forall hs sl st, slices_ok {| destination := destination m0; source := source m0; signature := signature m0; message_id := message_id m0;
    timestamp := t; title := SBytes ti; content := SBytes co; fields_msgpack := SBytes (c :: obj); has_stamp := hs; stamp_len := sl; stamp := st |}) as Hok.
  { intros hs sl st. constructor; cbn [title content fields_msgpack slice_length slice_bytes]; unfold UINT32_MAX; [split; [done|lia]|split; [done|lia]|].
    split_and!; [done|done|lia|]. right. split; [done|]. by exists c, obj. }
  destruct (a =? 0x95).
  - destruct (get_bin_total rest Hbr ltac:(lia)) as (u & -> & Hu). cbn [mbind option_bind]. destruct u as [[s r4]|]; [|by eexists].
    destruct (negb _ && negb _) eqn:Hs; [by eexists|]. assert (length s <= 32)%nat as Hs32.
    { unfold LXMF_STAMP_LENGTH, LXMF_POW_STAMP_LENGTH in Hs. destruct (Nat.eqb_spec (length s) 16); [lia|]. destruct (Nat.eqb_spec (length s) 32); [lia|done]. }
    unfold memcpy. rewrite decide_True by (rewrite length_replicate; lia). cbn [mbind option_bind]. eexists. split; [done|].
    intros m. destruct r4; [|done]. intros [= <-]. split; [apply Hok|done].
  - eexists. split; [done|]. intros m. destruct rest; [|done]. intros [= <-]. split; [apply Hok|done].
Qed.

(** A message found in the bytes [l]. *)
Record named (l : list Z) (m : lxmf_message) : Prop := {
  na_head : l = m.(destination) ++ m.(source) ++ m.(signature) ++ drop 96 l /\ length m.(destination) = 16%nat /\ length m.(source) = 16%nat /\
    length m.(signature) = 64%nat;
  na_id : sha256 (m.(destination) ++ m.(source) ++ payload_image m false) = Some m.(message_id)
}.

(** What is known of an accepted message. *)
Record authentic (l : list Z) (verify : list Z -> list Z -> list Z -> lxmf_status) (m : lxmf_message) : Prop := {
  au_named : named l m;
  au_signed : verify m.(source) (m.(destination) ++ m.(source) ++ payload_image m false ++ m.(message_id)) m.(signature) = LXMF_OK
}.

(** What a message that was parsed has, whatever the verifier says of it. *)
Lemma lxmf_unpack_named l verify :
  bytes_ok l -> exists st om, lxmf_unpack malloc_ok (SBytes l) (Some verify) = Some (st, om) /\
    (st = LXMF_OK \/ st = LXMF_ERR_UNKNOWN_SIGNER -> exists m, om = Some m /\ slices_ok m /\ named l m /\
      st = verdict (verify m.(source) (m.(destination) ++ m.(source) ++ payload_image m false ++ m.(message_id)) m.(signature))).
Proof.
  intros Hb. unfold lxmf_unpack. unfold LXMF_HEADER_LENGTH, LXMF_DESTINATION_LENGTH, LXMF_SOURCE_LENGTH, LXMF_SIGNATURE_LENGTH. cbn [Nat.add].
  destruct (_ || _) eqn:G; [by eexists _, _; split; [|intros [? | ?]]|]. apply orb_false_iff in G as [H97%Nat.ltb_ge Hmax%Z.ltb_ge]. unfold LXMF_MAX_MESSAGE_SIZE in Hmax.
  rewrite !memread_in by lia. cbn [mbind option_bind]. rewrite drop_0. set (dest := take 16 l). set (src := take 16 (drop 16 l)). set (sig := take 64 (drop 32 l)).
  destruct (unpack_payload_total (empty_message dest src sig) (drop 96 l)) as (x & Hx & Hm).
  { by apply Forall_drop. } { intros E. apply (f_equal length) in E. rewrite length_drop in E. cbn in E. lia. } { rewrite length_drop. lia. }
  fold (empty_message dest src sig). rewrite Hx. cbn [mbind option_bind]. destruct x as [m|]; [|by eexists _, _; split; [|intros [? | ?]]]. destruct (Hm m eq_refl) as (Hsl & E1 & E2 & E3).
  destruct (negb _); [by eexists _, _; split; [|intros [? | ?]]|]. destruct (encode_fresh m (length l - 96) Hsl) as (s & pw & -> & _ & Hs & Hw). cbn [mbind option_bind].
  destruct (bool_decide_reflect (s = LXMF_OK)) as [->|Hne]; cbn [negb]; [|eexists _, _; split; [done|]; specialize (Hs Hne) as ->; by intros [? | ?]].
  destruct (Hw eq_refl) as [Hpl ->]. cbn [mbind option_bind]. rewrite Hpl. destruct (payload_id_spec (destination m) (source m) (payload_image m false)) as [-> (id & Hid & _)].
  rewrite Hid. cbn [mbind option_bind]. destruct (_ <? _); [by eexists _, _; split; [|intros [? | ?]]|]. destruct (negb _); [by eexists _, _; split; [|intros [? | ?]]|]. eexists _, _. split; [done|].
  cbn [identified destination source signature]. intros _. exists (identified m id). split; [done|]. split; [by destruct Hsl|]. split; [|done].
  cbn [destination source signature empty_message] in *.
  assert (l = dest ++ src ++ sig ++ drop 96 l) as El.
  { rewrite <-(take_drop 16 l) at 1. fold dest. f_equal. rewrite <-(take_drop 16 (drop 16 l)) at 1. fold src. f_equal. rewrite drop_drop.
    rewrite <-(take_drop 64 (drop 32 l)) at 1. by rewrite drop_drop. }
  constructor; cbn [identified destination source signature message_id].
  - rewrite E1, E2, E3. split; [done|]. unfold dest, src, sig. rewrite !length_take, !length_drop. lia.
  - done.
Qed.

Lemma lxmf_unpack_total l verify :
  bytes_ok l -> exists st om, lxmf_unpack malloc_ok (SBytes l) (Some verify) = Some (st, om) /\
    (st = LXMF_OK -> exists m, om = Some m /\ slices_ok m /\ authentic l verify m).
Proof.
  intros Hb. destruct (lxmf_unpack_named l verify Hb) as (st & om & Hu & Hok). exists st, om. split; [done|]. intros Hst. destruct (Hok (or_introl Hst)) as (m & -> & Hsl & Hn & Hv).
  exists m. split; [done|]. split; [done|]. constructor; [done|]. rewrite Hst in Hv. by destruct (verify _ _ _) in Hv |- *.
Qed.
End UnpackSpec.

(** The two MessagePack walkers agree. The one of the message layer and the
    one of the request layer, written separately, skip the same objects of any
    input of less than 4 GiB: exactly those of the grammar, at most 33 levels
    deep, reading only inside the input. *)
Theorem lxmf_walker_agrees l :
  bytes_ok l -> Z.of_nat (length l) < 2 ^ 32 ->
  skip_obj LEVELS l = skip_object MAX_LEVELS l /\
  exists r, skip_obj LEVELS l = Some r /\ forall rest, r = Some rest <-> exists obj, l = obj ++ rest /\ msgpack MAX_LEVELS obj.
Proof. intros Hb Hl. split; [by apply skip_obj_eq|by apply skip_obj_spec]. Qed.

Section MessageSpec.
Context `{Crypto}.

(** C9: messages survive packing. A well-formed message, packed with an identity
    into a buffer of [lxmf_pack_bound] bytes or more, fills at most the bound;
    unpacked by a receiver that knows the sender it verifies and has the same
    destination, source, time, title, content, fields and stamp. Its identifier is
    the hash of the message without the stamp. *)
Theorem lxmf_roundtrip m who peer resolve o cap :
  message_ok m -> lxmf_pack_bound m <= Z.of_nat cap -> (cap <= length o)%nat ->
  who.(Identity.has_private) = true -> rns_ed25519_public_from_private who.(Identity.signing_private) = Some who.(Identity.signing_public) ->
  (forall d, is_Some (rns_ed25519_sign who.(Identity.signing_private) d)) ->
  resolve m.(source) = Some peer -> peer.(Identity.signing_public) = who.(Identity.signing_public) ->
  exists o' n id sig, lxmf_pack (λ _, true) m (lxmf_identity_signer (Some who)) (Some o) cap = Some (LXMF_OK, Some o', n) /\
    Z.of_nat n <= lxmf_pack_bound m /\ sha256 (m.(destination) ++ m.(source) ++ payload_image m false) = Some id /\
    lxmf_unpack (λ _, true) (SBytes (take n o')) (Some (lxmf_identity_verifier (Some resolve))) =
      Some (LXMF_OK, Some (identified (received (empty_message m.(destination) m.(source) sig) m) id)).
Proof.
  intros Hm Hcap Hlo Hpriv Hpub Hsign Hres Hpeer. destruct (payload_id_spec (destination m) (source m) (payload_image m false)) as [_ (id & Hid & _)].
  destruct (Hsign (destination m ++ source m ++ payload_image m false ++ id)) as [sig Hsig]. pose proof (sign_length _ _ _ Hsig) as Hl64.
  destruct (lxmf_pack_spec (λ _, true) (λ _, eq_refl) m (lxmf_identity_signer (Some who)) o cap id sig Hm Hcap Hlo Hid) as (o' & Hp & Ht); [|done|].
  { unfold lxmf_identity_signer, Identity.rns_identity_sign. by rewrite Hpriv, Hsig. }
  pose proof Hm as [_ _ _ Hsl _ Hst Hb]. assert (has_stamp m = true -> stamp_ok m) as Hst' by (intros E; by destruct (Hst E)).
  exists o', (96 + length (payload_image m (has_stamp m)))%nat, id, sig. split; [done|]. split; [by apply (pack_bound_spec m (has_stamp m))|]. split; [done|].
  rewrite Ht, (lxmf_unpack_image (λ _, true) m sig id _ (λ _, eq_refl) Hm Hl64 (sign_bytes _ _ _ Hsig) Hid). do 3 f_equal.
  unfold lxmf_identity_verifier, Identity.rns_identity_verify. by rewrite Hres, Hpeer, (sign_verify _ _ _ _ (ed_public_pair _ _ Hpub) Hsig).
Qed.

(** C10: accepted messages are signed. On any bytes [lxmf_unpack] stays inside its
    buffers and returns; a message it accepts with the verifier of identities
    starts with the destination, source and signature it reports, its identifier
    is the hash of destination, source and payload, and the identity known for the
    source verifies the signature over all of them. *)
Theorem lxmf_unpack_authentic malloc_ok l resolve :
  bytes_ok l -> exists st om, lxmf_unpack malloc_ok (SBytes l) (Some (lxmf_identity_verifier (Some resolve))) = Some (st, om) /\
    (st = LXMF_OK -> exists m who, om = Some m /\ slices_ok m /\ authentic l (lxmf_identity_verifier (Some resolve)) m /\
      resolve m.(source) = Some who /\
      Identity.rns_identity_verify who (m.(destination) ++ m.(source) ++ payload_image m false ++ m.(message_id)) m.(signature) = true).
Proof.
  intros Hb. destruct (lxmf_unpack_total malloc_ok l (lxmf_identity_verifier (Some resolve)) Hb) as (st & om & Hu & Hok). exists st, om. split; [done|].
  intros Hst. destruct (Hok Hst) as (m & -> & Hsl & Ha). pose proof (au_signed _ _ _ Ha) as Hs. unfold lxmf_identity_verifier in Hs.
  destruct (resolve (source m)) as [who|] eqn:Hr; [|done]. destruct (Identity.rns_identity_verify _ _ _) eqn:Hv; [|done]. by exists m, who.
Qed.
End MessageSpec.

(** *** Titles as short strings *)

Lemma get_bin_fixstr d rest : bytes_ok d -> bytes_ok rest -> (length d < 32)%nat -> Z.of_nat (S (length (d ++ rest))) < 2 ^ 32 ->
  get_bin ((0xa0 + Z.of_nat (length d)) :: d ++ rest) = Some (Some (d, rest)).
Proof.
  intros Hd Hr Hl Ht. destruct (fix_codes (Z.of_nat (length d))) as (H1 & _). destruct (H1 ltac:(lia)) as (_ & He & Hn).
  rewrite get_bin_eq; [|constructor; [unfold in_width; lia|by apply Forall_app]|done].
  unfold read_bytes. rewrite (bind_Some_eq _ _ (0xa0 + Z.of_nat (length d))) by done. cbv zeta.
  rewrite (bind_Some_eq _ _ (Some (Z.of_nat (length d), d ++ rest))) by (by rewrite He, Hn).
  rewrite (proj2 (Z.ltb_ge _ _)) by (rewrite length_app; lia). rewrite Nat2Z.id, (bind_Some_eq _ _ d) by (by apply (memread_at _ [] d rest)).
  by rewrite drop_app_length.
Qed.

(** A title in the short string form is refused. [get_bin] takes MessagePack
    strings, but [lxmf_unpack] writes the payload again, with a header one byte
    longer than that of a string of less than 32 bytes, into memory of the size
    it arrived in: a message without stamp that is otherwise as [lxmf_pack] writes
    it ends with [LXMF_ERR_BOUNDS], before its signature is looked at. *)
Theorem lxmf_unpack_fixstr_title m sig verify :
  message_ok m -> m.(has_stamp) = false -> length sig = 64%nat -> bytes_ok sig -> (length (slice_bytes m.(title)) < 32)%nat ->
  lxmf_unpack (λ _, true)
    (SBytes (m.(destination) ++ m.(source) ++ sig ++ [0x94] ++ (0xcb :: store64be m.(timestamp)) ++
             ((0xa0 + Z.of_nat (length (slice_bytes m.(title)))) :: slice_bytes m.(title)) ++
             bin_image (slice_bytes m.(content)) ++ fields_image m)) verify = Some (LXMF_ERR_BOUNDS, None).
Proof.
  intros [[D1 D2] [S1 S2] Ht Hsl [Tb Cb] Hst Hb] Hns Hsig Sb Hlt. assert (has_stamp m = true -> stamp_ok m) as Hst' by congruence.
  pose proof (pack_bound_spec m false Hsl Hst' Hb ltac:(done)) as [Hb1 Hmax]. pose proof (length_payload_image m false) as Hpl. cbn [length] in Hpl.
  destruct (fields_image_spec m Hsl) as (Fb & Fm & c & fl & Ef & Hmap). pose proof Hsl as [[T1 T2] [C1 C2] _].
  rewrite (slice_bad_length _ T1) in T2. rewrite (slice_bad_length _ C1) in C2. pose proof (bin_image_bytes _ Cb C2) as Cib.
  assert (length (bin_image (slice_bytes (title m))) = 2 + length (slice_bytes (title m)))%nat as Htl.
  { unfold bin_image, bin_header. rewrite (proj2 (Z.leb_le _ _)) by lia. rewrite length_app. done. }
  set (tb := slice_bytes (title m)) in *. set (ci := bin_image (slice_bytes (content m))) in *. unfold LXMF_MAX_MESSAGE_SIZE in Hmax.
  set (body := (0xa0 + Z.of_nat (length tb)) :: tb ++ ci ++ fields_image m).
  assert (length body = 1 + length tb + length ci + length (fields_image m))%nat as Hbl by (unfold body; cbn [length]; rewrite !length_app; lia).
  set (l := _ ++ _ ++ _ ++ _). assert (l = destination m ++ source m ++ sig ++ 0x94 :: 0xcb :: store64be (timestamp m) ++ body) as El
    by (unfold l, body; cbn [app]; by rewrite <-?app_assoc). clearbody l. subst l.
  unfold lxmf_unpack. rewrite !length_app, D1, S1, Hsig. cbn [length]. rewrite length_app, length_store64be.
  unfold LXMF_HEADER_LENGTH, LXMF_DESTINATION_LENGTH, LXMF_SOURCE_LENGTH, LXMF_SIGNATURE_LENGTH, LXMF_MAX_MESSAGE_SIZE.
  rewrite (proj2 (Nat.ltb_ge _ _)) by lia. rewrite (proj2 (Z.ltb_ge _ _)) by lia. cbn [orb]. set (r := 0x94 :: 0xcb :: store64be (timestamp m) ++ body).
  rewrite (bind_Some_eq _ _ (destination m)) by (by apply (memread_at _ [] _ (source m ++ sig ++ r))).
  rewrite (bind_Some_eq _ _ (source m)) by (by apply (memread_at _ (destination m) _ (sig ++ r))).
  rewrite (bind_Some_eq _ _ sig) by (apply (memread_at _ (destination m ++ source m) _ r); [by rewrite <-!app_assoc|rewrite length_app; lia|done]).
  assert (drop (16 + 16 + 64) (destination m ++ source m ++ sig ++ r) = r) as -> by (rewrite !app_assoc; apply drop_app_length'; rewrite !length_app; lia).
  set (m1 := received (empty_message (destination m) (source m) sig) m). fold (empty_message (destination m) (source m) sig).
  assert (unpack_payload (empty_message (destination m) (source m) sig) r = Some (Some m1)) as Hun.
  { unfold unpack_payload, r. rewrite (bind_Some_eq _ _ 0x94) by done. cbv zeta. cbn [Z.eqb Pos.eqb negb andb].
    change (drop 1 (0x94 :: 0xcb :: store64be (timestamp m) ++ body)) with (0xcb :: store64be (timestamp m) ++ body).
    assert (bytes_ok (ci ++ fields_image m)) as B1 by (by apply Forall_app).
    assert (bytes_ok body) as B2 by (unfold body; constructor; [unfold in_width; lia|by apply Forall_app]).
    rewrite (bind_Some_eq _ _ _ (get_double_put (timestamp m) body Ht B2)). unfold body.
    rewrite (bind_Some_eq _ _ _ (get_bin_fixstr tb (ci ++ fields_image m) Tb B1 Hlt ltac:(rewrite !length_app; lia))).
    rewrite (bind_Some_eq _ _ _ (get_bin_put (slice_bytes (content m)) (fields_image m) Cb Fb ltac:(rewrite length_app; fold ci; lia))).
    pose proof (skip_obj_app (fields_image m) []) as Hsk. rewrite app_nil_r in Hsk. rewrite (bind_Some_eq _ _ _ (Hsk Fb ltac:(lia) Fm)).
    rewrite (bind_Some_eq _ _ c) by (by rewrite Ef). rewrite Hmap. cbn [negb length]. rewrite Nat.sub_0_r, firstn_all. unfold m1, received. by rewrite Hns. }
  rewrite Hun. cbn [mbind option_bind negb]. destruct (received_payload (empty_message (destination m) (source m) sig) m Hsl) as [Epay Hsl2]. fold m1 in Epay, Hsl2.
  match goal with |- context [fresh_writer ?k] => destruct (encode_fresh m1 k Hsl2) as (s & pw & -> & Hok & Hbd & _) end. cbn [mbind option_bind].
  rewrite Epay, Hpl in Hok. assert (s <> LXMF_OK) as Hne by (intros E; apply Hok in E; lia). rewrite bool_decide_false by done. cbn [negb]. by rewrite (Hbd Hne).
Qed.

(** ** The ticket field *)

(** A routine that returns on any input, and consumes a front part of it. *)
Definition reads {A} (f : list Z -> option (option (A * list Z))) (P : A -> Prop) : Prop :=
  forall l, bytes_ok l -> Z.of_nat (length l) < 2 ^ 32 -> exists x, f l = Some x /\ forall a rest, x = Some (a, rest) -> P a /\ exists p, l = p ++ rest.

Lemma reads_suffix (p rest : list Z) : bytes_ok (p ++ rest) -> Z.of_nat (length (p ++ rest)) < 2 ^ 32 -> bytes_ok rest /\ Z.of_nat (length rest) < 2 ^ 32.
Proof. intros [_ Hb]%Forall_app Hl. rewrite length_app in Hl. split; [done|lia]. Qed.

Lemma size_field_reads w : In w [1; 2; 4]%nat -> reads (size_field w) (λ _, True).
Proof.
  intros Hw l Hb _. rewrite size_field_spec by done. eexists. split; [done|]. intros a rest. destruct (_ <? _)%nat; [done|]. intros [= _ <-].
  split; [done|]. exists (take w l). by rewrite take_drop.
Qed.

Lemma get_container_count_reads mask tag c16 c32 : reads (get_container_count mask tag c16 c32) (λ _, True).
Proof.
  intros l Hb Hl. destruct l as [|c l]; [by eexists|]. apply (reads_suffix [c] l) in Hb as [Hb Hl']; [|done]. cbn [get_container_count].
  assert (forall (f : list Z -> option (option (Z * list Z))) x, f l = Some x /\ (forall a rest, x = Some (a, rest) -> True /\ exists p, l = p ++ rest) ->
    exists x, f l = Some x /\ forall a rest, x = Some (a, rest) -> True /\ exists p, c :: l = p ++ rest) as Hc.
  { intros f x [Hx Hs]. exists x. split; [done|]. intros a rest E. destruct (Hs a rest E) as [_ [p ->]]. split; [done|]. by exists (c :: p). }
  destruct (_ =? tag). { eexists. split; [done|]. intros a rest [= _ <-]. split; [done|]. by exists [c]. }
  destruct (c =? c16). { destruct (size_field_reads 2 ltac:(cbn; tauto) l Hb Hl') as (x & ?). by eapply Hc. }
  destruct (c =? c32). { destruct (size_field_reads 4 ltac:(cbn; tauto) l Hb Hl') as (x & ?). by eapply Hc. }
  by eexists.
Qed.

Lemma get_unsigned_reads : reads get_unsigned (in_width 64).
Proof.
  intros l Hb Hl. destruct l as [|c l]; [by eexists|]. apply Forall_cons_1 in Hb as [Hc Hb]. cbn [get_unsigned].
  destruct (Z.leb_spec c 0x7f). { eexists. split; [done|]. intros a rest [= <- <-]. unfold in_width in *. split; [lia|]. by exists [c]. }
  set (w := if c =? 0xcc then _ else _). assert (forall n, w = Some n -> (n <= 8)%nat) as Hw by (unfold w; intros n; repeat case_match; intros [= <-]; lia).
  destruct w as [n|]; [|by eexists]. specialize (Hw n eq_refl). destruct (Nat.ltb_spec (length l) n); [by eexists|]. rewrite memread_in by lia.
  cbn [mbind option_bind]. eexists. split; [done|]. intros a rest [= <- <-]. split; [|exists (c :: take n l); cbn [app]; by rewrite take_drop].
  rewrite drop_0, shift_bytes_be by (try (by apply Forall_take); rewrite length_take; lia).
  pose proof (be_decode_bounds (take n l) ltac:(by apply Forall_take)) as Hd. rewrite length_take, Nat.min_l in Hd by lia. unfold in_width.
  assert (256 ^ Z.of_nat n <= 256 ^ 8) by (apply Z.pow_le_mono_r; lia). change (256 ^ 8) with (2 ^ 64) in *. lia.
Qed.

Lemma get_bin_reads : reads get_bin (λ _, True).
Proof.
  intros l Hb Hl. destruct (get_bin_total l Hb Hl) as (x & Hx & Hs). exists x. split; [done|]. intros a rest E. destruct (Hs a rest E) as [h ->].
  split; [done|]. exists (h ++ a). by rewrite app_assoc.
Qed.

(** *** Times as floats *)

Definition small_mantissa (x : double) : Prop := match x with S754_finite _ m _ => Z.pos m < 2 ^ 53 | _ => True end.

Lemma d_to_u64_below x : small_mantissa x -> (dzero <=.? x) = true -> (two64 <=.? x) = false -> exists n, d_to_u64 x = Some n /\ in_width 64 n.
Proof.
  intros Hm H0 H64. assert (isnan x = false) as Hn by (by destruct x). assert ((x <.? two64) = true) as Hlt.
  { destruct (x <.? two64) eqn:E; [done|]. assert ((two64 <=.? x) = true); [|congruence]. apply dlt_false; done. }
  apply SFltb_key in Hlt as (_ & _ & Hk). change (dkey two64) with (1, (12, 4503599627370496)) in Hk. destruct x as [s|[]| |[] m e]; try done; cbn in *.
  - exists 0. split; [done|]. unfold in_width. lia.
  - set (v := if 0 <=? e then _ else _). assert (0 <= v < 2 ^ 64) as Hv; [|exists v; rewrite (proj2 (Z.ltb_lt _ _)) by lia; done].
    unfold klt in Hk. cbn in Hk. unfold v. destruct (Z.leb_spec 0 e).
    + rewrite Z.shiftl_mul_pow2 by lia. split; [lia|]. assert (e < 12 \/ e = 12) as [He| ->] by lia; [|lia].
      assert (2 ^ e <= 2 ^ 11) by (apply Z.pow_le_mono_r; lia). nia.
    + rewrite Z.shiftr_div_pow2 by lia. split; [apply Z.div_pos; lia|]. apply Z.div_lt_upper_bound; [lia|].
      assert (1 <= 2 ^ (- e)) by (apply (Z.pow_le_mono_r 2 0); lia). nia.
Qed.

Lemma bits_double_mantissa b : small_mantissa (Link.bits_double b).
Proof.
  unfold Link.bits_double. assert (0 <= Z.land b (2 ^ 52 - 1) < 2 ^ 52) as Hf.
  { change (2 ^ 52 - 1) with (Z.ones 52). rewrite Z.land_ones by lia. apply Z.mod_pos_bound. lia. }
  destruct (_ =? 0); [|destruct (_ =? 2047)].
  - destruct (Z.land b (2 ^ 52 - 1)) eqn:E; try done. unfold small_mantissa. lia.
  - by destruct (_ =? 0).
  - destruct (Z.land b (2 ^ 52 - 1) + 2 ^ 52) eqn:E; try done. unfold small_mantissa. lia.
Qed.

Lemma exact_double_mantissa s m e : small_mantissa (exact_double s m e).
Proof.
  unfold exact_double. destruct (Z.shiftl m (52 - Z.log2 m)) as [|p|p] eqn:E; try done. unfold small_mantissa. rewrite <-E.
  destruct (Z.le_gt_cases m 0) as [Hm|Hm].
  { destruct m; try lia; [by rewrite Z.shiftl_0_l in E|]. destruct (Z.le_gt_cases 0 (52 - Z.log2 (Z.neg p0))).
    - rewrite Z.shiftl_mul_pow2 in * by lia. assert (0 < 2 ^ (52 - Z.log2 (Z.neg p0))) by (apply Z.pow_pos_nonneg; lia). nia.
    - cbn in *. lia. }
  destruct (Z.log2_spec m Hm) as [_ Hu]. destruct (Z.le_gt_cases 0 (52 - Z.log2 m)) as [Hk|Hk].
  - rewrite Z.shiftl_mul_pow2 by lia. pose proof (Z.log2_nonneg m). replace (2 ^ 53) with (2 ^ Z.succ (Z.log2 m) * 2 ^ (52 - Z.log2 m)) by (rewrite <-Z.pow_add_r by lia; f_equal; lia).
    apply Z.mul_lt_mono_pos_r; [apply Z.pow_pos_nonneg; lia|done].
  - replace (52 - Z.log2 m) with (- (Z.log2 m - 52)) by lia. rewrite Z.shiftl_opp_r, Z.shiftr_div_pow2 by lia. apply Z.div_lt_upper_bound; [apply Z.pow_pos_nonneg; lia|].
    rewrite <-Z.pow_add_r by lia. by replace (Z.log2 m - 52 + 53) with (Z.succ (Z.log2 m)) by lia.
Qed.

Lemma bits_float_mantissa b : small_mantissa (bits_float b).
Proof. unfold bits_float. repeat case_match; try done; apply exact_double_mantissa. Qed.

Lemma get_expiry_reads : reads get_expiry (in_width 64).
Proof.
  intros l Hb Hl. destruct l as [|c l]; [by eexists|]. cbn [get_expiry]. destruct (negb _ && negb _); [by apply get_unsigned_reads|].
  match goal with |- context [mbind _ ?y] => assert (exists x, y = Some x /\
    forall v rest, x = Some (v, rest) -> small_mantissa v /\ exists p, c :: l = p ++ rest) as (x & -> & Hx) end.
  { destruct (c =? 0xca).
    - destruct (Nat.ltb_spec (length l) 4); [by eexists|]. destruct (load32be_total l 0) as [b ->]; [lia|]. cbn [mbind option_bind]. eexists. split; [done|].
      intros v rest [= <- <-]. split; [apply bits_float_mantissa|]. exists (c :: take 4 l). cbn [app]. by rewrite take_drop.
    - destruct (Nat.ltb_spec (length l) 8); [by eexists|]. destruct (load32be_total l 0) as [hi ->]; [lia|]. destruct (load32be_total l 4) as [lo ->]; [lia|].
      cbn [mbind option_bind]. eexists. split; [done|]. intros v rest [= <- <-]. split; [apply bits_double_mantissa|]. exists (c :: take 8 l). cbn [app]. by rewrite take_drop. }
  cbn [mbind option_bind]. destruct x as [[v r]|]; [|by eexists]. destruct (Hx v r eq_refl) as [Hm Hp]. destruct (_ || _) eqn:G; [by eexists|].
  apply orb_false_iff in G as [H0%negb_false_iff H64]. destruct (d_to_u64_below v Hm H0 H64) as (n & -> & Hn). cbn [mbind option_bind]. eexists. split; [done|].
  by intros a rest [= <- <-].
Qed.

Definition ticket_ok (t : lxmf_ticket_field) : Prop := in_width 64 t.(expires_at) /\ length t.(ticket) = 16%nat.

Lemma ticket_value_reads : reads ticket_value (λ t, t.(present) = true /\ ticket_ok t).
Proof.
  intros l Hb Hl. unfold ticket_value. destruct (get_container_count_reads 0xf0 0x90 0xdc 0xdd l Hb Hl) as (x & -> & Hx). cbn [mbind option_bind].
  destruct x as [[v r]|]; [|by eexists]. destruct (Hx v r eq_refl) as [_ [p ->]]. destruct (reads_suffix _ _ Hb Hl) as [Hb1 Hl1]. destruct (negb _); [by eexists|].
  destruct (get_expiry_reads r Hb1 Hl1) as (y & -> & Hy). cbn [mbind option_bind]. destruct y as [[e r1]|]; [|by eexists]. destruct (Hy e r1 eq_refl) as [He [p1 ->]].
  destruct (reads_suffix _ _ Hb1 Hl1) as [Hb2 Hl2]. destruct (get_bin_reads r1 Hb2 Hl2) as (z & -> & Hz). cbn [mbind option_bind]. destruct z as [[d r2]|]; [|by eexists].
  destruct (Hz d r2 eq_refl) as [_ [p2 ->]]. destruct (Nat.eqb_spec (length d) LXMF_TICKET_LENGTH) as [Hd|]; cbn [negb]; [|by eexists]. eexists. split; [done|].
  intros a rest [= <- <-]. split; [split; [done|by split]|]. exists (p ++ p1 ++ p2). by rewrite <-!app_assoc.
Qed.

Lemma ticket_entries_total fuel n t r :
  bytes_ok r -> Z.of_nat (length r) < 2 ^ 32 -> ticket_ok t ->
  exists x, ticket_entries fuel n t r = Some x /\ forall t' rest, x = Some (t', rest) -> ticket_ok t'.
Proof.
  revert n t r. induction fuel as [|fuel IH]; intros n t r Hb Hl Ht; cbn [ticket_entries]; (destruct (n <=? 0); [eexists; split; [done|]; by intros t' rest [= <- _]|]); [by eexists|].
  destruct (get_unsigned_reads r Hb Hl) as (key & -> & _). cbn [mbind option_bind]. destruct (skip_obj_spec r Hb Hl) as (x & -> & Hx). cbn [mbind option_bind].
  destruct x as [r1|]; [|by eexists]. destruct (proj1 (Hx r1) eq_refl) as (p & -> & _). destruct (reads_suffix _ _ Hb Hl) as [Hb1 Hl1].
  destruct (match key with Some _ => _ | None => _ end).
  - destruct (present t); [by eexists|]. destruct (ticket_value_reads r1 Hb1 Hl1) as (y & -> & Hy). cbn [mbind option_bind]. destruct y as [[t1 r2]|]; [|by eexists].
    destruct (Hy t1 r2 eq_refl) as [[_ Ht1] [p1 ->]]. destruct (reads_suffix _ _ Hb1 Hl1). by apply IH.
  - destruct (skip_obj_spec r1 Hb1 Hl1) as (y & -> & Hy). cbn [mbind option_bind]. destruct y as [r2|]; [|by eexists].
    destruct (proj1 (Hy r2) eq_refl) as (p1 & -> & _). destruct (reads_suffix _ _ Hb1 Hl1). by apply IH.
Qed.

(** An entry of a fields map, under another key than the ticket's. *)
Definition other_entry (e : list Z) : Prop :=
  exists k v, e = k ++ v /\ bytes_ok e /\ msgpack MAX_LEVELS k /\ msgpack MAX_LEVELS v /\
    forall rest x, get_unsigned (k ++ rest) = Some (Some x) -> x.1 <> LXMF_FIELD_TICKET.

(** The entry of a ticket. *)
Definition ticket_entry (expiry : Z) (t : list Z) : list Z := [LXMF_FIELD_TICKET] ++ [0x92; 0xcf] ++ be_encode 8 expiry ++ bin_image t.

Lemma skip_others es fuel n t r :
  Forall other_entry es -> bytes_ok (concat es ++ r) -> Z.of_nat (length (concat es ++ r)) < 2 ^ 32 -> 0 <= n ->
  ticket_entries (length es + fuel) (Z.of_nat (length es) + n) t (concat es ++ r) = ticket_entries fuel n t r.
Proof.
  intros Hes. induction Hes as [|e es He Hes IH]; intros Hb Hl Hn; [done|]. destruct He as (k & v & -> & _ & Hk & Hv & Hkey). cbn [concat length] in *.
  rewrite <-!app_assoc in *. cbn [Nat.add ticket_entries]. rewrite (proj2 (Z.leb_gt _ _)) by lia.
  destruct (get_unsigned_reads _ Hb Hl) as (key & Hg & _). rewrite Hg. cbn [mbind option_bind]. rewrite skip_obj_app by done. cbn [mbind option_bind].
  destruct (reads_suffix _ _ Hb Hl) as [Hb1 Hl1].
  assert ((match key with Some (k0, _) => k0 =? LXMF_FIELD_TICKET | None => false end) = false) as ->.
  { destruct key as [[x y]|]; [|done]. apply Z.eqb_neq. apply (Hkey _ _ Hg). }
  rewrite skip_obj_app by done. cbn [mbind option_bind]. destruct (reads_suffix _ _ Hb1 Hl1) as [Hb2 Hl2]. rewrite <-IH by done. f_equal. lia.
Qed.

Lemma ticket_entry_taken expiry t fuel n r :
  in_width 64 expiry -> length t = 16%nat -> bytes_ok t -> bytes_ok r -> Z.of_nat (length (ticket_entry expiry t ++ r)) < 2 ^ 32 -> 0 < n ->
  ticket_entries (S fuel) n zero_ticket (ticket_entry expiry t ++ r) =
    ticket_entries fuel (n - 1) {| present := true; expires_at := expiry; ticket := t |} r /\
  forall u, u.(present) = true -> ticket_entries (S fuel) n u (ticket_entry expiry t ++ r) = Some None.
Proof.
  intros He Ht Hbt Hbr Hl Hn. set (v := [0x92; 0xcf] ++ be_encode 8 expiry ++ bin_image t ++ r).
  assert (ticket_entry expiry t ++ r = [LXMF_FIELD_TICKET] ++ v) as E by (unfold ticket_entry, v; by rewrite <-!app_assoc). rewrite E in *.
  assert (bytes_ok (bin_image t ++ r)) as B1 by (apply Forall_app; split; [apply bin_image_bytes; [done|unfold UINT32_MAX; lia]|done]).
  assert (bytes_ok v) as B2 by (unfold v; repeat (constructor; [unfold in_width; lia|]); apply Forall_app; split; [apply be_encode_bytes|done]).
  assert (bytes_ok ([LXMF_FIELD_TICKET] ++ v)) as B3 by (constructor; [unfold in_width, LXMF_FIELD_TICKET; lia|done]).
  assert (msgpack MAX_LEVELS [LXMF_FIELD_TICKET]) as Hk.
  { exists [LXMF_FIELD_TICKET], 0, 0, [], []. split_and!; try done. apply HPositive. unfold LXMF_FIELD_TICKET. lia. }
  assert (ticket_value v = Some (Some ({| present := true; expires_at := expiry; ticket := t |}, r))) as Hv.
  { unfold ticket_value, v. cbn [app get_container_count]. change (Z.land 0x92 0xf0 =? 0x90) with true. cbn [mbind option_bind].
    change (Z.land 0x92 (Z.lxor 0xf0 0xff) =? 2) with true. cbn [negb]. rewrite (bind_Some_eq _ _ (Some (expiry, bin_image t ++ r))).
    - rewrite (bind_Some_eq _ _ _ (get_bin_put t r Hbt Hbr ltac:(cbn [app length] in Hl; unfold v in Hl; cbn [app length] in Hl; rewrite !length_app in *; lia))). by rewrite Ht.
    - cbn [get_expiry]. cbn [Z.eqb Pos.eqb negb andb]. cbn [get_unsigned]. rewrite (proj2 (Z.leb_gt _ _)) by lia. cbn [Z.eqb Pos.eqb].
      rewrite length_app, length_be_encode, (proj2 (Nat.ltb_ge _ _)) by lia.
      rewrite (bind_Some_eq _ _ (be_encode 8 expiry)) by (apply (memread_at _ [] _ (bin_image t ++ r)); [done|done|by rewrite length_be_encode]).
      rewrite shift_bytes_be by (apply be_encode_bytes || by rewrite length_be_encode). rewrite be_decode_encode by done.
      by rewrite drop_app_length' by (by rewrite length_be_encode). }
  assert (forall u, ticket_entries (S fuel) n u ([LXMF_FIELD_TICKET] ++ v) =
    if u.(present) then Some None else x ← ticket_value v; match x with None => Some None | Some (t, r) => ticket_entries fuel (n - 1) t r end) as Hstep.
  { intros u. cbn [ticket_entries]. rewrite (proj2 (Z.leb_gt _ _)) by lia. rewrite (bind_Some_eq _ _ (Some (LXMF_FIELD_TICKET, v))) by done.
    rewrite (bind_Some_eq _ _ _ (skip_obj_app _ v B3 Hl Hk)). by rewrite Z.eqb_refl. }
  split; [|intros u Hu]; rewrite Hstep; [|by rewrite Hu]. cbn [present zero_ticket]. by rewrite Hv.
Qed.

Lemma entries_length es : Forall other_entry es -> (length es <= length (concat es))%nat.
Proof.
  induction 1 as [|e es (k & v & -> & _ & Hk & _) Hes IH]; [done|]. cbn [length concat]. rewrite !length_app. pose proof (msgpack_nonempty _ _ Hk). destruct k; [done|]. cbn [length]. lia.
Qed.

Lemma parse_small_map n body :
  (n < 16)%nat -> lxmf_fields_parse_ticket (SBytes ((0x80 + Z.of_nat n) :: body)) =
  (x ← ticket_entries (S (length body)) (Z.of_nat n) zero_ticket body;
   Some (match x with Some (t, []) => (LXMF_OK, Some t) | _ => (LXMF_ERR_FORMAT, None) end)).
Proof. intros Hn. do 16 (destruct n as [|n]; [done|]). lia. Qed.

Lemma entries_done fuel t : ticket_entries fuel 0 t [] = Some (Some (t, [])).
Proof. by destruct fuel. Qed.

(** The entries of [es] are passed, with fuel for each of them. *)
Lemma skip_others_fuel es fuel n m t r :
  Forall other_entry es -> bytes_ok (concat es ++ r) -> Z.of_nat (length (concat es ++ r)) < 2 ^ 32 -> (length es <= fuel)%nat -> m = Z.of_nat (length es) + n -> 0 <= n ->
  ticket_entries fuel m t (concat es ++ r) = ticket_entries (fuel - length es) n t r.
Proof. intros Hes Hb Hl Hf -> Hn. rewrite <-(skip_others es (fuel - length es) n t r) by done. f_equal. lia. Qed.

Lemma others_to_the_end es fuel t :
  Forall other_entry es -> bytes_ok (concat es) -> Z.of_nat (length (concat es)) < 2 ^ 32 -> (length es <= fuel)%nat ->
  ticket_entries fuel (Z.of_nat (length es)) t (concat es) = Some (Some (t, [])).
Proof.
  intros Hes Hb Hl Hf. pose proof (skip_others_fuel es fuel 0 (Z.of_nat (length es)) t [] Hes) as Hs. rewrite app_nil_r, entries_done in Hs. apply Hs; [done..|lia|lia].
Qed.

Lemma others_to_ticket es expiry t fuel n m u r :
  Forall other_entry es -> in_width 64 expiry -> length t = 16%nat -> bytes_ok t ->
  bytes_ok (concat es ++ ticket_entry expiry t ++ r) -> Z.of_nat (length (concat es ++ ticket_entry expiry t ++ r)) < 2 ^ 32 ->
  (length es < fuel)%nat -> m = Z.of_nat (length es) + 1 + n -> 0 <= n -> u = zero_ticket \/ u.(present) = true ->
  ticket_entries fuel m u (concat es ++ ticket_entry expiry t ++ r) =
    if u.(present) then Some None else ticket_entries (fuel - length es - 1) n {| present := true; expires_at := expiry; ticket := t |} r.
Proof.
  intros Hes He Ht Hbt Hb Hl Hf Hm Hn Hu. destruct (reads_suffix _ _ Hb Hl) as [Hb1 Hl1]. destruct (reads_suffix _ _ Hb1 Hl1) as [Hb2 _].
  destruct (ticket_entry_taken expiry t (fuel - length es - 1) (n + 1) r He Ht Hbt Hb2 Hl1 ltac:(lia)) as [T1 T2].
  replace (S (fuel - length es - 1)) with (fuel - length es)%nat in * by lia. replace (n + 1 - 1) with n in * by lia.
  rewrite (skip_others_fuel es fuel (n + 1)) by (done || lia). destruct Hu as [->|Hu]; [done|]. rewrite Hu. by apply T2.
Qed.

Lemma fields_parse_total l :
  bytes_ok l -> Z.of_nat (length l) < 2 ^ 32 -> exists st t, lxmf_fields_parse_ticket (SBytes l) = Some (st, t) /\ (st = LXMF_OK <-> is_Some t) /\ forall x, t = Some x -> ticket_ok x.
Proof.
  intros Hb Hl. assert (ticket_ok zero_ticket) as H0 by (split; [unfold in_width; cbn; lia|done]). destruct l as [|c l]; [by eexists _, _; split_and!; [done|by split; [|intros []]|done]|].
  destruct (get_container_count_reads 0xf0 0x80 0xde 0xdf (c :: l) Hb Hl) as (x & Hx & Hs). unfold lxmf_fields_parse_ticket. rewrite (bind_Some_eq _ _ _ Hx).
  destruct x as [[n r]|]; [|by eexists _, _]. destruct (Hs n r eq_refl) as [_ [p E]]. rewrite E in Hb, Hl. destruct (reads_suffix _ _ Hb Hl) as [Hb1 Hl1].
  destruct (ticket_entries_total (S (length r)) n zero_ticket r Hb1 Hl1 H0) as (y & Hy & Ht). rewrite (bind_Some_eq _ _ _ Hy).
  destruct y as [[t [|? ?]]|]; eexists _, _; (split; [done|]); [|by split; [split; [|intros []]|]..]. split; [by split|]. intros x [= <-]. by eapply Ht.
Qed.

(** The ticket of a message is found. On any bytes of less than 4 GiB the parser
    reads only inside the map and returns, and what it reports has an expiry of 64
    bits and a ticket of 16 bytes. In a fields map with at most 15 entries, wherever
    the ticket entry is among others it is found with its expiry and ticket; without
    one the result is absent; two are a format error. *)
Theorem lxmf_ticket_found l pre mid post e1 t1 e2 t2 :
  bytes_ok l -> Z.of_nat (length l) < 2 ^ 32 ->
  (exists st t, lxmf_fields_parse_ticket (SBytes l) = Some (st, t) /\ (st = LXMF_OK <-> is_Some t) /\ forall x, t = Some x -> ticket_ok x) /\
  (Forall other_entry (pre ++ mid ++ post) -> in_width 64 e1 -> length t1 = 16%nat -> bytes_ok t1 -> in_width 64 e2 -> length t2 = 16%nat -> bytes_ok t2 ->
   (length (pre ++ mid ++ post) + 2 < 16)%nat ->
   let map n body := SBytes ((0x80 + Z.of_nat n) :: body) in
   (l = concat (pre ++ mid ++ post) ->
    lxmf_fields_parse_ticket (map (length (pre ++ mid ++ post)) l) = Some (LXMF_OK, Some zero_ticket)) /\
   (l = concat pre ++ ticket_entry e1 t1 ++ concat (mid ++ post) ->
    lxmf_fields_parse_ticket (map (S (length (pre ++ mid ++ post))) l) = Some (LXMF_OK, Some {| present := true; expires_at := e1; ticket := t1 |})) /\
   (l = concat pre ++ ticket_entry e1 t1 ++ concat mid ++ ticket_entry e2 t2 ++ concat post ->
    lxmf_fields_parse_ticket (map (S (S (length (pre ++ mid ++ post)))) l) = Some (LXMF_ERR_FORMAT, None))).
Proof.
  intros Hb Hl. split; [by apply fields_parse_total|]. intros Hes He1 Ht1 Hb1 He2 Ht2 Hb2 Hn map.
  pose proof (entries_length _ Hes) as Hc. apply Forall_app in Hes as (Hpre & Hrest). pose proof Hrest as (Hmid & Hpost)%Forall_app.
  pose proof (entries_length _ Hpre) as Hcp. pose proof (entries_length _ Hmid) as Hcm. pose proof (entries_length _ Hrest) as Hcr. clear Hc.
  assert (length (ticket_entry e1 t1) = 29%nat) as HT by (unfold ticket_entry, bin_image; rewrite Ht1, !length_app, Ht1; done).
  unfold map. split_and!; intros ->; rewrite parse_small_map by lia; rewrite !length_app in *.
  - rewrite <-!length_app, others_to_the_end; [done|by apply Forall_app|done|rewrite concat_app, !length_app in *; lia|rewrite concat_app, !length_app; lia].
  - rewrite (others_to_ticket pre e1 t1 _ (Z.of_nat (length (mid ++ post)))); [|done..|rewrite !length_app; lia|lia|rewrite length_app; lia|lia|by left]. cbn [present zero_ticket].
    destruct (reads_suffix _ _ Hb ltac:(rewrite !length_app; lia)) as [[_ Hb']%Forall_app _]. rewrite others_to_the_end; [done|done|done|lia|rewrite length_app; lia].
  - rewrite (others_to_ticket pre e1 t1 _ (Z.of_nat (S (length (mid ++ post))))); [|done..|rewrite !length_app; lia|lia|rewrite length_app; lia|lia|by left]. cbn [present zero_ticket].
    destruct (reads_suffix _ _ Hb ltac:(rewrite !length_app; lia)) as [[_ Hb']%Forall_app _].
    by rewrite (others_to_ticket mid e2 t2 _ (Z.of_nat (length post))); [|done..|rewrite !length_app; lia|lia|rewrite length_app; lia|lia|by right].
Qed.

(** *** Concrete messages *)

Definition sample_message (title : list Z) (stamped : bool) : lxmf_message :=
  {| destination := replicate 16 1; source := replicate 16 2; signature := replicate 64 0; message_id := replicate 32 0;
     timestamp := 0x41d954fc40000000; title := SBytes title; content := SBytes [104; 105]; fields_msgpack := SBytes [0x81; 1; 0xa1; 120];
     has_stamp := stamped; stamp_len := 0; stamp := replicate 32 7 |}.

(** A list of literal bytes. *)
Ltac literal_bytes := repeat (constructor; [vm_compute; split; [discriminate|reflexivity]|]); constructor.

Lemma sample_map_msgpack : msgpack MAX_LEVELS [0x81; 1; 0xa1; 120].
Proof. destruct (one_object_decides [0x81; 1; 0xa1; 120]) as (b & Hb & Hm); [literal_bytes|]. apply Hm. vm_compute in Hb. congruence. Qed.

Lemma sample_message_ok title stamped : bytes_ok title -> (length title < 8)%nat -> message_ok (sample_message title stamped).
Proof.
  intros Hb Hl. constructor; cbn -[Z.of_nat replicate].
  - split; [done|literal_bytes].
  - split; [done|literal_bytes].
  - unfold in_width. lia.
  - constructor; cbn -[Z.of_nat]; (split; [done|]); [unfold UINT32_MAX; lia..|]. split; [literal_bytes|]. split; [unfold UINT32_MAX; lia|]. right.
    split; [apply sample_map_msgpack|by eexists _, _].
  - split; [done|literal_bytes].
  - intros _. split; [split; [by left|vm_compute; lia]|literal_bytes].
  - do 8 (destruct title as [|? title]; [by destruct stamped|]). cbn in Hl. lia.
Qed.

Lemma lxmf_walker_agrees_witness : skip_obj LEVELS [0x81; 1; 0xa1; 120; 9] = skip_object MAX_LEVELS [0x81; 1; 0xa1; 120; 9] /\
  skip_obj LEVELS [0x81; 1; 0xa1; 120; 9] = Some (Some [9]).
Proof. split; [|vm_compute; reflexivity]. apply (lxmf_walker_agrees [0x81; 1; 0xa1; 120; 9]); [literal_bytes|done]. Defined.

Lemma lxmf_roundtrip_witness :
  exists o' n sig id, lxmf_pack (λ _, true) (sample_message [72] true) (lxmf_identity_signer (Some Identity.sample)) (Some (replicate 200 0)) 200 =
      Some (LXMF_OK, Some o', n) /\
    lxmf_unpack (λ _, true) (SBytes (take n o')) (Some (lxmf_identity_verifier (Some (λ _, Some (Identity.public_half Identity.sample))))) =
      Some (LXMF_OK, Some (identified (received (empty_message (replicate 16 1) (replicate 16 2) sig) (sample_message [72] true)) id)).
Proof.
  destruct (lxmf_roundtrip (sample_message [72] true) Identity.sample (Identity.public_half Identity.sample)
    (λ _, Some (Identity.public_half Identity.sample)) (replicate 200 0) 200) as (o' & n & id & sig & Hp & _ & _ & Hu).
  - apply sample_message_ok; [literal_bytes|cbn; lia].
  - vm_compute. discriminate.
  - done.
  - vm_compute. reflexivity.
  - vm_compute. reflexivity.
  - intros d. by eexists.
  - reflexivity.
  - vm_compute. reflexivity.
  - exists o', n, sig, id. split; [exact Hp|exact Hu].
Defined.

Lemma lxmf_unpack_authentic_witness :
  exists st om, lxmf_unpack (λ _, true) (SBytes (replicate 120 5)) (Some (lxmf_identity_verifier (Some (λ _, Some Identity.sample)))) = Some (st, om).
Proof.
  destruct (lxmf_unpack_authentic (λ _, true) (replicate 120 5) (λ _, Some Identity.sample)) as (st & om & Hu & _); [literal_bytes|].
  exists st, om. exact Hu.
Defined.

Lemma lxmf_unpack_fixstr_title_witness : exists l,
  lxmf_unpack (λ _, true) (SBytes (replicate 16 1 ++ replicate 16 2 ++ l)) None = Some (LXMF_ERR_BOUNDS, None).
Proof.
  eexists. refine (lxmf_unpack_fixstr_title (sample_message [72] false) (replicate 64 3) None _ eq_refl eq_refl _ _).
  - apply sample_message_ok; [literal_bytes|cbn; lia].
  - literal_bytes.
  - cbn. lia.
Defined.

Lemma sample_other_entry : other_entry [1; 5].
Proof.
  exists [1], [5]. split_and!; [done|literal_bytes| | |by intros rest x [= <-]].
  all: match goal with |- msgpack _ ?l => destruct (one_object_decides l) as (b & Hb & Hm); [literal_bytes|]; apply Hm; vm_compute in Hb; congruence end.
Qed.

Lemma lxmf_ticket_found_witness :
  lxmf_fields_parse_ticket (SBytes (0x83 :: [1; 5] ++ ticket_entry 1000 (replicate 16 9) ++ [1; 5])) =
  Some (LXMF_OK, Some {| present := true; expires_at := 1000; ticket := replicate 16 9 |}).
Proof.
  refine (proj1 (proj2 (proj2 (lxmf_ticket_found ([1; 5] ++ ticket_entry 1000 (replicate 16 9) ++ [1; 5]) [[1; 5]] [] [[1; 5]] 1000 (replicate 16 9)
    2000 (replicate 16 9) _ _) _ _ _ _ _ _ _ _)) eq_refl).
  - literal_bytes.
  - done.
  - repeat constructor; apply sample_other_entry.
  - unfold in_width. lia.
  - done.
  - literal_bytes.
  - unfold in_width. lia.
  - done.
  - literal_bytes.
  - cbn. lia.
Defined.
End Lxmf.
