(* ===== verification/Stamp.v ===== *)
(** * Stamps

    The stamps of messages, the last part of [lxmf/lxmf.c]: ticket stamps, the work
    block a stamp is hashed with, the validator, the blocking generator and the
    incremental job that is polled with a budget. The theorems show that the job and
    the generator find the first nonce from their start whose hash meets the cost,
    that the validator accepts it with the value they report, and what the cost and
    the value are as numbers.

    [malloc_ok] is whether memory is available, a random nonce comes from a seed, and
    the [progress] callback is a function on a state of its own. *)

From Stdlib Require Import ZArith Lia.
From S2P Require Import Prelude Crypto Identity Request Sha256 Lxmf.

Module Stamp.
Import Sha Lxmf.

Definition LXMF_STAMP_WORKBLOCK_ROUNDS : Z := 3000.
Definition LXMF_STAMP_POLL_MAX_UNITS : Z := 64.

(** The content of the block of a context on the stack before it is written. *)
Definition stack_block : list Z := replicate 64 0.

(** ** Ticket stamps *)

Definition lxmf_ticket_stamp (ticket id : list Z) : option (list Z) :=
  t ← memread ticket 0 16; i ← memread id 0 32;
  d ← sha_pieces stack_block [t; i];
  memread d 0 16.

Definition lxmf_ticket_stamp_valid (stamp ticket id : list Z) : option bool :=
  want ← lxmf_ticket_stamp ticket id;
  difference ← foldl (λ acc i, difference ← acc; w ← load want i; s ← load stamp i; Some (Z.lor difference (wrap8 (Z.lxor w s)))) (Some 0) (seq 0 16);
  Some (difference =? 0).

(** ** Work blocks *)

Definition msgpack_uint (n : Z) : list Z :=
  if n <=? 0x7f then [wrap8 n]
  else if n <=? 0xff then [0xcc; wrap8 n]
  else if n <=? 0xffff then [0xcd; wrap8 (Z.shiftr n 8); wrap8 n]
  else 0xce :: store32be n.

Definition digest_shift : nat -> Z -> Z -> Z :=
  fix loop fuel v b := match fuel with
  | O => v
  | S fuel => if Z.land b 0x80 =? 0 then loop fuel (wrap8 (v + 1)) (wrap8 (Z.shiftl b 1)) else v
  end.

(** A byte that is not zero has its high bit set after at most seven shifts. *)
Fixpoint digest_zeros (v : Z) (d : list Z) : Z :=
  match d with
  | [] => v
  | b :: d => if b =? 0 then digest_zeros (wrap8 (v + 8)) d else digest_shift 8 v b
  end.

Definition digest_value (d : list Z) : option Z := d ← memread d 0 32; Some (digest_zeros 0 d).

(** The sign of [memcmp]. *)
Fixpoint memcmp (a b : list Z) : comparison :=
  match a, b with
  | x :: a, y :: b => match x ?= y with Eq => memcmp a b | c => c end
  | _, _ => Eq
  end.

Definition digest_meets (d : list Z) (cost : Z) : option bool :=
  let bit := wrap32 (256 - cost) in
  target ← store (replicate 32 0) (Z.to_nat (wrap32 (31 - bit / 8))) (wrap8 (Z.shiftl 1 (bit mod 8)));
  d ← memread d 0 32;
  Some (match memcmp d target with Gt => false | _ => true end).

(** [rounds * 256] bytes of the work block and the stamp. *)
Definition hash_work_stamp (wb : list Z) (rounds : Z) (stamp : list Z) : option (list Z) :=
  w ← memread wb 0 (Z.to_nat (rounds * 256)); s ← memread stamp 0 32; sha_pieces stack_block [w; s].

(** ** Jobs *)

Inductive lxmf_stamp_state : Type :=
| LXMF_STAMP_PREPARING | LXMF_STAMP_SEARCHING | LXMF_STAMP_COMPLETE | LXMF_STAMP_CANCELLED | LXMF_STAMP_FAILED.

#[global] Instance lxmf_stamp_state_eq_dec : EqDecision lxmf_stamp_state.
Proof. solve_decision. Defined.

Record lxmf_stamp_job_progress_t : Type := {
  state : lxmf_stamp_state;
  prepared_rounds : Z;
  attempts : Z;
  result : lxmf_status
}.

Record lxmf_stamp_job : Type := {
  id : list Z;
  nonce : list Z;
  cost : Z;
  value : Z;
  rounds : Z;
  prefix : sha_ctx;
  progress : lxmf_stamp_job_progress_t
}.

(** The progress with another state and result. *)
Definition set_state (st : lxmf_stamp_state) (res : lxmf_status) (j : lxmf_stamp_job) : lxmf_stamp_job :=
  {| id := j.(id); nonce := j.(nonce); cost := j.(cost); value := j.(value); rounds := j.(rounds); prefix := j.(prefix);
     progress := {| state := st; prepared_rounds := j.(progress).(prepared_rounds); attempts := j.(progress).(attempts); result := res |} |}.

(** [++] from the last byte on, to a byte that does not wrap to zero. *)
Fixpoint next_nonce_from (i : nat) (n : list Z) : option (list Z) :=
  b ← load n i;
  let b := wrap8 (b + 1) in
  n ← store n i b;
  if b =? 0 then (match i with O => Some n | S i => next_nonce_from i n end) else Some n.

Definition next_nonce (n : list Z) : option (list Z) := next_nonce_from 31 n.

Section WithCrypto.
Context `{Crypto}.
Variable malloc_ok : nat -> bool.

(** Round [n] of a work block: the salt from the message and the number of the
    round, and the block derived with it. [Some None] when the derivation fails. *)
Definition work_round (id : list Z) (n : Z) : option (option (list Z)) :=
  i ← memread id 0 32;
  salt ← lxmf_sha256 stack_block (i ++ msgpack_uint n);
  Some (rns_hkdf_sha256 i salt [] 256).

(** The loop from round [n] on, [todo] rounds. *)
Fixpoint work_rounds (id : list Z) (todo : nat) (n : Z) (wb : list Z) : option (lxmf_status * list Z) :=
  match todo with
  | O => Some (LXMF_OK, wb)
  | S todo =>
      x ← work_round id n;
      match x with
      | None => Some (LXMF_ERR_CRYPTO, wb)
      | Some blk => wb ← memcpy wb (Z.to_nat (n * 256)) blk; work_rounds id todo (n + 1) wb
      end
  end.

Definition stamp_workblock (id : list Z) (rounds : Z) : option (lxmf_status * list Z) :=
  if (rounds =? 0) || (LXMF_STAMP_WORKBLOCK_ROUNDS <? rounds) then Some (LXMF_ERR_ARGUMENT, [])
  else
    let size := Z.to_nat (rounds * 256) in
    if negb (malloc_ok size) then Some (LXMF_ERR_BOUNDS, [])
    else work_rounds id (Z.to_nat rounds) 0 (replicate size 0).

(** [calloc_ok]: whether there is memory for the job; [nonce]: the caller's, or a
    seed for a random one. *)
Definition lxmf_stamp_job_create_expanded (calloc_ok : bool) (id : option (list Z)) (cost rounds : Z) (nonce : option (list Z)) (seed : list Z)
    : option (lxmf_status * option lxmf_stamp_job) :=
  match id with
  | None => Some (LXMF_ERR_ARGUMENT, None)
  | Some id =>
      if (cost =? 0) || (rounds =? 0) || (LXMF_STAMP_WORKBLOCK_ROUNDS <? rounds) then Some (LXMF_ERR_ARGUMENT, None)
      else if negb calloc_ok then Some (LXMF_ERR_BOUNDS, None)
      else
        i ← memread id 0 32;
        n ← (match nonce with Some n => n ← memread n 0 32; Some (Some n) | None => Some (rns_random_bytes seed 32) end);
        Some (match n with
              | None => (LXMF_ERR_CRYPTO, None)
              | Some n =>
                  (LXMF_OK, Some {| id := i; nonce := n; cost := cost; value := 0; rounds := rounds; prefix := sha_init (replicate 64 0);
                                    progress := {| state := LXMF_STAMP_PREPARING; prepared_rounds := 0; attempts := 0; result := LXMF_ERR_PENDING |} |})
              end)
  end.

Definition lxmf_stamp_job_create (calloc_ok : bool) (id : option (list Z)) (cost : Z) (nonce : option (list Z)) (seed : list Z) : option (lxmf_status * option lxmf_stamp_job) :=
  lxmf_stamp_job_create_expanded calloc_ok id cost LXMF_STAMP_WORKBLOCK_ROUNDS nonce seed.

(** A unit of work: the body of the loop in [lxmf_stamp_job_poll]. Each [break]
    sets a result, on which the loop ends as well. *)
Definition job_unit (j : lxmf_stamp_job) : option lxmf_stamp_job :=
  match j.(progress).(state) with
  | LXMF_STAMP_PREPARING =>
      x ← work_round j.(id) j.(progress).(prepared_rounds);
      match x with
      | None => Some (set_state LXMF_STAMP_FAILED LXMF_ERR_CRYPTO j)
      | Some blk =>
          c ← sha_update j.(prefix) blk;
          let n := wrap32 (j.(progress).(prepared_rounds) + 1) in
          Some {| id := j.(id); nonce := j.(nonce); cost := j.(cost); value := j.(value); rounds := j.(rounds); prefix := c;
                  progress := {| state := if n =? j.(rounds) then LXMF_STAMP_SEARCHING else LXMF_STAMP_PREPARING;
                                 prepared_rounds := n; attempts := j.(progress).(attempts); result := j.(progress).(result) |} |}
      end
  | _ =>
      c ← sha_update j.(prefix) j.(nonce);
      digest ← sha_final c;
      if j.(progress).(attempts) =? UINT64_MAX then Some (set_state LXMF_STAMP_FAILED LXMF_ERR_BOUNDS j)
      else
        let tries := j.(progress).(attempts) + 1 in
        ok ← digest_meets digest j.(cost);
        if ok : bool then
          v ← digest_value digest;
          Some {| id := j.(id); nonce := j.(nonce); cost := j.(cost); value := v; rounds := j.(rounds); prefix := j.(prefix);
                  progress := {| state := LXMF_STAMP_COMPLETE; prepared_rounds := j.(progress).(prepared_rounds); attempts := tries; result := LXMF_OK |} |}
        else
          n ← next_nonce j.(nonce);
          Some {| id := j.(id); nonce := n; cost := j.(cost); value := j.(value); rounds := j.(rounds); prefix := j.(prefix);
                  progress := {| state := j.(progress).(state); prepared_rounds := j.(progress).(prepared_rounds); attempts := tries;
                                 result := j.(progress).(result) |} |}
  end.

(** [while (budget-- && result == PENDING)]. *)
Fixpoint poll_loop (budget : nat) (j : lxmf_stamp_job) : option lxmf_stamp_job :=
  match budget with
  | O => Some j
  | S budget => if bool_decide (j.(progress).(result) = LXMF_ERR_PENDING) then j ← job_unit j; poll_loop budget j else Some j
  end.

Definition lxmf_stamp_job_poll (j : option lxmf_stamp_job) (budget : Z) : option (lxmf_status * option lxmf_stamp_job) :=
  match j with
  | None => Some (LXMF_ERR_ARGUMENT, None)
  | Some job =>
      if LXMF_STAMP_POLL_MAX_UNITS <? budget then Some (LXMF_ERR_ARGUMENT, j)
      else job ← poll_loop (Z.to_nat budget) job; Some (job.(progress).(result), Some job)
  end.

Definition lxmf_stamp_job_cancel (j : option lxmf_stamp_job) : option lxmf_stamp_job :=
  match j with
  | Some job => Some (if bool_decide (job.(progress).(result) = LXMF_ERR_PENDING) then set_state LXMF_STAMP_CANCELLED LXMF_ERR_CANCELLED job else job)
  | None => None
  end.

Definition lxmf_stamp_job_progress (j : option lxmf_stamp_job) : lxmf_status * option lxmf_stamp_job_progress_t :=
  match j with None => (LXMF_ERR_ARGUMENT, None) | Some job => (LXMF_OK, Some job.(progress)) end.

(** The status, and the stamp and value when it is [LXMF_OK]. *)
Definition lxmf_stamp_job_result (j : option lxmf_stamp_job) : lxmf_status * option (list Z * Z) :=
  match j with
  | None => (LXMF_ERR_ARGUMENT, None)
  | Some job =>
      if negb (bool_decide (job.(progress).(result) = LXMF_OK)) then (job.(progress).(result), None)
      else (LXMF_OK, Some (job.(nonce), job.(value)))
  end.

(** ** Validation *)

(** The status, and [value] where it is written. *)
Definition lxmf_pow_stamp_validate_expanded (id : option (list Z)) (cost rounds : Z) (stamp : option (list Z)) : option (lxmf_status * option Z) :=
  match id, stamp with
  | Some id, Some stamp =>
      if cost <? 1 then Some (LXMF_ERR_ARGUMENT, None)
      else
        x ← stamp_workblock id rounds;
        let '(st, wb) := x in
        if negb (bool_decide (st = LXMF_OK)) then Some (st, None)
        else
          d ← hash_work_stamp wb rounds stamp;
          v ← digest_value d;
          ok ← digest_meets d cost;
          Some (if ok : bool then LXMF_OK else LXMF_ERR_FORMAT, Some v)
  | _, _ => Some (LXMF_ERR_ARGUMENT, None)
  end.

Definition lxmf_pow_stamp_validate (id : option (list Z)) (cost : Z) (stamp : option (list Z)) : option (lxmf_status * option Z) :=
  lxmf_pow_stamp_validate_expanded id cost LXMF_STAMP_WORKBLOCK_ROUNDS stamp.

(** ** Generation *)

Section Generate.
Context {E : Type}.
Variable callback : option (E -> Z -> bool * E).

(** [progress && !progress(ctx, n)]. *)
Definition cancelled (e : E) (n : Z) : bool * E :=
  match callback with Some f => let '(go, e) := f e n in (negb go, e) | None => (false, e) end.

(** The status, stamp, value and attempts, and the state of the callback; [None]
    when [fuel] attempts were not enough. *)
Fixpoint generate_loop (fuel : nat) (wb : list Z) (cost : Z) (stamp : list Z) (tries : Z) (e : E)
    : option (option (lxmf_status * list Z * option Z * Z * E)) :=
  match fuel with
  | O => Some None
  | S fuel =>
      d ← hash_work_stamp wb LXMF_STAMP_WORKBLOCK_ROUNDS stamp;
      let tries := wrap64 (tries + 1) in
      ok ← digest_meets d cost;
      if ok : bool then v ← digest_value d; Some (Some (LXMF_OK, stamp, Some v, tries, e))
      else
        stamp ← next_nonce stamp;
        let '(stop, e) := if Z.land tries 1023 =? 0 then cancelled e tries else (false, e) in
        if stop : bool then Some (Some (LXMF_ERR_CANCELLED, stamp, None, tries, e))
        else generate_loop fuel wb cost stamp tries e
  end.

(** [stamp]: what the memory for it holds before; [seed] for the random nonce. The
    attempts are 0 where they are not written. *)
Definition lxmf_pow_stamp_generate (fuel : nat) (id : option (list Z)) (cost : Z) (e : E) (stamp : option (list Z)) (seed : list Z)
    : option (option (lxmf_status * option (list Z) * option Z * Z * E)) :=
  match id, stamp with
  | Some id, Some old =>
      if cost <? 1 then Some (Some (LXMF_ERR_ARGUMENT, stamp, None, 0, e))
      else
        let '(stop, e) := cancelled e 0 in
        if stop : bool then Some (Some (LXMF_ERR_CANCELLED, stamp, None, 0, e))
        else
          x ← stamp_workblock id LXMF_STAMP_WORKBLOCK_ROUNDS;
          let '(st, wb) := x in
          if negb (bool_decide (st = LXMF_OK)) then Some (Some (st, stamp, None, 0, e))
          else
            match rns_random_bytes seed 32 with
            | None => Some (Some (LXMF_ERR_CRYPTO, stamp, None, 0, e))
            | Some n =>
                x ← generate_loop fuel wb cost n 0 e;
                Some (x ≫= λ '(st, s, v, tries, e), Some (st, Some s, v, tries, e))
            end
  | _, _ => Some (Some (LXMF_ERR_ARGUMENT, stamp, None, 0, e))
  end.
End Generate.
End WithCrypto.

(** ** Digests as numbers *)

Lemma be_decode_acc acc l : be_decode_from acc l = acc * 256 ^ Z.of_nat (length l) + be_decode l.
Proof.
  unfold be_decode. revert acc. induction l as [|x l IH]; intros acc; [cbn; lia|]. cbn [be_decode_from length]. rewrite IH, (IH (0 * 256 + x)).
  rewrite Nat2Z.inj_succ, Z.pow_succ_r by lia. lia.
Qed.

Lemma be_decode_cons b l : be_decode (b :: l) = b * 256 ^ Z.of_nat (length l) + be_decode l.
Proof. unfold be_decode at 1. cbn [be_decode_from]. by rewrite be_decode_acc. Qed.

(** Bytes of the same length compare as big-endian numbers. *)
Lemma memcmp_spec a b : length a = length b -> bytes_ok a -> bytes_ok b -> memcmp a b = (be_decode a ?= be_decode b).
Proof.
  revert b. induction a as [|x a IH]; intros [|y b] Hl Ha Hb; try done. injection Hl as Hl. apply Forall_cons_1 in Ha as [Hx Ha]. apply Forall_cons_1 in Hb as [Hy Hb].
  cbn [memcmp]. rewrite !be_decode_cons, Hl. pose proof (be_decode_bounds a Ha). pose proof (be_decode_bounds b Hb). rewrite Hl in *.
  set (k := 256 ^ Z.of_nat (length b)) in *. destruct (Z.compare_spec x y) as [->|?|?].
  - rewrite IH by done. destruct (Z.compare_spec (be_decode a) (be_decode b)); symmetry; [apply Z.compare_eq_iff|apply Z.compare_lt_iff|apply Z.compare_gt_iff]; lia.
  - symmetry. apply Z.compare_lt_iff. nia.
  - symmetry. apply Z.compare_gt_iff. nia.
Qed.

Lemma digest_target cost : 1 <= cost < 256 -> let bit := wrap32 (256 - cost) in
  exists t, store (replicate 32 0) (Z.to_nat (wrap32 (31 - bit / 8))) (wrap8 (Z.shiftl 1 (bit mod 8))) = Some t /\ length t = 32%nat /\ bytes_ok t /\
    be_decode t = 2 ^ (256 - cost).
Proof.
  intros Hc. set (target := λ cost, let bit := wrap32 (256 - cost) in
    store (replicate 32 0) (Z.to_nat (wrap32 (31 - bit / 8))) (wrap8 (Z.shiftl 1 (bit mod 8)))).
  assert (forallb (λ c, match target c with
    | Some t => (length t =? 32)%nat && forallb (λ b, (0 <=? b) && (b <? 256)) t && (be_decode t =? 2 ^ (256 - c)) | None => false end) (seqZ 1 255) = true)
    as Hall by (vm_compute; reflexivity).
  rewrite List.forallb_forall in Hall. specialize (Hall cost ltac:(apply list_elem_of_In, elem_of_seqZ; lia)). cbv zeta. fold (target cost).
  destruct (target cost) as [t|]; [|done]. apply andb_prop in Hall as [[Hl%Nat.eqb_eq Hb]%andb_prop Hd%Z.eqb_eq]. exists t. split_and!; [done|done| |done].
  rewrite List.forallb_forall in Hb. apply list.Forall_forall. intros b Hin. apply list_elem_of_In in Hin. specialize (Hb b Hin). unfold in_width. lia.
Qed.

Lemma digest_meets_spec d cost : 1 <= cost < 256 -> length d = 32%nat -> bytes_ok d -> digest_meets d cost = Some (be_decode d <=? 2 ^ (256 - cost)).
Proof.
  intros Hc Hl Hb. destruct (digest_target cost Hc) as (t & Ht & Htl & Htb & Hv). unfold digest_meets. cbv zeta in Ht. rewrite (bind_Some_eq _ _ _ Ht).
  rewrite memread_in by lia. cbn [mbind option_bind]. rewrite drop_0, take_ge by lia. rewrite memcmp_spec, Hv by (done || lia). done.
Qed.

(** The zero bits before the first one. *)
Definition leading_zeros (n : nat) (d : list Z) : Z := Z.of_nat (8 * n) - 1 - Z.log2 (be_decode d).

Lemma digest_shift_spec v b : 0 <= v <= 248 -> 0 < b < 256 -> digest_shift 8 v b = v + 7 - Z.log2 b.
Proof.
  intros Hv Hb. assert (forallb (λ v, forallb (λ b, digest_shift 8 v b =? v + 7 - Z.log2 b) (seqZ 1 255)) (seqZ 0 249) = true) as Hall by (vm_compute; reflexivity).
  rewrite List.forallb_forall in Hall. specialize (Hall v ltac:(apply list_elem_of_In, elem_of_seqZ; lia)). rewrite List.forallb_forall in Hall.
  specialize (Hall b ltac:(apply list_elem_of_In, elem_of_seqZ; lia)). lia.
Qed.

Lemma digest_zeros_spec v d : bytes_ok d -> 0 <= v < 256 -> v + 8 * Z.of_nat (length d) <= 256 ->
  digest_zeros v d = if be_decode d =? 0 then wrap8 (v + 8 * Z.of_nat (length d)) else v + leading_zeros (length d) d.
Proof.
  intros Hd. revert v. induction Hd as [|b d Hb Hd IH]; intros v Hv Hl; cbn [digest_zeros].
  - cbn -[wrap]. rewrite Z.add_0_r. symmetry. apply wrap_small. unfold in_width. lia.
  - pose proof (be_decode_bounds d Hd) as Hbd. rewrite be_decode_cons. cbn [length] in *. rewrite Nat2Z.inj_succ in Hl. unfold in_width in Hb. destruct (Z.eqb_spec b 0) as [->|Hb0].
    + cbn [Z.mul Z.add]. destruct d as [|x d].
      { cbn. f_equal. }
      cbn [length] in *. assert (wrap8 (v + 8) = v + 8) as -> by (apply wrap_small; unfold in_width; lia). rewrite IH by lia. unfold leading_zeros. rewrite be_decode_cons.
      rewrite !be_decode_cons, !Z.mul_0_l, !Z.add_0_l. destruct (x * _ + _ =? 0); [f_equal; lia|lia].
    + assert (0 < 256 ^ Z.of_nat (length d)) by (apply Z.pow_pos_nonneg; lia).
      rewrite (proj2 (Z.eqb_neq _ _)) by nia. rewrite digest_shift_spec by lia. unfold leading_zeros. rewrite be_decode_cons.
      assert (Z.log2 (b * 256 ^ Z.of_nat (length d) + be_decode d) = 8 * Z.of_nat (length d) + Z.log2 b) as ->; [|cbn [length]; lia].
      change 256 with (2 ^ 8) in *. rewrite <-Z.pow_mul_r in * by lia. pose proof (Z.log2_spec b ltac:(lia)) as [L1 L2]. pose proof (Z.log2_nonneg b).
      apply Z.log2_unique; [lia|]. rewrite <-Z.add_succ_r, !Z.pow_add_r by lia. nia.
Qed.

Lemma digest_value_spec d : length d = 32%nat -> bytes_ok d -> digest_value d = Some (if be_decode d =? 0 then 0 else leading_zeros 32 d).
Proof.
  intros Hl Hb. unfold digest_value. rewrite memread_in by lia. cbn [mbind option_bind]. rewrite drop_0, take_ge by lia. f_equal.
  rewrite digest_zeros_spec by (done || lia). rewrite Hl. by destruct (_ =? 0).
Qed.

(** ** Nonces *)

Lemma next_nonce_from_spec a rest : a <> [] -> bytes_ok a ->
  next_nonce_from (length a - 1) (a ++ rest) = Some (be_encode (length a) ((be_decode a + 1) mod 256 ^ Z.of_nat (length a)) ++ rest).
Proof.
  revert rest. induction a as [|b a IH] using rev_ind; [done|]. intros rest _ [Ha Hb]%Forall_app. apply Forall_cons_1 in Hb as [Hb _]. unfold in_width in Hb.
  rewrite length_app, <-app_assoc. cbn [length app]. rewrite Nat.add_sub, Nat.add_1_r. pose proof (be_decode_bounds a Ha) as Hd.
  assert (be_decode (a ++ [b]) = be_decode a * 256 + b) as -> by (unfold be_decode; by rewrite be_decode_from_app).
  rewrite Nat2Z.inj_succ, Z.pow_succ_r by lia. set (k := 256 ^ Z.of_nat (length a)) in *.
  assert (forall x y, load (a ++ x :: y) (length a) = Some x) as Hload by (intros; by apply (load_at _ a x y)).
  assert (forall x y v, store (a ++ x :: y) (length a) v = Some (a ++ v :: y)) as Hstore.
  { intros x y v. unfold store. rewrite decide_True by (rewrite length_app; cbn; lia). f_equal. by rewrite insert_app_r_alt, Nat.sub_diag. }
  assert (forall i, i = length a -> next_nonce_from i (a ++ b :: rest) = if wrap8 (b + 1) =? 0
    then (match i with O => Some (a ++ wrap8 (b + 1) :: rest) | S i => next_nonce_from i (a ++ wrap8 (b + 1) :: rest) end)
    else Some (a ++ wrap8 (b + 1) :: rest)) as Hstep.
  { intros [|i] Hi; cbn [next_nonce_from]; rewrite (bind_Some_eq _ _ b) by (rewrite Hi; apply Hload); cbv zeta;
      by rewrite (bind_Some_eq _ _ (a ++ wrap8 (b + 1) :: rest)) by (rewrite Hi; apply Hstore). }
  rewrite Hstep by done. clear Hload Hstore Hstep.
  cbn [be_encode]. destruct (Z.eq_dec b 255) as [->|Hb'].
  - cbn [wrap Z.add Pos.add]. change (wrap8 256) with 0. cbn [Z.eqb]. replace (be_decode a * 256 + 255 + 1) with (256 * (be_decode a + 1)) by lia.
    rewrite Z.mul_mod_distr_l by lia. rewrite (Z.mul_comm 256 (_ mod _)), Z.div_mul, Z.mod_mul by lia. rewrite <-app_assoc. cbn [app].
    destruct (length a) as [|i] eqn:E; [by apply nil_length_inv in E; subst|]. replace (next_nonce_from i) with (next_nonce_from (S i - 1)) by (f_equal; lia). rewrite IH by (done || by intros ->). done.
  - assert (wrap8 (b + 1) = b + 1) as -> by (apply wrap_small; unfold in_width; lia). rewrite (proj2 (Z.eqb_neq _ _)) by lia.
    rewrite (Z.mod_small _ (256 * k)) by lia. replace (be_decode a * 256 + b + 1) with ((b + 1) + be_decode a * 256) by lia.
    rewrite Z.div_add, Z.mod_add, Z.div_small, Z.mod_small by lia. cbn [Z.add]. by rewrite be_encode_decode, <-app_assoc.
Qed.

(** The nonce [k] steps from [n]. *)
Definition nth_nonce (n : list Z) (k : Z) : list Z := be_encode 32 ((be_decode n + k) mod 2 ^ 256).

#[local] Arguments nth_nonce : simpl never.

Lemma nth_nonce_0 n : length n = 32%nat -> bytes_ok n -> nth_nonce n 0 = n.
Proof.
  intros Hl Hb. unfold nth_nonce. pose proof (be_decode_bounds n Hb) as Hd. rewrite Hl in Hd. change (256 ^ Z.of_nat 32) with (2 ^ 256) in Hd.
  rewrite Z.add_0_r, Z.mod_small, <-Hl by done. by apply be_encode_decode.
Qed.

Lemma next_nonce_nth n k : next_nonce (nth_nonce n k) = Some (nth_nonce n (k + 1)).
Proof.
  set (a := nth_nonce n k). assert (length a = 32%nat) as Hl by apply length_be_encode. assert (bytes_ok a) as Hb by apply be_encode_bytes.
  pose proof (next_nonce_from_spec a [] ltac:(by intros ->) Hb) as Hn. rewrite !app_nil_r, Hl in Hn. unfold next_nonce. etransitivity; [exact Hn|]. f_equal. unfold a, nth_nonce.
  rewrite be_decode_encode; [|change (256 ^ Z.of_nat 32) with (2 ^ 256); apply Z.mod_pos_bound; lia]. f_equal. change (256 ^ Z.of_nat 32) with (2 ^ 256).
  rewrite Z.add_mod_idemp_l by lia. f_equal. lia.
Qed.

(** ** Work blocks and the hash of a stamp *)

Lemma sha256_is_bytes m d : sha256 m = Some d -> bytes_ok d.
Proof.
  unfold sha256. destruct (hash_blocks _ _) as [hs|]; [|done]. cbn [mbind option_bind]. intros [= <-]. induction hs as [|w hs IH]; [constructor|].
  cbn [fmap list_fmap concat]. apply Forall_app. split; [|done]. unfold store32be. repeat constructor; by apply wrap_in_width.
Qed.

Lemma sha256_total m : exists d, sha256 m = Some d /\ length d = 32%nat /\ bytes_ok d.
Proof.
  destruct (lxmf_sha256_spec stack_block m eq_refl) as [_ (d & Hd & Hl)]. exists d. split_and!; [done|done|by eapply sha256_is_bytes].
Qed.

Section Specification.
Context `{Crypto}.

(** Round [n] of the work block of a message. *)
Definition round_block (id : list Z) (n : Z) : option (list Z) :=
  salt ← sha256 (id ++ msgpack_uint n); rns_hkdf_sha256 id salt [] 256.

(** The first [k] rounds, [None] when one cannot be derived. *)
Fixpoint work_block (id : list Z) (k : nat) : option (list Z) :=
  match k with
  | O => Some []
  | S k => p ← work_block id k; b ← round_block id (Z.of_nat k); Some (p ++ b)
  end.

(** The hash of a stamp. *)
Definition stamp_digest (id : list Z) (rounds : Z) (stamp : list Z) : option (list Z) :=
  wb ← work_block id (Z.to_nat rounds); sha256 (wb ++ stamp).

(** A digest is at most [2^(256 - cost)]. *)
Definition meets (d : list Z) (cost : Z) : bool := be_decode d <=? 2 ^ (256 - cost).

(** The value of a digest: its leading zero bits, where 256 wraps to 0. *)
Definition worth (d : list Z) : Z := if be_decode d =? 0 then 0 else leading_zeros 32 d.

(** [stamp] is good enough for [id]. *)
Definition good_stamp (id : list Z) (cost rounds : Z) (stamp : list Z) : bool :=
  match stamp_digest id rounds stamp with Some d => meets d cost | None => false end.

Lemma work_round_spec id n : length id = 32%nat -> work_round id n = Some (round_block id n) /\ forall b, round_block id n = Some b -> length b = 256%nat.
Proof.
  intros Hl. unfold work_round, round_block. rewrite memread_in by lia. cbn [mbind option_bind]. rewrite drop_0, take_ge by lia.
  destruct (lxmf_sha256_spec stack_block (id ++ msgpack_uint n) eq_refl) as [-> (d & -> & _)]. cbn [mbind option_bind]. split; [done|]. intros b. apply hkdf_length.
Qed.

Lemma work_block_length id k wb : length id = 32%nat -> work_block id k = Some wb -> length wb = (k * 256)%nat.
Proof.
  intros Hl. revert wb. induction k as [|k IH]; intros wb; cbn [work_block]; [by intros [= <-]|]. destruct (work_block id k) as [p|]; [|done]. cbn [mbind option_bind].
  destruct (round_block id (Z.of_nat k)) as [b|] eqn:E; [|done]. cbn [mbind option_bind]. intros [= <-]. rewrite length_app, (IH p) by done.
  rewrite (proj2 (work_round_spec id (Z.of_nat k) Hl) b E). lia.
Qed.

Lemma work_block_step id k p : work_block id k = Some p -> work_block id (S k) = b ← round_block id (Z.of_nat k); Some (p ++ b).
Proof. intros Hk. cbn [work_block]. by rewrite Hk. Qed.

Lemma work_block_none id k n : work_block id k = None -> (k <= n)%nat -> work_block id n = None.
Proof. intros Hk. induction 1 as [|n Hn IH]; [done|]. cbn [work_block]. by rewrite IH. Qed.

Lemma work_rounds_spec id todo k p rest :
  length id = 32%nat -> work_block id k = Some p -> length rest = (todo * 256)%nat ->
  exists wb, work_rounds id todo (Z.of_nat k) (p ++ rest) =
    Some (match work_block id (k + todo) with Some w => (LXMF_OK, w) | None => (LXMF_ERR_CRYPTO, wb) end).
Proof.
  intros Hl. revert k p rest. induction todo as [|todo IH]; intros k p rest Hk Hr; cbn [work_rounds].
  { exists []. apply nil_length_inv in Hr as ->. by rewrite Nat.add_0_r, Hk, app_nil_r. }
  destruct (work_round_spec id (Z.of_nat k) Hl) as [-> Hb]. cbn [mbind option_bind]. pose proof (work_block_length _ _ _ Hl Hk) as Hp.
  replace (k + S todo)%nat with (S k + todo)%nat by lia. destruct (round_block id (Z.of_nat k)) as [b|] eqn:E.
  - specialize (Hb b eq_refl). destruct (split_at rest 256) as (r1 & r2 & -> & Hr1); [lia|]. rewrite length_app in Hr.
    rewrite (memcpy_at _ p r1 r2) by (done || lia). cbn [mbind option_bind]. destruct (IH (S k) (p ++ b) r2) as (wb & Hw).
    + by rewrite (work_block_step _ _ p), E.
    + lia.
    + exists wb. rewrite <-Hw, <-app_assoc. f_equal. lia.
  - exists (p ++ rest). rewrite (work_block_none id (S k)); [done| |lia]. by rewrite (work_block_step _ _ p), E.
Qed.

Lemma stamp_workblock_spec malloc_ok id rounds :
  length id = 32%nat -> 0 < rounds <= LXMF_STAMP_WORKBLOCK_ROUNDS -> (forall n, malloc_ok n = true) ->
  exists wb, stamp_workblock malloc_ok id rounds =
    Some (match work_block id (Z.to_nat rounds) with Some w => (LXMF_OK, w) | None => (LXMF_ERR_CRYPTO, wb) end).
Proof.
  intros Hl Hr Hm. unfold stamp_workblock. rewrite (proj2 (Z.eqb_neq _ _)), (proj2 (Z.ltb_ge _ _)), Hm by lia. cbn [orb negb].
  apply (work_rounds_spec id (Z.to_nat rounds) 0 []); [done|done|]. rewrite length_replicate. lia.
Qed.

Lemma hash_work_stamp_spec id rounds wb stamp :
  length id = 32%nat -> 0 <= rounds -> work_block id (Z.to_nat rounds) = Some wb -> length stamp = 32%nat ->
  hash_work_stamp wb rounds stamp = stamp_digest id rounds stamp /\ stamp_digest id rounds stamp = sha256 (wb ++ stamp).
Proof.
  intros Hl Hr Hw Hs. pose proof (work_block_length _ _ _ Hl Hw) as Hwl. unfold hash_work_stamp, stamp_digest. rewrite Hw. cbn [mbind option_bind]. split; [|done].
  rewrite (memread_in wb), (memread_in stamp) by lia. cbn [mbind option_bind]. rewrite !drop_0, !take_ge by lia.
  destruct (sha_pieces_spec stack_block [wb; stamp] eq_refl) as [-> _]. cbn [concat]. by rewrite app_nil_r.
Qed.

Lemma stamp_digest_total id rounds wb stamp : work_block id (Z.to_nat rounds) = Some wb ->
  exists d, stamp_digest id rounds stamp = Some d /\ sha256 (wb ++ stamp) = Some d /\ length d = 32%nat /\ bytes_ok d.
Proof. intros Hw. destruct (sha256_total (wb ++ stamp)) as (d & Hd & ?). exists d. unfold stamp_digest. by rewrite Hw. Qed.

(** What the validator answers. *)
Definition verdict (id : list Z) (cost rounds : Z) (stamp : list Z) : lxmf_status * option Z :=
  match stamp_digest id rounds stamp with
  | None => (LXMF_ERR_CRYPTO, None)
  | Some d => (if meets d cost then LXMF_OK else LXMF_ERR_FORMAT, Some (worth d))
  end.

Lemma validate_spec malloc_ok id cost rounds stamp :
  length id = 32%nat -> length stamp = 32%nat -> 1 <= cost < 256 -> 0 < rounds <= LXMF_STAMP_WORKBLOCK_ROUNDS -> (forall n, malloc_ok n = true) ->
  lxmf_pow_stamp_validate_expanded malloc_ok (Some id) cost rounds (Some stamp) = Some (verdict id cost rounds stamp).
Proof.
  intros Hl Hs Hc Hr Hm. unfold lxmf_pow_stamp_validate_expanded, verdict. rewrite (proj2 (Z.ltb_ge _ _)) by lia.
  destruct (stamp_workblock_spec malloc_ok id rounds Hl Hr Hm) as [wb ->]. cbn [mbind option_bind]. destruct (work_block id (Z.to_nat rounds)) as [w|] eqn:E.
  - destruct (hash_work_stamp_spec id rounds w stamp Hl ltac:(lia) E Hs) as [Hh _]. destruct (stamp_digest_total id rounds w stamp E) as (d & Hd & _ & Hdl & Hdb).
    rewrite bool_decide_true by done. cbn [negb]. rewrite Hh, Hd. cbn [mbind option_bind]. rewrite digest_value_spec, digest_meets_spec by done. done.
  - rewrite bool_decide_false by done. unfold stamp_digest. by rewrite E.
Qed.

(** ** The job *)

Section Job.
Context (i : list Z) (c r : Z) (n0 : list Z).
Context (Hi : length i = 32%nat) (Hn0 : length n0 = 32%nat) (Hb0 : bytes_ok n0) (Hc : 1 <= c < 256) (Hr : 0 < r <= LXMF_STAMP_WORKBLOCK_ROUNDS).

(** No nonce before the [k]-th is good enough. *)
Definition none_before (k : Z) : Prop := forall x, 0 <= x < k -> good_stamp i c r (nth_nonce n0 x) = false.

(** The job in each of its states. *)
Record job_inv (j : lxmf_stamp_job) : Prop := {
  ji_fixed : j.(id) = i /\ j.(cost) = c /\ j.(rounds) = r;
  ji_prefix : 0 <= j.(progress).(prepared_rounds) <= r /\
    exists p, work_block i (Z.to_nat j.(progress).(prepared_rounds)) = Some p /\ absorbed j.(prefix) p;
  ji_state : match j.(progress).(state) with
    | LXMF_STAMP_PREPARING => j.(progress).(result) = LXMF_ERR_PENDING /\ j.(progress).(prepared_rounds) < r /\ j.(progress).(attempts) = 0 /\ j.(nonce) = n0
    | LXMF_STAMP_SEARCHING => j.(progress).(result) = LXMF_ERR_PENDING /\ j.(progress).(prepared_rounds) = r /\
        0 <= j.(progress).(attempts) <= UINT64_MAX /\ j.(nonce) = nth_nonce n0 j.(progress).(attempts) /\ none_before j.(progress).(attempts)
    | LXMF_STAMP_COMPLETE => j.(progress).(result) = LXMF_OK /\ 1 <= j.(progress).(attempts) <= UINT64_MAX /\
        j.(nonce) = nth_nonce n0 (j.(progress).(attempts) - 1) /\ none_before (j.(progress).(attempts) - 1) /\
        verdict i c r j.(nonce) = (LXMF_OK, Some j.(value))
    | LXMF_STAMP_CANCELLED => j.(progress).(result) = LXMF_ERR_CANCELLED
    | LXMF_STAMP_FAILED => j.(progress).(result) = LXMF_ERR_CRYPTO /\ work_block i (Z.to_nat r) = None \/
        j.(progress).(result) = LXMF_ERR_BOUNDS /\ none_before UINT64_MAX
    end
}.

(** The units of work done. *)
Definition units (j : lxmf_stamp_job) : Z := j.(progress).(prepared_rounds) + j.(progress).(attempts).

Lemma prepare_unit j : job_inv j -> j.(progress).(state) = LXMF_STAMP_PREPARING ->
  exists j', job_unit j = Some j' /\ job_inv j' /\ j'.(progress).(state) <> LXMF_STAMP_CANCELLED /\ (j'.(progress).(result) = LXMF_ERR_PENDING -> units j' = units j + 1).
Proof.
  intros [(E1 & E2 & E3) (Hp & p & Hw & Ha) Hs] Est. rewrite Est in Hs. destruct Hs as (Hres & Hlt & Hatt & Hn). unfold job_unit. rewrite Est, E1.
  destruct (work_round_spec i (prepared_rounds (progress j)) Hi) as [-> _]. cbn [mbind option_bind]. unfold LXMF_STAMP_WORKBLOCK_ROUNDS in Hr.
  pose proof (work_block_step i _ p Hw) as Hstep. rewrite Z2Nat.id in Hstep by lia. destruct (round_block i (prepared_rounds (progress j))) as [b|].
  - cbn [mbind option_bind] in Hstep. destruct (sha_update_absorbed _ _ b Ha) as (c' & -> & Ha'). cbn [mbind option_bind].
    rewrite (wrap_small 32) by (unfold in_width; lia). eexists. split; [done|]. split; [|split; [cbn; by destruct (_ =? _)|unfold units; cbn; lia]].
    constructor; cbn; [done| |].
    + split; [lia|]. exists (p ++ b). split; [|done]. by rewrite Z.add_1_r, Z2Nat.inj_succ by lia.
    + destruct (Z.eqb_spec (prepared_rounds (progress j) + 1) (rounds j)); cbn; [|split_and!; (done || lia)].
      unfold UINT64_MAX. split_and!; try (done || lia); [by rewrite Hatt, nth_nonce_0|intros x Hx; lia].
  - eexists. split; [done|]. split; [|split; [done|done]]. constructor; cbn; [done|split; [lia|by exists p]|].
    left. split; [done|]. apply (work_block_none _ (S (Z.to_nat (prepared_rounds (progress j))))); [done|lia].
Qed.

Lemma search_unit j : job_inv j -> j.(progress).(state) = LXMF_STAMP_SEARCHING ->
  exists j', job_unit j = Some j' /\ job_inv j' /\ j'.(progress).(state) <> LXMF_STAMP_CANCELLED /\ (j'.(progress).(result) = LXMF_ERR_PENDING -> units j' = units j + 1).
Proof.
  intros [(E1 & E2 & E3) (Hp & p & Hw & Ha) Hs] Est. rewrite Est in Hs. destruct Hs as (Hres & Hpr & Hatt & Hn & Hnone). unfold job_unit. rewrite Est, Hpr in *.
  destruct (sha_update_absorbed _ _ (nonce j) Ha) as (c' & -> & Ha'). cbn [mbind option_bind]. rewrite (proj1 (sha_final_absorbed _ _ Ha')).
  destruct (stamp_digest_total i r p (nonce j) Hw) as (d & Hd & -> & Hdl & Hdb). cbn [mbind option_bind]. destruct (Z.eqb_spec (attempts (progress j)) UINT64_MAX) as [Emax|Hmax].
  { eexists. split; [done|]. split; [|done]. constructor; cbn; [done|rewrite Hpr; split; [lia|by exists p]|]. right. by rewrite <-Emax. }
  rewrite E2, digest_meets_spec by done. cbn [mbind option_bind]. destruct (be_decode d <=? 2 ^ (256 - c)) eqn:Em.
  - rewrite digest_value_spec by done. cbn [mbind option_bind]. eexists. split; [done|]. split; [|done]. constructor; cbn; [done|split; [lia|by exists p]|].
    rewrite Z.add_simpl_r. split_and!; try (done || lia). unfold verdict. rewrite Hd. unfold meets. by rewrite Em.
  - rewrite Hn, next_nonce_nth. cbn [mbind option_bind]. eexists. split; [done|]. split; [|split; [done|unfold units; cbn; lia]].
    constructor; cbn; [done|split; [lia|by exists p]|]. split_and!; try (done || lia). intros x Hx. destruct (Z.eq_dec x (attempts (progress j))) as [->|]; [|apply Hnone; lia].
    unfold good_stamp. rewrite <-Hn, Hd. exact Em.
Qed.

Lemma job_unit_spec j : job_inv j -> j.(progress).(result) = LXMF_ERR_PENDING ->
  exists j', job_unit j = Some j' /\ job_inv j' /\ j'.(progress).(state) <> LXMF_STAMP_CANCELLED /\ (j'.(progress).(result) = LXMF_ERR_PENDING -> units j' = units j + 1).
Proof.
  intros Hj Hp. pose proof (ji_state j Hj) as Hs. rewrite Hp in Hs. destruct (state (progress j)) eqn:Est; [by apply prepare_unit|by apply search_unit|by destruct Hs|done|].
  by destruct Hs as [[? _]|[? _]].
Qed.

Lemma poll_loop_spec b j : job_inv j ->
  exists j', poll_loop b j = Some j' /\ job_inv j' /\ (j.(progress).(state) <> LXMF_STAMP_CANCELLED -> j'.(progress).(state) <> LXMF_STAMP_CANCELLED) /\
    (j'.(progress).(result) = LXMF_ERR_PENDING -> j.(progress).(result) = LXMF_ERR_PENDING /\ units j' = units j + Z.of_nat b).
Proof.
  revert j. induction b as [|b IH]; intros j Hj; cbn [poll_loop]. { exists j. split_and!; try done. intros; split; [done|lia]. }
  case_bool_decide as Hp; [|by exists j]. destruct (job_unit_spec j Hj Hp) as (j1 & -> & Hj1 & Hc1 & Hu). cbn [mbind option_bind].
  destruct (IH j1 Hj1) as (j2 & Hj2 & Hi2 & Hc2 & Hu2). exists j2. split_and!; [done|done|auto|]. intros Hr2. destruct (Hu2 Hr2) as [Hr1 ->]. rewrite (Hu Hr1). split; [done|lia].
Qed.

(** Operations on a job, and a sequence of them. *)
Inductive job_op : Type := Poll (budget : Z) | Cancel.

Definition job_step (op : job_op) (j : lxmf_stamp_job) : option lxmf_stamp_job :=
  match op with Poll b => x ← lxmf_stamp_job_poll (Some j) b; x.2 | Cancel => lxmf_stamp_job_cancel (Some j) end.

Fixpoint job_run (ops : list job_op) (j : lxmf_stamp_job) : option lxmf_stamp_job :=
  match ops with [] => Some j | op :: ops => j ← job_step op j; job_run ops j end.

Lemma job_poll_spec b j : job_inv j -> exists j', job_step (Poll b) j = Some j' /\ job_inv j' /\
  (j.(progress).(state) <> LXMF_STAMP_CANCELLED -> j'.(progress).(state) <> LXMF_STAMP_CANCELLED) /\
  (j'.(progress).(result) = LXMF_ERR_PENDING -> 0 <= b <= LXMF_STAMP_POLL_MAX_UNITS -> j.(progress).(result) = LXMF_ERR_PENDING /\ units j' = units j + b).
Proof.
  intros Hj. unfold job_step, lxmf_stamp_job_poll. destruct (Z.ltb_spec LXMF_STAMP_POLL_MAX_UNITS b).
  { exists j. split_and!; try done. intros; split; [done|lia]. }
  destruct (poll_loop_spec (Z.to_nat b) j Hj) as (j' & -> & Hj' & Hs & Hu). exists j'. cbn [mbind option_bind snd]. split_and!; try done.
  intros Hpend Hb. destruct (Hu Hpend) as [? ->]. split; [done|lia].
Qed.

Lemma job_step_inv op j : job_inv j -> exists j', job_step op j = Some j' /\ job_inv j'.
Proof.
  intros Hj. destruct op as [b|]; [destruct (job_poll_spec b j Hj) as (j' & ? & ? & _); by exists j'|]. cbn. case_bool_decide; eexists; (split; [done|]); [|done].
  destruct Hj as [H1 H2 H3]. by constructor.
Qed.

Lemma job_run_inv ops j : job_inv j -> exists j', job_run ops j = Some j' /\ job_inv j'.
Proof.
  revert j. induction ops as [|op ops IH]; intros j Hj; [by exists j|]. cbn [job_run]. destruct (job_step_inv op j Hj) as (j1 & -> & Hj1). by apply IH.
Qed.

(** Budgets of polls. *)
Definition budgets (bs : list Z) : Z := foldr Z.add 0 bs.

Lemma polls_spec bs j : job_inv j -> j.(progress).(state) <> LXMF_STAMP_CANCELLED -> Forall (λ b, 0 <= b <= LXMF_STAMP_POLL_MAX_UNITS) bs ->
  exists j', job_run (Poll <$> bs) j = Some j' /\ job_inv j' /\ j'.(progress).(state) <> LXMF_STAMP_CANCELLED /\
    (j'.(progress).(result) = LXMF_ERR_PENDING -> j.(progress).(result) = LXMF_ERR_PENDING /\ units j' = units j + budgets bs).
Proof.
  intros Hj Hs Hbs. revert j Hj Hs. induction Hbs as [|b bs Hb Hbs IH]; intros j Hj Hs; cbn [fmap list_fmap job_run budgets foldr].
  { exists j. split_and!; try done. intros; split; [done|lia]. }
  destruct (job_poll_spec b j Hj) as (j1 & -> & Hj1 & Hs1 & Hu1). cbn [mbind option_bind]. destruct (IH j1 Hj1 (Hs1 Hs)) as (j2 & H2 & Hj2 & Hs2 & Hu2).
  exists j2. split_and!; try done. intros Hr2. destruct (Hu2 Hr2) as [Hr1 ->]. destruct (Hu1 Hr1 Hb) as [? ->]. split; [done|unfold budgets; lia].
Qed.

Lemma good_stamp_verdict s : (exists wb, work_block i (Z.to_nat r) = Some wb) -> good_stamp i c r s = bool_decide ((verdict i c r s).1 = LXMF_OK).
Proof.
  intros [wb Hw]. destruct (stamp_digest_total i r wb s Hw) as (d & Hd & _). unfold good_stamp, verdict. rewrite Hd. by destruct (meets d c).
Qed.

(** A job that has done the work for the first good nonce is complete with it. *)
Lemma job_complete j k wb :
  job_inv j -> j.(progress).(state) <> LXMF_STAMP_CANCELLED -> work_block i (Z.to_nat r) = Some wb -> 0 <= k < UINT64_MAX ->
  good_stamp i c r (nth_nonce n0 k) = true -> none_before k -> (j.(progress).(result) = LXMF_ERR_PENDING -> r + k < units j) ->
  exists v, lxmf_stamp_job_result (Some j) = (LXMF_OK, Some (nth_nonce n0 k, v)) /\ verdict i c r (nth_nonce n0 k) = (LXMF_OK, Some v) /\
    j.(progress).(attempts) = k + 1.
Proof.
  intros [_ [Hp _] Hs] Hc' Hw Hk Hgood Hnone Hu. unfold units in Hu. destruct (state (progress j)) eqn:Est; try done.
  - destruct Hs as (Hr1 & Hlt & Ha & _). specialize (Hu Hr1). lia.
  - destruct Hs as (Hr1 & Hpr & Ha & _ & Hn). specialize (Hu Hr1). assert (good_stamp i c r (nth_nonce n0 k) = false) by (apply Hn; lia). congruence.
  - destruct Hs as (Hr1 & Ha & Hno & Hn & Hv). assert (good_stamp i c r (nonce j) = true) as Hg by (rewrite good_stamp_verdict, Hv by (by exists wb); done).
    assert (attempts (progress j) - 1 = k) as Ek.
    { destruct (Z.lt_trichotomy (attempts (progress j) - 1) k) as [?|[?|?]]; [|done|].
      - rewrite Hno in Hg. rewrite Hnone in Hg by lia. done.
      - rewrite Hn in Hgood by lia. done. }
    exists (value j). unfold lxmf_stamp_job_result. rewrite Hr1, bool_decide_true by done. rewrite <-Ek, <-Hno. split_and!; [done|done|lia].
  - destruct Hs as [[_ Hf]|[_ Hf]]; [congruence|]. rewrite Hf in Hgood by lia. done.
Qed.
End Job.

Lemma job_created calloc_ok i c r given seed j0 :
  length i = 32%nat -> in_width 8 c -> in_width 32 r ->
  lxmf_stamp_job_create_expanded calloc_ok (Some i) c r given seed = Some (LXMF_OK, Some j0) -> bytes_ok j0.(nonce) ->
  1 <= c < 256 /\ 0 < r <= LXMF_STAMP_WORKBLOCK_ROUNDS /\ length j0.(nonce) = 32%nat /\
  job_inv i c r j0.(nonce) j0 /\ j0.(progress).(state) = LXMF_STAMP_PREPARING /\ units j0 = 0.
Proof.
  intros Hi Hc Hr. unfold lxmf_stamp_job_create_expanded. destruct (_ || _) eqn:G; [done|]. apply orb_false_iff in G as [[G1%Z.eqb_neq G2%Z.eqb_neq]%orb_false_iff G3%Z.ltb_ge].
  unfold in_width in *. destruct (negb calloc_ok); [done|]. rewrite (memread_in i) by lia. cbn [mbind option_bind]. rewrite drop_0, take_ge by lia.
  assert (forall n, match given with Some n => n ← memread n 0 32; Some (Some n) | None => Some (rns_random_bytes seed 32) end = Some (Some n) -> length n = 32%nat) as Hgiven.
  { intros n. destruct given as [g|]; [|intros [= Hs]; by eapply random_length]. unfold memread. case_decide; [|done]. cbn [mbind option_bind]. intros [= <-].
    rewrite length_take, length_drop. lia. }
  destruct (match given with Some _ => _ | None => _ end) as [[n|]|]; [|done..]. cbn [mbind option_bind]. intros [= <-] Hb. specialize (Hgiven n eq_refl). cbn [nonce progress state].
  split_and!; try (done || lia). constructor; cbn; [done| |done || (split_and!; (done || lia))].
  split; [lia|]. exists []. split; [done|]. by apply absorbed_init.
Qed.

(** C11: a stamp a job returns is valid. After any sequence of polls, with any
    budgets, and of cancellations, the job is defined; a stamp it returns is one the
    validator accepts with the value the job reports, and it is the first from the
    initial nonce: every nonce before it is refused. A job that ends for want of a
    derived key ends where the validator does for every stamp. *)
Theorem stamp_job_sound calloc_ok i c r given seed j0 ops :
  length i = 32%nat -> in_width 8 c -> in_width 32 r ->
  lxmf_stamp_job_create_expanded calloc_ok (Some i) c r given seed = Some (LXMF_OK, Some j0) -> bytes_ok j0.(nonce) ->
  let validate s := lxmf_pow_stamp_validate_expanded (λ _, true) (Some i) c r (Some s) in
  exists j, job_run ops j0 = Some j /\
    (forall s v, lxmf_stamp_job_result (Some j) = (LXMF_OK, Some (s, v)) ->
       validate s = Some (LXMF_OK, Some v) /\ s = nth_nonce j0.(nonce) (j.(progress).(attempts) - 1) /\
       forall x, 0 <= x < j.(progress).(attempts) - 1 -> exists w, validate (nth_nonce j0.(nonce) x) = Some (LXMF_ERR_FORMAT, Some w)) /\
    ((lxmf_stamp_job_result (Some j)).1 = LXMF_ERR_CRYPTO -> forall s, length s = 32%nat -> validate s = Some (LXMF_ERR_CRYPTO, None)).
Proof.
  intros Hi Hc Hr Hj Hb validate. destruct (job_created _ _ _ _ _ _ _ Hi Hc Hr Hj Hb) as (Hc' & Hr' & Hn0 & Hinv & _). set (n0 := nonce j0) in *.
  destruct (job_run_inv i c r n0 Hi Hn0 Hb Hc' Hr' ops j0 Hinv) as (j & Hrun & [Hf Hpre Hs]). exists j. split; [done|]. unfold validate, lxmf_stamp_job_result.
  assert (forall s, length s = 32%nat -> lxmf_pow_stamp_validate_expanded (λ _, true) (Some i) c r (Some s) = Some (verdict i c r s)) as Hval
    by (intros; by apply validate_spec).
  destruct (state (progress j)).
  - destruct Hs as (-> & _). done.
  - destruct Hs as (-> & _). done.
  - destruct Hs as (-> & Ha & Hno & Hn & Hv). split; [|done]. rewrite bool_decide_true by done. intros s v [= <- <-]. rewrite Hval by (rewrite Hno; apply length_be_encode). split_and!; [by rewrite Hv|done|].
    intros x Hx. rewrite Hval by apply length_be_encode. specialize (Hn x Hx). unfold good_stamp in Hn. unfold verdict in *.
    unfold stamp_digest in *. destruct (work_block i (Z.to_nat r)) as [wb|]; [|done]. cbn [mbind option_bind] in *.
    destruct (sha256_total (wb ++ nth_nonce n0 x)) as (d & Hd & _). rewrite Hd in *. rewrite Hn. by eexists.
  - by rewrite Hs.
  - destruct Hs as [[-> Hw]|[-> _]]; [|done]. split; [done|]. intros _ s Hl. rewrite Hval by done. unfold verdict, stamp_digest. by rewrite Hw.
Qed.

(** C12: jobs complete. When the work block can be derived and the [k]-th nonce is the
    first that is good enough, polls of at least [rounds + k + 1] units in all, each
    within the limit, end with that nonce, its value and [k + 1] attempts. *)
Theorem stamp_job_completes calloc_ok i c r given seed j0 bs k wb :
  length i = 32%nat -> in_width 8 c -> in_width 32 r ->
  lxmf_stamp_job_create_expanded calloc_ok (Some i) c r given seed = Some (LXMF_OK, Some j0) -> bytes_ok j0.(nonce) ->
  work_block i (Z.to_nat r) = Some wb -> 0 <= k < UINT64_MAX ->
  good_stamp i c r (nth_nonce j0.(nonce) k) = true -> none_before i c r j0.(nonce) k ->
  Forall (λ b, 0 <= b <= LXMF_STAMP_POLL_MAX_UNITS) bs -> r + k + 1 <= budgets bs ->
  exists j v, job_run (Poll <$> bs) j0 = Some j /\ lxmf_stamp_job_result (Some j) = (LXMF_OK, Some (nth_nonce j0.(nonce) k, v)) /\
    verdict i c r (nth_nonce j0.(nonce) k) = (LXMF_OK, Some v) /\ j.(progress).(attempts) = k + 1.
Proof.
  intros Hi Hc Hr Hj Hb Hw Hk Hg Hn Hbs Hsum. destruct (job_created _ _ _ _ _ _ _ Hi Hc Hr Hj Hb) as (Hc' & Hr' & Hn0 & Hinv & Hst & Hu).
  destruct (polls_spec i c r (nonce j0) Hi Hn0 Hb Hc' Hr' bs j0 Hinv ltac:(by rewrite Hst) Hbs) as (j & Hrun & Hj' & Hs & Hun). exists j.
  destruct (job_complete i c r (nonce j0) Hi Hn0 j k wb Hj' Hs Hw Hk Hg Hn) as (v & Hres & Hv & Ha).
  { intros Hp. destruct (Hun Hp) as [_ ->]. lia. }
  by exists v.
Qed.

(** *** The generator *)

Section Generator.
Context {E : Type} (callback : option (E -> Z -> bool * E)).

(** The callback never asks to stop. *)
Definition goes_on : Prop := match callback with Some f => forall e n, (f e n).1 = true | None => True end.

Lemma goes_on_cancelled e n : goes_on -> exists e', cancelled callback e n = (false, e').
Proof.
  intros Hg. unfold cancelled. unfold goes_on in Hg. destruct callback as [f|]; [|by exists e]. specialize (Hg e n). destruct (f e n) as [go e']. cbn in Hg. subst go. by exists e'.
Qed.

(** What the loop has done when it ends: after [tries] attempts it holds the first
    good stamp, or the callback stopped it. *)
Definition generated (i : list Z) (c r : Z) (n0 : list Z) (st : lxmf_status) (s : list Z) (v : option Z) (tries : Z) : Prop :=
  st = LXMF_OK /\ s = nth_nonce n0 (tries - 1) /\ none_before i c r n0 (tries - 1) /\ verdict i c r s = (LXMF_OK, v) \/
  st = LXMF_ERR_CANCELLED /\ v = None /\ none_before i c r n0 tries /\ ~ goes_on.

Lemma none_before_next i c r n0 k : none_before i c r n0 k -> good_stamp i c r (nth_nonce n0 k) = false -> none_before i c r n0 (k + 1).
Proof. intros Hn Hk x Hx. destruct (Z.eq_dec x k) as [->|]; [done|]. apply Hn. lia. Qed.

Lemma generate_loop_spec i c r n0 wb fuel a e :
  r = LXMF_STAMP_WORKBLOCK_ROUNDS -> length i = 32%nat -> 1 <= c < 256 -> work_block i (Z.to_nat r) = Some wb -> 0 <= a -> a + Z.of_nat fuel < 2 ^ 64 ->
  none_before i c r n0 a ->
  exists x, generate_loop callback fuel wb c (nth_nonce n0 a) a e = Some x /\
    match x with
    | None => none_before i c r n0 (a + Z.of_nat fuel)
    | Some (st, s, v, tries, _) => a < tries <= a + Z.of_nat fuel /\ generated i c r n0 st s v tries
    end.
Proof.
  intros Hr Hi Hc Hw. assert (0 <= r) as Hr0 by (by rewrite Hr). revert a e. induction fuel as [|fuel IH]; intros a e Ha Hf Hn; cbn [generate_loop].
  { exists None. split; [done|]. by rewrite Z.add_0_r. }
  destruct (hash_work_stamp_spec i r wb (nth_nonce n0 a) Hi Hr0 Hw ltac:(apply length_be_encode)) as [Hh _].
  destruct (stamp_digest_total i r wb (nth_nonce n0 a) Hw) as (d & Hd & _ & Hdl & Hdb). rewrite <-Hr, Hh, Hd, (bind_Some_eq _ _ d eq_refl).
  rewrite digest_meets_spec, (bind_Some_eq _ _ _ eq_refl), (wrap_small 64) by (done || unfold in_width; lia).
  assert (good_stamp i c r (nth_nonce n0 a) = (be_decode d <=? 2 ^ (256 - c))) as Hgs by (unfold good_stamp; by rewrite Hd).
  destruct (be_decode d <=? 2 ^ (256 - c)) eqn:Em.
  - rewrite digest_value_spec by done. eexists. split; [done|]. split; [lia|]. left. rewrite Z.add_simpl_r. split_and!; [done..|].
    unfold verdict. rewrite Hd. unfold meets. by rewrite Em.
  - rewrite next_nonce_nth, (bind_Some_eq _ _ _ eq_refl). pose proof (none_before_next _ _ _ _ _ Hn Hgs) as Hn1.
    destruct (if Z.land (a + 1) 1023 =? 0 then cancelled callback e (a + 1) else (false, e)) as [stop e'] eqn:Ec. destruct stop.
    + eexists. split; [done|]. split; [lia|]. right. split_and!; [done..|]. intros Hgo. destruct (_ =? 0); [|done]. destruct (goes_on_cancelled e (a + 1) Hgo). congruence.
    + destruct (IH (a + 1) e' ltac:(lia) ltac:(lia) Hn1) as (x & Hx & Hp). exists x. split; [done|].
      destruct x as [[[[[st s] v] tries] e2]|]; [destruct Hp; split; [lia|done]|by rewrite Nat2Z.inj_succ, <-Z.add_1_l, Z.add_assoc].
Qed.

(** The generator finds the first good stamp. On any work within 2^64 attempts it
    is defined; a stamp it returns is the first from its random nonce that the
    validator accepts, with the value and the number of attempts it reports. It
    stops before only when the callback asks for it or the work block cannot be
    derived, and is still searching only while no nonce so far was good enough. *)
Theorem stamp_generate_first i c old seed n0 fuel e :
  let r := LXMF_STAMP_WORKBLOCK_ROUNDS in
  length i = 32%nat -> in_width 8 c -> c <> 0 -> rns_random_bytes seed 32 = Some n0 -> Z.of_nat fuel < 2 ^ 64 ->
  exists x, lxmf_pow_stamp_generate (λ _, true) callback fuel (Some i) c e (Some old) seed = Some x /\
    match x with
    | None => none_before i c r n0 (Z.of_nat fuel)
    | Some (LXMF_OK, Some s, v, tries, _) => 0 < tries <= Z.of_nat fuel /\ s = nth_nonce n0 (tries - 1) /\ none_before i c r n0 (tries - 1) /\
        lxmf_pow_stamp_validate (λ _, true) (Some i) c (Some s) = Some (LXMF_OK, v)
    | Some (LXMF_ERR_CANCELLED, _, None, tries, _) => none_before i c r n0 tries /\ ~ goes_on
    | Some (LXMF_ERR_CRYPTO, _, None, _, _) => work_block i (Z.to_nat r) = None
    | Some _ => False
    end.
Proof.
  intros r Hi Hc Hc0 Hs Hf. pose proof (random_bytes _ _ _ Hs) as Hb. unfold in_width in Hc. assert (0 < r <= LXMF_STAMP_WORKBLOCK_ROUNDS) as Hr by done.
  assert (r = LXMF_STAMP_WORKBLOCK_ROUNDS) as Er by done. clearbody r. unfold lxmf_pow_stamp_generate. rewrite (proj2 (Z.ltb_ge _ _)) by lia.
  destruct (cancelled callback e 0) as [stop e1] eqn:Ec. destruct stop.
  { eexists. split; [done|]. split; [intros x Hx; lia|]. intros Hgo. destruct (goes_on_cancelled e 0 Hgo). congruence. }
  destruct (stamp_workblock_spec (λ _, true) i r Hi Hr (λ _, eq_refl)) as [x Hx]. rewrite <-Er, (bind_Some_eq _ _ _ Hx). clear Hx.
  destruct (work_block i (Z.to_nat r)) as [wb|] eqn:Hw; [|by eexists]. rewrite bool_decide_true by done. cbn [negb]. rewrite Hs.
  destruct (generate_loop_spec i c r n0 wb fuel 0 e1 Er Hi ltac:(lia) Hw ltac:(lia) ltac:(lia) ltac:(intros y Hy; lia)) as (y & Hl & Hy).
  rewrite nth_nonce_0 in Hl by (done || by eapply random_length). rewrite (bind_Some_eq _ _ _ Hl). eexists. split; [done|].
  destruct y as [[[[[st s] v] tries] e2]|]; [|done]. cbn [mbind option_bind]. destruct Hy as [Ht [(-> & Es & Hn & Hv)|(-> & -> & Hn & Hg)]]; [|done]. split_and!; [lia|lia|done|done|].
  unfold lxmf_pow_stamp_validate. rewrite <-Er, validate_spec by (done || lia || (rewrite Es; apply length_be_encode)). by rewrite Hv.
Qed.
End Generator.

(** *** Cost and value *)

(** C36: what a cost asks. The validator answers by the hash of the work block and the
    stamp, read as a number of 256 bits: accepted when it is at most
    [2^(256 - cost)], with its leading zero bits as the value. So the value of an
    accepted stamp is at least the cost less one; only the hash that is zero, with
    256 leading zeros, has a value of 0 in a byte. *)
Theorem stamp_cost_spec malloc_ok i c r s wb :
  length i = 32%nat -> length s = 32%nat -> in_width 8 c -> c <> 0 -> 0 < r <= LXMF_STAMP_WORKBLOCK_ROUNDS -> (forall n, malloc_ok n = true) ->
  work_block i (Z.to_nat r) = Some wb ->
  exists d st v, sha256 (wb ++ s) = Some d /\ lxmf_pow_stamp_validate_expanded malloc_ok (Some i) c r (Some s) = Some (st, Some v) /\
    (st = LXMF_OK <-> be_decode d <= 2 ^ (256 - c)) /\ (st = LXMF_OK \/ st = LXMF_ERR_FORMAT) /\
    (be_decode d = 0 -> v = 0) /\ (0 < be_decode d -> 2 ^ (255 - v) <= be_decode d < 2 ^ (256 - v) /\ (st = LXMF_OK -> c - 1 <= v)).
Proof.
  intros Hi Hs Hc Hc0 Hr Hm Hw. unfold in_width in Hc. destruct (stamp_digest_total i r wb s Hw) as (d & Hd & Hsha & Hdl & Hdb). exists d.
  rewrite validate_spec by (done || lia). unfold verdict. rewrite Hd. eexists _, _. split; [done|]. split; [done|]. unfold meets, worth, leading_zeros.
  split; [destruct (Z.leb_spec (be_decode d) (2 ^ (256 - c))); split; (done || intros; lia)|]. split; [destruct (_ <=? _); tauto|].
  pose proof (be_decode_bounds d Hdb) as Hbd. rewrite Hdl in Hbd. split; [by intros ->|]. intros Hpos. rewrite (proj2 (Z.eqb_neq _ _)) by lia.
  pose proof (Z.log2_spec (be_decode d) Hpos) as Hlog. set (L := Z.log2 (be_decode d)) in *. change (Z.of_nat (8 * 32)) with 256.
  replace (255 - (256 - 1 - L)) with L by lia. replace (256 - (256 - 1 - L)) with (Z.succ L) by lia. split; [done|].
  destruct (Z.leb_spec (be_decode d) (2 ^ (256 - c))) as [Hle|]; [|done]. intros _.
  assert (L <= 256 - c); [|lia]. unfold L. rewrite <-(Z.log2_pow2 (256 - c)) by lia. apply Z.log2_le_mono. done.
Qed.

End Specification.

(** ** Ticket stamps *)

(** The loop that collects the differing bits. *)
Lemma difference_spec a b n : (n <= length a)%nat -> (n <= length b)%nat -> bytes_ok a -> bytes_ok b ->
  exists x, foldl (λ acc i, difference ← acc; w ← load a i; s ← load b i; Some (Z.lor difference (wrap8 (Z.lxor w s)))) (Some 0) (seq 0 n) = Some x /\
    is_byte x /\ (x = 0 <-> take n a = take n b).
Proof.
  intros Ha Hb Hba Hbb. induction n as [|n IH]; [exists 0; split_and!; (done || unfold in_width; lia)|]. destruct IH as (x & Hx & Hbx & Hiff); [lia..|].
  rewrite seq_S, foldl_app, Hx. cbn [foldl mbind option_bind Nat.add]. destruct (lookup_lt_is_Some_2 a n) as [u Hu]; [lia|]. destruct (lookup_lt_is_Some_2 b n) as [v Hv]; [lia|].
  pose proof (Forall_lookup_1 _ _ _ _ Hba Hu) as Hub. pose proof (Forall_lookup_1 _ _ _ _ Hbb Hv) as Hvb.
  unfold load. rewrite Hu, Hv. cbn [mbind option_bind]. eexists. split; [done|]. destruct (Identity.byte_lxor_spec u v Hub Hvb) as [Hbuv E]. rewrite (wrap_small 8) by done.
  destruct (Identity.byte_lor_spec x _ Hbx Hbuv) as [Hor Eor]. split; [done|]. rewrite Eor, E, Hiff, (take_S_r _ _ _ Hu), (take_S_r _ _ _ Hv). split.
  - by intros [-> ->].
  - intros Eq. by apply app_inj_tail in Eq.
Qed.

(** Ticket stamps. The stamp of a ticket is the first half of the hash of the
    ticket and the message; the check accepts that stamp and no other. *)
Lemma ticket_stamp_valid_spec stamp ticket id :
  length ticket = 16%nat -> length id = 32%nat -> length stamp = 16%nat -> bytes_ok stamp ->
  exists want, lxmf_ticket_stamp ticket id = Some want /\ length want = 16%nat /\ bytes_ok want /\ (d ← sha256 (ticket ++ id); Some (take 16 d)) = Some want /\
    lxmf_ticket_stamp_valid stamp ticket id = Some (bool_decide (stamp = want)).
Proof.
  intros Ht Hi Hs Hb. destruct (sha256_total (ticket ++ id)) as (d & Hd & Hdl & Hdb). exists (take 16 d). rewrite length_take, Hdl, Hd.
  assert (lxmf_ticket_stamp ticket id = Some (take 16 d)) as Hw.
  { unfold lxmf_ticket_stamp. rewrite (memread_in ticket), (memread_in id) by lia. cbn [mbind option_bind]. rewrite !drop_0, !take_ge by lia.
    destruct (sha_pieces_spec stack_block [ticket; id] eq_refl) as [-> _]. cbn [concat]. rewrite app_nil_r, Hd. cbn [mbind option_bind]. by rewrite memread_in, drop_0 by lia. }
  split_and!; [done|done|by apply Forall_take|done|]. unfold lxmf_ticket_stamp_valid. rewrite Hw. cbn [mbind option_bind]. set (want := take 16 d) in *.
  assert (length want = 16%nat) as Hl by (unfold want; rewrite length_take; lia). assert (bytes_ok want) as Hbw by (by apply Forall_take).
  destruct (difference_spec want stamp 16) as (x & -> & _ & Hx); [lia..|done|done|]. rewrite !take_ge in Hx by lia. cbn [mbind option_bind]. f_equal.
  case_bool_decide as E; [apply Z.eqb_eq; apply Hx; done|apply Z.eqb_neq; intros ->; by apply E; symmetry; apply Hx].
Qed.

(** *** A concrete job *)

Definition sample_id : list Z := replicate 32 5.
Definition sample_nonce : list Z := replicate 31 0 ++ [1].

Definition sample_job : lxmf_stamp_job :=
  {| id := sample_id; nonce := sample_nonce; cost := 2; value := 0; rounds := 1; prefix := sha_init (replicate 64 0);
     progress := {| state := LXMF_STAMP_PREPARING; prepared_rounds := 0; attempts := 0; result := LXMF_ERR_PENDING |} |}.

Lemma stamp_job_sound_witness :
  exists j s v, job_run [Poll 1; Poll 64; Cancel] sample_job = Some j /\ lxmf_stamp_job_result (Some j) = (LXMF_OK, Some (s, v)) /\
    lxmf_pow_stamp_validate_expanded (λ _, true) (Some sample_id) 2 1 (Some s) = Some (LXMF_OK, Some v).
Proof.
  destruct (stamp_job_sound true sample_id 2 1 (Some sample_nonce) [] sample_job [Poll 1; Poll 64; Cancel]) as (j & Hrun & Hok & _).
  - reflexivity.
  - vm_compute. split; [discriminate|reflexivity].
  - vm_compute. split; [discriminate|reflexivity].
  - reflexivity.
  - literal_bytes.
  - assert (exists s v, lxmf_stamp_job_result (Some j) = (LXMF_OK, Some (s, v))) as (s & v & Hres).
    { vm_compute in Hrun. injection Hrun as <-. vm_compute. eexists _, _. reflexivity. }
    exists j, s, v. split; [exact Hrun|]. split; [exact Hres|]. exact (proj1 (Hok s v Hres)).
Defined.

Lemma stamp_job_completes_witness :
  exists j v, job_run (Poll <$> [2; 1; 1]) sample_job = Some j /\ lxmf_stamp_job_result (Some j) = (LXMF_OK, Some (nth_nonce sample_nonce 2, v)).
Proof.
  destruct (stamp_job_completes true sample_id 2 1 (Some sample_nonce) [] sample_job [2; 1; 1] 2 (default [] (work_block sample_id 1)))
    as (j & v & Hrun & Hres & _).
  - reflexivity.
  - vm_compute. split; [discriminate|reflexivity].
  - vm_compute. split; [discriminate|reflexivity].
  - reflexivity.
  - literal_bytes.
  - vm_compute. reflexivity.
  - unfold UINT64_MAX. lia.
  - vm_compute. reflexivity.
  - intros x Hx. assert (x = 0 \/ x = 1) as [->| ->] by lia; vm_compute; reflexivity.
  - repeat constructor; vm_compute; discriminate.
  - vm_compute. discriminate.
  - exists j, v. split; [exact Hrun|exact Hres].
Defined.

Lemma stamp_generate_first_witness :
  exists x, lxmf_pow_stamp_generate (λ _, true) (E := unit) None 5 (Some sample_id) 8 tt (Some sample_nonce) [3] = Some x.
Proof.
  destruct (stamp_generate_first (E := unit) None sample_id 8 sample_nonce [3] (default [] (rns_random_bytes [3] 32)) 5 tt) as (x & Hx & _).
  - reflexivity.
  - vm_compute. split; [discriminate|reflexivity].
  - discriminate.
  - vm_compute. reflexivity.
  - reflexivity.
  - exists x. exact Hx.
Defined.

Lemma stamp_cost_spec_witness :
  exists st v, lxmf_pow_stamp_validate_expanded (λ _, true) (Some sample_id) 2 1 (Some sample_nonce) = Some (st, Some v).
Proof.
  destruct (stamp_cost_spec (λ _, true) sample_id 2 1 sample_nonce (default [] (work_block sample_id 1))) as (d & st & v & _ & Hv & _).
  - reflexivity.
  - reflexivity.
  - vm_compute. split; [discriminate|reflexivity].
  - discriminate.
  - vm_compute. split; [reflexivity|discriminate].
  - reflexivity.
  - vm_compute. reflexivity.
  - exists st, v. exact Hv.
Defined.

End Stamp.
