(* ===== verification/Files.v ===== *)
(** * Files that are replaced as a whole

    The part of the file system that the stores on disk use: a file and the temporary
    file beside it, and for each attempt to write or read what the system calls
    report. [rename] takes effect as a whole or not at all. The sequence of calls is
    the one [lxmf/tickets.c] and [identity/ratchet_store.c] share. *)

From Stdlib Require Import ZArith Lia.
From S2P Require Import Prelude.

Module Files.

(** The file of a store, and the temporary file beside it. *)
Record disk : Type := { file : option (list Z); temporary : option (list Z) }.

(** What the calls that write a file report, and what is left of the temporary file
    when one of them fails. *)
Record write_io : Type := {
  w_open : bool; w_write : bool; w_flush : bool; w_sync : bool; w_close : bool; w_rename : bool; w_left : option (list Z)
}.

(** What the calls that read a file report: whether it can be opened if it is there
    ([fopen] fails with [ENOENT] for a missing file, and with another error when
    [r_open] is false, whether the file is there or not), and the bytes that can be
    read before an error. *)
Record read_io : Type := { r_open : bool; r_limit : nat; r_close : bool }.

(** Write the temporary file, flush, synchronise and close it, rename it; remove it
    when a step failed. *)
Definition replace_file (io : write_io) (bytes : list Z) (d : disk) : bool * disk :=
  if negb io.(w_open) then (false, d)
  else
    let ok := io.(w_write) && io.(w_flush) && io.(w_sync) in
    let ok := if negb io.(w_close) && ok then false else ok in
    if ok && io.(w_rename) then (true, {| file := Some bytes; temporary := None |})
    else (false, {| file := d.(file); temporary := io.(w_left) |}).

Lemma replace_file_spec io bytes d ok d' :
  replace_file io bytes d = (ok, d') -> if ok then d'.(file) = Some bytes else d'.(file) = d.(file).
Proof. unfold replace_file. intros; repeat case_match; simplify_eq; done. Qed.

(** Every call succeeds. *)
Definition all_written : write_io :=
  {| w_open := true; w_write := true; w_flush := true; w_sync := true; w_close := true; w_rename := true; w_left := None |}.

Definition all_read (n : nat) : read_io := {| r_open := true; r_limit := n; r_close := true |}.

End Files.
