(* ===== verification/Tickets.v ===== *)
(** * Ticket stores

    [lxmf/tickets.c]: the tickets a node has issued and received, kept in memory and
    in a file that every change replaces ([Files]). Each attempt to write has an
    outcome for every system call, so the theorems hold whatever fails.

    The static byte helpers of [tickets.c] are those of [path_store.c], text for text,
    and are taken from [PathStore]. *)

From Stdlib Require Import ZArith Lia.
From S2P Require Import Prelude Crypto StorageRecord PathStore Sha256 Lxmf Stamp Files.

Module Tickets.
Import Files Lxmf.

(** ** Data *)

Definition LXMF_TICKET_EXPIRY_SECONDS : Z := 21 * 24 * 60 * 60.
Definition LXMF_TICKET_GRACE_SECONDS : Z := 5 * 24 * 60 * 60.
Definition LXMF_TICKET_RENEW_SECONDS : Z := 14 * 24 * 60 * 60.
Definition LXMF_TICKET_INTERVAL_SECONDS : Z := 24 * 60 * 60.
Definition LXMF_TICKET_STORE_MAX_ENTRIES : nat := 1024.
Definition LXMF_TICKET_STORE_PATH_MAX : nat := 1023.
Definition TICKET_FILE_HEADER : nat := 16.
Definition TICKET_FILE_RECORD : nat := 48.
Definition TICKET_FILE_VERSION : Z := 1.

(** [enum ticket_kind]. *)
Definition TICKET_OUTBOUND : Z := 1.
Definition TICKET_INBOUND : Z := 2.
Definition TICKET_LAST_DELIVERY : Z := 3.

Record stored_ticket : Type := { kind : Z; peer : list Z; time : Z; ticket : list Z }.

(** The array of entries, of which the first [count] are in use. *)
Record lxmf_ticket_store : Type := { path : list Z; entries : list stored_ticket; count : nat }.

Record lxmf_ticket_entry : Type := { expires_at : Z; entry_ticket : list Z }.

Definition zero_entry : stored_ticket := {| kind := 0; peer := replicate 16 0; time := 0; ticket := replicate 16 0 |}.

Definition put32 : Z -> list Z := PathStore.put32.
Definition get32 : list Z -> nat -> option Z := PathStore.get32.
Definition put64 : Z -> list Z := PathStore.put64.
Definition get64 : list Z -> nat -> option Z := PathStore.get64.
Definition crc32_bytes : list Z -> Z := PathStore.crc32_bytes.

Definition valid_kind (k : Z) : bool := (TICKET_OUTBOUND <=? k) && (k <=? TICKET_LAST_DELIVERY).

Definition same_peer (e : stored_ticket) (k : Z) (p : list Z) : bool := (e.(kind) =? k) && memeq e.(peer) p.

(** ** Saving *)

(** The record of an entry. *)
Definition put_record (e : stored_ticket) : option (list Z) :=
  record ← store (replicate TICKET_FILE_RECORD 0) 0 e.(kind);
  record ← memcpy record 8 e.(peer);
  record ← memcpy record 24 (put64 e.(time));
  memcpy record 32 e.(ticket).

(** The loop from entry [i] on, [todo] entries. *)
Fixpoint put_payload (s : lxmf_ticket_store) (todo i : nat) (payload : list Z) : option (list Z) :=
  match todo with
  | O => Some payload
  | S todo =>
      e ← s.(entries) !! i;
      record ← put_record e;
      payload ← memcpy payload (i * TICKET_FILE_RECORD) record;
      put_payload s todo (S i) payload
  end.

Definition save (io : write_io) (s : lxmf_ticket_store) (d : disk) : option (lxmf_status * disk) :=
  payload ← put_payload s s.(count) 0 (replicate (LXMF_TICKET_STORE_MAX_ENTRIES * TICKET_FILE_RECORD) 0);
  payload ← memread payload 0 (s.(count) * TICKET_FILE_RECORD);
  header ← memcpy [76; 88; 84; 75; TICKET_FILE_VERSION; 0; 0; 0; 0; 0; 0; 0; 0; 0; 0; 0] 8 (put32 (Z.of_nat s.(count)));
  header ← memcpy header 12 (put32 (crc32_bytes payload));
  if (LXMF_TICKET_STORE_PATH_MAX + 5 <=? length s.(path) + 4)%nat then Some (LXMF_ERR_BOUNDS, d)
  else
    let '(ok, d) := replace_file io (header ++ payload) d in
    Some (if ok : bool then LXMF_OK else LXMF_ERR_CRYPTO, d).

(** ** Loading *)

(** The loop over the records; [Some None] when a kind is not valid. *)
Fixpoint get_records (payload : list Z) (todo i : nat) (es : list stored_ticket) : option (option (list stored_ticket)) :=
  match todo with
  | O => Some (Some es)
  | S todo =>
      let record := drop (i * TICKET_FILE_RECORD) payload in
      k ← load record 0;
      if negb (valid_kind k) then Some None
      else
        p ← memread record 8 16; t ← get64 record 24; x ← memread record 32 16;
        if decide (i < length es)%nat
        then get_records payload todo (S i) (<[i := {| kind := k; peer := p; time := t; ticket := x |}]> es)
        else None
  end.

(** A file opened for reading, as the bytes that can be read. *)
Definition load_stream (bytes : list Z) (s : lxmf_ticket_store) : option (lxmf_status * lxmf_ticket_store) :=
  if (length bytes <? TICKET_FILE_HEADER)%nat then Some (LXMF_ERR_FORMAT, s)
  else
    magic ← memread bytes 0 4; version ← load bytes 4;
    if negb (memeq magic [76; 88; 84; 75]) || negb (version =? TICKET_FILE_VERSION) then Some (LXMF_ERR_FORMAT, s)
    else
      n ← get32 bytes 8;
      if Z.of_nat LXMF_TICKET_STORE_MAX_ENTRIES <? n then Some (LXMF_ERR_FORMAT, s)
      else
        let n := Z.to_nat n in
        let payload_length := (n * TICKET_FILE_RECORD)%nat in
        let rest := drop TICKET_FILE_HEADER bytes in
        if negb (payload_length =? 0)%nat && (length rest <? payload_length)%nat then Some (LXMF_ERR_FORMAT, s)
        else
          payload ← memread rest 0 payload_length;
          crc ← get32 bytes 12;
          if (payload_length <? length rest)%nat || negb (crc32_bytes payload =? crc) then Some (LXMF_ERR_FORMAT, s)
          else
            x ← get_records payload n 0 s.(entries);
            Some (match x with
                  | None => (LXMF_ERR_FORMAT, s)
                  | Some es => (LXMF_OK, {| path := s.(path); entries := es; count := n |})
                  end).

(** The store as it is left when the status is [LXMF_OK]. *)
Definition load (io : read_io) (s : lxmf_ticket_store) (d : disk) : option (lxmf_status * lxmf_ticket_store) :=
  if negb io.(r_open) then Some (LXMF_ERR_CRYPTO, s)
  else
    match d.(file) with
    | None => Some (LXMF_OK, s)
    | Some bytes =>
        x ← load_stream (take io.(r_limit) bytes) s;
        let '(st, s) := x in
        Some (if negb io.(r_close) && bool_decide (st = LXMF_OK) then LXMF_ERR_CRYPTO else st, s)
    end.

Definition lxmf_ticket_store_open (calloc_ok : bool) (name : option (list Z)) (io : read_io) (d : disk)
    : option (lxmf_status * option lxmf_ticket_store) :=
  match name with
  | None | Some [] => Some (LXMF_ERR_ARGUMENT, None)
  | Some p =>
      if (LXMF_TICKET_STORE_PATH_MAX <? length p)%nat then Some (LXMF_ERR_ARGUMENT, None)
      else if negb calloc_ok then Some (LXMF_ERR_BOUNDS, None)
      else
        x ← load io {| path := p; entries := replicate LXMF_TICKET_STORE_MAX_ENTRIES zero_entry; count := 0 |} d;
        let '(st, s) := x in
        Some (st, if bool_decide (st = LXMF_OK) then Some s else None)
  end.

(** ** The entries *)

(** The index of the first of [todo] entries from [i] on that is of a kind and a
    peer. *)
Fixpoint find_from (s : lxmf_ticket_store) (k : Z) (p : list Z) (todo i : nat) : option (option nat) :=
  match todo with
  | O => Some None
  | S todo => e ← s.(entries) !! i; if same_peer e k p then Some (Some i) else find_from s k p todo (S i)
  end.

Definition find_one (s : lxmf_ticket_store) (k : Z) (p : list Z) : option (option nat) := find_from s k p s.(count) 0.

Definition set_entry (s : lxmf_ticket_store) (i : nat) (e : stored_ticket) : option lxmf_ticket_store :=
  if decide (i < length s.(entries))%nat then Some {| path := s.(path); entries := <[i := e]> s.(entries); count := s.(count) |} else None.

Definition set_count (n : nat) (s : lxmf_ticket_store) : lxmf_ticket_store := {| path := s.(path); entries := s.(entries); count := n |}.

(** The index of the new entry; [Some None] when the store is full. *)
Definition append_entry (s : lxmf_ticket_store) : option (option (nat * lxmf_ticket_store)) :=
  if (s.(count) =? LXMF_TICKET_STORE_MAX_ENTRIES)%nat then Some None
  else s' ← set_entry s s.(count) zero_entry; Some (Some (s.(count), set_count (S s.(count)) s')).

Definition remove_at (s : lxmf_ticket_store) (i : nat) : option lxmf_ticket_store :=
  let n := s.(count) in
  s' ← (if (i + 1 <? n)%nat then
          if decide (n <= length s.(entries))%nat
          then Some {| path := s.(path); entries := take i s.(entries) ++ take (n - i - 1) (drop (i + 1) s.(entries)) ++ drop (n - 1) s.(entries); count := n |}
          else None
        else Some s);
  set_entry (set_count (n - 1) s') (n - 1) zero_entry.

(** ** The operations *)

Definition entry_of (e : stored_ticket) : lxmf_ticket_entry := {| expires_at := e.(time); entry_ticket := e.(ticket) |}.

(** The loop of [lxmf_ticket_store_issue] that looks for a ticket to use again. *)
Fixpoint find_reusable (s : lxmf_ticket_store) (p : list Z) (now : Z) (todo i : nat) : option (option lxmf_ticket_entry) :=
  match todo with
  | O => Some None
  | S todo =>
      e ← s.(entries) !! i;
      if same_peer e TICKET_INBOUND p && (now <? e.(time)) && (LXMF_TICKET_RENEW_SECONDS <? e.(time) - now) then Some (Some (entry_of e))
      else find_reusable s p now todo (S i)
  end.

Section WithCrypto.
Context `{Crypto}.

(** The status, the store, the disk, the ticket and whether it was created; [seed]
    for the random ticket. *)
Definition lxmf_ticket_store_issue (s : lxmf_ticket_store) (p : list Z) (now : Z) (seed : list Z) (io : write_io) (d : disk)
    : option (lxmf_status * lxmf_ticket_store * disk * option lxmf_ticket_entry * bool) :=
  last ← find_one s TICKET_LAST_DELIVERY p;
  recent ← (match last with
            | None => Some false
            | Some i => e ← s.(entries) !! i; Some ((now <? e.(time)) || (now - e.(time) <? LXMF_TICKET_INTERVAL_SECONDS))
            end);
  if recent : bool then Some (LXMF_ERR_PENDING, s, d, None, false)
  else
    found ← find_reusable s p now s.(count) 0;
    match found with
    | Some t => Some (LXMF_OK, s, d, Some t, false)
    | None =>
        x ← append_entry s;
        match x with
        | None => Some (LXMF_ERR_BOUNDS, s, d, None, false)
        | Some (i, s) =>
            if UINT64_MAX - now <? LXMF_TICKET_EXPIRY_SECONDS then
              s ← set_entry s i {| kind := TICKET_INBOUND; peer := p; time := 0; ticket := replicate 16 0 |};
              Some (LXMF_ERR_BOUNDS, set_count (s.(count) - 1) s, d, None, false)
            else
              let until := now + LXMF_TICKET_EXPIRY_SECONDS in
              match rns_random_bytes seed LXMF_TICKET_LENGTH with
              | None =>
                  s ← set_entry s i {| kind := TICKET_INBOUND; peer := p; time := until; ticket := replicate 16 0 |};
                  Some (LXMF_ERR_CRYPTO, set_count (s.(count) - 1) s, d, None, false)
              | Some t =>
                  s ← set_entry s i {| kind := TICKET_INBOUND; peer := p; time := until; ticket := t |};
                  x ← save io s d;
                  let '(st, d) := x in
                  if negb (bool_decide (st = LXMF_OK)) then
                    s ← set_entry (set_count (s.(count) - 1) s) (s.(count) - 1) zero_entry; Some (st, s, d, None, false)
                  else Some (LXMF_OK, s, d, Some {| expires_at := until; entry_ticket := t |}, true)
              end
        end
    end.

(** The change [lxmf_ticket_store_remember_outbound] and
    [lxmf_ticket_store_mark_delivered] make: the entry of a kind and a peer, or a new
    one, is written and the store saved; on an error the entry is as before. *)
Definition put_entry (s : lxmf_ticket_store) (e : stored_ticket) (io : write_io) (d : disk) : option (lxmf_status * lxmf_ticket_store * disk) :=
  found ← find_one s e.(kind) e.(peer);
  x ← (match found with
       | Some i => Some (Some (i, s, false))
       | None => x ← append_entry s; Some (x ≫= λ '(i, s), Some (i, s, true))
       end);
  match x with
  | None => Some (LXMF_ERR_BOUNDS, s, d)
  | Some (i, s, appended) =>
      previous ← s.(entries) !! i;
      s ← set_entry s i e;
      x ← save io s d;
      let '(st, d) := x in
      if bool_decide (st = LXMF_OK) then Some (st, s, d)
      else if appended : bool then Some (st, set_count (s.(count) - 1) s, d)
      else s ← set_entry s i previous; Some (st, s, d)
  end.

Definition lxmf_ticket_store_remember_outbound (s : lxmf_ticket_store) (p : list Z) (t : lxmf_ticket_entry) (now : Z) (io : write_io) (d : disk)
    : option (lxmf_status * lxmf_ticket_store * disk) :=
  if t.(expires_at) <=? now then Some (LXMF_ERR_ARGUMENT, s, d)
  else put_entry s {| kind := TICKET_OUTBOUND; peer := p; time := t.(expires_at); ticket := t.(entry_ticket) |} io d.

Definition lxmf_ticket_store_mark_delivered (s : lxmf_ticket_store) (p : list Z) (now : Z) (io : write_io) (d : disk)
    : option (lxmf_status * lxmf_ticket_store * disk) :=
  put_entry s {| kind := TICKET_LAST_DELIVERY; peer := p; time := now; ticket := replicate 16 0 |} io d.

Definition lxmf_ticket_store_get_outbound (s : lxmf_ticket_store) (p : list Z) (now : Z) : option (lxmf_status * option lxmf_ticket_entry) :=
  found ← find_one s TICKET_OUTBOUND p;
  match found with
  | None => Some (LXMF_ERR_PENDING, None)
  | Some i => e ← s.(entries) !! i; Some (if e.(time) <=? now then (LXMF_ERR_PENDING, None) else (LXMF_OK, Some (entry_of e)))
  end.

(** [tickets]: the array for the result. The status, the array, and how many of it
    are written. *)
Fixpoint get_inbound_from (s : lxmf_ticket_store) (p : list Z) (now : Z) (todo i : nat) (tickets : list lxmf_ticket_entry) (capacity n : nat)
    : option (lxmf_status * list lxmf_ticket_entry * nat) :=
  match todo with
  | O => Some (LXMF_OK, tickets, n)
  | S todo =>
      e ← s.(entries) !! i;
      if negb (same_peer e TICKET_INBOUND p) || (e.(time) <=? now) then get_inbound_from s p now todo (S i) tickets capacity n
      else if (n =? capacity)%nat then Some (LXMF_ERR_BOUNDS, tickets, n)
      else if decide (n < length tickets)%nat then get_inbound_from s p now todo (S i) (<[n := entry_of e]> tickets) capacity (S n)
      else None
  end.

Definition lxmf_ticket_store_get_inbound (s : lxmf_ticket_store) (p : list Z) (now : Z) (tickets : option (list lxmf_ticket_entry)) (capacity : nat)
    : option (lxmf_status * option (list lxmf_ticket_entry) * nat) :=
  if negb (capacity =? 0)%nat && bool_decide (tickets = None) then Some (LXMF_ERR_ARGUMENT, tickets, 0%nat)
  else
    x ← get_inbound_from s p now s.(count) 0 (default [] tickets) capacity 0;
    let '(st, ts, n) := x in Some (st, (λ _, ts) <$> tickets, n).

Definition lxmf_ticket_store_stamp_outbound (s : lxmf_ticket_store) (p : list Z) (now : Z) (message_id : list Z) : option (lxmf_status * option (list Z)) :=
  x ← lxmf_ticket_store_get_outbound s p now;
  match x with
  | (LXMF_OK, Some t) => stamp ← Stamp.lxmf_ticket_stamp t.(entry_ticket) message_id; Some (LXMF_OK, Some stamp)
  | (st, _) => Some (st, None)
  end.

Fixpoint validate_from (s : lxmf_ticket_store) (p : list Z) (now : Z) (message_id stamp : list Z) (todo i : nat) : option lxmf_status :=
  match todo with
  | O => Some LXMF_ERR_FORMAT
  | S todo =>
      e ← s.(entries) !! i;
      ok ← (if same_peer e TICKET_INBOUND p && (now <? e.(time)) then Stamp.lxmf_ticket_stamp_valid stamp e.(ticket) message_id else Some false);
      if ok : bool then Some LXMF_OK else validate_from s p now message_id stamp todo (S i)
  end.

Definition lxmf_ticket_store_validate_inbound (s : lxmf_ticket_store) (p : list Z) (now : Z) (message_id stamp : list Z) : option lxmf_status :=
  validate_from s p now message_id stamp s.(count) 0.

(** [now - entry->time] is only computed when it does not wrap. *)
Definition expired (e : stored_ticket) (now : Z) : bool :=
  if e.(kind) =? TICKET_OUTBOUND then e.(time) <=? now
  else (e.(kind) =? TICKET_INBOUND) && ((e.(time) <=? now) && (LXMF_TICKET_GRACE_SECONDS <? now - e.(time))).

(** The loop down from entry [i]. *)
Fixpoint remove_expired (s : lxmf_ticket_store) (now : Z) (i : nat) (changed : bool) : option (lxmf_ticket_store * bool) :=
  match i with
  | O => Some (s, changed)
  | S i =>
      e ← s.(entries) !! i;
      if expired e now then s ← remove_at s i; remove_expired s now i true else remove_expired s now i changed
  end.

Definition lxmf_ticket_store_cleanup (malloc_ok : bool) (s : lxmf_ticket_store) (now : Z) (io : write_io) (d : disk)
    : option (lxmf_status * lxmf_ticket_store * disk) :=
  if negb (s.(count) =? 0)%nat && negb malloc_ok then Some (LXMF_ERR_BOUNDS, s, d)
  else
    let backup := take s.(count) s.(entries) in
    let old_count := s.(count) in
    x ← remove_expired s now s.(count) false;
    let '(s, changed) := x in
    x ← (if changed : bool then save io s d else Some (LXMF_OK, d));
    let '(st, d) := x in
    if negb (bool_decide (st = LXMF_OK)) then
      if decide (old_count <= length s.(entries))%nat
      then Some (st, {| path := s.(path); entries := backup ++ drop old_count s.(entries); count := old_count |}, d)
      else None
    else Some (st, s, d).

Definition lxmf_ticket_store_count (s : option lxmf_ticket_store) : nat := match s with Some s => s.(count) | None => 0 end.

End WithCrypto.

(** ** The live entries *)

Definition live (s : lxmf_ticket_store) : list stored_ticket := take s.(count) s.(entries).

Record entry_ok (e : stored_ticket) : Prop := {
  eo_kind : valid_kind e.(kind) = true;
  eo_peer : length e.(peer) = 16%nat /\ bytes_ok e.(peer);
  eo_time : in_width 64 e.(time);
  eo_ticket : length e.(ticket) = 16%nat /\ bytes_ok e.(ticket)
}.

Record wf (s : lxmf_ticket_store) : Prop := {
  wf_path : (length s.(path) <= LXMF_TICKET_STORE_PATH_MAX)%nat;
  wf_array : length s.(entries) = LXMF_TICKET_STORE_MAX_ENTRIES;
  wf_count : (s.(count) <= LXMF_TICKET_STORE_MAX_ENTRIES)%nat;
  wf_entries : Forall entry_ok (live s)
}.

Lemma length_live s : wf s -> length (live s) = s.(count).
Proof. intros [_ Ha Hc _]. unfold live. rewrite length_take. lia. Qed.

Lemma live_lookup s i : wf s -> (i < s.(count))%nat -> live s !! i = s.(entries) !! i.
Proof. intros Hs Hi. unfold live. by rewrite lookup_take_lt. Qed.

Lemma entry_at s i : wf s -> (i < s.(count))%nat -> exists e, s.(entries) !! i = Some e /\ live s !! i = Some e /\ entry_ok e.
Proof.
  intros Hs Hi. destruct (lookup_lt_is_Some_2 (live s) i) as [e He]; [by rewrite length_live|]. exists e. rewrite <-live_lookup by done. split_and!; [done|done|].
  apply (Forall_lookup_1 _ _ _ _ (wf_entries s Hs) He).
Qed.

(** An entry written, and a new count. *)
Lemma set_entry_live s i e : wf s -> (i < s.(count))%nat -> entry_ok e ->
  exists s', set_entry s i e = Some s' /\ wf s' /\ live s' = <[i := e]> (live s) /\ s'.(path) = s.(path) /\ s'.(count) = s.(count).
Proof.
  intros [Hp Ha Hc He] Hi Hok. unfold set_entry. rewrite decide_True by lia. eexists. split; [done|].
  assert (live {| path := path s; entries := <[i:=e]> (entries s); count := count s |} = <[i:=e]> (live s)) as E.
  { unfold live. cbn. by rewrite take_insert_lt. }
  split; [|done]. constructor; cbn [path entries count set_count]; [done|by rewrite length_insert|done|]. rewrite E. by apply Forall_insert.
Qed.

Lemma set_count_live s : wf s -> forall n, (n <= s.(count))%nat -> wf (set_count n s) /\ live (set_count n s) = take n (live s).
Proof.
  intros [Hp Ha Hc He] n Hn. assert (live (set_count n s) = take n (live s)) as E by (unfold live; cbn; by rewrite take_take, Nat.min_l).
  split; [|done]. constructor; cbn [path entries count set_count]; [done|done|lia|]. rewrite E. by apply Forall_take.
Qed.

(** The store with another entry behind, to be written. *)
Lemma append_entry_live s : wf s ->
  (s.(count) = LXMF_TICKET_STORE_MAX_ENTRIES /\ append_entry s = Some None) \/
  (exists s0, append_entry s = Some (Some (s.(count), s0)) /\ s0.(entries) !! s.(count) = Some zero_entry /\ s0.(count) = S s.(count) /\
    forall e, entry_ok e -> exists s1, set_entry s0 s.(count) e = Some s1 /\ wf s1 /\ live s1 = live s ++ [e] /\ s1.(path) = s.(path) /\ s1.(count) = S s.(count)).
Proof.
  intros [Hp Ha Hc He]. unfold append_entry. destruct (Nat.eqb_spec (count s) LXMF_TICKET_STORE_MAX_ENTRIES); [by left|right].
  unfold set_entry. rewrite decide_True by lia. cbn [mbind option_bind]. eexists. split; [done|]. unfold set_count. cbn [entries count path].
  split; [by rewrite list_lookup_insert_eq by lia|]. split; [done|]. intros e Hok. rewrite decide_True by (rewrite length_insert; lia). eexists. split; [done|].
  assert (live {| path := path s; entries := <[count s := e]> (<[count s := zero_entry]> (entries s)); count := S (count s) |} = live s ++ [e]) as E.
  { unfold live. cbn. rewrite list_insert_insert_eq. destruct (lookup_lt_is_Some_2 (entries s) (count s)) as [x Hx]; [lia|].
    rewrite (take_S_r _ _ e) by (apply list_lookup_insert_eq; lia). by rewrite take_insert_ge by lia. }
  split; [|done]. constructor; cbn [path entries count]; [done|by rewrite !length_insert|lia|]. rewrite E. apply Forall_app. split; [done|by constructor].
Qed.

(** ... and taken back. *)
Lemma drop_last_live s s1 e n : wf s -> wf s1 -> live s1 = live s ++ [e] -> s1.(count) = S s.(count) -> n = s.(count) ->
  wf (set_count n s1) /\ live (set_count n s1) = live s.
Proof.
  intros Hs Hs1 Hl Hc ->. destruct (set_count_live s1 Hs1 (count s) ltac:(lia)) as [H1 H2]. split; [done|]. by rewrite H2, Hl, <-(length_live s Hs), take_app_length.
Qed.

Lemma remove_at_live s i : wf s -> (i < s.(count))%nat ->
  exists s', remove_at s i = Some s' /\ wf s' /\ live s' = delete i (live s) /\ s'.(path) = s.(path).
Proof.
  intros [Hp Ha Hc He] Hi. unfold remove_at. set (n := count s) in *.
  assert (exists s', (if (i + 1 <? n)%nat then
          if decide (n <= length s.(entries))%nat
          then Some {| path := s.(path); entries := take i s.(entries) ++ take (n - i - 1) (drop (i + 1) s.(entries)) ++ drop (n - 1) s.(entries); count := n |}
          else None else Some s) = Some s' /\ length s'.(entries) = LXMF_TICKET_STORE_MAX_ENTRIES /\ s'.(path) = s.(path) /\
          take (n - 1) s'.(entries) = delete i (live s)) as (s' & -> & Hl & Hpath & Ht).
  { unfold live. fold n. rewrite delete_take_drop. destruct (Nat.ltb_spec (i + 1) n).
    - rewrite decide_True by lia. eexists. split; [done|]. cbn. split_and!; [rewrite !length_app, !length_take, !length_drop; lia|done|].
      rewrite take_app_ge by (rewrite length_take; lia). rewrite length_take, Nat.min_l by lia. rewrite take_app_le by (rewrite length_take, length_drop; lia).
      rewrite take_take, Nat.min_r by lia. rewrite take_take, Nat.min_l by lia. f_equal.
      rewrite take_drop_commute. f_equal; [lia|f_equal; lia].
    - exists s. split; [done|]. split_and!; [done|done|]. assert (n = S i) as -> by lia. rewrite take_take, Nat.min_l by lia. rewrite drop_ge, app_nil_r by (rewrite length_take; lia).
      f_equal. lia. }
  cbn [mbind option_bind]. unfold set_entry. cbn [set_count entries path count]. rewrite decide_True by lia. eexists. split; [done|]. cbn [path].
  assert (live {| path := path s'; entries := <[(n - 1)%nat := zero_entry]> (entries s'); count := (n - 1)%nat |} = delete i (live s)) as E.
  { unfold live at 1. cbn. by rewrite take_insert_ge. }
  split; [|by rewrite Hpath]. constructor; cbn [path entries count set_count]; [by rewrite Hpath|by rewrite length_insert|lia|]. rewrite E. by apply Forall_delete.
Qed.

(** ** The file *)

Definition record_image (e : stored_ticket) : list Z := (e.(kind) :: replicate 7 0) ++ e.(peer) ++ be_encode 8 e.(time) ++ e.(ticket).

Definition payload_image (l : list stored_ticket) : list Z := concat (record_image <$> l).

Definition file_image (l : list stored_ticket) : list Z :=
  [76; 88; 84; 75; 1; 0; 0; 0] ++ be_encode 4 (Z.of_nat (length l)) ++ be_encode 4 (crc32_bytes (payload_image l)) ++ payload_image l.

Lemma kind_byte k : valid_kind k = true -> is_byte k.
Proof. unfold valid_kind, TICKET_OUTBOUND, TICKET_LAST_DELIVERY. intros [? ?]%andb_prop. unfold in_width. lia. Qed.

Lemma length_record e : entry_ok e -> length (record_image e) = 48%nat.
Proof. intros [_ [Hp _] _ [Ht _]]. unfold record_image. rewrite !length_app, Hp, Ht, length_be_encode. done. Qed.

Lemma record_bytes e : entry_ok e -> bytes_ok (record_image e).
Proof.
  intros [Hk [_ Hp] _ [_ Ht]]. unfold record_image. apply Forall_app. split; [constructor; [by apply kind_byte|]; apply Forall_replicate; unfold in_width; lia|].
  apply Forall_app. split; [done|]. apply Forall_app. split; [apply be_encode_bytes|done].
Qed.

Lemma length_payload l : Forall entry_ok l -> length (payload_image l) = (length l * 48)%nat.
Proof. unfold payload_image. induction 1 as [|e l He Hl IH]; [done|]. cbn [fmap list_fmap concat length]. rewrite length_app, IH, length_record by done. lia. Qed.

Lemma payload_bytes l : Forall entry_ok l -> bytes_ok (payload_image l).
Proof. unfold payload_image. induction 1 as [|e l He Hl IH]; [constructor|]. cbn [fmap list_fmap concat]. apply Forall_app. split; [by apply record_bytes|done]. Qed.

Lemma put_record_image e : entry_ok e -> put_record e = Some (record_image e).
Proof.
  intros [Hk [Hp _] _ [Ht _]]. unfold put_record, record_image. rewrite (bind_Some_eq _ _ (e.(kind) :: replicate 47 0)) by done.
  rewrite (bind_Some_eq _ _ ((e.(kind) :: replicate 7 0) ++ e.(peer) ++ replicate 24 0)) by (by apply (memcpy_at _ (kind e :: replicate 7 0) (replicate 16 0))).
  unfold put64. rewrite PathStore.put64_be.
  rewrite (bind_Some_eq _ _ (((e.(kind) :: replicate 7 0) ++ e.(peer)) ++ be_encode 8 e.(time) ++ replicate 16 0)).
  - rewrite (memcpy_at _ (((kind e :: replicate 7 0) ++ peer e) ++ be_encode 8 (time e)) (replicate 16 0) [] (ticket e)).
    + by rewrite app_nil_r, <-!app_assoc.
    + by rewrite app_nil_r, <-!app_assoc.
    + by rewrite !length_app, Hp, length_be_encode.
    + by rewrite Ht.
  - apply (memcpy_at _ ((kind e :: replicate 7 0) ++ peer e) (replicate 8 0)); [by rewrite <-app_assoc|by rewrite length_app, Hp|by rewrite length_be_encode].
Qed.

Lemma put_payload_spec s l1 l2 rest :
  wf s -> live s = l1 ++ l2 -> (length l2 * 48 <= length rest)%nat ->
  put_payload s (length l2) (length l1) (payload_image l1 ++ rest) = Some (payload_image (l1 ++ l2) ++ drop (length l2 * 48) rest).
Proof.
  intros Hs. revert l1 rest. induction l2 as [|e l2 IH]; intros l1 rest Hlive Hr; cbn [put_payload length].
  { by rewrite app_nil_r, drop_0. }
  assert (Forall entry_ok (l1 ++ e :: l2)) as Hok by (rewrite <-Hlive; apply (wf_entries s Hs)). pose proof Hok as [H1 H2]%Forall_app. apply Forall_cons_1 in H2 as [He _].
  assert (live s !! length l1 = Some e) as Hl by (rewrite Hlive; by apply list_lookup_middle).
  rewrite live_lookup in Hl by (done || (rewrite <-(length_live s Hs), Hlive, length_app; cbn; lia)).
  rewrite (bind_Some_eq _ _ _ Hl), (bind_Some_eq _ _ _ (put_record_image e He)). cbn [length] in Hr.
  destruct (split_at rest 48) as (r1 & r2 & -> & Hr1); [lia|]. rewrite (memcpy_at _ (payload_image l1) r1 r2).
  - cbn [mbind option_bind]. assert (payload_image l1 ++ record_image e ++ r2 = payload_image (l1 ++ [e]) ++ r2) as ->.
    { unfold payload_image. rewrite fmap_app, concat_app. cbn [fmap list_fmap concat]. by rewrite app_nil_r, <-app_assoc. }
    rewrite length_app in Hr. specialize (IH (l1 ++ [e]) r2). rewrite length_app, Nat.add_1_r, <-app_assoc in IH. rewrite IH by (done || lia). cbn [app]. do 2 f_equal.
    replace (S (length l2) * 48)%nat with (length r1 + length l2 * 48)%nat by lia. by rewrite <-drop_drop, drop_app_length.
  - done.
  - by rewrite length_payload.
  - rewrite length_record by done. by rewrite Hr1.
Qed.

(** Saving replaces the file by the image of the live entries, or leaves it. *)
Lemma save_spec io s d : wf s ->
  exists st d', save io s d = Some (st, d') /\
    (if bool_decide (st = LXMF_OK) then d'.(file) = Some (file_image (live s)) else d'.(file) = d.(file)) /\ (io = all_written -> st = LXMF_OK).
Proof.
  intros Hs. pose proof (length_live s Hs) as Hl. pose proof Hs as [Hp Ha Hc He]. unfold save. pose proof (put_payload_spec s [] (live s) (replicate (1024 * 48) 0) Hs eq_refl) as Hpay.
  cbn [app] in Hpay. rewrite Hl in Hpay. change (length []) with 0%nat in Hpay. unfold LXMF_TICKET_STORE_MAX_ENTRIES in *.
  rewrite (bind_Some_eq _ _ _ (Hpay ltac:(rewrite length_replicate; lia))). clear Hpay.
  rewrite (bind_Some_eq _ _ (payload_image (live s))).
  2:{ eapply (memread_at _ []); [done|done|]. rewrite length_payload by done. by rewrite Hl. }
  set (payload := payload_image (live s)). unfold put32. rewrite !PathStore.put32_be.
  rewrite (bind_Some_eq _ _ ([76; 88; 84; 75; 1; 0; 0; 0] ++ be_encode 4 (Z.of_nat (count s)) ++ [0; 0; 0; 0])) by done.
  rewrite (bind_Some_eq _ _ ([76; 88; 84; 75; 1; 0; 0; 0] ++ be_encode 4 (Z.of_nat (count s)) ++ be_encode 4 (crc32_bytes payload))) by done.
  unfold LXMF_TICKET_STORE_PATH_MAX in *. rewrite (proj2 (Nat.leb_gt _ _)) by lia. destruct (replace_file io _ d) as [ok d'] eqn:Er. pose proof (replace_file_spec _ _ _ _ _ Er) as Hf.
  eexists _, d'. split; [done|]. split.
  - destruct ok; [|done]. rewrite bool_decide_true by done. rewrite Hf. unfold file_image. rewrite Hl. fold payload. by rewrite <-!app_assoc.
  - intros ->. cbn in Er. by simplify_eq.
Qed.

(** *** Reading it back *)

Lemma get_records_image l1 l2 es :
  Forall entry_ok (l1 ++ l2) -> take (length l1) es = l1 -> (length (l1 ++ l2) <= length es)%nat ->
  exists es', get_records (payload_image (l1 ++ l2)) (length l2) (length l1) es = Some (Some es') /\ take (length (l1 ++ l2)) es' = l1 ++ l2 /\ length es' = length es.
Proof.
  revert l1 es. induction l2 as [|e l2 IH]; intros l1 es Hok Ht Hl; cbn [get_records length].
  { exists es. by rewrite app_nil_r in *. }
  pose proof Hok as [H1 H2]%Forall_app. apply Forall_cons_1 in H2 as [He _]. pose proof He as [Hk [Hp _] Htime [Htk _]].
  change TICKET_FILE_RECORD with 48%nat. assert (drop (length l1 * 48) (payload_image (l1 ++ e :: l2)) = record_image e ++ payload_image l2) as ->.
  { unfold payload_image. rewrite fmap_app, concat_app. fold (payload_image l1). rewrite <-(length_payload l1), drop_app_length by done. done. }
  unfold record_image. rewrite <-!app_assoc.
  rewrite (bind_Some_eq _ _ (kind e)) by done. rewrite Hk. cbn [negb].
  rewrite (bind_Some_eq _ _ (peer e)) by (by eapply (memread_at _ (kind e :: replicate 7 0))).
  unfold get64. rewrite (bind_Some_eq _ _ (time e)).
  2:{ eapply (PathStore.get64_encoded _ ((kind e :: replicate 7 0) ++ peer e)); [by rewrite <-app_assoc|by rewrite length_app, Hp|done]. }
  rewrite (bind_Some_eq _ _ (ticket e)).
  2:{ eapply (memread_at _ ((kind e :: replicate 7 0) ++ peer e ++ be_encode 8 (time e))); [by rewrite <-!app_assoc|by rewrite !length_app, Hp, length_be_encode|by rewrite Htk]. }
  rewrite length_app in Hl. cbn [length] in Hl. rewrite decide_True by lia.
  assert ({| kind := kind e; peer := peer e; time := time e; ticket := ticket e |} = e) as -> by (by destruct e).
  specialize (IH (l1 ++ [e]) (<[length l1 := e]> es)). rewrite length_app, Nat.add_1_r, <-app_assoc in IH. cbn [app] in IH. destruct IH as (es' & Hg & Ht' & Hl').
  - done.
  - rewrite (take_S_r _ _ e) by (apply list_lookup_insert_eq; lia). by rewrite take_insert_ge, Ht by lia.
  - rewrite length_insert, length_app. cbn. lia.
  - exists es'. rewrite length_insert in Hl'. done.
Qed.

Lemma crc_width data : bytes_ok data -> in_width 32 (crc32_bytes data).
Proof.
  intros Hb. apply StorageRecord.not32_width. by apply PathStore.crc32_loop_width.
Qed.

(** The image of entries loads to the entries. *)
Lemma load_image l s :
  Forall entry_ok l -> (length l <= LXMF_TICKET_STORE_MAX_ENTRIES)%nat -> length s.(entries) = LXMF_TICKET_STORE_MAX_ENTRIES ->
  (length s.(path) <= LXMF_TICKET_STORE_PATH_MAX)%nat ->
  exists s', load_stream (file_image l) s = Some (LXMF_OK, s') /\ wf s' /\ live s' = l /\ s'.(path) = s.(path).
Proof.
  intros Hl Hn Hs Hp. set (payload := payload_image l). assert (length payload = length l * 48)%nat as Hpl by (by apply length_payload).
  set (H := [76; 88; 84; 75; 1; 0; 0; 0] ++ be_encode 4 (Z.of_nat (length l)) ++ be_encode 4 (crc32_bytes payload)).
  assert (file_image l = H ++ payload) as -> by (unfold file_image, H; by rewrite <-!app_assoc). assert (length H = 16%nat) as HH by (unfold H; by rewrite !length_app, !length_be_encode).
  assert (in_width 32 (Z.of_nat (length l))) as Hw by (unfold in_width, LXMF_TICKET_STORE_MAX_ENTRIES in *; lia).
  unfold load_stream. rewrite (proj2 (Nat.ltb_ge _ _)) by (rewrite length_app; unfold TICKET_FILE_HEADER; lia).
  rewrite (bind_Some_eq _ _ [76; 88; 84; 75]) by (by eapply (memread_at _ [])). rewrite (bind_Some_eq _ _ 1) by done. cbn [negb orb memeq].
  rewrite memeq_refl. cbn [negb orb Z.eqb Pos.eqb TICKET_FILE_VERSION].
  unfold get32. rewrite (bind_Some_eq _ _ (Z.of_nat (length l))).
  2:{ eapply (PathStore.get32_encoded _ [76; 88; 84; 75; 1; 0; 0; 0]); [unfold H; by rewrite <-!app_assoc|done|done]. }
  rewrite (proj2 (Z.ltb_ge _ _)) by lia. rewrite Nat2Z.id. assert (drop TICKET_FILE_HEADER (H ++ payload) = payload) as -> by (by rewrite drop_app_length' by done).
  unfold TICKET_FILE_RECORD. rewrite (proj2 (Nat.ltb_ge (length payload) _)), andb_false_r by lia.
  rewrite (bind_Some_eq _ _ payload) by (rewrite memread_in, drop_0, take_ge by lia; done).
  rewrite (bind_Some_eq _ _ (crc32_bytes payload)).
  2:{ eapply (PathStore.get32_encoded _ ([76; 88; 84; 75; 1; 0; 0; 0] ++ be_encode 4 (Z.of_nat (length l)))); [unfold H; by rewrite <-!app_assoc| |by apply crc_width, payload_bytes].
      by rewrite length_app, length_be_encode. }
  rewrite (proj2 (Nat.ltb_ge _ _)), Z.eqb_refl by lia. cbn [orb negb].
  destruct (get_records_image [] l (entries s) Hl eq_refl) as (es' & Hg & Ht & Hle); [cbn; lia|]. cbn [app] in Hg, Ht. rewrite (bind_Some_eq _ _ _ Hg).
  eexists. split; [done|]. assert (live {| path := path s; entries := es'; count := length l |} = l) as E by done.
  split; [|done]. constructor; cbn [path entries count]; [done|lia|done|by rewrite E].
Qed.

(** *** Reading any bytes *)

Lemma get_records_total payload todo i es :
  bytes_ok payload -> length payload = ((i + todo) * 48)%nat -> (i + todo <= length es)%nat -> Forall entry_ok (take i es) ->
  exists x, get_records payload todo i es = Some x /\
    forall es', x = Some es' -> length es' = length es /\ Forall entry_ok (take (i + todo) es').
Proof.
  intros Hb. revert i es. induction todo as [|todo IH]; intros i es Hl Hes Hok; cbn [get_records].
  { eexists. split; [done|]. intros es' [= <-]. by rewrite Nat.add_0_r. }
  change TICKET_FILE_RECORD with 48%nat. set (rec := drop (i * 48) payload). assert (bytes_ok rec) as Br by (by apply Forall_drop).
  assert (48 <= length rec)%nat as Hrec by (unfold rec; rewrite length_drop; lia).
  destruct (PathStore.load_in rec 0 Br ltac:(lia)) as (k & Hk & _). rewrite (bind_Some_eq _ _ _ Hk). destruct (valid_kind k) eqn:Ek; [|by eexists]. cbn [negb].
  rewrite (memread_in rec 8 16), (bind_Some_eq _ _ _ eq_refl) by lia. destruct (PathStore.get64_in rec 24 Br ltac:(lia)) as (t & Ht & Htw). unfold get64. rewrite (bind_Some_eq _ _ _ Ht).
  rewrite (memread_in rec 32 16), (bind_Some_eq _ _ _ eq_refl) by lia. rewrite decide_True by lia. set (e := {| kind := k |}).
  assert (forall o, (o + 16 <= 48)%nat -> length (take 16 (drop o rec)) = 16%nat /\ bytes_ok (take 16 (drop o rec))) as Hf
    by (intros o Ho; split; [rewrite length_take, length_drop; lia|by apply Forall_take, Forall_drop]).
  assert (entry_ok e) as He by (constructor; [done|apply Hf; lia|done|apply Hf; lia]).
  destruct (IH (S i) (<[i := e]> es)) as (x & Hx & Hp); [rewrite Hl; lia|rewrite length_insert; lia| |].
  { rewrite (take_S_r _ _ e) by (apply list_lookup_insert_eq; lia). rewrite take_insert_ge by lia. apply Forall_app. split; [done|by constructor]. }
  exists x. split; [done|]. intros es' E. destruct (Hp es' E) as [H1 H2]. rewrite length_insert in H1. split; [done|]. by replace (i + S todo)%nat with (S i + todo)%nat by lia.
Qed.

Lemma load_stream_total bytes s :
  bytes_ok bytes -> length s.(entries) = LXMF_TICKET_STORE_MAX_ENTRIES -> (length s.(path) <= LXMF_TICKET_STORE_PATH_MAX)%nat ->
  exists st s', load_stream bytes s = Some (st, s') /\ s'.(path) = s.(path) /\ (st = LXMF_OK -> wf s').
Proof.
  intros Hb Hs Hp. unfold load_stream. change TICKET_FILE_HEADER with 16%nat. destruct (Nat.ltb_spec (length bytes) 16); [by eexists _, _|].
  rewrite (memread_in bytes 0 4), (bind_Some_eq _ _ _ eq_refl) by lia. destruct (PathStore.load_in bytes 4 Hb ltac:(lia)) as (v & Hv & _). rewrite (bind_Some_eq _ _ _ Hv).
  destruct (_ || _); [by eexists _, _|]. destruct (PathStore.get32_in bytes 8 Hb ltac:(lia)) as (n & Hn & Hnw). unfold get32. rewrite (bind_Some_eq _ _ _ Hn).
  destruct (Z.ltb_spec (Z.of_nat LXMF_TICKET_STORE_MAX_ENTRIES) n); [by eexists _, _|]. set (k := Z.to_nat n). set (rest := drop 16 bytes). change TICKET_FILE_RECORD with 48%nat.
  assert (bytes_ok rest) as Br by (by apply Forall_drop). destruct (negb (k * 48 =? 0)%nat && (length rest <? k * 48)%nat) eqn:G; [by eexists _, _|].
  assert (k * 48 <= length rest)%nat as Hk.
  { apply andb_false_iff in G as [G%negb_false_iff%Nat.eqb_eq|G%Nat.ltb_ge]; lia. }
  rewrite (memread_in rest 0), (bind_Some_eq _ _ _ eq_refl), drop_0 by lia. destruct (PathStore.get32_in bytes 12 Hb ltac:(lia)) as (c & Hc & _). rewrite (bind_Some_eq _ _ _ Hc).
  destruct (_ || _); [by eexists _, _|]. destruct (get_records_total (take (k * 48) rest) k 0 (entries s)) as (x & Hx & Hes);
    [by apply Forall_take|rewrite length_take; lia|unfold in_width, LXMF_TICKET_STORE_MAX_ENTRIES in *; lia|constructor|]. rewrite (bind_Some_eq _ _ _ Hx).
  destruct x as [es|]; [|by eexists _, _]. destruct (Hes es eq_refl) as [Hl He]. eexists _, _. split; [done|]. split; [done|]. intros _.
  constructor; cbn [path entries count]; [done|lia|lia|done].
Qed.

Definition fresh_store (p : list Z) : lxmf_ticket_store := {| path := p; entries := replicate LXMF_TICKET_STORE_MAX_ENTRIES zero_entry; count := 0 |}.

Lemma fresh_wf p : (length p <= LXMF_TICKET_STORE_PATH_MAX)%nat -> wf (fresh_store p).
Proof. intros Hp. constructor; cbn [fresh_store path entries count]; [done|by rewrite length_replicate|unfold LXMF_TICKET_STORE_MAX_ENTRIES; lia|constructor]. Qed.

(** What reading the file from start to end gives. *)
Definition reloads (p : list Z) (d : disk) (l : list stored_ticket) : Prop :=
  exists s, load (all_read (length (default [] d.(file)))) (fresh_store p) d = Some (LXMF_OK, s) /\ live s = l.

Lemma reloads_image p d l : Forall entry_ok l -> (length l <= LXMF_TICKET_STORE_MAX_ENTRIES)%nat -> (length p <= LXMF_TICKET_STORE_PATH_MAX)%nat ->
  d.(file) = Some (file_image l) -> reloads p d l.
Proof.
  intros Hl Hn Hp Hd. destruct (load_image l (fresh_store p) Hl Hn (length_replicate _ _) Hp) as (s & Hs & _ & Hlive & _). exists s. split; [|done].
  unfold load. rewrite Hd. cbn [default r_open r_limit r_close all_read negb]. rewrite take_ge by (unfold id; lia). by rewrite (bind_Some_eq _ _ _ Hs).
Qed.

Lemma reloads_file p d d' l : d'.(file) = d.(file) -> reloads p d l -> reloads p d' l.
Proof. intros E (s & Hs & Hl). exists s. split; [|done]. unfold load in *. by rewrite E. Qed.

(** ** The operations on the live entries *)

Lemma find_from_spec s k p todo i : (i + todo <= length s.(entries))%nat ->
  find_from s k p todo i = Some ((λ x, i + x.1)%nat <$> list_find (λ e, same_peer e k p) (take todo (drop i s.(entries)))).
Proof.
  revert i. induction todo as [|todo IH]; intros i Hi; cbn [find_from]; [by rewrite take_0|]. destruct (lookup_lt_is_Some_2 (entries s) i) as [e He]; [lia|].
  rewrite (bind_Some_eq _ _ _ He), (drop_S _ _ _ He). cbn [take]. cbn [list_find]. destruct (same_peer e k p) eqn:Es.
  - rewrite decide_True by done. cbn. by rewrite Nat.add_0_r.
  - rewrite decide_False by (by intros []). rewrite IH by lia. f_equal. destruct (list_find _ _) as [[j x]|]; [|done]. cbn. f_equal. lia.
Qed.

Lemma find_one_spec s k p : wf s -> find_one s k p = Some (fst <$> list_find (λ e, same_peer e k p) (live s)).
Proof. intros [_ Ha Hc _]. unfold find_one. by rewrite find_from_spec, drop_0 by lia. Qed.

(** The outcome of an operation at a time: a failure changes neither the entries nor
    the file, a change of the entries is in the file, and issued tickets that have not
    expired stay. *)
Record transaction (now : Z) (s : lxmf_ticket_store) (d : disk) (st : lxmf_status) (s' : lxmf_ticket_store) (d' : disk) : Prop := {
  tr_wf : wf s';
  tr_path : s'.(path) = s.(path);
  tr_failed : st <> LXMF_OK -> live s' = live s /\ d'.(file) = d.(file);
  tr_done : st = LXMF_OK -> live s' = live s /\ d'.(file) = d.(file) \/ d'.(file) = Some (file_image (live s'));
  tr_inbound : forall e, e ∈ live s -> e.(kind) = TICKET_INBOUND -> now < e.(time) -> e ∈ live s'
}.

Lemma transaction_refl now s d st : wf s -> transaction now s d st s d.
Proof. intros Hs. constructor; [done|done|done|by left|done]. Qed.

(** An operation that failed after changes that are undone. *)
Lemma transaction_undone now s d st s' d' : wf s' -> s'.(path) = s.(path) -> live s' = live s -> d'.(file) = d.(file) -> transaction now s d st s' d'.
Proof. intros Hs Hp Hl Hd. constructor; [done|done|done|by left|by rewrite Hl]. Qed.

(** The entries with [e] in the place of the entry of its kind and peer. *)
Definition upsert (e : stored_ticket) (l : list stored_ticket) : list stored_ticket :=
  match list_find (λ x, same_peer x e.(kind) e.(peer)) l with Some (i, _) => <[i := e]> l | None => l ++ [e] end.

Lemma put_entry_spec s e io d now :
  wf s -> entry_ok e -> e.(kind) <> TICKET_INBOUND ->
  exists st s' d', put_entry s e io d = Some (st, s', d') /\ transaction now s d st s' d' /\ (st = LXMF_OK -> live s' = upsert e (live s)) /\
    (io = all_written -> s.(count) <> LXMF_TICKET_STORE_MAX_ENTRIES -> st = LXMF_OK).
Proof.
  intros Hs He Hk. unfold put_entry. rewrite find_one_spec, (bind_Some_eq _ _ _ eq_refl) by done. unfold upsert.
  destruct (list_find _ (live s)) as [[i x]|] eqn:Ef; cbn [fmap option_fmap option_map fst mbind option_bind].
  - apply list_find_Some in Ef as (Hx & Hsame & _). apply Is_true_eq_true, andb_prop in Hsame as [Hxk%Z.eqb_eq _].
    pose proof (lookup_lt_Some _ _ _ Hx) as Hi. rewrite length_live in Hi by done. destruct (entry_at s i Hs Hi) as (x' & Hx' & Hlx & Hox). assert (x' = x) as -> by congruence.
    rewrite (bind_Some_eq _ _ _ Hx'). destruct (set_entry_live s i e Hs Hi He) as (s1 & -> & Hs1 & Hl1 & Hp1 & Hc1). cbn [mbind option_bind].
    destruct (save_spec io s1 d Hs1) as (st & d1 & -> & Hd1 & Hio). cbn [mbind option_bind]. case_bool_decide as Est.
    + exists st, s1, d1. split; [done|]. split; [|by rewrite Hl1]. constructor; [done|done|done|right; congruence|].
      intros y Hy Hyk Hyt. rewrite Hl1. apply list_elem_of_lookup_1 in Hy as [j Hj]. apply (list_elem_of_lookup_2 _ j). rewrite list_lookup_insert_ne; [done|]. intros <-. congruence.
    + destruct (set_entry_live s1 i x Hs1 ltac:(lia) Hox) as (s2 & -> & Hs2 & Hl2 & Hp2 & Hc2). cbn [mbind option_bind]. exists st, s2, d1. split; [done|].
      split; [|split; [done|intros -> _; by destruct Est; apply Hio]]. apply transaction_undone; [done|congruence| |done].
      rewrite Hl2, Hl1, list_insert_insert_eq. by apply list_insert_id.
  - destruct (append_entry_live s Hs) as [[Hc ->]|(s0 & -> & Hz & Hc0 & Hset)]; cbn [mbind option_bind].
    { exists LXMF_ERR_BOUNDS, s, d. split; [done|]. split; [by apply transaction_refl|]. split; [done|]. by intros _ ?. }
    destruct (Hset e He) as (s1 & Hs1e & Hs1 & Hl1 & Hp1 & Hc1). rewrite (bind_Some_eq _ _ _ Hz), (bind_Some_eq _ _ _ Hs1e).
    destruct (save_spec io s1 d Hs1) as (st & d1 & -> & Hd1 & Hio). cbn [mbind option_bind]. case_bool_decide as Est.
    + exists st, s1, d1. split; [done|]. split; [|by rewrite Hl1]. constructor; [done|done|done|right; congruence|].
      intros y Hy _ _. rewrite Hl1. apply elem_of_app. by left.
    + exists st, (set_count (count s1 - 1) s1), d1. split; [done|]. destruct (drop_last_live s s1 e (count s1 - 1) Hs Hs1 Hl1 Hc1 ltac:(lia)) as [Hs2 Hl2].
      split; [|split; [done|intros -> _; by destruct Est; apply Hio]]. by apply transaction_undone.
Qed.

Section Operations.
Context `{Crypto}.

Lemma find_reusable_spec s p now todo i : (i + todo <= length s.(entries))%nat ->
  exists x, find_reusable s p now todo i = Some x /\
    forall t, x = Some t -> exists e, e ∈ take todo (drop i s.(entries)) /\ e.(kind) = TICKET_INBOUND /\ e.(peer) = p /\ now < e.(time) /\ t = entry_of e.
Proof.
  revert i. induction todo as [|todo IH]; intros i Hi; cbn [find_reusable]; [by eexists|]. destruct (lookup_lt_is_Some_2 (entries s) i) as [e He]; [lia|].
  rewrite (bind_Some_eq _ _ _ He), (drop_S _ _ _ He). cbn [take]. destruct (_ && _) eqn:G.
  - eexists. split; [done|]. intros t [= <-]. exists e. apply andb_prop in G as [[[G1%Z.eqb_eq G2%memeq_true]%andb_prop G3%Z.ltb_lt]%andb_prop _]. split_and!; [by left|done..].
  - destruct (IH (S i) ltac:(lia)) as (x & Hx & Hp). exists x. split; [done|]. intros t E. destruct (Hp t E) as (y & Hy & ?). exists y. split; [by right|done].
Qed.

(** Issuing gives a ticket that is in the store for the peer and has not expired. *)
Lemma issue_spec s p now seed io d :
  wf s -> length p = 16%nat -> bytes_ok p -> in_width 64 now ->
  exists st s' d' t c, lxmf_ticket_store_issue s p now seed io d = Some (st, s', d', t, c) /\ transaction now s d st s' d' /\ (st = LXMF_OK <-> is_Some t) /\
    forall x, t = Some x -> exists e, e ∈ live s' /\ e.(kind) = TICKET_INBOUND /\ e.(peer) = p /\ now < e.(time) /\ x = entry_of e.
Proof.
  intros Hs Hp Hpb Hnow. unfold lxmf_ticket_store_issue. rewrite find_one_spec, (bind_Some_eq _ _ _ eq_refl) by done.
  match goal with |- context [mbind _ ?y] => assert (exists b : bool, y = Some b) as [b ->] end.
  { destruct (list_find _ (live s)) as [[i x]|] eqn:Ef; cbn; [|by eexists]. apply list_find_Some in Ef as (Hx & _). pose proof (lookup_lt_Some _ _ _ Hx) as Hi.
    rewrite length_live in Hi by done. destruct (entry_at s i Hs Hi) as (e & -> & _). by eexists. }
  cbn [mbind option_bind]. destruct b.
  { eexists _, _, _, _, _. split; [done|]. split; [by apply transaction_refl|]. split; [split; [done|by intros []]|done]. }
  pose proof Hs as [_ Ha Hc _]. destruct (find_reusable_spec s p now (count s) 0 ltac:(lia)) as (x & -> & Hx). cbn [mbind option_bind]. destruct x as [t|].
  { eexists _, _, _, _, _. split; [done|]. split; [by apply transaction_refl|]. split; [by split|]. intros x [= <-]. destruct (Hx t eq_refl) as (e & He & ?). rewrite drop_0 in He. by exists e. }
  clear Hx. assert (forall t u, length t = 16%nat -> bytes_ok t -> in_width 64 u -> entry_ok {| kind := TICKET_INBOUND; peer := p; time := u; ticket := t |}) as Hok by done.
  assert (length (replicate 16 0) = 16%nat /\ bytes_ok (replicate 16 0)) as [Hz1 Hz2] by (split; [done|apply Forall_replicate; unfold in_width; lia]).
  destruct (append_entry_live s Hs) as [[_ ->]|(s0 & -> & _ & _ & Hset)]; cbn [mbind option_bind].
  { eexists _, _, _, _, _. split; [done|]. split; [by apply transaction_refl|]. split; [split; [done|by intros []]|done]. }
  assert (forall e, entry_ok e -> exists s1, set_entry s0 (count s) e = Some s1 /\ wf s1 /\ path s1 = path s /\ live s1 = live s ++ [e] /\ count s1 = S (count s) /\
    wf (set_count (count s1 - 1) s1) /\ live (set_count (count s1 - 1) s1) = live s) as Hput.
  { intros e He. destruct (Hset e He) as (s1 & ? & ? & ? & ? & Hc1). exists s1. destruct (drop_last_live s s1 e (count s1 - 1)) as [? ?]; [done..|lia|]. done. }
  destruct (Z.ltb_spec (UINT64_MAX - now) LXMF_TICKET_EXPIRY_SECONDS) as [?|Htime].
  { destruct (Hput _ (Hok (replicate 16 0) 0 Hz1 Hz2 ltac:(unfold in_width; lia))) as (s1 & -> & _ & Hp1 & _ & _ & Hw & Hl). cbn [mbind option_bind].
    eexists _, _, _, _, _. split; [done|]. split; [by apply transaction_undone|]. split; [split; [done|by intros []]|done]. }
  assert (in_width 64 (now + LXMF_TICKET_EXPIRY_SECONDS)) as Hu by (unfold in_width, UINT64_MAX, LXMF_TICKET_EXPIRY_SECONDS in *; lia).
  destruct (rns_random_bytes seed LXMF_TICKET_LENGTH) as [t|] eqn:Hrand.
  2:{ destruct (Hput _ (Hok (replicate 16 0) _ Hz1 Hz2 Hu)) as (s1 & -> & _ & Hp1 & _ & _ & Hw & Hl). cbn [mbind option_bind].
    eexists _, _, _, _, _. split; [done|]. split; [by apply transaction_undone|]. split; [split; [done|by intros []]|done]. }
  pose proof (random_length _ _ _ Hrand) as Ht. pose proof (random_bytes _ _ _ Hrand) as Htb.
  destruct (Hput _ (Hok t _ Ht Htb Hu)) as (s1 & -> & Hs1 & Hp1 & Hl1 & Hc1 & Hw & Hl). cbn [mbind option_bind].
  destruct (save_spec io s1 d Hs1) as (st & d1 & -> & Hd1 & _). cbn [mbind option_bind]. case_bool_decide as Est; cbn [negb].
  - eexists _, _, _, _, _. split; [done|]. split.
    { constructor; [done|done|done|by right|]. intros y Hy _ _. rewrite Hl1. apply elem_of_app. by left. }
    split; [by split|]. intros x [= <-]. eexists. rewrite Hl1. split; [apply elem_of_app; right; by left|]. cbn. unfold LXMF_TICKET_EXPIRY_SECONDS. split_and!; (done || lia).
  - unfold set_entry. cbn [set_count entries path count]. rewrite decide_True by (rewrite (wf_array _ Hs1); pose proof (wf_count _ Hs1); lia). cbn [mbind option_bind].
    eexists _, _, _, _, _. split; [done|]. assert (live {| path := path s1; entries := <[(count s1 - 1)%nat := zero_entry]> (entries s1); count := (count s1 - 1)%nat |} = live s) as E.
    { rewrite <-Hl. unfold live. cbn. by rewrite take_insert_ge. }
    split; [|split; [split; [done|by intros []]|done]]. apply transaction_undone; [|done|done|done].
    constructor; cbn [path entries count]; [apply (wf_path _ Hs1)|rewrite length_insert; apply (wf_array _ Hs1)|pose proof (wf_count _ Hs1); lia|rewrite E; apply (wf_entries _ Hs)].
Qed.

(** *** Cleaning up *)

Definition kept (now : Z) (l : list stored_ticket) : list stored_ticket := filter (λ e, expired e now = false) l.

Lemma remove_expired_spec s now i ch : wf s -> (i <= s.(count))%nat ->
  exists s' ch', remove_expired s now i ch = Some (s', ch') /\ wf s' /\ s'.(path) = s.(path) /\
    live s' = kept now (take i (live s)) ++ drop i (live s) /\ (ch' = false -> ch = false /\ s' = s).
Proof.
  revert s ch. induction i as [|i IH]; intros s ch Hs Hi; cbn [remove_expired]; [by exists s, ch|]. destruct (entry_at s i Hs ltac:(lia)) as (e & -> & He & _).
  cbn [mbind option_bind]. rewrite (take_S_r _ _ e) by done. unfold kept. rewrite list.filter_app, filter_cons, filter_nil. destruct (expired e now) eqn:Ex.
  - rewrite decide_False, app_nil_r by done. destruct (remove_at_live s i Hs ltac:(lia)) as (s1 & -> & Hs1 & Hl1 & Hp1). cbn [mbind option_bind].
    assert (i <= count s1)%nat as Hi1 by (rewrite <-(length_live s1 Hs1), Hl1, delete_take_drop, length_app, length_take, length_drop, (length_live s Hs); lia).
    destruct (IH s1 true Hs1 Hi1) as (s2 & ch2 & Hr & Hs2 & Hp2 & Hl2 & Hch). exists s2, ch2. split_and!; [done|done|congruence| |by intros [? _]%Hch].
    rewrite Hl2, Hl1, delete_take_drop. assert (length (take i (live s)) = i) as Ht by (rewrite length_take, (length_live s Hs); lia).
    by rewrite take_app_length', drop_app_length' by done.
  - rewrite decide_True by done. destruct (IH s ch Hs ltac:(lia)) as (s2 & ch2 & Hr & Hs2 & Hp2 & Hl2 & Hch). exists s2, ch2. split_and!; try done.
    rewrite Hl2, <-app_assoc. cbn [app]. by rewrite (drop_S _ _ _ He).
Qed.

Lemma cleanup_spec malloc_ok s now io d : wf s ->
  exists st s' d', lxmf_ticket_store_cleanup malloc_ok s now io d = Some (st, s', d') /\ transaction now s d st s' d' /\ (st = LXMF_OK -> live s' = kept now (live s)).
Proof.
  intros Hs. unfold lxmf_ticket_store_cleanup. destruct (_ && _). { exists LXMF_ERR_BOUNDS, s, d. split; [done|]. split; [by apply transaction_refl|done]. }
  pose proof (length_live s Hs) as Hlen. destruct (remove_expired_spec s now (count s) false Hs ltac:(done)) as (s1 & ch & -> & Hs1 & Hp1 & Hl1 & Hch). cbn [mbind option_bind].
  rewrite take_ge, drop_ge, app_nil_r in Hl1 by lia. destruct ch.
  - destruct (save_spec io s1 d Hs1) as (st & d1 & -> & Hd1 & _). cbn [mbind option_bind]. case_bool_decide as Est; cbn [negb].
    + exists st, s1, d1. split; [done|]. split; [|done]. constructor; [done|done|done|by right|]. intros e He Hk Ht. rewrite Hl1. apply list_elem_of_filter. split; [|done].
      unfold expired. rewrite Hk. cbn. rewrite (proj2 (Z.leb_gt _ _)) by lia. done.
    + rewrite decide_True by (rewrite (wf_array _ Hs1); apply (wf_count _ Hs)). eexists _, _, _. split; [done|]. split; [|done].
      assert (live {| path := path s1; entries := take (count s) (entries s) ++ drop (count s) (entries s1); count := count s |} = live s) as E.
      { unfold live at 1. cbn. fold (live s). by rewrite take_app_length'. }
      apply transaction_undone; [|done|done|done]. constructor; cbn [path entries count]; [apply (wf_path _ Hs1)| |apply (wf_count _ Hs)|rewrite E; apply (wf_entries _ Hs)].
      fold (live s). rewrite length_app, length_drop, Hlen, (wf_array _ Hs1). pose proof (wf_count _ Hs). lia.
  - destruct (Hch eq_refl) as [_ ->]. exists LXMF_OK, s, d. split; [done|]. split; [by apply transaction_refl|done].
Qed.
End Operations.

(** ** Sequences of operations *)

Section Runs.
Context `{Crypto}.

Inductive ticket_op : Type :=
| Issue (p : list Z) (now : Z) (seed : list Z) (io : write_io)
| Remember (p : list Z) (t : lxmf_ticket_entry) (now : Z) (io : write_io)
| Delivered (p : list Z) (now : Z) (io : write_io)
| Cleanup (malloc_ok : bool) (now : Z) (io : write_io).

Definition op_time (op : ticket_op) : Z :=
  match op with Issue _ now _ _ | Remember _ _ now _ | Delivered _ now _ | Cleanup _ now _ => now end.

Definition hash_ok (p : list Z) : Prop := length p = 16%nat /\ bytes_ok p.

(** Arguments of the types of the code. *)
Definition op_ok (op : ticket_op) : Prop :=
  in_width 64 (op_time op) /\
  match op with
  | Issue p _ _ _ | Delivered p _ _ => hash_ok p
  | Remember p t _ _ => hash_ok p /\ in_width 64 t.(expires_at) /\ hash_ok t.(entry_ticket)
  | Cleanup _ _ _ => True
  end.

Definition ticket_step (op : ticket_op) (s : lxmf_ticket_store) (d : disk) : option (lxmf_status * lxmf_ticket_store * disk) :=
  match op with
  | Issue p now seed io => x ← lxmf_ticket_store_issue s p now seed io d; let '(st, s, d, _, _) := x in Some (st, s, d)
  | Remember p t now io => lxmf_ticket_store_remember_outbound s p t now io d
  | Delivered p now io => lxmf_ticket_store_mark_delivered s p now io d
  | Cleanup malloc_ok now io => lxmf_ticket_store_cleanup malloc_ok s now io d
  end.

Fixpoint ticket_run (ops : list ticket_op) (s : lxmf_ticket_store) (d : disk) : option (lxmf_ticket_store * disk) :=
  match ops with
  | [] => Some (s, d)
  | op :: ops => x ← ticket_step op s d; let '(_, s, d) := x in ticket_run ops s d
  end.

Lemma outbound_ok p t : hash_ok p -> in_width 64 t.(expires_at) -> hash_ok t.(entry_ticket) ->
  entry_ok {| kind := TICKET_OUTBOUND; peer := p; time := t.(expires_at); ticket := t.(entry_ticket) |}.
Proof. done. Qed.

Lemma delivered_ok p now : hash_ok p -> in_width 64 now -> entry_ok {| kind := TICKET_LAST_DELIVERY; peer := p; time := now; ticket := replicate 16 0 |}.
Proof. intros Hp Hn. constructor; [done|done|done|]. split; [done|]. apply Forall_replicate. unfold in_width. lia. Qed.

Lemma ticket_step_spec op s d : wf s -> op_ok op -> exists st s' d', ticket_step op s d = Some (st, s', d') /\ transaction (op_time op) s d st s' d'.
Proof.
  intros Hs [Hn Hop]. destruct op as [p now seed io|p t now io|p now io|mo now io]; cbn [ticket_step op_time] in *.
  - destruct Hop as [Hp Hb]. destruct (issue_spec s p now seed io d Hs Hp Hb Hn) as (st & s' & d' & t & c & -> & Htr & _). by exists st, s', d'.
  - destruct Hop as (Hp & Ht & Hk). unfold lxmf_ticket_store_remember_outbound. destruct (_ <=? _). { exists LXMF_ERR_ARGUMENT, s, d. split; [done|]. by apply transaction_refl. }
    destruct (put_entry_spec s _ io d now Hs (outbound_ok p t Hp Ht Hk) ltac:(done)) as (st & s' & d' & -> & Htr & _). by exists st, s', d'.
  - destruct (put_entry_spec s _ io d now Hs (delivered_ok p now Hop Hn) ltac:(done)) as (st & s' & d' & Hput & Htr & _). by exists st, s', d'.
  - destruct (cleanup_spec mo s now io d Hs) as (st & s' & d' & -> & Htr & _). by exists st, s', d'.
Qed.

(** The store in memory and the file agree. *)
Definition consistent (s : lxmf_ticket_store) (d : disk) : Prop := wf s /\ reloads s.(path) d (live s).

Lemma transaction_consistent now s d st s' d' : consistent s d -> transaction now s d st s' d' -> consistent s' d'.
Proof.
  intros [Hs Hr] [Hw Hp Hf Hd _]. split; [done|]. rewrite Hp. destruct (decide (st = LXMF_OK)) as [E|E].
  - destruct (Hd E) as [[-> Hfile]|Hfile]; [by eapply reloads_file|]. apply reloads_image; [apply (wf_entries _ Hw)|rewrite length_live by done; apply (wf_count _ Hw)|apply (wf_path _ Hs)|done].
  - destruct (Hf E) as [-> Hfile]. by eapply reloads_file.
Qed.

Lemma ticket_run_spec ops s d : consistent s d -> Forall op_ok ops ->
  exists s' d', ticket_run ops s d = Some (s', d') /\ consistent s' d' /\ s'.(path) = s.(path) /\
    forall e, e ∈ live s -> e.(kind) = TICKET_INBOUND -> Forall (λ op, op_time op < e.(time)) ops -> e ∈ live s'.
Proof.
  intros Hc Hops. revert s d Hc. induction Hops as [|op ops Hop Hops IH]; intros s d Hc; cbn [ticket_run]; [by exists s, d|].
  destruct (ticket_step_spec op s d (proj1 Hc) Hop) as (st & s1 & d1 & -> & Htr). cbn [mbind option_bind].
  destruct (IH s1 d1 (transaction_consistent _ _ _ _ _ _ Hc Htr)) as (s2 & d2 & Hr & Hc2 & Hp2 & Hin). exists s2, d2. split_and!; [done|done|by rewrite Hp2; apply Htr|].
  intros e He Hk Ht. apply Forall_cons_1 in Ht as [Ht1 Ht2]. apply Hin; [|done|done]. by apply (tr_inbound _ _ _ _ _ _ Htr).
Qed.

(** C14: the file and the memory of a ticket store agree. Opening any file is memory
    safe; from a store that was opened, any sequence of operations, with any of the
    system calls failing anywhere, is defined, and opening the file again gives the
    tickets in memory. An operation that reports a failure has changed neither. *)
Theorem ticket_store_consistent calloc_ok p d ops op :
  Forall op_ok (op :: ops) -> bytes_ok (default [] d.(file)) ->
  exists st os, lxmf_ticket_store_open calloc_ok (Some p) (all_read (length (default [] d.(file)))) d = Some (st, os) /\
    forall s, st = LXMF_OK -> os = Some s ->
    exists s1 d1 st2 s2 d2, ticket_run ops s d = Some (s1, d1) /\ ticket_step op s1 d1 = Some (st2, s2, d2) /\
      (exists sr, lxmf_ticket_store_open true (Some p) (all_read (length (default [] d2.(file)))) d2 = Some (LXMF_OK, Some sr) /\ live sr = live s2) /\
      (st2 <> LXMF_OK -> live s2 = live s1 /\ d2.(file) = d1.(file)).
Proof.
  intros Hops Hb. apply Forall_cons_1 in Hops as [Hop Hops]. unfold lxmf_ticket_store_open. destruct p as [|c p]; [by eexists _, _|]. fold (fresh_store (c :: p)).
  destruct (Nat.ltb_spec LXMF_TICKET_STORE_PATH_MAX (length (c :: p))) as [?|Hp]; [by eexists _, _|]. destruct (negb calloc_ok); [by eexists _, _|].
  assert (exists st s, load (all_read (length (default [] d.(file)))) (fresh_store (c :: p)) d = Some (st, s) /\ path s = c :: p /\ (st = LXMF_OK -> wf s)) as (st & s & Hload & Hpath & Hwf).
  { unfold load. cbn [all_read r_open negb]. destruct (file d) as [bytes|]; [|by exists LXMF_OK, (fresh_store (c :: p)); split_and!; [done|done|intros _; apply fresh_wf]].
    cbn [all_read r_open r_limit r_close negb default] in *. destruct (load_stream_total (take (length bytes) bytes) (fresh_store (c :: p))) as (st & s & Hs & Hps & Hw);
      [by apply Forall_take|by apply length_replicate|done|]. unfold id in *. rewrite (bind_Some_eq _ _ _ Hs). by exists st, s. }
  rewrite Hload. cbn [mbind option_bind]. eexists _, _. split; [done|]. intros s' -> E. rewrite bool_decide_true in E by done. injection E as <-.
  assert (consistent s d) as Hc by (split; [by apply Hwf|]; rewrite Hpath; by exists s).
  destruct (ticket_run_spec ops s d Hc Hops) as (s1 & d1 & Hrun & Hc1 & Hp1 & _). destruct (ticket_step_spec op s1 d1 (proj1 Hc1) Hop) as (st2 & s2 & d2 & Hstep & Htr).
  destruct (transaction_consistent _ _ _ _ _ _ Hc1 Htr) as [_ (sr & Hsr & Hlr)]. rewrite (tr_path _ _ _ _ _ _ Htr), Hp1, Hpath in Hsr.
  exists s1, d1, st2, s2, d2. split_and!; [done|done| |by apply Htr]. exists sr. fold (fresh_store (c :: p)). rewrite Hsr. done.
Qed.

(** ** Stamps from tickets *)

Lemma validate_from_spec s p now mid stamp todo i :
  wf s -> (i + todo <= s.(count))%nat -> length mid = 32%nat -> length stamp = 16%nat -> bytes_ok stamp ->
  exists st, validate_from s p now mid stamp todo i = Some st /\ (st = LXMF_OK \/ st = LXMF_ERR_FORMAT) /\
    (st = LXMF_OK <-> exists e, e ∈ take todo (drop i (live s)) /\ e.(kind) = TICKET_INBOUND /\ e.(peer) = p /\ now < e.(time) /\
                        Stamp.lxmf_ticket_stamp e.(ticket) mid = Some stamp).
Proof.
  intros Hs Hi Hm Hst Hb. revert i Hi. induction todo as [|todo IH]; intros i Hi; cbn [validate_from].
  { exists LXMF_ERR_FORMAT. split_and!; [done|by right|]. split; [done|]. intros (e & He & _). by apply elem_of_nil in He. }
  destruct (entry_at s i Hs ltac:(lia)) as (e & -> & He & Hok). cbn [mbind option_bind]. destruct (IH (S i) ltac:(lia)) as (st & Hv & Hor & Hiff). rewrite (drop_S _ _ _ He). cbn [take].
  assert (exists b : bool, (if same_peer e TICKET_INBOUND p && (now <? time e) then Stamp.lxmf_ticket_stamp_valid stamp (ticket e) mid else Some false) = Some b /\
    (b = true <-> e.(kind) = TICKET_INBOUND /\ e.(peer) = p /\ now < e.(time) /\ Stamp.lxmf_ticket_stamp e.(ticket) mid = Some stamp)) as (b & -> & Hbiff).
  { destruct (Stamp.ticket_stamp_valid_spec stamp (ticket e) mid (proj1 (eo_ticket _ Hok)) Hm Hst Hb) as (want & Hw & _ & _ & _ & Hvalid). destruct (_ && _) eqn:G.
    - apply andb_prop in G as [[G1%Z.eqb_eq G2%memeq_true]%andb_prop G3%Z.ltb_lt]. rewrite Hvalid. eexists. split; [done|]. rewrite bool_decide_eq_true, Hw.
      split; [intros ->; done|intros (_ & _ & _ & [= <-]); done].
    - eexists. split; [done|]. split; [done|]. intros (Hk & Hp & Ht & _). unfold same_peer in G. rewrite Hk, Hp, Z.eqb_refl, memeq_refl, (proj2 (Z.ltb_lt _ _)) in G by done. done. }
  cbn [mbind option_bind]. destruct b.
  - exists LXMF_OK. split_and!; [done|by left|]. split; [|done]. intros _. exists e. split; [by left|by apply Hbiff].
  - exists st. split_and!; [done|done|]. rewrite Hiff. split; intros (y & Hy & Hrest).
    + exists y. split; [by right|done].
    + apply elem_of_cons in Hy as [->|Hy]; [|by exists y]. apply Hbiff in Hrest. done.
Qed.

Lemma validate_inbound_spec s p now mid stamp :
  wf s -> length mid = 32%nat -> length stamp = 16%nat -> bytes_ok stamp ->
  exists st, lxmf_ticket_store_validate_inbound s p now mid stamp = Some st /\ (st = LXMF_OK \/ st = LXMF_ERR_FORMAT) /\
    (st = LXMF_OK <-> exists e, e ∈ live s /\ e.(kind) = TICKET_INBOUND /\ e.(peer) = p /\ now < e.(time) /\ Stamp.lxmf_ticket_stamp e.(ticket) mid = Some stamp).
Proof.
  intros Hs Hm Hst Hb. destruct (validate_from_spec s p now mid stamp (count s) 0 Hs ltac:(lia) Hm Hst Hb) as (st & Hv & Hor & Hiff). exists st.
  rewrite drop_0, take_ge in Hiff by (by rewrite length_live). done.
Qed.

(** What was put under a kind and a peer is what is found there. *)
Lemma find_upsert e l : list_find (λ x, same_peer x e.(kind) e.(peer)) (upsert e l) =
  Some (default (length l) (fst <$> list_find (λ x, same_peer x e.(kind) e.(peer)) l), e).
Proof.
  assert (Is_true (same_peer e e.(kind) e.(peer))) as Hself by (unfold same_peer; by rewrite Z.eqb_refl, memeq_refl).
  unfold upsert. destruct (list_find _ l) as [[i x]|] eqn:Ef; cbn.
  - apply list_find_Some in Ef as (Hx & _ & Hbefore). apply list_find_Some. pose proof (lookup_lt_Some _ _ _ Hx). rewrite list_lookup_insert_eq by done. split_and!; [done|done|].
    intros j y Hj Hji. rewrite list_lookup_insert_ne in Hj by lia. by apply (Hbefore j y).
  - apply list_find_None in Ef. apply list_find_Some. rewrite list_lookup_middle by done. split_and!; [done|done|]. intros j y Hj Hji.
    rewrite lookup_app_l in Hj by done. by apply (Forall_lookup_1 _ _ _ _ Ef Hj).
Qed.

Lemma find_one_upsert e s l : wf s -> live s = upsert e l -> exists i, find_one s e.(kind) e.(peer) = Some (Some i) /\ s.(entries) !! i = Some e.
Proof.
  intros Hs Hl. rewrite find_one_spec, Hl, find_upsert by done. eexists. split; [done|]. pose proof (find_upsert e l) as (Hx & _)%list_find_Some. rewrite <-Hl in Hx.
  pose proof (lookup_lt_Some _ _ _ Hx) as Hi. rewrite length_live in Hi by done. by rewrite live_lookup in Hx.
Qed.

(** C15: issued tickets are honoured. A ticket that one node issues to a peer and the
    peer remembers stamps the messages of the peer until it expires: whatever the
    issuer does with its store in the meantime, failing writes included, its check
    accepts the stamp. *)
Theorem ticket_honoured a b da db me you now seed io a1 da1 t created now1 io1 b1 db1 ops mid now2 now3 :
  consistent a da -> wf b -> hash_ok me -> hash_ok you -> in_width 64 now ->
  lxmf_ticket_store_issue a you now seed io da = Some (LXMF_OK, a1, da1, Some t, created) ->
  lxmf_ticket_store_remember_outbound b me t now1 io1 db = Some (LXMF_OK, b1, db1) ->
  Forall op_ok ops -> Forall (λ op, op_time op < t.(expires_at)) ops ->
  now2 < t.(expires_at) -> now3 < t.(expires_at) -> length mid = 32%nat ->
  exists a2 da2 stamp, ticket_run ops a1 da1 = Some (a2, da2) /\
    lxmf_ticket_store_stamp_outbound b1 me now2 mid = Some (LXMF_OK, Some stamp) /\
    lxmf_ticket_store_validate_inbound a2 you now3 mid stamp = Some LXMF_OK.
Proof.
  intros Ha Hb Hme [Hy1 Hy2] Hnow Hissue Hrem Hops Htimes Hn2 Hn3 Hm.
  destruct (issue_spec a you now seed io da (proj1 Ha) Hy1 Hy2 Hnow) as (st & s' & d' & t' & c' & Hi & Htr & _ & Hin). rewrite Hissue in Hi. simplify_eq.
  destruct (Hin t eq_refl) as (e & He & Hk & Hp & Ht & ->). pose proof (transaction_consistent _ _ _ _ _ _ Ha Htr) as Hc1. clear Hin. cbn [entry_of expires_at] in *.
  assert (entry_ok e) as Heok by (apply (list.Forall_forall _ (live s')); [apply (wf_entries _ (proj1 Hc1))|done]).
  destruct (ticket_run_spec ops s' d' Hc1 Hops) as (a2 & da2 & Hrun & Hc2 & _ & Hkeep). specialize (Hkeep e He Hk Htimes). exists a2, da2.
  unfold lxmf_ticket_store_remember_outbound in Hrem. destruct (_ <=? _); [done|]. cbn [entry_of expires_at entry_ticket] in Hrem. set (o := {| kind := TICKET_OUTBOUND |}) in Hrem.
  assert (entry_ok o) as Ho by (constructor; [done|done|apply Heok|apply Heok]).
  destruct (put_entry_spec b o io1 db now1 Hb Ho ltac:(done)) as (st & s2 & d2 & Hput & Htr2 & Hl2 & _). rewrite Hrem in Hput. simplify_eq.
  destruct (find_one_upsert o s2 (live b) (tr_wf _ _ _ _ _ _ Htr2) (Hl2 eq_refl)) as (i & Hfind & Hi2).
  destruct (Stamp.sha256_total (ticket e ++ mid)) as (dg & Hdg & Hdl & Hdb).
  destruct (Stamp.ticket_stamp_valid_spec (take 16 dg) (ticket e) mid (proj1 (eo_ticket _ Heok)) Hm) as (want & Hw & Hwl & Hwb & _); [rewrite length_take; lia|by apply Forall_take|].
  exists want. split_and!; [done| |].
  - unfold lxmf_ticket_store_stamp_outbound, lxmf_ticket_store_get_outbound. change (kind o) with TICKET_OUTBOUND in Hfind. change (peer o) with me in Hfind.
    rewrite (bind_Some_eq _ _ (LXMF_OK, Some (entry_of o))); [cbn [entry_of entry_ticket o ticket]; by rewrite (bind_Some_eq _ _ _ Hw)|].
    rewrite (bind_Some_eq _ _ _ Hfind), (bind_Some_eq _ _ _ Hi2). cbn [o time]. by rewrite (proj2 (Z.leb_gt _ _)) by lia.
  - destruct (validate_inbound_spec a2 (peer e) now3 mid want (proj1 Hc2) Hm Hwl Hwb) as (st & -> & _ & Hiff). f_equal. apply Hiff. by exists e.
Qed.

(** A peer that was sent a ticket is not issued another for a day. *)
Lemma issue_throttled s d p now io s1 d1 now' seed io' :
  wf s -> hash_ok p -> in_width 64 now -> lxmf_ticket_store_mark_delivered s p now io d = Some (LXMF_OK, s1, d1) -> now' < now + LXMF_TICKET_INTERVAL_SECONDS ->
  lxmf_ticket_store_issue s1 p now' seed io' d1 = Some (LXMF_ERR_PENDING, s1, d1, None, false).
Proof.
  intros Hs Hp Hn Hm Hlt. unfold lxmf_ticket_store_mark_delivered in Hm. set (o := {| kind := TICKET_LAST_DELIVERY |}) in Hm.
  destruct (put_entry_spec s o io d now Hs (delivered_ok p now Hp Hn) ltac:(done)) as (st & s2 & d2 & Hput & Htr2 & Hl2 & _). rewrite Hm in Hput. simplify_eq.
  destruct (find_one_upsert o s2 (live s) (tr_wf _ _ _ _ _ _ Htr2) (Hl2 eq_refl)) as (i & Hfind & Hi2). unfold lxmf_ticket_store_issue.
  change (kind o) with TICKET_LAST_DELIVERY in Hfind. change (peer o) with p in Hfind. rewrite (bind_Some_eq _ _ _ Hfind), Hi2. cbn [mbind option_bind o time].
  assert ((now' <? now) || (now' - now <? LXMF_TICKET_INTERVAL_SECONDS) = true) as ->; [|done]. rewrite (proj2 (Z.ltb_lt (now' - now) _)), orb_true_r by lia. done.
Qed.

End Runs.

(** *** Two concrete stores *)

Definition no_file : disk := {| file := None; temporary := None |}.
Definition sample_me : list Z := replicate 16 1.
Definition sample_you : list Z := replicate 16 2.

Definition sample_issued : lxmf_status * lxmf_ticket_store * disk * option lxmf_ticket_entry * bool :=
  default (LXMF_ERR_FORMAT, fresh_store [], no_file, None, false) (lxmf_ticket_store_issue (fresh_store [97]) sample_you 1000 [7] all_written no_file).

Definition sample_ticket : lxmf_ticket_entry := default {| expires_at := 0; entry_ticket := [] |} sample_issued.1.2.

Definition sample_remembered : lxmf_status * lxmf_ticket_store * disk :=
  default (LXMF_ERR_FORMAT, fresh_store [], no_file) (lxmf_ticket_store_remember_outbound (fresh_store [98]) sample_me sample_ticket 1010 all_written no_file).

(** A write that fails when the file is renamed. *)
Definition rename_fails : write_io :=
  {| w_open := true; w_write := true; w_flush := true; w_sync := true; w_close := true; w_rename := false; w_left := None |}.

Definition sample_ops : list ticket_op := [Issue sample_me 1020 [8] all_written; Delivered sample_you 1030 rename_fails; Cleanup true 1040 all_written].

Lemma sample_ops_ok : Forall op_ok sample_ops.
Proof.
  assert (forall n, 0 <= n < 5000 -> in_width 64 n) as Hn by (intros n ?; unfold in_width; lia).
  repeat constructor; cbn [op_time]; try (apply Hn; lia); literal_bytes.
Qed.

Lemma fresh_consistent p : (length p <= LXMF_TICKET_STORE_PATH_MAX)%nat -> consistent (fresh_store p) no_file.
Proof. intros Hp. split; [by apply fresh_wf|]. by exists (fresh_store p). Qed.

Lemma ticket_store_consistent_witness :
  exists s s1 d1 sr d2, lxmf_ticket_store_open true (Some [97]) (all_read 0) no_file = Some (LXMF_OK, Some s) /\ ticket_run sample_ops s no_file = Some (s1, d1) /\
    lxmf_ticket_store_open true (Some [97]) (all_read (length (default [] d2.(file)))) d2 = Some (LXMF_OK, Some sr).
Proof.
  destruct (ticket_store_consistent true [97] no_file sample_ops (Cleanup true 2000 rename_fails)) as (st & os & Hopen & Hrun).
  - constructor; [|exact sample_ops_ok]. split; [unfold in_width; cbn; lia|exact I].
  - constructor.
  - assert (Some (LXMF_OK, Some (fresh_store [97])) = Some (st, os)) as E by (rewrite <-Hopen; reflexivity). injection E as <- <-.
    destruct (Hrun _ eq_refl eq_refl) as (s1 & d1 & st2 & s2 & d2 & H1 & _ & (sr & H2 & _) & _).
    exists (fresh_store [97]), s1, d1, sr, d2. split; [reflexivity|]. split; [exact H1|exact H2].
Defined.

Lemma ticket_honoured_witness :
  exists a2 da2 stamp, ticket_run sample_ops sample_issued.1.1.1.2 sample_issued.1.1.2 = Some (a2, da2) /\
    lxmf_ticket_store_validate_inbound a2 sample_you 3000 (replicate 32 4) stamp = Some LXMF_OK.
Proof.
  destruct (ticket_honoured (fresh_store [97]) (fresh_store [98]) no_file no_file sample_me sample_you 1000 [7] all_written
    sample_issued.1.1.1.2 sample_issued.1.1.2 sample_ticket true 1010 all_written sample_remembered.1.2 sample_remembered.2 sample_ops (replicate 32 4) 2000 3000)
    as (a2 & da2 & stamp & H1 & _ & H2).
  - apply fresh_consistent. unfold LXMF_TICKET_STORE_PATH_MAX. cbn. lia.
  - apply fresh_wf. unfold LXMF_TICKET_STORE_PATH_MAX. cbn. lia.
  - split; [reflexivity|literal_bytes].
  - split; [reflexivity|literal_bytes].
  - unfold in_width. lia.
  - vm_compute. reflexivity.
  - vm_compute. reflexivity.
  - exact sample_ops_ok.
  - assert (expires_at sample_ticket = 1815400) as -> by (vm_compute; reflexivity). repeat constructor; cbn; lia.
  - vm_compute. reflexivity.
  - vm_compute. reflexivity.
  - reflexivity.
  - exists a2, da2, stamp. split; [exact H1|exact H2].
Defined.
End Tickets.
