(* ===== verification/RatchetStore.v ===== *)
(** * Ratchet stores

    [identity/ratchet_store.c]: the private ratchet keys of a destination, newest
    first, in memory and in a signed file that every rotation replaces ([Files]). The
    theorems show that memory and file agree whatever fails, that a rotation puts the
    new key in front and forgets the oldest, and that messages to a ratchet can be
    decrypted while it is retained. *)

From Stdlib Require Import ZArith Lia.
From S2P Require Import Prelude Platform Crypto Identity Files.

Module RatchetStore.
Import Identity Files.

(** ** Data *)

Definition RNS_RATCHET_STORE_DEFAULT_RETAINED : nat := 512.
Definition RNS_RATCHET_STORE_DEFAULT_INTERVAL : Z := 1800.
Definition RNS_RATCHET_STORE_MAX_RETAINED : nat := 512.
Definition RNS_RATCHET_STORE_PATH_MAX : nat := 1023.
Definition RATCHET_PACKED_MAX : nat := 3 + RNS_RATCHET_STORE_MAX_RETAINED * (2 + RNS_RATCHET_PRIVATE_SIZE).
Definition RATCHET_FILE_MAX : nat := 1 + 10 + 3 + 64 + 9 + 3 + RATCHET_PACKED_MAX.

(** [private_keys]: the memory of [retained] keys, of which the first [count] are in
    use. *)
Record rns_ratchet_store : Type := {
  path : list Z;
  owner : rns_identity;
  private_keys : list Z;
  count : nat;
  retained : nat;
  interval : Z;
  latest_rotation : Z
}.

Definition set_keys (ks : list Z) (n : nat) (s : rns_ratchet_store) : rns_ratchet_store :=
  {| path := s.(path); owner := s.(owner); private_keys := ks; count := n; retained := s.(retained); interval := s.(interval);
     latest_rotation := s.(latest_rotation) |}.

Definition set_rotation (now : Z) (s : rns_ratchet_store) : rns_ratchet_store :=
  {| path := s.(path); owner := s.(owner); private_keys := s.(private_keys); count := s.(count); retained := s.(retained); interval := s.(interval);
     latest_rotation := now |}.

(** ** Writing *)

Definition put16 (v : Z) : list Z := [wrap8 (Z.shiftr v 8); wrap8 v].
Definition put32 (v : Z) : list Z := [wrap8 (Z.shiftr v 24); wrap8 (Z.shiftr v 16); wrap8 (Z.shiftr v 8); wrap8 v].

Definition pack_bin_header (n : Z) : list Z :=
  if n <=? 0xff then [0xc4; wrap8 n] else if n <=? 0xffff then 0xc5 :: put16 n else 0xc6 :: put32 n.

(** The loop from key [index] on, [todo] keys. *)
Fixpoint pack_keys (s : rns_ratchet_store) (todo index offset : nat) (output : list Z) : option (list Z * nat) :=
  match todo with
  | O => Some (output, offset)
  | S todo =>
      output ← store output offset 0xc4;
      output ← store output (offset + 1) (Z.of_nat RNS_RATCHET_PRIVATE_SIZE);
      key ← memread s.(private_keys) (index * RNS_RATCHET_PRIVATE_SIZE) RNS_RATCHET_PRIVATE_SIZE;
      output ← memcpy output (offset + 2) key;
      pack_keys s todo (S index) (offset + 2 + RNS_RATCHET_PRIVATE_SIZE) output
  end.

Definition pack_ratchets (s : rns_ratchet_store) (output : list Z) : option (list Z * nat) :=
  let n := Z.of_nat s.(count) in
  if n <=? 15 then
    output ← store output 0 (wrap8 (Z.lor 0x90 n)); pack_keys s s.(count) 0 1 output
  else
    output ← store output 0 0xdc; output ← memcpy output 1 (put16 n); pack_keys s s.(count) 0 3 output.

(** "signature" and "ratchets". *)
Definition signature_name : list Z := [115; 105; 103; 110; 97; 116; 117; 114; 101].
Definition ratchets_name : list Z := [114; 97; 116; 99; 104; 101; 116; 115].

Section WithCrypto.
Context `{Crypto}.

Definition persist (io : write_io) (s : rns_ratchet_store) (d : disk) : option (rns_status * disk) :=
  x ← pack_ratchets s (replicate RATCHET_PACKED_MAX 0);
  let '(packed, packed_length) := x in
  packed ← memread packed 0 packed_length;
  match rns_identity_sign s.(owner) packed with
  | None => Some (RNS_ERROR_CRYPTO, d)
  | Some signature =>
      x ← put_all (replicate RATCHET_FILE_MAX 0) 0
            [[0x82]; [0xa9]; signature_name; pack_bin_header 64; signature; [0xa8]; ratchets_name;
             pack_bin_header (Z.of_nat packed_length); packed];
      let '(file_data, offset) := x in
      bytes ← memread file_data 0 offset;
      if (RNS_RATCHET_STORE_PATH_MAX + 5 <=? length s.(path) + 4)%nat then Some (RNS_ERROR_OVERFLOW, d)
      else
        let '(ok, d) := replace_file io bytes d in
        Some (if ok : bool then RNS_OK else RNS_ERROR_IO, d)
  end.

(** ** Reading *)

(** A reader is the bytes from the cursor to the end; [Some None] is
    [return false]. *)
Definition read_number (n : nat) (r : list Z) : option (option (Z * list Z)) :=
  if (length r <? n)%nat then Some None else b ← memread r 0 n; Some (Some (shift_bytes b, drop n r)).

Definition read_length (marker : Z) (r : list Z) : option (option (Z * list Z)) :=
  if (marker =? 0xc4) || (marker =? 0xd9) then read_number 1 r
  else if (marker =? 0xc5) || (marker =? 0xda) then read_number 2 r
  else if (marker =? 0xc6) || (marker =? 0xdb) then read_number 4 r
  else Some None.

(** The [n] bytes at the cursor. *)
Definition read_data (x : option (Z * list Z)) : option (option (list Z * list Z)) :=
  match x with
  | None => Some None
  | Some (n, r) =>
      if Z.of_nat (length r) <? n then Some None
      else data ← memread r 0 (Z.to_nat n); Some (Some (data, drop (Z.to_nat n) r))
  end.

Definition read_bin (r : list Z) : option (option (list Z * list Z)) :=
  match r with [] => Some None | marker :: r => x ← read_length marker r; read_data x end.

Definition read_string (r : list Z) : option (option (list Z * list Z)) :=
  match r with
  | [] => Some None
  | marker :: r =>
      x ← (if Z.land marker 0xe0 =? 0xa0 then Some (Some (Z.land marker 0x1f, r))
           else if marker =? 0xd9 then read_number 1 r
           else if marker =? 0xda then read_number 2 r
           else if marker =? 0xdb then read_number 4 r
           else Some None);
      read_data x
  end.

Definition read_array_count (r : list Z) : option (option (Z * list Z)) :=
  match r with
  | [] => Some None
  | marker :: r =>
      if Z.land marker 0xf0 =? 0x90 then Some (Some (Z.land marker 0x0f, r))
      else if marker =? 0xdc then read_number 2 r
      else if marker =? 0xdd then read_number 4 r
      else Some None
  end.

(** The loop over the two fields: the signature, the packed ratchets, and the rest. *)
Fixpoint read_fields (todo : nat) (r : list Z) (signature packed : option (list Z))
    : option (option (option (list Z) * option (list Z) * list Z)) :=
  match todo with
  | O => Some (Some (signature, packed, r))
  | S todo =>
      x ← read_string r;
      match x with
      | None => Some None
      | Some (key, r) =>
          x ← read_bin r;
          match x with
          | None => Some None
          | Some (value, r) =>
              if (length key =? 9)%nat && memeq key signature_name then read_fields todo r (Some value) packed
              else if (length key =? 8)%nat && memeq key ratchets_name then read_fields todo r signature (Some value)
              else Some None
          end
      end
  end.

(** The loop over the keys of a file. *)
Fixpoint read_keys (s : rns_ratchet_store) (todo index : nat) (r ks : list Z) : option (option (list Z * list Z)) :=
  match todo with
  | O => Some (Some (ks, r))
  | S todo =>
      x ← read_bin r;
      match x with
      | None => Some None
      | Some (key, r) =>
          if negb (length key =? RNS_RATCHET_PRIVATE_SIZE)%nat then Some None
          else
            ks ← (if (index <? s.(retained))%nat then memcpy ks (index * RNS_RATCHET_PRIVATE_SIZE) key else Some ks);
            read_keys s todo (S index) r ks
      end
  end.

Definition load_ratchets (packed : list Z) (s : rns_ratchet_store) : option (rns_status * rns_ratchet_store) :=
  x ← read_array_count packed;
  match x with
  | None => Some (RNS_ERROR_PROTOCOL, s)
  | Some (n, r) =>
      if Z.of_nat RNS_RATCHET_STORE_MAX_RETAINED <? n then Some (RNS_ERROR_PROTOCOL, s)
      else
        let n := Z.to_nat n in
        x ← read_keys s n 0 r s.(private_keys);
        Some (match x with
              | Some (ks, []) => (RNS_OK, set_keys ks (if (n <? s.(retained))%nat then n else s.(retained)) s)
              | _ => (RNS_ERROR_PROTOCOL, s)
              end)
  end.

(** The bytes of a file, at most one more than a store writes. The store as it is
    left when the status is [RNS_OK]. *)
Definition load_bytes (bytes : list Z) (s : rns_ratchet_store) : option (rns_status * rns_ratchet_store) :=
  if (length bytes =? RATCHET_FILE_MAX + 1)%nat then Some (RNS_ERROR_PROTOCOL, s)
  else match bytes with
  | [] => Some (RNS_ERROR_PROTOCOL, s)
  | first :: r =>
      if negb (first =? 0x82) then Some (RNS_ERROR_PROTOCOL, s)
      else
        x ← read_fields 2 r None None;
        match x with
        | None => Some (RNS_ERROR_PROTOCOL, s)
        | Some (Some signature, Some packed, []) =>
            if negb (length signature =? 64)%nat || (RATCHET_PACKED_MAX <? length packed)%nat || negb (rns_identity_verify s.(owner) packed signature)
            then Some (RNS_ERROR_CRYPTO, s)
            else load_ratchets packed s
        | Some _ => Some (RNS_ERROR_CRYPTO, s)
        end
  end.

Definition load (io : read_io) (s : rns_ratchet_store) (d : disk) : option (rns_status * rns_ratchet_store) :=
  if negb io.(r_open) then Some (RNS_ERROR_IO, s)
  else
    match d.(file) with
    | None => Some (RNS_ERROR_NOT_FOUND, s)
    | Some contents =>
        let wanted := take (RATCHET_FILE_MAX + 1) contents in
        let io_error := (io.(r_limit) <? length wanted)%nat in
        if negb io.(r_close) || io_error then Some (RNS_ERROR_IO, s)
        else load_bytes wanted s
    end.

(** ** Operations *)

(** [calloc_ok] and [keys_ok]: whether there is memory for the store and for the
    keys. *)
Definition rns_ratchet_store_open (calloc_ok keys_ok : bool) (name : option (list Z)) (who : option rns_identity) (keep : nat) (every : Z)
    (rio : read_io) (wio : write_io) (d : disk) : option (rns_status * option rns_ratchet_store * disk) :=
  match name, who with
  | Some ((_ :: _) as p), Some who =>
      if negb who.(has_private) || (RNS_RATCHET_STORE_PATH_MAX <? length p)%nat || (RNS_RATCHET_STORE_MAX_RETAINED <? keep)%nat
      then Some (RNS_ERROR_INVALID_ARGUMENT, None, d)
      else if negb calloc_ok || negb keys_ok then Some (RNS_ERROR_NO_MEMORY, None, d)
      else
        let keep := if (keep =? 0)%nat then RNS_RATCHET_STORE_DEFAULT_RETAINED else keep in
        let every := if every =? 0 then RNS_RATCHET_STORE_DEFAULT_INTERVAL else every in
        let s := {| path := p; owner := who; private_keys := replicate (keep * RNS_RATCHET_PRIVATE_SIZE) 0; count := 0; retained := keep;
                    interval := every; latest_rotation := 0 |} in
        x ← load rio s d;
        let '(st, s) := x in
        x ← (match st with RNS_ERROR_NOT_FOUND => persist wio s d | _ => Some (st, d) end);
        let '(st, d) := x in
        Some (st, if is_ok st then Some s else None, d)
  | _, _ => Some (RNS_ERROR_INVALID_ARGUMENT, None, d)
  end.

Definition memmove (m : list Z) (dst src n : nat) : option (list Z) := b ← memread m src n; memcpy m dst b.

(** The rotation: the status, the store and the disk. [seed] for the new key. *)
Definition rotate (s : rns_ratchet_store) (now : Z) (seed : list Z) (io : write_io) (d : disk) : option (rns_status * rns_ratchet_store * disk) :=
  let size := RNS_RATCHET_PRIVATE_SIZE in
  let last := ((s.(retained) - 1) * size)%nat in
  dropped ← memread s.(private_keys) last size;
  match rns_identity_ratchet_generate seed with
  | None => Some (RNS_ERROR_CRYPTO, s, d)
  | Some (next_private, _, _) =>
      let keep := (if s.(count) <? s.(retained) - 1 then s.(count) else s.(retained) - 1)%nat in
      ks ← memmove s.(private_keys) size 0 (keep * size);
      ks ← memcpy ks 0 next_private;
      let s' := set_rotation now (set_keys ks (if s.(count) <? s.(retained) then S s.(count) else s.(count))%nat s) in
      x ← persist io s' d;
      let '(st, d) := x in
      if negb (is_ok st) then
        ks ← memmove ks 0 size (keep * size);
        ks ← (if (s.(count) =? s.(retained))%nat then memcpy ks last dropped else Some ks);
        Some (st, set_keys ks s.(count) s, d)
      else Some (RNS_OK, s', d)
  end.

Definition should_rotate (s : rns_ratchet_store) (now : Z) : bool :=
  (s.(count) =? 0)%nat || ((s.(latest_rotation) <? now) && (s.(interval) <? now - s.(latest_rotation))).

(** The status, the store, the disk, the private key, public key and identifier, and
    whether the store was rotated. *)
Definition rns_ratchet_store_current (s : rns_ratchet_store) (now : Z) (seed : list Z) (io : write_io) (d : disk)
    : option (rns_status * rns_ratchet_store * disk * option (list Z * list Z * list Z) * bool) :=
  x ← (if should_rotate s now then x ← rotate s now seed io d; let '(st, s, d) := x in Some (st, s, d, is_ok st) else Some (RNS_OK, s, d, false));
  let '(st, s, d, rotated) := x in
  if negb (is_ok st) then Some (st, s, d, None, rotated)
  else
    private_key ← memread s.(private_keys) 0 RNS_RATCHET_PRIVATE_SIZE;
    Some (match rns_x25519_public_from_private private_key with
          | None => (RNS_ERROR_CRYPTO, s, d, None, rotated)
          | Some public_key => (RNS_OK, s, d, Some (private_key, public_key, rns_identity_ratchet_id public_key), rotated)
          end).

(** [output]: the memory for the keys, null or [capacity] keys. The status, the memory
    and the number of keys. *)
Definition rns_ratchet_store_copy_private (s : rns_ratchet_store) (output : option (list Z)) (capacity : nat)
    : option (rns_status * option (list Z) * nat) :=
  if negb (capacity =? 0)%nat && bool_decide (output = None) then Some (RNS_ERROR_INVALID_ARGUMENT, output, 0%nat)
  else if (capacity <? s.(count))%nat then Some (RNS_ERROR_OVERFLOW, output, s.(count))
  else
    ks ← memread s.(private_keys) 0 (s.(count) * RNS_RATCHET_PRIVATE_SIZE);
    match output with
    | None => Some (RNS_OK, None, s.(count))
    | Some o => o ← memcpy o 0 ks; Some (RNS_OK, Some o, s.(count))
    end.

Definition rns_ratchet_store_count (s : option rns_ratchet_store) : nat := match s with Some s => s.(count) | None => 0 end.
End WithCrypto.

(** ** Keys in memory *)

Definition is_key (k : list Z) : Prop := length k = 32%nat.

Lemma length_concat_keys K : Forall is_key K -> length (concat K) = (length K * 32)%nat.
Proof. induction 1 as [|k K Hk HK IH]; [done|]. cbn [concat length]. rewrite length_app, IH, Hk. lia. Qed.

Lemma take_keys K n : Forall is_key K -> take (n * 32) (concat K) = concat (take n K).
Proof.
  intros HK. revert n. induction HK as [|k K Hk HK IH]; intros n; [cbn [concat]; by rewrite !take_nil|]. destruct n as [|n]; [done|]. cbn [concat take]. rewrite <-IH.
  replace (S n * 32)%nat with (length k + n * 32)%nat by (rewrite Hk; lia). by rewrite take_app_add.
Qed.

Lemma drop_keys K n : Forall is_key K -> drop (n * 32) (concat K) = concat (drop n K).
Proof.
  intros HK. revert n. induction HK as [|k K Hk HK IH]; intros n; [cbn [concat]; by rewrite !drop_nil|]. destruct n as [|n]; [done|]. cbn [concat drop]. rewrite <-IH.
  replace (S n * 32)%nat with (length k + n * 32)%nat by (rewrite Hk; lia). by rewrite drop_app_add.
Qed.

(** Memory for [n] keys holds [n] keys. *)
Lemma split_keys n m : length m = (n * 32)%nat -> exists K, m = concat K /\ Forall is_key K /\ length K = n.
Proof.
  revert m. induction n as [|n IH]; intros m Hm; [exists []; by apply nil_length_inv in Hm|]. destruct (split_at m 32) as (k & m' & -> & Hk); [lia|]. rewrite length_app in Hm.
  destruct (IH m') as (K & -> & HK & HL); [lia|]. exists (k :: K). split_and!; [done|by constructor|by cbn; rewrite HL].
Qed.

Lemma read_key K i k : Forall is_key K -> K !! i = Some k -> memread (concat K) (i * 32) 32 = Some k.
Proof.
  intros HK Hi. pose proof (lookup_lt_Some _ _ _ Hi) as Hlt. rewrite memread_in by (rewrite length_concat_keys by done; lia). rewrite drop_keys by done. rewrite (drop_S _ _ _ Hi). cbn [concat].
  f_equal. apply take_app_length'. symmetry. by apply (Forall_lookup_1 _ _ _ _ HK Hi).
Qed.

Lemma write_keys K L i : Forall is_key K -> Forall is_key L -> (i + length L <= length K)%nat ->
  memcpy (concat K) (i * 32) (concat L) = Some (concat (take i K ++ L ++ drop (i + length L) K)).
Proof.
  intros HK HL Hi. unfold memcpy. rewrite decide_True by (rewrite !length_concat_keys by done; lia). rewrite length_concat_keys, take_keys by done.
  replace (i * 32 + length L * 32)%nat with ((i + length L) * 32)%nat by lia. rewrite drop_keys by done. by rewrite !concat_app.
Qed.

(** [s] holds [keys], newest first. *)
Record holds (s : rns_ratchet_store) (keys : list (list Z)) : Prop := {
  ho_path : (length s.(path) <= RNS_RATCHET_STORE_PATH_MAX)%nat;
  ho_owner : s.(owner).(has_private) = true;
  ho_retained : (1 <= s.(retained) <= 512)%nat;
  ho_count : s.(count) = length keys;
  ho_memory : exists rest, s.(private_keys) = concat (keys ++ rest) /\ Forall is_key (keys ++ rest) /\ length (keys ++ rest) = s.(retained)
}.

Lemma holds_keys s keys : holds s keys -> Forall is_key keys /\ (length keys <= s.(retained))%nat.
Proof. intros [_ _ _ _ (rest & _ & [Hk _]%Forall_app & Hl)]. rewrite length_app in Hl. split; [done|lia]. Qed.

(** ** The file *)

Definition key_image (k : list Z) : list Z := 0xc4 :: 32 :: k.

Definition packed_image (keys : list (list Z)) : list Z :=
  (if (length keys <=? 15)%nat then [0x90 + Z.of_nat (length keys)] else 0xdc :: be_encode 2 (Z.of_nat (length keys))) ++ concat (key_image <$> keys).

Lemma length_key_images keys : Forall is_key keys -> length (concat (key_image <$> keys)) = (length keys * 34)%nat.
Proof. induction 1 as [|k keys Hk HK IH]; [done|]. cbn [fmap list_fmap concat length]. rewrite length_app, IH. cbn. rewrite Hk. lia. Qed.

Lemma length_packed keys : Forall is_key keys -> (length keys <= 512)%nat -> (length (packed_image keys) <= RATCHET_PACKED_MAX)%nat.
Proof.
  intros Hk Hl. unfold packed_image. rewrite length_app, length_key_images by done. unfold RATCHET_PACKED_MAX, RNS_RATCHET_STORE_MAX_RETAINED, RNS_RATCHET_PRIVATE_SIZE. case_match; [cbn [length]; lia|].
  cbn [length]. rewrite length_be_encode. lia.
Qed.

Lemma put16_encode v : put16 v = be_encode 2 v.
Proof. unfold put16, wrap. by rewrite Z.shiftr_div_pow2 by lia. Qed.

Lemma pack_keys_spec s keys l1 l2 o w N :
  holds s keys -> keys = l1 ++ l2 -> wrote N o w -> (length w + length l2 * 34 <= N)%nat ->
  exists o', pack_keys s (length l2) (length l1) (length w) o = Some (o', length w + length l2 * 34)%nat /\ wrote N o' (w ++ concat (key_image <$> l2)).
Proof.
  intros Hs. revert l1 o w. induction l2 as [|k l2 IH]; intros l1 o w E Hw HN; cbn [pack_keys length].
  { exists o. cbn. by rewrite Nat.add_0_r, app_nil_r. }
  destruct (wrote_store _ _ _ 0xc4 Hw) as (o1 & -> & Hw1); [cbn [length] in HN; lia|]. cbn [mbind option_bind].
  destruct (wrote_store _ _ _ 32 Hw1) as (o2 & Ho2 & Hw2); [rewrite length_app; cbn [length] in *; lia|]. rewrite length_app in Ho2. cbn [length] in Ho2.
  change (Z.of_nat RNS_RATCHET_PRIVATE_SIZE) with 32. rewrite (bind_Some_eq _ _ _ Ho2). destruct (ho_memory _ _ Hs) as (rest & Hmem & Hkeys & _).
  assert ((keys ++ rest) !! length l1 = Some k) as Hk by (rewrite E, <-app_assoc; by apply list_lookup_middle).
  change RNS_RATCHET_PRIVATE_SIZE with 32%nat. rewrite Hmem, (bind_Some_eq _ _ _ (read_key _ _ _ Hkeys Hk)). pose proof (Forall_lookup_1 _ _ _ _ Hkeys Hk) as Hkl.
  destruct (wrote_memcpy _ _ _ k Hw2) as (o3 & Ho3 & Hw3); [rewrite !length_app, Hkl; cbn [length] in *; lia|]. rewrite !length_app in Ho3. cbn [length] in Ho3.
  replace (length w + 1 + 1)%nat with (length w + 2)%nat in Ho3 by lia. rewrite (bind_Some_eq _ _ _ Ho3).
  specialize (IH (l1 ++ [k]) o3 _ ltac:(by rewrite <-app_assoc) Hw3). rewrite !length_app, Hkl in IH. cbn [length] in IH, HN.
  replace (length l1 + 1)%nat with (S (length l1)) in IH by lia. replace (length w + 1 + 1 + 32)%nat with (length w + 2 + 32)%nat in IH by lia.
  destruct IH as (o' & Hp & Hw'); [lia|]. exists o'. rewrite Hp. split; [do 2 f_equal; lia|]. cbn [fmap list_fmap concat]. unfold key_image at 1. by rewrite <-!app_assoc in Hw'.
Qed.

Lemma pack_ratchets_spec s keys : holds s keys ->
  exists o n, pack_ratchets s (replicate RATCHET_PACKED_MAX 0) = Some (o, n) /\ memread o 0 n = Some (packed_image keys) /\ n = length (packed_image keys).
Proof.
  intros Hs. destruct (holds_keys _ _ Hs) as [Hkeys Hlen]. pose proof (ho_retained _ _ Hs) as Hr. unfold pack_ratchets. rewrite (ho_count _ _ Hs).
  pose proof (wrote_nil RATCHET_PACKED_MAX _ (length_replicate RATCHET_PACKED_MAX 0)) as H0. pose proof (length_packed keys Hkeys ltac:(lia)) as HP. unfold packed_image in *.
  destruct (Z.leb_spec (Z.of_nat (length keys)) 15); [rewrite (proj2 (Nat.leb_le _ _)) in * by lia|rewrite (proj2 (Nat.leb_gt _ _)) in * by lia].
  - assert (wrap8 (Z.lor 0x90 (Z.of_nat (length keys))) = 0x90 + Z.of_nat (length keys)) as ->.
    { assert (length keys <= 15)%nat as Hle by lia. revert Hle. clear. generalize (length keys). intros n Hn. do 16 (destruct n as [|n]; [done|]). lia. }
    destruct (wrote_store _ _ _ (0x90 + Z.of_nat (length keys)) H0) as (o1 & Ho1 & Hw1); [cbn; lia|]. rewrite (bind_Some_eq _ _ _ Ho1).
    destruct (pack_keys_spec s keys [] keys o1 _ _ Hs eq_refl Hw1) as (o2 & Hp & Hw2); [rewrite length_app, length_key_images in HP by done; cbn [app length] in *; lia|].
    cbn [app length] in *. rewrite Hp. exists o2, (1 + length keys * 34)%nat. split; [done|]. pose proof (wrote_read _ _ _ Hw2) as Hread. cbn [app length] in Hread.
    rewrite length_key_images in Hread by done. split; [done|]. cbn [length]. by rewrite length_key_images.
  - destruct (wrote_store _ _ _ 0xdc H0) as (o1 & Ho1 & Hw1); [cbn; lia|]. rewrite (bind_Some_eq _ _ _ Ho1). rewrite put16_encode. cbn [app] in Hw1.
    rewrite length_app, length_key_images in HP by done. cbn [length] in HP. rewrite length_be_encode in HP.
    destruct (wrote_memcpy _ _ _ (be_encode 2 (Z.of_nat (length keys))) Hw1) as (o2 & Ho2 & Hw2); [rewrite length_be_encode; cbn [length]; lia|].
    rewrite (bind_Some_eq _ _ _ Ho2). assert (length ([0xdc] ++ be_encode 2 (Z.of_nat (length keys))) = 3%nat) as H3 by (by rewrite length_app, length_be_encode).
    destruct (pack_keys_spec s keys [] keys o2 _ _ Hs eq_refl Hw2) as (o3 & Hp & Hw3); [rewrite H3; lia|]. rewrite H3 in Hp. change (length []) with 0%nat in Hp. rewrite Hp.
    exists o3, (3 + length keys * 34)%nat. split; [done|]. pose proof (wrote_read _ _ _ Hw3) as Hread. rewrite length_app, H3, length_key_images in Hread by done.
    split; [done|]. rewrite length_app, length_key_images by done. cbn [length]. by rewrite length_be_encode.
Qed.

Section Specification.
Context `{Crypto}.

Definition file_image (keys : list (list Z)) (signature : list Z) : list Z :=
  concat [[0x82]; [0xa9]; signature_name; pack_bin_header 64; signature; [0xa8]; ratchets_name; pack_bin_header (Z.of_nat (length (packed_image keys)));
          packed_image keys].

Lemma length_bin_header n : (2 <= length (pack_bin_header n) <= 5)%nat.
Proof. unfold pack_bin_header. repeat case_match; cbn; lia. Qed.

Lemma length_packed_header keys : Forall is_key keys -> (length keys <= 512)%nat -> (length (pack_bin_header (Z.of_nat (length (packed_image keys)))) <= 3)%nat.
Proof.
  intros Hk Hl. pose proof (length_packed keys Hk Hl) as HP. unfold RATCHET_PACKED_MAX, RNS_RATCHET_STORE_MAX_RETAINED, RNS_RATCHET_PRIVATE_SIZE in HP.
  unfold pack_bin_header. repeat case_match; cbn; lia.
Qed.

Lemma length_file keys sig : Forall is_key keys -> (length keys <= 512)%nat -> length sig = 64%nat -> (length (file_image keys sig) <= RATCHET_FILE_MAX)%nat.
Proof.
  intros Hk Hl Hs. pose proof (length_packed keys Hk Hl) as HP. pose proof (length_packed_header keys Hk Hl). unfold file_image, RATCHET_FILE_MAX. cbn [concat].
  rewrite !length_app, Hs. cbn [length signature_name ratchets_name]. change (length (pack_bin_header 64)) with 2%nat. lia.
Qed.

(** Persisting replaces the file by the signed image of the keys, or leaves it. *)
Lemma persist_spec io s keys d : holds s keys ->
  exists st d', persist io s d = Some (st, d') /\
    (if is_ok st then exists sig, rns_identity_sign s.(owner) (packed_image keys) = Some sig /\ d'.(file) = Some (file_image keys sig) else d'.(file) = d.(file)) /\
    (io = all_written -> is_Some (rns_identity_sign s.(owner) (packed_image keys)) -> st = RNS_OK).
Proof.
  intros Hs. destruct (holds_keys _ _ Hs) as [Hk Hlen]. pose proof (ho_retained _ _ Hs) as Hr. pose proof (ho_path _ _ Hs) as Hp. unfold persist.
  destruct (pack_ratchets_spec s keys Hs) as (o & n & -> & Hread & ->). cbn [mbind option_bind]. rewrite (bind_Some_eq _ _ _ Hread).
  destruct (rns_identity_sign (owner s) (packed_image keys)) as [sig|] eqn:Hsig; [|by eexists _, d; split_and!; [done|done|intros _ []]].
  assert (length sig = 64%nat) as Hl64 by (unfold rns_identity_sign in Hsig; case_match; [by eapply sign_length|done]).
  destruct (put_all_wrote RATCHET_FILE_MAX [[0x82]; [0xa9]; signature_name; pack_bin_header 64; sig; [0xa8]; ratchets_name;
    pack_bin_header (Z.of_nat (length (packed_image keys))); packed_image keys] (replicate RATCHET_FILE_MAX 0) []) as (f & Hf & Hw);
    [apply wrote_nil, length_replicate|fold (file_image keys sig); cbn [length Nat.add]; apply length_file; [done|lia|done]|].
  fold (file_image keys sig) in Hf, Hw. change (length []) with 0%nat in Hf. cbn [Nat.add app] in Hf, Hw. rewrite (bind_Some_eq _ _ _ Hf).
  rewrite (bind_Some_eq _ _ _ (wrote_read _ _ _ Hw)). unfold RNS_RATCHET_STORE_PATH_MAX in *. rewrite (proj2 (Nat.leb_gt _ _)) by lia.
  destruct (replace_file io _ d) as [ok d'] eqn:Er. pose proof (replace_file_spec _ _ _ _ _ Er) as Hd. eexists _, d'. split; [done|]. split.
  - destruct ok; cbn [is_ok]; [by exists sig|done].
  - intros -> _. cbn in Er. by simplify_eq.
Qed.

(** *** Reading it back *)

Lemma read_number_at n v rest : (n <= 8)%nat -> 0 <= v < 256 ^ Z.of_nat n -> read_number n (be_encode n v ++ rest) = Some (Some (v, rest)).
Proof.
  intros Hn Hv. unfold read_number. rewrite (proj2 (Nat.ltb_ge _ _)) by (rewrite length_app, length_be_encode; lia).
  rewrite (bind_Some_eq _ _ (be_encode n v)) by (apply (memread_at _ [] _ rest); [done|done|by rewrite length_be_encode]).
  rewrite shift_bytes_be, be_decode_encode by (done || apply be_encode_bytes || by rewrite length_be_encode). by rewrite drop_app_length' by (by rewrite length_be_encode).
Qed.

Lemma read_data_at n data rest : n = Z.of_nat (length data) -> read_data (Some (n, data ++ rest)) = Some (Some (data, rest)).
Proof.
  intros ->. unfold read_data. rewrite (proj2 (Z.ltb_ge _ _)) by (rewrite length_app; lia). rewrite Nat2Z.id. rewrite (bind_Some_eq _ _ data) by (by apply (memread_at _ [] data rest)).
  by rewrite drop_app_length.
Qed.

Lemma read_bin_at data rest : Z.of_nat (length data) <= 0xffff -> read_bin (pack_bin_header (Z.of_nat (length data)) ++ data ++ rest) = Some (Some (data, rest)).
Proof.
  intros Hl. unfold pack_bin_header. destruct (Z.leb_spec (Z.of_nat (length data)) 0xff).
  - cbn [app read_bin read_length]. change ((0xc4 =? 0xc4) || (0xc4 =? 0xd9)) with true. cbn [orb].
    pose proof (read_number_at 1 (Z.of_nat (length data)) (data ++ rest) ltac:(lia) ltac:(cbn; lia)) as Hn. cbn [be_encode app] in Hn. unfold wrap8, wrap.
    change (2 ^ 8) with 256. rewrite (bind_Some_eq _ _ _ Hn). by apply read_data_at.
  - rewrite (proj2 (Z.leb_le _ _)) by lia. rewrite put16_encode. cbn [app read_bin read_length]. change ((0xc5 =? 0xc4) || (0xc5 =? 0xd9)) with false.
    change ((0xc5 =? 0xc5) || (0xc5 =? 0xda)) with true. cbn [orb]. rewrite (bind_Some_eq _ _ _ (read_number_at 2 (Z.of_nat (length data)) (data ++ rest) ltac:(lia) ltac:(cbn; lia))). by apply read_data_at.
Qed.

(** The memory with the keys [l] in front, as far as there is room. *)
Definition overlay (r : nat) (l R : list (list Z)) : list (list Z) := take r l ++ drop (length l) R.

Lemma overlay_snoc r l k R : length R = r -> overlay r (l ++ [k]) R = if (length l <? r)%nat then <[length l := k]> (overlay r l R) else overlay r l R.
Proof.
  intros HR. unfold overlay. rewrite length_app, Nat.add_1_r. destruct (Nat.ltb_spec (length l) r) as [Hlt|Hge].
  - rewrite !take_ge by (rewrite ?length_app; cbn; lia). destruct (lookup_lt_is_Some_2 R (length l)) as [x Hx]; [lia|].
    rewrite insert_app_r_alt, Nat.sub_diag by lia. rewrite (drop_S _ _ _ Hx). cbn. by rewrite <-app_assoc.
  - rewrite take_app_le by lia. rewrite !drop_ge by lia. done.
Qed.

Lemma overlay_keys r l R : length R = r -> Forall is_key l -> Forall is_key R -> Forall is_key (overlay r l R) /\ length (overlay r l R) = r.
Proof.
  intros HR Hl Hk. unfold overlay. split; [apply Forall_app; split; [by apply Forall_take|by apply Forall_drop]|]. rewrite length_app, length_take, length_drop. lia.
Qed.

Lemma insert_key K i k : Forall is_key K -> is_key k -> (i < length K)%nat -> memcpy (concat K) (i * 32) k = Some (concat (<[i := k]> K)).
Proof.
  intros HK Hk Hi. pose proof (write_keys K [k] i HK ltac:(by constructor)) as Hw. cbn [concat length] in Hw. rewrite app_nil_r in Hw. rewrite Hw by lia.
  rewrite insert_take_drop by done. by rewrite Nat.add_1_r.
Qed.

Lemma read_keys_image s l1 l2 R :
  length R = s.(retained) -> Forall is_key R -> Forall is_key (l1 ++ l2) ->
  read_keys s (length l2) (length l1) (concat (key_image <$> l2)) (concat (overlay s.(retained) l1 R)) = Some (Some (concat (overlay s.(retained) (l1 ++ l2) R), [])).
Proof.
  intros HR HK. revert l1. induction l2 as [|k l2 IH]; intros l1 Hl; cbn [read_keys length]; [by rewrite app_nil_r|].
  pose proof Hl as [Hl1 Hl2]%Forall_app. apply Forall_cons_1 in Hl2 as [Hk _]. cbn [fmap list_fmap concat].
  assert (key_image k ++ concat (key_image <$> l2) = pack_bin_header (Z.of_nat (length k)) ++ k ++ concat (key_image <$> l2)) as -> by (unfold key_image; by rewrite Hk).
  rewrite (bind_Some_eq _ _ _ (read_bin_at k _ ltac:(rewrite Hk; lia))). rewrite Hk. cbn [Nat.eqb negb RNS_RATCHET_PRIVATE_SIZE].
  destruct (overlay_keys (retained s) l1 R HR Hl1 HK) as [Ho Hol].
  specialize (IH (l1 ++ [k]) ltac:(by rewrite <-app_assoc)). rewrite length_app, Nat.add_1_r, <-app_assoc in IH. cbn [app] in IH. rewrite overlay_snoc in IH by done.
  destruct (Nat.ltb_spec (length l1) (retained s)); [|done]. change RNS_RATCHET_PRIVATE_SIZE with 32%nat. rewrite insert_key by (done || lia). cbn [mbind option_bind]. exact IH.
Qed.

(** The store before its file is read. *)
Definition fresh_store (p : list Z) (who : rns_identity) (keep : nat) (every : Z) : rns_ratchet_store :=
  {| path := p; owner := who; private_keys := replicate (keep * RNS_RATCHET_PRIVATE_SIZE) 0; count := 0; retained := keep; interval := every; latest_rotation := 0 |}.

Lemma fresh_holds p who keep every : (length p <= RNS_RATCHET_STORE_PATH_MAX)%nat -> who.(has_private) = true -> (1 <= keep <= 512)%nat ->
  holds (fresh_store p who keep every) [].
Proof.
  intros Hp Hw Hk. constructor; cbn [path owner retained count private_keys fresh_store]; [done|done|done|done|].
  destruct (split_keys keep (replicate (keep * RNS_RATCHET_PRIVATE_SIZE) 0)) as (K & -> & HK & HL); [by rewrite length_replicate|]. by exists K.
Qed.

Lemma read_array_at keys : Forall is_key keys -> (length keys <= 512)%nat ->
  read_array_count (packed_image keys) = Some (Some (Z.of_nat (length keys), concat (key_image <$> keys))).
Proof.
  intros Hk Hl. unfold packed_image. set (body := concat _). destruct (Nat.leb_spec (length keys) 15) as [Hle|Hgt].
  - revert Hle. clear. generalize (length keys). intros n Hn. cbn [app read_array_count]. do 16 (destruct n as [|n]; [done|]). lia.
  - cbn [app read_array_count]. change (Z.land 0xdc 0xf0 =? 0x90) with false. change (0xdc =? 0xdc) with true. apply read_number_at; [lia|]. cbn. lia.
Qed.

Lemma load_ratchets_image s K keys :
  s.(private_keys) = concat K -> Forall is_key K -> length K = s.(retained) -> (1 <= s.(retained))%nat -> Forall is_key keys -> (length keys <= 512)%nat ->
  exists s', load_ratchets (packed_image keys) s = Some (RNS_OK, s') /\ s' = set_keys (concat (overlay s.(retained) keys K)) (Nat.min (length keys) s.(retained)) s.
Proof.
  intros Hm HK HL Hr Hk Hl. unfold load_ratchets. rewrite (bind_Some_eq _ _ _ (read_array_at keys Hk Hl)).
  rewrite (proj2 (Z.ltb_ge _ _)) by (unfold RNS_RATCHET_STORE_MAX_RETAINED; lia). rewrite Nat2Z.id, Hm.
  pose proof (read_keys_image s [] keys K HL HK Hk) as Hread. cbn [app length] in Hread. unfold overlay in Hread at 1. cbn [take app length drop] in Hread. rewrite take_nil in Hread. cbn [app] in Hread.
  rewrite (bind_Some_eq _ _ _ Hread). eexists. split; [done|]. f_equal. destruct (Nat.ltb_spec (length keys) (retained s)); lia.
Qed.

(** The memory of a store always reads as keys. *)
Lemma holds_set s keys m c : holds s keys -> length m = (s.(retained) * 32)%nat -> (c <= s.(retained))%nat -> exists keys', holds (set_keys m c s) keys'.
Proof.
  intros [Hp Ho Hr _ _] Hm Hc. destruct (split_keys _ _ Hm) as (K & -> & HK & HL). exists (take c K).
  constructor; cbn [set_keys path owner retained count private_keys]; [done|done|done|rewrite length_take; lia|]. exists (drop c K). by rewrite take_drop.
Qed.

Lemma holds_rotation s keys now : holds s keys -> holds (set_rotation now s) keys.
Proof. intros [Hp Ho Hr Hc Hm]. by constructor. Qed.

(** *** Any file *)

Lemma read_number_total n r : exists x, read_number n r = Some x.
Proof. unfold read_number. destruct (Nat.ltb_spec (length r) n); [by eexists|]. rewrite memread_in by lia. by eexists. Qed.

Lemma read_data_total x : exists y, read_data x = Some y.
Proof. unfold read_data. destruct x as [[n r]|]; [|by eexists]. destruct (Z.ltb_spec (Z.of_nat (length r)) n); [by eexists|]. rewrite memread_in by lia. by eexists. Qed.

Lemma read_bin_total r : exists x, read_bin r = Some x.
Proof.
  unfold read_bin, read_length. destruct r as [|marker r]; [by eexists|].
  repeat case_match; try (destruct (read_number_total 1 r) as [x ->]); try (destruct (read_number_total 2 r) as [y ->]); try (destruct (read_number_total 4 r) as [z ->]); cbn [mbind option_bind];
    apply read_data_total.
Qed.

Lemma read_string_total r : exists x, read_string r = Some x.
Proof.
  unfold read_string. destruct r as [|marker r]; [by eexists|].
  repeat case_match; try (destruct (read_number_total 1 r) as [x ->]); try (destruct (read_number_total 2 r) as [y ->]); try (destruct (read_number_total 4 r) as [z ->]); cbn [mbind option_bind];
    apply read_data_total.
Qed.

Lemma read_fields_total todo r sig packed : exists x, read_fields todo r sig packed = Some x.
Proof.
  revert r sig packed. induction todo as [|todo IH]; intros r sig packed; cbn [read_fields]; [by eexists|].
  destruct (read_string_total r) as [[[key r1]|] ->]; cbn [mbind option_bind]; [|by eexists]. destruct (read_bin_total r1) as [[[value r2]|] ->]; cbn [mbind option_bind]; [|by eexists].
  repeat case_match; first [by apply IH|by eexists].
Qed.

Lemma read_array_total r : exists x, read_array_count r = Some x.
Proof. unfold read_array_count. repeat case_match; first [by eexists|apply read_number_total]. Qed.

Lemma read_keys_total s todo i r ks : length ks = (s.(retained) * 32)%nat ->
  exists x, read_keys s todo i r ks = Some x /\ forall ks' r', x = Some (ks', r') -> length ks' = (s.(retained) * 32)%nat.
Proof.
  revert i r ks. induction todo as [|todo IH]; intros i r ks Hks; cbn [read_keys]; [eexists; split; [done|]; by intros ? ? [= <- <-]|].
  destruct (read_bin_total r) as [[[key r1]|] ->]; cbn [mbind option_bind]; [|by eexists]. destruct (Nat.eqb_spec (length key) RNS_RATCHET_PRIVATE_SIZE) as [Hk|]; cbn [negb]; [|by eexists].
  destruct (Nat.ltb_spec i (retained s)); [|cbn [mbind option_bind]; by apply IH]. change RNS_RATCHET_PRIVATE_SIZE with 32%nat in *.
  unfold memcpy. rewrite decide_True by lia. cbn [mbind option_bind]. apply IH. rewrite !length_app, length_take, length_drop. lia.
Qed.

Lemma load_total io s keys d : holds s keys ->
  exists st s', load io s d = Some (st, s') /\ (st = RNS_OK -> exists ks n keys', s' = set_keys ks n s /\ holds s' keys') /\ (st = RNS_ERROR_NOT_FOUND -> s' = s).
Proof.
  intros Hs. assert (length (private_keys s) = (retained s * 32)%nat) as Hm.
  { destruct (ho_memory _ _ Hs) as (rest & -> & HK & <-). by apply length_concat_keys. }
  unfold load, load_bytes, load_ratchets. destruct (negb (r_open io)); [by eexists _, _|]. destruct (file d) as [contents|]; [|by eexists _, _]. destruct (_ || _); [by eexists _, _|].
  destruct (_ =? _)%nat; [by eexists _, _|]. destruct (take _ contents) as [|first r]; [by eexists _, _|]. destruct (negb (first =? 0x82)); [by eexists _, _|].
  destruct (read_fields_total 2 r None None) as [x ->]. cbn [mbind option_bind]. destruct x as [[[[sig|] [packed|]] [|b r']]|]; [|by eexists _, _..]. destruct (_ || _); [by eexists _, _|].
  destruct (read_array_total packed) as [[[n r']|] ->]; cbn [mbind option_bind]; [|by eexists _, _]. destruct (_ <? n); [by eexists _, _|].
  destruct (read_keys_total s (Z.to_nat n) 0 r' (private_keys s) Hm) as (x & -> & Hx). cbn [mbind option_bind].
  destruct x as [[ks [|b r'']]|]; [|by eexists _, _..]. specialize (Hx _ _ eq_refl). eexists _, _. split; [done|]. split; [|done]. intros _.
  set (c := (if (Z.to_nat n <? retained s)%nat then Z.to_nat n else retained s)). destruct (holds_set s keys ks c Hs Hx) as [keys' Hh]; [unfold c; case_match eqn:E; [apply Nat.ltb_lt in E|]; lia|]. by exists ks, c, keys'.
Qed.

(** *** The store's own file *)

Lemma read_fields_image keys sig : Forall is_key keys -> (length keys <= 512)%nat -> length sig = 64%nat ->
  read_fields 2 (drop 1 (file_image keys sig)) None None = Some (Some (Some sig, Some (packed_image keys), [])).
Proof.
  intros Hk Hl Hs. pose proof (length_packed keys Hk Hl) as HP. unfold RATCHET_PACKED_MAX, RNS_RATCHET_STORE_MAX_RETAINED, RNS_RATCHET_PRIVATE_SIZE in HP.
  unfold file_image. cbn [concat app drop]. rewrite app_nil_r. set (tail := 0xa8 :: _).
  cbn [read_fields]. rewrite (bind_Some_eq _ _ (Some (signature_name, pack_bin_header 64 ++ sig ++ tail)))
    by (unfold read_string; apply (read_data_at 9 signature_name); done).
  replace 64 with (Z.of_nat (length sig)) by (rewrite Hs; done). rewrite (bind_Some_eq _ _ _ (read_bin_at sig tail ltac:(rewrite Hs; lia))).
  change ((length signature_name =? 9)%nat && memeq signature_name signature_name) with true. cbv iota. unfold tail.
  rewrite (bind_Some_eq _ _ (Some (ratchets_name, pack_bin_header (Z.of_nat (length (packed_image keys))) ++ packed_image keys ++ [])))
    by (unfold read_string; rewrite app_nil_r; apply (read_data_at 8 ratchets_name); done).
  rewrite (bind_Some_eq _ _ _ (read_bin_at (packed_image keys) [] ltac:(lia))). done.
Qed.

(** A store opened with the same number of keys reads the file of [keys] back. *)
Lemma load_keys_image p who keep every keys sig d :
  wf who -> (length p <= RNS_RATCHET_STORE_PATH_MAX)%nat -> who.(has_private) = true -> (1 <= keep <= 512)%nat -> Forall is_key keys -> (length keys <= keep)%nat ->
  rns_identity_sign who (packed_image keys) = Some sig -> d.(file) = Some (file_image keys sig) ->
  exists s, load (all_read (length (default [] d.(file)))) (fresh_store p who keep every) d = Some (RNS_OK, s) /\ holds s keys.
Proof.
  intros Hwf Hp Hpriv Hkeep Hk Hl Hsig Hf.
  assert (length sig = 64%nat) as H64 by (unfold rns_identity_sign in Hsig; rewrite Hpriv in Hsig; by eapply sign_length).
  pose proof (length_file keys sig Hk ltac:(lia) H64) as HF. unfold load. rewrite Hf. cbn [all_read r_open r_limit r_close negb default orb]. unfold id.
  rewrite take_ge by lia. rewrite Nat.ltb_irrefl. unfold load_bytes. rewrite (proj2 (Nat.eqb_neq _ _)) by lia.
  pose proof (read_fields_image keys sig Hk ltac:(lia) H64) as Hread. destruct (file_image keys sig) as [|first r] eqn:E; [done|].
  assert (first = 0x82) as -> by (unfold file_image in E; cbn [concat app] in E; congruence). cbn [Z.eqb negb Pos.eqb]. cbn [drop] in Hread. rewrite (bind_Some_eq _ _ _ Hread).
  assert (rns_identity_verify (owner (fresh_store p who keep every)) (packed_image keys) sig = true) as -> by exact (sign_verify_public who _ _ Hwf Hsig).
  rewrite H64, (proj2 (Nat.ltb_ge _ _)) by (apply length_packed; [done|lia]). cbn [Nat.eqb negb orb].
  destruct (split_keys keep (replicate (keep * 32) 0)) as (K & HK1 & HK2 & HK3); [by rewrite length_replicate|].
  destruct (load_ratchets_image (fresh_store p who keep every) K keys HK1 HK2 HK3 ltac:(cbn; lia) Hk ltac:(lia)) as (s & -> & ->). eexists. split; [done|].
  cbn [fresh_store retained]. rewrite Nat.min_l by done. destruct (overlay_keys keep keys K HK3 Hk HK2) as [Ho1 Ho2]. unfold overlay in *. rewrite take_ge in * by done.
  constructor; cbn [set_keys fresh_store path owner retained count private_keys]; [done|done|done|done|]. by exists (drop (length keys) K).
Qed.

(** ** Rotation *)

(** The keys after a rotation: the new one in front, the oldest forgotten when there
    is no room. *)
Definition pushed (r : nat) (k : list Z) (keys : list (list Z)) : list (list Z) := take r (k :: keys).

Lemma rotated_memory s keys rest k keep :
  s.(private_keys) = concat (keys ++ rest) -> Forall is_key (keys ++ rest) -> length (keys ++ rest) = s.(retained) -> (1 <= s.(retained))%nat -> is_key k ->
  keep = Nat.min (length keys) (s.(retained) - 1) ->
  let K := k :: take keep keys ++ drop (S keep) (keys ++ rest) in
  (ks ← memmove s.(private_keys) 32 0 (keep * 32); memcpy ks 0 k) = Some (concat K) /\ Forall is_key K /\ length K = s.(retained).
Proof.
  intros Hm HK HL Hr Hk Ekeep K. pose proof HL as HL'. rewrite length_app in HL'. assert (take keep (keys ++ rest) = take keep keys) as Etake by (apply take_app_le; lia).
  assert (Forall is_key (take keep keys)) as Htk by (rewrite <-Etake; by apply Forall_take). unfold memmove. rewrite Hm, memread_in by (rewrite length_concat_keys by done; lia).
  rewrite drop_0, take_keys, Etake by done. cbn [mbind option_bind]. pose proof (write_keys _ (take keep keys) 1 HK Htk) as Hw. rewrite length_take, HL in Hw. change (1 * 32)%nat with 32%nat in Hw.
  rewrite Hw by lia. cbn [mbind option_bind]. replace (1 + keep `min` length keys)%nat with (S keep) by lia.
  assert (Forall is_key (take 1 (keys ++ rest) ++ take keep keys ++ drop (S keep) (keys ++ rest))) as HF.
  { repeat (apply Forall_app; split); [by apply Forall_take|done|by apply Forall_drop]. }
  pose proof (insert_key _ 0 k HF Hk) as Hi. cbn [Nat.mul] in Hi. destruct (keys ++ rest) as [|k0 K0] eqn:EK; [cbn in HL; lia|]. rewrite Hi by (cbn; lia). cbn [take app insert list_insert]. rewrite take_0. cbn [app].
  split; [done|]. split; [constructor; [done|by apply Forall_app in HF as [_ ?]]|]. unfold K. rewrite length_cons, length_app, length_take, length_drop. lia.
Qed.

(** Undoing it. *)
Lemma restored_memory s keys rest k keep :
  Forall is_key (keys ++ rest) -> length (keys ++ rest) = s.(retained) -> (1 <= s.(retained))%nat -> is_key k -> keep = Nat.min (length keys) (s.(retained) - 1) ->
  exists dropped rest', memread (concat (keys ++ rest)) ((s.(retained) - 1) * 32) 32 = Some dropped /\
    (ks ← memmove (concat (k :: take keep keys ++ drop (S keep) (keys ++ rest))) 0 32 (keep * 32);
     (if (length keys =? s.(retained))%nat then memcpy ks ((s.(retained) - 1) * 32) dropped else Some ks)) = Some (concat (keys ++ rest')) /\
    Forall is_key (keys ++ rest') /\ length (keys ++ rest') = s.(retained).
Proof.
  intros HK HL Hr Hk Ekeep. pose proof HL as HL'. rewrite length_app in HL'. destruct (lookup_lt_is_Some_2 (keys ++ rest) (retained s - 1)) as [dropped Hd]; [lia|].
  exists dropped. set (K := k :: _). assert (Forall is_key K /\ length K = retained s) as [HKK HKL].
  { unfold K. split; [constructor; [done|]; apply Forall_app; split; [apply Forall_take; by apply Forall_app in HK as [? _]|by apply Forall_drop]|]. cbn [length]. rewrite length_app, length_take, length_drop. lia. }
  assert (Forall is_key (take keep keys)) as Htk by (apply Forall_take; by apply Forall_app in HK as [? _]).
  assert (memmove (concat K) 0 32 (keep * 32) = Some (concat (take keep keys ++ drop keep K))) as Hmm.
  { unfold memmove. rewrite memread_in by (rewrite length_concat_keys by done; lia). pose proof (drop_keys K 1 HKK) as H1. cbn [Nat.mul Nat.add] in H1. rewrite H1, take_keys by (by apply Forall_drop).
    assert (take keep (drop 1 K) = take keep keys) as -> by (unfold K; rewrite skipn_cons, drop_0; apply take_app_length'; rewrite length_take; lia). cbn [mbind option_bind].
    pose proof (write_keys K (take keep keys) 0 HKK Htk) as Hw. rewrite length_take in Hw. cbn [Nat.mul Nat.add] in Hw. rewrite Hw by lia. rewrite take_0. cbn [app].
    by replace (keep `min` length keys)%nat with keep by lia. }
  destruct (Nat.eqb_spec (length keys) (retained s)) as [Hfull|Hnot].
  - exists []. assert (rest = []) as -> by (destruct rest; [done|cbn [length] in HL'; lia]). rewrite app_nil_r in *. split_and!; [by apply read_key| |done|done]. rewrite (bind_Some_eq _ _ _ Hmm).
    rewrite insert_key; [|apply Forall_app; split; [done|by apply Forall_drop]|by apply (Forall_lookup_1 _ _ _ _ HK Hd)|rewrite length_app, length_take, length_drop; lia].
    do 2 f_equal. replace keep with (retained s - 1)%nat by lia. apply list_eq. intros i. rewrite insert_app_r_alt by (rewrite length_take; lia). rewrite length_take.
    rewrite Nat.min_l by lia. rewrite Nat.sub_diag. destruct (drop (retained s - 1) K) as [|k1 [|k2 l]] eqn:EK; apply (f_equal length) in EK; rewrite length_drop in EK; cbn [length] in EK; [lia| |lia].
    cbn [insert list_insert]. rewrite <-(take_drop_middle keys _ dropped Hd) at 2. by rewrite (drop_ge keys) by lia.
  - exists (drop keep K). replace keep with (length keys) in * by lia. rewrite firstn_all in *. split_and!; [by apply read_key|by rewrite (bind_Some_eq _ _ _ Hmm)| |].
    + apply Forall_app; split; [done|by apply Forall_drop].
    + rewrite length_app, length_drop. lia.
Qed.

(** What no operation changes. *)
Definition same_store (s s' : rns_ratchet_store) : Prop :=
  s'.(path) = s.(path) /\ s'.(owner) = s.(owner) /\ s'.(retained) = s.(retained) /\ s'.(interval) = s.(interval).

Lemma same_store_trans s1 s2 s3 : same_store s1 s2 -> same_store s2 s3 -> same_store s1 s3.
Proof. unfold same_store. intros (? & ? & ? & ?) (? & ? & ? & ?). split_and!; congruence. Qed.

Lemma holds_same s keys s' m K rest c :
  holds s keys -> same_store s s' -> s'.(private_keys) = m -> m = concat (K ++ rest) -> Forall is_key (K ++ rest) -> length (K ++ rest) = s.(retained) -> s'.(count) = c -> c = length K ->
  holds s' K.
Proof.
  intros [Hp Ho Hr _ _] (E1 & E2 & E3 & _) Hm E HK HL Hc Hl. constructor; rewrite ?E1, ?E2, ?E3, ?Hc, ?Hm; [done..|]. by exists rest.
Qed.

Lemma rotate_spec s keys now seed io d : holds s keys ->
  exists st s' d', rotate s now seed io d = Some (st, s', d') /\ same_store s s' /\
    (if is_ok st then
       exists k pub sig, rns_x25519_generate seed = Some (k, pub) /\ holds s' (pushed s.(retained) k keys) /\ s'.(latest_rotation) = now /\
         rns_identity_sign s.(owner) (packed_image (pushed s.(retained) k keys)) = Some sig /\ d'.(file) = Some (file_image (pushed s.(retained) k keys) sig)
     else holds s' keys /\ s'.(latest_rotation) = s.(latest_rotation) /\ d'.(file) = d.(file)) /\
    (forall k pub, rns_x25519_generate seed = Some (k, pub) -> io = all_written ->
       is_Some (rns_identity_sign s.(owner) (packed_image (pushed s.(retained) k keys))) -> st = RNS_OK).
Proof.
  intros Hs. destruct (ho_memory _ _ Hs) as (rest & Hm & HK & HL). pose proof (ho_retained _ _ Hs) as Hr. pose proof HL as HL'. rewrite length_app in HL'.
  unfold rotate. change RNS_RATCHET_PRIVATE_SIZE with 32%nat. rewrite (ho_count _ _ Hs). unfold rns_identity_ratchet_generate.
  set (keep := if (length keys <? retained s - 1)%nat then length keys else (retained s - 1)%nat). assert (keep = Nat.min (length keys) (retained s - 1)) as Ekeep by (unfold keep; case_match eqn:E; [apply Nat.ltb_lt in E|apply Nat.ltb_ge in E]; lia).
  destruct (restored_memory s keys rest (replicate 32 0) keep HK HL ltac:(lia) ltac:(done) Ekeep) as (dropped & _ & Hd & _). rewrite Hm, (bind_Some_eq _ _ _ Hd).
  destruct (rns_x25519_generate seed) as [[k pub]|] eqn:Hgen; cbn [mbind option_bind fst snd]; [|by exists RNS_ERROR_CRYPTO, s, d; split_and!].
  assert (is_key k) as Hk by (by apply x_generate_spec in Hgen as [? _]). rewrite <-Hm.
  destruct (rotated_memory s keys rest k keep Hm HK HL ltac:(lia) Hk Ekeep) as (Hrot & HK' & HL2). apply bind_Some in Hrot as (ks & Hmm & Hrot). rewrite (bind_Some_eq _ _ _ Hmm), (bind_Some_eq _ _ _ Hrot).
  assert (pushed (retained s) k keys = k :: take keep keys) as Epush.
  { unfold pushed. destruct (retained s) as [|r] eqn:E; [lia|]. cbn [take]. f_equal. destruct (decide (length keys <= r)%nat); [rewrite !take_ge by lia; done|]. f_equal. lia. }
  set (s1 := set_rotation now _). assert (holds s1 (pushed (retained s) k keys)) as Hs1.
  { rewrite Epush. eapply (holds_same s keys s1 _ _ (drop (S keep) (keys ++ rest)) _ Hs); [done|reflexivity|reflexivity|done|done|reflexivity|]. unfold s1. cbn [length set_rotation set_keys count]. rewrite length_take.
    case_match eqn:E; [apply Nat.ltb_lt in E|apply Nat.ltb_ge in E]; lia. }
  destruct (persist_spec io s1 _ d Hs1) as (st & d' & -> & Hfile & Hok). cbn [mbind option_bind]. change (owner s1) with (owner s) in *. destruct (is_ok st) eqn:Est; cbn [negb].
  - destruct Hfile as (sig & Hsig & Hf). exists RNS_OK, s1, d'. split_and!; [done|done| |done]. cbn [is_ok]. by exists k, pub, sig.
  - destruct (restored_memory s keys rest k keep HK HL ltac:(lia) Hk Ekeep) as (dropped' & rest' & Hd' & Hback & HKr & HLr). rewrite Hd in Hd'. injection Hd' as <-.
    apply bind_Some in Hback as (ks2 & Hmm2 & Hback). rewrite (bind_Some_eq _ _ _ Hmm2), (bind_Some_eq _ _ _ Hback). eexists _, _, d'. split_and!; [done|done| |].
    + rewrite Est. split_and!; [|done|done]. eapply (holds_same s keys _ _ _ rest' _ Hs); [done|reflexivity|reflexivity|done|done|reflexivity|done].
    + intros k' pub' [= <- <-] -> Hsome. by apply Hok.
Qed.

(** The private key, public key and identifier of a store's newest ratchet. *)
Definition newest (keys : list (list Z)) : option (list Z * list Z * list Z) :=
  k ← head keys; pub ← rns_x25519_public_from_private k; Some (k, pub, rns_identity_ratchet_id pub).

Definition keys_of (s : rns_ratchet_store) : list Z := take (s.(count) * 32) s.(private_keys).

Lemma keys_of_holds s keys : holds s keys -> keys_of s = concat keys.
Proof. intros [_ _ _ Hc (rest & Hm & HK & _)]. unfold keys_of. rewrite Hc, Hm, take_keys, take_app_length by done. done. Qed.

Lemma head_key s k keys : holds s (k :: keys) -> memread s.(private_keys) 0 RNS_RATCHET_PRIVATE_SIZE = Some k.
Proof. intros [_ _ _ _ (rest & -> & HK & _)]. by apply (read_key _ 0). Qed.

(** What [current] does to a store that holds [keys]. *)
Lemma current_spec s keys now seed io d : holds s keys ->
  exists st s' d' out rotated, rns_ratchet_store_current s now seed io d = Some (st, s', d', out, rotated) /\ same_store s s' /\
    (st <> RNS_OK -> out = None /\ if rotated then st = RNS_ERROR_CRYPTO else holds s' keys /\ s'.(latest_rotation) = s.(latest_rotation) /\ d'.(file) = d.(file)) /\
    (st = RNS_OK -> rotated = should_rotate s now) /\
    (rotated = true -> exists k pub sig, rns_x25519_generate seed = Some (k, pub) /\ holds s' (pushed s.(retained) k keys) /\ s'.(latest_rotation) = now /\
       rns_identity_sign s.(owner) (packed_image (pushed s.(retained) k keys)) = Some sig /\ d'.(file) = Some (file_image (pushed s.(retained) k keys) sig) /\
       rns_x25519_public_from_private k = (if is_ok st then Some pub else None) /\ (st = RNS_OK -> out = Some (k, pub, rns_identity_ratchet_id pub))) /\
    (st = RNS_OK -> rotated = false -> s' = s /\ d' = d /\ out = newest keys).
Proof.
  intros Hs. unfold rns_ratchet_store_current.
  destruct (should_rotate s now) eqn:Hdue.
  - destruct (rotate_spec s keys now seed io d Hs) as (st & s' & d' & -> & Hsame & Hres & _). cbn [mbind option_bind]. destruct (is_ok st) eqn:Est; cbn [negb].
    + destruct Hres as (k & pub & sig & Hgen & Hh & Hl & Hsig & Hf). pose proof (ho_retained _ _ Hs). unfold pushed in Hh. destruct (retained s) as [|r] eqn:Er; [lia|]. cbn [take] in Hh.
      rewrite (bind_Some_eq _ _ _ (head_key _ _ _ Hh)). destruct (x_generate_spec _ _ _ Hgen) as [_ Hpair]. assert (st = RNS_OK) as -> by (by destruct st).
      destruct (rns_x25519_public_from_private k) as [pub'|] eqn:Hpub; eexists _, s', d', _, _; (split; [done|]); split_and!; try done.
      * pose proof (x_pair_unique _ _ _ (x_public_pair _ _ Hpub) Hpair) as ->. intros _. exists k, pub, sig. split_and!; done.
      * intros _. exists k, pub, sig. split_and!; done.
    + eexists st, s', d', None, false. split_and!; [done|done|done|by intros ->|done|by intros ->].
  - cbn [mbind option_bind is_ok negb]. destruct keys as [|k keys]; [unfold should_rotate in Hdue; by rewrite (ho_count _ _ Hs) in Hdue|].
    rewrite (bind_Some_eq _ _ _ (head_key _ _ _ Hs)). destruct (rns_x25519_public_from_private k) as [pub|] eqn:Hpub.
    + eexists _, s, d, _, _. split_and!; [done|done|done|done|done|]. intros _ _. unfold newest. cbn [head mbind option_bind]. by rewrite Hpub.
    + eexists _, s, d, _, _. split_and!; done.
Qed.

(** ** Memory and file *)

(** Opening the file of [s] again gives [keys]. *)
Definition reloads (s : rns_ratchet_store) (d : disk) (keys : list (list Z)) : Prop :=
  exists s', load (all_read (length (default [] d.(file)))) (fresh_store s.(path) s.(owner) s.(retained) s.(interval)) d = Some (RNS_OK, s') /\ holds s' keys.

Definition consistent (s : rns_ratchet_store) (d : disk) : Prop := wf s.(owner) /\ exists keys, holds s keys /\ reloads s d keys.

Lemma load_again io s d s' : load io s d = Some (RNS_OK, s') -> load (all_read (length (default [] d.(file)))) s d = Some (RNS_OK, s').
Proof.
  unfold load. destruct (negb (r_open io)); [done|]. destruct (file d) as [contents|]; [|done]. destruct (_ || _); [done|]. intros H'. cbn [all_read r_open r_limit r_close negb default orb]. unfold id.
  rewrite (proj2 (Nat.ltb_ge _ _)) by (rewrite length_take; lia). done.
Qed.

Lemma reloads_same s s' d d' keys : same_store s s' -> d'.(file) = d.(file) -> reloads s d keys -> reloads s' d' keys.
Proof. unfold reloads, load. by intros (-> & -> & -> & ->) ->. Qed.

Lemma keys_reload s keys sig d : wf s.(owner) -> holds s keys -> rns_identity_sign s.(owner) (packed_image keys) = Some sig -> d.(file) = Some (file_image keys sig) -> reloads s d keys.
Proof.
  intros Hwf Hs Hsig Hf. destruct (holds_keys _ _ Hs) as [Hk Hl]. destruct Hs as [Hp Ho Hr _ _]. by apply (load_keys_image _ _ _ _ keys sig).
Qed.

(** The store after a rotation whose new ratchet has no public key that could be derived:
    the private key is in the store and the file, and the call fails. *)
Definition underived (st : rns_status) (s : rns_ratchet_store) (now : Z) : Prop :=
  st = RNS_ERROR_CRYPTO /\ s.(latest_rotation) = now /\
  exists k rest, keys_of s = k ++ rest /\ length k = 32%nat /\ rns_x25519_public_from_private k = None.

Lemma current_consistent s d now seed io : consistent s d ->
  exists st s' d' out rotated, rns_ratchet_store_current s now seed io d = Some (st, s', d', out, rotated) /\ same_store s s' /\ consistent s' d' /\
    (st <> RNS_OK -> out = None /\ if rotated then underived st s' now else keys_of s' = keys_of s /\ s'.(latest_rotation) = s.(latest_rotation) /\ d'.(file) = d.(file)).
Proof.
  intros (Hwf & keys & Hs & Hr). destruct (current_spec s keys now seed io d Hs) as (st & s' & d' & out & rotated & Hc & Hsame & Hfail & _ & Hrot & Hok). exists st, s', d', out, rotated.
  assert (wf (owner s')) as Hwf' by (by destruct Hsame as (_ & -> & _)). split_and!; [done|done| |].
  - split; [done|]. destruct rotated.
    + destruct (Hrot eq_refl) as (k & pub & sig & _ & Hh & _ & Hsig & Hf & _). eexists. split; [done|]. apply (keys_reload _ _ sig); [done|done| |done]. by destruct Hsame as (_ & -> & _).
    + destruct (decide (st = RNS_OK)) as [E|E]; [destruct (Hok E eq_refl) as (-> & -> & _); by exists keys|]. destruct (Hfail E) as (_ & Hh & _ & Hf). exists keys. split; [done|]. by eapply reloads_same.
  - intros E. destruct (Hfail E) as [-> Hres]. split; [done|]. destruct rotated.
    + destruct (Hrot eq_refl) as (k & pub & sig & _ & Hh & Hl & _ & _ & Hpub & _). rewrite Hres in Hpub. split_and!; [done|done|]. pose proof (ho_retained _ _ Hs). unfold pushed in Hh. destruct (retained s) as [|r]; [lia|].
      cbn [take] in Hh. exists k, (concat (take r keys)). split_and!; [by rewrite (keys_of_holds _ _ Hh)| |done]. destruct (holds_keys _ _ Hh) as [Hk _]. by apply Forall_cons_1 in Hk as [? _].
    + destruct Hres as (Hh & Hl & Hf). by rewrite (keys_of_holds _ _ Hh), (keys_of_holds _ _ Hs).
Qed.

(** A sequence of calls of [current]: the time, the seed of a new key and the system's
    answers. *)
Fixpoint ratchet_run (calls : list (Z * list Z * write_io)) (s : rns_ratchet_store) (d : disk) : option (rns_ratchet_store * disk) :=
  match calls with
  | [] => Some (s, d)
  | (now, seed, io) :: calls => x ← rns_ratchet_store_current s now seed io d; let '(_, s, d, _, _) := x in ratchet_run calls s d
  end.

Lemma ratchet_run_consistent calls s d : consistent s d -> exists s' d', ratchet_run calls s d = Some (s', d') /\ same_store s s' /\ consistent s' d'.
Proof.
  revert s d. induction calls as [|[[now seed] io] calls IH]; intros s d Hc; cbn [ratchet_run]; [by exists s, d|].
  destruct (current_consistent s d now seed io Hc) as (st & s1 & d1 & out & rotated & -> & Hsame & Hc1 & _). cbn [mbind option_bind].
  destruct (IH s1 d1 Hc1) as (s' & d' & Hr & Hsame' & Hc'). exists s', d'. split_and!; [done|by eapply same_store_trans|done].
Qed.

(** Opening: memory safe whatever the file holds, and the store that is opened is
    the one its file describes. *)
Lemma open_consistent c1 c2 p who keep every rio wio d : wf who ->
  exists st os d', rns_ratchet_store_open c1 c2 (Some p) (Some who) keep every rio wio d = Some (st, os, d') /\ (st <> RNS_OK -> os = None /\ d'.(file) = d.(file)) /\
    forall s, os = Some s -> st = RNS_OK /\ consistent s d' /\ s.(owner) = who /\
      forall s2 d2 keys, same_store s s2 -> holds s2 keys -> reloads s2 d2 keys ->
        exists sr, rns_ratchet_store_open true true (Some p) (Some who) keep every (all_read (length (default [] d2.(file)))) all_written d2 = Some (RNS_OK, Some sr, d2) /\ keys_of sr = keys_of s2.
Proof.
  intros Hwf. unfold rns_ratchet_store_open. destruct p as [|c p]; [by eexists _, _, d|]. destruct (_ || _) eqn:Eg; [by eexists _, _, d|]. destruct (negb c1 || negb c2); [by eexists _, _, d|].
  apply orb_false_elim in Eg as [[Hpriv%negb_false_iff Hp%Nat.ltb_ge]%orb_false_elim Hkeep%Nat.ltb_ge]. unfold RNS_RATCHET_STORE_MAX_RETAINED in Hkeep. cbn [negb orb].
  set (keep' := if (keep =? 0)%nat then _ else keep). set (every' := if every =? 0 then _ else every). fold (fresh_store (c :: p) who keep' every').
  assert (1 <= keep' <= 512)%nat as Hk' by (unfold keep', RNS_RATCHET_STORE_DEFAULT_RETAINED; case_match eqn:E; [lia|apply Nat.eqb_neq in E; lia]).
  pose proof (fresh_holds (c :: p) who keep' every' Hp Hpriv Hk') as Hfresh. destruct (load_total rio _ _ d Hfresh) as (st & s & Hload & Hst & Hnone). rewrite Hload. cbn [mbind option_bind].
  assert (forall s d', consistent s d' -> same_store (fresh_store (c :: p) who keep' every') s -> forall s2 d2 keys, same_store s s2 -> holds s2 keys -> reloads s2 d2 keys ->
    exists sr, (x ← load (all_read (length (default [] d2.(file)))) (fresh_store (c :: p) who keep' every') d2;
      let '(st, s) := x in x ← (match st with RNS_ERROR_NOT_FOUND => persist all_written s d2 | _ => Some (st, d2) end); let '(st, d) := x in
      Some (st, if is_ok st then Some s else None, d)) = Some (RNS_OK, Some sr, d2) /\ keys_of sr = keys_of s2) as Hagain.
  { intros s0 d0 _ (E1 & E2 & E3 & E4) s2 d2 keys (F1 & F2 & F3 & F4) Hh (sr & Hl & Hsr). rewrite F1, F2, F3, F4, E1, E2, E3, E4 in Hl. cbn [fresh_store path owner retained interval] in Hl.
    fold (fresh_store (c :: p) who keep' every') in Hl. exists sr. rewrite Hl. split; [done|]. by rewrite (keys_of_holds _ _ Hh), (keys_of_holds _ _ Hsr). }
  destruct (decide (st = RNS_ERROR_NOT_FOUND)) as [->|Hnf].
  - rewrite (Hnone eq_refl).
    destruct (persist_spec wio _ [] d Hfresh) as (st & d' & -> & Hfile & _). cbn [mbind option_bind]. eexists _, _, d'. split; [done|]. destruct (is_ok st) eqn:Est.
    + split; [by destruct st|]. intros ? [= <-]. assert (consistent (fresh_store (c :: p) who keep' every') d') as Hc.
      { split; [done|]. exists []. split; [done|]. destruct Hfile as (sig & Hsig & Hf). by apply (keys_reload _ _ sig). }
      split_and!; [by destruct st|done|done|]. by apply (Hagain _ d').
    + split; [done|]. by intros ? [=].
  - replace (match st with RNS_ERROR_NOT_FOUND => _ | _ => Some (st, d) end) with (Some (st, d)) by (by destruct st). cbn [mbind option_bind]. eexists _, _, d. split; [done|].
    destruct (is_ok st) eqn:Est; [|split; [done|]; by intros ? [=]]. assert (st = RNS_OK) as -> by (by destruct st). split; [done|]. intros ? [= <-].
    destruct (Hst eq_refl) as (ks & n & keys & -> & Hh). assert (consistent (set_keys ks n (fresh_store (c :: p) who keep' every')) d) as Hc.
    { split; [done|]. exists keys. split; [done|]. eexists. split; [exact (load_again _ _ _ _ Hload)|done]. }
    split_and!; [done|done|done|]. by apply (Hagain _ d).
Qed.

(** C13: the keys in memory and the signed file agree. Opening is memory safe whatever
    the file holds and whatever the system reports, and a failed opening leaves the
    file. Any sequence of calls for the current ratchet, with any of the system calls
    failing anywhere, is defined, and opening the file again gives the keys in memory.
    A call that fails gives out nothing and has changed neither the keys, nor the time
    of the last rotation, nor the file - unless it did rotate, with the new ratchet in
    memory and file, and only the public key of that ratchet could not be derived. *)
Theorem ratchet_store_consistent c1 c2 p who keep every rio wio d calls now seed io : wf who ->
  exists st os d0, rns_ratchet_store_open c1 c2 (Some p) (Some who) keep every rio wio d = Some (st, os, d0) /\ (st <> RNS_OK -> os = None /\ d0.(file) = d.(file)) /\
    forall s, os = Some s ->
    exists s1 d1 st2 s2 d2 out rotated, ratchet_run calls s d0 = Some (s1, d1) /\ rns_ratchet_store_current s1 now seed io d1 = Some (st2, s2, d2, out, rotated) /\
      (exists sr, rns_ratchet_store_open true true (Some p) (Some who) keep every (all_read (length (default [] d2.(file)))) all_written d2 = Some (RNS_OK, Some sr, d2) /\
         keys_of sr = keys_of s2) /\
      (st2 <> RNS_OK -> out = None /\ if rotated then underived st2 s2 now else keys_of s2 = keys_of s1 /\ s2.(latest_rotation) = s1.(latest_rotation) /\ d2.(file) = d1.(file)).
Proof.
  intros Hwf. destruct (open_consistent c1 c2 p who keep every rio wio d Hwf) as (st & os & d0 & Hopen & Hfail & Hos). exists st, os, d0. split_and!; [done|done|]. intros s E.
  destruct (Hos s E) as (-> & Hc & _ & Hagain). destruct (ratchet_run_consistent calls s d0 Hc) as (s1 & d1 & Hrun & Hsame & Hc1).
  destruct (current_consistent s1 d1 now seed io Hc1) as (st2 & s2 & d2 & out & rotated & Hcur & Hsame2 & (_ & keys & Hh & Hrel) & Hunch). exists s1, d1, st2, s2, d2, out, rotated.
  split_and!; [done|done| |done]. apply (Hagain s2 d2 keys); [by eapply same_store_trans|done|done].
Qed.

(** ** Messages to a ratchet *)

(** The [n] keys in memory that was copied out of a store. *)
Fixpoint split_memory (n : nat) (m : list Z) : list (list Z) := match n with O => [] | S n => take 32 m :: split_memory n (drop 32 m) end.

Lemma split_memory_concat K rest : Forall is_key K -> split_memory (length K) (concat K ++ rest) = K.
Proof.
  induction 1 as [|k K Hk HK IH]; [done|]. cbn [length split_memory concat]. rewrite <-app_assoc, take_app_length', drop_app_length' by (symmetry; exact Hk). by rewrite IH.
Qed.

Lemma copy_private_spec s keys o : holds s keys -> length o = (512 * 32)%nat ->
  exists o', rns_ratchet_store_copy_private s (Some o) 512 = Some (RNS_OK, Some o', length keys) /\ split_memory (length keys) o' = keys.
Proof.
  intros Hs Ho. destruct (holds_keys _ _ Hs) as [Hk Hl]. pose proof (ho_retained _ _ Hs). destruct (ho_memory _ _ Hs) as (rest & Hm & HK & HL). unfold rns_ratchet_store_copy_private.
  rewrite (ho_count _ _ Hs), (proj2 (Nat.ltb_ge _ _)) by lia. cbn [Nat.eqb negb andb bool_decide]. change RNS_RATCHET_PRIVATE_SIZE with 32%nat.
  rewrite (bind_Some_eq _ _ (concat keys)) by (rewrite Hm, concat_app; apply (memread_at _ [] (concat keys) (concat rest)); [done|done|by rewrite length_concat_keys]).
  rewrite (bind_Some_eq _ _ (concat keys ++ drop (length keys * 32) o)); [eexists; split; [done|]; by apply split_memory_concat|].
  apply (memcpy_at _ [] (take (length keys * 32) o)); [by rewrite app_nil_l, take_drop|done|rewrite length_concat_keys by done; rewrite length_take; lia].
Qed.

(** A key moves back by one place with every call at most. *)
Lemma current_keeps s d keys now seed io k i : wf s.(owner) -> holds s keys -> reloads s d keys -> keys !! i = Some k -> (S i < s.(retained))%nat ->
  exists st s' d' out rotated keys' j, rns_ratchet_store_current s now seed io d = Some (st, s', d', out, rotated) /\ same_store s s' /\
    holds s' keys' /\ keys' !! j = Some k /\ (j <= S i)%nat /\ reloads s' d' keys'.
Proof.
  intros Hwf Hs Hr Hi Hlt. destruct (current_spec s keys now seed io d Hs) as (st & s' & d' & out & rotated & Hc & Hsame & Hfail & _ & Hrot & Hok). exists st, s', d', out, rotated.
  destruct rotated.
  - destruct (Hrot eq_refl) as (k' & pub & sig & _ & Hh & _ & Hsig & Hf & _). exists (pushed (retained s) k' keys), (S i). split_and!; [done|done|done| |lia|].
    + unfold pushed. by rewrite lookup_take_lt.
    + apply (keys_reload _ _ sig); [by destruct Hsame as (_ & -> & _)|done|by destruct Hsame as (_ & -> & _)|done].
  - destruct (decide (st = RNS_OK)) as [E|E].
    + destruct (Hok E eq_refl) as (-> & -> & _). exists keys, i. split_and!; [done|done|done|done|lia|done].
    + destruct (Hfail E) as (_ & Hh & _ & Hf). exists keys, i. split_and!; [done|done|done|done|lia|by eapply reloads_same].
Qed.

Lemma run_keeps calls s d keys k i : wf s.(owner) -> holds s keys -> reloads s d keys -> keys !! i = Some k -> (i + length calls < s.(retained))%nat ->
  exists s' d' keys', ratchet_run calls s d = Some (s', d') /\ same_store s s' /\ holds s' keys' /\ k ∈ keys'.
Proof.
  revert s d keys i. induction calls as [|[[now seed] io] calls IH]; intros s d keys i Hwf Hs Hr Hi Hlt; cbn [ratchet_run].
  { exists s, d, keys. split_and!; [done|done|done|]. by eapply list_elem_of_lookup_2. }
  cbn [length] in Hlt. destruct (current_keeps s d keys now seed io k i Hwf Hs Hr Hi ltac:(lia)) as (st & s1 & d1 & out & rotated & keys1 & j & -> & Hsame & Hs1 & Hj & Hle & Hr1). cbn [mbind option_bind].
  pose proof Hsame as (_ & Eo & Er & _). destruct (IH s1 d1 keys1 j) as (s' & d' & keys' & Hrun & Hsame' & Hh & Hin); [by rewrite Eo|done|done|done|rewrite Er; lia|].
  exists s', d', keys'. split_and!; [done|by eapply same_store_trans|done|done].
Qed.

(** The ratchet that [current] gives out is the newest of the store. *)
Lemma current_newest s keys now seed io d s' d' k pub id rotated : holds s keys ->
  rns_ratchet_store_current s now seed io d = Some (RNS_OK, s', d', Some (k, pub, id), rotated) ->
  exists keys', holds s' (k :: keys') /\ same_store s s' /\ rns_x25519_public_from_private k = Some pub /\ id = rns_identity_ratchet_id pub.
Proof.
  intros Hs Hc. destruct (current_spec s keys now seed io d Hs) as (st & s1 & d1 & out & rot & Hc' & Hsame & _ & _ & Hrot & Hok). rewrite Hc in Hc'. simplify_eq.
  pose proof (ho_retained _ _ Hs). destruct rot.
  - destruct (Hrot eq_refl) as (k' & pub' & sig & Hgen & Hh & _ & _ & _ & Hpub & Hout). specialize (Hout eq_refl). injection Hout as -> -> ->. unfold pushed in Hh. destruct (retained s) as [|r]; [lia|]. cbn [take] in Hh. by eexists.
  - destruct (Hok eq_refl eq_refl) as (-> & -> & Hout). unfold newest in Hout. destruct keys as [|k' keys]; [done|]. cbn [head mbind option_bind] in Hout.
    destruct (rns_x25519_public_from_private k') as [pub'|] eqn:Hpub; [|done]. cbn in Hout. injection Hout as -> -> ->. by exists keys.
Qed.

(** C16: messages to a ratchet are decrypted while it is retained. A message encrypted
    to the ratchet that a store gave out is decrypted, with ratchets enforced, by the
    keys copied from the store after fewer than [retained] further calls, with any of
    the system calls failing; the identifier reported is the one given out. It is
    assumed that no other key of the store decrypts the message. *)
Theorem ratchet_message_decrypts c1 c2 p who keep every rio wio d s d0 before s0 d0' now seed io s1 d1 k pub id rotated after seed1 seed2 m cap c cap' o :
  wf who -> rns_ratchet_store_open c1 c2 (Some p) (Some who) keep every rio wio d = Some (RNS_OK, Some s, d0) ->
  ratchet_run before s d0 = Some (s0, d0') -> rns_ratchet_store_current s0 now seed io d0' = Some (RNS_OK, s1, d1, Some (k, pub, id), rotated) ->
  (length after < s.(retained))%nat -> rns_identity_encrypt (public_half who) (Some pub) seed1 seed2 m cap = Some c -> (length c <= cap' + 80)%nat -> length o = (512 * 32)%nat ->
  exists s2 d2 o' n, ratchet_run after s1 d1 = Some (s2, d2) /\ rns_ratchet_store_copy_private s2 (Some o) 512 = Some (RNS_OK, Some o', n) /\
    (Forall (λ k', k' = k \/ decrypt_with_private who k' c cap' = None) (split_memory n o') ->
     rns_identity_decrypt_with_ratchets who (split_memory n o') true (SBytes c) cap' true = Some {| plaintext := m; ratchet_id := id; used_ratchet := true |}).
Proof.
  intros Hwf Hopen Hbefore Hcur Hafter Henc Hcap Ho. destruct (open_consistent c1 c2 p who keep every rio wio d Hwf) as (st & os & d' & Hopen' & _ & Hos). rewrite Hopen in Hopen'. simplify_eq.
  destruct (Hos s eq_refl) as (_ & Hc & <- & _). destruct (ratchet_run_consistent before s _ Hc) as (s0' & dd & Hb & Hsame0 & Hc0). rewrite Hbefore in Hb. simplify_eq.
  destruct (current_consistent _ _ now seed io Hc0) as (st & s1' & dd' & out & rot & Hcur' & Hsame1 & (Hwf1 & keys1 & Hh1 & Hr1) & _). rewrite Hcur in Hcur'. simplify_eq.
  destruct Hc0 as (_ & keys0 & Hh0 & _). destruct (current_newest _ _ _ _ _ _ _ _ _ _ _ _ Hh0 Hcur) as (keys & Hh & _ & Hpub & ->).
  assert (keys1 !! 0%nat = Some k) as Hk.
  { assert (concat keys1 = concat (k :: keys)) as E by (rewrite <-(keys_of_holds _ _ Hh1), <-(keys_of_holds _ _ Hh); done). destruct (holds_keys _ _ Hh1) as [HK1 _], (holds_keys _ _ Hh) as [HK _].
    rewrite <-(split_memory_concat keys1 [] HK1), E, <-(ho_count _ _ Hh1), (ho_count _ _ Hh), split_memory_concat by done. done. }
  pose proof (same_store_trans _ _ _ Hsame0 Hsame1) as Hsame01. pose proof Hsame01 as (_ & Eo & Er & _).
  destruct (run_keeps after _ _ keys1 k 0 Hwf1 Hh1 Hr1 Hk) as (s2 & d2 & keys2 & Hrun & Hsame2 & Hh2 & Hin); [rewrite Er; lia|].
  destruct (copy_private_spec s2 keys2 o Hh2 Ho) as (o' & Hcopy & Hsplit). exists s2, d2, o', (length keys2). split_and!; [done|done|]. rewrite Hsplit. intros Hothers.
  apply list_elem_of_split_l in Hin as (l1 & l2 & -> & Hnot). apply (identity_ratchet_decrypt _ l1 l2 k pub seed1 seed2 m cap); [|done|done|done| |].
  - destruct Hsame2 as (_ & E & _). rewrite <-(ho_owner _ _ Hh2), E, Eo. done.
  - apply Forall_app in Hothers as [Hl1 _]. apply list.Forall_forall. intros k' Hk'. rewrite list.Forall_forall in Hl1. destruct (Hl1 k' Hk') as [->|]; done.
  - destruct (holds_keys _ _ Hh2) as [_ Hl]. pose proof (ho_retained _ _ Hh2). transitivity 512; [lia|by vm_compute].
Qed.

(** Rotation. When a rotation is due and key generation and derivation, signing and the
    system calls succeed, [current] gives out the new ratchet and puts it in front of the
    keys; of the older ones the newest are kept, as many as there is room for. Until
    the next rotation is due the same ratchet is given out and nothing changes,
    whatever the system would report. *)
Theorem ratchet_rotation s keys now seed d k pub now' seed' io :
  holds s keys -> should_rotate s now = true -> rns_x25519_generate seed = Some (k, pub) -> rns_x25519_public_from_private k = Some pub -> (forall m, is_Some (rns_identity_sign s.(owner) m)) ->
  now' <= now + s.(interval) ->
  exists s' d', rns_ratchet_store_current s now seed all_written d = Some (RNS_OK, s', d', Some (k, pub, rns_identity_ratchet_id pub), true) /\
    holds s' (take s.(retained) (k :: keys)) /\ s'.(latest_rotation) = now /\
    rns_ratchet_store_current s' now' seed' io d' = Some (RNS_OK, s', d', Some (k, pub, rns_identity_ratchet_id pub), false).
Proof.
  intros Hs Hdue Hgen Hpub Hsign Hnow. destruct (rotate_spec s keys now seed all_written d Hs) as (st & s' & d' & Hrot & (_ & _ & _ & Ei) & Hres & Hst). exists s', d'.
  rewrite (Hst k pub Hgen eq_refl (Hsign _)) in Hrot, Hres. cbn [is_ok] in Hres. destruct Hres as (k1 & pub1 & sig & Hgen1 & Hh & Hl & _). rewrite Hgen in Hgen1. injection Hgen1 as <- <-.
  unfold pushed in Hh. pose proof (ho_retained _ _ Hs). destruct (retained s) as [|r]; [lia|]. cbn [take] in *.
  split_and!; [|done|done|].
  - unfold rns_ratchet_store_current. rewrite Hdue, Hrot. cbn [mbind option_bind is_ok negb]. by rewrite (bind_Some_eq _ _ _ (head_key _ _ _ Hh)), Hpub.
  - assert (should_rotate s' now' = false) as Hquiet.
    { unfold should_rotate. rewrite (ho_count _ _ Hh), Hl, Ei. cbn [length Nat.eqb orb]. destruct (Z.ltb_spec now now'); [|done]. cbn [andb]. apply Z.ltb_ge. lia. }
    unfold rns_ratchet_store_current. rewrite Hquiet. cbn [mbind option_bind is_ok negb]. by rewrite (bind_Some_eq _ _ _ (head_key _ _ _ Hh)), Hpub.
Qed.
End Specification.

(** *** A concrete store *)

Definition empty_disk : disk := {| file := None; temporary := None |}.

Definition sync_fails : write_io :=
  {| w_open := true; w_write := true; w_flush := true; w_sync := false; w_close := true; w_rename := true; w_left := None |}.

(** A store of two keys that rotates every ten seconds. *)
Definition sample_opened : rns_ratchet_store * disk :=
  match rns_ratchet_store_open true true (Some [97]) (Some sample) 2 10 (all_read 0) all_written empty_disk with
  | Some (_, Some s, d) => (s, d)
  | _ => (fresh_store [] sample 1 1, empty_disk)
  end.

Lemma sample_opens :
  rns_ratchet_store_open true true (Some [97]) (Some sample) 2 10 (all_read 0) all_written empty_disk = Some (RNS_OK, Some sample_opened.1, sample_opened.2).
Proof. vm_compute. reflexivity. Qed.

Definition sample_calls : list (Z * list Z * write_io) := [(100, [1], all_written); (120, [2], sync_fails); (130, [3], all_written)].
Definition sample_run : rns_ratchet_store * disk := default sample_opened (ratchet_run sample_calls sample_opened.1 sample_opened.2).
Definition sample_failed : rns_ratchet_store * disk :=
  match rns_ratchet_store_current sample_run.1 150 [4] sync_fails sample_run.2 with Some (_, s, d, _, _) => (s, d) | None => sample_run end.

Lemma sample_runs : ratchet_run sample_calls sample_opened.1 sample_opened.2 = Some sample_run.
Proof. vm_compute. reflexivity. Qed.

Lemma sample_fails : rns_ratchet_store_current sample_run.1 150 [4] sync_fails sample_run.2 = Some (RNS_ERROR_IO, sample_failed.1, sample_failed.2, None, false).
Proof. vm_compute. reflexivity. Qed.

Lemma ratchet_store_consistent_witness :
  ratchet_run sample_calls sample_opened.1 sample_opened.2 = Some sample_run /\
    rns_ratchet_store_current sample_run.1 150 [4] sync_fails sample_run.2 = Some (RNS_ERROR_IO, sample_failed.1, sample_failed.2, None, false) /\
    keys_of sample_failed.1 = keys_of sample_run.1.
Proof.
  pose proof sample_opens as Ho. pose proof sample_runs as Hs. pose proof sample_fails as Hf. revert Ho Hs Hf. generalize sample_opened sample_run sample_failed. intros [so ds] [sr dr] [sf df] Ho Hs Hf.
  destruct (ratchet_store_consistent true true [97] sample 2 10 (all_read 0) all_written empty_disk sample_calls 150 [4] sync_fails sample_wf) as (st & os & d0 & Hopen & _ & Hrun).
  rewrite Ho in Hopen. injection Hopen as <- <- <-. destruct (Hrun _ eq_refl) as (s1 & d1 & st2 & s2 & d2 & out & rotated & Hr & Hc & _ & Hkeep).
  cbn [fst snd] in *. rewrite Hs in Hr. injection Hr as <- <-. split; [exact Hs|]. split; [exact Hf|]. rewrite Hf in Hc. injection Hc as <- <- <- <- <-. by apply Hkeep.
Defined.

(** A rotation whose new public key cannot be derived has reached the file. *)
Example rotation_underived :
  exists s d, @rns_ratchet_store_current (@openssl_provider (toy_library false)) (fresh_store [97] sample 2 10) 100 [1] all_written empty_disk = Some (RNS_ERROR_CRYPTO, s, d, None, true) /\
    s.(count) = 1%nat /\ is_Some d.(file).
Proof. eexists _, _. split; [vm_compute; reflexivity|]. split; [reflexivity|by eexists]. Qed.

Definition sample_current : rns_ratchet_store * disk * (list Z * list Z * list Z) :=
  match rns_ratchet_store_current sample_opened.1 100 [1] all_written sample_opened.2 with
  | Some (_, s, d, Some r, _) => (s, d, r)
  | _ => (fresh_store [] sample 1 1, empty_disk, ([], [], []))
  end.

Definition sample_message : list Z := default [] (rns_identity_encrypt (public_half sample) (Some sample_current.2.1.2) [3] [4] [9; 8; 7] 96).

Definition sample_kept : rns_ratchet_store * disk := default sample_opened (ratchet_run [(200, [2], sync_fails)] sample_current.1.1 sample_current.1.2).
Definition sample_copied : list Z :=
  match rns_ratchet_store_copy_private sample_kept.1 (Some (replicate (512 * 32) 0)) 512 with Some (_, Some o, _) => o | _ => [] end.

Lemma sample_keeps : ratchet_run [(200, [2], sync_fails)] sample_current.1.1 sample_current.1.2 = Some sample_kept.
Proof. vm_compute. reflexivity. Qed.

Lemma sample_copies : rns_ratchet_store_copy_private sample_kept.1 (Some (replicate (512 * 32) 0)) 512 = Some (RNS_OK, Some sample_copied, 1%nat).
Proof. vm_compute. reflexivity. Qed.

Lemma sample_gives :
  rns_ratchet_store_current sample_opened.1 100 [1] all_written sample_opened.2 =
    Some (RNS_OK, sample_current.1.1, sample_current.1.2, Some (sample_current.2.1.1, sample_current.2.1.2, sample_current.2.2), true).
Proof. vm_compute. reflexivity. Qed.

Lemma sample_encrypts : rns_identity_encrypt (public_half sample) (Some sample_current.2.1.2) [3] [4] [9; 8; 7] 96 = Some sample_message.
Proof. vm_compute. reflexivity. Qed.

Lemma sample_others : Forall (λ k', k' = sample_current.2.1.1 \/ decrypt_with_private sample k' sample_message 16 = None) (split_memory 1 sample_copied).
Proof. constructor; [left; vm_compute; reflexivity|constructor]. Qed.

Lemma sample_lengths : (1 < retained sample_opened.1)%nat /\ (length sample_message <= 96)%nat.
Proof. vm_compute. lia. Qed.

(** The rotation that was due when the message arrives could not be written. *)
Lemma ratchet_message_decrypts_witness :
  ratchet_run [(200, [2], sync_fails)] sample_current.1.1 sample_current.1.2 = Some sample_kept /\
    rns_identity_decrypt_with_ratchets sample (split_memory 1 sample_copied) true (SBytes sample_message) 16 true =
      Some {| plaintext := [9; 8; 7]; ratchet_id := sample_current.2.2; used_ratchet := true |}.
Proof.
  pose proof sample_opens as Ho. pose proof sample_gives as Hg. pose proof sample_keeps as Hs. pose proof sample_copies as Hf. pose proof sample_encrypts as He. pose proof sample_others as Hx.
  pose proof sample_lengths as Hl. revert Ho Hg Hs Hf He Hx Hl. generalize sample_opened sample_current sample_kept sample_copied sample_message.
  intros [so ds] [[sc dc] [[k pub] id]] [sr dr] sp message Ho Hg Hs Hf He Hx [Hl1 Hl2]. cbn [fst snd] in *.
  destruct (ratchet_message_decrypts true true [97] sample 2 10 (all_read 0) all_written empty_disk so ds [] so ds 100 [1] all_written sc dc k pub id true [(200, [2], sync_fails)]
    [3] [4] [9; 8; 7] 96 message 16 (replicate (512 * 32) 0) sample_wf Ho eq_refl Hg Hl1 He Hl2 (length_replicate _ _)) as (s2 & d2 & o & n & Hr & Hc & Hd).
  split; [exact Hs|]. rewrite Hs in Hr. injection Hr as <- <-. rewrite Hf in Hc. injection Hc as <- <-. exact (Hd Hx).
Defined.

Lemma ratchet_rotation_witness :
  exists s d, rns_ratchet_store_current (fresh_store [97] sample 2 10) 100 [1] all_written empty_disk =
      Some (RNS_OK, s, d, Some (sample_current.2.1.1, sample_current.2.1.2, rns_identity_ratchet_id sample_current.2.1.2), true) /\
    rns_ratchet_store_current s 110 [2] sync_fails d = Some (RNS_OK, s, d, Some (sample_current.2.1.1, sample_current.2.1.2, rns_identity_ratchet_id sample_current.2.1.2), false).
Proof.
  destruct (ratchet_rotation (fresh_store [97] sample 2 10) [] 100 [1] empty_disk sample_current.2.1.1 sample_current.2.1.2 110 [2] sync_fails) as (s & d & Hc & _ & _ & Hq);
    [apply fresh_holds; [cbn; unfold RNS_RATCHET_STORE_PATH_MAX; lia|vm_compute; reflexivity|lia]|reflexivity|vm_compute; reflexivity|vm_compute; reflexivity|intros m; eexists; reflexivity|cbn; lia|].
  exists s, d. exact (conj Hc Hq).
Defined.
End RatchetStore.
