(* ===== verification/Utf8.v ===== *)
(** * UTF-8 validation

    [valid_utf8] of [lxmf/fields.c], and the equivalence with the definition of UTF-8:
    a text is valid exactly when it is the concatenation of the encodings of Unicode
    scalar values. *)

From Stdlib Require Import ZArith Lia.
From S2P Require Import Prelude.

Module Utf8.

(** ** The code *)

(** The inner loop: [n] continuation bytes; [Some None] is [return false]. *)
Fixpoint utf8_continue (n : nat) (codepoint : Z) (s : list Z) : option (option (Z * list Z)) :=
  match n with
  | O => Some (Some (codepoint, s))
  | S n =>
      match s with
      | [] => None
      | next :: s =>
          if negb (Z.land next 0xc0 =? 0x80) then Some None
          else utf8_continue n (Z.lor (wrap32 (Z.shiftl codepoint 6)) (Z.land next 0x3f)) s
      end
  end.

(** What the first byte of a longer sequence says: the number of continuation bytes,
    the first bits and the smallest value. *)
Definition utf8_lead (first : Z) : option (nat * Z * Z) :=
  if (0xc2 <=? first) && (first <=? 0xdf) then Some (1%nat, Z.land first 31, 0x80)
  else if (0xe0 <=? first) && (first <=? 0xef) then Some (2%nat, Z.land first 15, 0x800)
  else if (0xf0 <=? first) && (first <=? 0xf4) then Some (3%nat, Z.land first 7, 0x10000)
  else None.

(** The outer loop; every round takes a byte of [s]. *)
Fixpoint utf8_loop (fuel : nat) (s : list Z) : option bool :=
  match s with
  | [] => Some true
  | first :: s =>
      match fuel with
      | O => None
      | S fuel =>
          if first <? 0x80 then utf8_loop fuel s
          else match utf8_lead first with
          | None => Some false
          | Some (continuation, codepoint, minimum) =>
              if (length s <? continuation)%nat then Some false
              else
                x ← utf8_continue continuation codepoint s;
                match x with
                | None => Some false
                | Some (codepoint, s) =>
                    if (codepoint <? minimum) || (0x10ffff <? codepoint) || ((0xd800 <=? codepoint) && (codepoint <=? 0xdfff)) then Some false
                    else utf8_loop fuel s
                end
          end
      end
  end.

Definition valid_utf8 (s : list Z) : option bool := utf8_loop (length s) s.

(** ** The definition of UTF-8 *)

(** Unicode scalar values: the code points that are not surrogates. *)
Definition scalar (c : Z) : Prop := 0 <= c <= 0x10ffff /\ ~ (0xd800 <= c <= 0xdfff).

Definition utf8_encode (c : Z) : list Z :=
  let low k := 0x80 + (c / 64 ^ k) mod 64 in
  if c <? 0x80 then [c]
  else if c <? 0x800 then [0xc0 + c / 64; low 0]
  else if c <? 0x10000 then [0xe0 + c / 64 ^ 2; low 1; low 0]
  else [0xf0 + c / 64 ^ 3; low 2; low 1; low 0].

Definition utf8_text (s : list Z) : Prop := exists cs, Forall scalar cs /\ s = concat (utf8_encode <$> cs).

(** ** Equivalence *)

Lemma continuation_byte b : is_byte b -> (Z.land b 0xc0 =? 0x80) = ((0x80 <=? b) && (b <=? 0xbf)) /\ Z.land b 0x3f = b mod 64.
Proof.
  intros Hb. split; [|by apply (Z.land_ones b 6)]. apply eqb_prop. apply (forall_below 256 (λ b, Bool.eqb (Z.land b 0xc0 =? 0x80) ((0x80 <=? b) && (b <=? 0xbf)))); [done|exact Hb].
Qed.

(** The value of a sequence, most significant bits first. *)
Definition utf8_value (acc : Z) (bs : list Z) : Z := foldl (λ v b, v * 64 + b mod 64) acc bs.

Definition is_continuation (b : Z) : Prop := 0x80 <= b <= 0xbf.

Lemma utf8_continue_spec n acc s : bytes_ok s -> (n <= length s)%nat -> 0 <= acc -> (acc + 1) * 64 ^ Z.of_nat n <= 2 ^ 26 ->
  exists x, utf8_continue n acc s = Some x /\
    forall c rest, x = Some (c, rest) <-> exists bs, s = bs ++ rest /\ length bs = n /\ Forall is_continuation bs /\ c = utf8_value acc bs.
Proof.
  revert acc s. induction n as [|n IH]; intros acc s Hb Hn H0 Hacc; cbn [utf8_continue].
  { eexists. split; [done|]. intros c rest. split.
    - intros [= <- <-]. by exists [].
    - intros (bs & -> & Hl & _ & ->). by apply nil_length_inv in Hl as ->. }
  destruct s as [|b s]; [cbn in Hn; lia|]. apply Forall_cons_1 in Hb as [Hb Hs]. destruct (continuation_byte b Hb) as [-> ->]. cbn [length] in Hn.
  rewrite Nat2Z.inj_succ, Z.pow_succ_r in Hacc by lia. pose proof (Z.pow_pos_nonneg 64 (Z.of_nat n)) as H64.
  destruct ((0x80 <=? b) && (b <=? 0xbf)) eqn:E; cbn [negb].
  - apply andb_prop in E as [E1%Z.leb_le E2%Z.leb_le]. pose proof (Z.mod_pos_bound b 64 ltac:(lia)) as Hm.
    rewrite wrap_small by (unfold in_width; rewrite Z.shiftl_mul_pow2 by lia; nia). rewrite lor_shiftl_add by (done || lia). change (2 ^ 6) with 64.
    destruct (IH (acc * 64 + b mod 64) s Hs) as (x & -> & Hx); [lia|lia|nia|]. exists x. split; [done|].
    intros c rest. rewrite Hx. split.
    + intros (bs & -> & Hl & Hf & ->). exists (b :: bs). split_and!; [done|by cbn; rewrite Hl|by constructor|done].
    + intros ([|b' bs] & Eb & Hl & Hf & ->); [done|]. cbn in Eb. simplify_eq. apply Forall_cons_1 in Hf as [_ Hf]. exists bs. split_and!; [done|by injection Hl|done|done].
  - eexists. split; [done|]. intros c rest. split; [done|]. intros ([|b' bs] & Eb & Hl & Hf & ->); [done|]. cbn in Eb. simplify_eq. apply Forall_cons_1 in Hf as [Hf _].
    unfold is_continuation in Hf. rewrite (proj2 (Z.leb_le _ _)), (proj2 (Z.leb_le _ _)) in E by lia. done.
Qed.

(** What a sequence of more than one byte says. *)
Lemma utf8_lead_spec first : is_byte first -> 0x80 <= first ->
  match utf8_lead first with
  | Some (n, cp, minimum) =>
      (n = 1%nat /\ 0xc2 <= first <= 0xdf /\ cp = first - 0xc0 /\ minimum = 0x80) \/
      (n = 2%nat /\ 0xe0 <= first <= 0xef /\ cp = first - 0xe0 /\ minimum = 0x800) \/
      (n = 3%nat /\ 0xf0 <= first <= 0xf4 /\ cp = first - 0xf0 /\ minimum = 0x10000)
  | None => first < 0xc2 \/ 0xf4 < first
  end.
Proof.
  intros Hb H80. unfold utf8_lead. assert (Z.land first 31 = first mod 32) as -> by (by apply (Z.land_ones first 5)). assert (Z.land first 15 = first mod 16) as -> by (by apply (Z.land_ones first 4)).
  assert (Z.land first 7 = first mod 8) as -> by (by apply (Z.land_ones first 3)).
  destruct (_ && _) eqn:E1; [apply andb_prop in E1 as [?%Z.leb_le ?%Z.leb_le]; left; repeat split; try lia; Z.div_mod_to_equations; lia|].
  destruct ((0xe0 <=? first) && _) eqn:E2; [apply andb_prop in E2 as [?%Z.leb_le ?%Z.leb_le]; right; left; repeat split; try lia; Z.div_mod_to_equations; lia|].
  destruct ((0xf0 <=? first) && _) eqn:E3; [apply andb_prop in E3 as [?%Z.leb_le ?%Z.leb_le]; right; right; repeat split; try lia; Z.div_mod_to_equations; lia|].
  apply andb_false_iff in E1, E2, E3. rewrite !Z.leb_gt in *. lia.
Qed.

(** A sequence decodes to [c] exactly when it is the encoding of [c]. *)
Lemma utf8_sequence first bs n cp minimum c :
  utf8_lead first = Some (n, cp, minimum) -> is_byte first -> 0x80 <= first -> scalar c ->
  length bs = n /\ Forall is_continuation bs /\ c = utf8_value cp bs /\ minimum <= c <-> utf8_encode c = first :: bs.
Proof.
  intros Hlead Hb H80 [Hr Hsur]. pose proof (utf8_lead_spec first Hb H80) as Hspec. rewrite Hlead in Hspec. unfold is_continuation. split.
  - intros (Hl & Hf & -> & Hmin). destruct Hspec as [(-> & Hfst & -> & ->)|[(-> & Hfst & -> & ->)|(-> & Hfst & -> & ->)]].
    + destruct bs as [|b1 [|]]; try done. apply Forall_cons_1 in Hf as [H1 _]. unfold utf8_value, utf8_encode in *. cbn [foldl] in *. change (64 ^ 0) with 1 in *.
      assert (b1 mod 64 = b1 - 128) as E1 by (Z.div_mod_to_equations; lia). rewrite E1 in *.
      rewrite (proj2 (Z.ltb_ge _ _)), (proj2 (Z.ltb_lt _ _)) by lia. f_equal; [|f_equal]; Z.div_mod_to_equations; lia.
    + destruct bs as [|b1 [|b2 [|]]]; try done. apply Forall_cons_1 in Hf as [H1 [H2 _]%Forall_cons_1]. unfold utf8_value, utf8_encode in *. cbn [foldl] in *. change (64 ^ 0) with 1 in *. change (64 ^ 1) with 64 in *. change (64 ^ 2) with 4096 in *.
      assert (b1 mod 64 = b1 - 128) as E1 by (Z.div_mod_to_equations; lia). assert (b2 mod 64 = b2 - 128) as E2 by (Z.div_mod_to_equations; lia). rewrite E1, E2 in *.
      rewrite (proj2 (Z.ltb_ge _ _)), (proj2 (Z.ltb_ge _ _)), (proj2 (Z.ltb_lt _ _)) by lia. f_equal; [|f_equal; [|f_equal]]; Z.div_mod_to_equations; lia.
    + destruct bs as [|b1 [|b2 [|b3 [|]]]]; try done. apply Forall_cons_1 in Hf as [H1 [H2 [H3 _]%Forall_cons_1]%Forall_cons_1]. unfold utf8_value, utf8_encode in *. cbn [foldl] in *.
      change (64 ^ 0) with 1 in *. change (64 ^ 1) with 64 in *. change (64 ^ 2) with 4096 in *. change (64 ^ 3) with 262144 in *.
      assert (b1 mod 64 = b1 - 128) as E1 by (Z.div_mod_to_equations; lia). assert (b2 mod 64 = b2 - 128) as E2 by (Z.div_mod_to_equations; lia).
      assert (b3 mod 64 = b3 - 128) as E3 by (Z.div_mod_to_equations; lia). rewrite E1, E2, E3 in *.
      rewrite (proj2 (Z.ltb_ge _ _)), (proj2 (Z.ltb_ge _ _)), (proj2 (Z.ltb_ge _ _)) by lia. f_equal; [|f_equal; [|f_equal; [|f_equal]]]; Z.div_mod_to_equations; lia.
  - unfold utf8_encode, utf8_value. change (64 ^ 0) with 1. change (64 ^ 1) with 64. change (64 ^ 2) with 4096. change (64 ^ 3) with 262144.
    destruct (Z.ltb_spec c 0x80); [intros [= -> _]; lia|].
    destruct (Z.ltb_spec c 0x800); [|destruct (Z.ltb_spec c 0x10000)]; intros [= <- <-].
    all: destruct Hspec as [(-> & Hfst & -> & ->)|[(-> & Hfst & -> & ->)|(-> & Hfst & -> & ->)]]; try (exfalso; Z.div_mod_to_equations; lia).
    all: split_and!; [done|repeat constructor; Z.div_mod_to_equations; lia|cbn [foldl]; Z.div_mod_to_equations; lia|lia].
Qed.

Lemma utf8_text_cons c s : scalar c -> utf8_text s -> utf8_text (utf8_encode c ++ s).
Proof. intros Hc (cs & Hcs & ->). exists (c :: cs). split; [by constructor|done]. Qed.

Lemma utf8_text_inv b s : utf8_text (b :: s) -> exists c bs s', scalar c /\ utf8_encode c = b :: bs /\ s = bs ++ s' /\ utf8_text s'.
Proof.
  intros ([|c cs] & Hcs & E); [done|]. apply Forall_cons_1 in Hcs as [Hc Hcs]. cbn [fmap list_fmap concat] in E. exists c.
  destruct (utf8_encode c) as [|b' bs] eqn:Ee; [unfold utf8_encode in Ee; repeat case_match; done|]. injection E as -> ->. exists bs, (concat (utf8_encode <$> cs)). split_and!; [done|done|done|by exists cs].
Qed.

Lemma utf8_loop_spec fuel s : bytes_ok s -> (length s <= fuel)%nat -> exists b, utf8_loop fuel s = Some b /\ (b = true <-> utf8_text s).
Proof.
  revert s. induction fuel as [|fuel IH]; intros s Hs Hl.
  all: destruct s as [|first s]; cbn [utf8_loop]; [exists true; split; [done|]; split; [by exists []|done]|]; cbn [length] in Hl; try lia.
  apply Forall_cons_1 in Hs as [Hb Hs]. destruct (Z.ltb_spec first 0x80) as [Hlow|H80].
  { destruct (IH s Hs ltac:(lia)) as (b & -> & Hiff). exists b. split; [done|]. rewrite Hiff. assert (scalar first /\ utf8_encode first = [first]) as [Hsc He].
    { unfold is_byte, in_width in Hb. unfold scalar, utf8_encode. rewrite (proj2 (Z.ltb_lt _ _)) by done. split; [lia|done]. }
    split; [intros Ht; pose proof (utf8_text_cons first s Hsc Ht) as Hc; by rewrite He in Hc|]. intros (c & bs & s' & Hc & Ee & -> & Ht)%utf8_text_inv.
    assert (c = first /\ bs = []) as [-> ->]; [|done]. unfold utf8_encode, scalar in *. revert Ee. destruct (Z.ltb_spec c 0x80); [by intros [= <- <-]|].
    destruct (Z.ltb_spec c 0x800); [|destruct (Z.ltb_spec c 0x10000)]; intros [= E _]; Z.div_mod_to_equations; lia. }
  pose proof (utf8_lead_spec first Hb H80) as Hspec. destruct (utf8_lead first) as [[[n cp] minimum]|] eqn:Hlead.
  2: { exists false. split; [done|]. split; [done|]. intros (c & bs & s' & Hc & Ee & _)%utf8_text_inv. exfalso. unfold utf8_encode, scalar in *. revert Ee.
    destruct (Z.ltb_spec c 0x80); [intros [= <- _]; lia|]. destruct (Z.ltb_spec c 0x800); [|destruct (Z.ltb_spec c 0x10000)]; intros [= E _]; Z.div_mod_to_equations; lia. }
  assert (utf8_text (first :: s) -> exists c bs s', scalar c /\ s = bs ++ s' /\ utf8_text s' /\ length bs = n /\ Forall is_continuation bs /\ c = utf8_value cp bs /\ minimum <= c) as Hinv.
  { intros (c & bs & s' & Hc & Ee & -> & Ht)%utf8_text_inv. destruct (proj2 (utf8_sequence first bs n cp minimum c Hlead Hb H80 Hc) Ee) as (? & ? & ? & ?). by exists c, bs, s'. }
  destruct (Nat.ltb_spec (length s) n) as [Hshort|Hn].
  { exists false. split; [done|]. split; [done|]. intros (c & bs & s' & _ & -> & _ & Hbs & _)%Hinv. rewrite length_app in Hshort. lia. }
  assert (0 <= cp /\ (cp + 1) * 64 ^ Z.of_nat n <= 2 ^ 26) as [Hcp0 Hcp] by (destruct Hspec as [(-> & ? & -> & ->)|[(-> & ? & -> & ->)|(-> & ? & -> & ->)]]; cbn; lia).
  destruct (utf8_continue_spec n cp s Hs Hn Hcp0 Hcp) as (x & -> & Hx). cbn [mbind option_bind]. destruct x as [[c rest]|].
  2: { exists false. split; [done|]. split; [done|]. intros (c & bs & s' & _ & -> & _ & Hbs & Hf & Hv & _)%Hinv. assert (None = Some (c, s')) by (apply Hx; by exists bs). done. }
  destruct (proj1 (Hx c rest) eq_refl) as (bs & -> & Hbs & Hf & Hv).
  assert (forall c' bs' s', bs ++ rest = bs' ++ s' -> length bs' = n -> c' = utf8_value cp bs' -> c' = c /\ s' = rest) as Huniq.
  { intros c' bs' s' E Hbs' ->. apply app_inj_1 in E as [-> ->]; [done|congruence]. }
  destruct (_ || _) eqn:Ebad.
  - exists false. split; [done|]. split; [done|]. intros (c' & bs' & s' & [Hc1 Hc2] & E & _ & Hbs' & _ & Hv' & Hmin)%Hinv. destruct (Huniq _ _ _ E Hbs' Hv') as [-> ->]. lia.
  - apply Forall_app in Hs as [_ Hs]. destruct (IH rest Hs) as (b & -> & Hiff); [rewrite length_app in Hl; lia|]. exists b. split; [done|]. rewrite Hiff. split.
    + intros Ht. assert (scalar c) as Hc by (split; lia). pose proof (utf8_text_cons c rest Hc Ht) as Htc.
      rewrite (proj1 (utf8_sequence first bs n cp minimum c Hlead Hb H80 Hc)) in Htc; [done|]. split_and!; [done|done|done|lia].
    + intros (c' & bs' & s' & _ & E & Ht & Hbs' & _ & Hv' & _)%Hinv. destruct (Huniq _ _ _ E Hbs' Hv') as [-> ->]. done.
Qed.

(** C21: the validator of [fields.c] accepts exactly UTF-8: on any bytes it returns
    without reading outside the text, and the answer is whether the text is a sequence
    of encoded Unicode scalar values (no overlong forms, no surrogates, nothing above
    U+10FFFF). *)
Theorem valid_utf8_spec s : bytes_ok s -> exists b, valid_utf8 s = Some b /\ (b = true <-> utf8_text s).
Proof. intros Hs. by apply utf8_loop_spec. Qed.

Lemma valid_utf8_spec_witness : exists b, valid_utf8 [0x61; 0xc3; 0xa9; 0xe2; 0x82; 0xac; 0xf0; 0x9f; 0x98; 0x80] = Some b /\ b = true.
Proof.
  destruct (valid_utf8_spec [0x61; 0xc3; 0xa9; 0xe2; 0x82; 0xac; 0xf0; 0x9f; 0x98; 0x80]) as (b & Hv & Hiff); [repeat constructor; unfold is_byte, in_width; lia|]. exists b. split; [exact Hv|]. apply Hiff.
  exists [0x61; 0xe9; 0x20ac; 0x1f600]. split; [repeat constructor; unfold scalar; lia|reflexivity].
Defined.
End Utf8.
