(* ===== verification/Fields.v ===== *)
(** * Standard fields of messages

    [lxmf/fields.c]: the bounded MessagePack reader, the parser of the standard fields
    of a message, merging fields into a map of fields that are otherwise kept byte for
    byte, merging the ticket field, and names for saving attachments. Text is checked
    by [Utf8], the ticket field is read by [Lxmf]. *)

From Stdlib Require Import ZArith Lia.
From S2P Require Import Prelude Request Lxmf Utf8.

Module Fields.
Import Lxmf Utf8.

(** ** Constants and data *)

Definition FIELDS_MAX_DEPTH : nat := 32.
Definition FIELDS_MAX_ITEMS : Z := 256.

Definition LXMF_FIELD_FILE_ATTACHMENTS : Z := 0x05.
Definition LXMF_FIELD_IMAGE : Z := 0x06.
Definition LXMF_FIELD_AUDIO : Z := 0x07.
Definition LXMF_FIELD_THREAD : Z := 0x08.
Definition LXMF_FIELD_RENDERER : Z := 0x0f.
Definition LXMF_FIELD_REPLY_TO : Z := 0x30.
Definition LXMF_FIELD_REPLY_QUOTE : Z := 0x31.
Definition LXMF_FIELD_REACTION : Z := 0x40.
Definition LXMF_REACTION_TO : Z := 0x00.
Definition LXMF_REACTION_CONTENT : Z := 0x01.
Definition LXMF_RENDERER_BBCODE : Z := 0x03.
Definition LXMF_STANDARD_MAX_ATTACHMENTS : nat := 16.
Definition LXMF_STANDARD_MAX_NAME_BYTES : nat := 255.
Definition LXMF_STANDARD_MAX_QUOTE_BYTES : nat := 4096.
Definition LXMF_STANDARD_MAX_REACTION_BYTES : nat := 256.
Definition LXMF_STANDARD_MAX_FORMAT_BYTES : nat := 31.
Definition LXMF_STANDARD_MAX_MEDIA_BYTES : Z := 4 * 1024 * 1024.

Definition LXMF_STANDARD_RENDERER : Z := 1.
Definition LXMF_STANDARD_REPLY_TO : Z := 2.
Definition LXMF_STANDARD_REPLY_QUOTE : Z := 4.
Definition LXMF_STANDARD_REACTION : Z := 8.
Definition LXMF_STANDARD_THREAD : Z := 16.
Definition LXMF_STANDARD_ATTACHMENTS : Z := 32.
Definition LXMF_STANDARD_IMAGE : Z := 64.
Definition LXMF_STANDARD_AUDIO : Z := 128.
Definition LXMF_STANDARD_ALL : Z := 0xff.

Record lxmf_attachment_view : Type := { name : slice; data : slice }.

Inductive lxmf_media_format_kind : Type := LXMF_MEDIA_FORMAT_NONE | LXMF_MEDIA_FORMAT_INTEGER | LXMF_MEDIA_FORMAT_TEXT.

Record lxmf_media_view : Type := {
  format_kind : lxmf_media_format_kind;
  integer_format : Z;
  text_format : slice;
  media_data : slice
}.

Record lxmf_standard_fields : Type := {
  present_mask : Z;
  renderer : Z;
  reply_to : list Z;
  reply_quote : slice;
  reaction_to : list Z;
  reaction_content : slice;
  thread : list Z;
  attachments : list lxmf_attachment_view;
  attachment_count : nat;
  image : lxmf_media_view;
  audio : lxmf_media_view
}.

(** The structures after [memset]. *)
Definition zero_media : lxmf_media_view := {| format_kind := LXMF_MEDIA_FORMAT_NONE; integer_format := 0; text_format := SNull 0; media_data := SNull 0 |}.

Definition zero_fields : lxmf_standard_fields :=
  {| present_mask := 0; renderer := 0; reply_to := replicate 32 0; reply_quote := SNull 0; reaction_to := replicate 32 0; reaction_content := SNull 0;
     thread := replicate 32 0; attachments := replicate 16 {| name := SNull 0; data := SNull 0 |}; attachment_count := 0; image := zero_media; audio := zero_media |}.

(** ** Reading *)

(** [reader_t]: the bytes from [p] to [end], and the objects read so far. *)
Record reader : Type := { rest : list Z; items : Z }.

(** A reading step: the value and the reader behind it, [Some None] for
    [return false]. A reader whose step failed is not used again. *)
Definition R (A : Type) : Type := reader -> option (option (A * reader)).

Definition ret {A} (a : A) : R A := λ r, Some (Some (a, r)).
Definition fail {A} : R A := λ _, Some None.

Definition rbind {A B} (m : R A) (k : A -> R B) : R B :=
  λ r, match m r with None => None | Some None => Some None | Some (Some (a, r)) => k a r end.

Notation "'let*' x := m 'in' k" := (rbind m (λ x, k)) (at level 10, x name, m at level 100, k at level 200).

Definition require (b : bool) : R unit := if b then ret tt else fail.

(** The result of a computation that reads memory outside the reader. *)
Definition lift {A} (o : option A) : R A := λ r, match o with None => None | Some a => Some (Some (a, r)) end.

(** [f] on a copy of the reader. *)
Definition peek {A} (f : R A) : R (option A) := λ r, match f r with None => None | Some x => Some (Some (fst <$> x, r)) end.

(** The first byte of an object, which is counted. *)
Definition next_code : R Z :=
  λ r, match r.(rest) with
       | [] => Some None
       | code :: l => if FIELDS_MAX_ITEMS <=? r.(items) then Some None else Some (Some (code, {| rest := l; items := r.(items) + 1 |}))
       end.

(** A big-endian number of [width] bytes. *)
Definition number (width : nat) : R Z :=
  λ r, if (length r.(rest) <? width)%nat then Some None
       else b ← memread r.(rest) 0 width; Some (Some (shift_bytes b, {| r with rest := drop width r.(rest) |})).

Definition advance (n : Z) : R (list Z) :=
  λ r, if Z.of_nat (length r.(rest)) <? n then Some None
       else b ← memread r.(rest) 0 (Z.to_nat n); Some (Some (b, {| r with rest := drop (Z.to_nat n) r.(rest) |})).

(** The bytes and the objects inside an object that starts with [code]. *)
Definition sizes (code : Z) : R (Z * Z) :=
  let bytes n k := let* v := number n in ret (v + k, 0) in
  if Z.land code 0xe0 =? 0xa0 then ret (Z.land code 31, 0)
  else if Z.land code 0xf0 =? 0x90 then ret (0, Z.land code 15)
  else if Z.land code 0xf0 =? 0x80 then ret (0, 2 * Z.land code 15)
  else if (code =? 0xc4) || (code =? 0xd9) then bytes 1%nat 0
  else if (code =? 0xc5) || (code =? 0xda) then bytes 2%nat 0
  else if (code =? 0xc6) || (code =? 0xdb) then bytes 4%nat 0
  else if code =? 0xc7 then bytes 1%nat 1
  else if code =? 0xc8 then bytes 2%nat 1
  else if code =? 0xc9 then bytes 4%nat 1
  else if code =? 0xca then ret (4, 0)
  else if code =? 0xcb then ret (8, 0)
  else if (code =? 0xcc) || (code =? 0xd0) then ret (1, 0)
  else if (code =? 0xcd) || (code =? 0xd1) then ret (2, 0)
  else if (code =? 0xce) || (code =? 0xd2) then ret (4, 0)
  else if (code =? 0xcf) || (code =? 0xd3) then ret (8, 0)
  else if code =? 0xd4 then ret (2, 0)
  else if code =? 0xd5 then ret (3, 0)
  else if code =? 0xd6 then ret (5, 0)
  else if code =? 0xd7 then ret (9, 0)
  else if code =? 0xd8 then ret (17, 0)
  else if code =? 0xdc then let* n := number 2 in ret (0, n)
  else if code =? 0xdd then let* n := number 4 in ret (0, n)
  else if code =? 0xde then let* n := number 2 in ret (0, 2 * n)
  else if code =? 0xdf then
    let* n := number 4 in
    let* _ := require (n <=? FIELDS_MAX_ITEMS / 2) in
    ret (0, 2 * n)
  else fail.

Fixpoint times (f : R unit) (n : nat) : R unit := match n with O => ret tt | S n => let* _ := f in times f n end.

(** [levels] is [FIELDS_MAX_DEPTH + 1 - depth]. *)
Fixpoint skip (levels : nat) : R unit :=
  match levels with
  | O => fail
  | S levels =>
      let* code := next_code in
      if (code <=? 0x7f) || (0xe0 <=? code) || (code =? 0xc0) || (code =? 0xc2) || (code =? 0xc3) then ret tt
      else
        let* size := sizes code in
        let* _ := advance size.1 in
        let* _ := require (size.2 <=? FIELDS_MAX_ITEMS) in
        times (skip levels) (Z.to_nat size.2)
  end.

Definition skip_any : R unit := skip (S FIELDS_MAX_DEPTH).

(** [map]: whether [wanted] is 5. *)
Definition container (map : bool) : R Z :=
  let* code := next_code in
  if (negb map && (Z.land code 0xf0 =? 0x90)) || (map && (Z.land code 0xf0 =? 0x80)) then ret (Z.land code 15)
  else
    let* n := (if code =? (if map then 0xde else 0xdc) then number 2
               else if code =? (if map then 0xdf else 0xdd) then number 4
               else fail) in
    let* _ := require (n <=? FIELDS_MAX_ITEMS) in
    ret n.

Definition unsigned_value : R Z :=
  let* code := next_code in
  if code <=? 0x7f then ret code
  else if code =? 0xcc then number 1
  else if code =? 0xcd then number 2
  else if code =? 0xce then number 4
  else if code =? 0xcf then number 8
  else fail.

(** [text]: whether [wanted] is 3, a string, and not 2, bytes. *)
Definition bytes_value (text : bool) : R (list Z) :=
  let* code := next_code in
  let* length :=
    (if text && ((0xa0 <=? code) && (code <=? 0xbf)) then ret (Z.land code 31)
     else if (negb text && (code =? 0xc4)) || (text && (code =? 0xd9)) then number 1
     else if (negb text && (code =? 0xc5)) || (text && (code =? 0xda)) then number 2
     else if (negb text && (code =? 0xc6)) || (text && (code =? 0xdb)) then number 4
     else fail) in
  advance length.

Definition mask_for_key (key : Z) : Z :=
  if key =? LXMF_FIELD_RENDERER then LXMF_STANDARD_RENDERER
  else if key =? LXMF_FIELD_REPLY_TO then LXMF_STANDARD_REPLY_TO
  else if key =? LXMF_FIELD_REPLY_QUOTE then LXMF_STANDARD_REPLY_QUOTE
  else if key =? LXMF_FIELD_REACTION then LXMF_STANDARD_REACTION
  else if key =? LXMF_FIELD_THREAD then LXMF_STANDARD_THREAD
  else if key =? LXMF_FIELD_FILE_ATTACHMENTS then LXMF_STANDARD_ATTACHMENTS
  else if key =? LXMF_FIELD_IMAGE then LXMF_STANDARD_IMAGE
  else if key =? LXMF_FIELD_AUDIO then LXMF_STANDARD_AUDIO
  else 0.

Definition parse_hash : R (list Z) :=
  let* value := bytes_value false in
  let* _ := require (length value =? LXMF_MESSAGE_ID_LENGTH)%nat in
  ret value.

Definition parse_text_bin (maximum : nat) : R (list Z) :=
  let* value := bytes_value false in
  let* _ := require (length value <=? maximum)%nat in
  let* valid := lift (valid_utf8 value) in
  let* _ := require valid in
  ret value.

(** *** The standard fields *)

(** The loop of [parse_reaction] over the two entries. *)
Fixpoint reaction_entries (n : nat) (target content : option (list Z)) : R (option (list Z) * option (list Z)) :=
  match n with
  | O => ret (target, content)
  | S n =>
      let* key := unsigned_value in
      if (key =? LXMF_REACTION_TO) && bool_decide (target = None) then
        let* v := parse_hash in reaction_entries n (Some v) content
      else if (key =? LXMF_REACTION_CONTENT) && bool_decide (content = None) then
        let* v := parse_text_bin LXMF_STANDARD_MAX_REACTION_BYTES in reaction_entries n target (Some v)
      else fail
  end.

Definition parse_reaction (f : lxmf_standard_fields) : R lxmf_standard_fields :=
  let* count := container true in
  let* _ := require (count =? 2) in
  let* found := reaction_entries 2 None None in
  match found with
  | (Some target, Some content) => ret {| f with reaction_to := target; reaction_content := SBytes content |}
  | _ => fail
  end.

(** The loop over the attachments, from [i] on; [total] bytes of data so far. *)
Fixpoint attachment_entries (n i : nat) (total : Z) (l : list lxmf_attachment_view) : R (list lxmf_attachment_view) :=
  match n with
  | O => ret l
  | S n =>
      let* _ := lift (l !! i) in
      let* pair := container false in
      let* _ := require (pair =? 2) in
      let* nm := bytes_value true in
      let* _ := require (negb (length nm =? 0)%nat && (length nm <=? LXMF_STANDARD_MAX_NAME_BYTES)%nat) in
      let* valid := lift (valid_utf8 nm) in
      let* _ := require valid in
      let* d := bytes_value false in
      let* _ := require ((Z.of_nat (length d) <=? LXMF_STANDARD_MAX_MEDIA_BYTES) && (Z.of_nat (length d) <=? LXMF_MAX_MESSAGE_SIZE - total)) in
      attachment_entries n (S i) (total + Z.of_nat (length d)) (<[i := {| name := SBytes nm; data := SBytes d |}]> l)
  end.

Definition parse_attachments (f : lxmf_standard_fields) : R lxmf_standard_fields :=
  let* count := container false in
  let* _ := require (count <=? Z.of_nat LXMF_STANDARD_MAX_ATTACHMENTS) in
  let* l := attachment_entries (Z.to_nat count) 0 0 f.(attachments) in
  ret {| f with attachments := l; attachment_count := Z.to_nat count |}.

Definition media_fits (d : list Z) : bool := Z.of_nat (length d) <=? LXMF_STANDARD_MAX_MEDIA_BYTES.

(** The format and the data of [[format, data]]. *)
Definition media_format (media : lxmf_media_view) : R lxmf_media_view :=
  let* integer := peek unsigned_value in
  match integer with
  | Some integer =>
      let* _ := unsigned_value in
      let* _ := require (integer <=? 0xff) in
      ret {| media with format_kind := LXMF_MEDIA_FORMAT_INTEGER; integer_format := wrap8 integer |}
  | None =>
      let* format := bytes_value true in
      let* _ := require (negb (length format =? 0)%nat && (length format <=? LXMF_STANDARD_MAX_FORMAT_BYTES)%nat) in
      let* valid := lift (valid_utf8 format) in
      let* _ := require valid in
      ret {| media with format_kind := LXMF_MEDIA_FORMAT_TEXT; text_format := SBytes format |}
  end.

Definition parse_media (media : lxmf_media_view) : R lxmf_media_view :=
  let* raw := peek (bytes_value false) in
  match raw with
  | Some d =>
      let* _ := bytes_value false in
      let* _ := require (media_fits d) in
      ret {| media with media_data := SBytes d; format_kind := LXMF_MEDIA_FORMAT_NONE |}
  | None =>
      let* count := container false in
      let* _ := require (count =? 2) in
      let* media := media_format media in
      let* d := bytes_value false in
      let* _ := require (media_fits d) in
      ret {| media with media_data := SBytes d |}
  end.

(** The cases of [parse_value]. *)
Definition parse_known (mask : Z) (f : lxmf_standard_fields) : option (R lxmf_standard_fields) :=
  if mask =? LXMF_STANDARD_RENDERER then
    Some (let* value := unsigned_value in let* _ := require (value <=? LXMF_RENDERER_BBCODE) in ret {| f with renderer := wrap8 value |})
  else if mask =? LXMF_STANDARD_REPLY_TO then Some (let* h := parse_hash in ret {| f with reply_to := h |})
  else if mask =? LXMF_STANDARD_REPLY_QUOTE then
    Some (let* t := parse_text_bin LXMF_STANDARD_MAX_QUOTE_BYTES in ret {| f with reply_quote := SBytes t |})
  else if mask =? LXMF_STANDARD_REACTION then Some (parse_reaction f)
  else if mask =? LXMF_STANDARD_THREAD then Some (let* h := parse_hash in ret {| f with thread := h |})
  else if mask =? LXMF_STANDARD_ATTACHMENTS then Some (parse_attachments f)
  else if mask =? LXMF_STANDARD_IMAGE then Some (let* m := parse_media f.(image) in ret {| f with image := m |})
  else if mask =? LXMF_STANDARD_AUDIO then Some (let* m := parse_media f.(audio) in ret {| f with audio := m |})
  else None.

(** The fields and the reader, or the status that is returned. *)
Definition parse_value (mask : Z) (f : lxmf_standard_fields) (r : reader) : option (lxmf_status + lxmf_standard_fields * reader) :=
  match parse_known mask f with
  | None => Some (inl LXMF_ERR_ARGUMENT)
  | Some m =>
      x ← (m r : option (option (lxmf_standard_fields * reader)));
      Some (match x with
            | None => inl LXMF_ERR_FORMAT
            | Some (f, r) => inr ({| f with present_mask := Z.lor f.(present_mask) mask |}, r)
            end)
  end.

(** The loop over the entries of the map. *)
Fixpoint parse_entries (n : nat) (f : lxmf_standard_fields) (r : reader) : option (lxmf_status + lxmf_standard_fields * reader) :=
  match n with
  | O => Some (inr (f, r))
  | S n =>
      k ← (unsigned_value r : option (option (Z * reader)));
      let mask := match k with Some (key, _) => mask_for_key key | None => 0 end in
      x ← (skip_any r : option (option (unit * reader)));
      match x with
      | None => Some (inl LXMF_ERR_FORMAT)
      | Some (_, r) =>
          if mask =? 0 then
            x ← (skip_any r : option (option (unit * reader)));
            match x with None => Some (inl LXMF_ERR_FORMAT) | Some (_, r) => parse_entries n f r end
          else if negb (Z.land f.(present_mask) mask =? 0) then Some (inl LXMF_ERR_FORMAT)
          else
            x ← parse_value mask f r;
            match x with inl st => Some (inl st) | inr (f, r) => parse_entries n f r end
      end
  end.

(** The status, and the fields when it is [LXMF_OK]. *)
Definition lxmf_standard_fields_parse (fields : slice) : option (lxmf_status * option lxmf_standard_fields) :=
  match fields with
  | SNull _ | SBytes [] => Some (LXMF_ERR_ARGUMENT, None)
  | SBytes l =>
      if LXMF_MAX_MESSAGE_SIZE <? Z.of_nat (length l) then Some (LXMF_ERR_BOUNDS, None)
      else
        x ← (container true {| rest := l; items := 0 |} : option (option (Z * reader)));
        match x with
        | None => Some (LXMF_ERR_FORMAT, None)
        | Some (count, r) =>
            x ← parse_entries (Z.to_nat count) zero_fields r;
            Some (match x with
                  | inl st => (st, None)
                  | inr (f, r) => if (length r.(rest) =? 0)%nat then (LXMF_OK, Some f) else (LXMF_ERR_FORMAT, None)
                  end)
        end
  end.

(** ** Writing *)

Definition put : writer -> list Z -> option (bool * writer) := Lxmf.put.

(** [b && a] on writing steps. *)
Definition when (b : bool) (a : writer -> option (bool * writer)) (w : writer) : option (bool * writer) :=
  if b then a w else Some (false, w).

(** The bytes [put_head] writes, [None] for [return false]. *)
Definition head_bytes (major value : Z) : option (list Z) :=
  let two c := [c; wrap8 value] in
  let three c := [c; wrap8 (Z.shiftr value 8); wrap8 value] in
  let five c := c :: ((λ i, wrap8 (Z.shiftr value (24 - 8 * i))) <$> [0; 1; 2; 3]) in
  let nine c := c :: ((λ i, wrap8 (Z.shiftr value (56 - 8 * i))) <$> [0; 1; 2; 3; 4; 5; 6; 7]) in
  if major =? 0 then
    Some (if value <=? 0x7f then [wrap8 value] else if value <=? 0xff then two 0xcc else if value <=? 0xffff then three 0xcd
          else if value <=? UINT32_MAX then five 0xce else nine 0xcf)
  else if (major =? 2) || (major =? 3) then
    if (major =? 3) && (value <=? 31) then Some [Z.lor 0xa0 (wrap8 value)]
    else if value <=? 0xff then Some (two (if major =? 2 then 0xc4 else 0xd9))
    else if value <=? 0xffff then Some (three (if major =? 2 then 0xc5 else 0xda))
    else if value <=? UINT32_MAX then Some (five (if major =? 2 then 0xc6 else 0xdb))
    else None
  else if (major =? 4) || (major =? 5) then
    if value <=? 15 then Some [Z.lor (if major =? 4 then 0x90 else 0x80) (wrap8 value)]
    else if value <=? 0xffff then Some (three (if major =? 4 then 0xdc else 0xde))
    else if value <=? UINT32_MAX then Some (five (if major =? 4 then 0xdd else 0xdf))
    else None
  else None.

Definition put_head (major value : Z) (w : writer) : option (bool * writer) :=
  match head_bytes major value with None => Some (false, w) | Some b => put w b end.

Definition put_slice (major : Z) (value : slice) : writer -> option (bool * writer) :=
  when (negb (slice_bad value)) (and_then (put_head major (Z.of_nat (slice_length value))) (λ w, put w (slice_bytes value))).

Definition put_hash (value : list Z) : writer -> option (bool * writer) :=
  and_then (put_head 2 (Z.of_nat LXMF_MESSAGE_ID_LENGTH)) (λ w, put w value).

(** [valid_utf8] through a slice; reading through a null pointer is undefined. *)
Definition utf8_slice (s : slice) : option bool := match s with SNull (S _) => None | _ => valid_utf8 (slice_bytes s) end.

(** [a && b] on conditions that read memory. *)
Definition andalso (a : bool) (b : option bool) : option bool := if a then b else Some false.
Definition both (a b : option bool) : option bool := x ← a; if x : bool then b else Some false.

(** [b && a] where the condition reads memory. *)
Definition when_read (b : option bool) (a : writer -> option (bool * writer)) (w : writer) : option (bool * writer) := x ← b; when x a w.

Definition text_fits (maximum : nat) (s : slice) : option bool := andalso ((slice_length s <=? maximum)%nat && negb (slice_bad s)) (utf8_slice s).
Definition media_ok (s : slice) : bool := (Z.of_nat (slice_length s) <=? LXMF_STANDARD_MAX_MEDIA_BYTES) && negb (slice_bad s).
Definition label_ok (maximum : nat) (s : slice) : option bool :=
  andalso (negb (slice_length s =? 0)%nat && (slice_length s <=? maximum)%nat && negb (slice_is_null s)) (utf8_slice s).

Definition put_media (media : lxmf_media_view) : writer -> option (bool * writer) :=
  when (media_ok media.(media_data))
    match media.(format_kind) with
    | LXMF_MEDIA_FORMAT_NONE => put_slice 2 media.(media_data)
    | LXMF_MEDIA_FORMAT_INTEGER => and_then (put_head 4 2) (and_then (put_head 0 media.(integer_format)) (put_slice 2 media.(media_data)))
    | LXMF_MEDIA_FORMAT_TEXT =>
        and_then (put_head 4 2)
          (and_then (when_read (label_ok LXMF_STANDARD_MAX_FORMAT_BYTES media.(text_format)) (put_slice 3 media.(text_format)))
             (put_slice 2 media.(media_data)))
    end.

(** The loop over the attachments. *)
Fixpoint put_attachments (f : lxmf_standard_fields) (n i : nat) (w : writer) : option (bool * writer) :=
  match n with
  | O => Some (true, w)
  | S n =>
      a ← f.(attachments) !! i;
      and_then
        (when (negb (slice_length a.(name) =? 0)%nat && (slice_length a.(name) <=? LXMF_STANDARD_MAX_NAME_BYTES)%nat && negb (slice_is_null a.(name)) && media_ok a.(data))
           (when_read (utf8_slice a.(name)) (and_then (put_head 4 2) (and_then (put_slice 3 a.(name)) (put_slice 2 a.(data))))))
        (put_attachments f n (S i)) w
  end.

Definition put_value (mask : Z) (f : lxmf_standard_fields) : writer -> option (bool * writer) :=
  if mask =? LXMF_STANDARD_RENDERER then when (f.(renderer) <=? LXMF_RENDERER_BBCODE) (put_head 0 f.(renderer))
  else if mask =? LXMF_STANDARD_REPLY_TO then put_hash f.(reply_to)
  else if mask =? LXMF_STANDARD_REPLY_QUOTE then
    when_read (text_fits LXMF_STANDARD_MAX_QUOTE_BYTES f.(reply_quote)) (put_slice 2 f.(reply_quote))
  else if mask =? LXMF_STANDARD_REACTION then
    when_read (text_fits LXMF_STANDARD_MAX_REACTION_BYTES f.(reaction_content))
      (and_then (put_head 5 2) (and_then (put_head 0 LXMF_REACTION_TO) (and_then (put_hash f.(reaction_to))
         (and_then (put_head 0 LXMF_REACTION_CONTENT) (put_slice 2 f.(reaction_content))))))
  else if mask =? LXMF_STANDARD_THREAD then put_hash f.(thread)
  else if mask =? LXMF_STANDARD_ATTACHMENTS then
    when (f.(attachment_count) <=? LXMF_STANDARD_MAX_ATTACHMENTS)%nat
      (and_then (put_head 4 (Z.of_nat f.(attachment_count))) (put_attachments f f.(attachment_count) 0))
  else if mask =? LXMF_STANDARD_IMAGE then put_media f.(image)
  else if mask =? LXMF_STANDARD_AUDIO then put_media f.(audio)
  else λ w, Some (false, w).

(** The loop of [bit_count]; a [uint32_t] has 32 bits. *)
Fixpoint bit_count_from (fuel : nat) (value : Z) : Z :=
  match fuel with O => 0 | S fuel => if value =? 0 then 0 else Z.land value 1 + bit_count_from fuel (Z.shiftr value 1) end.
Definition bit_count (value : Z) : Z := bit_count_from 32 value.

Definition valid_media_value (media : lxmf_media_view) : option bool :=
  andalso (media_ok media.(media_data))
    match media.(format_kind) with
    | LXMF_MEDIA_FORMAT_NONE | LXMF_MEDIA_FORMAT_INTEGER => Some true
    | LXMF_MEDIA_FORMAT_TEXT => label_ok LXMF_STANDARD_MAX_FORMAT_BYTES media.(text_format)
    end.

(** The loop over the attachments. *)
Fixpoint valid_attachments (f : lxmf_standard_fields) (n i : nat) (total : Z) : option bool :=
  match n with
  | O => Some true
  | S n =>
      a ← f.(attachments) !! i;
      both (label_ok LXMF_STANDARD_MAX_NAME_BYTES a.(name))
        (andalso (media_ok a.(data) && (Z.of_nat (slice_length a.(data)) <=? LXMF_MAX_MESSAGE_SIZE - total))
           (valid_attachments f n (S i) (total + Z.of_nat (slice_length a.(data)))))
  end.

Definition valid_replacement (f : lxmf_standard_fields) (mask : Z) : option bool :=
  if mask =? LXMF_STANDARD_RENDERER then Some (f.(renderer) <=? LXMF_RENDERER_BBCODE)
  else if (mask =? LXMF_STANDARD_REPLY_TO) || (mask =? LXMF_STANDARD_THREAD) then Some true
  else if mask =? LXMF_STANDARD_REPLY_QUOTE then text_fits LXMF_STANDARD_MAX_QUOTE_BYTES f.(reply_quote)
  else if mask =? LXMF_STANDARD_REACTION then text_fits LXMF_STANDARD_MAX_REACTION_BYTES f.(reaction_content)
  else if mask =? LXMF_STANDARD_IMAGE then valid_media_value f.(image)
  else if mask =? LXMF_STANDARD_AUDIO then valid_media_value f.(audio)
  else andalso ((mask =? LXMF_STANDARD_ATTACHMENTS) && (f.(attachment_count) <=? LXMF_STANDARD_MAX_ATTACHMENTS)%nat)
         (valid_attachments f f.(attachment_count) 0 0).

(** ** Merging *)

Definition selected (mask set : Z) : bool := negb (Z.land set mask =? 0).

(** The first loop of a merge: every field that is replaced is valid. *)
Fixpoint valid_replacements (f : lxmf_standard_fields) (replace_mask : Z) (bits : list Z) : option bool :=
  match bits with
  | [] => Some true
  | bit :: bits =>
      let mask := Z.shiftl 1 bit in
      both (if selected mask replace_mask then valid_replacement f mask else Some true) (valid_replacements f replace_mask bits)
  end.

(** Whether the entry at the reader has a key for which [p] holds. *)
Definition keyed (p : Z -> bool) : R bool :=
  let* key := peek unsigned_value in ret (match key with Some k => p k | None => false end).

(** The entry at the reader: whether [p] holds of its key, and its bytes. *)
Definition entry_bytes (p : Z -> bool) : R (bool * list Z) :=
  λ r, (let* hit := keyed p in
        let* _ := skip_any in
        let* _ := skip_any in
        λ r', Some (Some ((hit, take (length r.(rest) - length r'.(rest)) r.(rest)), r'))) r.

(** The number of entries whose key is in [changed]. *)
Fixpoint count_hits (p : Z -> bool) (n : nat) : R Z :=
  match n with
  | O => ret 0
  | S n => let* e := entry_bytes p in let* k := count_hits p n in ret ((if e.1 then 1 else 0) + k)
  end.

(** Copies the other entries. [kept]: the objects in the entries copied so far. The
    writer and [kept], or the status. *)
Fixpoint copy_others (p : Z -> bool) (n : nat) (r : reader) (kept : Z) (w : writer) : option (lxmf_status + Z * writer) :=
  match n with
  | O => Some (inr (kept, w))
  | S n =>
      x ← (entry_bytes p r : option (option (bool * list Z * reader)));
      match x with
      | None => Some (inl LXMF_ERR_FORMAT)
      | Some (true, _, r) => copy_others p n r kept w
      | Some (false, bytes, r') =>
          x ← put w bytes;
          match x with
          | (true, w) => copy_others p n r' (kept + (r'.(items) - r.(items))) w
          | (false, _) => Some (inl LXMF_ERR_BOUNDS)
          end
      end
  end.

Definition keys : list Z :=
  [LXMF_FIELD_RENDERER; LXMF_FIELD_REPLY_TO; LXMF_FIELD_REPLY_QUOTE; LXMF_FIELD_REACTION; LXMF_FIELD_THREAD; LXMF_FIELD_FILE_ATTACHMENTS; LXMF_FIELD_IMAGE; LXMF_FIELD_AUDIO].

(** The last loop: the replaced fields, from bit [bit] on. *)
Fixpoint put_replaced (f : lxmf_standard_fields) (replace_mask : Z) (bit : Z) (ks : list Z) : writer -> option (bool * writer) :=
  match ks with
  | [] => λ w, Some (true, w)
  | key :: ks =>
      let mask := Z.shiftl 1 bit in
      if selected mask replace_mask then and_then (and_then (put_head 0 key) (put_value mask f)) (put_replaced f replace_mask (bit + 1) ks)
      else put_replaced f replace_mask (bit + 1) ks
  end.

(** The fields that are merged into: an empty map when there are none. *)
Definition existing_map (existing : slice) : list Z := if (slice_length existing =? 0)%nat then [0x80] else slice_bytes existing.

Definition start (l : list Z) : reader := {| rest := l; items := 0 |}.

(** A buffer that is written front to back within [cap] bytes. *)
Definition writer_over (output : list Z) (cap : nat) : writer := {| wbuf := output; wpos := 0; left := cap |}.

Definition bounded_capacity (cap : nat) : nat := if Z.of_nat cap <? LXMF_MAX_MESSAGE_SIZE then cap else Z.to_nat LXMF_MAX_MESSAGE_SIZE.

(** The status, the output buffer when it is [LXMF_OK] (what a failing call leaves in
    it is not modelled), and [*output_length], [n0] before the call. *)
Definition lxmf_standard_fields_merge (existing : slice) (standard : lxmf_standard_fields) (replace_mask remove_mask : Z) (output : option (list Z)) (cap n0 : nat)
    : option (lxmf_status * option (list Z) * nat) :=
  match output with
  | None => Some (LXMF_ERR_ARGUMENT, None, n0)
  | Some o =>
      if slice_bad existing || (LXMF_MAX_MESSAGE_SIZE <? Z.of_nat (slice_length existing)) || negb (Z.land replace_mask remove_mask =? 0)
         || negb (Z.land (Z.lor replace_mask remove_mask) (Z.lxor LXMF_STANDARD_ALL 0xffffffff) =? 0)
         || negb (Z.land standard.(present_mask) replace_mask =? replace_mask)
      then Some (LXMF_ERR_ARGUMENT, None, n0)
      else
        valid ← valid_replacements standard replace_mask [0; 1; 2; 3; 4; 5; 6; 7];
        if negb valid then Some (LXMF_ERR_ARGUMENT, None, 0%nat)
        else
          let l := existing_map existing in
          x ← lxmf_standard_fields_parse (SBytes l);
          match x with
          | (LXMF_OK, _) =>
              let changed := Z.lor replace_mask remove_mask in
              let p key := selected (mask_for_key key) changed in
              x ← (container true (start l) : option (option (Z * reader)));
              match x with
              | None => Some (LXMF_ERR_FORMAT, None, 0%nat)
              | Some (old_count, r) =>
                  x ← (count_hits p (Z.to_nat old_count) r : option (option (Z * reader)));
                  match x with
                  | None => Some (LXMF_ERR_FORMAT, None, 0%nat)
                  | Some (skipped, _) =>
                      let new_count := old_count - skipped + bit_count replace_mask in
                      if FIELDS_MAX_ITEMS <? new_count then Some (LXMF_ERR_BOUNDS, None, 0%nat)
                      else
                        let capacity := bounded_capacity cap in
                        x ← put_head 5 new_count (writer_over o capacity);
                        match x with
                        | (false, _) => Some (LXMF_ERR_BOUNDS, None, 0%nat)
                        | (true, w) =>
                            x ← copy_others p (Z.to_nat old_count) r 0 w;
                            match x with
                            | inl st => Some (st, None, 0%nat)
                            | inr (_, w) =>
                                x ← put_replaced standard replace_mask 0 keys w;
                                Some (match x with
                                      | (true, w) => (LXMF_OK, Some w.(wbuf), (capacity - w.(left))%nat)
                                      | (false, _) => (LXMF_ERR_BOUNDS, None, 0%nat)
                                      end)
                            end
                        end
                  end
              end
          | (st, _) => Some (st, None, 0%nat)
          end
  end.

(** [in < out + capacity && out < in + length] as the code tests it on addresses. *)
Definition overlaps (existing_at output_at existing_length capacity : Z) : bool :=
  negb (existing_length =? 0) && negb (capacity =? 0) &&
  (if existing_at <=? output_at then output_at - existing_at <? existing_length else existing_at - output_at <? capacity).

Definition put_ticket (t : lxmf_ticket_field) : writer -> option (bool * writer) :=
  and_then (put_head 0 LXMF_FIELD_TICKET)
    (and_then (put_head 4 2) (and_then (put_head 0 t.(expires_at)) (put_slice 2 (SBytes t.(ticket))))).

(** The addresses of the two buffers are arguments. *)
Definition lxmf_fields_merge_ticket (existing : slice) (t : option lxmf_ticket_field) (output : option (list Z)) (cap : nat) (existing_at output_at : Z)
    : option (lxmf_status * option (list Z) * nat) :=
  match output with
  | None => Some (LXMF_ERR_ARGUMENT, None, 0%nat)
  | Some o =>
      let capacity := bounded_capacity cap in
      if slice_bad existing || (LXMF_MAX_MESSAGE_SIZE <? Z.of_nat (slice_length existing)) || (match t with Some t => negb t.(present) | None => false end)
         || overlaps existing_at output_at (Z.of_nat (slice_length existing)) (Z.of_nat capacity)
      then Some (LXMF_ERR_ARGUMENT, None, 0%nat)
      else
        let l := existing_map existing in
        x ← lxmf_fields_parse_ticket (SBytes l);
        match x with
        | (LXMF_OK, previous) =>
            x ← (container true (start l) : option (option (Z * reader)));
            match x with
            | None => Some (LXMF_ERR_FORMAT, None, 0%nat)
            | Some (count, r) =>
                let had := match previous with Some t => t.(present) | None => false end in
                let new_count := count - (if had then 1 else 0) + (if t is Some _ then 1 else 0) in
                if FIELDS_MAX_ITEMS <? new_count then Some (LXMF_ERR_BOUNDS, None, 0%nat)
                else
                  x ← put_head 5 new_count (writer_over o capacity);
                  match x with
                  | (false, _) => Some (LXMF_ERR_BOUNDS, None, 0%nat)
                  | (true, w) =>
                      x ← copy_others (λ key, key =? LXMF_FIELD_TICKET) (Z.to_nat count) r 1 w;
                      match x with
                      | inl st => Some (st, None, 0%nat)
                      | inr (kept_items, w) =>
                          if FIELDS_MAX_ITEMS - (if t is Some _ then 4 else 0) <? kept_items then Some (LXMF_ERR_BOUNDS, None, 0%nat)
                          else
                            x ← (match t with Some t => put_ticket t w | None => Some (true, w) end);
                            Some (match x with
                                  | (true, w) => (LXMF_OK, Some w.(wbuf), (capacity - w.(left))%nat)
                                  | (false, _) => (LXMF_ERR_BOUNDS, None, 0%nat)
                                  end)
                      end
                  end
            end
        | (st, _) => Some (st, None, 0%nat)
        end
  end.

(** ** Names for attachments *)

Definition is_separator (b : Z) : bool := (b =? 47) || (b =? 92) || (b =? 58).

(** The loop for [start]: the part of the name from [start] on. *)
Fixpoint after_separator (s from : list Z) : list Z :=
  match s with [] => from | b :: s => after_separator s (if is_separator b then s else from) end.

Fixpoint drop_dots (s : list Z) : list Z := match s with b :: s' => if b =? 46 then drop_dots s' else s | [] => [] end.

Definition is_control (b : Z) : bool := (b <? 0x20) || (b =? 0x7f).

(** The copying loop: the output and the bytes written, [Some None] for
    [LXMF_ERR_BOUNDS]. *)
Fixpoint copy_name (s : list Z) (o : list Z) (written cap : nat) : option (option (list Z * nat)) :=
  match s with
  | [] => Some (Some (o, written))
  | b :: s =>
      if is_control b then copy_name s o written cap
      else if (cap <=? written)%nat then Some None
      else o ← store o written b; copy_name s o (S written) cap
  end.

(** "attachment" *)
Definition fallback : list Z := [97; 116; 116; 97; 99; 104; 109; 101; 110; 116].

(** The status, the output and [*output_length], [n0] before the call. *)
Definition lxmf_attachment_safe_name (nm : slice) (output : option (list Z)) (cap n0 : nat) : option (lxmf_status * option (list Z) * nat) :=
  match output with
  | None => Some (LXMF_ERR_ARGUMENT, None, n0)
  | Some o =>
      valid ← andalso (negb (slice_bad nm) && (slice_length nm <=? LXMF_STANDARD_MAX_NAME_BYTES)%nat) (utf8_slice nm);
      if negb valid then Some (LXMF_ERR_ARGUMENT, output, n0)
      else
        let s := slice_bytes nm in
        x ← copy_name (drop_dots (after_separator s s)) o 0 cap;
        match x with
        | None => Some (LXMF_ERR_BOUNDS, None, n0)
        | Some (o, written) =>
            if (written =? 0)%nat then
              if (cap <? length fallback)%nat then Some (LXMF_ERR_BOUNDS, Some o, n0)
              else o ← memcpy o 0 fallback; Some (LXMF_OK, Some o, length fallback)
            else Some (LXMF_OK, Some o, written)
        end
  end.

End Fields.
