(* ===== verification/FieldsParse.v ===== *)
(** * Reading standard fields

    The reader of [Fields] is memory safe, its steps depend on the bytes they take only,
    and they agree with the reader that skips an object. A parse is a walk over the
    entries of the map, each of which can be read on its own. *)

From Stdlib Require Import ZArith Lia.
From S2P Require Import Prelude Request Lxmf Utf8 Fields.

Module FieldsParse.
Import Lxmf Utf8 Fields.

(** ** Properties of the reading steps *)

(** The step [f] reads [bs], which holds [k] objects, as [a], whatever follows and
    however many objects came before, within the limit. *)
Definition consumes {A} (f : R A) (bs : list Z) (k : Z) (a : A) : Prop :=
  forall tail i, i + k <= FIELDS_MAX_ITEMS -> f {| rest := bs ++ tail; items := i |} = Some (Some (a, {| rest := tail; items := i + k |})).

(** A step that is memory safe on any bytes, whose result depends on the bytes it takes
    only, and whose values satisfy [P]. *)
Record steady {A} (P : A -> Prop) (f : R A) : Prop := {
  st_total r : bytes_ok r.(rest) -> exists x, f r = Some x;
  st_local r a r' : bytes_ok r.(rest) -> f r = Some (Some (a, r')) ->
    exists bs k, r.(rest) = bs ++ r'.(rest) /\ r'.(items) = r.(items) + k /\ 0 <= k /\ (k = 0 \/ r'.(items) <= FIELDS_MAX_ITEMS) /\ P a /\ consumes f bs k a
}.

Arguments st_total {_ _ _} _.
Arguments st_local {_ _ _} _.

Lemma reader_eta r : {| rest := r.(rest); items := r.(items) |} = r.
Proof. by destruct r. Qed.

Lemma steady_weaken {A} (P Q : A -> Prop) f : (forall a, P a -> Q a) -> steady P f -> steady Q f.
Proof.
  intros HPQ [Ht Hl]. constructor; [done|]. intros r a r' Hb Hf. destruct (Hl r a r' Hb Hf) as (bs & k & ? & ? & ? & ? & ? & ?). exists bs, k. split_and!; auto.
Qed.

Lemma steady_ret {A} (P : A -> Prop) a : P a -> steady P (ret a).
Proof.
  intros Ha. constructor; [by eexists|]. intros r ? r' _ [= <- <-]. exists [], 0. split_and!; [done|lia|lia|by left|done|]. intros tail i _. unfold ret. by rewrite Z.add_0_r.
Qed.

Lemma steady_fail {A} (P : A -> Prop) : steady P (@fail A).
Proof. constructor; [by eexists|done]. Qed.

Lemma consumes_bind {A B} (f : R A) (g : A -> R B) b1 k1 a b2 k2 b :
  0 <= k2 -> consumes f b1 k1 a -> consumes (g a) b2 k2 b -> consumes (rbind f g) (b1 ++ b2) (k1 + k2) b.
Proof.
  intros Hk Hf Hg tail i Hi. unfold rbind. rewrite <-app_assoc, (Hf (b2 ++ tail) i) by lia. rewrite Hg by lia. by rewrite Z.add_assoc.
Qed.

Lemma steady_bind {A B} (P : A -> Prop) (Q : B -> Prop) (f : R A) (g : A -> R B) :
  steady P f -> (forall a, P a -> steady Q (g a)) -> steady Q (rbind f g).
Proof.
  intros Hf Hg. constructor.
  - intros r Hb. unfold rbind. destruct (st_total Hf r Hb) as [[[a r1]|] E]; rewrite E; [|by eexists].
    destruct (st_local Hf r a r1 Hb E) as (bs & k & Er & _ & _ & _ & Ha & _). rewrite Er in Hb. apply Forall_app in Hb as [_ Hb]. by apply (Hg a Ha).
  - intros r b r' Hb. unfold rbind. destruct (f r) as [[[a r1]|]|] eqn:E; [|done..]. intros Eg.
    destruct (st_local Hf r a r1 Hb E) as (bs & k & Er & Ei & Hk & Hm & Ha & Hc). rewrite Er in Hb. apply Forall_app in Hb as [_ Hb].
    destruct (st_local (Hg a Ha) r1 b r' Hb Eg) as (bs2 & k2 & Er2 & Ei2 & Hk2 & Hm2 & HQ & Hc2). exists (bs ++ bs2), (k + k2).
    split_and!; [by rewrite Er, Er2, app_assoc|lia|lia| |done|by eapply consumes_bind]. destruct Hm as [->|Hm], Hm2 as [->|Hm2]; [by left| | |]; right; lia.
Qed.

Lemma steady_require (b : bool) : steady (λ _, b = true) (require b).
Proof. unfold require. destruct b; [by apply steady_ret|apply steady_fail]. Qed.

Lemma steady_lift {A} (P : A -> Prop) o : (exists a, o = Some a /\ P a) -> steady P (lift o).
Proof. intros (a & -> & Ha). by apply (steady_ret P a). Qed.

Lemma steady_next : steady is_byte next_code.
Proof.
  constructor.
  - intros [[|c l] i] Hb; cbn; [by eexists|]. unfold next_code. cbn. case_match; by eexists.
  - intros [[|c l] i] a r' Hb; unfold next_code; cbn; [done|]. destruct (Z.leb_spec FIELDS_MAX_ITEMS i); [done|]. intros [= <- <-]. cbn in Hb. apply Forall_cons_1 in Hb as [Hc _].
    exists [c], 1. split_and!; [done|done|lia|right; cbn; lia|done|]. intros tail j Hj. cbn. destruct (Z.leb_spec FIELDS_MAX_ITEMS j); [lia|done].
Qed.

Lemma consumes_number w v : (w <= 8)%nat -> 0 <= v < 256 ^ Z.of_nat w -> consumes (number w) (be_encode w v) 0 v.
Proof.
  intros Hw Hv tail i _. unfold number. cbn [rest]. rewrite (proj2 (Nat.ltb_ge _ _)) by (rewrite length_app, length_be_encode; lia).
  rewrite (bind_Some_eq _ _ (be_encode w v)) by (apply (memread_at _ [] _ tail); [done|done|by rewrite length_be_encode]).
  rewrite shift_bytes_be, be_decode_encode by (done || apply be_encode_bytes || by rewrite length_be_encode). rewrite drop_app_length' by (by rewrite length_be_encode). by rewrite Z.add_0_r.
Qed.

Lemma steady_number w : (w <= 8)%nat -> steady (λ v, 0 <= v < 256 ^ Z.of_nat w) (number w).
Proof.
  intros Hw. constructor.
  - intros r Hb. unfold number. destruct (Nat.ltb_spec (length (rest r)) w); [by eexists|]. rewrite memread_in by lia. by eexists.
  - intros r a r' Hb. unfold number. destruct (Nat.ltb_spec (length (rest r)) w) as [|Hl]; [done|]. destruct (split_at (rest r) w Hl) as (x & y & E & Hx). rewrite E in *.
    apply Forall_app in Hb as [Hbx _]. rewrite (bind_Some_eq _ _ x) by (by apply (memread_at _ [] x y)). rewrite drop_app_length' by done. intros [= <- <-]. cbn [rest items].
    rewrite shift_bytes_be by (done || lia). pose proof (be_decode_bounds x Hbx) as Hd. rewrite Hx in Hd. exists x, 0. split_and!; [done|lia|lia|by left|lia|lia|].
    pose proof (consumes_number w (be_decode x) Hw ltac:(lia)) as Hc. rewrite <-Hx in Hc at 2. by rewrite be_encode_decode in Hc.
Qed.

Lemma consumes_advance bs n : n = Z.of_nat (length bs) -> consumes (advance n) bs 0 bs.
Proof.
  intros -> tail i _. unfold advance. cbn [rest]. rewrite (proj2 (Z.ltb_ge _ _)) by (rewrite length_app; lia). rewrite Nat2Z.id.
  rewrite (bind_Some_eq _ _ bs) by (by apply (memread_at _ [] bs tail)). rewrite drop_app_length. by rewrite Z.add_0_r.
Qed.

Lemma steady_advance n : 0 <= n -> steady (λ bs, bytes_ok bs /\ Z.of_nat (length bs) = n) (advance n).
Proof.
  intros Hn. constructor.
  - intros r Hb. unfold advance. destruct (Z.ltb_spec (Z.of_nat (length (rest r))) n); [by eexists|]. rewrite memread_in by lia. by eexists.
  - intros r a r' Hb. unfold advance. destruct (Z.ltb_spec (Z.of_nat (length (rest r))) n) as [|Hl]; [done|]. destruct (split_at (rest r) (Z.to_nat n) ltac:(lia)) as (x & y & E & Hx). rewrite E in *.
    apply Forall_app in Hb as [Hbx _]. rewrite (bind_Some_eq _ _ x) by (by apply (memread_at _ [] x y)). rewrite drop_app_length' by done. intros [= <- <-]. cbn [rest items].
    exists x, 0. split_and!; [done|lia|lia|by left|done|lia|]. apply consumes_advance. lia.
Qed.

(** Goals [steady P f] for a step [f] built from steps with a lemma in [reader]. *)
Create HintDb reader.

Ltac steady_step :=
  match goal with
  | |- steady _ (ret _) => apply steady_ret
  | |- steady _ fail => apply steady_fail
  | |- steady _ (if ?b then _ else _) => destruct b eqn:?
  | |- steady _ (rbind _ _) => eapply steady_bind; [|intros ? ?; cbv beta in *]
  | |- steady _ _ => solve [eauto 2 with reader]
  end.

Ltac steady := repeat steady_step.

#[export] Hint Resolve steady_next steady_require : reader.
#[export] Hint Extern 2 (steady _ (number _)) => apply steady_number; lia : reader.
#[export] Hint Extern 2 (steady _ (advance _)) => apply steady_advance; lia : reader.

Lemma land_bounds c m : is_byte c -> 0 <= m -> 0 <= Z.land c m <= m.
Proof.
  intros [Hc _] Hm. split; [apply Z.land_nonneg; by left|]. apply Z.ldiff_le; [done|]. apply Z.bits_inj'. intros n Hn. rewrite Z.ldiff_spec, Z.land_spec, Z.bits_0.
  by destruct (Z.testbit c n), (Z.testbit m n).
Qed.

Lemma steady_sizes c : is_byte c -> steady (λ s, 0 <= s.1 /\ 0 <= s.2) (sizes c).
Proof.
  intros Hc. pose proof (land_bounds c 31 Hc ltac:(lia)). pose proof (land_bounds c 15 Hc ltac:(lia)). unfold sizes.
  steady; cbn in *; lia.
Qed.
#[export] Hint Resolve steady_sizes : reader.

Lemma steady_times f n : steady (λ _, True) f -> steady (λ _, True) (times f n).
Proof. intros Hf. induction n as [|n IH]; cbn [times]; [by apply steady_ret|]. by eapply steady_bind. Qed.

Lemma steady_skip levels : steady (λ _, True) (skip levels).
Proof.
  induction levels as [|levels IH]; cbn [skip]; [apply steady_fail|]. eapply steady_bind; [apply steady_next|]. intros c Hc. destruct (_ || _); [by apply steady_ret|].
  eapply steady_bind; [by apply steady_sizes|]. intros [b k] [Hb Hk]. cbn [fst snd] in *. eapply steady_bind; [by apply steady_advance|]. intros _ _. eapply steady_bind; [apply steady_require|].
  intros _ _. by apply steady_times.
Qed.

Lemma steady_skip_any : steady (λ _, True) skip_any.
Proof. apply steady_skip. Qed.
#[export] Hint Resolve steady_skip_any : reader.

Lemma steady_container map : steady (λ n, 0 <= n <= FIELDS_MAX_ITEMS) (container map).
Proof.
  unfold container. eapply steady_bind; [apply steady_next|]. intros c Hc. pose proof (land_bounds c 15 Hc ltac:(lia)). destruct (_ || _); [apply steady_ret; unfold FIELDS_MAX_ITEMS; lia|].
  eapply (steady_bind (λ n, 0 <= n)).
  - repeat case_match; (apply steady_fail || (eapply steady_weaken; [|apply steady_number; lia]; cbn; lia)).
  - intros n Hn. eapply steady_bind; [apply steady_require|]. intros _ Hle%Z.leb_le. by apply steady_ret.
Qed.
#[export] Hint Resolve steady_container : reader.

Lemma steady_unsigned : steady (in_width 64) unsigned_value.
Proof.
  unfold unsigned_value. eapply steady_bind; [apply steady_next|]. intros c Hc. unfold is_byte, in_width in *.
  repeat (case_match; [first [apply steady_ret; lia|eapply steady_weaken; [|apply steady_number; lia]; cbn; lia]|]). apply steady_fail.
Qed.
#[export] Hint Resolve steady_unsigned : reader.

Lemma steady_bytes text : steady bytes_ok (bytes_value text).
Proof.
  unfold bytes_value. eapply steady_bind; [apply steady_next|]. intros c Hc. pose proof (land_bounds c 31 Hc ltac:(lia)). eapply (steady_bind (λ n, 0 <= n)).
  - repeat (case_match; [first [apply steady_ret; lia|eapply steady_weaken; [|apply steady_number; lia]; cbn; lia]|]). apply steady_fail.
  - intros n Hn. eapply steady_weaken; [|by apply steady_advance]. by intros a [? _].
Qed.
#[export] Hint Resolve steady_bytes : reader.

(** A text field that was read is UTF-8. *)
Lemma steady_utf8 s : bytes_ok s -> steady (λ b, b = true -> utf8_text s) (lift (valid_utf8 s)).
Proof. intros Hs. apply steady_lift. destruct (utf8_loop_spec (length s) s Hs ltac:(lia)) as (b & Hv & Hiff). exists b. split; [done|apply Hiff]. Qed.
#[export] Hint Resolve steady_utf8 : reader.

Lemma steady_hash : steady (λ h, bytes_ok h /\ length h = 32%nat) parse_hash.
Proof. unfold parse_hash. steady. split; [done|]. by apply Nat.eqb_eq. Qed.
#[export] Hint Resolve steady_hash : reader.

Lemma steady_text_bin m : steady (λ t, bytes_ok t /\ utf8_text t /\ (length t <= m)%nat) (parse_text_bin m).
Proof. unfold parse_text_bin. steady. split_and!; [done|auto|by apply Nat.leb_le]. Qed.
#[export] Hint Resolve steady_text_bin : reader.

(** *** Agreement with [skip] *)

(** Where [f] succeeds it has read [n] objects, as [skip] does. *)
Definition walks {A} (levels n : nat) (f : R A) : Prop :=
  forall r a r', bytes_ok r.(rest) -> f r = Some (Some (a, r')) -> times (skip levels) n r = Some (Some (tt, r')).

Lemma times_add f n m r : times f (n + m) r = rbind (times f n) (λ _, times f m) r.
Proof.
  revert r. induction n as [|n IH]; intros r; cbn [Nat.add times]; [done|]. unfold rbind at 1 2 3. destruct (f r) as [[[a r1]|]|]; [|done..]. rewrite IH. done.
Qed.

Lemma times_1 f r : times f 1 r = f r.
Proof. cbn [times]. unfold rbind, ret. destruct (f r) as [[[[] r1]|]|]; done. Qed.

Lemma walks_ret {A} levels (a : A) : walks levels 0 (ret a).
Proof. by intros r ? r' _ [= <- <-]. Qed.

Lemma walks_fail {A} levels n : walks levels n (@fail A).
Proof. by intros r a r' _. Qed.

Lemma walks_bind {A B} (P : A -> Prop) levels n m (f : R A) (g : A -> R B) :
  steady P f -> walks levels n f -> (forall a, P a -> walks levels m (g a)) -> walks levels (n + m) (rbind f g).
Proof.
  intros Hst Hf Hg r b r' Hb. unfold rbind. destruct (f r) as [[[a r1]|]|] eqn:E; [|done..]. intros Eg. rewrite times_add. unfold rbind. rewrite (Hf r a r1 Hb E).
  destruct (st_local Hst r a r1 Hb E) as (bs & k & Er & _ & _ & _ & Ha & _). rewrite Er in Hb. apply Forall_app in Hb as [_ Hb]. by apply (Hg a Ha r1 b).
Qed.

Lemma walks_require levels b : walks levels 0 (require b).
Proof. unfold require. destruct b; [apply walks_ret|apply walks_fail]. Qed.

Lemma walks_lift {A} levels (o : option A) : walks levels 0 (lift o).
Proof. intros r a r' _. unfold lift. destruct o; [|done]. by intros [= <- <-]. Qed.

Lemma number_advance w r v r' : number w r = Some (Some (v, r')) -> exists b, advance (Z.of_nat w) r = Some (Some (b, r')).
Proof.
  unfold number, advance. destruct (Nat.ltb_spec (length (rest r)) w); [done|]. rewrite (proj2 (Z.ltb_ge _ _)) by lia. rewrite Nat2Z.id. rewrite memread_in by lia. cbn [mbind option_bind].
  intros [= <- <-]. by eexists.
Qed.

Lemma walks_unsigned levels : walks (S levels) 1 unsigned_value.
Proof.
  intros r a r' _. rewrite times_1. unfold unsigned_value. cbn [skip]. unfold rbind at 1 2. destruct (next_code r) as [[[c r1]|]|]; [|done..].
  destruct (Z.leb_spec c 0x7f); [cbn [orb]; unfold ret; by intros [= <- <-]|]. cbn [orb].
  assert (forall w, In w [1; 2; 4; 8]%nat -> number w r1 = Some (Some (a, r')) ->
    (let* _ := advance (Z.of_nat w) in let* _ := require true in ret tt) r1 = Some (Some (tt, r'))) as Hw.
  { intros w _ Hn. destruct (number_advance w r1 a r' Hn) as [b Hb]. unfold rbind. rewrite Hb. done. }
  destruct (Z.eqb_spec c 0xcc) as [->|]; [apply (Hw 1%nat); cbn; auto|]. destruct (Z.eqb_spec c 0xcd) as [->|]; [apply (Hw 2%nat); cbn; auto|].
  destruct (Z.eqb_spec c 0xce) as [->|]; [apply (Hw 4%nat); cbn; auto|]. destruct (Z.eqb_spec c 0xcf) as [->|]; [apply (Hw 8%nat); cbn; auto 6|done].
Qed.

Lemma walks_bytes levels text : walks (S levels) 1 (bytes_value text).
Proof.
  intros r a r' Hb. rewrite times_1. unfold bytes_value. cbn [skip]. intros Ha. unfold rbind at 1 in Ha. unfold rbind at 1. destruct (next_code r) as [[[c r1]|]|] eqn:En; [|done..].
  assert (is_byte c) as Hc by (destruct (st_local steady_next r c r1 Hb En) as (? & ? & _ & _ & _ & _ & Hc & _); done).
  assert (forall n, 0 <= n -> advance n r1 = Some (Some (a, r')) -> (let* _ := advance n in let* _ := require (0 <=? FIELDS_MAX_ITEMS) in times (skip levels) (Z.to_nat 0)) r1 = Some (Some (tt, r'))) as Hfix
    by (intros n _ Hn; unfold rbind; by rewrite Hn).
  assert (forall w (n : R Z), n = number w -> rbind n advance r1 = Some (Some (a, r')) ->
    rbind (rbind n (λ v, ret (v + 0, 0))) (λ s, let* _ := advance s.1 in let* _ := require (s.2 <=? FIELDS_MAX_ITEMS) in times (skip levels) (Z.to_nat s.2)) r1 = Some (Some (tt, r'))) as Hnum.
  { intros w n _. unfold rbind. destruct (n r1) as [[[v r2]|]|]; [|done..]. cbn [ret fst snd]. rewrite Z.add_0_r. intros ->. done. }
  destruct (text && _) eqn:Et.
  - apply andb_prop in Et as [_ Et]. pose proof (fixstr_range c Hc) as Hf. rewrite Et in Hf. symmetry in Hf. apply andb_prop in Et as [E1%Z.leb_le E2%Z.leb_le].
    assert ((c <=? 0x7f) || (0xe0 <=? c) || (c =? 0xc0) || (c =? 0xc2) || (c =? 0xc3) = false) as -> by lia. unfold sizes. rewrite Hf. apply (Hfix (Z.land c 31)); [by apply land_bounds|]. exact Ha.
  - repeat match type of Ha with context [if ?b then _ else _] => destruct b eqn:?; [| ] end; try done.
    all: match goal with H : (_ || _) = true |- _ => apply orb_prop in H as [H|H]; apply andb_prop in H as [_ ->%Z.eqb_eq] end; by eapply Hnum.
Qed.

Lemma fix_ranges c : is_byte c ->
  (Z.land c 0xe0 =? 0xa0) = ((0xa0 <=? c) && (c <=? 0xbf)) /\ (Z.land c 0xf0 =? 0x90) = ((0x90 <=? c) && (c <=? 0x9f)) /\ (Z.land c 0xf0 =? 0x80) = ((0x80 <=? c) && (c <=? 0x8f)).
Proof.
  intros Hc. assert (forall f : Z -> bool, forallb f (seqZ 0 256) = true -> f c = true) as Hall by (intros f Hf; by apply (forall_below 256)).
  split_and!; apply eqb_prop.
  - by apply (Hall (λ c, Bool.eqb (Z.land c 0xe0 =? 0xa0) ((0xa0 <=? c) && (c <=? 0xbf)))).
  - by apply (Hall (λ c, Bool.eqb (Z.land c 0xf0 =? 0x90) ((0x90 <=? c) && (c <=? 0x9f)))).
  - by apply (Hall (λ c, Bool.eqb (Z.land c 0xf0 =? 0x80) ((0x80 <=? c) && (c <=? 0x8f)))).
Qed.

(** A container and what [skip] does with the objects in it. *)
Lemma container_skip levels map r n r1 r' :
  bytes_ok r.(rest) -> container map r = Some (Some (n, r1)) -> n <= (if map then 128 else 256) ->
  times (skip levels) (Z.to_nat (if map then 2 * n else n)) r1 = Some (Some (tt, r')) -> skip (S levels) r = Some (Some (tt, r')).
Proof.
  intros Hb Hco. unfold container in Hco. cbn [skip]. unfold rbind at 1 in Hco. unfold rbind at 1. destruct (next_code r) as [[[c r2]|]|] eqn:En; [|done..].
  assert (is_byte c) as Hc by (destruct (st_local steady_next r c r2 Hb En) as (? & ? & _ & _ & _ & _ & Hc & _); done). pose proof (land_bounds c 15 Hc ltac:(lia)) as H15.
  assert (forall k, 0 <= k -> k <= 256 -> times (skip levels) (Z.to_nat k) r1 = Some (Some (tt, r')) ->
    (let* _ := advance 0 in let* _ := require (k <=? FIELDS_MAX_ITEMS) in times (skip levels) (Z.to_nat k)) r1 = Some (Some (tt, r'))) as Hgo.
  { intros k _ Hk Ht. unfold rbind, advance. rewrite (proj2 (Z.ltb_ge _ _)) by lia. rewrite memread_in by (cbn; lia). cbn [mbind option_bind]. rewrite drop_0. unfold require. rewrite (proj2 (Z.leb_le _ _)) by (unfold FIELDS_MAX_ITEMS; lia).
    cbn [ret]. replace {| r1 with rest := rest r1 |} with r1 by (by destruct r1). done. }
  destruct (fix_ranges c Hc) as (Ea & E9 & E8). rewrite E9, E8 in Hco.
  destruct (negb map && _ || _) eqn:Efix.
  - injection Hco as <- <-. intros Hn Ht.
    assert ((c <=? 0x7f) || (0xe0 <=? c) || (c =? 0xc0) || (c =? 0xc2) || (c =? 0xc3) = false) as -> by (destruct map; lia). unfold sizes. rewrite Ea, E9, E8.
    assert ((0xa0 <=? c) && (c <=? 0xbf) = false) as -> by (destruct map; lia). destruct map; cbn [negb andb orb] in Efix.
    + rewrite Efix. assert ((0x90 <=? c) && (c <=? 0x9f) = false) as -> by lia. apply (Hgo (2 * Z.land c 15)); [lia|lia|exact Ht].
    + rewrite orb_false_r in Efix. rewrite Efix. apply (Hgo (Z.land c 15)); [lia|lia|exact Ht].
  - intros Hn Ht.
    assert (forall w, (rbind (number w) (λ n, let* _ := require (n <=? FIELDS_MAX_ITEMS) in ret n)) r2 = Some (Some (n, r1)) -> number w r2 = Some (Some (n, r1)) /\ n <= 256) as Hinv.
    { intros w. unfold rbind, require. destruct (number w r2) as [[[v r3]|]|]; [|done..]. destruct (Z.leb_spec v FIELDS_MAX_ITEMS); [|done]. unfold ret. by intros [= <- <-]. }
    assert (forall w, (w <= 8)%nat -> number w r2 = Some (Some (n, r1)) -> 0 <= n) as Hpos.
    { intros w Hw Hnum. assert (bytes_ok (rest r2)) as Hb2.
      { destruct (st_local steady_next r c r2 Hb En) as (bs & k & E & _). rewrite E in Hb. by apply Forall_app in Hb as [_ ?]. }
      destruct (st_local (steady_number w Hw) r2 n r1 Hb2 Hnum) as (? & ? & _ & _ & _ & _ & ? & _). lia. }
    destruct map; cbv iota in Hn.
    + destruct (Z.eqb_spec c 0xde) as [->|]; [|destruct (Z.eqb_spec c 0xdf) as [->|]; [|done]].
      * destruct (Hinv _ Hco) as [Hnum _]. pose proof (Hpos 2%nat ltac:(lia) Hnum). change (sizes 0xde) with (let* n := number 2 in ret (0, 2 * n)). cbn [orb Z.leb Z.eqb Z.compare Pos.compare Pos.compare_cont Pos.eqb].
        unfold rbind at 1 2. rewrite Hnum. cbn [ret fst snd]. apply (Hgo (2 * n)); [lia|lia|done].
      * destruct (Hinv _ Hco) as [Hnum _]. pose proof (Hpos 4%nat ltac:(lia) Hnum).
        change (sizes 0xdf) with (let* n := number 4 in let* _ := require (n <=? FIELDS_MAX_ITEMS / 2) in ret (0, 2 * n)). cbn [orb Z.leb Z.eqb Z.compare Pos.compare Pos.compare_cont Pos.eqb].
        unfold rbind at 1 2. rewrite Hnum. unfold rbind at 1, require at 1. change (FIELDS_MAX_ITEMS / 2) with 128. rewrite (proj2 (Z.leb_le n 128)) by lia. cbn [ret fst snd]. apply (Hgo (2 * n)); [lia|lia|done].
    + destruct (Z.eqb_spec c 0xdc) as [->|]; [|destruct (Z.eqb_spec c 0xdd) as [->|]; [|done]].
      * destruct (Hinv _ Hco) as [Hnum _]. pose proof (Hpos 2%nat ltac:(lia) Hnum). change (sizes 0xdc) with (let* n := number 2 in ret (0, n)). cbn [orb Z.leb Z.eqb Z.compare Pos.compare Pos.compare_cont Pos.eqb].
        unfold rbind at 1 2. rewrite Hnum. cbn [ret fst snd]. apply (Hgo n); [lia|lia|done].
      * destruct (Hinv _ Hco) as [Hnum _]. pose proof (Hpos 4%nat ltac:(lia) Hnum). change (sizes 0xdd) with (let* n := number 4 in ret (0, n)). cbn [orb Z.leb Z.eqb Z.compare Pos.compare Pos.compare_cont Pos.eqb].
        unfold rbind at 1 2. rewrite Hnum. cbn [ret fst snd]. apply (Hgo n); [lia|lia|done].
Qed.

Lemma walks_container {A} levels (map : bool) (k : Z -> R A) :
  (forall n, 0 <= n <= 256 -> walks levels (Z.to_nat (if map then 2 * n else n)) (k n)) -> (map = true -> forall n r a r', k n r = Some (Some (a, r')) -> n <= 128) ->
  walks (S levels) 1 (rbind (container map) k).
Proof.
  intros Hk Hmap r a r' Hb. rewrite times_1. unfold rbind at 1. destruct (container map r) as [[[n r1]|]|] eqn:Eco; [|done..]. intros Ek.
  destruct (st_local (steady_container map) r n r1 Hb Eco) as (bs & j & E & _ & _ & _ & Hn & _). eapply container_skip; [done|done| |].
  - destruct map; [by eapply Hmap|apply Hn].
  - rewrite E in Hb. apply Forall_app in Hb as [_ Hb]. by apply (Hk n Hn r1 a).
Qed.

(** *** Looking ahead *)

(** [f] fails on everything that starts with [c]. *)
Definition refuses {A} (f : R A) (c : Z) : Prop := forall l i, f {| rest := c :: l; items := i |} = Some None.

(** Where [g] succeeds it takes a byte, and the first one is refused by [f]. *)
Definition excludes {A B} (f : R A) (g : R B) : Prop :=
  forall r b r', bytes_ok r.(rest) -> g r = Some (Some (b, r')) -> exists c l, r.(rest) = c :: l /\ refuses f c /\ (length r'.(rest) < length r.(rest))%nat.

Definition either {A B} (f : R A) (k : A -> R B) (g : R B) : R B :=
  let* x := peek f in match x with Some a => let* _ := f in k a | None => g end.

Lemma either_eq {A B} (f : R A) (k : A -> R B) g r :
  either f k g r = match f r with None => None | Some None => g r | Some (Some (a, r')) => k a r' end.
Proof. unfold either, rbind, peek. destruct (f r) as [[[a r']|]|] eqn:E; cbn; [by rewrite E|done|done]. Qed.

Lemma steady_either {A B} (P : A -> Prop) (Q : B -> Prop) (f : R A) (k : A -> R B) g :
  steady P f -> (forall a, P a -> steady Q (k a)) -> steady Q g -> excludes f g -> steady Q (either f k g).
Proof.
  intros Hf Hk Hg Hx. pose proof (steady_bind P Q f k Hf Hk) as Hb. constructor.
  - intros r Hr. rewrite either_eq. destruct (st_total Hb r Hr) as [x E]. unfold rbind in E. destruct (f r) as [[[a r']|]|]; [by exists x|by apply (st_total Hg)|done].
  - intros r b r' Hr. rewrite either_eq. destruct (f r) as [[[a r1]|]|] eqn:E; [| |done].
    + intros Ek. destruct (st_local Hb r b r' Hr) as (bs & j & Er & Ei & Hj & Hm & HQ & Hc); [unfold rbind; by rewrite E|]. exists bs, j. split_and!; [done|done|done|done|done|].
      destruct (st_local Hf r a r1 Hr E) as (b1 & k1 & Er1 & _ & Hk1 & _ & Ha & Hc1). rewrite Er1 in Hr. apply Forall_app in Hr as [_ Hr].
      destruct (st_local (Hk a Ha) r1 b r' Hr Ek) as (b2 & k2 & Er2 & Ei2 & Hk2 & _ & _ & Hc2).
      intros tail i Hi. rewrite either_eq. specialize (Hc tail i Hi). unfold rbind in Hc. destruct (f {| rest := bs ++ tail; items := i |}) as [[[a' r2]|]|]; [exact Hc|discriminate Hc|discriminate Hc].
    + intros Eg. destruct (st_local Hg r b r' Hr Eg) as (bs & j & Er & Ei & Hj & Hm & HQ & Hc). exists bs, j. split_and!; [done|done|done|done|done|]. intros tail i Hi. rewrite either_eq.
      destruct (Hx r b r' Hr Eg) as (c & l & El & Href & Hlen). destruct bs as [|c' bs]; [rewrite Er in Hlen; cbn in Hlen; lia|]. rewrite Er in El. cbn in El. injection El as -> _.
      cbn [app]. rewrite Href. by apply (Hc tail i Hi).
Qed.

Lemma next_code_at c l i : next_code {| rest := c :: l; items := i |} = if FIELDS_MAX_ITEMS <=? i then Some None else Some (Some (c, {| rest := l; items := i + 1 |})).
Proof. done. Qed.

(** A step that starts with a code is decided by it. *)
Lemma refuses_code {A} (g : Z -> R A) c : g c = fail -> refuses (rbind next_code g) c.
Proof. intros Hg l i. unfold rbind. rewrite next_code_at. destruct (FIELDS_MAX_ITEMS <=? i); [done|]. by rewrite Hg. Qed.

Lemma code_first {A} (P : A -> Prop) (g : Z -> R A) r a r' : bytes_ok r.(rest) -> rbind next_code g r = Some (Some (a, r')) ->
  exists c l, r.(rest) = c :: l /\ is_byte c /\ g c {| rest := l; items := r.(items) + 1 |} = Some (Some (a, r')).
Proof.
  unfold rbind, next_code. destruct (rest r) as [|c l]; [done|]. intros Hb. destruct (FIELDS_MAX_ITEMS <=? items r); [done|]. intros E. exists c, l. split_and!; [done| |done]. by apply Forall_cons_1 in Hb as [? _].
Qed.

Lemma excludes_code {A B} (f : R A) (P : B -> Prop) (g : Z -> R B) :
  (forall c, is_byte c -> steady P (g c)) -> (forall c, is_byte c -> g c = fail \/ refuses f c) -> excludes f (rbind next_code g).
Proof.
  intros Hst Hg r b r' Hb E. destruct (code_first P g r b r' Hb E) as (c & l & Er & Hc & Eg). exists c, l. split; [done|]. destruct (Hg c Hc) as [Ef|Href]; [by rewrite Ef in Eg|]. split; [done|].
  rewrite Er in Hb. apply Forall_cons_1 in Hb as [_ Hl]. destruct (st_local (Hst c Hc) {| rest := l; items := items r + 1 |} b r' Hl Eg) as (bs & k & E2 & _). cbn [rest] in E2. rewrite Er, E2. cbn [length]. rewrite length_app. lia.
Qed.

Lemma excludes_bind {A B C} (f : R A) (P : B -> Prop) (g : R B) (Q : C -> Prop) (k : B -> R C) :
  excludes f g -> steady P g -> (forall b, P b -> steady Q (k b)) -> excludes f (rbind g k).
Proof.
  intros Hx Hg Hk r x r' Hb. unfold rbind. destruct (g r) as [[[b r1]|]|] eqn:E; [|done..]. intros Ek. destruct (Hx r b r1 Hb E) as (c & l & Er & Href & Hlen). exists c, l. split_and!; [done|done|].
  destruct (st_local Hg r b r1 Hb E) as (bs & j & Er1 & _ & _ & _ & Hpb & _). rewrite Er1 in Hb. apply Forall_app in Hb as [_ Hb].
  destruct (st_local (Hk b Hpb) r1 x r' Hb Ek) as (b2 & j2 & Er2 & _). rewrite Er2, length_app in Hlen. lia.
Qed.

Lemma refuses_raw c : ((c =? 0xc4) || (c =? 0xc5) || (c =? 0xc6)) = false -> refuses (bytes_value false) c.
Proof.
  intros H2. unfold bytes_value. intros l i. unfold rbind at 1. rewrite next_code_at. destruct (FIELDS_MAX_ITEMS <=? i); [done|]. cbn [negb andb orb]. rewrite !orb_false_r. apply orb_false_elim in H2 as [[-> ->]%orb_false_elim ->]. done.
Qed.

Lemma refuses_unsigned c : is_byte c -> (0x7f <? c) && negb ((c =? 0xcc) || (c =? 0xcd) || (c =? 0xce) || (c =? 0xcf)) = true -> refuses unsigned_value c.
Proof.
  intros Hc [H1%Z.ltb_lt H2]%andb_prop. apply refuses_code. rewrite (proj2 (Z.leb_gt _ _)) by lia. apply negb_true_iff in H2. apply orb_false_elim in H2 as [[[-> ->]%orb_false_elim ->]%orb_false_elim ->]. done.
Qed.

Lemma excludes_raw_container : excludes (bytes_value false) (container false).
Proof.
  unfold container. eapply (excludes_code _ (λ _, True)).
  - intros c Hc. destruct (_ || _); [by apply steady_ret|]. eapply (steady_bind (λ _, True)); [|intros n _; steady; done].
    repeat case_match; first [apply steady_fail|eapply steady_weaken; [|apply steady_number; lia]; done].
  - intros c Hc. destruct (((c =? 0xc4) || (c =? 0xc5) || (c =? 0xc6))) eqn:E; [left|right; by apply refuses_raw]. destruct (fix_ranges c Hc) as (_ & -> & ->).
    cbn [negb andb orb]. rewrite orb_false_r. assert ((0x90 <=? c) && (c <=? 0x9f) = false) as -> by lia. assert ((c =? 0xdc) = false) as -> by lia. assert ((c =? 0xdd) = false) as -> by lia. done.
Qed.

Lemma excludes_unsigned_text : excludes unsigned_value (bytes_value true).
Proof.
  unfold bytes_value. eapply (excludes_code _ (λ _, True)).
  - intros c Hc. pose proof (land_bounds c 31 Hc ltac:(lia)). eapply (steady_bind (λ n, 0 <= n)).
    + repeat (case_match; [first [apply steady_ret; lia|eapply steady_weaken; [|apply steady_number; lia]; cbn; lia]|]). apply steady_fail.
    + intros n Hn. eapply steady_weaken; [|by apply steady_advance]. done.
  - intros c Hc. cbn [negb andb orb]. destruct ((0x7f <? c) && negb ((c =? 0xcc) || (c =? 0xcd) || (c =? 0xce) || (c =? 0xcf))) eqn:E; [right; by apply refuses_unsigned|left].
    assert ((0xa0 <=? c) && (c <=? 0xbf) = false) as -> by lia. assert ((c =? 0xd9) = false) as -> by lia. assert ((c =? 0xda) = false) as -> by lia. assert ((c =? 0xdb) = false) as -> by lia. done.
Qed.

(** ** Well-formed fields *)

Definition text_ok (maximum : nat) (s : slice) : Prop :=
  slice_bad s = false /\ bytes_ok (slice_bytes s) /\ utf8_text (slice_bytes s) /\ (slice_length s <= maximum)%nat.

Definition named (maximum : nat) (s : slice) : Prop := exists t, s = SBytes t /\ t <> [] /\ bytes_ok t /\ utf8_text t /\ (length t <= maximum)%nat.

Definition blob_ok (s : slice) : Prop := slice_bad s = false /\ bytes_ok (slice_bytes s) /\ Z.of_nat (slice_length s) <= LXMF_STANDARD_MAX_MEDIA_BYTES.

Record media_view_ok (m : lxmf_media_view) : Prop := {
  mv_data : blob_ok m.(media_data);
  mv_integer : is_byte m.(integer_format);
  mv_text : m.(format_kind) = LXMF_MEDIA_FORMAT_TEXT -> named LXMF_STANDARD_MAX_FORMAT_BYTES m.(text_format)
}.

Definition attachment_ok (a : lxmf_attachment_view) : Prop := named LXMF_STANDARD_MAX_NAME_BYTES a.(name) /\ blob_ok a.(data).

Definition hash32 (h : list Z) : Prop := bytes_ok h /\ length h = 32%nat.

(** The sum of the sizes of the first [n] attachments. *)
Definition data_total (l : list lxmf_attachment_view) : Z := foldr (λ a t, Z.of_nat (slice_length a.(data)) + t) 0 l.

Record standard_ok (f : lxmf_standard_fields) : Prop := {
  so_renderer : 0 <= f.(renderer) <= LXMF_RENDERER_BBCODE;
  so_reply_to : hash32 f.(reply_to);
  so_quote : text_ok LXMF_STANDARD_MAX_QUOTE_BYTES f.(reply_quote);
  so_reaction_to : hash32 f.(reaction_to);
  so_reaction : text_ok LXMF_STANDARD_MAX_REACTION_BYTES f.(reaction_content);
  so_thread : hash32 f.(thread);
  so_array : length f.(attachments) = 16%nat;
  so_count : (f.(attachment_count) <= 16)%nat;
  so_attachments : Forall attachment_ok (take f.(attachment_count) f.(attachments));
  so_total : data_total (take f.(attachment_count) f.(attachments)) <= LXMF_MAX_MESSAGE_SIZE;
  so_image : media_view_ok f.(image);
  so_audio : media_view_ok f.(audio)
}.

Lemma utf8_empty : utf8_text [].
Proof. by exists []. Qed.

Lemma zero_hash32 : hash32 (replicate 32 0).
Proof. split; [|done]. by apply Forall_replicate. Qed.

Lemma zero_media_ok : media_view_ok zero_media.
Proof. constructor; cbn; [split_and!; [done|by constructor|cbn; unfold LXMF_STANDARD_MAX_MEDIA_BYTES; lia]|done|done]. Qed.

Lemma zero_standard_ok : standard_ok zero_fields.
Proof.
  assert (forall m, text_ok m (SNull 0)) as Ht by (intros m; split_and!; [done|by constructor|apply utf8_empty|cbn; lia]).
  constructor; cbn [zero_fields renderer reply_to reply_quote reaction_to reaction_content thread attachments attachment_count image audio];
    first [apply zero_hash32|apply zero_media_ok|apply Ht|done|rewrite take_0; first [constructor|done]|lia].
Qed.

Lemma text_read_ok m t : bytes_ok t -> utf8_text t -> (length t <= m)%nat -> text_ok m (SBytes t).
Proof. intros ???. by split_and!. Qed.

Lemma blob_read_ok d : bytes_ok d -> media_fits d = true -> blob_ok (SBytes d).
Proof. intros ? ?%Z.leb_le. by split_and!. Qed.

(** *** The parsers are steady *)

Definition opt_ok (P : list Z -> Prop) (o : option (list Z)) : Prop := forall x, o = Some x -> P x.
Definition reaction_text (t : list Z) : Prop := bytes_ok t /\ utf8_text t /\ (length t <= LXMF_STANDARD_MAX_REACTION_BYTES)%nat.

Lemma steady_reaction_entries n t c : opt_ok hash32 t -> opt_ok reaction_text c -> steady (λ p, opt_ok hash32 p.1 /\ opt_ok reaction_text p.2) (reaction_entries n t c).
Proof.
  revert t c. induction n as [|n IH]; intros t c Ht Hc; cbn [reaction_entries]; [by apply steady_ret|]. eapply steady_bind; [apply steady_unsigned|]. intros key _.
  destruct (_ && _); [eapply steady_bind; [apply steady_hash|]; intros h Hh; apply IH; [by intros ? [= <-]|done]|].
  destruct (_ && _); [eapply steady_bind; [apply steady_text_bin|]; intros x Hx; apply IH; [done|by intros ? [= <-]]|]. apply steady_fail.
Qed.

Lemma steady_reaction f : standard_ok f -> steady standard_ok (parse_reaction f).
Proof.
  intros Hf. unfold parse_reaction. eapply steady_bind; [apply steady_container|]. intros n _. eapply steady_bind; [apply steady_require|]. intros _ _.
  eapply steady_bind; [by apply steady_reaction_entries|]. intros [[t|] [c|]] [Ht Hc]; try apply steady_fail. apply steady_ret. specialize (Ht t eq_refl). destruct (Hc c eq_refl) as (? & ? & ?).
  destruct Hf. constructor; cbn; try done.
Qed.

Lemma data_total_app a b : data_total (a ++ b) = data_total a + data_total b.
Proof. induction a as [|x a IH]; [done|]. cbn [app data_total foldr]. fold (data_total (a ++ b)). fold (data_total a). lia. Qed.

Lemma steady_attachment_entries n i total l :
  length l = 16%nat -> (i + n <= 16)%nat -> Forall attachment_ok (take i l) -> total = data_total (take i l) -> total <= LXMF_MAX_MESSAGE_SIZE ->
  steady (λ l', length l' = 16%nat /\ Forall attachment_ok (take (i + n) l') /\ data_total (take (i + n) l') <= LXMF_MAX_MESSAGE_SIZE) (attachment_entries n i total l).
Proof.
  revert i total l. induction n as [|n IH]; intros i total l Hl Hi Hf Ht Hmax; cbn [attachment_entries]; [apply steady_ret; rewrite Nat.add_0_r; split_and!; [done|done|lia]|].
  destruct (lookup_lt_is_Some_2 l i) as [a Ha]; [lia|]. eapply steady_bind; [apply (steady_lift (λ _, True)); by exists a|]. intros _ _.
  eapply steady_bind; [apply steady_container|]. intros pair _. eapply steady_bind; [apply steady_require|]. intros _ _.
  eapply steady_bind; [apply steady_bytes|]. intros nm Hnm. eapply steady_bind; [apply steady_require|]. intros _ [Hne%negb_true_iff Hle%Nat.leb_le]%andb_prop. apply Nat.eqb_neq in Hne.
  eapply steady_bind; [by apply steady_utf8|]. intros v Hv. eapply steady_bind; [apply steady_require|]. intros _ ->.
  eapply steady_bind; [apply steady_bytes|]. intros d Hd. eapply steady_bind; [apply steady_require|]. intros _ [Hd1 Hd2%Z.leb_le]%andb_prop.
  set (x := {| name := SBytes nm; data := SBytes d |}). assert (take (S i) (<[i := x]> l) = take i l ++ [x]) as Etake.
  { rewrite (take_S_r _ _ x) by (apply list_lookup_insert_eq; lia). by rewrite take_insert_ge by lia. }
  replace (i + S n)%nat with (S i + n)%nat by lia. apply IH; [by rewrite length_insert|lia| | |lia].
  - rewrite Etake. apply Forall_app; split; [done|]. constructor; [|constructor]. split; [exists nm; split_and!; [done|by destruct nm|done|auto|done]|by apply blob_read_ok].
  - rewrite Etake, data_total_app. cbn. lia.
Qed.

Lemma steady_attachments f : standard_ok f -> steady standard_ok (parse_attachments f).
Proof.
  intros Hf. unfold parse_attachments. eapply steady_bind; [apply steady_container|]. intros n [Hn _]. eapply steady_bind; [apply steady_require|]. intros _ Hle%Z.leb_le. unfold LXMF_STANDARD_MAX_ATTACHMENTS in Hle.
  eapply steady_bind; [apply (steady_attachment_entries (Z.to_nat n) 0 0); [apply Hf|lia|rewrite take_0; constructor|by rewrite take_0|unfold LXMF_MAX_MESSAGE_SIZE; lia]|].
  intros l (Hl & Ha & Ht). apply steady_ret. destruct Hf. constructor; cbn [renderer reply_to reply_quote reaction_to reaction_content thread attachments attachment_count image audio]; try done. lia.
Qed.

Lemma steady_media_format m : media_view_ok m -> steady media_view_ok (media_format m).
Proof.
  intros Hm. unfold media_format. change (steady media_view_ok (either unsigned_value
    (λ integer, let* _ := require (integer <=? 0xff) in ret {| m with format_kind := LXMF_MEDIA_FORMAT_INTEGER; integer_format := wrap8 integer |})
    (let* format := bytes_value true in
     let* _ := require (negb (length format =? 0)%nat && (length format <=? LXMF_STANDARD_MAX_FORMAT_BYTES)%nat) in
     let* valid := lift (valid_utf8 format) in let* _ := require valid in
     ret {| m with format_kind := LXMF_MEDIA_FORMAT_TEXT; text_format := SBytes format |}))).
  eapply steady_either; [apply steady_unsigned| | |].
  - intros n Hn. steady. destruct Hm. constructor; cbn; [done|by apply wrap_in_width|done].
  - steady. match goal with H : _ && _ = true |- _ => apply andb_prop in H as [Hne%negb_true_iff Hle%Nat.leb_le] end. apply Nat.eqb_neq in Hne.
    destruct Hm. constructor; cbn; [done|done|]. intros _. eexists. split_and!; [done| |done|auto|done]. intros ->. done.
  - eapply excludes_bind; [apply excludes_unsigned_text|apply steady_bytes|]. intros t Ht. apply (steady_weaken (λ _, True) (λ _, True)); [done|]. steady; done.
Qed.

Lemma steady_media m : media_view_ok m -> steady media_view_ok (parse_media m).
Proof.
  intros Hm. assert (forall x, media_view_ok x -> steady media_view_ok (let* d := bytes_value false in let* _ := require (media_fits d) in ret {| x with media_data := SBytes d |})) as Htail.
  { intros x Hx. steady. destruct Hx. constructor; cbn; [by apply blob_read_ok|done|done]. }
  unfold parse_media. change (steady media_view_ok (either (bytes_value false)
    (λ d, let* _ := require (media_fits d) in ret {| m with media_data := SBytes d; format_kind := LXMF_MEDIA_FORMAT_NONE |})
    (let* count := container false in let* _ := require (count =? 2) in let* media := media_format m in
     let* d := bytes_value false in let* _ := require (media_fits d) in ret {| media with media_data := SBytes d |}))).
  eapply steady_either; [apply steady_bytes| | |].
  - intros d Hd. steady. destruct Hm. constructor; cbn; [by apply blob_read_ok|done|done].
  - eapply steady_bind; [apply steady_container|]. intros n _. eapply steady_bind; [apply steady_require|]. intros _ _. eapply steady_bind; [by apply steady_media_format|]. apply Htail.
  - eapply excludes_bind; [apply excludes_raw_container|apply steady_container|]. intros n _. eapply steady_bind; [apply steady_require|]. intros _ _.
    eapply steady_bind; [by apply steady_media_format|]. apply Htail.
Qed.

Lemma steady_known mask f m : standard_ok f -> parse_known mask f = Some m -> steady standard_ok m.
Proof.
  intros Hf. unfold parse_known.
  repeat (case_match; [intros [= <-]|]); [| | |by apply steady_reaction| |by apply steady_attachments| | |done].
  - eapply steady_bind; [apply steady_unsigned|]. intros v [Hv _]. eapply steady_bind; [apply steady_require|]. intros _ Hle%Z.leb_le. apply steady_ret. destruct Hf. constructor; cbn; try done.
    unfold LXMF_RENDERER_BBCODE in *. rewrite wrap_small by (unfold in_width; lia). lia.
  - eapply steady_bind; [apply steady_hash|]. intros h Hh. apply steady_ret. destruct Hf. constructor; cbn; done.
  - eapply steady_bind; [apply steady_text_bin|]. intros t (? & ? & ?). apply steady_ret. destruct Hf. constructor; cbn; try done.
  - eapply steady_bind; [apply steady_hash|]. intros h Hh. apply steady_ret. destruct Hf. constructor; cbn; done.
  - eapply steady_bind; [apply steady_media, Hf|]. intros x Hx. apply steady_ret. destruct Hf. constructor; cbn; done.
  - eapply steady_bind; [apply steady_media, Hf|]. intros x Hx. apply steady_ret. destruct Hf. constructor; cbn; done.
Qed.

(** *** The parsers read one object *)

Lemma walks_hash levels : walks (S levels) 1 parse_hash.
Proof.
  unfold parse_hash. apply (walks_bind bytes_ok (S levels) 1 0); [apply steady_bytes|apply walks_bytes|]. intros v _.
  apply (walks_bind _ (S levels) 0 0 _ _ (steady_require _)); [apply walks_require|]. intros _ _. apply walks_ret.
Qed.

Lemma walks_checked {A} levels t (b : bool) (k : R A) : bytes_ok t -> walks levels 0 k ->
  walks levels 0 (let* _ := require b in let* valid := lift (valid_utf8 t) in let* _ := require valid in k).
Proof.
  intros Ht Hk. apply (walks_bind _ levels 0 0 _ _ (steady_require _)); [apply walks_require|]. intros _ _. apply (walks_bind _ levels 0 0 _ _ (steady_utf8 t Ht)); [apply walks_lift|].
  intros v _. apply (walks_bind _ levels 0 0 _ _ (steady_require _)); [apply walks_require|]. by intros _ _.
Qed.

Lemma walks_text_bin levels m : walks (S levels) 1 (parse_text_bin m).
Proof.
  unfold parse_text_bin. apply (walks_bind bytes_ok (S levels) 1 0); [apply steady_bytes|apply walks_bytes|]. intros v Hv. apply walks_checked; [done|]. apply walks_ret.
Qed.

Lemma walks_reaction_entries levels n t c : walks (S levels) (n * 2) (reaction_entries n t c).
Proof.
  revert t c. induction n as [|n IH]; intros t c; cbn [reaction_entries]; [apply walks_ret|]. change (S n * 2)%nat with (1 + (1 + n * 2))%nat.
  apply (walks_bind _ (S levels) 1 _ _ _ steady_unsigned); [apply walks_unsigned|]. intros key _.
  destruct (_ && _); [apply (walks_bind _ (S levels) 1 _ _ _ steady_hash); [apply walks_hash|]; intros h _; apply IH|].
  destruct (_ && _); [apply (walks_bind _ (S levels) 1 _ _ _ (steady_text_bin _)); [apply walks_text_bin|]; intros h _; apply IH|]. apply walks_fail.
Qed.

Lemma require_true {A} b (k : R A) r x : (let* _ := require b in k) r = Some (Some x) -> b = true.
Proof. by destruct b. Qed.

Lemma walks_reaction levels f : walks (S (S levels)) 1 (parse_reaction f).
Proof.
  unfold parse_reaction. apply walks_container.
  - intros n _ r a r' Hb E. pose proof (require_true _ _ _ _ E) as ->%Z.eqb_eq. revert r a r' Hb E. change (walks (S levels) (0 + (4 + 0)) (let* _ := require (2 =? 2) in
      let* found := reaction_entries 2 None None in match found with (Some target, Some content) => ret {| f with reaction_to := target; reaction_content := SBytes content |} | _ => fail end)).
    apply (walks_bind _ _ 0 _ _ _ (steady_require _)); [apply walks_require|]. intros _ _.
    apply (walks_bind _ _ 4 0 _ _ (steady_reaction_entries 2 None None ltac:(by intros ?) ltac:(by intros ?))); [apply (walks_reaction_entries levels 2)|].
    intros [[t|] [c|]] _; first [apply walks_ret|apply walks_fail].
  - intros _ n r a r' E. pose proof (require_true _ _ _ _ E) as ->%Z.eqb_eq. lia.
Qed.

Lemma rbind_inv {A B} (m : R A) (k : A -> R B) r x : rbind m k r = Some (Some x) -> exists a r1, m r = Some (Some (a, r1)) /\ k a r1 = Some (Some x).
Proof. unfold rbind. destruct (m r) as [[[a r1]|]|]; [|done..]. intros E. by exists a, r1. Qed.

Lemma require_inv {A} b (k : R A) r x : (let* _ := require b in k) r = Some (Some x) -> b = true /\ k r = Some (Some x).
Proof. by destruct b. Qed.

Lemma lift_inv {A B} (o : option A) (k : A -> R B) r x : rbind (lift o) k r = Some (Some x) -> exists a, o = Some a /\ k a r = Some (Some x).
Proof. unfold rbind, lift. destruct o as [a|]; [|done]. intros E. by exists a. Qed.

Lemma steady_rest {A} (P : A -> Prop) (f : R A) r a r' : steady P f -> bytes_ok r.(rest) -> f r = Some (Some (a, r')) -> bytes_ok r'.(rest) /\ P a.
Proof. intros Hf Hb E. destruct (st_local Hf r a r' Hb E) as (bs & k & Er & _ & _ & _ & Ha & _). rewrite Er in Hb. by apply Forall_app in Hb as [_ ?]. Qed.

Lemma walks_attachment_entries levels n i total l : walks (S (S levels)) n (attachment_entries n i total l).
Proof.
  revert i total l. induction n as [|n IH]; intros i total l; cbn [attachment_entries]; [apply walks_ret|]. intros r x r' Hb E. change (S n) with (1 + n)%nat. rewrite times_add.
  apply lift_inv in E as (a & _ & E). apply rbind_inv in E as (pair & r1 & Eco & E). apply require_inv in E as [->%Z.eqb_eq E].
  apply rbind_inv in E as (nm & r2 & Enm & E). apply require_inv in E as [_ E]. apply lift_inv in E as (v & _ & E). apply require_inv in E as [_ E].
  apply rbind_inv in E as (d & r3 & Ed & E). apply require_inv in E as [_ E].
  destruct (steady_rest _ _ _ _ _ (steady_container false) Hb Eco) as [Hb1 _]. destruct (steady_rest _ _ _ _ _ (steady_bytes true) Hb1 Enm) as [Hb2 _].
  destruct (steady_rest _ _ _ _ _ (steady_bytes false) Hb2 Ed) as [Hb3 _].
  unfold rbind. rewrite times_1. rewrite (container_skip (S levels) false r 2 r1 r3 Hb Eco); [exact (IH _ _ _ r3 x r' Hb3 E)|lia|].
  match goal with |- times ?f ?n ?r = _ => change (times f (1 + 1) r = Some (Some (tt, r3))) end. rewrite times_add. unfold rbind. rewrite (walks_bytes levels true r1 nm r2 Hb1 Enm). by apply (walks_bytes levels false r2 d).
Qed.

Lemma walks_attachments levels f : walks (S (S (S levels))) 1 (parse_attachments f).
Proof.
  unfold parse_attachments. apply walks_container; [|done]. intros n _ r a r' Hb E. apply require_inv in E as [_ E]. apply rbind_inv in E as (l & r1 & El & E). unfold ret in E. injection E as _ <-.
  exact (walks_attachment_entries levels _ _ _ _ r l r1 Hb El).
Qed.

Lemma walks_media levels m : walks (S (S levels)) 1 (parse_media m).
Proof.
  intros r a r' Hb E. unfold parse_media in E. apply rbind_inv in E as (raw & r0 & Ep & E). unfold peek in Ep. destruct (bytes_value false r) as [x|] eqn:Er; [|done]. injection Ep as <- <-. destruct x as [[d r1]|]; cbn in E.
  { apply rbind_inv in E as (d' & r2 & Er' & E). rewrite Er in Er'. injection Er' as <- <-. apply require_inv in E as [_ E]. unfold ret in E. injection E as _ <-. by apply (walks_bytes (S levels) false r d). }
  apply rbind_inv in E as (n & r1 & Eco & E). apply require_inv in E as [->%Z.eqb_eq E]. apply rbind_inv in E as (mv & r2 & Ef & E).
  apply rbind_inv in E as (d & r3 & Ed & E). apply require_inv in E as [_ E]. unfold ret in E. injection E as _ <-. destruct (steady_rest _ _ _ _ _ (steady_container false) Hb Eco) as [Hb1 _].
  assert (times (skip (S levels)) 1 r1 = Some (Some (tt, r2)) /\ bytes_ok (rest r2)) as [Hf Hb2].
  { unfold media_format in Ef. apply rbind_inv in Ef as (u & r0 & Ep & Ef). unfold peek in Ep. destruct (unsigned_value r1) as [x|] eqn:Eu; [|done]. injection Ep as <- <-. destruct x as [[v rv]|]; cbn in Ef.
    - apply rbind_inv in Ef as (v' & r4 & Eu' & Ef). rewrite Eu in Eu'. injection Eu' as <- <-. apply require_inv in Ef as [_ Ef]. unfold ret in Ef. injection Ef as _ <-.
      split; [by apply (walks_unsigned levels r1 v)|]. by destruct (steady_rest _ _ _ _ _ steady_unsigned Hb1 Eu).
    - apply rbind_inv in Ef as (t & r4 & Et & Ef). apply require_inv in Ef as [_ Ef]. apply lift_inv in Ef as (w & _ & Ef). apply require_inv in Ef as [_ Ef]. unfold ret in Ef. injection Ef as _ <-.
      split; [by apply (walks_bytes levels true r1 t)|]. by destruct (steady_rest _ _ _ _ _ (steady_bytes true) Hb1 Et). }
  rewrite times_1. apply (container_skip (S levels) false r 2 r1 r3 Hb Eco); [lia|]. match goal with |- times ?f ?n ?r = _ => change (times f (1 + 1) r = Some (Some (tt, r3))) end. rewrite times_add. unfold rbind. rewrite Hf.
  by apply (walks_bytes levels false r2 d).
Qed.

Lemma walks_known mask f m : parse_known mask f = Some m -> walks (S FIELDS_MAX_DEPTH) 1 m.
Proof.
  assert (forall A B (g : R A) (h : A -> B), walks (S FIELDS_MAX_DEPTH) 1 g -> walks (S FIELDS_MAX_DEPTH) 1 (let* a := g in ret (h a))) as Hret.
  { intros A B g h Hg r b r' Hb E. apply rbind_inv in E as (a & r1 & Ea & E). unfold ret in E. injection E as _ <-. by apply (Hg r a). }
  unfold parse_known. repeat (case_match; [intros [= <-]|]); [| | |apply walks_reaction| |apply walks_attachments| | |done].
  - intros r b r' Hb E. apply rbind_inv in E as (v & r1 & Ev & E). apply require_inv in E as [_ E]. unfold ret in E. injection E as _ <-. by apply (walks_unsigned FIELDS_MAX_DEPTH r v).
  - apply Hret, walks_hash.
  - apply Hret, walks_text_bin.
  - apply Hret, walks_hash.
  - apply Hret, walks_media.
  - apply Hret, walks_media.
Qed.

(** ** Fields one by one *)

Definition masks : list Z :=
  [LXMF_STANDARD_RENDERER; LXMF_STANDARD_REPLY_TO; LXMF_STANDARD_REPLY_QUOTE; LXMF_STANDARD_REACTION; LXMF_STANDARD_THREAD; LXMF_STANDARD_ATTACHMENTS; LXMF_STANDARD_IMAGE;
   LXMF_STANDARD_AUDIO].

(** [dst] with the field of [mask] taken from [src]. *)
Definition copy_field (mask : Z) (src dst : lxmf_standard_fields) : lxmf_standard_fields :=
  let pick {A} (m : Z) (get : lxmf_standard_fields -> A) := if mask =? m then get src else get dst in
  {| present_mask := dst.(present_mask);
     renderer := pick LXMF_STANDARD_RENDERER renderer;
     reply_to := pick LXMF_STANDARD_REPLY_TO reply_to;
     reply_quote := pick LXMF_STANDARD_REPLY_QUOTE reply_quote;
     reaction_to := pick LXMF_STANDARD_REACTION reaction_to;
     reaction_content := pick LXMF_STANDARD_REACTION reaction_content;
     thread := pick LXMF_STANDARD_THREAD thread;
     attachments := pick LXMF_STANDARD_ATTACHMENTS attachments;
     attachment_count := pick LXMF_STANDARD_ATTACHMENTS attachment_count;
     image := pick LXMF_STANDARD_IMAGE image;
     audio := pick LXMF_STANDARD_AUDIO audio |}.

(** [f] with the field of [mask] from [g], and marked as present. *)
Definition add_field (mask : Z) (g f : lxmf_standard_fields) : lxmf_standard_fields :=
  let c := copy_field mask g f in {| c with present_mask := Z.lor f.(present_mask) mask |}.

Definition unset (mask : Z) (f : lxmf_standard_fields) : Prop := copy_field mask zero_fields f = f.

(** Every field that is not present is as [memset] left it. *)
Definition clean (f : lxmf_standard_fields) : Prop := forall mask, mask ∈ masks -> Z.land f.(present_mask) mask = 0 -> unset mask f.

(** The value of a field, read into fresh fields. *)
Definition read_field (mask : Z) : R lxmf_standard_fields := match parse_known mask zero_fields with Some m => m | None => fail end.

(** The eight cases of [H : mask ∈ masks]. *)
Ltac by_mask H := unfold masks in H; repeat (apply elem_of_cons in H as [->|H]); [..|by apply elem_of_nil in H].

Ltac reveal_masks :=
  cbv delta [LXMF_STANDARD_RENDERER LXMF_STANDARD_REPLY_TO LXMF_STANDARD_REPLY_QUOTE LXMF_STANDARD_REACTION LXMF_STANDARD_THREAD LXMF_STANDARD_ATTACHMENTS LXMF_STANDARD_IMAGE
    LXMF_STANDARD_AUDIO]; cbn [Z.eqb Pos.eqb].

Lemma mask_for_key_cases k : mask_for_key k = 0 \/ mask_for_key k ∈ masks.
Proof. unfold mask_for_key. repeat (case_match; [right; by repeat (first [apply list_elem_of_here|apply list_elem_of_further])|]). by left. Qed.

Lemma known_some mask f : mask ∈ masks -> exists m, parse_known mask f = Some m.
Proof. intros Hm. by_mask Hm; by eexists. Qed.

Lemma steady_read_field mask : steady standard_ok (read_field mask).
Proof. unfold read_field. destruct (parse_known mask zero_fields) as [m|] eqn:E; [|apply steady_fail]. apply (steady_known mask zero_fields); [apply zero_standard_ok|done]. Qed.

Lemma walks_read_field mask : walks (S FIELDS_MAX_DEPTH) 1 (read_field mask).
Proof. unfold read_field. destruct (parse_known mask zero_fields) as [m|] eqn:E; [|apply walks_fail]. by apply (walks_known mask zero_fields). Qed.

(** Parsing into [f] is parsing into fresh fields and copying. *)
Lemma known_zero mask f m r : mask ∈ masks -> unset mask f -> parse_known mask f = Some m ->
  m r = rbind (read_field mask) (λ g, ret (copy_field mask g f)) r.
Proof.
  assert (forall A (g : R A) h k r, (forall a, copy_field mask (h a) f = k a) -> rbind g (λ a, ret (k a)) r = rbind (rbind g (λ a, ret (h a))) (λ g, ret (copy_field mask g f)) r) as Hret.
  { intros A g h k r0 Hk. unfold rbind, ret. destruct (g r0) as [[[a r1]|]|]; [|done..]. by rewrite Hk. }
  intros Hm Hun. by_mask Hm; intros [= <-]; unfold read_field, parse_known; reveal_masks.
  - unfold rbind, require, ret. destruct (unsigned_value r) as [[[v r1]|]|]; [|done..]. by destruct (v <=? _).
  - by apply Hret.
  - by apply Hret.
  - unfold parse_reaction, rbind, require, ret. destruct (container true r) as [[[n r1]|]|]; [|done..]. destruct (n =? 2); [|done].
    destruct (reaction_entries 2 None None r1) as [[[[[t|] [c|]] r2]|]|]; done.
  - by apply Hret.
  - unfold parse_attachments. assert (attachments f = attachments zero_fields) as -> by (unfold unset in Hun; by rewrite <-Hun).
    unfold rbind, require, ret. destruct (container false r) as [[[n r1]|]|]; [|done..]. destruct (n <=? _); [|done]. destruct (attachment_entries _ _ _ _ _) as [[[l r2]|]|]; done.
  - assert (image f = image zero_fields) as -> by (unfold unset in Hun; by rewrite <-Hun). by apply Hret.
  - assert (audio f = audio zero_fields) as -> by (unfold unset in Hun; by rewrite <-Hun). by apply Hret.
Qed.

Lemma parse_value_read mask f r : mask ∈ masks -> unset mask f ->
  parse_value mask f r = match read_field mask r with
                         | None => None
                         | Some None => Some (inl LXMF_ERR_FORMAT)
                         | Some (Some (g, r')) => Some (inr (add_field mask g f, r'))
                         end.
Proof.
  intros Hm Hun. unfold parse_value. destruct (known_some mask f Hm) as [m Em]. rewrite Em, (known_zero mask f m r Hm Hun Em). unfold rbind, ret. destruct (read_field mask r) as [[[g r']|]|]; done.
Qed.

Lemma land_mask p : forall mask, mask ∈ masks -> forall mask', mask' ∈ masks -> mask <> mask' -> Z.land (Z.lor p mask) mask' = Z.land p mask'.
Proof.
  intros mask Hm mask' Hm' Hne. rewrite Z.land_lor_distr_l. assert (Z.land mask mask' = 0) as ->; [|by rewrite Z.lor_0_r].
  by_mask Hm; by_mask Hm'; done.
Qed.

Lemma clean_zero : clean zero_fields.
Proof. intros mask _ _. unfold unset, copy_field. by repeat case_match. Qed.

Lemma clean_add mask g f : mask ∈ masks -> clean f -> clean (add_field mask g f).
Proof.
  intros Hm Hf mask' Hm' Hz. destruct (decide (mask = mask')) as [->|Hne].
  - exfalso. cbn [add_field present_mask] in Hz. rewrite Z.land_lor_distr_l, Z.land_diag in Hz. apply Z.lor_eq_0_iff in Hz as [_ Hz]. clear Hm. by_mask Hm'; done.
  - cbn [add_field present_mask] in Hz. rewrite land_mask in Hz by done. specialize (Hf mask' Hm' Hz). clear Hz. destruct f. unfold unset, add_field in *. by_mask Hm'; by_mask Hm; try done.
    all: unfold copy_field in *; cbn in Hf |- *; injection Hf; intros; by subst.
Qed.

(** ** The entries of a map *)

(** The bytes of the key and of the value, the objects in them, and the key when it is
    an integer. *)
Record entry : Type := { e_key : list Z; e_value : list Z; e_ki : Z; e_vi : Z; e_int : option Z }.

Definition e_bytes (e : entry) : list Z := e.(e_key) ++ e.(e_value).
Definition e_items (e : entry) : Z := e.(e_ki) + e.(e_vi).
Definition key_mask (e : entry) : Z := match e.(e_int) with Some k => mask_for_key k | None => 0 end.
Definition hit (p : Z -> bool) (e : entry) : bool := match e.(e_int) with Some k => p k | None => false end.

Record entry_ok (e : entry) : Prop := {
  eo_key : consumes skip_any e.(e_key) e.(e_ki) tt;
  eo_value : consumes skip_any e.(e_value) e.(e_vi) tt;
  eo_items : 0 <= e.(e_ki) /\ 0 <= e.(e_vi);
  eo_int tail i : i + e.(e_ki) <= FIELDS_MAX_ITEMS ->
    unsigned_value {| rest := e.(e_key) ++ tail; items := i |} = Some (match e.(e_int) with Some v => Some (v, {| rest := tail; items := i + e.(e_ki) |}) | None => None end)
}.

Definition all_bytes (es : list entry) : list Z := concat (e_bytes <$> es).
Definition all_items (es : list entry) : Z := foldr (λ e n, e_items e + n) 0 es.

Lemma all_items_cons e es : all_items (e :: es) = e_items e + all_items es.
Proof. done. Qed.

Lemma all_items_pos es : Forall entry_ok es -> 0 <= all_items es.
Proof. induction 1 as [|e es He Hes IH]; [done|]. rewrite all_items_cons. destruct (eo_items _ He). unfold e_items. lia. Qed.

Lemma all_bytes_app a b : all_bytes (a ++ b) = all_bytes a ++ all_bytes b.
Proof. unfold all_bytes. by rewrite fmap_app, concat_app. Qed.

Lemma all_items_app a b : all_items (a ++ b) = all_items a + all_items b.
Proof. induction a as [|e a IH]; cbn [app]; [done|]. rewrite !all_items_cons, IH. lia. Qed.

(** An integer key that cannot be read is refused by its first byte. *)
Lemma unsigned_refused levels r x : bytes_ok r.(rest) -> skip (S levels) r = Some (Some x) -> unsigned_value r = Some None ->
  exists c l, r.(rest) = c :: l /\ refuses unsigned_value c.
Proof.
  intros Hb Hs Hu. cbn [skip] in Hs. apply rbind_inv in Hs as (c & r1 & Hn & Hs). destruct (steady_rest _ _ _ _ _ steady_next Hb Hn) as [_ Hc]. unfold next_code in Hn.
  unfold unsigned_value, rbind, next_code in Hu. destruct (rest r) as [|c' l]; [done|]. exists c', l. split; [done|]. destruct (FIELDS_MAX_ITEMS <=? items r); [done|]. injection Hn as -> <-.
  destruct ((0x7f <? c) && negb ((c =? 0xcc) || (c =? 0xcd) || (c =? 0xce) || (c =? 0xcf))) eqn:E; [by apply refuses_unsigned|]. exfalso.
  destruct (Z.leb_spec c 0x7f); [done|]. cbn [orb] in Hs.
  assert (forall w, number w {| rest := l; items := items r + 1 |} = Some None -> advance (Z.of_nat w) {| rest := l; items := items r + 1 |} = Some None) as Hshort.
  { intros w. unfold number, advance. cbn [rest]. destruct (Nat.ltb_spec (length l) w); [by rewrite (proj2 (Z.ltb_lt _ _)) by lia|]. rewrite memread_in by lia. done. }
  assert (forall w code, sizes code = ret (Z.of_nat w, 0) -> number w {| rest := l; items := items r + 1 |} = Some None ->
    (let* size := sizes code in let* _ := advance size.1 in let* _ := require (size.2 <=? FIELDS_MAX_ITEMS) in times (skip levels) (Z.to_nat size.2))
      {| rest := l; items := items r + 1 |} = Some (Some x) -> False) as Hno.
  { intros w code Es Hw. rewrite Es. unfold rbind, ret. cbn [fst snd]. by rewrite (Hshort w Hw). }
  destruct (Z.eqb_spec c 0xcc) as [->|]; [exact (Hno 1%nat 0xcc eq_refl Hu Hs)|]. destruct (Z.eqb_spec c 0xcd) as [->|]; [exact (Hno 2%nat 0xcd eq_refl Hu Hs)|].
  destruct (Z.eqb_spec c 0xce) as [->|]; [exact (Hno 4%nat 0xce eq_refl Hu Hs)|]. destruct (Z.eqb_spec c 0xcf) as [->|]; [exact (Hno 8%nat 0xcf eq_refl Hu Hs)|]. lia.
Qed.

Lemma skip_takes bs k : consumes skip_any bs k tt -> bs <> [].
Proof. intros Hc ->. specialize (Hc [] (FIELDS_MAX_ITEMS - k) ltac:(lia)). done. Qed.

(** Where the two objects of an entry can be skipped there is an entry. *)
Lemma scan_entry r r1 r2 : bytes_ok r.(rest) -> skip_any r = Some (Some (tt, r1)) -> skip_any r1 = Some (Some (tt, r2)) ->
  exists e, entry_ok e /\ r.(rest) = e_bytes e ++ r2.(rest) /\ r1 = {| rest := e.(e_value) ++ r2.(rest); items := r.(items) + e.(e_ki) |} /\
    r2.(items) = r.(items) + e_items e /\ r2.(items) <= FIELDS_MAX_ITEMS /\ unsigned_value r = Some (match e.(e_int) with Some v => Some (v, r1) | None => None end).
Proof.
  intros Hb H1 H2. destruct (st_local steady_skip_any r tt r1 Hb H1) as (kb & ki & Er & Ei & Hki & Hm1 & _ & Hck). pose proof Hb as Hb'. rewrite Er in Hb'. apply Forall_app in Hb' as [_ Hb1].
  destruct (st_local steady_skip_any r1 tt r2 Hb1 H2) as (vb & vi & Er1 & Ei1 & Hvi & Hm2 & _ & Hcv). pose proof (skip_takes _ _ Hck) as Hne.
  assert (0 < vi) as Hvi0.
  { destruct (decide (vi = 0)) as [->|]; [exfalso|lia]. specialize (Hcv [] FIELDS_MAX_ITEMS ltac:(lia)). rewrite app_nil_r in Hcv. unfold skip_any in Hcv. cbn [skip] in Hcv. apply rbind_inv in Hcv as (c & r3 & Hn & _).
    unfold next_code in Hn. cbn in Hn. by destruct vb. }
  destruct (st_total steady_unsigned r Hb) as [x Hu]. destruct r1 as [l1 i1]. cbn [rest items] in *. subst i1 l1.
  exists {| e_key := kb; e_value := vb; e_ki := ki; e_vi := vi; e_int := fst <$> x |}. cbn [e_key e_value e_ki e_vi e_int].
  split; [|split_and!; [unfold e_bytes; cbn; by rewrite Er, app_assoc|done|unfold e_items; cbn; lia|destruct Hm2; [lia|done]|]].
  - constructor; cbn [e_key e_value e_ki e_vi e_int]; [done|done|done|]. destruct x as [[v rv]|]; cbn.
    + pose proof (walks_unsigned FIELDS_MAX_DEPTH r v rv Hb Hu) as Hw. rewrite times_1 in Hw. unfold skip_any in H1. rewrite H1 in Hw. injection Hw as <-.
      destruct (st_local steady_unsigned r v _ Hb Hu) as (ub & k & Eu & Ek & _ & _ & _ & Hcu). cbn [rest items] in Eu, Ek. rewrite Er in Eu. apply app_inv_tail in Eu as <-. assert (k = ki) as -> by lia. exact Hcu.
    + destruct (unsigned_refused FIELDS_MAX_DEPTH r _ Hb H1 Hu) as (c & l & El & Href). intros tail i _. destruct kb as [|c' kb]; [done|]. rewrite Er in El. cbn in El. injection El as -> _. by apply Href.
  - rewrite Hu. destruct x as [[v rv]|]; cbn; [|done]. pose proof (walks_unsigned FIELDS_MAX_DEPTH r v rv Hb Hu) as Hw. rewrite times_1 in Hw. unfold skip_any in H1. rewrite H1 in Hw. by injection Hw as <-.
Qed.

(** Reading an entry wherever it is. *)
Lemma skip_entry e tail i : entry_ok e -> i + e_items e <= FIELDS_MAX_ITEMS ->
  skip_any {| rest := e_bytes e ++ tail; items := i |} = Some (Some (tt, {| rest := e.(e_value) ++ tail; items := i + e.(e_ki) |})) /\
  skip_any {| rest := e.(e_value) ++ tail; items := i + e.(e_ki) |} = Some (Some (tt, {| rest := tail; items := i + e_items e |})).
Proof.
  intros [Hk Hv [? ?] _] Hi. unfold e_items in *. unfold e_bytes. rewrite <-app_assoc. split; [apply Hk; lia|]. rewrite Hv by lia. by rewrite Z.add_assoc.
Qed.

Lemma key_entry e tail i : entry_ok e -> i + e_items e <= FIELDS_MAX_ITEMS ->
  unsigned_value {| rest := e_bytes e ++ tail; items := i |} =
    Some (match e.(e_int) with Some v => Some (v, {| rest := e.(e_value) ++ tail; items := i + e.(e_ki) |}) | None => None end).
Proof. intros [_ _ [? ?] Hu] Hi. unfold e_items in *. unfold e_bytes. rewrite <-app_assoc. apply Hu. lia. Qed.

Lemma entry_bytes_at p e tail i : entry_ok e -> i + e_items e <= FIELDS_MAX_ITEMS ->
  entry_bytes p {| rest := e_bytes e ++ tail; items := i |} = Some (Some ((hit p e, e_bytes e), {| rest := tail; items := i + e_items e |})).
Proof.
  intros He Hi. unfold entry_bytes, keyed, peek, rbind. rewrite (key_entry e tail i He Hi). destruct (skip_entry e tail i He Hi) as [H1 H2]. unfold ret. rewrite H1, H2. cbn [rest].
  replace (length (e_bytes e ++ tail) - length tail)%nat with (length (e_bytes e)) by (rewrite length_app; lia). rewrite take_app_length. unfold hit. destruct (e_int e); done.
Qed.

(** What the entries [es] add to the fields [f]. *)
Inductive absorbs : lxmf_standard_fields -> list entry -> lxmf_standard_fields -> Prop :=
| absorbs_nil f : absorbs f [] f
| absorbs_other f e es f' : key_mask e = 0 -> absorbs f es f' -> absorbs f (e :: es) f'
| absorbs_field f e es f' g : key_mask e ∈ masks -> Z.land f.(present_mask) (key_mask e) = 0 -> consumes (read_field (key_mask e)) e.(e_value) e.(e_vi) g ->
    absorbs (add_field (key_mask e) g f) es f' -> absorbs f (e :: es) f'.

Lemma mask_nonzero mask : mask ∈ masks -> (mask =? 0) = false.
Proof. intros Hm. by_mask Hm; done. Qed.

Lemma add_field_ok mask g f : standard_ok g -> standard_ok f -> standard_ok (add_field mask g f).
Proof. intros [] []. constructor; cbn; repeat case_match; done. Qed.

Lemma parse_entries_scan n f r : bytes_ok r.(rest) -> clean f -> standard_ok f ->
  exists x, parse_entries n f r = Some x /\
    forall f' r', x = inr (f', r') -> exists es, length es = n /\ Forall entry_ok es /\ r.(rest) = all_bytes es ++ r'.(rest) /\ r'.(items) = r.(items) + all_items es /\
      (es = [] \/ r'.(items) <= FIELDS_MAX_ITEMS) /\ absorbs f es f' /\ standard_ok f' /\ clean f'.
Proof.
  revert f r. induction n as [|n IH]; intros f r Hb Hcl Hok; cbn [parse_entries].
  { eexists. split; [done|]. intros ? ? [= <- <-]. exists []. split_and!; [done|done|done|cbn; lia|by left|constructor|done|done]. }
  destruct (st_total steady_unsigned r Hb) as [k Hk]. rewrite Hk. cbn [mbind option_bind]. set (mask := match k with Some (key, _) => mask_for_key key | None => 0 end).
  destruct (st_total steady_skip_any r Hb) as [[[[] r1]|] Hs]; rewrite Hs; cbn [mbind option_bind]; [|by eexists]. destruct (steady_rest _ _ _ _ _ steady_skip_any Hb Hs) as [Hb1 _].
  assert (forall e, unsigned_value r = Some (match e.(e_int) with Some v => Some (v, r1) | None => None end) -> key_mask e = mask) as Hmask.
  { intros e E. rewrite Hk in E. injection E as ->. unfold mask, key_mask. by destruct (e_int e). }
  assert (mask = 0 \/ mask ∈ masks) as Hcases by (unfold mask; destruct k as [[key ?]|]; [apply mask_for_key_cases|by left]).
  (* one more entry in front of those that were scanned *)
  assert (forall e r2 f1 x, entry_ok e -> rest r = e_bytes e ++ rest r2 -> items r2 = items r + e_items e -> items r2 <= FIELDS_MAX_ITEMS ->
    (forall f' es, absorbs f1 es f' -> absorbs f (e :: es) f') -> clean f1 -> standard_ok f1 -> parse_entries n f1 r2 = Some x -> bytes_ok (rest r2) ->
    forall f' r', x = inr (f', r') -> exists es, length es = S n /\ Forall entry_ok es /\ rest r = all_bytes es ++ rest r' /\ items r' = items r + all_items es /\
      (es = [] \/ items r' <= FIELDS_MAX_ITEMS) /\ absorbs f es f' /\ standard_ok f' /\ clean f') as Hcons.
  { intros e r2 f1 x He Er Ei Hm Hab Hc1 Ho1 Hp Hb2 f' r' ->. destruct (IH f1 r2 Hb2 Hc1 Ho1) as (x & Hx & Hall). rewrite Hp in Hx. injection Hx as <-.
    destruct (Hall f' r' eq_refl) as (es & Hl & Hes & Er2 & Ei2 & Hm2 & Ha & Hof & Hcf). exists (e :: es). split_and!; [by cbn; rewrite Hl|by constructor| | | |by apply Hab|done|done].
    - rewrite Er, Er2. unfold all_bytes. cbn. by rewrite app_assoc.
    - rewrite all_items_cons. lia.
    - right. destruct Hm2 as [->|Hm2]; [|done]. cbn in Ei2. lia. }
  destruct Hcases as [E0|Hin].
  - rewrite E0, Z.eqb_refl. destruct (st_total steady_skip_any r1 Hb1) as [[[[] r2]|] Hs2]; rewrite Hs2; cbn [mbind option_bind]; [|by eexists].
    destruct (steady_rest _ _ _ _ _ steady_skip_any Hb1 Hs2) as [Hb2 _]. destruct (scan_entry r r1 r2 Hb Hs Hs2) as (e & He & Er & _ & Ei & Hm & Hu).
    destruct (IH f r2 Hb2 Hcl Hok) as (x & Hx & _). exists x. split; [done|]. apply (Hcons e r2 f x); try done. intros f' es. apply absorbs_other. by rewrite (Hmask e Hu).
  - rewrite (mask_nonzero mask Hin). destruct (Z.eqb_spec (Z.land (present_mask f) mask) 0) as [Hz|]; cbn [negb]; [|by eexists]. rewrite (parse_value_read mask f r1 Hin (Hcl mask Hin Hz)).
    destruct (st_total (steady_read_field mask) r1 Hb1) as [[[g r2]|] Hg]; rewrite Hg; cbn [mbind option_bind]; [|by eexists].
    destruct (steady_rest _ _ _ _ _ (steady_read_field mask) Hb1 Hg) as [Hb2 Hgo]. pose proof (walks_read_field mask r1 g r2 Hb1 Hg) as Hs2. rewrite times_1 in Hs2. fold skip_any in Hs2.
    destruct (scan_entry r r1 r2 Hb Hs Hs2) as (e & He & Er & E1 & Ei & Hm & Hu). destruct (IH (add_field mask g f) r2 Hb2 (clean_add mask g f Hin Hcl) (add_field_ok mask g f Hgo Hok)) as (x & Hx & _).
    exists x. split; [done|]. apply (Hcons e r2 (add_field mask g f) x); try done; [|by apply clean_add|by apply add_field_ok].
    intros f' es Ha. destruct (st_local (steady_read_field mask) r1 g r2 Hb1 Hg) as (vb & j & Ev & Ej & _ & _ & _ & Hcv). rewrite E1 in Ev, Ej. cbn [rest items] in Ev, Ej. apply app_inv_tail in Ev as <-.
    unfold e_items in Ei. assert (j = e_vi e) as -> by lia. apply (absorbs_field f e es f' g); rewrite (Hmask e Hu); done.
Qed.

(** The entries are read back in the same way wherever they are. *)
Lemma parse_entries_replay f es f' tail i : absorbs f es f' -> Forall entry_ok es -> clean f -> i + all_items es <= FIELDS_MAX_ITEMS ->
  parse_entries (length es) f {| rest := all_bytes es ++ tail; items := i |} = Some (inr (f', {| rest := tail; items := i + all_items es |})).
Proof.
  intros Ha. revert i. induction Ha as [f|f e es f' Hmask Ha IH|f e es f' g Hin Hz Hg Ha IH]; intros i Hes Hcl Hi; cbn [length parse_entries]; [cbn; by rewrite Z.add_0_r| |].
  all: apply Forall_cons_1 in Hes as [He Hes]; rewrite all_items_cons in *; pose proof (all_items_pos es Hes); change (all_bytes (e :: es) ++ tail) with ((e_bytes e ++ all_bytes es) ++ tail);
    rewrite <-app_assoc, (key_entry e _ i He) by lia; destruct (skip_entry e (all_bytes es ++ tail) i He ltac:(lia)) as [H1 H2]; rewrite H1; cbn [mbind option_bind].
  all: replace (match (match e_int e with Some v => Some (v, {| rest := e_value e ++ all_bytes es ++ tail; items := i + e_ki e |}) | None => None end) with
                Some (key, _) => mask_for_key key | None => 0 end) with (key_mask e) by (unfold key_mask; by destruct (e_int e)).
  - rewrite Hmask, Z.eqb_refl, H2. cbn [mbind option_bind]. rewrite (IH _ Hes Hcl) by lia. by rewrite Z.add_assoc.
  - rewrite (mask_nonzero _ Hin), Hz, Z.eqb_refl. cbn [negb]. rewrite (parse_value_read _ f _ Hin (Hcl _ Hin Hz)). unfold e_items in *. destruct (eo_items _ He). rewrite Hg by lia. cbn [mbind option_bind].
    rewrite (IH _ Hes (clean_add _ g f Hin Hcl)) by lia. by rewrite !Z.add_assoc.
Qed.

End FieldsParse.
