(* ===== verification/FieldsMerge.v ===== *)
(** * Writing and merging standard fields

    What the writers of [Fields] put is read back as it was, and a merge gives the map
    with the replaced fields, without the removed ones and with every other entry as it
    was. Names for attachments. *)

From Stdlib Require Import ZArith Lia.
From S2P Require Import Prelude Request Lxmf Utf8 Fields FieldsParse.

Module FieldsMerge.
Import Lxmf Utf8 Fields FieldsParse.

(** ** Writing and reading back *)

Lemma consumes_next c : consumes next_code [c] 1 c.
Proof. intros tail i Hi. cbn. destruct (Z.leb_spec FIELDS_MAX_ITEMS i); [lia|done]. Qed.

Lemma consumes_code {A} (g : Z -> R A) c bs k a : 0 <= k -> consumes (g c) bs k a -> consumes (rbind next_code g) (c :: bs) (1 + k) a.
Proof. intros Hk Hg. apply (consumes_bind next_code g [c] 1 c bs k a Hk); [apply consumes_next|done]. Qed.

Lemma consumes_ret {A} (a : A) : consumes (ret a) [] 0 a.
Proof. intros tail i _. unfold ret. by rewrite Z.add_0_r. Qed.

Lemma consumes_require {A} (b : bool) (m : R A) bs k a : b = true -> consumes m bs k a -> consumes (let* _ := require b in m) bs k a.
Proof. by intros ->. Qed.

Lemma consumes_lift {A B} (o : option A) (m : A -> R B) bs k x a : o = Some x -> consumes (m x) bs k a -> consumes (rbind (lift o) m) bs k a.
Proof. by intros ->. Qed.

Lemma consumes_then {A B} (f : R A) (g : A -> R B) b1 k1 a b2 k2 b bs k :
  0 <= k2 -> bs = b1 ++ b2 -> k = k1 + k2 -> consumes f b1 k1 a -> consumes (g a) b2 k2 b -> consumes (rbind f g) bs k b.
Proof. intros ? -> ->. by apply consumes_bind. Qed.

(** The big-endian bytes of [put_head]. *)
Lemma five_bytes v : (λ i, wrap8 (Z.shiftr v (24 - 8 * i))) <$> [0; 1; 2; 3] = be_encode 4 v.
Proof. cbn -[Z.shiftr Z.mul Z.sub]. unfold wrap. rewrite !Z.shiftr_div_pow2 by lia. rewrite !Zdiv.Zdiv_Zdiv by lia. change (v / 2 ^ (24 - 8 * 3)) with (v / 1). by rewrite Z.div_1_r. Qed.

Lemma nine_bytes v : (λ i, wrap8 (Z.shiftr v (56 - 8 * i))) <$> [0; 1; 2; 3; 4; 5; 6; 7] = be_encode 8 v.
Proof. cbn -[Z.shiftr Z.mul Z.sub]. unfold wrap. rewrite !Z.shiftr_div_pow2 by lia. rewrite !Zdiv.Zdiv_Zdiv by lia. change (v / 2 ^ (56 - 8 * 7)) with (v / 1). by rewrite Z.div_1_r. Qed.

Lemma two_bytes v : [wrap8 (Z.shiftr v 8); wrap8 v] = be_encode 2 v.
Proof. cbn. unfold wrap. by rewrite Z.shiftr_div_pow2 by lia. Qed.

Lemma head_unsigned v : in_width 64 v -> exists b, head_bytes 0 v = Some b /\ consumes unsigned_value b 1 v.
Proof.
  intros Hv. unfold in_width in Hv. eexists. split; [done|]. destruct (Z.leb_spec v 0x7f).
  { rewrite wrap_small by (unfold in_width; lia). apply (consumes_code _ v [] 0); [lia|]. rewrite (proj2 (Z.leb_le _ _)) by lia. apply consumes_ret. }
  destruct (Z.leb_spec v 0xff); [|destruct (Z.leb_spec v 0xffff); [|destruct (Z.leb_spec v UINT32_MAX)]]; unfold UINT32_MAX in *.
  - apply (consumes_code _ 0xcc _ 0); [lia|]. apply (consumes_number 1); [lia|cbn; lia].
  - rewrite two_bytes. apply (consumes_code _ 0xcd _ 0); [lia|]. apply (consumes_number 2); [lia|cbn; lia].
  - rewrite five_bytes. apply (consumes_code _ 0xce _ 0); [lia|]. apply (consumes_number 4); [lia|cbn; lia].
  - rewrite nine_bytes. apply (consumes_code _ 0xcf _ 0); [lia|]. apply (consumes_number 8); [lia|cbn; lia].
Qed.

Lemma lor_nibble v : 0 <= v <= 15 -> Z.land (Z.lor 0x90 v) 15 = v /\ Z.land (Z.lor 0x80 v) 15 = v /\ Z.land (Z.lor 0x90 v) 0xf0 = 0x90 /\ Z.land (Z.lor 0x80 v) 0xf0 = 0x80.
Proof.
  intros Hv. assert (forallb (λ v, (Z.land (Z.lor 0x90 v) 15 =? v) && (Z.land (Z.lor 0x80 v) 15 =? v) && (Z.land (Z.lor 0x90 v) 0xf0 =? 0x90) && (Z.land (Z.lor 0x80 v) 0xf0 =? 0x80)) (seqZ 0 16) = true) as H by done.
  pose proof (forall_below 16 _ H v ltac:(lia)) as E. cbv beta in E. rewrite !andb_true_iff, !Z.eqb_eq in E. tauto.
Qed.

Lemma head_container (map : bool) n : 0 <= n <= FIELDS_MAX_ITEMS -> exists b, head_bytes (if map then 5 else 4) n = Some b /\ consumes (container map) b 1 n.
Proof.
  unfold FIELDS_MAX_ITEMS. intros Hn. destruct (lor_nibble (if n <=? 15 then n else 0)) as (N1 & N2 & N3 & N4); [destruct (Z.leb_spec n 15); lia|].
  assert (consumes (let* n := number 2 in let* _ := require (n <=? FIELDS_MAX_ITEMS) in ret n) (be_encode 2 n) 0 n) as H2.
  { eapply (consumes_then _ _ _ 0 n [] 0 n); [lia|by rewrite app_nil_r|done|apply consumes_number; [lia|cbn; lia]|]. apply consumes_require; [unfold FIELDS_MAX_ITEMS; lia|apply consumes_ret]. }
  unfold head_bytes. destruct (Z.leb_spec n 15) as [Hle|Hgt]; [|rewrite (proj2 (Z.leb_le n 0xffff)) by lia].
  - rewrite wrap_small by (unfold in_width; lia). destruct map; cbn [Z.eqb Pos.eqb orb]; eexists; (split; [done|]); apply (consumes_code _ _ [] 0); try lia; cbn [negb andb orb];
      rewrite ?N4, ?N3, ?Z.eqb_refl; cbn [orb]; rewrite ?N1, ?N2; apply consumes_ret.
  - rewrite two_bytes. destruct map; cbn [Z.eqb Pos.eqb orb]; eexists; (split; [done|]); [apply (consumes_code _ 0xde _ 0)|apply (consumes_code _ 0xdc _ 0)]; try lia; exact H2.
Qed.

Lemma head_slice (text : bool) d : Z.of_nat (length d) <= UINT32_MAX -> exists b, head_bytes (if text then 3 else 2) (Z.of_nat (length d)) = Some b /\ consumes (bytes_value text) (b ++ d) 1 d.
Proof.
  unfold UINT32_MAX. intros Hd. set (n := Z.of_nat (length d)) in *. assert (0 <= n) as Hn0 by lia.
  assert (forall w, (w <= 8)%nat -> n < 256 ^ Z.of_nat w -> consumes (rbind (number w) advance) (be_encode w n ++ d) 0 d) as Hnum.
  { intros w Hw Hlt. eapply (consumes_then _ _ _ 0 n d 0 d); [lia|done|done|apply consumes_number; [done|lia]|by apply consumes_advance]. }
  unfold head_bytes. destruct (text && (n <=? 31)) eqn:Efix.
  - apply andb_prop in Efix as [-> Hle%Z.leb_le]. cbn [Z.eqb Pos.eqb orb andb]. rewrite (proj2 (Z.leb_le n 31)) by done. rewrite wrap_small by (unfold in_width; lia). eexists. split; [done|].
    assert (forallb (λ v, (0xa0 <=? Z.lor 0xa0 v) && (Z.lor 0xa0 v <=? 0xbf) && (Z.land (Z.lor 0xa0 v) 31 =? v)) (seqZ 0 32) = true) as H by done.
    pose proof (forall_below 32 _ H n ltac:(lia)) as E. cbv beta in E. apply andb_prop in E as [E1 E2%Z.eqb_eq]. apply (consumes_code _ _ d 0); [lia|]. rewrite E1, E2. cbn [andb].
    eapply (consumes_then _ _ [] 0 n d 0 d); [lia|done|done|apply consumes_ret|by apply consumes_advance].
  - destruct (Z.leb_spec n 0xff); [|destruct (Z.leb_spec n 0xffff); [|rewrite (proj2 (Z.leb_le n UINT32_MAX)) by (unfold UINT32_MAX; lia)]].
    + destruct text; cbn [Z.eqb Pos.eqb orb andb] in *; rewrite ?Efix; eexists; (split; [done|]); apply (consumes_code _ _ (wrap8 n :: d) 0); try lia; apply (Hnum 1%nat); cbn; lia.
    + rewrite two_bytes. destruct text; cbn [Z.eqb Pos.eqb orb andb] in *; rewrite ?Efix; eexists; (split; [done|]); apply (consumes_code _ _ (be_encode 2 n ++ d) 0); try lia; apply (Hnum 2%nat); cbn; lia.
    + rewrite five_bytes. destruct text; cbn [Z.eqb Pos.eqb orb andb] in *; rewrite ?Efix; eexists; (split; [done|]); apply (consumes_code _ _ (be_encode 4 n ++ d) 0); try lia; apply (Hnum 4%nat); cbn; lia.
Qed.

Definition head (major value : Z) : list Z := default [] (head_bytes major value).
Definition blob_image (text : bool) (s : slice) : list Z := head (if text then 3 else 2) (Z.of_nat (slice_length s)) ++ slice_bytes s.
Definition hash_image (h : list Z) : list Z := head 2 32 ++ h.
Definition attachment_image (a : lxmf_attachment_view) : list Z := head 4 2 ++ blob_image true a.(name) ++ blob_image false a.(data).

Definition media_image (m : lxmf_media_view) : list Z :=
  match m.(format_kind) with
  | LXMF_MEDIA_FORMAT_NONE => blob_image false m.(media_data)
  | LXMF_MEDIA_FORMAT_INTEGER => head 4 2 ++ head 0 m.(integer_format) ++ blob_image false m.(media_data)
  | LXMF_MEDIA_FORMAT_TEXT => head 4 2 ++ blob_image true m.(text_format) ++ blob_image false m.(media_data)
  end.

Definition media_items (m : lxmf_media_view) : Z := match m.(format_kind) with LXMF_MEDIA_FORMAT_NONE => 1 | _ => 3 end.

(** The bytes of the value of a field, and the objects in them. *)
Definition value_image (mask : Z) (f : lxmf_standard_fields) : list Z :=
  if mask =? LXMF_STANDARD_RENDERER then head 0 f.(renderer)
  else if mask =? LXMF_STANDARD_REPLY_TO then hash_image f.(reply_to)
  else if mask =? LXMF_STANDARD_REPLY_QUOTE then blob_image false f.(reply_quote)
  else if mask =? LXMF_STANDARD_REACTION then
    head 5 2 ++ head 0 LXMF_REACTION_TO ++ hash_image f.(reaction_to) ++ head 0 LXMF_REACTION_CONTENT ++ blob_image false f.(reaction_content)
  else if mask =? LXMF_STANDARD_THREAD then hash_image f.(thread)
  else if mask =? LXMF_STANDARD_ATTACHMENTS then head 4 (Z.of_nat f.(attachment_count)) ++ concat (attachment_image <$> take f.(attachment_count) f.(attachments))
  else if mask =? LXMF_STANDARD_IMAGE then media_image f.(image)
  else media_image f.(audio).

Definition value_items (mask : Z) (f : lxmf_standard_fields) : Z :=
  if mask =? LXMF_STANDARD_REACTION then 5
  else if mask =? LXMF_STANDARD_ATTACHMENTS then 1 + 3 * Z.of_nat f.(attachment_count)
  else if mask =? LXMF_STANDARD_IMAGE then media_items f.(image)
  else if mask =? LXMF_STANDARD_AUDIO then media_items f.(audio)
  else 1.

(** Slices and fields as they are read back. *)
Definition seen (s : slice) : slice := SBytes (slice_bytes s).
Definition seen_attachment (a : lxmf_attachment_view) : lxmf_attachment_view := {| name := seen a.(name); data := seen a.(data) |}.

Definition seen_media (m : lxmf_media_view) : lxmf_media_view :=
  {| format_kind := m.(format_kind);
     integer_format := match m.(format_kind) with LXMF_MEDIA_FORMAT_INTEGER => m.(integer_format) | _ => 0 end;
     text_format := match m.(format_kind) with LXMF_MEDIA_FORMAT_TEXT => seen m.(text_format) | _ => SNull 0 end;
     media_data := seen m.(media_data) |}.

Definition seen_fields (f : lxmf_standard_fields) : lxmf_standard_fields :=
  {| present_mask := f.(present_mask); renderer := f.(renderer); reply_to := f.(reply_to); reply_quote := seen f.(reply_quote); reaction_to := f.(reaction_to);
     reaction_content := seen f.(reaction_content); thread := f.(thread);
     attachments := (seen_attachment <$> take f.(attachment_count) f.(attachments)) ++ replicate (16 - f.(attachment_count)) {| name := SNull 0; data := SNull 0 |};
     attachment_count := f.(attachment_count); image := seen_media f.(image); audio := seen_media f.(audio) |}.

(** *** Reading back *)

Lemma consumes_head_unsigned v : in_width 64 v -> consumes unsigned_value (head 0 v) 1 v.
Proof. intros Hv. destruct (head_unsigned v Hv) as (b & E & Hc). unfold head. by rewrite E. Qed.

Lemma consumes_head_container (map : bool) n : 0 <= n <= FIELDS_MAX_ITEMS -> consumes (container map) (head (if map then 5 else 4) n) 1 n.
Proof. intros Hn. destruct (head_container map n Hn) as (b & E & Hc). unfold head. by rewrite E. Qed.

Lemma consumes_blob text s : slice_bad s = false -> Z.of_nat (slice_length s) <= LXMF_STANDARD_MAX_MEDIA_BYTES -> consumes (bytes_value text) (blob_image text s) 1 (slice_bytes s).
Proof.
  intros Hs%slice_bad_length Hl. unfold blob_image. rewrite Hs in *. unfold LXMF_STANDARD_MAX_MEDIA_BYTES in Hl. destruct (head_slice text (slice_bytes s)) as (b & E & Hc); [unfold UINT32_MAX; lia|].
  unfold head. by rewrite E.
Qed.

Lemma consumes_hash_image h : hash32 h -> consumes parse_hash (hash_image h) 1 h.
Proof.
  intros [_ Hl]. unfold parse_hash. eapply (consumes_then _ _ _ 1 h [] 0 h); [lia|by rewrite app_nil_r|done| |].
  - pose proof (consumes_blob false (SBytes h) eq_refl) as Hc. unfold blob_image in Hc. cbn [slice_length slice_bytes] in Hc. rewrite Hl in Hc. apply Hc. unfold LXMF_STANDARD_MAX_MEDIA_BYTES. lia.
  - apply consumes_require; [by rewrite Hl|apply consumes_ret].
Qed.

Lemma utf8_true t : bytes_ok t -> utf8_text t -> valid_utf8 t = Some true.
Proof. intros Hb Ht. destruct (utf8_loop_spec (length t) t Hb ltac:(lia)) as (b & Hv & Hiff). unfold valid_utf8. rewrite Hv. f_equal. by apply Hiff. Qed.

Lemma consumes_text_bin m s : text_ok m s -> (m <= 4096)%nat -> consumes (parse_text_bin m) (blob_image false s) 1 (slice_bytes s).
Proof.
  intros (Hbad & Hb & Ht & Hl) Hm. unfold parse_text_bin. eapply (consumes_then _ _ _ 1 (slice_bytes s) [] 0 (slice_bytes s)); [lia|by rewrite app_nil_r|done| |].
  - apply consumes_blob; [done|]. unfold LXMF_STANDARD_MAX_MEDIA_BYTES. lia.
  - apply consumes_require; [apply Nat.leb_le; by rewrite <-slice_bad_length|]. eapply consumes_lift; [by apply utf8_true|]. apply consumes_require; [done|]. apply consumes_ret.
Qed.

Lemma consumes_reaction_entries t c s : hash32 t -> text_ok LXMF_STANDARD_MAX_REACTION_BYTES s -> c = slice_bytes s ->
  consumes (reaction_entries 2 None None) (head 0 LXMF_REACTION_TO ++ hash_image t ++ head 0 LXMF_REACTION_CONTENT ++ blob_image false s) 4 (Some t, Some c).
Proof.
  intros Ht Hs ->. cbn [reaction_entries]. eapply (consumes_then _ _ _ 1 LXMF_REACTION_TO _ 3); [lia|done|done|by apply consumes_head_unsigned|].
  cbn [Z.eqb LXMF_REACTION_TO]. rewrite bool_decide_true by done. cbn [andb]. eapply (consumes_then _ _ _ 1 t _ 2); [lia|done|done|by apply consumes_hash_image|].
  eapply (consumes_then _ _ _ 1 LXMF_REACTION_CONTENT _ 1); [lia|done|done|by apply consumes_head_unsigned|]. change (LXMF_REACTION_CONTENT =? LXMF_REACTION_TO) with false. cbn [andb].
  change (LXMF_REACTION_CONTENT =? LXMF_REACTION_CONTENT) with true. cbn [andb].
  eapply (consumes_then _ _ _ 1 (slice_bytes s) [] 0); [lia|by rewrite app_nil_r|done|apply consumes_text_bin; [done|unfold LXMF_STANDARD_MAX_REACTION_BYTES; lia]|apply consumes_ret].
Qed.

Lemma consumes_attachment_entries l done_ rest_ total :
  Forall attachment_ok l -> (length l <= length rest_)%nat -> total = data_total done_ -> data_total done_ + data_total l <= LXMF_MAX_MESSAGE_SIZE ->
  consumes (attachment_entries (length l) (length done_) total (done_ ++ rest_)) (concat (attachment_image <$> l)) (3 * Z.of_nat (length l)) (done_ ++ (seen_attachment <$> l) ++ drop (length l) rest_).
Proof.
  intros Hl. revert done_ rest_ total. induction Hl as [|a l [Hn Hd] Hl IH]; intros done_ rest_ total Hr Ht Hmax; cbn [length attachment_entries].
  { change (3 * Z.of_nat 0) with 0. cbn. apply consumes_ret. }
  destruct Hn as (nm & En & Hne & Hnb & Hnt & Hnl). destruct Hd as (Hdbad & Hdb & Hdl). destruct rest_ as [|x rest_]; [cbn in Hr; lia|]. cbn [length] in Hr.
  assert (data_total (a :: l) = Z.of_nat (slice_length (data a)) + data_total l) as Etot by done. assert (0 <= data_total l) as Hpos by (clear; induction l; cbn; [done|]; unfold data_total in *; lia).
  eapply consumes_lift; [by apply list_lookup_middle|]. cbn [fmap list_fmap concat]. unfold attachment_image at 1. rewrite <-!app_assoc.
  replace (3 * Z.of_nat (S (length l))) with (1 + (1 + (1 + 3 * Z.of_nat (length l)))) by lia.
  eapply (consumes_then _ _ _ 1 2 _ (1 + (1 + 3 * Z.of_nat (length l)))); [lia|done|done|by apply (consumes_head_container false)|]. apply consumes_require; [done|].
  eapply (consumes_then _ _ _ 1 nm _ (1 + 3 * Z.of_nat (length l))); [lia|done|done|rewrite En; apply (consumes_blob true (SBytes nm)); [done|cbn [slice_length]; unfold LXMF_STANDARD_MAX_NAME_BYTES, LXMF_STANDARD_MAX_MEDIA_BYTES in *; lia]|].
  apply consumes_require; [rewrite (proj2 (Nat.leb_le _ _)) by done; by destruct nm|]. eapply consumes_lift; [by apply utf8_true|]. apply consumes_require; [done|].
  eapply (consumes_then _ _ _ 1 (slice_bytes (data a)) _ (3 * Z.of_nat (length l))); [lia|done|done|by apply consumes_blob|]. rewrite <-slice_bad_length by done.
  apply consumes_require; [rewrite !(proj2 (Z.leb_le _ _)) by lia; done|].
  assert (<[length done_ := {| name := SBytes nm; data := SBytes (slice_bytes (data a)) |}]> (done_ ++ x :: rest_) = (done_ ++ [seen_attachment a]) ++ rest_) as ->.
  { rewrite insert_app_r_alt, Nat.sub_diag by lia. cbn. rewrite <-app_assoc. unfold seen_attachment. by rewrite En. }
  specialize (IH (done_ ++ [seen_attachment a]) rest_ (total + Z.of_nat (slice_length (data a))) ltac:(lia)). rewrite length_app, Nat.add_1_r in IH. rewrite <-!app_assoc in IH. cbn [app] in IH.
  rewrite <-app_assoc. cbn [app]. apply IH; rewrite data_total_app; cbn; rewrite <-slice_bad_length by done; lia.
Qed.

Lemma consumes_either_left {A B} (f : R A) (h : A -> R B) g b1 k1 a b2 k2 b bs k :
  0 <= k2 -> bs = b1 ++ b2 -> k = k1 + k2 -> consumes f b1 k1 a -> consumes (h a) b2 k2 b -> consumes (either f h g) bs k b.
Proof.
  intros Hk -> -> Hf Hh tail i Hi. rewrite either_eq, <-app_assoc, Hf by lia. rewrite Hh by lia. by rewrite Z.add_assoc.
Qed.

Lemma consumes_either_right {A B} (f : R A) (h : A -> R B) g c bs k b : refuses f c -> consumes g (c :: bs) k b -> consumes (either f h g) (c :: bs) k b.
Proof. intros Hf Hg tail i Hi. rewrite either_eq. cbn [app]. rewrite Hf. by apply (Hg tail i). Qed.

Lemma text_head s : named LXMF_STANDARD_MAX_FORMAT_BYTES s -> exists c l, blob_image true s = c :: l /\ refuses unsigned_value c.
Proof.
  intros (t & -> & Hne & _ & _ & Hl). unfold blob_image, head, head_bytes. cbn [slice_length slice_bytes Z.eqb Pos.eqb orb andb]. unfold LXMF_STANDARD_MAX_FORMAT_BYTES in Hl.
  rewrite (proj2 (Z.leb_le _ 31)) by lia. rewrite wrap_small by (unfold in_width; lia). cbn [default app]. eexists _, _. split; [done|].
  assert (forallb (λ v, (0 <=? Z.lor 0xa0 v) && (Z.lor 0xa0 v <? 256) && ((0x7f <? Z.lor 0xa0 v) && negb ((Z.lor 0xa0 v =? 0xcc) || (Z.lor 0xa0 v =? 0xcd) || (Z.lor 0xa0 v =? 0xce) || (Z.lor 0xa0 v =? 0xcf)))) (seqZ 0 32) = true) as H by done.
  pose proof (forall_below 32 _ H (Z.of_nat (length t)) ltac:(lia)) as E. cbv beta in E. apply andb_prop in E as [[E1%Z.leb_le E2%Z.ltb_lt]%andb_prop E3]. apply refuses_unsigned; [unfold is_byte, in_width; lia|done].
Qed.

Lemma named_blob m s : named m s -> (m <= 4096)%nat -> slice_bad s = false /\ Z.of_nat (slice_length s) <= LXMF_STANDARD_MAX_MEDIA_BYTES.
Proof. intros (t & -> & _ & _ & _ & Hl) Hm. split; [done|]. cbn. unfold LXMF_STANDARD_MAX_MEDIA_BYTES. lia. Qed.

Lemma consumes_media m : media_view_ok m -> consumes (parse_media zero_media) (media_image m) (media_items m) (seen_media m).
Proof.
  intros [(Hbad & Hb & Hl) Hi Ht]. unfold parse_media, media_image, media_items, seen_media.
  assert (forall k x, k = 1 -> consumes (let* d := bytes_value false in let* _ := require (media_fits d) in ret (x d)) (blob_image false (media_data m)) k (x (slice_bytes (media_data m)) : lxmf_media_view)) as Htail.
  { intros k x ->. eapply (consumes_then _ _ _ 1 (slice_bytes (media_data m)) [] 0); [lia|by rewrite app_nil_r|done|by apply consumes_blob|].
    apply consumes_require; [unfold media_fits; rewrite <-slice_bad_length by done; by apply Z.leb_le|apply consumes_ret]. }
  assert (forall x b f, consumes (media_format zero_media) b 1 f -> x = (λ d, {| f with media_data := SBytes d |}) ->
    consumes (parse_media zero_media) (head 4 2 ++ b ++ blob_image false (media_data m)) 3 (x (slice_bytes (media_data m)))) as Hpair.
  { intros x b f Hf ->. apply (consumes_either_right (bytes_value false) _ _ 0x92 (b ++ blob_image false (media_data m))); [by apply refuses_raw|].
    change (0x92 :: b ++ blob_image false (media_data m)) with (head 4 2 ++ b ++ blob_image false (media_data m)).
    eapply (consumes_then _ _ _ 1 2 _ 2); [lia|done|done|by apply (consumes_head_container false)|]. apply consumes_require; [done|].
    eapply (consumes_then _ _ _ 1 f _ 1); [lia|done|done|done|]. by apply (Htail 1 (λ d, {| f with media_data := SBytes d |})). }
  destruct (format_kind m) eqn:Ek.
  - eapply (consumes_either_left (bytes_value false) _ _ _ 1 (slice_bytes (media_data m)) [] 0); [lia|by rewrite app_nil_r|done|by apply consumes_blob|].
    apply consumes_require; [unfold media_fits; rewrite <-slice_bad_length by done; by apply Z.leb_le|]. apply consumes_ret.
  - apply (Hpair (λ d, {| format_kind := LXMF_MEDIA_FORMAT_INTEGER; integer_format := integer_format m; text_format := SNull 0; media_data := SBytes d |}) _
      {| format_kind := LXMF_MEDIA_FORMAT_INTEGER; integer_format := integer_format m; text_format := SNull 0; media_data := SNull 0 |}); [|done].
    unfold is_byte, in_width in Hi. eapply (consumes_either_left unsigned_value _ _ _ 1 (integer_format m) [] 0); [lia|by rewrite app_nil_r|done|apply consumes_head_unsigned; unfold in_width; lia|].
    apply consumes_require; [apply Z.leb_le; lia|]. rewrite wrap_small by (unfold in_width; lia). apply consumes_ret.
  - specialize (Ht eq_refl). apply (Hpair (λ d, {| format_kind := LXMF_MEDIA_FORMAT_TEXT; integer_format := 0; text_format := seen (text_format m); media_data := SBytes d |}) _
      {| format_kind := LXMF_MEDIA_FORMAT_TEXT; integer_format := 0; text_format := seen (text_format m); media_data := SNull 0 |}); [|done].
    destruct (text_head _ Ht) as (c & l & Ec & Href). rewrite Ec. apply (consumes_either_right unsigned_value _ _ c l _ _ Href).
    destruct (named_blob _ _ Ht) as [Hb1 Hl1]; [unfold LXMF_STANDARD_MAX_FORMAT_BYTES; lia|]. eapply (consumes_then _ _ (blob_image true (text_format m)) 1 (slice_bytes (text_format m)) [] 0); [lia|by rewrite Ec, app_nil_r|done|by apply consumes_blob|].
    destruct Ht as (t & Et & Hne & Htb & Htt & Htl). rewrite Et. cbn [slice_bytes]. apply consumes_require; [rewrite (proj2 (Nat.leb_le _ _)) by done; by destruct t|].
    eapply consumes_lift; [by apply utf8_true|]. apply consumes_require; [done|]. apply consumes_ret.
Qed.

(** The value of a field is read back as it was written. *)
Lemma consumes_value mask f : mask ∈ masks -> standard_ok f -> consumes (read_field mask) (value_image mask f) (value_items mask f) (copy_field mask (seen_fields f) zero_fields).
Proof.
  intros Hm Hf. pose proof Hf as [Hr Hrt Hq Hxt Hx Hth Harr Hcnt Hatt Htot Him Hau].
  assert (forall A (m : R A) bs k a (h : A -> lxmf_standard_fields) x, consumes m bs k a -> h a = x -> consumes (let* v := m in ret (h v)) bs k x) as Hret.
  { intros A m bs k a h x Hc <-. eapply (consumes_then _ _ _ k a [] 0); [lia|by rewrite app_nil_r|by rewrite Z.add_0_r|done|apply consumes_ret]. }
  by_mask Hm; unfold read_field, parse_known, value_image, value_items; reveal_masks.
  - eapply (consumes_then _ _ _ 1 (renderer f) [] 0); [lia|by rewrite app_nil_r|done|apply consumes_head_unsigned; unfold in_width, LXMF_RENDERER_BBCODE in *; lia|].
    apply consumes_require; [apply Z.leb_le; lia|]. rewrite wrap_small by (unfold in_width, LXMF_RENDERER_BBCODE in *; lia). apply consumes_ret.
  - by eapply Hret; [apply consumes_hash_image|].
  - by eapply Hret; [apply consumes_text_bin; [done|unfold LXMF_STANDARD_MAX_QUOTE_BYTES; lia]|].
  - unfold parse_reaction. eapply (consumes_then _ _ _ 1 2 _ 4); [lia|done|done|by apply (consumes_head_container true)|]. apply consumes_require; [done|].
    eapply (consumes_then _ _ _ 4 _ [] 0); [lia|by rewrite app_nil_r|done|by apply consumes_reaction_entries|]. apply consumes_ret.
  - by eapply Hret; [apply consumes_hash_image|].
  - unfold parse_attachments. eapply (consumes_then _ _ _ 1 (Z.of_nat (attachment_count f)) _ (3 * Z.of_nat (attachment_count f))); [lia|done|done|apply (consumes_head_container false); unfold FIELDS_MAX_ITEMS; lia|].
    apply consumes_require; [apply Z.leb_le; unfold LXMF_STANDARD_MAX_ATTACHMENTS; lia|]. rewrite Nat2Z.id.
    assert (length (take (attachment_count f) (attachments f)) = attachment_count f) as Htk by (rewrite length_take; lia).
    pose proof (consumes_attachment_entries (take (attachment_count f) (attachments f)) [] (attachments zero_fields) 0 Hatt ltac:(rewrite Htk; cbn; lia) eq_refl Htot) as Hc. rewrite Htk in Hc. cbn [app length] in Hc.
    eapply (consumes_then _ _ _ (3 * Z.of_nat (attachment_count f)) _ [] 0); [lia|by rewrite app_nil_r|lia|exact Hc|]. cbn [zero_fields attachments]. rewrite drop_replicate. apply consumes_ret.
  - by eapply Hret; [by apply consumes_media|].
  - by eapply Hret; [by apply consumes_media|].
Qed.

(** *** What is written *)

Section Writing.
Context (n cap : nat).

Lemma writes_nil : writes n cap (λ w, Some (true, w)) [].
Proof.
  intros w acc Hw. exists true, w. pose proof Hw as [Hb Hp Hl Hc]. split; [done|]. split; [apply Hb|]. split; [split; [cbn; lia|done]|]. intros _. by rewrite app_nil_r.
Qed.

Lemma writes_head major v b : head_bytes major v = Some b -> writes n cap (put_head major v) (head major v).
Proof. intros E. unfold head. rewrite E. intros w acc Hw. unfold put_head. rewrite E. by apply writes_put. Qed.

Lemma writes_number v : in_width 64 v -> writes n cap (put_head 0 v) (head 0 v).
Proof. intros Hv. destruct (head_unsigned v Hv) as (b & E & _). by eapply writes_head. Qed.

Lemma writes_container (map : bool) k : 0 <= k <= FIELDS_MAX_ITEMS -> writes n cap (put_head (if map then 5 else 4) k) (head (if map then 5 else 4) k).
Proof. intros Hk. destruct (head_container map k Hk) as (b & E & _). by eapply writes_head. Qed.

Lemma writes_when b a bs : b = true -> writes n cap a bs -> writes n cap (when b a) bs.
Proof. by intros ->. Qed.

Lemma writes_when_read b a bs : b = Some true -> writes n cap a bs -> writes n cap (when_read b a) bs.
Proof. by intros ->. Qed.

Lemma writes_slice (text : bool) s : slice_bad s = false -> Z.of_nat (slice_length s) <= LXMF_STANDARD_MAX_MEDIA_BYTES ->
  writes n cap (put_slice (if text then 3 else 2) s) (blob_image text s).
Proof.
  intros Hs Hl. unfold put_slice, blob_image. apply writes_when; [by rewrite Hs|]. unfold LXMF_STANDARD_MAX_MEDIA_BYTES in Hl.
  destruct (head_slice text (slice_bytes s)) as (b & E & _); [rewrite <-slice_bad_length by done; unfold UINT32_MAX; lia|]. rewrite <-slice_bad_length in E by done.
  apply writes_and_then; [by eapply writes_head|apply writes_put].
Qed.

Lemma writes_hash h : hash32 h -> writes n cap (put_hash h) (hash_image h).
Proof. intros _. unfold put_hash, hash_image. apply writes_and_then; [by eapply writes_head|apply writes_put]. Qed.

Lemma slice_utf8 s : slice_bad s = false -> bytes_ok (slice_bytes s) -> utf8_text (slice_bytes s) -> utf8_slice s = Some true.
Proof. intros Hs Hb Ht. unfold utf8_slice. destruct s as [[|k]|l]; [by apply utf8_true|done|by apply utf8_true]. Qed.

Lemma text_fits_ok m s : text_ok m s -> text_fits m s = Some true.
Proof. intros (Hs & Hb & Ht & Hl). unfold text_fits. rewrite Hs, (proj2 (Nat.leb_le _ _)) by done. by apply slice_utf8. Qed.

Lemma label_ok_named m s : named m s -> label_ok m s = Some true.
Proof.
  intros (t & -> & Hne & Hb & Ht & Hl). unfold label_ok. cbn [slice_length slice_is_null]. rewrite (proj2 (Nat.leb_le _ _)) by done. destruct t as [|b t]; [done|]. by apply slice_utf8.
Qed.

Lemma media_ok_blob s : blob_ok s -> media_ok s = true.
Proof. intros (Hs & _ & Hl). unfold media_ok. by rewrite Hs, (proj2 (Z.leb_le _ _)). Qed.

Lemma writes_media m : media_view_ok m -> writes n cap (put_media m) (media_image m).
Proof.
  intros [Hd Hi Ht]. unfold put_media, media_image. apply writes_when; [by apply media_ok_blob|]. destruct Hd as (Hbad & _ & Hl). destruct (format_kind m).
  - by apply (writes_slice false).
  - apply writes_and_then; [by apply (writes_container false)|]. apply writes_and_then; [apply writes_number; unfold is_byte, in_width in *; lia|by apply (writes_slice false)].
  - specialize (Ht eq_refl). apply writes_and_then; [by apply (writes_container false)|]. apply writes_and_then; [|by apply (writes_slice false)].
    apply writes_when_read; [by apply label_ok_named|]. destruct (named_blob _ _ Ht); [unfold LXMF_STANDARD_MAX_FORMAT_BYTES; lia|]. by apply (writes_slice true).
Qed.

Lemma writes_attachments f l i : take (length l) (drop i f.(attachments)) = l -> Forall attachment_ok l ->
  writes n cap (put_attachments f (length l) i) (concat (attachment_image <$> l)).
Proof.
  intros El Hl. revert i El. induction Hl as [|a l [Hn Hd] Hl IH]; intros i El; cbn [length put_attachments]; [apply writes_nil|].
  destruct (drop i (attachments f)) as [|a' rest_] eqn:Ed; [done|]. cbn [length take] in El. injection El as -> El.
  assert (attachments f !! i = Some a) as Ha by (rewrite <-(Nat.add_0_r i), <-lookup_drop, Ed; done). assert (drop (S i) (attachments f) = rest_) as Ed'.
  { rewrite (drop_S _ _ _ Ha) in Ed. by injection Ed. }
  intros w acc Hw. rewrite Ha. cbn [mbind option_bind fmap list_fmap concat]. destruct Hd as (Hdbad & Hdb & Hdl). pose proof Hn as (t & Et & Hne & Htb & Htt & Htl). destruct (named_blob _ _ Hn) as [Hb1 Hl1]; [unfold LXMF_STANDARD_MAX_NAME_BYTES; lia|].
  eapply (writes_and_then n cap); [|apply (IH (S i)); by rewrite Ed'|done]. apply writes_when.
  { unfold media_ok. rewrite Hdbad, (proj2 (Z.leb_le _ _)) by done. rewrite Et. cbn [slice_length slice_is_null]. rewrite (proj2 (Nat.leb_le _ _)) by done. by destruct t. }
  apply writes_when_read; [rewrite Et; by apply slice_utf8|]. apply writes_and_then; [by apply (writes_container false)|]. apply writes_and_then; [by apply (writes_slice true)|by apply (writes_slice false)].
Qed.

Lemma writes_value mask f : mask ∈ masks -> standard_ok f -> writes n cap (put_value mask f) (value_image mask f).
Proof.
  intros Hm [Hr Hrt Hq Hxt Hx Hth Harr Hcnt Hatt Htot Him Hau].
  assert (forall m s, (m <= 4096)%nat -> text_ok m s -> slice_bad s = false /\ Z.of_nat (slice_length s) <= LXMF_STANDARD_MAX_MEDIA_BYTES) as Htext.
  { intros m s ? (? & _ & _ & ?). split; [done|]. unfold LXMF_STANDARD_MAX_MEDIA_BYTES. lia. }
  by_mask Hm; unfold put_value, value_image; reveal_masks.
  - apply writes_when; [apply Z.leb_le; lia|]. apply writes_number. unfold in_width, LXMF_RENDERER_BBCODE in *. lia.
  - by apply writes_hash.
  - apply writes_when_read; [by apply text_fits_ok|]. destruct (Htext LXMF_STANDARD_MAX_QUOTE_BYTES _ ltac:(unfold LXMF_STANDARD_MAX_QUOTE_BYTES; lia) Hq). by apply (writes_slice false).
  - apply writes_when_read; [by apply text_fits_ok|]. destruct (Htext LXMF_STANDARD_MAX_REACTION_BYTES _ ltac:(unfold LXMF_STANDARD_MAX_REACTION_BYTES; lia) Hx).
    apply writes_and_then; [by apply (writes_container true)|]. apply writes_and_then; [by apply writes_number|]. apply writes_and_then; [by apply writes_hash|].
    apply writes_and_then; [by apply writes_number|by apply (writes_slice false)].
  - by apply writes_hash.
  - apply writes_when; [by apply Nat.leb_le|]. apply writes_and_then; [apply (writes_container false); unfold FIELDS_MAX_ITEMS; lia|].
    assert (length (take (attachment_count f) (attachments f)) = attachment_count f) as Htk by (rewrite length_take; lia).
    pose proof (writes_attachments f (take (attachment_count f) (attachments f)) 0) as Hw. rewrite Htk in Hw. by apply Hw.
  - by apply writes_media.
  - by apply writes_media.
Qed.
End Writing.

(** ** Merging *)

(** [f] without the fields selected by [c]. *)
Definition restrict (c : Z) (f : lxmf_standard_fields) : lxmf_standard_fields :=
  let pick {A} (m : Z) (get : lxmf_standard_fields -> A) := if selected m c then get zero_fields else get f in
  {| present_mask := Z.ldiff f.(present_mask) c;
     renderer := pick LXMF_STANDARD_RENDERER renderer;
     reply_to := pick LXMF_STANDARD_REPLY_TO reply_to;
     reply_quote := pick LXMF_STANDARD_REPLY_QUOTE reply_quote;
     reaction_to := pick LXMF_STANDARD_REACTION reaction_to;
     reaction_content := pick LXMF_STANDARD_REACTION reaction_content;
     thread := pick LXMF_STANDARD_THREAD thread;
     attachments := pick LXMF_STANDARD_ATTACHMENTS attachments;
     attachment_count := pick LXMF_STANDARD_ATTACHMENTS attachment_count;
     image := pick LXMF_STANDARD_IMAGE image;
     audio := pick LXMF_STANDARD_AUDIO audio |}.

(** What a merge promises: the replaced fields from [standard], the removed ones gone,
    and every other one as it was in [old]. *)
Definition merged (standard : lxmf_standard_fields) (replace remove : Z) (old : lxmf_standard_fields) : lxmf_standard_fields :=
  let pick {A} (m : Z) (get : lxmf_standard_fields -> A) :=
    if selected m replace then get (seen_fields standard) else if selected m remove then get zero_fields else get old in
  {| present_mask := Z.lor (Z.ldiff old.(present_mask) (Z.lor replace remove)) replace;
     renderer := pick LXMF_STANDARD_RENDERER renderer;
     reply_to := pick LXMF_STANDARD_REPLY_TO reply_to;
     reply_quote := pick LXMF_STANDARD_REPLY_QUOTE reply_quote;
     reaction_to := pick LXMF_STANDARD_REACTION reaction_to;
     reaction_content := pick LXMF_STANDARD_REACTION reaction_content;
     thread := pick LXMF_STANDARD_THREAD thread;
     attachments := pick LXMF_STANDARD_ATTACHMENTS attachments;
     attachment_count := pick LXMF_STANDARD_ATTACHMENTS attachment_count;
     image := pick LXMF_STANDARD_IMAGE image;
     audio := pick LXMF_STANDARD_AUDIO audio |}.

(** *** Masks *)

Lemma masks_bit mask : mask ∈ masks -> exists k, 0 <= k < 8 /\ mask = 2 ^ k.
Proof.
  intros Hm. by_mask Hm; [exists 0|exists 1|exists 2|exists 3|exists 4|exists 5|exists 6|exists 7]; done.
Qed.

Lemma land_bit c k : 0 <= k -> Z.land c (2 ^ k) = if Z.testbit c k then 2 ^ k else 0.
Proof.
  intros Hk. apply Z.bits_inj'. intros n Hn. rewrite Z.land_spec, Z.pow2_bits_eqb by done. destruct (Z.eqb_spec k n) as [->|].
  - destruct (Z.testbit c n); [by rewrite Z.pow2_bits_true|by rewrite Z.bits_0].
  - rewrite andb_false_r. destruct (Z.testbit c k); [by rewrite Z.pow2_bits_false|by rewrite Z.bits_0].
Qed.

Lemma selected_bit k c : 0 <= k -> selected (2 ^ k) c = Z.testbit c k.
Proof. intros Hk. unfold selected. rewrite land_bit by done. pose proof (Z.pow_pos_nonneg 2 k ltac:(lia) Hk). destruct (Z.testbit c k); [|done]. by rewrite (proj2 (Z.eqb_neq _ _)) by lia. Qed.

Lemma selected_lor mask a b : mask ∈ masks -> selected mask (Z.lor a b) = selected mask a || selected mask b.
Proof. intros (k & Hk & ->)%masks_bit. rewrite !selected_bit by lia. apply Z.lor_spec. Qed.

Lemma selected_0 c : selected 0 c = false.
Proof. unfold selected. by rewrite Z.land_0_r. Qed.

Lemma ldiff_mask mask c : mask ∈ masks -> Z.ldiff mask c = if selected mask c then 0 else mask.
Proof.
  intros (k & Hk & ->)%masks_bit. rewrite selected_bit by lia. apply Z.bits_inj'. intros n Hn. rewrite Z.ldiff_spec, Z.pow2_bits_eqb by lia. destruct (Z.eqb_spec k n) as [->|].
  - destruct (Z.testbit c n); [by rewrite Z.bits_0|by rewrite Z.pow2_bits_true].
  - destruct (Z.testbit c k); [by rewrite Z.bits_0|by rewrite Z.pow2_bits_false by lia].
Qed.

Lemma ldiff_lor p mask c : Z.ldiff (Z.lor p mask) c = Z.lor (Z.ldiff p c) (Z.ldiff mask c).
Proof. apply Z.bits_inj'. intros n Hn. rewrite !Z.lor_spec, !Z.ldiff_spec, Z.lor_spec. by destruct (Z.testbit p n), (Z.testbit mask n), (Z.testbit c n). Qed.

Lemma land_ldiff p mask c : Z.land p mask = 0 -> Z.land (Z.ldiff p c) mask = 0.
Proof.
  intros H. apply Z.bits_inj'. intros n Hn. rewrite Z.land_spec, Z.ldiff_spec, Z.bits_0. assert (Z.testbit (Z.land p mask) n = false) as E by (by rewrite H, Z.bits_0). rewrite Z.land_spec in E.
  by destruct (Z.testbit p n), (Z.testbit mask n), (Z.testbit c n).
Qed.

Lemma land_ldiff_selected p mask c : mask ∈ masks -> selected mask c = true -> Z.land (Z.ldiff p c) mask = 0.
Proof.
  intros (k & Hk & ->)%masks_bit. rewrite selected_bit, land_bit by lia. intros Hs. by rewrite Z.ldiff_spec, Hs, andb_false_r.
Qed.

(** *** The kept fields *)

Lemma restrict_hit c mask g f : mask ∈ masks -> selected mask c = true -> restrict c (add_field mask g f) = restrict c f.
Proof.
  intros Hm Hs. assert (present_mask (restrict c (add_field mask g f)) = present_mask (restrict c f)) as Hp.
  { cbn [restrict add_field present_mask]. by rewrite ldiff_lor, (ldiff_mask mask c Hm), Hs, Z.lor_0_r. }
  by_mask Hm; unfold restrict in *; cbn [present_mask] in Hp; rewrite Hp, Hs; unfold add_field, copy_field; done.
Qed.

Lemma restrict_other c mask g f : mask ∈ masks -> selected mask c = false -> restrict c (add_field mask g f) = add_field mask g (restrict c f).
Proof.
  intros Hm Hs. assert (Z.ldiff (Z.lor (present_mask f) mask) c = Z.lor (Z.ldiff (present_mask f) c) mask) as Hp by (by rewrite ldiff_lor, (ldiff_mask mask c Hm), Hs).
  by_mask Hm; unfold restrict, add_field, copy_field in *; cbn [present_mask]; rewrite Hp, Hs; done.
Qed.

Lemma restrict_zero c : restrict c zero_fields = zero_fields.
Proof. unfold restrict, zero_fields. cbn [present_mask]. rewrite Z.ldiff_0_l. by repeat case_match. Qed.

(** The entries that are not [hit] absorb the fields that are kept. *)
Definition others (p : Z -> bool) (es : list entry) : list entry := filter (λ e, hit p e = false) es.

Lemma others_cons p e es : others p (e :: es) = if hit p e then others p es else e :: others p es.
Proof. unfold others. rewrite filter_cons. destruct (hit p e); [by rewrite decide_False|by rewrite decide_True]. Qed.

Definition changes (c : Z) (key : Z) : bool := selected (mask_for_key key) c.

Lemma hit_changes c e : hit (changes c) e = selected (key_mask e) c.
Proof. unfold hit, changes, key_mask. destruct (e_int e); [done|by rewrite selected_0]. Qed.

Lemma absorbs_restrict c f es f' : absorbs f es f' -> absorbs (restrict c f) (others (changes c) es) (restrict c f').
Proof.
  induction 1 as [f|f e es f' Hmask Ha IH|f e es f' g Hin Hz Hg Ha IH]; [constructor|..]; rewrite others_cons, hit_changes.
  - rewrite Hmask, selected_0. by apply absorbs_other.
  - destruct (selected (key_mask e) c) eqn:Es.
    + by rewrite restrict_hit in IH.
    + rewrite restrict_other in IH by done. apply (absorbs_field _ _ _ _ g); [done| |done|done]. by apply land_ldiff.
Qed.

Lemma absorbs_app f es f1 es' f' : absorbs f es f1 -> absorbs f1 es' f' -> absorbs f (es ++ es') f'.
Proof. induction 1; cbn [app]; eauto using absorbs. Qed.

(** *** The replaced fields *)

(** The bits with their keys, in the order of the last loop. *)
Definition plan : list (Z * Z) := zip masks keys.

Definition news (f : lxmf_standard_fields) (replace : Z) (ps : list (Z * Z)) : list entry :=
  (λ x, {| e_key := head 0 x.2; e_value := value_image x.1 f; e_ki := 1; e_vi := value_items x.1 f; e_int := Some x.2 |}) <$> filter (λ x, selected x.1 replace = true) ps.

Lemma news_cons f replace x ps :
  news f replace (x :: ps) =
    if selected x.1 replace then {| e_key := head 0 x.2; e_value := value_image x.1 f; e_ki := 1; e_vi := value_items x.1 f; e_int := Some x.2 |} :: news f replace ps else news f replace ps.
Proof. unfold news. rewrite filter_cons. destruct (selected x.1 replace) eqn:E; [by rewrite decide_True|by rewrite decide_False]. Qed.

(** A field alone is all that its value depends on. *)
Lemma put_attachments_copy f n i : put_attachments (copy_field LXMF_STANDARD_ATTACHMENTS f zero_fields) n i = put_attachments f n i.
Proof. revert i. induction n as [|n IH]; intros i; cbn [put_attachments]; [done|]. by rewrite IH. Qed.

Lemma put_value_copy mask f : mask ∈ masks -> put_value mask (copy_field mask f zero_fields) = put_value mask f.
Proof. intros Hm. by_mask Hm; try done. unfold put_value. reveal_masks. by rewrite <-(put_attachments_copy f). Qed.

Lemma image_copy mask f : mask ∈ masks ->
  value_image mask (copy_field mask f zero_fields) = value_image mask f /\ value_items mask (copy_field mask f zero_fields) = value_items mask f /\
  copy_field mask (seen_fields (copy_field mask f zero_fields)) zero_fields = copy_field mask (seen_fields f) zero_fields.
Proof. intros Hm. by_mask Hm; done. Qed.

Lemma add_copy mask g f : mask ∈ masks -> add_field mask (copy_field mask g zero_fields) f = add_field mask g f.
Proof. intros Hm. by_mask Hm; done. Qed.

(** The types of the structure: what is in memory is bytes, and arrays have their length. *)
Definition slice_in (s : slice) : Prop := bytes_ok (slice_bytes s).

Record memory_ok (f : lxmf_standard_fields) : Prop := {
  mo_renderer : is_byte f.(renderer);
  mo_hashes : hash32 f.(reply_to) /\ hash32 f.(reaction_to) /\ hash32 f.(thread);
  mo_texts : slice_in f.(reply_quote) /\ slice_in f.(reaction_content);
  mo_array : length f.(attachments) = 16%nat;
  mo_attachments : Forall (λ a, slice_in a.(name) /\ slice_in a.(data)) f.(attachments);
  mo_media : Forall (λ m, slice_in m.(media_data) /\ slice_in m.(text_format) /\ is_byte m.(integer_format)) [f.(image); f.(audio)]
}.

Lemma utf8_slice_total s : slice_bad s = false -> slice_in s -> exists b, utf8_slice s = Some b /\ (b = true -> utf8_text (slice_bytes s)).
Proof.
  intros Hs Hb. destruct (utf8_loop_spec (length (slice_bytes s)) (slice_bytes s) Hb ltac:(lia)) as (b & Hv & Hiff). exists b. split; [|apply Hiff]. unfold utf8_slice, valid_utf8. by destruct s as [[|k]|l].
Qed.

Lemma text_fits_total m s : slice_in s -> exists b, text_fits m s = Some b /\ (b = true -> text_ok m s).
Proof.
  intros Hs. unfold text_fits. destruct (_ && _) eqn:E; cbn [andalso]; [|by exists false]. apply andb_prop in E as [Hl%Nat.leb_le Hb%negb_true_iff].
  destruct (utf8_slice_total s Hb Hs) as (b & -> & Ht). exists b. split; [done|]. intros ->. split_and!; auto.
Qed.

Lemma label_ok_total m s : slice_in s -> exists b, label_ok m s = Some b /\ (b = true -> named m s).
Proof.
  intros Hs. unfold label_ok. destruct (_ && _) eqn:E; cbn [andalso]; [|by exists false]. apply andb_prop in E as [[Hne%negb_true_iff Hl%Nat.leb_le]%andb_prop Hnull%negb_true_iff]. destruct s as [k|t]; [done|].
  destruct (utf8_slice_total (SBytes t) eq_refl Hs) as (b & -> & Ht). exists b. split; [done|]. intros ->. exists t. split_and!; auto. by intros ->.
Qed.

Lemma media_ok_inv s : slice_in s -> media_ok s = true -> blob_ok s.
Proof. intros Hs [Hl%Z.leb_le Hb%negb_true_iff]%andb_prop. by split_and!. Qed.

Lemma valid_media_total m : slice_in m.(media_data) /\ slice_in m.(text_format) /\ is_byte m.(integer_format) -> exists b, valid_media_value m = Some b /\ (b = true -> media_view_ok m).
Proof.
  intros (Hd & Ht & Hi). unfold valid_media_value. destruct (media_ok (media_data m)) eqn:E; cbn [andalso]; [|by exists false]. apply media_ok_inv in E; [|done]. destruct (format_kind m) eqn:Ek.
  - exists true. split; [done|]. intros _. constructor; [done|done|by rewrite Ek].
  - exists true. split; [done|]. intros _. constructor; [done|done|by rewrite Ek].
  - destruct (label_ok_total LXMF_STANDARD_MAX_FORMAT_BYTES _ Ht) as (b & -> & Hn). exists b. split; [done|]. intros ->. constructor; auto.
Qed.

Lemma valid_attachments_total f n i total : (i + n <= length f.(attachments))%nat -> Forall (λ a, slice_in a.(name) /\ slice_in a.(data)) f.(attachments) ->
  exists b, valid_attachments f n i total = Some b /\
    (b = true -> total <= LXMF_MAX_MESSAGE_SIZE -> Forall attachment_ok (take n (drop i f.(attachments))) /\ total + data_total (take n (drop i f.(attachments))) <= LXMF_MAX_MESSAGE_SIZE).
Proof.
  intros Hi Hin. revert i total Hi. induction n as [|n IH]; intros i total Hi; cbn [valid_attachments]; [exists true; split; [done|]; intros _ ?; rewrite take_0; cbn; split; [constructor|lia]|].
  destruct (lookup_lt_is_Some_2 (attachments f) i) as [a Ha]; [lia|]. rewrite Ha. cbn [mbind option_bind]. destruct (Forall_lookup_1 _ _ _ _ Hin Ha) as [Hn Hd].
  destruct (label_ok_total LXMF_STANDARD_MAX_NAME_BYTES _ Hn) as (b & -> & Hlab). destruct b; cbn [both mbind option_bind]; [|by exists false]. specialize (Hlab eq_refl).
  destruct (_ && _) eqn:E; cbn [andalso]; [|by exists false]. apply andb_prop in E as [Hm Hle%Z.leb_le]. apply media_ok_inv in Hm; [|done].
  destruct (IH (S i) (total + Z.of_nat (slice_length (data a))) ltac:(lia)) as (b & -> & Hall). exists b. split; [done|]. intros Hb Hmax. destruct (Hall Hb ltac:(lia)) as [Hf Ht].
  rewrite (drop_S _ _ _ Ha). cbn [take]. split; [by constructor|]. cbn [data_total foldr]. fold (data_total (take n (drop (S i) (attachments f)))). lia.
Qed.

(** A field that may replace one is well formed. *)
Lemma valid_replacement_total f mask : memory_ok f -> mask ∈ masks -> exists b, valid_replacement f mask = Some b /\ (b = true -> standard_ok (copy_field mask f zero_fields)).
Proof.
  intros [Hr (Hrt & Hxt & Hth) [Hq Hx] Harr Hatt Hmed] Hm. apply Forall_cons_1 in Hmed as [Him [Hau _]%Forall_cons_1]. pose proof zero_standard_ok as Hz.
  assert (forall (o : option bool) (P Q : Prop), (P -> Q) -> (exists b, o = Some b /\ (b = true -> P)) -> exists b, o = Some b /\ (b = true -> Q)) as Hmap by (intros o P Q HPQ (b & -> & Hb); exists b; auto).
  by_mask Hm; unfold valid_replacement; reveal_masks; cbn [orb].
  - exists (renderer f <=? LXMF_RENDERER_BBCODE). split; [done|]. intros Hle%Z.leb_le. destruct Hz. constructor; cbn; try done. unfold is_byte, in_width in Hr. lia.
  - exists true. split; [done|]. intros _. destruct Hz. by constructor; cbn.
  - eapply Hmap; [|by apply text_fits_total]. intros Ht. destruct Hz. by constructor; cbn.
  - eapply Hmap; [|by apply text_fits_total]. intros Ht. destruct Hz. by constructor; cbn.
  - exists true. split; [done|]. intros _. destruct Hz. by constructor; cbn.
  - cbn [andb]. destruct (Nat.leb_spec (attachment_count f) LXMF_STANDARD_MAX_ATTACHMENTS) as [Hle|]; cbn [andalso]; [|by exists false]. unfold LXMF_STANDARD_MAX_ATTACHMENTS in Hle.
    eapply Hmap; [|apply valid_attachments_total; [lia|done]]. intros Ht. destruct (Ht ltac:(unfold LXMF_MAX_MESSAGE_SIZE; lia)) as [Ha Hs]. rewrite drop_0 in Ha, Hs. destruct Hz.
    constructor; cbn [copy_field Z.eqb Pos.eqb renderer reply_to reply_quote reaction_to reaction_content thread attachments attachment_count image audio]; done.
  - eapply Hmap; [|by apply valid_media_total]. intros Ht. destruct Hz. by constructor; cbn.
  - eapply Hmap; [|by apply valid_media_total]. intros Ht. destruct Hz. by constructor; cbn.
Qed.

(** *** The entries that are written *)

Lemma lor_byte a b : is_byte a -> is_byte b -> is_byte (Z.lor a b).
Proof.
  intros [Ha1 Ha2] [Hb1 Hb2]. split; [by apply Z.lor_nonneg|]. destruct (decide (Z.lor a b = 0)) as [->|]; [lia|]. pose proof (proj2 (Z.lor_nonneg a b) (conj Ha1 Hb1)).
  apply Z.log2_lt_pow2; [lia|]. rewrite Z.log2_lor by done. destruct (Z.eq_dec a 0) as [->|], (Z.eq_dec b 0) as [->|]; cbn; [lia|..]; apply Z.max_lub_lt; try apply Z.log2_lt_pow2; cbn; lia.
Qed.

Lemma head_ok major v : bytes_ok (head major v).
Proof.
  assert (forall x, is_byte (wrap8 x)) as Hw by (intros x; by apply wrap_in_width). unfold head, head_bytes.
  repeat case_match; cbn [default]; repeat (apply Forall_nil_2 || apply Forall_cons_2); try apply lor_byte; try apply Hw; unfold is_byte, in_width; lia.
Qed.

Lemma blob_image_ok text s : slice_in s -> bytes_ok (blob_image text s).
Proof. intros Hs. apply Forall_app. split; [apply head_ok|done]. Qed.

Lemma hash_image_ok h : hash32 h -> bytes_ok (hash_image h).
Proof. intros [Hh _]. apply Forall_app. split; [apply head_ok|done]. Qed.

Lemma named_in m s : named m s -> slice_in s.
Proof. by intros (t & -> & _ & ? & _). Qed.

Lemma media_image_ok m : media_view_ok m -> bytes_ok (media_image m).
Proof.
  intros [(_ & Hd & _) _ Ht]. unfold media_image. destruct (format_kind m); [by apply blob_image_ok|..]; repeat (apply Forall_app; split); try apply head_ok; try by apply Hd.
  apply (named_in _ _ (Ht eq_refl)).
Qed.

Lemma attachment_images_ok l : Forall attachment_ok l -> bytes_ok (concat (attachment_image <$> l)).
Proof.
  induction 1 as [|a l [Hn (_ & Hd & _)] _ IH]; cbn [fmap list_fmap concat]; [constructor|]. apply Forall_app. split; [|done]. unfold attachment_image. repeat (apply Forall_app; split); try apply head_ok; [|by apply Hd]. by eapply named_in.
Qed.

Lemma value_image_ok mask f : mask ∈ masks -> standard_ok f -> bytes_ok (value_image mask f).
Proof.
  intros Hm [Hr Hrt (_ & Hq & _) Hxt (_ & Hx & _) Hth Harr Hcnt Hatt Htot Him Hau]. by_mask Hm; unfold value_image; reveal_masks;
    first [apply head_ok|by apply hash_image_ok|by apply blob_image_ok|by apply media_image_ok|idtac].
  - apply Forall_app; split; [apply head_ok|]. apply Forall_app; split; [apply head_ok|]. apply Forall_app; split; [by apply hash_image_ok|]. apply Forall_app; split; [apply head_ok|]. by apply blob_image_ok.
  - apply Forall_app. split; [apply head_ok|by apply attachment_images_ok].
Qed.

(** What a step of one object reads, [skip_any] skips. *)
Lemma consumes_skip {A} (f : R A) bs k a : bytes_ok bs -> walks (S FIELDS_MAX_DEPTH) 1 f -> consumes f bs k a -> consumes skip_any bs k tt.
Proof.
  intros Hb Hw Hc. pose proof (Hc [] (FIELDS_MAX_ITEMS - k) ltac:(lia)) as E. rewrite app_nil_r in E. pose proof (Hw {| rest := bs; items := FIELDS_MAX_ITEMS - k |} _ _ Hb E) as Hs. rewrite times_1 in Hs.
  destruct (st_local steady_skip_any {| rest := bs; items := FIELDS_MAX_ITEMS - k |} tt _ Hb Hs) as (bs' & k' & Er & Ei & _ & _ & _ & Hcs). cbn [rest items] in Er, Ei. rewrite app_nil_r in Er. subst bs'.
  by assert (k' = k) as -> by lia.
Qed.

(** A place of [plan]: the mask of a key. *)
Definition planned (x : Z * Z) : Prop := x.1 ∈ masks /\ mask_for_key x.2 = x.1 /\ in_width 64 x.2.

Lemma planned_plan : Forall planned plan.
Proof. unfold plan. repeat (apply Forall_nil_2 || apply Forall_cons_2); (split; [|done]); cbn [zip_with fst snd masks keys]; by repeat (first [apply list_elem_of_here|apply list_elem_of_further]). Qed.

Section Replaced.
Context (f : lxmf_standard_fields) (replace : Z).
Hypothesis Hvalid : forall mask, mask ∈ masks -> selected mask replace = true -> standard_ok (copy_field mask f zero_fields).

Lemma consumes_replaced mask : mask ∈ masks -> selected mask replace = true ->
  bytes_ok (value_image mask f) /\ consumes (read_field mask) (value_image mask f) (value_items mask f) (copy_field mask (seen_fields f) zero_fields).
Proof.
  intros Hm Hs. destruct (image_copy mask f Hm) as (<- & <- & <-). split; [by apply value_image_ok; [|apply Hvalid]|]. apply consumes_value; [done|by apply Hvalid].
Qed.

Lemma news_ok ps : Forall planned ps -> Forall entry_ok (news f replace ps).
Proof.
  induction 1 as [|[mask key] ps (Hm & Hk & Hw) Hps IH]; [constructor|]. rewrite news_cons. cbn [fst snd] in *. destruct (selected mask replace) eqn:Es; [|done]. constructor; [|done].
  destruct (consumes_replaced mask Hm Es) as [Hb Hc]. constructor; cbn [e_key e_value e_ki e_vi e_int].
  - apply (consumes_skip unsigned_value _ _ key); [apply head_ok|apply walks_unsigned|by apply consumes_head_unsigned].
  - by apply (consumes_skip (read_field mask) _ _ _ Hb (walks_read_field mask) Hc).
  - split; [lia|]. unfold value_items, media_items. repeat case_match; lia.
  - by apply consumes_head_unsigned.
Qed.

Definition add_replaced (ps : list (Z * Z)) (g : lxmf_standard_fields) : lxmf_standard_fields :=
  foldl (λ g x, if selected x.1 replace then add_field x.1 (seen_fields f) g else g) g ps.

Lemma news_absorbed ps g : Forall planned ps -> NoDup (fst <$> ps) -> (forall mask, mask ∈ fst <$> ps -> selected mask replace = true -> Z.land g.(present_mask) mask = 0) ->
  absorbs g (news f replace ps) (add_replaced ps g).
Proof.
  intros Hps. revert g. induction Hps as [|[mask key] ps (Hm & Hk & Hw) Hps IH]; intros g Hnd Hz; [constructor|]. rewrite news_cons. cbn [fst snd fmap list_fmap] in *. apply list.NoDup_cons in Hnd as [Hni Hnd].
  unfold add_replaced. cbn [foldl fst]. destruct (selected mask replace) eqn:Es.
  - rewrite <-add_copy by done. eapply (absorbs_field _ _ _ _ (copy_field mask (seen_fields f) zero_fields)); unfold key_mask; cbn [e_int e_value e_vi]; rewrite Hk; [done|apply Hz; [apply list_elem_of_here|done]|by apply consumes_replaced|].
    apply IH; [done|]. intros mask' Hin Hs'. assert (mask' ∈ masks) as Hm'.
    { apply list_elem_of_fmap in Hin as (y & -> & Hy). rewrite list.Forall_forall in Hps. by destruct (Hps y Hy) as [? _]. }
    cbn [add_field present_mask]. rewrite land_mask; [|done|done|by intros ->]. apply Hz; [by apply list_elem_of_further|done].
  - apply IH; [done|]. intros mask' Hin. apply Hz. by apply list_elem_of_further.
Qed.

Lemma writes_replaced n cap bit ps : Forall planned ps -> (forall i x, ps !! i = Some x -> x.1 = Z.shiftl 1 (bit + Z.of_nat i)) ->
  writes n cap (put_replaced f replace bit (snd <$> ps)) (all_bytes (news f replace ps)).
Proof.
  intros Hps. revert bit. induction Hps as [|[mask key] ps (Hm & Hk & Hw) Hps IH]; intros bit Hbit; [apply writes_nil|]. rewrite news_cons. cbn [fst snd fmap list_fmap put_replaced] in *.
  assert (Z.shiftl 1 bit = mask) as -> by (pose proof (Hbit 0%nat (mask, key) eq_refl) as E; rewrite Z.add_0_r in E; by rewrite <-E).
  assert (writes n cap (put_replaced f replace (bit + 1) (snd <$> ps)) (all_bytes (news f replace ps))) as Hrest.
  { apply IH. intros i x Hx. rewrite (Hbit (S i) x Hx). f_equal. lia. }
  destruct (selected mask replace) eqn:Es; [|done]. unfold all_bytes. cbn [fmap list_fmap concat]. apply writes_and_then; [|done]. unfold e_bytes. cbn [e_key e_value].
  apply writes_and_then; [by apply writes_number|]. destruct (image_copy mask f Hm) as (<- & _). rewrite <-put_value_copy by done. apply writes_value; [done|by apply Hvalid].
Qed.
End Replaced.

(** *** The loops of a merge *)

Lemma others_ok p es : Forall entry_ok es -> Forall entry_ok (others p es) /\ (length (others p es) <= length es)%nat /\ all_items (others p es) <= all_items es.
Proof.
  induction 1 as [|e es He Hes (H1 & H2 & H3)]; [done|]. rewrite others_cons, all_items_cons. destruct (eo_items _ He). unfold e_items. destruct (hit p e); cbn [length]; rewrite ?all_items_cons; unfold e_items.
  - split_and!; [done|lia|lia].
  - split_and!; [by constructor|lia|lia].
Qed.

Lemma count_hits_entries p es tail i : Forall entry_ok es -> i + all_items es <= FIELDS_MAX_ITEMS ->
  count_hits p (length es) {| rest := all_bytes es ++ tail; items := i |} =
    Some (Some (Z.of_nat (length es) - Z.of_nat (length (others p es)), {| rest := tail; items := i + all_items es |})).
Proof.
  intros Hes. revert i. induction Hes as [|e es He Hes IH]; intros i Hi; cbn [length count_hits]; [unfold ret; cbn; by rewrite Z.add_0_r|]. rewrite all_items_cons in *. pose proof (all_items_pos es Hes).
  change (all_bytes (e :: es) ++ tail) with ((e_bytes e ++ all_bytes es) ++ tail). rewrite <-app_assoc. unfold rbind at 1. rewrite entry_bytes_at by (done || lia). unfold rbind. rewrite IH by lia. unfold ret. cbn [fst].
  rewrite others_cons, Z.add_assoc. destruct (hit p e); cbn [length]; do 3 f_equal; lia.
Qed.

Lemma copy_others_entries p es tail i kept n cap w acc : Forall entry_ok es -> i + all_items es <= FIELDS_MAX_ITEMS -> written n cap w acc ->
  exists x, copy_others p (length es) {| rest := all_bytes es ++ tail; items := i |} kept w = Some x /\
    forall k w', x = inr (k, w') -> k = kept + all_items (others p es) /\ written n cap w' (acc ++ all_bytes (others p es)).
Proof.
  intros Hes. revert i kept w acc. induction Hes as [|e es He Hes IH]; intros i kept w acc Hi Hw; cbn [length copy_others].
  { eexists. split; [done|]. intros k w' [= <- <-]. cbn. by rewrite app_nil_r, Z.add_0_r. }
  rewrite all_items_cons in *. pose proof (all_items_pos es Hes). change (all_bytes (e :: es) ++ tail) with ((e_bytes e ++ all_bytes es) ++ tail). rewrite <-app_assoc, entry_bytes_at by (done || lia).
  cbn [mbind option_bind]. rewrite others_cons. destruct (hit p e); [apply IH; [lia|done]|]. destruct (writes_put n cap (e_bytes e) w acc Hw) as (ok & w1 & Ep & _ & _ & Hw1).
  change (put w (e_bytes e)) with (Lxmf.put w (e_bytes e)). rewrite Ep. cbn [mbind option_bind]. destruct ok; [|by eexists]. specialize (Hw1 eq_refl). cbn [items].
  destruct (IH (i + e_items e) (kept + (i + e_items e - i)) w1 _ ltac:(lia) Hw1) as (x & -> & Hx). exists x. split; [done|]. intros k w' E. destruct (Hx k w' E) as [-> Hw'].
  rewrite all_items_cons. change (all_bytes (e :: ?l)) with (e_bytes e ++ all_bytes (others p es)). rewrite app_assoc. split; [lia|done].
Qed.

(** *** Selections of bits *)

Lemma small_mask a : in_width 32 a -> Z.land a (Z.lxor LXMF_STANDARD_ALL 0xffffffff) = 0 -> 0 <= a < 256.
Proof.
  intros Ha Hz. assert (a = Z.land a (Z.ones 8)) as ->; [|rewrite Z.land_ones by lia; apply Z.mod_pos_bound; lia].
  rewrite <-(Z.mod_small a (2 ^ 32)) at 1 by (unfold in_width in Ha; lia). rewrite <-Z.land_ones by lia. change (Z.ones 32) with (Z.lor (Z.ones 8) (Z.lxor LXMF_STANDARD_ALL 0xffffffff)).
  by rewrite Z.land_lor_distr_r, Hz, Z.lor_0_r.
Qed.

(** The bits of a selection, counted and joined. *)
Definition joined (replace : Z) (ps : list (Z * Z)) : Z := foldl (λ m x, if selected x.1 replace then Z.lor m x.1 else m) 0 ps.

Lemma replace_bits replace : 0 <= replace < 256 -> bit_count replace = Z.of_nat (length (filter (λ x, selected x.1 replace = true) plan)) /\ joined replace plan = replace.
Proof.
  intros Hr. assert (forallb (λ m, (bit_count m =? Z.of_nat (length (filter (λ x, selected x.1 m = true) plan))) && (joined m plan =? m)) (seqZ 0 256) = true) as H by (vm_compute; done).
  pose proof (forall_below 256 _ H replace Hr) as E. cbv beta in E. clear H. apply andb_prop in E as [E1 E2]. exact (conj (proj1 (Z.eqb_eq _ _) E1) (proj1 (Z.eqb_eq _ _) E2)).
Qed.

Lemma foldl_joined replace ps p : foldl (λ m x, if selected x.1 replace then Z.lor m x.1 else m) p ps = Z.lor p (joined replace ps).
Proof.
  unfold joined. revert p. induction ps as [|x ps IH]; intros p; cbn [foldl]; [by rewrite Z.lor_0_r|]. rewrite IH. rewrite (IH (if selected x.1 replace then Z.lor 0 x.1 else 0)). destruct (selected x.1 replace); [|by rewrite Z.lor_0_l].
  by rewrite Z.lor_0_l, Z.lor_assoc.
Qed.

Lemma add_replaced_mask f replace ps g : (add_replaced f replace ps g).(present_mask) = Z.lor g.(present_mask) (joined replace ps).
Proof.
  rewrite <-foldl_joined. unfold add_replaced. revert g. induction ps as [|x ps IH]; intros g; cbn [foldl]; [done|]. rewrite IH. by destruct (selected x.1 replace).
Qed.

(** The kept and the new fields are what the merge promises. *)
Lemma merged_eq f replace remove old : 0 <= replace < 256 -> add_replaced f replace plan (restrict (Z.lor replace remove) old) = merged f replace remove old.
Proof.
  intros Hr. pose proof (add_replaced_mask f replace plan (restrict (Z.lor replace remove) old)) as Hp. rewrite (proj2 (replace_bits replace Hr)) in Hp. cbn [restrict present_mask] in Hp.
  set (x := add_replaced _ _ _ _) in *.
  assert (x = let y := x in {| y with present_mask := Z.lor (Z.ldiff (present_mask old) (Z.lor replace remove)) replace |}) as -> by (rewrite <-Hp; by destruct x).
  unfold x, merged, restrict. rewrite !selected_lor by (unfold masks; by repeat (first [apply list_elem_of_here|apply list_elem_of_further])).
  unfold add_replaced, plan. cbn [zip zip_with masks keys foldl fst].
  destruct (selected LXMF_STANDARD_RENDERER replace), (selected LXMF_STANDARD_REPLY_TO replace), (selected LXMF_STANDARD_REPLY_QUOTE replace), (selected LXMF_STANDARD_REACTION replace),
    (selected LXMF_STANDARD_THREAD replace), (selected LXMF_STANDARD_ATTACHMENTS replace), (selected LXMF_STANDARD_IMAGE replace), (selected LXMF_STANDARD_AUDIO replace); reflexivity.
Qed.

(** *** The fields of a map and what becomes of them *)

Lemma number_items w r v r' : number w r = Some (Some (v, r')) -> r'.(items) = r.(items).
Proof. unfold number. destruct (_ <? _)%nat; [done|]. destruct (memread _ _ _); [|done]. by intros [= _ <-]. Qed.

Lemma container_items map r n r' : container map r = Some (Some (n, r')) -> r'.(items) = r.(items) + 1.
Proof.
  intros E. apply rbind_inv in E as (c & r1 & En & E). assert (items r1 = items r + 1) as <-.
  { unfold next_code in En. destruct (rest r); [done|]. destruct (_ <=? _); [done|]. by injection En as _ <-. }
  destruct (_ || _); [unfold ret in E; by injection E as _ <-|]. apply rbind_inv in E as (v & r2 & Ev & E). apply require_inv in E as [_ E]. unfold ret in E. injection E as _ <-.
  destruct (c =? (if map then 0xde else 0xdc)); [by eapply number_items|]. destruct (c =? (if map then 0xdf else 0xdd)); [by eapply number_items|done].
Qed.

(** What a successful parse has read. *)
Lemma parse_inv l f : bytes_ok l -> lxmf_standard_fields_parse (SBytes l) = Some (LXMF_OK, Some f) ->
  exists h es, l = h ++ all_bytes es /\ Forall entry_ok es /\ 1 + all_items es <= FIELDS_MAX_ITEMS /\ consumes (container true) h 1 (Z.of_nat (length es)) /\ absorbs zero_fields es f /\ standard_ok f.
Proof.
  intros Hb. unfold lxmf_standard_fields_parse. destruct l as [|c l0] eqn:El; [done|]. rewrite <-El in *. clear El. destruct (LXMF_MAX_MESSAGE_SIZE <? Z.of_nat (length l)); [done|].
  destruct (st_total (steady_container true) (start l) Hb) as [x Hx]. change {| rest := l; items := 0 |} with (start l). rewrite Hx. cbn [mbind option_bind]. destruct x as [[n r]|]; [|done].
  destruct (st_local (steady_container true) (start l) n r Hb Hx) as (h & k & Er & Ei & Hk & Hm & [Hn0 Hn] & Hc). cbn [start rest items] in Er, Ei. pose proof Hb as Hb1. rewrite Er in Hb1. apply Forall_app in Hb1 as [_ Hb1].
  destruct (parse_entries_scan (Z.to_nat n) zero_fields r Hb1 clean_zero zero_standard_ok) as (y & Hy & Hall). rewrite Hy. cbn [mbind option_bind]. destruct y as [st|[f' r']]; [by intros [= _ ?]|].
  destruct (Nat.eqb_spec (length (rest r')) 0) as [Hl|]; [|done]. intros [= <-]. apply nil_length_inv in Hl. destruct (Hall f' r' eq_refl) as (es & Hlen & Hes & Er1 & Ei1 & Hmax & Ha & Hok & _).
  assert (k = 1) as -> by (pose proof (container_items true (start l) n r Hx) as Hi; cbn [start items] in Hi; lia). rewrite Hl, app_nil_r in Er1. rewrite Er1 in Er. exists h, es. split_and!; [done|done| |by rewrite Hlen, Z2Nat.id by lia|done|done].
  destruct Hmax as [->|?]; [cbn; unfold FIELDS_MAX_ITEMS; lia|lia].
Qed.

(** A map of entries that can be read is parsed. *)
Lemma parse_image h es f : consumes (container true) h 1 (Z.of_nat (length es)) -> Forall entry_ok es -> 1 + all_items es <= FIELDS_MAX_ITEMS -> absorbs zero_fields es f ->
  h <> [] -> Z.of_nat (length (h ++ all_bytes es)) <= LXMF_MAX_MESSAGE_SIZE -> lxmf_standard_fields_parse (SBytes (h ++ all_bytes es)) = Some (LXMF_OK, Some f).
Proof.
  intros Hh Hes Hmax Ha Hne Hl. pose proof (all_items_pos es Hes). unfold lxmf_standard_fields_parse. destruct (h ++ all_bytes es) as [|c l] eqn:El; [by apply app_eq_nil in El as [? _]|]. rewrite <-El in *.
  rewrite (proj2 (Z.ltb_ge _ _)) by done. rewrite (Hh (all_bytes es) 0) by lia. cbn [mbind option_bind]. rewrite Nat2Z.id. rewrite <-(app_nil_r (all_bytes es)), (parse_entries_replay zero_fields es f [] _ Ha Hes clean_zero) by lia. done.
Qed.

Lemma parse_entries_status n f r : parse_entries n f r <> Some (inl LXMF_OK).
Proof.
  revert f r. induction n as [|n IH]; intros f r; cbn [parse_entries]; [done|]. destruct (unsigned_value r) as [k|]; cbn [mbind option_bind]; [|done]. destruct (skip_any r) as [[[[] r1]|]|]; cbn [mbind option_bind]; [|done..].
  destruct (_ =? 0); [destruct (skip_any r1) as [[[[] r2]|]|]; cbn [mbind option_bind]; [apply IH|done..]|]. destruct (negb _); [done|].
  destruct (parse_value _ f r1) as [[st|[f' r2]]|] eqn:Ev; cbn [mbind option_bind]; [|apply IH|done]. intros [= ->]. unfold parse_value in Ev. destruct (parse_known _ f) as [m|]; [|done].
  destruct (m r1) as [[[]|]|]; done.
Qed.

Lemma parse_total l : bytes_ok l -> exists st f, lxmf_standard_fields_parse (SBytes l) = Some (st, f) /\ (st = LXMF_OK -> exists f', f = Some f' /\ standard_ok f' /\ clean f').
Proof.
  intros Hb. unfold lxmf_standard_fields_parse. destruct l as [|c l0] eqn:El; [by eexists _, _|]. rewrite <-El in *. clear El. destruct (LXMF_MAX_MESSAGE_SIZE <? Z.of_nat (length l)); [by eexists _, _|].
  destruct (st_total (steady_container true) (start l) Hb) as [x Hx]. change {| rest := l; items := 0 |} with (start l). rewrite Hx. cbn [mbind option_bind]. destruct x as [[n r]|]; [|by eexists _, _].
  destruct (steady_rest _ _ (start l) _ _ (steady_container true) Hb Hx) as [Hb1 _]. destruct (parse_entries_scan (Z.to_nat n) zero_fields r Hb1 clean_zero zero_standard_ok) as (y & Hy & Hall). rewrite Hy.
  cbn [mbind option_bind]. destruct y as [st|[f' r']].
  - exists st, None. split; [done|]. intros ->. exfalso. by apply (parse_entries_status (Z.to_nat n) zero_fields r).
  - destruct (Hall f' r' eq_refl) as (es & _ & _ & _ & _ & _ & _ & Hok & Hcl). destruct (_ =? _)%nat; eexists _, _; (split; [done|]); [by eexists|done].
Qed.

(** The bytes [l] are a map of the entries [es]. *)
Definition map_of (l : list Z) (es : list entry) : Prop :=
  exists h, l = h ++ all_bytes es /\ consumes (container true) h 1 (Z.of_nat (length es)) /\ Forall entry_ok es /\ 1 + all_items es <= FIELDS_MAX_ITEMS.

Lemma valid_replacements_total f replace bits : memory_ok f -> Forall (λ b, Z.shiftl 1 b ∈ masks) bits ->
  exists b, valid_replacements f replace bits = Some b /\
    (b = true -> forall bit, bit ∈ bits -> selected (Z.shiftl 1 bit) replace = true -> standard_ok (copy_field (Z.shiftl 1 bit) f zero_fields)).
Proof.
  intros Hf. induction 1 as [|bit bits Hbit Hbits IH]; cbn [valid_replacements]; [exists true; split; [done|]; by intros _ bit ?%elem_of_nil|]. destruct IH as (b & Eb & Hb).
  assert (exists b, (if selected (Z.shiftl 1 bit) replace then valid_replacement f (Z.shiftl 1 bit) else Some true) = Some b /\
    (b = true -> selected (Z.shiftl 1 bit) replace = true -> standard_ok (copy_field (Z.shiftl 1 bit) f zero_fields))) as (b1 & -> & Hb1).
  { destruct (selected (Z.shiftl 1 bit) replace); [|by exists true]. destruct (valid_replacement_total f _ Hf Hbit) as (b1 & -> & Hb1). exists b1. auto. }
  unfold both. cbn [mbind option_bind]. destruct b1; [|by exists false]. rewrite Eb. exists b. split; [done|]. intros Htrue bit' [->|Hin]%elem_of_cons; auto.
Qed.

Lemma valid_masks f replace : memory_ok f -> exists b, valid_replacements f replace [0; 1; 2; 3; 4; 5; 6; 7] = Some b /\
  (b = true -> forall mask, mask ∈ masks -> selected mask replace = true -> standard_ok (copy_field mask f zero_fields)).
Proof.
  intros Hf. destruct (valid_replacements_total f replace [0; 1; 2; 3; 4; 5; 6; 7] Hf) as (b & Eb & Hb).
  { repeat (apply Forall_nil_2 || apply Forall_cons_2); by repeat (first [apply list_elem_of_here|apply list_elem_of_further]). }
  exists b. split; [done|]. intros Htrue mask Hm. specialize (Hb Htrue). by_mask Hm; [apply (Hb 0)|apply (Hb 1)|apply (Hb 2)|apply (Hb 3)|apply (Hb 4)|apply (Hb 5)|apply (Hb 6)|apply (Hb 7)];
    by repeat (first [apply list_elem_of_here|apply list_elem_of_further]).
Qed.

(** The entries of the merged map. *)
Definition merged_entries (standard : lxmf_standard_fields) (replace remove : Z) (es : list entry) : list entry :=
  others (changes (Z.lor replace remove)) es ++ news standard replace plan.

Lemma length_merged standard replace remove es : 0 <= replace < 256 ->
  Z.of_nat (length (merged_entries standard replace remove es)) = Z.of_nat (length es) - (Z.of_nat (length es) - Z.of_nat (length (others (changes (Z.lor replace remove)) es))) + bit_count replace.
Proof. intros Hr. unfold merged_entries, news. rewrite length_app, length_fmap, (proj1 (replace_bits replace Hr)). lia. Qed.

Lemma head_nonempty (map : bool) h n : consumes (container map) h 1 n -> h <> [].
Proof. intros Hc ->. by specialize (Hc [] 0 ltac:(unfold FIELDS_MAX_ITEMS; lia)). Qed.

Lemma merged_absorbs standard replace remove es old : 0 <= replace < 256 -> (forall mask, mask ∈ masks -> selected mask replace = true -> standard_ok (copy_field mask standard zero_fields)) ->
  absorbs zero_fields es old -> absorbs zero_fields (merged_entries standard replace remove es) (merged standard replace remove old).
Proof.
  intros Hr Hv Ha. rewrite <-merged_eq by done. apply (absorbs_app _ _ (restrict (Z.lor replace remove) old)).
  - rewrite <-(restrict_zero (Z.lor replace remove)) at 1. by apply absorbs_restrict.
  - apply news_absorbed; [done|apply planned_plan|by apply (bool_decide_unpack _)|]. intros mask Hm Hs. apply land_ldiff_selected; [done|]. rewrite selected_lor by done. by rewrite Hs.
Qed.

Lemma bounded_le cap : (bounded_capacity cap <= cap)%nat /\ Z.of_nat (bounded_capacity cap) <= LXMF_MAX_MESSAGE_SIZE.
Proof. unfold bounded_capacity. unfold LXMF_MAX_MESSAGE_SIZE. destruct (Z.ltb_spec (Z.of_nat cap) (8 * 1024 * 1024)); lia. Qed.

Lemma writer_over_written o cap : (cap <= length o)%nat -> written (length o) cap (writer_over o cap) [].
Proof. intros Hc. constructor; cbn; [by apply wrote_nil|done|lia|lia]. Qed.

Lemma plan_bits i x : plan !! i = Some x -> x.1 = Z.shiftl 1 (0 + Z.of_nat i).
Proof. do 8 (destruct i as [|i]; [by intros [= <-]|]). done. Qed.

Lemma copy_others_status p n r kept w : copy_others p n r kept w <> Some (inl LXMF_OK).
Proof.
  revert r kept w. induction n as [|n IH]; intros r kept w; cbn [copy_others]; [done|]. destruct (entry_bytes p r) as [[[[[] bs] r1]|]|]; cbn [mbind option_bind]; [apply IH| |done..].
  destruct (put w bs) as [[[] w1]|]; cbn [mbind option_bind]; [apply IH|done..].
Qed.

(** The writing part of a merge. *)
Lemma merge_writes standard replace remove es o cap :
  0 <= replace < 256 -> (forall mask, mask ∈ masks -> selected mask replace = true -> standard_ok (copy_field mask standard zero_fields)) ->
  Forall entry_ok es -> 1 + all_items es <= FIELDS_MAX_ITEMS -> (cap <= length o)%nat ->
  let new := merged_entries standard replace remove es in
  Z.of_nat (length new) <= FIELDS_MAX_ITEMS ->
  exists st out n,
    (x ← put_head 5 (Z.of_nat (length new)) (writer_over o cap);
     match x with
     | (false, _) => Some (LXMF_ERR_BOUNDS, None, 0%nat)
     | (true, w) =>
         x ← copy_others (changes (Z.lor replace remove)) (length es) {| rest := all_bytes es; items := 1 |} 0 w;
         match x with
         | inl st => Some (st, None, 0%nat)
         | inr (_, w) =>
             x ← put_replaced standard replace 0 keys w;
             Some (match x with
                   | (true, w) => (LXMF_OK, Some w.(wbuf), (cap - w.(left))%nat)
                   | (false, _) => (LXMF_ERR_BOUNDS, None, 0%nat)
                   end)
         end
     end) = Some (st, out, n) /\
    (st = LXMF_OK -> exists buf, out = Some buf /\ (n <= cap)%nat /\ take n buf = head 5 (Z.of_nat (length new)) ++ all_bytes new).
Proof.
  intros Hr Hv Hes Hmax Hcap new Hnew. pose proof (writes_container (length o) cap true (Z.of_nat (length new)) ltac:(lia)) as Hh.
  destruct (Hh _ _ (writer_over_written o cap Hcap)) as (ok & w & -> & _ & _ & Hw). cbn [mbind option_bind]. destruct ok; [|by eexists _, _, _]. specialize (Hw eq_refl). cbn [app] in Hw.
  destruct (copy_others_entries (changes (Z.lor replace remove)) es [] 1 0 _ _ w _ Hes Hmax Hw) as (x & Hx & Hall). rewrite app_nil_r in Hx. rewrite Hx. cbn [mbind option_bind].
  destruct x as [st|[k w1]].
  { exists st, None, 0%nat. split; [done|]. intros ->. exfalso. by apply copy_others_status in Hx. }
  destruct (Hall k w1 eq_refl) as [_ Hw1]. destruct (writes_replaced standard replace Hv (length o) cap 0 plan planned_plan plan_bits w1 _ Hw1) as (ok & w2 & Hp & _ & _ & Hw2).
  change (snd <$> plan) with keys in Hp. rewrite Hp. cbn [mbind option_bind]. destruct ok; [|by eexists _, _, _]. specialize (Hw2 eq_refl). rewrite <-app_assoc, <-all_bytes_app in Hw2. fold (merged_entries standard replace remove es) in Hw2. fold new in Hw2.
  destruct Hw2 as [(_ & Hb & _) _ Hl Hc]. eexists _, _, _. split; [done|]. intros _. exists (wbuf w2). set (A := head _ _ ++ all_bytes new) in *. split; [done|]. rewrite Hl. split; [lia|].
  by replace (cap - (cap - length A))%nat with (length A) by lia.
Qed.

Lemma head_read n : 0 <= n <= FIELDS_MAX_ITEMS -> consumes (container true) (head 5 n) 1 n.
Proof. apply (consumes_head_container true). Qed.


(** ** Properties *)

(** C20: [lxmf_standard_fields_parse] is memory safe on any bytes, and the fields that it
    accepts are well formed: every size is within its limit, text is UTF-8, the
    attachments together fit a message, and a field that is not marked as present is
    zero. *)
Theorem fields_parse_safe fields : bytes_ok (slice_bytes fields) ->
  exists st f, lxmf_standard_fields_parse fields = Some (st, f) /\ (st = LXMF_OK -> exists f', f = Some f' /\ standard_ok f' /\ clean f').
Proof. intros Hb. destruct fields as [k|l]; [by eexists _, _|by apply parse_total]. Qed.

(** C18: [lxmf_standard_fields_merge] with any bytes and any typed structure returns a
    status, and writes within the capacity. With [LXMF_OK] the input was a map of entries
    that parsed to some [old] fields; the output is the map of the entries that are
    neither replaced nor removed, byte for byte and in their order, and of the replaced
    fields; and when its objects are within the limit of the reader it parses to the
    fields of [old] with the replaced ones from [standard] and the removed ones gone. *)
Theorem fields_merge_parse existing standard replace remove o cap n0 :
  bytes_ok (slice_bytes existing) -> memory_ok standard -> in_width 32 replace -> in_width 32 remove -> (cap <= length o)%nat ->
  exists st out n, lxmf_standard_fields_merge existing standard replace remove (Some o) cap n0 = Some (st, out, n) /\
    (st = LXMF_OK -> exists buf old es,
      out = Some buf /\ (n <= cap)%nat /\ lxmf_standard_fields_parse (SBytes (existing_map existing)) = Some (LXMF_OK, Some old) /\ map_of (existing_map existing) es /\
      take n buf = head 5 (Z.of_nat (length (merged_entries standard replace remove es))) ++ all_bytes (merged_entries standard replace remove es) /\
      (1 + all_items (merged_entries standard replace remove es) <= FIELDS_MAX_ITEMS ->
       lxmf_standard_fields_parse (SBytes (take n buf)) = Some (LXMF_OK, Some (merged standard replace remove old)))).
Proof.
  intros Hb Hf Hrep Hrem Hcap. unfold lxmf_standard_fields_merge. destruct (_ || _) eqn:Earg; [by eexists _, _, _|].
  apply orb_false_iff in Earg as [[[[Hbad _]%orb_false_iff _]%orb_false_iff Hall%negb_false_iff]%orb_false_iff _]. apply Z.eqb_eq in Hall. rewrite Z.land_lor_distr_l in Hall. apply Z.lor_eq_0_iff in Hall as [Hall _].
  pose proof (small_mask replace Hrep Hall) as Hr. destruct (valid_masks standard replace Hf) as (v & -> & Hv). cbn [mbind option_bind]. destruct v; cbn [negb]; [|by eexists _, _, _]. specialize (Hv eq_refl).
  assert (bytes_ok (existing_map existing)) as Hl by (unfold existing_map; destruct (_ =? _)%nat; [by repeat constructor|done]). set (l := existing_map existing) in *.
  destruct (parse_total l Hl) as (st & f & Ep & Hok). rewrite Ep. cbn [mbind option_bind]. destruct st; try by eexists _, _, _. destruct (Hok eq_refl) as (old & -> & _ & _).
  destruct (parse_inv l old Hl Ep) as (h & es & El & Hes & Hmax & Hc & Ha & _). pose proof (all_items_pos es Hes). pose proof (Hc (all_bytes es) 0 ltac:(lia)) as Eco. rewrite <-El in Eco. change (0 + 1) with 1 in Eco. unfold start. rewrite Eco. cbn [mbind option_bind].
  pose proof (count_hits_entries (changes (Z.lor replace remove)) es [] 1 Hes Hmax) as Eh. rewrite app_nil_r in Eh. rewrite Nat2Z.id.
  change (λ key : Z, selected (mask_for_key key) (Z.lor replace remove)) with (changes (Z.lor replace remove)). rewrite Eh. cbn [mbind option_bind].
  rewrite <-(length_merged standard) by done. destruct (Z.ltb_spec FIELDS_MAX_ITEMS (Z.of_nat (length (merged_entries standard replace remove es)))) as [|Hnew]; [by eexists _, _, _|].
  destruct (bounded_le cap) as [Hc1 Hc2]. destruct (merge_writes standard replace remove es o (bounded_capacity cap) Hr Hv Hes Hmax ltac:(lia) Hnew) as (st & out & n & Em & Hn).
  exists st, out, n. split; [exact Em|]. intros Hst. destruct (Hn Hst) as (buf & -> & Hle & Et). exists buf, old, es. split_and!; [done|lia|done|by exists h|done|]. intros Hit. rewrite Et.
  assert (consumes (container true) (head 5 (Z.of_nat (length (merged_entries standard replace remove es)))) 1 (Z.of_nat (length (merged_entries standard replace remove es)))) as Hhead by (apply head_read; lia).
  apply parse_image; [done| |done|by apply merged_absorbs|by eapply head_nonempty|].
  - apply Forall_app. split; [by apply others_ok|]. apply news_ok; [done|apply planned_plan].
  - rewrite <-Et. rewrite length_take. lia.
Qed.

(** A reply with an attachment, over a map with an unknown key and an old thread. *)
Definition sample_map : list Z := [0x83; 0x70; 0x93; 1; 2; 3; 0x08; 0xc4; 32] ++ replicate 32 7 ++ [0x0f; 2].

Definition sample_standard : lxmf_standard_fields :=
  let f := zero_fields in
  {| f with present_mask := Z.lor LXMF_STANDARD_REPLY_TO LXMF_STANDARD_ATTACHMENTS; reply_to := replicate 32 9;
     attachments := {| name := SBytes [97; 46; 98]; data := SBytes [1; 2; 3; 4] |} :: replicate 15 {| name := SNull 0; data := SNull 0 |}; attachment_count := 1%nat |}.

Lemma sample_map_ok : bytes_ok sample_map.
Proof. unfold sample_map. apply Forall_app. split; [by repeat constructor|]. apply Forall_app. split; [by apply Forall_replicate|by repeat constructor]. Qed.

Lemma sample_memory_ok : memory_ok sample_standard.
Proof.
  assert (hash32 (replicate 32 9)) as H9 by (split; [by apply Forall_replicate|done]). assert (slice_in (SNull 0)) as H0 by constructor.
  constructor; cbn [sample_standard zero_fields renderer reply_to reply_quote reaction_to reaction_content thread attachments attachment_count image audio];
    [done|split_and!; [done|apply zero_hash32|apply zero_hash32]|done|done| |by repeat constructor].
  apply Forall_cons_2; [split; by repeat constructor|]. by apply Forall_replicate.
Qed.

Lemma fields_parse_safe_witness : exists st f, lxmf_standard_fields_parse (SBytes sample_map) = Some (st, f) /\ (st = LXMF_OK -> exists f', f = Some f' /\ standard_ok f' /\ clean f').
Proof. apply fields_parse_safe. exact sample_map_ok. Defined.

Lemma fields_merge_parse_witness :
  (exists out n f, lxmf_standard_fields_merge (SBytes sample_map) sample_standard (Z.lor LXMF_STANDARD_REPLY_TO LXMF_STANDARD_ATTACHMENTS) LXMF_STANDARD_THREAD (Some (replicate 200 0)) 200 0 =
    Some (LXMF_OK, Some out, n) /\ lxmf_standard_fields_parse (SBytes (take n out)) = Some (LXMF_OK, Some f) /\ f.(present_mask) = 35 /\ take 6 out = [0x84; 0x70; 0x93; 1; 2; 3]) /\
  exists st out n, lxmf_standard_fields_merge (SBytes sample_map) sample_standard (Z.lor LXMF_STANDARD_REPLY_TO LXMF_STANDARD_ATTACHMENTS) LXMF_STANDARD_THREAD (Some (replicate 200 0)) 200 0 = Some (st, out, n) /\
    (st = LXMF_OK -> exists buf old es, out = Some buf /\ (n <= 200)%nat /\ lxmf_standard_fields_parse (SBytes sample_map) = Some (LXMF_OK, Some old) /\ map_of sample_map es /\
      take n buf = head 5 (Z.of_nat (length (merged_entries sample_standard 34 16 es))) ++ all_bytes (merged_entries sample_standard 34 16 es) /\
      (1 + all_items (merged_entries sample_standard 34 16 es) <= FIELDS_MAX_ITEMS ->
       lxmf_standard_fields_parse (SBytes (take n buf)) = Some (LXMF_OK, Some (merged sample_standard 34 16 old)))).
Proof.
  split.
  - eexists _, _, _. split; [vm_compute; reflexivity|]. split; [vm_compute; reflexivity|]. split; vm_compute; reflexivity.
  - refine (fields_merge_parse (SBytes sample_map) sample_standard 34 16 (replicate 200 0) 200 0 sample_map_ok sample_memory_ok _ _ _);
      [unfold in_width; lia|unfold in_width; lia|vm_compute; lia].
Defined.

(** A map of 120 small entries, and 16 attachments of one byte. *)
Definition crowded_map : list Z := [0xde; 0; 120] ++ concat (replicate 120 [0x70; 2]).

Definition crowded_standard : lxmf_standard_fields :=
  let f := zero_fields in
  {| f with present_mask := LXMF_STANDARD_ATTACHMENTS; attachments := replicate 16 {| name := SBytes [97]; data := SBytes [1] |}; attachment_count := 16%nat |}.

(** Without the condition on the number of objects the merge gives maps that its own
    reader refuses: the map parses, the merge answers [LXMF_OK], and the result does not
    parse. [lxmf_fields_merge_ticket] has a guard against this. *)
Theorem fields_merge_unreadable : exists old out n,
  lxmf_standard_fields_parse (SBytes crowded_map) = Some (LXMF_OK, Some old) /\
  lxmf_standard_fields_merge (SBytes crowded_map) crowded_standard LXMF_STANDARD_ATTACHMENTS 0 (Some (replicate 400 0)) 400 0 = Some (LXMF_OK, Some out, n) /\
  lxmf_standard_fields_parse (SBytes (take n out)) = Some (LXMF_ERR_FORMAT, None).
Proof. eexists _, _, _. split; [vm_compute; reflexivity|]. split; [vm_compute; reflexivity|vm_compute; reflexivity]. Qed.

End FieldsMerge.
