(* ===== verification/FieldsTicket.v ===== *)
(** * Merging the ticket field

    [lxmf_fields_merge_ticket] of [Fields] against the parser of the ticket field in
    [Lxmf]. The two have readers of their own; they agree on where an object ends, so
    that a merged ticket is found again and every other field is kept. *)

From Stdlib Require Import ZArith Lia.
From S2P Require Import Prelude Request Lxmf Utf8 Fields FieldsParse FieldsMerge.

Module FieldsTicket.
Import Request Lxmf Utf8 Fields FieldsParse FieldsMerge.

(** ** The readers agree *)

Definition behind (i : Z) (x : option (Z * list Z)) : option (Z * reader) := match x with Some (v, l) => Some (v, {| rest := l; items := i |}) | None => None end.

Lemma number_size w l i : In w [1; 2; 4]%nat -> bytes_ok l -> exists x, size_field w l = Some x /\ number w {| rest := l; items := i |} = Some (behind i x).
Proof.
  intros Hw Hb. rewrite size_field_spec by done. eexists. split; [done|]. unfold number. cbn [rest items]. destruct (Nat.ltb_spec (length l) w) as [|Hl]; [done|]. rewrite memread_in by lia. cbn [mbind option_bind behind].
  rewrite drop_0, shift_bytes_be; [done|by apply Forall_take|]. rewrite length_take. cbn in Hw. lia.
Qed.

Lemma unsigned_agree r : items r < FIELDS_MAX_ITEMS -> exists x, get_unsigned (rest r) = x /\ unsigned_value r = (y ← x; Some (behind (items r + 1) y)).
Proof.
  intros Hi. eexists. split; [done|]. unfold unsigned_value, rbind, next_code. destruct (rest r) as [|c l]; [done|]. rewrite (proj2 (Z.leb_gt _ _)) by done. cbn [get_unsigned].
  destruct (c <=? 0x7f); [done|]. unfold number. cbn [rest items].
  destruct (c =? 0xcc); [destruct (_ <? _)%nat; [done|]; by destruct (memread _ _ _)|]. destruct (c =? 0xcd); [destruct (_ <? _)%nat; [done|]; by destruct (memread _ _ _)|].
  destruct (c =? 0xce); [destruct (_ <? _)%nat; [done|]; by destruct (memread _ _ _)|]. destruct (c =? 0xcf); [destruct (_ <? _)%nat; [done|]; by destruct (memread _ _ _)|]. done.
Qed.

(** The sizes of an object of the grammar. *)
Lemma sizes_header c t b k tl i : header (c :: t) b k -> single_byte c = false -> forall s r', sizes c {| rest := t ++ tl; items := i |} = Some (Some (s, r')) -> s = (b, k) /\ r' = {| rest := tl; items := i |}.
Proof.
  assert (forall w n (g : Z -> R (Z * Z)) s r', (w <= 8)%nat -> 0 <= n < 256 ^ Z.of_nat w ->
    rbind (number w) g {| rest := be_encode w n ++ tl; items := i |} = Some (Some (s, r')) -> g n {| rest := tl; items := i |} = Some (Some (s, r'))) as Hnum.
  { intros w n g s r' Hw Hn. unfold rbind, number. cbn [rest items]. rewrite (proj2 (Nat.ltb_ge _ _)) by (rewrite length_app, length_be_encode; lia).
    rewrite (bind_Some_eq _ _ (be_encode w n)) by (apply (memread_at _ [] _ tl); [done|done|by rewrite length_be_encode]).
    rewrite shift_bytes_be, be_decode_encode by (done || apply be_encode_bytes || by rewrite length_be_encode). by rewrite drop_app_length' by (by rewrite length_be_encode). }
  intros Hh Hs s r'. remember (c :: t) as h eqn:Eh. destruct Hh as [c' Hc|c' Hc|c' Hc|n Hn|n Hn|n Hn|c' n Hin|c' w n Hin Hn|c' w n Hin Hn|c' w n Hin Hn]; injection Eh as Ec Et; subst.
  - unfold single_byte in Hs. lia.
  - unfold single_byte in Hs. lia.
  - unfold single_byte in Hs. lia.
  - assert (forallb (λ n, (Z.land (0xa0 + n) 0xe0 =? 0xa0) && (Z.land (0xa0 + n) 31 =? n)) (seqZ 0 32) = true) as H by done. apply (forall_below 32 _ H) in Hn. apply andb_prop in Hn as [E1 E2%Z.eqb_eq].
    unfold sizes. rewrite E1, E2. by intros [= <- <-].
  - assert (forallb (λ n, negb (Z.land (0x90 + n) 0xe0 =? 0xa0) && (Z.land (0x90 + n) 0xf0 =? 0x90) && (Z.land (0x90 + n) 15 =? n)) (seqZ 0 16) = true) as H by done. apply (forall_below 16 _ H) in Hn.
    apply andb_prop in Hn as [[E0%negb_true_iff E1]%andb_prop E2%Z.eqb_eq]. unfold sizes. rewrite E0, E1, E2. by intros [= <- <-].
  - assert (forallb (λ n, negb (Z.land (0x80 + n) 0xe0 =? 0xa0) && negb (Z.land (0x80 + n) 0xf0 =? 0x90) && (Z.land (0x80 + n) 0xf0 =? 0x80) && (Z.land (0x80 + n) 15 =? n)) (seqZ 0 16) = true) as H by done.
    apply (forall_below 16 _ H) in Hn. apply andb_prop in Hn as [[[E0%negb_true_iff E3%negb_true_iff]%andb_prop E1]%andb_prop E2%Z.eqb_eq]. unfold sizes. rewrite E0, E3, E1, E2. by intros [= <- <-].
  - cbn [In] in Hin. repeat (destruct Hin as [[= <- <-]|Hin]; [by intros [= <- <-]|]). done.
  - cbn [In] in Hin. repeat (destruct Hin as [[= <- <-]|Hin]; [intros E; apply Hnum in E; [|lia|done]; rewrite Z.add_0_r in E; by injection E as <- <-|]). done.
  - cbn [In] in Hin. repeat (destruct Hin as [[= <- <-]|Hin]; [intros E; apply Hnum in E; [|lia|done]; by injection E as <- <-|]). done.
  - cbn [In] in Hin. destruct Hin as [[= <- <-]|[[= <- <-]|[]]]; intros E; apply Hnum in E; [|lia|done| |lia|done]; [by injection E as <- <-|].
    apply require_inv in E as [_ E]. by injection E as <- <-.
Qed.

Lemma advance_app b tl i : advance (Z.of_nat (length b)) {| rest := b ++ tl; items := i |} = Some (Some (b, {| rest := tl; items := i |})).
Proof.
  unfold advance. cbn [rest items]. rewrite (proj2 (Z.ltb_ge _ _)) by (rewrite length_app; lia). rewrite Nat2Z.id, (bind_Some_eq _ _ b) by (by apply (memread_at _ [] b tl)). by rewrite drop_app_length.
Qed.

Lemma header_single c t b k : header (c :: t) b k -> single_byte c = true -> t = [] /\ b = 0 /\ k = 0.
Proof.
  intros Hh Hs. pose proof (head_complete c t b k [] Hh ltac:(constructor)) as E. unfold object_head in E. rewrite Hs, app_nil_r in E. by injection E as -> -> ->.
Qed.

(** Where both readers take an object they take the same bytes. *)
Lemma skip_msgpack d obj : msgpack d obj -> forall levels r tl r', rest r = obj ++ tl -> skip levels r = Some (Some (tt, r')) -> rest r' = tl.
Proof.
  revert obj. induction d as [|d IH]; [done|]. intros obj (h & b & k & body & cs & -> & Hh & Hbody & Hcs & Hall) levels r tl r' Er. destruct levels as [|levels]; [done|]. cbn [skip].
  destruct (header_bounds _ _ _ Hh) as (Hl & Hb0 & Hk0). destruct h as [|c t]; [cbn in Hl; lia|]. intros E. apply rbind_inv in E as (c' & r1 & En & E). unfold next_code in En. rewrite Er in En. cbn [app] in En.
  destruct (FIELDS_MAX_ITEMS <=? items r); [done|]. injection En as <- <-. fold (single_byte c) in E. destruct (single_byte c) eqn:Es.
  - injection E as <-. cbn [rest]. destruct (header_single c t b k Hh Es) as (-> & -> & ->). destruct body; [|done]. by destruct cs.
  - apply rbind_inv in E as (s & r2 & Esz & E). rewrite <-!app_assoc in Esz. destruct (sizes_header c t b k _ _ Hh Es s r2 Esz) as [-> ->]. cbn [fst snd] in E. apply rbind_inv in E as (x & r3 & Ead & E).
    rewrite <-Hbody, advance_app in Ead. injection Ead as <- <-. apply require_inv in E as [_ E]. rewrite <-Hcs, Nat2Z.id in E. clear Hh Hcs Hl Er Esz.
    revert E. generalize (items r + 1). revert Hall. induction cs as [|o cs IHc]; intros Hall i E; [by injection E as <-|]. apply Forall_cons_1 in Hall as [Ho Hall]. cbn [length times concat] in E. rewrite <-app_assoc in E.
    apply rbind_inv in E as ([] & r4 & E1 & E2). pose proof (IH o Ho levels {| rest := o ++ concat cs ++ tl; items := i |} _ r4 eq_refl E1) as E4. destruct r4 as [l4 i4]. cbn [rest] in E4. subst l4. by apply (IHc Hall i4).
Qed.

Lemma skip_both l l1 levels r r1 : bytes_ok l -> Z.of_nat (length l) < 2 ^ 32 -> skip_obj LEVELS l = Some (Some l1) -> rest r = l -> skip levels r = Some (Some (tt, r1)) -> rest r1 = l1.
Proof.
  intros Hb Hl Ho <- Hs. destruct (skip_obj_spec _ Hb Hl) as (x & Ex & Hx). rewrite Ho in Ex. injection Ex as <-. destruct (proj1 (Hx l1) eq_refl) as (obj & E & Hm). by apply (skip_msgpack _ _ Hm levels r).
Qed.

(** *** The value of the ticket field *)

Lemma scalar_msgpack c n d body : In (c, n) [(0xca, 4); (0xcb, 8); (0xcc, 1); (0xcd, 2); (0xce, 4); (0xcf, 8)] -> Z.of_nat (length body) = n -> msgpack (S d) (c :: body).
Proof.
  intros Hin Hb. exists [c], n, 0, body, []. split_and!; [cbn; by rewrite app_nil_r| |done|done|done]. apply HScalar. cbn [In] in *. intuition auto.
Qed.

Lemma get_unsigned_msgpack l v l1 : bytes_ok l -> get_unsigned l = Some (Some (v, l1)) -> exists obj, l = obj ++ l1 /\ msgpack 1 obj.
Proof.
  intros Hb. destruct l as [|c l]; [done|]. apply Forall_cons_1 in Hb as [Hc _]. cbn [get_unsigned]. destruct (Z.leb_spec c 0x7f).
  - intros [= <- <-]. exists [c]. split; [done|]. exists [c], 0, 0, [], []. split_and!; try done. apply HPositive. unfold is_byte, in_width in Hc. lia.
  - assert (forall w n, In (c, n) [(0xca, 4); (0xcb, 8); (0xcc, 1); (0xcd, 2); (0xce, 4); (0xcf, 8)] -> Z.of_nat w = n ->
      (if (length l <? w)%nat then Some None else b ← memread l 0 w; Some (Some (shift_bytes b, drop w l))) = Some (Some (v, l1)) -> exists obj, c :: l = obj ++ l1 /\ msgpack 1 obj) as Hw.
    { intros w n Hin Hn. destruct (Nat.ltb_spec (length l) w); [done|]. rewrite memread_in by lia. cbn [mbind option_bind]. intros [= _ <-]. exists (c :: take w l). split; [cbn; by rewrite take_drop|].
      apply (scalar_msgpack c n 0); [done|]. rewrite length_take. lia. }
    destruct (Z.eqb_spec c 0xcc) as [->|]; [apply (Hw 1%nat 1); cbn; tauto|]. destruct (Z.eqb_spec c 0xcd) as [->|]; [apply (Hw 2%nat 2); cbn; tauto|].
    destruct (Z.eqb_spec c 0xce) as [->|]; [apply (Hw 4%nat 4); cbn; tauto|]. destruct (Z.eqb_spec c 0xcf) as [->|]; [apply (Hw 8%nat 8); cbn; tauto|done].
Qed.

Lemma get_expiry_msgpack l v l1 : bytes_ok l -> get_expiry l = Some (Some (v, l1)) -> exists obj, l = obj ++ l1 /\ msgpack 1 obj.
Proof.
  intros Hb. destruct l as [|c l]; [done|]. cbn [get_expiry]. destruct (negb _ && negb _) eqn:Ec; [by apply get_unsigned_msgpack|]. intros E.
  apply bind_Some in E as (x & Ex & E). destruct x as [[d l2]|]; [|done]. assert (l1 = l2) as ->.
  { destruct (_ || _); [done|]. apply bind_Some in E as (e & _ & E). by injection E as _ <-. }
  destruct (Z.eqb_spec c 0xca) as [->|Hca]; [|destruct (Z.eqb_spec c 0xcb) as [->|]; [|done]].
  - destruct (Nat.ltb_spec (length l) 4); [done|]. apply bind_Some in Ex as (b & _ & Ex). injection Ex as _ <-. exists (0xca :: take 4 l). split; [cbn [app]; by rewrite take_drop|]. apply (scalar_msgpack 0xca 4 0); [cbn; tauto|]. rewrite length_take. lia.
  - destruct (Nat.ltb_spec (length l) 8); [done|]. apply bind_Some in Ex as (b & _ & Ex). apply bind_Some in Ex as (b' & _ & Ex). injection Ex as _ <-. exists (0xcb :: take 8 l). split; [cbn [app]; by rewrite take_drop|].
    apply (scalar_msgpack 0xcb 8 0); [cbn; tauto|]. rewrite length_take. lia.
Qed.

Lemma get_count_header l n l1 : bytes_ok l -> get_container_count 0xf0 0x90 0xdc 0xdd l = Some (Some (n, l1)) -> exists c t, l = (c :: t) ++ l1 /\ header (c :: t) 0 n /\ single_byte c = false.
Proof.
  intros Hb. destruct l as [|c l]; [done|]. apply Forall_cons_1 in Hb as [Hc Hb]. cbn [get_container_count]. destruct (Z.eqb_spec (Z.land c 0xf0) 0x90) as [E|].
  - intros [= <- <-]. exists c, []. assert (forallb (λ c, negb (Z.land c 0xf0 =? 0x90) || ((0 <=? c - 0x90) && (c - 0x90 <? 16) && (Z.land c (Z.lxor 0xf0 0xff) =? c - 0x90) && negb (single_byte c))) (seqZ 0 256) = true) as H by done.
    apply (forall_below 256 _ H) in Hc. rewrite E in Hc. cbn [Z.eqb Pos.eqb negb orb] in Hc. apply andb_prop in Hc as [[[H1%Z.leb_le H2%Z.ltb_lt]%andb_prop H3%Z.eqb_eq]%andb_prop H4%negb_true_iff].
    split; [done|]. split; [|done]. rewrite H3. replace c with (0x90 + (c - 0x90)) at 1 by lia. by apply HFixArray.
  - assert (forall w, In (c, w) [(0xdc, 2%nat); (0xdd, 4%nat)] -> single_byte c = false -> size_field w l = Some (Some (n, l1)) -> exists c0 t, c :: l = (c0 :: t) ++ l1 /\ header (c0 :: t) 0 n /\ single_byte c0 = false) as Hw.
    { intros w Hin Hs. assert (In w [1; 2; 4]%nat) as Hw by (cbn [In] in *; destruct Hin as [[= _ <-]|[[= _ <-]|[]]]; tauto). rewrite size_field_spec by done. destruct (Nat.ltb_spec (length l) w) as [|Hl]; [done|]. intros [= <- <-].
      assert (bytes_ok (take w l)) as Ht by (by apply Forall_take). pose proof (be_decode_bounds (take w l) Ht) as Hd. rewrite length_take, Nat.min_l in Hd by lia.
      exists c, (take w l). split; [cbn; by rewrite take_drop|]. split; [|done]. rewrite <-(be_encode_decode (take w l)) at 1 by done. rewrite length_take, Nat.min_l by lia. by apply HArray. }
    destruct (Z.eqb_spec c 0xdc) as [->|]; [apply (Hw 2%nat); [cbn; tauto|done]|]. destruct (Z.eqb_spec c 0xdd) as [->|]; [apply (Hw 4%nat); [cbn; tauto|done]|done].
Qed.

(** The value of the ticket field ends where the other reader says. *)
Lemma ticket_value_skip l t l1 levels r r1 : bytes_ok l -> Z.of_nat (length l) < 2 ^ 32 -> ticket_value l = Some (Some (t, l1)) -> rest r = l -> skip levels r = Some (Some (tt, r1)) -> rest r1 = l1.
Proof.
  intros Hb Hl Hv Er Hs. unfold ticket_value in Hv. apply bind_Some in Hv as (x & Ec & Hv). destruct x as [[n l2]|]; [|done]. destruct (Z.eqb_spec n 2) as [->|]; cbn [negb] in Hv; [|done].
  destruct (get_count_header l 2 l2 Hb Ec) as (c & h & El & Hh & Hc). rewrite El in Hb, Hl. destruct (reads_suffix _ _ Hb Hl) as [Hb2 Hl2].
  apply bind_Some in Hv as (x & Ee & Hv). destruct x as [[e l3]|]; [|done]. destruct (get_expiry_msgpack l2 e l3 Hb2 Ee) as (o1 & E2 & Ho1). rewrite E2 in Hb2, Hl2. destruct (reads_suffix _ _ Hb2 Hl2) as [Hb3 Hl3].
  apply bind_Some in Hv as (x & Eb & Hv). destruct x as [[d l4]|]; [|done]. destruct (negb _); [done|]. injection Hv as _ ->.
  unfold get_bin in Eb. apply bind_Some in Eb as (x & Eo & Eb). destruct x as [l5|]; [|done]. assert (l5 = l1) as ->.
  { apply bind_Some in Eb as (c0 & _ & Eb). apply bind_Some in Eb as (hn & _ & Eb). destruct hn as [[hd n]|]; [|done]. apply bind_Some in Eb as (data & _ & Eb). by injection Eb as _ <-. }
  destruct levels as [|levels]; [done|]. cbn [skip] in Hs. apply rbind_inv in Hs as (c' & ra & En & Hs). unfold next_code in En. rewrite Er, El in En. cbn [app] in En. destruct (FIELDS_MAX_ITEMS <=? items r); [done|].
  injection En as <- <-. fold (single_byte c) in Hs. rewrite Hc in Hs. apply rbind_inv in Hs as (s & rb & Es & Hs). destruct (sizes_header c h 0 2 _ _ Hh Hc s rb Es) as [-> ->]. cbn [fst snd] in Hs.
  apply rbind_inv in Hs as (x & rc & Ea & Hs). rewrite (advance_app [] l2) in Ea. injection Ea as <- <-. apply require_inv in Hs as [_ Hs]. change (Z.to_nat 2) with 2%nat in Hs. cbn [times] in Hs.
  apply rbind_inv in Hs as ([] & rd & E1 & Hs). pose proof (skip_msgpack 1 o1 Ho1 levels {| rest := l2; items := items r + 1 |} l3 rd E2 E1) as Ed. apply rbind_inv in Hs as ([] & re & E3 & Hs). injection Hs as <-.
  by apply (skip_both l3 l1 levels rd).
Qed.

(** ** Scanning the map *)

Definition is_ticket (key : Z) : bool := key =? LXMF_FIELD_TICKET.

Lemma skip_room r x : skip_any r = Some (Some x) -> items r < FIELDS_MAX_ITEMS.
Proof.
  unfold skip_any. cbn [skip]. intros E. apply rbind_inv in E as (c & r1 & En & _). unfold next_code in En. destruct (rest r); [done|]. destruct (Z.leb_spec FIELDS_MAX_ITEMS (items r)); [done|lia].
Qed.

Lemma ticket_value_present l t l1 : ticket_value l = Some (Some (t, l1)) -> present t = true.
Proof.
  unfold ticket_value. intros E. apply bind_Some in E as (x & _ & E). destruct x as [[n l2]|]; [|done]. destruct (negb _); [done|]. apply bind_Some in E as (x & _ & E). destruct x as [[e l3]|]; [|done].
  apply bind_Some in E as (x & _ & E). destruct x as [[d l4]|]; [|done]. destruct (negb _); [done|]. by injection E as <- _.
Qed.

(** An entry under another key, as the parser of the ticket field sees it. *)
Lemma entry_other e tl i : entry_ok e -> i + e_items e <= FIELDS_MAX_ITEMS -> hit is_ticket e = false -> bytes_ok (e_bytes e ++ tl) -> Z.of_nat (length (e_bytes e ++ tl)) < 2 ^ 32 ->
  skip_obj LEVELS (e_bytes e ++ tl) = Some (Some (e_value e ++ tl)) -> skip_obj LEVELS (e_value e ++ tl) = Some (Some tl) -> other_entry (e_bytes e).
Proof.
  intros He Hi Hh Hb Hl H1 H2. unfold e_bytes in *. rewrite <-app_assoc in *. destruct (reads_suffix _ _ Hb Hl) as [Hb1 Hl1].
  destruct (skip_obj_spec _ Hb Hl) as (x & Ex & Hx). rewrite H1 in Ex. injection Ex as <-. destruct (proj1 (Hx _) eq_refl) as (k & Ek & Hk). apply app_inv_tail in Ek as <-.
  destruct (skip_obj_spec _ Hb1 Hl1) as (y & Ey & Hy). rewrite H2 in Ey. injection Ey as <-. destruct (proj1 (Hy _) eq_refl) as (v & Ev & Hv). apply app_inv_tail in Ev as <-.
  exists (e_key e), (e_value e). split_and!; [done|rewrite app_assoc in Hb; by apply Forall_app in Hb as [? _]|done|done|]. intros rest_ x Hg. destruct (skip_entry e tl i He Hi) as [Hs _]. pose proof (skip_room _ _ Hs) as Hroom. cbn [items] in Hroom.
  destruct (unsigned_agree {| rest := e_key e ++ rest_; items := i |} Hroom) as (y & Ey & Eu). cbn [rest items] in Ey, Eu. rewrite Hg in Ey. subst y. destruct (eo_items _ He).
  rewrite (eo_int _ He) in Eu by (unfold e_items in Hi; lia). cbn [mbind option_bind] in Eu. unfold hit, is_ticket in Hh. destruct x as [v l]. cbn [behind fst] in *. destruct (e_int e) as [k|]; [|done]. injection Eu as -> _. by apply Z.eqb_neq.
Qed.

(** The parser of the ticket field walks over the same entries, and there is at most one
    ticket among them. *)
Lemma ticket_scan es : Forall entry_ok es -> forall fuel t t' l tl i, bytes_ok (all_bytes es ++ tl) -> Z.of_nat (length (all_bytes es ++ tl)) < 2 ^ 32 -> i + all_items es <= FIELDS_MAX_ITEMS ->
  ticket_entries fuel (Z.of_nat (length es)) t (all_bytes es ++ tl) = Some (Some (t', l)) ->
  l = tl /\ Forall (λ e, other_entry (e_bytes e)) (others is_ticket es) /\ (Nat.b2n (present t') + length (others is_ticket es) = Nat.b2n (present t) + length es)%nat.
Proof.
  induction 1 as [|e es He Hes IH]; intros fuel t t' l tl i Hb Hl Hi E.
  { destruct fuel; injection E as <- <-; (split_and!; [done|constructor|done]). }
  rewrite all_items_cons in Hi. pose proof (all_items_pos es Hes). change (all_bytes (e :: es)) with (e_bytes e ++ all_bytes es) in *. rewrite <-app_assoc in *. set (more := all_bytes es ++ tl) in *.
  destruct (skip_entry e more i He ltac:(lia)) as [H1 H2]. pose proof (key_entry e more i He ltac:(lia)) as Hk. destruct (unsigned_agree _ (skip_room _ _ H1)) as (key & Ekey & Eu). cbn [rest items] in Ekey, Eu.
  destruct (get_unsigned_reads _ Hb Hl) as (x & Ex & _). rewrite Ex in Ekey. subst key. cbn [mbind option_bind] in Eu. destruct fuel as [|fuel]; cbn [ticket_entries length] in E; rewrite (proj2 (Z.leb_gt _ _)) in E by lia; [done|].
  rewrite Ex in E. cbn [mbind option_bind] in E. apply bind_Some in E as (y & Ey & E). destruct y as [l1|]; [|done]. assert (l1 = e_value e ++ more) as -> by (symmetry; exact (skip_both _ l1 _ {| rest := e_bytes e ++ more; items := i |} _ Hb Hl Ey eq_refl H1)).
  assert (bytes_ok (e_value e ++ more) /\ Z.of_nat (length (e_value e ++ more)) < 2 ^ 32) as [Hb1 Hl1] by (unfold e_bytes in Hb, Hl; rewrite <-app_assoc in Hb, Hl; by apply reads_suffix in Hl).
  assert ((match x with Some (k, _) => k =? LXMF_FIELD_TICKET | None => false end) = hit is_ticket e) as Ehit.
  { rewrite Hk in Eu. unfold hit, is_ticket. destruct x as [[v lv]|], (e_int e) as [k|]; cbn [behind] in Eu; try done. by injection Eu as -> _. }
  rewrite Ehit in E. replace (Z.of_nat (S (length es)) - 1) with (Z.of_nat (length es)) in E by lia. destruct (reads_suffix _ _ Hb1 Hl1) as [Hb2 Hl2]. rewrite others_cons. destruct (hit is_ticket e) eqn:Eh.
  - destruct (present t) eqn:Ep; [done|]. apply bind_Some in E as (z & Ez & E). destruct z as [[t1 l2]|]; [|done]. assert (l2 = more) as -> by (symmetry; exact (ticket_value_skip _ t1 l2 _ {| rest := e_value e ++ more; items := i + e_ki e |} _ Hb1 Hl1 Ez eq_refl H2)).
    destruct (IH fuel t1 t' l tl (i + e_items e) Hb2 Hl2 ltac:(lia) E) as (-> & Ho & Hn). rewrite (ticket_value_present _ _ _ Ez) in Hn. split_and!; [done|done|]. cbn [Nat.b2n length] in *. lia.
  - apply bind_Some in E as (z & Ez & E). destruct z as [l2|]; [|done]. assert (l2 = more) as -> by (symmetry; exact (skip_both _ l2 _ {| rest := e_value e ++ more; items := i + e_ki e |} _ Hb1 Hl1 Ez eq_refl H2)).
    destruct (IH fuel t t' l tl (i + e_items e) Hb2 Hl2 ltac:(lia) E) as (-> & Ho & Hn). split_and!; [done|constructor; [|done]|cbn [length]; lia]. apply (entry_other e more i He ltac:(lia) Eh Hb Hl Ey Ez).
Qed.

(** Both readers take the head of a map. *)
Lemma container_count l n r : bytes_ok l -> container true (start l) = Some (Some (n, r)) -> get_container_count 0xf0 0x80 0xde 0xdf l = Some (Some (n, rest r)).
Proof.
  intros Hb. unfold container, rbind at 1, next_code, start. cbn [rest items]. destruct l as [|c l]; [done|]. apply Forall_cons_1 in Hb as [Hc Hb]. change (FIELDS_MAX_ITEMS <=? 0) with false. cbn [negb andb orb get_container_count].
  destruct (Z.eqb_spec (Z.land c 0xf0) 0x80) as [E|].
  - unfold ret. intros E1. injection E1 as En Er. rewrite <-En, <-Er. reflexivity.
  - assert (forall w, In w [1; 2; 4]%nat -> (let* n := number w in let* _ := require (n <=? FIELDS_MAX_ITEMS) in ret n) {| rest := l; items := 0 + 1 |} = Some (Some (n, r)) -> size_field w l = Some (Some (n, rest r))) as Hw.
    { intros w Hw E. destruct (number_size w l (0 + 1) Hw Hb) as (x & Ex & En). unfold rbind at 1 in E. rewrite En in E. destruct x as [[v l1]|]; [|done]. cbn [behind] in E. apply require_inv in E as [_ E]. injection E as <- <-. done. }
    destruct (c =? 0xde); [apply Hw; cbn; tauto|]. destruct (c =? 0xdf); [apply Hw; cbn; tauto|done].
Qed.

(** What the copying loop has walked over. *)
Lemma copy_scan p n r kept w cap acc : bytes_ok (rest r) -> written (length (wbuf w)) cap w acc ->
  exists x, copy_others p n r kept w = Some x /\
    forall k w', x = inr (k, w') -> exists es tl, length es = n /\ Forall entry_ok es /\ rest r = all_bytes es ++ tl /\ (es = [] \/ items r + all_items es <= FIELDS_MAX_ITEMS).
Proof.
  revert r kept w acc. induction n as [|n IH]; intros r kept w acc Hb Hw; cbn [copy_others].
  { eexists. split; [done|]. intros _ _ _. exists [], (rest r). split_and!; [done|constructor|done|by left]. }
  unfold entry_bytes, keyed, peek. unfold rbind at 1 2. destruct (st_total steady_unsigned r Hb) as [k Hk]. rewrite Hk. unfold ret.
  destruct (st_total steady_skip_any r Hb) as [[[[] r1]|] H1]; unfold rbind; rewrite H1; cbn [mbind option_bind]; [|by eexists]. destruct (steady_rest _ _ r _ _ steady_skip_any Hb H1) as [Hb1 _].
  destruct (st_total steady_skip_any r1 Hb1) as [[[[] r2]|] H2]; rewrite H2; cbn [mbind option_bind]; [|by eexists]. destruct (steady_rest _ _ r1 _ _ steady_skip_any Hb1 H2) as [Hb2 _].
  destruct (scan_entry r r1 r2 Hb H1 H2) as (e & He & Er & _ & Ei & Hmax & _).
  assert (forall kept w acc, written (length (wbuf w)) cap w acc -> exists x, copy_others p n r2 kept w = Some x /\ forall k w', x = inr (k, w') ->
    exists es tl, length es = S n /\ Forall entry_ok es /\ rest r = all_bytes es ++ tl /\ (es = [] \/ items r + all_items es <= FIELDS_MAX_ITEMS)) as Hnext.
  { intros kept1 w1 acc1 Hw1. destruct (IH r2 kept1 w1 acc1 Hb2 Hw1) as (x & -> & Hx). exists x. split; [done|]. intros k0 w' E. destruct (Hx k0 w' E) as (es & tl & Hlen & Hes & Er2 & Hm).
    exists (e :: es), tl. split_and!; [by cbn; rewrite Hlen|by constructor|rewrite Er, Er2; change (all_bytes (e :: es)) with (e_bytes e ++ all_bytes es); by rewrite app_assoc|]. right. rewrite all_items_cons. destruct Hm as [->|Hm]; [cbn; lia|lia]. }
  destruct (match fst <$> k with Some _ => _ | None => _ end); [by apply (Hnext _ _ acc)|].
  match goal with |- context [put w ?bs] => destruct (writes_put (length (wbuf w)) cap bs w acc Hw) as (ok & w1 & Ep & Hlen & _ & Hw1); change (put w bs) with (Lxmf.put w bs); rewrite Ep end.
  cbn [mbind option_bind]. destruct ok; [|by eexists]. eapply Hnext. rewrite Hlen. by apply Hw1.
Qed.

(** ** The ticket that is written *)

Definition ticket_in (t : lxmf_ticket_field) : Prop := in_width 64 t.(expires_at) /\ bytes_ok t.(ticket) /\ length t.(ticket) = 16%nat.

Definition ticket_value_image (t : lxmf_ticket_field) : list Z := head 4 2 ++ head 0 t.(expires_at) ++ blob_image false (SBytes t.(ticket)).
Definition ticket_written (t : lxmf_ticket_field) : entry := {| e_key := head 0 LXMF_FIELD_TICKET; e_value := ticket_value_image t; e_ki := 1; e_vi := 3; e_int := Some LXMF_FIELD_TICKET |}.

Lemma ticket_blob t : ticket_in t -> slice_bad (SBytes (ticket t)) = false /\ Z.of_nat (slice_length (SBytes (ticket t))) <= LXMF_STANDARD_MAX_MEDIA_BYTES.
Proof. intros (_ & _ & Hl). split; [done|]. cbn [slice_length]. rewrite Hl. unfold LXMF_STANDARD_MAX_MEDIA_BYTES. lia. Qed.

Lemma writes_ticket n cap t : ticket_in t -> writes n cap (put_ticket t) (e_bytes (ticket_written t)).
Proof.
  intros Ht. destruct (ticket_blob t Ht). unfold put_ticket, e_bytes, ticket_written, ticket_value_image. cbn [e_key e_value]. apply writes_and_then; [by apply writes_number|].
  apply writes_and_then; [by apply (writes_container n cap false)|]. apply writes_and_then; [by apply writes_number; destruct Ht|]. by apply (writes_slice n cap false).
Qed.

Lemma ticket_value_ok t : ticket_in t -> bytes_ok (ticket_value_image t).
Proof. intros (_ & Hb & _). apply Forall_app. split; [apply head_ok|]. apply Forall_app. split; [apply head_ok|by apply blob_image_ok]. Qed.

(** The value read by the steps of the other reader. *)
Definition read_ticket : R (Z * list Z) :=
  let* n := container false in
  let* _ := require (n =? 2) in
  let* e := unsigned_value in
  let* b := bytes_value false in
  ret (e, b).

Lemma walks_ticket levels : walks (S (S levels)) 1 read_ticket.
Proof.
  unfold read_ticket. apply walks_container.
  - intros n _ r a r' Hb E. apply require_inv in E as [->%Z.eqb_eq E]. apply rbind_inv in E as (e & r1 & E1 & E). apply rbind_inv in E as (b & r2 & E2 & E). unfold ret in E. injection E as _ <-.
    destruct (steady_rest _ _ _ _ _ steady_unsigned Hb E1) as [Hb1 _]. match goal with |- times ?f ?n ?r = _ => change (times f (1 + 1) r = Some (Some (tt, r2))) end. rewrite times_add. unfold rbind.
    rewrite (walks_unsigned levels r e r1 Hb E1). by apply (walks_bytes levels false r1 b).
  - done.
Qed.

Lemma consumes_ticket t : ticket_in t -> consumes read_ticket (ticket_value_image t) 3 (expires_at t, ticket t).
Proof.
  intros Ht. destruct (ticket_blob t Ht). unfold read_ticket, ticket_value_image. eapply (consumes_then _ _ _ 1 2 _ 2); [lia|done|done|by apply (consumes_head_container false)|]. apply consumes_require; [done|].
  eapply (consumes_then _ _ _ 1 (expires_at t) _ 1); [lia|done|done|apply consumes_head_unsigned; by destruct Ht|].
  eapply (consumes_then _ _ _ 1 (ticket t) [] 0); [lia|by rewrite app_nil_r|done|by apply (consumes_blob false (SBytes (ticket t)))|apply consumes_ret].
Qed.

Lemma ticket_written_ok t : ticket_in t -> entry_ok (ticket_written t).
Proof.
  intros Ht. constructor; cbn [ticket_written e_key e_value e_ki e_vi e_int].
  - apply (consumes_skip unsigned_value _ _ LXMF_FIELD_TICKET); [apply head_ok|apply walks_unsigned|by apply consumes_head_unsigned].
  - apply (consumes_skip read_ticket _ _ (expires_at t, ticket t)); [by apply ticket_value_ok|apply walks_ticket|by apply consumes_ticket].
  - lia.
  - by apply consumes_head_unsigned.
Qed.

(** ** The ticket is found again *)

Lemma get_unsigned_head v tl : in_width 64 v -> get_unsigned (head 0 v ++ tl) = Some (Some (v, tl)).
Proof.
  intros Hv. destruct (unsigned_agree {| rest := head 0 v ++ tl; items := 0 |} eq_refl) as (x & Ex & Eu). cbn [rest items] in Ex, Eu. rewrite (consumes_head_unsigned v Hv) in Eu by (unfold FIELDS_MAX_ITEMS; lia).
  rewrite Ex. destruct x as [[[w l]|]|]; [|done..]. cbn [mbind option_bind behind] in Eu. by injection Eu as -> ->.
Qed.

Lemma get_expiry_head v tl : in_width 64 v -> get_expiry (head 0 v ++ tl) = Some (Some (v, tl)).
Proof.
  intros Hv. pose proof (get_unsigned_head v tl Hv) as Hu. assert (exists c l, head 0 v = c :: l /\ c <> 0xca /\ c <> 0xcb) as (c & l & Eh & H1 & H2).
  { unfold head, head_bytes. cbn [Z.eqb]. unfold in_width in Hv. destruct (Z.leb_spec v 0x7f); [rewrite wrap_small by (unfold in_width; lia)|repeat case_match]; cbn [default]; eexists _, _; (split; [done|lia]). }
  rewrite Eh in *. cbn [app get_expiry] in *. rewrite (proj2 (Z.eqb_neq c 0xca)), (proj2 (Z.eqb_neq c 0xcb)) by done. done.
Qed.

Lemma ticket_value_read t tl : ticket_in t -> present t = true -> bytes_ok tl -> Z.of_nat (length (ticket_value_image t ++ tl)) < 2 ^ 32 -> ticket_value (ticket_value_image t ++ tl) = Some (Some (t, tl)).
Proof.
  intros (He & Hb & Hl) Hp Htl Hlen. assert (blob_image false (SBytes (ticket t)) = bin_image (ticket t)) as Ebin by (unfold blob_image, bin_image; cbn [slice_length slice_bytes]; by rewrite Hl).
  unfold ticket_value_image in *. rewrite Ebin in *. rewrite <-!app_assoc in *. change (head 4 2) with [0x92] in *. unfold ticket_value. cbn [app]. cbn [get_container_count]. change (Z.land 0x92 0xf0 =? 0x90) with true. cbn [mbind option_bind].
  change (Z.land 0x92 (Z.lxor 0xf0 0xff) =? 2) with true. cbn [negb]. rewrite (bind_Some_eq _ _ _ (get_expiry_head (expires_at t) _ He)).
  rewrite (bind_Some_eq _ _ _ (get_bin_put (ticket t) tl Hb Htl ltac:(rewrite !length_app in *; lia))). rewrite Hl. cbn. destruct t as [p e k]. cbn in *. by subst p.
Qed.

Lemma ticket_taken t fuel n u tl : ticket_in t -> present t = true -> present u = false -> bytes_ok tl -> Z.of_nat (length (e_bytes (ticket_written t) ++ tl)) < 2 ^ 32 -> 0 < n ->
  ticket_entries (S fuel) n u (e_bytes (ticket_written t) ++ tl) = ticket_entries fuel (n - 1) t tl.
Proof.
  intros Ht Hp Hu Hb Hl Hn. unfold e_bytes in *. cbn [ticket_written e_key e_value] in *. rewrite <-app_assoc in *. change (head 0 LXMF_FIELD_TICKET) with [LXMF_FIELD_TICKET] in *.
  assert (bytes_ok (ticket_value_image t ++ tl)) as Hb1 by (apply Forall_app; split; [by apply ticket_value_ok|done]). assert (bytes_ok ([LXMF_FIELD_TICKET] ++ ticket_value_image t ++ tl)) as Hb2 by (by constructor).
  cbn [ticket_entries]. rewrite (proj2 (Z.leb_gt _ _)) by done. rewrite (bind_Some_eq _ _ _ (get_unsigned_head LXMF_FIELD_TICKET _ ltac:(done))).
  rewrite (bind_Some_eq _ _ (Some (ticket_value_image t ++ tl))) by (apply skip_obj_app; [done|done|]; exists [LXMF_FIELD_TICKET], 0, 0, [], []; split_and!; try done; apply HPositive; unfold LXMF_FIELD_TICKET; lia).
  rewrite Z.eqb_refl, Hu. rewrite (bind_Some_eq _ _ _ (ticket_value_read t tl Ht Hp Hb ltac:(cbn [app length] in Hl; lia))). done.
Qed.

Lemma ticket_after oth t fuel : Forall other_entry oth -> ticket_in t -> present t = true -> bytes_ok (concat oth ++ e_bytes (ticket_written t)) ->
  Z.of_nat (length (concat oth ++ e_bytes (ticket_written t))) < 2 ^ 32 -> (length oth + 1 <= fuel)%nat ->
  ticket_entries fuel (Z.of_nat (length oth + 1)) zero_ticket (concat oth ++ e_bytes (ticket_written t)) = Some (Some (t, [])).
Proof.
  intros Ho Ht Hp Hb Hl Hf. rewrite (skip_others_fuel oth fuel 1) by (done || lia). destruct (fuel - length oth)%nat as [|f] eqn:E; [lia|]. rewrite length_app in Hl. rewrite <-(app_nil_r (e_bytes (ticket_written t))).
  rewrite ticket_taken by (done || constructor || rewrite ?app_nil_r; lia). apply entries_done.
Qed.

(** The entries of the map after the merge. *)
Definition new_ticket (t : option lxmf_ticket_field) : list entry := match t with Some t => [ticket_written t] | None => [] end.
Definition ticket_entries_merged (t : option lxmf_ticket_field) (es : list entry) : list entry := others is_ticket es ++ new_ticket t.

Lemma ticket_reparsed t es : (forall x, t = Some x -> ticket_in x /\ present x = true) -> Forall (λ e, other_entry (e_bytes e)) (others is_ticket es) ->
  let new := ticket_entries_merged t es in
  Z.of_nat (length new) <= FIELDS_MAX_ITEMS -> Z.of_nat (length (head 5 (Z.of_nat (length new)) ++ all_bytes new)) < 2 ^ 32 ->
  lxmf_fields_parse_ticket (SBytes (head 5 (Z.of_nat (length new)) ++ all_bytes new)) = Some (LXMF_OK, Some (default zero_ticket t)).
Proof.
  intros Ht Ho new Hn Hl. pose proof (head_read (Z.of_nat (length new)) ltac:(lia)) as Hc. pose proof (Hc (all_bytes new) 0 ltac:(unfold FIELDS_MAX_ITEMS; lia)) as Eco.
  assert (Forall other_entry (e_bytes <$> others is_ticket es)) as Ho' by (by apply Forall_fmap). assert (bytes_ok (all_bytes (others is_ticket es))) as Hb1.
  { unfold all_bytes. induction Ho' as [|x l (k & v & -> & Hx & _) _ IH]; [constructor|]. cbn [concat]. apply Forall_app. done. }
  assert (bytes_ok (all_bytes new)) as Hb.
  { unfold new, ticket_entries_merged. rewrite all_bytes_app. apply Forall_app. split; [done|]. destruct t as [t|]; [|constructor]. destruct (Ht t eq_refl) as [Hin _].
    change (bytes_ok ((head 0 LXMF_FIELD_TICKET ++ ticket_value_image t) ++ [])). rewrite app_nil_r. apply Forall_app. split; [apply head_ok|by apply ticket_value_ok]. }
  assert (bytes_ok (head 5 (Z.of_nat (length new)) ++ all_bytes new)) as Hbl by (apply Forall_app; split; [apply head_ok|done]). pose proof (container_count _ _ _ Hbl Eco) as Eg. cbn [rest] in Eg.
  assert (ticket_entries (S (length (all_bytes new))) (Z.of_nat (length new)) zero_ticket (all_bytes new) = Some (Some (default zero_ticket t, []))) as Ee.
  { rewrite length_app in Hl. pose proof (entries_length _ Ho') as Hle. assert (all_bytes new = concat (e_bytes <$> others is_ticket es) ++ match t with Some t => e_bytes (ticket_written t) | None => [] end) as Enew.
    { unfold new, ticket_entries_merged. rewrite all_bytes_app. f_equal. destruct t; [|done]. unfold all_bytes. cbn [new_ticket fmap list_fmap concat]. apply app_nil_r. }
    assert (length new = length (e_bytes <$> others is_ticket es) + match t with Some _ => 1 | None => 0 end)%nat as -> by (unfold new, ticket_entries_merged; rewrite length_app, length_fmap; by destruct t).
    rewrite Enew in *. destruct t as [t|]; [destruct (Ht t eq_refl); change (default zero_ticket (Some t)) with t; apply ticket_after; [done|done|done|done|lia|rewrite length_app; lia]|].
    rewrite app_nil_r, Nat.add_0_r in *. apply others_to_the_end; [done|done|lia|lia]. }
  unfold lxmf_fields_parse_ticket. destruct (head 5 (Z.of_nat (length new)) ++ all_bytes new) as [|c l] eqn:El; [by destruct (head_nonempty true _ _ Hc); apply app_eq_nil in El as [? _]|]. rewrite <-El in Eg |- *.
  rewrite (bind_Some_eq _ _ _ Eg). by rewrite (bind_Some_eq _ _ _ Ee).
Qed.

(** ** The merge *)

Lemma parse_ticket_scan l es t : bytes_ok l -> Z.of_nat (length l) < 2 ^ 32 -> map_of l es -> lxmf_fields_parse_ticket (SBytes l) = Some (LXMF_OK, Some t) ->
  Forall (λ e, other_entry (e_bytes e)) (others is_ticket es) /\ (Nat.b2n (present t) + length (others is_ticket es) = length es)%nat.
Proof.
  intros Hb Hl (h & El & Hc & Hes & Hmax) Hp. pose proof (all_items_pos es Hes). pose proof (Hc (all_bytes es) 0 ltac:(lia)) as Eco. rewrite <-El in Eco. pose proof (container_count l _ _ Hb Eco) as Eg. cbn [rest] in Eg.
  unfold lxmf_fields_parse_ticket in Hp. destruct l as [|c l0] eqn:E0; [done|]. rewrite <-E0 in *. rewrite (bind_Some_eq _ _ _ Eg) in Hp. apply bind_Some in Hp as (x & Ex & Hp). destruct x as [[t1 [|]]|]; [|done..]. injection Hp as <-.
  rewrite El in Hb, Hl. destruct (reads_suffix _ _ Hb Hl) as [Hb1 Hl1]. rewrite <-(app_nil_r (all_bytes es)) in Ex, Hb1, Hl1. rewrite !app_nil_r in Ex.
  destruct (ticket_scan es Hes (S (length (all_bytes es))) zero_ticket t1 [] [] 1 Hb1 Hl1 ltac:(lia)) as (_ & Ho & Hn); [by rewrite app_nil_r|]. done.
Qed.

(** What the merge has written when it succeeds. *)
Lemma ticket_merge_image existing t o cap a1 a2 es buf n :
  bytes_ok (slice_bytes existing) -> (forall x, t = Some x -> ticket_in x) -> (cap <= length o)%nat -> map_of (existing_map existing) es ->
  lxmf_fields_merge_ticket existing t (Some o) cap a1 a2 = Some (LXMF_OK, Some buf, n) ->
  let new := ticket_entries_merged t es in
  (n <= bounded_capacity cap)%nat /\ take n buf = head 5 (Z.of_nat (length new)) ++ all_bytes new /\ Forall entry_ok new /\ 1 + all_items new <= FIELDS_MAX_ITEMS /\
  Z.of_nat (length new) <= FIELDS_MAX_ITEMS /\ Forall (λ e, other_entry (e_bytes e)) (others is_ticket es) /\ (forall x, t = Some x -> ticket_in x /\ present x = true).
Proof.
  intros Hb Ht Hcap Hmap E new. unfold lxmf_fields_merge_ticket in E. destruct (_ || _) eqn:Earg in E; [done|]. apply orb_false_iff in Earg as [[[_ Hsz%Z.ltb_ge]%orb_false_iff Hpres]%orb_false_iff _].
  assert (bytes_ok (existing_map existing) /\ Z.of_nat (length (existing_map existing)) < 2 ^ 32) as [Hl Hlen].
  { unfold existing_map. unfold LXMF_MAX_MESSAGE_SIZE in Hsz. destruct (_ =? _)%nat; [split; [by repeat constructor|cbn; lia]|]. split; [done|]. assert (length (slice_bytes existing) <= slice_length existing)%nat by (destruct existing; cbn; lia). lia. }
  set (l := existing_map existing) in *. apply bind_Some in E as (x & Ep & E). destruct x as [st prev]. destruct st; try done.
  destruct (fields_parse_total l Hl Hlen) as (st & prev' & Ep' & Hst & _). rewrite Ep in Ep'. injection Ep' as <- <-. destruct prev as [prev|]; [|by destruct (proj1 Hst eq_refl)].
  destruct (parse_ticket_scan l es prev Hl Hlen Hmap Ep) as [Ho Hcnt]. destruct Hmap as (h & El & Hc & Hes & Hmax). pose proof (all_items_pos es Hes).
  pose proof (Hc (all_bytes es) 0 ltac:(lia)) as Eco. rewrite <-El in Eco. change (0 + 1) with 1 in Eco. unfold start in E. rewrite Eco in E. cbn [mbind option_bind] in E.
  assert (Z.of_nat (length es) - (if present prev then 1 else 0) + (if t is Some _ then 1 else 0) = Z.of_nat (length new)) as En.
  { unfold new, ticket_entries_merged. rewrite length_app. destruct t, (present prev); cbn [Nat.b2n new_ticket length] in *; lia. }
  rewrite En in E. destruct (Z.ltb_spec FIELDS_MAX_ITEMS (Z.of_nat (length new))) as [|Hnew]; [done|]. destruct (bounded_le cap) as [Hc1 Hc2]. set (cp := bounded_capacity cap) in *.
  destruct (writes_container (length o) cp true (Z.of_nat (length new)) ltac:(lia) _ _ (writer_over_written o cp ltac:(lia))) as (ok & w & Ew & _ & _ & Hw). rewrite Ew in E. cbn [mbind option_bind] in E. destruct ok; [|done]. specialize (Hw eq_refl). cbn [app] in Hw.
  destruct (copy_others_entries is_ticket es [] 1 1 _ _ w _ Hes Hmax Hw) as (x & Ex & Hx). rewrite app_nil_r in Ex. rewrite Nat2Z.id in E. change (λ key : Z, key =? LXMF_FIELD_TICKET) with is_ticket in E. rewrite Ex in E. cbn [mbind option_bind] in E.
  destruct x as [st|[k w1]]; [injection E as -> _ _; by apply copy_others_status in Ex|]. destruct (Hx k w1 eq_refl) as [-> Hw1]. destruct (Z.ltb_spec (FIELDS_MAX_ITEMS - (if t is Some _ then 4 else 0)) (1 + all_items (others is_ticket es))) as [|Hk]; [done|].
  assert (writes (length o) cp (λ w, match t with Some t => put_ticket t w | None => Some (true, w) end) (all_bytes (new_ticket t))) as Hwt.
  { destruct t as [t|]; [|apply writes_nil]. unfold all_bytes. cbn [new_ticket fmap list_fmap concat]. rewrite app_nil_r. apply writes_ticket. by apply Ht. }
  destruct (Hwt w1 _ Hw1) as (ok & w2 & Ew2 & _ & _ & Hw2). rewrite Ew2 in E. cbn [mbind option_bind] in E. destruct ok; [|done]. specialize (Hw2 eq_refl). injection E as <- <-.
  rewrite <-app_assoc, <-all_bytes_app in Hw2. fold (ticket_entries_merged t es) in Hw2. fold new in Hw2. destruct Hw2 as [(_ & Hbuf & _) _ Hleft Hc3]. destruct (others_ok is_ticket es Hes) as (Hoo & _ & _).
  split; [lia|]. split; [|split_and!; [| |done|done|]].
  - rewrite Hleft. set (A := head _ _ ++ all_bytes new) in *. by replace (cp - (cp - length A))%nat with (length A) by lia.
  - apply Forall_app. split; [done|]. destruct t as [t|]; [|constructor]. constructor; [|constructor]. by apply ticket_written_ok, Ht.
  - unfold new, ticket_entries_merged. rewrite all_items_app. destruct t; cbn [new_ticket all_items foldr] in *; unfold e_items; cbn [ticket_written e_ki e_vi]; lia.
  - intros x ->. split; [by apply Ht|]. by apply negb_false_iff in Hpres.
Qed.

Lemma absorbs_unmasked f es f' : absorbs f es f' -> absorbs f (others is_ticket es) f'.
Proof.
  assert (forall e, hit is_ticket e = true -> key_mask e = 0) as Hz.
  { intros e. unfold hit, is_ticket, key_mask. destruct (e_int e); [|done]. by intros ->%Z.eqb_eq. }
  induction 1 as [f|f e es f' Hmask Ha IH|f e es f' g Hin Hz0 Hg Ha IH]; [constructor|..]; rewrite others_cons; destruct (hit is_ticket e) eqn:Eh; [done|by apply absorbs_other| |by apply (absorbs_field _ _ _ _ g)].
  rewrite (Hz e Eh) in Hin. by apply mask_nonzero in Hin.
Qed.

(** The merge returns, and when it succeeds the input is a map. *)
Lemma ticket_merge_total existing t o cap a1 a2 :
  bytes_ok (slice_bytes existing) -> (forall x, t = Some x -> ticket_in x) -> (cap <= length o)%nat ->
  exists st out n, lxmf_fields_merge_ticket existing t (Some o) cap a1 a2 = Some (st, out, n) /\ (st = LXMF_OK -> is_Some out /\ exists es, map_of (existing_map existing) es).
Proof.
  intros Hb Ht Hcap. unfold lxmf_fields_merge_ticket. destruct (_ || _) eqn:Earg; [by eexists _, _, _|]. apply orb_false_iff in Earg as [[[_ Hsz%Z.ltb_ge]%orb_false_iff _]%orb_false_iff _].
  assert (bytes_ok (existing_map existing) /\ Z.of_nat (length (existing_map existing)) < 2 ^ 32) as [Hl Hlen].
  { unfold existing_map. unfold LXMF_MAX_MESSAGE_SIZE in Hsz. destruct (_ =? _)%nat; [split; [by repeat constructor|cbn; lia]|]. split; [done|]. assert (length (slice_bytes existing) <= slice_length existing)%nat by (destruct existing; cbn; lia). lia. }
  set (l := existing_map existing) in *. destruct (fields_parse_total l Hl Hlen) as (st & prev & Ep & Hst & _). rewrite Ep. cbn [mbind option_bind]. destruct st; try by eexists _, _, _. destruct (proj1 Hst eq_refl) as [pv ->].
  destruct (st_total (steady_container true) (start l) Hl) as [x Eco]. rewrite Eco. cbn [mbind option_bind]. destruct x as [[c r]|]; [|by eexists _, _, _].
  destruct (st_local (steady_container true) (start l) c r Hl Eco) as (h & j & El & Ei & _ & _ & [Hc0 _] & Hch). cbn [start rest items] in El, Ei. pose proof (container_items true (start l) c r Eco) as Hj. cbn [start items] in Hj. assert (j = 1) as -> by lia.
  pose proof Hl as Hb1. rewrite El in Hb1. apply Forall_app in Hb1 as [_ Hb1]. destruct (Z.ltb_spec FIELDS_MAX_ITEMS (c - (if present pv then 1 else 0) + (if t is Some _ then 1 else 0))); [by eexists _, _, _|].
  destruct (bounded_le cap) as [Hc1 Hc2]. set (cp := bounded_capacity cap) in *. set (N := c - _ + _) in *.
  assert (exists ok w, put_head 5 N (writer_over o cp) = Some (ok, w) /\ (ok = true -> exists acc, written (length o) cp w acc)) as (ok & w & Ew & Hw).
  { destruct (decide (0 <= N)) as [HN|HN].
    - destruct (writes_container (length o) cp true N ltac:(lia) _ _ (writer_over_written o cp ltac:(lia))) as (ok & w & Ew & _ & _ & Hw). exists ok, w. split; [done|]. intros E. eexists. by apply Hw.
    - unfold put_head. destruct (head_bytes 5 N) as [b|]; [|by exists false, (writer_over o cp)]. destruct (writes_put (length o) cp b _ _ (writer_over_written o cp ltac:(lia))) as (ok & w & Ew & _ & _ & Hw).
      exists ok, w. split; [done|]. intros E. eexists. by apply Hw. }
  rewrite Ew. cbn [mbind option_bind]. destruct ok; [|by eexists _, _, _]. destruct (Hw eq_refl) as [acc Hacc]. assert (length (wbuf w) = length o) as Hlw by apply Hacc.
  destruct (copy_scan is_ticket (Z.to_nat c) r 1 w cp acc Hb1 ltac:(by rewrite Hlw)) as (x & Ex & Hx). change (λ key : Z, key =? LXMF_FIELD_TICKET) with is_ticket. rewrite Ex. cbn [mbind option_bind].
  destruct x as [st|[k w1]]; [exists st, None, 0%nat; split; [done|]; intros ->; by apply copy_others_status in Ex|]. destruct (Hx k w1 eq_refl) as (es & tl & Hes1 & Hes & Er & Hmax).
  assert (items r + all_items es <= FIELDS_MAX_ITEMS) as Hit by (destruct Hmax as [->|?]; [cbn; unfold FIELDS_MAX_ITEMS; lia|done]). rewrite Hj in Hit. assert (r = {| rest := all_bytes es ++ tl; items := 1 |}) as -> by (rewrite <-Er, <-(reader_eta r) at 1; by rewrite Hj).
  assert (tl = []) as ->.
  { pose proof (container_count l _ _ Hl Eco) as Eg. cbn [rest] in Eg, Hb1. unfold lxmf_fields_parse_ticket in Ep. destruct l as [|c0 l0] eqn:E0; [done|]. rewrite <-E0 in *. rewrite (bind_Some_eq _ _ _ Eg) in Ep.
    apply bind_Some in Ep as (y & Ey & Ep). destruct y as [[t1 [|]]|]; [|done..]. cbn [rest] in El. rewrite El in Hlen. rewrite length_app in Hlen. replace c with (Z.of_nat (length es)) in Ey by lia.
    by destruct (ticket_scan es Hes _ _ _ _ _ 1 Hb1 ltac:(lia) Hit Ey) as (-> & _ & _). }
  rewrite app_nil_r in *. destruct (copy_others_entries is_ticket es [] 1 1 _ _ w _ Hes Hit Hacc) as (y & Ey & Hy). rewrite app_nil_r, Hes1, Ex in Ey. injection Ey as <-. destruct (Hy k w1 eq_refl) as [_ Hw1].
  destruct (_ <? k); [by eexists _, _, _|].
  assert (exists ok w2, (match t with Some t => put_ticket t w1 | None => Some (true, w1) end) = Some (ok, w2)) as (ok & w2 & Ew2).
  { destruct t as [t|]; [|by eexists _, _]. destruct (writes_ticket (length o) cp t (Ht t eq_refl) w1 _ Hw1) as (ok & w2 & -> & _). by eexists _, _. }
  rewrite Ew2. cbn [mbind option_bind]. destruct ok; [|by eexists _, _, _]. eexists _, _, _. split; [done|]. intros _. split; [by eexists|]. exists es, h. rewrite Hes1, Z2Nat.id by done. split_and!; done.
Qed.

(** C19: Merging a ticket, or removing one, into any bytes is memory safe. When it succeeds
    the parser of the ticket field finds the new ticket, or none, in the result, and the
    standard fields parse as they did before. *)
Theorem ticket_merge_parse existing t o cap a1 a2 :
  bytes_ok (slice_bytes existing) -> (forall x, t = Some x -> ticket_in x) -> (cap <= length o)%nat ->
  exists st out n, lxmf_fields_merge_ticket existing t (Some o) cap a1 a2 = Some (st, out, n) /\
    (st = LXMF_OK -> exists buf, out = Some buf /\ (n <= cap)%nat /\
      lxmf_fields_parse_ticket (SBytes (take n buf)) = Some (LXMF_OK, Some (default zero_ticket t)) /\
      forall old, lxmf_standard_fields_parse (SBytes (existing_map existing)) = Some (LXMF_OK, Some old) ->
        lxmf_standard_fields_parse (SBytes (take n buf)) = Some (LXMF_OK, Some old)).
Proof.
  intros Hb Ht Hcap. destruct (ticket_merge_total existing t o cap a1 a2 Hb Ht Hcap) as (st & out & n & E & Hok). exists st, out, n. split; [done|]. intros ->. destruct (Hok eq_refl) as [[buf ->] [es Hes]].
  destruct (ticket_merge_image existing t o cap a1 a2 es buf n Hb Ht Hcap Hes E) as (Hn & Eb & _ & _ & Hnew & Ho & Hp). destruct (bounded_le cap) as [Hc1 Hc2]. unfold LXMF_MAX_MESSAGE_SIZE in Hc2.
  assert (Z.of_nat (length (take n buf)) <= 8 * 1024 * 1024) as Hlen by (rewrite length_take; lia). exists buf. split_and!; [done|lia|rewrite Eb in *; apply ticket_reparsed; [done|done|done|lia]|].
  intros old Hold. assert (bytes_ok (existing_map existing)) as Hl by (unfold existing_map; destruct (_ =? _)%nat; [by repeat constructor|done]).
  destruct (parse_inv _ old Hl Hold) as (h & es2 & El & Hes2 & Hmax & Hc & Ha & _). destruct (ticket_merge_image existing t o cap a1 a2 es2 buf n Hb Ht Hcap) as (_ & Eb2 & Hok2 & Hit & Hnew2 & _ & _); [by exists h|done|].
  rewrite Eb2 in *. assert (consumes (container true) (head 5 (Z.of_nat (length (ticket_entries_merged t es2)))) 1 (Z.of_nat (length (ticket_entries_merged t es2)))) as Hhead by (apply head_read; lia).
  apply parse_image; [done|done|done| |by eapply head_nonempty|done]. apply (absorbs_app _ _ old); [by apply absorbs_unmasked|]. destruct t; [|constructor]. apply absorbs_other; [done|constructor].
Qed.

(** A map with an old ticket behind a renderer, and the ticket that replaces it. *)
Definition ticketed_map : list Z := [0x82; 0x0f; 2; 0x0c; 0x92; 9; 0xc4; 16] ++ replicate 16 5.
Definition sample_ticket : lxmf_ticket_field := {| present := true; expires_at := 70000; ticket := replicate 16 6 |}.

Lemma ticket_merge_parse_witness :
  (exists out n, lxmf_fields_merge_ticket (SBytes ticketed_map) (Some sample_ticket) (Some (replicate 64 0)) 64 0 1000 = Some (LXMF_OK, Some out, n) /\
    lxmf_fields_parse_ticket (SBytes (take n out)) = Some (LXMF_OK, Some sample_ticket) /\ take 3 out = [0x82; 0x0f; 2]) /\
  exists st out n, lxmf_fields_merge_ticket (SBytes ticketed_map) (Some sample_ticket) (Some (replicate 64 0)) 64 0 1000 = Some (st, out, n) /\
    (st = LXMF_OK -> exists buf, out = Some buf /\ (n <= 64)%nat /\ lxmf_fields_parse_ticket (SBytes (take n buf)) = Some (LXMF_OK, Some sample_ticket) /\
      forall old, lxmf_standard_fields_parse (SBytes ticketed_map) = Some (LXMF_OK, Some old) -> lxmf_standard_fields_parse (SBytes (take n buf)) = Some (LXMF_OK, Some old)).
Proof.
  split.
  - eexists _, _. split; [vm_compute; reflexivity|]. split; [vm_compute; reflexivity|]. vm_compute; reflexivity.
  - refine (ticket_merge_parse (SBytes ticketed_map) (Some sample_ticket) (replicate 64 0) 64 0 1000 _ _ _).
    + unfold ticketed_map. apply Forall_app. split; [by repeat constructor|by apply Forall_replicate].
    + intros x [= <-]. split; [unfold in_width, sample_ticket; cbn [expires_at]; lia|]. split; [by apply Forall_replicate|done].
    + vm_compute. lia.
Defined.
End FieldsTicket.
