(* ===== verification/AttachmentName.v ===== *)
(** * Names for attachments

    [lxmf_attachment_safe_name] of [Fields]: the name it derives, and what can still be
    in it. *)

From Stdlib Require Import ZArith Lia.
From S2P Require Import Prelude Request Lxmf Utf8 Fields FieldsParse FieldsMerge.

Module AttachmentName.
Import Lxmf Utf8 Fields FieldsParse FieldsMerge.

(** A byte of a name: no control character, and none of slash, backslash and colon. *)
Definition visible (b : Z) : Prop := 0x20 <= b /\ b <> 0x7f.
Definition separates (b : Z) : Prop := b = 47 \/ b = 92 \/ b = 58.

#[global] Instance visible_dec b : Decision (visible b).
Proof. unfold visible. apply _. Defined.

(** How a name is taken apart: up to the last separator, the dots after it, and the rest. *)
Record parts (s path dots rest : list Z) : Prop := {
  pa_whole : s = path ++ dots ++ rest;
  pa_path : path = [] \/ exists b, list.last path = Some b /\ separates b;
  pa_last : Forall (λ b, ~ separates b) (dots ++ rest);
  pa_dots : Forall (λ b, b = 46) dots;
  pa_rest : rest !! 0%nat <> Some 46
}.

(** The name made of the rest: its visible bytes, or "attachment". *)
Definition name_of (rest : list Z) : list Z :=
  match filter visible rest with [] => [97; 116; 116; 97; 99; 104; 109; 101; 110; 116] | l => l end.

(** ** The loops *)

Lemma is_control_spec b : is_control b = false <-> visible b.
Proof. unfold is_control, visible. lia. Qed.

Lemma is_separator_spec b : is_separator b = true <-> separates b.
Proof. unfold is_separator, separates. lia. Qed.

Lemma copy_name_spec s o acc cap : wrote (length o) o acc -> (cap <= length o)%nat -> (length acc <= cap)%nat ->
  let l := acc ++ filter visible s in
  exists x, copy_name s o (length acc) cap = Some x /\
    match x with Some (o', n) => n = length l /\ wrote (length o) o' l /\ (n <= cap)%nat | None => (cap < length l)%nat end.
Proof.
  revert o acc. induction s as [|b s IH]; intros o acc Ho Hc Ha; cbn [copy_name].
  { cbn. rewrite app_nil_r. eexists. split; [done|]. done. }
  rewrite filter_cons. pose proof (is_control_spec b) as Hb. destruct (is_control b); [rewrite decide_False by (intros ?%Hb; done); by apply IH|]. rewrite decide_True by (by apply Hb).
  destruct (Nat.leb_spec cap (length acc)) as [Hfull|Hroom]; [exists None; split; [done|]; rewrite length_app; cbn [length]; lia|].
  assert (store o (length acc) b = Some (<[length acc := b]> o)) as -> by (unfold store; by rewrite decide_True by lia). cbn [mbind option_bind].
  assert (wrote (length o) (<[length acc := b]> o) (acc ++ [b])) as Hw.
  { destruct Ho as (_ & Ht & _). split_and!; [by rewrite length_insert| |rewrite length_app; cbn; lia]. rewrite length_app. cbn [length]. rewrite Nat.add_1_r, (take_S_r _ _ b) by (apply list_lookup_insert_eq; lia).
    by rewrite take_insert_ge, Ht by lia. }
  destruct (IH (<[length acc := b]> o) (acc ++ [b])) as (x & Ex & Hx); [by rewrite length_insert|by rewrite length_insert|rewrite length_app; cbn; lia|].
  rewrite length_app in Ex. cbn [length] in Ex. rewrite Nat.add_1_r in Ex. exists x. split; [done|]. rewrite <-app_assoc in Hx. cbn [app] in Hx. by rewrite length_insert in Hx.
Qed.

(** The first loop stops after the last separator. *)
Lemma after_separator_spec s : forall done0 from, Forall (λ b, ~ separates b) from ->
  exists path, done0 ++ from ++ s = path ++ after_separator s (from ++ s) /\ (path = done0 \/ exists b, list.last path = Some b /\ separates b) /\
    Forall (λ b, ~ separates b) (after_separator s (from ++ s)).
Proof.
  induction s as [|b s IH]; intros done0 from Hf; cbn [after_separator]; [exists done0; rewrite app_nil_r; split_and!; [done|by left|done]|].
  pose proof (is_separator_spec b) as Hb. destruct (is_separator b).
  - destruct (IH (done0 ++ from ++ [b]) [] ltac:(constructor)) as (path & E & Hp & Hl). cbn [app] in E, Hl. exists path. split_and!; [|right|done].
    + rewrite <-E, <-!app_assoc. done.
    + destruct Hp as [->|Hp]; [|done]. exists b. split; [|by apply Hb]. by rewrite app_assoc, last_snoc.
  - destruct (IH done0 (from ++ [b])) as (path & E & Hp & Hl); [apply Forall_app; split; [done|]; repeat constructor; intros ?%Hb; done|]. rewrite <-app_assoc in E, Hl. cbn [app] in E, Hl. by exists path.
Qed.

Lemma drop_dots_spec s : exists dots, s = dots ++ drop_dots s /\ Forall (λ b, b = 46) dots /\ drop_dots s !! 0%nat <> Some 46.
Proof.
  induction s as [|b s (dots & E & Hd & Hh)]; cbn [drop_dots]; [by exists []|]. destruct (Z.eqb_spec b 46) as [->|Hne].
  - exists (46 :: dots). split_and!; [cbn; by rewrite <-E|by constructor|done].
  - exists []. split_and!; [done|constructor|]. cbn. congruence.
Qed.

Lemma parts_of s : exists path dots, parts s path dots (drop_dots (after_separator s s)).
Proof.
  destruct (after_separator_spec s [] [] ltac:(constructor)) as (path & E & Hp & Hl). cbn [app] in E, Hl. destruct (drop_dots_spec (after_separator s s)) as (dots & Ed & Hd & Hh).
  exists path, dots. constructor; [by rewrite <-Ed|done|by rewrite <-Ed|done|done].
Qed.

(** ** Text stays text *)

(** Bytes of longer sequences are neither separators nor dots nor control bytes. *)
Lemma encode_cases c : scalar c -> (utf8_encode c = [c] /\ 0 <= c < 0x80) \/ (utf8_encode c <> [] /\ Forall (λ b, 0x80 <= b) (utf8_encode c)).
Proof.
  intros [[H0 Hmax] _]. unfold utf8_encode. destruct (Z.ltb_spec c 0x80); [left; split; [done|lia]|]. right.
  pose proof (Z.div_pos c 64 ltac:(lia) ltac:(lia)). pose proof (Z.div_pos c (64 ^ 2) ltac:(lia) ltac:(lia)). pose proof (Z.div_pos c (64 ^ 3) ltac:(lia) ltac:(lia)).
  assert (forall k, 0x80 <= 0x80 + (c / 64 ^ k) mod 64) as Hlow by (intros k; pose proof (Z.mod_pos_bound (c / 64 ^ k) 64 ltac:(lia)); lia).
  repeat case_match; (split; [done|]); repeat (apply Forall_nil_2 || apply Forall_cons_2); first [apply Hlow|lia].
Qed.

Lemma high_byte b : 0x80 <= b -> is_separator b = false /\ visible b /\ (b =? 46) = false.
Proof. intros Hb. unfold is_separator, visible. lia. Qed.

Lemma filter_text l : utf8_text l -> utf8_text (filter visible l).
Proof.
  intros (cs & Hcs & ->). induction Hcs as [|c cs Hc Hcs (ds & Hds & IH)]; [by exists []|]. cbn [fmap list_fmap concat]. rewrite list.filter_app, IH. destruct (encode_cases c Hc) as [[Ec _]|[_ Hhigh]].
  - rewrite Ec, filter_cons, filter_nil. destruct (decide (visible c)); [|by exists ds]. exists (c :: ds). split; [by constructor|]. cbn [fmap list_fmap concat]. by rewrite Ec.
  - exists (c :: ds). split; [by constructor|]. cbn [fmap list_fmap concat]. f_equal. clear -Hhigh. induction Hhigh as [|b l Hb _ IH]; [done|]. rewrite filter_cons, decide_True by (by apply high_byte). by rewrite IH.
Qed.

Lemma drop_dots_text l : utf8_text l -> utf8_text (drop_dots l).
Proof.
  intros (cs & Hcs & ->). induction Hcs as [|c cs Hc Hcs IH]; [by exists []|]. assert (utf8_text (concat (utf8_encode <$> c :: cs))) as Hall by (exists (c :: cs); split; [by constructor|done]).
  cbn [fmap list_fmap concat] in *. destruct (encode_cases c Hc) as [[Ec _]|[Hne Hhigh]].
  - rewrite Ec in *. cbn [app drop_dots] in *. by destruct (c =? 46).
  - destruct (utf8_encode c) as [|b l]; [done|]. apply Forall_cons_1 in Hhigh as [Hb _]. cbn [app drop_dots] in *. by destruct (high_byte b Hb) as (_ & _ & ->).
Qed.

Lemma after_separator_text l from : utf8_text l -> utf8_text from -> utf8_text (after_separator l from).
Proof.
  intros (cs & Hcs & ->). revert from. induction Hcs as [|c cs Hc Hcs IH]; intros from Hf; [done|]. cbn [fmap list_fmap concat]. destruct (encode_cases c Hc) as [[Ec _]|[_ Hhigh]].
  - rewrite Ec. cbn [app after_separator]. apply IH. destruct (is_separator c); [by exists cs|done].
  - induction Hhigh as [|b l Hb _ IHl]; [by apply IH|]. cbn [app after_separator]. by destruct (high_byte b Hb) as (-> & _).
Qed.

Lemma name_of_text s : utf8_text s -> utf8_text (name_of (drop_dots (after_separator s s))).
Proof.
  intros Hs. assert (utf8_text (filter visible (drop_dots (after_separator s s)))) as Hp by (by apply filter_text, drop_dots_text, after_separator_text). unfold name_of. destruct (filter visible _); [|done].
  exists fallback. split; [|done]. unfold fallback, scalar. repeat (apply Forall_nil_2 || apply Forall_cons_2); lia.
Qed.

(** ** Properties *)

(** The name has no separator, no control character and no leading dot - but for a rest
    whose first byte is a control character. *)
Lemma name_of_clear s path dots rest : parts s path dots rest ->
  Forall (λ b, visible b /\ ~ separates b) (name_of rest) /\ (name_of rest !! 0%nat = Some 46 -> exists c, rest !! 0%nat = Some c /\ ~ visible c).
Proof.
  intros [_ _ Hl _ Hr]. apply Forall_app in Hl as [_ Hl]. unfold name_of. destruct (filter visible rest) as [|b l] eqn:Ef.
  - split; [|done]. unfold visible, separates. repeat (apply Forall_nil_2 || apply Forall_cons_2); lia.
  - split.
    + rewrite <-Ef, list.Forall_forall. intros x Hx. apply list_elem_of_filter in Hx as [Hv Hx]. rewrite list.Forall_forall in Hl. split; [done|by apply Hl].
    + intros [= ->]. destruct rest as [|c rest]; [done|]. exists c. split; [done|]. intros Hv. rewrite filter_cons, decide_True in Ef by done. injection Ef as -> _. by apply Hr.
Qed.

Lemma safe_name_run s o cap n0 : bytes_ok s -> utf8_text s -> (length s <= 255)%nat -> (cap <= length o)%nat ->
  let name := name_of (drop_dots (after_separator s s)) in
  exists st out n, lxmf_attachment_safe_name (SBytes s) (Some o) cap n0 = Some (st, out, n) /\
    (if (length name <=? cap)%nat then st = LXMF_OK /\ n = length name /\ exists buf, out = Some buf /\ take n buf = name else st = LXMF_ERR_BOUNDS /\ n = n0).
Proof.
  intros Hb Ht Hl Hcap name. unfold lxmf_attachment_safe_name. cbn [slice_bad slice_length]. rewrite (proj2 (Nat.leb_le _ _)) by done. cbn [negb andb andalso slice_bad].
  rewrite (slice_utf8 (SBytes s) eq_refl Hb Ht). cbn [mbind option_bind negb slice_bytes].
  destruct (copy_name_spec (drop_dots (after_separator s s)) o [] cap (wrote_nil _ _ eq_refl) Hcap ltac:(cbn; lia)) as (x & Ex & Hx). cbn [length app] in Ex, Hx. rewrite Ex. cbn [mbind option_bind].
  subst name. unfold name_of. fold fallback. destruct x as [[o' n]|].
  - destruct Hx as (-> & Hw & Hle). destruct (filter visible _) as [|b l] eqn:Ep; cbn [length Nat.eqb].
    + rewrite Nat.ltb_antisym. destruct (Nat.leb_spec (length fallback) cap) as [Hfit|]; cbn [negb]; [|by eexists _, _, _].
      destruct (wrote_memcpy (length o) o' [] fallback Hw) as (o2 & Em & _ & Hb2 & _); [cbn [length]; lia|]. cbn [length] in Em. rewrite Em. cbn [mbind option_bind]. eexists _, _, _. split; [done|]. split_and!; [done|done|by exists o2].
    + rewrite (proj2 (Nat.leb_le _ _)) by done. eexists _, _, _. split; [done|]. destruct Hw as (_ & Hb2 & _). split_and!; [done|done|by exists o'].
  - eexists _, _, _. split; [done|]. destruct (filter visible _) as [|b l] eqn:Ep; [cbn in Hx; lia|]. by rewrite (proj2 (Nat.leb_gt _ _)) by done.
Qed.

(** C22: what [lxmf_attachment_safe_name] derives from any valid name. The name is taken
    apart after its last slash, backslash or colon and after the dots that follow; the
    visible bytes of the rest, or "attachment" when there are none, are written when they
    fit, and refused when they do not. They are not empty, are UTF-8, and have no
    separator and no control character. They begin with a dot only when a control
    character in front of it was left out. *)
Theorem safe_name_spec s o cap n0 : bytes_ok s -> utf8_text s -> (length s <= 255)%nat -> (cap <= length o)%nat ->
  exists path dots rest st out n, parts s path dots rest /\ lxmf_attachment_safe_name (SBytes s) (Some o) cap n0 = Some (st, out, n) /\
    (if (length (name_of rest) <=? cap)%nat then st = LXMF_OK /\ n = length (name_of rest) /\ exists buf, out = Some buf /\ take n buf = name_of rest
     else st = LXMF_ERR_BOUNDS /\ n = n0) /\
    name_of rest <> [] /\ utf8_text (name_of rest) /\ Forall (λ b, visible b /\ ~ separates b) (name_of rest) /\
    (name_of rest !! 0%nat = Some 46 -> exists c, rest !! 0%nat = Some c /\ ~ visible c).
Proof.
  intros Hb Ht Hl Hcap. destruct (parts_of s) as (path & dots & Hp). destruct (safe_name_run s o cap n0 Hb Ht Hl Hcap) as (st & out & n & Hrun & Hres). exists path, dots, (drop_dots (after_separator s s)), st, out, n.
  destruct (name_of_clear _ _ _ _ Hp) as [Hc Hd]. split_and!; [done|done|done| |by apply name_of_text|done|done]. unfold name_of. by destruct (filter visible _).
Qed.

Definition sample_name : list Z := [46; 46; 47; 97; 58; 98; 47; 46; 120; 32; 121].

(** "../a:b/.x y". *)
Lemma safe_name_spec_witness :
  exists path dots rest, parts sample_name path dots rest /\ name_of rest <> [] /\
    exists st out n, lxmf_attachment_safe_name (SBytes sample_name) (Some (replicate 16 0)) 16 0 = Some (st, out, n).
Proof.
  destruct (safe_name_spec sample_name (replicate 16 0) 16 0) as (path & dots & rest & st & out & n & Hp & Hr & _ & Hne & _); [by repeat constructor| |cbn; lia|cbn; lia|].
  - exists sample_name. split; [unfold scalar, sample_name; repeat (apply Forall_nil_2 || apply Forall_cons_2); lia|reflexivity].
  - exists path, dots, rest. split; [exact Hp|]. split; [exact Hne|]. by exists st, out, n.
Defined.

(** The dots in front are dropped before the control bytes are, so that a control
    byte in front of them keeps them: the byte 1 followed by two dots gives the name of
    the parent directory. *)
Theorem safe_name_hidden : utf8_text [1; 46; 46] /\ exists out, lxmf_attachment_safe_name (SBytes [1; 46; 46]) (Some (replicate 8 0)) 8 0 = Some (LXMF_OK, Some out, 2%nat) /\ take 2 out = [46; 46].
Proof.
  split; [exists [1; 46; 46]; split; [unfold scalar; repeat (apply Forall_nil_2 || apply Forall_cons_2); lia|done]|]. eexists. split; [vm_compute; reflexivity|done].
Qed.

End AttachmentName.
