(* ===== verification/Paper.v ===== *)
(** * Paper messages

    [lxmf/paper.c]: a message signed and encrypted as bytes that can be printed, the URI
    with its URL-safe Base64, and the way back. Packing and unpacking are those of
    [Lxmf], encryption is that of [Identity]. *)

From Stdlib Require Import ZArith Lia.
From S2P Require Import Prelude Crypto Identity Request Sha256 Lxmf.

Module Paper.
Import Sha Lxmf.

(** ** The URI *)

Definition LXMF_PAPER_MAX_SIZE : nat := 2210.
(** "lxm://" *)
Definition LXMF_URI_SCHEME : list Z := [108; 120; 109; 58; 47; 47].
Definition LXMF_URI_SCHEME_LENGTH : nat := 6.
Definition LXMF_URI_MAX_CANONICAL_LENGTH : nat := 2953.
Definition LXMF_URI_MAX_INPUT_LENGTH : nat := 4096.

(** 'A' to 'Z', 'a' to 'z', '0' to '9', '-' and '_'. *)
Definition alphabet : list Z := seqZ 65 26 ++ seqZ 97 26 ++ seqZ 48 10 ++ [45; 95].

(** [uri[at++] = alphabet[value & 63u]] *)
Definition put_symbol (value : Z) (x : list Z * nat) : option (list Z * nat) :=
  c ← alphabet !! Z.to_nat (Z.land value 63); uri ← store x.1 x.2 c; Some (uri, S x.2).

(** The symbols of a group of which [left] bytes are there. *)
Definition put_group (value : Z) (left : nat) (x : list Z * nat) : option (list Z * nat) :=
  x ← put_symbol (Z.shiftr value 18) x;
  x ← put_symbol (Z.shiftr value 12) x;
  x ← (if (1 <? left)%nat then put_symbol (Z.shiftr value 6) x else Some x);
  if (2 <? left)%nat then put_symbol value x else Some x.

(** The loop over the groups of three bytes. *)
Fixpoint encode_groups (paper : list Z) (x : list Z * nat) : option (list Z * nat) :=
  match paper with
  | [] => Some x
  | [a] => put_group (Z.shiftl a 16) 1 x
  | [a; b] => put_group (Z.lor (Z.shiftl a 16) (Z.shiftl b 8)) 2 x
  | a :: b :: c :: paper => x ← put_group (Z.lor (Z.lor (Z.shiftl a 16) (Z.shiftl b 8)) c) 3 x; encode_groups paper x
  end.

(** The status, the output buffer and [*uri_length], [n0] before the call. *)
Definition lxmf_uri_encode (paper : slice) (uri : option (list Z)) (capacity n0 : nat) : option (lxmf_status * option (list Z) * nat) :=
  match uri with
  | None => Some (LXMF_ERR_ARGUMENT, uri, n0)
  | Some u =>
      if slice_bad paper then Some (LXMF_ERR_ARGUMENT, uri, n0)
      else
        let len := slice_length paper in
        if (len =? 0)%nat || (LXMF_PAPER_MAX_SIZE <? len)%nat then Some (LXMF_ERR_BOUNDS, uri, 0%nat)
        else
          let encoded := (len / 3 * 4 + (if (len mod 3 =? 0)%nat then 0 else len mod 3 + 1))%nat in
          if (LXMF_URI_MAX_CANONICAL_LENGTH - LXMF_URI_SCHEME_LENGTH <? encoded)%nat || (capacity <=? LXMF_URI_SCHEME_LENGTH + encoded)%nat
          then Some (LXMF_ERR_BOUNDS, uri, 0%nat)
          else
            u ← memcpy u 0 LXMF_URI_SCHEME;
            x ← encode_groups (slice_bytes paper) (u, LXMF_URI_SCHEME_LENGTH);
            u ← store x.1 x.2 0;
            Some (LXMF_OK, Some u, x.2)
  end.

Definition b64_value (character : Z) : Z :=
  if (65 <=? character) && (character <=? 90) then character - 65
  else if (97 <=? character) && (character <=? 122) then character - 97 + 26
  else if (48 <=? character) && (character <=? 57) then character - 48 + 52
  else if character =? 45 then 62
  else if character =? 95 then 63
  else -1.

(** [tolower] in the "C" locale. *)
Definition tolower (c : Z) : Z := if (65 <=? c) && (c <=? 90) then c + 32 else c.

(** The variables of the decoding loop. [quartet] is only read where it was written. *)
Record decoder : Type := { dpaper : list Z; quartet : list Z; dcount : nat; dout : nat; symbols : nat }.

Definition first_byte (q : list Z) : option Z := a ← q !! 0%nat; b ← q !! 1%nat; Some (wrap8 (Z.lor (Z.shiftl a 2) (Z.shiftr b 4))).
Definition second_byte (q : list Z) : option Z := a ← q !! 1%nat; b ← q !! 2%nat; Some (wrap8 (Z.lor (Z.shiftl a 4) (Z.shiftr b 2))).
Definition third_byte (q : list Z) : option Z := a ← q !! 2%nat; b ← q !! 3%nat; Some (wrap8 (Z.lor (Z.shiftl a 6) b)).

(** A full quartet. *)
Definition flush (capacity : nat) (d : decoder) : option (lxmf_status + decoder) :=
  if (capacity <? d.(dout))%nat || (capacity - d.(dout) <? 3)%nat || (LXMF_PAPER_MAX_SIZE - 3 <? d.(dout))%nat then Some (inl LXMF_ERR_BOUNDS)
  else
    a ← first_byte d.(quartet); p ← store d.(dpaper) d.(dout) a;
    b ← second_byte d.(quartet); p ← store p (d.(dout) + 1) b;
    c ← third_byte d.(quartet); p ← store p (d.(dout) + 2) c;
    Some (inr {| dpaper := p; quartet := d.(quartet); dcount := 0; dout := d.(dout) + 3; symbols := d.(symbols) |}).

(** The loop over the characters behind the scheme. *)
Fixpoint decode_chars (capacity : nat) (cs : list Z) (d : decoder) : option (lxmf_status + decoder) :=
  match cs with
  | [] => Some (inr d)
  | character :: cs =>
      if character =? 47 then decode_chars capacity cs d
      else
        let value := b64_value character in
        if value <? 0 then Some (inl LXMF_ERR_FORMAT)
        else
          q ← store d.(quartet) d.(dcount) (wrap8 value);
          let d := {| dpaper := d.(dpaper); quartet := q; dcount := S d.(dcount); dout := d.(dout); symbols := S d.(symbols) |} in
          if (LXMF_URI_MAX_CANONICAL_LENGTH - LXMF_URI_SCHEME_LENGTH <? d.(symbols))%nat then Some (inl LXMF_ERR_BOUNDS)
          else if (d.(dcount) =? 4)%nat then
            x ← flush capacity d;
            match x with inl st => Some (inl st) | inr d => decode_chars capacity cs d end
          else decode_chars capacity cs d
  end.

(** The bytes of a quartet that is not full. *)
Definition decode_tail (capacity : nat) (d : decoder) : option (lxmf_status + list Z * nat) :=
  if (d.(dcount) =? 1)%nat || (d.(symbols) =? 0)%nat then Some (inl LXMF_ERR_FORMAT)
  else
    let tail := Z.of_nat (if (d.(dcount) =? 0)%nat then 0 else d.(dcount) - 1) in
    if (wrap64 (Z.of_nat capacity - Z.of_nat d.(dout)) <? tail) || (Z.of_nat LXMF_PAPER_MAX_SIZE <? Z.of_nat d.(dout) + tail) then Some (inl LXMF_ERR_BOUNDS)
    else
      x ← (if (2 <=? d.(dcount))%nat then a ← first_byte d.(quartet); p ← store d.(dpaper) d.(dout) a; Some (p, S d.(dout)) else Some (d.(dpaper), d.(dout)));
      x ← (if (d.(dcount) =? 3)%nat then b ← second_byte d.(quartet); p ← store x.1 x.2 b; Some (p, S x.2) else Some x);
      Some (if (x.2 =? 0)%nat then inl LXMF_ERR_FORMAT else inr x).

(** The status, the output buffer, [*paper_length] and the transient identifier when the
    status is [LXMF_OK]. What a failing call leaves in the output is not modelled. *)
Definition lxmf_uri_decode (uri : slice) (paper : option (list Z)) (capacity n0 : nat) : option (lxmf_status * option (list Z) * nat * option (list Z)) :=
  match uri, paper with
  | SBytes l, Some p =>
      if (length l <? LXMF_URI_SCHEME_LENGTH + 2)%nat || (LXMF_URI_MAX_INPUT_LENGTH <? length l)%nat then Some (LXMF_ERR_FORMAT, None, 0%nat, None)
      else if negb (bool_decide (tolower <$> take LXMF_URI_SCHEME_LENGTH l = LXMF_URI_SCHEME)) then Some (LXMF_ERR_FORMAT, None, 0%nat, None)
      else
        x ← decode_chars capacity (drop LXMF_URI_SCHEME_LENGTH l) {| dpaper := p; quartet := replicate 4 0; dcount := 0; dout := 0; symbols := 0 |};
        match x with
        | inl st => Some (st, None, 0%nat, None)
        | inr d =>
            x ← decode_tail capacity d;
            match x with
            | inl st => Some (st, None, 0%nat, None)
            | inr (p, out) => b ← memread p 0 out; id ← lxmf_sha256 (replicate 64 0) b; Some (LXMF_OK, Some p, out, Some id)
            end
        end
  | _, _ => Some (LXMF_ERR_ARGUMENT, None, n0, None)
  end.

(** ** Packing *)

Section Packing.
Context `{Crypto}.
(** Whether [malloc] succeeds for a size. *)
Variable malloc_ok : nat -> bool.

(** The hash of the "lxmf.delivery" destination; the inner option is the C result. *)
Definition delivery_hash (identity : Identity.rns_identity) : option (option (list Z)) :=
  Destination.rns_destination_hash (λ n, malloc_ok (Z.to_nat n)) (Some identity) (Some [108; 120; 109; 102]) (inr [Some [100; 101; 108; 105; 118; 101; 114; 121]]).

(** The local buffer [packed], of which only the bytes written are read. *)
Definition packed : list Z := replicate LXMF_PAPER_MAX_SIZE 0.

(** The status, the output buffer when it is [LXMF_OK], [*paper_length] ([n0] before the
    call) and the transient identifier. [seed1] and [seed2] are the random choices of the
    encryption. *)
Definition lxmf_paper_pack (m : lxmf_message) (source_identity destination_identity : Identity.rns_identity) (ratchet_public : option (list Z)) (seed1 seed2 : list Z)
    (paper : option (list Z)) (capacity n0 : nat) : option (lxmf_status * option (list Z) * nat * option (list Z)) :=
  match paper with
  | None => Some (LXMF_ERR_ARGUMENT, None, n0, None)
  | Some o =>
      if negb source_identity.(Identity.has_private) then Some (LXMF_ERR_ARGUMENT, None, n0, None)
      else
        src ← delivery_hash source_identity;
        match src with
        | None => Some (LXMF_ERR_CRYPTO, None, 0%nat, None)
        | Some src =>
            dst ← delivery_hash destination_identity;
            match dst with
            | None => Some (LXMF_ERR_CRYPTO, None, 0%nat, None)
            | Some dst =>
                if negb (bool_decide (m.(source) = src)) || negb (bool_decide (m.(destination) = dst)) then Some (LXMF_ERR_ARGUMENT, None, 0%nat, None)
                else
                  x ← lxmf_pack malloc_ok m (lxmf_identity_signer (Some source_identity)) (Some packed) LXMF_PAPER_MAX_SIZE;
                  match x with
                  | (LXMF_OK, Some p, packed_length) =>
                      if (packed_length <? LXMF_DESTINATION_LENGTH)%nat then Some (LXMF_ERR_FORMAT, None, 0%nat, None)
                      else
                        let bound := Identity.rns_identity_encrypt_bound (Z.of_nat (packed_length - LXMF_DESTINATION_LENGTH)) in
                        if (bound =? 0) || (Z.of_nat (LXMF_PAPER_MAX_SIZE - LXMF_DESTINATION_LENGTH) <? bound) || (Z.of_nat capacity <? Z.of_nat LXMF_DESTINATION_LENGTH + bound)
                        then Some (LXMF_ERR_BOUNDS, None, 0%nat, None)
                        else
                          o ← memcpy o 0 dst;
                          plain ← memread p LXMF_DESTINATION_LENGTH (packed_length - LXMF_DESTINATION_LENGTH);
                          match Identity.rns_identity_encrypt destination_identity ratchet_public seed1 seed2 plain (capacity - LXMF_DESTINATION_LENGTH) with
                          | None => Some (LXMF_ERR_CRYPTO, None, 0%nat, None)
                          | Some c =>
                              o ← memcpy o LXMF_DESTINATION_LENGTH c;
                              if (LXMF_PAPER_MAX_SIZE - LXMF_DESTINATION_LENGTH <? length c)%nat then Some (LXMF_ERR_BOUNDS, None, 0%nat, None)
                              else
                                let n := (LXMF_DESTINATION_LENGTH + length c)%nat in
                                b ← memread o 0 n; id ← lxmf_sha256 (replicate 64 0) b; Some (LXMF_OK, Some o, n, Some id)
                          end
                  | (st, _, _) => Some (st, None, 0%nat, None)
                  end
            end
        end
  end.

(** What [lxmf_paper_unpack] sets besides the plaintext, once it has decrypted. *)
Record unpacked : Type := { u_message : option lxmf_message; u_transient_id : list Z; u_ratchet_id : list Z; u_used_ratchet : bool }.

(** The status, the plaintext buffer once it was decrypted, [*plaintext_length] and the
    rest. [want_id]: whether the caller asks for the identifier of the ratchet. *)
Definition lxmf_paper_unpack (paper : slice) (local_identity : Identity.rns_identity) (ratchets : list (list Z)) (enforce_ratchets : bool)
    (verifier : option (list Z -> list Z -> list Z -> lxmf_status)) (plaintext : option (list Z)) (capacity n0 : nat) (want_id : bool)
    : option (lxmf_status * option (list Z) * nat * option unpacked) :=
  match paper, plaintext with
  | SBytes l, Some o =>
      if negb local_identity.(Identity.has_private) then Some (LXMF_ERR_ARGUMENT, None, n0, None)
      else if (length l <=? LXMF_DESTINATION_LENGTH)%nat || (LXMF_PAPER_MAX_SIZE <? length l)%nat || (capacity <? LXMF_DESTINATION_LENGTH)%nat
      then Some (LXMF_ERR_BOUNDS, None, 0%nat, None)
      else
        dst ← delivery_hash local_identity;
        match dst with
        | None => Some (LXMF_ERR_CRYPTO, None, 0%nat, None)
        | Some dst =>
            prefix ← memread l 0 16;
            if negb (bool_decide (dst = prefix)) then Some (LXMF_ERR_FORMAT, None, 0%nat, None)
            else
              o ← memcpy o 0 prefix;
              match Identity.rns_identity_decrypt_with_ratchets local_identity ratchets enforce_ratchets (SBytes (drop LXMF_DESTINATION_LENGTH l)) (capacity - LXMF_DESTINATION_LENGTH) want_id with
              | None => Some (LXMF_ERR_CRYPTO, None, 0%nat, None)
              | Some d =>
                  let plain := d.(Identity.plaintext) in
                  o ← memcpy o LXMF_DESTINATION_LENGTH plain;
                  if (capacity - LXMF_DESTINATION_LENGTH <? length plain)%nat then Some (LXMF_ERR_BOUNDS, None, 0%nat, None)
                  else
                    let n := (LXMF_DESTINATION_LENGTH + length plain)%nat in
                    id ← lxmf_sha256 (replicate 64 0) l;
                    b ← memread o 0 n;
                    x ← lxmf_unpack malloc_ok (SBytes b) verifier;
                    Some (x.1, Some o, n, Some {| u_message := x.2; u_transient_id := id; u_ratchet_id := d.(Identity.ratchet_id); u_used_ratchet := d.(Identity.used_ratchet) |})
              end
        end
  | _, _ => Some (LXMF_ERR_ARGUMENT, None, n0, None)
  end.
End Packing.

(** ** Base64 *)

Definition symbol (v : Z) : Z := default 0 (alphabet !! Z.to_nat v).

(** The sextets of the bytes [l]. *)
Fixpoint sextets (l : list Z) : list Z :=
  match l with
  | [] => []
  | [a] => [a / 4; a mod 4 * 16]
  | [a; b] => [a / 4; a mod 4 * 16 + b / 16; b mod 16 * 4]
  | a :: b :: c :: l => a / 4 :: a mod 4 * 16 + b / 16 :: b mod 16 * 4 + c / 64 :: c mod 64 :: sextets l
  end.

Definition uri_text (l : list Z) : list Z := LXMF_URI_SCHEME ++ (symbol <$> sextets l).

(** Induction over groups of three bytes. *)
Lemma group_ind (P : list Z -> Prop) : P [] -> (forall a, P [a]) -> (forall a b, P [a; b]) -> (forall a b c l, P l -> P (a :: b :: c :: l)) -> forall l, P l.
Proof.
  intros H0 H1 H2 H3. fix IH 1. intros [|a [|b [|c l]]]; [done|apply H1|apply H2|apply H3, IH].
Qed.

Lemma symbol_value v : 0 <= v < 64 -> alphabet !! Z.to_nat v = Some (symbol v) /\ b64_value (symbol v) = v /\ symbol v <> 47.
Proof.
  intros Hv. assert (forallb (λ v, bool_decide (alphabet !! Z.to_nat v = Some (symbol v)) && (b64_value (symbol v) =? v) && negb (symbol v =? 47)) (seqZ 0 64) = true) as H by (vm_compute; reflexivity).
  pose proof (forall_below 64 _ H v Hv) as E. cbv beta in E. apply andb_prop in E as [[E1%bool_decide_eq_true_1 E2%Z.eqb_eq]%andb_prop E3%negb_true_iff]. split_and!; [done|done|by apply Z.eqb_neq].
Qed.

Lemma sextets_range l : bytes_ok l -> Forall (λ v, 0 <= v < 64) (sextets l).
Proof.
  induction l as [|a|a b|a b c l IH] using group_ind; intros Hb; cbn [sextets].
  - constructor.
  - repeat (apply Forall_cons_1 in Hb as [[? ?] Hb]). repeat (apply Forall_nil_2 || apply Forall_cons_2); Z.div_mod_to_equations; lia.
  - repeat (apply Forall_cons_1 in Hb as [[? ?] Hb]). repeat (apply Forall_nil_2 || apply Forall_cons_2); Z.div_mod_to_equations; lia.
  - do 3 (apply Forall_cons_1 in Hb as [[? ?] Hb]). repeat apply Forall_cons_2; [..|by apply IH]; Z.div_mod_to_equations; lia.
Qed.

Lemma sextets_length l : length (sextets l) = (length l / 3 * 4 + (if (length l mod 3 =? 0)%nat then 0 else length l mod 3 + 1))%nat.
Proof.
  induction l as [|a|a b|a b c l IH] using group_ind; cbn [sextets length]; [done|done|done|]. rewrite IH. replace (S (S (S (length l)))) with (length l + 1 * 3)%nat by lia. rewrite Nat.div_add, Nat.Div0.mod_add by lia. lia.
Qed.

Lemma sextets_limit l : (length l <= LXMF_PAPER_MAX_SIZE)%nat -> (length (sextets l) <= 2947)%nat.
Proof.
  intros Hmax. rewrite sextets_length. unfold LXMF_PAPER_MAX_SIZE in Hmax. pose proof (Nat.div_mod_eq (length l) 3). pose proof (Nat.mod_upper_bound (length l) 3 ltac:(lia)). destruct (_ =? 0)%nat eqn:Em; lia.
Qed.

Lemma symbols_no_slash vs : Forall (λ v, 0 <= v < 64) vs -> filter (λ c, c <> 47) (symbol <$> vs) = symbol <$> vs.
Proof.
  induction 1 as [|v vs Hv _ IH]; [done|]. destruct (symbol_value v Hv) as (_ & _ & Hne). cbn [fmap list_fmap]. by rewrite filter_cons_True, IH by done.
Qed.

(** *** Encoding *)

(** The step [f] appends the characters [ss]. *)
Definition emits (n : nat) (f : list Z * nat -> option (list Z * nat)) (ss : list Z) : Prop :=
  forall u acc, wrote n u acc -> (length acc + length ss <= n)%nat -> exists u', f (u, length acc) = Some (u', length (acc ++ ss)) /\ wrote n u' (acc ++ ss).

Lemma emits_nil n : emits n Some [].
Proof. intros u acc Hw _. exists u. by rewrite app_nil_r. Qed.

Lemma emits_bind n f g s t : emits n f s -> emits n g t -> emits n (λ x, x ← f x; g x) (s ++ t).
Proof.
  intros Hf Hg u acc Hw Hl. rewrite length_app in Hl. destruct (Hf u acc Hw ltac:(lia)) as (u1 & -> & Hw1). cbn [mbind option_bind]. destruct (Hg u1 (acc ++ s) Hw1 ltac:(rewrite length_app; lia)) as (u2 & E & Hw2).
  exists u2. rewrite app_assoc. done.
Qed.

Lemma emits_symbol n v s : Z.land v 63 = s -> 0 <= s < 64 -> emits n (put_symbol v) [symbol s].
Proof.
  intros <- Hs u acc Hw Hl. cbn [length] in Hl. unfold put_symbol. cbn [fst snd]. destruct (symbol_value _ Hs) as [-> _]. cbn [mbind option_bind].
  destruct (wrote_store n u acc (symbol (Z.land v 63)) Hw ltac:(lia)) as (u' & -> & Hw'). cbn [mbind option_bind]. exists u'. rewrite length_app. cbn [length]. by rewrite Nat.add_1_r.
Qed.

Lemma sextet_of v k : 0 <= k -> Z.land (Z.shiftr v k) 63 = (v / 2 ^ k) mod 64.
Proof. intros Hk. rewrite Z.shiftr_div_pow2 by done. by apply (Z.land_ones _ 6). Qed.

Lemma group_value a b c : is_byte a -> is_byte b -> is_byte c -> Z.lor (Z.lor (Z.shiftl a 16) (Z.shiftl b 8)) c = a * 65536 + b * 256 + c.
Proof.
  intros [? ?] [? ?] [? ?]. change (Z.shiftl a 16) with (Z.shiftl a (8 + 8)). rewrite <-Z.shiftl_shiftl by lia. rewrite <-Z.shiftl_lor. rewrite !lor_shiftl_add by (unfold in_width; lia). change (2 ^ 8) with 256. lia.
Qed.

Lemma emits_group n a b c left : is_byte a -> is_byte b -> is_byte c -> (1 <= left <= 3)%nat ->
  emits n (put_group (a * 65536 + b * 256 + c) left) (symbol <$> take (S left) [a / 4; a mod 4 * 16 + b / 16; b mod 16 * 4 + c / 64; c mod 64]).
Proof.
  intros [? ?] [? ?] [? ?] Hl. set (v := a * 65536 + b * 256 + c).
  assert (emits n (put_symbol (Z.shiftr v 18)) [symbol (a / 4)]) as G1 by (apply emits_symbol; [rewrite sextet_of by lia; change (2 ^ 18) with 262144|]; unfold v; Z.div_mod_to_equations; lia).
  assert (emits n (put_symbol (Z.shiftr v 12)) [symbol (a mod 4 * 16 + b / 16)]) as G2 by (apply emits_symbol; [rewrite sextet_of by lia; change (2 ^ 12) with 4096|]; unfold v; Z.div_mod_to_equations; lia).
  assert (emits n (put_symbol (Z.shiftr v 6)) [symbol (b mod 16 * 4 + c / 64)]) as G3 by (apply emits_symbol; [rewrite sextet_of by lia; change (2 ^ 6) with 64|]; unfold v; Z.div_mod_to_equations; lia).
  assert (emits n (put_symbol v) [symbol (c mod 64)]) as G4 by (apply emits_symbol; [rewrite (Z.land_ones _ 6) by lia; change (2 ^ 6) with 64|]; unfold v; Z.div_mod_to_equations; lia).
  unfold put_group. destruct left as [|[|[|[|]]]]; [lia|..|lia]; cbn [Nat.ltb Nat.leb take fmap list_fmap].
  - intros u acc Hw Hn. destruct (emits_bind n _ _ _ _ G1 G2 u acc Hw Hn) as (u' & E & Hw'). exists u'. split; [|done]. apply bind_Some in E as (x & E1 & E2). rewrite E1. cbn [mbind option_bind]. by rewrite E2.
  - intros u acc Hw Hn. destruct (emits_bind n _ _ _ _ G1 (emits_bind n _ _ _ _ G2 G3) u acc Hw Hn) as (u' & E & Hw'). exists u'. split; [|done]. apply bind_Some in E as (x & E1 & E). apply bind_Some in E as (y & E2 & E3).
    rewrite E1. cbn [mbind option_bind]. rewrite E2. cbn [mbind option_bind]. by rewrite E3.
  - exact (emits_bind n _ _ _ _ G1 (emits_bind n _ _ _ _ G2 (emits_bind n _ _ _ _ G3 G4))).
Qed.

Lemma emits_groups n l : bytes_ok l -> emits n (encode_groups l) (symbol <$> sextets l).
Proof.
  induction l as [|a|a b|a b c l IH] using group_ind; intros Hb.
  - apply emits_nil.
  - apply Forall_cons_1 in Hb as [Ha _]. pose proof (emits_group n a 0 0 1 Ha ltac:(done) ltac:(done) ltac:(lia)) as Hg. rewrite <-group_value in Hg by done. rewrite Z.lor_0_r, Z.shiftl_0_l, Z.lor_0_r in Hg. cbn [take fmap list_fmap] in Hg. rewrite Z.add_0_r in Hg. exact Hg.
  - apply Forall_cons_1 in Hb as [Ha [Hb _]%Forall_cons_1]. pose proof (emits_group n a b 0 2 Ha Hb ltac:(done) ltac:(lia)) as Hg. rewrite <-group_value in Hg by done. rewrite Z.lor_0_r in Hg. cbn [take fmap list_fmap] in Hg. rewrite Z.add_0_r in Hg. exact Hg.
  - apply Forall_cons_1 in Hb as [Ha [Hb' [Hc Hl]%Forall_cons_1]%Forall_cons_1]. pose proof (emits_group n a b c 3 Ha Hb' Hc ltac:(lia)) as Hg. rewrite <-group_value in Hg by done. exact (emits_bind n _ _ _ _ Hg (IH Hl)).
Qed.

Lemma uri_encode_spec l u capacity n0 : bytes_ok l -> l <> [] -> (length l <= LXMF_PAPER_MAX_SIZE)%nat -> (6 + length (sextets l) < capacity)%nat -> (capacity <= length u)%nat ->
  exists u', lxmf_uri_encode (SBytes l) (Some u) capacity n0 = Some (LXMF_OK, Some u', length (uri_text l)) /\ take (length (uri_text l)) u' = uri_text l.
Proof.
  intros Hb Hne Hmax Hcap Hu. unfold lxmf_uri_encode. cbn [slice_bad slice_length slice_bytes]. destruct l as [|x l0] eqn:El; [done|]. rewrite <-El in *. assert ((length l =? 0)%nat = false) as -> by (by rewrite El).
  rewrite (proj2 (Nat.ltb_ge _ _)) by done. cbn [orb]. rewrite <-sextets_length. pose proof (sextets_limit l Hmax) as Hs.
  rewrite (proj2 (Nat.ltb_ge _ _)) by (unfold LXMF_URI_MAX_CANONICAL_LENGTH, LXMF_URI_SCHEME_LENGTH; lia). rewrite (proj2 (Nat.leb_gt _ _)) by (unfold LXMF_URI_SCHEME_LENGTH; lia). cbn [orb].
  destruct (wrote_memcpy (length u) u [] LXMF_URI_SCHEME (wrote_nil _ _ eq_refl)) as (u1 & E1 & Hw1); [cbn; lia|]. cbn [length app] in E1, Hw1. rewrite E1. cbn [mbind option_bind].
  destruct (emits_groups (length u) l Hb u1 LXMF_URI_SCHEME Hw1) as (u2 & E2 & Hw2); [rewrite length_fmap; cbn; lia|]. change LXMF_URI_SCHEME_LENGTH with (length LXMF_URI_SCHEME). rewrite E2. cbn [mbind option_bind fst snd].
  fold (uri_text l) in *. destruct (wrote_store (length u) u2 (uri_text l) 0 Hw2) as (u3 & E3 & Hw3); [unfold uri_text; rewrite length_app, length_fmap; cbn; lia|]. rewrite E3. cbn [mbind option_bind]. exists u3. split; [done|].
  destruct Hw3 as (_ & Ht & _). rewrite length_app in Ht. cbn [length] in Ht. apply (f_equal (take (length (uri_text l)))) in Ht. rewrite take_take, Nat.min_l, take_app_length in Ht by lia. done.
Qed.

(** *** Decoding *)

Lemma quartet_bytes a b c : is_byte a -> is_byte b -> is_byte c ->
  let q0 := a / 4 in let q1 := a mod 4 * 16 + b / 16 in let q2 := b mod 16 * 4 + c / 64 in
  wrap8 (Z.lor (Z.shiftl q0 2) (Z.shiftr q1 4)) = a /\ wrap8 (Z.lor (Z.shiftl q1 4) (Z.shiftr q2 2)) = b /\ wrap8 (Z.lor (Z.shiftl q2 6) (c mod 64)) = c.
Proof.
  intros [? ?] [? ?] [? ?] q0 q1 q2. assert (0 <= q1 < 64 /\ 0 <= q2 < 64) as [? ?] by (unfold q1, q2; split; Z.div_mod_to_equations; lia).
  rewrite !Z.shiftr_div_pow2 by lia. change (2 ^ 4) with 16. change (2 ^ 2) with 4.
  rewrite !lor_shiftl_add by (unfold in_width; (lia || (Z.div_mod_to_equations; lia))). unfold wrap. change (2 ^ 8) with 256. change (2 ^ 2) with 4. change (2 ^ 4) with 16. change (2 ^ 6) with 64.
  unfold q0, q1, q2. split_and!; Z.div_mod_to_equations; lia.
Qed.

(** The slashes are passed over. *)
Lemma decode_slashes capacity cs d : decode_chars capacity cs d = decode_chars capacity (filter (λ c, c <> 47) cs) d.
Proof.
  revert d. induction cs as [|c cs IH]; intros d; [done|]. rewrite filter_cons. cbn [decode_chars]. destruct (Z.eqb_spec c 47) as [->|Hc]; [rewrite decide_False by (by intros []); apply IH|]. rewrite decide_True by done. cbn [decode_chars].
  rewrite (proj2 (Z.eqb_neq _ _)) by done. destruct (b64_value c <? 0); [done|]. destruct (store _ _ _) as [q|]; [|done]. cbn [mbind option_bind]. destruct (_ <? _)%nat; [done|]. destruct (_ =? 4)%nat; [|apply IH].
  destruct (flush _ _) as [[st|d']|]; cbn [mbind option_bind]; [done|apply IH|done].
Qed.

(** One symbol. *)
Lemma decode_symbol capacity v cs d : 0 <= v < 64 -> (dcount d < 4)%nat -> length (quartet d) = 4%nat -> (symbols d < 2947)%nat ->
  decode_chars capacity (symbol v :: cs) d =
    let d' := {| dpaper := dpaper d; quartet := <[dcount d := v]> (quartet d); dcount := S (dcount d); dout := dout d; symbols := S (symbols d) |} in
    if (dcount d =? 3)%nat then x ← flush capacity d'; match x with inl st => Some (inl st) | inr d => decode_chars capacity cs d end else decode_chars capacity cs d'.
Proof.
  intros Hv Hc Hq Hs. destruct (symbol_value v Hv) as (_ & Eb & Hne). cbn [decode_chars]. rewrite (proj2 (Z.eqb_neq _ _)) by done. rewrite Eb, (proj2 (Z.ltb_ge _ _)) by lia. rewrite wrap_small by (unfold in_width; lia).
  assert (store (quartet d) (dcount d) v = Some (<[dcount d := v]> (quartet d))) as -> by (unfold store; by rewrite decide_True by lia). cbn [mbind option_bind symbols dcount].
  rewrite (proj2 (Nat.ltb_ge _ _)) by (unfold LXMF_URI_MAX_CANONICAL_LENGTH, LXMF_URI_SCHEME_LENGTH; lia). done.
Qed.

Lemma wrote_store3 n m w a b c : wrote n m w -> (length w + 3 <= n)%nat ->
  exists m1 m2 m3, store m (length w) a = Some m1 /\ store m1 (length w + 1) b = Some m2 /\ store m2 (length w + 2) c = Some m3 /\ wrote n m3 (w ++ [a; b; c]).
Proof.
  intros Hw Hl. destruct (wrote_store n m w a Hw ltac:(lia)) as (m1 & E1 & H1). destruct (wrote_store n m1 _ b H1) as (m2 & E2 & H2); [rewrite length_app; cbn; lia|].
  destruct (wrote_store n m2 _ c H2) as (m3 & E3 & H3); [rewrite !length_app; cbn; lia|]. rewrite !length_app in *. cbn [length] in *. rewrite <-!app_assoc in *. exists m1, m2, m3. split_and!; [done|done| |done].
  rewrite <-E3. f_equal. lia.
Qed.

(** The symbols of [l], read with an empty quartet. *)
Lemma decode_sextets l n capacity p acc q k : bytes_ok l -> length q = 4%nat -> wrote n p acc -> (length acc + length l <= capacity)%nat -> (capacity <= n)%nat ->
  (length acc + length l <= LXMF_PAPER_MAX_SIZE)%nat -> (k + length (sextets l) <= 2947)%nat -> (0 < k + length l)%nat -> Z.of_nat n < 2 ^ 64 ->
  exists d p', decode_chars capacity (symbol <$> sextets l) {| dpaper := p; quartet := q; dcount := 0; dout := length acc; symbols := k |} = Some (inr d) /\
    (0 < length acc + length l -> decode_tail capacity d = Some (inr (p', length (acc ++ l))))%nat /\ wrote n p' (acc ++ l).
Proof.
  revert p acc q k. induction l as [|a|a b|a b c l IH] using group_ind; intros p acc q k Hb Hq Hw Hcap Hn Hmax Hk Hpos H64.
  - eexists _, p. split; [done|]. rewrite app_nil_r. split; [|done]. intros Hacc. cbn [length] in *. unfold decode_tail. cbn [dcount symbols dout dpaper Nat.eqb orb]. rewrite (proj2 (Nat.eqb_neq k 0)) by lia.
    rewrite wrap_small by (unfold in_width; lia). rewrite (proj2 (Z.ltb_ge _ _)) by lia. rewrite (proj2 (Z.ltb_ge _ _)) by lia. cbn [orb Nat.leb mbind option_bind snd]. by rewrite (proj2 (Nat.eqb_neq _ _)) by lia.
  - apply Forall_cons_1 in Hb as [Ha _]. destruct q as [|w [|x [|y [|z [|]]]]]; try done. destruct (quartet_bytes a 0 0 Ha ltac:(done) ltac:(done)) as (B1 & _ & _). destruct Ha as [Ha1 Ha2]. cbn [sextets fmap list_fmap length] in *.
    rewrite decode_symbol by (done || cbn; lia || (Z.div_mod_to_equations; lia)). cbn [dcount Nat.eqb insert list_insert quartet dpaper dout symbols]. rewrite decode_symbol by (done || cbn; lia || (Z.div_mod_to_equations; lia)).
    cbn [dcount Nat.eqb insert list_insert quartet dpaper dout symbols decode_chars]. destruct (wrote_store n p acc a Hw ltac:(lia)) as (p' & Es & Hw'). eexists _, p'. split; [done|]. split; [|done]. intros _.
    unfold decode_tail. cbn [dcount symbols dout dpaper quartet Nat.eqb orb Nat.sub]. rewrite wrap_small by (unfold in_width; lia). rewrite (proj2 (Z.ltb_ge _ _)) by lia. rewrite (proj2 (Z.ltb_ge _ _)) by lia. cbn [orb Nat.leb].
    unfold first_byte. cbn [lookup list_lookup mbind option_bind]. rewrite Z.div_0_l, Z.add_0_r in B1 by lia. rewrite B1, Es. cbn [mbind option_bind snd Nat.eqb]. rewrite length_app. cbn [length]. by rewrite Nat.add_1_r.
  - apply Forall_cons_1 in Hb as [Ha [Hb' _]%Forall_cons_1]. destruct q as [|w [|x [|y [|z [|]]]]]; try done. destruct (quartet_bytes a b 0 Ha Hb' ltac:(done)) as (B1 & B2 & _). destruct Ha as [Ha1 Ha2], Hb' as [Hb1 Hb2]. cbn [sextets fmap list_fmap length] in *.
    do 3 (rewrite decode_symbol by (done || cbn; lia || (Z.div_mod_to_equations; lia)); cbn [dcount Nat.eqb insert list_insert quartet dpaper dout symbols]). cbn [decode_chars].
    destruct (wrote_store n p acc a Hw ltac:(lia)) as (p1 & E1 & Hw1). destruct (wrote_store n p1 (acc ++ [a]) b Hw1 ltac:(rewrite length_app; cbn; lia)) as (p2 & E2 & Hw2). rewrite <-app_assoc in Hw2. cbn [app] in Hw2.
    eexists _, p2. split; [done|]. split; [|done]. intros _. unfold decode_tail. cbn [dcount symbols dout dpaper quartet Nat.eqb orb Nat.sub]. rewrite wrap_small by (unfold in_width; lia). rewrite (proj2 (Z.ltb_ge _ _)) by lia.
    rewrite (proj2 (Z.ltb_ge _ _)) by lia. cbn [orb Nat.leb]. unfold first_byte, second_byte. cbn [lookup list_lookup mbind option_bind]. rewrite B1, E1. cbn [mbind option_bind fst snd]. rewrite Z.div_0_l, Z.add_0_r in B2 by lia. rewrite B2.
    rewrite length_app in E2. cbn [length] in E2. rewrite Nat.add_1_r in E2. rewrite E2. cbn [mbind option_bind snd Nat.eqb]. rewrite length_app. cbn [length]. do 3 f_equal. lia.
  - apply Forall_cons_1 in Hb as [Ha [Hb' [Hc Hl]%Forall_cons_1]%Forall_cons_1]. destruct q as [|w [|x [|y [|z [|]]]]]; try done. destruct (quartet_bytes a b c Ha Hb' Hc) as (B1 & B2 & B3). destruct Ha as [Ha1 Ha2], Hb' as [Hb1 Hb2], Hc as [Hc1 Hc2].
    cbn [sextets fmap list_fmap length] in *. do 4 (rewrite decode_symbol by (done || cbn; lia || (Z.div_mod_to_equations; lia)); cbn [dcount Nat.eqb insert list_insert quartet dpaper dout symbols]).
    unfold flush. cbn [dcount symbols dout dpaper quartet]. rewrite (proj2 (Nat.ltb_ge _ _)) by lia. rewrite (proj2 (Nat.ltb_ge _ _)) by lia. rewrite (proj2 (Nat.ltb_ge _ _)) by (unfold LXMF_PAPER_MAX_SIZE in *; lia). cbn [orb].
    unfold first_byte, second_byte, third_byte. cbn [lookup list_lookup mbind option_bind]. rewrite B1, B2, B3. destruct (wrote_store3 n p acc a b c Hw ltac:(lia)) as (p1 & p2 & p3 & E1 & E2 & E3 & Hw3).
    rewrite E1. cbn [mbind option_bind]. rewrite E2. cbn [mbind option_bind]. rewrite E3. cbn [mbind option_bind].
    destruct (IH p3 (acc ++ [a; b; c]) [a / 4; a mod 4 * 16 + b / 16; b mod 16 * 4 + c / 64; c mod 64] (S (S (S (S k)))) Hl eq_refl Hw3) as (d & p' & Ed & Et & Hw'); rewrite ?length_app; cbn [length]; try lia.
    rewrite length_app in Ed, Et. cbn [length] in Ed. exists d, p'. rewrite <-app_assoc in Et, Hw'. cbn [app] in Et, Hw'. split_and!; [exact Ed| |done]. intros _. rewrite Et by (cbn; lia). by rewrite length_app.
Qed.

(** A URI whose scheme is in any case and whose symbols may have slashes among them. *)
Lemma uri_decode_spec l scheme body p capacity n0 : bytes_ok l -> l <> [] -> (length l <= LXMF_PAPER_MAX_SIZE)%nat -> (length l <= capacity)%nat -> (capacity <= length p)%nat -> Z.of_nat (length p) < 2 ^ 64 ->
  tolower <$> scheme = LXMF_URI_SCHEME -> filter (λ c, c <> 47) body = symbol <$> sextets l -> (length (scheme ++ body) <= LXMF_URI_MAX_INPUT_LENGTH)%nat ->
  exists p' id, lxmf_uri_decode (SBytes (scheme ++ body)) (Some p) capacity n0 = Some (LXMF_OK, Some p', length l, Some id) /\ take (length l) p' = l /\ sha256 l = Some id.
Proof.
  intros Hb Hne Hmax Hcap Hp H64 Hs Hf Hin. assert (length scheme = 6%nat) as Hls by (apply (f_equal length) in Hs; by rewrite length_fmap in Hs).
  assert (2 <= length body)%nat as Hbody.
  { apply (f_equal length) in Hf. rewrite length_fmap in Hf. pose proof (length_filter (λ c, c <> 47) body). assert (2 <= length (sextets l))%nat by (destruct l as [|? [|? [|]]]; [done|cbn; lia..]). lia. }
  unfold lxmf_uri_decode. rewrite length_app in *. rewrite (proj2 (Nat.ltb_ge _ _)) by (unfold LXMF_URI_SCHEME_LENGTH; lia). rewrite (proj2 (Nat.ltb_ge _ _)) by lia. cbn [orb].
  assert (take LXMF_URI_SCHEME_LENGTH (scheme ++ body) = scheme /\ drop LXMF_URI_SCHEME_LENGTH (scheme ++ body) = body) as [-> ->].
  { change LXMF_URI_SCHEME_LENGTH with 6%nat. rewrite <-Hls. by rewrite take_app_length, drop_app_length. }
  rewrite bool_decide_true by done. cbn [negb]. rewrite decode_slashes, Hf.
  pose proof (sextets_limit l Hmax) as Hsx.
  assert (0 < length l)%nat as Hpos by (by destruct l; [|cbn; lia]).
  destruct (decode_sextets l (length p) capacity p [] (replicate 4 0) 0 Hb eq_refl (wrote_nil _ _ eq_refl)) as (d & p' & Ed & Et & Hw); cbn [length]; try lia. cbn [length app] in Ed, Et, Hw. rewrite Ed. cbn [mbind option_bind].
  rewrite Et by lia. cbn [mbind option_bind]. destruct Hw as (Hlp & Htk & Hle). rewrite memread_in by lia. rewrite drop_0, Htk. cbn [mbind option_bind]. destruct (lxmf_sha256_spec (replicate 64 0) l eq_refl) as [-> (id & Hid & _)]. rewrite Hid. cbn [mbind option_bind].
  exists p', id. done.
Qed.

(** ** Packing and unpacking *)

Section Paper.
Context `{Crypto}.

Lemma delivery_hash_public malloc_ok i : delivery_hash malloc_ok (Identity.public_half i) = delivery_hash malloc_ok i.
Proof. done. Qed.

Lemma delivery_hash_ok malloc_ok i d : delivery_hash malloc_ok i = Some (Some d) -> length d = 16%nat /\ bytes_ok d.
Proof.
  unfold delivery_hash, Destination.rns_destination_hash. intros E. apply bind_Some in E as (r & _ & E). destruct r as [h|]; [|done]. injection E as E. apply bind_Some in E as (g & Hg & [= <-]).
  pose proof (sha256_length _ _ Hg) as Hl. pose proof (sha256_bytes _ _ Hg) as Hb. split; [rewrite length_take; lia|by apply Forall_take].
Qed.

(** Who can open what was encrypted to an identity, or to one of its ratchets. *)
Inductive opens (dest : Identity.rns_identity) (c : list Z) (cap : nat) : option (list Z) -> list (list Z) -> bool -> Prop :=
| opens_identity : opens dest c cap None [] false
| opens_ratchet before priv after r enforce :
    rns_x25519_public_from_private priv = Some r -> Forall (λ k, Identity.decrypt_with_private dest k c cap = None) before ->
    Z.of_nat (length (before ++ priv :: after)) <= SIZE_MAX / 32 -> opens dest c cap (Some r) (before ++ priv :: after) enforce.

Lemma opens_decrypts dest c cap rpub ratchets enforce s1 s2 plain ecap :
  Identity.wf dest -> Identity.has_private dest = true -> opens dest c cap rpub ratchets enforce -> Identity.rns_identity_encrypt (Identity.public_half dest) rpub s1 s2 plain ecap = Some c -> (length c <= cap)%nat ->
  (length plain + 80 < length c)%nat /\ exists d, Identity.rns_identity_decrypt_with_ratchets dest ratchets enforce (SBytes c) cap true = Some d /\ Identity.plaintext d = plain.
Proof.
  intros Hwf Hpriv Ho Henc Hl. assert (exists priv target, x25519_pair priv target /\ match rpub with Some r => r | None => Identity.encryption_public (Identity.public_half dest) end = target) as (priv & target & Hpub & Ht).
  { destruct Ho as [|before priv after r enforce Hp _ _]; [|exists priv, r; split; [by apply x_public_pair|done]]. pose proof (Identity.wf_keys _ Hwf) as Hk. rewrite Hpriv in Hk. destruct Hk as [Hk _]. by eexists _, _. }
  destruct (Identity.encrypt_decrypt_private (Identity.public_half dest) dest target priv rpub s1 s2 plain ecap c cap Hpub Ht eq_refl Henc ltac:(lia)) as (Hlen & _ & _).
  split.
  - destruct (Identity.encrypt_bound_spec (Z.of_nat (length plain))) as [E|[E _]]; [lia|..].
    + rewrite E in Hlen. unfold Identity.rns_identity_encrypt in Henc. by rewrite E in Henc.
    + pose proof (Z.div_mod (Z.of_nat (length plain)) 16 ltac:(lia)). pose proof (Z.mod_pos_bound (Z.of_nat (length plain)) 16 ltac:(lia)). lia.
  - destruct Ho as [|before priv' after r enforce Hp Hbefore Hn].
    + destruct (Identity.identity_encrypt_decrypt dest s1 s2 plain ecap c cap Hwf Hpriv Henc ltac:(lia)) as [_ Hd]. unfold Identity.rns_identity_decrypt in Hd. apply fmap_Some in Hd as (d & Hd & ->). by exists d.
    + eexists. split; [by apply (Identity.identity_ratchet_decrypt dest before after priv' r s1 s2 plain ecap c cap enforce Hpriv Hp Henc ltac:(lia) Hbefore Hn)|done].
Qed.

Lemma memread_some (x : list Z) off n b : memread x off n = Some b -> (off + n <= length x)%nat /\ take n (drop off x) = b.
Proof. unfold memread. by destruct (decide _); intros [= <-]. Qed.

(** What a message packed with an identity is made of. *)
Lemma pack_plain m who buf cap p len : message_ok m -> (forall d, is_Some (rns_ed25519_sign (Identity.signing_private who) d)) -> Identity.has_private who = true -> (cap <= length buf)%nat ->
  lxmf_pack (λ _, true) m (lxmf_identity_signer (Some who)) (Some buf) cap = Some (LXMF_OK, Some p, len) ->
  exists sig id, rns_ed25519_sign (Identity.signing_private who) (destination m ++ source m ++ payload_image m false ++ id) = Some sig /\
    sha256 (destination m ++ source m ++ payload_image m false) = Some id /\ (16 <= len)%nat /\ memread p 16 (len - 16) = Some (source m ++ sig ++ payload_image m (has_stamp m)).
Proof.
  intros Hm Hsign Hpriv Hcap Ep. destruct (payload_id_spec (destination m) (source m) (payload_image m false)) as [_ (id & Hid & _)].
  destruct (Hsign (destination m ++ source m ++ payload_image m false ++ id)) as [sig Hsig]. assert (lxmf_pack_bound m <= Z.of_nat cap) as Hbound.
  { unfold lxmf_pack in Ep. destruct ((_ =? 0) || (_ <? _)) eqn:Eb in Ep; [done|]. by apply orb_false_iff in Eb as [_ Eb%Z.ltb_ge]. }
  destruct (lxmf_pack_spec (λ _, true) (λ _, eq_refl) m (lxmf_identity_signer (Some who)) buf cap id sig Hm Hbound Hcap Hid) as (o' & Hp & Ht).
  { unfold lxmf_identity_signer, Identity.rns_identity_sign. by rewrite Hpriv, Hsig. } { by eapply sign_length. }
  remember (96 + length (payload_image m (has_stamp m)))%nat as L eqn:HL. rewrite Hp in Ep. injection Ep as <- <-. pose proof Hm as [[D1 _] [S1 _] _ _ _ _ _]. pose proof (sign_length _ _ _ Hsig) as Hsl.
  exists sig, id. split_and!; [done|done|lia|]. apply (memread_at o' (destination m) _ (drop L o')); [|done|rewrite !length_app; lia]. rewrite <-(take_drop L o') at 1. rewrite Ht. by rewrite <-!app_assoc.
Qed.

(** The receiver of a message it can verify. *)
Lemma unpack_verified m sig id who peer resolve : message_ok m -> rns_ed25519_public_from_private (Identity.signing_private who) = Some (Identity.signing_public who) ->
  resolve (source m) = Some peer -> Identity.signing_public peer = Identity.signing_public who ->
  rns_ed25519_sign (Identity.signing_private who) (destination m ++ source m ++ payload_image m false ++ id) = Some sig -> sha256 (destination m ++ source m ++ payload_image m false) = Some id ->
  lxmf_unpack (λ _, true) (SBytes (destination m ++ source m ++ sig ++ payload_image m (has_stamp m))) (Some (lxmf_identity_verifier (Some resolve))) =
    Some (LXMF_OK, Some (identified (received (empty_message (destination m) (source m) sig) m) id)).
Proof.
  intros Hm Hpub Hres Hpeer Hsig Hid. rewrite (lxmf_unpack_image (λ _, true) m sig id _ (λ _, eq_refl) Hm (sign_length _ _ _ Hsig) (sign_bytes _ _ _ Hsig) Hid). do 2 f_equal.
  unfold lxmf_identity_verifier, Identity.rns_identity_verify. by rewrite Hres, Hpeer, (sign_verify _ _ _ _ (ed_public_pair _ _ Hpub) Hsig).
Qed.

(** What a paper message is made of. *)
Lemma paper_pack_inv m who dest rpub s1 s2 out cap n0 paper n tid :
  message_ok m -> (forall d, is_Some (rns_ed25519_sign (Identity.signing_private who) d)) -> (cap <= length out)%nat ->
  lxmf_paper_pack (λ _, true) m who dest rpub s1 s2 (Some out) cap n0 = Some (LXMF_OK, Some paper, n, Some tid) ->
  exists sig id c ecap, let plain := source m ++ sig ++ payload_image m (has_stamp m) in
    rns_ed25519_sign (Identity.signing_private who) (destination m ++ source m ++ payload_image m false ++ id) = Some sig /\ sha256 (destination m ++ source m ++ payload_image m false) = Some id /\
    delivery_hash (λ _, true) dest = Some (Some (destination m)) /\ Identity.rns_identity_encrypt dest rpub s1 s2 plain ecap = Some c /\
    n = (16 + length c)%nat /\ (n <= LXMF_PAPER_MAX_SIZE)%nat /\ take n paper = destination m ++ c /\ sha256 (take n paper) = Some tid.
Proof.
  intros Hm Hsign Hcap E. unfold lxmf_paper_pack in E. destruct (Identity.has_private who) eqn:Hpriv; cbn [negb] in E; [|done]. apply bind_Some in E as (src & Esrc & E). destruct src as [src|]; [|done].
  apply bind_Some in E as (dst & Edst & E). destruct dst as [dst|]; [|done]. destruct (bool_decide_reflect (source m = src)) as [<-|]; cbn [negb orb] in E; [|done]. destruct (bool_decide_reflect (destination m = dst)) as [<-|]; cbn [negb] in E; [|done].
  apply bind_Some in E as (x & Ep & E). destruct x as [[st p] plen]. destruct st, p as [p|]; try done.
  destruct (pack_plain m who packed LXMF_PAPER_MAX_SIZE p plen Hm Hsign Hpriv ltac:(by unfold packed; rewrite length_replicate) Ep) as (sig & id & Hsig & Hid & H16 & Hplain). pose proof Hm as [[D1 D2] _ _ _ _ _ _]. change LXMF_DESTINATION_LENGTH with 16%nat in E.
  rewrite (proj2 (Nat.ltb_ge _ _)) in E by done. destruct (_ || _) in E; [done|]. apply bind_Some in E as (o1 & Eo1 & E). rewrite Hplain in E. cbn [mbind option_bind] in E. set (P := payload_image m (has_stamp m)) in *.
  destruct (Identity.rns_identity_encrypt _ _ _ _ _ _) as [c|] eqn:Ec in E; [|done]. apply bind_Some in E as (o2 & Eo2 & E). destruct (Nat.ltb_spec (LXMF_PAPER_MAX_SIZE - 16) (length c)) as [|Hlc]; [done|].
  apply bind_Some in E as (b & Eb2 & E). apply bind_Some in E as (t & Etid & E). remember (16 + length c)%nat as k eqn:Hk. injection E as -> <- <-. exists sig, id, c, (cap - 16)%nat. cbv zeta. fold P.
  assert (take k paper = destination m ++ c) as Htake.
  { destruct (wrote_memcpy (length out) out [] (destination m) (wrote_nil _ _ eq_refl)) as (x & Ex & Hw); [cbn; unfold memcpy in Eo1; destruct (decide _); [lia|done]|]. cbn [length app] in Ex, Hw. rewrite Eo1 in Ex. injection Ex as <-.
    destruct (wrote_memcpy (length out) o1 (destination m) c Hw) as (x & Ex & Hw2); [unfold memcpy in Eo2; destruct (decide _); [destruct Hw as [? _]; lia|done]|]. rewrite D1 in Ex. rewrite Eo2 in Ex. injection Ex as <-.
    destruct Hw2 as (_ & Htk & _). by rewrite length_app, D1, <-Hk in Htk. }
  destruct (memread_some _ _ _ _ Eb2) as (_ & Hb). rewrite drop_0 in Hb. destruct (lxmf_sha256_spec (replicate 64 0) b eq_refl) as [Hsh _].
  split_and!; [done|done|done|done|done|unfold LXMF_PAPER_MAX_SIZE in *; lia|done|]. rewrite Hb. by rewrite <-Hsh.
Qed.

(** The receiver's side of [paper_pack_inv]. *)
Lemma paper_unpack m sig id c tid who peer resolve dest rpub ratchets enforce s1 s2 ecap q qcap n0 :
  let plain := source m ++ sig ++ payload_image m (has_stamp m) in
  message_ok m -> Identity.wf dest -> Identity.has_private dest = true -> delivery_hash (λ _, true) dest = Some (Some (destination m)) ->
  rns_ed25519_public_from_private (Identity.signing_private who) = Some (Identity.signing_public who) -> resolve (source m) = Some peer -> Identity.signing_public peer = Identity.signing_public who ->
  rns_ed25519_sign (Identity.signing_private who) (destination m ++ source m ++ payload_image m false ++ id) = Some sig -> sha256 (destination m ++ source m ++ payload_image m false) = Some id ->
  Identity.rns_identity_encrypt (Identity.public_half dest) rpub s1 s2 plain ecap = Some c -> opens dest c (qcap - 16) rpub ratchets enforce ->
  (16 + length c <= LXMF_PAPER_MAX_SIZE)%nat -> (16 + length c <= qcap)%nat -> (qcap <= length q)%nat -> sha256 (destination m ++ c) = Some tid ->
  exists q' u, lxmf_paper_unpack (λ _, true) (SBytes (destination m ++ c)) dest ratchets enforce (Some (lxmf_identity_verifier (Some resolve))) (Some q) qcap n0 true =
      Some (LXMF_OK, Some q', 16 + length plain, Some u)%nat /\
    u_message u = Some (identified (received (empty_message (destination m) (source m) sig) m) id) /\ u_transient_id u = tid.
Proof.
  intros plain Hm Hwf Hpriv Hd Hpub Hres Hpeer Hsig Hid Henc Hop Hmax Hcap Hq Htid. destruct (opens_decrypts dest c _ rpub ratchets enforce s1 s2 plain ecap Hwf Hpriv Hop Henc ltac:(lia)) as (Hpl & d & Hdec & Hplain).
  pose proof Hm as [[D1 D2] [S1 S2] _ _ _ _ _]. unfold lxmf_paper_unpack. rewrite Hpriv. cbn [negb]. change LXMF_DESTINATION_LENGTH with 16%nat. rewrite length_app, D1.
  rewrite (proj2 (Nat.leb_gt _ _)) by lia. rewrite (proj2 (Nat.ltb_ge _ _)) by lia. rewrite (proj2 (Nat.ltb_ge _ _)) by lia. cbn [orb]. rewrite Hd. cbn [mbind option_bind].
  rewrite memread_in by (rewrite length_app; lia). rewrite drop_0, take_app_length' by done. cbn [mbind option_bind]. rewrite bool_decide_true by done. cbn [negb]. rewrite drop_app_length' by done.
  destruct (wrote_memcpy (length q) q [] (destination m) (wrote_nil _ _ eq_refl)) as (q1 & E1 & Hw1); [cbn; lia|]. cbn [length app] in E1, Hw1. rewrite E1. cbn [mbind option_bind]. rewrite Hdec, Hplain.
  destruct (wrote_memcpy (length q) q1 (destination m) plain Hw1) as (q2 & E2 & Hw2); [lia|]. rewrite D1 in E2. rewrite E2. cbn [mbind option_bind]. rewrite (proj2 (Nat.ltb_ge _ _)) by lia.
  destruct (lxmf_sha256_spec (replicate 64 0) (destination m ++ c) eq_refl) as [-> _]. rewrite Htid. cbn [mbind option_bind]. destruct Hw2 as (Hlq & Htk & Hlw). rewrite length_app, D1 in Htk, Hlw.
  rewrite memread_in by lia. rewrite drop_0, Htk. cbn [mbind option_bind]. subst plain.
  rewrite (unpack_verified m sig id who peer resolve) by done. cbn [mbind option_bind fst snd].
  eexists _, _. by split.
Qed.

End Paper.

(** ** Witnesses *)

Definition sample_address : list Z := default [] (mjoin (delivery_hash (λ _, true) Identity.sample)).

Definition paper_message : lxmf_message :=
  {| destination := sample_address; source := sample_address; signature := replicate 64 0; message_id := replicate 32 0; timestamp := 0x41d954fc40000000; title := SBytes [72]; content := SBytes [104; 105];
     fields_msgpack := SBytes [0x81; 1; 0xa1; 120]; has_stamp := false; stamp_len := 0; stamp := replicate 32 7 |}.

(** A message from the sample identity to a ratchet of itself. *)
Lemma sample_paper_ok : exists paper tid, lxmf_paper_pack (λ _, true) paper_message Identity.sample (Identity.public_half Identity.sample) (Some (fold_to 32 [5])) [3] [4] (Some (replicate 300 0)) 300 0 = Some (LXMF_OK, Some paper, 208%nat, Some tid) /\ forallb (λ b, (0 <=? b) && (b <? 256)) paper = true.
Proof. eexists _, _. split; vm_compute; reflexivity. Qed.

Lemma checked_bytes l : forallb (λ b, (0 <=? b) && (b <? 256)) l = true -> bytes_ok l.
Proof. intros E. apply list.Forall_forall. intros b Hb%list_elem_of_In. pose proof (proj1 (forallb_forall _ _) E b Hb) as Eb. cbv beta in Eb. unfold is_byte, in_width. lia. Qed.

Lemma paper_message_ok : message_ok paper_message.
Proof.
  destruct (sample_message_ok [72] false) as [_ _ H3 H4 H5 _ _]; [literal_bytes|cbn; lia|]. assert (length sample_address = 16%nat /\ bytes_ok sample_address) as Ha by (split; [|apply checked_bytes]; vm_compute; reflexivity).
  constructor; [done|done|exact H3| |exact H5|done|vm_compute; discriminate]. destruct H4. by constructor.
Qed.

End Paper.
