(* ===== verification/Delivery.v ===== *)
(** * Opportunistic delivery

    [lxmf/delivery.c]: a message encrypted into one packet, whose destination is the
    first 16 bytes of the message, and the way back with the ratchets of the receiver. *)

From Stdlib Require Import ZArith Lia.
From S2P Require Import Prelude Crypto Packet Identity Request Sha256 Lxmf Paper.

Module Delivery.
Import Sha Lxmf.

Section Packing.
Context `{Crypto}.
(** Whether [malloc] succeeds for a size. *)
Variable malloc_ok : nat -> bool.

(** The hash of the "lxmf.delivery" destination; the inner option is the C result. *)
Definition delivery_hash (identity : Identity.rns_identity) : option (option (list Z)) :=
  Destination.rns_destination_hash (λ n, malloc_ok (Z.to_nat n)) (Some identity) (Some [108; 120; 109; 102]) (inr [Some [100; 101; 108; 105; 118; 101; 114; 121]]).

(** [outer], zero but for the destination and the data. *)
Definition outer (destination encrypted : list Z) : Packet.rns_packet :=
  {| Packet.header_type := 0; Packet.context_flag := 0; Packet.transport_type := 0; Packet.destination_type := 0; Packet.packet_type := 0; Packet.hops := 0;
     Packet.transport_id := replicate 16 0; Packet.destination_hash := destination; Packet.context := 0; Packet.data := SBytes encrypted |}.

(** The status, the output buffer and [*packet_length], [n0] before the call. *)
Definition lxmf_opportunistic_packet_pack_ratchet (m : lxmf_message) (source_identity destination_identity : Identity.rns_identity) (ratchet_public : option (list Z)) (seed1 seed2 : list Z)
    (packet : option (list Z)) (packet_capacity n0 : nat) : option (lxmf_status * option (list Z) * nat) :=
  if negb source_identity.(Identity.has_private) || (if packet is None then true else false) then Some (LXMF_ERR_ARGUMENT, packet, n0)
  else
    src ← delivery_hash source_identity;
    match src with
    | None => Some (LXMF_ERR_CRYPTO, packet, n0)
    | Some expected_source =>
        dst ← delivery_hash destination_identity;
        match dst with
        | None => Some (LXMF_ERR_CRYPTO, packet, n0)
        | Some expected_destination =>
            if negb (bool_decide (m.(source) = expected_source)) || negb (bool_decide (m.(destination) = expected_destination)) then Some (LXMF_ERR_ARGUMENT, packet, n0)
            else
              x ← lxmf_pack malloc_ok m (lxmf_identity_signer (Some source_identity)) (Some (replicate Packet.RNS_MTU 0)) Packet.RNS_MTU;
              match x with
              | (LXMF_OK, Some packed_lxmf, packed_length) =>
                  if (packed_length <? LXMF_DESTINATION_LENGTH)%nat then Some (LXMF_ERR_BOUNDS, packet, n0)
                  else
                    plain ← memread packed_lxmf LXMF_DESTINATION_LENGTH (packed_length - LXMF_DESTINATION_LENGTH);
                    match Identity.rns_identity_encrypt destination_identity ratchet_public seed1 seed2 plain Packet.RNS_MTU with
                    | None => Some (LXMF_ERR_BOUNDS, packet, n0)
                    | Some encrypted =>
                        e ← Packet.rns_packet_encode (outer expected_destination encrypted) packet packet_capacity (Some n0);
                        match e with
                        | (true, packet, Some n) => Some (LXMF_OK, packet, n)
                        | (_, packet, _) => Some (LXMF_ERR_BOUNDS, packet, n0)
                        end
                    end
              | (LXMF_OK, None, _) => None
              | (st, _, _) => Some (st, packet, n0)
              end
        end
    end.

Definition lxmf_opportunistic_packet_pack (m : lxmf_message) (source_identity destination_identity : Identity.rns_identity) (seed1 seed2 : list Z)
    (packet : option (list Z)) (packet_capacity n0 : nat) : option (lxmf_status * option (list Z) * nat) :=
  lxmf_opportunistic_packet_pack_ratchet m source_identity destination_identity None seed1 seed2 packet packet_capacity n0.

(** What unpacking sets besides the plaintext, once it has decrypted. *)
Record opened : Type := { o_message : option lxmf_message; o_ratchet_id : list Z; o_used_ratchet : bool }.

(** The status, the plaintext buffer once it was decrypted, [*plaintext_length] and the
    rest. *)
Definition lxmf_opportunistic_packet_unpack_ratchets (packet : slice) (local_identity : Identity.rns_identity) (ratchets : list (list Z)) (enforce_ratchets : bool)
    (verifier : option (list Z -> list Z -> list Z -> lxmf_status)) (plaintext : option (list Z)) (plaintext_capacity n0 : nat) (want_id : bool)
    : option (lxmf_status * option (list Z) * nat * option opened) :=
  match packet, plaintext with
  | SBytes _, Some o =>
      if negb local_identity.(Identity.has_private) then Some (LXMF_ERR_ARGUMENT, None, n0, None)
      else if (plaintext_capacity <? LXMF_DESTINATION_LENGTH)%nat then Some (LXMF_ERR_BOUNDS, None, 0%nat, None)
      else
        match Packet.rns_packet_decode packet with
        | None => Some (LXMF_ERR_FORMAT, None, 0%nat, None)
        | Some outer =>
            if negb (outer.(Packet.header_type) =? 0) || negb (outer.(Packet.destination_type) =? 0) || negb (outer.(Packet.packet_type) =? 0) || negb (outer.(Packet.context) =? 0)
            then Some (LXMF_ERR_FORMAT, None, 0%nat, None)
            else
              dst ← delivery_hash local_identity;
              match dst with
              | None => Some (LXMF_ERR_CRYPTO, None, 0%nat, None)
              | Some expected_destination =>
                  if negb (bool_decide (outer.(Packet.destination_hash) = expected_destination)) then Some (LXMF_ERR_FORMAT, None, 0%nat, None)
                  else
                    o ← memcpy o 0 outer.(Packet.destination_hash);
                    match Identity.rns_identity_decrypt_with_ratchets local_identity ratchets enforce_ratchets outer.(Packet.data) (plaintext_capacity - LXMF_DESTINATION_LENGTH) want_id with
                    | None => Some (LXMF_ERR_CRYPTO, None, 0%nat, None)
                    | Some d =>
                        let decrypted := d.(Identity.plaintext) in
                        o ← memcpy o LXMF_DESTINATION_LENGTH decrypted;
                        if (plaintext_capacity - LXMF_DESTINATION_LENGTH <? length decrypted)%nat then Some (LXMF_ERR_BOUNDS, None, 0%nat, None)
                        else
                          let n := (LXMF_DESTINATION_LENGTH + length decrypted)%nat in
                          b ← memread o 0 n;
                          x ← lxmf_unpack malloc_ok (SBytes b) verifier;
                          Some (x.1, Some o, n, Some {| o_message := x.2; o_ratchet_id := d.(Identity.ratchet_id); o_used_ratchet := d.(Identity.used_ratchet) |})
                    end
              end
        end
  | _, _ => Some (LXMF_ERR_ARGUMENT, None, n0, None)
  end.

Definition lxmf_opportunistic_packet_unpack (packet : slice) (local_identity : Identity.rns_identity) (verifier : option (list Z -> list Z -> list Z -> lxmf_status))
    (plaintext : option (list Z)) (plaintext_capacity n0 : nat) : option (lxmf_status * option (list Z) * nat * option opened) :=
  lxmf_opportunistic_packet_unpack_ratchets packet local_identity [] false verifier plaintext plaintext_capacity n0 false.
End Packing.

(** ** Any packet *)

Section Specification.
Context `{Crypto}.

Lemma delivery_hash_total malloc_ok i : exists r, delivery_hash malloc_ok i = Some r.
Proof.
  unfold delivery_hash, Destination.rns_destination_hash. destruct (malloc_ok 14%nat) eqn:Em.
  - destruct (Destination.rns_destination_name_hash_spec (λ n, malloc_ok (Z.to_nat n)) [108; 120; 109; 102] [[100; 101; 108; 105; 118; 101; 114; 121]]) as [E _]; [by apply Destination.valid_component_spec| | |done|].
    + apply Forall_singleton. by apply Destination.valid_component_spec.
    + vm_compute. discriminate.
    + cbn [fmap list_fmap] in E. rewrite E. cbn [mbind option_bind]. destruct (_ ≫= _); by eexists.
  - unfold Destination.rns_destination_name_hash. cbn. change (SIZE_MAX - Z.of_nat 4 - 1 <? Z.of_nat 8) with false. cbn [mbind option_bind]. change (Z.to_nat (Z.of_nat 4 + (1 + Z.of_nat 8) + 1)) with 14%nat. rewrite Em. by eexists.
Qed.

Lemma delivery_hash_length malloc_ok i d : delivery_hash malloc_ok i = Some (Some d) -> length d = 16%nat.
Proof. intros E. apply (Paper.delivery_hash_ok malloc_ok i d E). Qed.

(** What decrypting gives. *)
Lemma decrypt_private_bytes i k c cap p : Identity.decrypt_with_private i k c cap = Some p -> bytes_ok c -> bytes_ok p /\ (length p <= cap)%nat.
Proof.
  unfold Identity.decrypt_with_private. intros (? & _ & E)%bind_Some Hb. apply bind_Some in E as (? & _ & E). split; [|apply (token_decrypt_size _ _ _ _ E)].
  eapply token_decrypt_bytes; [done|]. by apply Forall_drop.
Qed.

Lemma try_ratchets_bytes i ks c cap w d : Identity.try_ratchets i ks c cap w = Some (Some d) -> bytes_ok c -> bytes_ok (Identity.plaintext d) /\ (length (Identity.plaintext d) <= cap)%nat.
Proof.
  intros E Hb. induction ks as [|k ks IH]; cbn [Identity.try_ratchets] in E; [done|]. destruct (Identity.decrypt_with_private i k c cap) as [p|] eqn:Ep; [|by apply IH]. apply decrypt_private_bytes in Ep as [? ?]; [|done].
  injection E as E. destruct w; [apply bind_Some in E as (? & _ & [= <-])|injection E as <-]; done.
Qed.

Lemma decrypt_ratchets_bytes i ks enforce c cap w d : Identity.rns_identity_decrypt_with_ratchets i ks enforce (SBytes c) cap w = Some d -> bytes_ok c ->
  bytes_ok (Identity.plaintext d) /\ (length (Identity.plaintext d) <= cap)%nat.
Proof.
  unfold Identity.rns_identity_decrypt_with_ratchets. destruct (_ || _); [done|]. destruct (Identity.try_ratchets _ _ _ _ _) as [r|] eqn:Et.
  - intros -> Hb. by eapply try_ratchets_bytes.
  - destruct enforce; [done|]. intros (p & Ep & [= <-])%bind_Some Hb. by apply decrypt_private_bytes in Ep.
Qed.

(** The data of a packet that was decoded. *)
Lemma decoded_data raw p : bytes_ok raw -> Packet.rns_packet_decode (SBytes raw) = Some p -> exists c, Packet.data p = SBytes c /\ bytes_ok c.
Proof.
  intros Hb Hd. destruct (Packet.decode_raw raw p Hb Hd) as (f & Er & _ & Hwf & Hc & _). exists (slice_bytes (Packet.data p)). split; [rewrite <-Hc at 1; done|].
  rewrite Er in Hb. unfold Packet.wire in Hb. cbn [app drop] in Hb. do 2 apply Forall_cons_1 in Hb as [_ Hb]. apply Forall_app in Hb as [_ Hb]. by apply Forall_cons_1 in Hb as [_ Hb].
Qed.

(** A packet that holds a message for an identity: it is decoded and decrypted, and the
    message is found in its destination and the plaintext. *)
Record holds (malloc_ok : nat -> bool) (raw : list Z) (i : Identity.rns_identity) (ks : list (list Z)) (enforce : bool) (cap : nat) (w : bool) (m : lxmf_message) : Prop := {
  ho_packet : exists p d, Packet.rns_packet_decode (SBytes raw) = Some p /\ Packet.header_type p = 0 /\ Packet.destination_type p = 0 /\ Packet.packet_type p = 0 /\ Packet.context p = 0 /\
    Packet.destination_hash p = destination m /\ Identity.rns_identity_decrypt_with_ratchets i ks enforce (Packet.data p) (cap - 16) w = Some d /\ named (destination m ++ Identity.plaintext d) m;
  ho_address : delivery_hash malloc_ok i = Some (Some (destination m));
  ho_slices : slices_ok m
}.

Lemma holds_sizes malloc_ok raw i ks enforce cap w m : holds malloc_ok raw i ks enforce cap w m -> length (destination m) = 16%nat /\ length (source m) = 16%nat /\ length (message_id m) = 32%nat.
Proof.
  intros [(p & d & _ & _ & _ & _ & _ & _ & _ & [(_ & ? & ? & _) Hid]) _ _]. split_and!; [done|done|]. pose proof (lxmf_sha256_spec (replicate 64 0) (destination m ++ source m ++ payload_image m false) eq_refl) as [_ (x & Hx & ?)].
  rewrite Hid in Hx. injection Hx as ->. tauto.
Qed.

(** The source of a message is that of its packet. *)
Lemma holds_source malloc_ok raw i ks enforce cap w m m' : holds malloc_ok raw i ks enforce cap w m -> holds malloc_ok raw i ks enforce cap w m' -> source m = source m'.
Proof.
  intros [(p & d & Ep & _ & _ & _ & _ & Hd & Hdec & [(El & L1 & L2 & _) _]) _ _] [(p' & d' & Ep' & _ & _ & _ & _ & Hd' & Hdec' & [(El' & L1' & L2' & _) _]) _ _]. rewrite Ep in Ep'. injection Ep' as <-. rewrite Hdec in Hdec'. injection Hdec' as <-.
  apply app_inv_head in El, El'. apply (f_equal (take 16)) in El, El'. rewrite !take_app_length' in El, El' by done. congruence.
Qed.

(** Unpacking is memory safe on any bytes, and tells which messages it found. *)
Lemma opportunistic_unpack_total malloc_ok raw i ks enforce verify o cap n0 w : bytes_ok raw -> (cap <= length o)%nat ->
  exists st o' n op, lxmf_opportunistic_packet_unpack_ratchets malloc_ok (SBytes raw) i ks enforce (Some verify) (Some o) cap n0 w = Some (st, o', n, op) /\
    (st = LXMF_OK \/ st = LXMF_ERR_UNKNOWN_SIGNER -> exists x m, op = Some x /\ o_message x = Some m /\ holds malloc_ok raw i ks enforce cap w m /\
      st = verdict (verify (source m) (destination m ++ source m ++ payload_image m false ++ message_id m) (signature m))).
Proof.
  intros Hraw Hcap. unfold lxmf_opportunistic_packet_unpack_ratchets. change LXMF_DESTINATION_LENGTH with 16%nat. destruct (negb _); [eexists _, _, _, _; split; [done|by intros [|]]|].
  destruct (Nat.ltb_spec cap 16) as [|H16]; [eexists _, _, _, _; split; [done|by intros [|]]|].
  destruct (Packet.rns_packet_decode (SBytes raw)) as [p|] eqn:Ep; [|eexists _, _, _, _; split; [done|by intros [|]]]. destruct (_ || _) eqn:Eh; [eexists _, _, _, _; split; [done|by intros [|]]|].
  destruct (delivery_hash_total malloc_ok i) as [dst Hd]. rewrite Hd. cbn [mbind option_bind]. destruct dst as [dst|]; [|eexists _, _, _, _; split; [done|by intros [|]]].
  destruct (bool_decide_reflect (Packet.destination_hash p = dst)) as [<-|]; cbn [negb]; [|eexists _, _, _, _; split; [done|by intros [|]]].
  destruct (decoded_data raw p Hraw Ep) as (c & Hc & Hcb). destruct (Packet.decode_raw raw p Hraw Ep) as (_ & _ & _ & Hwf & _). pose proof (Packet.wf_destination p Hwf) as Hl16.
  destruct (wrote_memcpy (length o) o [] (Packet.destination_hash p) (wrote_nil _ _ eq_refl)) as (o1 & E1 & Hw1); [cbn; lia|]. cbn [length app] in E1, Hw1. rewrite E1. cbn [mbind option_bind]. rewrite Hc.
  destruct (Identity.rns_identity_decrypt_with_ratchets _ _ _ _ _ _) as [d|] eqn:Edec; [|eexists _, _, _, _; split; [done|by intros [|]]]. destruct (decrypt_ratchets_bytes _ _ _ _ _ _ _ Edec Hcb) as [Hpb Hpl].
  destruct (wrote_memcpy (length o) o1 _ (Identity.plaintext d) Hw1) as (o2 & E2 & Hw2); [lia|]. rewrite Hl16 in E2. rewrite E2. cbn [mbind option_bind]. rewrite (proj2 (Nat.ltb_ge _ _)) by lia.
  destruct Hw2 as (Hlq & Htk & Hlw). rewrite length_app, Hl16 in Htk, Hlw. rewrite memread_in by lia. rewrite drop_0, Htk. cbn [mbind option_bind].
  assert (bytes_ok (Packet.destination_hash p ++ Identity.plaintext d)) as Hlb by (apply Forall_app; split; [by apply (Paper.delivery_hash_ok malloc_ok i)|done]).
  destruct (lxmf_unpack_named malloc_ok _ verify Hlb) as (st & om & -> & Hok). cbn [mbind option_bind fst snd]. eexists _, _, _, _. split; [done|]. intros Hst. destruct (Hok Hst) as (m & -> & Hsl & Hn & Hv).
  eexists _, m. split; [done|]. split; [done|]. split; [|done]. assert (Packet.destination_hash p = destination m) as Ed.
  { destruct Hn as [(El & Hlen & _) _]. apply (f_equal (take 16)) in El. by rewrite !take_app_length' in El by done. }
  apply orb_false_iff in Eh as [[[H1 H2]%orb_false_iff H3]%orb_false_iff H4]. constructor; [|by rewrite <-Ed|done]. exists p, d. rewrite Hc, Ed in *. split_and!; try done; lia.
Qed.

(** ** A packet of one's own *)

Lemma outer_wf d c : length d = 16%nat -> Packet.wf (outer d c).
Proof. intros Hd. constructor; cbn; try done; lia. Qed.

Lemma outer_wire d c : Packet.wire (outer d c) = [0; 0] ++ d ++ [0] ++ c.
Proof. done. Qed.

(** What a packed packet is made of. *)
Lemma opportunistic_pack_inv m who dest rpub s1 s2 out cap n0 packet n :
  message_ok m -> (forall d, is_Some (rns_ed25519_sign (Identity.signing_private who) d)) -> (cap <= length out)%nat ->
  lxmf_opportunistic_packet_pack_ratchet (λ _, true) m who dest rpub s1 s2 (Some out) cap n0 = Some (LXMF_OK, Some packet, n) ->
  exists sig id c ecap, let plain := source m ++ sig ++ payload_image m (has_stamp m) in
    rns_ed25519_sign (Identity.signing_private who) (destination m ++ source m ++ payload_image m false ++ id) = Some sig /\ sha256 (destination m ++ source m ++ payload_image m false) = Some id /\
    delivery_hash (λ _, true) dest = Some (Some (destination m)) /\ Identity.rns_identity_encrypt dest rpub s1 s2 plain ecap = Some c /\
    n = (19 + length c)%nat /\ (n <= Packet.RNS_MTU)%nat /\ take n packet = Packet.wire (outer (destination m) c).
Proof.
  intros Hm Hsign Hcap E. unfold lxmf_opportunistic_packet_pack_ratchet in E. destruct (Identity.has_private who) eqn:Hpriv; cbn [negb orb] in E; [|done].
  apply bind_Some in E as (src & _ & E). destruct src as [src|]; [|done]. apply bind_Some in E as (dst & Edst & E). destruct dst as [dst|]; [|done].
  destruct (bool_decide_reflect (source m = src)) as [<-|]; cbn [negb orb] in E; [|done]. destruct (bool_decide_reflect (destination m = dst)) as [<-|]; cbn [negb] in E; [|done].
  apply bind_Some in E as (x & Ep & E). destruct x as [[st p] plen]. destruct st, p as [p|]; try done.
  destruct (Paper.pack_plain m who (replicate Packet.RNS_MTU 0) Packet.RNS_MTU p plen Hm Hsign Hpriv ltac:(by rewrite length_replicate) Ep) as (sig & id & Hsig & Hid & H16 & Hplain).
  change LXMF_DESTINATION_LENGTH with 16%nat in E. rewrite (proj2 (Nat.ltb_ge _ _)) in E by done. rewrite Hplain in E. cbn [mbind option_bind] in E.
  destruct (Identity.rns_identity_encrypt _ _ _ _ _ _) as [c|] eqn:Ec in E; [|done]. apply bind_Some in E as (e & Ee & E). pose proof Hm as [[D1 _] _ _ _ _ _ _].
  pose proof (Packet.encode_wire (outer (destination m) c) out cap n0 (outer_wf _ c D1) Hcap) as Hw. destruct (decide _) as [Hfit|] in Hw; [|rewrite Hw in Ee; injection Ee as <-; done].
  destruct Hw as (o' & Hw & _ & Htk & _). remember (length (Packet.wire (outer (destination m) c))) as k eqn:Hk. rewrite Hw in Ee. injection Ee as <-. injection E as <- <-. exists sig, id, c, Packet.RNS_MTU. cbv zeta.
  split_and!; [done|done|done|done| |tauto|done]. rewrite Hk, outer_wire, !length_app, D1. cbn [length]. lia.
Qed.

(** Opportunistic delivery. A message packed into one packet for the holder of an identity
    is unpacked by it, trying its ratchets, to the message, verified, with the
    destination, source, time, title, content, fields and stamp of the original. *)
Theorem opportunistic_roundtrip m who peer resolve dest rpub ratchets enforce s1 s2 out cap n0 packet n q qcap :
  message_ok m -> (forall d, is_Some (rns_ed25519_sign (Identity.signing_private who) d)) -> rns_ed25519_public_from_private (Identity.signing_private who) = Some (Identity.signing_public who) ->
  resolve (source m) = Some peer -> Identity.signing_public peer = Identity.signing_public who -> Identity.wf dest -> Identity.has_private dest = true ->
  (cap <= length out)%nat -> lxmf_opportunistic_packet_pack_ratchet (λ _, true) m who (Identity.public_half dest) rpub s1 s2 (Some out) cap n0 = Some (LXMF_OK, Some packet, n) ->
  Paper.opens dest (drop 19 (take n packet)) (qcap - 16) rpub ratchets enforce -> (n <= qcap <= length q)%nat ->
  exists q' k x sig id,
    lxmf_opportunistic_packet_unpack_ratchets (λ _, true) (SBytes (take n packet)) dest ratchets enforce (Some (lxmf_identity_verifier (Some resolve))) (Some q) qcap n0 true = Some (LXMF_OK, Some q', k, Some x) /\
    o_message x = Some (identified (received (empty_message (destination m) (source m) sig) m) id) /\ sha256 (destination m ++ source m ++ payload_image m false) = Some id.
Proof.
  intros Hm Hsign Hpub Hres Hpeer Hwf Hpriv Hout Hpack Hop Hq.
  destruct (opportunistic_pack_inv _ _ _ _ _ _ _ _ _ _ _ Hm Hsign Hout Hpack) as (sig & id & c & ecap & Hsig & Hid & Hd & Henc & Hn & Hmtu & Htake). change (delivery_hash (λ _, true) dest = Some (Some (destination m))) in Hd.
  pose proof Hm as [[D1 _] _ _ _ _ _ _]. rewrite Htake in *. assert (drop 19 (Packet.wire (outer (destination m) c)) = c) as Hdrop.
  { rewrite outer_wire. rewrite (app_assoc _ _ ([0] ++ c)), (app_assoc _ [0] c). apply drop_app_length'. rewrite !length_app, D1. done. }
  rewrite Hdrop in Hop. destruct (Paper.opens_decrypts dest c _ rpub ratchets enforce s1 s2 _ ecap Hwf Hpriv Hop Henc ltac:(lia)) as (Hpl & d & Hdec & Hplain).
  unfold lxmf_opportunistic_packet_unpack_ratchets. rewrite Hpriv. cbn [negb]. change LXMF_DESTINATION_LENGTH with 16%nat. rewrite (proj2 (Nat.ltb_ge _ _)) by lia.
  rewrite (Packet.decode_wire _ (outer_wf _ c D1)); [| |rewrite outer_wire, !length_app, D1; cbn [length]; lia]; [|intros E; cbn [outer Packet.data slice_bytes] in E; rewrite E in Hpl; cbn in Hpl; lia].
  cbn [Packet.canonical outer Packet.header_type Packet.destination_type Packet.packet_type Packet.context Packet.destination_hash Packet.data slice_bytes Z.eqb negb orb]. rewrite Hd. cbn [mbind option_bind].
  rewrite bool_decide_true by done. cbn [negb].
  destruct (wrote_memcpy (length q) q [] (destination m) (wrote_nil _ _ eq_refl)) as (q1 & E1 & Hw1); [cbn; lia|]. cbn [length app] in E1, Hw1. rewrite E1. cbn [mbind option_bind]. rewrite Hdec, Hplain.
  destruct (wrote_memcpy (length q) q1 (destination m) (source m ++ sig ++ payload_image m (has_stamp m)) Hw1 ltac:(lia)) as (q2 & E2 & Hw2). rewrite D1 in E2. rewrite E2. cbn [mbind option_bind]. rewrite (proj2 (Nat.ltb_ge _ _)) by lia.
  destruct Hw2 as (Hlq & Htk & Hlw). rewrite length_app, D1 in Htk, Hlw. rewrite memread_in by lia. rewrite drop_0, Htk. cbn [mbind option_bind]. rewrite (Paper.unpack_verified m sig id who peer resolve) by done.
  cbn [mbind option_bind fst snd]. eexists _, _, _, sig, id. by split_and!.
Qed.
End Specification.

(** ** Witness *)

Lemma sample_packet_ok : exists packet, lxmf_opportunistic_packet_pack_ratchet (λ _, true) Paper.paper_message Identity.sample (Identity.public_half Identity.sample) (Some (fold_to 32 [5])) [3] [4]
    (Some (replicate 300 0)) 300 0 = Some (LXMF_OK, Some packet, 211%nat).
Proof. eexists. vm_compute. reflexivity. Qed.

Lemma opportunistic_roundtrip_witness : exists packet q' k x,
  lxmf_opportunistic_packet_pack_ratchet (λ _, true) Paper.paper_message Identity.sample (Identity.public_half Identity.sample) (Some (fold_to 32 [5])) [3] [4] (Some (replicate 300 0)) 300 0 =
    Some (LXMF_OK, Some packet, 211%nat) /\
  lxmf_opportunistic_packet_unpack_ratchets (λ _, true) (SBytes (take 211 packet)) Identity.sample [[5]] true (Some (lxmf_identity_verifier (Some (λ _, Some Identity.sample)))) (Some (replicate 300 0)) 300 0 true =
    Some (LXMF_OK, Some q', k, Some x).
Proof.
  destruct sample_packet_ok as (packet & Hp).
  destruct (opportunistic_roundtrip Paper.paper_message Identity.sample Identity.sample (λ _, Some Identity.sample) Identity.sample (Some (fold_to 32 [5])) [[5]] true [3] [4] (replicate 300 0) 300 0 packet 211
    (replicate 300 0) 300) as (q' & k & x & sig & id & Hun & _).
  - apply Paper.paper_message_ok.
  - intros d. by eexists.
  - vm_compute. reflexivity.
  - reflexivity.
  - reflexivity.
  - apply Identity.sample_wf.
  - vm_compute. reflexivity.
  - rewrite length_replicate. lia.
  - exact Hp.
  - apply (Paper.opens_ratchet Identity.sample (drop 19 (take 211 packet)) (300 - 16) [] [5] [] (fold_to 32 [5]) true); [vm_compute; reflexivity|apply Forall_nil_2|vm_compute; discriminate].
  - rewrite length_replicate. lia.
  - exists packet, q', k, x. split; [exact Hp|exact Hun].
Defined.
End Delivery.
