(* ===== verification/AnnounceData.v ===== *)
(** * What an announce says of a delivery destination

    [lxmf/router.c]: the application data of an announce, a MessagePack array of the
    display name, the cost of stamps, the supported functions and extensions that are
    kept byte for byte, or the bare name of older peers. *)

From Stdlib Require Import ZArith Lia.
From S2P Require Import Prelude Request Lxmf Utf8.

Module AnnounceData.
Import Lxmf.

(** ** Data *)

Definition LXMF_DISPLAY_NAME_MAX : nat := 127.
Definition LXMF_IDENTITY_PUBLIC_LENGTH : nat := 64.
Definition LXMF_FEATURE_COMPRESSION : Z := 1.
Definition LXMF_ANNOUNCE_FUNCTIONS_MAX : nat := 32.
Definition LXMF_ANNOUNCE_EXTENSIONS_MAX : nat := 256.

(** The arrays have 128, 32 and 256 bytes. *)
Record lxmf_announce_data : Type := {
  display_name : list Z;
  display_name_len : nat;
  has_stamp_cost : bool;
  stamp_cost : Z;
  features : Z;
  supported_functions : list Z;
  supported_function_count : nat;
  extensions : list Z;
  extensions_len : nat;
  extension_count : nat
}.

(** The structure after [memset]. *)
Definition zero_data : lxmf_announce_data :=
  {| display_name := replicate 128 0; display_name_len := 0; has_stamp_cost := false; stamp_cost := 0; features := 0; supported_functions := replicate 32 0; supported_function_count := 0;
     extensions := replicate 256 0; extensions_len := 0; extension_count := 0 |}.

(** ** Text *)

(** What the first byte of a longer sequence says: the number of bytes behind it and the
    first bits. *)
Definition utf8_first (c : Z) : option (nat * Z) :=
  if Z.land c 0xe0 =? 0xc0 then
    let cp := Z.land c 0x1f in if cp <? 2 then None else Some (1%nat, cp)
  else if Z.land c 0xf0 =? 0xe0 then Some (2%nat, Z.land c 0x0f)
  else if Z.land c 0xf8 =? 0xf0 then Some (3%nat, Z.land c 7)
  else None.

(** The inner loop over [more] bytes; [Some None] is [return false]. *)
Fixpoint utf8_more (more : nat) (cp : Z) (s : list Z) : option (option (Z * list Z)) :=
  match more with
  | O => Some (Some (cp, s))
  | S more =>
      match s with
      | [] => None
      | d :: s => if negb (Z.land d 0xc0 =? 0x80) then Some None else utf8_more more (Z.lor (wrap32 (Z.shiftl cp 6)) (Z.land d 0x3f)) s
      end
  end.

(** The outer loop; every round takes a byte of [s]. *)
Fixpoint utf8_rounds (fuel : nat) (s : list Z) : option bool :=
  match s with
  | [] => Some true
  | c :: s =>
      match fuel with
      | O => None
      | S fuel =>
          if c <? 0x80 then utf8_rounds fuel s
          else match utf8_first c with
          | None => Some false
          | Some (more, cp) =>
              if (length s <? more)%nat then Some false
              else
                x ← utf8_more more cp s;
                match x with
                | None => Some false
                | Some (cp, s) =>
                    if (0x10ffff <? cp) || ((0xd800 <=? cp) && (cp <=? 0xdfff)) || ((more =? 2)%nat && (cp <? 0x800)) || ((more =? 3)%nat && (cp <? 0x10000)) then Some false
                    else utf8_rounds fuel s
                end
          end
      end
  end.

Definition valid_utf8 (s : list Z) : option bool := utf8_rounds (length s) s.

(** ** Reading

    An [rd] is the bytes from [p] to [end]; [Some None] is [return false]. *)

Definition takes (r : list Z) (n : Z) : option (option (list Z * list Z)) :=
  if Z.of_nat (length r) <? n then Some None
  else b ← memread r 0 (Z.to_nat n); Some (Some (b, drop (Z.to_nat n) r)).

(** Two bytes as a length. *)
Definition length16 (r : list Z) : option (option (Z * list Z)) :=
  if (length r <? 2)%nat then Some None else a ← load r 0; b ← load r 1; Some (Some (Z.lor (Z.shiftl a 8) b, drop 2 r)).

Definition length8 (r : list Z) : option (option (Z * list Z)) := Some (match r with [] => None | n :: r => Some (n, r) end).

Definition parse_bytes (r : list Z) : option (option (list Z * list Z)) :=
  match r with
  | [] => Some None
  | c :: r =>
      len ← (if Z.land c 0xe0 =? 0xa0 then Some (Some (Z.land c 31, r))
             else if (c =? 0xc4) || (c =? 0xd9) then length8 r
             else if (c =? 0xc5) || (c =? 0xda) then length16 r
             else Some None);
      match len with None => Some None | Some (n, r) => takes r n end
  end.

Definition parse_uint (r : list Z) : option (option (Z * list Z)) :=
  Some (match r with
        | [] => None
        | c :: r => if c <=? 0x7f then Some (c, r) else if c =? 0xcc then (match r with v :: r => Some (v, r) | [] => None end) else None
        end).

(** [f] [n] times. *)
Fixpoint times (f : list Z -> option (option (list Z))) (n : nat) (r : list Z) : option (option (list Z)) :=
  match n with
  | O => Some (Some r)
  | S n => x ← f r; match x with None => Some None | Some r => times f n r end
  end.

(** The bytes and the objects inside an object that starts with [c]. *)
Definition object_size (c : Z) (r : list Z) : option (option (Z * nat * list Z)) :=
  let sized x := x ← x; Some (match x with None => None | Some (n, r) => Some (n, 0%nat, r) end) in
  if Z.land c 0xe0 =? 0xa0 then Some (Some (Z.land c 31, 0%nat, r))
  else if Z.land c 0xf0 =? 0x90 then Some (Some (0, Z.to_nat (Z.land c 15), r))
  else if Z.land c 0xf0 =? 0x80 then Some (Some (0, Z.to_nat (2 * Z.land c 15), r))
  else if (c =? 0xc4) || (c =? 0xd9) then sized (length8 r)
  else if (c =? 0xc5) || (c =? 0xda) then sized (length16 r)
  else if (c =? 0xcc) || (c =? 0xd0) then Some (Some (1, 0%nat, r))
  else if (c =? 0xcd) || (c =? 0xd1) then Some (Some (2, 0%nat, r))
  else if (c =? 0xce) || (c =? 0xd2) || (c =? 0xca) then Some (Some (4, 0%nat, r))
  else if (c =? 0xcf) || (c =? 0xd3) || (c =? 0xcb) then Some (Some (8, 0%nat, r))
  else Some None.

(** [levels] is [17 - depth]. *)
Fixpoint skip (levels : nat) (r : list Z) : option (option (list Z)) :=
  match levels, r with
  | S levels, c :: r =>
      if (c <=? 0x7f) || (0xe0 <=? c) || (c =? 0xc0) || (c =? 0xc2) || (c =? 0xc3) then Some (Some r)
      else
        x ← object_size c r;
        match x with
        | None => Some None
        | Some (n, items, r) =>
            if Z.of_nat (length r) <? n then Some None
            else times (skip levels) items (drop (Z.to_nat n) r)
        end
  | _, _ => Some None
  end.

Definition skip_top : list Z -> option (option (list Z)) := skip 17.

(** ** Writing: a [wr] is a [writer] of [Lxmf] *)

Definition put (w : writer) (p : list Z) : option (bool * writer) := Lxmf.put w p.

Definition byte (b : Z) (w : writer) : option (bool * writer) := put w [b].

Definition encode_bin (p : list Z) (w : writer) : option (bool * writer) :=
  let n := Z.of_nat (length p) in
  if n <=? 255 then and_then (λ w, put w [0xc4; wrap8 n]) (λ w, put w p) w
  else if n <=? 65535 then and_then (λ w, put w [0xc5; wrap8 (Z.shiftr n 8); wrap8 n]) (λ w, put w p) w
  else Some (false, w).

(** The header of an array. *)
Definition put_array (count : nat) (w : writer) : option (bool * writer) :=
  let n := Z.of_nat count in
  if n <=? 15 then byte (wrap8 (Z.lor 0x90 n)) w else put w [0xdc; wrap8 (Z.shiftr n 8); wrap8 n].

(** A number of one byte. *)
Definition put_small (v : Z) (w : writer) : option (bool * writer) := if v <=? 127 then byte v w else put w [0xcc; v].

Definition put_cost (d : lxmf_announce_data) (w : writer) : option (bool * writer) := if d.(has_stamp_cost) then put_small d.(stamp_cost) w else byte 0xc0 w.

(** The loop over the functions. *)
Fixpoint put_functions (l : list Z) (w : writer) : option (bool * writer) :=
  match l with [] => Some (true, w) | f :: l => and_then (put_small f) (put_functions l) w end.

(** The functions that are written: those of the structure, or the one that says the same
    as the feature bit. *)
Definition functions (d : lxmf_announce_data) : option (list Z) :=
  if (d.(supported_function_count) =? 0)%nat && negb (Z.land d.(features) LXMF_FEATURE_COMPRESSION =? 0) then Some [0]
  else memread d.(supported_functions) 0 d.(supported_function_count).

Definition cost_bad (d : lxmf_announce_data) : bool := d.(has_stamp_cost) && ((d.(stamp_cost) <? 1) || (254 <? d.(stamp_cost))).

(** The status, the output buffer and [*out_len], [n0] before the call. *)
Definition lxmf_announce_encode (d : lxmf_announce_data) (out : option (list Z)) (cap n0 : nat) : option (lxmf_status * option (list Z) * nat) :=
  match out with
  | None => Some (LXMF_ERR_ARGUMENT, out, n0)
  | Some o =>
      if (LXMF_DISPLAY_NAME_MAX <? d.(display_name_len))%nat then Some (LXMF_ERR_ARGUMENT, out, n0)
      else
        name ← memread d.(display_name) 0 d.(display_name_len);
        valid ← valid_utf8 name;
        if negb valid || cost_bad d || (LXMF_ANNOUNCE_FUNCTIONS_MAX <? d.(supported_function_count))%nat || (LXMF_ANNOUNCE_EXTENSIONS_MAX <? d.(extensions_len))%nat || (65532 <? Z.of_nat d.(extension_count))
        then Some (LXMF_ERR_ARGUMENT, out, n0)
        else
          ext ← memread d.(extensions) 0 d.(extensions_len);
          rest ← times skip_top d.(extension_count) ext;
          match rest with
          | Some [] =>
              fs ← functions d;
              x ← and_then (put_array (3 + d.(extension_count))) (and_then (encode_bin name) (and_then (put_cost d) (and_then (put_array (length fs)) (and_then (put_functions fs) (λ w, put w ext)))))
                    {| wbuf := o; wpos := 0; left := cap |};
              Some (if x.1 : bool then (LXMF_OK, Some x.2.(wbuf), (cap - x.2.(left))%nat) else (LXMF_ERR_BOUNDS, Some x.2.(wbuf), n0))
          | _ => Some (LXMF_ERR_ARGUMENT, out, n0)
          end
  end.

(** ** Parsing *)

(** The display name, with its terminating zero. *)
Definition set_name (name : list Z) (d : lxmf_announce_data) : option lxmf_announce_data :=
  n ← memcpy d.(display_name) 0 name;
  n ← store n (length name) 0;
  Some {| d with display_name := n; display_name_len := length name |}.

(** What is assumed of a peer that does not say which functions it supports. *)
Definition default_functions (d : lxmf_announce_data) : option lxmf_announce_data :=
  fs ← store d.(supported_functions) 0 0;
  Some {| d with features := LXMF_FEATURE_COMPRESSION; supported_functions := fs; supported_function_count := 1%nat |}.

(** The number of elements of an array. *)
Definition array_count (r : list Z) : option (option (Z * list Z)) :=
  match r with
  | [] => None
  | c :: r => if Z.land c 0xf0 =? 0x90 then Some (Some (Z.land c 15, r)) else length16 r
  end.

(** The second element. *)
Definition parse_cost (d : lxmf_announce_data) (r : list Z) : option (option (lxmf_announce_data * list Z)) :=
  match r with
  | [] => Some None
  | c :: r' =>
      if c =? 0xc0 then Some (Some (d, r'))
      else
        x ← parse_uint r;
        Some (match x with
              | None => None
              | Some (cost, r) => if (cost <? 1) || (254 <? cost) then None else Some ({| d with has_stamp_cost := true; stamp_cost := cost |}, r)
              end)
  end.

(** The loop over the functions. *)
Fixpoint parse_functions (n : nat) (d : lxmf_announce_data) (r : list Z) : option (option (lxmf_announce_data * list Z)) :=
  match n with
  | O => Some (Some (d, r))
  | S n =>
      x ← parse_uint r;
      match x with
      | None => Some None
      | Some (f, r) =>
          fs ← store d.(supported_functions) d.(supported_function_count) f;
          parse_functions n {| d with supported_functions := fs; supported_function_count := S d.(supported_function_count);
            features := if f =? 0 then Z.lor d.(features) LXMF_FEATURE_COMPRESSION else d.(features) |} r
      end
  end.

(** The third element. *)
Definition parse_function_array (d : lxmf_announce_data) (r : list Z) : option (lxmf_status + lxmf_announce_data * list Z) :=
  match r with
  | [] => Some (inl LXMF_ERR_FORMAT)
  | c :: _ =>
      if negb (Z.land c 0xf0 =? 0x90) && negb (c =? 0xdc) then Some (inl LXMF_ERR_FORMAT)
      else
        x ← array_count r;
        match x with
        | None => Some (inl LXMF_ERR_FORMAT)
        | Some (fc, r) =>
            if Z.of_nat LXMF_ANNOUNCE_FUNCTIONS_MAX <? fc then Some (inl LXMF_ERR_BOUNDS)
            else x ← parse_functions (Z.to_nat fc) d r; Some (match x with None => inl LXMF_ERR_FORMAT | Some x => inr x end)
        end
  end.

(** The elements behind the third. *)
Definition parse_extensions (count : Z) (d : lxmf_announce_data) (r : list Z) : option (lxmf_status * option lxmf_announce_data) :=
  let n := Z.to_nat (count - 3) in
  x ← times skip_top n r;
  match x with
  | None => Some (LXMF_ERR_FORMAT, None)
  | Some rest =>
      let len := (length r - length rest)%nat in
      if (LXMF_ANNOUNCE_EXTENSIONS_MAX <? len)%nat then Some (LXMF_ERR_BOUNDS, None)
      else
        b ← memread r 0 len;
        e ← memcpy d.(extensions) 0 b;
        if negb (length rest =? 0)%nat then Some (LXMF_ERR_FORMAT, None)
        else Some (LXMF_OK, Some {| d with extensions := e; extensions_len := len; extension_count := n |})
  end.

(** The status, and the structure when it is [LXMF_OK]. *)
Definition lxmf_announce_parse (input : slice) : option (lxmf_status * option lxmf_announce_data) :=
  match input with
  | SNull _ | SBytes [] => Some (LXMF_ERR_ARGUMENT, None)
  | SBytes ((first :: _) as l) =>
      if negb (Z.land first 0xf0 =? 0x90) && negb (first =? 0xdc) then
        if (LXMF_DISPLAY_NAME_MAX <? length l)%nat then Some (LXMF_ERR_FORMAT, None)
        else
          valid ← valid_utf8 l;
          if negb valid then Some (LXMF_ERR_FORMAT, None)
          else d ← set_name l zero_data; d ← default_functions d; Some (LXMF_OK, Some d)
      else
        x ← array_count l;
        match x with
        | None => Some (LXMF_ERR_FORMAT, None)
        | Some (count, r) =>
            if count <? 1 then Some (LXMF_ERR_FORMAT, None)
            else
              x ← parse_bytes r;
              match x with
              | None => Some (LXMF_ERR_FORMAT, None)
              | Some (name, r) =>
                  if (LXMF_DISPLAY_NAME_MAX <? length name)%nat then Some (LXMF_ERR_FORMAT, None)
                  else
                    valid ← valid_utf8 name;
                    if negb valid then Some (LXMF_ERR_FORMAT, None)
                    else
                      d ← set_name name zero_data;
                      x ← (if 2 <=? count then parse_cost d r else Some (Some (d, r)));
                      match x with
                      | None => Some (LXMF_ERR_FORMAT, None)
                      | Some (d, r) =>
                          x ← (if 3 <=? count then parse_function_array d r else d ← default_functions d; Some (inr (d, r)));
                          match x with
                          | inl st => Some (st, None)
                          | inr (d, r) => parse_extensions count d r
                          end
                      end
              end
        end
  end.

(** ** The two validators of text agree *)

Lemma utf8_more_eq more cp s : utf8_more more cp s = Utf8.utf8_continue more cp s.
Proof. revert cp s. induction more as [|more IH]; intros cp s; [done|]. destruct s as [|d s]; [done|]. cbn [utf8_more Utf8.utf8_continue]. by rewrite IH. Qed.

Lemma utf8_first_lead c : is_byte c -> 0x80 <= c ->
  match Utf8.utf8_lead c with
  | Some (n, cp, minimum) => utf8_first c = Some (n, cp) /\ ((n = 1%nat /\ 2 <= cp < 32 /\ minimum = 0x80) \/ (n = 2%nat /\ 0 <= cp < 16 /\ minimum = 0x800) \/ (n = 3%nat /\ 0 <= cp < 5 /\ minimum = 0x10000))
  | None => utf8_first c = None \/ exists cp, utf8_first c = Some (3%nat, cp) /\ 5 <= cp < 8
  end.
Proof.
  intros Hb H80. set (fits := λ c, (c <? 0x80) || match Utf8.utf8_lead c with
    | Some (n, cp, minimum) => bool_decide (utf8_first c = Some (n, cp)) &&
        (((n =? 1)%nat && (2 <=? cp) && (cp <? 32) && (minimum =? 0x80)) || ((n =? 2)%nat && (0 <=? cp) && (cp <? 16) && (minimum =? 0x800)) || ((n =? 3)%nat && (0 <=? cp) && (cp <? 5) && (minimum =? 0x10000)))
    | None => match utf8_first c with None => true | Some (n, cp) => (n =? 3)%nat && (5 <=? cp) && (cp <? 8) end
    end). assert (forallb fits (seqZ 0 256) = true) as Hall by (vm_compute; reflexivity).
  pose proof (forall_below 256 fits Hall c Hb) as E. unfold fits in E. rewrite (proj2 (Z.ltb_ge _ _)) in E by done. cbn [orb] in E.
  destruct (Utf8.utf8_lead c) as [[[n cp] minimum]|].
  - apply andb_prop in E as [->%bool_decide_eq_true_1 E]. split; [done|]. rewrite !orb_true_iff, !andb_true_iff, !Nat.eqb_eq, !Z.leb_le, !Z.ltb_lt, !Z.eqb_eq in E. lia.
  - destruct (utf8_first c) as [[n cp]|]; [|by left]. right. exists cp. rewrite !andb_true_iff, Nat.eqb_eq, Z.leb_le, Z.ltb_lt in E. destruct E as [[-> ?] ?]. split; [done|lia].
Qed.

Lemma utf8_value_bounds acc bs : 0 <= acc -> acc * 64 ^ Z.of_nat (length bs) <= Utf8.utf8_value acc bs.
Proof.
  revert acc. induction bs as [|b bs IH]; intros acc H0; cbn [Utf8.utf8_value foldl length]; [lia|]. pose proof (Z.mod_pos_bound b 64 ltac:(lia)) as Hm.
  specialize (IH (acc * 64 + b mod 64) ltac:(lia)). unfold Utf8.utf8_value in IH. rewrite Nat2Z.inj_succ, Z.pow_succ_r by lia. pose proof (Z.pow_pos_nonneg 64 (Z.of_nat (length bs))). nia.
Qed.

Lemma utf8_rounds_eq fuel s : bytes_ok s -> utf8_rounds fuel s = Utf8.utf8_loop fuel s.
Proof.
  revert s. induction fuel as [|fuel IH]; intros s Hs; destruct s as [|c s]; try done. cbn [utf8_rounds Utf8.utf8_loop]. apply Forall_cons_1 in Hs as [Hc Hs].
  destruct (Z.ltb_spec c 0x80) as [|H80]; [by apply IH|]. pose proof (utf8_first_lead c Hc H80) as Hf. destruct (Utf8.utf8_lead c) as [[[n cp] minimum]|].
  - destruct Hf as [-> Hn]. destruct (Nat.ltb_spec (length s) n) as [|Hl]; [done|]. rewrite utf8_more_eq.
    destruct (Utf8.utf8_continue_spec n cp s Hs Hl) as (x & -> & Hx); [lia|destruct Hn as [(-> & ? & _)|[(-> & ? & _)|(-> & ? & _)]]; cbn; lia|]. cbn [mbind option_bind]. destruct x as [[v rest]|]; [|done].
    destruct (proj1 (Hx v rest) eq_refl) as (bs & -> & Hbs & _ & Hv). apply Forall_app in Hs as [_ Hrest]. pose proof (utf8_value_bounds cp bs ltac:(lia)) as Hlow. rewrite <-Hv, Hbs in Hlow.
    rewrite (IH rest Hrest). destruct Hn as [(-> & Hcp & ->)|[(-> & ? & ->)|(-> & ? & ->)]]; cbn [Nat.eqb andb].
    + rewrite (proj2 (Z.ltb_ge v 128)) by (cbn in Hlow; lia). cbn [orb]. by rewrite !orb_false_r.
    + rewrite orb_false_r. by destruct (v <? 0x800), (0x10ffff <? v), (0xd800 <=? v), (v <=? 0xdfff).
    + rewrite orb_false_r. by destruct (v <? 0x10000), (0x10ffff <? v), (0xd800 <=? v), (v <=? 0xdfff).
  - destruct Hf as [->|(cp & -> & Hcp)]; [done|]. destruct (Nat.ltb_spec (length s) 3) as [|Hl]; [done|]. rewrite utf8_more_eq.
    destruct (Utf8.utf8_continue_spec 3 cp s Hs Hl) as (x & -> & Hx); [lia|cbn; lia|]. cbn [mbind option_bind]. destruct x as [[v rest]|]; [|done].
    destruct (proj1 (Hx v rest) eq_refl) as (bs & -> & Hbs & _ & Hv). pose proof (utf8_value_bounds cp bs ltac:(lia)) as Hlow. rewrite <-Hv, Hbs in Hlow. cbn in Hlow. by rewrite (proj2 (Z.ltb_lt _ _)) by lia.
Qed.

Lemma announce_utf8 s : bytes_ok s -> valid_utf8 s = Utf8.valid_utf8 s.
Proof. intros Hs. by apply utf8_rounds_eq. Qed.

Lemma announce_utf8_total s : bytes_ok s -> exists b, valid_utf8 s = Some b /\ (b = true <-> Utf8.utf8_text s).
Proof. intros Hs. rewrite announce_utf8 by done. by apply Utf8.utf8_loop_spec. Qed.

(** ** The image of an announce *)

Definition array_image (n : nat) : list Z := if Z.of_nat n <=? 15 then [0x90 + Z.of_nat n] else 0xdc :: be_encode 2 (Z.of_nat n).

Definition small_image (v : Z) : list Z := if v <=? 127 then [v] else [0xcc; v].

Definition cost_image (d : lxmf_announce_data) : list Z := if d.(has_stamp_cost) then small_image d.(stamp_cost) else [0xc0].

Definition name_of (d : lxmf_announce_data) : list Z := take d.(display_name_len) d.(display_name).
Definition extension_bytes (d : lxmf_announce_data) : list Z := take d.(extensions_len) d.(extensions).
Definition functions_of (d : lxmf_announce_data) : list Z :=
  if (d.(supported_function_count) =? 0)%nat && negb (Z.land d.(features) LXMF_FEATURE_COMPRESSION =? 0) then [0] else take d.(supported_function_count) d.(supported_functions).

Definition data_image (d : lxmf_announce_data) : list Z :=
  array_image (3 + d.(extension_count)) ++ ([0xc4; Z.of_nat d.(display_name_len)] ++ name_of d) ++ cost_image d ++ array_image (length (functions_of d)) ++ concat (small_image <$> functions_of d) ++ extension_bytes d.

(** The structures that can be encoded. *)
Record data_ok (d : lxmf_announce_data) : Prop := {
  do_sizes : length d.(display_name) = 128%nat /\ length d.(supported_functions) = 32%nat /\ length d.(extensions) = 256%nat;
  do_name : (d.(display_name_len) <= LXMF_DISPLAY_NAME_MAX)%nat /\ bytes_ok d.(display_name) /\ Utf8.utf8_text (name_of d);
  do_cost : d.(has_stamp_cost) = true -> 1 <= d.(stamp_cost) <= 254;
  do_functions : (d.(supported_function_count) <= LXMF_ANNOUNCE_FUNCTIONS_MAX)%nat /\ bytes_ok d.(supported_functions);
  do_extensions : (d.(extensions_len) <= LXMF_ANNOUNCE_EXTENSIONS_MAX)%nat /\ Z.of_nat d.(extension_count) <= 65532 /\ bytes_ok d.(extensions) /\
    times skip_top d.(extension_count) (extension_bytes d) = Some (Some [])
}.

(** The structure with a name, a cost, functions and extensions, as the parser fills it. *)
Definition made (name : list Z) (cost : option Z) (fs ext : list Z) (k : nat) : lxmf_announce_data :=
  {| display_name := name ++ replicate (128 - length name) 0; display_name_len := length name;
     has_stamp_cost := if cost is Some _ then true else false; stamp_cost := default 0 cost;
     features := if bool_decide (0 ∈ fs) then LXMF_FEATURE_COMPRESSION else 0;
     supported_functions := fs ++ replicate (32 - length fs) 0; supported_function_count := length fs;
     extensions := ext ++ replicate (256 - length ext) 0; extensions_len := length ext; extension_count := k |}.

Definition cost_of (d : lxmf_announce_data) : option Z := if d.(has_stamp_cost) then Some d.(stamp_cost) else None.

(** What a peer reads. *)
Definition parsed (d : lxmf_announce_data) : lxmf_announce_data := made (name_of d) (cost_of d) (functions_of d) (extension_bytes d) d.(extension_count).

Lemma functions_ok d : data_ok d -> functions d = Some (functions_of d) /\ bytes_ok (functions_of d) /\ (length (functions_of d) <= 32)%nat.
Proof.
  intros [(_ & Hl & _) _ _ [Hc Hb] _]. unfold functions, functions_of, LXMF_ANNOUNCE_FUNCTIONS_MAX in *. destruct (_ && _); [split_and!; [done|by repeat constructor|cbn; lia]|].
  rewrite memread_in, drop_0 by lia. split_and!; [done|by apply Forall_take|rewrite length_take; lia].
Qed.

(** *** Encoding *)

Lemma array_head v : 0 <= v < 16 -> wrap8 (Z.lor 0x90 v) = 0x90 + v /\ (Z.land (0x90 + v) 0xf0 =? 0x90) = true /\ Z.land (0x90 + v) 15 = v.
Proof.
  intros Hv. assert (forallb (λ v, (wrap8 (Z.lor 0x90 v) =? 0x90 + v) && (Z.land (0x90 + v) 0xf0 =? 0x90) && (Z.land (0x90 + v) 15 =? v)) (seqZ 0 16) = true) as H by done.
  pose proof (forall_below 16 _ H v Hv) as E. cbv beta in E. apply andb_prop in E as [[E1%Z.eqb_eq E2]%andb_prop E3%Z.eqb_eq]. done.
Qed.

Section Writes.
Variables n cap : nat.

Lemma writes_bytes bs : writes n cap (λ w, put w bs) bs.
Proof. apply writes_put. Qed.

Lemma writes_byte b : writes n cap (byte b) [b].
Proof. apply writes_put. Qed.

Lemma writes_array k : Z.of_nat k <= 65535 -> writes n cap (put_array k) (array_image k).
Proof.
  intros Hk w acc Hw. unfold put_array, array_image. destruct (Z.leb_spec (Z.of_nat k) 15).
  - destruct (array_head (Z.of_nat k) ltac:(lia)) as (-> & _). by apply writes_byte.
  - cbn [be_encode app]. rewrite Z.shiftr_div_pow2 by done. by apply (writes_bytes [0xdc; wrap8 (Z.of_nat k / 2 ^ 8); wrap8 (Z.of_nat k)]).
Qed.

Lemma writes_small v : writes n cap (put_small v) (small_image v).
Proof. intros w acc Hw. unfold put_small, small_image. destruct (_ <=? _); [by apply writes_byte|by apply (writes_bytes [0xcc; v])]. Qed.

Lemma writes_cost d : writes n cap (put_cost d) (cost_image d).
Proof. intros w acc Hw. unfold put_cost, cost_image. destruct (has_stamp_cost d); [by apply writes_small|by apply writes_byte]. Qed.

Lemma writes_functions l : writes n cap (put_functions l) (concat (small_image <$> l)).
Proof.
  induction l as [|f l IH]; cbn [put_functions fmap list_fmap concat].
  - intros w acc Hw. exists true, w. rewrite app_nil_r. pose proof (wr_cap _ _ _ _ Hw). split; [done|]. split; [apply (wr_buf _ _ _ _ Hw)|]. split; [cbn; split; [lia|done]|done].
  - apply writes_and_then; [apply writes_small|apply IH].
Qed.

Lemma writes_name l : (length l <= 255)%nat -> writes n cap (encode_bin l) ([0xc4; Z.of_nat (length l)] ++ l).
Proof.
  intros Hl w acc Hw. unfold encode_bin. rewrite (proj2 (Z.leb_le _ _)) by lia. rewrite wrap_small by (unfold in_width; lia).
  by apply (writes_and_then n cap _ _ _ _ (writes_bytes [0xc4; Z.of_nat (length l)]) (writes_bytes l)).
Qed.
End Writes.

(** The writing of an announce that can be encoded. *)
Lemma announce_encode_eq d o cap n0 : data_ok d ->
  lxmf_announce_encode d (Some o) cap n0 = (x ← and_then (put_array (3 + d.(extension_count))) (and_then (encode_bin (name_of d)) (and_then (put_cost d) (and_then (put_array (length (functions_of d)))
      (and_then (put_functions (functions_of d)) (λ w, put w (extension_bytes d)))))) {| wbuf := o; wpos := 0; left := cap |};
    Some (if x.1 : bool then (LXMF_OK, Some x.2.(wbuf), (cap - x.2.(left))%nat) else (LXMF_ERR_BOUNDS, Some x.2.(wbuf), n0))).
Proof.
  intros Hd. destruct (functions_ok d Hd) as (Hf & _). destruct Hd as [(L1 & L2 & L3) (N1 & N2 & N3) Hc [F1 F2] (X1 & X2 & X3 & X4)]. unfold lxmf_announce_encode.
  rewrite (proj2 (Nat.ltb_ge _ _)) by done. unfold LXMF_DISPLAY_NAME_MAX, LXMF_ANNOUNCE_EXTENSIONS_MAX in *. rewrite (memread_in (display_name d)), drop_0 by lia. cbn [mbind option_bind]. fold (name_of d).
  assert (bytes_ok (name_of d)) as Hnb by (by apply Forall_take). destruct (announce_utf8_total _ Hnb) as (v & -> & Hv). cbn [mbind option_bind]. rewrite (proj2 Hv N3).
  assert (cost_bad d = false) as ->. { unfold cost_bad. destruct (has_stamp_cost d); [|done]. specialize (Hc eq_refl). by rewrite !(proj2 (Z.ltb_ge _ _)) by lia. }
  rewrite !(proj2 (Nat.ltb_ge _ _)) by lia. rewrite (proj2 (Z.ltb_ge _ _)) by done. cbn [negb orb]. rewrite memread_in, drop_0 by lia. cbn [mbind option_bind]. fold (extension_bytes d). rewrite X4. cbn [mbind option_bind].
  by rewrite Hf.
Qed.

Lemma announce_encode_spec d o cap n0 : data_ok d -> (cap <= length o)%nat -> exists o', length o' = length o /\
  if decide (length (data_image d) <= cap)%nat then lxmf_announce_encode d (Some o) cap n0 = Some (LXMF_OK, Some o', length (data_image d)) /\ take (length (data_image d)) o' = data_image d
  else lxmf_announce_encode d (Some o) cap n0 = Some (LXMF_ERR_BOUNDS, Some o', n0).
Proof.
  intros Hd Hcap. rewrite (announce_encode_eq d o cap n0 Hd). destruct (functions_ok d Hd) as (_ & _ & Hfl). destruct Hd as [(L1 & _ & _) (N1 & _ & _) _ _ (_ & X2 & _)]. unfold LXMF_DISPLAY_NAME_MAX in N1.
  assert (length (name_of d) = display_name_len d) as Hnl by (unfold name_of; rewrite length_take; lia).
  destruct (writes_and_then (length o) cap _ _ _ _ (writes_array _ _ (3 + extension_count d) ltac:(lia)) (writes_and_then _ _ _ _ _ _ (writes_name _ _ (name_of d) ltac:(lia)) (writes_and_then _ _ _ _ _ _ (writes_cost _ _ d)
    (writes_and_then _ _ _ _ _ _ (writes_array _ _ (length (functions_of d)) ltac:(lia)) (writes_and_then _ _ _ _ _ _ (writes_functions _ _ (functions_of d)) (writes_bytes _ _ (extension_bytes d))))))
    {| wbuf := o; wpos := 0; left := cap |} []) as (ok & w & Hw & Hlen & Hok & Hwr). { constructor; cbn; [by apply wrote_nil|done|lia|lia]. }
  rewrite Hnl in Hok, Hwr. fold (data_image d) in Hok, Hwr. rewrite Hw. cbn [mbind option_bind fst snd]. exists (wbuf w). split; [done|]. cbn [length Nat.add app] in *. destruct (decide _) as [Hfit|Hno].
  - rewrite (proj2 Hok Hfit) in *. destruct (Hwr eq_refl) as [(_ & Ht & _) _ Hleft _]. rewrite Hleft. split; [|done]. do 2 f_equal. lia.
  - destruct ok; [|done]. destruct Hno. by apply Hok.
Qed.

(** *** Readers look at the bytes they take, and at no others *)

Definition local {A} (f : list Z -> option (option (A * list Z))) : Prop :=
  forall r, exists x, f r = Some x /\ forall a rest, x = Some (a, rest) -> exists pre, r = pre ++ rest /\ forall t, f (pre ++ t) = Some (Some (a, t)).

Definition local_skip (f : list Z -> option (option (list Z))) : Prop :=
  forall r, exists x, f r = Some x /\ forall rest, x = Some rest -> exists pre, r = pre ++ rest /\ forall t, f (pre ++ t) = Some (Some t).

Lemma local_length8 : local length8.
Proof. intros [|n r]; (eexists; split; [done|]); [done|]. intros a rest [= <- <-]. exists [n]. split; [done|]. done. Qed.

Lemma local_length16 : local length16.
Proof.
  intros [|a [|b r]]; (eexists; split; [done|]); [done|done|]. intros v rest [= <- <-]. exists [a; b]. split; [done|]. done.
Qed.

Lemma local_takes n : local (λ r, takes r n).
Proof.
  intros r. unfold takes. destruct (Z.ltb_spec (Z.of_nat (length r)) n) as [|Hl]; [by eexists|]. rewrite memread_in by lia. cbn [mbind option_bind]. eexists. split; [done|]. rewrite drop_0. intros a rest [= <- <-].
  exists (take (Z.to_nat n) r). split; [by rewrite take_drop|]. intros t. assert (length (take (Z.to_nat n) r) = Z.to_nat n) as Htl by (rewrite length_take; lia).
  rewrite (proj2 (Z.ltb_ge _ _)) by (rewrite length_app; lia). rewrite memread_in by (rewrite length_app; lia). cbn [mbind option_bind]. by rewrite drop_0, take_app_length', drop_app_length'.
Qed.

Lemma local_parse_uint : local parse_uint.
Proof.
  intros [|c r]; unfold parse_uint; [by eexists|]. destruct (c <=? 0x7f) eqn:E.
  { eexists. split; [done|]. intros a rest [= <- <-]. exists [c]. split; [done|]. intros t. cbn [app]. by rewrite E. }
  destruct (c =? 0xcc) eqn:E2; [|by eexists]. destruct r as [|v r]; [by eexists|]. eexists. split; [done|]. intros a rest [= <- <-]. exists [c; v]. split; [done|]. intros t. cbn [app]. by rewrite E, E2.
Qed.

Lemma local_object_size c : local (object_size c).
Proof.
  assert (forall f : list Z -> option (option (Z * list Z)), local f -> local (λ r, x ← f r; Some (match x with None => None | Some (n, r) => Some ((n, 0%nat), r) end))) as Hs.
  { intros f Hf r. destruct (Hf r) as (x & -> & Hx). cbn [mbind option_bind]. eexists. split; [done|]. intros a rest E. destruct x as [[n r']|]; [|done]. injection E as <- <-.
    destruct (Hx n r' eq_refl) as (pre & -> & Ht). exists pre. split; [done|]. intros t. by rewrite Ht. }
  assert (forall a, local (λ r, Some (Some (a : Z * nat, r)))) as Hk by (intros a r; eexists; split; [done|]; intros ? ? [= <- <-]; by exists []).
  intros r. unfold object_size. repeat match goal with |- context [if ?b then _ else _] => destruct b end; try (by eexists); try (apply Hk).
  - apply (Hs length8 local_length8).
  - apply (Hs length16 local_length16).
Qed.

Lemma local_times f n : local_skip f -> local_skip (times f n).
Proof.
  intros Hf. induction n as [|n IH]; intros r; cbn [times]; [eexists; split; [done|]; intros rest [= <-]; by exists []|].
  destruct (Hf r) as (x & -> & Hx). cbn [mbind option_bind]. destruct x as [r1|]; [|by eexists]. destruct (Hx r1 eq_refl) as (p1 & -> & H1). destruct (IH r1) as (y & -> & Hy). eexists. split; [done|]. intros rest ->.
  destruct (Hy rest eq_refl) as (p2 & -> & H2). exists (p1 ++ p2). split; [by rewrite app_assoc|]. intros t. rewrite <-app_assoc, H1. cbn [mbind option_bind]. apply H2.
Qed.

Lemma local_skip_levels levels : local_skip (skip levels).
Proof.
  induction levels as [|levels IH]; intros r; [by eexists|]. destruct r as [|c r]; cbn [skip]; [by eexists|]. destruct (_ || _) eqn:E1.
  { eexists. split; [done|]. intros rest [= <-]. exists [c]. split; [done|]. intros t. cbn [app skip]. by rewrite E1. }
  destruct (local_object_size c r) as (x & -> & Hx). cbn [mbind option_bind]. destruct x as [[[n items] r1]|]; [|by eexists]. destruct (Hx _ _ eq_refl) as (h & -> & Hh).
  destruct (Z.ltb_spec (Z.of_nat (length r1)) n) as [|Hl]; [by eexists|]. destruct (local_times (skip levels) items IH (drop (Z.to_nat n) r1)) as (y & -> & Hy). eexists. split; [done|]. intros rest ->.
  destruct (Hy rest eq_refl) as (p & Ep & Hp). exists (c :: h ++ take (Z.to_nat n) r1 ++ p). split; [cbn [app]; rewrite <-!app_assoc, <-Ep, take_drop; done|]. intros t. cbn [app skip]. rewrite E1. rewrite <-!app_assoc, Hh. cbn [mbind option_bind].
  assert (length (take (Z.to_nat n) r1) = Z.to_nat n) as Htl by (rewrite length_take; lia). rewrite (proj2 (Z.ltb_ge _ _)) by (rewrite length_app; lia). by rewrite drop_app_length'.
Qed.

Lemma local_parse_bytes : local parse_bytes.
Proof.
  intros [|c r]; [by eexists|]. unfold parse_bytes. set (size := λ r, if Z.land c 0xe0 =? 0xa0 then Some (Some (Z.land c 31, r)) else if (c =? 0xc4) || (c =? 0xd9) then length8 r
    else if (c =? 0xc5) || (c =? 0xda) then length16 r else Some None). assert (local size) as Hs.
  { intros r'. unfold size. destruct (_ =? 0xa0); [eexists; split; [done|]; intros ? ? [= <- <-]; by exists []|]. destruct (_ || _); [apply local_length8|]. destruct (_ || _); [apply local_length16|by eexists]. }
  destruct (Hs r) as (x & Ex & Hx). unfold size in Ex. rewrite Ex. cbn [mbind option_bind]. destruct x as [[n r1]|]; [|by eexists]. destruct (Hx n r1 eq_refl) as (h & -> & Hh). destruct (local_takes n r1) as (y & Ey & Hy). rewrite Ey. eexists.
  split; [done|]. intros a rest ->. destruct (Hy a rest eq_refl) as (b & -> & Hb). exists (c :: h ++ b). split; [cbn [app]; by rewrite app_assoc|]. intros t. cbn [app]. specialize (Hh (b ++ t)). unfold size in Hh. rewrite <-app_assoc, Hh. apply Hb.
Qed.

Lemma parse_bytes_name pre rest name : bytes_ok pre -> parse_bytes (pre ++ rest) = Some (Some (name, rest)) -> bytes_ok name.
Proof.
  intros Hb E. destruct (local_parse_bytes (pre ++ rest)) as (x & Ex & Hx). rewrite E in Ex. injection Ex as <-. destruct (Hx name rest eq_refl) as (pre' & Ep & Ht). apply app_inv_tail in Ep as <-. specialize (Ht []). rewrite app_nil_r in Ht.
  destruct pre as [|c r]; [done|]. unfold parse_bytes in Ht. apply Forall_cons_1 in Hb as [_ Hb]. apply bind_Some in Ht as (len & El & Ht). destruct len as [[n r1]|]; [|done].
  assert (bytes_ok r1) as Hr1.
  { revert El. destruct (_ =? 0xa0); [by intros [= _ <-]|]. destruct (_ || _); [destruct r as [|? r]; [done|]; intros [= _ <-]; by apply Forall_cons_1 in Hb as [_ Hb]|]. destruct (_ || _); [|done].
    destruct r as [|? [|? r]]; [done|done|]. intros [= _ <-]. by apply Forall_cons_1 in Hb as [_ [_ Hb]%Forall_cons_1]. }
  unfold takes in Ht. destruct (_ <? n); [done|]. apply bind_Some in Ht as (b & Eb & [= <- _]). unfold memread in Eb. case_decide; [|done]. injection Eb as <-. apply Forall_take. by rewrite drop_0.
Qed.

(** *** Reading the image *)

Lemma length16_be v rest : 0 <= v < 65536 -> length16 (be_encode 2 v ++ rest) = Some (Some (v, rest)).
Proof.
  intros Hv. cbn [be_encode app]. unfold length16. cbn [length Nat.ltb Nat.leb load lookup list_lookup mbind option_bind drop]. do 3 f_equal. rewrite lor_shiftl_add by (done || (unfold in_width; apply Z.mod_pos_bound; lia)).
  unfold wrap. change (2 ^ 8) with 256. rewrite (Z.mod_small (v / 256)); Z.div_mod_to_equations; lia.
Qed.

(** The first byte of an array, as it is tested. *)
Definition array_code (c : Z) : bool := (Z.land c 0xf0 =? 0x90) || (c =? 0xdc).

Lemma array_count_image n rest : Z.of_nat n <= 65535 -> array_count (array_image n ++ rest) = Some (Some (Z.of_nat n, rest)) /\ exists c tl, array_image n ++ rest = c :: tl /\ array_code c = true.
Proof.
  intros Hn. unfold array_image, array_code. destruct (Z.leb_spec (Z.of_nat n) 15).
  - destruct (array_head (Z.of_nat n) ltac:(lia)) as (_ & E1 & E2). cbn [app array_count]. rewrite E1, E2. split; [done|]. eexists _, _. split; [done|]. by rewrite E1.
  - cbn [app array_count]. change (Z.land 0xdc 0xf0 =? 0x90) with false. rewrite length16_be by lia. split; [done|]. by eexists _, _.
Qed.

Lemma parse_bytes_image l rest : (length l <= 255)%nat -> parse_bytes (0xc4 :: Z.of_nat (length l) :: l ++ rest) = Some (Some (l, rest)).
Proof.
  intros Hl. unfold parse_bytes. change (Z.land 0xc4 0xe0 =? 0xa0) with false. cbn [Z.eqb Pos.eqb orb length8 mbind option_bind]. unfold takes. rewrite (proj2 (Z.ltb_ge _ _)) by (rewrite length_app; lia).
  rewrite Nat2Z.id. rewrite memread_in by (rewrite length_app; lia). cbn [mbind option_bind]. by rewrite drop_0, take_app_length, drop_app_length.
Qed.

Lemma parse_uint_image v rest : parse_uint (small_image v ++ rest) = Some (Some (v, rest)).
Proof. unfold small_image, parse_uint. destruct (Z.leb_spec v 127) as [Hv|]; cbn [app]; [by rewrite (proj2 (Z.leb_le _ _)) by lia|done]. Qed.

Lemma set_name_zero l : (length l <= LXMF_DISPLAY_NAME_MAX)%nat -> set_name l zero_data = Some (made l None [] [] 0).
Proof.
  intros Hl. unfold LXMF_DISPLAY_NAME_MAX in Hl. unfold set_name, memcpy. rewrite decide_True by (cbn [zero_data display_name]; rewrite length_replicate; lia). cbn [mbind option_bind zero_data display_name Nat.add].
  rewrite take_0, drop_replicate. cbn [app]. unfold store. rewrite decide_True by (rewrite length_app, length_replicate; lia). cbn [mbind option_bind].
  rewrite (list_insert_id (l ++ _)); [done|]. rewrite lookup_app_r, Nat.sub_diag by lia. destruct (128 - length l)%nat eqn:E; [lia|done].
Qed.

Lemma default_functions_made name cost : default_functions (made name cost [] [] 0) = Some (made name cost [0] [] 0).
Proof. done. Qed.

Lemma parse_cost_made name cost rest : (forall v, cost = Some v -> 1 <= v <= 254) ->
  parse_cost (made name None [] [] 0) ((match cost with Some v => small_image v | None => [0xc0] end) ++ rest) = Some (Some (made name cost [] [] 0, rest)).
Proof.
  intros Hc. unfold parse_cost. destruct cost as [v|]; [|done]. specialize (Hc v eq_refl). pose proof (parse_uint_image v rest) as Hu. destruct (small_image v ++ rest) as [|c r] eqn:Es; [done|]. assert ((c =? 0xc0) = false) as ->.
  { unfold small_image in Es. destruct (Z.leb_spec v 127); cbn [app] in Es; injection Es as <- _; [lia|done]. }
  rewrite Hu. cbn [mbind option_bind]. by rewrite !(proj2 (Z.ltb_ge _ _)) by lia.
Qed.

(** One round of the loop over the functions. *)
Lemma parse_functions_step n name cost pre r : (length pre < 32)%nat ->
  parse_functions (S n) (made name cost pre [] 0) r = (x ← parse_uint r; match x with None => Some None | Some (f, r) => parse_functions n (made name cost (pre ++ [f]) [] 0) r end).
Proof.
  intros Hl. cbn [parse_functions]. destruct (parse_uint r) as [[[f r']|]|]; [|done|done]. cbn [mbind option_bind]. unfold store. cbn [made supported_functions supported_function_count].
  rewrite decide_True by (rewrite length_app, length_replicate; lia). cbn [mbind option_bind]. f_equal. unfold made. rewrite length_app, Nat.add_1_r. f_equal.
  - destruct (Z.eqb_spec f 0) as [->|Hne]; [rewrite (bool_decide_true (0 ∈ pre ++ [0])) by (apply elem_of_app; right; left); by destruct (bool_decide _)|].
    destruct (bool_decide_reflect (0 ∈ pre)) as [Hin|Hin]; [by rewrite bool_decide_true by (apply elem_of_app; by left)|]. rewrite bool_decide_false; [done|]. intros [?|Hx]%elem_of_app; [done|]. apply list_elem_of_singleton in Hx. congruence.
  - destruct (32 - length pre)%nat eqn:Ek; [lia|]. rewrite insert_app_r_alt, Nat.sub_diag by lia. cbn [replicate insert list_insert]. rewrite <-app_assoc. cbn [app]. do 3 f_equal. lia.
Qed.

Lemma parse_functions_image fs rest name cost pre : (length pre + length fs <= 32)%nat ->
  parse_functions (length fs) (made name cost pre [] 0) (concat (small_image <$> fs) ++ rest) = Some (Some (made name cost (pre ++ fs) [] 0, rest)).
Proof.
  revert pre. induction fs as [|f fs IH]; intros pre Hl; [cbn; by rewrite app_nil_r|]. cbn [length fmap list_fmap concat] in *. rewrite parse_functions_step by lia. rewrite <-app_assoc, parse_uint_image. cbn [mbind option_bind].
  rewrite IH by (rewrite length_app; cbn; lia). by rewrite <-app_assoc.
Qed.

Lemma parse_extensions_made count name cost fs ext rest : times skip_top (Z.to_nat (count - 3)) (ext ++ rest) = Some (Some rest) -> (length ext <= LXMF_ANNOUNCE_EXTENSIONS_MAX)%nat ->
  parse_extensions count (made name cost fs [] 0) (ext ++ rest) = Some (if decide (rest = []) then (LXMF_OK, Some (made name cost fs ext (Z.to_nat (count - 3)))) else (LXMF_ERR_FORMAT, None)).
Proof.
  intros Ht Hl. unfold parse_extensions. rewrite Ht. cbn [mbind option_bind]. rewrite length_app. replace (length ext + length rest - length rest)%nat with (length ext) by lia. rewrite (proj2 (Nat.ltb_ge _ _)) by done.
  rewrite memread_in by (rewrite length_app; lia). rewrite drop_0, take_app_length. cbn [mbind option_bind]. unfold memcpy, LXMF_ANNOUNCE_EXTENSIONS_MAX in *. cbn [made extensions length Nat.add Nat.sub app].
  rewrite decide_True by (rewrite length_replicate; lia). cbn [mbind option_bind]. rewrite take_0, drop_replicate. cbn [app]. destruct rest; [rewrite decide_True by done|rewrite decide_False by done]; done.
Qed.

Lemma data_image_parse d : data_ok d -> lxmf_announce_parse (SBytes (data_image d)) = Some (LXMF_OK, Some (parsed d)).
Proof.
  intros Hd. destruct (functions_ok d Hd) as (_ & Hfb & Hfl). pose proof Hd as [(L1 & L2 & L3) (N1 & N2 & N3) Hc [F1 F2] (X1 & X2 & X3 & X4)]. unfold LXMF_DISPLAY_NAME_MAX, LXMF_ANNOUNCE_EXTENSIONS_MAX in *.
  assert (length (name_of d) = display_name_len d) as Hnl by (unfold name_of; rewrite length_take; lia).
  unfold data_image. set (tail := ([0xc4; _] ++ _) ++ _). destruct (array_count_image (3 + extension_count d) tail ltac:(lia)) as (Ha & c & tl & Ec & Hcode). unfold lxmf_announce_parse. rewrite Ec. unfold array_code in Hcode.
  rewrite <-negb_orb, Hcode. cbn [negb]. rewrite <-Ec, Ha. cbn [mbind option_bind]. rewrite (proj2 (Z.ltb_ge _ _)) by lia. subst tail. rewrite <-Hnl. rewrite <-app_assoc. cbn [app].
  rewrite parse_bytes_image by lia. cbn [mbind option_bind]. rewrite (proj2 (Nat.ltb_ge _ _)) by (unfold LXMF_DISPLAY_NAME_MAX; lia).
  assert (bytes_ok (name_of d)) as Hnb by (by apply Forall_take). destruct (announce_utf8_total _ Hnb) as (v & -> & Hv). cbn [mbind option_bind]. rewrite (proj2 Hv N3). cbn [negb].
  rewrite set_name_zero by (unfold LXMF_DISPLAY_NAME_MAX; lia). cbn [mbind option_bind]. rewrite (proj2 (Z.leb_le 2 _)) by lia. replace (cost_image d) with (match cost_of d with Some v => small_image v | None => [0xc0] end) by (unfold cost_image, cost_of; by destruct (has_stamp_cost d)).
  rewrite parse_cost_made by (unfold cost_of; destruct (has_stamp_cost d); [intros ? [= <-]; by apply Hc|done]). cbn [mbind option_bind]. rewrite (proj2 (Z.leb_le 3 _)) by lia.
  unfold parse_function_array. destruct (array_count_image (length (functions_of d)) (concat (small_image <$> functions_of d) ++ extension_bytes d) ltac:(lia)) as (Hb & c2 & tl2 & Ec2 & Hcode2).
  rewrite Ec2 in *. unfold array_code in Hcode2. rewrite <-negb_orb, Hcode2. cbn [negb]. rewrite Hb. cbn [mbind option_bind]. rewrite (proj2 (Z.ltb_ge _ _)) by (unfold LXMF_ANNOUNCE_FUNCTIONS_MAX; lia). rewrite Nat2Z.id.
  rewrite parse_functions_image by (cbn; lia). cbn [mbind option_bind app]. pose proof (parse_extensions_made (Z.of_nat (3 + extension_count d)) (name_of d) (cost_of d) (functions_of d) (extension_bytes d) []) as Hx.
  rewrite app_nil_r in Hx. replace (Z.to_nat (Z.of_nat (3 + extension_count d) - 3)) with (extension_count d) in Hx by lia. rewrite Hx; [by rewrite decide_True|done|unfold extension_bytes, LXMF_ANNOUNCE_EXTENSIONS_MAX; rewrite length_take; lia].
Qed.

(** *** Any input *)

(** The parts the parser puts together. *)
Record parts_ok (name : list Z) (cost : option Z) (fs ext : list Z) (k : nat) : Prop := {
  po_name : (length name <= LXMF_DISPLAY_NAME_MAX)%nat /\ bytes_ok name /\ Utf8.utf8_text name;
  po_cost : forall v, cost = Some v -> 1 <= v <= 254;
  po_functions : (length fs <= LXMF_ANNOUNCE_FUNCTIONS_MAX)%nat /\ bytes_ok fs;
  po_extensions : (length ext <= LXMF_ANNOUNCE_EXTENSIONS_MAX)%nat /\ Z.of_nat k <= 65532 /\ bytes_ok ext /\ times skip_top k ext = Some (Some [])
}.

Lemma made_ok name cost fs ext k : parts_ok name cost fs ext k -> data_ok (made name cost fs ext k) /\ parsed (made name cost fs ext k) = made name cost fs ext k.
Proof.
  intros [(N1 & N2 & N3) Hc [F1 F2] (X1 & X2 & X3 & X4)]. unfold LXMF_DISPLAY_NAME_MAX, LXMF_ANNOUNCE_FUNCTIONS_MAX, LXMF_ANNOUNCE_EXTENSIONS_MAX in *.
  assert (name_of (made name cost fs ext k) = name) as En by (unfold name_of; cbn [made display_name display_name_len]; apply take_app_length).
  assert (extension_bytes (made name cost fs ext k) = ext) as Ee by (unfold extension_bytes; cbn [made extensions extensions_len]; apply take_app_length).
  assert (functions_of (made name cost fs ext k) = fs) as Ef.
  { unfold functions_of. cbn [made supported_function_count supported_functions features]. rewrite take_app_length. destruct fs as [|f fs]; [done|]. by cbn [length Nat.eqb andb]. }
  assert (forall m, bytes_ok (replicate m 0)) as Hz by (intros m; apply Forall_replicate; done). split.
  - constructor; rewrite ?En, ?Ee; cbn [made display_name supported_functions extensions display_name_len has_stamp_cost stamp_cost supported_function_count extensions_len extension_count].
    + rewrite !length_app, !length_replicate. lia.
    + split_and!; [done|by apply Forall_app|done].
    + destruct cost as [v|]; [|done]. intros _. by apply Hc.
    + split; [done|by apply Forall_app].
    + split_and!; [done|done|by apply Forall_app|done].
  - unfold parsed. rewrite En, Ee, Ef. f_equal. unfold cost_of. by destruct cost.
Qed.

Lemma local_bytes {A} (f : list Z -> option (option (A * list Z))) r a rest : local f -> bytes_ok r -> f r = Some (Some (a, rest)) -> exists pre, r = pre ++ rest /\ bytes_ok pre /\ bytes_ok rest.
Proof. intros Hf Hb E. destruct (Hf r) as (x & Ex & Hx). rewrite E in Ex. injection Ex as <-. destruct (Hx a rest eq_refl) as (pre & -> & _). apply Forall_app in Hb as [? ?]. by exists pre. Qed.

Lemma parse_uint_total r : bytes_ok r -> exists x, parse_uint r = Some x /\ forall v rest, x = Some (v, rest) -> is_byte v /\ bytes_ok rest.
Proof.
  intros Hb. unfold parse_uint. eexists. split; [done|]. intros v rest. destruct r as [|c r]; [done|]. apply Forall_cons_1 in Hb as [Hc Hb]. destruct (c <=? 0x7f); [by intros [= <- <-]|]. destruct (c =? 0xcc); [|done].
  destruct r as [|w r]; [done|]. apply Forall_cons_1 in Hb as [Hw Hb]. by intros [= <- <-].
Qed.

Lemma parse_functions_total n name cost pre r : bytes_ok r -> bytes_ok pre -> (length pre + n <= 32)%nat ->
  exists x, parse_functions n (made name cost pre [] 0) r = Some x /\ forall d rest, x = Some (d, rest) -> exists fs, bytes_ok fs /\ length fs = (length pre + n)%nat /\ d = made name cost fs [] 0 /\ bytes_ok rest.
Proof.
  revert pre r. induction n as [|n IH]; intros pre r Hb Hp Hl.
  { eexists. split; [done|]. intros d rest [= <- <-]. exists pre. split_and!; [done|lia|done|done]. }
  rewrite parse_functions_step by lia. destruct (parse_uint_total r Hb) as (x & -> & Hx). cbn [mbind option_bind]. destruct x as [[f r']|]; [|by eexists]. destruct (Hx f r' eq_refl) as [Hf Hr'].
  destruct (IH (pre ++ [f]) r' Hr') as (y & -> & Hy); [apply Forall_app; split; [done|by apply Forall_singleton]|rewrite length_app; cbn; lia|]. eexists. split; [done|]. intros d rest E. destruct (Hy d rest E) as (fs & ? & Hfl & ? & ?). exists fs.
  split_and!; [done| |done|done]. rewrite length_app in Hfl. cbn in Hfl. lia.
Qed.

Lemma array_count_total c r : bytes_ok (c :: r) -> exists x, array_count (c :: r) = Some x /\ forall n rest, x = Some (n, rest) -> 0 <= n <= 65535 /\ bytes_ok rest.
Proof.
  intros [Hc Hb]%Forall_cons_1. cbn [array_count]. destruct (_ =? 0x90).
  - eexists. split; [done|]. intros n rest [= <- <-]. split; [|done]. change 15 with (Z.ones 4). rewrite Z.land_ones by done. pose proof (Z.mod_pos_bound c (2 ^ 4) ltac:(lia)). lia.
  - destruct (local_length16 r) as (x & E & _). exists x. split; [done|]. intros n rest ->. destruct r as [|a [|b r]]; [done|done|]. injection E as <- <-. apply Forall_cons_1 in Hb as [Ha [Hb' Hr]%Forall_cons_1].
    split; [|done]. unfold is_byte, in_width in *. rewrite lor_shiftl_add by (done || (unfold in_width; lia)). lia.
Qed.

(** The end of the parser, whatever is left. *)
Lemma parse_extensions_total count name cost fs r : parts_ok name cost fs [] 0 -> bytes_ok r -> count <= 65535 ->
  exists st od, parse_extensions count (made name cost fs [] 0) r = Some (st, od) /\ (st = LXMF_OK -> exists d, od = Some d /\ data_ok d /\ parsed d = d).
Proof.
  intros [Hn Hc Hf _] Hb Hcount. destruct (local_times skip_top (Z.to_nat (count - 3)) (local_skip_levels 17) r) as (x & Ex & Hx). destruct x as [rest|]; [|unfold parse_extensions; rewrite Ex; by eexists _, _].
  destruct (Hx rest eq_refl) as (ext & -> & Ht). apply Forall_app in Hb as [He _]. destruct (Nat.leb_spec (length ext) LXMF_ANNOUNCE_EXTENSIONS_MAX) as [Hle|Hgt].
  - rewrite parse_extensions_made by done. case_decide as Hr; [|by eexists _, _]. eexists _, _. split; [done|]. intros _. eexists. split; [done|]. apply made_ok. constructor; [done|done|done|]. split_and!; [done|lia|done|]. specialize (Ht []). by rewrite app_nil_r in Ht.
  - unfold parse_extensions. rewrite Ex. cbn [mbind option_bind]. rewrite length_app. rewrite (proj2 (Nat.ltb_lt _ _)) by lia. by eexists _, _.
Qed.

Lemma parts_named name cost fs : (length name <= LXMF_DISPLAY_NAME_MAX)%nat /\ bytes_ok name /\ Utf8.utf8_text name -> (forall v, cost = Some v -> 1 <= v <= 254) -> (length fs <= LXMF_ANNOUNCE_FUNCTIONS_MAX)%nat /\ bytes_ok fs ->
  parts_ok name cost fs [] 0.
Proof. intros Hn Hc Hf. constructor; [done|done|done|]. split_and!; [cbn; lia|lia|constructor|done]. Qed.

(** The element behind the name. *)
Lemma parse_cost_total name r : bytes_ok r -> exists x, parse_cost (made name None [] [] 0) r = Some x /\
  forall d rest, x = Some (d, rest) -> exists cost, d = made name cost [] [] 0 /\ (forall v, cost = Some v -> 1 <= v <= 254) /\ bytes_ok rest.
Proof.
  intros Hb. destruct r as [|c r]; [by eexists|]. unfold parse_cost. destruct (c =? 0xc0); [eexists; split; [done|]; intros d rest [= <- <-]; exists None; split_and!; [done|done|by apply Forall_cons_1 in Hb as [_ Hb]]|].
  destruct (parse_uint_total (c :: r) Hb) as (x & -> & Hx). cbn [mbind option_bind]. eexists. split; [done|]. intros d rest. destruct x as [[v r']|]; [|done]. destruct ((v <? 1) || (254 <? v)) eqn:E; [done|].
  apply orb_false_iff in E as [E1%Z.ltb_ge E2%Z.ltb_ge]. intros [= <- <-]. exists (Some v). split_and!; [done|by intros ? [= <-]|apply (Hx v r' eq_refl)].
Qed.

(** The element behind the cost. *)
Lemma parse_function_array_total name cost r : bytes_ok r -> exists x, parse_function_array (made name cost [] [] 0) r = Some x /\
  (forall st, x = inl st -> st <> LXMF_OK) /\ forall d rest, x = inr (d, rest) -> exists fs, d = made name cost fs [] 0 /\ (length fs <= LXMF_ANNOUNCE_FUNCTIONS_MAX)%nat /\ bytes_ok fs /\ bytes_ok rest.
Proof.
  intros Hb. destruct r as [|c r]; [eexists; split; [done|]; split; [by intros ? [= <-]|done]|]. unfold parse_function_array. destruct (_ && _); [eexists; split; [done|]; split; [by intros ? [= <-]|done]|].
  destruct (array_count_total c r Hb) as (x & -> & Hx). cbn [mbind option_bind]. destruct x as [[fc r']|]; [|eexists; split; [done|]; split; [by intros ? [= <-]|done]]. destruct (Hx fc r' eq_refl) as [Hfc Hr'].
  destruct (Z.ltb_spec (Z.of_nat LXMF_ANNOUNCE_FUNCTIONS_MAX) fc) as [|Hle]; [eexists; split; [done|]; split; [by intros ? [= <-]|done]|]. unfold LXMF_ANNOUNCE_FUNCTIONS_MAX in *.
  destruct (parse_functions_total (Z.to_nat fc) name cost [] r' Hr') as (y & -> & Hy); [constructor|cbn; lia|]. cbn [mbind option_bind]. eexists. split; [done|]. destruct y as [[d rest]|]; [|split; [by intros ? [= <-]|done]]. split; [done|].
  intros d' rest' [= <- <-]. destruct (Hy d rest eq_refl) as (fs & ? & Hl & -> & ?). exists fs. cbn in Hl. split_and!; [done|lia|done|done].
Qed.

Lemma announce_parse_total l : bytes_ok l -> exists st od, lxmf_announce_parse (SBytes l) = Some (st, od) /\ (st = LXMF_OK -> exists d, od = Some d /\ data_ok d /\ parsed d = d).
Proof.
  intros Hb. destruct l as [|first l]; [by eexists _, _|]. unfold lxmf_announce_parse. destruct (_ && _).
  { destruct (Nat.ltb_spec LXMF_DISPLAY_NAME_MAX (length (first :: l))) as [|Hl]; [by eexists _, _|]. destruct (announce_utf8_total _ Hb) as (v & -> & Hv). cbn [mbind option_bind]. destruct v; cbn [negb]; [|by eexists _, _].
    rewrite set_name_zero by done. cbn [mbind option_bind]. rewrite default_functions_made. cbn [mbind option_bind]. eexists _, _. split; [done|]. intros _. eexists. split; [done|]. apply made_ok, parts_named; [split_and!; [done|done|by apply Hv]|done|].
    split; [unfold LXMF_ANNOUNCE_FUNCTIONS_MAX; cbn; lia|by apply Forall_singleton]. }
  destruct (array_count_total first l Hb) as (x & -> & Hx). cbn [mbind option_bind]. destruct x as [[count r]|]; [|by eexists _, _]. destruct (Hx count r eq_refl) as [Hcount Hr]. destruct (_ <? 1); [by eexists _, _|].
  destruct (local_parse_bytes r) as (y & Ey & Hy). rewrite Ey. cbn [mbind option_bind]. destruct y as [[name r1]|]; [|by eexists _, _]. destruct (Nat.ltb_spec LXMF_DISPLAY_NAME_MAX (length name)) as [|Hl]; [by eexists _, _|].
  assert (bytes_ok name /\ bytes_ok r1) as [Hnb Hr1]. { destruct (local_bytes _ _ _ _ local_parse_bytes Hr Ey) as (pre & -> & Hpre & ?). split; [|done]. by apply (parse_bytes_name pre r1 name). }
  destruct (announce_utf8_total _ Hnb) as (v & -> & Hv). cbn [mbind option_bind]. destruct v; cbn [negb]; [|by eexists _, _]. rewrite set_name_zero by done. cbn [mbind option_bind].
  assert (exists x, (if 2 <=? count then parse_cost (made name None [] [] 0) r1 else Some (Some (made name None [] [] 0, r1))) = Some x /\
    forall d rest, x = Some (d, rest) -> exists cost, d = made name cost [] [] 0 /\ (forall v, cost = Some v -> 1 <= v <= 254) /\ bytes_ok rest) as (x2 & -> & Hx2).
  { destruct (2 <=? count); [by apply parse_cost_total|]. eexists. split; [done|]. intros d rest [= <- <-]. by exists None. }
  cbn [mbind option_bind]. destruct x2 as [[d r2]|]; [|by eexists _, _]. destruct (Hx2 d r2 eq_refl) as (cost & -> & Hc & Hr2).
  assert (exists x, (if 3 <=? count then parse_function_array (made name cost [] [] 0) r2 else d ← default_functions (made name cost [] [] 0); Some (inr (d, r2))) = Some x /\
    (forall st, x = inl st -> st <> LXMF_OK) /\ forall d rest, x = inr (d, rest) -> exists fs, d = made name cost fs [] 0 /\ (length fs <= LXMF_ANNOUNCE_FUNCTIONS_MAX)%nat /\ bytes_ok fs /\ bytes_ok rest) as (x3 & -> & Hst & Hx3).
  { destruct (3 <=? count); [by apply parse_function_array_total|]. rewrite default_functions_made. cbn [mbind option_bind]. eexists. split; [done|]. split; [done|]. intros d rest [= <- <-]. exists [0].
    split_and!; [done|unfold LXMF_ANNOUNCE_FUNCTIONS_MAX; cbn; lia|by apply Forall_singleton|done]. }
  cbn [mbind option_bind]. destruct x3 as [st|[d r3]]; [eexists _, _; split; [done|]; intros ->; by destruct (Hst LXMF_OK eq_refl)|]. destruct (Hx3 d r3 eq_refl) as (fs & -> & Hf1 & Hf2 & Hr3).
  apply parse_extensions_total; [|done|lia]. apply parts_named; [split_and!; [done|done|by apply Hv]|done|done].
Qed.



(** The name "Heltec", a cost, two functions and two extensions. *)
Definition sample_data : lxmf_announce_data := made [72; 101; 108; 116; 101; 99] (Some 200) [0; 200] [1; 0xa1; 120] 2.

Lemma sample_data_ok : data_ok sample_data.
Proof.
  apply made_ok. constructor.
  - split_and!; [unfold LXMF_DISPLAY_NAME_MAX; cbn; lia|literal_bytes|]. exists [72; 101; 108; 116; 101; 99]. split; [repeat constructor; unfold Utf8.scalar; lia|reflexivity].
  - intros v [= <-]. lia.
  - split; [unfold LXMF_ANNOUNCE_FUNCTIONS_MAX; cbn; lia|literal_bytes].
  - split_and!; [unfold LXMF_ANNOUNCE_EXTENSIONS_MAX; cbn; lia|lia|literal_bytes|reflexivity].
Qed.

End AnnounceData.
