(* ===== verification/Contacts.v ===== *)
(** * The book of contacts

    [lxmf/router.c]: a table of the delivery destinations that were announced, which refines a
    finite map of bounded size. *)

From Stdlib Require Import ZArith Lia.
From stdpp Require Import gmap.
From S2P Require Import Prelude Request Lxmf Utf8 AnnounceData.

Module Contacts.
Import Lxmf AnnounceData.

(** ** Contacts *)

Record lxmf_contact : Type := {
  used : bool;
  delivery_hash : list Z;
  identity_public : list Z;
  contact_name : list Z;
  contact_name_len : nat;
  contact_has_cost : bool;
  contact_cost : Z;
  contact_features : Z;
  last_seen : Z
}.

Definition zero_contact : lxmf_contact :=
  {| used := false; delivery_hash := replicate 16 0; identity_public := replicate 64 0; contact_name := replicate 128 0; contact_name_len := 0; contact_has_cost := false; contact_cost := 0;
     contact_features := 0; last_seen := 0 |}.

Record lxmf_contact_book : Type := { entries : list lxmf_contact; capacity : nat; count : Z }.

(** [storage] is the array of the caller; the clock is a parameter of the operations. *)
Definition lxmf_contact_book_init (storage : option (list lxmf_contact)) (cap : nat) : option (lxmf_status * option lxmf_contact_book) :=
  match storage with
  | None => Some (LXMF_ERR_ARGUMENT, None)
  | Some s =>
      if (cap =? 0)%nat then Some (LXMF_ERR_ARGUMENT, None)
      else if decide (cap <= length s)%nat then Some (LXMF_OK, Some {| entries := replicate cap zero_contact ++ drop cap s; capacity := cap; count := 0 |})
      else None
  end.

Definition is_contact (hash : list Z) (c : lxmf_contact) : bool := c.(used) && bool_decide (c.(delivery_hash) = hash).

Definition lxmf_contact_book_lookup (b : lxmf_contact_book) (hash : list Z) : option lxmf_contact := snd <$> list_find (λ c, is_contact hash c = true) (take b.(capacity) b.(entries)).

(** The loop of [lxmf_contact_book_update]: the contact, else the first free entry. *)
Fixpoint find_slot (hash : list Z) (l : list lxmf_contact) (i : nat) (slot : option nat) : option nat :=
  match l with
  | [] => slot
  | c :: l =>
      if is_contact hash c then Some i
      else find_slot hash l (S i) (if slot is None then (if negb c.(used) then Some i else None) else slot)
  end.

(** The entry of a contact. *)
Definition updated_contact (hash pub : list Z) (a : lxmf_announce_data) (now : Z) : option lxmf_contact :=
  name ← memread a.(display_name) 0 a.(display_name_len);
  n ← memcpy (replicate 128 0) 0 name;
  n ← store n a.(display_name_len) 0;
  Some {| used := true; delivery_hash := hash; identity_public := pub; contact_name := n; contact_name_len := a.(display_name_len); contact_has_cost := a.(has_stamp_cost);
          contact_cost := a.(stamp_cost); contact_features := a.(features); last_seen := now |}.

Definition lxmf_contact_book_update (b : lxmf_contact_book) (hash pub : list Z) (a : lxmf_announce_data) (now : Z) : option (lxmf_status * lxmf_contact_book) :=
  if (LXMF_DISPLAY_NAME_MAX <? a.(display_name_len))%nat then Some (LXMF_ERR_ARGUMENT, b)
  else
    name ← memread a.(display_name) 0 a.(display_name_len);
    valid ← valid_utf8 name;
    if negb valid || cost_bad a then Some (LXMF_ERR_ARGUMENT, b)
    else
      match find_slot hash (take b.(capacity) b.(entries)) 0 None with
      | None => Some (LXMF_ERR_BOUNDS, b)
      | Some i =>
          old ← b.(entries) !! i;
          c ← updated_contact hash pub a now;
          Some (LXMF_OK, {| entries := <[i := c]> b.(entries); capacity := b.(capacity); count := if old.(used) then b.(count) else wrap64 (b.(count) + 1) |})
      end.

Definition expired (now max_age : Z) (c : lxmf_contact) : bool := c.(used) && (c.(last_seen) <=? now) && (max_age <? now - c.(last_seen)).

(** The loop of [lxmf_contact_book_expire]: the entries, and how many were removed. *)
Fixpoint expire_entries (now max_age : Z) (l : list lxmf_contact) : list lxmf_contact * Z :=
  match l with
  | [] => ([], 0)
  | c :: l => let x := expire_entries now max_age l in if expired now max_age c then (zero_contact :: x.1, x.2 + 1) else (c :: x.1, x.2)
  end.

Definition lxmf_contact_book_expire (b : lxmf_contact_book) (max_age now : Z) : Z * lxmf_contact_book :=
  let x := expire_entries now max_age (take b.(capacity) b.(entries)) in
  (x.2, {| entries := x.1 ++ drop b.(capacity) b.(entries); capacity := b.(capacity); count := wrap64 (b.(count) - x.2) |}).

(** ** The book of contacts *)

Definition slots (b : lxmf_contact_book) : list lxmf_contact := take b.(capacity) b.(entries).

Definition used_count (l : list lxmf_contact) : nat := length (filter (λ c, c.(used) = true) l).

(** Every contact has one entry, and they are counted. *)
Record book_ok (b : lxmf_contact_book) : Prop := {
  bo_capacity : (b.(capacity) <= length b.(entries))%nat /\ Z.of_nat b.(capacity) < 2 ^ 64;
  bo_unique : forall i j c d, slots b !! i = Some c -> slots b !! j = Some d -> c.(used) = true -> d.(used) = true -> c.(delivery_hash) = d.(delivery_hash) -> i = j;
  bo_count : b.(count) = Z.of_nat (used_count (slots b))
}.

Lemma is_contact_true h c : is_contact h c = true <-> c.(used) = true /\ c.(delivery_hash) = h.
Proof. unfold is_contact. by rewrite andb_true_iff, bool_decide_eq_true. Qed.

Lemma book_lookup b h c : book_ok b -> lxmf_contact_book_lookup b h = Some c <-> exists i, slots b !! i = Some c /\ is_contact h c = true.
Proof.
  intros Hok. unfold lxmf_contact_book_lookup. fold (slots b). rewrite fmap_Some. split.
  - intros ([i c'] & (Hi & Hc & _)%list_find_Some & ->). by exists i.
  - intros (i & Hi & Hc). destruct (list_find_elem_of (λ c, is_contact h c = true) (slots b) c) as [[j c'] Hj]; [by eapply list_elem_of_lookup_2|done|].
    exists (j, c'). split; [done|]. apply list_find_Some in Hj as (Hj & Hc' & _). apply is_contact_true in Hc as [Hu Hh], Hc' as [Hu' Hh']. assert (i = j) as <- by (apply (bo_unique b Hok i j c c' Hi Hj Hu Hu'); congruence). cbn. congruence.
Qed.

Lemma find_slot_spec h l i slot :
  match find_slot h l i slot with
  | Some k => (slot = Some k /\ Forall (λ c, is_contact h c = false) l) \/ (exists j c, k = (i + j)%nat /\ l !! j = Some c /\
      (is_contact h c = true \/ (c.(used) = false /\ Forall (λ c, is_contact h c = false) l)))
  | None => slot = None /\ Forall (λ c, c.(used) = true /\ is_contact h c = false) l
  end.
Proof.
  revert i slot. induction l as [|c l IH]; intros i slot; cbn [find_slot]; [destruct slot; [by left|done]|]. destruct (is_contact h c) eqn:Ec; [right; exists 0%nat, c; split; [lia|]; split; [done|by left]|].
  specialize (IH (S i) (if slot is None then (if negb c.(used) then Some i else None) else slot)). destruct (find_slot _ _ _ _) as [k|].
  - destruct IH as [[Hs Hf]|(j & d & -> & Hj & Hd)].
    + destruct slot as [s|]; [injection Hs as ->; left; split; [done|by constructor]|]. destruct (used c) eqn:Eu; [done|]. injection Hs as <-. right. exists 0%nat, c. split; [lia|]. split; [done|]. right. split; [done|by constructor].
    + right. exists (S j), d. split; [lia|]. split; [done|]. destruct Hd as [Hd|[Hd Hf]]; [by left|right]. split; [done|by constructor].
  - destruct IH as [Hs Hf]. destruct slot; [done|]. destruct (used c) eqn:Eu; [|done]. split; [done|]. by constructor.
Qed.

Lemma used_count_insert l i c old : l !! i = Some old -> c.(used) = true -> used_count (<[i := c]> l) = (used_count l + if old.(used) then 0 else 1)%nat.
Proof.
  intros Hi Hc. pose proof (lookup_lt_Some _ _ _ Hi) as Hl. rewrite insert_take_drop by done. rewrite <-(take_drop_middle l i old Hi) at 3. unfold used_count. rewrite !list.filter_app, !length_app, !filter_cons, Hc.
  rewrite decide_True by done. destruct (used old); [rewrite decide_True by done|rewrite decide_False by done]; cbn [length]; lia.
Qed.

Lemma used_count_cons c l : used_count (c :: l) = ((if c.(used) then 1 else 0) + used_count l)%nat.
Proof. unfold used_count. rewrite filter_cons. destruct (used c); [rewrite decide_True by done|rewrite decide_False by done]; done. Qed.

Lemma used_count_le l : (used_count l <= length l)%nat.
Proof. induction l as [|c l IH]; [done|]. rewrite used_count_cons. cbn [length]. destruct (used c); lia. Qed.

Lemma used_count_full l : Forall (λ c, c.(used) = true) l -> used_count l = length l.
Proof. induction 1 as [|c l Hc _ IH]; [done|]. rewrite used_count_cons, Hc, IH. done. Qed.

Lemma used_count_free l i c : l !! i = Some c -> c.(used) = false -> (used_count l < length l)%nat.
Proof.
  revert i. induction l as [|d l IH]; intros i Hi Hc; [done|]. rewrite used_count_cons. cbn [length]. pose proof (used_count_le l). destruct i as [|i]; [injection Hi as ->; rewrite Hc; lia|]. specialize (IH i Hi Hc). destruct (used d); lia.
Qed.

Lemma slots_insert b i c : (i < capacity b)%nat -> take (capacity b) (<[i := c]> (entries b)) = <[i := c]> (slots b).
Proof. intros Hi. unfold slots. by rewrite take_insert_lt. Qed.

Lemma update_contact_made h pub a now : data_ok a -> exists c, updated_contact h pub a now = Some c /\ c.(used) = true /\ c.(delivery_hash) = h /\ c.(identity_public) = pub /\ c.(last_seen) = now.
Proof.
  intros [(L1 & _) (N1 & _) _ _ _]. unfold LXMF_DISPLAY_NAME_MAX in N1. unfold updated_contact. rewrite memread_in by lia. cbn [mbind option_bind]. rewrite drop_0. unfold memcpy. rewrite decide_True by (rewrite length_take, length_replicate; lia).
  cbn [mbind option_bind]. unfold store. rewrite decide_True; [by eexists|]. cbn [Nat.add]. rewrite take_0, drop_replicate. cbn [app]. rewrite length_app, length_take, length_replicate. lia.
Qed.

(** Updating a contact. *)
Lemma book_update b h pub a now : book_ok b -> data_ok a ->
  exists st b', lxmf_contact_book_update b h pub a now = Some (st, b') /\ book_ok b' /\ b'.(capacity) = b.(capacity) /\
    (st = LXMF_OK \/ st = LXMF_ERR_BOUNDS) /\ (st = LXMF_ERR_BOUNDS <-> lxmf_contact_book_lookup b h = None /\ b.(count) = Z.of_nat b.(capacity)) /\
    (st = LXMF_ERR_BOUNDS -> b' = b) /\
    (st = LXMF_OK -> exists c, updated_contact h pub a now = Some c /\ forall k, lxmf_contact_book_lookup b' k = if decide (k = h) then Some c else lxmf_contact_book_lookup b k).
Proof.
  intros Hok Ha. destruct (update_contact_made h pub a now Ha) as (c & Hc & Hcu & Hch & _). unfold lxmf_contact_book_update. pose proof Ha as [(L1 & _) (N1 & N2 & N3) Hcost _ _]. rewrite (proj2 (Nat.ltb_ge _ _)) by done.
  unfold LXMF_DISPLAY_NAME_MAX in N1. rewrite memread_in by lia. cbn [mbind option_bind]. rewrite drop_0. fold (name_of a). destruct (announce_utf8_total (name_of a)) as (v & -> & Hv); [by apply Forall_take|]. cbn [mbind option_bind]. rewrite (proj2 Hv N3).
  assert (cost_bad a = false) as ->. { unfold cost_bad. destruct (has_stamp_cost a); [|done]. specialize (Hcost eq_refl). by rewrite !(proj2 (Z.ltb_ge _ _)) by lia. } cbn [negb orb].
  fold (slots b). pose proof (find_slot_spec h (slots b) 0 None) as Hf. destruct (find_slot h (slots b) 0 None) as [i|].
  2: { exists LXMF_ERR_BOUNDS, b. destruct Hf as [_ Hf]. split_and!; [done|done|done|by right| |done|done]. split; [intros _|done]. split.
    - destruct (lxmf_contact_book_lookup b h) as [d|] eqn:El; [|done]. apply (book_lookup b h d Hok) in El as (i & Hi & Hd). apply (Forall_lookup_1 _ _ _ _ Hf) in Hi as [_ Hi]. congruence.
    - rewrite (bo_count b Hok), used_count_full by (eapply Forall_impl; [|exact Hf]; by intros ? [? _]). unfold slots. rewrite length_take. pose proof (bo_capacity b Hok). lia. }
  assert (exists old, slots b !! i = Some old /\ (is_contact h old = true \/ (used old = false /\ Forall (λ c, is_contact h c = false) (slots b)))) as (old & Hi & Hold).
  { destruct Hf as [[? _]|(j & old & -> & Hi & Hold)]; [done|]. by exists old. }
  assert (i < capacity b)%nat as Hic by (apply lookup_lt_Some in Hi; unfold slots in Hi; rewrite length_take in Hi; lia). assert (entries b !! i = Some old) as Ei by (unfold slots in Hi; by rewrite lookup_take_lt in Hi).
  rewrite Ei, Hc. cbn [mbind option_bind]. set (b' := {| entries := _; capacity := _; count := _ |}). assert (slots b' = <[i := c]> (slots b)) as Hs by exact (slots_insert b i c Hic).
  assert (forall j d, slots b' !! j = Some d -> used d = true -> j = i /\ d = c \/ j <> i /\ slots b !! j = Some d /\ delivery_hash d <> h) as Hcases.
  { intros j d Hj Hd. rewrite Hs in Hj. apply list_lookup_insert_Some in Hj as [(<- & <- & _)|[Hne Hj]]; [by left|]. right. split_and!; [done|done|]. intros Eh. destruct Hold as [[Hu Hh]%is_contact_true|[_ Hno]].
    - apply Hne, (bo_unique b Hok i j old d Hi Hj Hu Hd). congruence.
    - apply (Forall_lookup_1 _ _ _ _ Hno) in Hj. unfold is_contact in Hj. rewrite Hd, bool_decide_true in Hj by done. done. }
  assert (book_ok b') as Hok'.
  { constructor.
    - cbn [b' entries capacity]. rewrite length_insert. apply (bo_capacity b Hok).
    - intros j k d e Hj Hk Hd He Eh. destruct (Hcases j d Hj Hd) as [[-> ->]|(Hj1 & Hj2 & Hj3)], (Hcases k e Hk He) as [[-> ->]|(Hk1 & Hk2 & Hk3)]; [done|congruence|congruence|]. by eapply (bo_unique b Hok).
    - cbn [b' count]. fold b'. rewrite Hs, (used_count_insert _ _ _ old) by done. rewrite (bo_count b Hok). pose proof (used_count_le (slots b)) as Hle. unfold slots in Hle. rewrite length_take in Hle. fold (slots b) in Hle. pose proof (bo_capacity b Hok).
      destruct (used old) eqn:Eu; [lia|]. pose proof (used_count_free _ _ _ Hi Eu) as Hlt. unfold slots in Hlt. rewrite length_take in Hlt. fold (slots b) in Hlt. rewrite wrap_small by (unfold in_width; lia). lia. }
  exists LXMF_OK, b'. split_and!; [done|done|done|by left| |done|].
  - split; [done|]. intros [Hnone Hfull]. exfalso. destruct Hold as [Hold|[Hu _]].
    + assert (lxmf_contact_book_lookup b h = Some old) as E by (apply (book_lookup b h old Hok); by exists i). congruence.
    + pose proof (used_count_free _ _ _ Hi Hu) as Hlt. rewrite (bo_count b Hok) in Hfull. unfold slots in Hlt at 2. rewrite length_take in Hlt. lia.
  - intros _. exists c. split; [done|]. intros k. apply option_eq. intros d. rewrite (book_lookup b' k d Hok'). case_decide as Ek.
    + subst k. split.
      * intros (j & Hj & [Hd Hh]%is_contact_true). destruct (Hcases j d Hj Hd) as [[_ ->]|(_ & _ & ?)]; [done|congruence].
      * intros [= <-]. exists i. rewrite Hs, list_lookup_insert_eq by (by eapply lookup_lt_Some). split; [done|]. by apply is_contact_true.
    + rewrite (book_lookup b k d Hok). split.
      * intros (j & Hj & Hd). pose proof Hd as [Hu Hh]%is_contact_true. destruct (Hcases j d Hj Hu) as [[_ ->]|(_ & Hj' & _)]; [congruence|by exists j].
      * intros (j & Hj & Hd). exists j. split; [|done]. rewrite Hs. apply is_contact_true in Hd as [Hu Hh]. rewrite list_lookup_insert_ne; [done|]. intros <-. rewrite Hi in Hj. injection Hj as <-. destruct Hold as [[_ ?]%is_contact_true|[? _]]; congruence.
Qed.

Lemma expire_entries_spec now max_age l :
  (expire_entries now max_age l).1 = (λ c, if expired now max_age c then zero_contact else c) <$> l /\
  (expire_entries now max_age l).2 = Z.of_nat (used_count l) - Z.of_nat (used_count (expire_entries now max_age l).1) /\ 0 <= (expire_entries now max_age l).2.
Proof.
  induction l as [|c l (IH1 & IH2 & IH3)]; [done|]. cbn [expire_entries fmap list_fmap]. destruct (expired now max_age c) eqn:E; cbn [fst snd]; rewrite !used_count_cons, <-IH1; (split; [done|]).
  - unfold expired in E. apply andb_prop in E as [[-> _]%andb_prop _]. cbn [zero_contact used]. lia.
  - lia.
Qed.

Lemma expire_slots b max_age now : (capacity b <= length (entries b))%nat -> slots (lxmf_contact_book_expire b max_age now).2 = (λ c, if expired now max_age c then zero_contact else c) <$> slots b.
Proof.
  intros Hc. unfold lxmf_contact_book_expire, slots at 1. cbn [snd capacity entries]. fold (slots b). rewrite (proj1 (expire_entries_spec now max_age (slots b))). apply take_app_length'. rewrite length_fmap. unfold slots. rewrite length_take. lia.
Qed.

(** Expiring contacts. *)
Lemma book_expire b max_age now : book_ok b ->
  let b' := (lxmf_contact_book_expire b max_age now).2 in
  book_ok b' /\ b'.(capacity) = b.(capacity) /\ (lxmf_contact_book_expire b max_age now).1 = b.(count) - b'.(count) /\
    forall k c, lxmf_contact_book_lookup b' k = Some c <-> lxmf_contact_book_lookup b k = Some c /\ expired now max_age c = false.
Proof.
  intros Hok b'. pose proof (bo_capacity b Hok) as [Hc1 Hc2]. pose proof (expire_slots b max_age now Hc1) as Hs. fold b' in Hs. destruct (expire_entries_spec now max_age (slots b)) as (E1 & E2 & E3).
  assert (forall i c, slots b' !! i = Some c -> used c = true -> slots b !! i = Some c /\ expired now max_age c = false) as Hin.
  { intros i c Hi Hu. rewrite Hs, list_lookup_fmap in Hi. apply fmap_Some in Hi as (c' & Hi & ->). destruct (expired now max_age c') eqn:E; [done|]. by split. }
  assert (count b' = Z.of_nat (used_count (slots b')) /\ (lxmf_contact_book_expire b max_age now).1 = count b - count b') as [Hcount Hn].
  { change (lxmf_contact_book_expire b max_age now).1 with (expire_entries now max_age (slots b)).2. change (count b') with (wrap64 (count b - (expire_entries now max_age (slots b)).2)).
    rewrite Hs, <-E1. rewrite (bo_count b Hok). pose proof (used_count_le (slots b)) as Hle. unfold slots in Hle at 2. rewrite length_take in Hle. rewrite wrap_small by (unfold in_width; lia). lia. }
  assert (book_ok b') as Hok'.
  { constructor; [| |done].
    - split; [|exact Hc2]. unfold b', lxmf_contact_book_expire. cbn [snd entries capacity]. rewrite length_app, length_drop. fold (slots b). rewrite E1, length_fmap. unfold slots. rewrite length_take. lia.
    - intros i j c d Hi Hj Hu Hv Eh. destruct (Hin i c Hi Hu) as [Hi' _], (Hin j d Hj Hv) as [Hj' _]. by apply (bo_unique b Hok i j c d). }
  split_and!; [done|done|done|]. intros k c. rewrite (book_lookup b' k c Hok'), (book_lookup b k c Hok). split.
  - intros (i & Hi & Hk). pose proof Hk as [Hu _]%is_contact_true. destruct (Hin i c Hi Hu) as [Hi' He]. split; [by exists i|done].
  - intros [(i & Hi & Hk) He]. exists i. split; [|done]. rewrite Hs, list_lookup_fmap, Hi. cbn [fmap option_fmap option_map]. by rewrite He.
Qed.

(** ** The map a book stands for *)

Definition contacts (b : lxmf_contact_book) : gmap (list Z) lxmf_contact := list_to_map ((λ c, (c.(delivery_hash), c)) <$> filter (λ c, c.(used) = true) (slots b)).

Lemma contacts_keys b : book_ok b -> NoDup (((λ c, (c.(delivery_hash), c)) <$> filter (λ c, c.(used) = true) (slots b)).*1).
Proof.
  intros [_ Hu _]. rewrite <-list_fmap_compose. revert Hu. generalize (slots b). intros l. induction l as [|c l IH]; intros Hu; [constructor|]. assert (NoDup (fst ∘ (λ c, (delivery_hash c, c)) <$> filter (λ c, used c = true) l)) as Hl.
  { apply IH. intros i j d e Hi Hj Hd He Eh. assert (S i = S j) as [= ->]; [|done]. by apply (Hu (S i) (S j) d e). }
  rewrite filter_cons. case_decide as Hc; [|done]. cbn [fmap list_fmap]. apply list.NoDup_cons. split; [|done]. intros Hin. apply list_elem_of_fmap in Hin as (d & Eh & Hin). apply list_elem_of_filter in Hin as [Hd Hin]. cbn in Eh.
  apply list_elem_of_lookup_1 in Hin as [i Hi]. by assert (0%nat = S i) by (by apply (Hu 0%nat (S i) c d)).
Qed.

Lemma contacts_lookup b h : book_ok b -> contacts b !! h = lxmf_contact_book_lookup b h.
Proof.
  intros Hok. apply option_eq. intros c. rewrite (book_lookup b h c Hok). unfold contacts. rewrite <-elem_of_list_to_map by (by apply contacts_keys). rewrite list_elem_of_fmap. split.
  - intros (d & [= -> ->] & [Hd Hin]%list_elem_of_filter). apply list_elem_of_lookup_1 in Hin as [i Hi]. exists i. split; [done|]. by apply is_contact_true.
  - intros (i & Hi & [Hu <-]%is_contact_true). exists c. split; [done|]. apply list_elem_of_filter. split; [done|by eapply list_elem_of_lookup_2].
Qed.

Lemma contacts_size b : book_ok b -> b.(count) = Z.of_nat (size (contacts b)).
Proof. intros Hok. rewrite (bo_count b Hok). unfold contacts. rewrite map_size_list_to_map by (by apply contacts_keys). by rewrite length_fmap. Qed.

(** ** Sequences of operations *)

Inductive book_op : Type := Update (hash pub : list Z) (a : lxmf_announce_data) (now : Z) | Expire (max_age now : Z).

Definition op_ok (op : book_op) : Prop := match op with Update _ _ a _ => data_ok a | Expire _ _ => True end.

Definition book_step (b : lxmf_contact_book) (op : book_op) : option lxmf_contact_book :=
  match op with
  | Update hash pub a now => snd <$> lxmf_contact_book_update b hash pub a now
  | Expire max_age now => Some (lxmf_contact_book_expire b max_age now).2
  end.

Fixpoint book_run (b : lxmf_contact_book) (ops : list book_op) : option lxmf_contact_book :=
  match ops with [] => Some b | op :: ops => b ← book_step b op; book_run b ops end.

(** The operations on a map of at most [cap] contacts. *)
Definition spec_step (cap : nat) (m : gmap (list Z) lxmf_contact) (op : book_op) : gmap (list Z) lxmf_contact :=
  match op with
  | Update hash pub a now =>
      match m !! hash, updated_contact hash pub a now with
      | None, Some c => if (size m =? cap)%nat then m else <[hash := c]> m
      | Some _, Some c => <[hash := c]> m
      | _, None => m
      end
  | Expire max_age now => filter (λ kc, expired now max_age kc.2 = false) m
  end.

Lemma book_step_refines b op : book_ok b -> op_ok op -> exists b', book_step b op = Some b' /\ book_ok b' /\ capacity b' = capacity b /\ contacts b' = spec_step (capacity b) (contacts b) op.
Proof.
  intros Hok Hop. destruct op as [h pub a now|max_age now]; cbn [book_step spec_step op_ok] in *.
  - destruct (book_update b h pub a now Hok Hop) as (st & b' & -> & Hok' & Hcap & Hst & Hfull & Hsame & Hnew). exists b'. split; [done|]. split; [done|]. split; [done|]. rewrite (contacts_lookup b h Hok).
    pose proof (contacts_size b Hok) as Hsize. destruct (update_contact_made h pub a now Hop) as (c & Hc & _). rewrite Hc. destruct Hst as [->| ->].
    + destruct (Hnew eq_refl) as (c' & Hc' & Hl). rewrite Hc in Hc'. injection Hc' as <-. assert (contacts b' = <[h := c]> (contacts b)) as Hm.
      { apply map_eq. intros k. rewrite (contacts_lookup b' k Hok'), Hl. case_decide as Ek; [subst; by rewrite lookup_insert_eq|]. by rewrite lookup_insert_ne, (contacts_lookup b k Hok) by done. }
      destruct (lxmf_contact_book_lookup b h) eqn:El; [done|]. destruct (Nat.eqb_spec (size (contacts b)) (capacity b)) as [E|]; [|done]. assert (LXMF_OK = LXMF_ERR_BOUNDS) as H by (apply Hfull; split; [done|lia]). done.
    + rewrite (Hsame eq_refl). destruct (proj1 Hfull eq_refl) as [-> Hn]. by rewrite (proj2 (Nat.eqb_eq _ _)) by lia.
  - destruct (book_expire b max_age now Hok) as (Hok' & Hcap & _ & Hl). eexists. split; [done|]. split; [done|]. split; [done|]. apply map_eq. intros k. apply option_eq. intros c.
    rewrite (contacts_lookup _ k Hok'), Hl, map_lookup_filter_Some, (contacts_lookup b k Hok). done.
Qed.

Lemma book_run_refines b ops : book_ok b -> Forall op_ok ops -> exists b', book_run b ops = Some b' /\ book_ok b' /\ capacity b' = capacity b /\ contacts b' = foldl (spec_step (capacity b)) (contacts b) ops.
Proof.
  intros Hok Hops. revert b Hok. induction Hops as [|op ops Hop _ IH]; intros b Hok; [by exists b|]. destruct (book_step_refines b op Hok Hop) as (b1 & H1 & Hok1 & Hc1 & Hm1). cbn [book_run foldl]. rewrite H1. cbn [mbind option_bind].
  destruct (IH b1 Hok1) as (b2 & H2 & Hok2 & Hc2 & Hm2). exists b2. rewrite Hm2, Hm1, Hc1. split_and!; [done|done|congruence|done].
Qed.

Lemma book_init_ok s cap b : Z.of_nat cap < 2 ^ 64 -> lxmf_contact_book_init (Some s) cap = Some (LXMF_OK, Some b) -> book_ok b /\ capacity b = cap /\ contacts b = ∅.
Proof.
  intros H64. unfold lxmf_contact_book_init. destruct (cap =? 0)%nat; [done|]. case_decide as Hl; [|done]. intros [= <-]. set (b := {| entries := _; capacity := _; count := _ |}). assert (slots b = replicate cap zero_contact) as Hs.
  { unfold slots. cbn [b entries capacity]. apply take_app_length'. by rewrite length_replicate. }
  assert (filter (λ c, used c = true) (slots b) = []) as Hf by (rewrite Hs; clear; induction cap as [|n IH]; [done|]; cbn [replicate]; by rewrite filter_cons_False, IH by done).
  split_and!; [|done|unfold contacts; by rewrite Hf]. constructor.
  - cbn [b entries capacity]. rewrite length_app, length_replicate, length_drop. lia.
  - intros i j c d Hi _ Hu. rewrite Hs in Hi. apply lookup_replicate in Hi as [-> _]. done.
  - unfold used_count. by rewrite Hf.
Qed.


End Contacts.
