(* ===== verification/Handles.v ===== *)
(** * Handles of interfaces and storage

    [platform/interface.c] and [platform/storage.c]: what the library does with the operations of
    a provider. The provider is not part of the library: a handle records the calls that
    were made to it, and [answer] is what it answers to the last of them. *)

From Stdlib Require Import ZArith Lia.
From S2P Require Import Prelude Platform.

Module Interface.

(** A call of the provider's operations. *)
Inductive call : Type := CStart | CPoll (budget : nat) | CSend (packet : list Z) | CGetStats | CStop | CDestroy.

(** Which operations the provider has. *)
Record rns_interface_ops : Type := { o_start : bool; o_poll : bool; o_send : bool; o_get_stats : bool; o_stop : bool; o_destroy : bool }.

Record rns_interface : Type := { ops : rns_interface_ops; started : bool; claimed : bool; calls : list call }.

(** [platform]: whether there is a platform, and whether it has the memory. *)
Definition rns_interface_create (ops : option rns_interface_ops) (platform : option bool) : rns_status * option rns_interface :=
  match ops with
  | None => (RNS_ERROR_INVALID_ARGUMENT, None)
  | Some ops =>
      if negb ops.(o_start) || negb ops.(o_poll) || negb ops.(o_send) || negb ops.(o_get_stats) || negb ops.(o_stop) then (RNS_ERROR_INVALID_ARGUMENT, None)
      else
        match platform with
        | None => (RNS_ERROR_INVALID_STATE, None)
        | Some false => (RNS_ERROR_NO_MEMORY, None)
        | Some true => (RNS_OK, Some {| ops := ops; started := false; claimed := false; calls := [] |})
        end
  end.

Definition called (c : call) (i : rns_interface) : rns_interface := {| i with calls := i.(calls) ++ [c] |}.

(** The calls that were made once the handle is gone. *)
Definition rns_interface_destroy (i : rns_interface) : list call :=
  let i := if i.(started) then called CStop i else i in
  (if i.(ops).(o_destroy) then called CDestroy i else i).(calls).

Section Provider.
Variable answer : list call -> rns_status.

Definition rns_interface_start (i : rns_interface) : rns_status * rns_interface :=
  if i.(started) then (RNS_ERROR_INVALID_STATE, i)
  else
    let i := called CStart i in
    let status := answer i.(calls) in
    (status, if is_ok status then {| i with started := true |} else i).

Definition rns_interface_claim (i : rns_interface) : rns_status * rns_interface :=
  if i.(claimed) then (RNS_ERROR_INVALID_STATE, i)
  else let '(status, i) := rns_interface_start i in (status, if is_ok status then {| i with claimed := true |} else i).

Definition rns_interface_poll (i : rns_interface) (budget : nat) : rns_status * rns_interface :=
  if negb i.(started) then (RNS_ERROR_INVALID_STATE, i) else let i := called (CPoll budget) i in (answer i.(calls), i).

Definition rns_interface_send (i : rns_interface) (packet : slice) : rns_status * rns_interface :=
  match packet with
  | SNull _ | SBytes [] => (RNS_ERROR_INVALID_ARGUMENT, i)
  | SBytes p => if negb i.(started) then (RNS_ERROR_INVALID_STATE, i) else let i := called (CSend p) i in (answer i.(calls), i)
  end.

Definition rns_interface_get_stats (i : rns_interface) : rns_status * rns_interface := let i := called CGetStats i in (answer i.(calls), i).

Definition rns_interface_stop (i : rns_interface) : rns_interface := if i.(started) then let i := called CStop i in {| i with started := false |} else i.

(** ** The protocol of the provider *)

Inductive operation : Type := Start | Claim | Poll (budget : nat) | Send (packet : slice) | GetStats | Stop.

Definition operate (i : rns_interface) (op : operation) : rns_interface :=
  match op with
  | Start => (rns_interface_start i).2
  | Claim => (rns_interface_claim i).2
  | Poll budget => (rns_interface_poll i budget).2
  | Send packet => (rns_interface_send i packet).2
  | GetStats => (rns_interface_get_stats i).2
  | Stop => rns_interface_stop i
  end.

(** Whether the provider runs after the calls, [None] when one of them was not allowed: it is
    started while it is stopped, and polled, sent to and stopped while it runs. *)
Definition provider_step (past : list call) (running : bool) (c : call) : option bool :=
  match c with
  | CStart => if running then None else Some (is_ok (answer (past ++ [CStart])))
  | CPoll _ | CSend _ => if running then Some true else None
  | CGetStats => Some running
  | CStop => if running then Some false else None
  | CDestroy => None
  end.

Fixpoint provider_run (past : list call) (running : bool) (cs : list call) : option bool :=
  match cs with
  | [] => Some running
  | c :: cs => r ← provider_step past running c; provider_run (past ++ [c]) r cs
  end.

Lemma provider_run_snoc past running cs c : provider_run past running (cs ++ [c]) = (r ← provider_run past running cs; provider_step (past ++ cs) r c).
Proof.
  revert past running. induction cs as [|d cs IH]; intros past running; cbn [provider_run app].
  - cbn [mbind option_bind]. rewrite app_nil_r. by destruct (provider_step past running c).
  - destruct (provider_step past running d); [|done]. cbn [mbind option_bind]. rewrite IH, <-app_assoc. done.
Qed.

(** The provider runs exactly when the handle says that it was started. *)
Definition follows (i : rns_interface) : Prop := provider_run [] false i.(calls) = Some i.(started).

Lemma follows_called i c r : follows i -> provider_step i.(calls) i.(started) c = Some r -> provider_run [] false (called c i).(calls) = Some r.
Proof. intros Hf Hs. unfold called. cbn [calls]. rewrite provider_run_snoc, Hf. done. Qed.

Lemma start_follows i : follows i -> follows (rns_interface_start i).2.
Proof.
  intros Hf. unfold rns_interface_start. destruct (started i) eqn:E; [done|]. cbn [snd]. unfold follows. set (st := answer _). assert (provider_run [] false (calls (called CStart i)) = Some (is_ok st)) as H by (apply follows_called; [done|]; cbn; by rewrite E).
  destruct st eqn:Est; cbn [is_ok started calls] in *; [exact H|rewrite H; cbn [called started]; by rewrite E..].
Qed.

Lemma operate_follows i op : follows i -> follows (operate i op).
Proof.
  intros Hf. destruct op as [| |budget|packet| |]; cbn [operate].
  - by apply start_follows.
  - unfold rns_interface_claim. destruct (claimed i); [done|]. pose proof (start_follows i Hf) as H. destruct (rns_interface_start i) as [status j]. cbn [snd] in *. by destruct (is_ok status).
  - unfold rns_interface_poll. destruct (started i) eqn:E; [|done]. cbn [negb snd]. unfold follows. rewrite (follows_called i (CPoll budget) true Hf) by (cbn; by rewrite E). cbn. by rewrite E.
  - unfold rns_interface_send. destruct packet as [|[|b p]]; [done|done|]. destruct (started i) eqn:E; [|done]. cbn [negb snd]. unfold follows. rewrite (follows_called i (CSend (b :: p)) true Hf) by (cbn; by rewrite E). cbn. by rewrite E.
  - unfold rns_interface_get_stats. cbn [snd]. unfold follows. by rewrite (follows_called i CGetStats (started i) Hf).
  - unfold rns_interface_stop. destruct (started i) eqn:E; [|done]. unfold follows. cbn [calls started]. apply (follows_called i CStop false Hf). cbn. by rewrite E.
Qed.

(** Whatever the operations on a handle and the answers of the provider: it is started only
    while it is stopped, polled, sent to and stopped only while it runs, and
    destroying the handle leaves it stopped, with [destroy] as the last call. *)
Theorem interface_protocol ops platform i sequence : rns_interface_create ops platform = (RNS_OK, Some i) ->
  exists calls', rns_interface_destroy (foldl operate i sequence) = calls' ++ (if i.(Interface.ops).(o_destroy) then [CDestroy] else []) /\ provider_run [] false calls' = Some false.
Proof.
  intros Hc. assert (follows i) as Hf.
  { unfold rns_interface_create in Hc. destruct ops as [ops|]; [|done]. destruct (_ || _); [done|]. destruct platform as [[]|]; [|done..]. by injection Hc as <-. }
  assert (follows (foldl operate i sequence) /\ Interface.ops (foldl operate i sequence) = Interface.ops i) as [Hf' Ho].
  { clear Hc. revert i Hf. induction sequence as [|op sequence IH]; intros i Hf; [done|]. cbn [foldl]. destruct (IH (operate i op) (operate_follows i op Hf)) as [H1 H2]. split; [done|]. rewrite H2. destruct op; cbn [operate]; try done.
    - unfold rns_interface_start. destruct (started i); [done|]. cbn [snd]. by destruct (is_ok _).
    - unfold rns_interface_claim, rns_interface_start. destruct (claimed i); [done|]. cbn [snd fst]. destruct (started i); cbn [fst snd]; [done|]. destruct (answer _); done.
    - unfold rns_interface_poll. by destruct (started i).
    - unfold rns_interface_send. destruct packet as [|[|]]; [done|done|]. by destruct (started i).
    - unfold rns_interface_stop. by destruct (started i). }
  unfold rns_interface_destroy. destruct (started (foldl operate i sequence)) eqn:E.
  - exists (calls (called CStop (foldl operate i sequence))). split; [|apply follows_called; [done|]; cbn; by rewrite E]. cbn [called Interface.ops calls]. rewrite Ho. destruct (o_destroy _); [done|by rewrite app_nil_r].
  - exists (calls (foldl operate i sequence)). split; [|rewrite Hf'; by rewrite E]. rewrite Ho. destruct (o_destroy _); [done|by rewrite app_nil_r].
Qed.
End Provider.
End Interface.

Module Storage.

Definition RNS_STORAGE_KEY_MAX : nat := 64.

(** A [const char *] is [None] for the null pointer, otherwise the bytes before the
    terminating zero. *)
Definition valid_key (key : option (list Z)) : bool :=
  match key with
  | None => false
  | Some k => let length := (length k `min` (RNS_STORAGE_KEY_MAX + 1))%nat in negb (length =? 0)%nat && (length <=? RNS_STORAGE_KEY_MAX)%nat
  end.

Section Provider.
(** The answers of the provider: the status and the bytes it wrote. *)
Variable read : list Z -> nat -> rns_status * list Z.
Variable write_atomic : list Z -> list Z -> rns_status.
Variable remove : list Z -> rns_status.

(** The status, the output buffer and [*length], [n0] before the call. *)
Definition rns_storage_read (key : option (list Z)) (output : option (list Z)) (capacity n0 : nat) : option (rns_status * option (list Z) * nat) :=
  match key with
  | Some k =>
      if negb (valid_key key) || ((if output is None then true else false) && negb (capacity =? 0)%nat) then Some (RNS_ERROR_INVALID_ARGUMENT, output, n0)
      else
        let x := read k capacity in
        match output with
        | None => Some (x.1, None, length x.2)
        | Some o => o ← memcpy o 0 x.2; Some (x.1, Some o, length x.2)
        end
  | None => Some (RNS_ERROR_INVALID_ARGUMENT, output, n0)
  end.

Definition rns_storage_write_atomic (key : option (list Z)) (data : slice) : rns_status :=
  match key with
  | Some k => if negb (valid_key key) || slice_bad data then RNS_ERROR_INVALID_ARGUMENT else write_atomic k (slice_bytes data)
  | None => RNS_ERROR_INVALID_ARGUMENT
  end.

Definition rns_storage_remove (key : option (list Z)) : rns_status :=
  match key with
  | Some k => if negb (valid_key key) then RNS_ERROR_INVALID_ARGUMENT else remove k
  | None => RNS_ERROR_INVALID_ARGUMENT
  end.
End Provider.
End Storage.
