(* ===== verification/PacketNode.v ===== *)
(** * The packet node

    [lxmf/packet_node.c]: the endpoint of small boards. It keeps its keys in a storage,
    announces itself, learns peers from verified announces, receives opportunistic
    messages, keeps those of unknown senders until they announce themselves, delivers each
    message once and proves the delivery. Callbacks do not call the node again, which the
    header requires of them. *)

From Stdlib Require Import ZArith Lia.
From S2P Require Import Prelude Platform Crypto Packet Identity Announce Request Sha256 Lxmf Utf8 Paper Delivery AnnounceData Handles.

Module PacketNode.
Import Sha Lxmf.

(** ** State *)

Definition PEERS : nat := 32.
Definition REPLAYS : nat := 32.
Definition PENDING : nat := 4.

Inductive lxmf_signature_state : Type := LXMF_SIGNATURE_VERIFIED | LXMF_SIGNATURE_UNVERIFIED | LXMF_SIGNATURE_FAILED.

Record lxmf_packet_node_stats : Type := {
  messages : Z; duplicates : Z; rejected : Z; unknown_senders : Z; proofs_queued : Z;
  unsupported_packets : Z;
  ingress : Z; malformed : Z; ifac_rejected : Z; announces : Z; learned_announces : Z;
  packet_types : list Z; other_destinations : Z; local_data : Z; local_other : Z;
  unsupported_data_layout : Z;
  pending_senders : Z; expired_pending : Z;
  last_message_status : lxmf_status;
  last_send_status : rns_status
}.

Record peer : Type := { peer_used : bool; peer_address : list Z; peer_identity : Identity.rns_identity; peer_timestamp : Z }.

(** [raw] is the first [length] bytes of the C array. *)
Record pending_packet : Type := { p_used : bool; p_raw : list Z; p_source : list Z; p_id : list Z; p_received_ms : Z }.

(** An entry of [replay] with its [replay_used]. *)
Record replay_entry : Type := { r_used : bool; r_id : list Z }.

(** [plain], [raw] and [body] are only used within a call. [accept]: whether the hook is
    set; [callback] likewise. *)
Record lxmf_packet_node : Type := {
  identity : Identity.rns_identity;
  ratchet_private : list Z; ratchet_public : list Z; address : list Z; name_hash : list Z;
  peers : list peer;
  next_peer : nat; next_replay : nat;
  last_announce : Z;
  replay : list replay_entry;
  pending : list pending_packet;
  callback : bool;
  accept : bool;
  stats : lxmf_packet_node_stats
}.

(** What [calloc] and [rns_hal_secure_zero] leave. *)
Definition zero_peer : peer := {| peer_used := false; peer_address := replicate 16 0; peer_identity := Identity.zero_identity; peer_timestamp := 0 |}.
Definition zero_pending : pending_packet := {| p_used := false; p_raw := []; p_source := replicate 16 0; p_id := replicate 32 0; p_received_ms := 0 |}.
Definition zero_stats : lxmf_packet_node_stats :=
  {| messages := 0; duplicates := 0; rejected := 0; unknown_senders := 0; proofs_queued := 0; unsupported_packets := 0; ingress := 0; malformed := 0; ifac_rejected := 0; announces := 0; learned_announces := 0;
     packet_types := replicate 4 0; other_destinations := 0; local_data := 0; local_other := 0; unsupported_data_layout := 0; pending_senders := 0; expired_pending := 0;
     last_message_status := LXMF_OK; last_send_status := RNS_OK |}.
Definition zero_node (callback : bool) : lxmf_packet_node :=
  {| identity := Identity.zero_identity; ratchet_private := replicate 32 0; ratchet_public := replicate 32 0; address := replicate 16 0; name_hash := replicate 10 0; peers := replicate PEERS zero_peer;
     next_peer := 0; next_replay := 0; last_announce := 0; replay := replicate REPLAYS {| r_used := false; r_id := replicate 32 0 |}; pending := replicate PENDING zero_pending; callback := callback; accept := false;
     stats := zero_stats |}.

Definition incr (x : Z) : Z := wrap64 (x + 1).
Definition decr (x : Z) : Z := wrap64 (x - 1).

(** ** The world outside

    Everything the node calls is in the log, the newest first, and may answer by all that
    is in it. *)

Inductive event : Type :=
| EClock | ERandom
| ERead | EWrite (record : list Z)
| EAccept (m : lxmf_message) (state : lxmf_signature_state) (packet : list Z)
| EDeliver (m : lxmf_message)
| ESend (packet : list Z) (status : rns_status).

(** The interface is borrowed: its owner starts and stops it. *)
Record world : Type := { log : list event; interface : Interface.rns_interface }.

Definition happens (e : event) (w : world) : world := {| log := e :: w.(log); interface := w.(interface) |}.

Section Node.
Context `{Crypto}.
(** Whether [malloc] succeeds for a size. *)
Variable malloc_ok : nat -> bool.
(** The answers of the clock, the random generator, the storage, the hook and the provider of
    the interface. *)
Variable clock : list event -> option Z.
Variable random : list event -> option (list Z).
Variable read : list event -> rns_status * list Z.
Variable write : list event -> rns_status.
Variable accept_answer : list event -> rns_status.
Variable answer : list Interface.call -> rns_status.

Definition send (raw : list Z) (w : world) : rns_status * world :=
  let x := Interface.rns_interface_send answer w.(interface) (SBytes raw) in
  (x.1, {| log := ESend raw x.1 :: w.(log); interface := x.2 |}).

(** "identity" *)
Definition IDENTITY_KEY : list Z := [105; 100; 101; 110; 116; 105; 116; 121].

Definition write_record (record : list Z) (w : world) : rns_status * world :=
  let w := happens (EWrite record) w in
  (Storage.rns_storage_write_atomic (λ _ _, write w.(log)) (Some IDENTITY_KEY) (SBytes record), w).

(** ** Peers *)

Definition is_peer (a : list Z) (p : peer) : bool := p.(peer_used) && bool_decide (p.(peer_address) = a).

Definition resolve (n : lxmf_packet_node) (source : list Z) : option Identity.rns_identity := peer_identity ∘ snd <$> list_find (λ p, is_peer source p = true) n.(peers).

(** ** Announcing *)

(** [app_data]: the encoded data "Heltec" of the announce. *)
Definition announce_data : AnnounceData.lxmf_announce_data :=
  {| AnnounceData.zero_data with AnnounceData.display_name := [72; 101; 108; 116; 101; 99] ++ replicate 122 0; AnnounceData.display_name_len := 6%nat |}.

(** The record in the storage: a version, the private keys, the ratchet and the time of the
    last announce. *)
Definition record_bytes (private_key ratchet : list Z) (timestamp : Z) : list Z := [1] ++ private_key ++ ratchet ++ ((λ i, wrap8 (Z.shiftr timestamp (56 - 8 * i))) <$> seqZ 0 8).

Definition announce_packet (n : lxmf_packet_node) (body : list Z) (context_flag : Z) : Packet.rns_packet :=
  {| Packet.header_type := 0; Packet.context_flag := context_flag; Packet.transport_type := 0; Packet.destination_type := 0; Packet.packet_type := 1; Packet.hops := 0;
     Packet.transport_id := replicate 16 0; Packet.destination_hash := n.(address); Packet.context := 0; Packet.data := SBytes body |}.

Definition set_send_status (status : rns_status) (n : lxmf_packet_node) : lxmf_packet_node :=
  let s := n.(stats) in {| n with stats := {| s with last_send_status := status |} |}.

Definition lxmf_packet_node_announce (n : lxmf_packet_node) (w : world) (timestamp : Z) : option (rns_status * lxmf_packet_node * world) :=
  if Announce.RNS_ANNOUNCE_MAX_TIMESTAMP <? timestamp then Some (RNS_ERROR_INVALID_ARGUMENT, n, w)
  else if n.(last_announce) =? Announce.RNS_ANNOUNCE_MAX_TIMESTAMP then Some (RNS_ERROR_OVERFLOW, n, w)
  else
    let timestamp := if timestamp <=? n.(last_announce) then n.(last_announce) + 1 else timestamp in
    let w := happens ERandom w in
    match random w.(log) with
    | None => Some (RNS_ERROR_CRYPTO, n, w)
    | Some prefix =>
        app ← AnnounceData.lxmf_announce_encode announce_data (Some (replicate 192 0)) 192 0;
        match app with
        | (LXMF_OK, Some app, app_len) =>
            app ← memread app 0 app_len;
            body ← Announce.rns_announce_build malloc_ok n.(identity) n.(address) n.(name_hash) prefix timestamp (Some n.(ratchet_public)) (SBytes app) (Some (replicate Packet.RNS_MTU 0)) Packet.RNS_MTU (Some 0%nat) (Some 0);
            match body with
            | (true, Some body, Some body_length, Some context_flag) =>
                body ← memread body 0 body_length;
                e ← Packet.rns_packet_encode (announce_packet n body context_flag) (Some (replicate Packet.RNS_MTU 0)) Packet.RNS_MTU (Some 0%nat);
                match e with
                | (true, Some raw, Some len) =>
                    raw ← memread raw 0 len;
                    match Identity.rns_identity_export_private n.(identity) with
                    | None => Some (RNS_ERROR_CRYPTO, n, w)
                    | Some key =>
                        let '(saved, w) := write_record (record_bytes key n.(ratchet_private) timestamp) w in
                        if negb (is_ok saved) then Some (saved, set_send_status saved n, w)
                        else
                          let '(status, w) := send raw w in
                          Some (status, set_send_status status {| n with last_announce := timestamp |}, w)
                    end
                | _ => Some (RNS_ERROR_OVERFLOW, n, w)
                end
            | _ => Some (RNS_ERROR_CRYPTO, n, w)
            end
        | _ => Some (RNS_ERROR_CRYPTO, n, w)
        end
    end.

(** ** Creating *)

(** [rns_destination_name_hash] and [rns_destination_hash] of "lxmf.delivery". *)
Definition delivery_name : option (option (list Z)) := Destination.rns_destination_name_hash (λ n, malloc_ok (Z.to_nat n)) (Some [108; 120; 109; 102]) (inr [Some [100; 101; 108; 105; 118; 101; 114; 121]]).

(** The node of a record that was read or written, or the status. *)
Definition load_record (n : lxmf_packet_node) (record : list Z) : option (rns_status * lxmf_packet_node) :=
  let last := shift_bytes (take 8 (drop 97 record)) in
  let ratchet := take 32 (drop 65 record) in
  a ← match Identity.rns_identity_from_private (take 64 (drop 1 record)) with Some i => d ← Delivery.delivery_hash malloc_ok i; Some (i, d) | None => Some (Identity.zero_identity, None) end;
  h ← delivery_name;
  Some (match a, rns_x25519_public_from_private ratchet, h with
        | (i, Some d), Some r, Some h =>
            (if Announce.RNS_ANNOUNCE_MAX_TIMESTAMP <? last then RNS_ERROR_PROTOCOL else RNS_OK,
             {| n with identity := i; ratchet_private := ratchet; ratchet_public := r; address := d; name_hash := h; last_announce := last |})
        | _, _, _ => (RNS_ERROR_CRYPTO, n)
        end).

(** The end of creating: from a record that was read or written, or an error. *)
Definition create_finish (n : lxmf_packet_node) (status : rns_status) (record : list Z) (w : world) : option (rns_status * option lxmf_packet_node * world) :=
  if negb (is_ok status) then Some (status, None, w)
  else x ← load_record n record; Some (if is_ok x.1 then (RNS_OK, Some x.2, w) else (x.1, None, w)).

(** [seed1], [seed2] and [seed3] are the random choices for new keys. *)
Definition lxmf_packet_node_create (w : world) (calloc_ok callback : bool) (seed1 seed2 seed3 : list Z) : option (rns_status * option lxmf_packet_node * world) :=
  if negb calloc_ok then Some (RNS_ERROR_NO_MEMORY, None, w)
  else
    let n := zero_node callback in
    let w := happens ERead w in
    x ← Storage.rns_storage_read (λ _ _, read w.(log)) (Some IDENTITY_KEY) (Some (1 :: replicate 104 0)) 105 0;
    match x with
    | (RNS_ERROR_NOT_FOUND, _, _) =>
        match Identity.rns_identity_generate seed1 seed2 with
        | None => create_finish n RNS_ERROR_CRYPTO [] w
        | Some i =>
            match Identity.rns_identity_export_private i, Identity.rns_identity_ratchet_generate seed3 with
            | Some key, Some (ratchet, _, _) =>
                let record := record_bytes key ratchet 0 in
                let '(status, w) := write_record record w in create_finish n status record w
            | _, _ => create_finish n RNS_ERROR_CRYPTO [] w
            end
        end
    | (RNS_OK, Some record, len) =>
        version ← load record 0;
        if negb (len =? 105)%nat || negb (version =? 1) then create_finish n RNS_ERROR_PROTOCOL record w else create_finish n RNS_OK record w
    | (status, _, _) => create_finish n status [] w
    end.

Definition lxmf_packet_node_set_accept (n : lxmf_packet_node) (hook : bool) : lxmf_packet_node := {| n with accept := hook |}.

(** ** Receiving *)

(** The result of a reception: the status, the node and the world. *)
Definition reception : Type := option (rns_status * lxmf_packet_node * world).

Definition expires (now : option Z) (p : pending_packet) : bool :=
  p.(p_used) && match now with None => true | Some now => (now <? p.(p_received_ms)) || (300000 <=? now - p.(p_received_ms)) end.

(** The loop that drops packets of unknown senders after five minutes: what is left, and how
    many were dropped. *)
Fixpoint expire_packets (now : option Z) (l : list pending_packet) : list pending_packet * Z :=
  match l with
  | [] => ([], 0)
  | p :: l => let x := expire_packets now l in if expires now p then (zero_pending :: x.1, x.2 + 1) else (p :: x.1, x.2)
  end.

Definition expire_pending (now : option Z) (n : lxmf_packet_node) : lxmf_packet_node :=
  let x := expire_packets now n.(pending) in
  let s := n.(stats) in
  {| n with pending := x.1; stats := {| s with pending_senders := wrap64 (s.(pending_senders) - x.2); expired_pending := wrap64 (s.(expired_pending) + x.2) |} |}.

Definition set_stats (n : lxmf_packet_node) (s : lxmf_packet_node_stats) : lxmf_packet_node := {| n with stats := s |}.

Definition count_type (t : Z) (n : lxmf_packet_node) : option lxmf_packet_node :=
  let s := n.(stats) in
  c ← s.(packet_types) !! Z.to_nat t; Some (set_stats n {| s with packet_types := <[Z.to_nat t := incr c]> s.(packet_types) |}).

Definition same_id (id : list Z) (p : pending_packet) : bool := p.(p_used) && bool_decide (p.(p_id) = id).

(** The first entry that is not in use. *)
Definition free_slot (l : list pending_packet) : option nat := fst <$> list_find (λ p, p.(p_used) = false) l.

(** Keeping a packet. [aliased]: the entry [raw] is in, when the packet is one that was kept;
    copying it onto itself would be undefined. *)
Definition keep_packet (aliased : option nat) (now : option Z) (m : lxmf_message) (raw : list Z) (n : lxmf_packet_node) : option lxmf_packet_node :=
  match now, free_slot n.(pending) with
  | Some now, Some slot =>
      if existsb (same_id m.(message_id)) n.(pending) || (Packet.RNS_MTU <? length raw)%nat then Some n
      else if bool_decide (aliased = Some slot) then None
      else
        let s := n.(stats) in
        Some {| n with pending := <[slot := {| p_used := true; p_raw := raw; p_source := m.(source); p_id := m.(message_id); p_received_ms := now |}]> n.(pending);
                       stats := {| s with pending_senders := incr s.(pending_senders) |} |}
  | _, _ => Some n
  end.

(** A message that could not be verified. *)
Definition reject_message (aliased : option nat) (now : option Z) (status : lxmf_status) (om : option lxmf_message) (raw : list Z) (n : lxmf_packet_node) (w : world) : reception :=
  let s := n.(stats) in
  let n := set_stats n {| s with rejected := incr s.(rejected) |} in
  match status with
  | LXMF_ERR_UNKNOWN_SIGNER =>
      m ← om;
      let s := n.(stats) in
      let n := set_stats n {| s with unknown_senders := incr s.(unknown_senders) |} in
      let w := if negb (existsb (same_id m.(message_id)) n.(pending)) && n.(accept) then happens (EAccept m LXMF_SIGNATURE_UNVERIFIED raw) w else w in
      n ← keep_packet aliased now m raw n; Some (RNS_OK, n, w)
  | _ => Some (RNS_OK, n, w)
  end.

Definition proof_packet (hash body : list Z) : Packet.rns_packet :=
  {| Packet.header_type := 0; Packet.context_flag := 0; Packet.transport_type := 0; Packet.destination_type := 0; Packet.packet_type := 3; Packet.hops := 0;
     Packet.transport_id := replicate 16 0; Packet.destination_hash := take 16 hash; Packet.context := 0; Packet.data := SBytes body |}.

(** Proving that a message was delivered. *)
Definition send_proof (raw : list Z) (n : lxmf_packet_node) (w : world) : reception :=
  match Packet.rns_packet_hash (SBytes raw) with
  | None => Some (RNS_OK, set_send_status RNS_ERROR_CRYPTO n, w)
  | Some hash =>
      match DeliveryProof.rns_proof_generate_explicit n.(identity) hash with
      | None => Some (RNS_OK, set_send_status RNS_ERROR_CRYPTO n, w)
      | Some body =>
          e ← Packet.rns_packet_encode (proof_packet hash body) (Some (replicate Packet.RNS_MTU 0)) Packet.RNS_MTU (Some 0%nat);
          match e with
          | (true, Some out, Some len) =>
              out ← memread out 0 len;
              let '(status, w) := send out w in
              let n := set_send_status status n in
              let s := n.(stats) in
              Some (RNS_OK, if is_ok status then set_stats n {| s with proofs_queued := incr s.(proofs_queued) |} else n, w)
          | _ => Some (RNS_OK, set_send_status RNS_ERROR_OVERFLOW n, w)
          end
      end
  end.

Definition was_delivered (id : list Z) (n : lxmf_packet_node) : bool := existsb (λ r, r.(r_used) && bool_decide (r.(r_id) = id)) n.(replay).

(** A message that was verified. *)
Definition accept_message (m : lxmf_message) (raw : list Z) (n : lxmf_packet_node) (w : world) : reception :=
  let s := n.(stats) in
  if was_delivered m.(message_id) n then send_proof raw (set_stats n {| s with duplicates := incr s.(duplicates) |}) w
  else
    let '(accepted, w) := if n.(accept) then let w := happens (EAccept m LXMF_SIGNATURE_VERIFIED raw) w in (accept_answer w.(log), w) else (RNS_OK, w) in
    if negb (is_ok accepted) then Some (accepted, n, w)
    else
      _ ← n.(replay) !! n.(next_replay);
      let n := {| n with replay := <[n.(next_replay) := {| r_used := true; r_id := m.(message_id) |}]> n.(replay); next_replay := ((n.(next_replay) + 1) mod REPLAYS)%nat; stats := {| s with messages := incr s.(messages) |} |} in
      let w := if n.(callback) then happens (EDeliver m) w else w in
      send_proof raw n w.

(** A packet for this node. *)
Definition receive_data (aliased : option nat) (now : option Z) (p : Packet.rns_packet) (raw : list Z) (n : lxmf_packet_node) (w : world) : reception :=
  let s := n.(stats) in
  let s := {| s with local_data := incr s.(local_data) |} in
  let s := if negb (p.(Packet.header_type) =? 0) || negb (p.(Packet.destination_type) =? 0) || negb (p.(Packet.context) =? 0) then {| s with unsupported_data_layout := incr s.(unsupported_data_layout) |} else s in
  let n := set_stats n s in
  x ← Delivery.lxmf_opportunistic_packet_unpack_ratchets malloc_ok (SBytes raw) n.(identity) [n.(ratchet_private)] false (Some (lxmf_identity_verifier (Some (resolve n)))) (Some (replicate Packet.RNS_MTU 0)) Packet.RNS_MTU 0 false;
  let '(status, _, _, opened) := x in
  let om := o ← opened; Delivery.o_message o in
  let n := set_stats n {| s with last_message_status := status |} in
  match status with
  | LXMF_OK => m ← om; accept_message m raw n w
  | _ => reject_message aliased now status om raw n w
  end.

(** *** Learning *)

(** The loop over the packets that were kept. [receive] is [lxmf_packet_node_receive] on the
    packet of an entry. *)
Fixpoint replay_pending (receive : nat -> list Z -> lxmf_packet_node -> world -> reception) (delivery : list Z) (indices : list nat) (n : lxmf_packet_node) (w : world) : option (lxmf_packet_node * world) :=
  match indices with
  | [] => Some (n, w)
  | i :: indices =>
      p ← n.(pending) !! i;
      if negb p.(p_used) || negb (bool_decide (p.(p_source) = delivery)) then replay_pending receive delivery indices n w
      else
        let s := n.(stats) in
        x ← receive i p.(p_raw) {| n with pending := <[i := {| p with p_used := false |}]> n.(pending); stats := {| s with pending_senders := decr s.(pending_senders) |} |} w;
        let '(_, n, w) := x in
        _ ← n.(pending) !! i;
        replay_pending receive delivery indices {| n with pending := <[i := zero_pending]> n.(pending) |} w
  end.

(** The entry of a peer: [None] when the announce is older than the one it was learned
    from. *)
Definition peer_slot (delivery : list Z) (timestamp : Z) (n : lxmf_packet_node) : option (nat * nat) :=
  match list_find (λ p, is_peer delivery p = true) n.(peers) with
  | Some (i, p) => if timestamp <? p.(peer_timestamp) then None else Some (i, n.(next_peer))
  | None => Some (n.(next_peer), ((n.(next_peer) + 1) mod PEERS)%nat)
  end.

(** The second conversion of the public key, into the entry, is that of the first. *)
Definition learn (receive : nat -> list Z -> lxmf_packet_node -> world -> reception) (p : Packet.rns_packet) (n : lxmf_packet_node) (w : world) : option (lxmf_packet_node * world) :=
  if negb (p.(Packet.destination_type) =? 0) then Some (n, w)
  else
    x ← Announce.rns_announce_parse p.(Packet.data) p.(Packet.context_flag);
    match x with
    | None => Some (n, w)
    | Some a =>
        v ← Announce.rns_announce_verify malloc_ok p.(Packet.destination_hash) p.(Packet.data) p.(Packet.context_flag);
        if negb v then Some (n, w)
        else
          match Identity.rns_identity_from_public a.(Announce.public_key) with
          | None => Some (n, w)
          | Some i =>
              d ← Delivery.delivery_hash malloc_ok i;
              match d with
              | None => Some (n, w)
              | Some delivery =>
                  match peer_slot delivery a.(Announce.timestamp) n with
                  | None => Some (n, w)
                  | Some (slot, next) =>
                      _ ← n.(peers) !! slot;
                      let s := n.(stats) in
                      let n := {| n with next_peer := next;
                                         peers := <[slot := {| peer_used := true; peer_address := delivery; peer_identity := i; peer_timestamp := a.(Announce.timestamp) |}]> n.(peers);
                                         stats := {| s with learned_announces := incr s.(learned_announces) |} |} in
                      replay_pending receive delivery (seq 0 PENDING) n w
                  end
              end
          end
    end.

(** [fuel] bounds the nesting: a packet that was kept is received again from [learn].
    [aliased]: the entry of a packet that was kept. *)
Fixpoint receive (fuel : nat) (aliased : option nat) (raw : slice) (n : lxmf_packet_node) (w : world) : reception :=
  match fuel with
  | O => None
  | S fuel =>
      let w := happens EClock w in
      let now := clock w.(log) in
      let n := expire_pending now n in
      let s := n.(stats) in
      let s := {| s with ingress := incr s.(ingress) |} in
      match raw with
      | SNull _ | SBytes [] => Some (RNS_ERROR_PROTOCOL, set_stats n {| s with malformed := incr s.(malformed) |}, w)
      | SBytes ((first :: _) as l) =>
          if negb (Z.land first 0x80 =? 0) then Some (RNS_ERROR_PROTOCOL, set_stats n {| s with ifac_rejected := incr s.(ifac_rejected) |}, w)
          else
            match Packet.rns_packet_decode raw with
            | None => Some (RNS_ERROR_PROTOCOL, set_stats n {| s with malformed := incr s.(malformed) |}, w)
            | Some p =>
                n ← count_type p.(Packet.packet_type) (set_stats n s);
                let s := n.(stats) in
                if p.(Packet.packet_type) =? 1 then
                  x ← learn (λ i raw, receive fuel (Some i) (SBytes raw)) p (set_stats n {| s with announces := incr s.(announces) |}) w;
                  Some (RNS_OK, x.1, x.2)
                else if negb (bool_decide (p.(Packet.destination_hash) = n.(address))) then Some (RNS_OK, set_stats n {| s with other_destinations := incr s.(other_destinations) |}, w)
                else if p.(Packet.packet_type) =? 2 then Some (RNS_ERROR_UNSUPPORTED, set_stats n {| s with unsupported_packets := incr s.(unsupported_packets) |}, w)
                else if negb (p.(Packet.packet_type) =? 0) then Some (RNS_OK, set_stats n {| s with local_other := incr s.(local_other) |}, w)
                else receive_data aliased now p l n w
            end
      end
  end.

(** A packet received from outside. Two levels are enough, which [receive_total] shows. *)
Definition lxmf_packet_node_receive (raw : slice) (n : lxmf_packet_node) (w : world) : reception := receive 2 None raw n w.

(** ** Archived packets *)

Definition lxmf_packet_node_forget_pending (n : lxmf_packet_node) (id : list Z) : lxmf_packet_node :=
  let s := n.(stats) in
  {| n with pending := (λ p, if same_id id p then zero_pending else p) <$> n.(pending);
            stats := {| s with pending_senders := wrap64 (s.(pending_senders) - Z.of_nat (length (filter (λ p, same_id id p = true) n.(pending)))) |} |}.

(** A signature that fails or cannot be checked does not stop the parsing. *)
Definition archive_verify (verifier : list Z -> list Z -> list Z -> lxmf_status) (source data signature : list Z) : lxmf_status :=
  match verifier source data signature with LXMF_ERR_SIGNATURE | LXMF_ERR_UNKNOWN_SIGNER => LXMF_OK | status => status end.

(** What [archive_verify] recorded is the status of the same call with the verifier itself. *)
Definition lxmf_packet_node_check_archive (n : lxmf_packet_node) (raw : slice) (src id : list Z) : option (rns_status * option lxmf_signature_state) :=
  match raw with
  | SNull _ | SBytes [] => Some (RNS_ERROR_INVALID_ARGUMENT, None)
  | SBytes ((first :: _) as l) =>
      if (Packet.RNS_MTU <? length l)%nat then Some (RNS_ERROR_INVALID_ARGUMENT, None)
      else if negb (Z.land first 0x80 =? 0) then Some (RNS_ERROR_PROTOCOL, None)
      else
        let verifier := lxmf_identity_verifier (Some (resolve n)) in
        let unpack v := Delivery.lxmf_opportunistic_packet_unpack_ratchets malloc_ok raw n.(identity) [n.(ratchet_private)] false (Some v) (Some (replicate Packet.RNS_MTU 0)) Packet.RNS_MTU 0 false in
        x ← unpack (archive_verify verifier);
        recorded ← unpack verifier;
        let '(status, _, _, opened) := x in
        match status, opened ≫= Delivery.o_message with
        | LXMF_OK, Some m =>
            if bool_decide (src = m.(source)) && bool_decide (id = m.(message_id)) then
              Some (RNS_OK, Some (match recorded.1.1.1 with LXMF_OK => LXMF_SIGNATURE_VERIFIED | LXMF_ERR_UNKNOWN_SIGNER => LXMF_SIGNATURE_UNVERIFIED | _ => LXMF_SIGNATURE_FAILED end))
            else Some (RNS_ERROR_PROTOCOL, None)
        | _, _ => Some (RNS_ERROR_PROTOCOL, None)
        end
  end.

(** ** The state of a node *)

Definition used_pending (l : list pending_packet) : nat := length (filter (λ p, p.(p_used) = true) l).

(** A packet that is kept: it holds a message with the source and the identifier that were
    noted. *)
Definition kept (n : lxmf_packet_node) (p : pending_packet) : Prop :=
  bytes_ok p.(p_raw) /\ exists m, Delivery.holds malloc_ok p.(p_raw) n.(identity) [n.(ratchet_private)] false Packet.RNS_MTU false m /\ p.(p_source) = m.(source) /\ p.(p_id) = m.(message_id).

Record node_ok (n : lxmf_packet_node) : Prop := {
  nk_sizes : length n.(peers) = 32%nat /\ length n.(replay) = 32%nat /\ length n.(pending) = 4%nat /\ length n.(stats).(packet_types) = 4%nat;
  nk_next : (n.(next_peer) < 32)%nat /\ (n.(next_replay) < 32)%nat;
  nk_peers : forall j p, n.(peers) !! j = Some p -> p.(peer_used) = true -> Delivery.delivery_hash malloc_ok p.(peer_identity) = Some (Some p.(peer_address));
  nk_pending : forall j p, n.(pending) !! j = Some p -> p.(p_used) = true -> kept n p;
  nk_count : n.(stats).(pending_senders) = Z.of_nat (used_pending n.(pending))
}.

(** What a node keeps of its record: its keys, its address and the time of its last
    announce. *)
Definition keys (n : lxmf_packet_node) : Identity.rns_identity * list Z * list Z * list Z * list Z * Z :=
  (n.(identity), n.(ratchet_private), n.(ratchet_public), n.(address), n.(name_hash), n.(last_announce)).

Record keys_ok (n : lxmf_packet_node) : Prop := {
  ky_identity : Identity.wf n.(identity) /\ n.(identity).(Identity.has_private) = true;
  ky_ratchet : length n.(ratchet_private) = 32%nat /\ rns_x25519_public_from_private n.(ratchet_private) = Some n.(ratchet_public);
  ky_address : Delivery.delivery_hash malloc_ok n.(identity) = Some (Some n.(address));
  ky_name : delivery_name = Some (Some n.(name_hash));
  ky_last : 0 <= n.(last_announce) <= Announce.RNS_ANNOUNCE_MAX_TIMESTAMP
}.

(** The messages that were delivered, the newest first. *)
Definition delivered (l : list event) : list lxmf_message := omap (λ e, match e with EDeliver m => Some m | _ => None end) l.

(** A delivered message is for this node, and signed by the identity its source is the
    address of. *)
Definition signed (n : lxmf_packet_node) (m : lxmf_message) : Prop :=
  Delivery.delivery_hash malloc_ok n.(identity) = Some (Some m.(destination)) /\
  exists who, Delivery.delivery_hash malloc_ok who = Some (Some m.(source)) /\
    Identity.rns_identity_verify who (m.(destination) ++ m.(source) ++ payload_image m false ++ m.(message_id)) m.(signature) = true.

Definition replay_of (id : option (list Z)) : replay_entry := match id with Some id => {| r_used := true; r_id := id |} | None => {| r_used := false; r_id := replicate 32 0 |} end.

(** The state of a node that has delivered the messages [d]. *)
Record good (n : lxmf_packet_node) (d : list lxmf_message) : Prop := {
  go_node : node_ok n;
  go_callback : n.(callback) = true;
  (** The replay cache is a ring of the last identifiers. *)
  go_ring : forall k, (k < 32)%nat -> n.(replay) !! ((n.(next_replay) + 31 - k) mod 32)%nat = Some (replay_of (message_id <$> d !! k));
  (** A message is not delivered again before 32 others. *)
  go_once : forall k, NoDup (message_id <$> take 33 (drop k d));
  go_signed : Forall (signed n) d;
  go_keys : keys_ok n
}.

(** What only counts leaves everything else as it is. *)
Definition same_core (n n' : lxmf_packet_node) : Prop :=
  keys n' = keys n /\ peers n' = peers n /\ next_peer n' = next_peer n /\ next_replay n' = next_replay n /\ replay n' = replay n /\
  pending n' = pending n /\ callback n' = callback n /\ accept n' = accept n /\ pending_senders (stats n') = pending_senders (stats n) /\ length (packet_types (stats n')) = length (packet_types (stats n)).

Lemma same_core_refl n : same_core n n.
Proof. done. Qed.

Lemma same_core_trans a b c : same_core a b -> same_core b c -> same_core a c.
Proof. unfold same_core. intros (-> & -> & -> & -> & -> & -> & -> & -> & -> & ->). tauto. Qed.

Lemma keys_ok_keys n n' : keys n' = keys n -> keys_ok n -> keys_ok n'.
Proof. intros [=] [? ? ? ? ?]. constructor; congruence. Qed.

Lemma keys_kept n n' p : keys n' = keys n -> kept n p -> kept n' p.
Proof. unfold kept. by intros [= -> -> _ _ _ _]. Qed.

Lemma keys_signed n n' m : keys n' = keys n -> signed n m -> signed n' m.
Proof. unfold signed. by intros [= -> _ _ _ _ _]. Qed.

Lemma good_core n n' d : same_core n n' -> good n d -> good n' d.
Proof.
  intros (E1 & E2 & E3 & E4 & E5 & E6 & E7 & E8 & E9 & E10) [[Hs Hn Hp Hk Hc] Hcb Hr Ho Hsg Hky]. constructor; [|congruence|by rewrite E4, E5|done| |by apply (keys_ok_keys n)].
  - constructor; [by rewrite E2, E5, E6, E10|by rewrite E3, E4|by rewrite E2| |by rewrite E9, E6]. rewrite E6. intros j p Hj Hu. apply (keys_kept n); [done|]. by apply (Hk j).
  - eapply Forall_impl; [|exact Hsg]. intros m. by apply keys_signed.
Qed.

(** *** Counting the packets that are kept *)

Lemma used_pending_cons p l : used_pending (p :: l) = ((if p.(p_used) then 1 else 0) + used_pending l)%nat.
Proof. unfold used_pending. rewrite filter_cons. destruct (p_used p); [rewrite decide_True by done|rewrite decide_False by done]; done. Qed.

Lemma used_pending_le l : (used_pending l <= length l)%nat.
Proof. induction l as [|c l IH]; [done|]. rewrite used_pending_cons. cbn [length]. destruct (p_used c); lia. Qed.

Lemma used_pending_insert l i p old : l !! i = Some old -> (used_pending (<[i := p]> l) + (if p_used old then 1 else 0) = used_pending l + (if p_used p then 1 else 0))%nat.
Proof.
  intros Hi. pose proof (lookup_lt_Some _ _ _ Hi) as Hl. rewrite insert_take_drop by done. rewrite <-(take_drop_middle l i old Hi) at 3. unfold used_pending. rewrite !list.filter_app, !length_app. fold (used_pending (p :: drop (S i) l)) (used_pending (old :: drop (S i) l)).
  rewrite !used_pending_cons. lia.
Qed.

Lemma expire_packets_spec now l : (expire_packets now l).1 = (λ p, if expires now p then zero_pending else p) <$> l /\
  (expire_packets now l).2 = Z.of_nat (used_pending l) - Z.of_nat (used_pending (expire_packets now l).1) /\ 0 <= (expire_packets now l).2.
Proof.
  induction l as [|c l (IH1 & IH2 & IH3)]; [done|]. cbn [expire_packets fmap list_fmap]. destruct (expires now c) eqn:E; cbn [fst snd]; rewrite !used_pending_cons, <-IH1; (split; [done|]).
  - unfold expires in E. apply andb_prop in E as [-> _]. cbn [zero_pending p_used]. lia.
  - lia.
Qed.

(** The pending packets may be replaced by some of them and entries not in use. *)
Lemma good_pending n d l s : good n d -> length l = 4%nat -> (forall j p, l !! j = Some p -> p_used p = true -> kept n p) -> pending_senders s = Z.of_nat (used_pending l) -> length (packet_types s) = 4%nat ->
  good {| n with pending := l; stats := s |} d.
Proof.
  intros [[(S1 & S2 & S3 & S4) Hn Hp Hk Hc] Hcb Hr Ho Hsg Hky] Hl Hkept Hcount Htypes. constructor; [|done|done|done|done|by apply (keys_ok_keys n)]. constructor; [done|done|done|done|done].
Qed.

Lemma expire_pending_good now n d : good n d -> good (expire_pending now n) d.
Proof.
  intros Hg. pose proof (go_node n d Hg) as [(S1 & S2 & S3 & S4) _ _ Hk Hc]. destruct (expire_packets_spec now (pending n)) as (E1 & E2 & E3). apply good_pending; [done| | |  |done].
  - by rewrite E1, length_fmap.
  - intros j p Hj Hu. rewrite E1, list_lookup_fmap in Hj. apply fmap_Some in Hj as (q & Hq & ->). destruct (expires now q); [done|]. by apply (Hk j).
  - cbn [pending_senders]. rewrite Hc. pose proof (used_pending_le (pending n)). rewrite wrap_small by (unfold in_width; lia). lia.
Qed.

(** *** Proving and delivering *)

(** A sent proof only counts. *)
Lemma send_proof_total raw n w : exists n' w', send_proof raw n w = Some (RNS_OK, n', w') /\ same_core n n' /\ delivered (log w') = delivered (log w).
Proof.
  unfold send_proof. destruct (Packet.rns_packet_hash (SBytes raw)) as [hash|] eqn:Eh; [|by eexists _, _]. destruct (DeliveryProof.rns_proof_generate_explicit _ hash) as [body|] eqn:Eb; [|by eexists _, _].
  assert (Packet.wf (proof_packet hash body)) as Hwf.
  { apply bind_Some in Eh as (? & _ & Eh). apply sha256_length in Eh. constructor; cbn; try done; try lia. rewrite length_take. lia. }
  pose proof (Packet.encode_wire _ (replicate Packet.RNS_MTU 0) Packet.RNS_MTU 0%nat Hwf) as E. rewrite length_replicate in E. specialize (E ltac:(done)). destruct (decide _) as [Hd|].
  - destruct E as (out & -> & Hl & _ & _). cbn [mbind option_bind]. rewrite (memread_in out) by (cbn in *; lia). cbn [mbind option_bind]. destruct (send _ w) as [st w'] eqn:Es. unfold send in Es. injection Es as <- <-.
    eexists _, _. split; [done|]. split; [|done]. by destruct (is_ok _).
  - rewrite E. by eexists _, _.
Qed.

(** What is kept when a message arrives: the identity, the peers. *)
Definition frame (n n' : lxmf_packet_node) : Prop := keys n' = keys n /\ peers n' = peers n.

Lemma frame_core n n' : same_core n n' -> frame n n'.
Proof. unfold same_core, frame. tauto. Qed.

Lemma frame_trans a b c : frame a b -> frame b c -> frame a c.
Proof. unfold frame. intros (-> & ->). tauto. Qed.

Lemma was_delivered_spec id n d : good n d -> was_delivered id n = false -> id ∉ message_id <$> take 32 d.
Proof.
  intros Hg Hw Hin. apply list_elem_of_fmap in Hin as (m & -> & Hm). apply list_elem_of_lookup in Hm as [k Hk]. apply lookup_take_Some in Hk as [Hk Hk32]. pose proof (go_ring n d Hg k Hk32) as Hr. rewrite Hk in Hr.
  enough (was_delivered (message_id m) n = true) by congruence. unfold was_delivered. apply existsb_exists. eexists. split; [apply list_elem_of_In, list_elem_of_lookup; by eexists|]. cbn. by apply bool_decide_eq_true.
Qed.

Lemma ring_mod x : (x < 64)%nat -> (x mod 32)%nat = if (x <? 32)%nat then x else (x - 32)%nat.
Proof.
  intros Hx. destruct (Nat.ltb_spec x 32) as [Hs|Hs]; [by apply Nat.mod_small|]. replace x with (x - 32 + 1 * 32)%nat at 1 by lia. rewrite Nat.Div0.mod_add. apply Nat.mod_small. lia.
Qed.

(** The places of the ring before and after an entry was added. *)
Lemma ring_places a : (a < 32)%nat -> (((a + 1) mod 32 + 31 - 0) mod 32)%nat = a /\
  forall k, (S k < 32)%nat -> (((a + 1) mod 32 + 31 - S k) mod 32)%nat = ((a + 31 - k) mod 32)%nat /\ a <> ((a + 31 - k) mod 32)%nat.
Proof.
  intros Ha. rewrite (ring_mod (a + 1)) by lia. destruct (Nat.ltb_spec (a + 1) 32); (split; [|intros k Hk]); rewrite !ring_mod by lia; repeat match goal with |- context [(?x <? 32)%nat] => destruct (Nat.ltb_spec x 32) end; lia.
Qed.

(** Delivering a message that is not in the ring. *)
Lemma deliver_good n d m s : good n d -> signed n m -> was_delivered (message_id m) n = false -> pending_senders s = pending_senders (stats n) -> packet_types s = packet_types (stats n) ->
  good {| n with replay := <[n.(next_replay) := {| r_used := true; r_id := m.(message_id) |}]> n.(replay); next_replay := ((n.(next_replay) + 1) mod REPLAYS)%nat; stats := s |} (m :: d).
Proof.
  intros Hg Hm Hw Hs Ht. pose proof (was_delivered_spec _ n d Hg Hw) as Hnew. destruct Hg as [[(S1 & S2 & S3 & S4) [N1 N2] Hp Hk Hc] Hcb Hr Ho Hsg Hky]. change REPLAYS with 32%nat. constructor; cbn [callback].
  - constructor; cbn [peers replay pending stats next_peer next_replay].
    + by rewrite length_insert, Ht.
    + split; [done|]. apply Nat.mod_upper_bound. lia.
    + done.
    + exact Hk.
    + by rewrite Hs.
  - done.
  - cbn [replay next_replay]. intros k Hk32. destruct k as [|k].
    + rewrite (proj1 (ring_places _ N2)), list_lookup_insert_eq by lia. done.
    + destruct (proj2 (ring_places _ N2) k Hk32) as [-> ?]. rewrite list_lookup_insert_ne by done. rewrite (Hr k) by lia. done.
  - intros [|k]; cbn [drop take fmap list_fmap].
    + apply list.NoDup_cons. split; [done|]. specialize (Ho 0%nat). rewrite drop_0 in Ho. apply (sublist_NoDup _ (message_id <$> take 33 d)); [done|]. apply fmap_sublist. rewrite <-(take_take d 32 33 : _ = take 32 d). apply sublist_take.
    + apply Ho.
  - by constructor.
  - by apply (keys_ok_keys n).
Qed.

Lemma accept_message_good m raw n w : good n (delivered (log w)) -> signed n m ->
  exists st n' w', accept_message m raw n w = Some (st, n', w') /\ good n' (delivered (log w')) /\ frame n n' /\ pending n' = pending n.
Proof.
  intros Hg Hm. unfold accept_message. destruct (was_delivered (message_id m) n) eqn:Ew.
  - edestruct send_proof_total as (n' & w' & E & Hc & Hd). rewrite E. eexists _, _, _. split; [done|]. rewrite Hd.
    split; [eapply good_core; [exact Hc|]; by apply (good_core n)|]. split; [by apply frame_core in Hc|]. apply Hc.
  - set (w1 := if accept n then happens (EAccept m LXMF_SIGNATURE_VERIFIED raw) w else w). assert (exists st, (if accept n then (accept_answer (log (happens (EAccept m LXMF_SIGNATURE_VERIFIED raw) w)), happens (EAccept m LXMF_SIGNATURE_VERIFIED raw) w) else (RNS_OK, w)) = (st, w1)) as [st ->] by (subst w1; destruct (accept n); by eexists).
    assert (delivered (log w1) = delivered (log w)) as Hd1 by (subst w1; by destruct (accept n)). destruct (is_ok st); cbn [negb]; [|eexists _, _, _; rewrite Hd1; split_and!; done].
    pose proof (go_node _ _ Hg) as [(_ & R2 & _) [_ N2] _ _ _]. destruct (lookup_lt_is_Some_2 (replay n) (next_replay n)) as [old ->]; [lia|]. cbn [mbind option_bind].
    cbv zeta. cbn [callback]. replace (if callback n then happens (EDeliver m) w1 else w1) with (happens (EDeliver m) w1) by (by rewrite (go_callback n _ Hg)).
    edestruct send_proof_total as (n' & w' & E & Hc & Hd). rewrite E. eexists _, _, _. split; [done|]. rewrite Hd. cbn [log happens delivered omap list_omap]. fold (delivered (log w1)). rewrite Hd1. split.
    + eapply good_core; [exact Hc|]. by apply deliver_good.
    + split; [by apply frame_core in Hc|]. apply Hc.
Qed.

(** *** Keeping *)

(** The messages a packet holds for the node. *)
Definition contains (n : lxmf_packet_node) (raw : list Z) (m : lxmf_message) : Prop :=
  Delivery.holds malloc_ok raw n.(identity) [n.(ratchet_private)] false Packet.RNS_MTU false m.

Lemma frame_contains n n' raw m : frame n n' -> contains n raw m -> contains n' raw m.
Proof. unfold contains. by intros ([= -> -> _ _ _ _] & _). Qed.

Lemma frame_resolve n n' a : frame n n' -> resolve n' a = resolve n a.
Proof. unfold resolve. by intros (_ & ->). Qed.

Lemma keep_packet_good now m raw n d : good n d -> bytes_ok raw -> contains n raw m -> exists n', keep_packet None now m raw n = Some n' /\ good n' d /\ frame n n'.
Proof.
  intros Hg Hb Hm. unfold keep_packet. destruct now as [now|], (free_slot (pending n)) as [slot|] eqn:Ef; try (eexists; split_and!; done). destruct (_ || _); [eexists; split_and!; done|].
  rewrite bool_decide_eq_false_2 by done. eexists. split; [done|]. split; [|done]. unfold free_slot in Ef. apply fmap_Some in Ef as ([j old] & Ef & ->). apply list_find_Some in Ef as (Hj & Hold & _). cbn [fst].
  pose proof (go_node n d Hg) as [(S1 & S2 & S3 & S4) _ _ Hk Hc]. apply good_pending; [done|by rewrite length_insert| | |done].
  - intros k q Hq Hu. destruct (decide (j = k)) as [<-|].
    + rewrite list_lookup_insert_eq in Hq by (by apply lookup_lt_Some in Hj). injection Hq as <-. split; [done|]. by exists m.
    + rewrite list_lookup_insert_ne in Hq by done. by apply (Hk k).
  - cbn [pending_senders]. pose proof (used_pending_insert (pending n) j {| p_used := true; p_raw := raw; p_source := source m; p_id := message_id m; p_received_ms := now |} old Hj) as E. rewrite Hold in E. cbn [p_used] in E.
    rewrite Hc. pose proof (used_pending_le (pending n)). unfold incr. rewrite wrap_small by (unfold in_width; lia). lia.
Qed.

Lemma reject_message_good aliased now st om raw n w : good n (delivered (log w)) -> bytes_ok raw -> (st = LXMF_ERR_UNKNOWN_SIGNER -> aliased = None /\ exists m, om = Some m /\ contains n raw m) ->
  exists n' w', reject_message aliased now st om raw n w = Some (RNS_OK, n', w') /\ good n' (delivered (log w')) /\ frame n n' /\ (aliased <> None -> pending n' = pending n).
Proof.
  intros Hg Hb Hst. unfold reject_message. destruct (decide (st = LXMF_ERR_UNKNOWN_SIGNER)) as [->|Hne].
  - destruct (Hst eq_refl) as (-> & m & -> & Hm). cbn [mbind option_bind]. cbv zeta. edestruct (keep_packet_good now m raw) as (n' & E & Hg' & Hf); [|exact Hb| |rewrite E].
    + by apply (good_core n (set_stats n _)); [|exact Hg].
    + exact Hm.
    + cbn [mbind option_bind]. eexists _, _. split; [done|]. split; [|split; [exact Hf|done]]. by destruct (_ && _).
  - destruct st; try done; eexists _, _; (split; [done|]); (split; [by apply (good_core n)|done]).
Qed.

(** *** Data for the node *)

(** A verified message is signed by a peer. *)
Lemma resolve_spec n a who : node_ok n -> resolve n a = Some who -> Delivery.delivery_hash malloc_ok who = Some (Some a).
Proof.
  intros Hn ([j p] & (Hx & Hp & _)%list_find_Some & ->)%fmap_Some. cbn [fst snd compose] in *. unfold is_peer in Hp. apply andb_prop in Hp as [Hu He%bool_decide_eq_true]. rewrite <-He. by apply (nk_peers n Hn j).
Qed.

Lemma contains_verified n raw m d : good n d -> contains n raw m ->
  lxmf_identity_verifier (Some (resolve n)) (source m) (destination m ++ source m ++ payload_image m false ++ message_id m) (signature m) = LXMF_OK -> signed n m.
Proof.
  intros Hg Hm Hv. unfold lxmf_identity_verifier in Hv. destruct (resolve n (source m)) as [who|] eqn:Er; [|done]. destruct (Identity.rns_identity_verify who _ _) eqn:Ev; [|done]. split; [apply Hm|]. exists who. split; [|exact Ev].
  eapply resolve_spec; [apply Hg|done].
Qed.

Lemma receive_data_good aliased now p raw n w : good n (delivered (log w)) -> bytes_ok raw -> (aliased <> None -> forall m, contains n raw m -> is_Some (resolve n (source m))) ->
  exists st n' w', receive_data aliased now p raw n w = Some (st, n', w') /\ good n' (delivered (log w')) /\ frame n n' /\ (aliased <> None -> pending n' = pending n).
Proof.
  intros Hg Hb Ha. unfold receive_data. cbv zeta. match goal with |- context [set_stats n ?s] => set (s1 := s) end. set (n1 := set_stats n s1).
  assert (same_core n n1) as Hc1 by (subst n1 s1; by destruct (_ || _)). destruct (Delivery.opportunistic_unpack_total malloc_ok raw n1.(identity) [n1.(ratchet_private)] false (lxmf_identity_verifier (Some (resolve n1)))
    (replicate Packet.RNS_MTU 0) Packet.RNS_MTU 0 false Hb) as (st & o' & k & op & -> & Hop); [by rewrite length_replicate|]. cbn [mbind option_bind].
  match goal with |- context [set_stats n1 ?s] => set (n2 := set_stats n1 s) end. assert (same_core n n2) as Hc2 by (apply (same_core_trans n n1); [done|]; by subst n2). pose proof (good_core _ _ _ Hc2 Hg) as Hg2.
  destruct (decide (st = LXMF_OK)) as [->|Hne].
  - destruct (Hop (or_introl eq_refl)) as (x & m & -> & Hx & Hm & Hv). cbn [mbind option_bind]. rewrite Hx. cbn [mbind option_bind].
    destruct (accept_message_good m raw n2 w) as (st & n' & w' & -> & Hg' & Hf & Hp); [done| |].
    + eapply (contains_verified n2); [exact Hg2|exact Hm|]. change (resolve n2) with (resolve n1). by destruct (lxmf_identity_verifier _ _ _ _).
    + eexists _, _, _. split; [done|]. split; [done|]. split; [by apply (frame_trans n n2); [apply frame_core|]|]. intros _. rewrite Hp. apply Hc2.
  - destruct (reject_message_good aliased now st (op ≫= Delivery.o_message) raw n2 w Hg2 Hb) as (n' & w' & E & Hg' & Hf & Hp).
    + intros ->. destruct (Hop (or_intror eq_refl)) as (x & m & -> & Hx & Hm & Hv). split; [|by exists m]. destruct aliased as [i|]; [|done]. exfalso.
      destruct (Ha ltac:(done) m) as [who Hw]; [by apply (frame_contains n1); [|exact Hm]|]. rewrite <-(frame_resolve n n1 _ (frame_core _ _ Hc1)) in Hw. unfold lxmf_identity_verifier in Hv. rewrite Hw in Hv. by destruct (Identity.rns_identity_verify _ _ _).
    + exists RNS_OK, n', w'. split; [|split; [done|split; [by apply (frame_trans n n2); [apply frame_core|]|intros Hal; rewrite (Hp Hal); apply Hc2]]]. rewrite <-E. by destruct st.
Qed.

(** *** One reception *)

Lemma count_type_core t n : (length (packet_types (stats n)) = 4)%nat -> 0 <= t <= 3 -> exists n', count_type t n = Some n' /\ same_core n n'.
Proof.
  intros Hl Ht. unfold count_type. destruct (lookup_lt_is_Some_2 (packet_types (stats n)) (Z.to_nat t)) as [c ->]; [lia|]. eexists. split; [done|]. unfold same_core. cbn [stats set_stats packet_types]. rewrite length_insert. done.
Qed.

(** What is left of the kept packets. *)
Definition shrinks (n n' : lxmf_packet_node) : Prop := forall j q, pending n' !! j = Some q -> p_used q = true -> pending n !! j = Some q.

Lemma shrinks_trans a b c : shrinks a b -> shrinks b c -> shrinks a c.
Proof. intros Hab Hbc j q Hj Hu. apply Hab; [by apply Hbc|done]. Qed.

Lemma shrinks_pending n n' : pending n' = pending n -> shrinks n n'.
Proof. unfold shrinks. by intros ->. Qed.

Lemma expire_shrinks now n : shrinks n (expire_pending now n).
Proof.
  intros j q Hj Hu. unfold expire_pending in Hj. cbn [pending] in Hj. rewrite (proj1 (expire_packets_spec now _)), list_lookup_fmap in Hj. apply fmap_Some in Hj as (x & Hx & ->). destruct (expires now x); [done|]. exact Hx.
Qed.

(** A reception that leads from one state to another. *)
Definition receives (n : lxmf_packet_node) (aliased : option nat) (r : reception) : Prop :=
  exists st n' w', r = Some (st, n', w') /\ good n' (delivered (log w')) /\ frame n n' /\ (aliased <> None -> shrinks n n').

Lemma receives_counts n n1 n' aliased st w' : good n (delivered (log w')) -> same_core n n' -> frame n1 n -> shrinks n1 n -> receives n1 aliased (Some (st, n', w')).
Proof.
  intros Hg Hc Hf Hs. exists st, n', w'. split; [done|]. split; [by apply (good_core n)|]. split; [by apply (frame_trans n1 n); [|apply frame_core]|]. intros _. apply (shrinks_trans n1 n); [done|]. apply shrinks_pending. apply Hc.
Qed.

(** A packet that is not an announce. *)
Lemma receive_plain fuel aliased raw n w : good n (delivered (log w)) -> bytes_ok raw -> (forall p, Packet.rns_packet_decode (SBytes raw) = Some p -> Packet.packet_type p <> 1) ->
  (aliased <> None -> forall m, contains n raw m -> is_Some (resolve n (source m))) -> receives n aliased (receive (S fuel) aliased (SBytes raw) n w).
Proof.
  intros Hg Hb Hp Ha. cbn [receive]. cbv zeta. set (w0 := happens EClock w). set (n0 := expire_pending _ n). assert (good n0 (delivered (log w0))) as Hg0 by by apply expire_pending_good.
  assert (frame n n0) as Hf0 by done. assert (shrinks n n0) as Hs0 by apply expire_shrinks. destruct raw as [|first raw]; [by eapply (receives_counts n0)|]. destruct (negb _); [by eapply (receives_counts n0)|].
  destruct (Packet.rns_packet_decode _) as [p|] eqn:Ep; [|by eapply (receives_counts n0)]. destruct (Packet.decode_raw _ p Hb Ep) as (_ & _ & _ & Hwf & _).
  match goal with |- context [count_type _ (set_stats n0 ?s)] => set (n1 := set_stats n0 s) end. assert (same_core n0 n1) as Hc1 by done. destruct (count_type_core (Packet.packet_type p) n1) as (n2 & -> & Hc12); [apply (go_node _ _ Hg0)|apply Hwf|].
  pose proof (same_core_trans _ _ _ Hc1 Hc12) as Hc2. cbn [mbind option_bind]. specialize (Hp p eq_refl). rewrite (proj2 (Z.eqb_neq _ _) Hp). assert (forall s, length (packet_types s) = 4%nat -> pending_senders s = pending_senders (stats n2) -> same_core n0 (set_stats n2 s)) as Hset.
  { intros s Hl Hs. apply (same_core_trans n0 n2); [done|]. unfold same_core. cbn [set_stats stats]. rewrite Hl, Hs. split_and!; try done. pose proof (nk_sizes _ (go_node _ _ Hg0)) as (_ & _ & _ & H4). transitivity (length (packet_types (stats n0))); [done|]. symmetry. apply Hc2. }
  assert (length (packet_types (stats n2)) = 4%nat) as H4 by (transitivity (length (packet_types (stats n0))); [apply Hc2|apply (go_node _ _ Hg0)]).
  destruct (negb (bool_decide _)); [eapply (receives_counts n0); [done|by apply Hset|done..]|]. destruct (_ =? 2); [eapply (receives_counts n0); [done|by apply Hset|done..]|]. destruct (negb _); [eapply (receives_counts n0); [done|by apply Hset|done..]|].
  assert (frame n n2) as Hf2 by (apply (frame_trans n n0); [done|]; by apply frame_core). destruct (receive_data_good aliased (clock (log w0)) p (first :: raw) n2 w0) as (st & n' & w' & -> & Hg' & Hf & Hpd); [by apply (good_core n0)|done| |].
  - intros Hal m Hm. rewrite (frame_resolve n n2 _ Hf2). apply Ha; [done|]. by apply (frame_contains n2 n); [split; symmetry; apply Hf2|].
  - exists st, n', w'. split; [done|]. split; [done|]. split; [by apply (frame_trans n n2)|]. intros Hal. apply (shrinks_trans n n0); [done|]. apply shrinks_pending. rewrite (Hpd Hal). apply Hc2.
Qed.

(** *** Learning *)

(** Entry [i] taken out of the kept packets. *)
Lemma take_out n d i p s : good n d -> pending n !! i = Some p -> p_used p = true -> pending_senders s = decr (pending_senders (stats n)) -> packet_types s = packet_types (stats n) ->
  good {| n with pending := <[i := {| p with p_used := false |}]> n.(pending); stats := s |} d.
Proof.
  intros Hg Hi Hu Hs Ht. pose proof (go_node n d Hg) as [(S1 & S2 & S3 & S4) _ _ Hk Hc]. apply good_pending; [done|by rewrite length_insert| | |by rewrite Ht].
  - intros j q Hj Hq. destruct (decide (i = j)) as [<-|]; [|rewrite list_lookup_insert_ne in Hj by done; by apply (Hk j)]. rewrite list_lookup_insert_eq in Hj by (by apply lookup_lt_Some in Hi). by injection Hj as <-.
  - rewrite Hs, Hc. epose proof (used_pending_insert (pending n) i {| p with p_used := false |} p Hi) as E. rewrite Hu in E. cbn [p_used] in E. pose proof (used_pending_le (pending n)). unfold decr. rewrite wrap_small by (unfold in_width; lia). lia.
Qed.

(** An entry that is not in use may be cleared. *)
Lemma clear_entry n d i : good n d -> (i < 4)%nat -> (forall q, pending n !! i = Some q -> p_used q = false) -> good {| n with pending := <[i := zero_pending]> n.(pending) |} d.
Proof.
  intros Hg Hi Hq. pose proof (go_node n d Hg) as [(S1 & S2 & S3 & S4) _ _ Hk Hc]. destruct (lookup_lt_is_Some_2 (pending n) i) as [q Hl]; [lia|]. apply (good_pending n d _ (stats n)); [done|by rewrite length_insert| | |done].
  - intros j x Hj Hx. destruct (decide (i = j)) as [<-|]; [|rewrite list_lookup_insert_ne in Hj by done; by apply (Hk j)]. rewrite list_lookup_insert_eq in Hj by lia. by injection Hj as <-.
  - rewrite Hc. pose proof (used_pending_insert (pending n) i zero_pending q Hl) as E. rewrite (Hq q Hl) in E. cbn [p_used zero_pending] in E. lia.
Qed.

Lemma replay_pending_good fuel delivery indices n w : good n (delivered (log w)) -> is_Some (resolve n delivery) -> Forall (λ i, (i < 4)%nat) indices ->
  exists n' w', replay_pending (λ i raw, receive (S fuel) (Some i) (SBytes raw)) delivery indices n w = Some (n', w') /\ good n' (delivered (log w')) /\ frame n n'.
Proof.
  revert n w. induction indices as [|i indices IH]; intros n w Hg Hr Hi; cbn [replay_pending]; [eexists _, _; split_and!; done|]. apply Forall_cons_1 in Hi as [Hi His].
  pose proof (go_node _ _ Hg) as [(S1 & S2 & S3 & S4) _ _ Hk Hc]. destruct (lookup_lt_is_Some_2 (pending n) i) as [p Hp]; [lia|]. rewrite Hp. cbn [mbind option_bind]. destruct (p_used p) eqn:Hu; cbn [negb orb]; [|by apply IH].
  destruct (bool_decide_reflect (p_source p = delivery)) as [Hs|]; cbn [negb]; [|by apply IH]. destruct (Hk i p Hp Hu) as (Hb & m & Hm & Esrc & _).
  match goal with |- context [receive (S fuel) (Some i) _ ?x w] => set (n1 := x) end. assert (good n1 (delivered (log w))) as Hg1 by by apply take_out.
  destruct (receive_plain fuel (Some i) (p_raw p) n1 w Hg1 Hb) as (st & n2 & w2 & -> & Hg2 & Hf2 & Hs2).
  - intros q Hq. destruct (Delivery.ho_packet _ _ _ _ _ _ _ _ Hm) as (q' & ? & Hq' & _ & _ & Ht & _). rewrite Hq in Hq'. injection Hq' as <-. by rewrite Ht.
  - intros _ m' Hm'. rewrite (Delivery.holds_source _ _ _ _ _ _ _ _ _ Hm' Hm), <-Esrc, Hs. done.
  - cbn [mbind option_bind]. pose proof (nk_sizes _ (go_node _ _ Hg2)) as (_ & _ & P2 & _). destruct (lookup_lt_is_Some_2 (pending n2) i) as [old ->]; [lia|]. cbn [mbind option_bind].
    match goal with |- context [replay_pending _ _ _ ?x w2] => set (n3 := x) end. destruct (IH n3 w2) as (n' & w' & -> & Hg' & Hf'); [| |done|].
    + apply clear_entry; [done|done|]. intros q Hq. destruct (p_used q) eqn:E; [|done]. pose proof (Hs2 ltac:(done) i q Hq E) as Hx. cbn [n1 pending] in Hx. rewrite list_lookup_insert_eq in Hx by lia. injection Hx as <-. done.
    + change (resolve n3 delivery) with (resolve n2 delivery). rewrite (frame_resolve n1 n2 _ Hf2). exact Hr.
    + eexists _, _. split; [done|]. split; [done|]. apply (frame_trans n n2); [exact Hf2|exact Hf'].
Qed.

(** A peer that was learned is found. *)
Lemma learned_resolve l slot (a : list Z) i t : (slot < length l)%nat -> is_Some (list_find (λ p, is_peer a p = true) (<[slot := {| peer_used := true; peer_address := a; peer_identity := i; peer_timestamp := t |}]> l)).
Proof.
  intros Hs. eapply list_find_elem_of; [apply list_elem_of_lookup; exists slot; by apply list_lookup_insert_eq|]. unfold is_peer. cbn. by apply bool_decide_eq_true.
Qed.

(** A peer may be replaced by one whose address is that of its identity. *)
Lemma good_peer n d slot next p s : good n d -> (slot < 32)%nat -> (next < 32)%nat -> Delivery.delivery_hash malloc_ok p.(peer_identity) = Some (Some p.(peer_address)) -> pending_senders s = pending_senders (stats n) -> packet_types s = packet_types (stats n) ->
  good {| n with next_peer := next; peers := <[slot := p]> n.(peers); stats := s |} d.
Proof.
  intros [[(S1 & S2 & S3 & S4) [N1 N2] Hp Hk Hc] Hcb Hr Ho Hsg Hky] Hs Hn Hd Hps Hpt. constructor; [|done|done|done|done|by apply (keys_ok_keys n)]. constructor; cbn [peers replay pending stats next_peer next_replay].
  - by rewrite length_insert, Hpt.
  - done.
  - intros j q Hj Hu. destruct (decide (slot = j)) as [<-|]; [|rewrite list_lookup_insert_ne in Hj by done; by apply (Hp j)]. rewrite list_lookup_insert_eq in Hj by lia. by injection Hj as <-.
  - exact Hk.
  - by rewrite Hps.
Qed.

Lemma peer_slot_bound delivery t n slot next : node_ok n -> peer_slot delivery t n = Some (slot, next) -> (slot < 32)%nat /\ (next < 32)%nat.
Proof.
  intros [(S1 & _) [N1 _] _ _ _]. unfold peer_slot. destruct (list_find _ _) as [[i q]|] eqn:E.
  - apply list_find_Some in E as (Hi & _). apply lookup_lt_Some in Hi. destruct (_ <? _); [done|]. intros [= <- <-]. lia.
  - change PEERS with 32%nat. pose proof (Nat.mod_upper_bound (next_peer n + 1) 32 ltac:(lia)) as Hm. intros E'. injection E' as <- <-. by split.
Qed.

(** A reception that is defined and leaves the keys. *)
Definition proceeds (n : lxmf_packet_node) (r : option (lxmf_packet_node * world)) : Prop :=
  exists n' w', r = Some (n', w') /\ good n' (delivered (log w')) /\ keys n' = keys n.

Lemma learn_good fuel p n w : good n (delivered (log w)) -> 0 <= Packet.context_flag p -> proceeds n (learn (λ i raw, receive (S fuel) (Some i) (SBytes raw)) p n w).
Proof.
  intros Hg Hf. assert (proceeds n (Some (n, w))) as Hsame by (by exists n, w). unfold learn. destruct (negb _); [done|].
  destruct (Packet.data p) as [k|b]; [done|]. pose proof (Announce.parse_spec b (Packet.context_flag p) Hf) as Hp. destruct (decide _) as [Hd|]; [|by rewrite Hp].
  destruct Hp as (a & Ha & Hpa). rewrite Ha. cbn [mbind option_bind]. destruct (Announce.verify_total malloc_ok (Packet.destination_hash p) b (Packet.context_flag p) a Ha Hpa) as [v ->].
  cbn [mbind option_bind]. destruct v; cbn [negb]; [|done]. destruct (Identity.rns_identity_from_public _) as [i|]; [|done].
  destruct (Delivery.delivery_hash_total malloc_ok i) as [[delivery|] Hdel]; rewrite Hdel; cbn [mbind option_bind]; [|done].
  destruct (peer_slot delivery _ n) as [[slot next]|] eqn:Es; [|done]. destruct (peer_slot_bound _ _ _ _ _ (go_node _ _ Hg) Es) as [Hslot Hnext].
  pose proof (nk_sizes _ (go_node _ _ Hg)) as (S1 & _). destruct (lookup_lt_is_Some_2 (peers n) slot) as [old Hold]; [lia|]. rewrite Hold. cbn [mbind option_bind].
  match goal with |- context [replay_pending _ _ _ ?x w] => set (n1 := x) end.
  assert (good n1 (delivered (log w))) as Hg1 by by apply good_peer. destruct (replay_pending_good fuel delivery (seq 0 PENDING) n1 w Hg1) as (n' & w' & -> & Hg' & Hfr).
  - unfold resolve. apply fmap_is_Some, learned_resolve. lia.
  - apply list.Forall_forall. intros j [_ Hj]%elem_of_seq. exact Hj.
  - exists n', w'. split; [done|]. split; [done|]. by destruct Hfr as [-> _].
Qed.

(** Any bytes may be received. *)
Lemma receive_good raw n w : good n (delivered (log w)) -> (forall l, raw = SBytes l -> bytes_ok l) ->
  exists st n' w', lxmf_packet_node_receive raw n w = Some (st, n', w') /\ good n' (delivered (log w')) /\ keys n' = keys n.
Proof.
  intros Hg Hb. unfold lxmf_packet_node_receive.
  assert (forall l, raw = SBytes l -> (forall p, Packet.rns_packet_decode (SBytes l) = Some p -> Packet.packet_type p <> 1) ->
    exists st n' w', receive 2 None raw n w = Some (st, n', w') /\ good n' (delivered (log w')) /\ keys n' = keys n) as Hplain.
  { intros l -> Hl. destruct (receive_plain 1 None l n w Hg (Hb l eq_refl) Hl ltac:(done)) as (st & n' & w' & E & Hg' & [Hk _] & _). by exists st, n', w'. }
  destruct raw as [k|l].
  { cbn [receive]. eexists _, _, _. split; [done|]. split; [|done]. eapply good_core; [|exact (expire_pending_good (clock (log (happens EClock w))) n _ Hg)]. done. }
  destruct (Packet.rns_packet_decode (SBytes l)) as [p|] eqn:Ep; [|by apply (Hplain l eq_refl); rewrite Ep].
  destruct (Z.eq_dec (Packet.packet_type p) 1) as [Ht|Ht]; [|apply (Hplain l eq_refl); intros q Hq; congruence].
  clear Hplain. specialize (Hb l eq_refl). destruct (Packet.decode_raw _ p Hb Ep) as (_ & _ & _ & Hwf & _). remember 1%nat as one eqn:Hone. cbn [receive]. cbv zeta.
  set (w0 := happens EClock w). set (n0 := expire_pending _ n). assert (good n0 (delivered (log w0))) as Hg0 by by apply expire_pending_good.
  destruct l as [|first l]; [done|]. destruct (negb _); [eexists _, _, _; split; [done|]; split; [by apply (good_core n0)|done]|]. rewrite Ep.
  match goal with |- context [count_type _ (set_stats n0 ?s)] => set (n1 := set_stats n0 s) end. assert (same_core n0 n1) as Hc1 by done.
  destruct (count_type_core (Packet.packet_type p) n1) as (n2 & -> & Hc12); [apply (go_node _ _ Hg0)|apply Hwf|]. cbn [mbind option_bind]. rewrite Ht. cbn [Z.eqb Pos.eqb].
  match goal with |- context [learn _ p (set_stats n2 ?s) w0] => set (n3 := set_stats n2 s) end.
  assert (same_core n0 n3) as Hc3 by (apply (same_core_trans n0 n2); [by apply (same_core_trans n0 n1)|done]).
  destruct (learn_good 0 p n3 w0) as (n' & w' & E & Hg' & Hk); [by apply (good_core n0)|apply Hwf|]. rewrite <-Hone in E.
  eexists _, _, _. rewrite E. cbn [mbind option_bind fst snd]. split; [done|]. split; [done|]. rewrite Hk. transitivity (keys n0); [apply Hc3|done].
Qed.

(** *** Announcing *)

Lemma announce_encoded : exists app n data, AnnounceData.lxmf_announce_encode announce_data (Some (replicate 192 0)) 192 0 = Some (LXMF_OK, Some app, n) /\ memread app 0 n = Some data.
Proof. eexists _, _, _. split; [vm_compute; reflexivity|]. vm_compute. reflexivity. Qed.

Lemma delivery_name_total : exists r, delivery_name = Some r.
Proof.
  destruct (Delivery.delivery_hash_total malloc_ok Identity.zero_identity) as [r Hr]. unfold Delivery.delivery_hash, Destination.rns_destination_hash in Hr. fold delivery_name in Hr.
  destruct delivery_name as [x|]; [by eexists|done].
Qed.

Lemma delivery_name_length h : delivery_name = Some (Some h) -> length h = 10%nat.
Proof.
  unfold delivery_name, Destination.rns_destination_name_hash. destruct (_ || _); [done|]. destruct (Destination.name_length _ _); [|done]. destruct (negb _); [done|].
  intros (x1 & _ & E)%bind_Some. apply bind_Some in E as ([x2 x3] & _ & E). apply bind_Some in E as (x4 & _ & E). apply bind_Some in E as (x5 & _ & E).
  injection E as E. apply bind_Some in E as (d & Hd%sha256_length & [= <-]). rewrite length_take. lia.
Qed.

(** The bytes of an announce fit their arrays. *)
Lemma keys_args n prefix t : keys_ok n -> length prefix = 5%nat -> 0 <= t <= Announce.RNS_ANNOUNCE_MAX_TIMESTAMP ->
  Announce.args_ok (Identity.rns_identity_export_public n.(identity)) n.(address) n.(name_hash) prefix t (Some n.(ratchet_public)).
Proof.
  intros [[Hwf _] [_ Hr] Ha Hn _] Hp Ht. constructor.
  - unfold Identity.rns_identity_export_public. rewrite length_app, (Identity.wf_encryption_public _ Hwf), (Identity.wf_signing_public _ Hwf). done.
  - by apply (Delivery.delivery_hash_length malloc_ok n.(identity)).
  - by apply delivery_name_length.
  - done.
  - done.
  - intros x [= <-]. by apply (x_pair_length n.(ratchet_private)), x_public_pair.
Qed.

(** A later announce and other counts. *)
Lemma good_announced n d t s : good n d -> 0 <= t <= Announce.RNS_ANNOUNCE_MAX_TIMESTAMP -> pending_senders s = pending_senders (stats n) -> packet_types s = packet_types (stats n) ->
  good {| n with last_announce := t; stats := s |} d.
Proof.
  intros [[(S1 & S2 & S3 & S4) Hn Hp Hk Hc] Hcb Hr Ho Hsg [K1 K2 K3 K4 _]] Ht Hs Hpt. constructor; [|done|done|done|done|by constructor].
  constructor; cbn [peers replay pending stats]; [by rewrite Hpt|done|done|exact Hk|by rewrite Hs].
Qed.

Hypothesis random_length : forall l p, random l = Some p -> length p = 5%nat.

Lemma announce_good n w t : good n (delivered (log w)) -> 0 <= t ->
  exists st n' w', lxmf_packet_node_announce n w t = Some (st, n', w') /\ good n' (delivered (log w')) /\ n'.(identity) = n.(identity) /\
    (st = RNS_OK -> n'.(last_announce) > n.(last_announce) /\ n'.(last_announce) >= t).
Proof.
  intros Hg Ht. pose proof (go_keys _ _ Hg) as Hky. pose proof (ky_last _ Hky) as Hlast. unfold lxmf_packet_node_announce.
  assert (forall st w', st <> RNS_OK -> delivered (log w') = delivered (log w) -> exists st0 n' w0, Some (st, n, w') = Some (st0, n', w0) /\ good n' (delivered (log w0)) /\
    n'.(identity) = n.(identity) /\ (st0 = RNS_OK -> n'.(last_announce) > n.(last_announce) /\ n'.(last_announce) >= t)) as Hfail.
  { intros st w' Hst Hd. exists st, n, w'. rewrite Hd. split_and!; done. }
  destruct (Z.ltb_spec Announce.RNS_ANNOUNCE_MAX_TIMESTAMP t); [by apply Hfail|]. destruct (Z.eqb_spec (last_announce n) Announce.RNS_ANNOUNCE_MAX_TIMESTAMP); [by apply Hfail|].
  cbv zeta. set (t' := if t <=? last_announce n then last_announce n + 1 else t).
  assert (last_announce n < t' <= Announce.RNS_ANNOUNCE_MAX_TIMESTAMP /\ t <= t') as [Ht' Htt] by (unfold t'; destruct (Z.leb_spec t (last_announce n)); lia).
  set (w1 := happens ERandom w). destruct (random (log w1)) as [prefix|] eqn:Er; [|by apply Hfail]. destruct announce_encoded as (app & k & data & -> & Hdata). cbn [mbind option_bind]. rewrite Hdata. cbn [mbind option_bind].
  destruct (Announce.build_total malloc_ok n.(identity) n.(address) n.(name_hash) prefix t' (Some n.(ratchet_public)) (SBytes data) (replicate Packet.RNS_MTU 0) Packet.RNS_MTU 0 0)
    as (ok & o & len & f & Hb & Hol & Hbody); [apply keys_args; [done|by eapply random_length|lia]|done|by rewrite length_replicate|].
  rewrite Hb. cbn [mbind option_bind]. destruct ok; [|by apply Hfail]. destruct (Hbody eq_refl) as (body & _ & Hw & -> & Hmax & ->). rewrite (wrote_read _ _ _ Hw). cbn [mbind option_bind].
  assert (Packet.wf (announce_packet n body 1)) as Hwf.
  { constructor; cbn; try done; try lia. by apply (Delivery.delivery_hash_length malloc_ok n.(identity)), Hky. }
  pose proof (Packet.encode_wire _ (replicate Packet.RNS_MTU 0) Packet.RNS_MTU 0%nat Hwf) as E. rewrite length_replicate in E. specialize (E ltac:(done)). destruct (decide _) as [Hd|]; [|rewrite E; by apply Hfail].
  destruct E as (raw & -> & Hraw). cbn [mbind option_bind]. rewrite (wrote_read _ _ _ Hraw). cbn [mbind option_bind].
  destruct (Identity.rns_identity_export_private _) as [key|]; [|by apply Hfail]. destruct (write_record _ w1) as [saved w2] eqn:Ew. unfold write_record in Ew. injection Ew as Esaved <-.
  destruct (is_ok saved) eqn:Es; cbn [negb].
  - destruct (send _ _) as [st w3] eqn:Esend. unfold send in Esend. injection Esend as <- <-. eexists _, _, _. split; [done|]. cbn [set_send_status last_announce]. split_and!; [|done|intros _; lia].
    change (delivered _) with (delivered (log w)). refine (good_announced n _ t' _ Hg _ _ _); [lia|done|done].
  - eexists _, _, _. split; [done|]. split_and!; [by apply (good_core n)|done|]. intros ->. done.
Qed.

(** *** Creating, forgetting and checking *)

Lemma shift_bytes_nonneg l : 0 <= shift_bytes l.
Proof. destruct l as [|b l _] using rev_ind; [done|]. unfold shift_bytes. rewrite foldl_app. cbn [foldl]. apply wrap_in_width. done. Qed.

Lemma load_record_good record : length record = 105%nat -> exists st n, load_record (zero_node true) record = Some (st, n) /\ (st = RNS_OK -> good n []).
Proof.
  intros Hl. unfold load_record. cbv zeta. set (key := take 64 (drop 1 record)). set (ratchet := take 32 (drop 65 record)). set (last := shift_bytes _).
  assert (0 <= last) as Hlast by apply shift_bytes_nonneg. assert (length key = 64%nat /\ length ratchet = 32%nat) as [Hkl Hrl] by (unfold key, ratchet; rewrite !length_take, !length_drop; lia).
  assert (exists i d, (match Identity.rns_identity_from_private key with Some i => d ← Delivery.delivery_hash malloc_ok i; Some (i, d) | None => Some (Identity.zero_identity, None) end) = Some (i, d) /\
    (is_Some d -> Identity.rns_identity_from_private key = Some i /\ Delivery.delivery_hash malloc_ok i = Some d)) as (i & d & -> & Hd).
  { destruct (Identity.rns_identity_from_private key) as [i|]; [|eexists _, _; split; [done|]; by intros []]. destruct (Delivery.delivery_hash_total malloc_ok i) as [d Hd]. rewrite Hd. cbn [mbind option_bind]. by eexists _, _. }
  cbn [mbind option_bind]. destruct delivery_name_total as [h Hh]. rewrite Hh. cbn [mbind option_bind]. destruct d as [d|]; [|by eexists _, _]. destruct (rns_x25519_public_from_private ratchet) as [r|] eqn:Hr; [|by eexists _, _].
  destruct h as [h|]; [|by eexists _, _]. destruct (Hd ltac:(by eexists)) as [Hi Hdh]. destruct (Identity.from_private_wf key i Hkl Hi) as (Hwf & Hpriv & _).
  eexists _, _. split; [done|]. destruct (Z.ltb_spec Announce.RNS_ANNOUNCE_MAX_TIMESTAMP last); [done|]. intros _. constructor; [|done| |intros k; rewrite drop_nil; by apply NoDup_nil_2|by constructor|].
  - constructor; [done|split; cbn; lia| | |done].
    + intros j q [-> _]%lookup_replicate. done.
    + intros j q [-> _]%lookup_replicate. done.
  - intros k Hk. apply lookup_replicate_2. change REPLAYS with 32%nat. apply Nat.mod_upper_bound. lia.
  - constructor; [done|done|done|exact Hh|cbn; lia].
Qed.

Hypothesis read_fits : forall l, (length (read l).2 <= 105)%nat.

Lemma create_good w calloc_ok seed1 seed2 seed3 :
  exists st on w', lxmf_packet_node_create w calloc_ok true seed1 seed2 seed3 = Some (st, on, w') /\ delivered (log w') = delivered (log w) /\ forall n, on = Some n -> good n [].
Proof.
  unfold lxmf_packet_node_create. destruct (negb calloc_ok); [by eexists _, _, _|]. cbv zeta. set (w1 := happens ERead w).
  assert (forall status record w', delivered (log w') = delivered (log w) -> (status = RNS_OK -> length record = 105%nat) ->
    exists st on w0, create_finish (zero_node true) status record w' = Some (st, on, w0) /\ delivered (log w0) = delivered (log w) /\ forall n, on = Some n -> good n []) as Hfin.
  { intros status record w' Hw' Hrec. unfold create_finish. destruct (is_ok status) eqn:Est; cbn [negb]; [|by eexists _, _, _]. assert (status = RNS_OK) as -> by (by destruct status).
    destruct (load_record_good record (Hrec eq_refl)) as (st & n & -> & Hg). cbn [mbind option_bind fst snd]. destruct (is_ok st) eqn:Eok; [|by eexists _, _, _].
    eexists _, _, _. split; [done|]. split; [done|]. intros ? [= <-]. apply Hg. by destruct st. }
  unfold Storage.rns_storage_read. assert (Storage.valid_key (Some IDENTITY_KEY) = true) as -> by done. cbn [negb andb orb].
  destruct (read (log w1)) as [status bytes] eqn:Er. pose proof (read_fits (log w1)) as Hfit. rewrite Er in Hfit. cbn [fst snd] in *.
  destruct (wrote_memcpy 105 (1 :: replicate 104 0) [] bytes (wrote_nil _ _ eq_refl)) as (record & Hrec & Hw & _); [cbn [length]; lia|]. cbn [length] in Hrec. rewrite Hrec. cbn [mbind option_bind].
  destruct (decide (status = RNS_ERROR_NOT_FOUND)) as [->|Hnf].
  - destruct (Identity.rns_identity_generate seed1 seed2) as [i|] eqn:Hi; [|by apply Hfin]. destruct (Identity.rns_identity_export_private i) as [key|] eqn:Hkey; [|by apply Hfin].
    destruct (Identity.rns_identity_ratchet_generate seed3) as [[[ratchet ?] ?]|] eqn:Hrat; [|by apply Hfin]. destruct (write_record _ w1) as [st w2] eqn:Ew. unfold write_record in Ew. injection Ew as _ <-.
    apply Hfin; [done|]. intros _. destruct (Identity.generate_wf _ _ _ Hi) as [Hwf Hpriv]. unfold Identity.rns_identity_export_private in Hkey. rewrite Hpriv in Hkey. injection Hkey as <-.
    apply bind_Some in Hrat as ([k p] & Hgen & [= <- _ _]). apply x_generate_spec in Hgen as [Hk _]. unfold record_bytes. cbn [fst].
    rewrite !length_app, length_fmap, length_seqZ, Hk, (Identity.wf_encryption_private _ Hwf), (Identity.wf_signing_private _ Hwf). done.
  - destruct status; try done; try (by apply Hfin). destruct record as [|version record']; [done|]. cbn [load lookup list_lookup mbind option_bind]. destruct (_ || _); by apply Hfin.
Qed.

Lemma forget_good n d id : good n d -> good (lxmf_packet_node_forget_pending n id) d.
Proof.
  intros Hg. pose proof (go_node n d Hg) as [(S1 & S2 & S3 & S4) _ _ Hk Hc]. apply good_pending; [done| | | |done].
  - by rewrite length_fmap.
  - intros j p Hj Hu. rewrite list_lookup_fmap in Hj. apply fmap_Some in Hj as (q & Hq & ->). destruct (same_id id q); [done|]. by apply (Hk j).
  - cbn [pending_senders]. rewrite Hc. assert (forall l, Z.of_nat (used_pending ((λ p, if same_id id p then zero_pending else p) <$> l)) = Z.of_nat (used_pending l) - Z.of_nat (length (filter (λ p, same_id id p = true) l))) as E.
    { clear. induction l as [|p l IH]; [done|]. cbn [fmap list_fmap]. rewrite !used_pending_cons, filter_cons. destruct (same_id id p) eqn:E; [rewrite decide_True by done|rewrite decide_False by done].
      - unfold same_id in E. apply andb_prop in E as [-> _]. cbn [zero_pending p_used length]. lia.
      - lia. }
    rewrite E. pose proof (used_pending_le (pending n)). pose proof (E (pending n)). rewrite wrap_small by (unfold in_width; lia). done.
Qed.

Lemma check_archive_total n raw src id : (forall l, raw = SBytes l -> bytes_ok l) -> exists r, lxmf_packet_node_check_archive n raw src id = Some r.
Proof.
  intros Hb. unfold lxmf_packet_node_check_archive. destruct raw as [k|[|first l]]; [by eexists..|]. specialize (Hb _ eq_refl). destruct (_ <? _)%nat; [by eexists|]. destruct (negb _); [by eexists|]. cbv zeta.
  assert (forall v, exists x, Delivery.lxmf_opportunistic_packet_unpack_ratchets malloc_ok (SBytes (first :: l)) n.(identity) [n.(ratchet_private)] false (Some v) (Some (replicate Packet.RNS_MTU 0)) Packet.RNS_MTU 0 false = Some x) as Hu.
  { intros v. edestruct Delivery.opportunistic_unpack_total as (st & o & k & op & E & _); [exact Hb| |by eexists]. by rewrite length_replicate. }
  destruct (Hu (archive_verify (lxmf_identity_verifier (Some (resolve n))))) as [[[[st ?] ?] op] ->]. destruct (Hu (lxmf_identity_verifier (Some (resolve n)))) as [y ->]. cbn [mbind option_bind].
  destruct st; try by eexists. destruct (op ≫= _); [|by eexists]. destruct (_ && _); by eexists.
Qed.

(** ** Any use of a node *)

Inductive node_op : Type :=
| OpReceive (raw : slice)
| OpAnnounce (timestamp : Z)
| OpForget (id : list Z)
| OpSetAccept (hook : bool)
| OpCheck (raw : slice) (src id : list Z).

Definition op_ok (op : node_op) : Prop :=
  match op with
  | OpReceive raw | OpCheck raw _ _ => forall l, raw = SBytes l -> bytes_ok l
  | OpAnnounce t => in_width 64 t
  | _ => True
  end.

Definition node_step (op : node_op) (n : lxmf_packet_node) (w : world) : option (lxmf_packet_node * world) :=
  match op with
  | OpReceive raw => x ← lxmf_packet_node_receive raw n w; let '(_, n, w) := x in Some (n, w)
  | OpAnnounce t => x ← lxmf_packet_node_announce n w t; let '(_, n, w) := x in Some (n, w)
  | OpForget id => Some (lxmf_packet_node_forget_pending n id, w)
  | OpSetAccept hook => Some (lxmf_packet_node_set_accept n hook, w)
  | OpCheck raw src id => _ ← lxmf_packet_node_check_archive n raw src id; Some (n, w)
  end.

Fixpoint node_run (ops : list node_op) (n : lxmf_packet_node) (w : world) : option (lxmf_packet_node * world) :=
  match ops with [] => Some (n, w) | op :: ops => x ← node_step op n w; node_run ops x.1 x.2 end.

Lemma node_step_good op n w : op_ok op -> good n (delivered (log w)) ->
  exists n' w', node_step op n w = Some (n', w') /\ good n' (delivered (log w')) /\ n'.(identity) = n.(identity).
Proof.
  intros Hop Hg. destruct op as [raw|t|id|hook|raw src id]; cbn [node_step].
  - destruct (receive_good raw n w Hg Hop) as (st & n' & w' & -> & Hg' & Hk). exists n', w'. split; [done|]. split; [done|]. by injection Hk.
  - destruct (announce_good n w t Hg) as (st & n' & w' & -> & Hg' & Hi & _); [apply Hop|]. by exists n', w'.
  - eexists _, _. split; [done|]. split; [by apply forget_good|done].
  - eexists _, _. split; [done|]. split; [|done]. destruct Hg as [[S N P K C] B R O G Y]. constructor; [|done|done|done|done|by apply (keys_ok_keys n)]. by constructor.
  - destruct (check_archive_total n raw src id Hop) as [r ->]. by exists n, w.
Qed.

End Node.

(** ** A concrete node

    With a storage that has no record yet, a clock that works, random bytes and an
    interface that was started and takes every packet. *)

Definition sample_interface : Interface.rns_interface :=
  {| Interface.ops := {| Interface.o_start := true; Interface.o_poll := true; Interface.o_send := true; Interface.o_get_stats := true; Interface.o_stop := true; Interface.o_destroy := false |};
     Interface.started := true; Interface.claimed := true; Interface.calls := [Interface.CStart] |}.

Definition sample_random (_ : list event) : option (list Z) := Some [1; 2; 3; 4; 5].
Definition sample_read (_ : list event) : rns_status * list Z := (RNS_ERROR_NOT_FOUND, []).
Definition sample_ok (_ : list event) : rns_status := RNS_OK.

Abbreviation sample_create := (lxmf_packet_node_create (λ _, true) sample_read sample_ok {| log := []; interface := sample_interface |} true true [1] [2] [3]).
Definition sample_node : lxmf_packet_node := match sample_create with Some (_, Some n, _) => n | _ => zero_node true end.
Definition sample_world : world := match sample_create with Some (_, _, w) => w | _ => {| log := []; interface := sample_interface |} end.

(** Another identity, its announce, and a message from it to the node. *)
Definition sample_peer : Identity.rns_identity := default Identity.zero_identity (Identity.rns_identity_generate [4] [6]).
Definition sample_peer_address : list Z := default [] (mjoin (Delivery.delivery_hash (λ _, true) sample_peer)).

Definition sample_announce : list Z :=
  match Announce.rns_announce_build (λ _, true) sample_peer sample_peer_address sample_node.(name_hash) [1; 2; 3; 4; 5] 7 None (SBytes []) (Some (replicate 500 0)) 500 (Some 0%nat) (Some 0) with
  | Some (true, Some body, Some n, Some f) => let p := announce_packet sample_node (take n body) f in Packet.wire {| p with Packet.destination_hash := sample_peer_address |}
  | _ => []
  end.

Definition sample_message : list Z :=
  let m := Paper.paper_message in
  match Delivery.lxmf_opportunistic_packet_pack_ratchet (λ _, true) {| m with destination := sample_node.(address); source := sample_peer_address |} sample_peer (Identity.public_half sample_node.(identity)) None [3] [4]
    (Some (replicate 500 0)) 500 0 with
  | Some (LXMF_OK, Some packet, n) => take n packet
  | _ => []
  end.

Definition sample_ops : list node_op := [OpReceive (SBytes sample_message); OpAnnounce 5; OpReceive (SBytes sample_announce); OpReceive (SBytes sample_message)].

Abbreviation sample_run ops := (node_run (λ _, true) (λ l, Some (Z.of_nat (length l))) sample_random sample_ok sample_ok (λ _, RNS_OK) ops sample_node sample_world).

(** The message of an unknown sender is kept, delivered when the sender announces itself,
    and not delivered again; both receptions after the announce are proved. *)
Example sample_delivers : exists n w m, sample_run sample_ops = Some (n, w) /\ delivered (log w) = [m] /\ m.(source) = sample_peer_address /\
  n.(stats).(pending_senders) = 0 /\ n.(stats).(duplicates) = 1 /\ n.(stats).(proofs_queued) = 2.
Proof. eexists _, _, _. split; [vm_compute; reflexivity|]. split_and!; vm_compute; reflexivity. Qed.

Lemma bytes_op_ok l : bool_decide (bytes_ok l) = true -> op_ok (OpReceive (SBytes l)).
Proof. intros Hb l' [= <-]. by apply bool_decide_eq_true in Hb. Qed.

Lemma sample_use_ok : Forall op_ok sample_ops.
Proof.
  apply Forall_cons_2; [apply bytes_op_ok; vm_compute; reflexivity|]. apply Forall_cons_2; [by split|].
  apply Forall_cons_2; [apply bytes_op_ok; vm_compute; reflexivity|]. apply Forall_cons_2; [apply bytes_op_ok; vm_compute; reflexivity|apply Forall_nil_2].
Qed.

Lemma sample_run_delivers : (λ x, length (delivered (log x.2))) <$> sample_run sample_ops = Some 1%nat.
Proof. vm_compute. reflexivity. Qed.

Lemma sample_created : (λ x, bool_decide (is_Some x.1.2)) <$> sample_create = Some true.
Proof. vm_compute. reflexivity. Qed.

End PacketNode.
